(* ===== verification/_CoqProject ===== *)
-Q . S2P
Prelude.v
Bytes.v
Bio.v
Log.v
Recovery.v
GroupCommit.v
CStr.v
KString.v
Kalloc.v
Vm.v
VmProofs.v
VmCopy.v
VmUser.v
Pipe.v
File.v
Fs.v
FsBlocks.v
FsFile.v
FsRw.v
FsInode.v
FsWrite.v
FsDir.v
FsCache.v
FsPath.v
FsLink.v
FsRest.v
Mkfs.v
MkfsFile.v
MkfsProofs.v
MkfsImage.v
Sysfile.v
FileWrite.v
SysfileProofs.v
FileCalls.v
Exec.v
ExecProofs.v
ExecStack.v
GetLastCat.v
Ports.v
Console.v
Kbd.v
ConsoleProofs.v
ConsoleSys.v
Ide.v
IdeProofs.v
Umalloc.v
UmallocProofs.v
Grep.v
Sh.v
ShParse.v
ShRun.v
Man.v
ManProofs.v
Locks.v
Proc.v
Sched.v
Kernel.v
Trap.v
Mmap.v
MmapProofs.v
SafeQueue.v
Proxy.v
Wfs.v
WfsProofs.v
Wsh.v
WshProofs.v
