(* ===== verification/Prelude.v ===== *)
(** * A verification of the course projects: kernels, a shell, a proxy and a file system

    The repository holds the programs of an operating systems course: programs for manual
    pages (src/p1), three copies of the xv6 kernel, with its user programs, and the changes
    of projects 2, 4 and 5 (src/p2, src/p4, src/p5), a shell (src/p3), a proxy server with a
    priority queue (src/p6) and a log-structured file system on FUSE (src/p7).  This library models their own code, C function by C function, and
    proves what makes it correct, or exhibits what does not.

    ** How the code is modelled

    A C function is a computation [M S A] (below) on the state [S] of its component: it
    returns, panics, goes to sleep, does something C leaves undefined (a null pointer, an
    index outside an array), or runs out of the fuel of a loop.  Integers are [Z] with their
    wrap-around written out ([u32], [s32], [u16], [u8]); memory, disk blocks and pages are
    lists of bytes ([Bytes]); C strings are lists of bytes without the NUL ([CStr]).
    Functions keep the names they have in C.  Sections under a spin lock run as one step;
    where processes or threads interleave, the steps are an inductive relation.  Programs
    whose system calls matter in their order are trees of system calls ([Sh]), and code that
    signals interrupt looks for them before every access ([Wsh]).  The fuel of
    a loop is computed from its bound in the code (the number of pages, blocks or bytes it
    can still visit), and the theorems show that it is never used up.

    ** The kernel (files of src/p5/xv6-public unless said otherwise)

    - [Bio]: bio.c, sleeplock.c, memide.c.  Buffers with flags, reference counts and locks,
      the list in order of use, and the disk.  [bread] returns the current contents of a
      block and [bget] recycles the right buffer.
    - [Log], [Recovery], [GroupCommit]: log.c.  The write-ahead log over the buffer cache.
      The abstract disk is what replaying the log would give; a file system call is durable,
      and atomic with respect to a crash at any of its block writes, also when the recovery
      crashes; concurrent calls keep to their reservations.  The reservation of a full group
      does not fit into the log that mkfs makes.
    - [Fs]: fs.c.  The block bitmap, inodes and their cache, file contents through direct
      and indirect blocks, directories, paths, on top of [Bio] and [Log].  [FsBlocks] has the
      rules for computations inside a transaction and the allocator; [FsFile] a file as the
      blocks of its inode, and [bmap]; [FsRw] and [FsInode] the loops of [readi] and [writei],
      [iupdate] and [ilock].  [FsWrite] collects what callers rely on: reads return the
      contents, writes lay bytes over them and touch no other file, and a write in its own
      transaction is durable and atomic over crashes.
    - [FsDir], [FsCache], [FsPath], [FsLink]: the same functions of fs.c seen by their callers.
      A directory is a map from names to inode numbers; the inode cache counts the references
      held; a path is resolved as the walk of the directories on the disk, without a lock or a
      reference left over; [dirlink] adds a name, and sleeps forever on the name of the
      directory itself.  [FsRest] is the file system between two calls.
    - [Sysfile], [SysfileProofs], [FileCalls]: sysfile.c and syscall.c.  The calling process is
      its memory, stack pointer and descriptors.  Arguments stay inside the memory, the
      descriptors in step with the file table; [open], [dup] and [chdir] are followed through
      all layers.  The pipes are the class [PipeServices], so that the file table of [File]
      stands on the file system of [Fs].
    - [File]: file.c.  The table of open files and its reference counts; the inode layer is
      the class [FileServices].
    - [FileWrite]: [filewrite] of file.c with the inode layer of [Fs] and the log of [Log] in
      place of that class: the pieces of a large write are transactions, up to the first
      that does not fit the largest file.
    - [Pipe]: pipe.c.  A bounded FIFO across the wrap-around of its counters, with any number
      of readers and writers.
    - [KString]: string.c, byte by byte on one memory.
    - [Kalloc]: kalloc.c.  The free list is read from the pages it links; no page is handed
      out twice.
    - [Vm], [VmProofs], [VmCopy]: vm.c.  Two-level page tables in pages of [Kalloc].  An
      address space owns its directory, tables and user pages; every operation keeps the
      partition of memory into owned and free pages, grows with zeroed pages, copies for
      [fork] and gives everything back when memory runs out.
    - [VmUser]: the user memory of an address space as a list of bytes, under [allocuvm],
      [copyout] and the guard page.
    - [Exec], [ExecProofs], [ExecStack]: exec.c over [Fs] and [Vm].  The specification maps the
      bytes of a file and the arguments to a memory image; [exec] installs it, or fails and
      changes nothing, on every file.
    - [GetLastCat] (src/p2): the system call [getlastcat] and what [exec] records for it.
    - [Ports]: device ports as classes.  [Console], [Kbd], [ConsoleProofs], [ConsoleSys]:
      console.c, kbd.c and uart.c.  Interrupts, readers and writers as a system of steps,
      refined to an editor of lines over a ring of 128 bytes.
    - [Ide], [IdeProofs]: ide.c with a drive that completes commands in its own time and may
      fail; the driver is compared with the memory disk of memide.c in [Bio].
    - [Mkfs], [MkfsFile], [MkfsProofs], [MkfsImage]: mkfs.c.  The image it writes has what
      the theorems about fs.c assume.
    - [Locks] (src/p4): spinlock.c on any number of CPUs.
    - [Proc], [Sched], [Kernel] (src/p4): proc.c, psched.h and [sys_sleep].  The process
      table, the operations of processes and the scheduler as a transition system, with its
      invariant, bounded waiting and what each system call does; memory, page tables and
      files are the class [KernelServices].  A process that gives up the CPU keeps the
      interrupt flag of [sched] and continues behind [swtch].
    - [Trap] (src/p4): trap.c over the process table, with user code, system calls,
      interrupts and exceptions as the steps of a machine.
    - [Mmap], [MmapProofs]: sys_mmap.c and the page fault handler of trap.c, over the class
      [VmServices].  The areas of a process stay sorted and disjoint.

    ** The other programs

    - [Man], [ManProofs] (src/p1/tests): wgroff.c, wapropos.c and wman.c on the contents of
      their files.
    - [Umalloc], [UmallocProofs] (src/p5, umalloc.c): the free list in the memory it manages.
    - [Grep] (src/p5, grep.c): the matcher against the language of the pattern, and the loop
      that reads lines into its buffer.
    - [Sh], [ShParse], [ShRun] (src/p5, sh.c): the parser against a grammar; the shell and
      its children as processes with fork, wait, exec and exit in every interleaving.
    - [Wsh], [WshProofs] (src/p3/wsh.c): job table, parsing, pipelines, signal handlers that
      interrupt the shell and each other; the system calls are the class [Unix].
    - [SafeQueue], [Proxy] (src/p6): the priority queue, requests and responses, and the
      threads of the server, with late signals and spurious wakeups.
    - [Wfs], [WfsProofs] (src/p7): mkfs and every FUSE operation on the bytes of the image,
      against an abstract log of inodes.

    ** What the theorems show

    The theorems that state a property of the code carry a number in their comment.  They
    are, by kind: invariants of all reachable states (process table, traps, group commit,
    pipes, reference counts, disk queue, job table, mapped areas, the queue of the proxy);
    refinement of an abstract component (the cache by the disk it stands for, path names by
    a walk of the disk, the file system of project 7 by a log of inodes, the console by an
    editor of lines, the shell of xv6 by job control, memory by a partition into pages);
    equivalence of parsers and matchers with a grammar or a language (commands of the shell,
    request lines, patterns, manual pages); the behaviour of single operations on every
    branch; the safety of the allocators; termination of loops that depend on data; round
    trips; and theorems that show where the code does not do what it means to (a wakeup that
    is lost, a test that is not repeated, a signal in the wrong place, a failed read that
    counts as done).  A witness next to a theorem applies it to a concrete state.

    ** What is not modelled

    The interrupt controllers (lapic.c, ioapic.c, picirq.c), the tables of mp.c, boot code
    and assembly set registers and start the machine.  The segment registers and the switch
    of page directories in vm.c are hardware state.  [panic()] of console.c and [consoleinit]
    end and set up the console.  Of the processes of project 4, [Kernel] takes an operation
    of proc.c as one step on one CPU: a timer interrupt inside [fork] is left out.  Of the
    user programs of xv6 only sh.c, grep.c and umalloc.c are modelled; tests, and the kernel of
    project 2 apart from [getlastcat], are left out.  Third-party code is always a parameter
    with named laws: the C library's files and processes ([Unix]), sockets, FUSE. *)

From stdpp Require Export base tactics list list_numbers numbers gmap strings.
From Stdlib Require Export ZArith Lia.

Global Open Scope Z_scope.

Declare Scope kernel_scope.
Delimit Scope kernel_scope with kernel.
Global Open Scope kernel_scope.

(** ** Machine integers *)

(** C [uint] and [int] arithmetic wraps at 32 bits. *)
Definition u32 (x : Z) : Z := x mod 2 ^ 32.
Definition s32 (x : Z) : Z := (x + 2 ^ 31) mod 2 ^ 32 - 2 ^ 31.
Definition u16 (x : Z) : Z := x mod 2 ^ 16.
Definition u8 (x : Z) : Z := x mod 2 ^ 8.

(** ** Outcomes of C code

    A call returns a value and a state, or it stops: [Panic] is the kernel's
    [panic()] (or a process's [exit]), [Sleep] is a call that goes to sleep on
    a channel, [Undef] is an access that C leaves undefined (a null or dangling
    pointer, an index out of an array), [Timeout] is a loop that has not ended
    within its fuel. *)
Inductive outcome (S A : Type) : Type :=
| Ret (a : A) (s : S)
| Panic (msg : string)
| Sleep (chan : string)
| Undef (why : string)
| Timeout.
Arguments Ret {S A} _ _.
Arguments Panic {S A} _.
Arguments Sleep {S A} _.
Arguments Undef {S A} _.
Arguments Timeout {S A}.

Definition M (S A : Type) : Type := S -> outcome S A.

Definition ret {S A} (a : A) : M S A := fun s => Ret a s.
Definition bind {S A B} (m : M S A) (k : A -> M S B) : M S B :=
  fun s =>
    match m s with
    | Ret a s' => k a s'
    | Panic msg => Panic msg
    | Sleep c => Sleep c
    | Undef w => Undef w
    | Timeout => Timeout
    end.

Notation "x <- m ;; k" := (bind m (fun x => k))
  (at level 100, m at next level, right associativity) : kernel_scope.
Notation "m ;;; k" := (bind m (fun _ => k))
  (at level 100, right associativity) : kernel_scope.

Definition gets {S A} (f : S -> A) : M S A := fun s => Ret (f s) s.
Definition modify {S} (f : S -> S) : M S unit := fun s => Ret tt (f s).
Definition panic {S A} (msg : string) : M S A := fun _ => Panic msg.
Definition sleeps {S A} (chan : string) : M S A := fun _ => Sleep chan.
Definition undef {S A} (why : string) : M S A := fun _ => Undef why.

(** A C array access or pointer dereference: no meaning when it fails. *)
Definition deref {S A} (why : string) (o : option A) : M S A :=
  match o with Some a => ret a | None => undef why end.

(** [if(c) panic(msg);] *)
Definition panic_if {S} (c : bool) (msg : string) : M S unit :=
  if c then panic msg else ret tt.

(** Run code of one component on its part of a larger state. *)
Definition zoom {S T A} (get : S -> T) (put : T -> S -> S) (m : M T A) : M S A :=
  fun s =>
    match m (get s) with
    | Ret a t => Ret a (put t s)
    | Panic msg => Panic msg
    | Sleep c => Sleep c
    | Undef w => Undef w
    | Timeout => Timeout
    end.

(** [for(i = i0; i < i0 + n; i++) body(i);] *)
Fixpoint for_loop {S} (n : nat) (i : Z) (body : Z -> M S unit) : M S unit :=
  match n with
  | O => ret tt
  | S n' => body i ;;; for_loop n' (i + 1) body
  end.

(** A loop whose body says whether to go on ([inl]) or to leave with a result
    ([inr]); the fuel bounds the number of rounds. *)
Fixpoint loop {S A B} (fuel : nat) (body : A -> M S (A + B)) (a : A) : M S B :=
  match fuel with
  | O => fun _ => Timeout
  | S f =>
      r <- body a ;;
      match r with
      | inl a' => loop f body a'
      | inr b => ret b
      end
  end.

(** Total correctness: [m] returns from [s] and the result satisfies [Q]. *)
Definition wp {S A} (m : M S A) (Q : A -> S -> Prop) (s : S) : Prop :=
  match m s with
  | Ret a s' => Q a s'
  | _ => False
  end.

(** ** Generic lemmas *)

Section wp_rules.
Context {S : Type}.

Lemma wp_ret {A} (a : A) (Q : A -> S -> Prop) s : Q a s -> wp (ret a) Q s.
Proof. done. Qed.

Lemma wp_bind {A B} (m : M S A) (k : A -> M S B) Q s :
  wp m (fun a s' => wp (k a) Q s') s -> wp (bind m k) Q s.
Proof. unfold wp, bind. by destruct (m s). Qed.

Lemma wp_bind_inv {A B} (m : M S A) (k : A -> M S B) Q s :
  wp (bind m k) Q s -> wp m (fun a s' => wp (k a) Q s') s.
Proof. unfold wp, bind. by destruct (m s). Qed.

Lemma wp_mono {A} (m : M S A) (Q Q' : A -> S -> Prop) s :
  wp m Q s -> (forall a s', Q a s' -> Q' a s') -> wp m Q' s.
Proof. unfold wp. destruct (m s); by eauto. Qed.

Lemma wp_gets {A} (f : S -> A) (Q : A -> S -> Prop) s :
  Q (f s) s -> wp (gets f) Q s.
Proof. done. Qed.

Lemma wp_modify (f : S -> S) (Q : unit -> S -> Prop) s :
  Q tt (f s) -> wp (modify f) Q s.
Proof. done. Qed.

Lemma wp_deref {A} why (o : option A) (a : A) (Q : A -> S -> Prop) s :
  o = Some a -> Q a s -> wp (deref why o) Q s.
Proof. by intros ->. Qed.

Lemma wp_panic_if c msg (Q : unit -> S -> Prop) s :
  c = false -> Q tt s -> wp (panic_if c msg) Q s.
Proof. by intros ->. Qed.

Lemma wp_returns {A} (m : M S A) Q s :
  wp m Q s <-> exists a s', m s = Ret a s' /\ Q a s'.
Proof. unfold wp. split; [destruct (m s); by eauto|]. by intros (a & s' & -> & ?). Qed.

Lemma wp_use {A} (m : M S A) Q s a s' : wp m Q s -> m s = Ret a s' -> Q a s'.
Proof. unfold wp. intros H E. by rewrite E in H. Qed.

Lemma wp_run {A} (m : M S A) (Q : A -> S -> Prop) s a s' : m s = Ret a s' -> Q a s' -> wp m Q s.
Proof. unfold wp. by intros ->. Qed.

Lemma bind_Ret {A B} (m : M S A) (k : A -> M S B) s b s'' :
  bind m k s = Ret b s'' -> exists a s', m s = Ret a s' /\ k a s' = Ret b s''.
Proof. unfold bind. destruct (m s) eqn:E; try done. by eauto. Qed.

(** The invariant rule of a counted loop. *)
Lemma wp_for_loop (Inv : Z -> S -> Prop) n i body s :
  Inv i s ->
  (forall j s', i <= j < i + Z.of_nat n -> Inv j s' ->
     wp (body j) (fun _ s'' => Inv (j + 1) s'') s') ->
  wp (for_loop n i body) (fun _ s' => Inv (i + Z.of_nat n) s') s.
Proof.
  revert i s. induction n as [|n IH]; intros i s Hi Hb; simpl.
  - apply wp_ret. by rewrite Z.add_0_r.
  - apply wp_bind. eapply wp_mono; [apply Hb; [lia|done]|].
    intros [] s' Hs'. cbv beta in Hs'.
    replace (i + Z.of_nat (Datatypes.S n)) with ((i + 1) + Z.of_nat n) by lia.
    apply IH; [done|]. intros j s'' Hj. apply Hb. lia.
Qed.

(** The variant rule of a general loop: enough fuel and a decreasing measure. *)
Lemma wp_loop {A B} (Inv : A -> S -> Prop) (measure : A -> nat) fuel
    (body : A -> M S (A + B)) (Q : B -> S -> Prop) a s :
  (measure a < fuel)%nat ->
  Inv a s ->
  (forall a s, Inv a s ->
     wp (body a) (fun r s' =>
       match r with
       | inl a' => Inv a' s' /\ (measure a' < measure a)%nat
       | inr b => Q b s'
       end) s) ->
  wp (loop fuel body a) Q s.
Proof.
  intros Hf Hi Hb. revert a s Hf Hi.
  induction fuel as [|fuel IH]; intros a s Hf Hi; [lia|]. simpl.
  apply wp_bind. eapply wp_mono; [by apply Hb|].
  intros [a'|b] s' H'; simpl in H'; [|done].
  destruct H' as [? ?]. apply IH; [lia|done].
Qed.
End wp_rules.

Lemma wp_zoom {S T A} (get : S -> T) (put : T -> S -> S) (m : M T A) Q s :
  wp m (fun a t => Q a (put t s)) (get s) -> wp (zoom get put m) Q s.
Proof. unfold wp, zoom. by destruct (m (get s)). Qed.

(** ** Tactics *)

(** Advance over the control structure of a computation. *)
Ltac wp_step :=
  lazymatch goal with
  | |- wp (bind _ _) _ _ => apply wp_bind
  | |- wp (ret _) _ _ => apply wp_ret
  | |- wp (gets _) _ _ => apply wp_gets
  | |- wp (modify _) _ _ => apply wp_modify
  | |- wp (zoom _ _ _) _ _ => apply wp_zoom
  end; cbv beta.
Ltac wp_steps := repeat wp_step.

(** A test that does not panic. *)
Ltac wp_pass tac :=
  wp_steps; apply wp_panic_if; [tac|]; wp_steps.

(** Rules for code without branches. *)
Create HintDb kernel.
#[export] Hint Resolve wp_ret wp_gets wp_modify wp_bind wp_zoom : kernel.
