(* ===== verification/Bytes.v ===== *)
(** * Byte arrays

    Disk blocks ([uchar data[BSIZE]]), physical pages and on-disk structures
    are arrays of bytes.  [slice] reads a run of bytes, [splice] is what
    [memmove] of a source that does not overlap its destination leaves behind,
    and [get32]/[put32]/[get16]/[put16] are the little-endian loads and stores
    that a C struct overlay such as [(struct logheader* )(buf->data)] performs. *)

From S2P Require Import Prelude.

(** ** Definitions *)

Definition slice (off n : nat) (l : list Z) : list Z := take n (drop off l).

Definition splice (off : nat) (src l : list Z) : list Z :=
  take off l ++ src ++ drop (off + length src) l.

(** Bytes [bs] written over [l] at [off], possibly past its end. *)
Definition write_at (off : Z) (bs l : list Z) : list Z :=
  take (Z.to_nat off) l ++ bs ++ drop (Z.to_nat off + length bs) l.

Fixpoint le_bytes (n : nat) (v : Z) : list Z :=
  match n with
  | O => []
  | S n' => v mod 256 :: le_bytes n' (v / 256)
  end.

Fixpoint le_value (l : list Z) : Z :=
  match l with
  | [] => 0
  | b :: l' => b + 256 * le_value l'
  end.

Definition get32 (off : Z) (l : list Z) : Z := le_value (slice (Z.to_nat off) 4 l).
Definition put32 (off v : Z) (l : list Z) : list Z :=
  splice (Z.to_nat off) (le_bytes 4 v) l.
Definition get16 (off : Z) (l : list Z) : Z := le_value (slice (Z.to_nat off) 2 l).
Definition put16 (off v : Z) (l : list Z) : list Z :=
  splice (Z.to_nat off) (le_bytes 2 v) l.

(** Every element is a byte. *)
Definition is_byte (b : Z) : Prop := 0 <= b < 256.
Definition bytes_ok (l : list Z) : Prop := Forall is_byte l.

(** [n] consecutive 32-bit words starting at [off]. *)
Definition get_words (off : Z) (n : nat) (l : list Z) : list Z :=
  map (fun i => get32 (off + 4 * i) l) (seqZ 0 (Z.of_nat n)).

(** ** Lemmas *)

Lemma length_slice off n l : (off + n <= length l)%nat -> length (slice off n l) = n.
Proof. intros. unfold slice. rewrite length_take, length_drop. lia. Qed.

Lemma lookup_slice off n l i :
  (i < n)%nat -> slice off n l !! i = l !! (off + i)%nat.
Proof. intros. unfold slice. rewrite lookup_take_lt by lia. apply lookup_drop. Qed.

Lemma length_splice off src l :
  (off + length src <= length l)%nat -> length (splice off src l) = length l.
Proof.
  intros. unfold splice. rewrite !length_app, length_take, length_drop. lia.
Qed.

Lemma lookup_splice_in off src l i :
  (off + length src <= length l)%nat -> (off <= i < off + length src)%nat ->
  splice off src l !! i = src !! (i - off)%nat.
Proof.
  intros Hl Hi. unfold splice.
  rewrite lookup_app_r by (rewrite length_take; lia).
  rewrite length_take_le by lia. by rewrite lookup_app_l by lia.
Qed.

Lemma lookup_splice_out off src l i :
  (off + length src <= length l)%nat -> (i < off \/ off + length src <= i)%nat ->
  splice off src l !! i = l !! i.
Proof.
  intros Hl [Hi|Hi]; unfold splice.
  - rewrite lookup_app_l by (rewrite length_take; lia).
    by rewrite lookup_take_lt by lia.
  - rewrite lookup_app_r by (rewrite length_take; lia).
    rewrite length_take_le by lia.
    rewrite lookup_app_r by lia. rewrite lookup_drop. f_equal. lia.
Qed.

Lemma slice_splice_same off src l :
  (off + length src <= length l)%nat -> slice off (length src) (splice off src l) = src.
Proof.
  intros Hl. apply list_eq_same_length with (length src).
  - done.
  - by rewrite length_slice by (rewrite length_splice; lia).
  - intros i x y Hi.
    rewrite lookup_slice, lookup_splice_in by lia.
    replace (off + i - off)%nat with i by lia. congruence.
Qed.

Lemma slice_splice_out off src l o n :
  (off + length src <= length l)%nat -> (o + n <= length l)%nat ->
  (o + n <= off \/ off + length src <= o)%nat ->
  slice o n (splice off src l) = slice o n l.
Proof.
  intros Hl Hn Hd. apply list_eq_same_length with n.
  - by rewrite length_slice by lia.
  - by rewrite length_slice by (rewrite length_splice; lia).
  - intros i x y Hi. rewrite !lookup_slice, lookup_splice_out by lia. congruence.
Qed.

Lemma slice_write_at off n bs l : length bs = n -> 0 <= off -> (Z.to_nat off <= length l)%nat ->
  slice (Z.to_nat off) n (write_at off bs l) = bs.
Proof.
  intros <- Ho Hl. unfold slice, write_at. rewrite drop_app_length' by (rewrite length_take; lia).
  by rewrite take_app_length.
Qed.

Lemma slice_all l : slice 0 (length l) l = l.
Proof. unfold slice. by rewrite drop_0, firstn_all. Qed.

Lemma splice_all src l : length src = length l -> splice 0 src l = src.
Proof.
  intros H. unfold splice. rewrite H, Nat.add_0_l, drop_all. simpl.
  by rewrite app_nil_r.
Qed.

Lemma length_le_bytes n v : length (le_bytes n v) = n.
Proof. revert v. induction n; intros; simpl; [done|]. by rewrite IHn. Qed.

Lemma le_bytes_ok n v : bytes_ok (le_bytes n v).
Proof.
  revert v. induction n; intros v; simpl; constructor; [|apply IHn].
  unfold is_byte. apply Z.mod_pos_bound. lia.
Qed.

Lemma le_value_bytes n v : le_value (le_bytes n v) = v mod 256 ^ Z.of_nat n.
Proof.
  revert v. induction n as [|n IH]; intros v.
  - simpl. by rewrite Z.mod_1_r.
  - simpl le_value. rewrite IH.
    replace (256 ^ Z.of_nat (S n)) with (256 * 256 ^ Z.of_nat n)
      by (rewrite Nat2Z.inj_succ, Z.pow_succ_r; lia).
    rewrite Z.rem_mul_r by lia. lia.
Qed.

Lemma le_value_bound l : bytes_ok l -> 0 <= le_value l < 256 ^ Z.of_nat (length l).
Proof.
  unfold bytes_ok, is_byte. induction 1 as [|b l Hb Hl IH]; simpl; [lia|].
  rewrite Nat2Z.inj_succ, Z.pow_succ_r by lia. lia.
Qed.

Lemma bytes_ok_splice off src l :
  bytes_ok src -> bytes_ok l -> bytes_ok (splice off src l).
Proof.
  unfold bytes_ok, splice. intros. apply Forall_app. split; [by apply Forall_take|].
  apply Forall_app. split; [done|by apply Forall_drop].
Qed.

Lemma bytes_ok_slice off n l : bytes_ok l -> bytes_ok (slice off n l).
Proof. intros. by apply Forall_take, Forall_drop. Qed.

Section words.
Variable l : list Z.

Lemma length_put32 off v :
  0 <= off -> off + 4 <= Z.of_nat (length l) -> length (put32 off v l) = length l.
Proof. intros. unfold put32. apply length_splice. rewrite length_le_bytes. lia. Qed.

Lemma length_put16 off v :
  0 <= off -> off + 2 <= Z.of_nat (length l) -> length (put16 off v l) = length l.
Proof. intros. unfold put16. apply length_splice. rewrite length_le_bytes. lia. Qed.

Lemma get32_put32_same off v :
  0 <= off -> off + 4 <= Z.of_nat (length l) -> get32 off (put32 off v l) = u32 v.
Proof.
  intros. unfold get32, put32.
  pose proof (slice_splice_same (Z.to_nat off) (le_bytes 4 v) l) as Hs.
  rewrite length_le_bytes in Hs. rewrite Hs by lia. by rewrite le_value_bytes.
Qed.

Lemma get16_put16_same off v :
  0 <= off -> off + 2 <= Z.of_nat (length l) -> get16 off (put16 off v l) = u16 v.
Proof.
  intros. unfold get16, put16.
  pose proof (slice_splice_same (Z.to_nat off) (le_bytes 2 v) l) as Hs.
  rewrite length_le_bytes in Hs. rewrite Hs by lia. by rewrite le_value_bytes.
Qed.

Lemma get32_put32_other off off' v :
  0 <= off -> 0 <= off' -> off + 4 <= Z.of_nat (length l) ->
  off' + 4 <= Z.of_nat (length l) -> off + 4 <= off' \/ off' + 4 <= off ->
  get32 off' (put32 off v l) = get32 off' l.
Proof.
  intros. unfold get32, put32.
  rewrite slice_splice_out; [done|rewrite ?length_le_bytes; lia..].
Qed.

Lemma get32_splice_other off off' src :
  0 <= off' -> (off + length src <= length l)%nat ->
  off' + 4 <= Z.of_nat (length l) ->
  Z.of_nat (off + length src) <= off' \/ off' + 4 <= Z.of_nat off ->
  get32 off' (splice off src l) = get32 off' l.
Proof. intros. unfold get32. rewrite slice_splice_out; [done|lia..]. Qed.

Lemma bytes_ok_put32 off v : bytes_ok l -> bytes_ok (put32 off v l).
Proof. intros. apply bytes_ok_splice; [apply le_bytes_ok|done]. Qed.
End words.

Lemma get32_bound off l :
  bytes_ok l -> 0 <= off -> off + 4 <= Z.of_nat (length l) -> 0 <= get32 off l < 2 ^ 32.
Proof.
  intros Hb H0 Hl. unfold get32.
  pose proof (le_value_bound (slice (Z.to_nat off) 4 l)) as H.
  rewrite length_slice in H by lia. apply H. by apply bytes_ok_slice.
Qed.

Lemma u32_small x : 0 <= x < 2 ^ 32 -> u32 x = x.
Proof. apply Z.mod_small. Qed.

Lemma u32_bound x : 0 <= u32 x < 2 ^ 32.
Proof. apply Z.mod_pos_bound. lia. Qed.

Lemma s32_small x : - 2 ^ 31 <= x < 2 ^ 31 -> s32 x = x.
Proof. intros. unfold s32. rewrite Z.mod_small; lia. Qed.

Lemma s32_u32 x : s32 (u32 x) = s32 x.
Proof. unfold s32, u32. rewrite Z.add_mod_idemp_l; lia. Qed.

Create Rewrite HintDb bytes.
#[export] Hint Rewrite length_le_bytes length_put32 length_put16 using lia : bytes.
