(* ===== verification/Bio.v ===== *)
(** * The buffer cache and the disk (bio.c, buf.h, memide.c, sleeplock.c)

    The cache is the array [bcache.buf]; the doubly linked list threaded through
    [prev]/[next] is the order [lru] of buffer indices, [head.next] first.  The
    disk is the memory image of memide.c.  The field [writes] is a history of the
    blocks that [iderw] has put on the disk: a crash keeps a prefix of it.
    A section guarded by the spin lock [bcache.lock] runs without interleaving,
    so the pair of [acquire]/[release] calls has no effect on this state. *)

From S2P Require Import Prelude Bytes.

(** ** Parameters of the system (param.h, fs.h, buf.h) *)

Definition MAXOPBLOCKS : Z := 10.
Definition LOGSIZE : Z := MAXOPBLOCKS * 3.
Definition NBUF : nat := 30.
Definition BSIZE : nat := 512.
Definition ROOTDEV : Z := 1.
Definition B_VALID : Z := 2.
Definition B_DIRTY : Z := 4.

(** ** State *)

(** [struct sleeplock]: the holder's pid is recorded next to the flag. *)
Record sleeplock := SleepLock { sl_locked : bool; sl_pid : Z }.

(** [struct buf] of buf.h, without the list pointers. *)
Record buf := Buf {
  b_flags : Z;
  b_dev : Z;
  b_blockno : Z;
  b_lock : sleeplock;
  b_refcnt : Z;
  b_data : list Z;
}.

Record bio := Bio {
  bufs : list buf;
  lru : list nat;
  disk : list (list Z);
  writes : list (Z * list Z);
  mypid : Z;
}.

Definition set_bufs (x : list buf) (s : bio) : bio :=
  Bio x (lru s) (disk s) (writes s) (mypid s).
Definition set_lru (x : list nat) (s : bio) : bio :=
  Bio (bufs s) x (disk s) (writes s) (mypid s).
Definition set_lock (x : sleeplock) (b : buf) : buf :=
  Buf (b_flags b) (b_dev b) (b_blockno b) x (b_refcnt b) (b_data b).
Definition set_flags (x : Z) (b : buf) : buf :=
  Buf x (b_dev b) (b_blockno b) (b_lock b) (b_refcnt b) (b_data b).
Definition set_refcnt (x : Z) (b : buf) : buf :=
  Buf (b_flags b) (b_dev b) (b_blockno b) (b_lock b) x (b_data b).
Definition set_data (x : list Z) (b : buf) : buf :=
  Buf (b_flags b) (b_dev b) (b_blockno b) (b_lock b) (b_refcnt b) x.

Definition has_flag (f : Z) (b : buf) : bool := negb (Z.land (b_flags b) f =? 0).

(** ** Operations *)

Definition get_buf (i : nat) : M bio buf :=
  s <- gets id ;; deref "buf" (bufs s !! i).
Definition upd_buf (i : nat) (f : buf -> buf) : M bio unit :=
  modify (fun s => set_bufs (alter f i (bufs s)) s).

(** sleeplock.c on the lock of buffer [i]. *)
Definition acquiresleep (i : nat) : M bio unit :=
  b <- get_buf i ;;
  if sl_locked (b_lock b) then sleeps "sleeplock"
  else
    pid <- gets mypid ;;
    upd_buf i (set_lock (SleepLock true pid)).
Definition releasesleep (i : nat) : M bio unit :=
  upd_buf i (set_lock (SleepLock false 0)).
Definition holdingsleep (i : nat) : M bio bool :=
  b <- get_buf i ;;
  pid <- gets mypid ;;
  ret (sl_locked (b_lock b) && (sl_pid (b_lock b) =? pid)).

(** memide.c: [memmove(p, b->data, BSIZE)] onto block [n] of the disk. *)
Definition disk_write (n : Z) (d : list Z) (s : bio) : bio :=
  Bio (bufs s) (lru s) (<[Z.to_nat n := d]> (disk s)) (writes s ++ [(n, d)]) (mypid s).

Definition iderw (i : nat) : M bio unit :=
  h <- holdingsleep i ;;
  panic_if (negb h) "iderw: buf not locked" ;;;
  b <- get_buf i ;;
  panic_if (Z.land (b_flags b) (Z.lor B_VALID B_DIRTY) =? B_VALID)
    "iderw: nothing to do" ;;;
  panic_if (negb (b_dev b =? 1)) "iderw: request not for disk 1" ;;;
  disksize <- gets (fun s => Z.of_nat (length (disk s))) ;;
  panic_if (disksize <=? b_blockno b) "iderw: block out of range" ;;;
  (if has_flag B_DIRTY b then
     upd_buf i (set_flags (Z.land (b_flags b) (Z.lnot B_DIRTY))) ;;;
     modify (disk_write (b_blockno b) (b_data b))
   else
     s <- gets id ;;
     p <- deref "memdisk" (disk s !! Z.to_nat (b_blockno b)) ;;
     upd_buf i (set_data p)) ;;;
  upd_buf i (fun b => set_flags (Z.lor (b_flags b) B_VALID) b).

(** [binit]: every buffer is pushed at the head of the list in turn. *)
Definition zero_buf : buf := Buf 0 0 0 (SleepLock false 0) 0 (replicate BSIZE 0).
Fixpoint binit_list (n : nat) (from : nat) (l : list nat) : list nat :=
  match n with
  | O => l
  | S n' => binit_list n' (S from) (from :: l)
  end.
Definition binit (d : list (list Z)) (pid : Z) : bio :=
  Bio (replicate NBUF zero_buf) (binit_list NBUF 0 []) d [] pid.

(** The first index along a list of indices whose buffer satisfies [p]. *)
Definition scan (p : buf -> bool) (l : list buf) (order : list nat) : option nat :=
  List.find (fun i => match l !! i with Some b => p b | None => false end) order.

Definition same_block (dev blockno : Z) (b : buf) : bool :=
  (b_dev b =? dev) && (b_blockno b =? blockno).
Definition recyclable (b : buf) : bool :=
  (b_refcnt b =? 0) && (Z.land (b_flags b) B_DIRTY =? 0).

Definition bget (dev blockno : Z) : M bio nat :=
  s <- gets id ;;
  match scan (same_block dev blockno) (bufs s) (lru s) with
  | Some i =>
      upd_buf i (fun b => set_refcnt (u32 (b_refcnt b + 1)) b) ;;;
      acquiresleep i ;;;
      ret i
  | None =>
      match scan recyclable (bufs s) (reverse (lru s)) with
      | Some i =>
          upd_buf i (fun b => Buf 0 dev blockno (b_lock b) 1 (b_data b)) ;;;
          acquiresleep i ;;;
          ret i
      | None => panic "bget: no buffers"
      end
  end.

Definition bread (dev blockno : Z) : M bio nat :=
  i <- bget dev blockno ;;
  b <- get_buf i ;;
  (if Z.land (b_flags b) B_VALID =? 0 then iderw i else ret tt) ;;;
  ret i.

Definition bwrite (i : nat) : M bio unit :=
  h <- holdingsleep i ;;
  panic_if (negb h) "bwrite" ;;;
  upd_buf i (fun b => set_flags (Z.lor (b_flags b) B_DIRTY) b) ;;;
  iderw i.

(** [brelse]: the last holder moves the buffer to the head of the list. *)
Definition brelse (i : nat) : M bio unit :=
  h <- holdingsleep i ;;
  panic_if (negb h) "brelse" ;;;
  releasesleep i ;;;
  upd_buf i (fun b => set_refcnt (u32 (b_refcnt b - 1)) b) ;;;
  b <- get_buf i ;;
  if b_refcnt b =? 0 then
    modify (fun s => set_lru (i :: filter (fun j => j <> i) (lru s)) s)
  else ret tt.

(** The holder of a buffer changes [b->data]. *)
Definition bset_data (i : nat) (d : list Z) : M bio unit := upd_buf i (set_data d).
Definition bdata (i : nat) : M bio (list Z) := b <- get_buf i ;; ret (b_data b).

(** ** Specification: what the cache promises *)

Definition caches (n : Z) (b : buf) : Prop := b_dev b = ROOTDEV /\ b_blockno b = n.
Definition dirty (b : buf) : Prop := b_flags b = Z.lor B_VALID B_DIRTY.
Definition dirty_for (n : Z) (b : buf) : bool :=
  same_block ROOTDEV n b && has_flag B_DIRTY b.

(** The contents of block [n] as the kernel sees them: a dirty buffer wins over
    the disk. *)
Definition cview (s : bio) (n : Z) : option (list Z) :=
  match List.find (dirty_for n) (bufs s) with
  | Some b => Some (b_data b)
  | None => disk s !! Z.to_nat n
  end.

Record buf_ok (d : list (list Z)) (b : buf) : Prop := BufOk {
  bk_data : length (b_data b) = BSIZE;
  bk_ref : 0 <= b_refcnt b < 2 ^ 31;
  bk_lock : sl_locked (b_lock b) = true -> 0 < b_refcnt b;
  bk_flags : b_flags b = 0 \/ b_flags b = B_VALID \/ dirty b;
  bk_dev : b_flags b <> 0 ->
    b_dev b = ROOTDEV /\ 0 <= b_blockno b < Z.of_nat (length d);
  bk_clean : b_flags b = B_VALID -> d !! Z.to_nat (b_blockno b) = Some (b_data b);
}.

(** The invariant of the cache: one buffer per block, every buffer on the list
    exactly once, a clean buffer agrees with the disk. *)
Record bio_ok (s : bio) : Prop := BioOk {
  bo_len : length (bufs s) = NBUF;
  bo_lru : lru s ≡ₚ seq 0 NBUF;
  bo_uniq : forall i j b c, bufs s !! i = Some b -> bufs s !! j = Some c ->
    b_dev b = ROOTDEV -> b_dev c = ROOTDEV -> b_blockno b = b_blockno c -> i = j;
  bo_buf : forall i b, bufs s !! i = Some b -> buf_ok (disk s) b;
  bo_disk : forall n d, disk s !! n = Some d -> length d = BSIZE;
}.

(** The state with buffer [i] replaced by [b]. *)
Definition put_buf (i : nat) (b : buf) (s : bio) : bio :=
  set_bufs (<[i := b]> (bufs s)) s.

(** The current process holds the lock of the buffer. *)
Definition held_by (pid : Z) (b : buf) : Prop := b_lock b = SleepLock true pid.

(** No process holds a buffer: the state between two file system calls. *)
Definition idle (s : bio) : Prop :=
  forall i b, bufs s !! i = Some b -> b_refcnt b = 0 /\ sl_locked (b_lock b) = false.

(** ** Lemmas about single steps *)

Section steps.
Variables (s : bio) (i : nat) (b : buf).
Hypothesis Hb : bufs s !! i = Some b.

Lemma alter_buf f : alter f i (bufs s) = <[i := f b]> (bufs s).
Proof using Hb.
  apply list_eq. intros j. destruct (decide (i = j)) as [<-|Hne].
  - rewrite list_lookup_alter_eq, Hb, list_lookup_insert_eq; [done|].
    by eapply lookup_lt_Some.
  - by rewrite list_lookup_alter_ne, list_lookup_insert_ne.
Qed.

Lemma bufs_put_same c : bufs (put_buf i c s) !! i = Some c.
Proof using Hb. apply list_lookup_insert_eq. by eapply lookup_lt_Some. Qed.

Lemma wp_get_buf Q : Q b s -> wp (get_buf i) Q s.
Proof using Hb. unfold wp, get_buf, bind, gets, deref. simpl. by rewrite Hb. Qed.

Lemma wp_upd_buf f (Q : unit -> bio -> Prop) :
  Q tt (put_buf i (f b) s) -> wp (upd_buf i f) Q s.
Proof using Hb. unfold wp, upd_buf, modify. by rewrite alter_buf. Qed.

Lemma wp_holdingsleep (Q : bool -> bio -> Prop) :
  Q (sl_locked (b_lock b) && (sl_pid (b_lock b) =? mypid s)) s ->
  wp (holdingsleep i) Q s.
Proof using Hb.
  intros. apply wp_bind. apply wp_get_buf. apply wp_bind, wp_gets. by apply wp_ret.
Qed.

Lemma wp_acquiresleep (Q : unit -> bio -> Prop) :
  sl_locked (b_lock b) = false ->
  Q tt (put_buf i (set_lock (SleepLock true (mypid s)) b) s) ->
  wp (acquiresleep i) Q s.
Proof using Hb.
  intros Hl HQ. apply wp_bind. apply wp_get_buf. rewrite Hl.
  apply wp_bind, wp_gets. by apply wp_upd_buf.
Qed.
End steps.

Lemma put_put i b c s : put_buf i b (put_buf i c s) = put_buf i b s.
Proof. unfold put_buf, set_bufs. simpl. by rewrite list_insert_insert_eq. Qed.

Lemma bufs_put_ne i j b s : i <> j -> bufs (put_buf i b s) !! j = bufs s !! j.
Proof. apply list_lookup_insert_ne. Qed.

Lemma disk_put i b s : disk (put_buf i b s) = disk s.
Proof. done. Qed.

Lemma lookup_put s i j b c :
  bufs (put_buf i b s) !! j = Some c ->
  (j = i /\ c = b) \/ (j <> i /\ bufs s !! j = Some c).
Proof.
  unfold put_buf, set_bufs. simpl. intros H.
  apply list_lookup_insert_Some in H as [(-> & -> & _)|[? ?]]; [by left|by right; auto].
Qed.

Lemma held_holding pid b :
  held_by pid b -> sl_locked (b_lock b) && (sl_pid (b_lock b) =? pid) = true.
Proof. intros ->. simpl. apply Z.eqb_refl. Qed.

Lemma scan_Some p l order i :
  scan p l order = Some i -> i ∈ order /\ exists b, l !! i = Some b /\ p b = true.
Proof.
  unfold scan. intros H. apply List.find_some in H as [Hin Hp].
  split; [by apply list_elem_of_In|].
  destruct (l !! i) as [b|]; [by eauto|done].
Qed.

Lemma scan_None p l order i b :
  scan p l order = None -> i ∈ order -> l !! i = Some b -> p b = false.
Proof.
  unfold scan. intros H Hin Hb.
  pose proof (List.find_none _ _ H i) as Hn. cbv beta in Hn. rewrite Hb in Hn.
  apply Hn. by apply list_elem_of_In.
Qed.

(** *** Transfers between a buffer and the disk *)

Lemma wp_iderw_read s i b p (Q : unit -> bio -> Prop) :
  bufs s !! i = Some b -> held_by (mypid s) b -> b_flags b = 0 -> b_dev b = ROOTDEV ->
  0 <= b_blockno b -> disk s !! Z.to_nat (b_blockno b) = Some p ->
  Q tt (put_buf i (set_flags B_VALID (set_data p b)) s) ->
  wp (iderw i) Q s.
Proof.
  intros Hb Hh Hf Hd Hn Hp HQ. unfold iderw.
  wp_steps. eapply wp_holdingsleep; [done|]. rewrite held_holding by done.
  wp_pass done. eapply wp_get_buf; [done|]. rewrite Hf, Hd.
  do 2 wp_pass done.
  pose proof (lookup_lt_Some _ _ _ Hp).
  wp_pass ltac:(apply Z.leb_gt; lia).
  unfold has_flag. rewrite Hf. simpl.
  wp_steps. eapply wp_deref; [done|].
  eapply wp_upd_buf; [done|]. eapply wp_upd_buf; [by eapply bufs_put_same|].
  rewrite put_put. unfold set_flags at 1, set_data at 1. simpl. rewrite Hf. apply HQ.
Qed.

Lemma wp_iderw_write s i b (Q : unit -> bio -> Prop) :
  bufs s !! i = Some b -> held_by (mypid s) b -> dirty b -> b_dev b = ROOTDEV ->
  b_blockno b < Z.of_nat (length (disk s)) ->
  Q tt (disk_write (b_blockno b) (b_data b) (put_buf i (set_flags B_VALID b) s)) ->
  wp (iderw i) Q s.
Proof.
  intros Hb Hh Hf Hd Hn HQ. unfold iderw, dirty in *.
  wp_steps. eapply wp_holdingsleep; [done|]. rewrite held_holding by done.
  wp_pass done. eapply wp_get_buf; [done|]. rewrite Hf, Hd.
  do 2 wp_pass done.
  wp_pass ltac:(apply Z.leb_gt; lia).
  unfold has_flag. rewrite Hf. simpl.
  wp_steps. eapply wp_upd_buf; [done|]. wp_steps.
  set (s1 := disk_write _ _ _).
  assert (bufs s1 !! i = Some (set_flags 2 b)) as Hs1 by (by eapply bufs_put_same).
  eapply wp_upd_buf; [exact Hs1|]. simpl.
  replace (put_buf i _ s1) with (disk_write (b_blockno b) (b_data b) (put_buf i (set_flags B_VALID b) s));
    [done|].
  unfold s1, put_buf, disk_write, set_bufs, set_flags. simpl.
  by rewrite list_insert_insert_eq.
Qed.

(** *** The invariant under the replacement of one buffer *)

Lemma find_insert {A B} (f : A -> bool) (g : A -> B) (l : list A) i a b :
  l !! i = Some a -> f b = f a -> (f b = true -> g b = g a) ->
  option_map g (List.find f (<[i := b]> l)) = option_map g (List.find f l).
Proof.
  revert i. induction l as [|x l IH]; intros [|i] Hi Hf Hg; simplify_eq/=; try done.
  - rewrite Hf. destruct (f a) eqn:E; simpl; [|done]. f_equal. apply Hg. congruence.
  - destruct (f x); [done|]. by apply IH.
Qed.

Lemma cview_alt s n :
  cview s n =
  match option_map b_data (List.find (dirty_for n) (bufs s)) with
  | Some d => Some d
  | None => disk s !! Z.to_nat n
  end.
Proof. unfold cview. by destruct (List.find _ _). Qed.

(** A replacement that keeps flags, block and contents of a dirty buffer, and
    makes no buffer dirty, does not change what the kernel sees. *)
Definition same_dirt (a b : buf) : Prop :=
  has_flag B_DIRTY b = has_flag B_DIRTY a /\
  (has_flag B_DIRTY a = true ->
   b_dev b = b_dev a /\ b_blockno b = b_blockno a /\ b_data b = b_data a).

Lemma dirty_for_same a b m : same_dirt a b -> dirty_for m b = dirty_for m a.
Proof.
  intros [Hf Hd]. unfold dirty_for, same_block. rewrite Hf.
  destruct (has_flag B_DIRTY a); [|by rewrite !andb_false_r].
  by destruct Hd as (-> & -> & _).
Qed.

Lemma cview_put s i a b m :
  bufs s !! i = Some a -> same_dirt a b -> cview (put_buf i b s) m = cview s m.
Proof.
  intros Ha Hs. rewrite !cview_alt. unfold put_buf, set_bufs. simpl.
  rewrite (find_insert (dirty_for m) b_data (bufs s) i a b Ha);
    [done|by apply dirty_for_same|].
  destruct Hs as [Hf Hd]. unfold dirty_for. rewrite andb_true_iff, Hf.
  intros [_ H]. by destruct (Hd H) as (_ & _ & ?).
Qed.

Lemma dirty_has_flag d b : buf_ok d b -> has_flag B_DIRTY b = true <-> dirty b.
Proof.
  intros Hk. unfold dirty, has_flag.
  destruct (bk_flags _ _ Hk) as [H|[H|H]]; rewrite H; split; intros; done || (exfalso; lia).
Qed.

Lemma bio_ok_put s i b :
  bio_ok s -> buf_ok (disk s) b ->
  (forall j c, j <> i -> bufs s !! j = Some c ->
     b_dev b = ROOTDEV -> b_dev c = ROOTDEV -> b_blockno c <> b_blockno b) ->
  bio_ok (put_buf i b s).
Proof.
  intros [Hlen Hlru Huniq Hbuf Hdisk] Hk Hu. split; try done.
  - unfold put_buf, set_bufs. simpl. by rewrite length_insert.
  - intros j k c d Hj Hkk Hc Hd Hn.
    destruct (lookup_put _ _ _ _ _ Hj) as [[-> ->]|[? ?]];
      destruct (lookup_put _ _ _ _ _ Hkk) as [[-> ->]|[? ?]]; try done.
    + exfalso. by eapply (Hu k d).
    + exfalso. by eapply (Hu j c).
    + by eapply Huniq.
  - intros j c Hj. destruct (lookup_put _ _ _ _ _ Hj) as [[-> ->]|[? ?]]; [done|by eapply Hbuf].
Qed.

(** The same block under the same identity. *)
Lemma bio_ok_put_same s i a b :
  bio_ok s -> bufs s !! i = Some a -> buf_ok (disk s) b ->
  b_dev b = b_dev a -> b_blockno b = b_blockno a -> bio_ok (put_buf i b s).
Proof.
  intros Hs Ha Hk Hd Hn. apply bio_ok_put; [done..|].
  intros j c Hj Hc Hb Hcd Heq. apply Hj.
  eapply (bo_uniq _ Hs j i); [done|done|done|congruence|congruence].
Qed.

Lemma cview_of s i b n :
  bio_ok s -> bufs s !! i = Some b -> caches n b ->
  b_flags b = B_VALID \/ dirty b -> cview s n = Some (b_data b).
Proof.
  intros Hs Hb [Hdev Hn] Hf. unfold cview.
  destruct (List.find (dirty_for n) (bufs s)) as [c|] eqn:E.
  - apply List.find_some in E as [Hin Hc].
    apply list_elem_of_In, list_elem_of_lookup in Hin as [j Hj].
    unfold dirty_for, same_block in Hc.
    rewrite !andb_true_iff, !Z.eqb_eq in Hc. destruct Hc as [[Hc1 Hc2] _].
    assert (j = i) as -> by (eapply (bo_uniq _ Hs); [done|done|..]; congruence).
    congruence.
  - destruct Hf as [Hf|Hf].
    + rewrite <-Hn. by apply (bk_clean _ _ (bo_buf _ Hs _ _ Hb)).
    + exfalso. assert (dirty_for n b = false) as Hc.
      { apply (List.find_none _ _ E). apply list_elem_of_In, list_elem_of_lookup. by eauto. }
      unfold dirty_for, same_block, has_flag in Hc. rewrite Hf, Hdev, Hn, !Z.eqb_refl in Hc. done.
Qed.

Lemma cview_uncached s n :
  (forall i b, bufs s !! i = Some b -> caches n b -> has_flag B_DIRTY b = false) ->
  cview s n = disk s !! Z.to_nat n.
Proof.
  intros H. unfold cview. destruct (List.find (dirty_for n) (bufs s)) as [c|] eqn:E; [|done].
  apply List.find_some in E as [Hin Hc].
  apply list_elem_of_In, list_elem_of_lookup in Hin as [j Hj].
  unfold dirty_for, same_block in Hc. rewrite !andb_true_iff, !Z.eqb_eq in Hc.
  destruct Hc as [[? ?] Hc]. rewrite (H _ _ Hj) in Hc; [done|by split].
Qed.

(** ** The operations *)

(** A buffer for block [n] can be found: it is cached and free, or some buffer
    can be recycled. *)
Definition available (s : bio) (n : Z) : Prop :=
  (forall i b, bufs s !! i = Some b -> caches n b ->
     sl_locked (b_lock b) = false /\ b_refcnt b < 2 ^ 31 - 1) /\
  ((exists i b, bufs s !! i = Some b /\ caches n b) \/
   (exists i b, bufs s !! i = Some b /\ recyclable b = true)).

Definition bget_hit (s : bio) (n : Z) (a b : buf) : Prop :=
  caches n a /\ b = set_lock (SleepLock true (mypid s)) (set_refcnt (b_refcnt a + 1) a).
Definition bget_miss (s : bio) (n : Z) (a b : buf) : Prop :=
  recyclable a = true /\
  (forall j c, bufs s !! j = Some c -> ~ caches n c) /\
  b = Buf 0 ROOTDEV n (SleepLock true (mypid s)) 1 (b_data a).

Lemma same_block_caches n b : same_block ROOTDEV n b = true <-> caches n b.
Proof. unfold same_block, caches. by rewrite andb_true_iff, !Z.eqb_eq. Qed.

Lemma recyclable_spec b :
  recyclable b = true <-> b_refcnt b = 0 /\ has_flag B_DIRTY b = false.
Proof.
  unfold recyclable, has_flag. rewrite andb_true_iff, negb_false_iff. by rewrite Z.eqb_eq.
Qed.

Lemma in_lru s i b : bio_ok s -> bufs s !! i = Some b -> i ∈ lru s.
Proof.
  intros Hs Hb. rewrite (bo_lru _ Hs). apply elem_of_seq.
  apply lookup_lt_Some in Hb. rewrite (bo_len _ Hs) in Hb. lia.
Qed.

Lemma bget_spec s n :
  bio_ok s -> available s n ->
  wp (bget ROOTDEV n) (fun i s' => exists a b,
    bufs s !! i = Some a /\ s' = put_buf i b s /\ (bget_hit s n a b \/ bget_miss s n a b)) s.
Proof.
  intros Hs [Hfree Hav]. unfold bget. wp_steps. simpl.
  destruct (scan (same_block ROOTDEV n) _ _) as [i|] eqn:E1; [|destruct (scan recyclable _ _) as [i|] eqn:E2].
  - apply scan_Some in E1 as [_ (a & Ha & Hc)]. apply same_block_caches in Hc.
    destruct (Hfree _ _ Ha Hc) as [Hl Hr].
    pose proof (bk_ref _ _ (bo_buf _ Hs _ _ Ha)).
    wp_steps. eapply wp_upd_buf; [done|]. wp_steps.
    eapply wp_acquiresleep; [by eapply bufs_put_same|done|]. wp_steps.
    eexists a, _. split; [done|]. rewrite put_put. split; [done|].
    left. split; [done|]. by rewrite u32_small by lia.
  - apply scan_Some in E2 as [_ (a & Ha & Hc)].
    pose proof (bk_lock _ _ (bo_buf _ Hs _ _ Ha)) as Hl.
    pose proof (proj1 (recyclable_spec _) Hc) as [Hr _].
    wp_steps. eapply wp_upd_buf; [done|]. wp_steps.
    eapply wp_acquiresleep; [by eapply bufs_put_same| |]; simpl.
    { destruct (sl_locked (b_lock a)); [|done]. exfalso. specialize (Hl eq_refl). lia. }
    wp_steps. eexists a, _. split; [done|]. rewrite put_put. split; [done|].
    right. split; [done|]. split; [|done]. intros j c Hj Hcj.
    apply same_block_caches in Hcj.
    by rewrite (scan_None _ _ _ _ _ E1 (in_lru _ _ _ Hs Hj) Hj) in Hcj.
  - exfalso. destruct Hav as [(i & b & Hb & Hc)|(i & b & Hb & Hc)].
    + apply same_block_caches in Hc.
      by rewrite (scan_None _ _ _ _ _ E1 (in_lru _ _ _ Hs Hb) Hb) in Hc.
    + rewrite (scan_None _ _ _ i b E2) in Hc; [done| |done].
      rewrite reverse_Permutation. by eapply in_lru.
Qed.

(** What [bread] leaves in the buffer: the block as the kernel sees it, locked
    by the caller; nothing else changes. *)
Record bread_rel (s : bio) (n : Z) (a b : buf) : Prop := BreadRel {
  br_caches : caches n b;
  br_held : held_by (mypid s) b;
  br_flags : b_flags b = B_VALID \/ dirty b;
  br_data : cview s n = Some (b_data b);
  br_ref : (caches n a /\ b_refcnt b = b_refcnt a + 1) \/
           (b_refcnt a = 0 /\ b_refcnt b = 1);
  br_dirt : same_dirt a b;
}.

Definition bread_post (s : bio) (n : Z) (i : nat) (s' : bio) : Prop :=
  exists a b, bufs s !! i = Some a /\ s' = put_buf i b s /\ bread_rel s n a b /\ bio_ok s'.

Lemma flags_0_not_dirty b : b_flags b = 0 -> has_flag B_DIRTY b = false.
Proof. unfold has_flag. by intros ->. Qed.

Lemma flags_valid_not_dirty b : b_flags b = B_VALID -> has_flag B_DIRTY b = false.
Proof. unfold has_flag. by intros ->. Qed.

Lemma same_dirt_clean a b :
  has_flag B_DIRTY a = false -> has_flag B_DIRTY b = false -> same_dirt a b.
Proof. intros Ha Hb. split; [congruence|]. by rewrite Ha. Qed.

Lemma bread_spec s n :
  bio_ok s -> 0 <= n < Z.of_nat (length (disk s)) -> available s n ->
  wp (bread ROOTDEV n) (bread_post s n) s.
Proof.
  intros Hs Hn Hav. unfold bread. wp_steps.
  eapply wp_mono; [by apply bget_spec|]. intros i s1 (a & b & Ha & -> & Hcase).
  wp_steps. eapply wp_get_buf; [by eapply bufs_put_same|].
  pose proof (bo_buf _ Hs _ _ Ha) as Hka.
  destruct (lookup_lt_is_Some_2 (disk s) (Z.to_nat n)) as [p Hp]; [lia|].
  destruct Hcase as [[Hc ->]|(Hr & Hno & ->)].
  - (* cached *)
    destruct (proj1 Hav _ _ Ha Hc) as [_ Hlt].
    set (b := set_lock _ _).
    assert (b_flags b = 0 \/ b_flags b <> 0) as [Hf|Hf] by lia.
    + (* cached but never read *)
      rewrite Hf. simpl. wp_steps.
      eapply (wp_iderw_read _ _ b p); [by eapply bufs_put_same|done|done|apply Hc|simpl..].
      { destruct Hc as [_ ->]. lia. } { destruct Hc as [_ ->]. done. }
      wp_steps. rewrite put_put. eexists a, _. split; [done|]. split; [done|].
      assert (cview s n = Some p) as Hv.
      { rewrite cview_uncached; [done|]. intros j c Hj Hcj.
        assert (j = i) as -> by (eapply (bo_uniq _ Hs); [done|done|apply Hcj|apply Hc|]; destruct Hcj, Hc; congruence).
        simplify_eq. by apply flags_0_not_dirty. }
      split; [split; simpl; try done; [by left|by left|]|].
      * apply same_dirt_clean; [by apply flags_0_not_dirty|by apply flags_valid_not_dirty].
      * eapply bio_ok_put_same; [done|done| |done|done].
        destruct Hka, Hc. split; simpl; try done; [by eapply bo_disk|lia|lia|by right; left|..].
        -- intros _. split; [done|lia].
        -- intros _. congruence.
    + (* cached and valid *)
      destruct (bk_flags _ _ Hka) as [?|Hfl]; [done|].
      replace (Z.land (b_flags b) B_VALID =? 0) with false
        by (destruct Hfl as [Hfl|Hfl]; simpl; rewrite Hfl; done).
      wp_steps. eexists a, b. split; [done|]. split; [done|]. split; [split|].
      * done.
      * done.
      * done.
      * by eapply (cview_of s i a).
      * by left.
      * done.
      * eapply bio_ok_put_same; [done|done| |done|done].
        destruct Hka. split; simpl; try done; lia.
  - (* recycled *)
    simpl. wp_steps. apply recyclable_spec in Hr as [Hr Hd].
    eapply wp_iderw_read; [by eapply bufs_put_same|done|done|done|simpl;lia|simpl;done|].
    wp_steps. rewrite put_put. eexists a, _. split; [done|]. split; [done|]. split; [split; simpl; try done|].
    + by left.
    + rewrite cview_uncached; [done|]. intros j c Hj Hcj. by destruct (Hno _ _ Hj).
    + by right.
    + apply same_dirt_clean; [done|by apply flags_valid_not_dirty].
    + apply bio_ok_put; [done| |].
      * split; simpl; [by eapply bo_disk|lia|lia|by right; left|done|done].
      * simpl. intros j c _ Hj _ Hcd Hcn. apply (Hno _ _ Hj). by split.
Qed.

Lemma wp_bwrite s i b n (Q : unit -> bio -> Prop) :
  bufs s !! i = Some b -> held_by (mypid s) b -> caches n b ->
  b_flags b = B_VALID \/ dirty b -> n < Z.of_nat (length (disk s)) ->
  Q tt (disk_write n (b_data b) (put_buf i (set_flags B_VALID b) s)) ->
  wp (bwrite i) Q s.
Proof.
  intros Hb Hh [Hd Hn] Hf Hlt HQ. unfold bwrite. wp_steps.
  eapply wp_holdingsleep; [done|]. rewrite held_holding by done.
  wp_pass done. eapply wp_upd_buf; [done|].
  eapply wp_iderw_write; [by eapply bufs_put_same|done| |done|by simpl; rewrite Hn|].
  - unfold dirty. simpl. by destruct Hf as [->| ->].
  - rewrite put_put. simpl. rewrite Hn. done.
Qed.

Lemma bio_ok_disk_write s i a n d :
  bio_ok s -> bufs s !! i = Some a -> caches n a -> 0 <= b_refcnt a < 2 ^ 31 ->
  0 <= n < Z.of_nat (length (disk s)) -> length d = BSIZE ->
  bio_ok (disk_write n d (put_buf i (set_flags B_VALID (set_data d a)) s)).
Proof.
  intros Hs Ha [Hd Hn] Hr Hlt Hlen.
  pose proof Hs as [Hlen' Hlru Huniq Hbuf Hdisk].
  split; try done; simpl.
  - by rewrite length_insert.
  - intros j k c e Hj Hk Hcd Hed Heq.
    apply (lookup_put s i) in Hj as [[-> ->]|[? Hj]];
      apply (lookup_put s i) in Hk as [[-> ->]|[? Hk]]; [done|by eapply Huniq..].
  - intros j c Hj. apply (lookup_put s i) in Hj as [[-> ->]|[Hne Hj]].
    + destruct (Hbuf _ _ Ha). split; simpl; try done; [by right; left| |].
      * intros _. split; [done|]. rewrite length_insert. lia.
      * intros _. rewrite Hn. apply list_lookup_insert_eq. lia.
    + destruct (Hbuf _ _ Hj) as [H1 H2 H3 H4 H5 H6]. split; try done.
      * intros Hf. rewrite length_insert. by apply H5.
      * intros Hf. rewrite list_lookup_insert_ne; [by apply H6|].
        intros Heq. destruct (H5 ltac:(by rewrite Hf)) as [? ?].
        apply Hne. eapply (Huniq j i); [done|done|done|done|lia].
  - intros m e He. apply list_lookup_insert_Some in He as [(_ & <- & _)|[? ?]]; [done|].
    by eapply Hdisk.
Qed.

(** Releasing a buffer permutes the list and gives the reference back. *)
Definition released (b : buf) : buf :=
  set_refcnt (b_refcnt b - 1) (set_lock (SleepLock false 0) b).

Definition lru_release (i : nat) (b : buf) (l : list nat) : list nat :=
  if b_refcnt b =? 1 then i :: filter (fun j => j <> i) l else l.

Lemma wp_brelse s i b (Q : unit -> bio -> Prop) :
  bufs s !! i = Some b -> held_by (mypid s) b -> 0 < b_refcnt b < 2 ^ 31 ->
  Q tt (set_lru (lru_release i b (lru s)) (put_buf i (released b) s)) ->
  wp (brelse i) Q s.
Proof.
  intros Hb Hh Hr HQ. unfold brelse. wp_steps.
  eapply wp_holdingsleep; [done|]. rewrite held_holding by done. wp_pass done.
  unfold releasesleep. eapply wp_upd_buf; [done|]. wp_steps.
  eapply wp_upd_buf; [by eapply bufs_put_same|]. rewrite put_put. wp_steps.
  simpl. rewrite u32_small by lia.
  eapply wp_get_buf; [by eapply bufs_put_same|]. simpl.
  unfold lru_release, released in HQ.
  destruct (b_refcnt b =? 1) eqn:E.
  - apply Z.eqb_eq in E. replace (b_refcnt b - 1 =? 0) with true by (rewrite E; done).
    wp_steps. exact HQ.
  - apply Z.eqb_neq in E. replace (b_refcnt b - 1 =? 0) with false
      by (symmetry; apply Z.eqb_neq; lia).
    wp_steps. exact HQ.
Qed.

Lemma lru_release_perm i b l : i ∈ l -> NoDup l -> lru_release i b l ≡ₚ l.
Proof.
  intros Hi Hl. unfold lru_release. destruct (_ =? _); [|done].
  apply NoDup_Permutation; [|done|].
  - constructor; [|by apply NoDup_filter]. rewrite list_elem_of_filter. by intros [? _].
  - intros j. rewrite elem_of_cons, list_elem_of_filter.
    destruct (decide (j = i)) as [->|]; split; [done|by left|by intros [?|[_ ?]]|by right].
Qed.

Lemma bio_ok_release s i b :
  bio_ok s -> bufs s !! i = Some b -> 0 < b_refcnt b ->
  bio_ok (set_lru (lru_release i b (lru s)) (put_buf i (released b) s)).
Proof.
  intros Hs Hb Hr.
  assert (bio_ok (put_buf i (released b) s)) as [H1 H2 H3 H4 H5].
  { eapply bio_ok_put_same; [done|done| |done|done].
    destruct (bo_buf _ Hs _ _ Hb). split; simpl; try done; lia. }
  split; try done. simpl. rewrite lru_release_perm; [by apply (bo_lru _ Hs)|by eapply in_lru|].
  rewrite (bo_lru _ Hs). apply NoDup_seq.
Qed.

(** ** Sequences of operations of one process *)

Definition idle_but (l : list nat) (s : bio) : Prop :=
  forall j b, j ∉ l -> bufs s !! j = Some b ->
  b_refcnt b = 0 /\ sl_locked (b_lock b) = false.
Definition has_clean (l : list nat) (s : bio) : Prop :=
  exists j b, j ∉ l /\ bufs s !! j = Some b /\ has_flag B_DIRTY b = false.
Definition is_dirty (s : bio) (n : Z) : bool :=
  match List.find (dirty_for n) (bufs s) with Some _ => true | None => false end.

(** The process holds buffer [i] for block [n]. *)
Record owns (s : bio) (n : Z) (i : nat) (b : buf) : Prop := Owns {
  ow_buf : bufs s !! i = Some b;
  ow_caches : caches n b;
  ow_held : held_by (mypid s) b;
  ow_flags : b_flags b = B_VALID \/ dirty b;
  ow_ref : b_refcnt b = 1;
}.

Lemma is_dirty_put s i a b m :
  bufs s !! i = Some a -> same_dirt a b -> is_dirty (put_buf i b s) m = is_dirty s m.
Proof.
  intros Ha Hd. unfold is_dirty, put_buf, set_bufs. simpl.
  pose proof (find_insert (dirty_for m) (fun _ => tt) (bufs s) i a b Ha) as H.
  rewrite (dirty_for_same a b) in H by done. specialize (H eq_refl (fun _ => eq_refl)).
  by destruct (List.find _ _), (List.find _ _).
Qed.

Lemma is_dirty_true s n :
  is_dirty s n = true <->
  (exists i b, bufs s !! i = Some b /\ caches n b /\ has_flag B_DIRTY b = true).
Proof.
  unfold is_dirty. destruct (List.find _ _) as [c|] eqn:E.
  - apply List.find_some in E as [Hin Hc].
    apply list_elem_of_In, list_elem_of_lookup in Hin as [j Hj].
    unfold dirty_for in Hc. rewrite andb_true_iff in Hc. destruct Hc as [Hc ?].
    apply same_block_caches in Hc. split; [by eauto|done].
  - split; [done|]. intros (i & b & Hb & Hc & Hf).
    assert (dirty_for n b = false) as Hx.
    { apply (List.find_none _ _ E). apply list_elem_of_In, list_elem_of_lookup. by eauto. }
    unfold dirty_for in Hx. apply same_block_caches in Hc. by rewrite Hc, Hf in Hx.
Qed.

Lemma same_dirt_sym a b : same_dirt a b -> same_dirt b a.
Proof. intros [Hf Hd]. split; [done|]. rewrite Hf. intros H. by destruct (Hd H) as (-> & -> & ->). Qed.

Lemma bread_idle s l n :
  bio_ok s -> idle_but l s ->
  (forall j b, j ∈ l -> bufs s !! j = Some b -> ~ caches n b /\ 0 < b_refcnt b) ->
  0 <= n < Z.of_nat (length (disk s)) ->
  is_dirty s n = true \/ has_clean l s ->
  wp (bread ROOTDEV n) (fun i s' => exists a b,
    i ∉ l /\ bufs s !! i = Some a /\ same_dirt a b /\ s' = put_buf i b s /\
    owns s' n i b /\ cview s n = Some (b_data b) /\ bio_ok s' /\ idle_but (i :: l) s') s.
Proof.
  intros Hs Hi Hl Hn Hav. eapply wp_mono; [apply bread_spec; [done|done|split]|].
  - intros i b Hb Hc. destruct (decide (i ∈ l)) as [Hin|Hin]; [by destruct (Hl i b)|].
    destruct (Hi i b Hin Hb) as [-> ->]. split; [done|lia].
  - destruct Hav as [Hd|(j & b & Hj & Hb & Hf)].
    + left. apply is_dirty_true in Hd as (i & b & ? & ? & _). by eauto.
    + right. exists j, b. split; [done|]. apply recyclable_spec.
      destruct (Hi j b Hj Hb). by split.
  - intros i s' (a & b & Ha & -> & [Hc Hh Hf Hd Hr Hsd] & Hok). exists a, b.
    assert (i ∉ l) as Hil.
    { intros Hin. destruct (Hl i a Hin Ha) as [? ?].
      destruct Hr as [[? _]|[? _]]; [done|lia]. }
    destruct (Hi i a Hil Ha) as [Hra _].
    do 4 (split; [done|]). split; [split; try done|].
    + by eapply bufs_put_same.
    + lia.
    + split; [done|]. split; [done|]. intros j c Hj Hb.
      apply not_elem_of_cons in Hj as [Hji Hj].
      rewrite bufs_put_ne in Hb by done. by apply (Hi j c).
Qed.

(** Giving back the last buffer that is held. *)
Lemma brelse_idle s l n i b :
  bio_ok s -> idle_but (i :: l) s -> owns s n i b ->
  wp (brelse i) (fun _ s' => exists lru',
    s' = set_lru lru' (put_buf i (released b) s) /\ bio_ok s' /\ idle_but l s' /\
    (forall m, cview s' m = cview s m) /\ (forall m, is_dirty s' m = is_dirty s m)) s.
Proof.
  intros Hs Hi [Hb Hc Hh Hf Hr].
  assert (same_dirt b (released b)) as Hsd by done.
  eapply wp_brelse; [done|done|lia|]. eexists. split; [done|].
  split; [apply bio_ok_release; [done|done|lia]|]. split; [|split].
  - intros j c Hj Hjb. destruct (lookup_put _ _ _ _ _ Hjb) as [[-> ->]|[Hne Hb']].
    + simpl. split; [lia|done].
    + apply (Hi j c); [|done]. by apply not_elem_of_cons.
  - intros m. by apply (cview_put s i b).
  - intros m. by apply (is_dirty_put s i b).
Qed.

(** *** Writing a block through a held buffer *)

Lemma cview_disk_write s i a n d m :
  bio_ok s -> bufs s !! i = Some a -> caches n a -> 0 <= b_refcnt a < 2 ^ 31 ->
  0 <= n < Z.of_nat (length (disk s)) -> length d = BSIZE -> 0 <= m ->
  cview (disk_write n d (put_buf i (set_flags B_VALID (set_data d a)) s)) m =
  if m =? n then Some d else cview s m.
Proof.
  intros Hs Ha Hc Hr Hn Hd Hm. destruct (m =? n) eqn:E.
  - apply Z.eqb_eq in E as ->.
    apply (cview_of _ i (set_flags B_VALID (set_data d a)) n);
      [by apply bio_ok_disk_write|by eapply bufs_put_same|done|by left].
  - apply Z.eqb_neq in E. rewrite !cview_alt. simpl.
    rewrite (find_insert (dirty_for m) b_data (bufs s) i a); [|done|..].
    + destruct (option_map _ _); [done|]. apply list_lookup_insert_ne. lia.
    + destruct Hc as [_ Hc]. unfold dirty_for, same_block. simpl. rewrite Hc.
      replace (n =? m) with false by (symmetry; apply Z.eqb_neq; lia). by rewrite !andb_false_r.
    + unfold dirty_for, has_flag. simpl. by rewrite andb_false_r.
Qed.

Lemma is_dirty_disk_write s i a n d m :
  bio_ok s -> bufs s !! i = Some a -> caches n a ->
  is_dirty (disk_write n d (put_buf i (set_flags B_VALID (set_data d a)) s)) m =
  if m =? n then false else is_dirty s m.
Proof.
  intros Hs Ha Hc. destruct (m =? n) eqn:E.
  - apply Z.eqb_eq in E as ->. apply not_true_iff_false. rewrite is_dirty_true.
    intros (j & c & Hj & Hcj & Hf).
    apply (lookup_put s i) in Hj as [[-> ->]|[Hne Hj]]; [done|].
    apply Hne. destruct Hc, Hcj. eapply (bo_uniq _ Hs); [done|done|done|done|congruence].
  - apply Z.eqb_neq in E. unfold is_dirty. simpl.
    pose proof (find_insert (dirty_for m) (fun _ => tt) (bufs s) i a
      (set_flags B_VALID (set_data d a)) Ha) as H.
    destruct Hc as [_ Hc]. unfold dirty_for at 1 2, same_block in H. simpl in H. rewrite Hc in H.
    replace (n =? m) with false in H by (symmetry; apply Z.eqb_neq; lia).
    rewrite !andb_false_r in H. specialize (H eq_refl (fun _ => eq_refl)).
    by destruct (List.find _ _), (List.find _ _).
Qed.

(** The effect of writing one block between two idle states. *)
Record wrote (s s' : bio) (n : Z) (v : list Z) : Prop := Wrote {
  wr_ok : bio_ok s';
  wr_idle : idle_but [] s';
  wr_disk : disk s' = <[Z.to_nat n := v]> (disk s);
  wr_writes : writes s' = writes s ++ [(n, v)];
  wr_pid : mypid s' = mypid s;
  wr_view : forall m, 0 <= m -> cview s' m = if m =? n then Some v else cview s m;
  wr_dirty : forall m, is_dirty s' m = if m =? n then false else is_dirty s m;
  wr_clean : has_clean [] s';
}.

Lemma wp_bdata s i b (Q : list Z -> bio -> Prop) :
  bufs s !! i = Some b -> Q (b_data b) s -> wp (bdata i) Q s.
Proof. intros. unfold bdata. wp_steps. eapply wp_get_buf; [done|]. by wp_steps. Qed.

Lemma idle_but_swap i j s : idle_but [i; j] s -> idle_but [j; i] s.
Proof.
  intros H k b Hk. apply H. rewrite !not_elem_of_cons in *. by destruct Hk as (? & ? & ?).
Qed.

Lemma idle_but_put l i b s : idle_but (i :: l) s -> idle_but (i :: l) (put_buf i b s).
Proof.
  intros H k c Hk Hc. apply (H k c); [done|].
  rewrite bufs_put_ne in Hc; [done|]. set_solver.
Qed.

(** A process that holds buffers [w] and [r] writes [v] to the block of [w] and
    gives both back. *)
Lemma wp_write_release s w r n m bw br v :
  bio_ok s -> idle_but [w; r] s -> w <> r -> owns s n w bw -> owns s m r br ->
  0 <= n < Z.of_nat (length (disk s)) -> length v = BSIZE ->
  wp (bset_data w v ;;; bwrite w ;;; brelse r ;;; brelse w)
     (fun _ s' => wrote s s' n v) s.
Proof.
  intros Hs Hi Hne Hw Hr Hn Hv. pose proof Hw as [Hw1 Hw2 Hw3 Hw4 Hw5].
  pose proof Hr as [Hr1 Hr2 Hr3 Hr4 Hr5].
  wp_steps. eapply wp_upd_buf; [done|]. wp_steps.
  eapply (wp_bwrite _ _ (set_data v bw) n); [by eapply bufs_put_same|done..|simpl; lia|].
  rewrite put_put. simpl.
  set (b1 := set_flags B_VALID (set_data v bw)).
  set (s1 := disk_write n v (put_buf w b1 s)).
  assert (bio_ok s1) as Hs1 by (apply bio_ok_disk_write; [done..|lia|lia|done]).
  wp_steps. eapply wp_mono; [apply (brelse_idle s1 [w] m r br)|].
  - done.
  - apply idle_but_swap. intros k c Hk Hc. by apply (idle_but_put _ _ b1 _ Hi k c).
  - split; try done. unfold s1. simpl. by rewrite list_lookup_insert_ne.
  - intros [] s2 (lr & -> & Hs2 & Hi2 & Hv2 & Hd2).
    eapply wp_mono; [apply (brelse_idle _ [] n w b1)|].
    + done.
    + done.
    + split; try done; [|by left]. simpl. rewrite list_lookup_insert_ne by done.
      by eapply bufs_put_same.
    + intros [] s3 (lr' & -> & Hs3 & Hi3 & Hv3 & Hd3). split; try done.
      * intros k Hk. rewrite Hv3, Hv2. apply cview_disk_write; [done..|lia|lia|done|done].
      * intros k. rewrite Hd3, Hd2. by apply is_dirty_disk_write.
      * exists w, (released b1). split; [apply not_elem_of_nil|]. split; [|done].
        simpl. apply list_lookup_insert_eq. rewrite !length_insert.
        by eapply lookup_lt_Some.
Qed.

(** A process that holds one buffer and has put [v] in it writes it and gives it
    back. *)
Lemma wp_bwrite_brelse s i n b v :
  bio_ok s -> idle_but [i] s -> owns s n i b ->
  0 <= n < Z.of_nat (length (disk s)) -> length v = BSIZE ->
  wp (bwrite i ;;; brelse i) (fun _ s' => wrote s s' n v) (put_buf i (set_data v b) s).
Proof.
  intros Hs Hi [Hb Hc Hh Hf Hr] Hn Hv. wp_steps.
  eapply (wp_bwrite _ _ (set_data v b) n); [by eapply bufs_put_same|done..|simpl; lia|].
  rewrite put_put. simpl. set (b1 := set_flags B_VALID (set_data v b)).
  eapply wp_mono; [apply (brelse_idle _ [] n i b1)|].
  - apply bio_ok_disk_write; [done..|lia|lia|done].
  - intros k c Hk Hkc. by apply (idle_but_put _ _ b1 _ Hi k c).
  - split; try done; [|by left]. by eapply bufs_put_same.
  - intros [] s3 (lr & -> & Hs3 & Hi3 & Hv3 & Hd3). split; try done.
    + intros k Hk. rewrite Hv3. apply cview_disk_write; [done..|lia|lia|done|done].
    + intros k. rewrite Hd3. by apply is_dirty_disk_write.
    + exists i, (released b1). split; [apply not_elem_of_nil|]. split; [|done].
      simpl. apply list_lookup_insert_eq. rewrite !length_insert. by eapply lookup_lt_Some.
Qed.

(** ** The initial cache *)

Lemma binit_lookup d pid i b : bufs (binit d pid) !! i = Some b -> b = zero_buf.
Proof. intros Hb. by apply (lookup_replicate NBUF zero_buf) in Hb as [-> _]. Qed.

Lemma binit_ok d pid :
  (forall n x, d !! n = Some x -> length x = BSIZE) -> bio_ok (binit d pid).
Proof.
  intros Hd. split.
  - done.
  - apply (reverse_Permutation (seq 0 NBUF)).
  - intros i j b c Hb. apply binit_lookup in Hb as ->. done.
  - intros i b Hb. apply binit_lookup in Hb as ->. split; try done. by left.
  - done.
Qed.

Lemma binit_idle d pid : idle_but [] (binit d pid).
Proof. intros i b _ Hb. by apply binit_lookup in Hb as ->. Qed.

(** ** Theorems *)

(** The least recently used buffer that can be recycled. *)
Definition lru_victim (s : bio) (i : nat) : Prop :=
  exists front back, lru s = front ++ i :: back /\
    (exists b, bufs s !! i = Some b /\ recyclable b = true) /\
    forall j b, j ∈ back -> bufs s !! j = Some b -> recyclable b = false.

(** C22: [bread] of a block that is free or for which a buffer can be recycled returns
    the index of a buffer that is locked by the caller and holds the block as the
    kernel sees it (a pinned dirty copy wins over the disk); no other buffer, no disk
    block and no dirty contents change, and the cache invariant (one buffer per block,
    valid clean buffers equal to the disk, the list a permutation of the buffers) is kept. *)
Theorem bread_coherent s n :
  bio_ok s -> 0 <= n < Z.of_nat (length (disk s)) -> available s n ->
  wp (bread ROOTDEV n) (fun i s' =>
    bio_ok s' /\ disk s' = disk s /\ lru s' = lru s /\
    (forall j, j <> i -> bufs s' !! j = bufs s !! j) /\
    (forall m, cview s' m = cview s m) /\
    exists b, bufs s' !! i = Some b /\ b_dev b = ROOTDEV /\ b_blockno b = n /\
      b_lock b = SleepLock true (mypid s) /\ cview s n = Some (b_data b)) s.
Proof.
  intros Hs Hn Ha. eapply wp_mono; [by apply bread_spec|].
  intros i s' (a & b & Hla & -> & [[? ?] ? ? ? ? ?] & Hok).
  split_and!; try done.
  - intros j Hj. by rewrite bufs_put_ne.
  - intros m. by apply (cview_put s i a).
  - exists b. split_and!; try done. by eapply bufs_put_same.
Qed.

Lemma scan_reverse p l order i :
  scan p l (reverse order) = Some i ->
  exists front back, order = front ++ i :: back /\
    (exists b, l !! i = Some b /\ p b = true) /\
    forall j b, j ∈ back -> l !! j = Some b -> p b = false.
Proof.
  revert i. induction order as [|x order IH] using rev_ind; intros i; [done|].
  rewrite reverse_snoc. unfold scan. simpl. destruct (l !! x) as [b|] eqn:Hx.
  - destruct (p b) eqn:Hp.
    + intros [= <-]. exists order, []. split_and!; [done|by exists b|].
      intros j c Hj. by apply not_elem_of_nil in Hj.
    + intros (f & k & -> & Hb & Hk)%IH. exists f, (k ++ [x]). split_and!; [by rewrite <-app_assoc|done|].
      intros j c [Hj| ->%list_elem_of_singleton]%elem_of_app Hc; [by eapply Hk|]. by simplify_eq.
  - intros (f & k & -> & Hb & Hk)%IH. exists f, (k ++ [x]). split_and!; [by rewrite <-app_assoc|done|].
    intros j c [Hj| ->%list_elem_of_singleton]%elem_of_app Hc; [by eapply Hk|]. by simplify_eq.
Qed.

(** Replacement policy of [bget]: when the block is not cached it takes the least
    recently used buffer that is neither referenced nor dirty, and it panics exactly
    when there is no such buffer. *)
Theorem bget_replacement s n :
  bio_ok s -> (forall i b, bufs s !! i = Some b -> ~ caches n b) ->
  (exists i, lru_victim s i /\ wp (bget ROOTDEV n) (fun i' s' =>
     i' = i /\ exists b, bufs s' !! i = Some b /\ caches n b /\ b_flags b = 0 /\ b_refcnt b = 1) s) \/
  ((forall i b, bufs s !! i = Some b -> recyclable b = false) /\
   bget ROOTDEV n s = Panic "bget: no buffers").
Proof.
  intros Hs Hn.
  assert (scan (same_block ROOTDEV n) (bufs s) (lru s) = None) as E.
  { destruct (scan _ _ _) as [i|] eqn:E; [|done]. apply scan_Some in E as [_ (b & Hb & Hc)].
    apply same_block_caches in Hc. by destruct (Hn _ _ Hb). }
  destruct (scan recyclable (bufs s) (reverse (lru s))) as [i|] eqn:E2.
  - left. exists i. pose proof (scan_reverse _ _ _ _ E2) as Hv. split; [exact Hv|].
    destruct Hv as (_ & _ & _ & (a & Ha & Hc) & _).
    pose proof (bk_lock _ _ (bo_buf _ Hs _ _ Ha)) as Hl.
    pose proof (proj1 (recyclable_spec _) Hc) as [Hr _].
    unfold bget. wp_steps. simpl. rewrite E, E2. wp_steps.
    eapply wp_upd_buf; [done|]. wp_steps.
    eapply wp_acquiresleep; [by eapply bufs_put_same| |]; simpl.
    { destruct (sl_locked (b_lock a)); [|done]. exfalso. specialize (Hl eq_refl). lia. }
    wp_steps. split; [done|]. rewrite put_put. eexists. split; [by eapply bufs_put_same|done].
  - right. split.
    + intros i b Hb. eapply (scan_None _ _ _ i b E2); [|done].
      rewrite reverse_Permutation. by eapply in_lru.
    + unfold bget, bind, gets. simpl. by rewrite E, E2.
Qed.

(** [brelse] of a held buffer gives the lock and one reference back, keeps the
    cache invariant and, when it was the last reference, makes the buffer the most
    recently used one without disturbing the order of the others; a caller that does
    not hold the lock panics. *)
Theorem brelse_releases s i b :
  bio_ok s -> bufs s !! i = Some b ->
  (held_by (mypid s) b -> wp (brelse i) (fun _ s' =>
     bio_ok s' /\ disk s' = disk s /\
     bufs s' = <[i := set_refcnt (b_refcnt b - 1) (set_lock (SleepLock false 0) b)]> (bufs s) /\
     lru s' = if b_refcnt b =? 1 then i :: filter (fun j => j <> i) (lru s) else lru s) s) /\
  (sl_locked (b_lock b) = false \/ sl_pid (b_lock b) <> mypid s -> brelse i s = Panic "brelse").
Proof.
  intros Hs Hb. split.
  - intros Hh. pose proof (bo_buf _ Hs _ _ Hb) as Hk.
    assert (0 < b_refcnt b) as Hr by (apply (bk_lock _ _ Hk); by rewrite Hh).
    eapply wp_brelse; [done|done|destruct (bk_ref _ _ Hk); lia|].
    split_and!; try done. by apply bio_ok_release.
  - intros Hnh. unfold brelse, holdingsleep, get_buf, bind, gets, deref. simpl. rewrite Hb. simpl.
    destruct Hnh as [->|Hp]; [done|]. by rewrite (proj2 (Z.eqb_neq _ _) Hp), andb_false_r.
Qed.

(** ** Witnesses *)

Definition example_cache : bio := binit (replicate 4 (replicate BSIZE 5)) 1.

Lemma example_cache_ok : bio_ok example_cache.
Proof. apply binit_ok. intros n x Hx. by apply lookup_replicate_1 in Hx as [-> _]. Qed.

Lemma example_available : available example_cache 2.
Proof.
  split.
  - intros i b Hb. apply binit_lookup in Hb as ->. intros [? _]. done.
  - right. exists 0%nat, zero_buf. done.
Qed.

Lemma bread_coherent_witness :
  wp (bread ROOTDEV 2) (fun i s' => bio_ok s') example_cache.
Proof.
  eapply wp_mono; [apply (bread_coherent example_cache 2)|].
  - exact example_cache_ok.
  - vm_compute. split; congruence.
  - exact example_available.
  - intros i s' H. exact (proj1 H).
Defined.

Lemma bget_replacement_witness :
  exists i, lru_victim example_cache i /\
    wp (bget ROOTDEV 2) (fun i' s' =>
     i' = i /\ exists b, bufs s' !! i = Some b /\ caches 2 b /\ b_flags b = 0 /\ b_refcnt b = 1) example_cache.
Proof.
  destruct (bget_replacement example_cache 2 example_cache_ok) as [H|[H _]].
  - intros i b Hb. apply binit_lookup in Hb as ->. intros [? _]. discriminate.
  - exact H.
  - specialize (H 0%nat zero_buf eq_refl). discriminate.
Defined.

Lemma brelse_releases_witness : brelse 0 example_cache = Panic "brelse".
Proof.
  apply (brelse_releases example_cache 0 zero_buf example_cache_ok eq_refl).
  left. reflexivity.
Defined.
