(* ===== verification/Log.v ===== *)
(** * The write-ahead log of the file system (log.c, and [readsb] of fs.c)

    The state is the buffer cache with the in-memory [struct log].  Blocks
    modified by a file system call are pinned in the cache by [log_write]; when
    the last outstanding call ends, [commit] copies them to the log on disk,
    writes the log header, installs the blocks at their home locations and
    clears the header.  [initlog] recovers after a crash.

    [log.lock] protects short sections that run without interleaving; the
    [wakeup(&log)] calls concern the process table and have no effect here. *)

From S2P Require Import Prelude Bytes Bio.

(** ** State *)

(** [struct superblock] of fs.h. *)
Record superblock := Superblock {
  sb_size : Z;
  sb_nblocks : Z;
  sb_ninodes : Z;
  sb_nlog : Z;
  sb_logstart : Z;
  sb_inodestart : Z;
  sb_bmapstart : Z;
}.

(** [struct log] with its [struct logheader]: [lh_block] has [LOGSIZE] entries. *)
Record log := Log {
  l_start : Z;
  l_size : Z;
  l_outstanding : Z;
  l_committing : bool;
  l_dev : Z;
  lh_n : Z;
  lh_block : list Z;
}.

Record logst := LogSt { st_bio : bio; st_log : log }.

Definition set_n (x : Z) (l : log) : log :=
  Log (l_start l) (l_size l) (l_outstanding l) (l_committing l) (l_dev l) x (lh_block l).
Definition set_block (x : list Z) (l : log) : log :=
  Log (l_start l) (l_size l) (l_outstanding l) (l_committing l) (l_dev l) (lh_n l) x.
Definition set_outstanding (x : Z) (l : log) : log :=
  Log (l_start l) (l_size l) x (l_committing l) (l_dev l) (lh_n l) (lh_block l).
Definition set_committing (x : bool) (l : log) : log :=
  Log (l_start l) (l_size l) (l_outstanding l) x (l_dev l) (lh_n l) (lh_block l).
Definition set_geometry (start size dev : Z) (l : log) : log :=
  Log start size (l_outstanding l) (l_committing l) dev (lh_n l) (lh_block l).

(** ** Operations *)

Definition on_bio {A} (m : M bio A) : M logst A :=
  zoom st_bio (fun b s => LogSt b (st_log s)) m.
Definition get_log : M logst log := gets st_log.
Definition upd_log (f : log -> log) : M logst unit :=
  modify (fun s => LogSt (st_bio s) (f (st_log s))).

(** [log.lh.block[i]] and its update: the array has [LOGSIZE] entries. *)
Definition lh_get (i : Z) : M logst Z :=
  l <- get_log ;; deref "log.lh.block" (lh_block l !! Z.to_nat i).
Definition lh_set (i v : Z) : M logst unit :=
  _ <- lh_get i ;;
  upd_log (fun l => set_block (<[Z.to_nat i := v]> (lh_block l)) l).

Definition parse_sb (d : list Z) : superblock :=
  Superblock (get32 0 d) (get32 4 d) (get32 8 d) (get32 12 d) (get32 16 d)
    (get32 20 d) (get32 24 d).

Definition readsb (dev : Z) : M bio superblock :=
  bp <- bread dev 1 ;;
  d <- bdata bp ;;
  brelse bp ;;;
  ret (parse_sb d).

(** The body of the loop of [install_trans]. *)
Definition install_one (l : log) (tail : Z) : M logst unit :=
  lbuf <- on_bio (bread (l_dev l) (u32 (l_start l + tail + 1))) ;;
  blockno <- lh_get tail ;;
  dbuf <- on_bio (bread (l_dev l) (u32 blockno)) ;;
  on_bio (
    d <- bdata lbuf ;;
    bset_data dbuf d ;;;
    bwrite dbuf ;;;
    brelse lbuf ;;;
    brelse dbuf).

Definition install_trans : M logst unit :=
  l <- get_log ;;
  for_loop (Z.to_nat (lh_n l)) 0 (install_one l).

Definition read_head : M logst unit :=
  l <- get_log ;;
  bp <- on_bio (bread (l_dev l) (u32 (l_start l))) ;;
  lh <- on_bio (bdata bp) ;;
  upd_log (set_n (s32 (get32 0 lh))) ;;;
  for_loop (Z.to_nat (s32 (get32 0 lh))) 0 (fun i =>
    lh_set i (s32 (get32 (4 + 4 * i) lh))) ;;;
  on_bio (brelse bp).

(** The overlay of the header on the block: [hb->n = n], [hb->block[i] = block[i]]
    for [i < n]. *)
Fixpoint put_blocks (off : Z) (bs : list Z) (d : list Z) : list Z :=
  match bs with
  | [] => d
  | b :: bs' => put_blocks (off + 4) bs' (put32 off b d)
  end.

Definition write_head : M logst unit :=
  l <- get_log ;;
  bp <- on_bio (bread (l_dev l) (u32 (l_start l))) ;;
  on_bio (hb <- bdata bp ;; bset_data bp (put32 0 (lh_n l) hb)) ;;;
  for_loop (Z.to_nat (lh_n l)) 0 (fun i =>
    b <- lh_get i ;;
    on_bio (hb <- bdata bp ;; bset_data bp (put32 (4 + 4 * i) b hb))) ;;;
  on_bio (bwrite bp ;;; brelse bp).

Definition recover_from_log : M logst unit :=
  read_head ;;;
  install_trans ;;;
  upd_log (set_n 0) ;;;
  write_head.

(** [sizeof(struct logheader)] is [4 + 4 * LOGSIZE]. *)
Definition initlog (dev : Z) : M logst unit :=
  panic_if (Z.of_nat BSIZE <=? 4 + 4 * LOGSIZE) "initlog: too big logheader" ;;;
  sb <- on_bio (readsb dev) ;;
  upd_log (set_geometry (s32 (sb_logstart sb)) (s32 (sb_nlog sb)) dev) ;;;
  recover_from_log.

(** A pass through the loop of [begin_op]: the caller goes to sleep or is admitted. *)
Definition begin_op : M logst unit :=
  l <- get_log ;;
  if l_committing l then sleeps "log"
  else if LOGSIZE <? lh_n l + (l_outstanding l + 1) * MAXOPBLOCKS then sleeps "log"
  else upd_log (set_outstanding (l_outstanding l + 1)).

(** The body of the loop of [write_log]. *)
Definition write_one (l : log) (tail : Z) : M logst unit :=
  to <- on_bio (bread (l_dev l) (u32 (l_start l + tail + 1))) ;;
  blockno <- lh_get tail ;;
  from <- on_bio (bread (l_dev l) (u32 blockno)) ;;
  on_bio (
    d <- bdata from ;;
    bset_data to d ;;;
    bwrite to ;;;
    brelse from ;;;
    brelse to).

Definition write_log : M logst unit :=
  l <- get_log ;;
  for_loop (Z.to_nat (lh_n l)) 0 (write_one l).

Definition commit : M logst unit :=
  l <- get_log ;;
  if 0 <? lh_n l then
    write_log ;;;
    write_head ;;;
    install_trans ;;;
    upd_log (set_n 0) ;;;
    write_head
  else ret tt.

Definition end_op : M logst unit :=
  upd_log (fun l => set_outstanding (l_outstanding l - 1) l) ;;;
  l <- get_log ;;
  panic_if (l_committing l) "log.committing" ;;;
  if l_outstanding l =? 0 then
    upd_log (set_committing true) ;;;
    commit ;;;
    upd_log (set_committing false)
  else ret tt.

(** The search loop of [log_write]: the first [i < n] whose entry is [blockno],
    or [n]. *)
Fixpoint absorb (blocks : list Z) (n : nat) (blockno : Z) : nat :=
  match n, blocks with
  | S n', b :: bs => if u32 b =? blockno then O else S (absorb bs n' blockno)
  | _, _ => O
  end.

Definition log_write (i : nat) : M logst unit :=
  l <- get_log ;;
  panic_if ((LOGSIZE <=? lh_n l) || (l_size l - 1 <=? lh_n l)) "too big a transaction" ;;;
  panic_if (l_outstanding l <? 1) "log_write outside of trans" ;;;
  b <- on_bio (get_buf i) ;;
  (let k := absorb (lh_block l) (Z.to_nat (lh_n l)) (b_blockno b) in
   lh_set (Z.of_nat k) (s32 (b_blockno b)) ;;;
   if Z.of_nat k =? lh_n l then upd_log (fun l => set_n (lh_n l + 1) l) else ret tt) ;;;
  on_bio (upd_buf i (fun b => set_flags (Z.lor (b_flags b) B_DIRTY) b)).

(** The machine restarts: empty caches over the disk that the crash left. *)
Definition zero_log : log := Log 0 0 0 false 0 0 (replicate (Z.to_nat LOGSIZE) 0).
Definition boot (d : list (list Z)) (pid : Z) : logst := LogSt (binit d pid) zero_log.

(** The disk after a sequence of block writes. *)
Definition apply_writes (ws : list (Z * list Z)) (d : list (list Z)) : list (list Z) :=
  fold_left (fun d w => <[Z.to_nat (fst w) := snd w]> d) ws d.

(** ** Specification *)

(** A block outside the superblock and the log area: the home of file system data. *)
Definition home (l : log) (n : Z) : Prop :=
  0 <= n /\ n <> 1 /\ ~ (l_start l <= n < l_start l + l_size l).

(** The geometry that [initlog] reads from the superblock. *)
Record geom_ok (l : log) (disksize : Z) : Prop := GeomOk {
  g_dev : l_dev l = ROOTDEV;
  g_start : 1 < l_start l;
  g_size : 0 < l_size l;
  g_end : l_start l + l_size l <= disksize;
  g_max : disksize < 2 ^ 31;
}.

(** The blocks of the current transaction. *)
Definition logged (l : log) : list Z := take (Z.to_nat (lh_n l)) (lh_block l).

Record tx_ok (l : log) (disksize : Z) : Prop := TxOk {
  tx_geom : geom_ok l disksize;
  tx_len : length (lh_block l) = Z.to_nat LOGSIZE;
  tx_n : 0 <= lh_n l <= LOGSIZE /\ lh_n l < l_size l;
  tx_nodup : NoDup (logged l);
  tx_home : forall b, b ∈ logged l -> home l b /\ b < disksize;
}.

Definition no_dirty (b : bio) : Prop := forall m, is_dirty b m = false.

(** The cache can serve the copy loops: a clean buffer is left for the log block,
    and the home block is pinned (or nothing is pinned at all). *)
Definition can_copy (b : bio) (blk : Z) : Prop :=
  (is_dirty b blk = true /\ has_clean [] b) \/ no_dirty b.

(** ** Copying one block *)

Lemma no_dirty_clean b i : bio_ok b -> no_dirty b -> has_clean [i] b.
Proof.
  intros Hb Hn. set (j := if decide (i = 0%nat) then 1%nat else 0%nat).
  assert (j <> i) as Hj by (unfold j; case_decide; lia).
  destruct (lookup_lt_is_Some_2 (bufs b) j) as [c Hc].
  { rewrite (bo_len _ Hb). unfold j, NBUF. case_decide; lia. }
  exists j, c. split; [by rewrite list_elem_of_singleton|]. split; [done|].
  apply not_true_iff_false. intros Hd.
  assert (is_dirty b (b_blockno c) = true); [|by rewrite Hn in *].
  apply is_dirty_true. exists j, c. split; [done|]. split; [|done].
  pose proof (bo_buf _ Hb _ _ Hc) as Hk. split; [|done].
  apply (bk_dev _ _ Hk). apply (dirty_has_flag _ _ Hk) in Hd. by rewrite Hd.
Qed.

Lemma can_copy_clean b blk : bio_ok b -> can_copy b blk -> has_clean [] b.
Proof.
  intros Hb [[_ ?]|Hn]; [done|].
  destruct (no_dirty_clean b 0 Hb Hn) as (j & c & _ & ? & ?).
  exists j, c. split; [apply not_elem_of_nil|done].
Qed.

Lemma owns_put s n i b j c : i <> j -> owns s n i b -> owns (put_buf j c s) n i b.
Proof. intros Hne [? ? ? ? ?]. split; try done. by rewrite bufs_put_ne. Qed.

Lemma caches_inj n m b : caches n b -> caches m b -> n = m.
Proof. intros [_ <-] [_ <-]. done. Qed.

(** Two reads in a row: both blocks are held, nothing else has changed. *)
Lemma wp_two_breads s x y (Q : nat -> nat -> bio -> Prop) :
  bio_ok s -> idle_but [] s -> x <> y ->
  0 <= x < Z.of_nat (length (disk s)) -> 0 <= y < Z.of_nat (length (disk s)) ->
  can_copy s y ->
  (forall i j bi bj s', i <> j -> bio_ok s' -> idle_but [j; i] s' ->
     owns s' x i bi -> owns s' y j bj ->
     cview s x = Some (b_data bi) -> cview s y = Some (b_data bj) ->
     disk s' = disk s -> writes s' = writes s -> mypid s' = mypid s ->
     (forall m, cview s' m = cview s m) -> (forall m, is_dirty s' m = is_dirty s m) ->
     Q i j s') ->
  wp (bread ROOTDEV x) (fun i s1 => wp (bread ROOTDEV y) (fun j s2 => Q i j s2) s1) s.
Proof.
  intros Hs Hi Hxy Hx Hy Hcc HQ.
  eapply wp_mono; [apply (bread_idle s []); try done|].
  { intros j b Hj. by apply not_elem_of_nil in Hj. }
  { right. by eapply can_copy_clean. }
  intros i s1 (a & bi & _ & Ha & Hsd & -> & Ho & Hv & Hs1 & Hi1).
  assert (forall m, is_dirty (put_buf i bi s) m = is_dirty s m) as Hd1
    by (intros m; by apply (is_dirty_put s i a)).
  eapply wp_mono; [apply (bread_idle _ [i]); try done|].
  { intros j b ->%list_elem_of_singleton Hb. destruct Ho as [Hb' Hc Hh Hf Hr].
    simplify_eq. split; [|lia]. intros Hcy. by apply Hxy, (caches_inj x y bi). }
  { destruct Hcc as [[? _]|Hn]; [left; by rewrite Hd1|].
    right. apply no_dirty_clean; [done|]. intros m. by rewrite Hd1. }
  intros j s2 (a' & bj & Hij & Ha' & Hsd' & -> & Ho' & Hv' & Hs2 & Hi2).
  apply not_elem_of_cons in Hij as [Hij _].
  eapply HQ; try done.
  - by apply owns_put.
  - by rewrite (cview_put s i a) in Hv'.
  - intros m. rewrite (cview_put _ j a') by done. by rewrite (cview_put s i a).
  - intros m. by rewrite (is_dirty_put _ j a'), Hd1 by done.
Qed.

Lemma wrote_from s s1 s' n v :
  disk s1 = disk s -> writes s1 = writes s -> mypid s1 = mypid s ->
  (forall m, cview s1 m = cview s m) -> (forall m, is_dirty s1 m = is_dirty s m) ->
  wrote s1 s' n v -> wrote s s' n v.
Proof.
  intros H1 H2 H3 H4 H5 [W1 W2 W3 W4 W5 W6 W7 W8]. split; try done; try congruence.
  - intros m Hm. rewrite W6 by done. by rewrite H4.
  - intros m. rewrite W7. by rewrite H5.
Qed.

Lemma cview_length s n v : bio_ok s -> cview s n = Some v -> length v = BSIZE.
Proof.
  intros Hs. unfold cview. destruct (List.find _ _) as [c|] eqn:E.
  - apply List.find_some in E as [Hin _].
    apply list_elem_of_In, list_elem_of_lookup in Hin as [j Hj].
    intros [= <-]. by apply (bk_data _ _ (bo_buf _ Hs _ _ Hj)).
  - by apply (bo_disk _ Hs).
Qed.

(** ** Sequences of block writes *)

(** The contents of block [m] after the writes [ws] over the contents [f]. *)
Definition overlay (ws : list (Z * list Z)) (f : Z -> option (list Z)) : Z -> option (list Z) :=
  fold_left (fun g w m => if m =? fst w then Some (snd w) else g m) ws f.

Lemma overlay_snoc ws n v f m :
  overlay (ws ++ [(n, v)]) f m = if m =? n then Some v else overlay ws f m.
Proof. unfold overlay. by rewrite fold_left_app. Qed.

Lemma overlay_app ws ws' f : overlay (ws ++ ws') f = overlay ws' (overlay ws f).
Proof. apply fold_left_app. Qed.

Lemma overlay_notin ws f m : m ∉ ws.*1 -> overlay ws f m = f m.
Proof.
  induction ws as [|[n v] ws IH] using rev_ind; [done|]. intros Hm.
  rewrite overlay_snoc. rewrite fmap_app in Hm. simpl in Hm.
  apply not_elem_of_app in Hm as [Hm Hn]. apply not_elem_of_cons in Hn as [Hn _].
  replace (m =? n) with false by (symmetry; by apply Z.eqb_neq). by apply IH.
Qed.

Lemma overlay_in ws f n v : NoDup ws.*1 -> (n, v) ∈ ws -> overlay ws f n = Some v.
Proof.
  induction ws as [|[n' v'] ws IH] using rev_ind; intros Hnd Hin.
  - by apply not_elem_of_nil in Hin.
  - rewrite overlay_snoc. rewrite fmap_app in Hnd. simpl in Hnd.
    apply NoDup_app in Hnd as (Hnd & Hdis & _).
    apply elem_of_app in Hin as [Hin|Hin].
    + destruct (n =? n') eqn:E; [|by apply IH].
      apply Z.eqb_eq in E as ->. exfalso. apply (Hdis n'); [|by left].
      apply list_elem_of_fmap. by exists (n', v).
    + apply list_elem_of_singleton in Hin as [= -> ->]. by rewrite Z.eqb_refl.
Qed.

Lemma overlay_ext ws f g m : f m = g m -> overlay ws f m = overlay ws g m.
Proof.
  intros H. induction ws as [|[n v] ws IH] using rev_ind; [done|].
  rewrite !overlay_snoc. by rewrite IH.
Qed.

Lemma apply_writes_snoc ws n v d :
  apply_writes (ws ++ [(n, v)]) d = <[Z.to_nat n := v]> (apply_writes ws d).
Proof. unfold apply_writes. by rewrite fold_left_app. Qed.

Lemma apply_writes_app ws ws' d :
  apply_writes (ws ++ ws') d = apply_writes ws' (apply_writes ws d).
Proof. apply fold_left_app. Qed.

Lemma length_apply_writes ws d : length (apply_writes ws d) = length d.
Proof.
  induction ws as [|[n v] ws IH] using rev_ind; [done|].
  by rewrite apply_writes_snoc, length_insert.
Qed.

(** Block contents of a disk, and of a disk after writes in range. *)
Definition dview (d : list (list Z)) (n : Z) : option (list Z) := d !! Z.to_nat n.

Definition in_range (ws : list (Z * list Z)) (d : list (list Z)) : Prop :=
  forall w, w ∈ ws -> 0 <= fst w < Z.of_nat (length d).

Lemma dview_apply ws d m :
  in_range ws d -> 0 <= m -> dview (apply_writes ws d) m = overlay ws (dview d) m.
Proof.
  intros Hr Hm. induction ws as [|[n v] ws IH] using rev_ind; [done|].
  rewrite apply_writes_snoc, overlay_snoc. unfold dview at 1.
  assert (0 <= n < Z.of_nat (length d)) as Hn
    by (apply (Hr (n, v)), elem_of_app; right; by left).
  destruct (m =? n) eqn:E.
  - apply Z.eqb_eq in E as ->. apply list_lookup_insert_eq.
    rewrite length_apply_writes. lia.
  - apply Z.eqb_neq in E. rewrite list_lookup_insert_ne by lia.
    apply IH. intros w Hw. apply Hr, elem_of_app. by left.
Qed.

(** A run of block writes between two idle states of the cache. *)
Record progress (b b' : bio) (ws : list (Z * list Z)) : Prop := Progress {
  pr_ok : bio_ok b';
  pr_idle : idle_but [] b';
  pr_disk : disk b' = apply_writes ws (disk b);
  pr_writes : writes b' = writes b ++ ws;
  pr_pid : mypid b' = mypid b;
  pr_view : forall m, 0 <= m -> cview b' m = overlay ws (cview b) m;
  pr_dirty : forall m, is_dirty b' m = if decide (m ∈ ws.*1) then false else is_dirty b m;
  pr_clean : has_clean [] b -> has_clean [] b';
}.

Lemma progress_refl b : bio_ok b -> idle_but [] b -> progress b b [].
Proof.
  intros. split; try done. by rewrite app_nil_r.
Qed.

Lemma progress_snoc b b' b'' ws n v :
  progress b b' ws -> wrote b' b'' n v -> progress b b'' (ws ++ [(n, v)]).
Proof.
  intros [P1 P2 P3 P4 P5 P6 P7 P8] [W1 W2 W3 W4 W5 W6 W7 W8]. split; try done.
  - by rewrite W3, P3, apply_writes_snoc.
  - by rewrite W4, P4, app_assoc.
  - congruence.
  - intros m Hm. rewrite W6, overlay_snoc by done. by rewrite P6.
  - intros m. rewrite W7, P7, fmap_app. simpl.
    destruct (m =? n) eqn:E.
    + apply Z.eqb_eq in E as ->. rewrite decide_True; [done|]. apply elem_of_app. right. by left.
    + apply Z.eqb_neq in E. destruct (decide (m ∈ ws.*1)).
      * rewrite decide_True; [done|]. apply elem_of_app. by left.
      * rewrite decide_False; [done|]. rewrite elem_of_app, list_elem_of_singleton. by intros [?|?].
Qed.

Lemma progress_trans b b' b'' ws ws' :
  progress b b' ws -> progress b' b'' ws' -> progress b b'' (ws ++ ws').
Proof.
  intros [P1 P2 P3 P4 P5 P6 P7 P8] [W1 W2 W3 W4 W5 W6 W7 W8]. split; try done; try by auto.
  - by rewrite W3, P3, apply_writes_app.
  - by rewrite W4, P4, app_assoc.
  - congruence.
  - intros m Hm. rewrite W6, overlay_app by done. apply overlay_ext. by apply P6.
  - intros m. rewrite W7, P7, fmap_app.
    destruct (decide (m ∈ ws'.*1)); destruct (decide (m ∈ ws.*1));
      first [rewrite decide_True; [done|] | rewrite decide_False; [done|]];
      rewrite elem_of_app; tauto.
Qed.

(** ** The copy loops *)

Lemma wp_lh_get i v s (Q : Z -> logst -> Prop) :
  lh_block (st_log s) !! Z.to_nat i = Some v -> Q v s -> wp (lh_get i) Q s.
Proof. intros H HQ. unfold lh_get, get_log. wp_steps. by eapply wp_deref. Qed.

Section copy.
Variables (l : log) (s : logst) (tail blk : Z) (v : list Z).
Let b := st_bio s.
Let D := Z.of_nat (length (disk b)).
Hypothesis Hg : geom_ok l D.
Hypothesis Hok : bio_ok b.
Hypothesis Hidle : idle_but [] b.
Hypothesis Htail : 0 <= tail /\ tail + 1 < l_size l.
Hypothesis Hblk : lh_block (st_log s) !! Z.to_nat tail = Some blk.
Hypothesis Hhome : home l blk /\ blk < D.
Hypothesis Hcopy : can_copy b blk.

Lemma log_block_range :
  0 <= l_start l + tail + 1 < D /\ l_start l + tail + 1 <> blk /\
  u32 (l_start l + tail + 1) = l_start l + tail + 1 /\ u32 blk = blk.
Proof using Hg Htail Hhome.
  destruct Hg, Hhome as [(? & ? & ?) ?].
  repeat split; try lia; apply u32_small; lia.
Qed.

Lemma install_one_spec :
  cview b (l_start l + tail + 1) = Some v ->
  wp (install_one l tail) (fun _ s' => st_log s' = st_log s /\ wrote b (st_bio s') blk v) s.
Proof using Hg Hok Hidle Htail Hblk Hhome Hcopy.
  intros Hv. destruct log_block_range as (Hr & Hne & E1 & E2).
  destruct Hhome as [(H0 & _ & _) Hlt].
  unfold install_one, on_bio. rewrite (g_dev _ _ Hg), E1. wp_steps.
  eapply wp_mono; [apply (wp_two_breads b (l_start l + tail + 1) blk
    (fun i j t => wp (d <- bdata i ;; bset_data j d ;;; bwrite j ;;; brelse i ;;; brelse j)
       (fun _ t' => wrote b t' blk v) t)); try done|].
  - intros i j bi bj t Hij Ht Hti Hoi Hoj Hvi Hvj Hd Hw Hp Hcv Hdt.
    apply wp_bind. eapply wp_bdata; [by apply Hoi|].
    assert (b_data bi = v) as -> by congruence.
    eapply wp_mono; [eapply (wp_write_release t j i blk);
      [done|done|by apply not_eq_sym|done|done|by rewrite Hd|by apply (cview_length b _ v Hok Hv)]|].
    intros [] t' Hwr. by eapply wrote_from.
  - intros i t Ht. wp_steps. apply (wp_lh_get tail blk); [done|]. rewrite E2. wp_steps.
    simpl. eapply wp_mono; [exact Ht|]. intros j t' Ht'. apply wp_zoom.
    eapply wp_mono; [exact Ht'|]. intros [] t'' Hwr. by split.
Qed.

Lemma write_one_spec :
  cview b blk = Some v ->
  wp (write_one l tail) (fun _ s' =>
    st_log s' = st_log s /\ wrote b (st_bio s') (l_start l + tail + 1) v) s.
Proof using Hg Hok Hidle Htail Hblk Hhome Hcopy.
  intros Hv. destruct log_block_range as (Hr & Hne & E1 & E2).
  destruct Hhome as [(H0 & _ & _) Hlt].
  unfold write_one, on_bio. rewrite (g_dev _ _ Hg), E1. wp_steps.
  eapply wp_mono; [apply (wp_two_breads b (l_start l + tail + 1) blk
    (fun i j t => wp (d <- bdata j ;; bset_data i d ;;; bwrite i ;;; brelse j ;;; brelse i)
       (fun _ t' => wrote b t' (l_start l + tail + 1) v) t)); try done|].
  - intros i j bi bj t Hij Ht Hti Hoi Hoj Hvi Hvj Hd Hw Hp Hcv Hdt.
    apply wp_bind. eapply wp_bdata; [by apply Hoj|].
    assert (b_data bj = v) as -> by congruence.
    eapply wp_mono; [eapply (wp_write_release t i j);
      [done|by apply idle_but_swap|done|done|done|by rewrite Hd|by apply (cview_length b _ v Hok Hv)]|].
    intros [] t' Hwr. by eapply wrote_from.
  - intros i t Ht. wp_steps. apply (wp_lh_get tail blk); [done|]. rewrite E2. wp_steps.
    simpl. eapply wp_mono; [exact Ht|]. intros j t' Ht'. apply wp_zoom.
    eapply wp_mono; [exact Ht'|]. intros [] t'' Hwr. by split.
Qed.
End copy.

(** The writes of [write_log] and of [install_trans] for block contents [vs]. *)
Definition log_writes (l : log) (vs : list (list Z)) : list (Z * list Z) :=
  zip (seqZ (l_start l + 1) (Z.of_nat (length vs))) vs.
Definition home_writes (l : log) (vs : list (list Z)) : list (Z * list Z) :=
  zip (logged l) vs.

Lemma take_fst_sub {A} k (ws : list (Z * A)) m : m ∈ (take k ws).*1 -> m ∈ ws.*1.
Proof.
  rewrite !list_elem_of_fmap. intros (w & -> & Hw). exists w. split; [done|].
  rewrite <-(take_drop k ws). apply elem_of_app. by left.
Qed.

Lemma log_writes_fst l vs : (log_writes l vs).*1 = seqZ (l_start l + 1) (Z.of_nat (length vs)).
Proof. apply fst_zip. rewrite length_seqZ. lia. Qed.

Lemma home_writes_fst l vs : length vs = length (logged l) -> (home_writes l vs).*1 = logged l.
Proof. intros. apply fst_zip. lia. Qed.

Lemma log_writes_lookup l vs t v :
  vs !! t = Some v -> log_writes l vs !! t = Some (l_start l + Z.of_nat t + 1, v).
Proof.
  intros Hv. pose proof (lookup_lt_Some _ _ _ Hv). unfold log_writes.
  apply lookup_zip_Some. split; [|done].
  rewrite lookup_seqZ_lt by lia. f_equal. lia.
Qed.

Lemma length_logged l D : tx_ok l D -> length (logged l) = Z.to_nat (lh_n l).
Proof. intros [_ Hl Hn _ _]. unfold logged. rewrite length_take, Hl. lia. Qed.

Lemma logged_lookup l D t blk :
  tx_ok l D -> logged l !! t = Some blk ->
  lh_block l !! t = Some blk /\ (home l blk /\ blk < D) /\ Z.of_nat t + 1 < l_size l.
Proof.
  intros Htx Hb. pose proof (lookup_lt_Some _ _ _ Hb) as Ht.
  rewrite (length_logged _ _ Htx) in Ht. destruct Htx as [_ Hl Hn _ Hh].
  split; [|split; [|lia]].
  - unfold logged in Hb. by rewrite lookup_take_lt in Hb by lia.
  - apply Hh. by eapply list_elem_of_lookup_2.
Qed.

Lemma log_key_not_home l D vs m k :
  tx_ok l D -> length vs = length (logged l) -> home l m ->
  m ∉ (take k (log_writes l vs)).*1.
Proof.
  intros Htx Hlen (H0 & H1 & H2) Hin. apply take_fst_sub in Hin.
  rewrite log_writes_fst, elem_of_seqZ in Hin. apply H2.
  rewrite Hlen, (length_logged _ _ Htx) in Hin.
  pose proof (tx_geom _ _ Htx) as [? ? ? ? ?]. pose proof (tx_n _ _ Htx). lia.
Qed.

Lemma write_log_spec s vs :
  let l := st_log s in
  let b := st_bio s in
  tx_ok l (Z.of_nat (length (disk b))) -> bio_ok b -> idle_but [] b -> has_clean [] b ->
  (forall blk, blk ∈ logged l -> is_dirty b blk = true) ->
  Forall2 (fun blk v => cview b blk = Some v) (logged l) vs ->
  wp write_log (fun _ s' => st_log s' = l /\ progress b (st_bio s') (log_writes l vs)) s.
Proof.
  intros l b Htx Hok Hidle Hcl Hdirty Hvs. pose proof (Forall2_length _ _ _ Hvs) as Hlen.
  pose proof (length_logged _ _ Htx) as Hll. pose proof (tx_n _ _ Htx) as Hn.
  unfold write_log, get_log. wp_steps.
  eapply wp_mono; [apply (wp_for_loop (fun t s' => st_log s' = l /\
    progress b (st_bio s') (take (Z.to_nat t) (log_writes l vs))))|].
  - split; [done|]. by apply progress_refl.
  - intros t s' Ht [Hl Hp]. fold l in Ht.
    destruct (lookup_lt_is_Some_2 (logged l) (Z.to_nat t)) as [blk Hblk]; [lia|].
    destruct (Forall2_lookup_l _ _ _ _ _ Hvs Hblk) as (v & Hv & Hcv).
    destruct (logged_lookup _ _ _ _ Htx Hblk) as (Hb & Hh & Hlt).
    pose proof (log_key_not_home l _ vs blk (Z.to_nat t) Htx (eq_sym Hlen) (proj1 Hh)) as Hk.
    assert (length (disk (st_bio s')) = length (disk b)) as HD
      by (by rewrite (pr_disk _ _ _ Hp), length_apply_writes).
    eapply wp_mono; [apply (write_one_spec l s' t blk v)|].
    + rewrite HD. by apply Htx.
    + by apply (pr_ok _ _ _ Hp).
    + by apply (pr_idle _ _ _ Hp).
    + lia.
    + by rewrite Hl.
    + by rewrite HD.
    + left. split; [|by apply (pr_clean _ _ _ Hp)].
      rewrite (pr_dirty _ _ _ Hp), decide_False by done.
      apply Hdirty. by eapply list_elem_of_lookup_2.
    + rewrite (pr_view _ _ _ Hp) by apply Hh. by rewrite overlay_notin.
    + intros [] s'' [Hl' Hw]. split; [congruence|].
      replace (Z.to_nat (t + 1)) with (S (Z.to_nat t)) by lia.
      rewrite (take_S_r _ _ (l_start l + t + 1, v)); [by eapply progress_snoc|].
      rewrite (log_writes_lookup l vs (Z.to_nat t) v) by done. by rewrite Z2Nat.id by lia.
  - intros [] s' [Hl Hp]. split; [done|].
    fold l in Hp. rewrite take_ge in Hp; [done|]. unfold log_writes. rewrite length_zip, length_seqZ. lia.
Qed.

Lemma install_trans_spec s vs :
  let l := st_log s in
  let b := st_bio s in
  tx_ok l (Z.of_nat (length (disk b))) -> bio_ok b -> idle_but [] b ->
  (has_clean [] b /\ (forall blk, blk ∈ logged l -> is_dirty b blk = true)) \/ no_dirty b ->
  length vs = length (logged l) ->
  (forall t v, vs !! t = Some v -> cview b (l_start l + Z.of_nat t + 1) = Some v) ->
  wp install_trans (fun _ s' => st_log s' = l /\ progress b (st_bio s') (home_writes l vs)) s.
Proof.
  intros l b Htx Hok Hidle Hcopy Hlen Hvs.
  pose proof (length_logged _ _ Htx) as Hll. pose proof (tx_n _ _ Htx) as Hn.
  pose proof (tx_geom _ _ Htx) as Hg.
  unfold install_trans, get_log. wp_steps.
  eapply wp_mono; [apply (wp_for_loop (fun t s' => st_log s' = l /\
    progress b (st_bio s') (take (Z.to_nat t) (home_writes l vs))))|].
  - split; [done|]. by apply progress_refl.
  - intros t s' Ht [Hl Hp]. fold l in Ht.
    destruct (lookup_lt_is_Some_2 (logged l) (Z.to_nat t)) as [blk Hblk]; [lia|].
    destruct (lookup_lt_is_Some_2 vs (Z.to_nat t)) as [v Hv]; [lia|].
    destruct (logged_lookup _ _ _ _ Htx Hblk) as (Hb & Hh & Hlt).
    assert (length (disk (st_bio s')) = length (disk b)) as HD
      by (by rewrite (pr_disk _ _ _ Hp), length_apply_writes).
    assert (l_start l + t + 1 ∉ (take (Z.to_nat t) (home_writes l vs)).*1) as Hk1.
    { intros Hin%take_fst_sub. rewrite home_writes_fst in Hin by done.
      destruct (tx_home _ _ Htx _ Hin) as [(_ & _ & Hx) _]. apply Hx. destruct Hg. lia. }
    assert (blk ∉ (take (Z.to_nat t) (home_writes l vs)).*1) as Hk2.
    { rewrite fmap_take, home_writes_fst by done. intros Hin.
      apply elem_of_take in Hin as (j & Hj & Hjt).
      assert (j = Z.to_nat t) by (eapply NoDup_lookup; [apply (tx_nodup _ _ Htx)|done|done]).
      lia. }
    eapply wp_mono; [apply (install_one_spec l s' t blk v)|].
    + by rewrite HD.
    + by apply (pr_ok _ _ _ Hp).
    + by apply (pr_idle _ _ _ Hp).
    + lia.
    + by rewrite Hl.
    + by rewrite HD.
    + destruct Hcopy as [[Hcl Hdirty]|Hnd]; [left|right].
      * split; [|by apply (pr_clean _ _ _ Hp)].
        rewrite (pr_dirty _ _ _ Hp), decide_False by done.
        apply Hdirty. by eapply list_elem_of_lookup_2.
      * intros m. rewrite (pr_dirty _ _ _ Hp). by case_decide.
    + rewrite (pr_view _ _ _ Hp) by (destruct Hg; lia). rewrite overlay_notin by done.
      rewrite <-(Hvs (Z.to_nat t) v Hv). by rewrite Z2Nat.id by lia.
    + intros [] s'' [Hl' Hw]. split; [congruence|].
      replace (Z.to_nat (t + 1)) with (S (Z.to_nat t)) by lia.
      rewrite (take_S_r _ _ (blk, v)); [by eapply progress_snoc|].
      by apply lookup_zip_Some.
  - intros [] s' [Hl Hp]. split; [done|].
    fold l in Hp. rewrite take_ge in Hp; [done|]. unfold home_writes. rewrite length_zip. lia.
Qed.

(** ** The log header *)

Definition header (l : log) (hb : list Z) : list Z :=
  put_blocks 4 (logged l) (put32 0 (lh_n l) hb).

(** What [read_head] makes of a header block. *)
Definition hd_n (h : list Z) : Z := s32 (get32 0 h).
Definition hd_blocks (h : list Z) : list Z :=
  map (fun i => s32 (get32 (4 + 4 * i) h)) (seqZ 0 (hd_n h)).

Lemma length_put_blocks off bs d :
  0 <= off -> off + 4 * Z.of_nat (length bs) <= Z.of_nat (length d) ->
  length (put_blocks off bs d) = length d.
Proof.
  revert off d. induction bs as [|x bs IH]; intros off d H0 Hl; simpl in *; [done|].
  rewrite IH; rewrite ?length_put32; lia.
Qed.

Lemma put_blocks_snoc off bs x d :
  put_blocks off (bs ++ [x]) d = put32 (off + 4 * Z.of_nat (length bs)) x (put_blocks off bs d).
Proof.
  revert off d. induction bs as [|y bs IH]; intros off d; simpl.
  - by rewrite Z.add_0_r.
  - rewrite IH. f_equal. lia.
Qed.

Lemma get_put_blocks_before o off bs d :
  0 <= o -> o + 4 <= off -> off + 4 * Z.of_nat (length bs) <= Z.of_nat (length d) ->
  get32 o (put_blocks off bs d) = get32 o d.
Proof.
  revert off d. induction bs as [|x bs IH]; intros off d H0 Ho Hl; simpl in *; [done|].
  rewrite IH; [|lia|lia|rewrite length_put32; lia]. apply get32_put32_other; lia.
Qed.

Lemma get_put_blocks_in off bs d t x :
  0 <= off -> off + 4 * Z.of_nat (length bs) <= Z.of_nat (length d) ->
  bs !! t = Some x -> get32 (off + 4 * Z.of_nat t) (put_blocks off bs d) = u32 x.
Proof.
  revert off d t. induction bs as [|y bs IH]; intros off d [|t] H0 Hl Ht; simplify_eq/=.
  - rewrite Z.add_0_r. rewrite get_put_blocks_before; [|lia|lia|rewrite length_put32; lia].
    apply get32_put32_same; lia.
  - replace (off + 4 * Z.of_nat (S t)) with ((off + 4) + 4 * Z.of_nat t) by lia.
    apply IH; [lia|rewrite length_put32; lia|done].
Qed.

Section header.
Variables (l : log) (D : Z) (hb : list Z).
Hypothesis Htx : tx_ok l D.
Hypothesis Hhb : length hb = BSIZE.

Lemma header_room : 4 + 4 * Z.of_nat (length (logged l)) <= Z.of_nat BSIZE.
Proof using Htx.
  clear Hhb. rewrite (length_logged _ _ Htx). pose proof (tx_n _ _ Htx).
  unfold LOGSIZE, MAXOPBLOCKS, BSIZE in *. lia.
Qed.

Lemma length_header : length (header l hb) = BSIZE.
Proof using Htx Hhb.
  pose proof header_room. unfold header. unfold BSIZE in *.
  rewrite length_put_blocks; rewrite ?length_put32; lia.
Qed.

(** The header block says what the in-memory header said. *)
Lemma header_n : hd_n (header l hb) = lh_n l.
Proof using Htx Hhb.
  pose proof header_room. pose proof (tx_n _ _ Htx). unfold hd_n, header, BSIZE, LOGSIZE, MAXOPBLOCKS in *.
  rewrite get_put_blocks_before by (rewrite ?length_put32; lia).
  rewrite get32_put32_same by lia. rewrite s32_u32. apply s32_small. lia.
Qed.

Lemma header_blocks : hd_blocks (header l hb) = logged l.
Proof using Htx Hhb.
  pose proof header_room as Hroom. pose proof (tx_n _ _ Htx) as Hn.
  unfold hd_blocks. rewrite header_n. apply list_eq_same_length with (length (logged l)).
  - done.
  - rewrite length_map, length_seqZ. by rewrite (length_logged _ _ Htx).
  - intros t x y Ht. rewrite list_lookup_fmap, lookup_seqZ_lt
      by (rewrite (length_logged _ _ Htx) in Ht; lia).
    simpl. intros [= <-] Hy. rewrite Z.add_0_l.
    unfold header. unfold BSIZE in *.
    rewrite (get_put_blocks_in 4 _ _ t y) by (rewrite ?length_put32; lia || done).
    destruct (tx_home _ _ Htx y) as [(? & _ & _) ?]; [by eapply list_elem_of_lookup_2|].
    pose proof (tx_geom _ _ Htx) as [? ? ? ? ?]. rewrite s32_u32. apply s32_small. lia.
Qed.
End header.

Lemma write_head_spec s hb :
  let l := st_log s in
  let b := st_bio s in
  tx_ok l (Z.of_nat (length (disk b))) -> bio_ok b -> idle_but [] b -> has_clean [] b ->
  cview b (l_start l) = Some hb ->
  wp write_head (fun _ s' => st_log s' = l /\ wrote b (st_bio s') (l_start l) (header l hb)) s.
Proof.
  intros l b Htx Hok Hidle Hcl Hv. pose proof (tx_geom _ _ Htx) as Hg.
  pose proof (cview_length _ _ _ Hok Hv) as Hlen. pose proof (length_logged _ _ Htx) as Hll.
  pose proof Hg as [G1 G2 G3 G4 G5]. pose proof (tx_n _ _ Htx) as Hn.
  assert (LOGSIZE = 30) as EL by done.
  unfold write_head, get_log, on_bio. wp_steps. fold l b. rewrite G1, u32_small by lia.
  eapply wp_mono; [apply (bread_idle b []); [done|done| |lia|by right]|].
  { intros j c Hj. by apply not_elem_of_nil in Hj. }
  intros i b1 (a & bi & _ & Ha & Hsd & -> & Ho & Hvi & Hok1 & Hi1).
  assert (b_data bi = hb) as Hbi by congruence.
  pose proof Ho as [Ho1 _ _ _ _].
  wp_steps. eapply wp_bdata; [done|]. unfold bset_data. eapply wp_upd_buf; [done|].
  rewrite Hbi. wp_steps.
  set (b1 := put_buf i bi b) in *.
  eapply wp_mono; [apply (wp_for_loop (fun t s' => st_log s' = l /\
    st_bio s' = put_buf i (set_data (put_blocks 4 (take (Z.to_nat t) (logged l))
      (put32 0 (lh_n l) hb)) bi) b1))|].
  - done.
  - intros t s' Ht [Hl Hs']. fold l in Ht.
    destruct (lookup_lt_is_Some_2 (logged l) (Z.to_nat t)) as [blk Hblk]; [lia|].
    destruct (logged_lookup _ _ _ _ Htx Hblk) as (Hb & Hh & Hlt).
    wp_steps. apply (wp_lh_get t blk); [by rewrite Hl|]. wp_steps.
    eapply wp_bdata; [rewrite Hs'; by eapply bufs_put_same|].
    eapply wp_upd_buf; [rewrite Hs'; by eapply bufs_put_same|].
    simpl. split; [done|]. rewrite Hs', put_put.
    replace (Z.to_nat (t + 1)) with (S (Z.to_nat t)) by lia.
    rewrite (take_S_r _ _ blk), put_blocks_snoc by done.
    rewrite length_take_le by lia. by rewrite Z2Nat.id by lia.
  - intros [] s' [Hl Hs']. fold l in Hs'. rewrite take_ge in Hs' by lia.
    apply wp_zoom. rewrite Hs'.
    eapply wp_mono; [apply (wp_bwrite_brelse b1 i (l_start l) bi (header l hb)); try done|].
    + simpl. lia.
    + by eapply length_header.
    + intros [] b2 Hw. split; [done|]. apply (wrote_from b b1); [done|done|done| | |exact Hw].
      * intros m. by apply (cview_put b i a).
      * intros m. by apply (is_dirty_put b i a).
Qed.

(** ** Commit *)

Definition commit_writes (l : log) (hb : list Z) (vs : list (list Z)) : list (Z * list Z) :=
  log_writes l vs ++ [(l_start l, header l hb)] ++ home_writes l vs ++
  [(l_start l, header (set_n 0 l) (header l hb))].

Lemma tx_ok_clear l D : tx_ok l D -> tx_ok (set_n 0 l) D.
Proof.
  intros [[? ? ? ? ?] ? ? ? ?]. split; simpl; [by split|done|done|constructor|].
  intros b Hb. by apply not_elem_of_nil in Hb.
Qed.

Lemma start_not_home l D vs k :
  tx_ok l D -> length vs = length (logged l) -> l_start l ∉ (take k (home_writes l vs)).*1.
Proof.
  intros Htx Hlen Hin%take_fst_sub. rewrite home_writes_fst in Hin by done.
  destruct (tx_home _ _ Htx _ Hin) as [(_ & _ & Hx) _]. apply Hx.
  destruct (tx_geom _ _ Htx). unfold LOGSIZE, MAXOPBLOCKS in *. lia.
Qed.

Lemma start_not_log l vs k : l_start l ∉ (take k (log_writes l vs)).*1.
Proof. intros Hin%take_fst_sub. rewrite log_writes_fst, elem_of_seqZ in Hin. lia. Qed.

Lemma progress_one b b' n v : bio_ok b -> idle_but [] b -> wrote b b' n v -> progress b b' [(n, v)].
Proof. intros ? ? Hw. apply (progress_snoc b b b' []); [by apply progress_refl|done]. Qed.

(** What a cache holds for the log blocks once [write_log] has run. *)
Lemma overlay_log_writes l vs f t v :
  vs !! t = Some v -> overlay (log_writes l vs) f (l_start l + Z.of_nat t + 1) = Some v.
Proof.
  intros Hv. apply overlay_in.
  - rewrite log_writes_fst. apply NoDup_seqZ.
  - eapply list_elem_of_lookup_2. by apply log_writes_lookup.
Qed.

Lemma commit_spec s hb vs :
  let l := st_log s in
  let b := st_bio s in
  tx_ok l (Z.of_nat (length (disk b))) -> bio_ok b -> idle_but [] b -> has_clean [] b ->
  0 < lh_n l ->
  (forall blk, blk ∈ logged l -> is_dirty b blk = true) ->
  Forall2 (fun blk v => cview b blk = Some v) (logged l) vs ->
  cview b (l_start l) = Some hb ->
  wp commit (fun _ s' =>
    st_log s' = set_n 0 l /\ progress b (st_bio s') (commit_writes l hb vs)) s.
Proof.
  intros l b Htx Hok Hidle Hcl Hpos Hdirty Hvs Hhb.
  pose proof (Forall2_length _ _ _ Hvs) as Hlen. pose proof (tx_geom _ _ Htx) as [? G2 ? ? ?].
  assert (forall b' ws, progress b b' ws -> length (disk b') = length (disk b)) as HD.
  { intros b' ws Hp. by rewrite (pr_disk _ _ _ Hp), length_apply_writes. }
  unfold commit, get_log. wp_steps. fold l. rewrite (proj2 (Z.ltb_lt 0 (lh_n l)) Hpos).
  wp_steps. eapply wp_mono; [apply (write_log_spec s vs); done|].
  intros [] s1 [E1 P1]. wp_steps.
  eapply wp_mono; [apply (write_head_spec s1 hb)|].
  { rewrite E1, (HD _ _ P1). done. } { by apply P1. } { by apply P1. } { by apply P1. }
  { rewrite E1, (pr_view _ _ _ P1) by (fold l; lia). fold l. rewrite overlay_notin; [done|].
    rewrite <-(firstn_all (log_writes l vs)). apply start_not_log. }
  intros [] s2 [E2 W2]. rewrite E1 in E2, W2. fold l in E2, W2.
  pose proof (progress_snoc _ _ _ _ _ _ P1 W2) as P2. wp_steps.
  eapply wp_mono; [apply (install_trans_spec s2 vs)|].
  { rewrite E2, (HD _ _ P2). done. } { by apply P2. } { by apply P2. }
  { left. split; [by apply W2|]. rewrite E2. intros blk Hblk.
    rewrite (pr_dirty _ _ _ P2), decide_False; [by apply Hdirty|].
    destruct (tx_home _ _ Htx _ Hblk) as [Hh _]. rewrite fmap_app, elem_of_app. intros [Hin|Hin].
    - by apply (log_key_not_home l _ vs blk (length (log_writes l vs)) Htx (eq_sym Hlen) Hh);
        rewrite firstn_all.
    - apply list_elem_of_singleton in Hin as ->. destruct Hh as (_ & _ & Hh). apply Hh.
      unfold LOGSIZE, MAXOPBLOCKS in *. simpl. lia. }
  { by rewrite E2. }
  { intros t v Hv. rewrite E2, (pr_view _ _ _ P2), overlay_snoc by lia.
    replace (_ =? _) with false by (symmetry; apply Z.eqb_neq; lia). by apply overlay_log_writes. }
  intros [] s3 [E3 P3]. rewrite E2 in E3, P3.
  pose proof (progress_trans _ _ _ _ _ P2 P3) as P23. wp_steps.
  unfold upd_log. wp_steps.
  eapply wp_mono; [apply (write_head_spec (LogSt (st_bio s3) (set_n 0 (st_log s3))) (header l hb))|]; simpl.
  { rewrite E3, (HD _ _ P23). by apply tx_ok_clear. } { by apply P3. } { by apply P3. }
  { apply P3, W2. }
  { rewrite E3. rewrite (pr_view _ _ _ P23) by lia. rewrite overlay_app, overlay_notin.
    - by rewrite overlay_snoc, Z.eqb_refl.
    - rewrite <-(firstn_all (home_writes l vs)). eapply start_not_home; [done|lia]. }
  intros [] s4 [E4 W4]. rewrite E3 in E4, W4. split; [done|].
  pose proof (progress_snoc _ _ _ _ _ _ P23 W4) as P4.
  unfold commit_writes. by rewrite <-!app_assoc in P4.
Qed.

(** ** Reading blocks *)

Lemma has_clean_put s i a c l :
  bufs s !! i = Some a -> same_dirt a c -> has_clean l s -> has_clean l (put_buf i c s).
Proof.
  intros Ha [Hf _] (j & b & Hj & Hb & Hd). destruct (decide (i = j)) as [<-|Hne].
  - exists i, c. split; [done|]. split; [by eapply bufs_put_same|].
    rewrite Hf. by simplify_eq.
  - exists j, b. split; [done|]. by rewrite bufs_put_ne.
Qed.

(** A block is read and given back: the state of the cache changes, not what it
    stands for. *)
Lemma wp_read_block b n :
  bio_ok b -> idle_but [] b -> has_clean [] b -> 0 <= n < Z.of_nat (length (disk b)) ->
  wp (bread ROOTDEV n) (fun i b1 => exists bi,
    bufs b1 !! i = Some bi /\ cview b n = Some (b_data bi) /\
    wp (brelse i) (fun _ b' => progress b b' []) b1) b.
Proof.
  intros Hok Hidle Hcl Hn. eapply wp_mono; [apply (bread_idle b []); [done|done| |done|by right]|].
  { intros j c Hj. by apply not_elem_of_nil in Hj. }
  intros i b1 (a & bi & _ & Ha & Hsd & -> & Ho & Hvi & Hok1 & Hi1).
  exists bi. split; [by apply Ho|]. split; [done|].
  eapply wp_mono; [by eapply brelse_idle|]. intros [] b' (lr & -> & Hok2 & Hi2 & Hv & Hd).
  split; try done; simpl.
  - by rewrite app_nil_r.
  - intros m _. rewrite Hv. by apply (cview_put b i a).
  - intros m. rewrite Hd. by apply (is_dirty_put b i a).
  - intros Hc. assert (has_clean [] (put_buf i (released bi) (put_buf i bi b))) as (j & c & Hjc).
    { eapply has_clean_put; [by apply Ho|done|]. by eapply has_clean_put. }
    by exists j, c.
Qed.

Lemma readsb_spec b d :
  bio_ok b -> idle_but [] b -> has_clean [] b -> 1 < Z.of_nat (length (disk b)) ->
  cview b 1 = Some d ->
  wp (readsb ROOTDEV) (fun sb b' => sb = parse_sb d /\ progress b b' []) b.
Proof.
  intros Hok Hidle Hcl Hn Hv. unfold readsb. wp_steps.
  eapply wp_mono; [apply (wp_read_block b 1); [done..|lia]|].
  intros i b1 (bi & Hbi & Hvi & Hr). wp_steps. eapply wp_bdata; [done|]. wp_steps.
  eapply wp_mono; [exact Hr|]. intros [] b' Hp. wp_steps. split; [congruence|done].
Qed.

Lemma length_hd_blocks h : 0 <= hd_n h -> length (hd_blocks h) = Z.to_nat (hd_n h).
Proof. intros. unfold hd_blocks. by rewrite length_map, length_seqZ. Qed.

Lemma read_head_spec s h :
  let l := st_log s in
  let b := st_bio s in
  geom_ok l (Z.of_nat (length (disk b))) -> length (lh_block l) = Z.to_nat LOGSIZE ->
  bio_ok b -> idle_but [] b -> has_clean [] b ->
  cview b (l_start l) = Some h -> 0 <= hd_n h <= LOGSIZE ->
  wp read_head (fun _ s' => exists bs,
    st_log s' = set_block bs (set_n (hd_n h) l) /\ length bs = Z.to_nat LOGSIZE /\
    take (Z.to_nat (hd_n h)) bs = hd_blocks h /\ progress b (st_bio s') []) s.
Proof.
  intros l b Hg Hlen Hok Hidle Hcl Hv Hn. pose proof Hg as [G1 G2 G3 G4 G5].
  assert (LOGSIZE = 30) as EL by done.
  unfold read_head, get_log, on_bio. wp_steps. fold l b. rewrite G1, u32_small by lia.
  eapply wp_mono; [apply (wp_read_block b (l_start l)); [done..|lia]|].
  intros i b1 (bi & Hbi & Hvi & Hr). assert (b_data bi = h) as Eh by congruence.
  wp_steps. eapply wp_bdata; [done|]. rewrite Eh. unfold upd_log. wp_steps. simpl.
  change (s32 (get32 0 h)) with (hd_n h).
  eapply wp_mono; [apply (wp_for_loop (fun t s' => st_bio s' = b1 /\ exists bs,
    st_log s' = set_block bs (set_n (hd_n h) l) /\ length bs = Z.to_nat LOGSIZE /\
    take (Z.to_nat t) bs = take (Z.to_nat t) (hd_blocks h)))|].
  - split; [done|]. exists (lh_block l). split; [by destruct l|done].
  - intros t s' Ht (Hb & bs & Hl & Hlb & Htk). unfold lh_set.
    destruct (lookup_lt_is_Some_2 bs (Z.to_nat t)) as [x Hx]; [lia|].
    wp_steps. apply (wp_lh_get t x); [by rewrite Hl|]. unfold upd_log. wp_steps.
    split; [done|]. eexists. rewrite Hl. simpl. split; [done|]. rewrite length_insert.
    split; [done|]. replace (Z.to_nat (t + 1)) with (S (Z.to_nat t)) by lia.
    rewrite (take_S_r _ _ (s32 (get32 (4 + 4 * t) h))) by (apply list_lookup_insert_eq; lia).
    rewrite take_insert_ge, Htk by lia.
    rewrite (take_S_r (hd_blocks h) _ (s32 (get32 (4 + 4 * t) h))); [done|].
    unfold hd_blocks. rewrite list_lookup_fmap, lookup_seqZ_lt by lia. simpl.
    by rewrite Z.add_0_l, Z2Nat.id by lia.
  - intros [] s' (Hb & bs & Hl & Hlb & Htk). apply wp_zoom. rewrite Hb.
    eapply wp_mono; [exact Hr|]. intros [] b' Hp. exists bs. simpl. split; [done|]. split; [done|].
    split; [|done]. rewrite Z.add_0_l, Nat2Z.id in Htk. rewrite Htk.
    apply take_ge. rewrite length_hd_blocks; lia.
Qed.
