(* ===== verification/Recovery.v ===== *)
(** * Crash recovery and atomicity of transactions (log.c)

    A disk stands for the file system contents that replaying its log would give
    ([recoverable]).  The file shows that every prefix of the block writes of
    [commit] leaves a disk that stands for the contents before or after the
    transaction, that [initlog] turns such a disk into one whose home blocks hold
    those contents, also when recovery itself is cut by further crashes, and that a
    whole file system call ([begin_op], updates through [log_write], [end_op]) is
    atomic and durable. *)

From S2P Require Import Prelude Bytes Bio Log.

(** ** Crash recovery *)

(** [log_image l d h vs]: the header block of disk [d] is [h], it names home blocks,
    and the log holds the contents [vs] for them. *)
Record log_image (l : log) (d : list (list Z)) (h : list Z) (vs : list (list Z)) : Prop :=
  LogImage {
  li_head : dview d (l_start l) = Some h;
  li_n : 0 <= hd_n h <= LOGSIZE /\ hd_n h < l_size l;
  li_nodup : NoDup (hd_blocks h);
  li_home : forall x, x ∈ hd_blocks h -> home l x /\ x < Z.of_nat (length d);
  li_len : length vs = length (hd_blocks h);
  li_vals : forall t v, vs !! t = Some v -> dview d (l_start l + Z.of_nat t + 1) = Some v;
}.

(** The disk stands for the file system contents [H]: replaying the log over the
    home blocks gives [H]. *)
Definition recoverable (l : log) (d : list (list Z)) (H : Z -> option (list Z)) : Prop :=
  geom_ok l (Z.of_nat (length d)) /\
  (forall n x, d !! n = Some x -> length x = BSIZE) /\
  (exists sb, dview d 1 = Some sb /\
     s32 (sb_logstart (parse_sb sb)) = l_start l /\ s32 (sb_nlog (parse_sb sb)) = l_size l) /\
  (exists h vs, log_image l d h vs /\
     forall m, home l m -> overlay (zip (hd_blocks h) vs) (dview d) m = H m).

Lemma binit_no_dirty d pid : no_dirty (binit d pid).
Proof.
  intros m. apply not_true_iff_false. rewrite is_dirty_true. intros (i & b & Hb & _ & Hf).
  by apply binit_lookup in Hb as ->.
Qed.

Lemma binit_clean d pid : has_clean [] (binit d pid).
Proof. exists 0%nat, zero_buf. split; [apply not_elem_of_nil|done]. Qed.

Lemma binit_view d pid m : cview (binit d pid) m = dview d m.
Proof. apply cview_uncached. intros i b Hb _. by apply binit_lookup in Hb as ->. Qed.

(** The writes of a recovery from a log image. *)
Definition recovery_writes (l : log) (h : list Z) (vs : list (list Z)) : list (Z * list Z) :=
  zip (hd_blocks h) vs ++ [(l_start l, put32 0 0 h)].

(** Replaying twice is replaying once. *)
Lemma overlay_replay ws j f m :
  NoDup ws.*1 -> overlay ws (overlay (take j ws) f) m = overlay ws f m.
Proof.
  intros Hnd. destruct (decide (m ∈ ws.*1)) as [Hin|Hin].
  - apply list_elem_of_fmap in Hin as ([n v] & -> & Hw). by rewrite !(overlay_in ws _ n v).
  - rewrite !overlay_notin; try done. intros Hx. by apply Hin, (take_fst_sub j).
Qed.

Lemma in_range_take ws k d : in_range ws d -> in_range (take k ws) d.
Proof.
  intros H w Hw. apply H. rewrite <-(take_drop k ws). apply elem_of_app. by left.
Qed.

Lemma apply_writes_blocks ws d :
  (forall n x, d !! n = Some x -> length x = BSIZE) ->
  (forall w, w ∈ ws -> length (snd w) = BSIZE) ->
  forall n x, apply_writes ws d !! n = Some x -> length x = BSIZE.
Proof.
  intros Hd. induction ws as [|[k v] ws IH] using rev_ind; intros Hw n x; [apply Hd|].
  rewrite apply_writes_snoc. intros Hx.
  apply list_lookup_insert_Some in Hx as [(_ & <- & _)|[_ Hx]].
  - apply (Hw (k, v)), elem_of_app. right. by left.
  - apply (IH (fun w H => Hw w (proj2 (elem_of_app _ _ _) (or_introl H))) _ _ Hx).
Qed.

(** A disk with the right block sizes and superblock. *)
Record disk_ok (l : log) (d : list (list Z)) : Prop := DiskOk {
  dk_geom : geom_ok l (Z.of_nat (length d));
  dk_blocks : forall n x, d !! n = Some x -> length x = BSIZE;
  dk_sb : exists sb, dview d 1 = Some sb /\
    s32 (sb_logstart (parse_sb sb)) = l_start l /\ s32 (sb_nlog (parse_sb sb)) = l_size l;
}.

(** Writes that are in range, keep the block size and spare the superblock. *)
Definition good_writes (ws : list (Z * list Z)) (d : list (list Z)) : Prop :=
  in_range ws d /\ (forall w, w ∈ ws -> length (snd w) = BSIZE) /\ 1 ∉ ws.*1.

Lemma good_writes_take ws k d : good_writes ws d -> good_writes (take k ws) d.
Proof.
  intros (H1 & H2 & H3). split; [by apply in_range_take|]. split.
  - intros w Hw. apply H2. rewrite <-(take_drop k ws). apply elem_of_app. by left.
  - intros Hx. by apply H3, (take_fst_sub k).
Qed.

Lemma disk_ok_writes l d ws : disk_ok l d -> good_writes ws d -> disk_ok l (apply_writes ws d).
Proof.
  intros [Hg Hb (sb & Hsb & ?)] (Hr & Hl & Hn). split.
  - by rewrite length_apply_writes.
  - by apply apply_writes_blocks.
  - exists sb. split; [|done]. rewrite dview_apply, overlay_notin; [done|done|done|lia].
Qed.

Lemma dview_frame ws d n :
  in_range ws d -> 0 <= n -> n ∉ ws.*1 -> dview (apply_writes ws d) n = dview d n.
Proof. intros. by rewrite dview_apply, overlay_notin. Qed.

Lemma recoverable_intro l d h vs H :
  disk_ok l d -> log_image l d h vs ->
  (forall m, home l m -> overlay (zip (hd_blocks h) vs) (dview d) m = H m) -> recoverable l d H.
Proof. intros [? ? ?] ? ?. split; [done|]. split; [done|]. split; [done|]. by exists h, vs. Qed.

(** An empty log: the home blocks stand for themselves. *)
Lemma recoverable_empty l d h H :
  disk_ok l d -> dview d (l_start l) = Some h -> hd_n h = 0 ->
  (forall m, home l m -> dview d m = H m) -> recoverable l d H.
Proof.
  intros Hd Hh Hn Hm. assert (hd_blocks h = []) as E by (unfold hd_blocks; by rewrite Hn).
  apply (recoverable_intro l d h []); [done| |].
  - split; [done| |rewrite E; constructor|rewrite E|by rewrite E|done].
    { rewrite Hn. destruct (dk_geom _ _ Hd). split; [done|lia]. }
    intros x Hx. by apply not_elem_of_nil in Hx.
  - by rewrite E.
Qed.

Lemma zip_fst_image l d h vs : log_image l d h vs -> (zip (hd_blocks h) vs).*1 = hd_blocks h.
Proof. intros Hi. apply fst_zip. rewrite (li_len _ _ _ _ Hi). lia. Qed.

Lemma image_writes_good l d h vs :
  disk_ok l d -> log_image l d h vs -> good_writes (zip (hd_blocks h) vs) d.
Proof.
  intros Hd Hi. split; [|split].
  - intros [n v] Hw. apply list_elem_of_lookup in Hw as [t Hw].
    apply lookup_zip_Some in Hw as [Hn _].
    destruct (li_home _ _ _ _ Hi n) as [(? & _ & _) ?]; [by eapply list_elem_of_lookup_2|].
    simpl. lia.
  - intros [n v] Hw. apply list_elem_of_lookup in Hw as [t Hw].
    apply lookup_zip_Some in Hw as [_ Hv]. apply (li_vals _ _ _ _ Hi) in Hv.
    by apply (dk_blocks _ _ Hd) in Hv.
  - rewrite (zip_fst_image _ _ _ _ Hi). intros Hx.
    by destruct (li_home _ _ _ _ Hi 1 Hx) as [(_ & ? & _) _].
Qed.

Lemma home_not_log l d t vs h :
  disk_ok l d -> log_image l d h vs -> (t < length vs)%nat ->
  ~ home l (l_start l + Z.of_nat t + 1) /\ ~ home l (l_start l).
Proof.
  intros Hd Hi Ht. destruct (dk_geom _ _ Hd). pose proof (li_n _ _ _ _ Hi).
  rewrite (li_len _ _ _ _ Hi), length_hd_blocks in Ht by lia.
  unfold home. lia.
Qed.

(** Replaying a part of the log does not change what the disk stands for. *)
Lemma recoverable_replay l d h vs H k :
  disk_ok l d -> log_image l d h vs ->
  (forall m, home l m -> overlay (zip (hd_blocks h) vs) (dview d) m = H m) ->
  recoverable l (apply_writes (take k (zip (hd_blocks h) vs)) d) H.
Proof.
  intros Hd Hi HH. pose proof (image_writes_good _ _ _ _ Hd Hi) as Hgood.
  pose proof (good_writes_take _ k _ Hgood) as Hgk.
  pose proof (zip_fst_image _ _ _ _ Hi) as Hfst. pose proof (dk_geom _ _ Hd) as [G1 G2 G3 G4 G5].
  assert (forall n, ~ home l n -> n ∉ (take k (zip (hd_blocks h) vs)).*1) as Hk.
  { intros n Hn Hin%take_fst_sub. rewrite Hfst in Hin. by apply Hn, (li_home _ _ _ _ Hi). }
  assert (0 < LOGSIZE) by done.
  eapply recoverable_intro; [by apply disk_ok_writes| |].
  - split; [|by apply Hi|by apply Hi| |by apply Hi|].
    + rewrite dview_frame; [by apply Hi|by apply Hgk|lia|]. apply Hk. unfold home. lia.
    + rewrite length_apply_writes. by apply Hi.
    + intros t v Hv. pose proof (lookup_lt_Some _ _ _ Hv) as Ht.
      rewrite dview_frame; [by apply (li_vals _ _ _ _ Hi)|by apply Hgk|lia|].
      apply Hk. by eapply home_not_log.
  - intros m Hm. rewrite <-HH by done.
    rewrite <-(overlay_replay _ k (dview d)) by (rewrite Hfst; apply Hi).
    apply overlay_ext. apply dview_apply; [by apply Hgk|]. by destruct Hm.
Qed.

(** Once everything is installed and the header is cleared the home blocks hold [H]. *)
Lemma cleared_home l d h vs H h' m :
  disk_ok l d -> log_image l d h vs ->
  (forall m, home l m -> overlay (zip (hd_blocks h) vs) (dview d) m = H m) ->
  home l m -> dview (apply_writes (zip (hd_blocks h) vs ++ [(l_start l, h')]) d) m = H m.
Proof.
  intros Hd Hi HH Hm. pose proof (image_writes_good _ _ _ _ Hd Hi) as (Hr & _ & _).
  pose proof (dk_geom _ _ Hd) as [? ? ? ? ?]. assert (0 < LOGSIZE) by done.
  rewrite apply_writes_snoc. unfold dview. pose proof Hm as (Hm0 & _ & Hm2).
  rewrite list_lookup_insert_ne by lia. rewrite <-HH by done. by apply dview_apply.
Qed.

Lemma recoverable_cleared l d h vs H h' :
  disk_ok l d -> log_image l d h vs ->
  (forall m, home l m -> overlay (zip (hd_blocks h) vs) (dview d) m = H m) ->
  length h' = BSIZE -> hd_n h' = 0 ->
  recoverable l (apply_writes (zip (hd_blocks h) vs ++ [(l_start l, h')]) d) H.
Proof.
  intros Hd Hi HH Hl Hn. pose proof (image_writes_good _ _ _ _ Hd Hi) as (Hr & Hb & H1).
  pose proof (dk_geom _ _ Hd) as [? ? ? ? ?]. assert (0 < LOGSIZE) by done.
  apply (recoverable_empty _ _ h').
  - apply disk_ok_writes; [done|]. split; [|split].
    + intros w [Hw|Hw%list_elem_of_singleton]%elem_of_app; [by apply Hr|]. subst w. simpl. lia.
    + intros w [Hw|Hw%list_elem_of_singleton]%elem_of_app; [by apply Hb|]. by subst w.
    + rewrite fmap_app. intros [?|Hx%list_elem_of_singleton]%elem_of_app; [done|].
      simpl in Hx. lia.
  - rewrite apply_writes_snoc. apply list_lookup_insert_eq. rewrite length_apply_writes. lia.
  - done.
  - intros m Hm. by apply cleared_home.
Qed.

Lemma progress_nil_view b b' m : progress b b' [] -> 0 <= m -> cview b' m = cview b m.
Proof. intros Hp Hm. by rewrite (pr_view _ _ _ Hp). Qed.

Definition booted_log (l : log) (n : Z) (bs : list Z) : log :=
  set_block bs (set_n n (set_geometry (l_start l) (l_size l) ROOTDEV zero_log)).

Lemma header_clear_n l D h : tx_ok l D -> length h = BSIZE -> hd_n (header (set_n 0 l) h) = 0.
Proof. intros Htx Hh. by rewrite (header_n _ D) by (done || by apply tx_ok_clear). Qed.

Lemma initlog_spec l d h vs pid :
  disk_ok l d -> log_image l d h vs ->
  wp (initlog ROOTDEV) (fun _ s' => exists bs,
    st_log s' = booted_log l 0 bs /\ length bs = Z.to_nat LOGSIZE /\
    progress (binit d pid) (st_bio s') (recovery_writes l h vs)) (boot d pid).
Proof.
  intros Hd Hi. pose proof Hd as [Hg Hb (sb & Hsb & Es & Ez)]. pose proof Hg as [G1 G2 G3 G4 G5].
  assert (LOGSIZE = 30) as EL by done. pose proof (li_n _ _ _ _ Hi) as Hn.
  pose proof (dk_blocks _ _ Hd _ _ (li_head _ _ _ _ Hi)) as Hlh.
  unfold initlog. wp_pass done. unfold on_bio. wp_steps.
  eapply wp_mono; [apply (readsb_spec (binit d pid) sb)|].
  { by apply binit_ok. } { apply binit_idle. } { apply binit_clean. } { simpl. lia. }
  { by rewrite binit_view. }
  intros ? b1 [-> P1]. unfold upd_log. wp_steps. rewrite Es, Ez. unfold recover_from_log, upd_log. wp_steps.
  eapply wp_mono; [apply (read_head_spec _ h)|]; simpl.
  { rewrite (pr_disk _ _ _ P1). by split. } { done. } { by apply P1. } { by apply P1. }
  { apply P1, binit_clean. }
  { rewrite (progress_nil_view _ _ _ P1), binit_view by lia. by apply Hi. } { lia. }
  intros [] s2 (bs & E2 & Hlb & Htk & P2). simpl in P2.
  pose proof (progress_trans _ _ _ _ _ P1 P2) as P12. rewrite app_nil_r in P12.
  change (st_log s2 = booted_log l (hd_n h) bs) in E2.
  assert (logged (st_log s2) = hd_blocks h) as Elg by (by rewrite E2).
  assert (tx_ok (st_log s2) (Z.of_nat (length (disk (st_bio s2))))) as Htx.
  { rewrite (pr_disk _ _ _ P12). split.
    - rewrite E2. by split.
    - by rewrite E2.
    - by rewrite E2.
    - rewrite Elg. by apply Hi.
    - rewrite Elg, E2. by apply (li_home _ _ _ _ Hi). }
  wp_steps. eapply wp_mono; [apply (install_trans_spec s2 vs)|].
  { done. } { by apply P12. } { by apply P12. }
  { right. intros m. rewrite (pr_dirty _ _ _ P12). apply binit_no_dirty. }
  { rewrite Elg. by apply Hi. }
  { intros t v Hv. rewrite E2. simpl.
    rewrite (progress_nil_view _ _ _ P12), binit_view by lia. by apply Hi. }
  intros [] s3 [E3 P3]. pose proof (progress_trans _ _ _ _ _ P12 P3) as P13. simpl in P13.
  wp_steps. eapply wp_mono; [apply (write_head_spec (LogSt (st_bio s3) (set_n 0 (st_log s3))) h)|]; simpl.
  { rewrite E3. rewrite (pr_disk _ _ _ P3), length_apply_writes. by apply tx_ok_clear. }
  { by apply P3. } { by apply P3. } { apply P13, binit_clean. }
  { rewrite E3, E2. simpl. rewrite (pr_view _ _ _ P13) by lia. rewrite overlay_notin.
    - rewrite binit_view. by apply Hi.
    - rewrite <-(firstn_all (home_writes _ vs)).
      replace (l_start l) with (l_start (st_log s2)) by (by rewrite E2).
      eapply start_not_home; [done|]. rewrite Elg. by apply Hi. }
  intros [] s4 [E4 W4]. rewrite E3, E2 in E4, W4. exists bs. split; [done|]. split; [done|].
  pose proof (progress_snoc _ _ _ _ _ _ P13 W4) as P4.
  unfold recovery_writes. unfold home_writes in P4. by rewrite Elg in P4.
Qed.

(** ** Atomicity and durability *)

(** The state in which [end_op] calls [commit]: no buffer is held, the dirty
    buffers are exactly the blocks of the transaction, the log on disk is empty. *)
Record commit_ready (s : logst) : Prop := CommitReady {
  cr_tx : tx_ok (st_log s) (Z.of_nat (length (disk (st_bio s))));
  cr_bio : bio_ok (st_bio s);
  cr_idle : idle_but [] (st_bio s);
  cr_clean : has_clean [] (st_bio s);
  cr_dirty : forall m, is_dirty (st_bio s) m = true <-> m ∈ logged (st_log s);
  cr_disk : disk_ok (st_log s) (disk (st_bio s));
  cr_empty : exists hb, dview (disk (st_bio s)) (l_start (st_log s)) = Some hb /\ hd_n hb = 0;
}.

Lemma cview_clean b m : is_dirty b m = false -> cview b m = dview (disk b) m.
Proof. unfold is_dirty, cview. by destruct (List.find _ _). Qed.

Lemma cview_range b m :
  bio_ok b -> 0 <= m < Z.of_nat (length (disk b)) -> exists v, cview b m = Some v.
Proof.
  intros Hb Hm. unfold cview. destruct (List.find _ _) as [c|]; [by eauto|].
  apply lookup_lt_is_Some_2. lia.
Qed.

Lemma Forall2_exists_r {A B} (P : A -> B -> Prop) (l : list A) :
  (forall x, x ∈ l -> exists y, P x y) -> exists k, Forall2 P l k.
Proof.
  induction l as [|x l IH]; intros H; [by exists []|].
  destruct (H x) as [y Hy]; [by left|].
  destruct IH as [k Hk]; [intros z Hz; apply H; by right|]. exists (y :: k). by constructor.
Qed.

Section ready.
Variable s : logst.
Hypothesis Hr : commit_ready s.

Lemma ready_values : exists vs, Forall2 (fun blk v => cview (st_bio s) blk = Some v) (logged (st_log s)) vs.
Proof using Hr.
  apply Forall2_exists_r. intros x Hx. destruct (tx_home _ _ (cr_tx _ Hr) _ Hx) as [(? & _) ?].
  apply cview_range; [apply Hr|done].
Qed.

Lemma start_view hb : dview (disk (st_bio s)) (l_start (st_log s)) = Some hb -> cview (st_bio s) (l_start (st_log s)) = Some hb.
Proof using Hr.
  intros <-. apply cview_clean. apply not_true_iff_false.
  intros Hin%(cr_dirty _ Hr). destruct (tx_home _ _ (cr_tx _ Hr) _ Hin) as [(_ & _ & Hh) _]. apply Hh.
  destruct (tx_geom _ _ (cr_tx _ Hr)). assert (0 < LOGSIZE) by done. lia.
Qed.

(** Installing the transaction over the old contents gives what the kernel saw. *)
Lemma new_view vs m :
  Forall2 (fun blk v => cview (st_bio s) blk = Some v) (logged (st_log s)) vs ->
  overlay (home_writes (st_log s) vs) (dview (disk (st_bio s))) m = cview (st_bio s) m.
Proof using Hr.
  intros Hvs. pose proof (Forall2_length _ _ _ Hvs) as Hlen.
  pose proof (home_writes_fst (st_log s) vs (eq_sym Hlen)) as Hf.
  destruct (decide (m ∈ logged (st_log s))) as [Hin|Hin].
  - apply list_elem_of_lookup in Hin as [t Ht].
    destruct (Forall2_lookup_l _ _ _ _ _ Hvs Ht) as (v & Hv & ->).
    apply overlay_in; [rewrite Hf; apply (cr_tx _ Hr)|].
    eapply list_elem_of_lookup_2. by apply lookup_zip_Some.
  - rewrite overlay_notin by (by rewrite Hf). symmetry. apply cview_clean.
    apply not_true_iff_false. by intros ?%(cr_dirty _ Hr).
Qed.

Lemma log_writes_good vs :
  Forall2 (fun blk v => cview (st_bio s) blk = Some v) (logged (st_log s)) vs -> good_writes (log_writes (st_log s) vs) (disk (st_bio s)).
Proof using Hr.
  intros Hvs. pose proof (Forall2_length _ _ _ Hvs) as Hlen. pose proof (cr_tx _ Hr) as Htx.
  pose proof (tx_geom _ _ Htx) as [? ? ? ? ?]. pose proof (tx_n _ _ Htx).
  rewrite (length_logged _ _ Htx) in Hlen.
  split; [|split].
  - intros w Hw. assert (fst w ∈ (log_writes (st_log s) vs).*1) as Hf by (apply list_elem_of_fmap; eauto).
    rewrite log_writes_fst, elem_of_seqZ in Hf. lia.
  - intros [n v] Hw. apply list_elem_of_lookup in Hw as [t Hw].
    apply lookup_zip_Some in Hw as [_ Hv].
    destruct (Forall2_lookup_r _ _ _ _ _ Hvs Hv) as (blk & _ & Hc).
    eapply cview_length; [|done]. apply Hr.
  - rewrite log_writes_fst, elem_of_seqZ. lia.
Qed.

(** The disk once the log and its header are written. *)
Lemma committed_image hb vs :
  Forall2 (fun blk v => cview (st_bio s) blk = Some v) (logged (st_log s)) vs -> length hb = BSIZE ->
  let d1 := apply_writes (log_writes (st_log s) vs ++ [(l_start (st_log s), header (st_log s) hb)]) (disk (st_bio s)) in
  disk_ok (st_log s) d1 /\ log_image (st_log s) d1 (header (st_log s) hb) vs /\
  forall m, home (st_log s) m -> dview d1 m = dview (disk (st_bio s)) m.
Proof using Hr.
  intros Hvs Hhb d1. pose proof (Forall2_length _ _ _ Hvs) as Hlen. pose proof (cr_tx _ Hr) as Htx.
  pose proof (tx_geom _ _ Htx) as [? ? ? ? ?]. pose proof (tx_n _ _ Htx).
  pose proof (log_writes_good vs Hvs) as (Hg1 & Hg2 & Hg3). assert (0 < LOGSIZE) by done.
  assert (good_writes (log_writes (st_log s) vs ++ [(l_start (st_log s), header (st_log s) hb)]) (disk (st_bio s))) as Hg.
  { split; [|split].
    - intros w [Hw|Hw%list_elem_of_singleton]%elem_of_app; [by apply Hg1|]. subst w. simpl. lia.
    - intros w [Hw|Hw%list_elem_of_singleton]%elem_of_app; [by apply Hg2|]. subst w.
      by eapply length_header.
    - rewrite fmap_app. intros [?|Hx%list_elem_of_singleton]%elem_of_app; [done|].
      simpl in Hx. lia. }
  split; [by apply disk_ok_writes; [apply Hr|]|].
  assert (forall m, 0 <= m -> m <> l_start (st_log s) ->
    dview d1 m = overlay (log_writes (st_log s) vs) (dview (disk (st_bio s))) m) as Hv.
  { intros m Hm Hne. unfold d1. rewrite dview_apply, overlay_snoc by (done || apply Hg).
    by rewrite (proj2 (Z.eqb_neq _ _) Hne). }
  split.
  - pose proof (header_n (st_log s) _ hb Htx Hhb) as Hn. pose proof (header_blocks (st_log s) _ hb Htx Hhb) as Hb.
    split.
    + unfold d1. rewrite dview_apply, overlay_snoc by (lia || apply Hg).
      by rewrite Z.eqb_refl.
    + by rewrite Hn.
    + rewrite Hb. apply Htx.
    + rewrite Hb. unfold d1. rewrite length_apply_writes. apply Htx.
    + by rewrite Hb.
    + intros t v Htv. rewrite Hv by lia. by apply overlay_log_writes.
  - intros m Hm. pose proof Hm as (? & _ & Hm2). rewrite Hv by lia.
    apply overlay_notin. rewrite <-(firstn_all (log_writes (st_log s) vs)).
    by eapply log_key_not_home.
Qed.
End ready.

Lemma recoverable_log_prefix s vs k :
  commit_ready s -> Forall2 (fun blk v => cview (st_bio s) blk = Some v) (logged (st_log s)) vs ->
  recoverable (st_log s) (apply_writes (take k (log_writes (st_log s) vs)) (disk (st_bio s)))
    (dview (disk (st_bio s))).
Proof.
  intros Hr Hvs. pose proof (Forall2_length _ _ _ Hvs) as Hlen. pose proof (cr_tx _ Hr) as Htx.
  destruct (cr_empty _ Hr) as (hb & Hhb & Hn).
  pose proof (good_writes_take _ k _ (log_writes_good s Hr vs Hvs)) as Hg.
  destruct (tx_geom _ _ Htx). apply (recoverable_empty _ _ hb); [|..|intros m Hm].
  - apply disk_ok_writes; [apply Hr|done].
  - rewrite dview_frame; [done|apply Hg|lia|apply start_not_log].
  - done.
  - apply dview_frame; [apply Hg|by destruct Hm|by eapply log_key_not_home].
Qed.

(** Wherever the commit is cut, the disk stands for the old or for the new contents. *)
Lemma commit_prefix s hb vs k :
  commit_ready s -> Forall2 (fun blk v => cview (st_bio s) blk = Some v) (logged (st_log s)) vs ->
  length hb = BSIZE ->
  let d := apply_writes (take k (commit_writes (st_log s) hb vs)) (disk (st_bio s)) in
  recoverable (st_log s) d (dview (disk (st_bio s))) \/ recoverable (st_log s) d (cview (st_bio s)).
Proof.
  intros Hr Hvs Hhb d. subst d. unfold commit_writes.
  set (A := log_writes _ _). set (x := (_, header _ hb)).
  destruct (decide (k <= length A)%nat) as [Hk|Hk].
  - left. rewrite take_app_le by done. by apply recoverable_log_prefix.
  - right. destruct (committed_image s Hr hb vs Hvs Hhb) as (Hd1 & Hi1 & Hv1).
    fold A x in Hd1, Hi1, Hv1. set (d1 := apply_writes (A ++ [x]) _) in *.
    pose proof (header_blocks _ _ hb (cr_tx _ Hr) Hhb) as Hb.
    assert (forall m, home (st_log s) m -> overlay (zip (hd_blocks (header (st_log s) hb)) vs)
      (dview d1) m = cview (st_bio s) m) as HH.
    { intros m Hm. rewrite Hb, <-(new_view s Hr vs m Hvs). apply overlay_ext. by apply Hv1. }
    rewrite (app_assoc A), take_app, apply_writes_app.
    rewrite (take_ge (A ++ [x])) by (rewrite length_app; simpl; lia). fold d1.
    set (j := (k - length (A ++ [x]))%nat).
    destruct (decide (j <= length (home_writes (st_log s) vs))%nat) as [Hj|Hj].
    + rewrite take_app_le by done. unfold home_writes. rewrite <-Hb. by apply recoverable_replay.
    + rewrite take_ge by (rewrite length_app; simpl; lia).
      unfold home_writes. rewrite <-Hb. apply recoverable_cleared; [done..| |].
      * eapply length_header; [apply tx_ok_clear, Hr|]. by eapply length_header, Hhb; apply Hr.
      * eapply header_clear_n; [apply Hr|]. by eapply length_header, Hhb; apply Hr.
Qed.

(** ** Building a transaction *)

(** The state between two updates of a transaction. *)
Record log_inv (s : logst) : Prop := LogInv {
  lv_tx : tx_ok (st_log s) (Z.of_nat (length (disk (st_bio s))));
  lv_bio : bio_ok (st_bio s);
  lv_idle : idle_but [] (st_bio s);
  lv_dirty : forall m, is_dirty (st_bio s) m = true <-> m ∈ logged (st_log s);
  lv_disk : disk_ok (st_log s) (disk (st_bio s));
  lv_empty : exists hb, dview (disk (st_bio s)) (l_start (st_log s)) = Some hb /\ hd_n hb = 0;
}.

(** The documented use of [log_write]: read the block, change it, record it,
    release it. *)
Definition log_update (n : Z) (v : list Z) : M logst unit :=
  bp <- on_bio (bread ROOTDEV n) ;;
  on_bio (bset_data bp v) ;;;
  log_write bp ;;;
  on_bio (brelse bp).

(** Fewer dirty blocks than buffers leave a buffer to recycle. *)
Lemma clean_left b (bs : list Z) :
  bio_ok b -> (forall m, is_dirty b m = true -> m ∈ bs) -> (length bs < NBUF)%nat ->
  has_clean [] b.
Proof.
  intros Hb Hd Hlt.
  destruct (decide (Exists (fun c => has_flag B_DIRTY c = false) (bufs b))) as [He|He].
  - apply Exists_exists in He as (c & Hc & Hf). apply list_elem_of_lookup in Hc as [j Hj].
    exists j, c. split; [apply not_elem_of_nil|done].
  - exfalso. apply Forall_Exists_neg in He. rewrite Forall_lookup in He.
    assert (forall i c, bufs b !! i = Some c -> b_dev c = ROOTDEV /\ b_blockno c ∈ bs) as Hall.
    { intros i c Hc. pose proof (bo_buf _ Hb _ _ Hc) as Hk.
      pose proof (not_false_is_true _ (He i c Hc)) as Hf.
      assert (b_dev c = ROOTDEV) as Hdev.
      { apply (bk_dev _ _ Hk). apply (dirty_has_flag _ _ Hk) in Hf. by rewrite Hf. }
      split; [done|]. apply Hd, is_dirty_true. exists i, c. done. }
    assert (NoDup (b_blockno <$> bufs b)) as Hnd.
    { apply NoDup_alt. intros i j x Hi Hj. rewrite list_lookup_fmap in Hi, Hj.
      destruct (bufs b !! i) as [ci|] eqn:Ei; [|done].
      destruct (bufs b !! j) as [cj|] eqn:Ej; [|done]. simplify_eq/=.
      eapply (bo_uniq _ Hb); [done|done|by eapply Hall|by eapply Hall|done]. }
    assert ((b_blockno <$> bufs b) ⊆+ bs) as Hsub.
    { apply NoDup_submseteq; [done|]. intros x Hx. apply list_elem_of_fmap in Hx as (c & -> & Hc).
      apply list_elem_of_lookup in Hc as [i Hi]. by eapply Hall. }
    apply submseteq_length in Hsub. rewrite length_fmap, (bo_len _ Hb) in Hsub. lia.
Qed.

Lemma log_inv_clean s : log_inv s -> (length (logged (st_log s)) < NBUF)%nat -> has_clean [] (st_bio s).
Proof. intros Hs Hlt. eapply clean_left; [apply Hs| |done]. intros m. apply Hs. Qed.

Lemma log_inv_ready s :
  log_inv s -> (length (logged (st_log s)) < NBUF)%nat -> commit_ready s.
Proof.
  intros Hs Hlt. pose proof (log_inv_clean _ Hs Hlt). destruct Hs. by split.
Qed.

Lemma absorb_spec bs n x :
  (n <= length bs)%nat ->
  let k := absorb bs n x in
  (k <= n)%nat /\ (forall j y, (j < k)%nat -> bs !! j = Some y -> u32 y <> x) /\
  ((k < n)%nat -> exists y, bs !! k = Some y /\ u32 y = x).
Proof.
  revert bs. induction n as [|n IH]; intros bs Hn; cbv zeta; simpl.
  - destruct bs; simpl; (split; [lia|]; split; intros; lia).
  - destruct bs as [|b bs]; simpl in *; [lia|]. destruct (u32 b =? x) eqn:E.
    + apply Z.eqb_eq in E. split; [lia|]. split; [intros; lia|]. intros _. by exists b.
    + apply Z.eqb_neq in E. destruct (IH bs ltac:(lia)) as (H1 & H2 & H3).
      split; [lia|]. split.
      * intros [|j] y Hj Hy; simplify_eq/=; [done|]. eapply H2; [|done]. lia.
      * intros Hk. apply H3. lia.
Qed.

(** The header after recording block [x]. *)
Lemma absorb_logged l D x :
  tx_ok l D -> 0 <= x < 2 ^ 31 -> lh_n l < LOGSIZE ->
  let k := absorb (lh_block l) (Z.to_nat (lh_n l)) x in
  let bs := <[k := x]> (lh_block l) in
  (k < Z.to_nat LOGSIZE)%nat /\
  (Z.of_nat k <> lh_n l -> x ∈ logged l /\ bs = lh_block l) /\
  (Z.of_nat k = lh_n l -> x ∉ logged l /\
     take (Z.to_nat (lh_n l + 1)) bs = logged l ++ [x]).
Proof.
  intros Htx Hx Hlt k bs. pose proof (tx_n _ _ Htx) as Hn. pose proof (tx_len _ _ Htx) as Hlen.
  destruct (absorb_spec (lh_block l) (Z.to_nat (lh_n l)) x) as (H1 & H2 & H3); [lia|].
  fold k in H1, H2, H3.
  assert (forall j y, logged l !! j = Some y -> u32 y = y) as Hu.
  { intros j y Hj. destruct (tx_home _ _ Htx y) as [(? & _ & _) ?]; [by eapply list_elem_of_lookup_2|].
    destruct (tx_geom _ _ Htx). apply u32_small. lia. }
  split; [lia|]. split.
  - intros Hk. destruct H3 as (y & Hy & Ey); [lia|].
    assert (logged l !! k = Some y) as Hlk by (unfold logged; rewrite lookup_take_lt by lia; done).
    rewrite (Hu _ _ Hlk) in Ey. subst y. split; [by eapply list_elem_of_lookup_2|].
    unfold bs. by apply list_insert_id.
  - intros Hk. split.
    + intros Hin. apply list_elem_of_lookup in Hin as [j Hj].
      pose proof (lookup_lt_Some _ _ _ Hj) as Hjl. rewrite (length_logged _ _ Htx) in Hjl.
      apply (H2 j x); [lia| |by eapply Hu]. unfold logged in Hj. by rewrite lookup_take_lt in Hj by lia.
    + replace (Z.to_nat (lh_n l + 1)) with (S k) by lia. unfold bs.
      rewrite (take_S_r _ _ x) by (apply list_lookup_insert_eq; lia).
      rewrite take_insert_ge by lia. unfold logged. do 2 f_equal. lia.
Qed.

Definition record_block (x : Z) (l : log) : log :=
  let k := absorb (lh_block l) (Z.to_nat (lh_n l)) x in
  let l' := set_block (<[k := x]> (lh_block l)) l in
  if Z.of_nat k =? lh_n l then set_n (lh_n l + 1) l' else l'.

(** There is room for one more block. *)
Definition room (l : log) : Prop := lh_n l < LOGSIZE /\ lh_n l < l_size l - 1.

Lemma record_block_logged l D x :
  tx_ok l D -> home l x -> x < D -> room l ->
  logged (record_block x l) = (if decide (x ∈ logged l) then logged l else logged l ++ [x]) /\
  tx_ok (record_block x l) D.
Proof.
  intros Htx Hh Hx [Hr1 Hr2]. pose proof (tx_geom _ _ Htx) as Hg. pose proof Hg as [? ? ? ? ?].
  destruct (absorb_logged l D x Htx) as (Hk & Hin & Hout); [destruct Hh; lia|done|].
  unfold record_block. set (k := absorb _ _ _) in *.
  pose proof (tx_n _ _ Htx). pose proof (tx_len _ _ Htx).
  destruct (Z.of_nat k =? lh_n l) eqn:E.
  - apply Z.eqb_eq in E. destruct (Hout E) as [Hni Htk].
    assert (logged (set_n (lh_n l + 1) (set_block (<[k:=x]> (lh_block l)) l)) = logged l ++ [x]) as El
      by exact Htk.
    rewrite decide_False by done. split; [done|]. split; [by split|simpl; by rewrite length_insert|simpl; lia|..].
    + rewrite El. apply NoDup_app. split; [apply Htx|]. split; [|apply NoDup_singleton].
      intros y Hy Hyx. apply list_elem_of_singleton in Hyx as ->. done.
    + rewrite El. intros y [Hy|Hy%list_elem_of_singleton]%elem_of_app; [by apply Htx|by subst y].
  - apply Z.eqb_neq in E. destruct (Hin E) as [Hi ->]. rewrite decide_True by done.
    assert (set_block (lh_block l) l = l) as -> by (by destruct l). done.
Qed.

Lemma wp_log_write s i c x (Q : unit -> logst -> Prop) :
  tx_ok (st_log s) (Z.of_nat (length (disk (st_bio s)))) ->
  bufs (st_bio s) !! i = Some c -> b_blockno c = x -> 0 <= x < 2 ^ 31 ->
  room (st_log s) -> 1 <= l_outstanding (st_log s) ->
  Q tt (LogSt (put_buf i (set_flags (Z.lor (b_flags c) B_DIRTY) c) (st_bio s))
          (record_block x (st_log s))) ->
  wp (log_write i) Q s.
Proof.
  intros Htx Hc Hx Hx0 [Hr1 Hr2] Ho HQ. destruct (absorb_logged _ _ x Htx Hx0 Hr1) as (Hk & _ & _).
  unfold log_write, get_log, on_bio, lh_set, upd_log.
  wp_pass ltac:(apply orb_false_iff; split; apply Z.leb_gt; lia).
  wp_pass ltac:(apply Z.ltb_ge; lia).
  eapply wp_get_buf; [done|]. rewrite Hx, s32_small by lia. cbv zeta.
  unfold record_block in HQ. set (k := absorb _ _ _) in *.
  destruct (lookup_lt_is_Some_2 (lh_block (st_log s)) k) as [y Hy]; [by rewrite (tx_len _ _ Htx)|].
  wp_steps. eapply wp_lh_get; [simpl; by rewrite Nat2Z.id|]. wp_steps. rewrite Nat2Z.id. simpl.
  destruct (Z.of_nat k =? lh_n (st_log s)) eqn:E; wp_steps; (eapply wp_upd_buf; [done|]); exact HQ.
Qed.

(** Pinning new contents in the cache. *)
Lemma pin_ok b i n bi v :
  bio_ok b -> owns b n i bi -> 0 <= n < Z.of_nat (length (disk b)) -> length v = BSIZE ->
  bio_ok (put_buf i (set_flags 6 (set_data v bi)) b).
Proof.
  intros Hb [H1 [Hd Hn] H3 H4 H5] Hr Hl.
  eapply bio_ok_put_same; [done|done| |done|done].
  destruct (bo_buf _ Hb _ _ H1). split; simpl; try done; [by right; right|].
  intros _. split; [done|lia].
Qed.

Lemma pin_view b i n bi v m :
  bio_ok b -> owns b n i bi -> 0 <= n < Z.of_nat (length (disk b)) -> length v = BSIZE ->
  cview (put_buf i (set_flags 6 (set_data v bi)) b) m = if m =? n then Some v else cview b m.
Proof.
  intros Hb Ho Hr Hl. pose proof Ho as [H1 H2 H3 H4 H5]. destruct (m =? n) eqn:E.
  - apply Z.eqb_eq in E as ->.
    apply (cview_of _ i (set_flags 6 (set_data v bi)) n);
      [by eapply pin_ok|by eapply bufs_put_same|done|by right].
  - apply Z.eqb_neq in E. rewrite !cview_alt. simpl. destruct H2 as [_ H2].
    rewrite (find_insert (dirty_for m) b_data (bufs b) i bi); [done|done|..];
      unfold dirty_for, same_block; simpl; rewrite H2, (proj2 (Z.eqb_neq n m)) by lia;
      by rewrite !andb_false_r.
Qed.

Lemma pin_dirty b i n bi v m :
  owns b n i bi ->
  is_dirty (put_buf i (set_flags 6 (set_data v bi)) b) m = (m =? n) || is_dirty b m.
Proof.
  intros Ho. pose proof Ho as [H1 H2 H3 H4 H5]. destruct (m =? n) eqn:E.
  - apply Z.eqb_eq in E as ->. apply is_dirty_true.
    exists i, (set_flags 6 (set_data v bi)). split; [by eapply bufs_put_same|done].
  - apply Z.eqb_neq in E. unfold is_dirty. simpl. destruct H2 as [_ H2].
    pose proof (find_insert (dirty_for m) (fun _ => tt) (bufs b) i bi
      (set_flags 6 (set_data v bi)) H1) as H.
    unfold dirty_for at 1 2, same_block in H. simpl in H.
    rewrite H2, (proj2 (Z.eqb_neq n m)) in H by lia.
    rewrite !andb_false_r in H. specialize (H eq_refl (fun _ => eq_refl)).
    by destruct (List.find _ _), (List.find _ _).
Qed.

(** One update changes what the kernel sees and nothing on the disk. *)
Record updated (s s' : logst) (n : Z) (v : list Z) : Prop := Updated {
  up_inv : log_inv s';
  up_log : st_log s' = record_block n (st_log s);
  up_disk : disk (st_bio s') = disk (st_bio s);
  up_writes : writes (st_bio s') = writes (st_bio s);
  up_view : forall m, cview (st_bio s') m = if m =? n then Some v else cview (st_bio s) m;
}.

Lemma start_record l x : l_start (record_block x l) = l_start l.
Proof. unfold record_block. by destruct (_ =? _). Qed.

Lemma home_record l x n : home (record_block x l) n <-> home l n.
Proof. unfold record_block. by case_match. Qed.

Lemma disk_ok_record l x d : disk_ok l d -> disk_ok (record_block x l) d.
Proof. intros [[? ? ? ? ?] ? ?]. unfold record_block. case_match; (split; [by split|done..]). Qed.

Lemma log_update_spec s n v :
  log_inv s -> 1 <= l_outstanding (st_log s) -> room (st_log s) ->
  (length (logged (st_log s)) < NBUF)%nat ->
  home (st_log s) n -> n < Z.of_nat (length (disk (st_bio s))) -> length v = BSIZE ->
  wp (log_update n v) (fun _ s' => updated s s' n v) s.
Proof.
  intros Hs Ho Hroom Hnb Hh Hn Hv. pose proof (lv_tx _ Hs) as Htx.
  pose proof (tx_geom _ _ Htx) as [? ? ? ? ?]. pose proof Hh as (Hn0 & _ & _).
  unfold log_update, on_bio. wp_steps.
  eapply wp_mono; [apply (bread_idle (st_bio s) []); [apply Hs|apply Hs| |done|]|].
  { intros j c Hj. by apply not_elem_of_nil in Hj. }
  { right. by apply log_inv_clean. }
  intros i b1 (a & bi & _ & Ha & Hsd & -> & Hown & Hvi & Hok1 & Hi1).
  set (b1 := put_buf i bi (st_bio s)) in *. wp_steps. unfold bset_data.
  eapply wp_upd_buf; [by apply Hown|]. wp_steps.
  eapply (wp_log_write _ i (set_data v bi) n);
    [done|eapply bufs_put_same; by apply Hown|by apply (ow_caches _ _ _ _ Hown)|lia|done|done|].
  simpl st_bio. rewrite put_put.
  replace (Z.lor (b_flags (set_data v bi)) B_DIRTY) with 6
    by (simpl; destruct (ow_flags _ _ _ _ Hown) as [->| ->]; done).
  wp_steps. simpl st_bio. simpl b_flags.
  pose proof (pin_ok b1 i n bi v Hok1 Hown (conj Hn0 Hn) Hv) as Hok2.
  eapply wp_mono; [apply (brelse_idle _ [] n i (set_flags 6 (set_data v bi)))|].
  { done. } { by apply idle_but_put. }
  { destruct Hown. split; try done; [by eapply bufs_put_same|by right]. }
  intros [] b2 (lr & -> & Hok3 & Hi3 & Hv3 & Hd3).
  destruct (record_block_logged _ _ n Htx Hh Hn Hroom) as [El Htx'].
  split; simpl; try done.
  - split; simpl; try done.
    + intros m. rewrite Hd3, (pin_dirty b1 i n) by done.
      unfold b1. rewrite (is_dirty_put _ i a) by done. rewrite El, orb_true_iff, (lv_dirty _ Hs).
      case_decide as Hin; rewrite ?elem_of_app, ?list_elem_of_singleton, Z.eqb_eq; split; try tauto.
      intros [->|?]; done.
    + apply disk_ok_record, Hs.
    + destruct (lv_empty _ Hs) as (hb & ? & ?). exists hb. by rewrite start_record.
  - intros m. rewrite Hv3, (pin_view b1 i n) by done. unfold b1. by rewrite (cview_put _ i a).
Qed.

(** What a commit leaves behind, whatever its prefix that reaches the disk. *)
Record committed (s s' : logst) : Prop := Committed {
  co_inv : log_inv s';
  co_log : st_log s' = set_n 0 (st_log s);
  co_home : forall m, home (st_log s) m -> dview (disk (st_bio s')) m = cview (st_bio s) m;
  co_crash : exists ws, writes (st_bio s') = writes (st_bio s) ++ ws /\
    disk (st_bio s') = apply_writes ws (disk (st_bio s)) /\
    forall k, recoverable (st_log s) (apply_writes (take k ws) (disk (st_bio s)))
                (dview (disk (st_bio s))) \/
              recoverable (st_log s) (apply_writes (take k ws) (disk (st_bio s)))
                (cview (st_bio s));
}.

Lemma commit_writes_good s hb vs :
  commit_ready s -> Forall2 (fun blk v => cview (st_bio s) blk = Some v) (logged (st_log s)) vs ->
  length hb = BSIZE -> good_writes (commit_writes (st_log s) hb vs) (disk (st_bio s)).
Proof.
  intros Hr Hvs Hhb. pose proof (Forall2_length _ _ _ Hvs) as Hlen. pose proof (cr_tx _ Hr) as Htx.
  pose proof (tx_geom _ _ Htx) as [? ? ? ? ?].
  destruct (committed_image s Hr hb vs Hvs Hhb) as (Hd1 & Hi1 & _).
  pose proof (image_writes_good _ _ _ _ Hd1 Hi1) as (B1 & B2 & B3).
  rewrite (header_blocks _ _ hb Htx Hhb) in B1, B2, B3.
  pose proof (log_writes_good s Hr vs Hvs) as (A1 & A2 & A3).
  pose proof (length_header _ _ hb Htx Hhb) as Hh.
  unfold commit_writes. split; [|split].
  - intros w Hw. rewrite !elem_of_app, !list_elem_of_singleton in Hw.
    destruct Hw as [?|[->|[Hw| ->]]]; simpl; [by apply A1|lia| |lia].
    specialize (B1 _ Hw). by rewrite length_apply_writes in B1.
  - intros w Hw. rewrite !elem_of_app, !list_elem_of_singleton in Hw.
    destruct Hw as [?|[->|[Hw| ->]]]; cbn [snd]; [by apply A2|done|by apply B2|].
    eapply length_header; [by apply tx_ok_clear|done].
  - rewrite !fmap_app, !elem_of_app. simpl. rewrite list_elem_of_singleton.
    intros [?|[?|[?|?]]]; try done; lia.
Qed.

Lemma commit_committed s :
  commit_ready s -> 0 < lh_n (st_log s) -> wp commit (fun _ s' => committed s s') s.
Proof.
  intros Hr Hpos. pose proof (cr_tx _ Hr) as Htx. pose proof (tx_geom _ _ Htx) as [? ? ? ? ?].
  destruct (ready_values s Hr) as [vs Hvs]. destruct (cr_empty _ Hr) as (hb & Hhb & Hn0).
  pose proof (Forall2_length _ _ _ Hvs) as Hlen.
  pose proof (dk_blocks _ _ (cr_disk _ Hr) _ _ Hhb) as Hlb.
  eapply wp_mono; [apply (commit_spec s hb vs);
    [apply Hr|apply Hr|apply Hr|apply Hr|done|intros blk; apply Hr|done|by apply start_view]|].
  intros [] s' [El P].
  pose proof (commit_writes_good s hb vs Hr Hvs Hlb) as Hg.
  set (h1 := header (st_log s) hb) in *.
  set (h2 := header (set_n 0 (st_log s)) h1).
  assert (forall m, 0 <= m -> dview (disk (st_bio s')) m =
    overlay (commit_writes (st_log s) hb vs) (dview (disk (st_bio s))) m) as Hview.
  { intros m Hm. rewrite (pr_disk _ _ _ P). apply dview_apply; [apply Hg|done]. }
  split; [split|done| |].
  - rewrite El, (pr_disk _ _ _ P), length_apply_writes. by apply tx_ok_clear.
  - apply P.
  - apply P.
  - intros m. rewrite El. change (logged (set_n 0 (st_log s))) with (@nil Z).
    rewrite elem_of_nil, (pr_dirty _ _ _ P). case_decide as Hin; [done|].
    rewrite (cr_dirty _ Hr). split; [|done]. intros Hm. apply Hin. unfold commit_writes.
    rewrite !fmap_app, !elem_of_app. right; right; left. by rewrite home_writes_fst.
  - rewrite El, (pr_disk _ _ _ P).
    destruct (disk_ok_writes _ _ _ (cr_disk _ Hr) Hg) as [[? ? ? ? ?] ? ?]. split; [by split|done..].
  - exists h2. rewrite El. simpl. rewrite Hview by lia. split.
    + unfold commit_writes. rewrite !app_assoc, overlay_snoc, Z.eqb_refl. done.
    + eapply header_clear_n; [done|]. by eapply length_header.
  - intros m Hm. rewrite Hview by (by destruct Hm). rewrite <-(new_view s Hr vs m Hvs).
    assert (m <> l_start (st_log s)) as Hms by (destruct Hm as (_ & _ & ?); lia).
    unfold commit_writes. rewrite !app_assoc, overlay_snoc.
    rewrite (proj2 (Z.eqb_neq _ _) Hms), overlay_app. apply overlay_ext.
    rewrite overlay_snoc, (proj2 (Z.eqb_neq _ _) Hms). apply overlay_notin.
    rewrite <-(firstn_all (log_writes _ _)). by eapply log_key_not_home.
  - exists (commit_writes (st_log s) hb vs). split; [apply P|]. split; [apply P|].
    intros k. by apply commit_prefix.
Qed.

(** Recovery from any disk that stands for [H]. *)
Record recovered (l : log) (d : list (list Z)) (H : Z -> option (list Z)) (s' : logst) : Prop :=
  Recovered {
  rv_inv : log_inv s';
  rv_n : lh_n (st_log s') = 0 /\ l_outstanding (st_log s') = 0 /\ l_committing (st_log s') = false;
  rv_geom : l_start (st_log s') = l_start l /\ l_size (st_log s') = l_size l;
  rv_home : forall m, home l m -> dview (disk (st_bio s')) m = H m;
  rv_disk : disk (st_bio s') = apply_writes (writes (st_bio s')) d;
  rv_again : forall k, recoverable l (apply_writes (take k (writes (st_bio s'))) d) H;
}.

Lemma recovery_head l D h : geom_ok l D -> length h = BSIZE ->
  hd_n (put32 0 0 h) = 0 /\ length (put32 0 0 h) = BSIZE.
Proof.
  intros _ Hl. unfold BSIZE in Hl. split.
  - unfold hd_n. rewrite get32_put32_same by lia. done.
  - rewrite length_put32 by lia. done.
Qed.

Lemma initlog_recovers l d H pid :
  recoverable l d H -> wp (initlog ROOTDEV) (fun _ s' => recovered l d H s') (boot d pid).
Proof.
  intros (Hg & Hb & Hsb & h & vs & Hi & HH). assert (disk_ok l d) as Hd by (by split).
  pose proof Hg as [? ? ? ? ?].
  pose proof (Hb _ _ (li_head _ _ _ _ Hi)) as Hlh.
  destruct (recovery_head l _ h Hg Hlh) as [Hn2 Hl2].
  eapply wp_mono; [by apply (initlog_spec l d h vs)|]. intros [] s' (bs & El & Hlb & P).
  assert (writes (st_bio s') = recovery_writes l h vs) as Hw by (by rewrite (pr_writes _ _ _ P)).
  pose proof (pr_disk _ _ _ P) as Hdk. simpl in Hdk.
  pose proof (recoverable_cleared l d h vs H _ Hd Hi HH Hl2 Hn2) as Hrc.
  pose proof (image_writes_good _ _ _ _ Hd Hi) as (W1 & W2 & W3).
  assert (good_writes (recovery_writes l h vs) d) as Hgw.
  { unfold recovery_writes. split; [|split].
    - intros w [?|Hx%list_elem_of_singleton]%elem_of_app; [by apply W1|]. subst w. simpl. lia.
    - intros w [?|Hx%list_elem_of_singleton]%elem_of_app; [by apply W2|by subst w].
    - rewrite fmap_app. intros [?|Hx%list_elem_of_singleton]%elem_of_app; [done|]. simpl in Hx. lia. }
  split.
  - split; rewrite ?El, ?Hdk, ?length_apply_writes.
    + split; [by split|done|simpl; split; [done|lia]|constructor|].
      intros x Hx. by apply not_elem_of_nil in Hx.
    + apply P.
    + apply P.
    + intros m. rewrite (pr_dirty _ _ _ P). change (logged (booted_log l 0 bs)) with (@nil Z).
      rewrite elem_of_nil, binit_no_dirty. by case_decide.
    + destruct (disk_ok_writes _ _ _ Hd Hgw) as [[? ? ? ? ?] ? ?]. split; [by split|done..].
    + exists (put32 0 0 h). split; [|done]. simpl. unfold recovery_writes. rewrite apply_writes_snoc.
      apply list_lookup_insert_eq. rewrite length_apply_writes. lia.
  - by rewrite El.
  - by rewrite El.
  - intros m Hm. rewrite Hdk. by apply cleared_home.
  - by rewrite Hw.
  - intros k. rewrite Hw. unfold recovery_writes.
    destruct (decide (k <= length (zip (hd_blocks h) vs))%nat) as [Hk|Hk].
    + rewrite take_app_le by done. by apply recoverable_replay.
    + rewrite take_ge by (rewrite length_app; simpl; lia). done.
Qed.

(** ** File system calls *)

(** The updates of one file system call, between [begin_op] and [end_op]. *)
Fixpoint log_updates (ups : list (Z * list Z)) : M logst unit :=
  match ups with
  | [] => ret tt
  | (n, v) :: ups' => log_update n v ;;; log_updates ups'
  end.

Definition fs_call (ups : list (Z * list Z)) : M logst unit :=
  begin_op ;;;
  log_updates ups ;;;
  end_op.

(** No call is in progress and the log is empty. *)
Definition quiescent (s : logst) : Prop :=
  log_inv s /\ lh_n (st_log s) = 0 /\ l_outstanding (st_log s) = 0 /\
  l_committing (st_log s) = false.

(** The updates address home blocks with whole blocks. *)
Definition valid_updates (l : log) (D : Z) (ups : list (Z * list Z)) : Prop :=
  Forall (fun u => home l (fst u) /\ fst u < D /\ length (snd u) = BSIZE) ups.

Lemma record_block_n l x : lh_n (record_block x l) <= lh_n l + 1.
Proof. unfold record_block. destruct (_ =? _); simpl; lia. Qed.

Lemma record_block_same l x :
  l_start (record_block x l) = l_start l /\ l_size (record_block x l) = l_size l /\
  l_outstanding (record_block x l) = l_outstanding l /\
  l_committing (record_block x l) = l_committing l /\ l_dev (record_block x l) = l_dev l.
Proof. unfold record_block. by destruct (_ =? _). Qed.

Lemma overlay_cons n v ups f m :
  overlay ((n, v) :: ups) f m = overlay ups (fun m => if m =? n then Some v else f m) m.
Proof. done. Qed.

Lemma log_updates_spec s ups :
  log_inv s -> 1 <= l_outstanding (st_log s) ->
  lh_n (st_log s) + Z.of_nat (length ups) <= MAXOPBLOCKS ->
  MAXOPBLOCKS < l_size (st_log s) ->
  valid_updates (st_log s) (Z.of_nat (length (disk (st_bio s)))) ups ->
  wp (log_updates ups) (fun _ s' =>
    log_inv s' /\ disk (st_bio s') = disk (st_bio s) /\ writes (st_bio s') = writes (st_bio s) /\
    (forall m, cview (st_bio s') m = overlay ups (cview (st_bio s)) m) /\
    lh_n (st_log s') <= lh_n (st_log s) + Z.of_nat (length ups) /\
    l_start (st_log s') = l_start (st_log s) /\ l_size (st_log s') = l_size (st_log s) /\
    l_outstanding (st_log s') = l_outstanding (st_log s) /\
    l_committing (st_log s') = l_committing (st_log s)) s.
Proof.
  revert s. induction ups as [|[n v] ups IH]; intros s Hs Ho Hn Hsz Hv; simpl.
  - apply wp_ret. split_and!; try done. lia.
  - apply Forall_cons in Hv as [(Hh & Hlt & Hlv) Hv]. simpl in Hh, Hlt, Hlv, Hn.
    assert (LOGSIZE = 30 /\ MAXOPBLOCKS = 10 /\ NBUF = 30%nat) as (E1 & E2 & E3) by done.
    pose proof (length_logged _ _ (lv_tx _ Hs)) as Hll. pose proof (tx_n _ _ (lv_tx _ Hs)).
    wp_steps. eapply wp_mono; [apply log_update_spec; [done|done|split; lia|lia|done..]|].
    intros [] s1 [Hs1 El Hd Hw Hvw].
    destruct (record_block_same (st_log s) n) as (R1 & R2 & R3 & R4 & R5).
    pose proof (record_block_n (st_log s) n) as Hrn. rewrite <-El in *.
    eapply wp_mono; [apply (IH s1); [done|lia|lia|lia|]|].
    + rewrite Hd. eapply Forall_impl; [exact Hv|]. intros u (Hu & ? & ?). split; [|done].
      unfold home in *. by rewrite R1, R2.
    + intros [] s' (H1 & H2 & H3 & H4 & H5 & H6 & H7 & H8 & H9). split_and!; try congruence; try done.
      * intros m. rewrite H4. apply (overlay_ext ups). exact (Hvw _).
      * lia.
Qed.

Lemma quiescent_view s m : quiescent s -> cview (st_bio s) m = dview (disk (st_bio s)) m.
Proof.
  intros (Hi & Hn & _). apply cview_clean, not_true_iff_false. rewrite (lv_dirty _ Hi).
  unfold logged. rewrite Hn. apply not_elem_of_nil.
Qed.

Lemma log_inv_outstanding s x c :
  log_inv s -> log_inv (LogSt (st_bio s) (set_committing c (set_outstanding x (st_log s)))).
Proof.
  intros [[[] ? ? ? ?] ? ? ? [[] ? ?] ?].
  split; [split; [by split|done..]|done..| split; [by split|done..]|done].
Qed.

(** The disks a crash may leave during a call: recovery takes each of them to
    [old] or to [new]. *)
Definition crash_atomic (l : log) (ws : list (Z * list Z)) (d : list (list Z))
    (old new : Z -> option (list Z)) : Prop :=
  forall k pid,
    wp (initlog ROOTDEV) (fun _ s' =>
      quiescent s' /\
      ((forall m, home l m -> dview (disk (st_bio s')) m = old m) \/
       (forall m, home l m -> dview (disk (st_bio s')) m = new m)))
      (boot (apply_writes (take k ws) d) pid).

Lemma recovered_quiescent l d H s' : recovered l d H s' -> quiescent s'.
Proof. intros [? (? & ? & ?) ? ? ?]. by split. Qed.

Lemma crash_atomic_intro l l' ws d old new :
  (forall m, home l' m <-> home l m) ->
  (forall k, recoverable l' (apply_writes (take k ws) d) old \/
             recoverable l' (apply_writes (take k ws) d) new) ->
  crash_atomic l ws d old new.
Proof.
  intros Hh Hk k pid. destruct (Hk k) as [Hr|Hr];
    (eapply wp_mono; [by apply initlog_recovers|]; intros [] s' Hs';
     split; [by eapply recovered_quiescent|]).
  - left. intros m Hm. by apply (rv_home _ _ _ _ Hs'), Hh.
  - right. intros m Hm. by apply (rv_home _ _ _ _ Hs'), Hh.
Qed.

(** [end_op] of the only outstanding call. *)
Lemma end_op_last s :
  log_inv s -> (length (logged (st_log s)) < NBUF)%nat ->
  l_outstanding (st_log s) = 1 -> l_committing (st_log s) = false ->
  wp end_op (fun _ s' =>
    quiescent s' /\ l_start (st_log s') = l_start (st_log s) /\ l_size (st_log s') = l_size (st_log s) /\
    (forall m, home (st_log s) m -> dview (disk (st_bio s')) m = cview (st_bio s) m) /\
    exists ws, writes (st_bio s') = writes (st_bio s) ++ ws /\
      disk (st_bio s') = apply_writes ws (disk (st_bio s)) /\
      crash_atomic (st_log s) ws (disk (st_bio s)) (dview (disk (st_bio s))) (cview (st_bio s))) s.
Proof.
  intros Hs Hlt Ho Hc. unfold end_op, get_log, upd_log.
  wp_pass ltac:(done). simpl. rewrite Ho. simpl. wp_steps.
  set (s1 := LogSt (st_bio s) (set_committing true (set_outstanding 0 (st_log s)))).
  match goal with |- wp _ _ ?x => change x with s1 end.
  assert (log_inv s1) as Hs1 by (by apply log_inv_outstanding).
  destruct (decide (0 < lh_n (st_log s))) as [Hpos|Hz].
  - eapply wp_mono; [apply commit_committed; [by apply log_inv_ready|done]|].
    intros [] s2 [Hi El Hh (ws & Hw & Hd & Hk)]. wp_steps. simpl. rewrite El.
    split_and!; try done; [|].
    + split; [|done]. pose proof (log_inv_outstanding s2 0 false Hi) as H.
      by rewrite El in H.
    + exists ws. split_and!; [done|done|]. by apply (crash_atomic_intro _ (st_log s1)).
  - assert (lh_n (st_log s) = 0) as Hn by (pose proof (tx_n _ _ (lv_tx _ Hs)); lia).
    unfold commit, get_log. wp_steps. simpl. rewrite Hn. simpl. wp_steps. simpl.
    assert (quiescent (LogSt (st_bio s) (set_committing false (set_committing true (set_outstanding 0 (st_log s)))))) as Hq.
    { split; [by apply (log_inv_outstanding s 0 false)|done]. }
    split_and!; try done.
    + intros m _. symmetry. apply (quiescent_view _ m Hq).
    + exists []. rewrite app_nil_r. split_and!; [done|done|].
      apply (crash_atomic_intro _ (st_log s)); [done|]. intros k. left. rewrite take_nil. simpl.
      destruct (lv_empty _ Hs) as (hb & ? & ?). by eapply recoverable_empty; [apply Hs|..].
Qed.

Lemma begin_op_quiescent s :
  quiescent s ->
  begin_op s = Ret tt (LogSt (st_bio s) (set_outstanding 1 (st_log s))).
Proof.
  intros (_ & Hn & Ho & Hc). unfold begin_op, get_log, bind, gets.
  by rewrite Hc, Hn, Ho.
Qed.

(** ** Theorems *)

(** C1: A file system call that updates at most [MAXOPBLOCKS] home blocks between
    [begin_op] and [end_op] returns, leaves the log idle and every home block of the
    disk with its updated contents (durability), and is atomic: whatever prefix of its
    block writes reaches the disk before a crash, rebooting and running [initlog]
    ends in an idle log whose home blocks all hold the contents from before the call
    or all hold the updated contents. *)
Theorem fs_call_atomic s ups :
  quiescent s ->
  valid_updates (st_log s) (Z.of_nat (length (disk (st_bio s)))) ups ->
  Z.of_nat (length ups) <= MAXOPBLOCKS -> MAXOPBLOCKS < l_size (st_log s) ->
  wp (fs_call ups) (fun _ s' =>
    quiescent s' /\
    (forall m, home (st_log s) m ->
       dview (disk (st_bio s')) m = overlay ups (dview (disk (st_bio s))) m) /\
    exists ws, writes (st_bio s') = writes (st_bio s) ++ ws /\
      disk (st_bio s') = apply_writes ws (disk (st_bio s)) /\
      crash_atomic (st_log s) ws (disk (st_bio s))
        (dview (disk (st_bio s))) (overlay ups (dview (disk (st_bio s))))) s.
Proof.
  intros Hq Hv Hlen Hsz. pose proof Hq as (Hi & Hn & Ho & Hc).
  unfold fs_call. apply wp_bind. eapply wp_run; [by apply begin_op_quiescent|].
  set (s0 := LogSt _ _).
  assert (log_inv s0) as Hi0 by exact (log_inv_outstanding s 1 (l_committing (st_log s)) Hi).
  apply wp_bind. eapply wp_mono; [apply (log_updates_spec s0); simpl; [done|lia|lia|done|done]|].
  intros [] s1 (Hi1 & Hd & Hw & Hcv & Hn1 & Hst & Hsi & Ho1 & Hc1). simpl in *.
  assert (forall m, cview (st_bio s1) m = overlay ups (dview (disk (st_bio s))) m) as Hnew.
  { intros m. rewrite Hcv. apply overlay_ext. by apply quiescent_view. }
  assert (forall m, home (st_log s1) m <-> home (st_log s) m) as Hh
    by (intros m; unfold home; by rewrite Hst, Hsi).
  eapply wp_mono; [apply end_op_last; [done| |lia|congruence]|].
  { pose proof (length_logged _ _ (lv_tx _ Hi1)). unfold MAXOPBLOCKS, NBUF in *. lia. }
  intros [] s' (Hq' & _ & _ & Hhome & ws & Hws & Hdk & Hca).
  split; [done|]. split.
  - intros m Hm. rewrite Hhome by (by apply Hh). done.
  - exists ws. rewrite Hws, Hw, Hdk, Hd. split_and!; [done|done|].
    intros k pid. rewrite Hd in Hca. eapply wp_mono; [apply (Hca k pid)|].
    intros [] s2 [? [H|H]]; (split; [done|]); [left|right]; intros m Hm;
      rewrite H by (by apply Hh); done.
Qed.

(** C2: Recovery is correct and can itself be cut: from any disk that stands for the
    contents [H] (an empty log over [H], or a complete log of a committed transaction
    whatever part of it has been installed), [initlog] returns with an idle log and
    the home blocks holding [H]; and every disk a crash may leave during that recovery
    stands for [H] again. *)
Theorem recovery_correct l d H pid :
  recoverable l d H ->
  wp (initlog ROOTDEV) (fun _ s' =>
    quiescent s' /\
    l_start (st_log s') = l_start l /\ l_size (st_log s') = l_size l /\
    (forall m, home l m -> dview (disk (st_bio s')) m = H m) /\
    disk (st_bio s') = apply_writes (writes (st_bio s')) d /\
    forall k, recoverable l (apply_writes (take k (writes (st_bio s'))) d) H) (boot d pid).
Proof.
  intros Hr. eapply wp_mono; [by apply initlog_recovers|]. intros [] s' Hs'.
  pose proof (recovered_quiescent _ _ _ _ Hs'). destruct Hs' as [? ? [? ?] ? ? ?]. done.
Qed.

(** ** Witnesses *)

(** A disk of 100 blocks with the superblock of a 30-block log at block 2. *)
Definition example_disk : list (list Z) :=
  <[1%nat := put32 12 30 (put32 16 2 (replicate BSIZE 0))]> (replicate 100 (replicate BSIZE 0)).
Definition example_log : log := Log 2 30 0 false ROOTDEV 0 (replicate 30 0).
Definition example_state : logst := LogSt (binit example_disk 1) example_log.

Lemma example_disk_ok : disk_ok example_log example_disk.
Proof.
  split.
  - by split.
  - intros n x Hx. assert (forallb (fun b => Nat.eqb (length b) BSIZE) example_disk = true) as H
      by (by vm_compute).
    rewrite forallb_forall in H. apply Nat.eqb_eq, H, list_elem_of_In. by eapply list_elem_of_lookup_2.
  - eexists. split; [by vm_compute|]. by vm_compute.
Qed.

Lemma example_quiescent : quiescent example_state.
Proof.
  split; [|done]. split.
  - split; [by split|done..|constructor|]. intros b Hb. by apply not_elem_of_nil in Hb.
  - apply binit_ok. apply example_disk_ok.
  - apply binit_idle.
  - intros m. change (logged (st_log example_state)) with (@nil Z). simpl.
    rewrite binit_no_dirty, elem_of_nil. done.
  - apply example_disk_ok.
  - exists (replicate BSIZE 0). by vm_compute.
Qed.

Definition example_updates : list (Z * list Z) :=
  [(40, replicate BSIZE 7); (41, replicate BSIZE 8); (40, replicate BSIZE 9)].

Lemma example_updates_valid : valid_updates example_log 100 example_updates.
Proof. by repeat apply Forall_cons_2; [vm_compute; naive_solver..|constructor]. Qed.

Lemma fs_call_atomic_witness :
  wp (fs_call example_updates) (fun _ s' => quiescent s') example_state.
Proof.
  eapply wp_mono; [apply (fs_call_atomic example_state example_updates)|].
  - exact example_quiescent.
  - exact example_updates_valid.
  - vm_compute; discriminate.
  - reflexivity.
  - intros u s' H. exact (proj1 H).
Defined.

(** A crash after the log header was written and before block 40 was installed. *)
Definition crashed_disk : list (list Z) :=
  <[3%nat := replicate BSIZE 7]>
    (<[2%nat := put32 4 40 (put32 0 1 (replicate BSIZE 0))]> example_disk).

Lemma crashed_recoverable :
  recoverable example_log crashed_disk (dview (<[40%nat := replicate BSIZE 7]> crashed_disk)).
Proof.
  split; [by split|]. split.
  { intros n x Hx. assert (forallb (fun b => Nat.eqb (length b) BSIZE) crashed_disk = true) as H
      by (by vm_compute).
    rewrite forallb_forall in H. apply Nat.eqb_eq, H, list_elem_of_In. by eapply list_elem_of_lookup_2. }
  split; [eexists; split; [by vm_compute|by vm_compute]|].
  exists (put32 4 40 (put32 0 1 (replicate BSIZE 0))), [replicate BSIZE 7].
  assert (hd_blocks (put32 4 40 (put32 0 1 (replicate BSIZE 0))) = [40]) as E by (by vm_compute).
  split.
  - split; rewrite ?E.
    + by vm_compute.
    + by vm_compute.
    + apply NoDup_singleton.
    + intros x ->%list_elem_of_singleton. vm_compute. naive_solver.
    + done.
    + intros [|t] v Hv; [|done]. injection Hv as <-. by vm_compute.
  - intros m (Hm & _). rewrite E. cbn [zip zip_with overlay fold_left fst snd]. unfold dview.
    destruct (m =? 40) eqn:Em.
    + apply Z.eqb_eq in Em as ->. by vm_compute.
    + apply Z.eqb_neq in Em. symmetry. apply list_lookup_insert_ne. lia.
Qed.

Lemma recovery_correct_witness :
  wp (initlog ROOTDEV) (fun _ s' => quiescent s') (boot crashed_disk 1).
Proof.
  eapply wp_mono; [apply (recovery_correct example_log crashed_disk
    (dview (<[40%nat := replicate BSIZE 7]> crashed_disk)) 1)|].
  - exact crashed_recoverable.
  - intros u s' H. exact (proj1 H).
Defined.
