(* ===== verification/GroupCommit.v ===== *)
(** * Concurrent file system calls and group commit (log.c)

    Several processes may be between [begin_op] and [end_op] at the same time; the
    log commits when the last of them ends.  A system state is the log with, for
    each outstanding call, the number of blocks it may still write of the
    [MAXOPBLOCKS] that [begin_op] reserved for it.  Steps are the calls of log.c
    (an update holds the sleep lock of its buffer and reads, changes, records and
    releases the block).  The file shows the reservation invariant by induction on
    the steps, that calls in their budget do not panic while the log has room, and
    that every step is crash-atomic; it also exhibits the full reservation that the
    30-block log of mkfs.c does not have room for. *)

From S2P Require Import Prelude Bytes Bio Log Recovery.

Record fsys := Fsys { fs_log : logst; fs_ops : list Z }.

Definition valid_block (s : logst) (n : Z) (v : list Z) : Prop :=
  home (st_log s) n /\ n < Z.of_nat (length (disk (st_bio s))) /\ length v = BSIZE.

Inductive fs_step : fsys -> fsys -> Prop :=
| step_begin s ops s' :
    begin_op s = Ret tt s' ->
    fs_step (Fsys s ops) (Fsys s' (MAXOPBLOCKS :: ops))
| step_update s ops i k n v s' :
    ops !! i = Some k -> 0 < k -> valid_block s n v ->
    log_update n v s = Ret tt s' ->
    fs_step (Fsys s ops) (Fsys s' (<[i := k - 1]> ops))
| step_end s ops i k s' :
    ops !! i = Some k ->
    end_op s = Ret tt s' ->
    fs_step (Fsys s ops) (Fsys s' (delete i ops)).

Definition total (ops : list Z) : Z := foldr Z.add 0 ops.

(** The reservation: what is logged and what may still be logged fits in the log
    header. *)
Record sys_ok (x : fsys) : Prop := SysOk {
  sy_log : log_inv (fs_log x);
  sy_size : l_size (st_log (fs_log x)) = LOGSIZE;
  sy_out : l_outstanding (st_log (fs_log x)) = Z.of_nat (length (fs_ops x));
  sy_committing : l_committing (st_log (fs_log x)) = false;
  sy_budget : Forall (fun k => 0 <= k <= MAXOPBLOCKS) (fs_ops x);
  sy_reserved : lh_n (st_log (fs_log x)) + total (fs_ops x) <= LOGSIZE;
  sy_idle : fs_ops x = [] -> lh_n (st_log (fs_log x)) = 0;
}.

(** A step leaves the disk alone, or it is a commit: a crash during it is recovered
    to the contents of the disk before it or to what the kernel's cache shows. *)
Definition step_crash_safe (s s' : logst) : Prop :=
  (disk (st_bio s') = disk (st_bio s) /\ writes (st_bio s') = writes (st_bio s)) \/
  exists ws, writes (st_bio s') = writes (st_bio s) ++ ws /\
    disk (st_bio s') = apply_writes ws (disk (st_bio s)) /\
    (forall m, home (st_log s) m -> dview (disk (st_bio s')) m = cview (st_bio s) m) /\
    crash_atomic (st_log s) ws (disk (st_bio s)) (dview (disk (st_bio s))) (cview (st_bio s)).

(** ** Budgets *)

Lemma total_bound ops : Forall (fun k => 0 <= k <= MAXOPBLOCKS) ops ->
  0 <= total ops <= MAXOPBLOCKS * Z.of_nat (length ops).
Proof. induction 1; simpl; unfold MAXOPBLOCKS in *; lia. Qed.

Lemma total_insert ops i k x : ops !! i = Some k -> total (<[i := x]> ops) = total ops - k + x.
Proof.
  revert i. induction ops as [|y ops IH]; intros [|i] Hi; simplify_eq/=; [lia|].
  rewrite (IH _ Hi). lia.
Qed.

Lemma total_delete ops i k : ops !! i = Some k -> total (delete i ops) = total ops - k.
Proof.
  revert i. induction ops as [|y ops IH]; intros [|i] Hi; simplify_eq/=; [lia|].
  change (total (y :: delete i ops) = y + total ops - k). simpl. rewrite (IH _ Hi). lia.
Qed.

Lemma budget_at ops i k :
  Forall (fun k => 0 <= k <= MAXOPBLOCKS) ops -> ops !! i = Some k -> 0 <= k <= MAXOPBLOCKS.
Proof. intros H Hi. by apply (Forall_lookup_1 _ _ _ _ H Hi). Qed.

(** ** The steps *)

Lemma sys_logged x : sys_ok x -> (length (logged (st_log (fs_log x))) < NBUF)%nat.
Proof.
  intros Hx. pose proof (lv_tx _ (sy_log _ Hx)) as Htx. rewrite (length_logged _ _ Htx).
  pose proof (tx_n _ _ Htx). pose proof (sy_size _ Hx). unfold LOGSIZE, MAXOPBLOCKS, NBUF in *. lia.
Qed.

Lemma begin_step s ops s' :
  sys_ok (Fsys s ops) -> begin_op s = Ret tt s' ->
  s' = LogSt (st_bio s) (set_outstanding (l_outstanding (st_log s) + 1) (st_log s)) /\
  sys_ok (Fsys s' (MAXOPBLOCKS :: ops)).
Proof.
  intros [Hi Hsz Ho Hc Hb Hr Hz]. simpl in *. unfold begin_op, get_log, bind, gets, upd_log, modify.
  rewrite Hc. destruct (_ <? _) eqn:E; [done|]. intros [= <-]. apply Z.ltb_ge in E.
  split; [done|]. pose proof (total_bound _ Hb). split; simpl; try done.
  - exact (log_inv_outstanding s _ (l_committing (st_log s)) Hi).
  - lia.
  - constructor; [done|done].
  - unfold MAXOPBLOCKS in *. lia.
Qed.

Lemma update_wp s ops i k n v :
  sys_ok (Fsys s ops) -> ops !! i = Some k -> valid_block s n v ->
  lh_n (st_log s) < l_size (st_log s) - 1 ->
  wp (log_update n v) (fun _ s' => updated s s' n v) s.
Proof.
  intros Hx Hi (Hh & Hlt & Hlv) Hroom. pose proof (sys_logged _ Hx). destruct Hx. simpl in *.
  pose proof (lookup_lt_Some _ _ _ Hi). apply log_update_spec; try done; [lia|].
  split; [lia|done].
Qed.

Lemma on_bio_log {A} (m : M bio A) s a s' : on_bio m s = Ret a s' -> st_log s' = st_log s.
Proof. unfold on_bio, zoom. destruct (m (st_bio s)); try done. by intros [= _ <-]. Qed.

(** An update that returns had room in the log. *)
Lemma log_update_room s n v s' :
  log_update n v s = Ret tt s' -> lh_n (st_log s) < l_size (st_log s) - 1.
Proof.
  unfold log_update. intros (bp & s1 & H1 & H)%bind_Ret.
  apply bind_Ret in H as ([] & s2 & H2 & H). apply bind_Ret in H as ([] & s3 & H3 & _).
  apply on_bio_log in H1. apply on_bio_log in H2. rewrite <-H1, <-H2.
  unfold log_write in H3. apply bind_Ret in H3 as (l & s4 & [= <- <-] & H).
  apply bind_Ret in H as ([] & s5 & H & _). unfold panic_if in H.
  destruct (_ || _) eqn:E; [done|]. apply orb_false_iff in E as [_ E%Z.leb_gt]. done.
Qed.

Lemma update_step s ops i k n v s' :
  sys_ok (Fsys s ops) -> ops !! i = Some k -> 0 < k -> valid_block s n v ->
  log_update n v s = Ret tt s' ->
  updated s s' n v /\ sys_ok (Fsys s' (<[i := k - 1]> ops)).
Proof.
  intros Hx Hi Hk Hv Hrun. pose proof (log_update_room _ _ _ _ Hrun) as Hroom.
  pose proof (wp_use _ _ _ _ _ (update_wp _ _ _ _ _ _ Hx Hi Hv Hroom) Hrun) as Hu.
  split; [done|]. destruct Hx as [H1 Hsz Ho Hc Hb Hr Hz]. simpl in *.
  destruct (record_block_same (st_log s) n) as (R1 & R2 & R3 & R4 & R5).
  pose proof (record_block_n (st_log s) n) as Hrn. rewrite <-(up_log _ _ _ _ Hu) in *.
  pose proof (budget_at _ _ _ Hb Hi).
  split; simpl; try congruence.
  - apply Hu.
  - rewrite length_insert. congruence.
  - apply Forall_insert; [done|lia].
  - rewrite (total_insert _ _ _ _ Hi). lia.
  - intros E. apply (f_equal length) in E. rewrite length_insert in E. destruct ops; [done|]. done.
Qed.

Lemma end_wp s ops i k :
  sys_ok (Fsys s ops) -> ops !! i = Some k ->
  wp end_op (fun _ s' => step_crash_safe s s' /\ sys_ok (Fsys s' (delete i ops))) s.
Proof.
  intros Hx Hi. pose proof (sys_logged _ Hx) as Hlt. simpl in Hlt.
  pose proof (lookup_lt_Some _ _ _ Hi) as Hil.
  assert (Z.of_nat (length (delete i ops)) = Z.of_nat (length ops) - 1) as Hlen
    by (rewrite length_delete by done; lia).
  destruct Hx as [H1 Hsz Ho Hc Hb Hr Hz]. simpl in *.
  pose proof (total_delete _ _ _ Hi) as Ht. pose proof (budget_at _ _ _ Hb Hi) as Hk.
  destruct (decide (length ops = 1%nat)) as [E1|E1].
  - destruct (delete i ops) eqn:Ed; [|simpl in Hlen; lia].
    eapply wp_mono; [apply end_op_last; [done|done|lia|done]|].
    intros [] s' ((Hi' & Hn' & Ho' & Hc') & _ & Hs' & Hh & ws & ? & ? & ?).
    split; [right; by exists ws|]. split; simpl; try done; [congruence|by rewrite Hn'].
  - unfold end_op, get_log, upd_log. wp_pass ltac:(done). simpl.
    destruct (_ =? 0) eqn:E; [apply Z.eqb_eq in E; lia|]. wp_steps. split; [by left|].
    split; simpl; try done.
    + exact (log_inv_outstanding s _ (l_committing (st_log s)) H1).
    + lia.
    + by apply Forall_delete.
    + lia.
    + intros Ed. rewrite Ed in Hlen. simpl in Hlen. lia.
Qed.

Lemma fs_step_ok x y : sys_ok x -> fs_step x y -> sys_ok y /\ step_crash_safe (fs_log x) (fs_log y).
Proof.
  intros Hx Hst. destruct Hst as [s ops s' Hb|s ops i k n v s' Hi Hk Hv Hu|s ops i k s' Hi He]; simpl.
  - destruct (begin_step _ _ _ Hx Hb) as [-> ?]. split; [done|]. by left.
  - destruct (update_step _ _ _ _ _ _ _ Hx Hi Hk Hv Hu) as [[] ?]. split; [done|]. by left.
  - destruct (wp_use _ _ _ _ _ (end_wp _ _ _ _ Hx Hi) He). done.
Qed.

Lemma reachable_ok x y : sys_ok x -> rtc fs_step x y -> sys_ok y.
Proof. intros Hx. induction 1 as [|x y z Hst _ IH]; [done|]. by apply IH, (fs_step_ok x y). Qed.

Lemma quiescent_sys s : quiescent s -> l_size (st_log s) = LOGSIZE -> sys_ok (Fsys s []).
Proof. intros (? & Hn & ? & ?) ?. split; simpl; try done. rewrite Hn. done. Qed.

(** ** Theorems *)

(** C6: From an idle 30-block log, whatever interleaving of [begin_op], block updates
    (at most [MAXOPBLOCKS] per call) and [end_op] has run, the log and cache
    invariants hold, the logged blocks together with the blocks that outstanding
    calls may still write fit in [LOGSIZE], and whichever step comes next is crash
    safe: it leaves the disk alone, or a crash during it is recovered to the disk
    contents before it or to the contents the cache shows. *)
Theorem group_commit_invariant s x y :
  quiescent s -> l_size (st_log s) = LOGSIZE ->
  rtc fs_step (Fsys s []) x -> fs_step x y ->
  sys_ok x /\ step_crash_safe (fs_log x) (fs_log y).
Proof.
  intros Hq Hs Hr Hst. pose proof (reachable_ok _ _ (quiescent_sys _ Hq Hs) Hr) as Hx.
  split; [done|]. by apply fs_step_ok.
Qed.

(** C31: In every state reachable by such interleavings no call in progress can get
    stuck or panic as long as one log block is left: an update within its call's
    budget returns with the block's new contents visible, and [end_op] (with the
    commit it may start) always returns. *)
Theorem group_commit_progress s x i k n v :
  quiescent s -> l_size (st_log s) = LOGSIZE -> rtc fs_step (Fsys s []) x ->
  fs_ops x !! i = Some k ->
  (valid_block (fs_log x) n v -> lh_n (st_log (fs_log x)) < LOGSIZE - 1 ->
   wp (log_update n v) (fun _ s' => cview (st_bio s') n = Some v) (fs_log x)) /\
  wp end_op (fun _ _ => True) (fs_log x).
Proof.
  intros Hq Hs Hr Hi. pose proof (reachable_ok _ _ (quiescent_sys _ Hq Hs) Hr) as Hx.
  destruct x as [sx ops]. simpl in *. split.
  - intros Hv Hroom. eapply wp_mono; [eapply update_wp; [done|done|done|]|].
    + pose proof (sy_size _ Hx) as E. simpl in E. by rewrite E.
    + intros [] s' Hu. rewrite (up_view _ _ _ _ Hu). by rewrite Z.eqb_refl.
  - eapply wp_mono; [by apply (end_wp _ _ _ _ Hx Hi)|]. done.
Qed.

(** Three calls that use their whole reservation of ten distinct blocks each. *)
Definition full_group : M logst unit :=
  begin_op ;;; begin_op ;;; begin_op ;;;
  log_updates ((fun b => (b, replicate BSIZE b)) <$> seqZ 40 30).

(** The reservation of [begin_op] is one block too generous for the log that
    mkfs.c lays out ([nlog = LOGSIZE] with the header inside): three admitted calls
    that write their [MAXOPBLOCKS] blocks each end in the panic of [log_write]. *)
Theorem full_reservation_panics :
  l_size (st_log example_state) = LOGSIZE /\
  full_group example_state = Panic "too big a transaction".
Proof. by vm_compute. Qed.

(** ** Witnesses *)

Definition after_begin : logst := LogSt (st_bio example_state) (set_outstanding 1 example_log).

Lemma group_commit_invariant_witness :
  sys_ok (Fsys example_state []) /\ step_crash_safe example_state after_begin.
Proof.
  apply (group_commit_invariant example_state (Fsys example_state []) (Fsys after_begin [MAXOPBLOCKS])).
  - exact example_quiescent.
  - reflexivity.
  - apply rtc_refl.
  - apply step_begin. reflexivity.
Defined.

Lemma group_commit_progress_witness :
  wp (log_update 40 (replicate BSIZE 7)) (fun _ s' => cview (st_bio s') 40 = Some (replicate BSIZE 7)) after_begin.
Proof.
  apply (group_commit_progress example_state (Fsys after_begin [MAXOPBLOCKS]) 0 MAXOPBLOCKS).
  - exact example_quiescent.
  - reflexivity.
  - eapply rtc_l; [apply step_begin; reflexivity|apply rtc_refl].
  - reflexivity.
  - vm_compute. naive_solver.
  - reflexivity.
Defined.
