(* ===== verification/CStr.v ===== *)
(** * C strings in user programs

    A C string is the list of its bytes up to, and without, the terminating NUL; a
    pointer into it is a suffix.  The functions of the C library that the user-level
    programs call ([strstr], [strchr], [strtok], [strcmp], [atoi]) are defined on
    such lists, with the lemmas their clients share. *)

From S2P Require Import Prelude.
From Stdlib Require Ascii.

(** The bytes of a string literal. *)
Fixpoint str (s : string) : list Z :=
  match s with
  | EmptyString => []
  | String c s' => Z.of_nat (Ascii.nat_of_ascii c) :: str s'
  end.

Definition NUL : Z := 0.
Definition SP : Z := 32.
Definition LF : Z := 10.
Definition CR : Z := 13.

(** [char] is signed on x86. *)
Definition s8 (x : Z) : Z := (x + 2 ^ 7) mod 2 ^ 8 - 2 ^ 7.

(** The string in a byte array: the bytes before the first NUL, if there is one. *)
Fixpoint cstr (mem : list Z) : option (list Z) :=
  match mem with
  | [] => None
  | b :: mem' => if b =? 0 then Some [] else cons b <$> cstr mem'
  end.

(** [p] is a prefix of [s]. *)
Fixpoint starts_with (p s : list Z) : bool :=
  match p, s with
  | [], _ => true
  | x :: p', y :: s' => (x =? y) && starts_with p' s'
  | _ :: _, [] => false
  end.

(** [strstr(s, p)]: the suffix of [s] at the first occurrence of [p]. *)
Fixpoint strstr (s p : list Z) : option (list Z) :=
  if starts_with p s then Some s
  else match s with
       | [] => None
       | _ :: s' => strstr s' p
       end.

(** The longest prefix of bytes that satisfy [f], and the rest. *)
Fixpoint span (f : Z -> bool) (s : list Z) : list Z * list Z :=
  match s with
  | [] => ([], [])
  | c :: s' => if f c then let '(a, b) := span f s' in (c :: a, b) else ([], s)
  end.

Definition in_set (d : list Z) (c : Z) : bool := existsb (Z.eqb c) d.

(** One call of [strtok]: skip delimiters, take a token, and step over the delimiter
    that ended it. *)
Definition strtok (d s : list Z) : option (list Z * list Z) :=
  match span (in_set d) s with
  | (_, []) => None
  | (_, s') =>
      let '(tok, r) := span (fun c => negb (in_set d c)) s' in
      Some (tok, tail r)
  end.

(** All the tokens of [s], as a loop over [strtok] sees them. *)
Fixpoint tokens (fuel : nat) (d s : list Z) : list (list Z) :=
  match fuel with
  | O => []
  | S f =>
      match strtok d s with
      | None => []
      | Some (t, r) => t :: tokens f d r
      end
  end.
Definition strtok_all (d s : list Z) : list (list Z) := tokens (S (length s)) d s.

Definition is_digit (c : Z) : bool := (48 <=? c) && (c <=? 57).
Definition is_space (c : Z) : bool := (c =? 32) || ((9 <=? c) && (c <=? 13)).

Definition digits_value (ds : list Z) : Z := fold_left (fun n c => n * 10 + (c - 48)) ds 0.

(** [(int) strtol(s, NULL, 10)], which saturates at 64 bits. *)
Definition atoi (s : list Z) : Z :=
  let '(_, s1) := span is_space s in
  let '(sign, s2) :=
    match s1 with
    | 45 :: r => (-1, r)
    | 43 :: r => (1, r)
    | _ => (1, s1)
    end in
  let '(ds, _) := span is_digit s2 in
  s32 (Z.max (- 2 ^ 63) (Z.min (2 ^ 63 - 1) (sign * digits_value ds))).

(** [strcmp(a, b) == 0] *)
Fixpoint str_eqb (a b : list Z) : bool :=
  match a, b with
  | [], [] => true
  | x :: a', y :: b' => (x =? y) && str_eqb a' b'
  | _, _ => false
  end.

(** ** Lemmas *)

Lemma str_eqb_eq a b : str_eqb a b = true <-> a = b.
Proof.
  revert b. induction a as [|x a IH]; intros [|y b]; simpl; try done.
  rewrite andb_true_iff, Z.eqb_eq, IH. split; [by intros [-> ->]|by intros [= -> ->]].
Qed.

Lemma span_app f s : let '(a, b) := span f s in s = a ++ b.
Proof.
  induction s as [|c s IH]; simpl; [done|]. destruct (f c); [|done].
  destruct (span f s) as [a b]. by rewrite IH.
Qed.

Lemma span_spec f s a b :
  span f s = (a, b) ->
  s = a ++ b /\ Forall (fun c => f c = true) a /\
  match b with [] => True | c :: _ => f c = false end.
Proof.
  revert a b. induction s as [|c s IH]; intros a b; simpl; [by intros [= <- <-]|].
  destruct (f c) eqn:E; [|by intros [= <- <-]].
  destruct (span f s) as [a' b'] eqn:Es. intros [= <- <-].
  destruct (IH _ _ eq_refl) as (-> & ? & ?). split; [done|]. split; [by constructor|done].
Qed.

Lemma span_stop f a b :
  Forall (fun c => f c = true) a -> match b with [] => True | c :: _ => f c = false end ->
  span f (a ++ b) = (a, b).
Proof.
  induction 1 as [|c a Hc _ IH]; intros Hb; simpl.
  - destruct b as [|c b]; [done|]. simpl. by rewrite Hb.
  - rewrite Hc. by rewrite IH.
Qed.

Lemma starts_with_app p s : starts_with p s = true <-> exists r, s = p ++ r.
Proof.
  revert s. induction p as [|x p IH]; intros s; simpl.
  - split; [by exists s|done].
  - destruct s as [|y s]; [split; [done|by intros [r ?]]|].
    rewrite andb_true_iff, Z.eqb_eq, IH. split.
    + intros [-> [r ->]]. by exists r.
    + intros [r [= -> ->]]. split; [done|by exists r].
Qed.

(** [strstr] finds the first occurrence, if there is one. *)
Lemma strstr_Some s p r :
  strstr s p = Some r <->
  exists pre, s = pre ++ r /\ starts_with p r = true /\
    forall pre' r', s = pre' ++ r' -> (length pre' < length pre)%nat -> starts_with p r' = false.
Proof.
  revert r. induction s as [|c s IH]; intros r; simpl.
  - destruct (starts_with p []) eqn:E; split; try done.
    + intros [= <-]. exists []. split; [done|]. split; [done|]. simpl; lia.
    + intros (pre & Hs & _ & _). by destruct pre, r.
    + intros (pre & Hs & Hr & _). destruct pre, r; simplify_eq/=. congruence.
  - destruct (starts_with p (c :: s)) eqn:E.
    + split.
      * intros [= <-]. exists []. split; [done|]. split; [done|]. simpl; lia.
      * intros (pre & Hs & Hr & Hmin). destruct pre as [|x pre]; [by rewrite Hs|].
        rewrite (Hmin [] (c :: s)) in E; simpl; [done|done|lia].
    + rewrite IH. split.
      * intros (pre & -> & Hr & Hmin). exists (c :: pre). split; [done|]. split; [done|].
        intros [|x pre'] r' Hs Hl; simpl in *; [by rewrite <-Hs|].
        injection Hs as -> Hs. eapply Hmin; [done|lia].
      * intros (pre & Hs & Hr & Hmin). destruct pre as [|x pre].
        { simpl in Hs. subst r. by rewrite E in Hr. }
        injection Hs as -> ->. exists pre. split; [done|]. split; [done|].
        intros pre' r' Hs' Hl. apply (Hmin (x :: pre') r'); simpl; [by rewrite Hs'|lia].
Qed.

Lemma strstr_None s p :
  strstr s p = None <-> forall pre r, s = pre ++ r -> starts_with p r = false.
Proof.
  induction s as [|c s IH]; simpl.
  - destruct (starts_with p []) eqn:E; split; try done.
    + intros H. by rewrite (H [] []) in E.
    + intros _ pre r Hs. destruct pre, r; by simplify_eq.
  - destruct (starts_with p (c :: s)) eqn:E.
    + split; [done|]. intros H. by rewrite (H [] (c :: s)) in E.
    + rewrite IH. split.
      * intros H [|x pre] r Hs; simpl in Hs; [by subst r|]. injection Hs as -> ->. by eapply H.
      * intros H pre r ->. by apply (H (c :: pre)).
Qed.

(** ** The tokens of a string, without the cursor of [strtok] *)

Fixpoint split (d s : list Z) : list (list Z) :=
  match s with
  | [] => [[]]
  | c :: s' =>
      if in_set d c then [] :: split d s'
      else match split d s' with
           | t :: ts => (c :: t) :: ts
           | [] => [[c]]
           end
  end.

Definition words (d s : list Z) : list (list Z) := filter (fun t => t <> []) (split d s).

Lemma split_not_nil d s : split d s <> [].
Proof.
  destruct s as [|c s]; simpl; [done|]. destruct (in_set d c); [done|]. by destruct (split d s).
Qed.

(** Splitting at a delimiter. *)
Lemma words_app d a c b : in_set d c = true -> words d (a ++ c :: b) = words d a ++ words d b.
Proof.
  intros Hc. assert (split d (a ++ c :: b) = split d a ++ split d b) as E.
  { induction a as [|x a IH]; simpl; [by rewrite Hc|].
    destruct (in_set d x); [by rewrite IH|]. rewrite IH.
    destruct (split d a) eqn:E; [by apply split_not_nil in E|done]. }
  unfold words. by rewrite E, filter_app.
Qed.

Lemma words_delim d c s : in_set d c = true -> words d (c :: s) = words d s.
Proof. intros Hc. by apply (words_app d [] c s). Qed.

Lemma words_delims d a s : Forall (fun c => in_set d c = true) a -> words d (a ++ s) = words d s.
Proof. induction 1 as [|c a Hc _ IH]; [done|]. simpl. by rewrite words_delim. Qed.

Lemma split_word d t :
  Forall (fun c => in_set d c = false) t -> split d t = [t].
Proof. induction 1 as [|c t Hc _ IH]; [done|]. simpl. by rewrite Hc, IH. Qed.

Lemma words_word d t :
  Forall (fun c => in_set d c = false) t -> t <> [] -> words d t = [t].
Proof. intros Ht Hn. unfold words. rewrite split_word by done. rewrite filter_cons_True by done. by rewrite filter_nil. Qed.

Lemma strtok_words d s :
  match strtok d s with
  | None => words d s = []
  | Some (t, r) => words d s = t :: words d r /\ (length r < length s)%nat
  end.
Proof.
  unfold strtok. destruct (span (in_set d) s) as [a s'] eqn:E1.
  apply span_spec in E1 as (-> & Ha & Hs'). rewrite words_delims by done.
  destruct s' as [|c s']; [done|].
  destruct (span (fun c => negb (in_set d c)) (c :: s')) as [t r] eqn:E2.
  apply span_spec in E2 as (Ecs & Ht & Hr). rewrite Ecs.
  assert (Forall (fun c => in_set d c = false) t) as Ht'.
  { eapply Forall_impl; [exact Ht|]. intros x. simpl. by destruct (in_set d x). }
  assert (t <> []) as Hn.
  { intros ->. simpl in Ecs. subst r. by rewrite Hs' in Hr. }
  destruct r as [|x r]; simpl.
  - rewrite app_nil_r, words_word by done. split; [done|]. rewrite length_app.
    destruct t; [done|simpl; lia].
  - destruct (in_set d x) eqn:Ex; [|done]. rewrite words_app, words_word by done.
    split; [done|]. rewrite !length_app. simpl. lia.
Qed.

Lemma strtok_all_words d s : strtok_all d s = words d s.
Proof.
  unfold strtok_all. assert (length s < S (length s))%nat as Hf by lia. revert Hf.
  generalize (S (length s)) as fuel. intros fuel. revert s.
  induction fuel as [|fuel IH]; intros s Hf; [lia|]. simpl.
  pose proof (strtok_words d s) as H. destruct (strtok d s) as [[t r]|]; [|done].
  destruct H as [-> Hl]. rewrite IH; [done|lia].
Qed.
