(* ===== verification/KString.v ===== *)
(** * Memory and string routines of the kernel (src/p5/xv6-public/string.c)

    Memory is an array of bytes and a pointer an index into it; every access is checked
    against its bounds.  The loops are the loops of the C code, one byte at a time;
    [memmove] is shown to copy correctly whichever way the regions overlap, and the
    string routines are related to the strings ([CStr.cstr]) in memory. *)

From S2P Require Import Prelude Bytes CStr.

Abbreviation mem := (list Z).

Definition ld (p : Z) : M mem Z := fun m =>
  if (0 <=? p) && (p <? Z.of_nat (length m)) then Ret (nth (Z.to_nat p) m 0) m
  else Undef "load outside memory".
Definition st (p v : Z) : M mem unit := fun m =>
  if (0 <=? p) && (p <? Z.of_nat (length m)) then Ret tt (<[Z.to_nat p := u8 v]> m)
  else Undef "store outside memory".

(** [stosb] and [stosl] of x86.h: fill [n] bytes, or [n] 32-bit words. *)
Fixpoint stosb (addr data : Z) (n : nat) : M mem unit :=
  match n with
  | O => ret tt
  | S n' => st addr data ;;; stosb (addr + 1) data n'
  end.
Fixpoint stosl (addr data : Z) (n : nat) : M mem unit :=
  match n with
  | O => ret tt
  | S n' =>
      st addr data ;;; st (addr + 1) (Z.shiftr data 8) ;;;
      st (addr + 2) (Z.shiftr data 16) ;;; st (addr + 3) (Z.shiftr data 24) ;;;
      stosl (addr + 4) data n'
  end.

Definition memset (dst c n : Z) : M mem Z :=
  (if (Z.rem dst 4 =? 0) && (n mod 4 =? 0) then
     let c := Z.land c 255 in
     stosl dst (Z.lor (Z.lor (Z.lor (Z.shiftl c 24) (Z.shiftl c 16)) (Z.shiftl c 8)) c)
           (Z.to_nat (n / 4))
   else stosb dst c (Z.to_nat n)) ;;;
  ret dst.

Fixpoint memcmp_loop (s1 s2 : Z) (n : nat) : M mem Z :=
  match n with
  | O => ret 0
  | S n' =>
      a <- ld s1 ;;
      b <- ld s2 ;;
      if a =? b then memcmp_loop (s1 + 1) (s2 + 1) n' else ret (a - b)
  end.
Definition memcmp (v1 v2 n : Z) : M mem Z := memcmp_loop v1 v2 (Z.to_nat n).

(** [while(n-- > 0) *--d = *--s;] *)
Fixpoint copy_down (d s : Z) (n : nat) : M mem unit :=
  match n with
  | O => ret tt
  | S n' =>
      b <- ld (s - 1) ;;
      st (d - 1) b ;;;
      copy_down (d - 1) (s - 1) n'
  end.
(** [while(n-- > 0) *d++ = *s++;] *)
Fixpoint copy_up (d s : Z) (n : nat) : M mem unit :=
  match n with
  | O => ret tt
  | S n' =>
      b <- ld s ;;
      st d b ;;;
      copy_up (d + 1) (s + 1) n'
  end.

Definition memmove (dst src n : Z) : M mem Z :=
  (if (src <? dst) && (dst <? src + n) then copy_down (dst + n) (src + n) (Z.to_nat n)
   else copy_up dst src (Z.to_nat n)) ;;;
  ret dst.

Definition memcpy (dst src n : Z) : M mem Z := memmove dst src n.

Fixpoint strncmp (p q : Z) (n : nat) : M mem Z :=
  match n with
  | O => ret 0
  | S n' =>
      a <- ld p ;;
      b <- ld q ;;
      if negb (a =? 0) && (a =? b) then strncmp (p + 1) (q + 1) n' else ret (a - b)
  end.

Fixpoint strncpy (s t : Z) (n : nat) : M mem unit :=
  match n with
  | O => ret tt
  | S n' =>
      b <- ld t ;;
      st s b ;;;
      if b =? 0 then stosb (s + 1) 0 n' else strncpy (s + 1) (t + 1) n'
  end.

(** [while(--n > 0 && ( *s++ = *t++) != 0) ; *s = 0;] with [n - 1] rounds left. *)
Fixpoint safestrcpy_loop (s t : Z) (n : nat) : M mem unit :=
  match n with
  | O => st s 0
  | S n' =>
      b <- ld t ;;
      st s b ;;;
      if b =? 0 then st (s + 1) 0 else safestrcpy_loop (s + 1) (t + 1) n'
  end.
Definition safestrcpy (s t n : Z) : M mem unit :=
  if n <=? 0 then ret tt else safestrcpy_loop s t (Z.to_nat (n - 1)).

(** [fuel] rounds of [for(n = 0; s[n]; n++)]. *)
Fixpoint strlen_loop (fuel : nat) (s n : Z) : M mem Z :=
  match fuel with
  | O => fun _ => Timeout
  | S f =>
      b <- ld (s + n) ;;
      if b =? 0 then ret n else strlen_loop f s (n + 1)
  end.
Definition strlen (s : Z) : M mem Z := fun m => strlen_loop (S (length m)) s 0 m.

(** ** Loads and stores *)

Lemma ld_run m i b : m !! i = Some b -> ld (Z.of_nat i) m = Ret b m.
Proof.
  intros Hi. pose proof (lookup_lt_Some _ _ _ Hi). unfold ld.
  rewrite (proj2 (Z.leb_le _ _)), (proj2 (Z.ltb_lt _ _)) by lia. simpl.
  rewrite Nat2Z.id. by erewrite nth_lookup_Some.
Qed.

Lemma st_run m i v : (i < length m)%nat -> st (Z.of_nat i) v m = Ret tt (<[i := u8 v]> m).
Proof.
  intros Hi. unfold st. rewrite (proj2 (Z.leb_le _ _)), (proj2 (Z.ltb_lt _ _)) by lia. simpl.
  by rewrite Nat2Z.id.
Qed.

Lemma u8_byte b : is_byte b -> u8 b = b.
Proof. apply Z.mod_small. Qed.

Lemma byte_at m i : bytes_ok m -> (i < length m)%nat -> exists b, m !! i = Some b /\ is_byte b.
Proof.
  intros Hm Hi. destruct (lookup_lt_is_Some_2 m i Hi) as [b Hb]. exists b. split; [done|].
  by eapply Forall_lookup_1.
Qed.

Lemma bytes_ok_insert m i b : bytes_ok m -> is_byte b -> bytes_ok (<[i := b]> m).
Proof. intros. by apply Forall_insert. Qed.

(** [m'] is [m] with the [n] bytes from [d] on replaced by those that were at [s]. *)
Definition copied (d s n : nat) (m m' : mem) : Prop :=
  length m' = length m /\
  forall i, m' !! i = if decide (d <= i < d + n)%nat then m !! (s + (i - d))%nat else m !! i.

Lemma copied_splice d s n m m' :
  (d + n <= length m)%nat -> (s + n <= length m)%nat -> copied d s n m m' ->
  m' = splice d (slice s n m) m.
Proof.
  intros Hd Hs [Hl Hi]. apply list_eq. intros i. rewrite Hi.
  assert (length (slice s n m) = n) as Hsl by (by apply length_slice).
  case_decide.
  - rewrite lookup_splice_in by lia. rewrite lookup_slice by lia. done.
  - by rewrite lookup_splice_out by lia.
Qed.

Lemma copy_up_run n : forall d s m,
  bytes_ok m -> (d + n <= length m)%nat -> (s + n <= length m)%nat ->
  (d <= s \/ s + n <= d)%nat ->
  exists m', copy_up (Z.of_nat d) (Z.of_nat s) n m = Ret tt m' /\ copied d s n m m'.
Proof.
  induction n as [|n IH]; intros d s m Hm Hd Hs Ho.
  - exists m. split; [done|]. split; [done|]. intros i. by rewrite decide_False by lia.
  - destruct (byte_at m s Hm ltac:(lia)) as (b & Hb & Hbb). simpl. unfold bind.
    rewrite (ld_run _ _ _ Hb), st_run by lia. rewrite u8_byte by done.
    replace (Z.of_nat d + 1) with (Z.of_nat (S d)) by lia.
    replace (Z.of_nat s + 1) with (Z.of_nat (S s)) by lia.
    destruct (IH (S d) (S s) (<[d := b]> m)) as (m' & E & Hl & Hi);
      [by apply bytes_ok_insert|rewrite length_insert; lia..|lia|].
    exists m'. split; [exact E|]. rewrite length_insert in Hl. split; [done|]. intros i. rewrite Hi.
    destruct (decide (i = d)) as [->|Hne].
    + rewrite decide_False, decide_True by lia. rewrite list_lookup_insert_eq by lia.
      rewrite Nat.sub_diag, Nat.add_0_r. done.
    + destruct (decide (d <= i < d + S n)%nat).
      * rewrite decide_True by lia. rewrite list_lookup_insert_ne by lia. f_equal. lia.
      * rewrite decide_False by lia. by rewrite list_lookup_insert_ne.
Qed.

Lemma copy_down_run n : forall d s m,
  bytes_ok m -> (d + n <= length m)%nat -> (s + n <= length m)%nat -> (s < d)%nat ->
  exists m', copy_down (Z.of_nat (d + n)) (Z.of_nat (s + n)) n m = Ret tt m' /\ copied d s n m m'.
Proof.
  induction n as [|n IH]; intros d s m Hm Hd Hs Ho.
  - exists m. split; [done|]. split; [done|]. intros i. by rewrite decide_False by lia.
  - destruct (byte_at m (s + n) Hm ltac:(lia)) as (b & Hb & Hbb). simpl. unfold bind.
    replace (Z.of_nat (s + S n) - 1) with (Z.of_nat (s + n)) by lia.
    replace (Z.of_nat (d + S n) - 1) with (Z.of_nat (d + n)) by lia.
    rewrite (ld_run _ _ _ Hb), st_run by lia. rewrite u8_byte by done.
    destruct (IH d s (<[(d + n)%nat := b]> m)) as (m' & E & Hl & Hi);
      [by apply bytes_ok_insert|rewrite length_insert; lia..|lia|].
    exists m'. split; [exact E|]. rewrite length_insert in Hl. split; [done|]. intros i. rewrite Hi.
    destruct (decide (i = d + n)%nat) as [->|Hne].
    + rewrite decide_False, decide_True by lia. rewrite list_lookup_insert_eq by lia.
      replace (s + (d + n - d))%nat with (s + n)%nat by lia. done.
    + destruct (decide (d <= i < d + S n)%nat).
      * rewrite decide_True by lia. by rewrite list_lookup_insert_ne by lia.
      * rewrite decide_False by lia. by rewrite list_lookup_insert_ne.
Qed.

(** [memmove] (and [memcpy]) copies [n] bytes from [src] to [dst] as if through a
    temporary buffer, however the two regions overlap: the bytes of the source as they were
    end up at the destination and nothing else changes. *)
Theorem memmove_correct (dst src n : nat) (m : mem) :
  bytes_ok m -> (dst + n <= length m)%nat -> (src + n <= length m)%nat ->
  memmove (Z.of_nat dst) (Z.of_nat src) (Z.of_nat n) m =
  Ret (Z.of_nat dst) (splice dst (slice src n m) m).
Proof.
  intros Hm Hd Hs. unfold memmove, bind. rewrite Nat2Z.id, <-!Nat2Z.inj_add.
  destruct (Z.ltb_spec (Z.of_nat src) (Z.of_nat dst)) as [H1|H1];
    [destruct (Z.ltb_spec (Z.of_nat dst) (Z.of_nat (src + n))) as [H2|H2]|]; simpl.
  - destruct (copy_down_run n dst src m) as (m' & -> & Hc); [done..|lia|].
    by rewrite (copied_splice _ _ _ _ _ Hd Hs Hc).
  - destruct (copy_up_run n dst src m) as (m' & -> & Hc); [done..|lia|].
    by rewrite (copied_splice _ _ _ _ _ Hd Hs Hc).
  - destruct (copy_up_run n dst src m) as (m' & -> & Hc); [done..|lia|].
    by rewrite (copied_splice _ _ _ _ _ Hd Hs Hc).
Qed.

Lemma memmove_correct_witness :
  memmove 1 0 4 [1; 2; 3; 4; 5; 6] = Ret 1 [1; 1; 2; 3; 4; 6].
Proof.
  apply (memmove_correct 1 0 4 [1; 2; 3; 4; 5; 6]); simpl; [|lia|lia].
  repeat constructor; lia.
Defined.

(** ** Filling and strings *)

Lemma stosb_run n : forall d c m,
  (d + n <= length m)%nat ->
  stosb (Z.of_nat d) c n m = Ret tt (splice d (replicate n (u8 c)) m).
Proof.
  induction n as [|n IH]; intros d c m Hd; simpl.
  - unfold splice. simpl. by rewrite Nat.add_0_r, take_drop.
  - unfold bind. rewrite st_run by lia. replace (Z.of_nat d + 1) with (Z.of_nat (S d)) by lia.
    rewrite IH by (rewrite length_insert; lia). f_equal.
    apply list_eq. intros i.
    assert (forall k, length (replicate k (u8 c)) = k) as Hr by (intros; apply length_replicate).
    destruct (decide (S d <= i < S d + n)%nat).
    + rewrite !lookup_splice_in by (rewrite ?length_insert, ?length_cons, ?Hr; lia).
      replace (i - d)%nat with (S (i - S d)) by lia. done.
    + rewrite lookup_splice_out by (rewrite ?length_insert, ?Hr; lia).
      destruct (decide (i = d)) as [->|].
      * rewrite list_lookup_insert_eq by lia.
        rewrite lookup_splice_in by (rewrite ?length_cons, ?Hr; lia). by rewrite Nat.sub_diag.
      * rewrite list_lookup_insert_ne by lia.
        by rewrite lookup_splice_out by (rewrite ?length_cons, ?Hr; lia).
Qed.

Definition spread (c : Z) : Z :=
  Z.lor (Z.lor (Z.lor (Z.shiftl c 24) (Z.shiftl c 16)) (Z.shiftl c 8)) c.

Lemma spread_bytes c :
  0 <= c < 256 -> u8 (spread c) = c /\ u8 (Z.shiftr (spread c) 8) = c /\
  u8 (Z.shiftr (spread c) 16) = c /\ u8 (Z.shiftr (spread c) 24) = c.
Proof.
  intros Hc.
  assert (forallb (fun c => (u8 (spread c) =? c) && (u8 (Z.shiftr (spread c) 8) =? c) &&
    (u8 (Z.shiftr (spread c) 16) =? c) && (u8 (Z.shiftr (spread c) 24) =? c)) (seqZ 0 256) = true) as H
    by (by vm_compute).
  rewrite forallb_forall in H. specialize (H c).
  rewrite !andb_true_iff, !Z.eqb_eq in H. destruct H as [[[? ?] ?] ?]; [|done].
  apply list_elem_of_In, elem_of_seqZ. lia.
Qed.

(** Filling by words is filling by bytes. *)
Lemma stosl_run n : forall d c m,
  0 <= c < 256 -> (d + 4 * n <= length m)%nat ->
  stosl (Z.of_nat d) (spread c) n m = stosb (Z.of_nat d) c (4 * n) m.
Proof.
  induction n as [|n IH]; intros d c m Hc Hd; [done|].
  destruct (spread_bytes c Hc) as (B0 & B1 & B2 & B3).
  replace (4 * S n)%nat with (S (S (S (S (4 * n))))) by lia. cbn [stosl stosb]. unfold bind.
  assert (u8 c = c) as Bc by (by apply u8_byte).
  replace (Z.of_nat d + 1) with (Z.of_nat (S d)) by lia.
  replace (Z.of_nat (S d) + 1) with (Z.of_nat (S (S d))) by lia.
  replace (Z.of_nat d + 2) with (Z.of_nat (S (S d))) by lia.
  replace (Z.of_nat d + 3) with (Z.of_nat (S (S (S d)))) by lia.
  replace (Z.of_nat (S (S d)) + 1) with (Z.of_nat (S (S (S d)))) by lia.
  replace (Z.of_nat d + 4) with (Z.of_nat (S (S (S (S d))))) by lia.
  replace (Z.of_nat (S (S (S d))) + 1) with (Z.of_nat (S (S (S (S d))))) by lia.
  rewrite !st_run by (rewrite ?length_insert; lia). rewrite B0, B1, B2, B3, Bc.
  apply IH; [done|]. rewrite !length_insert. lia.
Qed.

(** [memset] fills with the low byte of [c], by words when it can. *)
Lemma memset_correct dst c n m :
  (dst + n <= length m)%nat ->
  memset (Z.of_nat dst) c (Z.of_nat n) m =
  Ret (Z.of_nat dst) (splice dst (replicate n (u8 c)) m).
Proof.
  intros Hd. unfold memset, bind.
  assert (Z.land c 255 = u8 c) as Hu by apply (Z.land_ones c 8 ltac:(lia)).
  destruct (_ && _) eqn:E.
  - apply andb_true_iff in E as [_ E]. apply Z.eqb_eq in E. rewrite Hu.
    pose proof (Z.mod_pos_bound c (2 ^ 8) ltac:(lia)) as Hb. fold (u8 c) in Hb.
    assert (4 * Z.to_nat (Z.of_nat n / 4) = n)%nat as H4.
    { pose proof (Z.div_mod (Z.of_nat n) 4 ltac:(lia)). lia. }
    fold (spread (u8 c)). rewrite stosl_run by lia. rewrite H4, stosb_run by done.
    by rewrite (u8_byte (u8 c)).
  - rewrite Nat2Z.id, stosb_run by done. done.
Qed.

(** [strlen] of a terminated string is its length. *)
Lemma strlen_correct s str m :
  cstr (drop s m) = Some str -> strlen (Z.of_nat s) m = Ret (Z.of_nat (length str)) m.
Proof.
  intros Hc. unfold strlen.
  assert (forall k f r, cstr (drop (s + k) m) = Some r -> (length r < f)%nat ->
    strlen_loop f (Z.of_nat s) (Z.of_nat k) m = Ret (Z.of_nat (k + length r)) m) as H.
  { intros k f r. revert k r. induction f as [|f IH]; intros k r Hr Hf; [lia|]. simpl. unfold bind.
    destruct (drop (s + k) m) as [|b rest] eqn:Ed; [done|].
    assert (m !! (s + k)%nat = Some b) as Hb
      by (by rewrite <-(Nat.add_0_r (s + k)), <-lookup_drop, Ed).
    rewrite <-Nat2Z.inj_add, (ld_run _ _ _ Hb). simpl in Hr. destruct (b =? 0).
    - injection Hr as <-. simpl. by rewrite Nat.add_0_r.
    - destruct (cstr rest) as [r'|] eqn:Er; [|done]. injection Hr as <-.
      replace (Z.of_nat k + 1) with (Z.of_nat (S k)) by lia. simpl in Hf.
      rewrite (IH (S k) r'); [simpl; f_equal; lia| |lia].
      rewrite Nat.add_succ_r. rewrite (drop_S m b (s + k)) in Ed by done. by injection Ed as <-. }
  apply (H 0%nat).
  - by rewrite Nat.add_0_r.
  - assert (forall l r, cstr l = Some r -> (length r < length l)%nat) as Hlen.
    { induction l as [|b l IH]; intros r; simpl; [done|]. destruct (b =? 0); [intros [= <-]; simpl; lia|].
      destruct (cstr l) as [r'|]; [|done]. intros [= <-]. specialize (IH r' eq_refl). simpl. lia. }
    apply Hlen in Hc. rewrite length_drop in Hc. lia.
Qed.
