(* ===== verification/Kalloc.v ===== *)
(** * The page allocator (src/p5/xv6-public/kalloc.c)

    Free pages are linked through their own first word.  Memory is a map from page
    addresses to page contents, so that the list is really read from the pages;
    [kmem.lock] is a flag, and acquiring it twice is the panic of [acquire].  The
    abstract allocator is the list of free pages; the invariant of a system of clients is
    that free and held pages partition memory, whatever the clients write into theirs. *)

From S2P Require Import Prelude Bytes.

Definition PGSIZE : Z := 4096.
Definition KERNBASE : Z := 0x80000000.
Definition PHYSTOP : Z := 0xE000000.
Definition V2P (a : Z) : Z := u32 (a - KERNBASE).
Definition PGROUNDUP (sz : Z) : Z := Z.land (u32 (sz + PGSIZE - 1)) (Z.lnot (PGSIZE - 1)).

Record kmem := mk_kmem {
  locked : bool;
  use_lock : bool;
  freelist : Z;
  pages : gmap Z (list Z)
}.
Definition set_locked (b : bool) (k : kmem) : kmem := mk_kmem b (use_lock k) (freelist k) (pages k).
Definition set_use_lock (b : bool) (k : kmem) : kmem := mk_kmem (locked k) b (freelist k) (pages k).
Definition set_freelist (r : Z) (k : kmem) : kmem := mk_kmem (locked k) (use_lock k) r (pages k).
Definition set_pages (p : gmap Z (list Z)) (k : kmem) : kmem :=
  mk_kmem (locked k) (use_lock k) (freelist k) p.

Definition lock_kmem : M kmem unit := fun k =>
  if use_lock k then if locked k then Panic "acquire" else Ret tt (set_locked true k) else Ret tt k.
Definition unlock_kmem : M kmem unit := fun k =>
  if use_lock k then if locked k then Ret tt (set_locked false k) else Panic "release" else Ret tt k.

Section kalloc.
(** [end], the first address after the kernel. *)
Variable end_ : Z.

Definition kfree (v : Z) : M kmem unit :=
  panic_if (negb (v mod PGSIZE =? 0) || (v <? end_) || (PHYSTOP <=? V2P v)) "kfree" ;;;
  old <- gets (fun k => pages k !! v) ;;
  _ <- deref "unmapped page" old ;;
  modify (fun k => set_pages (<[v := replicate (Z.to_nat PGSIZE) 1]> (pages k)) k) ;;;
  lock_kmem ;;;
  head <- gets freelist ;;
  pg <- gets (fun k => pages k !! v) ;;
  bs <- deref "unmapped page" pg ;;
  modify (fun k => set_pages (<[v := put32 0 head bs]> (pages k)) k) ;;;
  modify (set_freelist v) ;;;
  unlock_kmem.

Definition kalloc : M kmem Z :=
  lock_kmem ;;;
  r <- gets freelist ;;
  (if r =? 0 then ret tt
   else
     pg <- gets (fun k => pages k !! r) ;;
     bs <- deref "unmapped page" pg ;;
     modify (set_freelist (get32 0 bs))) ;;;
  unlock_kmem ;;;
  ret r.

Fixpoint freerange_loop (fuel : nat) (p vend : Z) : M kmem unit :=
  match fuel with
  | O => fun _ => Timeout
  | S f => if p + PGSIZE <=? vend then kfree p ;;; freerange_loop f (p + PGSIZE) vend else ret tt
  end.
Definition freerange (vstart vend : Z) : M kmem unit :=
  freerange_loop (S (Z.to_nat (vend / PGSIZE))) (PGROUNDUP vstart) vend.

Definition kinit1 (vstart vend : Z) : M kmem unit :=
  modify (set_locked false) ;;;
  modify (set_use_lock false) ;;;
  freerange vstart vend.

Definition kinit2 (vstart vend : Z) : M kmem unit :=
  freerange vstart vend ;;;
  modify (set_use_lock true).

(** ** The free list *)

(** The pages linked from [head]. *)
Fixpoint chain (ps : gmap Z (list Z)) (head : Z) (l : list Z) : Prop :=
  match l with
  | [] => head = 0
  | a :: l' => head = a /\ exists bs, ps !! a = Some bs /\ chain ps (get32 0 bs) l'
  end.

Definition page_ok (a : Z) : Prop :=
  0 < a < 2 ^ 32 /\ a mod PGSIZE = 0 /\ end_ <= a /\ KERNBASE <= a /\ a < KERNBASE + PHYSTOP.

Record kmem_ok (k : kmem) (free : list Z) : Prop := {
  ok_unlocked : locked k = false;
  ok_chain : chain (pages k) (freelist k) free;
  ok_nodup : NoDup free;
  ok_pages : Forall page_ok free
}.

Lemma chain_insert ps head l v bs : v ∉ l -> chain ps head l -> chain (<[v := bs]> ps) head l.
Proof.
  revert head. induction l as [|a l IH]; intros head Hv; simpl; [done|].
  intros (-> & bs' & Ha & Hc). apply not_elem_of_cons in Hv as [Hne Hv].
  split; [done|]. exists bs'. rewrite lookup_insert_ne by done. split; [done|]. by apply IH.
Qed.

Lemma chain_head ps head l : chain ps head l -> Forall page_ok l -> 0 <= head < 2 ^ 32.
Proof. destruct l as [|a l]; simpl; [lia|]. intros [-> _] [Ha _]%Forall_cons_1. destruct Ha. lia. Qed.

(** Freeing a page that is not free pushes it; the page is filled with ones but for the
    link. *)
Lemma kfree_run k free v bs :
  kmem_ok k free -> page_ok v -> v ∉ free -> pages k !! v = Some bs ->
  exists k', kfree v k = Ret tt k' /\ kmem_ok k' (v :: free) /\ use_lock k' = use_lock k /\
    pages k' = <[v := put32 0 (freelist k) (replicate (Z.to_nat PGSIZE) 1)]> (pages k).
Proof.
  intros [Hl Hc Hn Hp] Hv Hf Hb. pose proof (chain_head _ _ _ Hc Hp) as Hh.
  pose proof Hv as (Hr & Hm & He & Hk & Ht). unfold kfree.
  assert (V2P v < PHYSTOP) as Hphys.
  { unfold V2P. rewrite u32_small; [lia|]. unfold KERNBASE, PHYSTOP in *. lia. }
  unfold bind at 1, panic_if.
  rewrite Hm, Z.eqb_refl, (proj2 (Z.ltb_ge _ _)), (proj2 (Z.leb_gt _ _)) by lia.
  cbn [negb orb ret bind gets deref modify]. unfold bind, gets, deref, modify, ret. rewrite Hb.
  set (k1 := set_pages _ k).
  assert (exists k2, lock_kmem k1 = Ret tt k2 /\ pages k2 = pages k1 /\ freelist k2 = freelist k /\
    use_lock k2 = use_lock k /\ forall r ps, exists k3, unlock_kmem (set_freelist r (set_pages ps k2)) = Ret tt k3 /\
      pages k3 = ps /\ freelist k3 = r /\ use_lock k3 = use_lock k /\ locked k3 = false)
    as (k2 & -> & Hp2 & Hf2 & Hu2 & Hun).
  { unfold lock_kmem, unlock_kmem. simpl. destruct (use_lock k) eqn:Eu; rewrite ?Hl.
    - eexists. split; [done|]. split_and!; try done. intros r ps. eexists. simpl. rewrite Eu. by split_and!.
    - eexists. split; [done|]. split_and!; try done. intros r ps. eexists. simpl. rewrite Eu. by split_and!. }
  rewrite Hp2. unfold k1 at 1. cbn [pages set_pages]. rewrite lookup_insert_eq.
  destruct (Hun v (<[v := put32 0 (freelist k2) (replicate (Z.to_nat PGSIZE) 1)]> (pages k2)))
    as (k3 & -> & Hp3 & Hf3 & Hu3 & Hl3).
  rewrite Hp2, Hf2 in Hp3. unfold k1 in Hp3. cbn [pages set_pages] in Hp3.
  rewrite insert_insert_eq in Hp3. exists k3. split; [done|]. split_and!; [|done|done].
  split; [done| |by constructor|by constructor].
  simpl. rewrite Hf3. split; [done|]. eexists. rewrite Hp3, lookup_insert_eq. split; [done|].
  rewrite get32_put32_same by (rewrite ?length_replicate; unfold PGSIZE; lia).
  rewrite u32_small by done. by apply chain_insert.
Qed.

(** Allocation pops the free list, or returns 0 when it is empty. *)
Lemma kalloc_run k free :
  kmem_ok k free ->
  exists k', kalloc k = Ret (match free with [] => 0 | a :: _ => a end) k' /\
    kmem_ok k' (tail free) /\ pages k' = pages k /\ use_lock k' = use_lock k.
Proof.
  intros [Hl Hc Hn Hp]. unfold kalloc, lock_kmem, unlock_kmem, bind, gets, deref, modify, ret.
  destruct free as [|a free]; simpl in Hc.
  - destruct (use_lock k) eqn:Eu; rewrite ?Hl; simpl; rewrite ?Hc, ?Eu; simpl; rewrite ?Eu.
    + eexists. split; [done|]. split_and!; try done; by split.
    + eexists. split; [done|]. split_and!; try done; by split.
  - destruct Hc as (Hh & bs & Hb & Hc). apply Forall_cons_1 in Hp as [Ha Hp].
    apply NoDup_cons in Hn as [Hna Hn]. assert ((a =? 0) = false) as Ha0 by (apply Z.eqb_neq; destruct Ha; lia).
    destruct (use_lock k) eqn:Eu; rewrite ?Hl; simpl; rewrite Hh, Ha0; simpl; rewrite Hb; simpl; rewrite Eu.
    + eexists. split; [done|]. split_and!; try done; by split.
    + eexists. split; [done|]. split_and!; try done; by split.
Qed.

(** The [n] pages from [p] on, the last one first. *)
Fixpoint page_run (n : nat) (p : Z) : list Z :=
  match n with
  | O => []
  | S n' => page_run n' (p + PGSIZE) ++ [p]
  end.

Lemma page_run_bound n p a : a ∈ page_run n p -> p <= a.
Proof.
  revert p. induction n as [|n IH]; intros p; simpl; [by intros ?%elem_of_nil|].
  rewrite elem_of_app, list_elem_of_singleton. intros [H| ->]; [|lia].
  apply IH in H. unfold PGSIZE in H. lia.
Qed.

Lemma freerange_loop_run n : forall fuel p vend k free,
  (n < fuel)%nat -> kmem_ok k free ->
  p + PGSIZE * Z.of_nat n <= vend < p + PGSIZE * (Z.of_nat n + 1) ->
  Forall page_ok (page_run n p) ->
  (forall a, a ∈ page_run n p -> (a ∉ free) /\ is_Some (pages k !! a)) ->
  exists k', freerange_loop fuel p vend k = Ret tt k' /\ kmem_ok k' (page_run n p ++ free) /\
    use_lock k' = use_lock k /\ dom (pages k') = dom (pages k).
Proof.
  induction n as [|n IH]; intros fuel p vend k free Hf Hk Hr Hok Hin;
    (destruct fuel as [|fuel]; [lia|]); simpl.
  - rewrite (proj2 (Z.leb_gt _ _)) by lia. by exists k.
  - rewrite (proj2 (Z.leb_le _ _)) by (unfold PGSIZE in *; lia).
    simpl in Hok. apply Forall_app in Hok as [Hok [Hp _]%Forall_cons_1].
    destruct (Hin p) as [Hpf [bs Hb]]; [apply elem_of_app; right; left|].
    destruct (kfree_run k free p bs Hk Hp Hpf Hb) as (k1 & E & Hk1 & Hu1 & Hp1).
    unfold bind. rewrite E.
    destruct (IH fuel (p + PGSIZE) vend k1 (p :: free)) as (k2 & -> & Hk2 & Hu2 & Hd2); [lia|done|lia|done| |].
    + intros a Ha. pose proof (page_run_bound _ _ _ Ha) as Hlt. unfold PGSIZE in Hlt.
      destruct (Hin a) as [Haf [bs' Hb']]; [by apply elem_of_app; left|]. split.
      * apply not_elem_of_cons. split; [lia|done].
      * rewrite Hp1, lookup_insert_ne by lia. by eexists.
    + exists k2. split; [done|]. rewrite <-app_assoc. split; [done|]. split; [congruence|].
      rewrite Hd2, Hp1, dom_insert_L. apply elem_of_dom_2 in Hb. by apply subseteq_union_1_L, singleton_subseteq_l.
Qed.

(** ** Clients of the allocator *)

(** A client allocates a page, frees a page it holds, or writes to a page it holds. *)
Inductive client_step : kmem * gset Z -> kmem * gset Z -> Prop :=
| client_alloc k k' held a :
    kalloc k = Ret a k' -> client_step (k, held) (k', if decide (a = 0) then held else {[a]} ∪ held)
| client_free k k' held v :
    v ∈ held -> kfree v k = Ret tt k' -> client_step (k, held) (k', held ∖ {[v]})
| client_write k held v bs :
    v ∈ held -> length bs = Z.to_nat PGSIZE ->
    client_step (k, held) (set_pages (<[v := bs]> (pages k)) k, held).

(** Free and held pages are disjoint and together are the pages [all]. *)
Definition shared_ok (all : gset Z) (st : kmem * gset Z) : Prop :=
  exists free, kmem_ok st.1 free /\ st.2 ## list_to_set free /\
    st.2 ∪ list_to_set free = all /\ (forall a, a ∈ all -> page_ok a /\ is_Some (pages st.1 !! a)).

Lemma client_step_ok all st st' : shared_ok all st -> client_step st st' -> shared_ok all st'.
Proof.
  intros (free & Hk & Hd & Hu & Ha) Hst.
  destruct Hst as [k k' held a E|k k' held v Hv E|k held v bs Hv Hl]; simpl in *.
  - destruct (kalloc_run k free Hk) as (k1 & E' & Hk1 & Hp1 & _). rewrite E in E'. injection E' as -> <-.
    exists (tail free). simpl. rewrite Hp1. destruct free as [|b free]; simpl in *; [done|].
    destruct Hk as [_ _ [Hnb _]%NoDup_cons [[Hb _] _]%Forall_cons_1].
    rewrite decide_False by lia. clear -Hk1 Hd Hu Hnb Ha.
    split_and!; [done|clear -Hd Hnb; set_solver|clear -Hu; set_solver|done].
  - destruct (Ha v) as [Hpv [bs Hb]]; [clear -Hv Hu; set_solver|].
    destruct (kfree_run k free v bs Hk Hpv) as (k1 & E' & Hk1 & _ & Hp1); [clear -Hv Hd; set_solver|done|].
    rewrite E in E'. injection E' as <-. exists (v :: free). simpl. split_and!; [done|clear -Hd; set_solver| |].
    + rewrite <-Hu. clear -Hv. apply set_eq. intros x. destruct (decide (x = v)); set_solver.
    + intros a Hin. destruct (Ha a Hin) as [? [bs' ?]]. split; [done|]. rewrite Hp1.
      destruct (decide (v = a)) as [->|]; [rewrite lookup_insert_eq|rewrite lookup_insert_ne by done]; by eexists.
  - exists free. destruct Hk as [H1 H2 H3 H4]. split_and!; [|done|done|].
    + split; [done|simpl|done|done]. apply chain_insert; [clear -Hv Hd; set_solver|done].
    + intros a Hin. destruct (Ha a Hin) as [? [bs' ?]]. split; [done|]. simpl.
      destruct (decide (v = a)) as [->|]; [rewrite lookup_insert_eq|rewrite lookup_insert_ne by done]; by eexists.
Qed.

(** C19: no page is ever handed out twice: however clients allocate, free what they hold and
    write into what they hold, starting from an allocator whose free list is in order, the
    next [kalloc] returns a page of the memory that no client holds (or 0, exactly when
    every page is held), and freeing a held page succeeds. *)
Theorem kalloc_hands_out_once all k0 free0 k held :
  kmem_ok k0 free0 -> list_to_set free0 = all ->
  (forall a, a ∈ all -> page_ok a /\ is_Some (pages k0 !! a)) ->
  rtc client_step (k0, ∅) (k, held) ->
  (exists a k', kalloc k = Ret a k' /\
     (a = 0 /\ held = all \/ a ∈ all /\ (a ∉ held))) /\
  (forall v, v ∈ held -> exists k', kfree v k = Ret tt k').
Proof.
  intros Hk0 Hall Hp0 Hr.
  assert (shared_ok all (k, held)) as (free & Hk & Hd & Hu & Ha).
  { assert (shared_ok all (k0, ∅)) as H0 by (exists free0; simpl; split_and!; [done|set_solver..|done]).
    revert H0. generalize (k0, ∅ : gset Z), (k, held), Hr. intros st st' Hst.
    induction Hst; [done|]. eauto using client_step_ok. }
  simpl in *. split.
  - destruct (kalloc_run k free Hk) as (k' & E & _). eexists _, _. split; [exact E|].
    clear -Hd Hu. destruct free as [|b free]; [left; set_solver|right; set_solver].
  - intros v Hv. destruct (Ha v) as [Hpv [bs Hb]]; [clear -Hv Hu; set_solver|].
    destruct (kfree_run k free v bs Hk Hpv) as (k' & E & _); [clear -Hv Hd; set_solver|done|]. by eexists.
Qed.
End kalloc.

(** Four pages, freed by [kinit1] and [kinit2]. *)
Definition demo_pages : gmap Z (list Z) :=
  list_to_map (map (fun a => (a, [])) [0x80100000; 0x80101000; 0x80102000; 0x80103000]).
Definition demo_kmem : kmem :=
  match (kinit1 0x80100000 0x800ffff8 0x80102000 ;;; kinit2 0x80100000 0x80102000 0x80104000)
          (mk_kmem true false 0 demo_pages) with
  | Ret _ k => k
  | _ => mk_kmem true false 0 demo_pages
  end.
Definition demo_free : list Z := [0x80103000; 0x80102000; 0x80101000; 0x80100000].

Lemma demo_kmem_ok : kmem_ok 0x80100000 demo_kmem demo_free.
Proof.
  split.
  - reflexivity.
  - vm_compute. repeat (split; [reflexivity|]; eexists; split; [reflexivity|]). reflexivity.
  - unfold demo_free. repeat constructor; set_solver by lia.
  - repeat constructor; vm_compute; congruence.
Qed.

Lemma kalloc_hands_out_once_witness :
  exists a k', kalloc demo_kmem = Ret a k' /\ (a = 0 /\ ∅ = (list_to_set demo_free : gset Z) \/
    a ∈ (list_to_set demo_free : gset Z) /\ (a ∉ (∅ : gset Z))).
Proof.
  destruct (kalloc_hands_out_once 0x80100000 (list_to_set demo_free) demo_kmem demo_free demo_kmem ∅)
    as [H _].
  - exact demo_kmem_ok.
  - reflexivity.
  - intros a Ha. split.
    + destruct demo_kmem_ok as [_ _ _ Hp]. rewrite Forall_forall in Hp. apply Hp. set_solver.
    + apply elem_of_list_to_set in Ha. unfold demo_free in Ha.
      repeat (apply elem_of_cons in Ha as [->|Ha]; [vm_compute; eexists; reflexivity|]).
      by apply elem_of_nil in Ha.
  - constructor.
  - exact H.
Defined.
