(* ===== verification/Vm.v ===== *)
(** * Virtual memory (src/p5/xv6-public/vm.c)

    Two-level page tables in pages of the allocator of [Kalloc]: a page directory and its
    page tables are ordinary pages, read and written one word at a time at kernel
    addresses.  The state is the allocator's; every operation allocates and frees through
    it.  Loops carry the exact number of their rounds as fuel. *)

From S2P Require Import Prelude Bytes Kalloc.

Definition PTE_P : Z := 1.
Definition PTE_W : Z := 2.
Definition PTE_U : Z := 4.
Definition NPDENTRIES : nat := 1024.
Arguments NPDENTRIES : simpl never.
Definition EXTMEM : Z := 0x100000.
Definition DEVSPACE : Z := 0xFE000000.
Definition KERNLINK : Z := KERNBASE + EXTMEM.

Definition PDX (va : Z) : Z := Z.land (Z.shiftr va 22) 0x3FF.
Definition PTX (va : Z) : Z := Z.land (Z.shiftr va 12) 0x3FF.
(** [PGADDR(d, t, o)] *)
Definition PGADDR (d t o : Z) : Z := u32 (Z.lor (Z.lor (Z.shiftl d 22) (Z.shiftl t 12)) o).
Definition PTE_ADDR (pte : Z) : Z := Z.land pte (Z.lnot 0xFFF).
Definition PTE_FLAGS (pte : Z) : Z := Z.land pte 0xFFF.
Definition P2V (a : Z) : Z := u32 (a + KERNBASE).
Definition PGROUNDDOWN (a : Z) : Z := Z.land a (Z.lnot (PGSIZE - 1)).
Definition present (pte : Z) : bool := negb (Z.land pte PTE_P =? 0).

(** ** Words and pages at kernel addresses *)

Definition page_base (a : Z) : Z := a - a mod PGSIZE.

Definition rdw (a : Z) : M kmem Z :=
  pg <- gets (fun k => pages k !! page_base a) ;;
  bs <- deref "unmapped address" pg ;;
  ret (get32 (a mod PGSIZE) bs).

Definition wrw (a v : Z) : M kmem unit :=
  pg <- gets (fun k => pages k !! page_base a) ;;
  bs <- deref "unmapped address" pg ;;
  modify (fun k => set_pages (<[page_base a := put32 (a mod PGSIZE) v bs]> (pages k)) k).

Definition get_page (a : Z) : M kmem (list Z) :=
  pg <- gets (fun k => pages k !! a) ;; deref "unmapped page" pg.
Definition put_page (a : Z) (bs : list Z) : M kmem unit :=
  get_page a ;;; modify (fun k => set_pages (<[a := bs]> (pages k)) k).
(** [memset(p, 0, PGSIZE)] of a whole page. *)
Definition zero_page : list Z := replicate (Z.to_nat PGSIZE) 0.
Definition clear_page (a : Z) : M kmem unit := put_page a zero_page.

Section vm.
(** [end] and [data] of the kernel image. *)
Context (end_ data_ : Z).

(** The address of the page table entry, 0 for NULL. *)
Definition walkpgdir (pgdir va : Z) (alloc : bool) : M kmem Z :=
  let pde := pgdir + 4 * PDX va in
  e <- rdw pde ;;
  if present e then ret (P2V (PTE_ADDR e) + 4 * PTX va)
  else if negb alloc then ret 0
  else
    pgtab <- kalloc ;;
    if pgtab =? 0 then ret 0
    else
      clear_page pgtab ;;;
      wrw pde (Z.lor (Z.lor (Z.lor (V2P pgtab) PTE_P) PTE_W) PTE_U) ;;;
      ret (pgtab + 4 * PTX va).

Fixpoint map_loop (rounds : nat) (pgdir a pa perm : Z) : M kmem Z :=
  match rounds with
  | O => ret 0
  | S n =>
      pte <- walkpgdir pgdir a true ;;
      if pte =? 0 then ret (-1)
      else
        e <- rdw pte ;;
        panic_if (present e) "remap" ;;;
        wrw pte (Z.lor (Z.lor pa perm) PTE_P) ;;;
        map_loop n pgdir (u32 (a + PGSIZE)) (u32 (pa + PGSIZE)) perm
  end.

(** The loop ends after the round with [a == last]. *)
Definition mappages (pgdir va size pa perm : Z) : M kmem Z :=
  let a := PGROUNDDOWN va in
  let last := PGROUNDDOWN (u32 (va + size - 1)) in
  map_loop (S (Z.to_nat (u32 (last - a) / PGSIZE))) pgdir a pa perm.

Fixpoint dealloc_loop (fuel : nat) (pgdir a oldsz : Z) : M kmem unit :=
  match fuel with
  | O => fun _ => Timeout
  | S f =>
      if a <? oldsz then
        pte <- walkpgdir pgdir a false ;;
        if pte =? 0 then dealloc_loop f pgdir (u32 (PGADDR (PDX a + 1) 0 0 - PGSIZE + PGSIZE)) oldsz
        else
          e <- rdw pte ;;
          (if present e then
             panic_if (PTE_ADDR e =? 0) "kfree" ;;;
             kfree end_ (P2V (PTE_ADDR e)) ;;;
             wrw pte 0
           else ret tt) ;;;
          dealloc_loop f pgdir (u32 (a + PGSIZE)) oldsz
      else ret tt
  end.

Definition deallocuvm (pgdir oldsz newsz : Z) : M kmem Z :=
  if oldsz <=? newsz then ret oldsz
  else
    dealloc_loop (S (S (Z.to_nat (oldsz / PGSIZE)))) pgdir (PGROUNDUP newsz) oldsz ;;;
    ret newsz.

Fixpoint alloc_loop (fuel : nat) (pgdir a oldsz newsz : Z) : M kmem Z :=
  match fuel with
  | O => fun _ => Timeout
  | S f =>
      if a <? newsz then
        mem <- kalloc ;;
        if mem =? 0 then
          deallocuvm pgdir newsz oldsz ;;; ret 0
        else
          clear_page mem ;;;
          r <- mappages pgdir a PGSIZE (V2P mem) (Z.lor PTE_W PTE_U) ;;
          if r <? 0 then
            deallocuvm pgdir newsz oldsz ;;;
            kfree end_ mem ;;;
            ret 0
          else alloc_loop f pgdir (u32 (a + PGSIZE)) oldsz newsz
      else ret newsz
  end.

Definition allocuvm (pgdir oldsz newsz : Z) : M kmem Z :=
  if KERNBASE <=? newsz then ret 0
  else if newsz <? oldsz then ret oldsz
  else alloc_loop (S (S (Z.to_nat (newsz / PGSIZE)))) pgdir (PGROUNDUP oldsz) oldsz newsz.

Fixpoint free_tables (n : nat) (pgdir i : Z) : M kmem unit :=
  match n with
  | O => ret tt
  | S n' =>
      e <- rdw (pgdir + 4 * i) ;;
      (if present e then kfree end_ (P2V (PTE_ADDR e)) else ret tt) ;;;
      free_tables n' pgdir (i + 1)
  end.

Definition freevm (pgdir : Z) : M kmem unit :=
  panic_if (pgdir =? 0) "freevm: no pgdir" ;;;
  deallocuvm pgdir KERNBASE 0 ;;;
  free_tables NPDENTRIES pgdir 0 ;;;
  kfree end_ pgdir.

(** [struct kmap]: virtual address, physical start and end, permissions. *)
Record kmap := mk_kmap { virt : Z; phys_start : Z; phys_end : Z; perm : Z }.
Definition kmaps : list kmap :=
  [mk_kmap KERNBASE 0 EXTMEM PTE_W;
   mk_kmap KERNLINK (V2P KERNLINK) (V2P data_) 0;
   mk_kmap data_ (V2P data_) PHYSTOP PTE_W;
   mk_kmap DEVSPACE DEVSPACE 0 PTE_W].

Fixpoint map_kernel (ks : list kmap) (pgdir : Z) : M kmem Z :=
  match ks with
  | [] => ret pgdir
  | k :: ks' =>
      r <- mappages pgdir (virt k) (u32 (phys_end k - phys_start k)) (phys_start k) (perm k) ;;
      if r <? 0 then freevm pgdir ;;; ret 0 else map_kernel ks' pgdir
  end.

Definition setupkvm : M kmem Z :=
  pgdir <- kalloc ;;
  if pgdir =? 0 then ret 0
  else
    clear_page pgdir ;;;
    panic_if (DEVSPACE <? P2V PHYSTOP) "PHYSTOP too high" ;;;
    map_kernel kmaps pgdir.

Definition inituvm (pgdir : Z) (init : list Z) : M kmem unit :=
  panic_if (PGSIZE <=? Z.of_nat (length init)) "inituvm: more than a page" ;;;
  mem <- kalloc ;;
  clear_page mem ;;;
  mappages pgdir 0 PGSIZE (V2P mem) (Z.lor PTE_W PTE_U) ;;;
  bs <- get_page mem ;;
  put_page mem (splice 0 init bs).

Definition clearpteu (pgdir uva : Z) : M kmem unit :=
  pte <- walkpgdir pgdir uva false ;;
  panic_if (pte =? 0) "clearpteu" ;;;
  e <- rdw pte ;;
  wrw pte (Z.land e (Z.lnot PTE_U)).

Fixpoint copy_loop (fuel : nat) (pgdir d i sz : Z) : M kmem Z :=
  match fuel with
  | O => fun _ => Timeout
  | S f =>
      if i <? sz then
        pte <- walkpgdir pgdir i false ;;
        panic_if (pte =? 0) "copyuvm: pte should exist" ;;;
        e <- rdw pte ;;
        panic_if (negb (present e)) "copyuvm: page not present" ;;;
        mem <- kalloc ;;
        if mem =? 0 then freevm d ;;; ret 0
        else
          bs <- get_page (P2V (PTE_ADDR e)) ;;
          put_page mem bs ;;;
          r <- mappages d i PGSIZE (V2P mem) (PTE_FLAGS e) ;;
          if r <? 0 then kfree end_ mem ;;; freevm d ;;; ret 0
          else copy_loop f pgdir d (u32 (i + PGSIZE)) sz
      else ret d
  end.

Definition copyuvm (pgdir sz : Z) : M kmem Z :=
  d <- setupkvm ;;
  if d =? 0 then ret 0 else copy_loop (S (S (Z.to_nat (sz / PGSIZE)))) pgdir d 0 sz.

(** 0 for NULL; a missing page table is dereferenced. *)
Definition uva2ka (pgdir uva : Z) : M kmem Z :=
  pte <- walkpgdir pgdir uva false ;;
  if pte =? 0 then undef "uva2ka: *pte of NULL"
  else
    e <- rdw pte ;;
    if negb (present e) then ret 0
    else if Z.land e PTE_U =? 0 then ret 0
    else ret (P2V (PTE_ADDR e)).

(** The caller's state holds the memory; [readi] reads the program's file into the page at
    an address. *)
Section load.
Context {S : Type} (on_vm : forall A, M kmem A -> M S A) (readi : Z -> Z -> Z -> M S Z).

Fixpoint load_loop (fuel : nat) (pgdir addr offset i sz : Z) : M S Z :=
  match fuel with
  | O => fun _ => Timeout
  | Datatypes.S f =>
      if i <? sz then
        pte <- on_vm _ (walkpgdir pgdir (u32 (addr + i)) false) ;;
        panic_if (pte =? 0) "loaduvm: address should exist" ;;;
        e <- on_vm _ (rdw pte) ;;
        let pa := PTE_ADDR e in
        let n := if sz - i <? PGSIZE then sz - i else PGSIZE in
        r <- readi (P2V pa) (u32 (offset + i)) n ;;
        if negb (r =? n) then ret (-1)
        else load_loop f pgdir addr offset (u32 (i + PGSIZE)) sz
      else ret 0
  end.

Definition loaduvm (pgdir addr offset sz : Z) : M S Z :=
  panic_if (negb (addr mod PGSIZE =? 0)) "loaduvm: addr must be page aligned" ;;;
  load_loop (Datatypes.S (Datatypes.S (Z.to_nat (sz / PGSIZE)))) pgdir addr offset 0 sz.
End load.

Fixpoint copyout_loop (fuel : nat) (pgdir va : Z) (buf : list Z) : M kmem Z :=
  match fuel with
  | O => fun _ => Timeout
  | S f =>
      match buf with
      | [] => ret 0
      | _ =>
          let va0 := PGROUNDDOWN va in
          pa0 <- uva2ka pgdir va0 ;;
          if pa0 =? 0 then ret (-1)
          else
            let n := Z.min (PGSIZE - (va - va0)) (Z.of_nat (length buf)) in
            bs <- get_page pa0 ;;
            put_page pa0 (splice (Z.to_nat (va - va0)) (take (Z.to_nat n) buf) bs) ;;;
            copyout_loop f pgdir (u32 (va0 + PGSIZE)) (drop (Z.to_nat n) buf)
      end
  end.

Definition copyout (pgdir va : Z) (p : list Z) : M kmem Z :=
  copyout_loop (S (length p)) pgdir va p.
End vm.
