(* ===== verification/VmProofs.v ===== *)
(** * Correctness of the page tables of [Vm]

    An address space is a page directory [pgdir], the page tables [T] (by directory
    index) and the user pages [U] (by page number).  Its entries are a function of the page
    number; the pages it owns and the free pages have no page in common, and every
    operation keeps that partition: no page is lost and none is shared. *)

From S2P Require Import Prelude Bytes Kalloc Vm.

(** ** Arithmetic of page table entries *)

Lemma land_ones_mod x n m : 0 <= n -> m = 2 ^ n - 1 -> Z.land x m = x mod 2 ^ n.
Proof. intros Hn ->. rewrite <-Z.land_ones by done. by rewrite Z.ones_equiv, Z.sub_1_r. Qed.

Lemma land_lnot_ones x n m : 0 <= n -> m = 2 ^ n - 1 -> Z.land x (Z.lnot m) = x - x mod 2 ^ n.
Proof.
  intros Hn ->. rewrite <-Z.ldiff_land, Z.sub_1_r, <-Z.ones_equiv, Z.ldiff_ones_r by done.
  rewrite Z.shiftl_mul_pow2, Z.shiftr_div_pow2 by done.
  pose proof (Z.div_mod x (2 ^ n)). lia.
Qed.

Lemma PDX_div va : 0 <= va < 2 ^ 32 -> PDX va = va / 2 ^ 22.
Proof.
  intros. unfold PDX. rewrite (land_ones_mod _ 10), Z.shiftr_div_pow2 by lia.
  apply Z.mod_small. split; [apply Z.div_pos; lia|apply Z.div_lt_upper_bound; lia].
Qed.

Lemma PTX_div va : PTX va = va / 2 ^ 12 mod 1024.
Proof. unfold PTX. by rewrite (land_ones_mod _ 10), Z.shiftr_div_pow2 by lia. Qed.

Lemma rounddown_eq a : PGROUNDDOWN a = a - a mod 4096.
Proof. unfold PGROUNDDOWN. by apply (land_lnot_ones _ 12). Qed.

Lemma roundup_eq a : 0 <= a -> a + 4095 < 2 ^ 32 -> PGROUNDUP a = 4096 * ((a + 4095) / 4096).
Proof.
  intros. unfold PGROUNDUP. rewrite (land_lnot_ones _ 12) by done. unfold PGSIZE.
  rewrite u32_small by lia. replace (a + 4096 - 1) with (a + 4095) by lia.
  pose proof (Z.div_mod (a + 4095) 4096). change (2 ^ 12) with 4096. lia.
Qed.

(** A page address with flags below it. *)
Lemma lor_flags a f : a mod 4096 = 0 -> 0 <= f < 4096 -> Z.lor a f = a + f.
Proof.
  intros Ha Hf. assert (Z.land a f = 0) as H.
  { apply Z.bits_inj'. intros i Hi. rewrite Z.land_spec, Z.bits_0.
    destruct (Z.lt_ge_cases i 12).
    - rewrite <-(Z.mod_pow2_bits_low a 12) by lia. change (2 ^ 12) with 4096. by rewrite Ha, Z.bits_0.
    - rewrite <-(Z.mod_small f (2 ^ 12)) by done.
      rewrite (Z.mod_pow2_bits_high f 12) by lia. by rewrite andb_false_r. }
  pose proof (Z.add_nocarry_lxor _ _ H). rewrite Z.lxor_lor in H0; done.
Qed.

Lemma PTE_ADDR_flags a f : a mod 4096 = 0 -> 0 <= f < 4096 -> PTE_ADDR (a + f) = a.
Proof.
  intros Ha Hf. unfold PTE_ADDR. rewrite (land_lnot_ones _ 12) by done. change (2 ^ 12) with 4096.
  rewrite Z.add_mod, Ha, Z.add_0_l, Z.mod_mod, Z.mod_small by lia. lia.
Qed.

Lemma PTE_FLAGS_flags a f : a mod 4096 = 0 -> 0 <= f < 4096 -> PTE_FLAGS (a + f) = f.
Proof.
  intros Ha Hf. unfold PTE_FLAGS. rewrite (land_ones_mod _ 12) by done. change (2 ^ 12) with 4096.
  rewrite Z.add_mod, Ha, Z.add_0_l, Z.mod_mod, Z.mod_small by lia. done.
Qed.

Lemma present_odd e : present e = Z.odd e.
Proof.
  unfold present, PTE_P. rewrite (land_ones_mod _ 1) by done. change (2 ^ 1) with 2.
  rewrite Zmod_odd. by destruct (Z.odd e).
Qed.

(** A physical page address. *)
Lemma V2P_page end_ a : page_ok end_ a -> V2P a = a - KERNBASE /\ 0 <= V2P a < PHYSTOP /\ V2P a mod 4096 = 0 /\ P2V (V2P a) = a.
Proof.
  intros (Hr & Hm & _ & Hk & Ht). assert (V2P a = a - KERNBASE) as E.
  { unfold V2P. rewrite u32_small; [done|]. unfold KERNBASE, PHYSTOP in *. lia. }
  rewrite E. split_and!; [done|lia|lia| |].
  - rewrite Zminus_mod. unfold PGSIZE in Hm. by rewrite Hm.
  - unfold P2V. replace (a - KERNBASE + KERNBASE) with a by lia. apply u32_small. lia.
Qed.

(** ** Address spaces *)

(** Word [i] of the page at [t]. *)
Definition entry (k : kmem) (t i : Z) : Z :=
  match pages k !! t with Some bs => get32 (4 * i) bs | None => 0 end.
(** A mapped page of full size. *)
Definition full (k : kmem) (a : Z) : Prop := exists bs, pages k !! a = Some bs /\ length bs = 4096%nat.
Definition vals (T : gmap Z Z) : list Z := (map_to_list T).*2.
(** Pages outside [l] are untouched. *)
Definition frame (l : list Z) (k k' : kmem) : Prop :=
  forall a, a ∉ l -> pages k' !! a = pages k !! a.
Definition upd (m : Z -> Z) (n v : Z) : Z -> Z := fun n' => if decide (n' = n) then v else m n'.

Lemma frame_refl l k : frame l k k.
Proof. done. Qed.

Lemma frame_trans l l' k k' k'' : frame l k k' -> frame l' k' k'' -> l' ⊆ l -> frame l k k''.
Proof. intros H1 H2 Hl a Ha. rewrite H2 by (clear -Ha Hl; set_solver). by apply H1. Qed.

Lemma frame_mono l l' k k' : frame l k k' -> l ⊆ l' -> frame l' k k'.
Proof. intros H1 Hl a Ha. apply H1. clear -Ha Hl. set_solver. Qed.

Lemma elem_of_vals T a : a ∈ vals T <-> exists i, T !! i = Some a.
Proof.
  unfold vals. rewrite list_elem_of_fmap. split.
  - intros ([i t] & -> & H%elem_of_map_to_list). by exists i.
  - intros [i H]. exists (i, a). split; [done|]. by apply elem_of_map_to_list.
Qed.

Lemma vals_insert T i t : T !! i = None -> vals (<[i := t]> T) ≡ₚ t :: vals T.
Proof. intros. unfold vals. rewrite map_to_list_insert by done. done. Qed.

Lemma vals_delete T i t : T !! i = Some t -> vals T ≡ₚ t :: vals (delete i T).
Proof. intros H. rewrite <-(vals_insert _ i) by apply lookup_delete_eq. by rewrite insert_delete_id. Qed.

Lemma NoDup_perm (l l' : list Z) : l ≡ₚ l' -> NoDup l -> NoDup l'.
Proof. by intros ->. Qed.

(** Distinct indices have distinct pages. *)
Lemma vals_inj T i j t l : NoDup (vals T ++ l) -> T !! i = Some t -> T !! j = Some t -> i = j.
Proof.
  intros [Hn _]%NoDup_app Hi Hj. destruct (decide (i = j)) as [|Hne]; [done|exfalso].
  rewrite (vals_delete T i t Hi) in Hn. apply NoDup_cons in Hn as [Hn _]. apply Hn.
  apply elem_of_vals. exists j. by rewrite lookup_delete_ne.
Qed.

Section proofs.
Context {end_ : Z}.

Record vm_ok (k : kmem) (free : list Z) (pgdir : Z) (T : gmap Z Z) (m : Z -> Z) : Prop := {
  vm_kmem : kmem_ok end_ k free;
  vm_own : NoDup (pgdir :: vals T ++ free);
  vm_pages : Forall (fun a => page_ok end_ a /\ full k a) (pgdir :: vals T);
  vm_dir : forall i, 0 <= i < 1024 ->
    match T !! i with
    | Some t => entry k pgdir i = V2P t + 7
    | None => present (entry k pgdir i) = false
    end;
  vm_idx : forall i t, T !! i = Some t -> 0 <= i < 1024;
  vm_ent : forall n, 0 <= n < 2 ^ 20 ->
    m n = match T !! (n / 1024) with Some t => entry k t (n mod 1024) | None => 0 end
}.

Lemma page_arith t i : t mod 4096 = 0 -> 0 <= i < 1024 -> page_base (t + 4 * i) = t /\ (t + 4 * i) mod PGSIZE = 4 * i.
Proof.
  intros Ht Hi. assert ((t + 4 * i) mod PGSIZE = 4 * i) as E.
  { unfold PGSIZE. rewrite Z.add_mod, Ht, Z.add_0_l, Z.mod_mod, Z.mod_small by lia. done. }
  split; [|done]. unfold page_base. rewrite E. lia.
Qed.

Lemma rdw_entry k t i : t mod 4096 = 0 -> 0 <= i < 1024 -> full k t ->
  rdw (t + 4 * i) k = Ret (entry k t i) k.
Proof.
  intros Ht Hi (bs & Hb & _). destruct (page_arith t i Ht Hi) as [E1 E2].
  unfold rdw, entry, bind, gets. by rewrite E1, E2, Hb.
Qed.

Lemma wrw_entry k t i v bs : t mod 4096 = 0 -> 0 <= i < 1024 -> pages k !! t = Some bs ->
  wrw (t + 4 * i) v k = Ret tt (set_pages (<[t := put32 (4 * i) v bs]> (pages k)) k).
Proof.
  intros Ht Hi Hb. destruct (page_arith t i Ht Hi) as [E1 E2].
  unfold wrw, bind, gets. by rewrite E1, E2, Hb.
Qed.

Lemma kmem_ok_write k free v bs : kmem_ok end_ k free -> v ∉ free ->
  kmem_ok end_ (set_pages (<[v := bs]> (pages k)) k) free.
Proof. intros [? ? ? ?] Hv. split; [done|simpl; by apply chain_insert|done|done]. Qed.

(** What the invariant says of a page depends on that page only. *)
Lemma entry_same k k' t i : pages k' !! t = pages k !! t -> entry k' t i = entry k t i.
Proof. unfold entry. by intros ->. Qed.

Lemma full_same k k' t : pages k' !! t = pages k !! t -> full k t -> full k' t.
Proof. unfold full. by intros ->. Qed.

Lemma entry_put k t i j v bs : 0 <= i < 1024 -> 0 <= j < 1024 -> length bs = 4096%nat ->
  entry (set_pages (<[t := put32 (4 * i) v bs]> (pages k)) k) t j =
    if decide (j = i) then u32 v else get32 (4 * j) bs.
Proof.
  intros. unfold entry. simpl. rewrite lookup_insert_eq. case_decide as E.
  - subst. rewrite get32_put32_same by lia. done.
  - rewrite get32_put32_other by lia. done.
Qed.

Lemma vm_table k free pgdir T m i t : vm_ok k free pgdir T m -> T !! i = Some t ->
  page_ok end_ t /\ full k t /\ t mod 4096 = 0 /\ t <> 0 /\ t <> pgdir /\ (t ∉ free).
Proof.
  intros [_ Hn Hp _ _ _] Ht. assert (t ∈ vals T) as Hin by (apply elem_of_vals; by exists i).
  apply Forall_cons_1 in Hp as [_ Hp]. rewrite Forall_forall in Hp. destruct (Hp t Hin) as [H1 H2].
  split_and!; [done|done|apply H1|destruct H1; lia| |].
  - apply NoDup_cons in Hn as [Hn _]. clear -Hn Hin. set_solver.
  - apply NoDup_cons in Hn as [_ [_ [Hn _]]%NoDup_app]. by apply Hn.
Qed.

Lemma vm_root k free pgdir T m : vm_ok k free pgdir T m ->
  page_ok end_ pgdir /\ full k pgdir /\ pgdir mod 4096 = 0 /\ (pgdir ∉ free).
Proof.
  intros [_ Hn Hp _ _ _]. apply Forall_cons_1 in Hp as [[H1 H2] _].
  split_and!; [done|done|apply H1|]. apply NoDup_cons in Hn as [Hn _]. clear -Hn. set_solver.
Qed.

(** Changes to pages that the tables do not use keep the tables. *)
Lemma vm_frame k k' free free' pgdir T m : vm_ok k free pgdir T m -> kmem_ok end_ k' free' ->
  NoDup (pgdir :: vals T ++ free') -> (forall a, a ∈ pgdir :: vals T -> pages k' !! a = pages k !! a) ->
  vm_ok k' free' pgdir T m.
Proof.
  intros [Hk Hn Hp Hd Hi He] Hk' Hn' Hf. split; [done|done| | |done|].
  - rewrite Forall_forall in Hp |- *. intros a Ha. destruct (Hp a Ha).
    split; [done|]. eapply full_same; [by apply Hf|done].
  - intros i Hr. rewrite (entry_same k k') by (apply Hf; left). by apply Hd.
  - intros n Hr. rewrite He by done. destruct (T !! (n / 1024)) as [t|] eqn:E; [|done].
    symmetry. apply entry_same, Hf. right. apply elem_of_vals. by eexists.
Qed.

(** Storing a page table entry changes that entry. *)
Lemma vm_store k free pgdir T m n t v : vm_ok k free pgdir T m -> 0 <= n < 2 ^ 20 ->
  T !! (n / 1024) = Some t ->
  exists k', wrw (t + 4 * (n mod 1024)) v k = Ret tt k' /\
    vm_ok k' free pgdir T (upd m n (u32 v)) /\ frame (vals T) k k'.
Proof.
  intros Hv Hn Ht. destruct (vm_table _ _ _ _ _ _ _ Hv Ht) as (Hpt & (bs & Hb & Hl) & Hm & _ & Hne & Hnf).
  pose proof (Z.mod_pos_bound n 1024 ltac:(lia)) as Hi.
  eexists. split; [by apply wrw_entry|]. destruct Hv as [Hk Hnd Hp Hd Hidx He]. split.
  - split; [by apply kmem_ok_write|done| | |done|].
    + eapply Forall_impl; [exact Hp|]. intros a [Ha (bs' & Hb' & Hl')]. split; [done|].
      unfold full. simpl. destruct (decide (t = a)) as [<-|]; [rewrite lookup_insert_eq|rewrite lookup_insert_ne by done; by eauto].
      eexists. split; [done|]. rewrite length_put32 by lia. done.
    + intros i Hr. rewrite (entry_same k) by (simpl; by rewrite lookup_insert_ne). by apply Hd.
    + intros n' Hn'. unfold upd. rewrite (He n') by done. destruct (T !! (n' / 1024)) as [t'|] eqn:E.
      * destruct (decide (t' = t)) as [->|Hne'].
        -- rewrite entry_put by (try done; apply Z.mod_pos_bound; lia).
           apply NoDup_cons in Hnd as [_ Hnd]. pose proof (vals_inj _ _ _ _ _ Hnd E Ht) as Eq.
           case_decide as D1; case_decide as D2; try done.
           ++ by subst.
           ++ exfalso. apply D1. rewrite (Z.div_mod n 1024), (Z.div_mod n' 1024) by lia. congruence.
           ++ unfold entry. by rewrite Hb.
        -- rewrite decide_False by congruence. symmetry. apply entry_same. simpl. by rewrite lookup_insert_ne.
      * rewrite decide_False by congruence. done.
  - intros a Ha. simpl. rewrite lookup_insert_ne; [done|]. intros ->. apply Ha, elem_of_vals. by eexists.
Qed.
(** ** walkpgdir *)

Definition vpn_ok (n : Z) : Prop := 0 <= n < 2 ^ 20.

Lemma PDX_page n : vpn_ok n -> PDX (4096 * n) = n / 1024.
Proof.
  intros Hn. unfold vpn_ok in Hn. rewrite PDX_div by lia.
  change (2 ^ 22) with (4096 * 1024). by rewrite Z.div_mul_cancel_l by lia.
Qed.

Lemma PTX_page n : PTX (4096 * n) = n mod 1024.
Proof. rewrite PTX_div. change (2 ^ 12) with 4096. by rewrite Z.mul_comm, Z.div_mul by lia. Qed.

Lemma vpn_dir n : vpn_ok n -> 0 <= n / 1024 < 1024.
Proof. unfold vpn_ok. intros. split; [apply Z.div_pos; lia|apply Z.div_lt_upper_bound; lia]. Qed.

(** A directory entry that names a table. *)
Lemma pde_value t : page_ok end_ t -> present (V2P t + 7) = true /\ P2V (PTE_ADDR (V2P t + 7)) = t.
Proof.
  intros Ht. destruct (V2P_page _ _ Ht) as (_ & _ & Hm & Hv). split.
  - rewrite present_odd, Z.odd_add.
    replace (V2P t) with (2 * (V2P t / 4096 * 2048)) by (pose proof (Z.div_mod (V2P t) 4096); lia).
    by rewrite Z.odd_mul.
  - by rewrite PTE_ADDR_flags by (done || lia).
Qed.

Lemma walk_found k free pgdir T m n t alloc : vm_ok k free pgdir T m -> vpn_ok n ->
  T !! (n / 1024) = Some t -> walkpgdir pgdir (4096 * n) alloc k = Ret (t + 4 * (n mod 1024)) k.
Proof.
  intros Hv Hn Ht. destruct (vm_root _ _ _ _ _ Hv) as (Hpd & Hf & Hm & _).
  destruct (vm_table _ _ _ _ _ _ _ Hv Ht) as (Hpt & _). unfold walkpgdir.
  rewrite PDX_page, PTX_page by done. unfold bind at 1. rewrite rdw_entry by (done || by apply vpn_dir).
  pose proof (vm_dir _ _ _ _ _ Hv (n / 1024) (vpn_dir n Hn)) as He. rewrite Ht in He. rewrite He.
  destruct (pde_value t Hpt) as [-> ->]. done.
Qed.

Lemma walk_absent k free pgdir T m n : vm_ok k free pgdir T m -> vpn_ok n ->
  T !! (n / 1024) = None -> walkpgdir pgdir (4096 * n) false k = Ret 0 k.
Proof.
  intros Hv Hn Ht. destruct (vm_root _ _ _ _ _ Hv) as (Hpd & Hf & Hm & _). unfold walkpgdir.
  rewrite PDX_page, PTX_page by done. unfold bind at 1. rewrite rdw_entry by (done || by apply vpn_dir).
  pose proof (vm_dir _ _ _ _ _ Hv (n / 1024) (vpn_dir n Hn)) as He. rewrite Ht in He. by rewrite He.
Qed.

Lemma entry_zero k t i : 0 <= i < 1024 -> entry (set_pages (<[t := zero_page]> (pages k)) k) t i = 0.
Proof.
  intros Hi. unfold entry. simpl. rewrite lookup_insert_eq. unfold get32, slice, zero_page.
  rewrite drop_replicate, take_replicate. unfold PGSIZE. rewrite Nat.min_l by lia. done.
Qed.

(** A free page becomes the table of a directory slot that has none. *)
Lemma vm_new_table k pgdir T m i t free : vm_ok k (t :: free) pgdir T m -> 0 <= i < 1024 ->
  T !! i = None ->
  forall k1, kmem_ok end_ k1 free -> pages k1 = pages k ->
  exists k2, (clear_page t ;;; wrw (pgdir + 4 * i) (Z.lor (Z.lor (Z.lor (V2P t) PTE_P) PTE_W) PTE_U)) k1 = Ret tt k2 /\
    vm_ok k2 free pgdir (<[i := t]> T) m /\ frame (pgdir :: t :: vals T) k k2.
Proof.
  intros Hv Hi Ht k1 Hk1 Ep. pose proof Hv as [Hk Hn Hp Hd Hidx He].
  destruct (vm_root _ _ _ _ _ Hv) as (Hpd & (bs & Hb & Hl) & Hm & Hpf).
  pose proof Hk as [_ (_ & tb & Htb & Hch) [Htf Hnf]%NoDup_cons [Hpt Hpp]%Forall_cons_1].
  pose proof (V2P_page _ _ Hpt) as (Ev & Hvr & Hvm & _).
  apply not_elem_of_cons in Hpf as [Hpt' Hpf].
  assert (t ∉ vals T) as Htt.
  { apply NoDup_cons in Hn as [_ [_ [Hn _]]%NoDup_app]. intros Hin. apply (Hn _ Hin). left. }
  assert (Z.lor (Z.lor (Z.lor (V2P t) PTE_P) PTE_W) PTE_U = V2P t + 7) as ->.
  { rewrite <-!Z.lor_assoc. change (Z.lor PTE_P (Z.lor PTE_W PTE_U)) with 7. by apply lor_flags. }
  unfold clear_page, put_page, get_page, bind, gets, modify, deref. rewrite Ep, Htb. unfold ret.
  erewrite wrw_entry; [|done|done|simpl; rewrite Ep, lookup_insert_ne by done; exact Hb].
  eexists. split; [done|]. simpl. rewrite Ep. split; [|].
  - split.
    + pose proof (kmem_ok_write _ _ pgdir (put32 (4 * i) (V2P t + 7) bs)
        (kmem_ok_write k1 free t zero_page Hk1 Htf) Hpf) as Hw. simpl in Hw. by rewrite Ep in Hw.
    + rewrite vals_insert by done. apply (NoDup_perm (pgdir :: vals T ++ t :: free)); [|done].
      constructor. simpl. by rewrite Permutation_middle.
    + rewrite vals_insert by done. apply Forall_cons_1 in Hp as [_ Hp]. constructor; [|constructor].
      * split; [done|]. eexists. simpl. rewrite lookup_insert_eq. split; [done|]. rewrite length_put32 by lia. done.
      * split; [done|]. eexists. simpl. rewrite lookup_insert_ne, lookup_insert_eq by done. split; [done|].
        unfold zero_page. by rewrite length_replicate.
      * rewrite Forall_forall in Hp |- *. intros a Ha. destruct (Hp a Ha) as [Hpa Hfa]. split; [done|].
        eapply full_same; [|exact Hfa]. simpl. rewrite !lookup_insert_ne; [done|congruence|].
        intros ->. apply NoDup_cons in Hn as [Hn _]. clear -Hn Ha. set_solver.
    + intros j Hj. unfold entry. simpl. rewrite lookup_insert_eq. specialize (Hd j Hj). unfold entry in Hd. rewrite Hb in Hd.
      destruct (decide (j = i)) as [->|Hne].
      * rewrite lookup_insert_eq, get32_put32_same by lia. apply u32_small. unfold PHYSTOP in *. lia.
      * rewrite lookup_insert_ne, get32_put32_other by lia. exact Hd.
    + intros j t' [[-> _]|[_ Hj]]%lookup_insert_Some; [done|]. by apply (Hidx j t').
    + intros n Hn'. rewrite He by done. destruct (decide (n / 1024 = i)) as [<-|Hne].
      * rewrite Ht, lookup_insert_eq. symmetry. erewrite entry_same; [apply (entry_zero k)|].
        { apply Z.mod_pos_bound. lia. }
        simpl. rewrite lookup_insert_ne by done. done.
      * rewrite lookup_insert_ne by done. destruct (T !! (n / 1024)) as [t'|] eqn:E; [|done].
        symmetry. apply entry_same. simpl. assert (t' ∈ vals T) by (apply elem_of_vals; by eexists).
        rewrite !lookup_insert_ne; [done|congruence|].
        apply NoDup_cons in Hn as [Hn _]. clear -Hn H. set_solver.
  - intros a Ha. simpl. rewrite !lookup_insert_ne; [done|clear -Ha; set_solver..].
Qed.
Lemma vm_ext k free pgdir T m m' : vm_ok k free pgdir T m ->
  (forall n, vpn_ok n -> m' n = m n) -> vm_ok k free pgdir T m'.
Proof. intros [? ? ? ? ? He] Hm. split; try done. intros n Hn. rewrite Hm by done. by apply He. Qed.

(** The walk with allocation finds the entry, in a new empty table if need be, or
    memory has run out. *)
Lemma walk_alloc k free pgdir T m n : vm_ok k free pgdir T m -> vpn_ok n ->
  (free = [] /\ exists k', walkpgdir pgdir (4096 * n) true k = Ret 0 k' /\
     vm_ok k' [] pgdir T m /\ pages k' = pages k) \/
  (exists k' free' T' t, walkpgdir pgdir (4096 * n) true k = Ret (t + 4 * (n mod 1024)) k' /\
     T' !! (n / 1024) = Some t /\ vm_ok k' free' pgdir T' m /\
     vals T' ++ free' ≡ₚ vals T ++ free /\ frame (pgdir :: vals T ++ free) k k').
Proof.
  intros Hv Hn. destruct (T !! (n / 1024)) as [t|] eqn:Et.
  { right. exists k, free, T, t. split_and!; try done. by eapply walk_found. }
  destruct (vm_root _ _ _ _ _ Hv) as (Hpd & Hf & Hm & _).
  pose proof (vm_dir _ _ _ _ _ Hv (n / 1024) (vpn_dir n Hn)) as He. rewrite Et in He.
  destruct (kalloc_run _ _ _ (vm_kmem _ _ _ _ _ Hv)) as (k1 & Ek & Hk1 & Ep & _).
  set (hd := match free with [] => 0 | a :: _ => a end) in Ek.
  assert (walkpgdir pgdir (4096 * n) true k =
    (if hd =? 0 then ret 0 else clear_page hd ;;;
       wrw (pgdir + 4 * (n / 1024)) (Z.lor (Z.lor (Z.lor (V2P hd) PTE_P) PTE_W) PTE_U) ;;;
       ret (hd + 4 * (n mod 1024))) k1) as ->.
  { unfold walkpgdir. rewrite PDX_page, PTX_page by done. unfold bind at 1.
    rewrite rdw_entry by (done || by apply vpn_dir). rewrite He. cbn [negb]. unfold bind at 1. by rewrite Ek. }
  destruct free as [|t free]; unfold hd; clear hd Ek.
  - left. split; [done|]. exists k1. split_and!; [done| |done].
    apply (vm_frame k k1 []); [done|done|apply Hv|]. intros. by rewrite Ep.
  - right. assert ((t =? 0) = false) as ->.
    { destruct (vm_kmem _ _ _ _ _ Hv) as [_ _ _ [Hpt _]%Forall_cons_1]. apply Z.eqb_neq. destruct Hpt. lia. }
    destruct (vm_new_table _ _ _ _ _ _ _ Hv (vpn_dir n Hn) Et k1 Hk1 Ep) as (k2 & Ew & Hv2 & Hfr).
    exists k2, free, (<[n / 1024 := t]> T), t. split_and!.
    + clear -Ew. unfold bind in *. destruct (clear_page t k1); try done. by rewrite Ew.
    + apply lookup_insert_eq.
    + done.
    + rewrite vals_insert by done. simpl. by rewrite Permutation_middle.
    + eapply frame_mono; [exact Hfr|]. clear. set_solver.
Qed.

(** A directory has room for 1024 tables. *)
Lemma vm_tables_bound k free pgdir T m : vm_ok k free pgdir T m -> (length (vals T) <= 1024)%nat.
Proof.
  intros Hv. unfold vals. rewrite length_fmap, <-(length_fmap fst).
  assert (length (seqZ 0 1024) = 1024%nat) as <- by apply length_seqZ.
  apply submseteq_length, NoDup_submseteq; [apply NoDup_fst_map_to_list|].
  intros i ([i' t] & -> & Ht%elem_of_map_to_list)%list_elem_of_fmap. apply elem_of_seqZ.
  pose proof (vm_idx _ _ _ _ _ Hv _ _ Ht). simpl. lia.
Qed.

(** ** mappages *)

(** The entry for a physical page and its flags. *)
Definition pte_of (pa perm : Z) : Z := u32 (Z.lor (Z.lor pa perm) PTE_P).
(** [c] pages from page [n] on mapped to consecutive physical pages. *)
Definition mapped (m : Z -> Z) (n c pa perm : Z) : Z -> Z := fun n' =>
  if decide (n <= n' < n + c) then pte_of (pa + 4096 * (n' - n)) perm else m n'.

Lemma mapped_0 m n pa perm n' : mapped m n 0 pa perm n' = m n'.
Proof. unfold mapped. case_decide; [lia|done]. Qed.

Lemma mapped_cons m n c pa perm n' : 0 <= c ->
  mapped (upd m n (pte_of pa perm)) (n + 1) c (pa + 4096) perm n' = mapped m n (c + 1) pa perm n'.
Proof.
  intros Hc. unfold mapped, upd. repeat case_decide; try lia; try done.
  - f_equal. lia.
  - f_equal. lia.
Qed.

Lemma table_addr_nz k free pgdir T m i t j : vm_ok k free pgdir T m -> T !! i = Some t -> 0 <= j ->
  (t + 4 * j =? 0) = false.
Proof.
  intros Hv Ht Hj. destruct (vm_table _ _ _ _ _ _ _ Hv Ht) as (Hp & _). apply Z.eqb_neq. destruct Hp. lia.
Qed.

Lemma rdw_found k free pgdir T m n t : vm_ok k free pgdir T m -> vpn_ok n -> T !! (n / 1024) = Some t ->
  rdw (t + 4 * (n mod 1024)) k = Ret (m n) k.
Proof.
  intros Hv Hn Ht. destruct (vm_table _ _ _ _ _ _ _ Hv Ht) as (_ & Hf & Hm & _).
  rewrite rdw_entry by (try done; apply Z.mod_pos_bound; lia).
  by rewrite (vm_ent _ _ _ _ _ Hv n Hn), Ht.
Qed.

Lemma perm_frame (pgdir : Z) (a b c d : list Z) :
  c ++ d ≡ₚ a ++ b -> pgdir :: c ++ d ⊆ pgdir :: a ++ b.
Proof. intros H x. by rewrite H. Qed.

Lemma map_loop_run rounds pgdir perm : forall n pa a p k free T m,
  vm_ok k free pgdir T m -> 0 <= n -> n + Z.of_nat rounds <= 2 ^ 20 ->
  (forall j, n <= j < n + Z.of_nat rounds -> present (m j) = false) ->
  0 <= pa -> pa + 4096 * Z.of_nat rounds <= 2 ^ 32 ->
  ((0 < rounds)%nat -> a = 4096 * n /\ p = pa) ->
  exists r k' free' T' c, map_loop rounds pgdir a p perm k = Ret r k' /\
    vm_ok k' free' pgdir T' (mapped m n (Z.of_nat c) pa perm) /\
    vals T' ++ free' ≡ₚ vals T ++ free /\ frame (pgdir :: vals T ++ free) k k' /\
    (r = 0 /\ c = rounds \/ r = -1 /\ (c < rounds)%nat /\ free' = [] /\ (c = 0%nat -> free = [])).
Proof.
  induction rounds as [|rounds IH]; intros n pa a p k free T m Hv Hn Hr Hnp Hpa Hpr Ha.
  { exists 0, k, free, T, 0%nat. split_and!; [done| |done|done|by left].
    eapply vm_ext; [done|]. intros. apply mapped_0. }
  destruct Ha as [-> ->]; [lia|]. simpl. unfold bind at 1.
  assert (vpn_ok n) as Hvn by (unfold vpn_ok; lia).
  destruct (walk_alloc _ _ _ _ _ n Hv Hvn) as
    [(-> & k1 & -> & Hv1 & Ep)|(k1 & free1 & T1 & t & -> & Ht & Hv1 & Hpm & Hfr)].
  { exists (-1), k1, [], T, 0%nat. split_and!; [done| |done|intros x _; by rewrite Ep|right; split_and!; [done|lia|done|done]].
    eapply vm_ext; [done|]. intros. apply mapped_0. }
  rewrite (table_addr_nz _ _ _ _ _ _ _ _ Hv1 Ht) by (apply Z.mod_pos_bound; lia).
  unfold bind at 1. rewrite (rdw_found _ _ _ _ _ _ _ Hv1 Hvn Ht).
  rewrite Hnp by lia. unfold panic_if, bind at 1, ret at 1.
  destruct (vm_store _ _ _ _ _ n t (Z.lor (Z.lor pa perm) PTE_P) Hv1 Hvn Ht) as (k2 & Ew & Hv2 & Hfr2).
  unfold bind at 1. rewrite Ew.
  destruct (IH (n + 1) (pa + 4096) (u32 (4096 * n + PGSIZE)) (u32 (pa + PGSIZE)) k2 free1 T1 _ Hv2)
    as (r & k3 & free3 & T3 & c & E3 & Hv3 & Hp3 & Hfr3 & Hr3); [lia|lia| |lia|lia| |].
  { intros j Hj. unfold upd. rewrite decide_False by lia. apply Hnp. lia. }
  { intros Hpos. unfold PGSIZE. rewrite !u32_small by lia. lia. }
  exists r, k3, free3, T3, (S c). split_and!; [done| | | |].
  - eapply vm_ext; [done|]. intros n' _. rewrite Nat2Z.inj_succ. symmetry. apply mapped_cons. lia.
  - by rewrite Hp3.
  - eapply frame_trans; [exact Hfr| |reflexivity]. eapply frame_trans; [eapply frame_mono; [exact Hfr2|]| |].
    + etransitivity; [|by apply perm_frame, Hpm]. clear. set_solver.
    + exact Hfr3.
    + by apply perm_frame.
  - destruct Hr3 as [[-> ->]|(-> & ? & -> & _)]; [by left|right; split_and!; [done|lia|done|done]].
Qed.

(** The general form of [mappages] on a range of whole pages. *)
Lemma mappages_run k free pgdir T m n cnt pa perm :
  vm_ok k free pgdir T m -> 0 <= n -> 0 < cnt -> n + cnt <= 2 ^ 20 ->
  (forall j, n <= j < n + cnt -> present (m j) = false) ->
  0 <= pa -> pa + 4096 * cnt <= 2 ^ 32 ->
  exists r k' free' T' c, mappages pgdir (4096 * n) (u32 (4096 * cnt)) pa perm k = Ret r k' /\
    vm_ok k' free' pgdir T' (mapped m n c pa perm) /\
    vals T' ++ free' ≡ₚ vals T ++ free /\ frame (pgdir :: vals T ++ free) k k' /\
    (r = 0 /\ c = cnt \/ r = -1 /\ 0 <= c < cnt /\ free' = [] /\ (c = 0 -> free = [])).
Proof.
  intros Hv Hn Hc Hr Hnp Hpa Hpr. unfold mappages. rewrite !rounddown_eq.
  assert (4096 * n - (4096 * n) mod 4096 = 4096 * n) as ->.
  { rewrite Z.mul_comm, Z.mod_mul by lia. lia. }
  assert (u32 (4096 * n + u32 (4096 * cnt) - 1) = 4096 * (n + cnt - 1) + 4095) as ->.
  { unfold u32 at 1. rewrite <-Zminus_mod_idemp_l. unfold u32. rewrite Zplus_mod_idemp_r.
    rewrite Zminus_mod_idemp_l. rewrite Z.mod_small by lia. lia. }
  rewrite (Z.mul_comm 4096 (n + cnt - 1)), Z.add_comm, Z.mod_add, Z.mod_small by lia.
  rewrite u32_small by (unfold PGSIZE; lia).
  replace (4095 + (n + cnt - 1) * 4096 - 4095 - 4096 * n) with ((cnt - 1) * PGSIZE) by (unfold PGSIZE; lia).
  rewrite Z.div_mul by done.
  destruct (map_loop_run (S (Z.to_nat (cnt - 1))) pgdir perm n pa (4096 * n) pa k free T m)
    as (r & k' & free' & T' & c & E & Hv' & Hp' & Hf' & Hr'); try done; try lia.
  { intros j Hj. apply Hnp. lia. }
  exists r, k', free', T', (Z.of_nat c). split_and!; try done.
  destruct Hr' as [[-> ->]|(-> & ? & -> & H0)]; [left; lia|right; split_and!; [done|lia|lia|done|]].
  intros Hc0. apply H0. lia.
Qed.

(** ** Address spaces with their user pages *)

Record uvm (k : kmem) (free : list Z) (pgdir : Z) (T U : gmap Z Z) (m : Z -> Z) : Prop := {
  uvm_vm : vm_ok k free pgdir T m;
  uvm_own : NoDup (pgdir :: vals T ++ vals U ++ free);
  uvm_user : forall n, 0 <= n < 2 ^ 19 ->
    match U !! n with
    | Some a => present (m n) = true /\ PTE_ADDR (m n) = V2P a
    | None => present (m n) = false
    end;
  uvm_idx : forall n a, U !! n = Some a -> 0 <= n < 2 ^ 19;
  uvm_pages : Forall (fun a => page_ok end_ a /\ full k a) (vals U)
}.

(** The pages of an address space. *)
Definition owned (pgdir : Z) (T U : gmap Z Z) : list Z := pgdir :: vals T ++ vals U.

Lemma uvm_page k free pgdir T U m n a : uvm k free pgdir T U m -> U !! n = Some a ->
  0 <= n < 2 ^ 19 /\ page_ok end_ a /\ full k a /\ (a ∉ pgdir :: vals T) /\ (a ∉ free).
Proof.
  intros [_ Hn _ Hi Hp] Ha. assert (a ∈ vals U) as Hin by (apply elem_of_vals; by eexists).
  rewrite Forall_forall in Hp. destruct (Hp a Hin).
  split_and!; [by eapply Hi|by eapply Hi|done|done| |].
  - rewrite app_comm_cons in Hn. apply NoDup_app in Hn as (_ & Hn & _). intros H'. apply (Hn a H'). set_solver.
  - rewrite app_comm_cons in Hn. apply NoDup_app in Hn as (_ & _ & (_ & Hn & _)%NoDup_app). by apply Hn.
Qed.

(** Changes elsewhere keep an address space. *)
Lemma uvm_frame k k' free free' pgdir T U m : uvm k free pgdir T U m -> kmem_ok end_ k' free' ->
  NoDup (owned pgdir T U ++ free') -> (forall a, a ∈ owned pgdir T U -> pages k' !! a = pages k !! a) ->
  uvm k' free' pgdir T U m.
Proof.
  intros [Hv Hn Hu Hi Hp] Hk Hn' Hf. unfold owned in *.
  assert (NoDup (pgdir :: vals T ++ vals U ++ free')) as Hn2 by (simpl in Hn'; by rewrite <-app_assoc in Hn').
  split; [|done|done|done|].
  - eapply vm_frame; [done|done| |intros a Ha; apply Hf; clear -Ha; set_solver].
    apply NoDup_cons in Hn2 as [H1 (H2 & H3 & H4)%NoDup_app]. apply NoDup_app in H4 as (_ & _ & H4).
    apply NoDup_cons. split; [clear -H1; set_solver|]. apply NoDup_app. split_and!; [done|clear -H3; set_solver|done].
  - rewrite Forall_forall in Hp |- *. intros a Ha. destruct (Hp a Ha). split; [done|].
    eapply full_same; [apply Hf; clear -Ha; set_solver|done].
Qed.

Lemma uvm_ext k free pgdir T U m m' : uvm k free pgdir T U m ->
  (forall n, vpn_ok n -> m' n = m n) -> uvm k free pgdir T U m'.
Proof.
  intros [Hv ? Hu ? ?] Hm. split; [by eapply vm_ext|done| |done|done].
  intros n Hn. rewrite Hm by (unfold vpn_ok; lia). by apply Hu.
Qed.

(** ** Unmapping *)

Hypothesis Hend : KERNBASE < end_.

(** Freeing the page of [n] and clearing its entry. *)
Lemma uvm_drop k free pgdir T U m n a t : uvm k free pgdir T U m -> U !! n = Some a ->
  T !! (n / 1024) = Some t ->
  exists k', (kfree end_ (P2V (PTE_ADDR (m n))) ;;; wrw (t + 4 * (n mod 1024)) 0) k = Ret tt k' /\
    uvm k' (a :: free) pgdir T (delete n U) (upd m n 0) /\ frame (vals T ++ [a]) k k'.
Proof.
  intros Hu Ha Ht. destruct (uvm_page _ _ _ _ _ _ _ _ Hu Ha) as (Hn & Hpa & (bs & Hb & Hl) & Hat & Haf).
  pose proof Hu as [Hv Hnd Huser Hidx Hp].
  pose proof (Huser n Hn) as Hun. rewrite Ha in Hun. destruct Hun as [_ ->].
  destruct (V2P_page _ _ Hpa) as (_ & _ & _ & ->).
  destruct (kfree_run end_ k free a bs (vm_kmem _ _ _ _ _ Hv) Hpa Haf Hb) as (k1 & E1 & Hk1 & _ & Hp1).
  unfold bind. rewrite E1.
  assert (NoDup (pgdir :: vals T ++ vals (delete n U) ++ a :: free)) as Hnd'.
  { eapply NoDup_perm; [|exact Hnd]. constructor. f_equiv. rewrite (vals_delete U n a Ha). simpl. by rewrite Permutation_middle. }
  assert (vm_ok k1 (a :: free) pgdir T m) as Hv1.
  { eapply vm_frame; [done|done| |].
    - apply NoDup_cons in Hnd' as [H1 (H2 & H3 & (_ & _ & H4)%NoDup_app)%NoDup_app].
      apply NoDup_cons. split; [clear -H1; set_solver|]. apply NoDup_app. split_and!; [done|clear -H3; set_solver|done].
    - intros x Hx. rewrite Hp1, lookup_insert_ne; [done|]. clear -Hx Hat. set_solver. }
  destruct (vm_store _ _ _ _ _ n t 0 Hv1 ltac:(lia) Ht) as (k2 & E2 & Hv2 & Hf2). exists k2. split; [done|]. split.
  - split; [done|done| |intros n' a' [_ H]%lookup_delete_Some; by eapply Hidx|].
    + intros n' Hn'. unfold upd. destruct (decide (n' = n)) as [->|Hne].
      * by rewrite lookup_delete_eq.
      * rewrite lookup_delete_ne by done. by apply Huser.
    + rewrite Forall_forall in Hp |- *. intros x Hx.
      assert (x ∈ vals U) as HxU by (rewrite (vals_delete U n a Ha); clear -Hx; set_solver).
      destruct (Hp x HxU). split; [done|]. eapply full_same; [|done].
      rewrite Hf2, Hp1, lookup_insert_ne; [done| |].
      * intros <-. apply NoDup_cons in Hnd' as [_ (_ & _ & (_ & H3 & _)%NoDup_app)%NoDup_app]. apply (H3 a Hx). left.
      * intros HxT. apply NoDup_cons in Hnd as [_ (_ & H3 & _)%NoDup_app]. apply (H3 x HxT). clear -HxU. set_solver.
  - intros x Hx. rewrite Hf2, Hp1, lookup_insert_ne; [done|clear -Hx; set_solver..].
Qed.

(** The user pages outside the pages [j .. e-1]. *)
Definition drop_range (j e : Z) (U : gmap Z Z) : gmap Z Z := filter (fun p => ~ (j <= p.1 < e)) U.
(** The entries after the present ones of [j .. e-1] were cleared. *)
Definition cleared (m : Z -> Z) (j e : Z) : Z -> Z := fun n =>
  if decide (j <= n < e) then if present (m n) then 0 else m n else m n.

Lemma lookup_drop_range j e U n : drop_range j e U !! n = if decide (j <= n < e) then None else U !! n.
Proof.
  unfold drop_range. rewrite map_lookup_filter. destruct (U !! n); simpl; case_decide; [by rewrite option_guard_False by tauto|by rewrite option_guard_True|done|done].
Qed.

Lemma drop_range_delete j e U : j < e -> drop_range j e U = drop_range (j + 1) e (delete j U).
Proof.
  intros. apply map_eq. intros n. rewrite !lookup_drop_range, lookup_delete.
  repeat case_decide; try lia; done.
Qed.

Lemma drop_range_skip j j' e U : j <= j' -> (forall n, j <= n < j' -> U !! n = None) ->
  drop_range j e U = drop_range j' e U.
Proof.
  intros Hj HU. apply map_eq. intros n. rewrite !lookup_drop_range.
  repeat case_decide; try lia; try done. symmetry. apply HU. lia.
Qed.

Lemma cleared_skip m j j' e n : j <= j' -> (forall n, j <= n < j' -> present (m n) = false) ->
  cleared m j e n = cleared m j' e n.
Proof.
  intros Hj Hm. unfold cleared. repeat case_decide; try lia; try done. by rewrite Hm by lia.
Qed.

Lemma cleared_step m j e n : j < e -> present (m j) = true -> cleared (upd m j 0) (j + 1) e n = cleared m j e n.
Proof.
  intros Hj Hp. unfold cleared, upd. repeat case_decide; try lia; subst; rewrite ?Hp; done.
Qed.

(** The next page table's first page. *)
Lemma next_table j : 0 <= j < 2 ^ 19 ->
  u32 (PGADDR (PDX (4096 * j) + 1) 0 0 - PGSIZE + PGSIZE) = 4096 * (1024 * (j / 1024 + 1)).
Proof.
  intros Hj. assert (0 <= j / 1024 < 512) by (split; [apply Z.div_pos; lia|apply Z.div_lt_upper_bound; lia]).
  rewrite PDX_page by (unfold vpn_ok; lia). unfold PGADDR. rewrite Z.lor_0_r, Z.shiftl_0_l, Z.lor_0_r.
  rewrite Z.shiftl_mul_pow2 by lia. replace (2 ^ 22) with (4096 * 1024) by reflexivity.
  rewrite Z.sub_add, (u32_small (_ * _)), u32_small by lia. lia.
Qed.

Lemma page_below oldsz j : 0 <= oldsz -> (4096 * j <? oldsz) = true <-> j < (oldsz + 4095) / 4096.
Proof.
  intros. rewrite Z.ltb_lt. pose proof (Z.div_mod (oldsz + 4095) 4096 ltac:(lia)).
  pose proof (Z.mod_pos_bound (oldsz + 4095) 4096 ltac:(lia)). lia.
Qed.

(** The pages freed are [fr]; one round per page or per missing table. *)
Lemma dealloc_loop_run pgdir T oldsz e : 0 <= oldsz <= KERNBASE -> e = (oldsz + 4095) / 4096 ->
  forall fuel j k free U m, uvm k free pgdir T U m -> 0 <= j -> j <= 2 ^ 20 -> (Z.to_nat (e - j) < fuel)%nat ->
  exists k' fr, dealloc_loop end_ fuel pgdir (4096 * j) oldsz k = Ret tt k' /\
    uvm k' (fr ++ free) pgdir T (drop_range j e U) (cleared m j e) /\
    vals U ≡ₚ fr ++ vals (drop_range j e U) /\ frame (vals T ++ fr) k k'.
Proof.
  intros Ho He. assert (e <= 2 ^ 19) as Hel.
  { subst e. apply Z.lt_succ_r, Z.div_lt_upper_bound; unfold KERNBASE in Ho; lia. }
  induction fuel as [|fuel IH]; intros j k free U m Hu Hj Hj2 Hf; [lia|]. simpl.
  destruct (4096 * j <? oldsz) eqn:El.
  2:{ assert (~ j < e) as Hje by (subst e; rewrite <-page_below, El by lia; done).
      assert (drop_range j e U = U) as HU.
      { apply map_eq. intros n. rewrite lookup_drop_range, decide_False by lia. done. }
      exists k, []. rewrite HU. split_and!; [done| |done|done]. eapply uvm_ext; [done|].
      intros n _. unfold cleared. rewrite decide_False by lia. done. }
  apply page_below in El; [|lia]. rewrite <-He in El. pose proof Hu as [Hv _ Huser _ _].
  assert (vpn_ok j) as Hvj by (unfold vpn_ok; lia). unfold bind at 1.
  destruct (T !! (j / 1024)) as [t|] eqn:Et.
  - rewrite (walk_found _ _ _ _ _ _ _ _ Hv Hvj Et).
    rewrite (table_addr_nz _ _ _ _ _ _ _ _ Hv Et) by (apply Z.mod_pos_bound; lia).
    unfold bind at 1. rewrite (rdw_found _ _ _ _ _ _ _ Hv Hvj Et).
    assert (u32 (4096 * j + PGSIZE) = 4096 * (j + 1)) as -> by (unfold PGSIZE; rewrite u32_small; lia).
    pose proof (Huser j ltac:(lia)) as Huj. destruct (U !! j) as [a|] eqn:Ea.
    + destruct Huj as [Hpr Had]. rewrite Hpr.
      destruct (uvm_page _ _ _ _ _ _ _ _ Hu Ea) as (_ & Hpa & _).
      destruct (uvm_drop _ _ _ _ _ _ _ _ _ Hu Ea Et) as (k1 & E1 & Hu1 & Hf1).
      assert ((PTE_ADDR (m j) =? 0) = false) as Hnz.
      { rewrite Had. destruct (V2P_page _ _ Hpa) as (-> & _). apply Z.eqb_neq. destruct Hpa as (_ & _ & ? & _). lia. }
      unfold panic_if. rewrite Hnz. unfold bind at 1 2, ret at 1.
      unfold bind in E1. unfold bind at 1. rewrite E1.
      destruct (IH (j + 1) k1 _ _ _ Hu1) as (k2 & fr & E2 & Hu2 & Hp2 & Hf2); [lia..|].
      exists k2, (fr ++ [a]). rewrite (drop_range_delete j e U) by lia. rewrite <-app_assoc. split_and!; [done| | |].
      * eapply uvm_ext; [exact Hu2|]. intros n _. symmetry. by apply cleared_step.
      * rewrite (vals_delete U j a Ea), Hp2, <-app_assoc. simpl. by rewrite Permutation_middle.
      * eapply frame_trans; [eapply frame_mono; [exact Hf1|]|exact Hf2|]; clear; set_solver.
    + rewrite Huj. unfold bind at 1, ret at 1.
      destruct (IH (j + 1) k _ _ _ Hu) as (k2 & fr & E2 & Hu2 & Hp2 & Hf2); [lia..|].
      assert (forall n, j <= n < j + 1 -> n = j) as Hone by lia.
      exists k2, fr. rewrite (drop_range_skip j (j + 1)) by (lia || (intros n ->%Hone; done)).
      split_and!; [done| |done|done]. eapply uvm_ext; [exact Hu2|]. intros n _. apply cleared_skip; [lia|].
      by intros n' ->%Hone.
  - rewrite (walk_absent _ _ _ _ _ _ Hv Hvj Et). cbn [Z.eqb]. rewrite next_table by lia.
    set (j' := 1024 * (j / 1024 + 1)). pose proof (Z.div_mod j 1024 ltac:(lia)). pose proof (Z.mod_pos_bound j 1024 ltac:(lia)).
    assert (forall n, j <= n < j' -> n / 1024 = j / 1024) as Hq.
    { intros n Hn. symmetry. apply (Z.div_unique _ _ _ (n - 1024 * (j / 1024))); unfold j' in Hn; lia. }
    assert (j / 1024 < 512) by (apply Z.div_lt_upper_bound; lia).
    assert (forall n, j <= n < j' -> present (m n) = false) as Hnp.
    { intros n Hn. rewrite (vm_ent _ _ _ _ _ Hv n) by (unfold j' in Hn; lia). by rewrite Hq, Et. }
    destruct (IH j' k _ _ _ Hu) as (k2 & fr & E2 & Hu2 & Hp2 & Hf2); [unfold j'; lia..|].
    exists k2, fr. rewrite (drop_range_skip j j'); [|unfold j'; lia|].
    + split_and!; [done| |done|done]. eapply uvm_ext; [exact Hu2|]. intros n _. apply cleared_skip; [unfold j'; lia|done].
    + intros n Hn. specialize (Huser n ltac:(unfold j' in Hn; lia)). rewrite Hnp in Huser by done.
      destruct (U !! n); [by destruct Huser|done].
Qed.

Lemma deallocuvm_run k free pgdir T U m oldsz newsz : uvm k free pgdir T U m ->
  0 <= newsz < oldsz -> oldsz <= KERNBASE ->
  let U' := drop_range ((newsz + 4095) / 4096) ((oldsz + 4095) / 4096) U in
  exists k' fr, deallocuvm end_ pgdir oldsz newsz k = Ret newsz k' /\
    uvm k' (fr ++ free) pgdir T U' (cleared m ((newsz + 4095) / 4096) ((oldsz + 4095) / 4096)) /\
    vals U ≡ₚ fr ++ vals U' /\ frame (vals T ++ fr) k k'.
Proof.
  intros Hu Hn Ho. unfold deallocuvm. rewrite (proj2 (Z.leb_gt _ _)) by lia.
  rewrite roundup_eq by (unfold KERNBASE in Ho; lia).
  destruct (dealloc_loop_run pgdir T oldsz _ ltac:(lia) eq_refl (S (S (Z.to_nat (oldsz / PGSIZE)))) ((newsz + 4095) / 4096) k free U m)
    as (k' & fr & E & H); [done|apply Z.div_pos; lia| | |].
  - apply Z.lt_le_incl, Z.div_lt_upper_bound; unfold KERNBASE in Ho; lia.
  - assert ((oldsz + 4095) / 4096 <= oldsz / 4096 + 1).
    { rewrite <-Z.div_add by lia. apply Z.div_le_mono; lia. }
    assert (0 <= (newsz + 4095) / 4096) by (apply Z.div_pos; lia). unfold PGSIZE. lia.
  - exists k', fr. split; [|done]. unfold bind. by rewrite E.
Qed.

(** ** Freeing an address space *)

Lemma free_tables_run pgdir : forall c i k free T,
  i + Z.of_nat c = 1024 -> 0 <= i -> kmem_ok end_ k free -> NoDup (pgdir :: vals T ++ free) ->
  page_ok end_ pgdir -> full k pgdir -> Forall (fun a => page_ok end_ a /\ full k a) (vals T) ->
  (forall j t, T !! j = Some t -> i <= j < 1024) ->
  (forall j, i <= j < 1024 ->
    match T !! j with Some t => entry k pgdir j = V2P t + 7 | None => present (entry k pgdir j) = false end) ->
  exists k' fr, free_tables end_ c pgdir i k = Ret tt k' /\ kmem_ok end_ k' (fr ++ free) /\
    fr ≡ₚ vals T /\ frame (vals T) k k'.
Proof.
  induction c as [|c IH]; intros i k free T Hc Hi Hk Hn Hpd Hfd Hp Hidx Hd; simpl.
  { exists k, []. split_and!; [done|done| |done]. replace T with (∅ : gmap Z Z); [done|].
    symmetry. apply map_eq. intros j. rewrite lookup_empty. destruct (T !! j) eqn:E; [|done].
    apply Hidx in E. lia. }
  unfold bind at 1. rewrite rdw_entry by (try done; try lia; apply Hpd).
  pose proof (Hd i ltac:(lia)) as Hdi. destruct (T !! i) as [t|] eqn:Et.
  - pose proof (vals_delete T i t Et) as Hperm. rewrite Hperm in Hp.
    apply Forall_cons_1 in Hp as [[Hpt (tb & Htb & _)] Hp].
    rewrite Hdi. destruct (pde_value t Hpt) as [-> ->].
    assert (NoDup (pgdir :: vals (delete i T) ++ t :: free)) as Hn1.
    { eapply NoDup_perm; [|exact Hn]. rewrite Hperm. simpl. by rewrite Permutation_middle. }
    assert (t ∉ free) as Htf by (apply NoDup_cons in Hn1 as [_ (_ & _ & [? _]%NoDup_cons)%NoDup_app]; done).
    assert (pgdir <> t) as Hpt' by (apply NoDup_cons in Hn1 as [Hn1 _]; clear -Hn1; set_solver).
    destruct (kfree_run end_ k free t tb Hk Hpt Htf Htb) as (k1 & E1 & Hk1 & _ & Hp1).
    unfold bind. rewrite E1.
    destruct (IH (i + 1) k1 (t :: free) (delete i T)) as (k2 & fr & E2 & Hk2 & Hf2 & Hfr2); try done; try lia.
    + eapply full_same; [|done]. by rewrite Hp1, lookup_insert_ne.
    + rewrite Forall_forall in Hp |- *. intros a Ha. destruct (Hp a Ha). split; [done|].
      eapply full_same; [|done]. rewrite Hp1, lookup_insert_ne; [done|]. intros <-.
      apply NoDup_cons in Hn1 as [_ (_ & Hn1 & _)%NoDup_app]. apply (Hn1 t Ha). left.
    + intros j t' [Hne Hj]%lookup_delete_Some. apply Hidx in Hj. lia.
    + intros j Hj. rewrite lookup_delete_ne by lia.
      rewrite (entry_same k k1) by (by rewrite Hp1, lookup_insert_ne). apply Hd. lia.
    + exists k2, (fr ++ [t]). rewrite <-app_assoc. split_and!; [done|done| |].
      * rewrite Hf2, Hperm. by rewrite Permutation_app_comm.
      * intros a Ha. rewrite Hperm in Ha. apply not_elem_of_cons in Ha as [? Ha].
        rewrite Hfr2, Hp1, lookup_insert_ne by done. done.
  - rewrite Hdi. unfold bind, ret. apply (IH (i + 1) k free T); try done; try lia.
    + intros j t Hj. pose proof (Hidx j t Hj). destruct (decide (j = i)); [congruence|lia].
    + intros j Hj. apply Hd. lia.
Qed.

(** Every page of the address space goes back to the allocator. *)
Lemma freevm_run k free pgdir T U m : uvm k free pgdir T U m ->
  exists k' free', freevm end_ pgdir k = Ret tt k' /\ kmem_ok end_ k' free' /\
    free' ≡ₚ owned pgdir T U ++ free /\ frame (owned pgdir T U) k k'.
Proof.
  intros Hu. pose proof Hu as [Hv _ _ HidxU _]. destruct (vm_root _ _ _ _ _ Hv) as (Hpd & _).
  destruct (deallocuvm_run k free pgdir T U m KERNBASE 0 Hu) as (k1 & fr & E1 & Hu1 & Hp1 & Hf1);
    [unfold KERNBASE; lia|lia|].
  change ((0 + 4095) / 4096) with 0 in *. change ((KERNBASE + 4095) / 4096) with (2 ^ 19) in *.
  assert (drop_range 0 (2 ^ 19) U = ∅) as HU.
  { apply map_eq. intros n. rewrite lookup_drop_range, lookup_empty. case_decide; [done|].
    destruct (U !! n) eqn:E; [|done]. by apply HidxU in E. }
  rewrite HU in *. rewrite app_nil_r in Hp1.
  pose proof (uvm_vm _ _ _ _ _ _ Hu1) as Hv1. pose proof Hv1 as [Hk1 Hn1 Hpg1 Hd1 Hi1 _].
  apply Forall_cons_1 in Hpg1 as [[_ Hfd] Hpg1].
  destruct (free_tables_run pgdir NPDENTRIES 0 k1 (fr ++ free) T) as (k2 & fr2 & E2 & Hk2 & Hp2 & Hf2); try done.
  assert (pgdir ∉ fr2 ++ fr ++ free) as Hpf.
  { apply NoDup_cons in Hn1 as [Hn1 _]. rewrite Hp2. done. }
  destruct Hfd as (bs & Hb & _).
  destruct (kfree_run end_ k2 _ pgdir bs Hk2 Hpd Hpf) as (k3 & E3 & Hk3 & _ & Hp3).
  { rewrite Hf2; [done|]. apply NoDup_cons in Hn1 as [Hn1 _]. clear -Hn1. set_solver. }
  exists k3, (pgdir :: fr2 ++ fr ++ free). split_and!; [|done| |].
  - unfold freevm, panic_if. assert ((pgdir =? 0) = false) as -> by (apply Z.eqb_neq; destruct Hpd; lia).
    unfold bind at 1, ret. unfold bind at 1. rewrite E1. unfold bind at 1. rewrite E2. done.
  - unfold owned. rewrite Hp2, Hp1, <-app_comm_cons, <-app_assoc. done.
  - intros a Ha. unfold owned in Ha. rewrite Hp1 in Ha.
    rewrite Hp3, lookup_insert_ne, Hf2, Hf1; [done|clear -Ha; set_solver..].
Qed.

(** ** Mapping a page *)

Lemma pte_of_page a perm : page_ok end_ a -> 0 <= perm < 4096 ->
  present (pte_of (V2P a) perm) = true /\ PTE_ADDR (pte_of (V2P a) perm) = V2P a /\
  PTE_FLAGS (pte_of (V2P a) perm) = Z.lor perm PTE_P.
Proof.
  intros Ha Hp. destruct (V2P_page _ _ Ha) as (_ & Hr & Hm & _).
  assert (0 <= Z.lor perm PTE_P < 4096) as Hl.
  { split; [apply Z.lor_nonneg; unfold PTE_P; lia|]. change 4096 with (2 ^ 12).
    apply Z.log2_lt_pow2; [|].
    - assert (Z.lor perm PTE_P <> 0) by (rewrite Z.lor_eq_0_iff; unfold PTE_P; lia).
      assert (0 <= Z.lor perm PTE_P) by (apply Z.lor_nonneg; unfold PTE_P; lia). lia.
    - rewrite Z.log2_lor by (unfold PTE_P; lia). apply Z.max_lub_lt; [|done].
      destruct (decide (perm = 0)) as [->|]; [done|]. apply Z.log2_lt_pow2; lia. }
  unfold pte_of. rewrite <-Z.lor_assoc, lor_flags by done. rewrite u32_small by (unfold PHYSTOP in *; lia).
  split_and!; [|by apply PTE_ADDR_flags|by apply PTE_FLAGS_flags].
  rewrite present_odd, Z.odd_add.
  replace (V2P a) with (2 * (V2P a / 4096 * 2048)) by (pose proof (Z.div_mod (V2P a) 4096); lia).
  rewrite Z.odd_mul. simpl. rewrite <-Z.bit0_odd, Z.lor_spec. by rewrite orb_true_r.
Qed.

(** A page nobody owns is mapped at a free user page number, or no table could be had. *)
Lemma uvm_map k free pgdir T U m n a perm : uvm k free pgdir T U m -> 0 <= n < 2 ^ 19 ->
  U !! n = None -> page_ok end_ a -> full k a -> (a ∉ owned pgdir T U ++ free) -> 0 <= perm < 4096 ->
  exists r k' free' T', mappages pgdir (4096 * n) PGSIZE (V2P a) perm k = Ret r k' /\
    vals T' ++ free' ≡ₚ vals T ++ free /\ frame (pgdir :: vals T ++ free) k k' /\
    (r = 0 /\ uvm k' free' pgdir T' (<[n := a]> U) (upd m n (pte_of (V2P a) perm)) \/
     r = -1 /\ free = [] /\ free' = [] /\ uvm k' free' pgdir T' U m).
Proof.
  intros Hu Hn HU Hpa Hfa Hfr Hperm. pose proof Hu as [Hv Hnd Huser Hidx Hp].
  destruct (V2P_page _ _ Hpa) as (_ & Hr & _ & _).
  destruct (mappages_run k free pgdir T m n 1 (V2P a) perm) as (r & k' & free' & T' & c & E & Hv' & Hpm & Hf & Hres);
    [done|lia|lia|lia| |lia|unfold PHYSTOP in *; lia|].
  { intros j Hj. replace j with n by lia. specialize (Huser n Hn). by rewrite HU in Huser. }
  exists r, k', free', T'. split_and!; [exact E|done|done|].
  assert (NoDup (pgdir :: vals T' ++ vals U ++ free')) as Hnd'.
  { eapply NoDup_perm; [|exact Hnd]. constructor. rewrite (Permutation_app_comm (vals U) free), (Permutation_app_comm (vals U) free').
    rewrite !app_assoc. by rewrite Hpm. }
  assert (forall x, x ∈ vals U -> pages k' !! x = pages k !! x) as Hsame.
  { intros x Hx. apply Hf. apply NoDup_cons in Hnd as [H1 (_ & H2 & (_ & H3 & _)%NoDup_app)%NoDup_app].
    clear -Hx H1 H2 H3. set_solver. }
  assert (Forall (fun a => page_ok end_ a /\ full k' a) (vals U)) as Hp'.
  { rewrite Forall_forall in Hp |- *. intros x Hx. destruct (Hp x Hx). split; [done|].
    eapply full_same; [by apply Hsame|done]. }
  assert (a ∉ pgdir :: vals T ++ free) as Ha by (unfold owned in Hfr; clear -Hfr; set_solver).
  destruct Hres as [[-> ->]|(-> & Hc & -> & Hfree)].
  - left. split; [done|].
    assert (uvm k' free' pgdir T' (<[n:=a]> U) (mapped m n 1 (V2P a) perm)) as Hu'.
    { split; [done| | | |].
      + rewrite vals_insert by done. apply (NoDup_perm (a :: pgdir :: vals T' ++ vals U ++ free')).
        * rewrite Permutation_swap. constructor. by rewrite <-app_comm_cons, Permutation_middle.
        * constructor; [|done]. rewrite (Permutation_app_comm (vals U)), app_assoc, Hpm.
          unfold owned in Hfr. clear -Hfr. set_solver.
      + intros n' Hn'. unfold mapped. destruct (decide (n' = n)) as [->|Hne].
        * rewrite lookup_insert_eq, decide_True by lia. replace (V2P a + 4096 * (n - n)) with (V2P a) by lia.
          destruct (pte_of_page a perm Hpa Hperm) as (? & ? & _). done.
        * rewrite lookup_insert_ne, decide_False by lia. by apply Huser.
      + intros n' a' [[<- _]|[_ H]]%lookup_insert_Some; [done|by eapply Hidx].
      + rewrite vals_insert by done. constructor; [|done]. split; [done|]. eapply full_same; [by apply Hf|done]. }
    eapply uvm_ext; [exact Hu'|]. intros n' _. unfold upd, mapped.
    repeat case_decide; try lia; try done. f_equal. lia.
  - right. assert (c = 0) as -> by lia. split_and!; [done|by apply Hfree|done|].
    assert (uvm k' [] pgdir T' U (mapped m n 0 (V2P a) perm)) as Hu'.
    { split; [done|done| |done|done]. intros n' Hn'. rewrite mapped_0. by apply Huser. }
    eapply uvm_ext; [exact Hu'|]. intros. by rewrite mapped_0.
Qed.

(** ** Growing *)

Lemma uvm_kmem k free pgdir T U m : uvm k free pgdir T U m -> kmem_ok end_ k free.
Proof. intros []. by eapply vm_kmem. Qed.

Lemma uvm_nodup k free pgdir T U m : uvm k free pgdir T U m -> NoDup (owned pgdir T U ++ free).
Proof. intros [_ Hn _ _ _]. unfold owned. simpl. by rewrite <-app_assoc. Qed.

(** The page that [kalloc] took is filled with [bs]. *)
Lemma uvm_take k a free pgdir T U m k1 bs : uvm k (a :: free) pgdir T U m ->
  kmem_ok end_ k1 free -> pages k1 = pages k -> length bs = 4096%nat ->
  page_ok end_ a /\ (a =? 0) = false /\ (a ∉ owned pgdir T U ++ free) /\
  exists k2, put_page a bs k1 = Ret tt k2 /\ pages k2 = <[a := bs]> (pages k) /\ full k2 a /\
    uvm k2 free pgdir T U m.
Proof.
  intros Hu Hk1 Ep Hl. pose proof (uvm_kmem _ _ _ _ _ _ Hu) as [_ (_ & ab & Hab & _) [Haf _]%NoDup_cons [Hpa _]%Forall_cons_1].
  pose proof (uvm_nodup _ _ _ _ _ _ Hu) as Hn.
  assert (a ∉ owned pgdir T U) as Hao.
  { apply NoDup_app in Hn as (_ & Hn & _). intros H. apply (Hn a H). left. }
  assert (NoDup (owned pgdir T U ++ free)) as Hn'.
  { apply NoDup_app in Hn as (H1 & H2 & [_ H3]%NoDup_cons). apply NoDup_app. split_and!; [done|clear -H2; set_solver|done]. }
  split_and!; [done|apply Z.eqb_neq; destruct Hpa; lia|clear -Haf Hao; set_solver|].
  eexists. split; [|split; [|split]].
  - unfold put_page, get_page, bind, gets, deref. rewrite Ep, Hab. reflexivity.
  - simpl. by rewrite Ep.
  - exists bs. simpl. by rewrite lookup_insert_eq.
  - eapply uvm_frame; [exact Hu|by apply kmem_ok_write|done|].
    intros x Hx. simpl. rewrite Ep, lookup_insert_ne; [done|]. clear -Hx Hao. set_solver.
Qed.

(** Growing from page [j0] has reached page [j]: the pages [new] were added, zeroed. *)
Record grown (k0 : kmem) (free0 : list Z) (T0 U0 : gmap Z Z) (m0 : Z -> Z) (pgdir j0 j : Z)
    (k : kmem) (free : list Z) (T U : gmap Z Z) (m : Z -> Z) (new : list Z) : Prop := {
  g_uvm : uvm k free pgdir T U m;
  g_new : vals U ≡ₚ new ++ vals U0;
  g_len : Z.of_nat (length new) = j - j0;
  g_all : vals T ++ new ++ free ≡ₚ vals T0 ++ free0;
  g_frame : frame (pgdir :: vals T0 ++ free0) k0 k;
  g_old : forall n, ~ (j0 <= n < j) -> U !! n = U0 !! n /\ (vpn_ok n -> m n = m0 n);
  g_zero : forall n, j0 <= n < j -> exists a, U !! n = Some a /\
    pages k !! a = Some zero_page /\ m n = pte_of (V2P a) (Z.lor PTE_W PTE_U)
}.

Lemma alloc_step k0 free0 T0 U0 m0 pgdir j0 j k a free T U m new k1 :
  grown k0 free0 T0 U0 m0 pgdir j0 j k (a :: free) T U m new -> 0 <= j0 <= j -> j < 2 ^ 19 ->
  U0 !! j = None -> kmem_ok end_ k1 free -> pages k1 = pages k ->
  (a =? 0) = false /\ exists k2 r k3 free3 T3, clear_page a k1 = Ret tt k2 /\
  mappages pgdir (4096 * j) PGSIZE (V2P a) (Z.lor PTE_W PTE_U) k2 = Ret r k3 /\
  (r = 0 /\ grown k0 free0 T0 U0 m0 pgdir j0 (j + 1) k3 free3 T3 (<[j := a]> U) (upd m j (pte_of (V2P a) (Z.lor PTE_W PTE_U))) (a :: new) \/
   r = -1 /\ free3 = [] /\ uvm k3 [] pgdir T3 U m /\ vals T3 ≡ₚ vals T ++ free /\
     frame (pgdir :: vals T0 ++ free0) k0 k3 /\ page_ok end_ a /\ full k3 a /\ (a ∉ owned pgdir T3 U)).
Proof.
  intros [Hu Hnew Hlen Hall Hfr Hold Hzero] Hj Hj2 HU0 Hk1 Ep.
  destruct (uvm_take _ _ _ _ _ _ _ _ zero_page Hu Hk1 Ep eq_refl) as (Hpa & Hnz & Ha & k2 & E2 & Hp2 & Hfa & Hu2).
  split; [done|]. destruct (Hold j ltac:(lia)) as [HUj _].
  destruct (uvm_map _ _ _ _ _ _ j a (Z.lor PTE_W PTE_U) Hu2) as (r & k3 & free3 & T3 & E3 & Hpm & Hf3 & Hres);
    [lia|congruence|done|done|done|done|].
  exists k2, r, k3, free3, T3. split; [done|]. split; [done|].
  assert (frame (pgdir :: vals T0 ++ free0) k0 k3) as Hfr3.
  { intros x Hx. rewrite <-Hall in Hx. rewrite Hf3, Hp2, lookup_insert_ne, Hfr; [done| |clear -Hx; set_solver..].
    by rewrite <-Hall. }
  assert (a ∉ pgdir :: vals T ++ free) as Haf by (unfold owned in Ha; clear -Ha; set_solver).
  destruct Hres as [[-> Hu3]|(-> & _ & -> & Hu3)].
  - left. split; [done|]. split; [done| | | |done| |].
    + rewrite vals_insert by congruence. by rewrite Hnew.
    + simpl. lia.
    + rewrite <-app_comm_cons, <-Permutation_middle, (Permutation_app_comm new), app_assoc, Hpm.
      rewrite <-app_assoc, (Permutation_app_comm free), Permutation_middle, (Permutation_middle _ _ a). done.
    + intros n Hn. unfold upd. rewrite lookup_insert_ne, decide_False by lia. apply Hold. lia.
    + intros n Hn. unfold upd. destruct (decide (n = j)) as [->|Hne].
      * exists a. rewrite lookup_insert_eq. split_and!; [done| |done].
        rewrite Hf3, Hp2, lookup_insert_eq by done. done.
      * rewrite lookup_insert_ne by done. destruct (Hzero n ltac:(lia)) as (b & Hb & Hzb & Hmb).
        exists b. split_and!; [done| |done].
        destruct (uvm_page _ _ _ _ _ _ _ _ Hu Hb) as (_ & _ & _ & Hb1 & Hb2).
        rewrite Hf3, Hp2, lookup_insert_ne; [done|clear -Hb2; set_solver|clear -Hb1 Hb2; set_solver].
  - right. rewrite app_nil_r in Hpm. split_and!; try done.
    + eapply full_same; [by apply Hf3|done].
    + unfold owned. rewrite Hpm. unfold owned in Ha. clear -Ha. set_solver.
Qed.

(** Undoing: every page that was added is freed again. *)
Lemma alloc_undo k0 free0 T0 U0 m0 pgdir oldsz newsz k free T U m new j :
  let j0 := (oldsz + 4095) / 4096 in
  let e := (newsz + 4095) / 4096 in
  uvm k free pgdir T U m -> vals U ≡ₚ new ++ vals U0 ->
  (forall n, ~ (j0 <= n < j) -> U !! n = U0 !! n /\ (vpn_ok n -> m n = m0 n)) ->
  (forall n, j0 <= n < e -> U0 !! n = None) -> j <= e -> 0 <= oldsz < newsz -> newsz < KERNBASE ->
  vals T ⊆ vals T0 ++ free0 -> new ⊆ vals T0 ++ free0 ->
  frame (pgdir :: vals T0 ++ free0) k0 k ->
  exists k' fr m', deallocuvm end_ pgdir newsz oldsz k = Ret oldsz k' /\
    uvm k' (fr ++ free) pgdir T U0 m' /\ fr ≡ₚ new /\ frame (pgdir :: vals T0 ++ free0) k0 k' /\
    frame (vals T ++ new) k k' /\
    (forall n, vpn_ok n -> ~ (j0 <= n < e) -> m' n = m0 n).
Proof.
  intros j0 e Hu Hnew Hold Hnone Hj Ho Hk HT Hn Hfr.
  destruct (deallocuvm_run k free pgdir T U m newsz oldsz Hu) as (k' & fr & E & Hu' & Hp & Hf); [lia|lia|].
  fold j0 e in E, Hu', Hp, Hf.
  assert (drop_range j0 e U = U0) as HU.
  { apply map_eq. intros n. rewrite lookup_drop_range. case_decide; [symmetry; by apply Hnone|].
    apply Hold. lia. }
  rewrite HU in *. rewrite Hnew in Hp. apply Permutation_app_inv_r in Hp.
  exists k', fr, (cleared m j0 e). split_and!; try done.
  - eapply frame_trans; [exact Hfr|exact Hf|]. rewrite <-Hp. clear -HT Hn. set_solver.
  - eapply frame_mono; [exact Hf|]. by rewrite Hp.
  - intros n Hvn Hnr. unfold cleared. rewrite decide_False by done. apply Hold; [lia|done].
Qed.

Lemma alloc_loop_run k0 free0 T0 U0 m0 pgdir oldsz newsz :
  let j0 := (oldsz + 4095) / 4096 in
  let e := (newsz + 4095) / 4096 in
  0 <= oldsz <= newsz -> newsz < KERNBASE -> (forall n, j0 <= n < e -> U0 !! n = None) ->
  forall fuel j k free T U m new, grown k0 free0 T0 U0 m0 pgdir j0 j k free T U m new ->
  j0 <= j <= e -> (Z.to_nat (e - j) < fuel)%nat ->
  exists r k' free' T' U' m', alloc_loop end_ fuel pgdir (4096 * j) oldsz newsz k = Ret r k' /\
    (r = newsz /\ (exists new', grown k0 free0 T0 U0 m0 pgdir j0 e k' free' T' U' m' new') \/
     r = 0 /\ U' = U0 /\ uvm k' free' pgdir T' U' m' /\ vals T' ++ free' ≡ₚ vals T0 ++ free0 /\
       frame (pgdir :: vals T0 ++ free0) k0 k' /\
       Z.of_nat (length (vals T0 ++ free0)) <= 1024 + (e - j0) /\
       (forall n, vpn_ok n -> ~ (j0 <= n < e) -> m' n = m0 n)).
Proof.
  intros j0 e Ho Hk Hnone. assert (e <= 2 ^ 19) as Hel.
  { apply Z.lt_succ_r, Z.div_lt_upper_bound; unfold KERNBASE in Hk; lia. }
  assert (0 <= j0) as Hj0 by (apply Z.div_pos; lia).
  induction fuel as [|fuel IH]; intros j k free T U m new Hg Hj Hf; [lia|]. simpl.
  destruct (4096 * j <? newsz) eqn:El.
  2:{ assert (~ j < e) by (unfold e; rewrite <-page_below, El by lia; done).
      assert (j = e) as -> by lia. eexists _, _, free, T, U, m. split; [done|]. left. eauto. }
  apply page_below in El; [|lia]. fold e in El. pose proof Hg as [Hu Hnew Hlen Hall Hfr Hold _].
  assert (oldsz < newsz) as Hlt.
  { destruct (decide (oldsz = newsz)) as [Heq|]; [|lia]. unfold j0, e in *. rewrite Heq in Hj. lia. }
  assert (vals T ⊆ vals T0 ++ free0) as HT by (rewrite <-Hall; clear; set_solver).
  assert (new ⊆ vals T0 ++ free0) as Hns by (rewrite <-Hall; clear; set_solver).
  destruct (kalloc_run _ _ _ (uvm_kmem _ _ _ _ _ _ Hu)) as (k1 & E1 & Hk1 & Ep & _).
  unfold bind at 1. rewrite E1. destruct free as [|a free]; cbv iota beta.
  - cbn [Z.eqb]. assert (uvm k1 [] pgdir T U m) as Hu1.
    { eapply uvm_frame; [exact Hu|done|by eapply uvm_nodup|intros; by rewrite Ep]. }
    destruct (alloc_undo k0 free0 T0 U0 m0 pgdir oldsz newsz k1 [] T U m new j) as (k2 & fr & m2 & E2 & Hu2 & Hp2 & Hf2 & _ & Hm2);
      try done; [lia|lia|intros x Hx; rewrite Ep; by apply Hfr|].
    unfold bind. rewrite E2. eexists _, _, _, _, _, _. split; [done|]. right. split_and!; try done.
    + by rewrite Hp2.
    + rewrite <-Hall, !length_app. simpl.
      pose proof (vm_tables_bound _ _ _ _ _ (uvm_vm _ _ _ _ _ _ Hu)). lia.
  - destruct (alloc_step _ _ _ _ _ _ _ _ _ _ _ _ _ _ _ _ Hg ltac:(lia) ltac:(lia) (Hnone j ltac:(lia)) Hk1 Ep)
      as (-> & k2 & r & k3 & free3 & T3 & E2 & E3 & Hres).
    unfold bind at 1. rewrite E2. unfold bind at 1. rewrite E3.
    destruct Hres as [[-> Hg3]|(-> & -> & Hu3 & HT3 & Hfr3 & Hpa & (ab & Hab & _) & Ha)].
    + cbn [Z.ltb Z.compare]. assert (u32 (4096 * j + PGSIZE) = 4096 * (j + 1)) as ->
        by (unfold PGSIZE; rewrite u32_small; lia).
      apply (IH (j + 1) _ _ _ _ _ _ Hg3); lia.
    + change (-1 <? 0) with true. cbv iota.
      destruct (alloc_undo k0 free0 T0 U0 m0 pgdir oldsz newsz k3 [] T3 U m new j) as (k4 & fr & m4 & E4 & Hu4 & Hp4 & Hf4 & Hf4' & Hm4);
        try done; [lia|lia|rewrite HT3, <-Hall; clear; set_solver|].
      rewrite app_nil_r in Hu4. unfold bind at 1. rewrite E4.
      assert (vals T3 ++ fr ≡ₚ vals T ++ new ++ free) as Hp5.
      { rewrite HT3, Hp4, <-app_assoc. f_equiv. apply Permutation_app_comm. }
      assert (a ∉ vals T3 ++ fr) as Haf.
      { rewrite Hp4. unfold owned in Ha. rewrite Hnew in Ha. clear -Ha. set_solver. }
      assert (a ∉ owned pgdir T3 U0) as Hao.
      { unfold owned in *. rewrite Hnew in Ha. clear -Ha. set_solver. }
      destruct (kfree_run end_ k4 fr a ab (uvm_kmem _ _ _ _ _ _ Hu4) Hpa) as (k5 & E5 & Hk5 & _ & Hp6).
      { clear -Haf. set_solver. }
      { rewrite Hf4'; [done|]. by rewrite <-Hp4. }
      unfold bind. rewrite E5. eexists _, k5, (a :: fr), T3, U0, m4. split; [done|]. right. split_and!; try done.
      * eapply uvm_frame; [exact Hu4|done| |].
        -- apply (NoDup_perm (a :: owned pgdir T3 U0 ++ fr)); [by rewrite Permutation_middle|].
           constructor; [|by eapply uvm_nodup]. clear -Hao Haf. set_solver.
        -- intros x Hx. rewrite Hp6, lookup_insert_ne; [done|]. clear -Hx Hao. set_solver.
      * rewrite <-Permutation_middle, Hp5, <-Hall. rewrite !Permutation_middle. done.
      * intros x Hx. rewrite Hp6, lookup_insert_ne by (rewrite <-Hall in Hx; clear -Hx; set_solver).
        by apply Hf4.
      * pose proof (vm_tables_bound _ _ _ _ _ (uvm_vm _ _ _ _ _ _ Hu3)). apply Permutation_length in HT3.
        rewrite <-Hall, !length_app in *. simpl. lia.
Qed.

Lemma grown_0 k free pgdir T U m j0 : uvm k free pgdir T U m ->
  grown k free T U m pgdir j0 j0 k free T U m [].
Proof. intros Hu. split; try done; [simpl; lia|intros; lia]. Qed.

Lemma allocuvm_run k free pgdir T U m oldsz newsz : let j0 := (oldsz + 4095) / 4096 in let e := (newsz + 4095) / 4096 in
  uvm k free pgdir T U m -> 0 <= oldsz <= newsz -> (forall n, j0 <= n < e -> U !! n = None) ->
  exists r k' free' T' U' m', allocuvm end_ pgdir oldsz newsz k = Ret r k' /\
    uvm k' free' pgdir T' U' m' /\ owned pgdir T' U' ++ free' ≡ₚ owned pgdir T U ++ free /\
    frame (pgdir :: vals T ++ free) k k' /\
    (forall n, ~ (j0 <= n < e) -> U' !! n = U !! n /\ (vpn_ok n -> m' n = m n)) /\
    (r = newsz /\ newsz < KERNBASE /\
       (forall n, j0 <= n < e ->
          exists a, U' !! n = Some a /\ pages k' !! a = Some zero_page /\ m' n = pte_of (V2P a) (Z.lor PTE_W PTE_U)) \/
     r = 0 /\ U' = U /\ (KERNBASE <= newsz \/ Z.of_nat (length free) <= 1024 + (e - j0))).
Proof.
  intros j0 e Hu Ho Hnone. unfold allocuvm. destruct (Z.leb_spec KERNBASE newsz) as [Hk|Hk].
  { exists 0, k, free, T, U, m. split_and!; try done. right. auto. }
  rewrite (proj2 (Z.ltb_ge _ _)) by lia. rewrite roundup_eq by (unfold KERNBASE in Hk; lia). fold j0.
  assert (j0 <= e) as Hje by (apply Z.div_le_mono; lia).
  assert (e <= newsz / 4096 + 1) as He by (unfold e; rewrite <-Z.div_add by lia; apply Z.div_le_mono; lia).
  assert (0 <= j0) as Hj0 by (apply Z.div_pos; lia).
  destruct (alloc_loop_run k free T U m pgdir oldsz newsz Ho Hk Hnone (S (S (Z.to_nat (newsz / PGSIZE)))) j0 k free T U m []
    (grown_0 _ _ _ _ _ _ _ Hu)) as (r & k' & free' & T' & U' & m' & E & Hres); [lia|unfold PGSIZE; lia|].
  fold j0 e in Hres. exists r, k', free', T', U', m'. split; [done|].
  destruct Hres as [(-> & new & [Hu' Hnew _ Hall Hfr Hold Hzero])|(-> & -> & Hu' & Hp & Hfr & Hlen & Hm)].
  - split_and!; [done| |done|done|left; split_and!; [done|lia|done]].
    unfold owned. rewrite <-!app_comm_cons, <-!app_assoc. constructor.
    rewrite Hnew, (Permutation_app_comm (vals U) free), <-!app_assoc, (Permutation_app_comm (vals U) free').
    rewrite !app_assoc. rewrite <-(app_assoc _ new), Hall. done.
  - split_and!; [done| |done| |right; split_and!; [done|done|right]].
    + unfold owned. rewrite <-!app_comm_cons, <-!app_assoc. constructor.
      rewrite (Permutation_app_comm (vals U) free), (Permutation_app_comm (vals U) free').
      by rewrite !app_assoc, Hp.
    + intros n Hn. split; [done|]. intros Hv. by apply Hm.
    + rewrite length_app in Hlen. lia.
Qed.

(** C24: [allocuvm] always returns, and keeps the address space and the partition of memory
    into owned and free pages.  Either it returns the new size and every page from the old
    size up to it is a zeroed user page of its own, writable by the user; or it returns 0,
    for a size beyond the kernel's base or for lack of memory (which 1024 pages more than
    the growth rule out), and the user pages are those of before.  Pages that were mapped
    keep their place, their entry and their contents in both cases. *)
Theorem allocuvm_correct k free pgdir T U m oldsz newsz :
  uvm k free pgdir T U m -> 0 <= oldsz <= newsz ->
  (forall n, (oldsz + 4095) / 4096 <= n < (newsz + 4095) / 4096 -> U !! n = None) ->
  exists r k' free' T' U' m', allocuvm end_ pgdir oldsz newsz k = Ret r k' /\
    uvm k' free' pgdir T' U' m' /\ owned pgdir T' U' ++ free' ≡ₚ owned pgdir T U ++ free /\
    (forall n a, U !! n = Some a -> U' !! n = Some a /\ m' n = m n /\ pages k' !! a = pages k !! a) /\
    (r = newsz /\ newsz < KERNBASE /\
       (forall n, (oldsz + 4095) / 4096 <= n < (newsz + 4095) / 4096 ->
          exists a, U' !! n = Some a /\ pages k' !! a = Some zero_page /\ m' n = pte_of (V2P a) (Z.lor PTE_W PTE_U)) \/
     r = 0 /\ U' = U /\
       (KERNBASE <= newsz \/
        Z.of_nat (length free) <= 1024 + ((newsz + 4095) / 4096 - (oldsz + 4095) / 4096))).
Proof.
  intros Hu Ho Hnone. destruct (allocuvm_run k free pgdir T U m oldsz newsz Hu Ho Hnone)
    as (r & k' & free' & T' & U' & m' & E & Hu' & Hp & Hfr & Hold & Hres).
  exists r, k', free', T', U', m'. split_and!; [done|done|done| |done]. intros n a Ha.
  destruct (Hold n) as [-> Hmn]; [intros Hn; rewrite Hnone in Ha by done; done|].
  destruct (uvm_page _ _ _ _ _ _ _ _ Hu Ha) as (_ & _ & _ & H1 & H2). pose proof (uvm_idx _ _ _ _ _ _ Hu _ _ Ha).
  split_and!; [done|apply Hmn; unfold vpn_ok; lia|apply Hfr]. clear -H1 H2. set_solver.
Qed.

(** ** The kernel's part of an address space *)

(** The page numbers a line of [kmap] covers. *)
Definition kmap_from (k : kmap) : Z := virt k / 4096.
Definition kmap_count (k : kmap) : Z := u32 (phys_end k - phys_start k) / 4096.
(** Lines in order, aligned and in range, from page [lo] on. *)
Fixpoint kmaps_fit (lo : Z) (ks : list kmap) : Prop :=
  match ks with
  | [] => True
  | k :: ks' =>
      lo <= kmap_from k /\ virt k = 4096 * kmap_from k /\ 0 < kmap_count k /\
      u32 (phys_end k - phys_start k) = u32 (4096 * kmap_count k) /\
      kmap_from k + kmap_count k <= 2 ^ 20 /\
      0 <= phys_start k /\ phys_start k + 4096 * kmap_count k <= 2 ^ 32 /\
      kmaps_fit (kmap_from k + kmap_count k) ks'
  end.
(** The entries that the lines make, over those of [m]. *)
Definition kernel_view (ks : list kmap) (m : Z -> Z) : Z -> Z :=
  fold_left (fun m k => mapped m (kmap_from k) (kmap_count k) (phys_start k) (perm k)) ks m.

(** Tables that map nothing of the user's. *)
Lemma vm_uvm k free pgdir T m : vm_ok k free pgdir T m -> (forall n, 0 <= n < 2 ^ 19 -> present (m n) = false) ->
  uvm k free pgdir T ∅ m.
Proof. intros Hv Hm. split; [done|apply Hv|done|done|constructor]. Qed.

Lemma map_kernel_run pgdir ks : forall k free T m lo,
  vm_ok k free pgdir T m -> 2 ^ 19 <= lo -> kmaps_fit lo ks ->
  (forall n, 0 <= n < 2 ^ 19 \/ lo <= n -> present (m n) = false) ->
  exists r k' free', map_kernel end_ ks pgdir k = Ret r k' /\ frame (pgdir :: vals T ++ free) k k' /\
    ((r = pgdir /\ exists T', uvm k' free' pgdir T' ∅ (kernel_view ks m) /\ vals T' ++ free' ≡ₚ vals T ++ free) \/
     (r = 0 /\ kmem_ok end_ k' free' /\ free' ≡ₚ pgdir :: vals T ++ free /\
        Z.of_nat (length (vals T ++ free)) <= 1024)).
Proof.
  induction ks as [|km ks IH]; intros k free T m lo Hv Hlo Hfit Hm; simpl.
  { exists pgdir, k, free. split_and!; [done|done|]. left. split; [done|]. exists T. split; [|done].
    apply vm_uvm; [done|]. intros n Hn. apply Hm. lia. }
  destruct Hfit as (Hl & Hvirt & Hc & Hsz & Hr & Hpa & Hpr & Hfit).
  destruct (mappages_run k free pgdir T m (kmap_from km) (kmap_count km) (phys_start km) (perm km))
    as (r & k1 & free1 & T1 & c & E & Hv1 & Hp1 & Hf1 & Hres); [done|lia|lia|lia|intros j Hj; apply Hm; lia|lia|lia|].
  rewrite Hvirt, Hsz. unfold bind at 1. rewrite E.
  assert (forall n, 0 <= n < 2 ^ 19 -> present (mapped m (kmap_from km) c (phys_start km) (perm km) n) = false) as Hm1.
  { intros n Hn. unfold mapped. rewrite decide_False by lia. apply Hm. lia. }
  destruct Hres as [[-> ->]|(-> & Hc' & -> & _)].
  - cbn [Z.ltb Z.compare].
    destruct (IH k1 free1 T1 _ (kmap_from km + kmap_count km) Hv1) as (r & k2 & free2 & E2 & Hf2 & Hres); [lia|done| |].
    { intros n [Hn|Hn]; [by apply Hm1|]. unfold mapped. rewrite decide_False by lia. apply Hm. lia. }
    exists r, k2, free2. split_and!; [done| |].
    + eapply frame_trans; [exact Hf1|exact Hf2|]. by apply perm_frame.
    + destruct Hres as [(-> & T' & Hu & Hp)|(-> & Hk & Hp & Hlen)].
      * left. split; [done|]. exists T'. split; [done|]. by rewrite Hp.
      * right. split_and!; [done|done|by rewrite Hp, Hp1|by rewrite <-Hp1].
  - change (-1 <? 0) with true. cbv iota.
    destruct (freevm_run _ _ _ _ _ _ (vm_uvm _ _ _ _ _ Hv1 Hm1)) as (k2 & free2 & E2 & Hk2 & Hp2 & Hf2).
    unfold bind. rewrite E2. exists 0, k2, free2. split_and!; [done| |right; split_and!; [done|done| |]].
    + eapply frame_trans; [exact Hf1|exact Hf2|]. unfold owned. rewrite app_nil_r.
      rewrite app_nil_r in Hp1. by rewrite Hp1.
    + rewrite Hp2. unfold owned. rewrite !app_nil_r. rewrite app_nil_r in Hp1. by rewrite Hp1.
    + rewrite <-Hp1, app_nil_r. pose proof (vm_tables_bound _ _ _ _ _ Hv1). lia.
Qed.

(** A zeroed page is a directory without tables. *)
Lemma vm_empty k a free k1 : kmem_ok end_ k (a :: free) -> kmem_ok end_ k1 free -> pages k1 = pages k ->
  exists k2, clear_page a k1 = Ret tt k2 /\ vm_ok k2 free a ∅ (fun _ => 0) /\ frame [a] k k2.
Proof.
  intros [_ (_ & ab & Hab & _) [Haf Hn]%NoDup_cons [Hpa _]%Forall_cons_1] Hk1 Ep.
  eexists. split; [|split].
  - unfold clear_page, put_page, get_page, bind, gets, deref. rewrite Ep, Hab. reflexivity.
  - split; [by apply kmem_ok_write|by constructor| | |done|done].
    + constructor; [|constructor]. split; [done|]. exists zero_page. simpl. by rewrite lookup_insert_eq.
    + intros i Hi. rewrite lookup_empty. rewrite (entry_zero k1) by done. done.
  - intros x Hx. simpl. rewrite Ep, lookup_insert_ne; [done|]. clear -Hx. set_solver.
Qed.

Context (data_ : Z).
Hypothesis Hdata : data_ mod 4096 = 0 /\ KERNLINK < data_ < KERNBASE + PHYSTOP.

Lemma kmaps_ok : kmaps_fit (2 ^ 19) (kmaps data_).
Proof.
  destruct Hdata as [Hm Hr]. pose proof (Z.div_mod data_ 4096 ltac:(lia)) as Hd. rewrite Hm in Hd.
  assert (V2P data_ = data_ - KERNBASE) as Ev.
  { unfold V2P. rewrite u32_small; [done|]. unfold KERNLINK, KERNBASE, EXTMEM, PHYSTOP in *. lia. }
  unfold kmaps, kmaps_fit, kmap_from, kmap_count; cbn [virt phys_start phys_end].
  rewrite Ev. change (V2P KERNLINK) with EXTMEM.
  rewrite !(u32_small (data_ - KERNBASE - EXTMEM)), !(u32_small (PHYSTOP - (data_ - KERNBASE))), !(u32_small (EXTMEM - 0))
    by (unfold KERNLINK, KERNBASE, EXTMEM, PHYSTOP in *; lia).
  assert ((data_ - KERNBASE - EXTMEM) = 4096 * (data_ / 4096 - KERNLINK / 4096)) as E1.
  { change (KERNLINK / 4096) with 524544. unfold KERNLINK, KERNBASE, EXTMEM in *. lia. }
  assert ((PHYSTOP - (data_ - KERNBASE)) = 4096 * ((KERNBASE + PHYSTOP) / 4096 - data_ / 4096)) as E2.
  { change ((KERNBASE + PHYSTOP) / 4096) with 581632. unfold PHYSTOP, KERNBASE in *. lia. }
  rewrite E1, E2. rewrite !(Z.mul_comm 4096 (_ - _)), !Z.div_mul by lia.
  change (KERNBASE / 4096) with (2 ^ 19). change (KERNLINK / 4096) with 524544 in *.
  change ((KERNBASE + PHYSTOP) / 4096) with 581632 in *. change (DEVSPACE / 4096) with 1040384.
  change (u32 (0 - DEVSPACE)) with (4096 * 8192). change ((EXTMEM - 0) / 4096) with 256.
  change (4096 * 8192 / 4096) with 8192.
  unfold KERNLINK, KERNBASE, EXTMEM, PHYSTOP, DEVSPACE in *.
  repeat split; try lia; try reflexivity; rewrite ?u32_small; lia.
Qed.

Lemma setupkvm_run k free : kmem_ok end_ k free ->
  exists r k' free', setupkvm end_ data_ k = Ret r k' /\ frame free k k' /\
    ((exists T, uvm k' free' r T ∅ (kernel_view (kmaps data_) (fun _ => 0)) /\ r :: vals T ++ free' ≡ₚ free /\ r <> 0) \/
     (r = 0 /\ kmem_ok end_ k' free' /\ free' ≡ₚ free /\ Z.of_nat (length free) <= 1025)).
Proof.
  intros Hk. unfold setupkvm. destruct (kalloc_run _ _ _ Hk) as (k1 & E1 & Hk1 & Ep & _).
  unfold bind at 1. rewrite E1. destruct free as [|a free]; cbv iota beta.
  { exists 0, k1, []. split_and!; [done|intros x _; by rewrite Ep|]. right. split_and!; done || (simpl; lia). }
  destruct (vm_empty _ _ _ _ Hk Hk1 Ep) as (k2 & E2 & Hv2 & Hf2).
  assert (a <> 0) as Ha by (destruct Hk as [_ _ _ [[Ha _] _]%Forall_cons_1]; lia).
  rewrite (proj2 (Z.eqb_neq _ _)) by done. unfold bind at 1. rewrite E2.
  change (panic_if (DEVSPACE <? P2V PHYSTOP) "PHYSTOP too high") with (ret (S := kmem) tt).
  unfold bind at 1, ret at 1.
  destruct (map_kernel_run a (kmaps data_) k2 free ∅ _ (2 ^ 19) Hv2) as (r & k3 & free3 & E3 & Hf3 & Hres);
    [lia|apply kmaps_ok|done|].
  exists r, k3, free3. split_and!; [done| |].
  - eapply frame_trans; [eapply frame_mono; [exact Hf2|]|exact Hf3|]; unfold vals; rewrite ?map_to_list_empty; simpl; clear; set_solver.
  - destruct Hres as [(-> & T & Hu & Hp)|(-> & Hk3 & Hp & Hlen)].
    + left. exists T. split_and!; [done| |done]. by rewrite Hp.
    + right. split_and!; [done|done|done|]. rewrite length_app in Hlen. simpl length. lia.
Qed.

(** [mappages] always returns, whatever the alignment of the range.  When it returns 0,
    every page that the range touches has the entry of its physical page with the flags and
    the present bit, and no other entry has changed; when it returns -1, memory ran out after
    the first [c] of these pages.  Only the tables' pages and free pages are written, and a
    page is a table exactly when it was one before or was free. *)
Theorem mappages_correct k free pgdir T m va size pa perm :
  vm_ok k free pgdir T m -> 0 <= va -> 0 < size -> va + size <= 2 ^ 32 ->
  (forall n, va / 4096 <= n <= (va + size - 1) / 4096 -> present (m n) = false) ->
  0 <= pa -> pa + 4096 * ((va + size - 1) / 4096 - va / 4096 + 1) <= 2 ^ 32 ->
  exists r k' free' T' c, mappages pgdir va size pa perm k = Ret r k' /\
    vm_ok k' free' pgdir T' (mapped m (va / 4096) c pa perm) /\
    vals T' ++ free' ≡ₚ vals T ++ free /\ frame (pgdir :: vals T ++ free) k k' /\
    (r = 0 /\ c = (va + size - 1) / 4096 - va / 4096 + 1 \/
     r = -1 /\ 0 <= c <= (va + size - 1) / 4096 - va / 4096 /\ free' = [] /\ (c = 0 -> free = [])).
Proof.
  intros Hv Hva Hs Hr Hnp Hpa Hpr. unfold mappages. rewrite (u32_small (va + size - 1)) by lia. rewrite !rounddown_eq.
  pose proof (Z.div_mod va 4096 ltac:(lia)). pose proof (Z.div_mod (va + size - 1) 4096 ltac:(lia)).
  assert (va / 4096 <= (va + size - 1) / 4096) by (apply Z.div_le_mono; lia).
  assert ((va + size - 1) / 4096 < 2 ^ 20) by (apply Z.div_lt_upper_bound; lia).
  assert (0 <= va / 4096) by (apply Z.div_pos; lia).
  set (n := va / 4096) in *. set (l := (va + size - 1) / 4096) in *.
  replace (va - va mod 4096) with (4096 * n) by lia.
  replace (va + size - 1 - (va + size - 1) mod 4096) with (4096 * l) by lia.
  rewrite u32_small by lia. replace (4096 * l - 4096 * n) with ((l - n) * PGSIZE) by (unfold PGSIZE; lia).
  rewrite Z.div_mul by done.
  destruct (map_loop_run (S (Z.to_nat (l - n))) pgdir perm n pa (4096 * n) pa k free T m)
    as (r & k' & free' & T' & c & E & Hv' & Hp' & Hf' & Hr'); try done; try lia.
  { intros j Hj. apply Hnp. lia. }
  exists r, k', free', T', (Z.of_nat c). split_and!; try done.
  destruct Hr' as [[-> ->]|(-> & ? & -> & H0')]; [left; lia|right; split_and!; [done|lia|lia|done|]].
  intros Hc0. apply H0'. lia.
Qed.

(** [freevm] returns every page of an address space (the directory, the tables, the user
    pages) to the allocator, each once, and touches no other page. *)
Theorem freevm_returns_all k free pgdir T U m : uvm k free pgdir T U m ->
  exists k' free', freevm end_ pgdir k = Ret tt k' /\ kmem_ok end_ k' free' /\
    free' ≡ₚ owned pgdir T U ++ free /\ (forall a, a ∉ owned pgdir T U -> pages k' !! a = pages k !! a).
Proof. apply freevm_run. Qed.
End proofs.
Arguments vm_ok : clear implicits.
Arguments uvm : clear implicits.
Arguments grown : clear implicits.

(** ** Examples *)

(** The four pages of [demo_kmem], the first of them an empty directory. *)
Definition demo_dir : kmem :=
  match (kalloc ;;; clear_page 0x80103000) demo_kmem with Ret _ k => k | _ => demo_kmem end.
Definition demo_rest : list Z := [0x80102000; 0x80101000; 0x80100000].

Lemma demo_dir_vm : vm_ok 0x80100000 demo_dir demo_rest 0x80103000 ∅ (fun _ => 0).
Proof.
  destruct (kalloc_run _ _ _ demo_kmem_ok) as (k1 & E1 & Hk1 & Ep & _).
  destruct (vm_empty _ _ _ _ demo_kmem_ok Hk1 Ep) as (k2 & E2 & Hv2 & _).
  unfold demo_dir, bind. rewrite E1. cbv iota beta. rewrite E2. exact Hv2.
Qed.

Lemma demo_dir_uvm : uvm 0x80100000 demo_dir demo_rest 0x80103000 ∅ ∅ (fun _ => 0).
Proof. apply vm_uvm; [exact demo_dir_vm|done]. Qed.

Lemma mappages_correct_witness : exists r k' free' T' c,
  mappages 0x80103000 0x1234 0x2000 0x5000 PTE_W demo_dir = Ret r k' /\
  vm_ok 0x80100000 k' free' 0x80103000 T' (mapped (fun _ => 0) 1 c 0x5000 PTE_W) /\ (r = 0 /\ c = 3 \/ r = -1).
Proof.
  destruct (mappages_correct demo_dir demo_rest 0x80103000 ∅ (fun _ => 0) 0x1234 0x2000 0x5000 PTE_W demo_dir_vm)
    as (r & k' & free' & T' & c & E & Hv & _ & _ & Hr); [lia|lia|lia|reflexivity|lia|vm_compute; congruence|].
  exists r, k', free', T', c. split; [exact E|]. split; [exact Hv|].
  destruct Hr as [[-> ->]|[-> _]]; [left; split; reflexivity|right; reflexivity].
Defined.

Lemma allocuvm_correct_witness : exists r k' free' T' U' m',
  allocuvm 0x80100000 0x80103000 0 5000 demo_dir = Ret r k' /\ uvm 0x80100000 k' free' 0x80103000 T' U' m' /\
  (r = 5000 \/ r = 0).
Proof.
  destruct (allocuvm_correct (end_ := 0x80100000) ltac:(reflexivity) demo_dir demo_rest 0x80103000 ∅ ∅ (fun _ => 0) 0 5000 demo_dir_uvm)
    as (r & k' & free' & T' & U' & m' & E & Hu & _ & _ & Hr); [lia|intros; apply lookup_empty|].
  exists r, k', free', T', U', m'. split; [exact E|]. split; [exact Hu|].
  destruct Hr as [[-> _]|[-> _]]; [left|right]; reflexivity.
Defined.

(** A page mapped at address 0. *)
Lemma first_page end_ k a free pgdir m : uvm end_ k (a :: free) pgdir ∅ ∅ m -> free <> [] ->
  exists k' free' T' m', uvm end_ k' free' pgdir T' {[0 := a]} m'.
Proof.
  intros Hu Hne. destruct (kalloc_run _ _ _ (uvm_kmem _ _ _ _ _ _ Hu)) as (k1 & E1 & Hk1 & Ep & _).
  destruct (uvm_take _ _ _ _ _ _ _ k1 zero_page Hu Hk1 Ep eq_refl) as (Hpa & _ & Ha & k2 & E2 & Hp2 & Hfa & Hu2).
  destruct (uvm_map _ _ _ _ _ _ 0 a (Z.lor PTE_W PTE_U) Hu2) as (r & k3 & free3 & T3 & E3 & _ & _ & Hres);
    [lia|apply lookup_empty|done|done|done|done|].
  destruct Hres as [[_ Hu3]|(_ & Hf & _)]; [|done]. eauto.
Qed.

Lemma demo_parent : exists k free T m, uvm 0x80100000 k free 0x80103000 T {[0 := 0x80102000]} m.
Proof. exact (first_page _ _ _ [0x80101000; 0x80100000] _ _ demo_dir_uvm ltac:(discriminate)). Qed.

Lemma freevm_returns_all_witness : exists k free T k' free',
  freevm 0x80100000 0x80103000 k = Ret tt k' /\ free' ≡ₚ owned 0x80103000 T {[0 := 0x80102000]} ++ free.
Proof.
  destruct demo_parent as (k & free & T & m & Hu).
  destruct (freevm_returns_all (end_ := 0x80100000) ltac:(reflexivity) k free 0x80103000 T {[0 := 0x80102000]} m Hu) as (k' & free' & E & _ & Hp & _).
  exists k, free, T, k', free'. split; [exact E|exact Hp].
Defined.
