(* ===== verification/VmCopy.v ===== *)
(** * Copying an address space ([copyuvm] of src/p5/xv6-public/vm.c)

    [fork] gives the child a copy of the parent's memory.  Two address spaces live in one
    allocator; the copy takes its pages from the free ones only, and gives all of them back
    when memory runs out. *)

From S2P Require Import Prelude Bytes Kalloc Vm VmProofs.

Section copy.
Context (end_ data_ : Z).
Hypothesis Hend : KERNBASE < end_.
Hypothesis Hdata : data_ mod 4096 = 0 /\ KERNLINK < data_ < KERNBASE + PHYSTOP.

(** The kernel's entries of every address space. *)
Definition kernel_entries : Z -> Z := kernel_view (kmaps data_) (fun _ => 0).

(** Page [n] of the child is a copy of the parent's page, with its flags. *)
Definition copied (k : kmem) (U : gmap Z Z) (m : Z -> Z) (Uc : gmap Z Z) (mc : Z -> Z) (n : Z) : Prop :=
  exists a b, U !! n = Some a /\ Uc !! n = Some b /\ pages k !! b = pages k !! a /\
    mc n = pte_of (V2P b) (PTE_FLAGS (m n)).

(** The pages below [j] of parent [pgdir] have been copied to [d]. *)
Record copying (k0 : kmem) (free0 : list Z) (pgdir : Z) (T U : gmap Z Z) (m : Z -> Z) (j : Z)
    (k : kmem) (free : list Z) (d : Z) (Tc Uc : gmap Z Z) (mc : Z -> Z) : Prop := {
  c_parent : uvm end_ k free pgdir T U m;
  c_child : uvm end_ k free d Tc Uc mc;
  c_nodup : NoDup (owned pgdir T U ++ free0);
  c_all : owned d Tc Uc ++ free ≡ₚ free0;
  c_same : forall a, a ∈ owned pgdir T U -> pages k !! a = pages k0 !! a;
  c_dom : forall n, is_Some (Uc !! n) -> 0 <= n < j;
  c_len : Z.of_nat (length (vals Uc)) = j;
  c_pages : forall n, 0 <= n < j -> copied k U m Uc mc n;
  c_kernel : forall n, 2 ^ 19 <= n < 2 ^ 20 -> mc n = kernel_entries n
}.

Lemma flags_range e : 0 <= PTE_FLAGS e < 4096.
Proof. unfold PTE_FLAGS. rewrite (land_ones_mod _ 12) by done. by apply Z.mod_pos_bound. Qed.

(** The parent survives what happens to the child's and the free pages. *)
Lemma parent_frame k0 free0 pgdir T U m k free l k' free' :
  uvm end_ k free pgdir T U m -> NoDup (owned pgdir T U ++ free0) ->
  frame l k k' -> l ⊆ free0 -> kmem_ok end_ k' free' -> free' ⊆ free0 ->
  (forall a, a ∈ owned pgdir T U -> pages k !! a = pages k0 !! a) ->
  uvm end_ k' free' pgdir T U m /\ (forall a, a ∈ owned pgdir T U -> pages k' !! a = pages k0 !! a).
Proof.
  intros Hu Hn Hf Hl Hk Hf' Hs. apply NoDup_app in Hn as (H1 & H2 & H3).
  assert (forall a, a ∈ owned pgdir T U -> pages k' !! a = pages k !! a) as Hs'.
  { intros a Ha. apply Hf. intros Hal. apply (H2 a Ha). by apply Hl. }
  split; [|intros a Ha; rewrite Hs' by done; by apply Hs].
  eapply uvm_frame; [exact Hu|done| |done]. apply NoDup_app. split_and!; [done| |by destruct Hk].
  intros a Ha Haf. apply (H2 a Ha). by apply Hf'.
Qed.

Lemma copy_step k0 free0 pgdir T U m j k a free d Tc Uc mc k1 bs src :
  copying k0 free0 pgdir T U m j k (a :: free) d Tc Uc mc -> 0 <= j < 2 ^ 19 ->
  kmem_ok end_ k1 free -> pages k1 = pages k -> U !! j = Some src -> pages k !! src = Some bs ->
  (a =? 0) = false /\ exists k2 r k3 free3 T3, put_page a bs k1 = Ret tt k2 /\
  mappages d (4096 * j) PGSIZE (V2P a) (PTE_FLAGS (m j)) k2 = Ret r k3 /\
  (r = 0 /\ copying k0 free0 pgdir T U m (j + 1) k3 free3 d T3 (<[j := a]> Uc) (upd mc j (pte_of (V2P a) (PTE_FLAGS (m j)))) \/
   r = -1 /\ uvm end_ k3 [] d T3 Uc mc /\ a :: owned d T3 Uc ≡ₚ free0 /\ page_ok end_ a /\ full k3 a /\
     uvm end_ k3 [] pgdir T U m /\ (forall a, a ∈ owned pgdir T U -> pages k3 !! a = pages k0 !! a)).
Proof.
  intros [Hp Hc Hn Hall Hs Hdom Hlen Hpg Hker] Hj Hk1 Ep Hsrc Hbs.
  assert (length bs = 4096%nat) as Hl.
  { destruct (uvm_page _ _ _ _ _ _ _ _ Hp Hsrc) as (_ & _ & (bs' & Hb' & Hl) & _). congruence. }
  destruct (uvm_take _ _ _ _ _ _ _ _ bs Hc Hk1 Ep Hl) as (Hpa & Hnz & Ha & k2 & E2 & Hp2 & Hfa & Hu2).
  split; [done|]. assert (Uc !! j = None) as HUj.
  { destruct (Uc !! j) eqn:E; [|done]. specialize (Hdom j (mk_is_Some _ _ E)). lia. }
  destruct (uvm_map _ _ _ _ _ _ j a (PTE_FLAGS (m j)) Hu2) as (r & k3 & free3 & T3 & E3 & Hpm & Hf3 & Hres);
    [lia|done|done|done|done|apply flags_range|].
  exists k2, r, k3, free3, T3. split; [done|]. split; [done|].
  assert (frame (a :: d :: vals Tc ++ free) k k3) as Hf.
  { intros x Hx. rewrite Hf3, Hp2, lookup_insert_ne; [done|clear -Hx; set_solver..]. }
  assert (a :: d :: vals Tc ++ free ⊆ free0) as Hsub.
  { rewrite <-Hall. unfold owned. clear. set_solver. }
  assert (kmem_ok end_ k3 free3) as Hk3 by (destruct Hres as [[_ H]|(_ & _ & _ & H)]; by eapply uvm_kmem).
  assert (free3 ⊆ free0) as Hsub3.
  { etransitivity; [|exact Hsub]. assert (free3 ⊆ vals T3 ++ free3) as H by (clear; set_solver).
    rewrite Hpm in H. etransitivity; [exact H|]. clear. set_solver. }
  destruct (parent_frame _ _ _ _ _ _ _ _ _ _ _ Hp Hn Hf Hsub Hk3 Hsub3 Hs) as [Hp3 Hs3].
  assert (a ∉ d :: vals Tc ++ free) as Haf by (unfold owned in Ha; clear -Ha; set_solver).
  destruct Hres as [[-> Hu3]|(-> & _ & -> & Hu3)].
  - left. split; [done|]. split; [done|done|done| |done| | | |].
    + rewrite <-Hall. unfold owned. rewrite vals_insert by done. rewrite <-!app_comm_cons. constructor.
      rewrite <-!app_assoc, <-!app_comm_cons, <-!Permutation_middle. constructor.
      rewrite (Permutation_app_comm (vals Uc) free3), (Permutation_app_comm (vals Uc) free), !app_assoc. by rewrite Hpm.
    + intros n [b [[<- _]|[_ Hb]]%lookup_insert_Some]; [lia|]. specialize (Hdom n (mk_is_Some _ _ Hb)). lia.
    + rewrite vals_insert by done. simpl. lia.
    + intros n Hnr. unfold copied, upd. destruct (decide (n = j)) as [->|Hne].
      * exists src, a. rewrite lookup_insert_eq. split_and!; [done|done| |done].
        rewrite Hf3, Hp2, lookup_insert_eq by done. rewrite Hs3, <-Hs by (unfold owned; clear -Hsrc;
          assert (src ∈ vals U) by (apply elem_of_vals; by eexists); set_solver). done.
      * rewrite lookup_insert_ne by done. destruct (Hpg n ltac:(lia)) as (s & b & Hsn & Hb & Hsb & Hmb).
        exists s, b. split_and!; [done|done| |done].
        destruct (uvm_page _ _ _ _ _ _ _ _ Hc Hb) as (_ & _ & _ & Hb1 & Hb2).
        rewrite Hf by (clear -Hb1 Hb2; set_solver). rewrite Hsb. rewrite Hs3, <-Hs; [done|..];
          unfold owned; (assert (s ∈ vals U) by (apply elem_of_vals; by eexists); clear -H; set_solver).
    + intros n Hn'. unfold upd. rewrite decide_False by lia. by apply Hker.
  - right. rewrite app_nil_r in Hpm. split_and!; try done.
    + rewrite <-Hall. unfold owned. rewrite Hpm, <-!app_comm_cons, <-!Permutation_middle, Permutation_swap.
      constructor. constructor. rewrite <-!app_assoc. f_equiv. apply Permutation_app_comm.
    + eapply full_same; [by apply Hf3|done].
Qed.

(** Giving the unfinished copy back. *)
Lemma copy_undo k0 free0 pgdir T U m k free d Tc Uc mc :
  uvm end_ k free pgdir T U m -> uvm end_ k free d Tc Uc mc -> NoDup (owned pgdir T U ++ free0) ->
  owned d Tc Uc ++ free ≡ₚ free0 ->
  (forall a, a ∈ owned pgdir T U -> pages k !! a = pages k0 !! a) ->
  exists k' free', freevm end_ d k = Ret tt k' /\ free' ≡ₚ free0 /\ uvm end_ k' free' pgdir T U m /\
    (forall a, a ∈ owned pgdir T U -> pages k' !! a = pages k0 !! a).
Proof.
  intros Hp Hc Hn Hall Hs. destruct (freevm_run Hend _ _ _ _ _ _ Hc) as (k' & free' & E & Hk & Hpm & Hf).
  exists k', free'. split; [done|]. split; [by rewrite Hpm|].
  eapply parent_frame; [exact Hp|exact Hn|exact Hf| |exact Hk| |exact Hs].
  - rewrite <-Hall. clear. set_solver.
  - by rewrite Hpm, Hall.
Qed.

Lemma copy_loop_run k0 free0 pgdir T U m sz :
  let e := (sz + 4095) / 4096 in
  0 <= sz <= KERNBASE -> (forall n, 0 <= n < e -> is_Some (U !! n)) ->
  forall fuel j k free d Tc Uc mc, copying k0 free0 pgdir T U m j k free d Tc Uc mc ->
  0 <= j <= e -> (Z.to_nat (e - j) < fuel)%nat ->
  exists r k' free', copy_loop end_ fuel pgdir d (4096 * j) sz k = Ret r k' /\
    (r = d /\ (exists Tc' Uc' mc', copying k0 free0 pgdir T U m e k' free' d Tc' Uc' mc') \/
     r = 0 /\ free' ≡ₚ free0 /\ uvm end_ k' free' pgdir T U m /\
       (forall a, a ∈ owned pgdir T U -> pages k' !! a = pages k0 !! a) /\
       Z.of_nat (length free0) <= 1025 + e).
Proof.
  intros e Hsz HU. assert (e <= 2 ^ 19) as Hel.
  { apply Z.lt_succ_r, Z.div_lt_upper_bound; unfold KERNBASE in Hsz; lia. }
  induction fuel as [|fuel IH]; intros j k free d Tc Uc mc Hc Hj Hf; [lia|]. simpl.
  destruct (4096 * j <? sz) eqn:El.
  2:{ assert (~ j < e) by (unfold e; rewrite <-page_below, El by lia; done).
      assert (j = e) as -> by lia. exists d, k, free. split; [done|]. left. eauto 6. }
  apply page_below in El; [|lia]. fold e in El. pose proof Hc as [Hp Hch Hn Hall Hs _ Hlen _ _].
  destruct (HU j ltac:(lia)) as [src Hsrc].
  pose proof (uvm_user _ _ _ _ _ _ Hp j ltac:(lia)) as Huj. rewrite Hsrc in Huj. destruct Huj as [Hpr Had].
  destruct (uvm_page _ _ _ _ _ _ _ _ Hp Hsrc) as (_ & Hps & (bs & Hbs & _) & _).
  pose proof (uvm_vm _ _ _ _ _ _ Hp) as Hv. assert (vpn_ok j) as Hvj by (unfold vpn_ok; lia).
  destruct (T !! (j / 1024)) as [t|] eqn:Et.
  2:{ rewrite (vm_ent _ _ _ _ _ Hv j Hvj), Et in Hpr. done. }
  unfold bind at 1. rewrite (walk_found _ _ _ _ _ _ _ _ Hv Hvj Et).
  unfold panic_if. rewrite (table_addr_nz _ _ _ _ _ _ _ _ Hv Et) by (apply Z.mod_pos_bound; lia).
  unfold bind at 1, ret at 1. unfold bind at 1. rewrite (rdw_found _ _ _ _ _ _ _ Hv Hvj Et).
  rewrite Hpr. cbn [negb]. unfold bind at 1, ret at 1. rewrite Had.
  destruct (V2P_page _ _ Hps) as (_ & _ & _ & ->).
  destruct (kalloc_run _ _ _ (uvm_kmem _ _ _ _ _ _ Hp)) as (k1 & E1 & Hk1 & Ep & _).
  unfold bind at 1. rewrite E1. destruct free as [|a free]; cbv iota beta.
  - cbn [Z.eqb]. destruct (copy_undo k0 free0 pgdir T U m k1 [] d Tc Uc mc) as (k2 & free2 & E2 & Hp2 & Hu2 & Hs2); try done.
    + eapply uvm_frame; [exact Hp|done|by eapply uvm_nodup|intros; by rewrite Ep].
    + eapply uvm_frame; [exact Hch|done|by eapply uvm_nodup|intros; by rewrite Ep].
    + intros x Hx. rewrite Ep. by apply Hs.
    + unfold bind. rewrite E2. exists 0, k2, free2. split; [done|]. right. split_and!; try done.
      rewrite <-Hall, app_nil_r. unfold owned. simpl. rewrite length_app.
      pose proof (vm_tables_bound _ _ _ _ _ (uvm_vm _ _ _ _ _ _ Hch)). lia.
  - destruct (copy_step _ _ _ _ _ _ _ _ _ _ _ _ _ _ _ _ _ Hc ltac:(lia) Hk1 Ep Hsrc Hbs)
      as (-> & k2 & r & k3 & free3 & T3 & E2 & E3 & Hres).
    unfold get_page at 1. unfold bind at 1 2, gets. rewrite Ep, Hbs. unfold deref, ret at 1.
    unfold bind at 1. rewrite E2. unfold bind at 1. rewrite E3.
    destruct Hres as [[-> Hc3]|(-> & Hu3 & Hall3 & Hpa & (ab & Hab & _) & Hp3 & Hs3)].
    + cbn [Z.ltb Z.compare]. assert (u32 (4096 * j + PGSIZE) = 4096 * (j + 1)) as ->
        by (unfold PGSIZE; rewrite u32_small; lia).
      apply (IH _ _ _ _ _ _ _ Hc3); lia.
    + change (-1 <? 0) with true. cbv iota.
      destruct (kfree_run end_ k3 [] a ab (uvm_kmem _ _ _ _ _ _ Hu3) Hpa) as (k4 & E4 & Hk4 & _ & Hp4);
        [by apply not_elem_of_nil|done|].
      assert (NoDup free0) as Hn0 by (apply NoDup_app in Hn; tauto).
      assert (a ∉ owned d T3 Uc) as Hao by (rewrite <-Hall3 in Hn0; by apply NoDup_cons in Hn0 as [? _]).
      assert (a ∉ owned pgdir T U) as Hap.
      { intros Hin. apply NoDup_app in Hn as (_ & Hn & _). apply (Hn a Hin). rewrite <-Hall3. left. }
      unfold bind at 1. rewrite E4.
      destruct (copy_undo k0 free0 pgdir T U m k4 [a] d T3 Uc mc) as (k5 & free5 & E5 & Hp5 & Hu5 & Hs5); try done.
      * eapply uvm_frame; [exact Hp3|done| |].
        -- apply NoDup_app in Hn as (H1 & _ & _). apply NoDup_app. split_and!; [done| |by destruct Hk4].
           intros x Hx ->%list_elem_of_singleton. done.
        -- intros x Hx. rewrite Hp4, lookup_insert_ne; [done|]. clear -Hx Hap. set_solver.
      * eapply uvm_frame; [exact Hu3|done| |].
        -- rewrite <-Hall3 in Hn0. eapply NoDup_perm; [|exact Hn0]. by rewrite Permutation_app_comm.
        -- intros x Hx. rewrite Hp4, lookup_insert_ne; [done|]. clear -Hx Hao. set_solver.
      * rewrite <-Hall3. by rewrite Permutation_app_comm.
      * intros x Hx. rewrite Hp4, lookup_insert_ne by (clear -Hx Hap; set_solver). by apply Hs3.
      * unfold bind. rewrite E5. exists 0, k5, free5. split; [done|]. right. split_and!; try done.
        rewrite <-Hall3. unfold owned. simpl. rewrite length_app.
        pose proof (vm_tables_bound _ _ _ _ _ (uvm_vm _ _ _ _ _ _ Hu3)). lia.
Qed.

(** C23: [copyuvm] always returns and leaves the parent as it is.  Either the result is a new
    address space with a page of its own for every page below the size, holding what the
    parent's page holds with the same flags, and with the kernel's mappings above
    [KERNBASE]; parent, child and free pages are disjoint, and the child was made from free
    pages.  Or the result is 0, memory has run out (more than [1025 + e] free pages rule
    that out) and every page taken is free again. *)
Theorem copyuvm_correct k free pgdir T U m sz :
  let e := (sz + 4095) / 4096 in
  uvm end_ k free pgdir T U m -> 0 <= sz <= KERNBASE -> (forall n, 0 <= n < e -> is_Some (U !! n)) ->
  exists r k' free', copyuvm end_ data_ pgdir sz k = Ret r k' /\
    uvm end_ k' free' pgdir T U m /\ (forall a, a ∈ owned pgdir T U -> pages k' !! a = pages k !! a) /\
    (r <> 0 /\ (exists Tc Uc mc, uvm end_ k' free' r Tc Uc mc /\
        owned r Tc Uc ++ free' ≡ₚ free /\ NoDup (owned pgdir T U ++ owned r Tc Uc ++ free') /\
        (forall n, is_Some (Uc !! n) <-> 0 <= n < e) /\ (forall n, 0 <= n < e -> copied k' U m Uc mc n) /\
        (forall n, 2 ^ 19 <= n < 2 ^ 20 -> mc n = kernel_entries n)) \/
     r = 0 /\ free' ≡ₚ free /\ Z.of_nat (length free) <= 1025 + e).
Proof.
  intros e Hu Hsz HU. unfold copyuvm. pose proof (uvm_nodup _ _ _ _ _ _ Hu) as Hn.
  assert (0 <= e) as He0 by (apply Z.div_pos; lia).
  destruct (setupkvm_run Hend data_ Hdata k free (uvm_kmem _ _ _ _ _ _ Hu)) as (d & k1 & free1 & E1 & Hf1 & Hres).
  unfold bind. rewrite E1. destruct Hres as [(Tc & Hc & Hall & Hd)|(-> & Hk1 & Hp1 & Hlen)].
  2:{ cbn [Z.eqb]. exists 0, k1, free1. split; [done|].
      destruct (parent_frame k free pgdir T U m k free free k1 free1) as [Hu1 Hs1]; try done; [by rewrite Hp1|].
      split_and!; [done|done|]. right. split_and!; [done|done|lia]. }
  rewrite (proj2 (Z.eqb_neq _ _)) by done.
  assert (owned d Tc ∅ ++ free1 ≡ₚ free) as Hall'.
  { unfold owned. by rewrite app_nil_r. }
  destruct (parent_frame k free pgdir T U m k free free k1 free1) as [Hu1 Hs1]; try done.
  { by eapply uvm_kmem. }
  { rewrite <-Hall'. clear. set_solver. }
  destruct (copy_loop_run k free pgdir T U m sz Hsz HU (S (S (Z.to_nat (sz / PGSIZE)))) 0 k1 free1 d Tc ∅ (kernel_view (kmaps data_) (fun _ => 0)))
    as (r & k2 & free2 & E2 & Hres).
  - split; try done.
    + intros n [b Hb]. by rewrite lookup_empty in Hb.
    + intros; lia.
  - fold e. lia.
  - fold e. assert (e <= sz / 4096 + 1) by (unfold e; rewrite <-Z.div_add by lia; apply Z.div_le_mono; lia).
    unfold PGSIZE. lia.
  - fold e in Hres. exists r, k2, free2. split; [done|].
    destruct Hres as [(-> & T2 & U2 & m2 & [Hp2 Hc2 Hn2 Hall2 Hs2 Hdom2 _ Hpg2 Hk2])|(-> & Hp2 & Hu2 & Hs2 & Hlen)].
    + split_and!; [done|done|]. left. split; [done|]. exists T2, U2, m2. split_and!; try done.
      * by rewrite Hall2.
      * intros n. split; [apply Hdom2|]. intros Hnr. destruct (Hpg2 n Hnr) as (a & b & _ & -> & _). by eexists.
    + split_and!; [done|done|]. right. done.
Qed.
End copy.

Lemma copyuvm_correct_witness : exists k free T m r k' free',
  copyuvm 0x80100000 0x80101000 0x80103000 5 k = Ret r k' /\
  uvm 0x80100000 k' free' 0x80103000 T {[0 := 0x80102000]} m /\ (r = 0 -> free' ≡ₚ free).
Proof.
  destruct demo_parent as (k & free & T & m & Hu).
  destruct (copyuvm_correct 0x80100000 0x80101000 ltac:(reflexivity) ltac:(vm_compute; split_and!; congruence)
    k free 0x80103000 T {[0 := 0x80102000]} m 5 Hu) as (r & k' & free' & E & Hu' & _ & Hr).
  - unfold KERNBASE. lia.
  - intros n Hn. change ((5 + 4095) / 4096) with 1 in Hn. replace n with 0 by lia. eexists. apply lookup_singleton_eq.
  - exists k, free, T, m, r, k', free'. split; [exact E|]. split; [exact Hu'|].
    destruct Hr as [[Hr _]|(_ & Hp & _)]; [intros; contradiction|intros _; exact Hp].
Defined.
