(* ===== verification/VmUser.v ===== *)
(** * The memory of a process as a list of bytes

    [image] says that the user pages of an address space hold the bytes [img] from address 0
    on.  Growing appends zeros, and [copyout] writes at an address, as long as every page
    allows the user's access. *)

From S2P Require Import Prelude Bytes Kalloc Vm VmProofs VmCopy.

(** ** Lists *)

Lemma splice_nil off (l : list Z) : (off <= length l)%nat -> splice off [] l = l.
Proof. intros Hl. unfold splice. simpl. rewrite Nat.add_0_r. apply take_drop. Qed.

Lemma splice_splice off a b (l : list Z) : (off + length a + length b <= length l)%nat ->
  splice (off + length a) b (splice off a l) = splice off (a ++ b) l.
Proof.
  intros Hl. apply list_eq. intros i. destruct (Nat.lt_ge_cases i off) as [H|H].
  - rewrite !lookup_splice_out; rewrite ?length_splice, ?length_app; try lia; done.
  - destruct (Nat.lt_ge_cases i (off + length a)).
    + rewrite lookup_splice_out, lookup_splice_in, (lookup_splice_in off (a ++ b)); rewrite ?length_splice, ?length_app; try lia.
      by rewrite lookup_app_l by lia.
    + destruct (Nat.lt_ge_cases i (off + length a + length b)).
      * rewrite lookup_splice_in, (lookup_splice_in off (a ++ b)); rewrite ?length_splice, ?length_app; try lia.
        rewrite lookup_app_r by lia. f_equal. lia.
      * rewrite !lookup_splice_out; rewrite ?length_splice, ?length_app; try lia; done.
Qed.

(** A slice of a list into which something was written inside the slice. *)
Lemma slice_splice_in o n off bs (l : list Z) : (o <= off)%nat -> (off + length bs <= o + n)%nat -> (o + n <= length l)%nat ->
  slice o n (splice off bs l) = splice (off - o) bs (slice o n l).
Proof.
  intros H1 H2 H3. assert (length (slice o n l) = n) as Hs by (by apply length_slice).
  assert (length (splice off bs l) = length l) as Hl by (apply length_splice; lia).
  apply list_eq. intros i. destruct (Nat.lt_ge_cases i n).
  - rewrite lookup_slice by done. destruct (decide (off <= o + i < off + length bs)%nat).
    + rewrite !lookup_splice_in by lia. f_equal. lia.
    + rewrite !lookup_splice_out by lia. by rewrite lookup_slice.
  - transitivity (@None Z); [apply lookup_ge_None_2; rewrite length_slice; lia|].
    symmetry. apply lookup_ge_None_2. rewrite length_splice; lia.
Qed.

Lemma slice_app_left o n (a b : list Z) : (o + n <= length a)%nat -> slice o n (a ++ b) = slice o n a.
Proof.
  intros H. apply list_eq. intros i. destruct (Nat.lt_ge_cases i n).
  - rewrite !lookup_slice, lookup_app_l by lia. done.
  - rewrite !lookup_ge_None_2; [done|rewrite length_slice; lia|rewrite length_slice; rewrite ?length_app; lia].
Qed.

Section user.
Context {end_ : Z}.
Abbreviation uvm := (uvm end_).

(** Page [n] of a memory. *)
Definition page_of (img : list Z) (n : Z) : list Z := slice (Z.to_nat (4096 * n)) 4096 img.

Record image (k : kmem) (U : gmap Z Z) (img : list Z) : Prop := Image {
  im_len : exists np, 0 <= np /\ Z.of_nat (length img) = 4096 * np;
  im_dom : forall n, is_Some (U !! n) <-> 0 <= n /\ 4096 * n < Z.of_nat (length img);
  im_page : forall n a, U !! n = Some a -> pages k !! a = Some (page_of img n)
}.

Lemma image_fit k U img n : image k U img -> is_Some (U !! n) -> 0 <= n /\ 4096 * n + 4096 <= Z.of_nat (length img).
Proof. intros [(np & H1 & H2) Hd _] Hn. apply Hd in Hn. lia. Qed.

Lemma length_page_of img n : 0 <= n -> 4096 * n + 4096 <= Z.of_nat (length img) -> length (page_of img n) = 4096%nat.
Proof. intros H1 H2. apply length_slice. lia. Qed.

Lemma image_frame k k' U img : image k U img -> (forall a, a ∈ vals U -> pages k' !! a = pages k !! a) -> image k' U img.
Proof.
  intros [H1 H2 H3] Hf. split; [done|done|]. intros n a Ha. rewrite Hf; [by apply H3|]. apply elem_of_vals. by exists n.
Qed.

(** A user page is overwritten. *)
Lemma uvm_write k free pgdir T U m n a bs : uvm k free pgdir T U m -> U !! n = Some a -> length bs = 4096%nat ->
  uvm (set_pages (<[a := bs]> (pages k)) k) free pgdir T U m.
Proof.
  intros Hu Ha Hl. destruct (uvm_page _ _ _ _ _ _ _ _ Hu Ha) as (_ & _ & _ & Hat & Haf). destruct Hu as [Hv Hn Huser Hi Hp].
  assert (Hother : forall x, x ∈ pgdir :: vals T -> pages (set_pages (<[a := bs]> (pages k)) k) !! x = pages k !! x).
  { intros x Hx. simpl. rewrite lookup_insert_ne; [done|]. intros ->. done. }
  split; [|done|done|done|].
  - eapply vm_frame; [exact Hv|apply kmem_ok_write; [apply Hv|done]|apply Hv|done].
  - rewrite Forall_forall in Hp |- *. intros x Hx. destruct (Hp x Hx) as [Hpx Hfx]. split; [done|]. unfold full. simpl.
    destruct (decide (x = a)) as [->|Hne]; [exists bs; by rewrite lookup_insert_eq|]. by rewrite lookup_insert_ne.
Qed.

Lemma image_write k free pgdir T U m img n a off bs : uvm k free pgdir T U m -> image k U img -> U !! n = Some a ->
  (off + length bs <= 4096)%nat ->
  let k' := set_pages (<[a := splice off bs (page_of img n)]> (pages k)) k in
  uvm k' free pgdir T U m /\ image k' U (splice (Z.to_nat (4096 * n) + off) bs img) /\ frame (vals U) k k'.
Proof.
  intros Hu Him Ha Hoff k'. destruct (image_fit _ _ _ n Him ltac:(by eexists)) as [Hn0 Hn].
  pose proof (length_page_of img n Hn0 Hn) as Hpl. assert (Hfit : (Z.to_nat (4096 * n) + 4096 <= length img)%nat) by lia.
  assert (Hlen : length (splice (Z.to_nat (4096 * n) + off) bs img) = length img) by (apply length_splice; lia).
  split_and!.
  - eapply uvm_write; [done|done|]. rewrite length_splice; lia.
  - destruct Him as [H1 H2 H3]. split; [by rewrite Hlen|by rewrite Hlen|]. intros n' a' Ha'. unfold k'. simpl.
    destruct (decide (n' = n)) as [->|Hne].
    + assert (a' = a) as -> by congruence. rewrite lookup_insert_eq. f_equal. unfold page_of at 2. rewrite slice_splice_in by lia.
      f_equal. lia.
    + rewrite lookup_insert_ne.
      * rewrite (H3 n' a' Ha'). f_equal. unfold page_of. symmetry.
        destruct (image_fit k U img n' (Image _ _ _ H1 H2 H3) ltac:(by eexists)). apply slice_splice_out; lia.
      * intros <-. apply Hne. destruct Hu as [_ Hnd _ _ _]. apply NoDup_cons in Hnd as [_ (_ & _ & Hnd)%NoDup_app].
        by eapply (vals_inj U).
  - intros x Hx. unfold k'. simpl. rewrite lookup_insert_ne; [done|]. intros ->. apply Hx, elem_of_vals. by eexists.
Qed.

(** ** Page table entries of user pages *)

Lemma walk_user k free pgdir T U m n a : uvm k free pgdir T U m -> U !! n = Some a ->
  exists pte, walkpgdir pgdir (4096 * n) false k = Ret pte k /\ (pte =? 0) = false /\ rdw pte k = Ret (m n) k /\
    present (m n) = true /\ P2V (PTE_ADDR (m n)) = a /\ PTE_ADDR (m n) = V2P a /\ (a =? 0) = false /\
    (forall v, exists k', wrw pte v k = Ret tt k' /\ vm_ok end_ k' free pgdir T (upd m n (u32 v)) /\ frame (vals T) k k').
Proof.
  intros Hu Ha. destruct (uvm_page _ _ _ _ _ _ _ _ Hu Ha) as (Hn & Hpa & _). pose proof (uvm_user _ _ _ _ _ _ Hu n Hn) as Huser.
  rewrite Ha in Huser. destruct Huser as [Hpr Hpt]. pose proof (uvm_vm _ _ _ _ _ _ Hu) as Hv.
  assert (vpn_ok n) as Hvn by (unfold vpn_ok; lia).
  destruct (T !! (n / 1024)) as [t|] eqn:Et; [|rewrite (vm_ent _ _ _ _ _ Hv n Hvn), Et in Hpr; done].
  exists (t + 4 * (n mod 1024)). split_and!; [by eapply walk_found| |by eapply rdw_found|done| |done| |].
  - eapply table_addr_nz; [exact Hv|exact Et|]. apply Z.mod_pos_bound. lia.
  - rewrite Hpt. by destruct (V2P_page _ _ Hpa) as (_ & _ & _ & ?).
  - apply Z.eqb_neq. destruct Hpa. lia.
  - intros v. by apply (vm_store _ _ _ _ _ n t).
Qed.

Lemma uva2ka_user k free pgdir T U m n a : uvm k free pgdir T U m -> U !! n = Some a ->
  uva2ka pgdir (4096 * n) k = Ret (if Z.land (m n) PTE_U =? 0 then 0 else a) k.
Proof.
  intros Hu Ha. destruct (walk_user _ _ _ _ _ _ _ _ Hu Ha) as (pte & E1 & E2 & E3 & E4 & E5 & _).
  unfold uva2ka, bind. rewrite E1, E2, E3, E4. cbn [negb]. destruct (Z.land (m n) PTE_U =? 0); [done|]. by rewrite E5.
Qed.

(** An entry of the kernel: no access. *)
Lemma uva2ka_kernel k free pgdir T m n : vm_ok end_ k free pgdir T m -> vpn_ok n -> present (m n) = true ->
  Z.land (m n) PTE_U = 0 -> uva2ka pgdir (4096 * n) k = Ret 0 k.
Proof.
  intros Hv Hn Hp HU. destruct (T !! (n / 1024)) as [t|] eqn:Et; [|rewrite (vm_ent _ _ _ _ _ Hv n Hn), Et in Hp; done].
  unfold uva2ka, bind. rewrite (walk_found _ _ _ _ _ _ _ _ Hv Hn Et), (table_addr_nz _ _ _ _ _ _ _ _ Hv Et) by (apply Z.mod_pos_bound; lia).
  rewrite (rdw_found _ _ _ _ _ _ _ Hv Hn Et), Hp, HU. done.
Qed.

(** ** copyout *)

Definition user_page (m : Z -> Z) (n : Z) : Prop := Z.land (m n) PTE_U <> 0.
(** Page [n] holds a byte of [va, va + len). *)
Definition touched (va len n : Z) : Prop := 0 < len /\ va < 4096 * n + 4096 /\ 4096 * n < va + len.

Lemma put_page_run a bs old k : pages k !! a = Some old -> put_page a bs k = Ret tt (set_pages (<[a := bs]> (pages k)) k).
Proof. intros H. unfold put_page, get_page, bind, gets, deref. by rewrite H. Qed.

Lemma splice_step va nn (buf img : list Z) next : 0 <= va -> 0 <= nn <= Z.of_nat (length buf) ->
  va + Z.of_nat (length buf) <= Z.of_nat (length img) -> 0 <= next <= Z.of_nat (length img) ->
  (nn < Z.of_nat (length buf) -> next = va + nn) ->
  splice (Z.to_nat next) (drop (Z.to_nat nn) buf) (splice (Z.to_nat va) (take (Z.to_nat nn) buf) img) = splice (Z.to_nat va) buf img.
Proof.
  intros H1 H2 H3 H4 H5. assert (length (take (Z.to_nat nn) buf) = Z.to_nat nn) as Ht by (rewrite length_take; lia).
  destruct (decide (nn < Z.of_nat (length buf))) as [Hlt|Hge].
  - rewrite H5 by done. rewrite Z2Nat.inj_add by lia. rewrite <-Ht at 1. rewrite splice_splice by (rewrite Ht, length_drop; lia).
    by rewrite take_drop.
  - rewrite drop_ge, take_ge by lia. apply splice_nil. rewrite length_splice by lia. lia.
Qed.

Lemma copyout_loop_run free pgdir T U m : forall fuel buf va k img, uvm k free pgdir T U m -> image k U img ->
  (length buf < fuel)%nat -> 0 <= va -> va + Z.of_nat (length buf) <= Z.of_nat (length img) -> Z.of_nat (length img) <= 2 ^ 31 ->
  exists r k' img', copyout_loop fuel pgdir va buf k = Ret r k' /\ uvm k' free pgdir T U m /\ image k' U img' /\
    length img' = length img /\ frame (vals U) k k' /\
    ((r = 0 /\ img' = splice (Z.to_nat va) buf img /\ forall n, touched va (Z.of_nat (length buf)) n -> user_page m n) \/
     (r = -1 /\ exists n, touched va (Z.of_nat (length buf)) n /\ ~ user_page m n)).
Proof.
  induction fuel as [|fuel IH]; intros buf va k img Hu Him Hf Hva Hfit Hmax; [lia|]. cbn [copyout_loop].
  destruct buf as [|b0 buf0] eqn:Eb.
  { exists 0, k, img. split_and!; try done. left. split_and!; [done|rewrite splice_nil; [done|simpl in Hfit; lia]|].
    intros n [H _]. simpl in H. lia. }
  rewrite <-Eb in *. set (len := Z.of_nat (length buf)) in *. assert (0 < len) as Hlen by (unfold len; subst buf; simpl; lia).
  set (n := va / 4096). assert (va = 4096 * n + va mod 4096) as Hn by (apply Z.div_mod; lia).
  pose proof (Z.mod_pos_bound va 4096 ltac:(lia)) as Hmod. assert (0 <= n) as Hnpos by (apply Z.div_pos; lia).
  assert (PGROUNDDOWN va = 4096 * n) as -> by (rewrite rounddown_eq; lia).
  destruct (proj2 (im_dom _ _ _ Him n)) as [a Ha]; [lia|].
  destruct (image_fit _ _ _ n Him ltac:(by eexists)) as [Hn0 Hn1].
  destruct (walk_user _ _ _ _ _ _ _ _ Hu Ha) as (_ & _ & _ & _ & _ & _ & _ & Hanz & _).
  unfold bind at 1. rewrite (uva2ka_user _ _ _ _ _ _ _ _ Hu Ha). destruct (Z.eqb_spec (Z.land (m n) PTE_U) 0) as [Hno|Hyes].
  { exists (-1), k, img. split_and!; try done. right. split; [done|]. exists n. unfold touched, user_page. split; [lia|]. by intros H. }
  rewrite Hanz. replace (va - 4096 * n) with (va mod 4096) by lia. set (nn := Z.min (PGSIZE - va mod 4096) len).
  assert (0 < nn <= len /\ nn <= 4096 - va mod 4096) as [Hnn Hnn'] by (unfold nn, PGSIZE; lia).
  unfold bind at 1. unfold get_page at 1, bind at 1, gets, deref. rewrite (im_page _ _ _ Him n a Ha). unfold ret at 1.
  unfold bind at 1. rewrite (put_page_run _ _ _ _ (im_page _ _ _ Him n a Ha)).
  assert (length (take (Z.to_nat nn) buf) = Z.to_nat nn) as Ht by (rewrite length_take; lia).
  destruct (image_write k free pgdir T U m img n a (Z.to_nat (va mod 4096)) (take (Z.to_nat nn) buf) Hu Him Ha ltac:(lia)) as (Hu1 & Him1 & Hf1).
  replace (Z.to_nat (4096 * n) + Z.to_nat (va mod 4096))%nat with (Z.to_nat va) in Him1 by lia.
  assert (length (splice (Z.to_nat va) (take (Z.to_nat nn) buf) img) = length img) as Hl1 by (apply length_splice; lia).
  assert (length (drop (Z.to_nat nn) buf) = Z.to_nat (len - nn)) as Hd by (rewrite length_drop; lia).
  rewrite u32_small by (unfold PGSIZE; lia).
  assert (nn < len -> 4096 * n + PGSIZE = va + nn) as Hnext by (unfold nn, PGSIZE; lia).
  destruct (IH (drop (Z.to_nat nn) buf) (4096 * n + PGSIZE) _ _ Hu1 Him1) as (r & k' & img' & E & Hu' & Him' & Hl' & Hf' & Hres);
    [lia|unfold PGSIZE; lia|rewrite Hl1, Hd; unfold PGSIZE in *; lia|by rewrite Hl1|].
  exists r, k', img'. split_and!; [exact E|done|done|congruence|eapply frame_trans; [exact Hf1|exact Hf'|done]|].
  destruct Hres as [(-> & -> & Hall)|(-> & n' & Ht' & Hno)].
  - left. split_and!; [done|apply splice_step; try lia; unfold PGSIZE; lia|]. intros n' (H0 & H1 & H2).
    destruct (decide (n' = n)) as [->|Hne]; [done|]. apply Hall. unfold touched. rewrite Hd. unfold PGSIZE in *. lia.
  - right. split; [done|]. exists n'. split; [|done]. unfold touched in *. rewrite Hd in Ht'. unfold PGSIZE in *. lia.
Qed.

Lemma copyout_run k free pgdir T U m img va buf : uvm k free pgdir T U m -> image k U img ->
  0 <= va -> va + Z.of_nat (length buf) <= Z.of_nat (length img) -> Z.of_nat (length img) <= 2 ^ 31 ->
  exists r k' img', copyout pgdir va buf k = Ret r k' /\ uvm k' free pgdir T U m /\ image k' U img' /\
    length img' = length img /\ frame (vals U) k k' /\
    ((r = 0 /\ img' = splice (Z.to_nat va) buf img /\ forall n, touched va (Z.of_nat (length buf)) n -> user_page m n) \/
     (r = -1 /\ exists n, touched va (Z.of_nat (length buf)) n /\ ~ user_page m n)).
Proof. intros. apply copyout_loop_run; try done. lia. Qed.

(** At an address of the kernel nothing is written. *)
Lemma copyout_kernel k free pgdir T m va buf : vm_ok end_ k free pgdir T m -> 0 <= va < 2 ^ 32 -> buf <> [] ->
  present (m (va / 4096)) = true -> ~ user_page m (va / 4096) -> copyout pgdir va buf k = Ret (-1) k.
Proof.
  intros Hv Hva Hb Hp HU. destruct buf as [|b buf]; [done|]. unfold copyout. cbn [copyout_loop length]. unfold bind at 1.
  pose proof (Z.div_mod va 4096 ltac:(lia)) as Hd. assert (vpn_ok (va / 4096)) as Hvn.
  { split; [apply Z.div_pos; lia|apply Z.div_lt_upper_bound; lia]. }
  rewrite rounddown_eq. replace (va - va mod 4096) with (4096 * (va / 4096)) by lia.
  rewrite (uva2ka_kernel _ _ _ _ _ _ Hv Hvn Hp); [done|]. unfold user_page in HU. by apply dec_stable.
Qed.
End user.

(** ** An address space under construction

    Everything comes from the pages [free0] that were free in [k0], and the rest of memory is
    as it was.  Page [g] is closed to the user. *)

Definition pages_of (sz : Z) : Z := (sz + 4095) / 4096.
Definition user_pte (a : Z) : Z := pte_of (V2P a) (Z.lor PTE_W PTE_U).
Definition grow (img : list Z) (sz : Z) : list Z := img ++ replicate (Z.to_nat (4096 * pages_of sz) - length img) 0.

Lemma length_grow img sz : Z.of_nat (length img) <= 4096 * pages_of sz -> Z.of_nat (length (grow img sz)) = 4096 * pages_of sz.
Proof. intros H. unfold grow. rewrite length_app, length_replicate. lia. Qed.

Lemma pages_of_mono a b : a <= b -> pages_of a <= pages_of b.
Proof. intros H. apply Z.div_le_mono; lia. Qed.
Lemma pages_of_nonneg a : 0 <= a -> 0 <= pages_of a.
Proof. intros H. apply Z.div_pos; lia. Qed.
Lemma pages_of_bound a : 0 <= a -> a <= 4096 * pages_of a < a + 4096.
Proof. intros H. unfold pages_of. pose proof (Z.div_mod (a + 4095) 4096). pose proof (Z.mod_pos_bound (a + 4095) 4096). lia. Qed.

Section space.
Context (end_ data_ : Z).
Hypothesis Hend : KERNBASE < end_.
Hypothesis Hdata : data_ mod 4096 = 0 /\ KERNLINK < data_ < KERNBASE + PHYSTOP.
Context (k0 : kmem) (free0 : list Z).

Record space (g : Z) (k : kmem) (free : list Z) (pgdir : Z) (T U : gmap Z Z) (m : Z -> Z) (sz : Z) (img : list Z) : Prop := Space {
  sp_uvm : uvm end_ k free pgdir T U m;
  sp_image : image k U img;
  sp_sz : 0 <= sz < KERNBASE /\ Z.of_nat (length img) = 4096 * pages_of sz;
  sp_kernel : forall n, 2 ^ 19 <= n < 2 ^ 20 -> m n = kernel_entries data_ n;
  sp_all : owned pgdir T U ++ free ≡ₚ free0;
  sp_frame : frame free0 k0 k;
  sp_pte : forall n a, U !! n = Some a -> m n = if decide (n = g) then V2P a + 3 else user_pte a
}.

Lemma user_pte_val a : page_ok end_ a -> user_pte a = V2P a + 7.
Proof using Type.
  intros Ha. destruct (V2P_page _ _ Ha) as (_ & Hr & Hm & _). unfold user_pte, pte_of.
  rewrite <-Z.lor_assoc, lor_flags by done. rewrite u32_small; [done|]. unfold PHYSTOP in *.
  change (Z.lor (Z.lor PTE_W PTE_U) PTE_P) with 7. lia.
Qed.

Lemma land_flags_page a f g : a mod 4096 = 0 -> 0 <= f < 4096 -> 0 <= g < 4096 -> Z.land (a + f) g = Z.land f g.
Proof using Type.
  intros Ha Hf Hg. assert (Z.land g 0xFFF = g) as Eg.
  { rewrite (land_ones_mod _ 12) by done. apply Z.mod_small. exact Hg. }
  rewrite <-Eg at 1. rewrite (Z.land_comm g), Z.land_assoc. change (Z.land (a + f) 4095) with (PTE_FLAGS (a + f)).
  by rewrite PTE_FLAGS_flags.
Qed.

Lemma user_page_user m n a : page_ok end_ a -> m n = user_pte a -> user_page m n.
Proof using Type.
  intros Ha E. unfold user_page. rewrite E, user_pte_val by done. destruct (V2P_page _ _ Ha) as (_ & _ & Hm & _).
  by rewrite land_flags_page by (done || unfold PTE_U; lia).
Qed.

Lemma space_user g k free pgdir T U m sz img n : space g k free pgdir T U m sz img -> is_Some (U !! n) -> user_page m n <-> n <> g.
Proof using Type.
  intros Hs [a Ha]. pose proof (sp_pte _ _ _ _ _ _ _ _ _ Hs n a Ha) as E.
  destruct (uvm_page _ _ _ _ _ _ _ _ (sp_uvm _ _ _ _ _ _ _ _ _ Hs) Ha) as (_ & Hpa & _). case_decide as Hg.
  - split; [|done]. intros Hu. exfalso. apply Hu. rewrite E. destruct (V2P_page _ _ Hpa) as (_ & _ & Hm & _).
    by rewrite land_flags_page by (done || unfold PTE_U; lia).
  - split; [done|]. intros _. by eapply user_page_user.
Qed.

Lemma image_size k U img : image k U img -> Z.of_nat (length (vals U)) <= Z.of_nat (length img) / 4096.
Proof using Type.
  intros [(np & Hnp & Hl) Hd _]. rewrite Hl, (Z.mul_comm 4096), Z.div_mul by lia.
  assert ((map_to_list U).*1 ⊆+ seqZ 0 np) as Hsub.
  { apply NoDup_submseteq; [apply NoDup_fst_map_to_list|]. intros n ([n' a] & -> & Hin)%list_elem_of_fmap.
    apply elem_of_map_to_list in Hin. apply elem_of_seqZ. assert (0 <= n' /\ 4096 * n' < Z.of_nat (length img)) by (apply Hd; by exists a). simpl. lia. }
  apply submseteq_length in Hsub. rewrite length_seqZ, length_fmap in Hsub. unfold vals. rewrite length_fmap. lia.
Qed.

Lemma image_empty k : image k ∅ [].
Proof using Type.
  split; [by exists 0| |by intros n a Ha]. intros n. split; [by intros [? Ha]|simpl; lia].
Qed.

Lemma setupkvm_space : kmem_ok end_ k0 free0 ->
  exists r k free, setupkvm end_ data_ k0 = Ret r k /\
    ((r <> 0 /\ exists T m, space (-1) k free r T ∅ m 0 []) \/
     (r = 0 /\ kmem_ok end_ k free /\ free ≡ₚ free0 /\ frame free0 k0 k /\ Z.of_nat (length free0) <= 1025)).
Proof using Hend Hdata.
  intros Hk. destruct (setupkvm_run Hend data_ Hdata _ _ Hk) as (r & k & free & E & Hf & Hres). exists r, k, free. split; [done|].
  destruct Hres as [(T & Hu & Hp & Hr)|(-> & H1 & H2 & H3)]; [left|right; by split_and!].
  split; [done|]. exists T. eexists. split; [exact Hu|apply image_empty|by unfold KERNBASE|done| |done|done].
  unfold owned, vals at 2. rewrite map_to_list_empty. simpl. rewrite app_nil_r. by rewrite Hp.
Qed.

Lemma page_of_grow_old img sz n : 0 <= n -> 4096 * n + 4096 <= Z.of_nat (length img) -> page_of (grow img sz) n = page_of img n.
Proof using Type. intros H1 H2. apply slice_app_left. lia. Qed.

Lemma page_of_grow_new img sz n : (exists np, Z.of_nat (length img) = 4096 * np /\ np <= n) -> n < pages_of sz -> page_of (grow img sz) n = zero_page.
Proof using Type.
  intros (np & Hl & Hn) Hs. unfold page_of, grow, slice. rewrite drop_app_ge by lia. rewrite drop_replicate, take_replicate.
  unfold zero_page. f_equal. unfold PGSIZE. lia.
Qed.

Lemma space_alloc k free pgdir T U m sz img new : space (-1) k free pgdir T U m sz img -> 0 <= new < 2 ^ 32 ->
  exists r k' free' T' U' m', allocuvm end_ pgdir sz new k = Ret r k' /\
    ((r = 0 /\ space (-1) k' free' pgdir T' U' m' sz img /\
        (KERNBASE <= new \/ Z.max sz new = 0 \/ Z.of_nat (length free0) <= 2049 + pages_of new)) \/
     (r = Z.max sz new /\ r <> 0 /\ new < KERNBASE /\ space (-1) k' free' pgdir T' U' m' r (grow img r))).
Proof using Hend.
  intros Hs Hnew. pose proof Hs as [Hu Him [Hsz Hlen] Hker Hall Hfr Hpte].
  destruct (Z.leb_spec KERNBASE new) as [Hk|Hk].
  { exists 0, k, free, T, U, m. unfold allocuvm. rewrite (proj2 (Z.leb_le _ _)) by done. split; [done|]. left. split_and!; [done|done|by left]. }
  destruct (Z.ltb_spec new sz) as [Hlt|Hge].
  { exists sz, k, free, T, U, m. unfold allocuvm. rewrite (proj2 (Z.leb_gt _ _)), (proj2 (Z.ltb_lt new sz)) by done. split; [done|]. right.
    rewrite Z.max_l by lia. split_and!; [done|lia|done|]. unfold grow. rewrite <-Hlen.
    replace (Z.to_nat (Z.of_nat (length img)) - length img)%nat with 0%nat by lia. simpl. by rewrite app_nil_r. }
  fold (pages_of sz) in *. pose proof (pages_of_mono sz new Hge) as Hmono. pose proof (pages_of_nonneg sz ltac:(lia)) as Hp0.
  destruct (allocuvm_run Hend k free pgdir T U m sz new Hu ltac:(lia)) as (r & k' & free' & T' & U' & m' & E & Hu' & Hp & Hf & Hold & Hres).
  { intros n Hn. fold (pages_of sz) in Hn. apply eq_None_not_Some. intros Hin. apply (im_dom _ _ _ Him) in Hin. lia. }
  fold (pages_of sz) (pages_of new) in Hold, Hres.
  exists r, k', free', T', U', m'. split; [done|].
  assert (Hfr' : frame free0 k0 k').
  { eapply frame_trans; [exact Hfr|exact Hf|]. intros x Hx. rewrite <-Hall. unfold owned. clear -Hx. set_solver. }
  assert (Hall' : owned pgdir T' U' ++ free' ≡ₚ free0) by (by rewrite Hp).
  assert (Hker' : forall n, 2 ^ 19 <= n < 2 ^ 20 -> m' n = kernel_entries data_ n).
  { intros n Hn. assert (pages_of new <= 2 ^ 19) by (pose proof (pages_of_bound new); unfold KERNBASE in Hk; lia).
    destruct (Hold n ltac:(lia)) as [_ ->]; [by apply Hker|unfold vpn_ok; lia]. }
  assert (Hkeep : forall n a, U !! n = Some a -> U' !! n = Some a /\ pages k' !! a = pages k !! a /\ m' n = m n).
  { intros n a Ha. destruct (uvm_page _ _ _ _ _ _ _ _ Hu Ha) as (Hn & _ & _ & H1 & H2).
    destruct (Hold n) as [-> Hm]. { intros Hn'. assert (is_Some (U !! n)) as Hin by (by exists a). apply (im_dom _ _ _ Him) in Hin. lia. }
    split_and!; [done|apply Hf; clear -H1 H2; set_solver|apply Hm; unfold vpn_ok; lia]. }
  destruct Hres as [(-> & _ & Hzero)|(-> & -> & Hwhy)].
  - rewrite Z.max_r by lia. destruct (decide (new = 0)) as [->|Hnz].
    { left. split_and!; [done| |by right; left; lia]. assert (sz = 0) as -> by lia.
      split; [done| |by split|done|done|done|].
      - split; [apply Him| |].
        + intros n. destruct (Hold n ltac:(lia)) as [-> _]. apply Him.
        + intros n a Ha. destruct (Hold n ltac:(lia)) as [HU _]. rewrite HU in Ha. destruct (Hkeep n a Ha) as (_ & -> & _).
          by apply (im_page _ _ _ Him).
      - intros n a Ha. destruct (Hold n ltac:(lia)) as [HU _]. rewrite HU in Ha. destruct (Hkeep n a Ha) as (_ & _ & ->). by apply Hpte. }
    right. assert (Hgl : Z.of_nat (length (grow img new)) = 4096 * pages_of new) by (apply length_grow; lia).
    split_and!; [done|done|done|]. split; [done| |split; [lia|done]|done|done|done|].
    + split; [exists (pages_of new); lia| |].
      * intros n. rewrite Hgl. destruct (decide (pages_of sz <= n < pages_of new)) as [Hin|Hout].
        -- destruct (Hzero n Hin) as (a & -> & _). split; [lia|by eexists].
        -- destruct (Hold n Hout) as [-> _]. rewrite (im_dom _ _ _ Him). lia.
      * intros n a Ha. destruct (decide (pages_of sz <= n < pages_of new)) as [Hin|Hout].
        -- destruct (Hzero n Hin) as (b & Hb & Hz & _). assert (a = b) as -> by congruence. rewrite Hz. f_equal. symmetry.
           apply page_of_grow_new; [exists (pages_of sz); lia|lia].
        -- destruct (Hold n Hout) as [HU _]. rewrite HU in Ha. destruct (Hkeep n a Ha) as (_ & -> & _).
           rewrite (im_page _ _ _ Him n a Ha). destruct (image_fit _ _ _ n Him ltac:(by eexists)). by rewrite page_of_grow_old.
    + intros n a Ha. destruct (decide (pages_of sz <= n < pages_of new)) as [Hin|Hout].
      * destruct (Hzero n Hin) as (b & Hb & _ & Hm). assert (a = b) as -> by congruence. rewrite decide_False by lia. done.
      * destruct (Hold n Hout) as [HU _]. rewrite HU in Ha. destruct (Hkeep n a Ha) as (_ & _ & ->). by apply Hpte.
  - left. split_and!; [done| |].
    + split; [done| |done|done|done|done|].
      * eapply image_frame; [exact Him|]. intros a (n & Ha)%elem_of_vals. apply (Hkeep n a Ha).
      * intros n a Ha. destruct (Hkeep n a Ha) as (_ & _ & ->). by apply Hpte.
    + destruct Hwhy as [?|Hshort]; [lia|]. right. right. pose proof (image_size _ _ _ Him) as Hsz'. rewrite Hlen in Hsz'.
      rewrite (Z.mul_comm 4096), Z.div_mul in Hsz' by lia. pose proof (vm_tables_bound _ _ _ _ _ (uvm_vm _ _ _ _ _ _ Hu)).
      apply Permutation_length in Hall. unfold owned in Hall. simpl in Hall. rewrite !length_app in Hall. lia.
Qed.

Lemma space_free g k free pgdir T U m sz img : space g k free pgdir T U m sz img ->
  exists k' free', freevm end_ pgdir k = Ret tt k' /\ kmem_ok end_ k' free' /\ free' ≡ₚ free0 /\ frame free0 k0 k' /\ pgdir <> 0.
Proof using Hend.
  intros [Hu _ _ _ Hall Hfr _]. destruct (freevm_run Hend _ _ _ _ _ _ Hu) as (k' & free' & E & Hk & Hp & Hf).
  exists k', free'. split_and!; [done|done|by rewrite Hp| |].
  - eapply frame_trans; [exact Hfr|exact Hf|]. intros x Hx. rewrite <-Hall. clear -Hx. set_solver.
  - destruct (vm_root _ _ _ _ _ (uvm_vm _ _ _ _ _ _ Hu)) as ([Hr _] & _). lia.
Qed.

(** Writing user pages. *)
Lemma space_image g k free pgdir T U m sz img k' img' : space g k free pgdir T U m sz img -> uvm end_ k' free pgdir T U m ->
  image k' U img' -> length img' = length img -> frame (vals U) k k' -> space g k' free pgdir T U m sz img'.
Proof using Type.
  intros [Hu Him [Hsz Hlen] Hker Hall Hfr Hpte] Hu' Him' Hl Hf. split; try done; [by rewrite Hl|].
  eapply frame_trans; [exact Hfr|exact Hf|]. intros x Hx. rewrite <-Hall. unfold owned. clear -Hx. set_solver.
Qed.

Lemma space_img_max g k free pgdir T U m sz img : space g k free pgdir T U m sz img -> Z.of_nat (length img) <= 2 ^ 31.
Proof using Type. intros [_ _ [Hsz ->] _ _ _ _]. pose proof (pages_of_bound sz ltac:(lia)). unfold KERNBASE in *. lia. Qed.

(** [copyout] inside the image, all of whose pages but [g] are the user's. *)
Lemma space_copyout g k free pgdir T U m sz img va buf : space g k free pgdir T U m sz img ->
  0 <= va -> va + Z.of_nat (length buf) <= Z.of_nat (length img) ->
  exists r k' img', copyout pgdir va buf k = Ret r k' /\ space g k' free pgdir T U m sz img' /\ length img' = length img /\
    ((r = 0 /\ img' = splice (Z.to_nat va) buf img /\ ~ touched va (Z.of_nat (length buf)) g) \/
     (r = -1 /\ touched va (Z.of_nat (length buf)) g)).
Proof using Type.
  intros Hs Hva Hfit. pose proof (space_img_max _ _ _ _ _ _ _ _ _ Hs) as Hmax.
  destruct (copyout_run _ _ _ _ _ _ _ va buf (sp_uvm _ _ _ _ _ _ _ _ _ Hs) (sp_image _ _ _ _ _ _ _ _ _ Hs) Hva Hfit Hmax)
    as (r & k' & img' & E & Hu' & Him' & Hl & Hf & Hres).
  exists r, k', img'. split_and!; [done|by eapply space_image|done|].
  assert (Hin : forall n, touched va (Z.of_nat (length buf)) n -> is_Some (U !! n)).
  { intros n (H0 & H1 & H2). apply (im_dom _ _ _ (sp_image _ _ _ _ _ _ _ _ _ Hs)). lia. }
  destruct Hres as [(-> & -> & Hall)|(-> & n & Ht & Hno)].
  - left. split_and!; [done|done|]. intros Ht. by apply (proj1 (space_user _ _ _ _ _ _ _ _ _ g Hs (Hin g Ht)) (Hall g Ht)).
  - right. split; [done|]. assert (n = g) as ->; [|done]. apply dec_stable. intros Hne. apply Hno. by apply (space_user _ _ _ _ _ _ _ _ _ n Hs (Hin n Ht)).
Qed.

Lemma clear_user a : a mod 4096 = 0 -> Z.land (a + 7) (Z.lnot PTE_U) = a + 3.
Proof using Type.
  intros Ha. rewrite <-!lor_flags by (done || lia). rewrite Z.land_lor_distr_l.
  change (Z.land 7 (Z.lnot PTE_U)) with 3. f_equal.
  apply Z.bits_inj'. intros i Hi. rewrite Z.land_spec, Z.lnot_spec by done. unfold PTE_U. change 4 with (2 ^ 2).
  rewrite Z.pow2_bits_eqb by lia. destruct (Z.eqb_spec 2 i) as [<-|]; [|by rewrite andb_true_r].
  rewrite andb_false_r. symmetry. apply Z.testbit_false; [lia|].
  pose proof (Z.div_mod a 4096 ltac:(lia)) as Hd. rewrite Ha, Z.add_0_r in Hd. rewrite Hd.
  replace (4096 * (a / 4096)) with ((a / 4096 * 1024) * 2 ^ 2) by lia. rewrite Z.div_mul by lia.
  replace (a / 4096 * 1024) with (a / 4096 * 512 * 2) by lia. by rewrite Z.mod_mul.
Qed.

Lemma space_clearpteu k free pgdir T U m sz img n : space (-1) k free pgdir T U m sz img -> is_Some (U !! n) ->
  exists k' m', clearpteu pgdir (4096 * n) k = Ret tt k' /\ space n k' free pgdir T U m' sz img.
Proof using Hend Hdata.
  intros Hs [a Ha]. pose proof Hs as [Hu Him Hsz Hker Hall Hfr Hpte].
  destruct (uvm_page _ _ _ _ _ _ _ _ Hu Ha) as (Hn & Hpa & _). destruct (V2P_page _ _ Hpa) as (_ & Hr & Hm & _).
  destruct (walk_user _ _ _ _ _ _ _ _ Hu Ha) as (pte & E1 & E2 & E3 & _ & _ & _ & _ & Hw).
  assert (Hmn : m n = V2P a + 7).
  { rewrite (Hpte n a Ha), decide_False by lia. by apply user_pte_val. }
  destruct (Hw (Z.land (m n) (Z.lnot PTE_U))) as (k' & E4 & Hv' & Hf).
  assert (Hval : u32 (Z.land (m n) (Z.lnot PTE_U)) = V2P a + 3).
  { rewrite Hmn, clear_user by done. apply u32_small. unfold PHYSTOP in Hr. lia. }
  rewrite Hval in Hv'. exists k', (upd m n (V2P a + 3)). split.
  { unfold clearpteu, bind. rewrite E1, E2. unfold panic_if, ret. by rewrite E3. }
  assert (Hsame : forall x, x ∈ vals U -> pages k' !! x = pages k !! x).
  { intros x Hx. apply Hf. destruct Hu as [_ Hnd _ _ _]. apply NoDup_cons in Hnd as [_ (_ & Hd & _)%NoDup_app].
    intros Hx'. apply (Hd x Hx'). set_solver. }
  destruct Hu as [Hv Hnd Huser Hidx Hpg]. split; [|by eapply image_frame|done| |done| |].
  - split; [done|done| |done|].
    + intros n' Hn'. unfold upd. case_decide as Hne; [|by apply Huser]. subst n'. rewrite Ha. split.
      * rewrite present_odd, Z.odd_add. replace (V2P a) with (2 * (V2P a / 4096 * 2048)) by (pose proof (Z.div_mod (V2P a) 4096); lia).
        rewrite Z.odd_mul. done.
      * by apply PTE_ADDR_flags.
    + rewrite Forall_forall in Hpg |- *. intros x Hx. destruct (Hpg x Hx). split; [done|]. eapply full_same; [by apply Hsame|done].
  - intros n' Hn'. unfold upd. rewrite decide_False by lia. by apply Hker.
  - eapply frame_trans; [exact Hfr|exact Hf|]. intros x Hx. rewrite <-Hall. unfold owned. clear -Hx. set_solver.
  - intros n' b Hb. unfold upd. case_decide as Hne; [subst n'; by replace b with a by congruence|].
    rewrite (Hpte n' b Hb), decide_False; [done|]. pose proof (Hidx _ _ Hb). lia.
Qed.
End space.
