(* ===== verification/Pipe.v ===== *)
(** * Pipes (src/p5/xv6-public/pipe.c)

    A pipe is a ring of 512 bytes with two free-running 32-bit counters.  [pipewrite] and
    [piperead] hold the lock from one sleep to the next, so a call is a sequence of runs:
    a run starts at the test of the [while] loop and ends when the call returns or goes to
    sleep.  The system is a pipe with any number of processes in calls on it. *)

From S2P Require Import Prelude.

Definition PIPESIZE : Z := 512.

Record pipe := mk_pipe {
  data : list Z;
  nread : Z;
  nwrite : Z;
  readopen : bool;
  writeopen : bool
}.

(** [pipealloc]: the fresh pipe; [junk] is what the page held. *)
Definition new_pipe (junk : list Z) : pipe := mk_pipe junk 0 0 true true.

(** A run of [pipewrite] over the bytes that are still to be written: how it ended. *)
Inductive wend :=
| WDone                      (** returned [n] *)
| WFail                      (** returned -1 *)
| WSleep (rest : list Z).    (** woke the readers, asleep on [nwrite] *)

Definition full (p : pipe) : bool := nwrite p =? u32 (nread p + PIPESIZE).
Definition empty (p : pipe) : bool := nread p =? nwrite p.

(** [p->data[p->nwrite++ % PIPESIZE] = b] *)
Definition put (b : Z) (p : pipe) : pipe :=
  mk_pipe (<[Z.to_nat (nwrite p mod PIPESIZE) := b]> (data p)) (nread p) (u32 (nwrite p + 1))
          (readopen p) (writeopen p).

(** Also the bytes copied, [addr[0..i)]. *)
Fixpoint pipewrite (killed : bool) (addr : list Z) (p : pipe) : wend * list Z * pipe :=
  match addr with
  | [] => (WDone, [], p)
  | b :: addr' =>
      if full p then
        if negb (readopen p) || killed then (WFail, [], p) else (WSleep addr, [], p)
      else
        let '(w, copied, p') := pipewrite killed addr' (put b p) in
        (w, b :: copied, p')
  end.

(** A run of [piperead]. *)
Inductive rend :=
| RDone (bs : list Z)        (** the bytes stored at [addr] *)
| RFail
| RSleep.                    (** asleep on [nread] *)

(** [p->data[p->nread++ % PIPESIZE]] *)
Definition get (p : pipe) : Z * pipe :=
  (nth (Z.to_nat (nread p mod PIPESIZE)) (data p) 0,
   mk_pipe (data p) (u32 (nread p + 1)) (nwrite p) (readopen p) (writeopen p)).

Fixpoint read_bytes (n : nat) (p : pipe) : list Z * pipe :=
  match n with
  | O => ([], p)
  | S n' =>
      if empty p then ([], p)
      else
        let '(b, p1) := get p in
        let '(bs, p2) := read_bytes n' p1 in
        (b :: bs, p2)
  end.

Definition piperead (killed : bool) (n : nat) (p : pipe) : rend * pipe :=
  if empty p && writeopen p then
    if killed then (RFail, p) else (RSleep, p)
  else
    let '(bs, p') := read_bytes n p in (RDone bs, p').

(** [pipeclose]; the boolean says whether the page is freed. *)
Definition pipeclose (writable : bool) (p : pipe) : pipe * bool :=
  let p' := if writable then mk_pipe (data p) (nread p) (nwrite p) (readopen p) false
            else mk_pipe (data p) (nread p) (nwrite p) false (writeopen p) in
  (p', negb (readopen p') && negb (writeopen p')).

(** ** The system *)

Inductive pcall :=
| Writing (rest : list Z)
| Reading (n : nat).

(** The processes in a call, those asleep marked so; ghost state: the bytes that have
    been put into the pipe and those that have been taken out. *)
Record system := mk_system {
  pp : pipe;
  procs : gmap nat (pcall * bool);
  put_in : list Z;
  taken : list Z
}.

(** [wakeup(&p->nread)] and [wakeup(&p->nwrite)]. *)
Definition wake (readers : bool) (ps : gmap nat (pcall * bool)) : gmap nat (pcall * bool) :=
  (fun c => match c with
            | (Reading n, asleep) => (Reading n, if readers then false else asleep)
            | (Writing r, asleep) => (Writing r, if readers then asleep else false)
            end) <$> ps.

Definition is_writing (c : pcall) : bool := match c with Writing _ => true | Reading _ => false end.
Definition end_open (c : pcall) (p : pipe) : Prop :=
  if is_writing c then writeopen p = true else readopen p = true.

(** A process in a call has its end of the pipe open, so an end is closed only when no
    process is in a call on it.  With [calm], no writer is killed within its call. *)
Inductive pstep (calm : bool) : system -> system -> Prop :=
| step_call s i c :
    procs s !! i = None -> end_open c (pp s) ->
    pstep calm s (mk_system (pp s) (<[i := (c, false)]> (procs s)) (put_in s) (taken s))
| step_write s i addr killed w copied p' :
    procs s !! i = Some (Writing addr, false) -> calm && killed = false ->
    pipewrite killed addr (pp s) = (w, copied, p') ->
    pstep calm s (mk_system p'
      (match w with
       | WDone => wake true (delete i (procs s))
       | WFail => delete i (procs s)
       | WSleep rest => <[i := (Writing rest, true)]> (wake true (procs s))
       end)
      (put_in s ++ copied) (taken s))
| step_read s i n killed r p' :
    procs s !! i = Some (Reading n, false) -> piperead killed n (pp s) = (r, p') ->
    pstep calm s (mk_system p'
      (match r with
       | RDone _ => wake false (delete i (procs s))
       | RFail => delete i (procs s)
       | RSleep => <[i := (Reading n, true)]> (procs s)
       end)
      (put_in s) (taken s ++ match r with RDone bs => bs | _ => [] end))
| step_close s writable :
    (forall i c a, procs s !! i = Some (c, a) -> is_writing c <> writable) ->
    pstep calm s (mk_system (fst (pipeclose writable (pp s))) (wake writable (procs s))
                            (put_in s) (taken s))
| step_kill s i c :
    procs s !! i = Some (c, true) ->
    pstep calm s (mk_system (pp s) (<[i := (c, false)]> (procs s)) (put_in s) (taken s)).

(** ** The ring holds what was put in and not yet taken *)

(** The pipe has had [W] put in and [R] taken out. *)
Record ring (p : pipe) (W R : list Z) : Prop := {
  ring_data : length (data p) = 512%nat;
  ring_nread : nread p = u32 (Z.of_nat (length R));
  ring_nwrite : nwrite p = u32 (Z.of_nat (length W));
  ring_prefix : R = take (length R) W;
  ring_room : (length R <= length W <= length R + 512)%nat;
  ring_bytes : forall k, (length R <= k < length W)%nat ->
                 data p !! (k mod 512)%nat = W !! k
}.

Lemma u32_mod512 x : u32 x mod 512 = x mod 512.
Proof. unfold u32. apply Z.mod_mod_divide. by exists (2 ^ 23). Qed.

Lemma slot_of n : Z.to_nat (u32 (Z.of_nat n) mod PIPESIZE) = (n mod 512)%nat.
Proof.
  unfold PIPESIZE. rewrite u32_mod512. change 512 with (Z.of_nat 512).
  by rewrite <-Nat2Z.inj_mod, Nat2Z.id.
Qed.

Lemma u32_succ n : u32 (u32 (Z.of_nat n) + 1) = u32 (Z.of_nat (S n)).
Proof. unfold u32. rewrite Zplus_mod_idemp_l. f_equal. lia. Qed.

(** The counters tell full from empty although they wrap. *)
Lemma full_iff p W R : ring p W R -> full p = true <-> (length W = length R + 512)%nat.
Proof.
  intros [_ Hr Hw _ Hm _]. unfold full. rewrite Z.eqb_eq, Hr, Hw. unfold u32, PIPESIZE.
  rewrite Zplus_mod_idemp_l. split; [|intros ->; f_equal; lia]. intros H.
  assert ((Z.of_nat (length R) + 512 - Z.of_nat (length W)) mod 2 ^ 32 = 0) as H0.
  { rewrite Zminus_mod, H, Z.sub_diag. done. }
  rewrite Z.mod_small in H0; lia.
Qed.

Lemma empty_iff p W R : ring p W R -> empty p = true <-> length W = length R.
Proof.
  intros [_ Hr Hw _ Hm _]. unfold empty. rewrite Z.eqb_eq, Hr, Hw. unfold u32.
  split; [|intros ->; done]. intros H.
  assert ((Z.of_nat (length W) - Z.of_nat (length R)) mod 2 ^ 32 = 0) as H0.
  { rewrite Zminus_mod, H, Z.sub_diag. done. }
  rewrite Z.mod_small in H0; lia.
Qed.

Lemma mod512_ne k W R :
  (R <= k < W)%nat -> (W < R + 512)%nat -> (k mod 512 <> W mod 512)%nat.
Proof.
  intros Hk Hl He. pose proof (Nat.div_mod_eq k 512). pose proof (Nat.div_mod_eq W 512). lia.
Qed.

Lemma put_ring p W R b : ring p W R -> full p = false -> ring (put b p) (W ++ [b]) R.
Proof.
  intros Hp Hf. assert (length W <> length R + 512)%nat as Hne.
  { intros E. apply (full_iff p W R Hp) in E. congruence. }
  destruct Hp as [Hd Hr Hw Hpre Hm Hb]. split; simpl.
  - by rewrite length_insert.
  - done.
  - rewrite Hw, u32_succ, length_app. simpl. do 2 f_equal. lia.
  - by rewrite take_app_le by lia.
  - rewrite length_app. simpl. lia.
  - intros k. rewrite length_app. simpl. intros Hk. rewrite Hw, slot_of.
    destruct (decide (k = length W)) as [->|].
    + rewrite list_lookup_insert_eq; [by rewrite list_lookup_middle|]. rewrite Hd.
      apply Nat.mod_upper_bound. lia.
    + rewrite list_lookup_insert_ne; [|apply not_eq_sym; apply (mod512_ne k _ (length R)); lia].
      rewrite lookup_app_l by lia. apply Hb. lia.
Qed.

Lemma get_ring p W R :
  ring p W R -> empty p = false ->
  ring (get p).2 W (R ++ [(get p).1]) /\ W !! length R = Some (get p).1.
Proof.
  intros Hp He. assert (length W <> length R) as Hne.
  { intros E. apply (empty_iff p W R Hp) in E. congruence. }
  destruct Hp as [Hd Hr Hw Hpre Hm Hb].
  assert (W !! length R = Some (get p).1) as Hx.
  { destruct (lookup_lt_is_Some_2 W (length R)) as [x Hx]; [lia|].
    unfold get. simpl. rewrite Hr, slot_of. rewrite Hx. f_equal. symmetry.
    apply nth_lookup_Some. rewrite Hb by lia. done. }
  split; [|done]. split; cbn [get snd data nread nwrite].
  - done.
  - rewrite Hr, u32_succ, length_app. simpl. do 2 f_equal. lia.
  - done.
  - rewrite length_app. simpl. rewrite Nat.add_1_r. rewrite (take_S_r _ _ _ Hx). by rewrite <-Hpre.
  - rewrite length_app. simpl. lia.
  - intros k. rewrite length_app. simpl. intros Hk. apply Hb. lia.
Qed.

(** ** Runs of the two calls *)

Lemma pipewrite_ring killed addr : forall p W R w c p',
  ring p W R -> pipewrite killed addr p = (w, c, p') ->
  ring p' (W ++ c) R /\ readopen p' = readopen p /\ writeopen p' = writeopen p /\
  (full p = true -> p' = p) /\
  match w with
  | WDone => c = addr
  | WFail => full p' = true /\ (readopen p = false \/ killed = true)
  | WSleep rest => addr = c ++ rest /\ full p' = true /\ readopen p = true /\ killed = false
  end.
Proof.
  induction addr as [|b addr IH]; intros p W R w c p' Hp; simpl.
  - intros [= <- <- <-]. by rewrite app_nil_r.
  - destruct (full p) eqn:Ef.
    + destruct (negb (readopen p) || killed) eqn:Ek; intros [= <- <- <-]; rewrite app_nil_r.
      * split_and!; try done. apply orb_true_iff in Ek as [?%negb_true_iff|?]; auto.
      * apply orb_false_iff in Ek as [?%negb_false_iff ?]. by split_and!.
    + destruct (pipewrite killed addr (put b p)) as [[w1 c1] p1] eqn:E. intros [= <- <- <-].
      destruct (IH _ _ _ _ _ _ (put_ring _ _ _ b Hp Ef) E) as (Hr & H1 & H2 & _ & H3).
      rewrite <-app_assoc in Hr. split_and!; [done|done|done|done|].
      destruct w1; simpl in *; [by subst|done|]. destruct H3 as (-> & ? & ? & ?). by split_and!.
Qed.

Lemma read_bytes_ring n : forall p W R bs p',
  ring p W R -> read_bytes n p = (bs, p') ->
  ring p' W (R ++ bs) /\ length bs = (n `min` (length W - length R))%nat /\
  readopen p' = readopen p /\ writeopen p' = writeopen p.
Proof.
  induction n as [|n IH]; intros p W R bs p' Hp; cbn [read_bytes].
  - intros [= <- <-]. by rewrite app_nil_r.
  - destruct (empty p) eqn:Ee.
    + intros [= <- <-]. rewrite app_nil_r. apply (empty_iff p W R Hp) in Ee.
      split_and!; [done| |done|done]. by rewrite Ee, Nat.sub_diag.
    + destruct (get_ring p W R Hp Ee) as [Hg Hx].
      assert (readopen (get p).2 = readopen p /\ writeopen (get p).2 = writeopen p) as [Hgr Hgw] by done.
      destruct (get p) as [b pg]. simpl in Hg, Hx, Hgr, Hgw. rewrite <-Hgr, <-Hgw.
      destruct (read_bytes n pg) as [bs1 p1] eqn:E. intros [= <- <-].
      destruct (IH _ _ _ _ _ Hg E) as (Hr & Hl & H1 & H2). rewrite <-app_assoc in Hr.
      split_and!; [done| |done|done]. rewrite length_cons, Hl, length_app, length_cons.
      apply lookup_lt_Some in Hx. simpl length. lia.
Qed.

Lemma piperead_ring killed n p W R r p' :
  ring p W R -> piperead killed n p = (r, p') ->
  readopen p' = readopen p /\ writeopen p' = writeopen p /\
  match r with
  | RDone bs => ring p' W (R ++ bs) /\ length bs = (n `min` (length W - length R))%nat /\
                ~ (empty p = true /\ writeopen p = true)
  | RFail => p' = p
  | RSleep => p' = p /\ empty p = true /\ writeopen p = true
  end.
Proof.
  intros Hp. unfold piperead. destruct (empty p && writeopen p) eqn:E.
  - apply andb_true_iff in E as [? ?]. by destruct killed; intros [= <- <-].
  - destruct (read_bytes n p) as [bs p1] eqn:Er. intros [= <- <-].
    destruct (read_bytes_ring _ _ _ _ _ _ Hp Er) as (? & ? & ? & ?). split_and!; try done.
    intros [Hem Hwr]. by rewrite Hem, Hwr in E.
Qed.

(** ** The invariant of the system *)

Record system_ok (calm : bool) (s : system) : Prop := {
  sys_ring : ring (pp s) (put_in s) (taken s);
  sys_open : forall i c a, procs s !! i = Some (c, a) -> end_open c (pp s);
  sys_writers : forall i rest, procs s !! i = Some (Writing rest, true) ->
                  full (pp s) = true /\ readopen (pp s) = true;
  sys_readers : calm = true -> forall i n, procs s !! i = Some (Reading n, true) ->
                  empty (pp s) = true /\ writeopen (pp s) = true
}.

Lemma wake_lookup readers ps i c a :
  wake readers ps !! i = Some (c, a) ->
  exists a', ps !! i = Some (c, a') /\ (a = true -> a' = true /\ is_writing c = readers).
Proof.
  unfold wake. rewrite lookup_fmap. destruct (ps !! i) as [[[r|n] a']|] eqn:E; simpl; [| |done].
  - destruct readers; intros [= <- <-]; exists a'; by split.
  - destruct readers; intros [= <- <-]; exists a'; by split.
Qed.

Lemma end_open_flags c p p' :
  readopen p' = readopen p -> writeopen p' = writeopen p -> end_open c p -> end_open c p'.
Proof. intros H1 H2. unfold end_open. by rewrite H1, H2. Qed.

Lemma step_write_ok calm s i addr killed w copied p' :
  system_ok calm s -> procs s !! i = Some (Writing addr, false) -> calm && killed = false ->
  pipewrite killed addr (pp s) = (w, copied, p') ->
  system_ok calm (mk_system p'
    (match w with
     | WDone => wake true (delete i (procs s))
     | WFail => delete i (procs s)
     | WSleep rest => <[i := (Writing rest, true)]> (wake true (procs s))
     end) (put_in s ++ copied) (taken s)).
Proof.
  intros [Hr Ho Hw Hrd] Hi Hk E.
  destruct (pipewrite_ring _ _ _ _ _ _ _ _ Hr E) as (Hr' & Hro & Hwo & Hfull & Hend).
  assert (forall k c a, match w with
     | WDone => wake true (delete i (procs s))
     | WFail => delete i (procs s)
     | WSleep rest => <[i := (Writing rest, true)]> (wake true (procs s)) end !! k = Some (c, a) ->
     (exists rest, w = WSleep rest /\ k = i /\ c = Writing rest) \/
     (k <> i \/ ~ w = WDone) /\ exists a', procs s !! k = Some (c, a') /\
       (a = true -> a' = true /\ (w = WFail \/ is_writing c = true))) as Hlk.
  { intros k c a. destruct w as [| |rest].
    - intros (a' & H & Ha)%wake_lookup. rewrite lookup_delete_Some in H. destruct H as [? H].
      right. split; [by left|]. exists a'. split; [done|]. naive_solver.
    - rewrite lookup_delete_Some. intros [? H]. right. split; [by left|]. exists a. naive_solver.
    - rewrite lookup_insert_Some. intros [[-> [= <- _]]|[? H]]; [left; by eexists|].
      apply wake_lookup in H as (a' & H & Ha). right. split; [by left|]. exists a'. naive_solver. }
  split; simpl; [done| | |].
  - intros k c a Hc. destruct (Hlk _ _ _ Hc) as [(rest & _ & _ & ->)|(_ & a' & H & _)].
    + apply (end_open_flags _ (pp s)); [done|done|]. by apply (Ho i (Writing addr) false).
    + apply (end_open_flags _ (pp s)); [done|done|]. by eapply Ho.
  - intros k rest Hc. rewrite Hro. destruct (Hlk _ _ _ Hc) as [(rest' & -> & _)|(_ & a' & H & Ha)].
    + naive_solver.
    + destruct (Ha eq_refl) as [-> _]. destruct (Hw _ _ H) as [Hf ?]. by rewrite (Hfull Hf).
  - intros -> k n Hc. destruct (Hlk _ _ _ Hc) as [(rest' & _ & _ & ?)|(_ & a' & H & Ha)]; [done|].
    destruct (Ha eq_refl) as [-> [->|?]]; [|done]. simpl in Hk. subst killed.
    destruct Hend as [_ [Hro'|?]]; [|done]. specialize (Ho _ _ _ H). unfold end_open in Ho. simpl in Ho.
    congruence.
Qed.

Lemma step_read_ok calm s i n killed r p' :
  system_ok calm s -> procs s !! i = Some (Reading n, false) ->
  piperead killed n (pp s) = (r, p') ->
  system_ok calm (mk_system p'
    (match r with
     | RDone _ => wake false (delete i (procs s))
     | RFail => delete i (procs s)
     | RSleep => <[i := (Reading n, true)]> (procs s)
     end) (put_in s) (taken s ++ match r with RDone bs => bs | _ => [] end)).
Proof.
  intros [Hr Ho Hw Hrd] Hi E.
  destruct (piperead_ring _ _ _ _ _ _ _ Hr E) as (Hro & Hwo & Hend).
  destruct r as [bs| |]; simpl.
  - destruct Hend as (Hr' & _ & Hne). split; simpl; [done| | |].
    + intros k c a (a' & [_ H]%lookup_delete_Some & _)%wake_lookup.
      apply (end_open_flags _ (pp s)); [done|done|]. by eapply Ho.
    + intros k rest (a' & _ & Ha)%wake_lookup. by destruct (Ha eq_refl).
    + intros -> k m (a' & [_ H]%lookup_delete_Some & Ha)%wake_lookup.
      destruct (Ha eq_refl) as [-> _]. by destruct (Hne (Hrd eq_refl _ _ H)).
  - subst p'. rewrite app_nil_r. split; simpl; [done| | |].
    + intros k c a [_ H]%lookup_delete_Some. by eapply Ho.
    + intros k rest [_ H]%lookup_delete_Some. by eapply Hw.
    + intros Hc k m [_ H]%lookup_delete_Some. by eapply Hrd.
  - destruct Hend as (-> & He & Hwr). rewrite app_nil_r. split; simpl; [done| | |].
    + intros k c a [[-> [= <- _]]|[_ H]]%lookup_insert_Some; [by apply (Ho k (Reading n) false)|by eapply Ho].
    + intros k rest [[-> ?]|[_ H]]%lookup_insert_Some; [done|by eapply Hw].
    + intros Hc k m [[-> ?]|[_ H]]%lookup_insert_Some; [done|by eapply Hrd].
Qed.

Lemma pipe_step_ok calm s s' : system_ok calm s -> pstep calm s s' -> system_ok calm s'.
Proof.
  intros Hs Hst. destruct Hst as [s i c Hn Hc|s i addr killed w cp p' Hi Hk E|s i n killed r p' Hi E|s wr Hg|s i c Hi].
  - destruct Hs as [Hr Ho Hw Hrd]. split; simpl; [done| | |].
    + intros k c' a [[-> [= <- _]]|[_ H]]%lookup_insert_Some; [done|by eapply Ho].
    + intros k rest [[-> ?]|[_ H]]%lookup_insert_Some; [done|by eapply Hw].
    + intros Hc' k m [[-> ?]|[_ H]]%lookup_insert_Some; [done|by eapply Hrd].
  - by apply (step_write_ok calm s i addr killed).
  - by apply (step_read_ok calm s i n killed).
  - destruct Hs as [Hr Ho Hw Hrd]. split; simpl.
    + destruct Hr. destruct wr; by split.
    + intros k c a (a' & H & _)%wake_lookup. specialize (Ho _ _ _ H). specialize (Hg _ _ _ H).
      unfold end_open in *. by destruct wr, (is_writing c).
    + intros k rest (a' & H & Ha)%wake_lookup. destruct (Ha eq_refl) as [-> <-]. by destruct (Hg _ _ _ H).
    + intros Hc k m (a' & H & Ha)%wake_lookup. destruct (Ha eq_refl) as [-> <-]. by destruct (Hg _ _ _ H).
  - destruct Hs as [Hr Ho Hw Hrd]. split; simpl; [done| | |].
    + intros k c' a [[-> [= <- _]]|[_ H]]%lookup_insert_Some; [by eapply Ho|by eapply Ho].
    + intros k rest [[-> ?]|[_ H]]%lookup_insert_Some; [done|by eapply Hw].
    + intros Hc k m [[-> ?]|[_ H]]%lookup_insert_Some; [done|by eapply Hrd].
Qed.

Definition new_system (junk : list Z) : system := mk_system (new_pipe junk) ∅ [] [].

Lemma new_system_ok calm junk : length junk = 512%nat -> system_ok calm (new_system junk).
Proof. intros Hj. split; simpl; try done. split; simpl; try done; simpl; lia. Qed.

(** C11: a pipe is a FIFO: in every interleaving of the runs of any number of writers and
    readers, closes and kills, also when the 32-bit counters wrap, what has been read is a
    prefix of what has been written and at most 512 bytes are in between.  A writer that
    sleeps has lost no wakeup: the pipe is full and can still be read.  For readers that
    holds in the runs in which no writer is killed inside [pipewrite] ([calm]): a reader that
    sleeps does so because the pipe is empty and can still be written; such a kill can leave
    a reader asleep on bytes, as [killed_writer_loses_wakeup] shows. *)
Theorem pipe_fifo calm junk s :
  length junk = 512%nat -> rtc (pstep calm) (new_system junk) s ->
  taken s = take (length (taken s)) (put_in s) /\
  (length (taken s) <= length (put_in s) <= length (taken s) + 512)%nat /\
  (forall i rest, procs s !! i = Some (Writing rest, true) ->
     length (put_in s) = (length (taken s) + 512)%nat /\ readopen (pp s) = true) /\
  (calm = true -> forall i n, procs s !! i = Some (Reading n, true) ->
     put_in s = taken s /\ writeopen (pp s) = true).
Proof.
  intros Hj Hr. assert (system_ok calm s) as [Hring _ Hw Hrd].
  { pose proof (new_system_ok calm junk Hj) as H0. induction Hr; [done|]. eauto using pipe_step_ok. }
  pose proof Hring as [_ _ _ Hp Hm _]. split_and!; [done|lia|lia| |].
  - intros i rest Hi. destruct (Hw _ _ Hi) as [Hf Ho]. split; [by apply (full_iff _ _ _ Hring)|done].
  - intros Hc i n Hi. destruct (Hrd Hc _ _ Hi) as [He Ho]. split; [|done].
    apply (empty_iff _ _ _ Hring) in He. rewrite Hp, <-He. by rewrite firstn_all.
Qed.

Definition demo_junk : list Z := replicate 512 7.

Lemma demo_runs : exists s, rtc (pstep true) (new_system demo_junk) s /\
  put_in s = [1; 2; 3] /\ taken s = [1; 2].
Proof.
  eexists. split; [|split].
  - eapply rtc_l; [by apply (step_call _ _ 0%nat (Writing [1; 2; 3]))|].
    eapply rtc_l; [eapply (step_write _ _ 0%nat [1; 2; 3] false); reflexivity|].
    eapply rtc_l; [by apply (step_call _ _ 1%nat (Reading 2))|].
    eapply rtc_l; [eapply (step_read _ _ 1%nat 2 false); reflexivity|]. apply rtc_refl.
  - reflexivity.
  - reflexivity.
Qed.

Lemma pipe_fifo_witness : exists s, put_in s = [1; 2; 3] /\ taken s = take (length (taken s)) (put_in s).
Proof.
  destruct demo_runs as (s & Hr & Hp & Ht). exists s. split; [exact Hp|].
  apply (pipe_fifo true demo_junk s); [reflexivity|exact Hr].
Defined.

(** A writer that is killed within [pipewrite] returns -1 without waking the readers:
    a reader can be left asleep although the pipe holds 512 bytes for it. *)
Theorem killed_writer_loses_wakeup : exists s,
  rtc (pstep false) (new_system demo_junk) s /\
  procs s !! 0%nat = Some (Reading 1, true) /\
  length (put_in s) = 512%nat /\ taken s = [] /\ writeopen (pp s) = true.
Proof.
  set (addr := replicate 513 5). assert (length addr = 513%nat) as Hl by done. clearbody addr.
  destruct (new_system_ok false demo_junk eq_refl) as [Hr _ _ _]. simpl in Hr.
  destruct (pipewrite true addr (new_pipe demo_junk)) as [[w c] p'] eqn:E.
  destruct (pipewrite_ring _ _ _ _ _ _ _ _ Hr E) as (Hr' & _ & Hwo & _ & Hend). simpl in Hr'.
  assert (length c <= 512)%nat as Hc by (destruct Hr' as [_ _ _ _ Hm _]; simpl in Hm; lia).
  destruct w as [| |rest]; [subst; lia| |by destruct Hend as (_ & _ & _ & ?)].
  destruct Hend as [Hf _]. apply (full_iff _ _ _ Hr') in Hf.
  eexists. split; [|split].
  - eapply rtc_l; [by apply (step_call _ _ 0%nat (Reading 1))|].
    eapply rtc_l; [eapply (step_read _ _ 0%nat 1 false); reflexivity|].
    eapply rtc_l; [by apply (step_call _ _ 1%nat (Writing addr))|].
    eapply rtc_l; [eapply (step_write _ _ 1%nat addr true WFail c p'); [reflexivity|reflexivity|exact E]|].
    apply rtc_refl.
  - reflexivity.
  - simpl. by split_and!.
Qed.
