(* ===== verification/File.v ===== *)
(** * Open files (src/p5/xv6-public/file.c)

    The table [ftable] of open file structures with their reference counts.  What file.c
    calls in pipe.c, log.c and fs.c is the interface [FileServices] over an environment
    [E]; sections under [ftable.lock] are atomic. *)

From S2P Require Import Prelude Bytes.

Definition NFILE : nat := 100.
Definition MAXOPBLOCKS : Z := 10.

Inductive ftype := FD_NONE | FD_PIPE | FD_INODE.
#[export] Instance ftype_eq_dec : EqDecision ftype.
Proof. solve_decision. Defined.

Record file := mk_file {
  f_type : ftype;
  f_ref : Z;
  f_readable : bool;
  f_writable : bool;
  f_pipe : Z;
  f_ip : Z;
  f_off : Z
}.
Definition set_ref (x : Z) (f : file) : file :=
  mk_file (f_type f) x (f_readable f) (f_writable f) (f_pipe f) (f_ip f) (f_off f).
Definition set_type (x : ftype) (f : file) : file :=
  mk_file x (f_ref f) (f_readable f) (f_writable f) (f_pipe f) (f_ip f) (f_off f).
Definition set_off (x : Z) (f : file) : file :=
  mk_file (f_type f) (f_ref f) (f_readable f) (f_writable f) (f_pipe f) (f_ip f) x.
Definition zero_file : file := mk_file FD_NONE 0 false false 0 0 0.

(** Calls into pipe.c, log.c and fs.c; [readi] and [piperead] give the bytes read with
    the result. *)
Class FileServices (E : Type) := {
  fs_pipeclose : Z -> bool -> M E unit;
  fs_piperead : Z -> Z -> M E (Z * list Z);
  fs_pipewrite : Z -> list Z -> Z -> M E Z;
  fs_begin_op : M E unit;
  fs_end_op : M E unit;
  fs_iput : Z -> M E unit;
  fs_ilock : Z -> M E unit;
  fs_iunlock : Z -> M E unit;
  fs_stati : Z -> M E (list Z);
  fs_readi : Z -> Z -> Z -> M E (Z * list Z);
  fs_writei : Z -> list Z -> Z -> Z -> M E Z;
  fs_newpipe : M E Z          (** [kalloc] of a pipe and its initialisation; 0 when full *)
}.

Section file.
Context {E : Type} {services : FileServices E}.

Record fst_ := mk_fst { ftable : list file; fenv : E }.
Definition set_ftable (t : list file) (s : fst_) : fst_ := mk_fst t (fenv s).
Definition set_fenv (e : E) (s : fst_) : fst_ := mk_fst (ftable s) e.
Definition srv {A} (m : M E A) : M fst_ A := zoom fenv set_fenv m.

Definition get_file (i : nat) : M fst_ file := s <- gets id ;; deref "file" (ftable s !! i).
Definition put_file (i : nat) (f : file) : M fst_ unit :=
  modify (fun s => set_ftable (<[i := f]> (ftable s)) s).

Definition fileinit (e : E) : fst_ := mk_fst (replicate NFILE zero_file) e.

(** The loop of [filealloc] from slot [i] on. *)
Fixpoint alloc_from (n i : nat) : M fst_ (option nat) :=
  match n with
  | O => ret None
  | S n' =>
      f <- get_file i ;;
      if f_ref f =? 0 then put_file i (set_ref 1 f) ;;; ret (Some i) else alloc_from n' (S i)
  end.
Definition filealloc : M fst_ (option nat) := alloc_from NFILE 0.

Definition filedup (i : nat) : M fst_ nat :=
  f <- get_file i ;;
  panic_if (f_ref f <? 1) "filedup" ;;;
  put_file i (set_ref (s32 (f_ref f + 1)) f) ;;;
  ret i.

Definition fileclose (i : nat) : M fst_ unit :=
  f <- get_file i ;;
  panic_if (f_ref f <? 1) "fileclose" ;;;
  let r := f_ref f - 1 in
  put_file i (set_ref r f) ;;;
  if 0 <? r then ret tt
  else
    let ff := set_ref r f in
    put_file i (set_type FD_NONE (set_ref 0 f)) ;;;
    match f_type ff with
    | FD_PIPE => srv (fs_pipeclose (f_pipe ff) (f_writable ff))
    | FD_INODE => srv (fs_begin_op ;;; fs_iput (f_ip ff) ;;; fs_end_op)
    | FD_NONE => ret tt
    end.

(** The status words, or -1. *)
Definition filestat (i : nat) : M fst_ (option (list Z)) :=
  f <- get_file i ;;
  match f_type f with
  | FD_INODE =>
      srv (fs_ilock (f_ip f)) ;;;
      st <- srv (fs_stati (f_ip f)) ;;
      srv (fs_iunlock (f_ip f)) ;;;
      ret (Some st)
  | _ => ret None
  end.

Definition fileread (i : nat) (n : Z) : M fst_ (Z * list Z) :=
  f <- get_file i ;;
  if negb (f_readable f) then ret (-1, [])
  else
    match f_type f with
    | FD_PIPE => srv (fs_piperead (f_pipe f) n)
    | FD_INODE =>
        srv (fs_ilock (f_ip f)) ;;;
        r <- srv (fs_readi (f_ip f) (f_off f) n) ;;
        (if 0 <? fst r then put_file i (set_off (u32 (f_off f + fst r)) f) else ret tt) ;;;
        srv (fs_iunlock (f_ip f)) ;;;
        ret r
    | FD_NONE => panic "fileread"
    end.

(** [((MAXOPBLOCKS-1-1-2) / 2) * 512] *)
Definition max_chunk : Z := (MAXOPBLOCKS - 1 - 1 - 2) / 2 * 512.

(** One round of the loop of [filewrite]; [inr] leaves it with [i]. *)
Definition write_round (fi : nat) (addr : list Z) (n i : Z) : M fst_ (Z + Z) :=
  if i <? n then
    let n1 := if max_chunk <? n - i then max_chunk else n - i in
    f <- get_file fi ;;
    srv fs_begin_op ;;;
    srv (fs_ilock (f_ip f)) ;;;
    r <- srv (fs_writei (f_ip f) (drop (Z.to_nat i) addr) (f_off f) n1) ;;
    (if 0 <? r then put_file fi (set_off (u32 (f_off f + r)) f) else ret tt) ;;;
    srv (fs_iunlock (f_ip f)) ;;;
    srv fs_end_op ;;;
    if r <? 0 then ret (inr i)
    else panic_if (negb (r =? n1)) "short filewrite" ;;; ret (inl (i + r))
  else ret (inr i).

Definition filewrite (fi : nat) (addr : list Z) (n : Z) : M fst_ Z :=
  f <- get_file fi ;;
  if negb (f_writable f) then ret (-1)
  else
    match f_type f with
    | FD_PIPE => srv (fs_pipewrite (f_pipe f) addr n)
    | FD_INODE =>
        i <- loop (S (Z.to_nat n)) (write_round fi addr n) 0 ;;
        ret (if i =? n then n else -1)
    | FD_NONE => panic "filewrite"
    end.

(** [pipealloc] of pipe.c: two files on one pipe, or none. *)
Definition pipealloc : M fst_ (option (nat * nat)) :=
  o0 <- filealloc ;;
  match o0 with
  | None => ret None
  | Some f0 =>
      o1 <- filealloc ;;
      match o1 with
      | None => fileclose f0 ;;; ret None
      | Some f1 =>
          p <- srv fs_newpipe ;;
          if p =? 0 then fileclose f0 ;;; fileclose f1 ;;; ret None
          else
            a <- get_file f0 ;;
            put_file f0 (mk_file FD_PIPE (f_ref a) true false p (f_ip a) (f_off a)) ;;;
            b <- get_file f1 ;;
            put_file f1 (mk_file FD_PIPE (f_ref b) false true p (f_ip b) (f_off b)) ;;;
            ret (Some (f0, f1))
      end
  end.

(** ** Reference counts *)

(** How many of the handles [h] (descriptors of all processes) are to file [i]. *)
Definition count (h : list nat) (i : nat) : Z := Z.of_nat (length (filter (fun k => k = i) h)).

Definition refs_ok (s : fst_) (h : list nat) : Prop :=
  length (ftable s) = NFILE /\ Z.of_nat (length h) < 2 ^ 31 /\
  Forall (fun i => (i < NFILE)%nat) h /\
  forall i f, ftable s !! i = Some f -> f_ref f = count h i /\ (f_ref f = 0 -> f_type f = FD_NONE).

Lemma count_cons h k i : count (k :: h) i = count h i + (if decide (k = i) then 1 else 0).
Proof. unfold count. rewrite filter_cons. case_decide; simpl length; lia. Qed.

Lemma count_app h1 h2 i : count (h1 ++ h2) i = count h1 i + count h2 i.
Proof. unfold count. rewrite filter_app, length_app. lia. Qed.

Lemma count_nonneg h i : 0 <= count h i <= Z.of_nat (length h).
Proof. unfold count. pose proof (length_filter (fun k => k = i) h). lia. Qed.

Lemma count_held h i : i ∈ h -> 1 <= count h i.
Proof.
  intros (h1 & h2 & ->)%list_elem_of_split. rewrite count_app, count_cons, decide_True by done.
  pose proof (count_nonneg h1 i). pose proof (count_nonneg h2 i). lia.
Qed.

Lemma get_file_run s i f : ftable s !! i = Some f -> get_file i s = Ret f s.
Proof. intros H. unfold get_file, bind, gets, deref. simpl. by rewrite H. Qed.

(** Changing one file and the handles to it. *)
Lemma refs_ok_put s h h' i f :
  refs_ok s h -> (i < NFILE)%nat -> Z.of_nat (length h') < 2 ^ 31 ->
  Forall (fun i => (i < NFILE)%nat) h' ->
  f_ref f = count h' i -> (f_ref f = 0 -> f_type f = FD_NONE) ->
  (forall k, k <> i -> count h' k = count h k) ->
  forall s', ftable s' = <[i := f]> (ftable s) -> refs_ok s' h'.
Proof.
  intros (Hl & _ & _ & Hr) Hi Hlen Hin Hf Ht Hk s' E'. unfold refs_ok. rewrite E', length_insert.
  split_and!; [done|done|done|]. intros k g Hg. destruct (decide (k = i)) as [->|Hne].
  - rewrite list_lookup_insert_eq in Hg by lia. by injection Hg as <-.
  - rewrite list_lookup_insert_ne in Hg by done. rewrite Hk by done. by apply Hr.
Qed.

(** [filealloc] takes a file nobody holds. *)
Lemma filealloc_run s h :
  refs_ok s h ->
  filealloc s = Ret None s /\ (forall i, (i < NFILE)%nat -> 1 <= count h i) \/
  exists i f, filealloc s = Ret (Some i) (set_ftable (<[i := set_ref 1 f]> (ftable s)) s) /\
    ftable s !! i = Some f /\ count h i = 0.
Proof.
  intros (Hl & _ & _ & Hr). unfold filealloc.
  assert (forall n i, (n + i = NFILE)%nat -> (forall k, (k < i)%nat -> 1 <= count h k) ->
    alloc_from n i s = Ret None s /\ (forall k, (k < NFILE)%nat -> 1 <= count h k) \/
    exists k f, alloc_from n i s = Ret (Some k) (set_ftable (<[k := set_ref 1 f]> (ftable s)) s) /\
      ftable s !! k = Some f /\ count h k = 0) as H.
  2:{ destruct (H NFILE 0%nat) as [?|(k & f & ?)]; [lia|lia|by left|right; by exists k, f]. }
  induction n as [|n IH]; intros i Hn Hk.
  - left. split; [done|]. intros k Hlt. apply Hk. lia.
  - simpl. destruct (lookup_lt_is_Some_2 (ftable s) i) as [f Hf]; [lia|].
    unfold bind. rewrite (get_file_run _ _ _ Hf). destruct (Hr _ _ Hf) as [Href _].
    destruct (f_ref f =? 0) eqn:E0.
    + apply Z.eqb_eq in E0. right. exists i, f. split; [done|]. split; [done|]. lia.
    + apply Z.eqb_neq in E0. apply IH; [lia|]. intros k Hlt.
      destruct (decide (k = i)) as [->|]; [pose proof (count_nonneg h i); lia|apply Hk; lia].
Qed.

Lemma filedup_run s h i f :
  refs_ok s h -> i ∈ h -> ftable s !! i = Some f ->
  filedup i s = Ret i (set_ftable (<[i := set_ref (s32 (f_ref f + 1)) f]> (ftable s)) s).
Proof.
  intros (_ & _ & _ & Hr) Hi Hf. destruct (Hr _ _ Hf) as [Href _]. pose proof (count_held _ _ Hi).
  unfold filedup, bind. rewrite (get_file_run _ _ _ Hf). unfold panic_if.
  by rewrite (proj2 (Z.ltb_ge _ _)) by lia.
Qed.

(** What the last [fileclose] of [f] calls. *)
Definition release (f : file) : M E unit :=
  match f_type f with
  | FD_PIPE => fs_pipeclose (f_pipe f) (f_writable f)
  | FD_INODE => fs_begin_op ;;; fs_iput (f_ip f) ;;; fs_end_op
  | FD_NONE => ret tt
  end.

Definition freed (f : file) : file := set_type FD_NONE (set_ref 0 f).

Lemma fileclose_run s h i f :
  refs_ok s h -> i ∈ h -> ftable s !! i = Some f ->
  fileclose i s =
  if decide (count h i = 1) then
    srv (release f) (set_ftable (<[i := freed f]> (ftable s)) s)
  else Ret tt (set_ftable (<[i := set_ref (count h i - 1) f]> (ftable s)) s).
Proof.
  intros (_ & _ & _ & Hr) Hi Hf. destruct (Hr _ _ Hf) as [Href _]. pose proof (count_held _ _ Hi).
  unfold fileclose, bind. rewrite (get_file_run _ _ _ Hf). unfold panic_if.
  rewrite (proj2 (Z.ltb_ge _ _)) by lia. unfold ret at 1, put_file, modify. rewrite Href.
  case_decide as Hc.
  - rewrite Hc. simpl. rewrite list_insert_insert_eq. unfold release, freed. by destruct (f_type f).
  - by rewrite (proj2 (Z.ltb_lt _ _)) by lia.
Qed.

(** ** The kernel's use of the table

    A process allocates a file and fills it in, duplicates a handle ([dup], [fork]) or
    closes one ([close], [exit]). *)
Inductive file_step : fst_ * list nat -> fst_ * list nat -> Prop :=
| step_alloc s s' h i :
    filealloc s = Ret (Some i) s' -> Z.of_nat (length h) < 2 ^ 31 - 1 ->
    file_step (s, h) (s', i :: h)
| step_fill s h i f f' :
    i ∈ h -> ftable s !! i = Some f -> f_ref f' = f_ref f ->
    file_step (s, h) (set_ftable (<[i := f']> (ftable s)) s, h)
| step_dup s s' h i :
    i ∈ h -> filedup i s = Ret i s' -> Z.of_nat (length h) < 2 ^ 31 - 1 ->
    file_step (s, h) (s', i :: h)
| step_close s s' h1 i h2 :
    fileclose i s = Ret tt s' -> file_step (s, h1 ++ i :: h2) (s', h1 ++ h2)
| step_env s e h : file_step (s, h) (set_fenv e s, h).

Lemma held_file s h i : refs_ok s h -> i ∈ h -> exists f, ftable s !! i = Some f /\ (i < NFILE)%nat.
Proof.
  intros (Hl & _ & Hin & _) Hi. rewrite Forall_forall in Hin. specialize (Hin _ Hi).
  destruct (lookup_lt_is_Some_2 (ftable s) i) as [f Hf]; [lia|]. by exists f.
Qed.

Lemma srv_Ret {A} (m : M E A) s a s' : srv m s = Ret a s' -> ftable s' = ftable s.
Proof. unfold srv, zoom. destruct (m (fenv s)); try done. by intros [= _ <-]. Qed.

Lemma file_step_ok st st' : refs_ok st.1 st.2 -> file_step st st' -> refs_ok st'.1 st'.2.
Proof.
  intros Hok Hst. destruct Hst as [s s' h i Ea Hl|s h i f f' Hi Hf Href|s s' h i Hi Ed Hl|s s' h1 i h2 Ec|s e h]; simpl in *.
  - destruct (filealloc_run s h Hok) as [[E' _]|(k & f & E' & Hf & Hc)]; rewrite E' in Ea; [done|].
    injection Ea as <- <-. pose proof (lookup_lt_Some _ _ _ Hf) as Hlt. destruct Hok as (Hlen & H2 & H3 & H4).
    eapply (refs_ok_put s h (k :: h) k (set_ref 1 f)); [done|lia|simpl length; lia|constructor; [lia|done]| | | |done].
    + by rewrite count_cons, decide_True, Hc.
    + done.
    + intros j Hj. rewrite count_cons, decide_False by done. lia.
  - destruct (held_file s h i Hok Hi) as (g & Hg & Hlt). pose proof Hok as (_ & H2 & H3 & H4).
    destruct (H4 _ _ Hf) as [Hr _]. pose proof (count_held _ _ Hi).
    eapply (refs_ok_put s h h i f'); try done; lia.
  - destruct (held_file s h i Hok Hi) as (f & Hf & Hlt). pose proof Hok as (_ & H2 & H3 & H4).
    destruct (H4 _ _ Hf) as [Hr _]. pose proof (count_held _ _ Hi). pose proof (count_nonneg h i).
    rewrite (filedup_run s h i f Hok Hi Hf) in Ed. injection Ed as <-.
    rewrite s32_small by lia.
    eapply (refs_ok_put s h (i :: h) i (set_ref (f_ref f + 1) f)); [done|done|simpl length; lia|by constructor| | | |done].
    + rewrite count_cons, decide_True by done. simpl. lia.
    + simpl. lia.
    + intros j Hj. rewrite count_cons, decide_False by done. lia.
  - assert (i ∈ h1 ++ i :: h2) as Hi by set_solver.
    destruct (held_file s _ i Hok Hi) as (f & Hf & Hlt). pose proof Hok as (_ & H2 & H3 & H4).
    rewrite (fileclose_run s _ i f Hok Hi Hf) in Ec.
    apply Forall_app in H3 as [H31 [_ H32]%Forall_cons_1].
    assert (forall g, f_ref g = count (h1 ++ h2) i -> (f_ref g = 0 -> f_type g = FD_NONE) ->
      forall s1, ftable s1 = <[i := g]> (ftable s) -> refs_ok s1 (h1 ++ h2)) as Hput.
    { intros g Hg Ht. eapply (refs_ok_put s (h1 ++ i :: h2) (h1 ++ h2) i g); [done|done| | |done|done|].
      - rewrite length_app in *. simpl in H2. lia.
      - by apply Forall_app.
      - intros k Hk. rewrite !count_app, count_cons, decide_False by done. lia. }
    rewrite count_app, count_cons, (decide_True (P := i = i)) in Ec by done. case_decide as Hc.
    + apply srv_Ret in Ec. apply (Hput (freed f)); [rewrite count_app; simpl; lia|done|exact Ec].
    + injection Ec as <-. apply (Hput (set_ref (count h1 i + (count h2 i + 1) - 1) f)); [|simpl|done].
      * rewrite count_app. simpl. lia.
      * pose proof (count_nonneg h1 i). pose proof (count_nonneg h2 i). lia.
  - done.
Qed.

(** C20: the reference count of every file is the number of handles to it, whatever
    sequence of allocations, duplications and closes led there; so [filealloc] never hands
    out a file that is open, a held file can be duplicated and closed without a panic, and
    the pipe or inode is released by the close of the last handle and by no other. *)
Theorem file_refcounts e s h :
  rtc file_step (fileinit e, []) (s, h) ->
  (forall i f, ftable s !! i = Some f -> f_ref f = count h i) /\
  (forall i s', filealloc s = Ret (Some i) s' -> i ∉ h) /\
  (forall i, i ∈ h -> exists f, ftable s !! i = Some f /\
     (exists s', filedup i s = Ret i s') /\
     fileclose i s =
       if decide (count h i = 1) then srv (release f) (set_ftable (<[i := freed f]> (ftable s)) s)
       else Ret tt (set_ftable (<[i := set_ref (count h i - 1) f]> (ftable s)) s)).
Proof.
  intros Hr. assert (refs_ok s h) as Hok.
  { assert (refs_ok (fileinit e) []) as H0.
    { split_and!; [by apply length_replicate|done|done|]. intros i f [-> _]%lookup_replicate. by split. }
    change (refs_ok (s, h).1 (s, h).2). change (refs_ok (fileinit e, @nil nat).1 (fileinit e, @nil nat).2) in H0.
    revert H0. induction Hr; [done|]. eauto using file_step_ok. }
  split_and!.
  - intros i f Hf. by apply Hok.
  - intros i s' Ea Hi. destruct (filealloc_run s h Hok) as [[E' _]|(k & f & E' & Hf & Hc)]; rewrite E' in Ea; [done|].
    injection Ea as <- _. apply count_held in Hi. lia.
  - intros i Hi. destruct (held_file s h i Hok Hi) as (f & Hf & _). exists f. split; [done|].
    split; [eexists; by apply (filedup_run s h)|]. by apply fileclose_run.
Qed.
End file.

(** A single file in memory. *)
#[global] Instance DemoServices : FileServices (list Z) := {|
  fs_pipeclose _ _ := ret tt;
  fs_piperead _ _ := ret (0, []);
  fs_pipewrite _ _ n := ret n;
  fs_begin_op := ret tt;
  fs_end_op := ret tt;
  fs_iput _ := ret tt;
  fs_ilock _ := ret tt;
  fs_iunlock _ := ret tt;
  fs_stati _ := ret [];
  fs_readi _ _ _ := ret (0, []);
  fs_writei _ bs off n := fun l => Ret n (write_at off (take (Z.to_nat n) bs) l);
  fs_newpipe := ret 1
|}.

Lemma file_refcounts_witness : exists s i, rtc file_step (fileinit (@nil Z), []) (s, [i]) /\ i ∈ [i] /\
  exists f, ftable s !! i = Some f.
Proof.
  assert (rtc file_step (fileinit (@nil Z), [])
            (set_ftable (<[0%nat := set_ref 1 zero_file]> (ftable (fileinit (@nil Z)))) (fileinit (@nil Z)), [0%nat])) as Hr.
  { apply rtc_once. by apply step_alloc. }
  eexists _, 0%nat. split; [exact Hr|]. split; [left|].
  destruct (file_refcounts (@nil Z) _ _ Hr) as (_ & _ & H).
  destruct (H 0%nat) as (f & Hf & _); [left|]. exists f. exact Hf.
Defined.
