(* ===== verification/Fs.v ===== *)
(** * Inodes, directories and paths (src/p5/xv6-public/fs.c)

    The file system above the buffer cache and the log: the block bitmap, the inode cache
    with its reference counts and sleep locks, file contents through direct and indirect
    blocks, directories and path names.  Every block is read with [Bio.bread] and changed
    under [Log.log_write]; the on-disk structures are read and written as bytes.  A pointer
    to an inode is its index in the cache, and [icache.lock] makes the few lines under it
    one step. *)

From S2P Require Import Prelude Bytes Bio Log CStr.

Definition NINODE : nat := 50.
Definition NDEV : Z := 10.
Definition ROOTINO : Z := 1.
Definition NDIRECT : Z := 12.
Definition NINDIRECT : Z := 128.
Definition MAXFILE : Z := NDIRECT + NINDIRECT.
Definition IPB : Z := 8.
Definition BPB : Z := 4096.
Definition DIRSIZ : nat := 14.
Definition T_DIR : Z := 1.
Definition T_FILE : Z := 2.
Definition T_DEV : Z := 3.
(** [sizeof(struct dinode)] and [sizeof(struct dirent)] *)
Definition DINODE : Z := 64.
Definition DIRENT : Z := 16.

Definition s16 (x : Z) : Z := (x + 2 ^ 15) mod 2 ^ 16 - 2 ^ 15.

Definition IBLOCK (i : Z) (sb : superblock) : Z := u32 (i / IPB + sb_inodestart sb).
Definition BBLOCK (b : Z) (sb : superblock) : Z := u32 (b / BPB + sb_bmapstart sb).

(** [struct inode] of file.h *)
Record inode := Inode {
  i_dev : Z;
  i_inum : Z;
  i_ref : Z;
  i_lock : sleeplock;
  i_valid : bool;
  i_type : Z;
  i_major : Z;
  i_minor : Z;
  i_nlink : Z;
  i_size : Z;
  i_addrs : list Z
}.
Definition set_iref (x : Z) (p : inode) : inode :=
  Inode (i_dev p) (i_inum p) x (i_lock p) (i_valid p) (i_type p) (i_major p) (i_minor p) (i_nlink p) (i_size p) (i_addrs p).
Definition set_ilock (x : sleeplock) (p : inode) : inode :=
  Inode (i_dev p) (i_inum p) (i_ref p) x (i_valid p) (i_type p) (i_major p) (i_minor p) (i_nlink p) (i_size p) (i_addrs p).
Definition set_valid (x : bool) (p : inode) : inode :=
  Inode (i_dev p) (i_inum p) (i_ref p) (i_lock p) x (i_type p) (i_major p) (i_minor p) (i_nlink p) (i_size p) (i_addrs p).
Definition set_itype (x : Z) (p : inode) : inode :=
  Inode (i_dev p) (i_inum p) (i_ref p) (i_lock p) (i_valid p) x (i_major p) (i_minor p) (i_nlink p) (i_size p) (i_addrs p).
Definition set_nlink (x : Z) (p : inode) : inode :=
  Inode (i_dev p) (i_inum p) (i_ref p) (i_lock p) (i_valid p) (i_type p) (i_major p) (i_minor p) x (i_size p) (i_addrs p).
Definition set_size (x : Z) (p : inode) : inode :=
  Inode (i_dev p) (i_inum p) (i_ref p) (i_lock p) (i_valid p) (i_type p) (i_major p) (i_minor p) (i_nlink p) x (i_addrs p).
Definition set_addrs (x : list Z) (p : inode) : inode :=
  Inode (i_dev p) (i_inum p) (i_ref p) (i_lock p) (i_valid p) (i_type p) (i_major p) (i_minor p) (i_nlink p) (i_size p) x.
Definition zero_inode : inode := Inode 0 0 0 (SleepLock false 0) false 0 0 0 0 0 (replicate 13 0).

(** Blocks and log, the superblock, the inode cache, and the inode of the current
    directory. *)
Record fss := Fss { fs_log : logst; fs_sb : superblock; icache : list inode; fs_cwd : nat }.
Definition set_log (x : logst) (s : fss) : fss := Fss x (fs_sb s) (icache s) (fs_cwd s).
Definition set_icache (x : list inode) (s : fss) : fss := Fss (fs_log s) (fs_sb s) x (fs_cwd s).

Definition on_log {A} (m : M logst A) : M fss A := zoom fs_log set_log m.
Definition blk {A} (m : M bio A) : M fss A := on_log (on_bio m).
Definition get_sb : M fss superblock := gets fs_sb.
Definition get_inode (i : nat) : M fss inode := s <- gets id ;; deref "inode" (icache s !! i).
Definition upd_inode (i : nat) (f : inode -> inode) : M fss unit :=
  modify (fun s => set_icache (alter f i (icache s)) s).

(** ** Blocks *)

Definition bzero (dev bno : Z) : M fss unit :=
  bp <- blk (bread dev bno) ;;
  blk (bset_data bp (replicate BSIZE 0)) ;;;
  on_log (log_write bp) ;;;
  blk (brelse bp).

(** [bp->data[bi/8]] and the mask [1 << (bi % 8)] *)
Definition bit_set (d : list Z) (bi : Z) : bool :=
  negb (Z.land (nth (Z.to_nat (bi / 8)) d 0) (Z.shiftl 1 (bi mod 8)) =? 0).
Definition mark (bi : Z) (d : list Z) : list Z :=
  <[Z.to_nat (bi / 8) := Z.lor (nth (Z.to_nat (bi / 8)) d 0) (Z.shiftl 1 (bi mod 8))]> d.
Definition unmark (bi : Z) (d : list Z) : list Z :=
  <[Z.to_nat (bi / 8) := Z.land (nth (Z.to_nat (bi / 8)) d 0) (Z.lnot (Z.shiftl 1 (bi mod 8)))]> d.

(** The inner loop of [balloc]: the first clear bit among the [n] from [bi] on. *)
Fixpoint free_bit (n : nat) (d : list Z) (b bi size : Z) : option Z :=
  match n with
  | O => None
  | S n' =>
      if b + bi <? size then
        if bit_set d bi then free_bit n' d b (bi + 1) size else Some bi
      else None
  end.

(** The outer loop, one bitmap block per round. *)
Fixpoint balloc_loop (n : nat) (dev b : Z) : M fss Z :=
  match n with
  | O => fun _ => Timeout
  | S n' =>
      sb <- get_sb ;;
      if b <? sb_size sb then
        bp <- blk (bread dev (BBLOCK b sb)) ;;
        d <- blk (bdata bp) ;;
        match free_bit (Z.to_nat BPB) d b 0 (sb_size sb) with
        | Some bi =>
            blk (bset_data bp (mark bi d)) ;;;
            on_log (log_write bp) ;;;
            blk (brelse bp) ;;;
            bzero dev (b + bi) ;;;
            ret (b + bi)
        | None =>
            blk (brelse bp) ;;;
            balloc_loop n' dev (b + BPB)
        end
      else panic "balloc: out of blocks"
  end.

Definition balloc (dev : Z) : M fss Z :=
  sb <- get_sb ;; balloc_loop (S (S (Z.to_nat (sb_size sb / BPB)))) dev 0.

Definition bfree (dev b : Z) : M fss unit :=
  sb <- get_sb ;;
  bp <- blk (bread dev (BBLOCK b sb)) ;;
  let bi := b mod BPB in
  d <- blk (bdata bp) ;;
  panic_if (negb (bit_set d bi)) "freeing free block" ;;;
  blk (bset_data bp (unmark bi d)) ;;;
  on_log (log_write bp) ;;;
  blk (brelse bp).

(** ** Inodes *)

(** A [struct dinode] at offset [o] of a block. *)
Definition di_type (o : Z) (d : list Z) : Z := s16 (get16 o d).
Definition di_major (o : Z) (d : list Z) : Z := s16 (get16 (o + 2) d).
Definition di_minor (o : Z) (d : list Z) : Z := s16 (get16 (o + 4) d).
Definition di_nlink (o : Z) (d : list Z) : Z := s16 (get16 (o + 6) d).
Definition di_size (o : Z) (d : list Z) : Z := get32 (o + 8) d.
Definition di_addrs (o : Z) (d : list Z) : list Z := get_words (o + 12) 13 d.
Fixpoint put_words (o : Z) (ws : list Z) (d : list Z) : list Z :=
  match ws with
  | [] => d
  | w :: ws' => put_words (o + 4) ws' (put32 o w d)
  end.
Definition put_dinode (o : Z) (p : inode) (d : list Z) : list Z :=
  put_words (o + 12) (i_addrs p)
    (put32 (o + 8) (i_size p)
      (put16 (o + 6) (i_nlink p)
        (put16 (o + 4) (i_minor p) (put16 (o + 2) (i_major p) (put16 o (i_type p) d))))).
(** The place of inode [inum] in its block. *)
Definition dinode_off (inum : Z) : Z := inum mod IPB * DINODE.

Definition iinit (dev : Z) : M fss unit :=
  modify (set_icache (replicate NINODE zero_inode)) ;;;
  sb <- blk (readsb dev) ;;
  modify (fun s => Fss (fs_log s) sb (icache s) (fs_cwd s)).

(** The slot of inode [inum] in the cache, and the first slot that is free. *)
Fixpoint iget_scan (l : list inode) (dev inum : Z) (i : nat) (empty : option nat) : nat + option nat :=
  match l with
  | [] => inr empty
  | p :: l' =>
      if (0 <? i_ref p) && (i_dev p =? dev) && (i_inum p =? inum) then inl i
      else iget_scan l' dev inum (S i)
             (match empty with None => if i_ref p =? 0 then Some i else None | Some e => Some e end)
  end.

Definition iget (dev inum : Z) : M fss nat :=
  s <- gets id ;;
  match iget_scan (icache s) dev inum 0 None with
  | inl i => upd_inode i (fun p => set_iref (s32 (i_ref p + 1)) p) ;;; ret i
  | inr None => panic "iget: no inodes"
  | inr (Some i) =>
      upd_inode i (fun p => Inode dev inum 1 (i_lock p) false (i_type p) (i_major p) (i_minor p)
                                  (i_nlink p) (i_size p) (i_addrs p)) ;;;
      ret i
  end.

Fixpoint ialloc_loop (n : nat) (dev inum type : Z) : M fss nat :=
  match n with
  | O => fun _ => Timeout
  | S n' =>
      sb <- get_sb ;;
      if inum <? sb_ninodes sb then
        bp <- blk (bread dev (IBLOCK inum sb)) ;;
        d <- blk (bdata bp) ;;
        let o := dinode_off inum in
        if di_type o d =? 0 then
          blk (bset_data bp (put16 o type (splice (Z.to_nat o) (replicate (Z.to_nat DINODE) 0) d))) ;;;
          on_log (log_write bp) ;;;
          blk (brelse bp) ;;;
          iget dev inum
        else
          blk (brelse bp) ;;;
          ialloc_loop n' dev (inum + 1) type
      else panic "ialloc: no inodes"
  end.

Definition ialloc (dev type : Z) : M fss nat :=
  sb <- get_sb ;; ialloc_loop (S (Z.to_nat (sb_ninodes sb))) dev 1 type.

Definition iupdate (i : nat) : M fss unit :=
  p <- get_inode i ;;
  sb <- get_sb ;;
  bp <- blk (bread (i_dev p) (IBLOCK (i_inum p) sb)) ;;
  d <- blk (bdata bp) ;;
  blk (bset_data bp (put_dinode (dinode_off (i_inum p)) p d)) ;;;
  on_log (log_write bp) ;;;
  blk (brelse bp).

Definition idup (i : nat) : M fss nat :=
  upd_inode i (fun p => set_iref (s32 (i_ref p + 1)) p) ;;; ret i.

(** [acquiresleep], [releasesleep] and [holdingsleep] on the inode's lock. *)
Definition acquire_inode (i : nat) : M fss unit :=
  p <- get_inode i ;;
  if sl_locked (i_lock p) then sleeps "sleeplock"
  else
    pid <- gets (fun s => mypid (st_bio (fs_log s))) ;;
    upd_inode i (set_ilock (SleepLock true pid)).
Definition release_inode (i : nat) : M fss unit := upd_inode i (set_ilock (SleepLock false 0)).
Definition holding_inode (i : nat) : M fss bool :=
  p <- get_inode i ;;
  pid <- gets (fun s => mypid (st_bio (fs_log s))) ;;
  ret (sl_locked (i_lock p) && (sl_pid (i_lock p) =? pid)).

(** [ip->type = dip->type] and the other fields. *)
Definition load_dinode (o : Z) (d : list Z) (p : inode) : inode :=
  Inode (i_dev p) (i_inum p) (i_ref p) (i_lock p) true (di_type o d) (di_major o d) (di_minor o d)
        (di_nlink o d) (di_size o d) (di_addrs o d).

Definition ilock (i : nat) : M fss unit :=
  p <- get_inode i ;;
  panic_if (i_ref p <? 1) "ilock" ;;;
  acquire_inode i ;;;
  if i_valid p then ret tt
  else
    sb <- get_sb ;;
    bp <- blk (bread (i_dev p) (IBLOCK (i_inum p) sb)) ;;
    d <- blk (bdata bp) ;;
    upd_inode i (load_dinode (dinode_off (i_inum p)) d) ;;;
    blk (brelse bp) ;;;
    panic_if (di_type (dinode_off (i_inum p)) d =? 0) "ilock: no type".

Definition iunlock (i : nat) : M fss unit :=
  h <- holding_inode i ;;
  p <- get_inode i ;;
  panic_if (negb h || (i_ref p <? 1)) "iunlock" ;;;
  release_inode i.

(** ** Contents *)

(** Word [n] of an indirect block. *)
Definition word (n : Z) (d : list Z) : Z := get32 (4 * n) d.

Definition bmap (i : nat) (bn : Z) : M fss Z :=
  p <- get_inode i ;;
  if bn <? NDIRECT then
    addr <- deref "addrs" (i_addrs p !! Z.to_nat bn) ;;
    if addr =? 0 then
      addr <- balloc (i_dev p) ;;
      upd_inode i (fun p => set_addrs (<[Z.to_nat bn := addr]> (i_addrs p)) p) ;;;
      ret addr
    else ret addr
  else
    let bn := bn - NDIRECT in
    if bn <? NINDIRECT then
      addr <- deref "addrs" (i_addrs p !! Z.to_nat NDIRECT) ;;
      addr <- (if addr =? 0 then
                 addr <- balloc (i_dev p) ;;
                 upd_inode i (fun p => set_addrs (<[Z.to_nat NDIRECT := addr]> (i_addrs p)) p) ;;;
                 ret addr
               else ret addr) ;;
      bp <- blk (bread (i_dev p) addr) ;;
      d <- blk (bdata bp) ;;
      addr <- (if word bn d =? 0 then
                 addr <- balloc (i_dev p) ;;
                 blk (bset_data bp (put32 (4 * bn) addr d)) ;;;
                 on_log (log_write bp) ;;;
                 ret addr
               else ret (word bn d)) ;;
      blk (brelse bp) ;;;
      ret addr
    else panic "bmap: out of range".

(** The loop over the direct blocks, and the loop over the words of the indirect block. *)
Fixpoint trunc_direct (n : nat) (i : nat) (k : Z) : M fss unit :=
  match n with
  | O => ret tt
  | S n' =>
      p <- get_inode i ;;
      addr <- deref "addrs" (i_addrs p !! Z.to_nat k) ;;
      (if addr =? 0 then ret tt
       else
         bfree (i_dev p) addr ;;;
         upd_inode i (fun p => set_addrs (<[Z.to_nat k := 0]> (i_addrs p)) p)) ;;;
      trunc_direct n' i (k + 1)
  end.
Fixpoint trunc_indirect (n : nat) (dev : Z) (d : list Z) (j : Z) : M fss unit :=
  match n with
  | O => ret tt
  | S n' =>
      (if word j d =? 0 then ret tt else bfree dev (word j d)) ;;;
      trunc_indirect n' dev d (j + 1)
  end.

Definition itrunc (i : nat) : M fss unit :=
  trunc_direct (Z.to_nat NDIRECT) i 0 ;;;
  p <- get_inode i ;;
  addr <- deref "addrs" (i_addrs p !! Z.to_nat NDIRECT) ;;
  (if addr =? 0 then ret tt
   else
     bp <- blk (bread (i_dev p) addr) ;;
     d <- blk (bdata bp) ;;
     trunc_indirect (Z.to_nat NINDIRECT) (i_dev p) d 0 ;;;
     blk (brelse bp) ;;;
     bfree (i_dev p) addr ;;;
     upd_inode i (fun p => set_addrs (<[Z.to_nat NDIRECT := 0]> (i_addrs p)) p)) ;;;
  upd_inode i (set_size 0) ;;;
  iupdate i.

Definition iput (i : nat) : M fss unit :=
  acquire_inode i ;;;
  p <- get_inode i ;;
  (if i_valid p && (i_nlink p =? 0) && (i_ref p =? 1) then
     itrunc i ;;;
     upd_inode i (set_itype 0) ;;;
     iupdate i ;;;
     upd_inode i (set_valid false)
   else ret tt) ;;;
  release_inode i ;;;
  upd_inode i (fun p => set_iref (s32 (i_ref p - 1)) p).

Definition iunlockput (i : nat) : M fss unit := iunlock i ;;; iput i.

(** [struct stat]: dev, ino, type, nlink, size *)
Definition stati (i : nat) : M fss (Z * Z * Z * Z * Z) :=
  p <- get_inode i ;; ret (i_dev p, i_inum p, i_type p, i_nlink p, i_size p).

Section contents.
(** [devsw[major].read] and [.write]: the device drivers. *)
Context (dev_read : Z -> option (nat -> Z -> M fss (Z * list Z)))
        (dev_write : Z -> option (nat -> list Z -> Z -> M fss Z)).

Fixpoint readi_loop (fuel : nat) (i : nat) (tot n off : Z) (dst : list Z) : M fss (list Z) :=
  match fuel with
  | O => fun _ => Timeout
  | S f =>
      if tot <? n then
        p <- get_inode i ;;
        bno <- bmap i (off / Z.of_nat BSIZE) ;;
        bp <- blk (bread (i_dev p) bno) ;;
        let m := Z.min (n - tot) (Z.of_nat BSIZE - off mod Z.of_nat BSIZE) in
        d <- blk (bdata bp) ;;
        blk (brelse bp) ;;;
        readi_loop f i (tot + m) n (off + m)
          (dst ++ slice (Z.to_nat (off mod Z.of_nat BSIZE)) (Z.to_nat m) d)
      else ret dst
  end.

(** The result and the bytes stored at [dst]. *)
Definition readi (i : nat) (off n : Z) : M fss (Z * list Z) :=
  p <- get_inode i ;;
  if i_type p =? T_DEV then
    if (i_major p <? 0) || (NDEV <=? i_major p) then ret (-1, [])
    else match dev_read (i_major p) with
         | None => ret (-1, [])
         | Some f => f i n
         end
  else if (i_size p <? off) || (u32 (off + n) <? off) then ret (-1, [])
  else
    let n := if i_size p <? u32 (off + n) then i_size p - off else n in
    dst <- readi_loop (S (Z.to_nat n)) i 0 n off [] ;;
    ret (n, dst).

Fixpoint writei_loop (fuel : nat) (i : nat) (tot n off : Z) (src : list Z) : M fss Z :=
  match fuel with
  | O => fun _ => Timeout
  | S f =>
      if tot <? n then
        p <- get_inode i ;;
        bno <- bmap i (off / Z.of_nat BSIZE) ;;
        bp <- blk (bread (i_dev p) bno) ;;
        let m := Z.min (n - tot) (Z.of_nat BSIZE - off mod Z.of_nat BSIZE) in
        d <- blk (bdata bp) ;;
        blk (bset_data bp (splice (Z.to_nat (off mod Z.of_nat BSIZE)) (take (Z.to_nat m) src) d)) ;;;
        on_log (log_write bp) ;;;
        blk (brelse bp) ;;;
        writei_loop f i (tot + m) n (off + m) (drop (Z.to_nat m) src)
      else ret off
  end.

Definition writei (i : nat) (src : list Z) (off n : Z) : M fss Z :=
  p <- get_inode i ;;
  if i_type p =? T_DEV then
    if (i_major p <? 0) || (NDEV <=? i_major p) then ret (-1)
    else match dev_write (i_major p) with
         | None => ret (-1)
         | Some f => f i src n
         end
  else if (i_size p <? off) || (u32 (off + n) <? off) then ret (-1)
  else if MAXFILE * Z.of_nat BSIZE <? u32 (off + n) then ret (-1)
  else
    off <- writei_loop (S (Z.to_nat n)) i 0 n off src ;;
    p <- get_inode i ;;
    (if (0 <? n) && (i_size p <? off) then upd_inode i (set_size off) ;;; iupdate i else ret tt) ;;;
    ret n.

(** ** Directories *)

(** [strncmp] and [strncpy] on two objects; reading past the end of one is undefined. *)
Fixpoint strncmp (n : nat) (p q : list Z) : M fss Z :=
  match n with
  | O => ret 0
  | S n' =>
      a <- deref "strncmp" (head p) ;;
      b <- deref "strncmp" (head q) ;;
      if negb (a =? 0) && (a =? b) then strncmp n' (tail p) (tail q) else ret (a - b)
  end.
Fixpoint strncpy (n : nat) (t : list Z) : M fss (list Z) :=
  match n with
  | O => ret []
  | S n' =>
      b <- deref "strncpy" (head t) ;;
      if b =? 0 then ret (replicate n 0)
      else r <- strncpy n' (tail t) ;; ret (b :: r)
  end.

Definition namecmp (s t : list Z) : M fss Z := strncmp DIRSIZ s t.

(** [struct dirent] *)
Definition de_inum (de : list Z) : Z := get16 0 de.
Definition de_name (de : list Z) : list Z := slice 2 DIRSIZ de.

Fixpoint dirlookup_loop (fuel : nat) (dp : nat) (name : list Z) (off : Z) : M fss (option (nat * Z)) :=
  match fuel with
  | O => fun _ => Timeout
  | S f =>
      p <- get_inode dp ;;
      if off <? i_size p then
        r <- readi dp off DIRENT ;;
        let '(n, de) := r in
        panic_if (negb (n =? DIRENT)) "dirlookup read" ;;;
        if de_inum de =? 0 then dirlookup_loop f dp name (off + DIRENT)
        else
          c <- namecmp name (de_name de) ;;
          if c =? 0 then
            ip <- iget (i_dev p) (de_inum de) ;;
            ret (Some (ip, off))
          else dirlookup_loop f dp name (off + DIRENT)
      else ret None
  end.

(** The inode and the offset of its entry. *)
Definition dirlookup (dp : nat) (name : list Z) : M fss (option (nat * Z)) :=
  p <- get_inode dp ;;
  panic_if (negb (i_type p =? T_DIR)) "dirlookup not DIR" ;;;
  dirlookup_loop (S (S (Z.to_nat (i_size p / DIRENT)))) dp name 0.

(** The offset of the first empty entry, or of the end. *)
Fixpoint dirlink_scan (fuel : nat) (dp : nat) (off : Z) : M fss Z :=
  match fuel with
  | O => fun _ => Timeout
  | S f =>
      p <- get_inode dp ;;
      if off <? i_size p then
        r <- readi dp off DIRENT ;;
        let '(n, de) := r in
        panic_if (negb (n =? DIRENT)) "dirlink read" ;;;
        if de_inum de =? 0 then ret off else dirlink_scan f dp (off + DIRENT)
      else ret off
  end.

Definition dirlink (dp : nat) (name : list Z) (inum : Z) : M fss Z :=
  r <- dirlookup dp name ;;
  match r with
  | Some (ip, _) => iput ip ;;; ret (-1)
  | None =>
      p <- get_inode dp ;;
      off <- dirlink_scan (S (S (Z.to_nat (i_size p / DIRENT)))) dp 0 ;;
      nm <- strncpy DIRSIZ name ;;
      n <- writei dp (le_bytes 2 inum ++ nm) off DIRENT ;;
      panic_if (negb (n =? DIRENT)) "dirlink" ;;;
      ret 0
  end.

(** ** Paths *)

Definition SLASH : Z := 47.

(** A path is its bytes before the NUL; the result is the rest of the path and the
    contents of [name]. *)
Definition skipelem (path name : list Z) : option (list Z * list Z) :=
  match snd (span (Z.eqb SLASH) path) with
  | [] => None
  | s =>
      let '(elem, rest) := span (fun c => negb (c =? SLASH)) s in
      let name' :=
        if (DIRSIZ <=? length elem)%nat then splice 0 (take DIRSIZ elem) name
        else splice 0 (elem ++ [0]) name in
      Some (snd (span (Z.eqb SLASH) rest), name')
  end.

Fixpoint namex_loop (fuel : nat) (ip : nat) (path : list Z) (parent : bool) (name : list Z)
    : M fss (option nat * list Z) :=
  match fuel with
  | O => fun _ => Timeout
  | S f =>
      match skipelem path name with
      | None => if parent then iput ip ;;; ret (None, name) else ret (Some ip, name)
      | Some (path, name) =>
          ilock ip ;;;
          p <- get_inode ip ;;
          if negb (i_type p =? T_DIR) then iunlockput ip ;;; ret (None, name)
          else if parent && match path with [] => true | _ => false end then
            iunlock ip ;;; ret (Some ip, name)
          else
            r <- dirlookup ip name ;;
            match r with
            | None => iunlockput ip ;;; ret (None, name)
            | Some (next, _) => iunlockput ip ;;; namex_loop f next path parent name
            end
      end
  end.

Definition namex (path : list Z) (parent : bool) (name : list Z) : M fss (option nat * list Z) :=
  ip <- (if match path with c :: _ => c =? SLASH | [] => false end then iget ROOTDEV ROOTINO
         else cwd <- gets fs_cwd ;; idup cwd) ;;
  namex_loop (S (length path)) ip path parent name.

Definition namei (path : list Z) : M fss (option nat) :=
  r <- namex path false (replicate DIRSIZ 0) ;; ret (fst r).
Definition nameiparent (path name : list Z) : M fss (option nat * list Z) := namex path true name.
End contents.
