(* ===== verification/FsBlocks.v ===== *)
(** * Transactions of the file system, and the block allocator

    A computation of fs.c reads blocks, changes some of them under [log_write] and leaves the
    disk alone until the commit.  [tx_inv] is the state inside a transaction in which the
    process holds some buffers; [did] says what a computation did: a list of block updates.
    The rules for [bread], [log_write] and [brelse] below are all that the proofs about fs.c
    need of the cache and the log.  On top of them [balloc] and [bfree] are a stack of free
    blocks, read from the bitmap. *)

From S2P Require Import Prelude Bytes Bio Log Recovery CStr Fs.

(** Blocks of one transaction that leave buffers for those being read. *)
Definition LIM : nat := 26.

Section tx.
(** The blocks that the transaction may write. *)
Context (F : gset Z).

Record tx_inv (hs : list (nat * Z)) (s : logst) : Prop := TxInv {
  tv_tx : tx_ok (st_log s) (Z.of_nat (length (disk (st_bio s))));
  tv_bio : bio_ok (st_bio s);
  tv_idle : idle_but hs.*1 (st_bio s);
  tv_dirty : forall m, is_dirty (st_bio s) m = true <-> m ∈ logged (st_log s);
  tv_disk : disk_ok (st_log s) (disk (st_bio s));
  tv_empty : exists hb, dview (disk (st_bio s)) (l_start (st_log s)) = Some hb /\ hd_n hb = 0;
  tv_held : forall i n, (i, n) ∈ hs -> exists b, owns (st_bio s) n i b;
  tv_open : 1 <= l_outstanding (st_log s);
  tv_room : Z.of_nat LIM < l_size (st_log s) - 1;
  tv_size : (size F <= LIM)%nat;
  tv_in : forall x, x ∈ logged (st_log s) -> x ∈ F;
  tv_nodup : NoDup hs.*1
}.

Lemma tx_inv_log hs s : hs = [] -> tx_inv hs s -> log_inv s.
Proof. intros -> []. by split. Qed.

(** What was done from [s] to [s']: the updates [ws], nothing on the disk. *)
Record did (hs : list (nat * Z)) (s s' : logst) (ws : list (Z * list Z)) : Prop := Did {
  did_inv : tx_inv hs s';
  did_view : forall m, cview (st_bio s') m = overlay ws (cview (st_bio s)) m;
  did_disk : disk (st_bio s') = disk (st_bio s);
  did_writes : writes (st_bio s') = writes (st_bio s);
  did_pid : mypid (st_bio s') = mypid (st_bio s);
  did_start : l_start (st_log s') = l_start (st_log s);
  did_size : l_size (st_log s') = l_size (st_log s);
  did_out : l_outstanding (st_log s') = l_outstanding (st_log s);
  did_com : l_committing (st_log s') = l_committing (st_log s);
  did_idle : ws = [] -> st_log s' = st_log s
}.

Lemma did_refl hs s : tx_inv hs s -> did hs s s [].
Proof. by split. Qed.

Lemma did_trans hs hs' s s' s'' ws ws' : did hs s s' ws -> did hs' s' s'' ws' -> did hs' s s'' (ws ++ ws').
Proof.
  intros [] []. split; [done| |congruence..|].
  - intros m. rewrite overlay_app. rewrite did_view1. by apply overlay_ext.
  - intros [-> ->]%app_eq_nil. etransitivity; [by apply did_idle1|by apply did_idle0].
Qed.

(** Where a block may live. *)
Definition data_ok (s : logst) (n : Z) : Prop :=
  home (st_log s) n /\ n < Z.of_nat (length (disk (st_bio s))).

Lemma did_data_ok hs s s' ws n : did hs s s' ws -> data_ok s n -> data_ok s' n.
Proof. intros [] [Hh ?]. split; [|congruence]. unfold home in *. by rewrite did_start0, did_size0. Qed.

Lemma logged_small hs s : tx_inv hs s -> (length (logged (st_log s)) <= LIM)%nat.
Proof.
  intros [Htx _ _ _ _ _ _ _ _ Hsz Hin _]. etransitivity; [|exact Hsz].
  rewrite <-(size_list_to_set (C := gset Z)) by apply Htx. apply subseteq_size. set_solver.
Qed.

Lemma view_length hs s n v : tx_inv hs s -> cview (st_bio s) n = Some v -> length v = BSIZE.
Proof. intros [] Hv. by eapply cview_length. Qed.

Lemma view_some hs s n : tx_inv hs s -> data_ok s n -> exists v, cview (st_bio s) n = Some v.
Proof. intros [] [(? & _) ?]. destruct (cview_range (st_bio s) n) as [v Hv]; [done|lia|]. by eauto. Qed.

(** A buffer that is neither dirty nor held. *)
Lemma clean_left_but b (bs : list Z) (l : list nat) :
  bio_ok b -> (forall m, is_dirty b m = true -> m ∈ bs) -> (length bs + length l < NBUF)%nat -> has_clean l b.
Proof.
  intros Hb Hd Hlt.
  pose (clean := fun i => match bufs b !! i with Some c => negb (has_flag B_DIRTY c) | None => false end).
  destruct (decide (Exists (fun i => clean i = true) (filter (fun i => i ∉ l) (seq 0 NBUF)))) as [He|He].
  { apply Exists_exists in He as (i & [Hi _]%list_elem_of_filter & Hf). unfold clean in Hf.
    destruct (bufs b !! i) as [c|] eqn:E; [|done]. apply negb_true_iff in Hf. by exists i, c. }
  exfalso. apply Forall_Exists_neg in He. rewrite Forall_forall in He.
  assert (forall i, i ∈ seq 0 NBUF -> i ∈ l \/ exists c, bufs b !! i = Some c /\ has_flag B_DIRTY c = true) as Hall.
  { intros i Hi. destruct (decide (i ∈ l)) as [|Hil]; [by left|right].
    specialize (He i). rewrite list_elem_of_filter in He. specialize (He (conj Hil Hi)).
    destruct (lookup_lt_is_Some_2 (bufs b) i) as [c Hc]; [rewrite (bo_len _ Hb); apply elem_of_seq in Hi; lia|].
    exists c. unfold clean in He. rewrite Hc in He. split; [done|]. by destruct (has_flag B_DIRTY c). }
  pose (g := fun i => match bufs b !! i with Some c => b_blockno c | None => 0 end).
  assert (NoDup (g <$> filter (fun i => i ∉ l) (seq 0 NBUF)) /\ (g <$> filter (fun i => i ∉ l) (seq 0 NBUF)) ⊆ bs) as [Hnd Hsub].
  { assert (forall i, i ∈ filter (fun i => i ∉ l) (seq 0 NBUF) -> exists c, bufs b !! i = Some c /\ g i = b_blockno c /\
      b_dev c = ROOTDEV /\ b_blockno c ∈ bs) as Hg.
    { intros i [Hil Hi]%list_elem_of_filter. destruct (Hall i Hi) as [|(c & Hc & Hf)]; [done|].
      exists c. unfold g. rewrite Hc. pose proof (bo_buf _ Hb _ _ Hc) as Hk.
      assert (b_dev c = ROOTDEV) as Hdev.
      { apply (bk_dev _ _ Hk). apply (dirty_has_flag _ _ Hk) in Hf. by rewrite Hf. }
      split_and!; [done|done|done|]. apply Hd, is_dirty_true. by exists i, c. }
    split.
    - apply NoDup_fmap_2_strong; [|apply NoDup_filter, NoDup_seq]. intros i j Hi Hj Heq.
      destruct (Hg i Hi) as (c & Hc & Ec & Hdc & _), (Hg j Hj) as (c' & Hc' & Ec' & Hdc' & _).
      eapply (bo_uniq _ Hb); [done|done|done|done|congruence].
    - intros x (i & -> & Hi)%list_elem_of_fmap. destruct (Hg i Hi) as (c & _ & -> & _ & ?). done. }
  pose proof (submseteq_length _ _ (NoDup_submseteq _ _ Hnd Hsub)) as Hlen. rewrite length_fmap in Hlen.
  assert (seq 0 NBUF ⊆+ l ++ filter (fun i => i ∉ l) (seq 0 NBUF)) as Hcov.
  { apply NoDup_submseteq; [apply NoDup_seq|]. intros i Hi. apply elem_of_app.
    destruct (decide (i ∈ l)); [by left|right]. by apply list_elem_of_filter. }
  apply submseteq_length in Hcov. rewrite length_app, length_seq in Hcov. lia.
Qed.

(** ** The rules *)

Lemma held_not_caching hs s i n m b : tx_inv hs s -> (i, n) ∈ hs -> bufs (st_bio s) !! i = Some b ->
  n <> m -> ~ caches m b /\ 0 < b_refcnt b.
Proof.
  intros Hs Hin Hb Hne. destruct (tv_held _ _ Hs _ _ Hin) as [c [Hc [_ Hcn] _ _ Hr]].
  rewrite Hb in Hc. injection Hc as <-. split; [intros [_ ?]; congruence|lia].
Qed.

Lemma tx_bread hs s n : tx_inv hs s -> data_ok s n -> n ∉ hs.*2 -> (length hs <= 2)%nat ->
  wp (on_bio (bread ROOTDEV n)) (fun i s' => did ((i, n) :: hs) s s' []) s.
Proof.
  intros Hs [Hh Hn] Hnot Hlen. unfold on_bio. wp_steps. pose proof Hs as [Htx Hb Hi Hd Hdk He Hheld Ho Hr Hsz Hin Hnd].
  eapply wp_mono; [apply (bread_idle (st_bio s) hs.*1 n); [done|done| |destruct Hh; lia|]|].
  - intros j b ([j' n'] & -> & Hj)%list_elem_of_fmap Hbj. eapply held_not_caching; [done|exact Hj|done|].
    intros ->. apply Hnot. apply list_elem_of_fmap. by exists (j', n).
  - right. eapply clean_left_but; [done|intros m; apply Hd|]. pose proof (logged_small _ _ Hs).
    rewrite length_fmap. unfold LIM, NBUF in *. lia.
  - intros i b1 (a & bi & Hil & Ha & Hsd & -> & Hown & Hvi & Hok1 & Hi1). split; simpl; try done.
    + split; simpl; try done.
      * intros m. rewrite (is_dirty_put _ i a) by done. apply Hd.
      * intros j m [[= -> ->]|Hj]%elem_of_cons; [by exists bi|].
        destruct (Hheld j m Hj) as [c Hc]. exists c. apply owns_put; [|done]. intros ->. apply Hil.
        apply list_elem_of_fmap. by exists (i, m).
      * by constructor.
    + intros m. by apply (cview_put _ i a).
Qed.

Lemma tx_bdata hs s i n : tx_inv hs s -> (i, n) ∈ hs ->
  forall v, cview (st_bio s) n = Some v -> wp (on_bio (bdata i)) (fun d s' => s' = s /\ d = v) s.
Proof.
  intros Hs Hin v Hv. unfold on_bio. wp_steps. destruct (tv_held _ _ Hs _ _ Hin) as [b [Hb Hc _ Hf _]].
  eapply wp_bdata; [done|]. split; [by destruct s|].
  pose proof (cview_of _ _ _ _ (tv_bio _ _ Hs) Hb Hc Hf). congruence.
Qed.

(** Changing a held buffer and recording it. *)
Lemma tx_write hs s i n v : tx_inv hs s -> (i, n) ∈ hs -> data_ok s n -> n ∈ F -> length v = BSIZE ->
  wp (on_bio (bset_data i v) ;;; log_write i) (fun _ s' => did hs s s' [(n, v)]) s.
Proof.
  intros Hs Hin [Hh Hn] HnF Hv. pose proof Hs as [Htx Hb Hi Hd Hdk He Hheld Ho Hr Hsz HinF Hnd].
  destruct (Hheld _ _ Hin) as [bi Hown]. pose proof Hh as (Hn0 & _).
  pose proof (tx_geom _ _ Htx) as [_ _ _ _ Hmax].
  assert (room (st_log s)) as Hroom.
  { pose proof (logged_small _ _ Hs) as Hl. rewrite (length_logged _ _ Htx) in Hl. pose proof (tx_n _ _ Htx).
    unfold room, LIM, LOGSIZE, MAXOPBLOCKS in *. lia. }
  unfold on_bio. wp_steps. unfold bset_data. eapply wp_upd_buf; [apply Hown|]. wp_steps.
  eapply (wp_log_write _ i (set_data v bi) n);
    [done|eapply bufs_put_same; apply Hown|by apply (ow_caches _ _ _ _ Hown)|lia|done|done|].
  simpl st_bio. rewrite put_put.
  replace (Z.lor (b_flags (set_data v bi)) B_DIRTY) with 6
    by (simpl; destruct (ow_flags _ _ _ _ Hown) as [->| ->]; done).
  destruct (record_block_logged _ _ n Htx Hh Hn Hroom) as [El Htx'].
  destruct (record_block_same (st_log s) n) as (R1 & R2 & R3 & R4 & R5).
  split; simpl; try done; [|intros m; by apply (pin_view _ i n)].
  split; simpl; try done.
  - by eapply pin_ok.
  - intros j c Hj Hc. destruct (lookup_put _ _ _ _ _ Hc) as [[-> ->]|[_ Hc']]; [|by eapply Hi].
    exfalso. apply Hj. apply list_elem_of_fmap. by exists (i, n).
  - intros m. rewrite (pin_dirty _ i n) by done. rewrite El, orb_true_iff, Hd.
    case_decide as Hin'; rewrite ?elem_of_app, ?list_elem_of_singleton, Z.eqb_eq; split; try tauto.
    intros [->|?]; done.
  - by apply disk_ok_record.
  - destruct He as (hb & ? & ?). exists hb. by rewrite R1.
  - intros j m Hj. destruct (decide (j = i)) as [->|Hne].
    + assert (m = n) as ->.
      { destruct (list_elem_of_lookup_1 _ _ Hin) as [x Hx], (list_elem_of_lookup_1 _ _ Hj) as [y Hy].
        assert (x = y) as -> by (eapply NoDup_lookup; [exact Hnd|rewrite list_lookup_fmap, Hx; done|rewrite list_lookup_fmap, Hy; done]).
        congruence. }
      exists (set_flags 6 (set_data v bi)). destruct Hown. split; try done; [by eapply bufs_put_same|by right].
    + destruct (Hheld j m Hj) as [c Hc]. exists c. apply owns_put; done.
  - lia.
  - by rewrite R2.
  - intros x. rewrite El. case_decide; [apply HinF|]. rewrite elem_of_app, list_elem_of_singleton.
    intros [?| ->]; [by apply HinF|done].
Qed.

Lemma tx_brelse hs s i n : tx_inv ((i, n) :: hs) s ->
  wp (on_bio (brelse i)) (fun _ s' => did hs s s' []) s.
Proof.
  intros Hs. pose proof Hs as [Htx Hb Hi Hd Hdk He Hheld Ho Hr Hsz HinF [Hni Hnd]%NoDup_cons].
  destruct (Hheld i n) as [bi Hown]; [left|]. unfold on_bio. wp_steps.
  eapply wp_mono; [apply (brelse_idle _ hs.*1 n i bi); done|].
  intros [] b2 (lr & -> & Hok3 & Hi3 & Hv3 & Hd3). split; simpl; try done.
  split; simpl; try done.
  - intros m. rewrite Hd3. apply Hd.
  - intros j m Hj. destruct (Hheld j m) as [c Hc]; [by right|]. exists c.
    assert (i <> j) as Hne by (intros ->; apply Hni, list_elem_of_fmap; by exists (j, m)).
    pose proof (owns_put _ _ _ _ _ (released bi) (not_eq_sym Hne) Hc) as [? ? ? ? ?]. by split.
Qed.

(** ** The rules as steps of fs.c *)

Definition view (s : fss) (n : Z) : option (list Z) := cview (st_bio (fs_log s)) n.

Lemma set_set_log l l' s : set_log l (set_log l' s) = set_log l s.
Proof. done. Qed.
Lemma set_log_id s : set_log (fs_log s) s = s.
Proof. by destruct s. Qed.

Section steps.
Context {A : Type} (Q : A -> fss -> Prop) (s : fss) (hs : list (nat * Z)).

Lemma fs_bread n (k : nat -> M fss A) :
  tx_inv hs (fs_log s) -> data_ok (fs_log s) n -> n ∉ hs.*2 -> (length hs <= 2)%nat ->
  (forall i l, did ((i, n) :: hs) (fs_log s) l [] -> wp (k i) Q (set_log l s)) ->
  wp (bind (blk (bread ROOTDEV n)) k) Q s.
Proof.
  intros. apply wp_bind, wp_zoom. eapply wp_mono; [by apply (tx_bread hs)|]. by auto.
Qed.

Lemma fs_bdata i n v (k : list Z -> M fss A) :
  tx_inv hs (fs_log s) -> (i, n) ∈ hs -> view s n = Some v -> wp (k v) Q s -> wp (bind (blk (bdata i)) k) Q s.
Proof.
  intros. apply wp_bind, wp_zoom. eapply wp_mono; [by eapply (tx_bdata hs)|].
  intros d s' [-> ->]. by rewrite set_log_id.
Qed.

Lemma fs_write i n v (k : M fss A) :
  tx_inv hs (fs_log s) -> (i, n) ∈ hs -> data_ok (fs_log s) n -> n ∈ F -> length v = BSIZE ->
  (forall l, did hs (fs_log s) l [(n, v)] -> wp k Q (set_log l s)) ->
  wp (blk (bset_data i v) ;;; on_log (log_write i) ;;; k) Q s.
Proof.
  intros Hs Hin Hok HF Hl Hk. pose proof (tx_write hs (fs_log s) i n v Hs Hin Hok HF Hl) as Hw.
  apply wp_bind_inv in Hw. apply wp_bind, wp_zoom. eapply wp_mono; [exact Hw|].
  intros [] l1 Hl1. cbv beta in *. apply wp_bind, wp_zoom. eapply wp_mono; [exact Hl1|].
  intros [] l2 Hl2. cbv beta in *. rewrite set_set_log. by apply Hk.
Qed.

Lemma fs_brelse i n (k : M fss A) :
  tx_inv ((i, n) :: hs) (fs_log s) -> (forall l, did hs (fs_log s) l [] -> wp k Q (set_log l s)) ->
  wp (blk (brelse i) ;;; k) Q s.
Proof. intros. apply wp_bind, wp_zoom. eapply wp_mono; [by eapply (tx_brelse hs)|]. by auto. Qed.
End steps.

Lemma fs_brelse_last (Q : unit -> fss -> Prop) s hs i n :
  tx_inv ((i, n) :: hs) (fs_log s) -> (forall l, did hs (fs_log s) l [] -> Q tt (set_log l s)) ->
  wp (blk (brelse i)) Q s.
Proof. intros. apply wp_zoom. eapply wp_mono; [by eapply (tx_brelse hs)|]. intros []. by auto. Qed.

(** Several updates in a row, as one. *)
Lemma did_app hs hs' s s' s'' ws ws' ws'' : did hs s s' ws -> did hs' s' s'' ws' -> ws'' = ws ++ ws' -> did hs' s s'' ws''.
Proof. intros ? ? ->. by eapply did_trans. Qed.

Lemma bzero_spec s hs n : tx_inv hs (fs_log s) -> data_ok (fs_log s) n -> n ∉ hs.*2 -> (length hs <= 2)%nat -> n ∈ F ->
  wp (bzero ROOTDEV n) (fun _ s' => exists l, s' = set_log l s /\ did hs (fs_log s) l [(n, replicate BSIZE 0)]) s.
Proof.
  intros Hs Hn Hnot Hlen HF. unfold bzero. eapply fs_bread; [done..|]. intros i l1 H1.
  eapply (fs_write _ _ ((i, n) :: hs)); [apply H1|left|by eapply did_data_ok|done|apply length_replicate|].
  intros l2 H2. simpl in *. eapply fs_brelse_last; [apply H2|]. intros l3 H3. simpl in *.
  exists l3. split; [done|]. eapply did_app; [eapply did_app; [exact H1|exact H2|done]|exact H3|done].
Qed.
End tx.

(** ** The bitmap *)

Lemma land_bit a k : 0 <= k -> negb (Z.land a (Z.shiftl 1 k) =? 0) = Z.testbit a k.
Proof.
  intros Hk. rewrite Z.shiftl_1_l. destruct (Z.testbit a k) eqn:E.
  - apply negb_true_iff, Z.eqb_neq. intros H0. apply (f_equal (fun z => Z.testbit z k)) in H0.
    rewrite Z.land_spec, Z.pow2_bits_true, E, Z.bits_0 in H0 by done. done.
  - apply negb_false_iff, Z.eqb_eq. apply Z.bits_inj'. intros j Hj. rewrite Z.land_spec, Z.bits_0, Z.pow2_bits_eqb by done.
    destruct (k =? j) eqn:Ej; [apply Z.eqb_eq in Ej as <-; by rewrite E|by rewrite andb_false_r].
Qed.

Lemma bit_set_test d bi : bit_set d bi = Z.testbit (nth (Z.to_nat (bi / 8)) d 0) (bi mod 8).
Proof. unfold bit_set. apply land_bit. apply Z.mod_pos_bound. lia. Qed.

Lemma nth_insert_eq (l : list Z) i x : (i < length l)%nat -> nth i (<[i := x]> l) 0 = x.
Proof. intros. apply nth_lookup_Some. by apply list_lookup_insert_eq. Qed.
Lemma nth_insert_ne (l : list Z) i j x : i <> j -> nth j (<[i := x]> l) 0 = nth j l 0.
Proof. intros. by rewrite !nth_lookup, list_lookup_insert_ne. Qed.

Lemma bit_index bi x : 0 <= bi -> 0 <= x -> Z.to_nat (bi / 8) = Z.to_nat (x / 8) -> bi mod 8 = x mod 8 -> bi = x.
Proof.
  intros ? ? H1 H2. pose proof (Z.div_pos bi 8 ltac:(lia) ltac:(lia)). pose proof (Z.div_pos x 8 ltac:(lia) ltac:(lia)).
  rewrite (Z.div_mod bi 8), (Z.div_mod x 8) by lia. lia.
Qed.

Lemma byte_range bi (d : list Z) : 0 <= bi < BPB -> length d = BSIZE -> (Z.to_nat (bi / 8) < length d)%nat.
Proof.
  intros Hb ->. assert (0 <= bi / 8 < 512); [|unfold BSIZE; lia].
  split; [apply Z.div_pos; lia|apply Z.div_lt_upper_bound; unfold BPB in Hb; lia].
Qed.

Lemma bit_mark bi x d : 0 <= bi < BPB -> 0 <= x -> length d = BSIZE ->
  bit_set (mark bi d) x = (x =? bi) || bit_set d x.
Proof.
  intros Hb Hx Hl. pose proof (byte_range bi d Hb Hl). rewrite !bit_set_test. unfold mark.
  pose proof (Z.mod_pos_bound bi 8 ltac:(lia)). pose proof (Z.mod_pos_bound x 8 ltac:(lia)).
  destruct (decide (Z.to_nat (bi / 8) = Z.to_nat (x / 8))) as [E|E].
  - rewrite <-E, nth_insert_eq by done. rewrite Z.lor_spec, Z.shiftl_1_l, Z.pow2_bits_eqb by lia.
    rewrite orb_comm. f_equal. destruct (Z.eqb_spec (bi mod 8) (x mod 8)) as [Em|Em].
    + symmetry. apply Z.eqb_eq. symmetry. apply bit_index; [lia|lia|done|done].
    + symmetry. apply Z.eqb_neq. intros ->. done.
  - rewrite nth_insert_ne by done. rewrite (proj2 (Z.eqb_neq x bi)); [done|]. intros ->. done.
Qed.

Lemma bit_unmark bi x d : 0 <= bi < BPB -> 0 <= x -> length d = BSIZE ->
  bit_set (unmark bi d) x = negb (x =? bi) && bit_set d x.
Proof.
  intros Hb Hx Hl. pose proof (byte_range bi d Hb Hl). rewrite !bit_set_test. unfold unmark.
  pose proof (Z.mod_pos_bound bi 8 ltac:(lia)). pose proof (Z.mod_pos_bound x 8 ltac:(lia)).
  destruct (decide (Z.to_nat (bi / 8) = Z.to_nat (x / 8))) as [E|E].
  - rewrite <-E, nth_insert_eq by done. rewrite Z.land_spec, Z.lnot_spec, Z.shiftl_1_l, Z.pow2_bits_eqb by lia.
    rewrite andb_comm. do 2 f_equal. destruct (Z.eqb_spec (bi mod 8) (x mod 8)) as [Em|Em].
    + symmetry. apply Z.eqb_eq. symmetry. apply bit_index; [lia|lia|done|done].
    + symmetry. apply Z.eqb_neq. intros ->. done.
  - rewrite nth_insert_ne by done. rewrite (proj2 (Z.eqb_neq x bi)); [done|]. intros ->. done.
Qed.

Lemma free_bit_Some n d b size : forall bi x, free_bit n d b bi size = Some x ->
  bi <= x < bi + Z.of_nat n /\ b + x < size /\ bit_set d x = false /\ (forall y, bi <= y < x -> bit_set d y = true).
Proof.
  induction n as [|n IH]; intros bi x; simpl; [done|]. destruct (Z.ltb_spec (b + bi) size); [|done].
  destruct (bit_set d bi) eqn:E.
  - intros (H1 & H2 & H3 & H4)%IH. split_and!; [lia|lia|done|done|]. intros y Hy.
    destruct (decide (y = bi)) as [->|]; [done|]. apply H4. lia.
  - intros [= <-]. split_and!; [lia|lia|done|done|]. intros y Hy. lia.
Qed.

Lemma free_bit_None n d b size : forall bi, free_bit n d b bi size = None ->
  forall y, bi <= y < bi + Z.of_nat n -> b + y < size -> bit_set d y = true.
Proof.
  induction n as [|n IH]; intros bi; simpl; [lia|]. destruct (Z.ltb_spec (b + bi) size).
  - destruct (bit_set d bi) eqn:E; [|done]. intros Hn y Hy Hs.
    destruct (decide (y = bi)) as [->|]; [done|]. apply (IH _ Hn); lia.
  - intros _ y Hy Hs. lia.
Qed.

(** ** The layout of the disk *)

(** The first data block: mkfs puts the bitmap between the inodes and the data. *)
Definition data_start (sb : superblock) : Z := sb_bmapstart sb + sb_size sb / BPB + 1.

Record fs_geom (sb : superblock) (s : logst) : Prop := {
  fg_size : 0 <= sb_size sb <= Z.of_nat (length (disk (st_bio s)));
  fg_start : 0 <= sb_inodestart sb;
  fg_inodes : 0 <= sb_ninodes sb /\ sb_inodestart sb + sb_ninodes sb / IPB < sb_bmapstart sb;
  fg_meta : forall n, sb_inodestart sb <= n < data_start sb -> data_ok s n;
  fg_data : forall n, data_start sb <= n < sb_size sb -> data_ok s n;
  fg_max : Z.of_nat (length (disk (st_bio s))) < 2 ^ 31
}.

Lemma did_geom F hs s s' ws sb : did F hs s s' ws -> fs_geom sb s -> fs_geom sb s'.
Proof.
  intros Hd [? ? ? Hm Hda ?]. pose proof (did_disk _ _ _ _ _ Hd) as E. split; rewrite ?E; try done.
  - intros n Hn. eapply did_data_ok; [done|by apply Hm].
  - intros n Hn. eapply did_data_ok; [done|by apply Hda].
Qed.

(** The bitmap block of [b], and whether it is marked. *)
Definition bblock (sb : superblock) (b : Z) : Z := b / BPB + sb_bmapstart sb.
Definition iblock (sb : superblock) (i : Z) : Z := i / IPB + sb_inodestart sb.
Definition bit (V : Z -> option (list Z)) (sb : superblock) (b : Z) : bool :=
  match V (bblock sb b) with Some d => bit_set d (b mod BPB) | None => true end.
(** Only data blocks are free. *)
Definition bits_ok (V : Z -> option (list Z)) (sb : superblock) : Prop :=
  forall b, 0 <= b < sb_size sb -> bit V sb b = false -> data_start sb <= b.
Definition first_free (V : Z -> option (list Z)) (sb : superblock) (b : Z) : Prop :=
  0 <= b < sb_size sb /\ bit V sb b = false /\ forall c, 0 <= c < b -> bit V sb c = true.

Section geom.
Context {sb : superblock} {s : logst} (Hg : fs_geom sb s).

Lemma bblock_range b : 0 <= b < sb_size sb -> sb_bmapstart sb <= bblock sb b < data_start sb.
Proof using Hg.
  intros Hb. unfold bblock, data_start. assert (0 <= b / BPB <= sb_size sb / BPB); [|lia].
  split; [apply Z.div_pos; unfold BPB; lia|apply Z.div_le_mono; unfold BPB; lia].
Qed.

Lemma bblock_ok b : 0 <= b < sb_size sb -> data_ok s (bblock sb b) /\ BBLOCK b sb = bblock sb b.
Proof using Hg.
  intros Hb. pose proof (bblock_range b Hb) as Hr. pose proof (fg_inodes _ _ Hg) as [? ?].
  assert (0 <= sb_ninodes sb / IPB) by (apply Z.div_pos; unfold IPB; lia).
  assert (data_ok s (bblock sb b)) as Hok by (apply (fg_meta _ _ Hg); lia).
  split; [done|]. unfold BBLOCK. apply u32_small. destruct Hok as [[? _] ?]. pose proof (fg_max _ _ Hg).
  unfold bblock in *. lia.
Qed.

Lemma iblock_range i : 0 <= i < sb_ninodes sb -> sb_inodestart sb <= iblock sb i < sb_bmapstart sb.
Proof using Hg.
  intros Hi. unfold iblock. pose proof (fg_inodes _ _ Hg) as [? ?].
  assert (0 <= i / IPB <= sb_ninodes sb / IPB); [|lia].
  split; [apply Z.div_pos; unfold IPB; lia|apply Z.div_le_mono; unfold IPB; lia].
Qed.

Lemma iblock_ok i : 0 <= i < sb_ninodes sb -> data_ok s (iblock sb i) /\ IBLOCK i sb = iblock sb i.
Proof using Hg.
  intros Hi. pose proof (iblock_range i Hi) as Hr. pose proof (fg_size _ _ Hg) as [? ?].
  assert (0 <= sb_size sb / BPB) by (apply Z.div_pos; unfold BPB; lia).
  assert (data_ok s (iblock sb i)) as Hok by (apply (fg_meta _ _ Hg); unfold data_start; lia).
  split; [done|]. unfold IBLOCK. apply u32_small. destruct Hok as [[? _] ?]. pose proof (fg_max _ _ Hg).
  unfold iblock in *. lia.
Qed.
End geom.

Lemma same_bblock sb b c : 0 <= b -> 0 <= c -> bblock sb b = bblock sb c <-> b / BPB = c / BPB.
Proof. unfold bblock. lia. Qed.

(** Marking a block changes its bit only. *)
Lemma bit_after V V' sb b d f : 0 <= b -> V (bblock sb b) = Some d -> length d = BSIZE ->
  (forall n, n = bblock sb b -> V' n = Some (f (b mod BPB) d)) ->
  (forall n c, 0 <= c < sb_size sb -> n = bblock sb c -> n <> bblock sb b -> V' n = V n) ->
  forall c, 0 <= c < sb_size sb ->
  bit V' sb c = if c / BPB =? b / BPB then bit_set (f (b mod BPB) d) (c mod BPB) else bit V sb c.
Proof.
  intros Hb Hd Hl H1 H2 c Hc. unfold bit. destruct (Z.eqb_spec (c / BPB) (b / BPB)) as [E|E].
  - assert (bblock sb c = bblock sb b) as -> by (apply same_bblock; [lia|lia|done]). by rewrite (H1 _ eq_refl).
  - rewrite (H2 (bblock sb c) c); [done|done|done|]. rewrite same_bblock by lia. done.
Qed.

Lemma mod_same b c : c / BPB = b / BPB -> (c mod BPB =? b mod BPB) = (c =? b).
Proof.
  intros E. destruct (Z.eqb_spec c b) as [->|Hne]; [apply Z.eqb_refl|]. apply Z.eqb_neq. intros Em. apply Hne.
  rewrite (Z.div_mod c BPB), (Z.div_mod b BPB) by (unfold BPB; lia). congruence.
Qed.

Lemma bit_alloc V V' sb b d : 0 <= b < sb_size sb -> V (bblock sb b) = Some d -> length d = BSIZE ->
  (forall n, n = bblock sb b -> V' n = Some (mark (b mod BPB) d)) ->
  (forall n c, 0 <= c < sb_size sb -> n = bblock sb c -> n <> bblock sb b -> V' n = V n) ->
  forall c, 0 <= c < sb_size sb -> bit V' sb c = (c =? b) || bit V sb c.
Proof.
  intros Hb Hd Hl H1 H2 c Hc. rewrite (bit_after V V' sb b d mark) by (done || lia).
  destruct (Z.eqb_spec (c / BPB) (b / BPB)) as [E|E].
  - rewrite bit_mark; [|apply Z.mod_pos_bound; done|apply Z.mod_pos_bound; done|done]. rewrite mod_same by done.
    unfold bit. assert (bblock sb c = bblock sb b) as -> by (apply same_bblock; [lia|lia|done]). by rewrite Hd.
  - rewrite (proj2 (Z.eqb_neq c b)); [done|]. intros ->. done.
Qed.

Lemma bit_release V V' sb b d : 0 <= b < sb_size sb -> V (bblock sb b) = Some d -> length d = BSIZE ->
  (forall n, n = bblock sb b -> V' n = Some (unmark (b mod BPB) d)) ->
  (forall n c, 0 <= c < sb_size sb -> n = bblock sb c -> n <> bblock sb b -> V' n = V n) ->
  forall c, 0 <= c < sb_size sb -> bit V' sb c = negb (c =? b) && bit V sb c.
Proof.
  intros Hb Hd Hl H1 H2 c Hc. rewrite (bit_after V V' sb b d unmark) by (done || lia).
  destruct (Z.eqb_spec (c / BPB) (b / BPB)) as [E|E].
  - rewrite bit_unmark; [|apply Z.mod_pos_bound; done|apply Z.mod_pos_bound; done|done]. rewrite mod_same by done.
    unfold bit. assert (bblock sb c = bblock sb b) as -> by (apply same_bblock; [lia|lia|done]). by rewrite Hd.
  - rewrite (proj2 (Z.eqb_neq c b)); [done|]. intros ->. done.
Qed.

(** ** balloc and bfree *)

Section alloc.
Context (F : gset Z).

Lemma in_block c bi : c mod BPB = 0 -> 0 <= bi < BPB -> (c + bi) / BPB = c / BPB /\ (c + bi) mod BPB = bi.
Proof.
  intros Hc Hb. pose proof (Z.div_mod c BPB ltac:(unfold BPB; lia)) as E.
  split; symmetry; [apply (Z.div_unique _ _ _ bi)|apply (Z.mod_unique _ _ (c / BPB) bi)]; lia.
Qed.

Lemma did_view_nil hs s s' : did F hs (fs_log s) s' [] -> forall m, view (set_log s' s) m = view s m.
Proof. intros H m. unfold view. simpl. by rewrite (did_view _ _ _ _ _ H). Qed.

Lemma first_free_ext V V' sb b : (forall n, V' n = V n) -> first_free V sb b -> first_free V' sb b.
Proof. intros HV (H1 & H2 & H3). unfold first_free, bit in *. split; [done|]. split; [by rewrite HV|]. intros c Hc. rewrite HV. by apply H3. Qed.

(** What allocating block [b] does. *)
Definition alloc_writes (sb : superblock) (b : Z) (d : list Z) : list (Z * list Z) :=
  [(bblock sb b, mark (b mod BPB) d); (b, replicate BSIZE 0)].

Lemma balloc_loop_spec hs b : forall n c s,
  let sb := fs_sb s in
  tx_inv F hs (fs_log s) -> fs_geom sb (fs_log s) -> first_free (view s) sb b -> data_ok (fs_log s) b ->
  (length hs <= 2)%nat -> b ∉ hs.*2 -> (forall c, 0 <= c < sb_size sb -> bblock sb c ∉ hs.*2) ->
  b ∈ F -> bblock sb b ∈ F ->
  c mod BPB = 0 -> 0 <= c <= b -> (Z.to_nat ((b - c) / BPB) < n)%nat ->
  wp (balloc_loop n ROOTDEV c) (fun r s' => r = b /\ exists l d, s' = set_log l s /\
    view s (bblock sb b) = Some d /\ did F hs (fs_log s) l (alloc_writes sb b d)) s.
Proof.
  induction n as [|n IH]; intros c s sb Hs Hg Hff Hbok Hlen Hbh Hmh HbF HmF Hc Hcb Hn; [lia|]. cbn [balloc_loop].
  pose proof Hff as (Hb & Hbit & Hmin). apply wp_bind, wp_gets. fold sb.
  rewrite (proj2 (Z.ltb_lt _ _)) by lia.
  destruct (bblock_ok Hg c ltac:(lia)) as [Hcok ->].
  destruct (view_some _ _ _ _ Hs Hcok) as [d Hd]. pose proof (view_length _ _ _ _ _ Hs Hd) as Hl.
  eapply fs_bread; [exact Hs|exact Hcok|apply Hmh; lia|done|]. intros i l1 H1.
  pose proof (did_view_nil _ _ _ H1) as HV1.
  eapply (fs_bdata _ _ _ ((i, bblock sb c) :: hs)); [apply H1|left|rewrite HV1; exact Hd|].
  assert (forall y, 0 <= y < BPB -> c + y < sb_size sb -> bit (view s) sb (c + y) = bit_set d y) as Hbits.
  { intros y Hy Hys. destruct (in_block c y Hc Hy) as [E1 E2]. unfold bit, bblock. rewrite E1, E2.
    change (c / BPB + sb_bmapstart sb) with (bblock sb c). unfold view. by rewrite Hd. }
  destruct (free_bit (Z.to_nat BPB) d c 0 (sb_size sb)) as [bi|] eqn:Efb.
  - apply free_bit_Some in Efb as (Hbi & Hbs & Hclear & Hbelow). rewrite Z2Nat.id in Hbi by (unfold BPB; lia).
    assert (b = c + bi) as Eb.
    { destruct (Z.lt_trichotomy b (c + bi)) as [Hlt|[->|Hgt]]; [|done|].
      - exfalso. specialize (Hbelow (b - c) ltac:(lia)). rewrite <-Hbits in Hbelow by lia.
        replace (c + (b - c)) with b in Hbelow by lia. congruence.
      - exfalso. specialize (Hmin (c + bi) ltac:(lia)). rewrite Hbits in Hmin by lia. congruence. }
    destruct (in_block c bi Hc ltac:(lia)) as [E1 E2].
    assert (bblock sb c = bblock sb b) as Eblk by (unfold bblock; by rewrite Eb, E1). rewrite Eblk in *.
    assert (bi = b mod BPB) as Ebi by (by rewrite Eb, E2).
    eapply (fs_write _ _ _ ((i, bblock sb b) :: hs)); [apply H1|left|by eapply did_data_ok|done|unfold mark; by rewrite length_insert|].
    intros l2 H2. simpl in H2. eapply fs_brelse; [apply H2|]. intros l3 H3. simpl in H3.
    rewrite !set_set_log. rewrite <-Eb. apply wp_bind.
    pose proof (did_trans _ _ _ _ _ _ _ _ H1 (did_trans _ _ _ _ _ _ _ _ H2 H3)) as H123.
    eapply wp_mono; [apply (bzero_spec F (set_log l3 s) hs b); [apply H3|by eapply did_data_ok|done|done|done]|].
    intros [] s4 (l4 & -> & H4). simpl in H4. apply wp_ret. split; [done|]. exists l4, d. rewrite set_set_log.
    split_and!; [done|done|]. unfold alloc_writes. rewrite <-Ebi. eapply did_app; [exact H123|exact H4|done].
  - eapply fs_brelse; [apply H1|]. intros l2 H2. simpl in H2. rewrite set_set_log.
    pose proof (did_trans _ _ _ _ _ _ _ _ H1 H2) as H12.
    assert (c + BPB <= b) as Hge.
    { destruct (Z.le_gt_cases (c + BPB) b) as [|Hlt]; [done|exfalso].
      pose proof (free_bit_None _ _ _ _ _ Efb (b - c)) as Ht. rewrite Z2Nat.id in Ht by (unfold BPB; lia).
      specialize (Ht ltac:(lia) ltac:(lia)). rewrite <-Hbits in Ht by lia.
      replace (c + (b - c)) with b in Ht by lia. congruence. }
    eapply wp_mono; [apply (IH (c + BPB) (set_log l2 s)); simpl; try done|].
    + apply H12.
    + by eapply did_geom.
    + eapply first_free_ext; [|exact Hff]. intros m. by eapply did_view_nil.
    + by eapply did_data_ok.
    + rewrite Z.add_mod, Hc, Z_mod_same_full by (unfold BPB; lia). done.
    + unfold BPB in *. lia.
    + replace ((b - (c + BPB)) / BPB) with ((b - c) / BPB - 1).
      * assert (0 <= (b - c) / BPB - 1); [|lia].
        assert (1 <= (b - c) / BPB) by (apply Z.div_le_lower_bound; unfold BPB in *; lia). lia.
      * replace (b - (c + BPB)) with (b - c + (-1) * BPB) by lia. rewrite Z.div_add by (unfold BPB; lia). lia.
    + intros r s' (-> & l & d' & -> & Hd' & H3). split; [done|]. exists l, d'. rewrite set_set_log.
      split_and!; [done| |]. { rewrite <-Hd'. symmetry. by eapply did_view_nil. }
      eapply did_app; [exact H12|exact H3|done].
Qed.

Lemma balloc_spec hs b s :
  let sb := fs_sb s in
  tx_inv F hs (fs_log s) -> fs_geom sb (fs_log s) -> first_free (view s) sb b -> data_ok (fs_log s) b ->
  (length hs <= 2)%nat -> b ∉ hs.*2 -> (forall c, 0 <= c < sb_size sb -> bblock sb c ∉ hs.*2) ->
  b ∈ F -> bblock sb b ∈ F ->
  wp (balloc ROOTDEV) (fun r s' => r = b /\ exists l d, s' = set_log l s /\
    view s (bblock sb b) = Some d /\ did F hs (fs_log s) l (alloc_writes sb b d)) s.
Proof.
  intros sb Hs Hg Hff Hbok Hlen Hbh Hmh HbF HmF. unfold balloc. apply wp_bind, wp_gets.
  pose proof Hff as (Hb & _). apply balloc_loop_spec; try done; [lia|].
  assert ((b - 0) / BPB <= sb_size sb / BPB) by (apply Z.div_le_mono; unfold BPB; lia).
  assert (0 <= (b - 0) / BPB) by (apply Z.div_pos; unfold BPB; lia). fold sb. lia.
Qed.

Lemma bfree_spec hs b s d :
  let sb := fs_sb s in
  tx_inv F hs (fs_log s) -> fs_geom sb (fs_log s) -> 0 <= b < sb_size sb -> view s (bblock sb b) = Some d ->
  (length hs <= 2)%nat -> bblock sb b ∉ hs.*2 -> bblock sb b ∈ F -> bit (view s) sb b = true ->
  wp (bfree ROOTDEV b) (fun _ s' => exists l, s' = set_log l s /\
    did F hs (fs_log s) l [(bblock sb b, unmark (b mod BPB) d)]) s.
Proof.
  intros sb Hs Hg Hb Hd Hlen Hmh HmF Hbit. unfold bfree. apply wp_bind, wp_gets. fold sb.
  destruct (bblock_ok Hg b Hb) as [Hok ->]. pose proof (view_length _ _ _ _ _ Hs Hd) as Hl.
  eapply fs_bread; [exact Hs|exact Hok|done|done|]. intros i l1 H1. cbv zeta.
  eapply (fs_bdata _ _ _ ((i, bblock sb b) :: hs)); [apply H1|left|rewrite (did_view_nil _ _ _ H1); exact Hd|].
  apply wp_bind, wp_panic_if. { unfold bit in Hbit. rewrite Hd in Hbit. by rewrite Hbit. }
  eapply (fs_write _ _ _ ((i, bblock sb b) :: hs)); [apply H1|left|by eapply did_data_ok|done|unfold unmark; by rewrite length_insert|].
  intros l2 H2. simpl in H2. eapply fs_brelse_last; [apply H2|]. intros l3 H3. simpl in H3. rewrite !set_set_log.
  exists l3. split; [done|]. eapply did_app; [exact H1| |done]. eapply did_app; [exact H2|exact H3|done].
Qed.
End alloc.
