(* ===== verification/FsFile.v ===== *)
(** * File contents: bmap, readi and writei

    The contents of an inode are its blocks, found in twelve direct addresses and the words
    of an indirect block; an address 0 is a block of zeros not allocated yet.  [bmap] keeps
    the contents and the blocks of all other files; [readi] returns and [writei] replaces a
    range of bytes. *)

From S2P Require Import Prelude Bytes Bio Log Recovery CStr Fs FsBlocks.

Definition zero_block : list Z := replicate BSIZE 0.
Arguments zero_block : simpl never.
Arguments alloc_writes : simpl never.
Arguments overlay : simpl never.

(** ** Allocation as a function on the view *)

Lemma overlay_alloc V sb b d n :
  overlay (alloc_writes sb b d) V n =
    if n =? b then Some zero_block else if n =? bblock sb b then Some (mark (b mod BPB) d) else V n.
Proof. reflexivity. Qed.

Section alloc_view.
Context {sb : superblock} {s : logst} (Hg : fs_geom sb s) (V V' : Z -> option (list Z)) (b : Z) (d : list Z).
Hypothesis Hbits : bits_ok V sb.
Hypothesis Hff : first_free V sb b.
Hypothesis Hd : V (bblock sb b) = Some d.
Hypothesis Hl : length d = BSIZE.
Hypothesis HV' : forall n, V' n = overlay (alloc_writes sb b d) V n.

Lemma alloc_data : data_start sb <= b < sb_size sb.
Proof using Hbits Hff. clear -Hbits Hff. destruct Hff as (Hb & Hbit & _). split; [by apply Hbits|lia]. Qed.

Lemma alloc_zero : V' b = Some zero_block.
Proof using HV'. by rewrite HV', overlay_alloc, Z.eqb_refl. Qed.

Lemma alloc_other n : n <> b -> n <> bblock sb b -> V' n = V n.
Proof using HV'. intros. rewrite HV', overlay_alloc. by rewrite !(proj2 (Z.eqb_neq _ _)). Qed.

Lemma alloc_bit c : 0 <= c < sb_size sb -> bit V' sb c = (c =? b) || bit V sb c.
Proof using Hg Hbits Hff Hd Hl HV'.
  pose proof alloc_data as Hdat. destruct Hff as (Hb & _).
  apply (bit_alloc V V' sb b d); [done|done|done| |].
  - intros n ->. pose proof (bblock_range Hg b Hb). rewrite HV', overlay_alloc.
    rewrite (proj2 (Z.eqb_neq _ _)), Z.eqb_refl by lia. done.
  - intros n c' Hc' -> Hne. pose proof (bblock_range Hg c' Hc'). apply alloc_other; [lia|done].
Qed.

Lemma alloc_bits_ok : bits_ok V' sb.
Proof using Hg Hbits Hff Hd Hl HV'.
  intros c Hc H. rewrite alloc_bit in H by done. apply orb_false_iff in H as [_ H]. by apply Hbits.
Qed.
End alloc_view.

(** ** The free blocks in order *)

Definition free_list (V : Z -> option (list Z)) (sb : superblock) : list Z :=
  filter (fun b => bit V sb b = false) (seqZ 0 (sb_size sb)).

Lemma filter_head {A} (P : A -> Prop) `{!forall x, Decision (P x)} (l : list A) b bs :
  filter P l = b :: bs -> exists l1 l2, l = l1 ++ b :: l2 /\ P b /\ Forall (fun x => ~ P x) l1 /\ bs = filter P l2.
Proof.
  induction l as [|a l IH]; [done|]. rewrite filter_cons. case_decide as Ha.
  - intros [= <- <-]. exists [], l. split_and!; [done|done|by constructor|done].
  - intros (l1 & l2 & -> & Hb & Hl1 & ->)%IH. exists (a :: l1), l2. split_and!; [done|done|by constructor|done].
Qed.

Lemma filter_nothing {A} (P : A -> Prop) `{!forall x, Decision (P x)} (l : list A) :
  (forall x, x ∈ l -> ~ P x) -> filter P l = [].
Proof.
  induction l as [|a l IH]; intros HP; [done|]. rewrite filter_cons, decide_False by (apply HP; left).
  apply IH. intros x Hx. apply HP. by right.
Qed.

Lemma filter_same {A} (P P' : A -> Prop) `{!forall x, Decision (P x), !forall x, Decision (P' x)} (l : list A) :
  (forall x, x ∈ l -> P x <-> P' x) -> filter P l = filter P' l.
Proof.
  induction l as [|a l IH]; intros HP; [done|]. rewrite !filter_cons.
  rewrite IH by (intros x Hx; apply HP; by right). pose proof (HP a ltac:(left)).
  repeat case_decide; tauto.
Qed.

Lemma seqZ_split n l1 b l2 : seqZ 0 n = l1 ++ b :: l2 ->
  0 <= b < n /\ (forall c, c ∈ l1 <-> 0 <= c < b) /\ (forall c, c ∈ l2 <-> b < c < n).
Proof.
  intros E. assert (0 <= n) as Hn by (destruct (Z.le_gt_cases 0 n); [done|rewrite seqZ_nil in E by lia; by destruct l1]).
  assert (seqZ 0 n !! length l1 = Some b) as Hb by (rewrite E; by rewrite list_lookup_middle).
  apply lookup_seqZ in Hb as [Hb Hlt]. split; [lia|].
  assert (l1 = seqZ 0 b /\ l2 = seqZ (b + 1) (n - b - 1)) as [-> ->].
  { assert (seqZ 0 n = seqZ 0 b ++ b :: seqZ (b + 1) (n - b - 1)) as E2.
    { replace n with (b + (n - b)) at 1 by lia. rewrite seqZ_app by lia. f_equal.
      rewrite seqZ_cons by lia. f_equal; f_equal; lia. }
    rewrite E in E2. apply app_inj_1 in E2 as [-> [= ->]]; [done|]. rewrite length_seqZ. lia. }
  split; intros c; rewrite elem_of_seqZ; lia.
Qed.

Lemma free_list_head V sb b bs : free_list V sb = b :: bs -> first_free V sb b.
Proof.
  intros (l1 & l2 & E & Hb & Hl1 & _)%filter_head. destruct (seqZ_split _ _ _ _ E) as (Hr & H1 & _).
  split_and!; [lia|lia|done|]. intros c Hc. rewrite Forall_forall in Hl1. specialize (Hl1 c (proj2 (H1 c) Hc)).
  by destruct (bit V sb c).
Qed.

Lemma free_list_tail V V' sb b bs : free_list V sb = b :: bs ->
  (forall c, 0 <= c < sb_size sb -> bit V' sb c = (c =? b) || bit V sb c) -> free_list V' sb = bs.
Proof.
  intros Hf HV. pose proof Hf as (l1 & l2 & E & Hb & Hl1 & ->)%filter_head.
  destruct (seqZ_split _ _ _ _ E) as (Hr & H1 & H2). unfold free_list. rewrite E, filter_app, filter_cons.
  rewrite decide_False by (rewrite HV, Z.eqb_refl by lia; done).
  assert (filter (fun c => bit V' sb c = false) l1 = []) as ->.
  { apply filter_nothing. rewrite Forall_forall in Hl1. intros c Hc.
    pose proof (proj1 (H1 c) Hc). rewrite HV, (proj2 (Z.eqb_neq c b)) by lia. simpl. by apply Hl1. }
  simpl. apply filter_same. intros c Hc. pose proof (proj1 (H2 c) Hc).
  rewrite HV, (proj2 (Z.eqb_neq c b)) by lia. done.
Qed.

(** [c] free blocks that the transaction may take. *)
Definition avail (F : gset Z) (V : Z -> option (list Z)) (sb : superblock) (c : nat) : Prop :=
  (c <= length (free_list V sb))%nat /\ (forall x, x ∈ take c (free_list V sb) -> x ∈ F).

Lemma avail_le F V sb c c' : avail F V sb c -> (c' <= c)%nat -> avail F V sb c'.
Proof.
  intros [H1 H2] Hc. split; [lia|]. intros x Hx. apply H2. apply elem_of_take in Hx as (i & Hi & Hlt).
  apply elem_of_take. exists i. split; [done|lia].
Qed.

Lemma free_list_ext V V' sb : (forall b, 0 <= b < sb_size sb -> bit V' sb b = bit V sb b) -> free_list V' sb = free_list V sb.
Proof. intros HV. apply filter_same. intros x Hx%elem_of_seqZ. rewrite HV by lia. done. Qed.

Lemma avail_ext F V V' sb c : (forall b, 0 <= b < sb_size sb -> bit V' sb b = bit V sb b) -> avail F V sb c -> avail F V' sb c.
Proof. intros HV. unfold avail. by rewrite (free_list_ext V V'). Qed.

Lemma avail_take F V sb c : avail F V sb (S c) ->
  exists b, first_free V sb b /\ b ∈ F /\
    (forall V', (forall x, 0 <= x < sb_size sb -> bit V' sb x = (x =? b) || bit V sb x) -> avail F V' sb c /\
      length (free_list V sb) = S (length (free_list V' sb))).
Proof.
  intros [Hlen HF]. destruct (free_list V sb) as [|b bs] eqn:E; [simpl in Hlen; lia|].
  exists b. split; [by eapply free_list_head|]. split; [apply HF; left|].
  intros V' HV. unfold avail. rewrite (free_list_tail V V' sb b bs E HV). split; [|done]. split; [simpl in Hlen; lia|].
  intros x Hx. apply HF. simpl. by right.
Qed.

(** ** The blocks of a file *)

Definition ind (p : inode) : Z := nth 12 (i_addrs p) 0.
(** The words of the indirect block. *)
Definition ind_words (p : inode) (V : Z -> option (list Z)) : list Z :=
  if ind p =? 0 then [] else match V (ind p) with Some d => get_words 0 128 d | None => [] end.
(** All places for an address: the thirteen of the inode, then the indirect block's. *)
Definition slots (p : inode) (V : Z -> option (list Z)) : list Z := i_addrs p ++ ind_words p V.
Definition slot (bn : Z) : nat := Z.to_nat (if bn <? NDIRECT then bn else bn + 1).
Definition addr_of (p : inode) (V : Z -> option (list Z)) (bn : Z) : Z := nth (slot bn) (slots p V) 0.
Definition blocks_of (p : inode) (V : Z -> option (list Z)) : list Z := filter (fun a => a <> 0) (slots p V).
Definition block_at (p : inode) (V : Z -> option (list Z)) (bn : Z) : list Z :=
  if addr_of p V bn =? 0 then zero_block else default zero_block (V (addr_of p V bn)).

Record file_ok (sb : superblock) (V : Z -> option (list Z)) (p : inode) : Prop := {
  fo_len : length (i_addrs p) = 13%nat;
  fo_nodup : NoDup (blocks_of p V);
  fo_data : forall a, a ∈ blocks_of p V -> data_start sb <= a < sb_size sb /\ bit V sb a = true
}.

(** From [p], [V] to [p'], [V'] the file may have got more blocks; other files and the inode
    blocks are as before. *)
Record evolved (sb : superblock) (p : inode) (V : Z -> option (list Z)) (p' : inode) (V' : Z -> option (list Z)) : Prop := {
  ev_inode : p' = set_addrs (i_addrs p') p;
  ev_addr : forall bn, 0 <= bn < MAXFILE -> addr_of p V bn <> 0 -> addr_of p' V' bn = addr_of p V bn;
  ev_data : forall n, data_start sb <= n < sb_size sb -> bit V sb n = true -> n ∉ blocks_of p V -> V' n = V n;
  ev_meta : forall n, sb_inodestart sb <= n < sb_bmapstart sb -> V' n = V n;
  ev_bit : forall n, data_start sb <= n < sb_size sb -> bit V sb n = true -> bit V' sb n = true;
  ev_sub : forall a, a ∈ blocks_of p V -> a ∈ blocks_of p' V';
  ev_new : forall a, a ∈ blocks_of p' V' -> a ∈ blocks_of p V \/ data_start sb <= a < sb_size sb /\ bit V sb a = false
}.
(** And its contents are as before. *)
Record grew (sb : superblock) (p : inode) (V : Z -> option (list Z)) (p' : inode) (V' : Z -> option (list Z)) : Prop := {
  gr_ev : evolved sb p V p' V';
  gr_same : forall bn, 0 <= bn < MAXFILE -> block_at p' V' bn = block_at p V bn
}.

Lemma set_addrs_id p : set_addrs (i_addrs p) p = p.
Proof. by destruct p. Qed.

Lemma evolved_refl sb p V : evolved sb p V p V.
Proof. split; try done; [by rewrite set_addrs_id|by left]. Qed.

Lemma evolved_trans sb p V p' V' p'' V'' : evolved sb p V p' V' -> evolved sb p' V' p'' V'' -> evolved sb p V p'' V''.
Proof.
  intros [A1 A3 A4 A5 A6 A7 A8] [B1 B3 B4 B5 B6 B7 B8]. split.
  - rewrite B1, A1. by destruct p.
  - intros bn Hbn Ha. rewrite B3, A3; [done|done|done|done|]. by rewrite A3.
  - intros n Hn Hb Hnot. rewrite B4, A4; [done|done|done|done|done|by apply A6|].
    intros [?|[_ Hf]]%A8; [done|congruence].
  - intros n Hn. by rewrite B5, A5.
  - intros n Hn Hb. by apply B6, A6.
  - intros a Ha. by apply B7, A7.
  - intros a [Ha|[Hr Ha]]%B8; [by apply A8|]. right. split; [done|]. destruct (bit V sb a) eqn:E; [|done].
    rewrite A6 in Ha; done.
Qed.

Lemma grew_refl sb p V : grew sb p V p V.
Proof. split; [apply evolved_refl|done]. Qed.

Lemma grew_trans sb p V p' V' p'' V'' : grew sb p V p' V' -> grew sb p' V' p'' V'' -> grew sb p V p'' V''.
Proof. intros [A1 A2] [B1 B2]. split; [by eapply evolved_trans|]. intros bn Hbn. by rewrite B2, A2. Qed.

(** *** Lists of addresses *)

Lemma length_get_words off n d : length (get_words off n d) = n.
Proof. unfold get_words. rewrite length_map, length_seqZ. lia. Qed.

Lemma lookup_get_words off n d j : (j < n)%nat -> get_words off n d !! j = Some (get32 (off + 4 * Z.of_nat j) d).
Proof.
  intros Hj. unfold get_words. rewrite list_lookup_fmap, (proj2 (lookup_seqZ 0 (Z.of_nat n) j (Z.of_nat j))) by lia. done.
Qed.

Lemma get_words_put n d j w : (j < n)%nat -> 4 * Z.of_nat n <= Z.of_nat (length d) -> 0 <= w < 2 ^ 32 ->
  get_words 0 n (put32 (4 * Z.of_nat j) w d) = <[j := w]> (get_words 0 n d).
Proof.
  intros Hj Hl Hw. apply list_eq_same_length with n; [by rewrite length_insert, length_get_words|by rewrite length_get_words|].
  intros i x y Hi. rewrite lookup_get_words by done. destruct (decide (i = j)) as [->|Hne].
  - rewrite list_lookup_insert_eq by (by rewrite length_get_words). rewrite Z.add_0_l, get32_put32_same by lia.
    rewrite u32_small by done. congruence.
  - rewrite list_lookup_insert_ne, lookup_get_words by done. rewrite get32_put32_other by lia. congruence.
Qed.

Lemma get_words_zero n : (n <= 128)%nat -> get_words 0 n zero_block = replicate n 0.
Proof.
  intros Hn. apply list_eq_same_length with n; [by rewrite length_replicate|by rewrite length_get_words|].
  intros i x y Hi. rewrite lookup_get_words, lookup_replicate_2 by done. intros [= <-] [= <-].
  unfold get32, slice, zero_block. rewrite drop_replicate, take_replicate. rewrite Nat.min_l by (unfold BSIZE; lia). done.
Qed.

Lemma filter_insert (l : list Z) k b : l !! k = Some 0 -> b <> 0 ->
  filter (fun a => a <> 0) (<[k := b]> l) ≡ₚ b :: filter (fun a => a <> 0) l.
Proof.
  intros Hk Hb. pose proof (lookup_lt_Some _ _ _ Hk). rewrite insert_take_drop by done.
  rewrite <-(take_drop_middle l k 0 Hk) at 3. rewrite !filter_app, !filter_cons.
  rewrite decide_True, decide_False by (tauto || done). by rewrite Permutation_middle.
Qed.

Lemma elem_slots p V a : a ∈ blocks_of p V <-> a <> 0 /\ a ∈ slots p V.
Proof. unfold blocks_of. by rewrite list_elem_of_filter. Qed.

Lemma addr_block p V bn : addr_of p V bn <> 0 -> addr_of p V bn ∈ blocks_of p V.
Proof.
  intros Ha. apply elem_slots. split; [done|]. unfold addr_of in *.
  destruct (slots p V !! slot bn) as [x|] eqn:E.
  - rewrite (nth_lookup_Some _ _ _ _ E). by eapply list_elem_of_lookup_2.
  - rewrite nth_lookup, E in Ha. done.
Qed.

Lemma NoDup_filter_inj (l : list Z) i j a : NoDup (filter (fun a => a <> 0) l) ->
  l !! i = Some a -> l !! j = Some a -> a <> 0 -> i = j.
Proof.
  revert i j. induction l as [|x l IH]; intros i j Hn Hi Hj Ha; [done|]. rewrite filter_cons in Hn.
  assert (forall k, l !! k = Some a -> a ∈ filter (fun a => a <> 0) l) as Hin.
  { intros k Hk. apply list_elem_of_filter. split; [done|]. by eapply list_elem_of_lookup_2. }
  destruct i as [|i], j as [|j]; simpl in *; try done.
  - injection Hi as ->. rewrite decide_True in Hn by done. apply NoDup_cons in Hn as [Hn _]. by apply Hin in Hj.
  - injection Hj as ->. rewrite decide_True in Hn by done. apply NoDup_cons in Hn as [Hn _]. by apply Hin in Hi.
  - f_equal. apply IH; try done. case_decide; [by apply NoDup_cons in Hn as [_ ?]|done].
Qed.

Lemma slot_ne_12 bn : 0 <= bn -> slot bn <> 12%nat.
Proof. intros. unfold slot, NDIRECT. destruct (Z.ltb_spec bn 12); lia. Qed.

Lemma slots_12 sb V p : file_ok sb V p -> slots p V !! 12%nat = Some (ind p).
Proof.
  intros Hf. unfold slots. rewrite lookup_app_l by (rewrite (fo_len _ _ _ Hf); lia). unfold ind.
  destruct (lookup_lt_is_Some_2 (i_addrs p) 12) as [x Hx]; [rewrite (fo_len _ _ _ Hf); lia|].
  by rewrite (nth_lookup_Some _ _ _ _ Hx).
Qed.

Lemma ind_block sb V p : file_ok sb V p -> ind p <> 0 -> ind p ∈ blocks_of p V.
Proof.
  intros Hf Hi. apply elem_slots. split; [done|]. eapply list_elem_of_lookup_2. by eapply slots_12.
Qed.

Lemma addr_ne_ind sb V p bn : file_ok sb V p -> 0 <= bn -> addr_of p V bn <> 0 -> addr_of p V bn <> ind p.
Proof.
  intros Hf Hbn Ha Heq. apply (slot_ne_12 bn Hbn).
  apply (NoDup_filter_inj (slots p V) (slot bn) 12 (addr_of p V bn)); [apply (fo_nodup _ _ _ Hf)| | |done].
  - unfold addr_of in *. destruct (slots p V !! slot bn) eqn:E; [by rewrite (nth_lookup_Some _ _ _ _ E)|].
    by rewrite nth_lookup, E in Ha.
  - rewrite Heq. by eapply slots_12.
Qed.

Lemma addr_inj sb V p bn bn' : file_ok sb V p -> 0 <= bn -> 0 <= bn' -> addr_of p V bn <> 0 ->
  addr_of p V bn = addr_of p V bn' -> bn = bn'.
Proof.
  intros Hf Hbn Hbn' Ha Heq. assert (slot bn = slot bn') as E.
  { apply (NoDup_filter_inj (slots p V) _ _ (addr_of p V bn)); [apply (fo_nodup _ _ _ Hf)| | |done].
    - unfold addr_of in *. destruct (slots p V !! slot bn) eqn:E; [by rewrite (nth_lookup_Some _ _ _ _ E)|].
      by rewrite nth_lookup, E in Ha.
    - rewrite Heq. rewrite Heq in Ha. unfold addr_of in *.
      destruct (slots p V !! slot bn') eqn:E; [by rewrite (nth_lookup_Some _ _ _ _ E)|]. by rewrite nth_lookup, E in Ha. }
  unfold slot, NDIRECT in E. destruct (Z.ltb_spec bn 12), (Z.ltb_spec bn' 12); lia.
Qed.

(** One more block [b] for the file. *)
Lemma grew_one {sb s} (Hg : fs_geom sb s) V V' p p' b :
  bits_ok V sb -> first_free V sb b -> file_ok sb V p ->
  V' b = Some zero_block ->
  (forall n, n <> b -> n <> bblock sb b -> ind p = 0 \/ n <> ind p -> V' n = V n) ->
  (forall c, 0 <= c < sb_size sb -> bit V' sb c = (c =? b) || bit V sb c) ->
  p' = set_addrs (i_addrs p') p -> length (i_addrs p') = 13%nat ->
  blocks_of p' V' ≡ₚ b :: blocks_of p V ->
  (forall bn, 0 <= bn < MAXFILE -> addr_of p' V' bn = addr_of p V bn \/ addr_of p V bn = 0 /\ addr_of p' V' bn = b) ->
  grew sb p V p' V' /\ file_ok sb V' p'.
Proof.
  intros Hbits Hff Hf Hz Hother Hbit Hp' Hlen Hblocks Haddr.
  pose proof (alloc_data (sb := sb) V b Hbits Hff) as Hdat. pose proof Hff as (Hbr & Hbb & _).
  pose proof (bblock_range Hg b Hbr) as Hbbr. pose proof (fg_start _ _ Hg). pose proof (fg_inodes _ _ Hg) as [? ?].
  assert (0 <= sb_ninodes sb / IPB) by (apply Z.div_pos; unfold IPB; lia).
  assert (forall a, a ∈ blocks_of p V -> a <> b /\ a <> bblock sb b) as Hold.
  { intros a Ha. destruct (fo_data _ _ _ Hf a Ha) as [Hr Hba]. split; [intros ->; congruence|lia]. }
  assert (b <> 0) as Hb0 by lia.
  split; [split; [split|]|split].
  - done.
  - intros bn Hbn Ha. destruct (Haddr bn Hbn) as [?|[? _]]; [done|congruence].
  - intros n Hn Hbn Hnot. apply Hother; [intros ->; congruence|lia|].
    destruct (decide (ind p = 0)) as [|Hi]; [by left|right]. intros ->. by apply Hnot, (ind_block sb).
  - intros n Hn. apply Hother; [lia|lia|]. destruct (decide (ind p = 0)) as [|Hi]; [by left|right].
    intros ->. pose proof (fo_data _ _ _ Hf _ (ind_block sb V p Hf Hi)). lia.
  - intros n Hn Hbn. rewrite Hbit, Hbn by (unfold data_start in *; lia). by rewrite orb_true_r.
  - intros a Ha. rewrite Hblocks. by right.
  - intros a Ha. rewrite Hblocks in Ha. apply elem_of_cons in Ha as [->|Ha]; [right; done|by left].
  - intros bn Hbn. unfold block_at. destruct (Haddr bn Hbn) as [->|[-> ->]].
    + destruct (Z.eqb_spec (addr_of p V bn) 0) as [|Ha]; [done|]. f_equal.
      destruct (Hold _ (addr_block _ _ _ Ha)). apply Hother; [done|done|]. right. eapply addr_ne_ind; [done|lia|done].
    + rewrite (proj2 (Z.eqb_neq b 0)) by done. rewrite Hz. done.
  - done.
  - rewrite Hblocks. constructor; [|apply (fo_nodup _ _ _ Hf)]. intros Hin. by destruct (Hold _ Hin).
  - intros a Ha. rewrite Hblocks in Ha. apply elem_of_cons in Ha as [->|Ha].
    + split; [done|]. by rewrite Hbit, Z.eqb_refl by done.
    + destruct (fo_data _ _ _ Hf a Ha) as [Hr Hba]. split; [done|]. rewrite Hbit, Hba by lia. by rewrite orb_true_r.
Qed.

Lemma nth_insert_case (l : list Z) k b i : l !! k = Some 0 ->
  nth i (<[k := b]> l) 0 = nth i l 0 \/ nth i l 0 = 0 /\ nth i (<[k := b]> l) 0 = b.
Proof.
  intros Hk. destruct (decide (i = k)) as [->|Hne].
  - right. split; [by apply nth_lookup_Some|]. apply nth_insert_eq. by eapply lookup_lt_Some.
  - left. by apply nth_insert_ne.
Qed.

Lemma nth_replicate_0 n k : nth k (replicate n 0) 0 = 0.
Proof. rewrite nth_lookup. destruct (replicate n 0 !! k) eqn:E; [by apply lookup_replicate in E as [-> _]|done]. Qed.

(** Only block [b] was added. *)
Definition only_added (p : inode) (V : Z -> option (list Z)) (p' : inode) (V' : Z -> option (list Z)) (b : Z) : Prop :=
  forall bn, 0 <= bn < MAXFILE -> addr_of p' V' bn = addr_of p V bn \/ addr_of p V bn = 0 /\ addr_of p' V' bn = b.

Section growing.
Context {sb : superblock} {s : logst} (Hg : fs_geom sb s) (V V' : Z -> option (list Z)) (p : inode) (b : Z) (d : list Z).
Hypothesis Hbits : bits_ok V sb.
Hypothesis Hff : first_free V sb b.
Hypothesis Hf : file_ok sb V p.
Hypothesis Hd : V (bblock sb b) = Some d.
Hypothesis Hl : length d = BSIZE.

Lemma old_block a : a ∈ blocks_of p V -> a <> b /\ a <> bblock sb b.
Proof using Hg Hbits Hff Hf.
  clear Hl Hd. intros Ha. destruct (fo_data _ _ _ Hf a Ha) as [Hr Hba]. pose proof Hff as (Hbr & Hbb & _).
  pose proof (bblock_range Hg b Hbr). split; [intros ->; congruence|lia].
Qed.

Lemma slots_grew p' V1 k : slots p' V1 = <[k := b]> (slots p V) -> slots p V !! k = Some 0 -> b <> 0 ->
  blocks_of p' V1 ≡ₚ b :: blocks_of p V /\ only_added p V p' V1 b.
Proof using.
  clear. intros E Hk Hb. split; [unfold blocks_of; rewrite E; by apply filter_insert|].
  intros bn _. unfold addr_of. rewrite E. by apply nth_insert_case.
Qed.

Lemma free_nonzero : b <> 0.
Proof using Hg Hbits Hff.
  clear Hl Hd. pose proof (alloc_data (sb := sb) V b Hbits Hff). pose proof (fg_start _ _ Hg).
  pose proof (fg_inodes _ _ Hg) as [? ?]. assert (0 <= sb_ninodes sb / IPB) by (apply Z.div_pos; unfold IPB; lia).
  pose proof (fg_size _ _ Hg). assert (0 <= sb_size sb / BPB) by (apply Z.div_pos; unfold BPB; lia).
  unfold data_start in *. lia.
Qed.

(** A direct block. *)
Lemma grow_direct bn : (forall n, V' n = overlay (alloc_writes sb b d) V n) ->
  (bn < 12)%nat -> i_addrs p !! bn = Some 0 ->
  grew sb p V (set_addrs (<[bn := b]> (i_addrs p)) p) V' /\ file_ok sb V' (set_addrs (<[bn := b]> (i_addrs p)) p) /\
  only_added p V (set_addrs (<[bn := b]> (i_addrs p)) p) V' b.
Proof using Hg Hbits Hff Hf Hd Hl.
  intros HV' Hbn Ha. set (p' := set_addrs _ p).
  assert (ind p' = ind p) as Ei by (apply nth_insert_ne; lia).
  assert (slots p' V' = <[bn := b]> (slots p V)) as Es.
  { unfold slots. rewrite insert_app_l by (rewrite (fo_len _ _ _ Hf); lia). simpl. f_equal.
    unfold ind_words. rewrite Ei. destruct (Z.eqb_spec (ind p) 0) as [|Hi]; [done|].
    destruct (old_block _ (ind_block _ _ _ Hf Hi)). by rewrite (alloc_other V V' b d HV'). }
  destruct (slots_grew p' V' bn Es) as [Hb1 Hb2];
    [unfold slots; rewrite lookup_app_l; [done|rewrite (fo_len _ _ _ Hf); lia]|apply free_nonzero|].
  assert (grew sb p V p' V' /\ file_ok sb V' p') as [Hgr Hfo]; [|done].
  apply (grew_one Hg V V' p p' b); try done.
  - by apply (alloc_zero (sb := sb) V V' b d).
  - intros n ? ? _. by apply (alloc_other V V' b d HV').
  - by apply (alloc_bit Hg V V' b d).
  - simpl. rewrite length_insert. by eapply fo_len.
Qed.

(** An empty indirect block. *)
Lemma grow_ind : (forall n, V' n = overlay (alloc_writes sb b d) V n) -> ind p = 0 ->
  grew sb p V (set_addrs (<[12%nat := b]> (i_addrs p)) p) V' /\ file_ok sb V' (set_addrs (<[12%nat := b]> (i_addrs p)) p) /\
  V' b = Some zero_block /\ forall bn, 0 <= bn < MAXFILE -> addr_of (set_addrs (<[12%nat := b]> (i_addrs p)) p) V' bn = addr_of p V bn.
Proof using Hg Hbits Hff Hf Hd Hl.
  intros HV' Hi. set (p' := set_addrs _ p). pose proof (fo_len _ _ _ Hf) as Hlen.
  assert (ind p' = b) as Ei by (apply nth_insert_eq; lia).
  pose proof (alloc_zero (sb := sb) V V' b d HV') as Hz.
  assert (slots p V = i_addrs p) as Es0 by (unfold slots, ind_words; rewrite Hi; apply app_nil_r).
  assert (slots p' V' = <[12%nat := b]> (i_addrs p) ++ replicate 128 0) as Es.
  { unfold slots, ind_words. rewrite Ei, (proj2 (Z.eqb_neq _ _)) by apply free_nonzero. rewrite Hz.
    by rewrite get_words_zero. }
  assert (i_addrs p !! 12%nat = Some 0) as H12.
  { pose proof (slots_12 _ _ _ Hf) as H12. by rewrite Es0, Hi in H12. }
  assert (forall bn, 0 <= bn < MAXFILE -> addr_of p' V' bn = addr_of p V bn) as Hsame.
  { intros bn Hbn. unfold addr_of. rewrite Es, Es0. pose proof (slot_ne_12 bn ltac:(lia)).
    destruct (decide (slot bn < 13)%nat).
    - rewrite app_nth1 by (rewrite length_insert; lia). by apply nth_insert_ne.
    - rewrite app_nth2 by (rewrite length_insert; lia). rewrite nth_replicate_0, (nth_overflow (i_addrs p)) by lia. done. }
  assert (grew sb p V p' V' /\ file_ok sb V' p') as [Hgr Hfo]; [|done].
  apply (grew_one Hg V V' p p' b); try done; [| | | |intros; left; by apply Hsame].
  - intros n ? ? _. by apply (alloc_other V V' b d HV').
  - by apply (alloc_bit Hg V V' b d).
  - simpl. by rewrite length_insert.
  - unfold blocks_of. rewrite Es, Es0, filter_app, (filter_nothing _ (replicate 128 0)), app_nil_r.
    + apply filter_insert; [done|apply free_nonzero].
    + intros x [-> _]%elem_of_replicate. tauto.
Qed.

(** A block in the indirect block. *)
Lemma grow_word j di : (forall n, V' n = overlay (alloc_writes sb b d ++ [(ind p, put32 (4 * Z.of_nat j) b di)]) V n) ->
  ind p <> 0 -> V (ind p) = Some di -> length di = BSIZE -> (j < 128)%nat -> word (Z.of_nat j) di = 0 ->
  grew sb p V p V' /\ file_ok sb V' p /\ only_added p V p V' b.
Proof using Hg Hbits Hff Hf Hd Hl.
  intros HV' Hi Hdi Hldi Hj Hw.
  pose (V1 := overlay (alloc_writes sb b d) V).
  assert (forall n, V' n = if n =? ind p then Some (put32 (4 * Z.of_nat j) b di) else V1 n) as HV1.
  { intros n. rewrite HV', overlay_snoc. done. }
  destruct (old_block _ (ind_block _ _ _ Hf Hi)) as [Hne1 Hne2].
  pose proof (alloc_data (sb := sb) V b Hbits Hff) as Hdat. pose proof (fg_size _ _ Hg). pose proof (fg_max _ _ Hg).
  pose proof free_nonzero as Hb0. pose proof Hff as (Hbr & _).
  assert (slots p V' = <[(13 + j)%nat := b]> (slots p V)) as Es.
  { unfold slots. rewrite <-(fo_len _ _ _ Hf), insert_app_r. f_equal. unfold ind_words.
    rewrite (proj2 (Z.eqb_neq _ _)) by done. rewrite HV1, Z.eqb_refl, Hdi. apply get_words_put; [done| |lia].
    rewrite Hldi. unfold BSIZE. lia. }
  destruct (slots_grew p V' (13 + j) Es) as [Hb1 Hb2]; [|done|].
  { unfold slots. rewrite lookup_app_r by (rewrite (fo_len _ _ _ Hf); lia).
    rewrite (fo_len _ _ _ Hf). replace (13 + j - 13)%nat with j by lia. unfold ind_words.
    rewrite (proj2 (Z.eqb_neq _ _)) by done. rewrite Hdi, lookup_get_words by done. f_equal.
    unfold word in Hw. by rewrite Z.add_0_l. }
  assert (grew sb p V p V' /\ file_ok sb V' p) as [Hgr Hfo]; [|done].
  apply (grew_one Hg V V' p p b); try done.
  - rewrite HV1, (proj2 (Z.eqb_neq _ _)) by done. by apply (alloc_zero (sb := sb) V V1 b d).
  - intros n ? ? [?|?]; [done|]. rewrite HV1, (proj2 (Z.eqb_neq _ _)) by done. by apply (alloc_other (sb := sb) V V1 b d).
  - intros c Hc. rewrite <-(alloc_bit Hg V V1 b d) by done. unfold bit. rewrite HV1.
    rewrite (proj2 (Z.eqb_neq _ _)); [done|]. pose proof (bblock_range Hg c Hc).
    pose proof (fo_data _ _ _ Hf _ (ind_block sb V p Hf Hi)). lia.
  - by rewrite set_addrs_id.
  - by eapply fo_len.
Qed.
End growing.

(** ** bmap *)

Definition put_inode (i : nat) (p : inode) (s : fss) : fss := set_icache (<[i := p]> (icache s)) s.

Lemma wp_get_inode {A} (k : inode -> M fss A) (Q : A -> fss -> Prop) s i p :
  icache s !! i = Some p -> wp (k p) Q s -> wp (bind (get_inode i) k) Q s.
Proof. intros Hi Hk. apply wp_bind. unfold get_inode. wp_steps. by eapply wp_deref. Qed.

Lemma wp_upd_inode {A} (f : inode -> inode) (k : M fss A) (Q : A -> fss -> Prop) s i p :
  icache s !! i = Some p -> wp k Q (put_inode i (f p) s) -> wp (upd_inode i f ;;; k) Q s.
Proof.
  intros Hi Hk. apply wp_bind, wp_modify. unfold put_inode in Hk.
  assert (alter f i (icache s) = <[i := f p]> (icache s)) as ->; [|done].
  apply list_eq. intros j. destruct (decide (i = j)) as [<-|Hne].
  - rewrite list_lookup_alter_eq, Hi, list_lookup_insert_eq; [done|]. by eapply lookup_lt_Some.
  - by rewrite list_lookup_alter_ne, list_lookup_insert_ne.
Qed.

Lemma icache_put i p q s : icache s !! i = Some q -> icache (put_inode i p s) !! i = Some p.
Proof. intros Hi. apply list_lookup_insert_eq. by eapply lookup_lt_Some. Qed.

Section files.
Context (F : gset Z).

(** A transaction in which the process works on inode [i], whose copy in memory is [p]. *)
Record fstate (s : fss) (i : nat) (p : inode) : Prop := FState {
  fs_tx : tx_inv F [] (fs_log s);
  fs_geo : fs_geom (fs_sb s) (fs_log s);
  fs_bits : bits_ok (view s) (fs_sb s);
  fs_ip : icache s !! i = Some p;
  fs_dev : i_dev p = ROOTDEV;
  fs_file : file_ok (fs_sb s) (view s) p;
  fs_bmap : forall b, 0 <= b < sb_size (fs_sb s) -> bblock (fs_sb s) b ∈ F
}.

(** A computation that may have changed inode [i] and blocks. *)
Definition moved (i : nat) (s s' : fss) (p' : inode) (ws : list (Z * list Z)) : Prop :=
  exists l, s' = put_inode i p' (set_log l s) /\ did F [] (fs_log s) l ws.

Lemma fstate_view s i p : fstate s i p -> forall n, data_ok (fs_log s) n -> exists d, view s n = Some d /\ length d = BSIZE.
Proof.
  intros Hs n Hn. destruct (view_some _ _ _ _ (fs_tx _ _ _ Hs) Hn) as [d Hd]. exists d. split; [done|].
  by eapply view_length; [apply Hs|].
Qed.

Lemma file_data_ok s i p a : fstate s i p -> a ∈ blocks_of p (view s) -> data_ok (fs_log s) a.
Proof. intros Hs Ha. destruct (fo_data _ _ _ (fs_file _ _ _ Hs) a Ha). by apply (fg_data _ _ (fs_geo _ _ _ Hs)). Qed.

Lemma put_inode_id i p s : icache s !! i = Some p -> put_inode i p s = s.
Proof. intros Hi. unfold put_inode. rewrite list_insert_id by done. by destruct s. Qed.

Lemma did_view_eq hs s l ws n : did F hs (fs_log s) l ws -> view (set_log l s) n = overlay ws (view s) n.
Proof. intros H. unfold view. simpl. by rewrite (did_view _ _ _ _ _ H). Qed.

Lemma ind_slot p V bn : length (i_addrs p) = 13%nat -> NDIRECT <= bn < MAXFILE -> ind p <> 0 ->
  forall d, V (ind p) = Some d -> addr_of p V bn = word (bn - NDIRECT) d.
Proof.
  intros Hl Hbn Hi d Hd. unfold addr_of, slots, slot. unfold MAXFILE, NDIRECT, NINDIRECT in *.
  rewrite (proj2 (Z.ltb_ge _ _)) by lia. rewrite app_nth2 by lia. unfold ind_words.
  rewrite (proj2 (Z.eqb_neq _ _)) by done. rewrite Hd. apply nth_lookup_Some.
  rewrite lookup_get_words by lia. unfold word. do 2 f_equal. lia.
Qed.

Lemma direct_slot p V bn : length (i_addrs p) = 13%nat -> 0 <= bn < NDIRECT ->
  i_addrs p !! Z.to_nat bn = Some (addr_of p V bn).
Proof.
  intros Hl Hbn. unfold addr_of, slots, slot, NDIRECT in *. rewrite (proj2 (Z.ltb_lt _ _)) by lia.
  destruct (lookup_lt_is_Some_2 (i_addrs p) (Z.to_nat bn)) as [x Hx]; [lia|].
  rewrite app_nth1 by lia. by rewrite (nth_lookup_Some _ _ _ _ Hx).
Qed.

Lemma ind_lookup p : length (i_addrs p) = 13%nat -> i_addrs p !! Z.to_nat NDIRECT = Some (ind p).
Proof.
  intros Hl. unfold ind. destruct (lookup_lt_is_Some_2 (i_addrs p) 12) as [x Hx]; [lia|].
  change (Z.to_nat NDIRECT) with 12%nat. by rewrite (nth_lookup_Some _ _ _ _ Hx).
Qed.

(** A block that is there is found. *)
Lemma bmap_found s i p bn : fstate s i p -> 0 <= bn < MAXFILE -> addr_of p (view s) bn <> 0 ->
  wp (bmap i bn) (fun a s' => a = addr_of p (view s) bn /\ exists l, s' = set_log l s /\ did F [] (fs_log s) l []) s.
Proof.
  intros Hs Hbn Ha. pose proof (fo_len _ _ _ (fs_file _ _ _ Hs)) as Hlen. unfold bmap.
  eapply wp_get_inode; [apply Hs|]. destruct (Z.ltb_spec bn NDIRECT) as [Hd|Hd].
  - apply wp_bind. eapply wp_deref; [apply (direct_slot p (view s)); [done|lia]|].
    rewrite (proj2 (Z.eqb_neq _ _)) by done. apply wp_ret. split; [done|]. exists (fs_log s).
    split; [by rewrite set_log_id|]. apply did_refl, Hs.
  - rewrite (proj2 (Z.ltb_lt _ _)) by (unfold MAXFILE in Hbn; lia).
    assert (ind p <> 0) as Hi.
    { intros Hi. apply Ha. unfold addr_of, slots, ind_words. rewrite Hi. simpl. rewrite app_nil_r.
      apply nth_overflow. unfold slot, NDIRECT in *. rewrite (proj2 (Z.ltb_ge _ _)) by lia. lia. }
    apply wp_bind. eapply wp_deref; [by apply ind_lookup|]. rewrite (proj2 (Z.eqb_neq _ _)) by done.
    apply wp_bind, wp_ret. rewrite (fs_dev _ _ _ Hs).
    pose proof (ind_block _ _ _ (fs_file _ _ _ Hs) Hi) as Hib. pose proof (file_data_ok _ _ _ _ Hs Hib) as Hiok.
    destruct (fstate_view _ _ _ Hs _ Hiok) as (d & Hdv & Hld).
    eapply fs_bread; [apply Hs|done|by apply not_elem_of_nil|simpl; lia|]. intros bp l1 H1.
    eapply (fs_bdata _ _ _ [(bp, ind p)]); [apply H1|left|by rewrite (did_view_nil _ _ _ _ H1)|].
    rewrite <-(ind_slot p (view s) bn Hlen ltac:(lia) Hi d Hdv). rewrite (proj2 (Z.eqb_neq _ _)) by done.
    apply wp_bind, wp_ret. eapply fs_brelse; [apply H1|]. intros l2 H2. simpl in H2. apply wp_ret.
    split; [done|]. exists l2. split; [done|]. eapply did_app; [exact H1|exact H2|done].
Qed.

(** Taking a block of the available ones, with at most one block of the file held. *)
Lemma balloc_avail s hs c : let sb := fs_sb s in
  tx_inv F hs (fs_log s) -> fs_geom sb (fs_log s) -> bits_ok (view s) sb -> avail F (view s) sb (S c) ->
  (forall b, 0 <= b < sb_size sb -> bblock sb b ∈ F) -> (length hs <= 2)%nat ->
  (forall a, a ∈ hs.*2 -> data_start sb <= a /\ bit (view s) sb a = true) ->
  wp (balloc ROOTDEV) (fun b s' => exists l d, s' = set_log l s /\ first_free (view s) sb b /\ b ∈ F /\
    view s (bblock sb b) = Some d /\ length d = BSIZE /\ did F hs (fs_log s) l (alloc_writes sb b d) /\
    (forall n, view s' n = overlay (alloc_writes sb b d) (view s) n) /\
    bits_ok (view s') sb /\ avail F (view s') sb c /\
    length (free_list (view s) sb) = S (length (free_list (view s') sb))) s.
Proof.
  intros sb Hs Hg Hbits Hav HF Hlen Hhs. destruct (avail_take _ _ _ _ Hav) as (b & Hff & HbF & Hnext).
  pose proof (alloc_data (sb := sb) (view s) b Hbits Hff) as Hdat. pose proof Hff as (Hbr & Hbb & _).
  eapply wp_mono; [apply (balloc_spec F hs b s); try done|].
  - by apply (fg_data _ _ Hg).
  - intros Hin. destruct (Hhs b Hin). congruence.
  - intros x Hx Hin. pose proof (bblock_range Hg x Hx). destruct (Hhs _ Hin). subst sb. lia.
  - by apply HF.
  - intros r s' (-> & l & d & -> & Hd & Hdid). fold sb in Hd, Hdid.
    pose proof (view_length _ _ _ _ _ Hs Hd) as Hl. exists l, d.
    assert (forall n, view (set_log l s) n = overlay (alloc_writes sb b d) (view s) n) as HV
      by (intros n; by eapply did_view_eq).
    split_and!; try done.
    + by apply (alloc_bits_ok Hg (view s) _ b d).
    + apply Hnext. by apply (alloc_bit Hg (view s) _ b d).
    + apply Hnext. by apply (alloc_bit Hg (view s) _ b d).
Qed.

Lemma fstate_after s s1 i p p' l ws : fstate s i p -> did F [] (fs_log s) l ws ->
  s1 = put_inode i p' (set_log l s) -> bits_ok (view s1) (fs_sb s) -> file_ok (fs_sb s) (view s1) p' ->
  i_dev p' = i_dev p -> fstate s1 i p'.
Proof.
  intros [] Hd -> Hb Hf Hdev. split; simpl; try done.
  - apply Hd.
  - by eapply did_geom.
  - by eapply icache_put.
  - congruence.
Qed.

Definition ind_need (p : inode) : nat := if ind p =? 0 then 1 else 0.

(** What [bmap] does for a block that is not there yet. *)
Definition bmap_new (s : fss) (i : nat) (p : inode) (bn : Z) (c : nat) (a : Z) (s' : fss) : Prop :=
  exists p' ws, moved i s s' p' ws /\ a = addr_of p' (view s') bn /\ a <> 0 /\ a ∈ F /\
    grew (fs_sb s) p (view s) p' (view s') /\ fstate s' i p' /\ avail F (view s') (fs_sb s) (c + ind_need p') /\
    (ind p' <> 0 -> ind p' ∈ F \/ ind p' = ind p) /\
    (forall bn, 0 <= bn < MAXFILE -> addr_of p (view s) bn = 0 -> addr_of p' (view s') bn <> 0 -> addr_of p' (view s') bn ∈ F) /\
    (addr_of p (view s) bn <> 0 -> p' = p) /\
    (length (free_list (view s) (fs_sb s)) + ind_need p' <= 1 + ind_need p + length (free_list (view s') (fs_sb s)))%nat.

Lemma only_added_in p V p' V' b : only_added p V p' V' b -> b ∈ F ->
  forall bn, 0 <= bn < MAXFILE -> addr_of p V bn = 0 -> addr_of p' V' bn <> 0 -> addr_of p' V' bn ∈ F.
Proof. intros H HF bn Hbn H0 H1. destruct (H bn Hbn) as [E|[_ ->]]; [congruence|done]. Qed.

Lemma one_taken x y z : x = S z -> (x + y <= 1 + y + z)%nat.
Proof. lia. Qed.
Lemma two_taken x y y' z z' : x = S z -> (z + y' <= 1 + z')%nat -> y = 1%nat -> (x + y' <= 1 + y + z')%nat.
Proof. lia. Qed.

Lemma bmap_direct s i p bn c : fstate s i p -> 0 <= bn < NDIRECT -> addr_of p (view s) bn = 0 ->
  avail F (view s) (fs_sb s) (S c + ind_need p) -> wp (bmap i bn) (bmap_new s i p bn c) s.
Proof.
  intros Hs Hbn Ha Hav. pose proof (fs_file _ _ _ Hs) as Hf. pose proof (fo_len _ _ _ Hf) as Hlen.
  pose proof (direct_slot p (view s) bn Hlen Hbn) as Hslot. rewrite Ha in Hslot. unfold bmap.
  eapply wp_get_inode; [apply Hs|]. rewrite (proj2 (Z.ltb_lt _ _)) by lia.
  apply wp_bind. eapply wp_deref; [exact Hslot|]. rewrite Z.eqb_refl, (fs_dev _ _ _ Hs).
  apply wp_bind. eapply wp_mono; [apply (balloc_avail s [] (c + ind_need p)); try apply Hs; [done|simpl; lia|]|].
  { intros a Hin. by apply not_elem_of_nil in Hin. }
  intros b s1 (l & d & -> & Hff & HbF & Hd & Hl & Hdid & HV & Hbits & Hav' & Hcnt).
  destruct (grow_direct (fs_geo _ _ _ Hs) (view s) (view (set_log l s)) p b d (fs_bits _ _ _ Hs) Hff Hf Hd Hl (Z.to_nat bn) HV)
    as (Hgr & Hfo & Hadd); [unfold NDIRECT in Hbn; lia|done|].
  set (p' := set_addrs _ p) in *.
  eapply wp_upd_inode; [apply Hs|]. apply wp_ret. exists p', (alloc_writes (fs_sb s) b d).
  assert (ind p' = ind p) as Ei by (apply nth_insert_ne; unfold NDIRECT in Hbn; lia).
  assert (addr_of p' (view (set_log l s)) bn = b) as Eb.
  { pose proof (direct_slot p' (view (set_log l s)) bn (fo_len _ _ _ Hfo) Hbn) as Hsl. simpl in Hsl.
    rewrite list_lookup_insert_eq in Hsl by (unfold NDIRECT in Hbn; lia). congruence. }
  split_and!.
  - by exists l.
  - done.
  - by eapply (free_nonzero (fs_geo _ _ _ Hs)); [apply Hs|].
  - done.
  - exact Hgr.
  - by eapply fstate_after.
  - unfold ind_need. rewrite Ei. exact Hav'.
  - intros _. by right.
  - by eapply only_added_in.
  - congruence.
  - unfold ind_need. rewrite Ei. by apply one_taken.
Qed.

(** The part of [bmap] from the indirect block on. *)
Definition ind_tail (dev addr bn : Z) : M fss Z :=
  bp <- blk (bread dev addr) ;;
  d <- blk (bdata bp) ;;
  addr <- (if word bn d =? 0 then
             addr <- balloc dev ;;
             blk (bset_data bp (put32 (4 * bn) addr d)) ;;;
             on_log (log_write bp) ;;;
             ret addr
           else ret (word bn d)) ;;
  blk (brelse bp) ;;;
  ret addr.

Lemma bmap_word s i p bn c : fstate s i p -> NDIRECT <= bn < MAXFILE -> ind p <> 0 -> ind p ∈ F ->
  addr_of p (view s) bn = 0 -> avail F (view s) (fs_sb s) (S c) ->
  wp (ind_tail ROOTDEV (ind p) (bn - NDIRECT)) (bmap_new s i p bn c) s.
Proof.
  intros Hs Hbn Hi HiF Ha Hav. pose proof (fs_file _ _ _ Hs) as Hf. pose proof (fo_len _ _ _ Hf) as Hlen.
  pose proof (ind_block _ _ _ Hf Hi) as Hib. pose proof (file_data_ok _ _ _ _ Hs Hib) as Hiok.
  destruct (fstate_view _ _ _ Hs _ Hiok) as (di & Hdi & Hldi). destruct (fo_data _ _ _ Hf _ Hib) as [Hir Hibit].
  pose proof (ind_slot p (view s) bn Hlen Hbn Hi di Hdi) as Hw. rewrite Ha in Hw. unfold ind_tail.
  eapply fs_bread; [apply Hs|done|by apply not_elem_of_nil|simpl; lia|]. intros bp l1 H1.
  pose proof (did_view_nil _ _ _ _ H1) as HV1.
  eapply (fs_bdata _ _ _ [(bp, ind p)]); [apply H1|left|by rewrite HV1|].
  rewrite <-Hw, Z.eqb_refl. apply wp_bind, wp_bind.
  eapply wp_mono; [apply (balloc_avail (set_log l1 s) [(bp, ind p)] c); simpl; try apply H1|].
  - eapply did_geom; [exact H1|apply Hs].
  - intros x Hx Hb. apply (fs_bits _ _ _ Hs x Hx). unfold bit in *. by rewrite HV1 in Hb.
  - eapply avail_ext; [|exact Hav]. intros x Hx. unfold bit. by rewrite HV1.
  - apply Hs.
  - lia.
  - intros a ->%list_elem_of_singleton. split; [lia|]. unfold bit in *. by rewrite HV1.
  - intros b s2 (l2 & d & -> & Hff & HbF & Hd & Hl & H2 & HV2 & Hbits2 & Hav2 & Hcnt). simpl in *. rewrite set_set_log in *.
    assert (forall n, view (set_log l2 s) n = overlay (alloc_writes (fs_sb s) b d) (view s) n) as HV2'.
    { intros n. rewrite HV2. apply (overlay_ext (alloc_writes (fs_sb s) b d)). exact (HV1 n). }
    assert (first_free (view s) (fs_sb s) b) as Hff' by (eapply first_free_ext; [|exact Hff]; intros n; by rewrite HV1).
    rewrite HV1 in Hd.
    destruct (old_block (fs_geo _ _ _ Hs) (view s) p b (fs_bits _ _ _ Hs) Hff' Hf _ Hib) as [Hne1 Hne2].
    eapply (fs_write _ _ _ [(bp, ind p)]); [apply H2|left|eapply did_data_ok; [exact H2|eapply did_data_ok; [exact H1|done]]|done| |].
    { rewrite length_put32; [done|unfold NDIRECT in *; lia|]. rewrite Hldi. unfold MAXFILE, NDIRECT, NINDIRECT, BSIZE in *. lia. }
    intros l3 H3. simpl in H3. apply wp_ret. eapply fs_brelse; [apply H3|]. intros l4 H4. simpl in H4.
    rewrite !set_set_log. apply wp_ret.
    set (dj := put32 (4 * (bn - NDIRECT)) b di) in *.
    assert (did F [] (fs_log s) l4 (alloc_writes (fs_sb s) b d ++ [(ind p, dj)])) as Hall.
    { eapply did_app; [exact H1| |reflexivity].
      eapply did_app; [exact H2|eapply did_app; [exact H3|exact H4|reflexivity]|reflexivity]. }
    pose proof (fun n => did_view_eq _ _ _ _ n Hall) as HV4.
    assert (Z.of_nat (Z.to_nat (bn - NDIRECT)) = bn - NDIRECT) as Ej by (unfold NDIRECT in *; lia).
    destruct (grow_word (fs_geo _ _ _ Hs) (view s) (view (set_log l4 s)) p b d (fs_bits _ _ _ Hs) Hff' Hf Hd Hl
      (Z.to_nat (bn - NDIRECT)) di) as (Hgr & Hfo & Hadd); rewrite ?Ej; try done.
    { unfold MAXFILE, NDIRECT, NINDIRECT in *. lia. }
    assert (forall c, 0 <= c < sb_size (fs_sb s) -> bit (view (set_log l4 s)) (fs_sb s) c = bit (view (set_log l2 s)) (fs_sb s) c) as Hb42.
    { intros x Hx. unfold bit. rewrite HV4, HV2', overlay_snoc. pose proof (bblock_range (fs_geo _ _ _ Hs) x Hx).
      by rewrite (proj2 (Z.eqb_neq _ _)) by lia. }
    pose proof (free_nonzero (fs_geo _ _ _ Hs) (view s) b (fs_bits _ _ _ Hs) Hff') as Hb0.
    assert (put_inode i p (set_log l4 s) = set_log l4 s) as Eput by (apply put_inode_id; apply Hs).
    exists p, (alloc_writes (fs_sb s) b d ++ [(ind p, dj)]). split_and!; try done.
    + exists l4. by rewrite Eput.
    + rewrite (ind_slot p _ bn Hlen Hbn Hi dj); [|rewrite HV4, overlay_snoc, Z.eqb_refl; done].
      unfold word, dj. rewrite get32_put32_same by (rewrite ?Hldi; unfold MAXFILE, NDIRECT, NINDIRECT, BSIZE in *; lia).
      pose proof Hff' as (Hbr & _). pose proof (fg_size _ _ (fs_geo _ _ _ Hs)). pose proof (fg_max _ _ (fs_geo _ _ _ Hs)).
      rewrite u32_small by lia. done.
    + eapply (fstate_after s _ i p p l4); [done|exact Hall|by rewrite Eput| |done|done].
      intros x Hx Hbx. rewrite Hb42 in Hbx by done. by apply Hbits2.
    + unfold ind_need. rewrite (proj2 (Z.eqb_neq _ _)) by done. rewrite Nat.add_0_r.
      eapply avail_ext; [exact Hb42|exact Hav2].
    + intros _. by right.
    + by eapply only_added_in.
    + rewrite (free_list_ext _ _ _ Hb42), <-(free_list_ext (view s) (view (set_log l1 s))); [lia|].
      intros x _. unfold bit. by rewrite HV1.
Qed.

Lemma moved_trans i s s1 s2 p1 p2 ws1 ws2 :
  moved i s s1 p1 ws1 -> moved i s1 s2 p2 ws2 -> moved i s s2 p2 (ws1 ++ ws2).
Proof.
  intros (l1 & -> & H1) (l2 & -> & H2). exists l2. simpl in H2. split.
  - unfold put_inode, set_icache, set_log. simpl. by rewrite list_insert_insert_eq.
  - by eapply did_trans.
Qed.

Lemma bmap_indirect s i p bn c : fstate s i p -> NDIRECT <= bn < MAXFILE -> addr_of p (view s) bn = 0 ->
  (ind p <> 0 -> ind p ∈ F) -> avail F (view s) (fs_sb s) (S c + ind_need p) -> wp (bmap i bn) (bmap_new s i p bn c) s.
Proof.
  intros Hs Hbn Ha HiF Hav. pose proof (fs_file _ _ _ Hs) as Hf. pose proof (fo_len _ _ _ Hf) as Hlen. unfold bmap.
  eapply wp_get_inode; [apply Hs|]. rewrite (proj2 (Z.ltb_ge _ _)) by lia.
  rewrite (proj2 (Z.ltb_lt _ _)) by (unfold MAXFILE in Hbn; lia).
  apply wp_bind. eapply wp_deref; [by apply ind_lookup|]. rewrite (fs_dev _ _ _ Hs).
  destruct (Z.eqb_spec (ind p) 0) as [Hi|Hi].
  - apply wp_bind, wp_bind. unfold ind_need in Hav. rewrite Hi in Hav. simpl in Hav. rewrite Nat.add_comm in Hav.
    eapply wp_mono; [apply (balloc_avail s [] (S c)); try apply Hs; [done|simpl; lia|]|].
    { intros a Hin. by apply not_elem_of_nil in Hin. }
    intros b s1 (l & d & -> & Hff & HbF & Hd & Hl & Hdid & HV & Hbits & Hav' & Hcnt).
    destruct (grow_ind (fs_geo _ _ _ Hs) (view s) (view (set_log l s)) p b d (fs_bits _ _ _ Hs) Hff Hf Hd Hl HV Hi)
      as (Hgr & Hfo & Hz & Hsame).
    set (p1 := set_addrs _ p) in *. pose proof (free_nonzero (fs_geo _ _ _ Hs) (view s) b (fs_bits _ _ _ Hs) Hff) as Hb0.
    assert (ind p1 = b) as Ei by (apply nth_insert_eq; lia).
    eapply wp_upd_inode; [apply Hs|]. apply wp_ret. change (Z.to_nat NDIRECT) with 12%nat. fold p1.
    assert (fstate (put_inode i p1 (set_log l s)) i p1) as Hs1 by (by eapply fstate_after).
    assert (addr_of p1 (view (set_log l s)) bn = 0) as Ha1.
    { rewrite (ind_slot p1 _ bn (fo_len _ _ _ Hfo) Hbn ltac:(congruence) zero_block) by (by rewrite Ei).
      unfold word, get32, slice, zero_block. rewrite drop_replicate, take_replicate.
      rewrite Nat.min_l by (unfold MAXFILE, NDIRECT, NINDIRECT, BSIZE in *; lia). done. }
    assert (moved i s (put_inode i p1 (set_log l s)) p1 (alloc_writes (fs_sb s) b d)) as Hm1 by (by exists l).
    rewrite <-Ei. eapply wp_mono; [apply (bmap_word _ i p1 bn c Hs1); try done; congruence|].
    intros a s2 (p2 & ws2 & Hm2 & Ea & Han & HaF & Hgr2 & Hs2 & Hav2 & Hi2 & Hadd2 & _ & Hcnt2). simpl in *.
    exists p2, (alloc_writes (fs_sb s) b d ++ ws2). split_and!; try done.
    + by eapply moved_trans.
    + by eapply grew_trans.
    + intros Hi2'. left. destruct (Hi2 Hi2') as [?| ->]; [done|]. by rewrite Ei.
    + intros bn' Hbn' H0 H1. apply Hadd2; [done| |done]. rewrite <-H0. by apply Hsame.
    + unfold ind_need at 2 in Hcnt2. rewrite Ei, (proj2 (Z.eqb_neq b 0)) in Hcnt2 by done.
      eapply two_taken; [exact Hcnt|exact Hcnt2|unfold ind_need; by rewrite Hi].
  - apply wp_bind, wp_ret. eapply wp_mono; [apply (bmap_word _ i p bn c Hs); try done; [by apply HiF|]|done].
    unfold ind_need in Hav. rewrite (proj2 (Z.eqb_neq _ _)) in Hav by done. by rewrite Nat.add_0_r in Hav.
Qed.
End files.
