(* ===== verification/FsRw.v ===== *)
(** * Reading and writing files (readi and writei of fs.c)

    The bytes of a file, and the loops of [readi] and [writei] over its blocks. *)

From S2P Require Import Prelude Bytes Bio Log Recovery CStr Fs FsBlocks FsFile.

(** Byte [k] of the contents. *)
Definition byte_at (p : inode) (V : Z -> option (list Z)) (k : Z) : Z :=
  nth (Z.to_nat (k mod 512)) (block_at p V (k / 512)) 0.
(** The contents: as many bytes as the inode's size says. *)
Definition contents (p : inode) (V : Z -> option (list Z)) : list Z :=
  map (byte_at p V) (seqZ 0 (i_size p)).

(** ** Storing into a block of the file *)

Section store.
Context {sb : superblock} {s : logst} (Hg : fs_geom sb s) (V V' : Z -> option (list Z)) (p : inode) (bn : Z) (v : list Z).
Hypothesis Hf : file_ok sb V p.
Hypothesis Hbn : 0 <= bn < MAXFILE.
Hypothesis Ha : addr_of p V bn <> 0.
Hypothesis HV' : forall n, V' n = if n =? addr_of p V bn then Some v else V n.

Lemma store_other n : n <> addr_of p V bn -> V' n = V n.
Proof using HV'. clear -HV'. intros Hn. by rewrite HV', (proj2 (Z.eqb_neq _ _)). Qed.

Lemma store_slots : slots p V' = slots p V.
Proof using Hf Hbn Ha HV'.
  unfold slots, ind_words. destruct (ind p =? 0); [done|]. rewrite store_other; [done|].
  apply not_eq_sym. eapply addr_ne_ind; [done|lia|done].
Qed.

Lemma store_addr bn' : addr_of p V' bn' = addr_of p V bn'.
Proof using Hf Hbn Ha HV'. unfold addr_of. by rewrite store_slots. Qed.

Lemma store_bit c : 0 <= c < sb_size sb -> bit V' sb c = bit V sb c.
Proof using Hg Hf Hbn Ha HV'.
  intros Hc. unfold bit. rewrite store_other; [done|]. pose proof (bblock_range Hg c Hc).
  destruct (fo_data _ _ _ Hf _ (addr_block _ _ _ Ha)). lia.
Qed.

Lemma store_file : file_ok sb V' p.
Proof using Hg Hf Hbn Ha HV'.
  pose proof Hf as [H1 H2 H3]. split; [done|unfold blocks_of; by rewrite store_slots|].
  unfold blocks_of. rewrite store_slots. intros a Hin. destruct (H3 a Hin) as [Hr Hb]. split; [done|].
  rewrite store_bit; [done|]. pose proof (fg_start _ _ Hg). pose proof (fg_inodes _ _ Hg) as [? ?].
  assert (0 <= sb_ninodes sb / IPB) by (apply Z.div_pos; unfold IPB; lia). pose proof (fg_size _ _ Hg).
  assert (0 <= sb_size sb / BPB) by (apply Z.div_pos; unfold BPB; lia). unfold data_start in Hr. lia.
Qed.

Lemma store_evolved : evolved sb p V p V'.
Proof using Hg Hf Hbn Ha HV'.
  pose proof (fo_data _ _ _ Hf _ (addr_block _ _ _ Ha)) as [Hr _].
  pose proof (fg_start _ _ Hg). pose proof (fg_inodes _ _ Hg) as [? ?].
  assert (0 <= sb_ninodes sb / IPB) by (apply Z.div_pos; unfold IPB; lia). pose proof (fg_size _ _ Hg).
  assert (0 <= sb_size sb / BPB) by (apply Z.div_pos; unfold BPB; lia).
  split.
  - by rewrite set_addrs_id.
  - intros. by rewrite store_addr.
  - intros n Hn Hb Hnot. apply store_other. intros ->. by apply Hnot, addr_block.
  - intros n Hn. apply store_other. unfold data_start in Hr. lia.
  - intros n Hn Hb. rewrite store_bit; [done|]. unfold data_start in Hn. lia.
  - unfold blocks_of. by rewrite store_slots.
  - unfold blocks_of. rewrite store_slots. by left.
Qed.

Lemma store_block bn' : 0 <= bn' -> block_at p V' bn' = if decide (bn' = bn) then v else block_at p V bn'.
Proof using Hf Hbn Ha HV'.
  intros Hbn'. unfold block_at. rewrite store_addr. case_decide as D.
  - subst. rewrite (proj2 (Z.eqb_neq _ _)) by done. by rewrite HV', Z.eqb_refl.
  - destruct (Z.eqb_spec (addr_of p V bn') 0) as [|Ha']; [done|]. rewrite store_other; [done|].
    intros E. apply D. eapply addr_inj; [done|lia|lia|done|done].
Qed.
End store.

Lemma nth_splice_in (o : nat) (cs l : list Z) i : (o + length cs <= length l)%nat -> (o <= i < o + length cs)%nat ->
  nth i (splice o cs l) 0 = nth (i - o) cs 0.
Proof. intros. rewrite !nth_lookup. by rewrite lookup_splice_in by lia. Qed.
Lemma nth_splice_out (o : nat) (cs l : list Z) i : (o + length cs <= length l)%nat -> (i < o \/ o + length cs <= i)%nat ->
  nth i (splice o cs l) 0 = nth i l 0.
Proof. intros. rewrite !nth_lookup. by rewrite lookup_splice_out by lia. Qed.

(** What a change of one block means for the bytes. *)
Lemma byte_splice p V V' off cs d : 0 <= off -> off mod 512 + Z.of_nat (length cs) <= 512 -> length d = 512%nat ->
  block_at p V (off / 512) = d ->
  (forall bn', 0 <= bn' -> block_at p V' bn' = if decide (bn' = off / 512) then splice (Z.to_nat (off mod 512)) cs d else block_at p V bn') ->
  forall k, 0 <= k -> byte_at p V' k =
    if decide (off <= k < off + Z.of_nat (length cs)) then nth (Z.to_nat (k - off)) cs 0 else byte_at p V k.
Proof.
  intros Ho Hm Hl Hd HV k Hk. unfold byte_at. rewrite HV by (apply Z.div_pos; lia).
  pose proof (Z.div_mod off 512 ltac:(lia)) as Eo. pose proof (Z.div_mod k 512 ltac:(lia)) as Ek.
  pose proof (Z.mod_pos_bound off 512 ltac:(lia)). pose proof (Z.mod_pos_bound k 512 ltac:(lia)).
  case_decide as D1; case_decide as D2.
  - rewrite nth_splice_in by (rewrite ?Hl; lia). f_equal. lia.
  - rewrite nth_splice_out by (rewrite ?Hl; lia). by rewrite D1, Hd.
  - exfalso. apply D1. lia.
  - done.
Qed.

(** ** The loops *)

(** The number of blocks that [n] bytes from [off] on touch. *)
Definition nblk (off n : Z) : nat := if n <=? 0 then 0 else Z.to_nat ((off + n - 1) / 512 - off / 512 + 1).
(** The length of one round. *)
Definition chunk (off n : Z) : Z := Z.min n (512 - off mod 512).

Section chunk.
Context (off n : Z) (Ho : 0 <= off) (Hn : 0 < n).

Lemma chunk_range : 0 < chunk off n <= n /\ off mod 512 + chunk off n <= 512.
Proof using Hn. unfold chunk. pose proof (Z.mod_pos_bound off 512 ltac:(lia)). lia. Qed.

Lemma nblk_pos : nblk off n <> 0%nat.
Proof using Hn.
  unfold nblk. rewrite (proj2 (Z.leb_gt _ _)) by lia.
  assert (off / 512 <= (off + n - 1) / 512) by (apply Z.div_le_mono; lia). lia.
Qed.

Lemma nblk_step : S (nblk (off + chunk off n) (n - chunk off n)) = nblk off n.
Proof using Ho Hn.
  unfold nblk, chunk. pose proof (Z.mod_pos_bound off 512 ltac:(lia)). pose proof (Z.div_mod off 512 ltac:(lia)) as E.
  rewrite (proj2 (Z.leb_gt n 0)) by lia. destruct (Z.le_gt_cases n (512 - off mod 512)) as [Hc|Hc].
  - rewrite Z.min_l, Z.sub_diag by done. change (0 <=? 0) with true. cbv iota.
    replace ((off + n - 1) / 512) with (off / 512); [lia|].
    apply (Z.div_unique _ _ _ (off mod 512 + n - 1)); lia.
  - rewrite Z.min_r by lia. rewrite (proj2 (Z.leb_gt _ _)) by lia.
    replace (off + (512 - off mod 512)) with ((off / 512 + 1) * 512) by lia. rewrite Z.div_mul by lia.
    replace ((off / 512 + 1) * 512 + (n - (512 - off mod 512)) - 1) with (off + n - 1) by lia.
    assert (off / 512 + 1 <= (off + n - 1) / 512) by (apply Z.div_le_lower_bound; lia). lia.
Qed.
End chunk.

Lemma seqZ_chunk off n m : 0 <= m <= n -> seqZ off n = seqZ off m ++ seqZ (off + m) (n - m).
Proof. intros. rewrite <-seqZ_app by lia. f_equal. lia. Qed.

Lemma slice_bytes p V off m : 0 <= off -> 0 <= m -> off mod 512 + m <= 512 -> length (block_at p V (off / 512)) = 512%nat ->
  slice (Z.to_nat (off mod 512)) (Z.to_nat m) (block_at p V (off / 512)) = map (byte_at p V) (seqZ off m).
Proof.
  intros Ho Hm Hr Hl. pose proof (Z.mod_pos_bound off 512 ltac:(lia)). pose proof (Z.div_mod off 512 ltac:(lia)).
  apply list_eq_same_length with (Z.to_nat m).
  - by rewrite length_map, length_seqZ.
  - by rewrite length_slice by (rewrite Hl; lia).
  - intros j x y Hj. rewrite lookup_slice by done. rewrite list_lookup_fmap, (proj2 (lookup_seqZ off m j (off + Z.of_nat j))) by lia.
    simpl. intros Hx [= <-]. unfold byte_at.
    assert ((off + Z.of_nat j) / 512 = off / 512) as ->.
    { symmetry. apply (Z.div_unique _ _ _ (off mod 512 + Z.of_nat j)); lia. }
    assert ((off + Z.of_nat j) mod 512 = off mod 512 + Z.of_nat j) as ->.
    { symmetry. apply (Z.mod_unique _ _ (off / 512)); lia. }
    rewrite nth_lookup. replace (Z.to_nat (off mod 512 + Z.of_nat j)) with (Z.to_nat (off mod 512) + j)%nat by lia.
    by rewrite Hx.
Qed.

Section rw.
Context (F : gset Z).

Lemma block_view s i p bn : fstate F s i p -> addr_of p (view s) bn <> 0 ->
  view s (addr_of p (view s) bn) = Some (block_at p (view s) bn) /\ length (block_at p (view s) bn) = 512%nat /\
  data_ok (fs_log s) (addr_of p (view s) bn).
Proof.
  intros Hs Ha. pose proof (file_data_ok _ _ _ _ _ Hs (addr_block _ _ _ Ha)) as Hok.
  destruct (fstate_view _ _ _ _ Hs _ Hok) as (d & Hd & Hl). unfold block_at.
  rewrite (proj2 (Z.eqb_neq _ _)), Hd by done. done.
Qed.

Lemma fstate_did s i p l : fstate F s i p -> did F [] (fs_log s) l [] -> fstate F (set_log l s) i p.
Proof.
  intros Hs Hd. pose proof (did_view_nil _ _ _ _ Hd) as HV.
  apply (fstate_after F s (set_log l s) i p p l []);
    [done|exact Hd|symmetry; apply put_inode_id, Hs| | |done].
  - intros c Hc Hb. apply (fs_bits _ _ _ _ Hs c Hc). unfold bit in *. by rewrite <-HV.
  - destruct (fs_file _ _ _ _ Hs) as [H1 H2 H3].
    assert (slots p (view (set_log l s)) = slots p (view s)) as E by (unfold slots, ind_words; by rewrite HV).
    split; [done|unfold blocks_of; by rewrite E|]. intros a. unfold blocks_of. rewrite E. intros Ha.
    destruct (H3 a Ha). split; [done|]. unfold bit in *. by rewrite HV.
Qed.

Lemma byte_at_ext p V V' k : (forall n, V' n = V n) -> byte_at p V' k = byte_at p V k.
Proof.
  intros HV. unfold byte_at, block_at.
  assert (slots p V' = slots p V) as E by (unfold slots, ind_words; by rewrite HV).
  unfold addr_of. rewrite E. by rewrite HV.
Qed.

Lemma addr_of_ext p V V' bn : (forall n, V' n = V n) -> addr_of p V' bn = addr_of p V bn.
Proof. intros HV. unfold addr_of. assert (slots p V' = slots p V) as -> by (unfold slots, ind_words; by rewrite HV). done. Qed.

Lemma readi_loop_spec i p : forall fuel tot n off dst s,
  fstate F s i p -> 0 <= off -> 0 <= tot <= n -> off + (n - tot) <= MAXFILE * 512 ->
  (forall bn, off / 512 <= bn -> 512 * bn < off + (n - tot) -> addr_of p (view s) bn <> 0) ->
  (Z.to_nat (n - tot) < fuel)%nat ->
  wp (readi_loop fuel i tot n off dst) (fun r s' =>
    r = dst ++ map (byte_at p (view s)) (seqZ off (n - tot)) /\
    exists l, s' = set_log l s /\ did F [] (fs_log s) l []) s.
Proof.
  induction fuel as [|fuel IH]; intros tot n off dst s Hs Ho Ht Hm Haddr Hf; [lia|]. cbn [readi_loop].
  destruct (Z.ltb_spec tot n) as [Hlt|Hge].
  2:{ apply wp_ret. replace (n - tot) with 0 by lia. rewrite seqZ_nil, app_nil_r by lia. split; [done|].
      exists (fs_log s). split; [by rewrite set_log_id|]. apply did_refl, Hs. }
  change (Z.of_nat BSIZE) with 512. pose proof (chunk_range off (n - tot) ltac:(lia)) as [Hc1 Hc2].
  pose proof (Z.mod_pos_bound off 512 ltac:(lia)). pose proof (Z.div_mod off 512 ltac:(lia)).
  assert (0 <= off / 512 < MAXFILE) as Hbn.
  { split; [apply Z.div_pos; lia|]. apply Z.div_lt_upper_bound; lia. }
  pose proof (Haddr (off / 512) ltac:(lia) ltac:(lia)) as Ha.
  destruct (block_view _ _ _ _ Hs Ha) as (Hv & Hl & Hok).
  eapply wp_get_inode; [apply Hs|]. apply wp_bind.
  eapply wp_mono; [apply (bmap_found F s i p (off / 512) Hs Hbn Ha)|].
  intros a s1 (-> & l1 & -> & H1). pose proof (did_view_nil _ _ _ _ H1) as HV1. rewrite (fs_dev _ _ _ _ Hs).
  eapply fs_bread; [apply H1|by eapply did_data_ok|by apply not_elem_of_nil|simpl; lia|].
  intros bp l2 H2. simpl in H2. cbv zeta. pose proof (did_trans _ _ _ _ _ _ _ _ H1 H2) as H12.
  rewrite set_set_log. pose proof (did_view_nil _ _ _ _ H12) as HV2.
  eapply (fs_bdata _ _ _ [(bp, addr_of p (view s) (off / 512))]); [apply H2|left|rewrite HV2; exact Hv|].
  eapply fs_brelse; [apply H2|]. intros l3 H3. simpl in H3. rewrite set_set_log.
  pose proof (did_trans _ _ _ _ _ _ _ _ H12 H3) as H123. pose proof (did_view_nil _ _ _ _ H123) as HV3.
  change (Z.min (n - tot) (512 - off mod 512)) with (chunk off (n - tot)).
  set (m := chunk off (n - tot)) in *.
  eapply wp_mono; [apply (IH (tot + m) n (off + m) _ (set_log l3 s)); [by apply fstate_did|lia|lia|lia| |lia]|].
  - intros bn Hb1 Hb2. rewrite (addr_of_ext p (view s)) by done. apply Haddr; [|lia].
    etransitivity; [|exact Hb1]. apply Z.div_le_mono; lia.
  - intros r s' (-> & l & -> & Hd). simpl in Hd. rewrite set_set_log. split; [|].
    + rewrite (slice_bytes p (view s) off m) by (done || lia). rewrite <-app_assoc.
      rewrite (seqZ_chunk off (n - tot) m) by lia. replace (n - (tot + m)) with (n - tot - m) by lia.
      rewrite !map_app. do 2 f_equal. apply map_ext. intros k. by apply byte_at_ext.
    + exists l. split; [done|]. eapply did_app; [exact H123|exact Hd|done].
Qed.

(** [bmap] for a block that the transaction may write. *)
Lemma bmap_get s i p bn c : fstate F s i p -> 0 <= bn < MAXFILE ->
  (ind p <> 0 -> ind p ∈ F) -> (addr_of p (view s) bn <> 0 -> addr_of p (view s) bn ∈ F) ->
  avail F (view s) (fs_sb s) (S c + ind_need p) -> wp (bmap i bn) (bmap_new F s i p bn c) s.
Proof.
  intros Hs Hbn HiF HaF Hav. destruct (decide (addr_of p (view s) bn = 0)) as [Ha|Ha].
  - destruct (Z.lt_ge_cases bn NDIRECT); [apply bmap_direct|apply bmap_indirect]; (done || lia).
  - eapply wp_mono; [by apply (bmap_found F s i p bn)|]. intros a s' (-> & l & -> & Hd).
    pose proof (did_view_nil _ _ _ _ Hd) as HV. exists p, []. split_and!.
    + exists l. split; [symmetry; apply put_inode_id, Hs|done].
    + symmetry. by apply addr_of_ext.
    + done.
    + by apply HaF.
    + split; [split|].
      * by rewrite set_addrs_id.
      * intros. by apply addr_of_ext.
      * intros n _ _ _. apply HV.
      * intros n _. apply HV.
      * intros n _ Hb. unfold bit in *. by rewrite HV.
      * unfold blocks_of, slots, ind_words. by rewrite HV.
      * unfold blocks_of, slots, ind_words. rewrite HV. by left.
      * intros bn' _. unfold block_at. rewrite (addr_of_ext p (view s)), HV by done. done.
    + by apply fstate_did.
    + eapply avail_ext; [|eapply avail_le; [exact Hav|lia]]. intros b _. unfold bit. by rewrite HV.
    + intros _. by right.
    + intros bn' _ H0 H1. rewrite (addr_of_ext p (view s)) in H1 by done. done.
    + done.
    + rewrite (free_list_ext (view s) (view (set_log l s))); [lia|]. intros b _. unfold bit. by rewrite HV.
Qed.

Record wrote_bytes (sb : superblock) (p : inode) (V : Z -> option (list Z)) (p' : inode) (V' : Z -> option (list Z))
    (off : Z) (bs : list Z) : Prop := {
  wb_ev : evolved sb p V p' V';
  wb_bytes : forall k, 0 <= k < MAXFILE * 512 -> byte_at p' V' k =
    if decide (off <= k < off + Z.of_nat (length bs)) then nth (Z.to_nat (k - off)) bs 0 else byte_at p V k;
  wb_have : forall k, off <= k < off + Z.of_nat (length bs) -> addr_of p' V' (k / 512) <> 0
}.

Lemma div_512 k : 0 <= k < MAXFILE * 512 -> 0 <= k / 512 < MAXFILE.
Proof. intros. split; [apply Z.div_pos; lia|apply Z.div_lt_upper_bound; lia]. Qed.

Lemma wrote_trans sb p V p1 V1 p2 V2 off a b : 0 <= off -> off + Z.of_nat (length a + length b) <= MAXFILE * 512 ->
  wrote_bytes sb p V p1 V1 off a -> wrote_bytes sb p1 V1 p2 V2 (off + Z.of_nat (length a)) b ->
  wrote_bytes sb p V p2 V2 off (a ++ b).
Proof.
  intros Ho Hm [A1 A2 A3] [B1 B2 B3]. split.
  - by eapply evolved_trans.
  - intros k Hk. rewrite B2, A2 by done. rewrite length_app. repeat case_decide; try lia; try done.
    + rewrite app_nth2 by lia. f_equal. lia.
    + rewrite app_nth1 by lia. done.
  - intros k Hk. rewrite length_app in Hk. destruct (Z.lt_ge_cases k (off + Z.of_nat (length a))) as [Hlt|Hge].
    + rewrite (ev_addr _ _ _ _ _ B1); [apply A3; lia|apply div_512; lia|apply A3; lia].
    + apply B3. lia.
Qed.

Lemma wrote_nil sb p V off : wrote_bytes sb p V p V off [].
Proof. split; [apply evolved_refl| |simpl; lia]. intros k _. rewrite decide_False by (simpl; lia). done. Qed.

(** One round: the block that [bmap] gave gets its new bytes. *)
Lemma write_block s i p a cs off : let bn := off / 512 in
  fstate F s i p -> 0 <= off -> off + Z.of_nat (length cs) <= MAXFILE * 512 -> off mod 512 + Z.of_nat (length cs) <= 512 ->
  (length cs <> 0)%nat -> a = addr_of p (view s) bn -> a <> 0 -> a ∈ F ->
  wp (bp <- blk (bread ROOTDEV a) ;; d <- blk (bdata bp) ;;
      blk (bset_data bp (splice (Z.to_nat (off mod 512)) cs d)) ;;;
      on_log (log_write bp) ;;; blk (brelse bp))
    (fun _ s' => exists ws, moved F i s s' p ws /\ fstate F s' i p /\
       wrote_bytes (fs_sb s) p (view s) p (view s') off cs /\
       (forall b, 0 <= b < sb_size (fs_sb s) -> bit (view s') (fs_sb s) b = bit (view s) (fs_sb s) b) /\
       (forall bn, addr_of p (view s') bn = addr_of p (view s) bn)) s.
Proof.
  intros bn Hs Ho Hm Hc Hcs -> Ha HaF. pose proof (Z.mod_pos_bound off 512 ltac:(lia)) as Hmod.
  destruct (block_view _ _ _ _ Hs Ha) as (Hv & Hl & Hok). pose proof (fs_geo _ _ _ _ Hs) as Hg.
  assert (0 <= bn < MAXFILE) as Hbn by (apply div_512; lia).
  eapply fs_bread; [apply Hs|done|by apply not_elem_of_nil|simpl; lia|]. intros bp l1 H1.
  eapply (fs_bdata _ _ _ [(bp, addr_of p (view s) bn)]); [apply H1|left|by rewrite (did_view_nil _ _ _ _ H1)|].
  set (v := splice _ cs _).
  assert (length v = BSIZE) as Hlv by (unfold v; rewrite length_splice; [done|rewrite Hl; lia]).
  eapply (fs_write _ _ _ [(bp, addr_of p (view s) bn)]); [apply H1|left|by eapply did_data_ok|done|done|].
  intros l2 H2. simpl in H2. eapply fs_brelse_last; [apply H2|]. intros l3 H3. simpl in H3. rewrite !set_set_log.
  assert (did F [] (fs_log s) l3 [(addr_of p (view s) bn, v)]) as Hd.
  { eapply did_app; [exact H1| |reflexivity]. eapply did_app; [exact H2|exact H3|reflexivity]. }
  assert (forall n, view (set_log l3 s) n = if n =? addr_of p (view s) bn then Some v else view s n) as HV.
  { intros n. by rewrite (did_view_eq _ _ _ _ _ _ Hd). }
  pose proof (fs_file _ _ _ _ Hs) as Hf.
  pose proof (store_bit Hg (view s) _ p bn v Hf Hbn Ha HV) as Hbit.
  eexists. split; [exists l3; split; [symmetry; apply put_inode_id, Hs|exact Hd]|]. split_and!.
  - apply (fstate_after F s (set_log l3 s) i p p l3 [(addr_of p (view s) bn, v)]); try done;
      [symmetry; apply put_inode_id, Hs| |by apply (store_file Hg (view s) _ p bn v)].
    intros b Hb Hb'. rewrite Hbit in Hb' by done. by apply (fs_bits _ _ _ _ Hs).
  - split.
    + by apply (store_evolved Hg (view s) _ p bn v).
    + intros k Hk. apply (byte_splice p (view s) _ off cs (block_at p (view s) bn)); try done; [|lia].
      intros bn' Hbn'. by apply (store_block (sb := fs_sb s) (view s) _ p bn v).
    + intros k Hk. rewrite (store_addr (sb := fs_sb s) (view s) _ p bn v) by done.
      pose proof (Z.div_mod off 512 ltac:(lia)).
      assert (k / 512 = bn) as ->; [|done]. symmetry. apply (Z.div_unique _ _ _ (k - 512 * bn)); unfold bn; lia.
  - done.
  - intros bn'. by apply (store_addr (sb := fs_sb s) (view s) _ p bn v).
Qed.

Lemma wp_block_then {A B C} (X : M fss A) (Y : A -> M fss B) (W : A -> B -> M fss unit) (L R : A -> M fss unit)
    (K : M fss C) Q s :
  wp (bp <- X ;; d <- Y bp ;; W bp d ;;; L bp ;;; R bp) (fun _ s' => wp K Q s') s ->
  wp (bp <- X ;; d <- Y bp ;; W bp d ;;; L bp ;;; R bp ;;; K) Q s.
Proof.
  unfold wp, bind. destruct (X s) as [a s1| | | |]; try done. destruct (Y a s1) as [b s2| | | |]; try done.
  destruct (W a b s2) as [? s3| | | |]; try done. destruct (L a s3) as [? s4| | | |]; try done. by destruct (R a s4).
Qed.

Lemma grew_wrote sb p V p1 V1 p2 V2 off cs :
  grew sb p V p1 V1 -> wrote_bytes sb p1 V1 p2 V2 off cs -> wrote_bytes sb p V p2 V2 off cs.
Proof.
  intros [E1 S1] [E2 B2 H2]. split; [by eapply evolved_trans| |done].
  intros k Hk. rewrite B2 by done. case_decide; [done|]. unfold byte_at. rewrite S1 by (by apply div_512). done.
Qed.

Lemma writei_loop_spec i : forall fuel tot n off src s p,
  fstate F s i p -> 0 <= off -> 0 <= tot <= n -> off + (n - tot) <= MAXFILE * 512 ->
  n - tot <= Z.of_nat (length src) -> (ind p <> 0 -> ind p ∈ F) ->
  (forall k, off <= k < off + (n - tot) -> addr_of p (view s) (k / 512) <> 0 -> addr_of p (view s) (k / 512) ∈ F) ->
  avail F (view s) (fs_sb s) (nblk off (n - tot) + ind_need p) ->
  (Z.to_nat (n - tot) < fuel)%nat ->
  wp (writei_loop fuel i tot n off src) (fun r s' => r = off + (n - tot) /\ exists p' ws,
    moved F i s s' p' ws /\ fstate F s' i p' /\
    wrote_bytes (fs_sb s) p (view s) p' (view s') off (take (Z.to_nat (n - tot)) src) /\
    ((forall k, off <= k < off + (n - tot) -> addr_of p (view s) (k / 512) <> 0) -> p' = p) /\
    (length (free_list (view s) (fs_sb s)) + ind_need p' <= nblk off (n - tot) + ind_need p + length (free_list (view s') (fs_sb s)))%nat) s.
Proof.
  induction fuel as [|fuel IH]; intros tot n off src s p Hs Ho Ht Hm Hsrc HiF HaF Hav Hf; [lia|]. cbn [writei_loop].
  destruct (Z.ltb_spec tot n) as [Hlt|Hge].
  2:{ apply wp_ret. replace (n - tot) with 0 by lia. split; [lia|]. exists p, []. split_and!; [|done|apply wrote_nil|done|lia].
      exists (fs_log s). split; [by rewrite set_log_id, put_inode_id by apply Hs|]. apply did_refl, Hs. }
  change (Z.of_nat BSIZE) with 512. pose proof (chunk_range off (n - tot) ltac:(lia)) as [Hc1 Hc2].
  change (Z.min (n - tot) (512 - off mod 512)) with (chunk off (n - tot)).
  rewrite <-(nblk_step off (n - tot) Ho ltac:(lia)) in Hav |- *. set (m := chunk off (n - tot)) in *.
  set (c := nblk (off + m) (n - tot - m)) in *.
  pose proof (Z.div_mod off 512 ltac:(lia)). pose proof (Z.mod_pos_bound off 512 ltac:(lia)).
  assert (0 <= off / 512 < MAXFILE) as Hbn by (apply div_512; lia).
  eapply wp_get_inode; [apply Hs|]. rewrite (fs_dev _ _ _ _ Hs). apply wp_bind.
  eapply wp_mono; [apply (bmap_get s i p (off / 512) c); [done|done|done|intros; apply HaF; [lia|done]|exact Hav]|].
  intros a s1 (p1 & ws1 & Hm1 & Ea & Han & HaF1 & Hgr & Hs1 & Hav1 & Hi1 & Hadd1 & Hkeep1 & Hcnt1). cbv zeta.
  assert (fs_sb s1 = fs_sb s) as Esb by (destruct Hm1 as (l1 & -> & _); done).
  apply wp_block_then.
  set (cs := take (Z.to_nat m) src). assert (length cs = Z.to_nat m) as Hcs by (apply length_take_le; lia).
  eapply wp_mono; [apply (write_block s1 i p1 a cs off Hs1); try done; lia|].
  intros [] s2 (ws2 & Hm2 & Hs2 & Hw2 & Hb2 & Hadr2). rewrite Esb in *.
  eapply wp_mono; [apply (IH (tot + m) n (off + m) (drop (Z.to_nat m) src) s2 p1 Hs2)|]; try lia.
  - rewrite length_drop. lia.
  - intros Hi. destruct (Hi1 Hi) as [?|E]; [done|]. rewrite E. apply HiF. congruence.
  - intros k Hk. rewrite Hadr2. intros Hk0. assert (0 <= k / 512 < MAXFILE) as Hkb by (apply div_512; lia).
    destruct (decide (addr_of p (view s) (k / 512) = 0)) as [Hz|Hz].
    + by apply Hadd1.
    + rewrite (ev_addr _ _ _ _ _ (gr_ev _ _ _ _ _ Hgr)) by done. apply HaF; [lia|done].
  - assert (fs_sb s2 = fs_sb s) as -> by (destruct Hm2 as (l2 & -> & _); done).
    replace (n - (tot + m)) with (n - tot - m) by lia. eapply avail_ext; [exact Hb2|exact Hav1].
  - intros r s3 (-> & p3 & ws3 & Hm3 & Hs3 & Hw3 & Hkeep3 & Hcnt3). split; [lia|]. exists p3, (ws1 ++ ws2 ++ ws3). split_and!; [|done| | |].
    + eapply moved_trans; [exact Hm1|]. eapply moved_trans; [exact Hm2|exact Hm3].
    + assert (fs_sb s2 = fs_sb s) as Esb2 by (destruct Hm2 as (l2 & -> & _); done). rewrite Esb2 in Hw3.
      replace (take (Z.to_nat (n - tot)) src) with (cs ++ take (Z.to_nat (n - (tot + m))) (drop (Z.to_nat m) src)).
      * eapply wrote_trans; [done| |by eapply grew_wrote|].
        -- rewrite length_take_le by (rewrite length_drop; lia). lia.
        -- replace (off + Z.of_nat (length cs)) with (off + m) by lia. exact Hw3.
      * unfold cs. rewrite take_take_drop. f_equal. lia.
    + intros Hall. rewrite <-Hkeep1 by (apply Hall; lia). apply Hkeep3. intros k Hk. rewrite Hadr2.
      rewrite (ev_addr _ _ _ _ _ (gr_ev _ _ _ _ _ Hgr)); [apply Hall; lia|apply div_512; lia|apply Hall; lia].
    + assert (fs_sb s2 = fs_sb s) as Esb2 by (destruct Hm2 as (l2 & -> & _); done). rewrite Esb2 in Hcnt3.
      rewrite (free_list_ext _ _ _ Hb2) in Hcnt3. replace (n - (tot + m)) with (n - tot - m) in Hcnt3 by lia.
      unfold c. lia.
Qed.
End rw.

(** ** Other files and the inode blocks *)

(** A file that shares no block with the one that evolved. *)
Lemma evolved_other sb s p V p' V' q : fs_geom sb s -> evolved sb p V p' V' -> file_ok sb V q ->
  (forall a, a ∈ blocks_of q V -> a ∉ blocks_of p V) ->
  file_ok sb V' q /\ (forall k, 0 <= k -> byte_at q V' k = byte_at q V k) /\
  (forall a, a ∈ blocks_of q V' -> a ∉ blocks_of p' V').
Proof.
  intros Hg [E1 E2 E3 E4 E5 E6 E7] Hq Hdis.
  assert (forall a, a ∈ blocks_of q V -> V' a = V a) as Hsame.
  { intros a Ha. destruct (fo_data _ _ _ Hq a Ha). apply E3; [done|done|by apply Hdis]. }
  assert (slots q V' = slots q V) as Es.
  { unfold slots, ind_words. destruct (Z.eqb_spec (ind q) 0) as [|Hi]; [done|].
    rewrite (Hsame (ind q)); [done|by eapply ind_block]. }
  split_and!.
  - destruct Hq as [H1 H2 H3]. split; [done|unfold blocks_of; by rewrite Es|]. intros a. unfold blocks_of. rewrite Es.
    intros Ha. destruct (H3 a Ha). split; [done|]. by apply E5.
  - intros k Hk. unfold byte_at, block_at, addr_of. rewrite Es. fold (addr_of q V (k / 512)).
    destruct (Z.eqb_spec (addr_of q V (k / 512)) 0) as [|Ha]; [done|]. rewrite Hsame; [done|]. by apply addr_block.
  - intros a. unfold blocks_of at 1. rewrite Es. intros Ha Hp'. destruct (E7 a Hp') as [Hp|[_ Hb]]; [by apply (Hdis a)|].
    destruct (fo_data _ _ _ Hq a Ha). congruence.
Qed.

(** Storing into an inode block changes no file's contents. *)
Section meta.
Context {sb : superblock} {s : logst} (Hg : fs_geom sb s) (V V' : Z -> option (list Z)) (b : Z) (v : list Z).
Hypothesis Hb : sb_inodestart sb <= b < sb_bmapstart sb.
Hypothesis HV' : forall n, V' n = if n =? b then Some v else V n.

Lemma meta_other n : n <> b -> V' n = V n.
Proof using HV'. clear -HV'. intros. by rewrite HV', (proj2 (Z.eqb_neq _ _)). Qed.

Lemma meta_bit c : 0 <= c < sb_size sb -> bit V' sb c = bit V sb c.
Proof using Hg Hb HV'. intros Hc. unfold bit. rewrite meta_other; [done|]. pose proof (bblock_range Hg c Hc). lia. Qed.

Lemma meta_data a : data_start sb <= a < sb_size sb -> V' a = V a /\ bit V' sb a = bit V sb a.
Proof using Hg Hb HV'.
  intros Ha. pose proof (fg_size _ _ Hg). assert (0 <= sb_size sb / BPB) by (apply Z.div_pos; unfold BPB; lia).
  pose proof (fg_start _ _ Hg). unfold data_start in Ha. split; [apply meta_other; lia|apply meta_bit; lia].
Qed.

Lemma meta_file q : file_ok sb V q -> file_ok sb V' q /\ (forall bn, addr_of q V' bn = addr_of q V bn) /\
  (forall k, byte_at q V' k = byte_at q V k) /\ blocks_of q V' = blocks_of q V.
Proof using Hg Hb HV'.
  intros Hq. assert (forall a, a ∈ blocks_of q V -> V' a = V a /\ bit V' sb a = bit V sb a) as Hsame.
  { intros a Ha. destruct (fo_data _ _ _ Hq a Ha). by apply meta_data. }
  assert (slots q V' = slots q V) as Es.
  { unfold slots, ind_words. destruct (Z.eqb_spec (ind q) 0) as [|Hi]; [done|].
    destruct (Hsame (ind q)) as [-> _]; [by eapply ind_block|done]. }
  split_and!.
  - destruct Hq as [H1 H2 H3]. split; [done|unfold blocks_of; by rewrite Es|]. intros a. unfold blocks_of. rewrite Es.
    intros Ha. destruct (H3 a Ha). destruct (Hsame a Ha) as [_ ->]. done.
  - intros bn. unfold addr_of. by rewrite Es.
  - intros k. unfold byte_at, block_at, addr_of. rewrite Es. fold (addr_of q V (k / 512)).
    destruct (Z.eqb_spec (addr_of q V (k / 512)) 0) as [|Ha]; [done|].
    destruct (Hsame (addr_of q V (k / 512))) as [-> _]; [by apply addr_block|done].
  - unfold blocks_of. by rewrite Es.
Qed.
End meta.
