(* ===== verification/FsInode.v ===== *)
(** * Inodes on disk, and the contracts of readi and writei

    The inode's copy in memory and its 64 bytes in an inode block; [iupdate] and [ilock] are
    inverse.  Then what [readi] and [writei] promise. *)

From S2P Require Import Prelude Bytes Bio Log Recovery CStr Fs FsBlocks FsFile FsRw.

(** ** The bytes of an inode *)

Section bytes.
Context (d : list Z) (off off' v : Z).
Hypothesis H0 : 0 <= off.
Hypothesis H0' : 0 <= off'.

Lemma get16_put16_other : off + 2 <= Z.of_nat (length d) -> off' + 2 <= Z.of_nat (length d) ->
  off + 2 <= off' \/ off' + 2 <= off -> get16 off' (put16 off v d) = get16 off' d.
Proof using H0 H0'. intros. unfold get16, put16. rewrite slice_splice_out; [done|rewrite ?length_le_bytes; lia..]. Qed.

Lemma get16_put32_other : off + 4 <= Z.of_nat (length d) -> off' + 2 <= Z.of_nat (length d) ->
  off + 4 <= off' \/ off' + 2 <= off -> get16 off' (put32 off v d) = get16 off' d.
Proof using H0 H0'. intros. unfold get16, put32. rewrite slice_splice_out; [done|rewrite ?length_le_bytes; lia..]. Qed.

Lemma get32_put16_other : off + 2 <= Z.of_nat (length d) -> off' + 4 <= Z.of_nat (length d) ->
  off + 2 <= off' \/ off' + 4 <= off -> get32 off' (put16 off v d) = get32 off' d.
Proof using H0 H0'. intros. unfold get32, put16. rewrite slice_splice_out; [done|rewrite ?length_le_bytes; lia..]. Qed.
End bytes.

Lemma length_put_words ws : forall o d, 0 <= o -> o + 4 * Z.of_nat (length ws) <= Z.of_nat (length d) ->
  length (put_words o ws d) = length d.
Proof.
  induction ws as [|w ws IH]; intros o d Ho Hl; simpl; [done|]. simpl in Hl.
  rewrite IH; rewrite ?length_put32; lia.
Qed.

Lemma get16_put_words ws : forall o d x, 0 <= x -> x + 2 <= o -> o + 4 * Z.of_nat (length ws) <= Z.of_nat (length d) ->
  get16 x (put_words o ws d) = get16 x d.
Proof.
  induction ws as [|w ws IH]; intros o d x Hx Ho Hl; simpl; [done|]. simpl in Hl.
  rewrite IH; [|lia|lia|rewrite length_put32; lia]. apply get16_put32_other; lia.
Qed.

Lemma get32_put_words ws : forall o d x, 0 <= x -> x + 4 <= o -> o + 4 * Z.of_nat (length ws) <= Z.of_nat (length d) ->
  get32 x (put_words o ws d) = get32 x d.
Proof.
  induction ws as [|w ws IH]; intros o d x Hx Ho Hl; simpl; [done|]. simpl in Hl.
  rewrite IH; [|lia|lia|rewrite length_put32; lia]. apply get32_put32_other; lia.
Qed.

Lemma get32_put_words_at ws : forall o d j w, 0 <= o -> o + 4 * Z.of_nat (length ws) <= Z.of_nat (length d) ->
  ws !! j = Some w -> get32 (o + 4 * Z.of_nat j) (put_words o ws d) = u32 w.
Proof.
  induction ws as [|x ws IH]; intros o d j w Ho Hl Hj; [done|]. simpl in *. destruct j as [|j].
  - injection Hj as ->. rewrite get32_put_words by (rewrite ?length_put32; lia).
    rewrite Z.add_0_r. apply get32_put32_same; lia.
  - simpl in Hj. replace (o + 4 * Z.of_nat (S j)) with (o + 4 + 4 * Z.of_nat j) by lia.
    apply IH; [lia|rewrite length_put32; lia|done].
Qed.

Lemma get_words_put_words ws o d n : length ws = n -> 0 <= o -> o + 4 * Z.of_nat n <= Z.of_nat (length d) ->
  get_words o n (put_words o ws d) = map u32 ws.
Proof.
  intros <- Ho Hl. apply list_eq_same_length with (length ws); [by rewrite length_map|by rewrite length_get_words|].
  intros j x y Hj. rewrite lookup_get_words by done. rewrite list_lookup_fmap.
  destruct (lookup_lt_is_Some_2 ws j Hj) as [w Hw]. rewrite Hw. simpl.
  rewrite (get32_put_words_at ws o d j w) by done. congruence.
Qed.

(** The fields of an inode fit their types. *)
Record inode_fits (p : inode) : Prop := {
  if_type : - 2 ^ 15 <= i_type p < 2 ^ 15;
  if_major : - 2 ^ 15 <= i_major p < 2 ^ 15;
  if_minor : - 2 ^ 15 <= i_minor p < 2 ^ 15;
  if_nlink : - 2 ^ 15 <= i_nlink p < 2 ^ 15;
  if_size : 0 <= i_size p < 2 ^ 32;
  if_addrs : Forall (fun a => 0 <= a < 2 ^ 32) (i_addrs p);
  if_len : length (i_addrs p) = 13%nat
}.

Lemma s16_u16 x : - 2 ^ 15 <= x < 2 ^ 15 -> s16 (u16 x) = x.
Proof.
  intros Hx. unfold s16, u16. rewrite Zplus_mod_idemp_l. rewrite Z.mod_small by lia. lia.
Qed.

(** The lengths of the block after each store of [put_dinode]. *)
Ltac dinode_lengths o p d :=
  let d1 := constr:(put16 o (i_type p) d) in
  let d2 := constr:(put16 (o + 2) (i_major p) d1) in
  let d3 := constr:(put16 (o + 4) (i_minor p) d2) in
  let d4 := constr:(put16 (o + 6) (i_nlink p) d3) in
  pose proof (length_put16 d o (i_type p) ltac:(lia) ltac:(lia));
  pose proof (length_put16 d1 (o + 2) (i_major p) ltac:(lia) ltac:(lia));
  pose proof (length_put16 d2 (o + 4) (i_minor p) ltac:(lia) ltac:(lia));
  pose proof (length_put16 d3 (o + 6) (i_nlink p) ltac:(lia) ltac:(lia));
  pose proof (length_put32 d4 (o + 8) (i_size p) ltac:(lia) ltac:(lia)).

(** Read a field past the stores to other fields. *)
Ltac off_other :=
  repeat first
    [ rewrite get16_put_words by lia | rewrite get32_put_words by lia
    | rewrite get16_put16_same by lia | rewrite get32_put32_same by lia
    | rewrite get16_put32_other by lia | rewrite get16_put16_other by lia | rewrite get32_put16_other by lia ].

(** Reading back what [iupdate] stores. *)
Lemma dinode_round o p q d : inode_fits p -> 0 <= o -> o + 64 <= Z.of_nat (length d) ->
  load_dinode o (put_dinode o p d) q =
    Inode (i_dev q) (i_inum q) (i_ref q) (i_lock q) true (i_type p) (i_major p) (i_minor p) (i_nlink p) (i_size p) (i_addrs p).
Proof.
  intros [H1 H2 H3 H4 H5 H6 H7] Ho Hl. unfold load_dinode, di_type, di_major, di_minor, di_nlink, di_size, di_addrs, put_dinode.
  dinode_lengths o p d.
  f_equal; [off_other; by apply s16_u16..|off_other; by apply u32_small|].
  rewrite get_words_put_words by (done || lia).
  rewrite <-(map_id (i_addrs p)) at 2. apply map_ext_in. intros a Ha%list_elem_of_In.
  rewrite Forall_forall in H6. by apply u32_small, H6.
Qed.

(** Only the 64 bytes of the inode change. *)
Lemma slice_put_words ws : forall o d x n, 0 <= o -> o + 4 * Z.of_nat (length ws) <= Z.of_nat (length d) ->
  (x + n <= length d)%nat -> Z.of_nat (x + n) <= o \/ o + 4 * Z.of_nat (length ws) <= Z.of_nat x ->
  slice x n (put_words o ws d) = slice x n d.
Proof.
  induction ws as [|w ws IH]; intros o d x n Ho Hl Hx Hd; simpl; [done|]. simpl in Hl, Hd.
  rewrite IH; [|lia|rewrite length_put32; lia|rewrite length_put32; lia|lia].
  unfold put32. rewrite slice_splice_out; [done|rewrite ?length_le_bytes; lia..].
Qed.

Lemma slice_put_dinode o p d x n : 0 <= o -> o + 64 <= Z.of_nat (length d) -> length (i_addrs p) = 13%nat ->
  (x + n <= length d)%nat -> Z.of_nat (x + n) <= o \/ o + 64 <= Z.of_nat x -> slice x n (put_dinode o p d) = slice x n d.
Proof.
  intros Ho Hl Ha Hx Hd. unfold put_dinode.
  dinode_lengths o p d.
  rewrite slice_put_words by (rewrite ?length_put32; lia).
  unfold put32 at 1. rewrite slice_splice_out by (rewrite ?length_le_bytes; lia).
  do 4 (unfold put16 at 1; rewrite slice_splice_out by (rewrite ?length_le_bytes; lia)). done.
Qed.

Lemma dinode_other o o' p d q : 0 <= o -> 0 <= o' -> o + 64 <= Z.of_nat (length d) -> o' + 64 <= Z.of_nat (length d) ->
  length (i_addrs p) = 13%nat -> o' + 64 <= o \/ o + 64 <= o' -> load_dinode o' (put_dinode o p d) q = load_dinode o' d q.
Proof.
  intros Ho Ho' Hl Hl' Ha Hd. unfold load_dinode, di_type, di_major, di_minor, di_nlink, di_size, di_addrs, get16, get32.
  f_equal; try (rewrite slice_put_dinode by lia; done).
  unfold get_words. apply map_ext_in. intros j Hj%list_elem_of_In%elem_of_seqZ. unfold get32.
  by rewrite slice_put_dinode by lia.
Qed.

(** ** iupdate and ilock *)

(** The inode block holds the inode as it is in memory. *)
Definition on_disk (V : Z -> option (list Z)) (sb : superblock) (p : inode) : Prop :=
  exists d, V (iblock sb (i_inum p)) = Some d /\ load_dinode (dinode_off (i_inum p)) d p = set_valid true p.

Lemma dinode_off_range inum : 0 <= inum -> 0 <= dinode_off inum /\ dinode_off inum + 64 <= 512.
Proof. intros. unfold dinode_off, IPB, DINODE. pose proof (Z.mod_pos_bound inum 8 ltac:(lia)). lia. Qed.

Lemma length_put_dinode o p d : 0 <= o -> o + 64 <= Z.of_nat (length d) -> length (i_addrs p) = 13%nat ->
  length (put_dinode o p d) = length d.
Proof.
  intros Ho Hl Ha. unfold put_dinode.
  dinode_lengths o p d.
  rewrite length_put_words; rewrite ?length_put32; lia.
Qed.

Section spec.
Context (F : gset Z).

Lemma iupdate_spec s i p : let sb := fs_sb s in
  tx_inv F [] (fs_log s) -> fs_geom sb (fs_log s) -> icache s !! i = Some p -> i_dev p = ROOTDEV ->
  0 <= i_inum p < sb_ninodes sb -> iblock sb (i_inum p) ∈ F -> inode_fits p ->
  wp (iupdate i) (fun _ s' => exists l d, s' = set_log l s /\ on_disk (view s') sb p /\
    view s (iblock sb (i_inum p)) = Some d /\ did F [] (fs_log s) l [(iblock sb (i_inum p), put_dinode (dinode_off (i_inum p)) p d)]) s.
Proof.
  intros sb Hs Hg Hi Hdev Hn HF Hfit. unfold iupdate. eapply wp_get_inode; [done|]. apply wp_bind, wp_gets.
  destruct (iblock_ok Hg (i_inum p) Hn) as [Hok E]. fold sb. rewrite E, Hdev.
  destruct (view_some _ _ _ _ Hs Hok) as [d Hd]. pose proof (view_length _ _ _ _ _ Hs Hd) as Hl.
  destruct (dinode_off_range (i_inum p) ltac:(lia)) as [Ho1 Ho2].
  eapply fs_bread; [exact Hs|exact Hok|by apply not_elem_of_nil|simpl; lia|]. intros bp l1 H1.
  eapply (fs_bdata _ _ _ [(bp, iblock sb (i_inum p))]); [apply H1|left|rewrite (did_view_nil _ _ _ _ H1); exact Hd|].
  set (v := put_dinode _ p d).
  assert (length v = BSIZE) as Hlv.
  { unfold v. rewrite length_put_dinode; [done|done|rewrite Hl; unfold BSIZE; lia|apply Hfit]. }
  eapply (fs_write _ _ _ [(bp, iblock sb (i_inum p))]); [apply H1|left|by eapply did_data_ok|done|done|].
  intros l2 H2. simpl in H2. eapply fs_brelse_last; [apply H2|]. intros l3 H3. simpl in H3. rewrite !set_set_log.
  assert (did F [] (fs_log s) l3 [(iblock sb (i_inum p), v)]) as Hdid.
  { eapply did_app; [exact H1| |reflexivity]. eapply did_app; [exact H2|exact H3|reflexivity]. }
  exists l3, d. split_and!; [done| |done|done]. exists v. split.
  - rewrite (did_view_eq _ _ _ _ _ _ Hdid). unfold overlay. simpl. by rewrite Z.eqb_refl.
  - unfold v. rewrite dinode_round; [by destruct p|done|done|rewrite Hl; unfold BSIZE; lia].
Qed.

(** Locking an inode that is not in memory reads it. *)
Lemma ilock_reads s i p q : let sb := fs_sb s in
  tx_inv F [] (fs_log s) -> fs_geom sb (fs_log s) -> icache s !! i = Some q -> i_dev q = ROOTDEV ->
  0 <= i_inum q < sb_ninodes sb -> i_inum p = i_inum q -> on_disk (view s) sb p -> i_type p <> 0 ->
  1 <= i_ref q -> sl_locked (i_lock q) = false -> i_valid q = false ->
  wp (ilock i) (fun _ s' => exists l, did F [] (fs_log s) l [] /\
    s' = put_inode i (Inode (i_dev q) (i_inum q) (i_ref q) (SleepLock true (mypid (st_bio (fs_log s)))) true
       (i_type p) (i_major p) (i_minor p) (i_nlink p) (i_size p) (i_addrs p)) (set_log l s)) s.
Proof.
  intros sb Hs Hg Hi Hdev Hn Hin (d & Hd & Hload) Hty Href Hlk Hval. unfold ilock.
  eapply wp_get_inode; [done|]. apply wp_bind, wp_panic_if; [apply Z.ltb_ge; lia|].
  unfold acquire_inode. apply wp_bind. eapply wp_get_inode; [done|]. rewrite Hlk. apply wp_bind, wp_gets.
  set (q1 := set_ilock (SleepLock true (mypid (st_bio (fs_log s)))) q).
  assert (wp (upd_inode i (set_ilock (SleepLock true (mypid (st_bio (fs_log s)))))) (fun _ s' => s' = put_inode i q1 s) s) as Hu.
  { pose proof (wp_upd_inode (set_ilock (SleepLock true (mypid (st_bio (fs_log s))))) (ret tt) (fun _ s' => s' = put_inode i q1 s) s i q Hi eq_refl) as H.
    apply wp_bind_inv in H. exact H. }
  eapply wp_mono; [exact Hu|]. intros [] s1 ->. rewrite Hval.
  apply wp_bind, wp_gets. simpl fs_sb. fold sb. destruct (iblock_ok Hg (i_inum q) Hn) as [Hok E]. rewrite E, Hdev.
  assert (icache (put_inode i q1 s) !! i = Some q1) as Hi1 by (by eapply icache_put).
  rewrite Hin in Hd, Hload.
  eapply fs_bread; [exact Hs|exact Hok|by apply not_elem_of_nil|simpl; lia|]. intros bp l1 H1. simpl in H1.
  eapply (fs_bdata _ _ _ [(bp, iblock sb (i_inum q))]); [apply H1|left|etransitivity; [eapply (did_view_nil _ _ (put_inode i q1 s)); exact H1|exact Hd]|].
  eapply wp_upd_inode; [exact Hi1|]. eapply fs_brelse; [apply H1|]. intros l2 H2. simpl in H2.
  assert (di_type (dinode_off (i_inum q)) d = i_type p) as Et by (apply (f_equal i_type) in Hload; done).
  apply wp_panic_if. { rewrite Et. by apply Z.eqb_neq. }
  exists l2. split; [eapply did_app; [exact H1|exact H2|done]|].
  unfold put_inode, set_icache, set_log. simpl. rewrite list_insert_insert_eq. do 2 f_equal.
  unfold load_dinode in *. simpl.
  pose proof (f_equal i_major Hload) as E2. pose proof (f_equal i_minor Hload) as E3. pose proof (f_equal i_nlink Hload) as E4.
  pose proof (f_equal i_size Hload) as E5. pose proof (f_equal i_addrs Hload) as E6. simpl in E2, E3, E4, E5, E6. congruence.
Qed.

(** ** readi and writei *)

(** The size is right: every byte below it has a block. *)
Definition sized (p : inode) (V : Z -> option (list Z)) : Prop :=
  0 <= i_size p <= MAXFILE * 512 /\ forall k, 0 <= k < i_size p -> addr_of p V (k / 512) <> 0.

Lemma length_contents p V : 0 <= i_size p -> length (contents p V) = Z.to_nat (i_size p).
Proof. intros. unfold contents. by rewrite length_map, length_seqZ. Qed.

Lemma lookup_contents p V j : (Z.of_nat j < i_size p) -> contents p V !! j = Some (byte_at p V (Z.of_nat j)).
Proof. intros. unfold contents. rewrite list_lookup_fmap, (proj2 (lookup_seqZ 0 (i_size p) j (Z.of_nat j))) by lia. done. Qed.

Lemma slice_contents p V off n : 0 <= off -> 0 <= n -> off + n <= i_size p ->
  map (byte_at p V) (seqZ off n) = slice (Z.to_nat off) (Z.to_nat n) (contents p V).
Proof.
  intros. apply list_eq_same_length with (Z.to_nat n).
  - rewrite length_slice; [done|rewrite length_contents; lia].
  - by rewrite length_map, length_seqZ.
  - intros j x y Hj. rewrite list_lookup_fmap, (proj2 (lookup_seqZ off n j (off + Z.of_nat j))) by lia.
    rewrite lookup_slice, lookup_contents by lia. simpl. intros [= <-] [= <-]. f_equal. lia.
Qed.

Context (dev_read : Z -> option (nat -> Z -> M fss (Z * list Z)))
        (dev_write : Z -> option (nat -> list Z -> Z -> M fss Z)).

Lemma readi_spec s i p off n : fstate F s i p -> i_type p <> T_DEV -> sized p (view s) ->
  0 <= off <= i_size p -> 0 <= n -> off + n < 2 ^ 32 ->
  wp (readi dev_read i off n) (fun r s' => let m := Z.min n (i_size p - off) in
    r = (m, slice (Z.to_nat off) (Z.to_nat m) (contents p (view s))) /\
    exists l, s' = set_log l s /\ did F [] (fs_log s) l []) s.
Proof.
  intros Hs Ht [Hsz Hhave] Ho Hn Hov. unfold readi. eapply wp_get_inode; [apply Hs|].
  rewrite (proj2 (Z.eqb_neq _ _)) by done. rewrite u32_small by lia.
  rewrite !(proj2 (Z.ltb_ge _ _)) by lia. cbn [orb].
  set (m := if i_size p <? off + n then i_size p - off else n).
  assert (m = Z.min n (i_size p - off)) as Em by (unfold m; destruct (Z.ltb_spec (i_size p) (off + n)); lia).
  apply wp_bind. eapply wp_mono; [apply (readi_loop_spec F i p (S (Z.to_nat m)) 0 m off [] s Hs)|]; try lia.
  - intros bn H1 H2. assert (0 <= bn) by (etransitivity; [|exact H1]; apply Z.div_pos; lia).
    replace bn with ((512 * bn) / 512) by (rewrite Z.mul_comm, Z.div_mul; lia). apply Hhave. lia.
  - intros r s' (-> & l & -> & Hd). apply wp_ret. rewrite <-Em, Z.sub_0_r. split; [|by exists l].
    f_equal. simpl. apply slice_contents; lia.
Qed.

(** Bytes [bs] over the bytes [f] at [off]. *)
Lemma contents_write (f f' : Z -> Z) size off bs :
  0 <= off <= size ->
  (forall k, 0 <= k < Z.max size (off + Z.of_nat (length bs)) -> f' k =
     if decide (off <= k < off + Z.of_nat (length bs)) then nth (Z.to_nat (k - off)) bs 0 else f k) ->
  map f' (seqZ 0 (Z.max size (off + Z.of_nat (length bs)))) = write_at off bs (map f (seqZ 0 size)).
Proof.
  intros Ho Hf. set (n := Z.of_nat (length bs)) in *.
  assert (length (map f (seqZ 0 size)) = Z.to_nat size) as Hl by (by rewrite length_map, length_seqZ).
  assert (forall j, (j < Z.to_nat size)%nat -> map f (seqZ 0 size) !! j = Some (f (Z.of_nat j))) as Hlk.
  { intros j Hj. rewrite list_lookup_fmap, (proj2 (lookup_seqZ 0 size j (Z.of_nat j))) by lia. done. }
  apply list_eq_same_length with (Z.to_nat (Z.max size (off + n))).
  - unfold write_at. rewrite !length_app, length_take, length_drop, Hl. lia.
  - by rewrite length_map, length_seqZ.
  - intros j x y Hj. rewrite list_lookup_fmap, (proj2 (lookup_seqZ 0 (Z.max size (off + n)) j (Z.of_nat j))) by lia.
    simpl. intros [= <-]. rewrite Hf by lia. unfold write_at. case_decide as D.
    + rewrite lookup_app_r by (rewrite length_take; lia). rewrite length_take, Hl, Nat.min_l by lia.
      rewrite lookup_app_l by lia. intros Hy. rewrite nth_lookup.
      replace (Z.to_nat (Z.of_nat j - off)) with (j - Z.to_nat off)%nat by lia. by rewrite Hy.
    + destruct (decide (j < Z.to_nat off)%nat) as [Hlt|Hge].
      * rewrite lookup_app_l by (rewrite length_take; lia). rewrite lookup_take_lt, Hlk by lia. congruence.
      * rewrite lookup_app_r by (rewrite length_take; lia). rewrite length_take, Hl, Nat.min_l by lia.
        rewrite lookup_app_r by lia. rewrite lookup_drop. replace (Z.to_nat off + length bs + (j - Z.to_nat off - length bs))%nat with j by lia.
        rewrite Hlk by lia. congruence.
Qed.

(** The transaction may write what [writei] needs. *)
Record can_write (s : fss) (p : inode) (off n : Z) : Prop := {
  cw_ind : ind p <> 0 -> ind p ∈ F;
  cw_addr : forall k, off <= k < off + n -> addr_of p (view s) (k / 512) <> 0 -> addr_of p (view s) (k / 512) ∈ F;
  cw_avail : avail F (view s) (fs_sb s) (nblk off n + ind_need p);
  cw_inode : iblock (fs_sb s) (i_inum p) ∈ F
}.

(** What a write of [bs] at [off] does to the file system. *)
Record file_written (sb : superblock) (p : inode) (V : Z -> option (list Z)) (p' : inode) (V' : Z -> option (list Z))
    (off : Z) (bs : list Z) : Prop := {
  fw_inode : p' = set_size (Z.max (i_size p) (off + Z.of_nat (length bs))) (set_addrs (i_addrs p') p);
  fw_sized : sized p' V';
  fw_contents : contents p' V' = write_at off bs (contents p V);
  fw_disk : on_disk V sb p -> on_disk V' sb p';
  fw_others : forall q, file_ok sb V q -> 0 <= i_size q -> (forall a, a ∈ blocks_of q V -> a ∉ blocks_of p V) ->
    file_ok sb V' q /\ contents q V' = contents q V /\ (forall a, a ∈ blocks_of q V' -> a ∉ blocks_of p' V');
  fw_inodes : forall q, 0 <= i_inum q < sb_ninodes sb -> i_inum q <> i_inum p -> on_disk V sb q -> on_disk V' sb q
}.

Lemma set_size_addr x p V bn : addr_of (set_size x p) V bn = addr_of p V bn.
Proof. done. Qed.

Lemma contents_ext p V V' : (forall k, 0 <= k -> byte_at p V' k = byte_at p V k) -> contents p V' = contents p V.
Proof. intros H. unfold contents. apply map_ext_in. intros k Hk%list_elem_of_In%elem_of_seqZ. apply H. lia. Qed.

Lemma same_iblock sb j j' : 0 <= j -> 0 <= j' -> j <> j' -> iblock sb j = iblock sb j' ->
  dinode_off j' + 64 <= dinode_off j \/ dinode_off j + 64 <= dinode_off j'.
Proof.
  unfold iblock, dinode_off, IPB, DINODE. intros H1 H2 Hne Heq.
  pose proof (Z.div_mod j 8 ltac:(lia)). pose proof (Z.div_mod j' 8 ltac:(lia)).
  assert (j mod 8 <> j' mod 8) by lia. lia.
Qed.

Lemma on_disk_store sb V V' p q d : 0 <= i_inum p -> 0 <= i_inum q -> i_inum q <> i_inum p ->
  V (iblock sb (i_inum p)) = Some d -> length d = 512%nat -> length (i_addrs p) = 13%nat ->
  (forall n, V' n = if n =? iblock sb (i_inum p) then Some (put_dinode (dinode_off (i_inum p)) p d) else V n) ->
  on_disk V sb q -> on_disk V' sb q.
Proof.
  intros Hp Hq Hne Hd Hl Ha HV (dq & Hdq & Hload). unfold on_disk. rewrite HV.
  destruct (dinode_off_range _ Hp), (dinode_off_range _ Hq).
  destruct (Z.eqb_spec (iblock sb (i_inum q)) (iblock sb (i_inum p))) as [E|E]; [|by exists dq].
  eexists. split; [done|]. rewrite E, Hd in Hdq. injection Hdq as <-. rewrite <-Hload.
  apply dinode_other; try lia. pose proof (same_iblock sb (i_inum p) (i_inum q) Hp Hq ltac:(lia) ltac:(lia)). lia.
Qed.

Lemma evolved_on_disk sb s V V' p p' q : fs_geom sb s -> evolved sb p V p' V' -> 0 <= i_inum q < sb_ninodes sb ->
  on_disk V sb q -> on_disk V' sb q.
Proof.
  intros Hg Hev Hq (d & Hd & Hload). exists d. split; [|done]. rewrite (ev_meta _ _ _ _ _ Hev); [done|].
  by apply (iblock_range Hg).
Qed.

Lemma fits_after sb s V p p' : fs_geom sb s -> file_ok sb V p' -> inode_fits p ->
  p' = set_size (i_size p') (set_addrs (i_addrs p') p) -> 0 <= i_size p' <= MAXFILE * 512 -> inode_fits p'.
Proof.
  intros Hg Hf [] E Hsz. assert (Forall (fun a => 0 <= a < 2 ^ 32) (i_addrs p')) as Hall.
  { apply Forall_forall. intros a Ha. destruct (decide (a = 0)) as [->|Hne]; [lia|].
    destruct (fo_data _ _ _ Hf a) as [Hr _]; [apply elem_slots; split; [done|]; unfold slots; apply elem_of_app; by left|].
    pose proof (fg_size _ _ Hg). pose proof (fg_max _ _ Hg). pose proof (fg_start _ _ Hg). pose proof (fg_inodes _ _ Hg) as [? ?].
    assert (0 <= sb_ninodes sb / IPB) by (apply Z.div_pos; unfold IPB; lia).
    assert (0 <= sb_size sb / BPB) by (apply Z.div_pos; unfold BPB; lia). unfold data_start in Hr. lia. }
  split; [rewrite E; done..|unfold MAXFILE, NDIRECT, NINDIRECT in Hsz; lia|done|by eapply fo_len].
Qed.

Lemma file_ok_size sb V p x : file_ok sb V p -> file_ok sb V (set_size x p).
Proof. intros [? ? ?]. by split. Qed.

Lemma fstate_size s i p x : fstate F s i p -> fstate F (put_inode i (set_size x p) s) i (set_size x p).
Proof. intros []. split; try done; [by eapply icache_put|by apply file_ok_size]. Qed.

(** The pieces of [file_written] before the inode is stored. *)
Lemma written_contents sb p V p1 V1 off bs : 0 <= i_size p <= MAXFILE * 512 -> 0 <= off <= i_size p ->
  off + Z.of_nat (length bs) <= MAXFILE * 512 -> wrote_bytes sb p V p1 V1 off bs ->
  contents (set_size (Z.max (i_size p) (off + Z.of_nat (length bs))) p1) V1 = write_at off bs (contents p V).
Proof.
  intros Hsz Ho Hm [Hev Hby _]. unfold contents at 1. simpl i_size.
  apply (contents_write (byte_at p V)); [done|]. intros k Hk. apply Hby. lia.
Qed.

Lemma written_sized sb p V p1 V1 off bs : sized p V -> 0 <= off <= i_size p -> off + Z.of_nat (length bs) <= MAXFILE * 512 ->
  wrote_bytes sb p V p1 V1 off bs -> sized (set_size (Z.max (i_size p) (off + Z.of_nat (length bs))) p1) V1.
Proof.
  intros [Hsz Hhave] Ho Hm [Hev _ Hal]. split; [simpl; lia|]. simpl i_size. intros k Hk. rewrite set_size_addr.
  destruct (Z.lt_ge_cases k (i_size p)) as [Hlt|Hge].
  - rewrite (ev_addr _ _ _ _ _ Hev); [apply Hhave; lia|apply div_512; lia|apply Hhave; lia].
  - apply Hal. lia.
Qed.

Lemma writei_spec s i p src off n : fstate F s i p -> inode_fits p -> i_type p <> T_DEV -> sized p (view s) ->
  0 <= off <= i_size p -> 0 <= n <= Z.of_nat (length src) -> off + n <= MAXFILE * 512 ->
  0 <= i_inum p < sb_ninodes (fs_sb s) -> can_write s p off n ->
  wp (writei dev_write i src off n) (fun r s' => r = n /\ exists p' ws, moved F i s s' p' ws /\ fstate F s' i p' /\
    file_written (fs_sb s) p (view s) p' (view s') off (take (Z.to_nat n) src) /\
    (length (free_list (view s) (fs_sb s)) + ind_need p' <= nblk off n + ind_need p + length (free_list (view s') (fs_sb s)))%nat) s.
Proof.
  intros Hs Hfit Ht Hsz Ho Hn Hm Hin [Hci Hca Hcav Hcib]. pose proof (fs_geo _ _ _ _ Hs) as Hg. pose proof Hsz as [Hszr _].
  assert (MAXFILE * 512 = 71680) as EM by done.
  unfold writei. eapply wp_get_inode; [apply Hs|]. rewrite (proj2 (Z.eqb_neq _ _)) by done.
  rewrite u32_small by lia. rewrite !(proj2 (Z.ltb_ge _ _)) by (try lia; change (Z.of_nat BSIZE) with 512; lia). cbn [orb].
  apply wp_bind. eapply wp_mono; [apply (writei_loop_spec F i (S (Z.to_nat n)) 0 n off src s p Hs); rewrite ?Z.sub_0_r; (done || lia)|].
  rewrite Z.sub_0_r. intros r s1 (-> & p1 & ws & Hm1 & Hs1 & Hw1 & Hkeep & Hcnt).
  assert (fs_sb s1 = fs_sb s) as Esb by (destruct Hm1 as (? & -> & _); done).
  set (bs := take (Z.to_nat n) src) in *. assert (Z.of_nat (length bs) = n) as Hbs by (unfold bs; rewrite length_take_le; lia).
  pose proof (ev_inode _ _ _ _ _ (wb_ev _ _ _ _ _ _ _ Hw1)) as Ep1.
  assert (i_size p1 = i_size p) as Esz by (rewrite Ep1; done). assert (i_inum p1 = i_inum p) as Ein by (rewrite Ep1; done).
  eapply wp_get_inode; [apply Hs1|]. rewrite Esz.
  assert (off + Z.of_nat (length bs) <= MAXFILE * 512) as Hmb by lia.
  pose proof (written_contents _ _ _ _ _ _ _ Hszr Ho Hmb Hw1) as Hcont.
  pose proof (written_sized _ _ _ _ _ _ _ Hsz Ho Hmb Hw1) as Hsized. rewrite Hbs in Hcont, Hsized.
  pose proof (wb_ev _ _ _ _ _ _ _ Hw1) as Hev.
  destruct (Z.ltb_spec (i_size p) (off + n)) as [Hgrow|Hno].
  - rewrite (proj2 (Z.ltb_lt 0 n)) by lia. cbn [andb]. rewrite Z.max_r in Hcont, Hsized by lia.
    apply wp_bind. eapply wp_upd_inode; [apply Hs1|]. set (p2 := set_size (off + n) p1) in *.
    pose proof (fstate_size s1 i p1 (off + n) Hs1) as Hs2. fold p2 in Hs2. set (s2 := put_inode i p2 s1) in *.
    assert (inode_fits p2) as Hfit2.
    { apply (fits_after (fs_sb s) (fs_log s) (view s2) p p2); [done|rewrite <-Esb; apply Hs2|done|unfold p2; rewrite Ep1; done|].
      unfold p2. simpl i_size. lia. }
    eapply wp_mono; [apply (iupdate_spec s2 i p2); [apply Hs2|apply Hs2|apply Hs2|apply Hs2| | |exact Hfit2];
      simpl; rewrite Esb, Ein; done|].
    intros [] s3 (l & d & -> & Hod & Hdv & Hd). apply wp_ret. split; [done|].
    change (fs_sb s2) with (fs_sb s1) in *. rewrite Esb in *. change (view s2) with (view s1) in *.
    set (v := put_dinode _ p2 d) in *.
    assert (forall m, view (set_log l s2) m = if m =? iblock (fs_sb s) (i_inum p2) then Some v else view s1 m) as HV.
    { intros m. rewrite (did_view_eq _ _ s2 _ _ _ Hd). done. }
    pose proof (iblock_range Hg (i_inum p2) ltac:(simpl; lia)) as Hibr.
    pose proof (fs_file _ _ _ _ Hs2) as Hf2. change (fs_sb s2) with (fs_sb s1) in Hf2. rewrite Esb in Hf2.
    change (view s2) with (view s1) in Hf2.
    pose proof (meta_file Hg (view s1) (view (set_log l s2)) _ _ Hibr HV) as Hmeta.
    destruct (Hmeta p2 Hf2) as (Hf3 & Hadr3 & Hby3 & Hbl3).
    assert (view_len : length d = 512%nat) by (eapply view_length; [apply Hs1|exact Hdv]).
    exists p2, (ws ++ [(iblock (fs_sb s) (i_inum p2), v)]). split_and!.
    + eapply moved_trans; [exact Hm1|]. exists l. split; [done|exact Hd].
    + eapply (fstate_after F s2 (set_log l s2) i p2 p2 l); [done|exact Hd|symmetry; apply put_inode_id, Hs2| | |done];
        change (fs_sb s2) with (fs_sb s1); rewrite Esb; [|done].
      intros b Hb Hbb. rewrite (meta_bit Hg (view s1) _ _ _ Hibr HV) in Hbb by done.
      pose proof (fs_bits _ _ _ _ Hs1) as Hbits. rewrite Esb in Hbits. by apply Hbits.
    + split; rewrite ?Hbs, ?Z.max_r by lia.
      * unfold p2. rewrite Ep1 at 1. done.
      * destruct Hsized as [H1 H2]. split; [done|]. intros k Hk. rewrite Hadr3. by apply H2.
      * rewrite <-Hcont. apply contents_ext. intros k _. apply Hby3.
      * done.
      * intros q Hq Hqs Hdis. destruct (evolved_other _ _ _ _ _ _ q Hg Hev Hq Hdis) as (Hq1 & Hqb & Hqd).
        destruct (Hmeta q Hq1) as (Hq2 & _ & Hqb2 & Hqbl). split_and!; [done| |].
        -- apply contents_ext. intros k Hk. by rewrite Hqb2, Hqb.
        -- intros a. rewrite Hqbl, Hbl3. apply Hqd.
      * intros q Hq Hne Hdq. eapply (on_disk_store _ (view s1) _ p2); [simpl; lia|lia|simpl; lia|exact Hdv|done|by eapply fo_len|exact HV|].
        by eapply evolved_on_disk.
    + rewrite (free_list_ext (view s1) (view (set_log l s2))); [exact Hcnt|].
      intros b Hb. by rewrite (meta_bit Hg (view s1) _ _ _ Hibr HV).
  - rewrite andb_false_r. apply wp_bind, wp_ret, wp_ret. split; [done|]. exists p1, ws.
    assert (p1 = p) as ->.
    { apply Hkeep. intros k Hk. apply Hsz. lia. }
    rewrite Z.max_l in Hcont, Hsized by lia. assert (set_size (i_size p) p = p) as Eid by (by destruct p). rewrite Eid in *.
    split_and!; [done|done| |exact Hcnt]. split; rewrite ?Hbs, ?Z.max_l, ?set_addrs_id, ?Eid by lia; try done.
    + by eapply evolved_on_disk.
    + intros q Hq Hqs Hdis. destruct (evolved_other _ _ _ _ _ _ q Hg Hev Hq Hdis) as (Hq1 & Hqb & Hqd).
      split_and!; [done| |done]. by apply contents_ext.
    + intros q Hq Hne Hdq. by eapply evolved_on_disk.
Qed.
End spec.
