(* ===== verification/FsWrite.v ===== *)
(** * Reading and writing files, and what a crash leaves of a write

    The properties of fs.c that its callers rely on: allocation of a block, [readi], [writei],
    and a write in a transaction of its own, which is atomic over crashes. *)

From S2P Require Import Prelude Bytes File Bio Log Recovery CStr Fs FsBlocks FsFile FsRw FsInode.

(** ** Views that agree on the file system's blocks *)

Definition agree (sb : superblock) (V V' : Z -> option (list Z)) : Prop :=
  forall n, sb_inodestart sb <= n < data_start sb \/ data_start sb <= n < sb_size sb -> V' n = V n.

Lemma meta_order {sb l} : fs_geom sb l -> sb_inodestart sb < sb_bmapstart sb < data_start sb.
Proof.
  intros Hg. pose proof (fg_inodes _ _ Hg) as [H0 H1]. pose proof (fg_size _ _ Hg). unfold data_start.
  assert (0 <= sb_ninodes sb / IPB) by (apply Z.div_pos; unfold IPB; lia).
  assert (0 <= sb_size sb / BPB) by (apply Z.div_pos; unfold BPB; lia). lia.
Qed.

Section agree.
Context {sb : superblock} {l : logst} (Hg : fs_geom sb l) {V V' : Z -> option (list Z)} (HV : agree sb V V').

Lemma agree_bit b : 0 <= b < sb_size sb -> bit V' sb b = bit V sb b.
Proof using Hg HV.
  intros Hb. unfold bit. rewrite HV; [done|]. pose proof (bblock_range Hg b Hb). pose proof (meta_order Hg). left. lia.
Qed.

Lemma agree_words p : file_ok sb V p -> ind_words p V' = ind_words p V.
Proof using HV.
  intros Hf. unfold ind_words. destruct (Z.eqb_spec (ind p) 0) as [|Hi]; [done|].
  rewrite HV; [done|]. right. by apply (fo_data _ _ _ Hf), (ind_block sb).
Qed.

Lemma agree_slots p : file_ok sb V p -> slots p V' = slots p V.
Proof using HV. intros Hf. unfold slots. by rewrite agree_words. Qed.

Lemma agree_blocks p : file_ok sb V p -> blocks_of p V' = blocks_of p V.
Proof using HV. intros Hf. unfold blocks_of. by rewrite agree_slots. Qed.

Lemma agree_addr p bn : file_ok sb V p -> addr_of p V' bn = addr_of p V bn.
Proof using HV. intros Hf. unfold addr_of. by rewrite agree_slots. Qed.

Lemma agree_file p : file_ok sb V p -> file_ok sb V' p.
Proof using Hg HV.
  intros Hf. pose proof (agree_blocks _ Hf) as E. destruct Hf as [H1 H2 H3]. split; rewrite ?E; [done|done|].
  intros a Ha. destruct (H3 a Ha) as [? ?]. split; [done|]. rewrite agree_bit; [done|].
  pose proof (meta_order Hg). pose proof (fg_start _ _ Hg). lia.
Qed.

Lemma agree_contents p : file_ok sb V p -> contents p V' = contents p V.
Proof using HV.
  intros Hf. apply contents_ext. intros k Hk. unfold byte_at, block_at. rewrite agree_addr by done.
  destruct (Z.eqb_spec (addr_of p V (k / 512)) 0) as [|Ha]; [done|]. rewrite HV; [done|]. right.
  apply (fo_data _ _ _ Hf). by apply addr_block.
Qed.

Lemma agree_sized p : file_ok sb V p -> sized p V -> sized p V'.
Proof using HV. intros Hf [H1 H2]. split; [done|]. intros k Hk. rewrite agree_addr by done. by apply H2. Qed.

Lemma agree_disk p : 0 <= i_inum p < sb_ninodes sb -> on_disk V sb p -> on_disk V' sb p.
Proof using Hg HV.
  intros Hn (d & Hd & Hl). exists d. split; [|done]. rewrite HV; [done|]. left.
  pose proof (iblock_range Hg _ Hn). pose proof (meta_order Hg). lia.
Qed.
End agree.

(** ** The lock of an inode in memory *)

Definition lock_inode (x : sleeplock) (i : nat) (p : inode) (s : fss) : fss := put_inode i (set_ilock x p) s.

Lemma fstate_lock F s i p x : fstate F s i p -> fstate F (lock_inode x i p s) i (set_ilock x p).
Proof. intros [? ? ? ? ? [] ?]. split; try done. by eapply icache_put. Qed.

Lemma wp_upd_put (f : inode -> inode) s i p : icache s !! i = Some p ->
  wp (upd_inode i f) (fun _ s' => s' = put_inode i (f p) s) s.
Proof.
  intros Hi. pose proof (wp_upd_inode f (ret tt) (fun _ s' => s' = put_inode i (f p) s) s i p Hi eq_refl) as H.
  apply wp_bind_inv in H. exact H.
Qed.

Lemma ilock_cached s i p : icache s !! i = Some p -> 1 <= i_ref p -> i_valid p = true -> sl_locked (i_lock p) = false ->
  wp (ilock i) (fun _ s' => s' = lock_inode (SleepLock true (mypid (st_bio (fs_log s)))) i p s) s.
Proof.
  intros Hi Href Hv Hl. unfold ilock, acquire_inode. eapply wp_get_inode; [done|].
  apply wp_bind, wp_panic_if; [apply Z.ltb_ge; lia|]. apply wp_bind. eapply wp_get_inode; [done|]. rewrite Hl.
  apply wp_bind, wp_gets. eapply wp_mono; [by apply wp_upd_put|]. intros [] s' ->. rewrite Hv. by apply wp_ret.
Qed.

Lemma iunlock_held s i p : icache s !! i = Some p -> 1 <= i_ref p -> i_lock p = SleepLock true (mypid (st_bio (fs_log s))) ->
  wp (iunlock i) (fun _ s' => s' = lock_inode (SleepLock false 0) i p s) s.
Proof.
  intros Hi Href Hl. unfold iunlock, holding_inode, release_inode. apply wp_bind. eapply wp_get_inode; [done|].
  apply wp_bind, wp_gets, wp_ret. rewrite Hl. simpl. rewrite Z.eqb_refl. eapply wp_get_inode; [done|].
  apply wp_bind, wp_panic_if; [apply Z.ltb_ge; lia|]. by apply wp_upd_put.
Qed.

(** Only the fields that are stored matter. *)
Lemma on_disk_same V sb p q : i_inum q = i_inum p -> i_type q = i_type p -> i_major q = i_major p -> i_minor q = i_minor p ->
  i_nlink q = i_nlink p -> i_size q = i_size p -> i_addrs q = i_addrs p -> on_disk V sb p -> on_disk V sb q.
Proof.
  intros E1 E2 E3 E4 E5 E6 E7 (d & Hd & Hl). exists d. destruct p, q. unfold load_dinode, set_valid in *. simpl in *. subst.
  split; [done|]. by injection Hl as <- <- <- <- <- <-.
Qed.

Lemma on_disk_lock V sb p x : on_disk V sb (set_ilock x p) <-> on_disk V sb p.
Proof. by split; apply on_disk_same. Qed.

Lemma written_lock sb p V p' V' off bs x y : i_lock p = y ->
  file_written sb (set_ilock x p) V p' V' off bs -> file_written sb p V (set_ilock y p') V' off bs.
Proof.
  intros <- [H1 H2 H3 H4 H5 H6]. split; [rewrite H1; done|done|done| |done|done].
  intros Hd. apply on_disk_lock, H4, on_disk_lock, Hd.
Qed.

(** ** Files between system calls *)

(** Inode [i] is in memory as [p], no call is in progress, and the disk stands for the same
    file.  mkfs makes file systems whose bitmap is one block. *)
Record file_at (s : fss) (i : nat) (p : inode) : Prop := FileAt {
  fa_quiet : quiescent (fs_log s);
  fa_log : l_size (st_log (fs_log s)) = LOGSIZE;
  fa_geo : fs_geom (fs_sb s) (fs_log s);
  fa_bits : bits_ok (view s) (fs_sb s);
  fa_one : sb_size (fs_sb s) <= BPB;
  fa_ip : icache s !! i = Some p;
  fa_dev : i_dev p = ROOTDEV;
  fa_mem : 1 <= i_ref p /\ i_valid p = true /\ i_lock p = SleepLock false 0;
  fa_type : i_type p <> T_DEV;
  fa_inum : 0 <= i_inum p < sb_ninodes (fs_sb s);
  fa_fits : inode_fits p;
  fa_file : file_ok (fs_sb s) (view s) p;
  fa_sized : sized p (view s);
  fa_disk : on_disk (view s) (fs_sb s) p
}.

(** The blocks that a write of [n] bytes at [off] may touch. *)
Definition write_blocks (sb : superblock) (p : inode) (V : Z -> option (list Z)) (off n : Z) : list Z :=
  sb_bmapstart sb :: iblock sb (i_inum p) :: ind p ::
  map (addr_of p V) (seqZ (off / 512) (Z.of_nat (nblk off n))) ++
  take (nblk off n + ind_need p) (free_list V sb).

Lemma nblk_le off n : 0 <= off -> 0 <= n -> Z.of_nat (nblk off n) <= n / 512 + 2.
Proof.
  intros. unfold nblk. destruct (Z.leb_spec n 0); [pose proof (Z.div_pos n 512); lia|].
  pose proof (Z.div_mod off 512). pose proof (Z.mod_pos_bound off 512). pose proof (Z.div_mod n 512).
  pose proof (Z.mod_pos_bound n 512). pose proof (Z.div_mod (off + n - 1) 512). pose proof (Z.mod_pos_bound (off + n - 1) 512). lia.
Qed.

Lemma size_write_blocks sb p V off n : 0 <= off -> 0 <= n <= max_chunk ->
  (size (list_to_set (write_blocks sb p V off n) : gset Z) <= LIM)%nat.
Proof.
  intros Ho Hn. assert (max_chunk = 1536) as E by done.
  transitivity (length (write_blocks sb p V off n)).
  { generalize (write_blocks sb p V off n) as l. induction l as [|a l IH]; [done|]. simpl.
    rewrite size_union_alt, size_singleton. assert (size (list_to_set l ∖ {[a]} : gset Z) <= size (list_to_set l : gset Z))%nat.
    { apply subseteq_size. set_solver. } lia. }
  unfold write_blocks. simpl. rewrite length_app, length_map, length_seqZ, length_take, Nat2Z.id.
  pose proof (nblk_le off n Ho ltac:(lia)). assert (n / 512 <= 3) by (apply Z.div_le_upper_bound; lia).
  assert (ind_need p <= 1)%nat by (unfold ind_need; destruct (ind p =? 0); lia). unfold LIM. lia.
Qed.

Lemma write_in_range off n k : 0 <= off -> off <= k < off + n -> k / 512 ∈ seqZ (off / 512) (Z.of_nat (nblk off n)).
Proof.
  intros Ho Hk. apply elem_of_seqZ. unfold nblk. rewrite (proj2 (Z.leb_gt _ _)) by lia.
  assert (off / 512 <= k / 512 <= (off + n - 1) / 512) by (split; apply Z.div_le_mono; lia). lia.
Qed.

Section calls.
Context (dev_read : Z -> option (nat -> Z -> M fss (Z * list Z)))
        (dev_write : Z -> option (nat -> list Z -> Z -> M fss Z)).

(** One round of [filewrite]: the write is a transaction. *)
Definition write_call (i : nat) (src : list Z) (off n : Z) : M fss Z :=
  on_log begin_op ;;;
  ilock i ;;;
  r <- writei dev_write i src off n ;;
  iunlock i ;;;
  on_log end_op ;;;
  ret r.

Definition opened (s : fss) : fss :=
  set_log (LogSt (st_bio (fs_log s)) (set_outstanding 1 (st_log (fs_log s)))) s.

Lemma quiescent_opened F s : quiescent (fs_log s) -> l_size (st_log (fs_log s)) = LOGSIZE ->
  (size F <= LIM)%nat -> tx_inv F [] (fs_log (opened s)).
Proof.
  intros Hq Hl HF. pose proof Hq as ([Htx Hb Hid Hdi Hdk He] & Hn & _ & _).
  split; simpl; try done.
  - destruct Htx as [[] ? ? ? ?]. split; [by split|done..].
  - destruct Hdk as [[] ? ?]. split; [by split|done..].
  - intros i n Hin. by apply not_elem_of_nil in Hin.
  - rewrite Hl. done.
  - intros x. unfold logged. simpl. rewrite Hn. intros Hx. by apply not_elem_of_nil in Hx.
  - constructor.
Qed.

Lemma file_at_fstate F s i p : file_at s i p -> (size F <= LIM)%nat -> sb_bmapstart (fs_sb s) ∈ F ->
  fstate F (opened s) i p.
Proof.
  intros [] HF Hm. split; try done.
  - by apply quiescent_opened.
  - by destruct fa_geo0; split.
  - intros b Hb. unfold bblock. simpl in *. rewrite Z.div_small by (unfold BPB in *; lia). by rewrite Z.add_0_l.
Qed.

Lemma written_agree sb l p V p' V' V'' off bs : fs_geom sb l -> agree sb V' V'' -> file_ok sb V' p' ->
  0 <= i_inum p < sb_ninodes sb -> file_written sb p V p' V' off bs -> file_written sb p V p' V'' off bs.
Proof.
  intros Hg HV Hf Hn [H1 H2 H3 H4 H5 H6]. split.
  - done.
  - by apply (agree_sized HV).
  - by rewrite (agree_contents HV).
  - intros Hd. apply (agree_disk Hg HV); [rewrite H1; done|by apply H4].
  - intros q Hq Hqs Hdis. destruct (H5 q Hq Hqs Hdis) as (Hq' & Hqc & Hqd).
    rewrite (agree_contents HV), (agree_blocks HV) by done. split_and!; [by apply (agree_file Hg HV)|done|].
    by rewrite (agree_blocks HV).
  - intros q Hq Hne Hdq. by apply (agree_disk Hg HV), H6.
Qed.

Lemma home_agree sb l V V' : fs_geom sb l -> (forall m, home (st_log l) m -> V' m = V m) -> agree sb V V'.
Proof.
  intros Hg Hh n Hn. apply Hh. destruct Hn as [Hn|Hn]; [by apply (fg_meta _ _ Hg)|by apply (fg_data _ _ Hg)].
Qed.

Lemma geom_same sb l l' : fs_geom sb l -> length (disk (st_bio l')) = length (disk (st_bio l)) ->
  (forall m, home (st_log l') m <-> home (st_log l) m) -> fs_geom sb l'.
Proof.
  intros [? ? ? Hm Hd ?] E Hh. split; rewrite ?E; try done; intros n Hn; unfold data_ok; rewrite E, Hh.
  - by apply Hm.
  - by apply Hd.
Qed.

(** The recovered disk holds one of two views. *)
Definition crash_safe (d : list (list Z)) (ws : list (Z * list Z)) (P : (Z -> option (list Z)) -> Prop) : Prop :=
  forall k pid, wp (initlog ROOTDEV) (fun _ l => quiescent l /\ P (dview (disk (st_bio l))))
    (boot (apply_writes (take k ws) d) pid).

Lemma crash_safe_mono d ws (P Q : (Z -> option (list Z)) -> Prop) :
  crash_safe d ws P -> (forall V, P V -> Q V) -> crash_safe d ws Q.
Proof. intros H HPQ k pid. eapply wp_mono; [apply (H k pid)|]. intros [] l [Hq HV]. split; [done|by apply HPQ]. Qed.

(** What [end_op] of the only outstanding call does to the file system. *)
Record closed (s s' : fss) (ws : list (Z * list Z)) : Prop := Closed {
  cl_log : s' = set_log (fs_log s') s;
  cl_quiet : quiescent (fs_log s');
  cl_size : l_size (st_log (fs_log s')) = l_size (st_log (fs_log s));
  cl_geo : fs_geom (fs_sb s) (fs_log s');
  cl_view : agree (fs_sb s) (view s) (view s');
  cl_disk : disk (st_bio (fs_log s')) = apply_writes ws (disk (st_bio (fs_log s)));
  cl_writes : writes (st_bio (fs_log s')) = writes (st_bio (fs_log s)) ++ ws;
  cl_crash : crash_safe (disk (st_bio (fs_log s))) ws (fun V =>
    agree (fs_sb s) (dview (disk (st_bio (fs_log s)))) V \/ agree (fs_sb s) (view s) V)
}.

Lemma end_op_closes F s : tx_inv F [] (fs_log s) -> fs_geom (fs_sb s) (fs_log s) ->
  l_outstanding (st_log (fs_log s)) = 1 -> l_committing (st_log (fs_log s)) = false ->
  wp (on_log end_op) (fun _ s' => exists ws, closed s s' ws) s.
Proof.
  intros Hi Hg Ho Hc. apply wp_zoom. eapply wp_mono; [apply end_op_last; [by apply (tx_inv_log F [])| |done|done]|].
  { pose proof (logged_small _ _ _ Hi). unfold LIM, NBUF in *. lia. }
  intros [] l (Hq & Est & Esz & Hhome & ws & Hws & Hdk & Hca). exists ws. split; simpl; try done.
  - apply (geom_same _ (fs_log s)); [done|by rewrite Hdk, length_apply_writes|]. intros m. unfold home. by rewrite Est, Esz.
  - apply (home_agree _ (fs_log s)); [done|]. intros m Hm. unfold view. simpl. rewrite quiescent_view by done. by apply Hhome.
  - intros k pid. eapply wp_mono; [apply (Hca k pid)|]. intros [] l' [Hq' HV]. split; [done|].
    destruct HV as [HV|HV]; [left|right]; by apply (home_agree _ (fs_log s)).
Qed.

Lemma write_allowed F s i p off n : fstate F s i p -> 0 <= off ->
  (forall x, x ∈ write_blocks (fs_sb s) p (view s) off n -> x ∈ F) ->
  (nblk off n + ind_need p <= length (free_list (view s) (fs_sb s)))%nat -> can_write F s p off n.
Proof.
  intros Hs Ho Hmem Hfree. split.
  - intros _. apply Hmem. do 2 right. left.
  - intros k Hk _. apply Hmem. do 3 right. apply elem_of_app. left. apply list_elem_of_fmap. eexists.
    split; [reflexivity|]. by apply write_in_range.
  - split; [done|]. intros x Hx. apply Hmem. do 3 right. apply elem_of_app. by right.
  - apply Hmem. right. left.
Qed.

(** The file of a written inode is again a file between calls. *)
Lemma written_file_at F s s1 s2 i p p' off bs us : file_at s i p -> fstate F s1 i p' -> fs_sb s1 = fs_sb s ->
  l_size (st_log (fs_log s1)) = LOGSIZE -> file_written (fs_sb s) p (view s) p' (view s1) off bs ->
  closed s1 s2 us -> file_at s2 i p' /\ file_written (fs_sb s) p (view s) p' (view s2) off bs.
Proof.
  intros Ha Hs1 Esb Els Hw [E Hq Esz Hg2 Hag _ _ _]. rewrite Esb in *. destruct Ha as [_ _ Hg _ Hone _ Hdev Hmem Hty Hin Hfits _ _ Hdsk].
  pose proof (fs_geo _ _ _ _ Hs1) as Hg1. pose proof (fs_file _ _ _ _ Hs1) as Hf1. rewrite Esb in *.
  assert (Hw2 : file_written (fs_sb s) p (view s) p' (view s2) off bs) by (by eapply written_agree). split; [|done].
  assert (E2 : p' = set_size (i_size p') (set_addrs (i_addrs p') p)) by (rewrite (fw_inode _ _ _ _ _ _ _ Hw); done).
  assert (Esb2 : fs_sb s2 = fs_sb s) by (by rewrite E).
  split; rewrite ?Esb2; try done.
  - congruence.
  - intros b Hb. rewrite (agree_bit Hg1 Hag) by done. pose proof (fs_bits _ _ _ _ Hs1) as Hbits. rewrite Esb in Hbits. by apply Hbits.
  - rewrite E. apply (fs_ip _ _ _ _ Hs1).
  - by rewrite E2.
  - by rewrite E2.
  - by rewrite E2.
  - rewrite E2. done.
  - eapply fits_after; [exact Hg|exact Hf1|exact Hfits|exact E2|]. apply (fw_sized _ _ _ _ _ _ _ Hw).
  - by apply (agree_file Hg1 Hag).
  - apply (fw_sized _ _ _ _ _ _ _ Hw2).
  - by apply (fw_disk _ _ _ _ _ _ _ Hw2).
Qed.

(** [ilock], [writei], [iunlock] in a transaction. *)
Lemma locked_write_spec F s i p src off n : fstate F s i p -> inode_fits p -> i_type p <> T_DEV -> sized p (view s) ->
  1 <= i_ref p -> i_valid p = true -> i_lock p = SleepLock false 0 ->
  0 <= off <= i_size p -> 0 <= n <= Z.of_nat (length src) -> off + n <= MAXFILE * 512 ->
  0 <= i_inum p < sb_ninodes (fs_sb s) -> can_write F s p off n ->
  wp (ilock i ;;; r <- writei dev_write i src off n ;; iunlock i ;;; ret r) (fun r s' => r = n /\ exists p' ws,
    moved F i s s' p' ws /\ fstate F s' i p' /\
    file_written (fs_sb s) p (view s) p' (view s') off (take (Z.to_nat n) src) /\
    (length (free_list (view s) (fs_sb s)) + ind_need p' <= nblk off n + ind_need p + length (free_list (view s') (fs_sb s)))%nat) s.
Proof.
  intros Hs Hfit Ht Hsz Href Hv Hl Ho Hn Hm Hin Hcan. apply wp_bind.
  eapply wp_mono; [apply (ilock_cached s i p); [apply Hs|done|done|by rewrite Hl]|]. intros [] s0 E0.
  set (x := SleepLock true (mypid (st_bio (fs_log s)))) in *. set (q := set_ilock x p).
  assert (Hs0 : fstate F s0 i q) by (subst s0; by apply fstate_lock).
  apply wp_bind. eapply wp_mono; [apply (writei_spec F dev_write s0 i q src off n); subst s0; [done|by destruct Hfit|done..|by destruct Hcan]|].
  intros r s1 (-> & p1 & ws & (l & E1 & Hd) & Hs1 & Hw & Hcnt). rewrite E0 in Hw, E1, Hd, Hcnt.
  change (fs_sb (lock_inode x i p s)) with (fs_sb s) in Hw. change (view (lock_inode x i p s)) with (view s) in Hw.
  assert (El : i_lock p1 = x) by (rewrite (fw_inode _ _ _ _ _ _ _ Hw); done).
  apply wp_bind. eapply wp_mono; [apply (iunlock_held s1 i p1)|].
  - apply Hs1.
  - rewrite (fw_inode _ _ _ _ _ _ _ Hw). done.
  - rewrite El, E1. unfold x. f_equal. simpl. by rewrite (did_pid _ _ _ _ _ Hd).
  - intros [] s2 ->. apply wp_ret. split; [done|]. exists (set_ilock (SleepLock false 0) p1), ws. split_and!.
    + exists l. split; [|exact Hd]. rewrite E1. unfold lock_inode, put_inode, set_icache, set_log. simpl.
      by rewrite !list_insert_insert_eq.
    + by apply fstate_lock.
    + by eapply written_lock.
    + exact Hcnt.
Qed.

Lemma wp_assoc3 {A B C D} (m : M fss A) (k : M fss B) (k2 : M fss C) (k3 : B -> M fss D) Q s :
  wp (r <- (m ;;; r <- k ;; k2 ;;; ret r) ;; k3 r) Q s -> wp (m ;;; r <- k ;; k2 ;;; k3 r) Q s.
Proof.
  unfold wp, bind, ret. destruct (m s) as [a s1| | | |]; try done. destruct (k s1) as [b s2| | | |]; try done.
  by destruct (k2 s2).
Qed.

Lemma write_call_spec s i p src off n : file_at s i p ->
  0 <= off <= i_size p -> 0 <= n <= Z.of_nat (length src) -> n <= max_chunk -> off + n <= MAXFILE * 512 ->
  (nblk off n + ind_need p <= length (free_list (view s) (fs_sb s)))%nat ->
  wp (write_call i src off n) (fun r s' => r = n /\ exists p' ws,
    file_at s' i p' /\ fs_sb s' = fs_sb s /\
    file_written (fs_sb s) p (view s) p' (view s') off (take (Z.to_nat n) src) /\
    writes (st_bio (fs_log s')) = writes (st_bio (fs_log s)) ++ ws /\
    crash_safe (disk (st_bio (fs_log s))) ws (fun V => agree (fs_sb s) (view s) V \/
      file_written (fs_sb s) p (view s) p' V off (take (Z.to_nat n) src)) /\
    disk (st_bio (fs_log s')) = apply_writes ws (disk (st_bio (fs_log s))) /\
    (length (free_list (view s) (fs_sb s)) + ind_need p' <= nblk off n + ind_need p + length (free_list (view s') (fs_sb s)))%nat) s.
Proof.
  intros Ha Ho Hn Hc Hm Hfree. pose proof Ha as [Hq Hls Hg _ _ _ _ (Href & Hv & Hl) _ Hin _ _ _ _].
  set (F := list_to_set (write_blocks (fs_sb s) p (view s) off n) : gset Z).
  assert (Hmem : forall x, x ∈ write_blocks (fs_sb s) p (view s) off n -> x ∈ F) by (intros x Hx; by apply elem_of_list_to_set).
  assert (Hs : fstate F (opened s) i p) by (apply file_at_fstate; [done|apply size_write_blocks; lia|apply Hmem; left]).
  unfold write_call. apply wp_bind, wp_zoom. eapply wp_run; [by apply begin_op_quiescent|]. fold (opened s).
  apply (wp_assoc3 (ilock i) (writei dev_write i src off n) (iunlock i)). apply wp_bind.
  eapply wp_mono; [apply (locked_write_spec F (opened s) i p src off n);
    [done|apply Ha|apply Ha|apply Ha|done|done|done|done|done|done|done|apply (write_allowed F (opened s) i); [done|lia|done|done]]|].
  intros r s1 (-> & p' & us & (l1 & -> & Hd) & Hs1 & Hw & Hcnt). change (view (opened s)) with (view s) in Hw.
  set (s1 := put_inode i p' (set_log l1 (opened s))) in *.
  apply wp_bind. eapply wp_mono; [apply (end_op_closes F s1); try apply Hs1|].
  { apply (did_out _ _ _ _ _ Hd). }
  { rewrite (did_com _ _ _ _ _ Hd : l_committing (st_log (fs_log s1)) = _). apply Hq. }
  intros [] s2 [ws Hcl]. apply wp_ret. split; [done|]. exists p', ws.
  destruct (written_file_at F s s1 s2 i p p' off (take (Z.to_nat n) src) ws) as [Ha2 Hw2]; try done.
  { rewrite <-Hls. apply (did_size _ _ _ _ _ Hd). }
  split_and!; [done|by rewrite (cl_log _ _ _ Hcl)|done| | | |].
  - rewrite (cl_writes _ _ _ Hcl). by rewrite (did_writes _ _ _ _ _ Hd : writes (st_bio (fs_log s1)) = _).
  - pose proof (cl_crash _ _ _ Hcl) as Hcr. rewrite (did_disk _ _ _ _ _ Hd : disk (st_bio (fs_log s1)) = _) in Hcr.
    eapply crash_safe_mono; [exact Hcr|]. intros V [HV|HV]; [left|right].
    + intros m Hm'. rewrite HV by done. exact (eq_sym (quiescent_view _ m Hq)).
    + eapply (written_agree (fs_sb s) (fs_log s1)); [apply Hs1|exact HV|apply Hs1|done|done].
  - rewrite (cl_disk _ _ _ Hcl). by rewrite (did_disk _ _ _ _ _ Hd : disk (st_bio (fs_log s1)) = _).
  - rewrite (free_list_ext (view s1) (view s2)); [exact Hcnt|].
    intros b Hb. apply (agree_bit (fs_geo _ _ _ _ Hs1) (cl_view _ _ _ Hcl) b Hb).
Qed.

(** ** Theorems *)

(** Block allocation: with a free block left, [balloc] returns the free block with the
    least number, which is a data block and no metadata; it is zeroed and its bit in the
    bitmap is set; every other bit and every other block are as before (so the free list
    loses its head only), and nothing is written to the disk before the commit. *)
Theorem balloc_correct F s b bs : let sb := fs_sb s in
  tx_inv F [] (fs_log s) -> fs_geom sb (fs_log s) -> bits_ok (view s) sb ->
  free_list (view s) sb = b :: bs -> b ∈ F -> bblock sb b ∈ F ->
  wp (balloc ROOTDEV) (fun r s' => r = b /\ data_start sb <= b < sb_size sb /\
    view s' b = Some zero_block /\
    (forall c, 0 <= c < sb_size sb -> bit (view s') sb c = (c =? b) || bit (view s) sb c) /\
    (forall n, n <> b -> n <> bblock sb b -> view s' n = view s n) /\
    free_list (view s') sb = bs /\ bits_ok (view s') sb /\
    disk (st_bio (fs_log s')) = disk (st_bio (fs_log s))) s.
Proof.
  intros sb Hi Hg Hbits Hfl Hb Hbb. pose proof (free_list_head _ _ _ _ Hfl) as Hff.
  assert (Hdat : data_start sb <= b < sb_size sb) by (by eapply alloc_data).
  eapply wp_mono; [apply (balloc_spec F [] b s); try done; [by apply (fg_data _ _ Hg)|simpl; lia|by apply not_elem_of_nil|]|].
  { intros c _. apply not_elem_of_nil. }
  intros r s' (-> & l & d & -> & Hd & Hdid). pose proof (view_length _ _ _ _ _ Hi Hd) as Hl.
  assert (HV : forall n, view (set_log l s) n = overlay (alloc_writes sb b d) (view s) n) by (intros n; by eapply did_view_eq).
  assert (Hbit : forall c, 0 <= c < sb_size sb -> bit (view (set_log l s)) sb c = (c =? b) || bit (view s) sb c)
    by (intros c Hc; by eapply alloc_bit).
  split_and!; [done|lia|lia|by eapply alloc_zero|exact Hbit| | | |apply (did_disk _ _ _ _ _ Hdid)].
  - intros n H1 H2. by eapply alloc_other.
  - by eapply free_list_tail.
  - by eapply alloc_bits_ok.
Qed.

(** [readi] for any offset and size. *)
Definition read_result (c : list Z) (off n : Z) : Z * list Z :=
  let size := Z.of_nat (length c) in
  if (size <? off) || (2 ^ 32 <=? off + n) then (-1, [])
  else let m := Z.min n (size - off) in (m, slice (Z.to_nat off) (Z.to_nat m) c).

Lemma readi_any F s i p off n : fstate F s i p -> i_type p <> T_DEV -> sized p (view s) ->
  0 <= off < 2 ^ 32 -> 0 <= n < 2 ^ 32 ->
  wp (readi dev_read i off n) (fun r s' => r = read_result (contents p (view s)) off n /\
    exists l, s' = set_log l s /\ did F [] (fs_log s) l []) s.
Proof.
  intros Hs Ht Hsz Ho Hn. unfold read_result. rewrite length_contents by apply Hsz. rewrite Z2Nat.id by apply Hsz.
  destruct ((i_size p <? off) || (2 ^ 32 <=? off + n)) eqn:Ebad.
  - unfold readi. eapply wp_get_inode; [apply Hs|]. rewrite (proj2 (Z.eqb_neq _ _)) by done.
    assert ((i_size p <? off) || (u32 (off + n) <? off) = true) as ->.
    { apply orb_true_iff in Ebad as [->|Hov%Z.leb_le]; [done|]. apply orb_true_iff. right. apply Z.ltb_lt.
      unfold u32. rewrite <-(Z.mod_unique (off + n) (2 ^ 32) 1 (off + n - 2 ^ 32)) by lia. lia. }
    apply wp_ret. split; [done|]. exists (fs_log s). split; [symmetry; apply set_log_id|]. apply did_refl, Hs.
  - apply orb_false_iff in Ebad as [H1%Z.ltb_ge H2%Z.leb_gt]. apply readi_spec; (done || lia).
Qed.

(** C13: Reading: [readi] at [off] returns the bytes of the file from [off] on, cut at the end
    of the file, through direct and indirect blocks; past the end of the file or when
    [off + n] overflows it fails.  It changes no block and no inode. *)
Theorem readi_correct F s i p off n : fstate F s i p -> i_type p <> T_DEV -> sized p (view s) ->
  0 <= off < 2 ^ 32 -> 0 <= n < 2 ^ 32 ->
  wp (readi dev_read i off n) (fun r s' =>
    r = (if (i_size p <? off) || (2 ^ 32 <=? off + n) then (-1, [])
         else let m := Z.min n (i_size p - off) in (m, slice (Z.to_nat off) (Z.to_nat m) (contents p (view s)))) /\
    (exists l, s' = set_log l s) /\ (forall b, view s' b = view s b) /\ fstate F s' i p) s.
Proof.
  intros Hs Ht Hsz Ho Hn. eapply wp_mono; [by apply (readi_any F s i p)|]. intros r s' (-> & l & -> & Hd).
  split_and!; [|by exists l|by eapply did_view_nil|by apply fstate_did].
  unfold read_result. rewrite length_contents by apply Hsz. by rewrite Z2Nat.id by apply Hsz.
Qed.

(** C12: Writing: [writei] of [n] bytes at or before the end of the file, when the transaction
    may touch the blocks it needs, writes them all and returns [n].  The contents are the old
    ones with the bytes laid over at [off], the file grows to [off + n] when that is past its
    end, the inode on the disk is updated with it, and every other file and every other inode
    keep their contents. *)
Theorem writei_correct F s i p src off n : fstate F s i p -> inode_fits p -> i_type p <> T_DEV -> sized p (view s) ->
  0 <= off <= i_size p -> 0 <= n <= Z.of_nat (length src) -> off + n <= MAXFILE * 512 ->
  0 <= i_inum p < sb_ninodes (fs_sb s) -> can_write F s p off n ->
  wp (writei dev_write i src off n) (fun r s' => r = n /\ exists p',
    icache s' = <[i := p']> (icache s) /\ fstate F s' i p' /\
    file_written (fs_sb s) p (view s) p' (view s') off (take (Z.to_nat n) src) /\
    disk (st_bio (fs_log s')) = disk (st_bio (fs_log s))) s.
Proof.
  intros. eapply wp_mono; [by apply writei_spec|]. intros r s' (-> & p' & ws & (l & -> & Hd) & Hs' & Hw & _).
  split; [done|]. exists p'. split_and!; [done|done|done|apply (did_disk _ _ _ _ _ Hd)].
Qed.

(** What was written is read: [writei] and then [readi] at the same place of the same file
    returns the bytes written, wherever the blocks of the file lie. *)
Theorem write_then_read F s i p src off n : fstate F s i p -> inode_fits p -> i_type p <> T_DEV -> sized p (view s) ->
  0 <= off <= i_size p -> 0 <= n <= Z.of_nat (length src) -> off + n <= MAXFILE * 512 ->
  0 <= i_inum p < sb_ninodes (fs_sb s) -> can_write F s p off n ->
  wp (writei dev_write i src off n ;;; readi dev_read i off n) (fun r _ => r = (n, take (Z.to_nat n) src)) s.
Proof.
  intros Hs Hf Ht Hsz Ho Hn Hm Hin Hc. apply wp_bind. eapply wp_mono; [by apply writei_spec|].
  intros r s' (-> & p' & ws & _ & Hs' & [E Hsz' Hct _ _ _] & _).
  assert (Hbs : Z.of_nat (length (take (Z.to_nat n) src)) = n) by (rewrite length_take; lia). rewrite Hbs in E.
  assert (Esz : i_size p' = Z.max (i_size p) (off + n)) by (rewrite E; done).
  assert (Ht' : i_type p' <> T_DEV) by (rewrite E; done).
  assert (MAXFILE * 512 = 71680) as EM by done.
  eapply wp_mono; [apply (readi_spec F dev_read s' i p' off n); try done; lia|].
  intros r s2 (-> & _). rewrite Z.min_l by lia. f_equal. rewrite Hct. apply slice_write_at; [lia|lia|].
  rewrite length_contents; lia.
Qed.

(** C3: A write in a transaction of its own, as [filewrite] makes it, is durable and atomic.
    With free blocks left it returns [n], the file has the bytes written in memory and on the
    disk, and the file system is again one between calls.  If the machine stops after any
    prefix [k] of its disk writes, recovery brings back a file system in which either every
    block is as before the call, or the whole write has been done: the inode, its contents,
    the bitmap and the other files. *)
Theorem write_call_atomic s i p src off n : file_at s i p ->
  0 <= off <= i_size p -> 0 <= n <= Z.of_nat (length src) -> n <= max_chunk -> off + n <= MAXFILE * 512 ->
  (nblk off n + ind_need p <= length (free_list (view s) (fs_sb s)))%nat ->
  wp (write_call i src off n) (fun r s' => r = n /\ exists p' ws,
    file_at s' i p' /\
    file_written (fs_sb s) p (view s) p' (view s') off (take (Z.to_nat n) src) /\
    writes (st_bio (fs_log s')) = writes (st_bio (fs_log s)) ++ ws /\
    crash_safe (disk (st_bio (fs_log s))) ws (fun V => agree (fs_sb s) (view s) V \/
      file_written (fs_sb s) p (view s) p' V off (take (Z.to_nat n) src))) s.
Proof.
  intros. eapply wp_mono; [by apply write_call_spec|]. intros r s' (-> & p' & ws & Hs' & _ & Hw & Hws & Hc & _).
  split; [done|]. by exists p', ws.
Qed.
End calls.

(** An inode comes back as it was stored: after [iupdate], an inode that is dropped from
    memory and locked again (with a fresh entry for the same inode number) has the type, the
    device numbers, the links, the size and the block addresses it had. *)
Theorem inode_roundtrip F s i p : let sb := fs_sb s in
  tx_inv F [] (fs_log s) -> fs_geom sb (fs_log s) -> icache s !! i = Some p -> i_dev p = ROOTDEV ->
  0 <= i_inum p < sb_ninodes sb -> iblock sb (i_inum p) ∈ F -> inode_fits p -> i_type p <> 0 -> 1 <= i_ref p ->
  let empty := Inode ROOTDEV (i_inum p) (i_ref p) (SleepLock false 0) false 0 0 0 0 0 [] in
  wp (iupdate i ;;; modify (put_inode i empty) ;;; ilock i) (fun _ s' => exists q,
    icache s' !! i = Some q /\ i_valid q = true /\ i_type q = i_type p /\ i_major q = i_major p /\ i_minor q = i_minor p /\
    i_nlink q = i_nlink p /\ i_size q = i_size p /\ i_addrs q = i_addrs p) s.
Proof.
  intros sb Hi Hg Hip Hdev Hn HF Hfit Hty Href empty. apply wp_bind.
  eapply wp_mono; [by apply (iupdate_spec F s i p)|]. intros [] s1 (l & d & -> & Hod & _ & Hd).
  apply wp_bind, wp_modify. set (s2 := put_inode i empty (set_log l s)).
  assert (Hi2 : icache s2 !! i = Some empty) by (by eapply icache_put).
  eapply wp_mono; [apply (ilock_reads F s2 i p empty); try done|].
  - apply (did_inv _ _ _ _ _ Hd).
  - by eapply did_geom.
  - intros [] s3 (l' & _ & ->). eexists. split; [by eapply icache_put|]. done.
Qed.

(** ** A small file system *)

(** 100 blocks: the log at 2, the inodes at 32, the bitmap at 34 and the data from 35 on.
    Inode 1 is the root directory, in block 35, with the entries ".", ".." and "a"; inode 2 is
    the file "a" of five bytes, in block 36.  Both are in the cache. *)
Definition ex_sb : superblock := Superblock 100 64 8 30 2 32 34.
Definition ex_root : inode :=
  Inode ROOTDEV ROOTINO 1 (SleepLock false 0) true T_DIR 0 0 1 48 (35 :: replicate 12 0).
Definition ex_p : inode :=
  Inode ROOTDEV 2 1 (SleepLock false 0) true T_FILE 0 0 1 5 (36 :: replicate 12 0).
Definition ex_bitmap : list Z := replicate 4 255 ++ 31 :: replicate 507 0.
Definition ex_entries : list Z :=
  (le_bytes 2 1 ++ [46] ++ replicate 13 0) ++ (le_bytes 2 1 ++ [46; 46] ++ replicate 12 0) ++
  (le_bytes 2 2 ++ [97] ++ replicate 13 0).
Definition ex_inodes : list Z := put_dinode 64 ex_root (put_dinode 128 ex_p (replicate BSIZE 0)).
Definition ex_disk : list (list Z) :=
  <[36%nat := [1; 2; 3; 4; 5] ++ replicate 507 0]> (<[35%nat := ex_entries ++ replicate 464 0]>
    (<[34%nat := ex_bitmap]> (<[32%nat := ex_inodes]>
      (<[1%nat := put_words 0 [100; 64; 8; 30; 2; 32; 34] (replicate BSIZE 0)]> (replicate 100 (replicate BSIZE 0)))))).
Definition ex_log : logst := LogSt (binit ex_disk 1) example_log.
Definition ex_state : fss := Fss ex_log ex_sb (ex_root :: ex_p :: replicate 48 zero_inode) 0.

Lemma ex_blocks : Forall (fun b => length b = BSIZE) ex_disk.
Proof. apply Forall_forall. intros b Hb. apply list_elem_of_In in Hb.
  assert (H : forallb (fun b => Nat.eqb (length b) BSIZE) ex_disk = true) by (by vm_compute).
  rewrite forallb_forall in H. by apply Nat.eqb_eq, H.
Qed.

Lemma ex_quiescent : quiescent ex_log.
Proof.
  split; [|done]. split; simpl.
  - split; [by split|done..|constructor|]. intros b Hb. by apply not_elem_of_nil in Hb.
  - apply binit_ok. intros n x Hx. by apply (Forall_lookup_1 _ _ _ _ ex_blocks Hx).
  - apply binit_idle.
  - intros m. change (logged (st_log ex_log)) with (@nil Z). simpl. rewrite binit_no_dirty, elem_of_nil. done.
  - split; [by split|intros n x Hx; by apply (Forall_lookup_1 _ _ _ _ ex_blocks Hx)|].
    eexists. split; [by vm_compute|by vm_compute].
  - exists (replicate BSIZE 0). by vm_compute.
Qed.

Lemma ex_view n : view ex_state n = dview ex_disk n.
Proof. exact (quiescent_view _ n ex_quiescent). Qed.

Lemma ex_geom : fs_geom ex_sb ex_log.
Proof.
  assert (forall n, 32 <= n < 100 -> data_ok ex_log n) as H.
  { intros n Hn. unfold data_ok, home. simpl. change (length ex_disk) with 100%nat. lia. }
  split.
  - by vm_compute.
  - done.
  - by vm_compute.
  - intros n Hn. apply H. change (data_start ex_sb) with 35 in Hn. simpl in Hn. lia.
  - intros n Hn. apply H. change (data_start ex_sb) with 35 in Hn. simpl in Hn. lia.
  - done.
Qed.

Lemma ex_bits : bits_ok (dview ex_disk) ex_sb.
Proof.
  intros b Hb. assert (H : forallb (fun b => bit (dview ex_disk) ex_sb b || (35 <=? b)) (seqZ 0 100) = true) by (by vm_compute).
  rewrite forallb_forall in H. specialize (H b ltac:(apply list_elem_of_In, elem_of_seqZ; simpl in Hb; lia)).
  intros E. rewrite E in H. apply Z.leb_le in H. exact H.
Qed.

Lemma ex_file : file_ok ex_sb (dview ex_disk) ex_p.
Proof.
  assert (blocks_of ex_p (dview ex_disk) = [36]) as E by (by vm_compute).
  split; [done|rewrite E; apply NoDup_singleton|]. rewrite E. intros a ->%list_elem_of_singleton. split; by vm_compute.
Qed.

Lemma ex_file_at : file_at ex_state 1 ex_p.
Proof.
  assert (agree ex_sb (dview ex_disk) (view ex_state)) as Hag by (intros n _; apply ex_view).
  split; simpl.
  - exact ex_quiescent.
  - done.
  - exact ex_geom.
  - intros b Hb. rewrite (agree_bit ex_geom Hag) by done. by apply ex_bits.
  - done.
  - done.
  - done.
  - split; [by vm_compute|done].
  - done.
  - done.
  - split; [cbn; unfold T_FILE; lia..| |done]. repeat (constructor; [lia|]). constructor.
  - apply (agree_file ex_geom Hag), ex_file.
  - apply (agree_sized Hag); [apply ex_file|]. split; [by vm_compute|]. intros k Hk. simpl in Hk.
    rewrite Z.div_small by lia. by vm_compute.
  - apply (agree_disk ex_geom Hag); [done|]. exists ex_inodes. split; vm_compute; reflexivity.
Qed.

Definition ex_F : gset Z := list_to_set [32; 34; 35; 36; 37; 38; 39].
Definition ex_src : list Z := replicate 600 7.
Definition no_read : Z -> option (nat -> Z -> M fss (Z * list Z)) := fun _ => None.
Definition no_write : Z -> option (nat -> list Z -> Z -> M fss Z) := fun _ => None.

Lemma ex_fstate : fstate ex_F (opened ex_state) 1 ex_p.
Proof. apply file_at_fstate; [exact ex_file_at|by apply Nat.leb_le; vm_compute|]. apply elem_of_list_to_set. right. left. Qed.

Lemma ex_free : free_list (view (opened ex_state)) ex_sb = seqZ 37 63.
Proof. by vm_compute. Qed.

Lemma ex_can_write : can_write ex_F (opened ex_state) ex_p 5 600.
Proof.
  split.
  - done.
  - intros k Hk. assert (k / 512 = 0 \/ k / 512 = 1) as [->| ->].
    { pose proof (Z.div_le_lower_bound k 512 0). pose proof (Z.div_lt_upper_bound k 512 2). lia. }
    + intros _. replace (addr_of ex_p (view (opened ex_state)) 0) with 36 by (by vm_compute). by vm_compute.
    + intros H. exfalso. apply H. by vm_compute.
  - split; simpl fs_sb; rewrite ex_free; [by apply Nat.leb_le; vm_compute|]. intros x Hx. apply elem_of_list_to_set.
    change (nblk 5 600 + ind_need ex_p)%nat with 3%nat in Hx. change (take 3 (seqZ 37 63)) with [37; 38; 39] in Hx.
    do 4 right. exact Hx.
  - by vm_compute.
Qed.

Lemma balloc_correct_witness :
  wp (balloc ROOTDEV) (fun r s' => r = 37 /\ view s' 37 = Some zero_block) (opened ex_state).
Proof.
  eapply wp_mono; [apply (balloc_correct ex_F (opened ex_state) 37 (seqZ 38 62))|].
  - apply (fs_tx _ _ _ _ ex_fstate).
  - exact (fs_geo _ _ _ _ ex_fstate).
  - apply (fs_bits _ _ _ _ ex_fstate).
  - vm_compute; reflexivity.
  - vm_compute; reflexivity.
  - vm_compute; reflexivity.
  - intros r s' (-> & _ & H & _). split; [reflexivity|exact H].
Defined.

Lemma readi_correct_witness :
  wp (readi no_read 1 1 10) (fun r _ => r = (4, [2; 3; 4; 5])) (opened ex_state).
Proof.
  eapply wp_mono; [apply (readi_correct no_read ex_F (opened ex_state) 1 ex_p 1 10)|].
  - exact ex_fstate.
  - discriminate.
  - apply (fa_sized _ _ _ ex_file_at).
  - lia.
  - lia.
  - intros r s' (-> & _). vm_compute. reflexivity.
Defined.

Lemma writei_correct_witness :
  wp (writei no_write 1 ex_src 5 600) (fun r s' => r = 600 /\ exists p', icache s' !! 1%nat = Some p' /\
    contents p' (view s') = [1; 2; 3; 4; 5] ++ ex_src) (opened ex_state).
Proof.
  eapply wp_mono; [apply (writei_correct no_write ex_F (opened ex_state) 1 ex_p ex_src 5 600)|].
  - exact ex_fstate.
  - apply (fa_fits _ _ _ ex_file_at).
  - discriminate.
  - apply (fa_sized _ _ _ ex_file_at).
  - vm_compute; intuition discriminate.
  - vm_compute; intuition discriminate.
  - vm_compute; discriminate.
  - vm_compute; intuition discriminate.
  - exact ex_can_write.
  - intros r s' (-> & p' & E & _ & Hw & _). split; [reflexivity|]. exists p'. rewrite E. split; [reflexivity|].
    rewrite (fw_contents _ _ _ _ _ _ _ Hw). vm_compute. reflexivity.
Defined.

Lemma write_then_read_witness :
  wp (writei no_write 1 ex_src 5 600 ;;; readi no_read 1 5 600) (fun r _ => r = (600, ex_src)) (opened ex_state).
Proof.
  eapply wp_mono; [apply (write_then_read no_read no_write ex_F (opened ex_state) 1 ex_p ex_src 5 600)|].
  - exact ex_fstate.
  - apply (fa_fits _ _ _ ex_file_at).
  - discriminate.
  - apply (fa_sized _ _ _ ex_file_at).
  - vm_compute; intuition discriminate.
  - vm_compute; intuition discriminate.
  - vm_compute; discriminate.
  - vm_compute; intuition discriminate.
  - exact ex_can_write.
  - intros r s' ->. reflexivity.
Defined.

Lemma write_call_atomic_witness :
  wp (write_call no_write 1 ex_src 5 600) (fun r s' => r = 600 /\ exists p' ws, file_at s' 1 p' /\
    crash_safe ex_disk ws (fun V => agree ex_sb (view ex_state) V \/
      contents p' V = [1; 2; 3; 4; 5] ++ ex_src /\ on_disk V ex_sb p')) ex_state.
Proof.
  eapply wp_mono; [apply (write_call_atomic no_write ex_state 1 ex_p ex_src 5 600)|].
  - exact ex_file_at.
  - vm_compute; intuition discriminate.
  - vm_compute; intuition discriminate.
  - vm_compute; discriminate.
  - vm_compute; discriminate.
  - vm_compute; lia.
  - intros r s' (-> & p' & ws & H1 & H2 & _ & H4). split; [reflexivity|]. exists p', ws. split; [exact H1|].
    eapply crash_safe_mono; [exact H4|]. intros V [HV|HV]; [left; exact HV|right].
    split; [rewrite (fw_contents _ _ _ _ _ _ _ HV); vm_compute; reflexivity|].
    apply (fw_disk _ _ _ _ _ _ _ HV), (fa_disk _ _ _ ex_file_at).
Defined.

Lemma inode_roundtrip_witness :
  wp (iupdate 1 ;;; modify (put_inode 1 (Inode ROOTDEV 2 1 (SleepLock false 0) false 0 0 0 0 0 [])) ;;; ilock 1)
    (fun _ s' => exists q, icache s' !! 1%nat = Some q /\ i_size q = 5) (opened ex_state).
Proof.
  eapply wp_mono; [apply (inode_roundtrip ex_F (opened ex_state) 1 ex_p)|].
  - apply (fs_tx _ _ _ _ ex_fstate).
  - exact (fs_geo _ _ _ _ ex_fstate).
  - reflexivity.
  - reflexivity.
  - vm_compute; intuition discriminate.
  - vm_compute; reflexivity.
  - apply (fa_fits _ _ _ ex_file_at).
  - discriminate.
  - vm_compute; discriminate.
  - intros u s' (q & Hq & _ & _ & _ & _ & _ & Hsz & _). exists q. split; [exact Hq|exact Hsz].
Defined.
