(* ===== verification/FsDir.v ===== *)
(** * Directories and path names

    A directory is a file of 16-byte entries, searched in order for a name of at most
    [DIRSIZ] bytes; a path is resolved from a directory by its elements.  The inode cache
    counts the references that the callers hold.  [namei] returns the inode that the
    directories on the disk name and leaves no reference behind. *)

From S2P Require Import Prelude Bytes File Bio Log Recovery CStr Fs FsBlocks FsFile FsRw FsInode FsWrite.

(** ** Names *)

(** The name in a field of [n] bytes: up to a NUL or to its end. *)
Fixpoint cname (n : nat) (l : list Z) : list Z :=
  match n, l with
  | S n', b :: l' => if b =? 0 then [] else b :: cname n' l'
  | _, _ => []
  end.
(** The first [n] bytes, or those up to a NUL, are there. *)
Fixpoint readable (n : nat) (l : list Z) : Prop :=
  match n, l with
  | O, _ => True
  | S _, [] => False
  | S n', b :: l' => b = 0 \/ readable n' l'
  end.

Lemma readable_length n l : (n <= length l)%nat -> readable n l.
Proof. revert l. induction n as [|n IH]; intros [|b l] H; simpl in *; try done; try lia. right. apply IH. lia. Qed.

Lemma strncmp_spec n p q s : readable n p -> readable n q ->
  wp (strncmp n p q) (fun r s' => s' = s /\ (r = 0 <-> cname n p = cname n q)) s.
Proof.
  revert p q. induction n as [|n IH]; intros [|a p] [|b q] Hp Hq; try done; try by apply wp_ret.
  simpl. do 2 apply wp_bind, wp_ret.
  destruct (Z.eqb_spec a 0) as [->|Ha]; simpl.
  - apply wp_ret. split; [done|]. destruct (Z.eqb_spec b 0) as [->|]; [done|]. split; [lia|done].
  - destruct (Z.eqb_spec a b) as [<-|Hab]; simpl.
    + rewrite (proj2 (Z.eqb_neq a 0)) by done. eapply wp_mono; [apply IH; naive_solver|].
      intros r s' [-> H]. split; [done|]. rewrite H. split; [congruence|by intros [= ->]].
    + apply wp_ret. split; [done|]. split; [lia|]. destruct (b =? 0); [done|]. by intros [= ].
Qed.

Lemma strncpy_spec n t s : readable n t ->
  wp (strncpy n t) (fun r s' => s' = s /\ length r = n /\ cname n r = cname n t) s.
Proof.
  revert t. induction n as [|n IH]; intros [|b t] Ht; try done; try by apply wp_ret.
  simpl. apply wp_bind, wp_ret. destruct (Z.eqb_spec b 0) as [->|Hb].
  - apply wp_ret. simpl. by rewrite length_replicate.
  - apply wp_bind. eapply wp_mono; [apply IH; naive_solver|]. intros r s' (-> & Hl & Hc). apply wp_ret.
    simpl. rewrite (proj2 (Z.eqb_neq b 0)) by done. by rewrite Hl, Hc.
Qed.

Lemma cname_take n l : 0 ∉ l -> cname n l = take n l.
Proof.
  revert l. induction n as [|n IH]; intros [|b l] H; try done. simpl. apply not_elem_of_cons in H as [H1 H2].
  rewrite (proj2 (Z.eqb_neq b 0)) by congruence. by rewrite IH.
Qed.

Lemma cname_nul n l l' : 0 ∉ l -> (length l < n)%nat -> cname n (l ++ 0 :: l') = l.
Proof.
  revert l. induction n as [|n IH]; intros [|b l] H Hl; simpl in *; try lia; [done|].
  apply not_elem_of_cons in H as [H1 H2]. rewrite (proj2 (Z.eqb_neq b 0)) by congruence. by rewrite IH by (done || lia).
Qed.

Lemma cname_app n l l' : 0 ∉ l -> length l = n -> cname n (l ++ l') = l.
Proof.
  revert l. induction n as [|n IH]; intros [|b l] H Hl; simpl in *; try done.
  apply not_elem_of_cons in H as [H1 H2]. rewrite (proj2 (Z.eqb_neq b 0)) by congruence. by rewrite IH by (done || lia).
Qed.

(** ** Elements of a path *)

Definition elems (path : list Z) : list (list Z) := words [SLASH] path.

Lemma in_slash c : in_set [SLASH] c = (SLASH =? c).
Proof. unfold in_set. simpl. rewrite orb_false_r. apply Z.eqb_sym. Qed.

Lemma elems_skip path : elems (snd (span (Z.eqb SLASH) path)) = elems path /\
  match snd (span (Z.eqb SLASH) path) with [] => True | c :: _ => c <> SLASH end /\
  exists a, path = a ++ snd (span (Z.eqb SLASH) path).
Proof.
  destruct (span (Z.eqb SLASH) path) as [a s] eqn:E. apply span_spec in E as (-> & Ha & Hs). simpl.
  split_and!; [|destruct s; [done|by apply Z.eqb_neq in Hs as H; congruence]|by exists a].
  symmetry. apply words_delims. eapply Forall_impl; [exact Ha|]. intros c Hc. rewrite <-Hc. apply in_slash.
Qed.

Lemma elems_nil path : match path with [] => True | c :: _ => c <> SLASH end -> elems path = [] -> path = [].
Proof.
  destruct path as [|c path]; [done|]. intros Hc. unfold elems, words. cbn [split]. rewrite in_slash.
  rewrite (proj2 (Z.eqb_neq _ _)) by congruence. destruct (split [SLASH] path); by rewrite filter_cons_True.
Qed.

Lemma skipelem_spec path name : 0 ∉ path -> length name = DIRSIZ ->
  match skipelem path name with
  | None => elems path = []
  | Some (rest, name') => exists e, elems path = e :: elems rest /\ length name' = DIRSIZ /\
      cname DIRSIZ name' = take DIRSIZ e /\ 0 ∉ rest /\ (length rest < length path)%nat /\ (elems rest = [] -> rest = [])
  end.
Proof.
  intros H0 Hn. unfold skipelem. destruct (elems_skip path) as (E1 & Hs & a & Ea).
  destruct (snd (span (Z.eqb SLASH) path)) as [|c s]; [by rewrite <-E1|].
  destruct (span (fun c => negb (c =? SLASH)) (c :: s)) as [e r] eqn:E2. apply span_spec in E2 as (Ecs & He & Hr).
  destruct (elems_skip r) as (E3 & Hs3 & b & Eb). set (rest := snd (span (Z.eqb SLASH) r)) in *.
  assert (Forall (fun c => in_set [SLASH] c = false) e) as He'.
  { eapply Forall_impl; [exact He|]. intros x Hx. rewrite in_slash, Z.eqb_sym. by apply negb_true_iff in Hx. }
  assert (e <> []) as Hne.
  { intros ->. simpl in Ecs. subst r. apply negb_false_iff, Z.eqb_eq in Hr. done. }
  assert (Hw : elems (e ++ r) = e :: elems r).
  { unfold elems. destruct r as [|x r]; [by rewrite app_nil_r, words_word|].
    apply negb_false_iff in Hr. assert (in_set [SLASH] x = true) as Hx by (by rewrite in_slash, Z.eqb_sym).
    by rewrite words_app, words_word, words_delim by done. }
  assert (H0e : 0 ∉ e /\ 0 ∉ rest).
  { rewrite Ea, Ecs, Eb in H0. rewrite !not_elem_of_app in H0. tauto. }
  exists e. rewrite <-E1, Ecs, Hw, E3. split; [done|].
  assert (Hname : forall src, (length src <= DIRSIZ)%nat -> length (splice 0 src name) = DIRSIZ).
  { intros src Hsrc. rewrite length_splice; [done|]. simpl. lia. }
  split_and!.
  - destruct (Nat.leb_spec DIRSIZ (length e)); apply Hname; [rewrite length_take; lia|rewrite length_app; simpl; lia].
  - destruct (Nat.leb_spec DIRSIZ (length e)) as [Hl|Hl]; unfold splice; rewrite take_0, app_nil_l.
    + apply cname_app; [|rewrite length_take; lia]. intros Hin. apply (proj1 H0e). apply elem_of_take in Hin as (k & Hk & _). by eapply list_elem_of_lookup_2.
    + rewrite <-app_assoc. cbn [app]. rewrite cname_nul by (done || apply H0e). by rewrite take_ge by lia.
  - apply H0e.
  - rewrite Ea, Ecs, Eb, !length_app. destruct e; [done|simpl; lia].
  - intros Hel. apply elems_nil; [done|by rewrite E3].
Qed.

(** ** Entries of a directory *)

Definition dent (c : list Z) (k : nat) : list Z := slice (16 * k) 16 c.
Definition dents (c : list Z) : list (list Z) := map (dent c) (seq 0 (length c / 16)).
(** An entry in use whose name is [nm]. *)
Definition entry_is (nm de : list Z) : Prop := de_inum de <> 0 /\ cname DIRSIZ (de_name de) = nm.
#[global] Instance entry_is_dec nm de : Decision (entry_is nm de).
Proof. unfold entry_is. apply _. Defined.
Definition dir_find (nm : list Z) (c : list Z) : option (nat * list Z) := list_find (entry_is nm) (dents c).

Lemma lookup_dents c k : (k < length c / 16)%nat -> dents c !! k = Some (dent c k).
Proof. intros Hk. unfold dents. rewrite list_lookup_fmap, lookup_seq_lt by done. done. Qed.

Lemma length_dent c k : (k < length c / 16)%nat -> length (dent c k) = 16%nat.
Proof. intros Hk. unfold dent. apply length_slice. pose proof (Nat.Div0.mul_div_le (length c) 16). lia. Qed.

(** The search from entry [k] on. *)
Definition find_from (nm c : list Z) (k : nat) : option (nat * list Z) :=
  prod_map (Nat.add k) id <$> list_find (entry_is nm) (drop k (dents c)).

Lemma find_from_here nm c k : (k < length c / 16)%nat -> entry_is nm (dent c k) -> find_from nm c k = Some (k, dent c k).
Proof.
  intros Hk He. unfold find_from. rewrite (drop_S _ (dent c k)) by (by apply lookup_dents). simpl.
  rewrite decide_True by done. simpl. by rewrite Nat.add_0_r.
Qed.

Lemma find_from_next nm c k : (k < length c / 16)%nat -> ~ entry_is nm (dent c k) -> find_from nm c k = find_from nm c (S k).
Proof.
  intros Hk He. unfold find_from. rewrite (drop_S _ (dent c k)) by (by apply lookup_dents). cbn [list_find].
  rewrite decide_False by done. destruct (list_find (entry_is nm) (drop (S k) (dents c))) as [[j x]|]; [|done].
  simpl. do 2 f_equal. lia.
Qed.

Lemma find_from_end nm c k : (length c / 16 <= k)%nat -> find_from nm c k = None.
Proof. intros Hk. unfold find_from. rewrite drop_ge; [done|]. unfold dents. rewrite length_map, length_seq. lia. Qed.

Lemma find_from_0 nm c : find_from nm c 0 = dir_find nm c.
Proof.
  unfold find_from, dir_find. rewrite drop_0. destruct (list_find (entry_is nm) (dents c)) as [[k x]|]; [|done].
  done.
Qed.

(** A directory: whole entries. *)
Record dir_ok (p : inode) (V : Z -> option (list Z)) : Prop := {
  do_type : i_type p = T_DIR;
  do_sized : sized p V;
  do_whole : i_size p mod 16 = 0
}.

Lemma dents_count p V : dir_ok p V -> Z.of_nat (length (contents p V) / 16) * 16 = i_size p.
Proof.
  intros [_ [[H0 _] _] Hm]. rewrite length_contents, Nat2Z.inj_div by done. rewrite Z2Nat.id by done.
  change (Z.of_nat 16) with 16. pose proof (Z.div_mod (i_size p) 16). lia.
Qed.

Section lookup.
Context (F : gset Z) (dev_read : Z -> option (nat -> Z -> M fss (Z * list Z))).

(** [readi] of entry [k]. *)
Lemma readi_entry s dp p k : fstate F s dp p -> dir_ok p (view s) -> 16 * Z.of_nat k < i_size p ->
  wp (readi dev_read dp (16 * Z.of_nat k) DIRENT) (fun r s' =>
    r = (DIRENT, dent (contents p (view s)) k) /\ exists l, s' = set_log l s /\ did F [] (fs_log s) l []) s.
Proof.
  intros Hs Hd Hk. pose proof Hd as [Ht Hsz Hm]. pose proof Hsz as [[H0 H1] _]. pose proof (dents_count _ _ Hd) as Hc.
  assert (MAXFILE * 512 = 71680) as EM by done. unfold DIRENT.
  assert (16 * Z.of_nat k + 16 <= i_size p) as Hk2 by lia.
  eapply wp_mono; [apply (readi_spec F dev_read s dp p); try done; [by rewrite Ht|lia..]|].
  intros r s' [-> Hl]. split; [|exact Hl]. rewrite Z.min_l by lia. f_equal. unfold dent. f_equal; lia.
Qed.

Lemma did_contents s l p : did F [] (fs_log s) l [] -> contents p (view (set_log l s)) = contents p (view s).
Proof.
  intros Hd. pose proof (did_view_nil _ _ _ _ Hd) as HV. apply contents_ext. intros j _.
  unfold byte_at, block_at, addr_of, slots, ind_words. by rewrite !HV.
Qed.

Lemma did_sized s l p : did F [] (fs_log s) l [] -> sized p (view s) -> sized p (view (set_log l s)).
Proof.
  intros Hd [H1 H2]. pose proof (did_view_nil _ _ _ _ Hd) as HV. split; [done|]. intros j Hj.
  unfold addr_of, slots, ind_words. rewrite HV. by apply H2.
Qed.

(** What a search that read the directory goes on with. *)
Definition found_at (Q : option (nat * Z) -> fss -> Prop) (s : fss) (p : inode) (f : option (nat * list Z)) : Prop :=
  match f with
  | None => Q None s
  | Some (k, de) => wp (iget (i_dev p) (de_inum de)) (fun ip s' => Q (Some (ip, 16 * Z.of_nat k)) s') s
  end.

Lemma dirlookup_loop_spec Q name dp p s0 : readable DIRSIZ name -> forall fuel k s,
  fstate F s dp p -> dir_ok p (view s) -> contents p (view s) = contents p (view s0) ->
  (exists l, s = set_log l s0 /\ did F [] (fs_log s0) l []) ->
  (length (contents p (view s0)) / 16 < k + fuel)%nat -> (k <= length (contents p (view s0)) / 16)%nat ->
  (forall l, did F [] (fs_log s0) l [] ->
    found_at Q (set_log l s0) p (find_from (cname DIRSIZ name) (contents p (view s0)) k)) ->
  wp (dirlookup_loop dev_read fuel dp name (16 * Z.of_nat k)) Q s.
Proof.
  intros Hname fuel. induction fuel as [|fuel IH]; intros k s Hs Hdir Hct (l0 & -> & Hd0) Hfuel Hk HQ; [lia|].
  pose proof (dents_count _ _ Hdir) as Hcnt. rewrite Hct in Hcnt. cbn [dirlookup_loop].
  eapply wp_get_inode; [apply Hs|]. destruct (Z.ltb_spec (16 * Z.of_nat k) (i_size p)) as [Hlt|Hge].
  - assert (Hk' : (k < length (contents p (view s0)) / 16)%nat) by lia.
    apply wp_bind. eapply wp_mono; [by apply (readi_entry (set_log l0 s0) dp p k)|].
    intros r s1 (-> & l & -> & Hd). rewrite set_set_log. apply wp_bind, wp_panic_if; [done|].
    assert (Hd1 : did F [] (fs_log s0) l []) by (by eapply did_app; [exact Hd0|exact Hd|]).
    assert (Hs1 : fstate F (set_log l s0) dp p) by (by apply (fstate_did F (set_log l0 s0))).
    assert (Hdir1 : dir_ok p (view (set_log l s0))).
    { destruct Hdir. split; [done| |done]. by apply (did_sized (set_log l0 s0)). }
    rewrite Hct. set (de := dent _ k).
    assert (Hnext : ~ entry_is (cname DIRSIZ name) de ->
      wp (dirlookup_loop dev_read fuel dp name (16 * Z.of_nat k + DIRENT)) Q (set_log l s0)).
    { intros Hne. replace (16 * Z.of_nat k + DIRENT) with (16 * Z.of_nat (S k)) by (unfold DIRENT; lia).
      apply IH; [done|done|by apply did_contents|by exists l|lia|lia|]. intros l' Hl'.
      rewrite <-find_from_next by done. by apply HQ. }
    destruct (Z.eqb_spec (de_inum de) 0) as [E|E]; [apply Hnext; by intros []|].
    apply wp_bind. unfold namecmp. eapply wp_mono; [apply strncmp_spec; [done|]|].
    { apply readable_length. unfold de_name. rewrite length_slice; [done|]. unfold de. by rewrite length_dent. }
    intros c s1 (-> & Hc). destruct (Z.eqb_spec c 0) as [->|Hc0].
    + specialize (HQ l Hd1). rewrite find_from_here in HQ by (done || by split; [|symmetry; apply Hc]). simpl in HQ.
      apply wp_bind. eapply wp_mono; [exact HQ|]. intros ip s1 H. by apply wp_ret.
    + apply Hnext. intros [_ E2]. apply Hc0, Hc. done.
  - apply wp_ret. specialize (HQ l0 Hd0). rewrite find_from_end in HQ by lia. exact HQ.
Qed.

Lemma dirlookup_spec Q name dp p s : readable DIRSIZ name -> fstate F s dp p -> dir_ok p (view s) ->
  (forall l, did F [] (fs_log s) l [] ->
    found_at Q (set_log l s) p (dir_find (cname DIRSIZ name) (contents p (view s)))) ->
  wp (dirlookup dev_read dp name) Q s.
Proof.
  intros Hname Hs Hdir HQ. unfold dirlookup. eapply wp_get_inode; [apply Hs|].
  apply wp_bind, wp_panic_if; [by rewrite (do_type _ _ Hdir)|]. pose proof (dents_count _ _ Hdir) as Hcnt.
  apply (dirlookup_loop_spec Q name dp p s Hname _ 0 s); try done; [|unfold DIRENT|lia|].
  - exists (fs_log s). split; [symmetry; apply set_log_id|]. apply did_refl, Hs.
  - rewrite <-Hcnt, Z.div_mul by lia. lia.
  - rewrite find_from_0. exact HQ.
Qed.
End lookup.
