(* ===== verification/FsCache.v ===== *)
(** * The inode cache: who holds which inode

    The callers hold references [h], a list of indices into the cache.  [cache_ok] says that
    the counts are the numbers of references, that no inode is there twice, and that a valid
    entry is as on the disk; [iget], [idup], [ilock], [iunlock] and [iput] keep it. *)

From S2P Require Import Prelude Bytes File Bio Log Recovery CStr Fs FsBlocks FsFile FsRw FsInode FsWrite FsDir.

(** ** Inodes on the disk *)

(** Inode [n] as the disk has it. *)
Definition dnode (V : Z -> option (list Z)) (sb : superblock) (n : Z) : inode :=
  load_dinode (dinode_off n) (default [] (V (iblock sb n))) (Inode ROOTDEV n 0 (SleepLock false 0) true 0 0 0 0 0 []).

Lemma on_disk_dnode V sb p : on_disk V sb p ->
  let q := dnode V sb (i_inum p) in
  i_type q = i_type p /\ i_major q = i_major p /\ i_minor q = i_minor p /\ i_nlink q = i_nlink p /\
  i_size q = i_size p /\ i_addrs q = i_addrs p.
Proof.
  intros (d & Hd & Hl). unfold dnode. rewrite Hd. simpl. destruct p. unfold load_dinode, set_valid in Hl. simpl in *.
  by injection Hl as -> -> -> -> -> ->.
Qed.

(** Only the size and the addresses matter for the contents. *)
Lemma contents_fields p q V : i_size p = i_size q -> i_addrs p = i_addrs q -> contents p V = contents q V.
Proof.
  intros E1 E2. unfold contents. rewrite E1. apply map_ext. intros k. unfold byte_at, block_at, addr_of, slots, ind_words, ind.
  by rewrite E2.
Qed.

Lemma file_ok_fields sb p q V : i_addrs p = i_addrs q -> file_ok sb V p -> file_ok sb V q.
Proof.
  intros E [H1 H2 H3]. assert (blocks_of q V = blocks_of p V) as Eb.
  { unfold blocks_of, slots, ind_words, ind. by rewrite E. }
  split; rewrite <-?E, ?Eb; done.
Qed.

Lemma sized_fields p q V : i_size p = i_size q -> i_addrs p = i_addrs q -> sized p V -> sized q V.
Proof.
  intros E1 E2 [H1 H2]. split; rewrite <-E1; [done|]. intros k Hk. specialize (H2 k Hk).
  unfold addr_of, slots, ind_words, ind in *. by rewrite <-E2.
Qed.

Definition allocated (V : Z -> option (list Z)) (sb : superblock) (n : Z) : Prop :=
  0 <= n < sb_ninodes sb /\ i_type (dnode V sb n) <> 0.

(** The inodes in use are linked, and the directories have the entries they should. *)
Record tree_ok (V : Z -> option (list Z)) (sb : superblock) : Prop := TreeOk {
  to_block : forall n, 0 <= n < sb_ninodes sb -> exists d, V (iblock sb n) = Some d;
  to_linked : forall n, allocated V sb n -> 1 <= i_nlink (dnode V sb n);
  to_dir : forall n, allocated V sb n -> i_type (dnode V sb n) = T_DIR ->
    file_ok sb V (dnode V sb n) /\ dir_ok (dnode V sb n) V;
  to_entry : forall n de, allocated V sb n -> i_type (dnode V sb n) = T_DIR ->
    de ∈ dents (contents (dnode V sb n) V) -> de_inum de <> 0 -> allocated V sb (de_inum de)
}.

(** ** The cache *)

Section cache.
Context (V : Z -> option (list Z)) (sb : superblock).

Definition entry_ok (p : inode) : Prop :=
  i_dev p = ROOTDEV /\ allocated V sb (i_inum p) /\ (i_valid p = true -> on_disk V sb p).

(** [lk] is the entry that the caller has locked. *)
Record cache_ok (lk : option nat) (c : list inode) (h : list nat) : Prop := CacheOk {
  co_refs : Z.of_nat (length h) < 2 ^ 31;
  co_held : forall i, i ∈ h -> (i < length c)%nat;
  co_ref : forall i p, c !! i = Some p -> i_ref p = count h i;
  co_entry : forall i p, c !! i = Some p -> i ∈ h -> entry_ok p;
  co_uniq : forall i j p q, c !! i = Some p -> c !! j = Some q -> i ∈ h -> j ∈ h -> i_inum p = i_inum q -> i = j;
  co_lock : forall i p, c !! i = Some p -> lk <> Some i -> i_lock p = SleepLock false 0
}.

Lemma count_zero h i : count h i = 0 <-> i ∉ h.
Proof.
  split.
  - intros E Hi. pose proof (count_held h i Hi). lia.
  - intros Hi. unfold count. rewrite filter_nothing; [done|]. intros x Hx ->. done.
Qed.

Lemma count_pos h i : 0 < count h i <-> i ∈ h.
Proof.
  pose proof (count_nonneg h i). split; [|intros Hi; pose proof (count_held h i Hi); lia].
  intros Hp. destruct (decide (i ∈ h)) as [|Hn]; [done|]. apply count_zero in Hn. lia.
Qed.

(** The scan of [iget]: the first entry of the inode, else the first free entry. *)
Definition hit (dev inum : Z) (p : inode) : Prop := 0 < i_ref p /\ i_dev p = dev /\ i_inum p = inum.
#[local] Instance hit_dec dev inum p : Decision (hit dev inum p).
Proof. unfold hit. apply _. Defined.

Lemma hit_bool dev inum p : (0 <? i_ref p) && (i_dev p =? dev) && (i_inum p =? inum) = bool_decide (hit dev inum p).
Proof.
  unfold hit. destruct (Z.ltb_spec 0 (i_ref p)), (Z.eqb_spec (i_dev p) dev), (Z.eqb_spec (i_inum p) inum);
    simpl; symmetry; (apply bool_decide_eq_true || apply bool_decide_eq_false); lia.
Qed.

Lemma iget_scan_spec dev inum l : forall i e, iget_scan l dev inum i e =
  match list_find (hit dev inum) l with
  | Some (k, _) => inl (i + k)%nat
  | None => inr (match e with
                 | Some _ => e
                 | None => (fun kp => (i + fst kp)%nat) <$> list_find (fun p => i_ref p = 0) l
                 end)
  end.
Proof.
  induction l as [|q l IH]; intros i e; simpl; [by destruct e|]. rewrite hit_bool.
  destruct (decide (hit dev inum q)) as [Hh|Hh].
  - rewrite bool_decide_eq_true_2 by done. f_equal. lia.
  - rewrite bool_decide_eq_false_2 by done. rewrite IH. destruct (list_find (hit dev inum) l) as [[k x]|]; simpl; [f_equal; lia|].
    f_equal. destruct e as [e|]; [done|]. destruct (Z.eqb_spec (i_ref q) 0) as [E|E].
    + rewrite decide_True by done. simpl. f_equal. lia.
    + rewrite decide_False by done. destruct (list_find (fun p => i_ref p = 0) l) as [[k x]|]; simpl; [f_equal; lia|done].
Qed.

(** Changing entry [i] and the references to it. *)
Lemma cache_put lk lk' c h h' i p : cache_ok lk c h -> (i < length c)%nat -> Z.of_nat (length h') < 2 ^ 31 ->
  i_ref p = count h' i -> (forall k, k <> i -> count h' k = count h k) ->
  (i ∈ h' -> entry_ok p /\ forall j q, j <> i -> c !! j = Some q -> j ∈ h -> i_inum q <> i_inum p) ->
  (lk' <> Some i -> i_lock p = SleepLock false 0) -> (forall k, k <> i -> lk' <> Some k -> lk <> Some k) ->
  cache_ok lk' (<[i := p]> c) h'.
Proof.
  intros [H1 H2 H3 H4 H5 H6] Hi Hlen Hp Hk He Hl Hlk.
  assert (Hmem : forall k, k <> i -> k ∈ h' <-> k ∈ h) by (intros k Hne; by rewrite <-!count_pos, Hk).
  assert (Hlook : forall k q, <[i := p]> c !! k = Some q -> k = i /\ q = p \/ k <> i /\ c !! k = Some q).
  { intros k q Hq. destruct (decide (k = i)) as [->|Hne].
    - rewrite list_lookup_insert_eq in Hq by done. left. split; congruence.
    - rewrite list_lookup_insert_ne in Hq by done. by right. }
  split; [done| | | | |].
  - intros k Hk'. rewrite length_insert. destruct (decide (k = i)) as [->|]; [done|]. apply H2. by apply Hmem.
  - intros k q [[-> ->]|[Hne Hq]]%Hlook; [done|]. rewrite Hk by done. by apply H3.
  - intros k q [[-> ->]|[Hne Hq]]%Hlook Hin; [by apply He|]. eapply H4; [exact Hq|by apply Hmem].
  - intros j k q r [[-> ->]|[Hj Hq]]%Hlook [[-> ->]|[Hk' Hr]]%Hlook Hjn Hkn E; [done| | |].
    + exfalso. destruct (He Hjn) as [_ Hu]. apply (Hu k r); [done|done|by apply Hmem|done].
    + exfalso. destruct (He Hkn) as [_ Hu]. apply (Hu j q); [done|done|by apply Hmem|done].
    + apply (H5 j k q r); try done; by apply Hmem.
  - intros k q [[-> ->]|[Hne Hq]]%Hlook Hnl; [by apply Hl|]. eapply H6; [exact Hq|by apply Hlk].
Qed.

(** A free entry is left while less references are held than there are entries. *)
Lemma free_entry lk c h : cache_ok lk c h -> (length h < length c)%nat ->
  exists k p, list_find (fun p => i_ref p = 0) c = Some (k, p).
Proof.
  intros Hc Hlt. destruct (list_find (fun p => i_ref p = 0) c) as [[k p]|] eqn:E; [by exists k, p|].
  exfalso. apply list_find_None in E. assert (seq 0 (length c) ⊆+ h) as Hsub.
  { apply NoDup_submseteq; [apply NoDup_seq|]. intros i [_ Hi]%elem_of_seq. simpl in Hi.
    destruct (lookup_lt_is_Some_2 c i Hi) as [p Hp]. rewrite Forall_forall in E.
    specialize (E p ltac:(by eapply list_elem_of_lookup_2)). rewrite (co_ref _ _ _ Hc i p Hp) in E.
    destruct (decide (i ∈ h)) as [|Hn]; [done|]. apply count_zero in Hn. congruence. }
  apply submseteq_length in Hsub. rewrite length_seq in Hsub. lia.
Qed.
End cache.

(** ** The operations on the cache *)

Definition inum_at (s : fss) (i : nat) : option Z := i_inum <$> icache s !! i.
(** The references of [h] stay where they are, and the current directory. *)
Record keeps (h : list nat) (s s' : fss) : Prop := Keeps {
  kp_len : length (icache s') = length (icache s);
  kp_at : forall i, i ∈ h -> inum_at s' i = inum_at s i;
  kp_cwd : fs_cwd s' = fs_cwd s
}.

Lemma kept_refl h s : keeps h s s.
Proof. done. Qed.
Lemma kept_trans h s s' s'' : keeps h s s' -> keeps h s' s'' -> keeps h s s''.
Proof. intros [] []. split; [congruence| |congruence]. intros i Hi. by rewrite kp_at1, kp_at0. Qed.
Lemma kept_log h s s' l : keeps h (set_log l s) s' -> keeps h s s'.
Proof. by intros []. Qed.
Lemma keeps_sub h h' s s' : (forall i, i ∈ h -> i ∈ h') -> keeps h' s s' -> keeps h s s'.
Proof. intros Hs []. split; [done| |done]. intros i Hi. by apply kp_at0, Hs. Qed.
Lemma keeps_put h s i p q : icache s !! i = Some p -> (i ∈ h -> i_inum q = i_inum p) -> keeps h s (put_inode i q s).
Proof.
  intros Hi Hq. split; simpl; [by rewrite length_insert| |done]. intros j Hj. unfold inum_at. simpl.
  destruct (decide (j = i)) as [->|Hne]; [|by rewrite list_lookup_insert_ne].
  rewrite list_lookup_insert_eq by (by eapply lookup_lt_Some). rewrite Hi. simpl. by rewrite Hq.
Qed.

Section system.
Context (F : gset Z) (V : Z -> option (list Z)) (sb : superblock).

(** Inside the only transaction, which has not changed the file system [V]. *)
Record fsys_ok (lk : option nat) (h : list nat) (s : fss) : Prop := FsysOk {
  fy_tx : tx_inv F [] (fs_log s);
  fy_sb : fs_sb s = sb;
  fy_geo : fs_geom sb (fs_log s);
  fy_view : forall n, view s n = V n;
  fy_cache : cache_ok V sb lk (icache s) h;
  fy_lock : forall i, lk = Some i -> i ∈ h /\ exists p, icache s !! i = Some p /\ i_valid p = true /\
    i_lock p = SleepLock true (mypid (st_bio (fs_log s)));
  fy_alone : lh_n (st_log (fs_log s)) = 0 /\ l_outstanding (st_log (fs_log s)) = 1 /\ l_committing (st_log (fs_log s)) = false
}.

Lemma fsys_did lk h s l : fsys_ok lk h s -> did F [] (fs_log s) l [] -> fsys_ok lk h (set_log l s).
Proof.
  intros [H1 H2 H3 H4 H5 H6] Hd. split; simpl; try done.
  - apply Hd.
  - by eapply did_geom.
  - intros n. rewrite (did_view_nil _ _ _ _ Hd). apply H4.
  - intros i E. rewrite (did_pid _ _ _ _ _ Hd). by apply H6.
  - by rewrite (did_idle _ _ _ _ _ Hd).
Qed.

Lemma fsys_entry lk h s i : fsys_ok lk h s -> i ∈ h -> exists p, icache s !! i = Some p /\ entry_ok V sb p /\ i_ref p = count h i.
Proof.
  intros Hs Hi. pose proof (fy_cache _ _ _ Hs) as Hc.
  destruct (lookup_lt_is_Some_2 (icache s) i (co_held _ _ _ _ _ Hc i Hi)) as [p Hp]. exists p.
  split; [done|]. split; [by eapply co_entry|by eapply co_ref].
Qed.

Lemma entry_ref x p : entry_ok V sb p -> entry_ok V sb (set_iref x p).
Proof. intros (H1 & H2 & H3). split_and!; [done|done|]. intros Hv. by eapply on_disk_same, H3. Qed.
Lemma entry_lock x p : entry_ok V sb p -> entry_ok V sb (set_ilock x p).
Proof. intros (H1 & H2 & H3). split_and!; [done|done|]. intros Hv. by eapply on_disk_same, H3. Qed.

(** One more reference to an entry that is held. *)
Lemma ref_more lk h s i p : fsys_ok lk h s -> Z.of_nat (length h) + 1 < 2 ^ 31 -> i ∈ h -> icache s !! i = Some p ->
  let s' := put_inode i (set_iref (s32 (i_ref p + 1)) p) s in fsys_ok lk (i :: h) s' /\ keeps h s s'.
Proof.
  intros Hs Hlen Hi Hp s'. destruct Hs as [H1 H2 H3 H4 H5 H6]. pose proof (co_ref _ _ _ _ _ H5 i p Hp) as Hr.
  pose proof (count_nonneg h i). pose proof (lookup_lt_Some _ _ _ Hp) as Hlt.
  split; [|by eapply keeps_put]. split; try done.
  - simpl. eapply (cache_put V sb lk lk); [exact H5|done|simpl length; lia| | | |exact (co_lock _ _ _ _ _ H5 i p Hp)|done].
    + simpl. rewrite s32_small by lia. rewrite count_cons, decide_True by done. lia.
    + intros k Hk. rewrite count_cons, decide_False by done. lia.
    + intros _. split; [by apply entry_ref, (co_entry _ _ _ _ _ H5 i p)|].
      intros j q Hj Hq Hjh E. apply Hj. by apply (co_uniq _ _ _ _ _ H5 j i q p).
  - intros k E. destruct (H6 k E) as (Hk & q & Hq & Hv & Hl). split; [by right|]. unfold s'. simpl.
    destruct (decide (k = i)) as [->|Hne].
    + rewrite list_lookup_insert_eq by done. eexists. split; [done|]. by simplify_eq.
    + rewrite list_lookup_insert_ne by done. by exists q.
Qed.

Lemma iget_spec lk h s n : fsys_ok lk h s -> allocated V sb n -> (length h < length (icache s))%nat ->
  Z.of_nat (length h) + 1 < 2 ^ 31 ->
  wp (iget ROOTDEV n) (fun i s' => fsys_ok lk (i :: h) s' /\ keeps h s s' /\ inum_at s' i = Some n) s.
Proof.
  intros Hs Hn Hlt Hlen. pose proof (fy_cache _ _ _ Hs) as Hc. unfold iget. apply wp_bind, wp_gets. simpl.
  rewrite iget_scan_spec. destruct (list_find (hit ROOTDEV n) (icache s)) as [[k p]|] eqn:E.
  - apply list_find_Some in E as (Hp & (Hr & Hd & <-) & _). simpl. apply wp_bind. eapply wp_mono; [by apply wp_upd_put|].
    intros [] s' ->. apply wp_ret. assert (k ∈ h) as Hk by (apply count_pos; by rewrite <-(co_ref _ _ _ _ _ Hc k p Hp)).
    destruct (ref_more lk h s k p Hs Hlen Hk Hp) as [H1 H2]. split_and!; [done|done|].
    unfold inum_at. simpl. by rewrite list_lookup_insert_eq by (by eapply lookup_lt_Some).
  - apply list_find_None in E. rewrite Forall_forall in E.
    destruct (free_entry V sb _ _ _ Hc Hlt) as (k & p & Ef). rewrite Ef. simpl. apply list_find_Some in Ef as (Hp & Hr & _).
    pose proof (lookup_lt_Some _ _ _ Hp) as Hkl. assert (k ∉ h) as Hkh by (apply count_zero; by rewrite <-(co_ref _ _ _ _ _ Hc k p Hp)).
    apply wp_bind. eapply wp_mono; [by apply wp_upd_put|]. intros [] s' ->. apply wp_ret. set (q := Inode _ _ _ _ _ _ _ _ _ _ _).
    split_and!; [|by eapply keeps_put|unfold inum_at; simpl; by rewrite list_lookup_insert_eq].
    destruct Hs as [H1 H2 H3 H4 H5 H6]. split; try done.
    + simpl. eapply (cache_put V sb lk lk); [exact H5|done|simpl length; lia| | | |exact (co_lock _ _ _ _ _ H5 k p Hp)|done].
      * rewrite count_cons, decide_True by done. rewrite (proj2 (count_zero h k)) by done. done.
      * intros j Hj. rewrite count_cons, decide_False by done. lia.
      * intros _. split; [done|]. intros j r Hj Hr' Hjh Er. apply (E r); [by eapply list_elem_of_lookup_2|].
        split_and!; [rewrite (co_ref _ _ _ _ _ Hc j r Hr'); by apply count_pos|by apply (co_entry _ _ _ _ _ Hc j r)|done].
    + intros j Ej. destruct (H6 j Ej) as (Hj & r & Hr' & Hv & Hl). split; [by right|].
      exists r. split_and!; [|done|done]. simpl. rewrite list_lookup_insert_ne; [done|]. intros ->. done.
Qed.

Lemma idup_spec lk h s i : fsys_ok lk h s -> i ∈ h -> Z.of_nat (length h) + 1 < 2 ^ 31 ->
  wp (idup i) (fun j s' => j = i /\ fsys_ok lk (i :: h) s' /\ keeps h s s') s.
Proof.
  intros Hs Hi Hlen. destruct (fsys_entry _ _ _ _ Hs Hi) as (p & Hp & _). unfold idup. apply wp_bind.
  eapply wp_mono; [by apply wp_upd_put|]. intros [] s' ->. apply wp_ret. split; [done|]. by apply ref_more.
Qed.

Context (Htree : tree_ok V sb).

Lemma dnode_on_disk n : 0 <= n < sb_ninodes sb -> on_disk V sb (dnode V sb n).
Proof.
  intros Hn. destruct (to_block _ _ Htree n Hn) as [d Hd]. exists d. unfold dnode. rewrite Hd. done.
Qed.

Lemma on_disk_view s p : (forall n, view s n = V n) -> on_disk V sb p <-> on_disk (view s) sb p.
Proof. intros HV. unfold on_disk. by rewrite HV. Qed.

(** The locked entry [i] as [ilock] leaves it. *)
Definition locked_at (i : nat) (s : fss) : Prop := exists p, icache s !! i = Some p /\ on_disk V sb p.

Lemma ilock_spec h s i : fsys_ok None h s -> i ∈ h ->
  wp (ilock i) (fun _ s' => fsys_ok (Some i) h s' /\ keeps h s s' /\ locked_at i s') s.
Proof.
  intros Hs Hi. destruct (fsys_entry _ _ _ _ Hs Hi) as (p & Hp & (Hdev & [Hn Hty] & Hval) & Hr).
  pose proof (co_lock _ _ _ _ _ (fy_cache _ _ _ Hs) i p Hp ltac:(done)) as Hl. pose proof (count_held h i Hi) as Hc.
  pose proof (lookup_lt_Some _ _ _ Hp) as Hlt.
  assert (Hput : forall q l, did F [] (fs_log s) l [] -> i_ref q = i_ref p -> i_inum q = i_inum p -> i_valid q = true ->
    i_dev q = ROOTDEV -> on_disk V sb q -> i_lock q = SleepLock true (mypid (st_bio (fs_log s))) ->
    let s' := put_inode i q (set_log l s) in fsys_ok (Some i) h s' /\ keeps h s s' /\ locked_at i s').
  { intros q l Hd E1 E2 E3 E4 Hod El s'. pose proof (fsys_did _ _ _ _ Hs Hd) as [H1 H2 H3 H4 H5 H6].
    split_and!; [|apply (kept_log h s _ l); eapply (keeps_put h (set_log l s)); [exact Hp|done]|exists q; split; [|done]; simpl; by rewrite list_lookup_insert_eq].
    split; try done.
    - simpl. eapply (cache_put V sb None (Some i)); [exact H5|done|apply (co_refs _ _ _ _ _ H5)|by rewrite E1|done| |done|done].
      intros _. split; [split_and!; [done|by rewrite E2|done]|]. intros j r Hj Hrj Hjh E. apply Hj.
      apply (co_uniq _ _ _ _ _ H5 j i r p); try done. by rewrite E.
    - intros j [= <-]. split; [done|]. exists q. simpl. rewrite list_lookup_insert_eq by done.
      split_and!; [done|done|]. by rewrite (did_pid _ _ _ _ _ Hd). }
  destruct (i_valid p) eqn:Ev.
  - eapply wp_mono; [apply (ilock_cached s i p); [done|lia|done|by rewrite Hl]|]. intros [] s' ->.
    pose proof (fun q => Hput q (fs_log s)) as Hput'. rewrite set_log_id in Hput'. apply Hput'; try done; [apply did_refl, Hs|]. apply on_disk_lock. by apply Hval.
  - pose proof (dnode_on_disk _ Hn) as Hod. pose proof (fy_sb _ _ _ Hs) as Esb. pose proof Hs as [H1 _ H3 H4 _ _].
    eapply wp_mono; [apply (ilock_reads F s i (dnode V sb (i_inum p)) p); rewrite ?Esb; try done; try lia;
      [by apply on_disk_view|by rewrite Hl]|].
    intros [] s' (l & Hd & ->). apply Hput; try done. by eapply on_disk_same, Hod.
Qed.

Lemma iunlock_spec h s i : fsys_ok (Some i) h s ->
  wp (iunlock i) (fun _ s' => fsys_ok None h s' /\ keeps h s s') s.
Proof.
  intros Hs. destruct (fy_lock _ _ _ Hs i eq_refl) as (Hi & p & Hp & Hv & Hl).
  pose proof Hs as [H1 H2 H3 H4 H5 H6]. pose proof (co_ref _ _ _ _ _ H5 i p Hp) as Hr. pose proof (count_held h i Hi).
  eapply wp_mono; [apply (iunlock_held s i p); [done|lia|done]|]. intros [] s' ->.
  split; [|by eapply keeps_put]. split; try done. simpl.
  eapply (cache_put V sb (Some i) None); [exact H5|by eapply lookup_lt_Some|apply (co_refs _ _ _ _ _ H5)|done|done| |done|].
  - intros _. split; [by apply entry_lock, (co_entry _ _ _ _ _ H5 i p)|].
    intros j q Hj Hq Hjh E. apply Hj. by apply (co_uniq _ _ _ _ _ H5 j i q p).
  - intros k Hk _ [= ->]. done.
Qed.

(** [iput] of an inode that is linked gives the reference back and does nothing else. *)
Lemma iput_spec lk h s i : fsys_ok lk (i :: h) s -> lk <> Some i ->
  wp (iput i) (fun _ s' => fsys_ok lk h s' /\ keeps h s s') s.
Proof.
  intros Hs Hlk. destruct (fsys_entry _ _ _ i Hs ltac:(left)) as (p & Hp & (Hdev & Hal & Hval) & Hr).
  pose proof Hs as [H1 H2 H3 H4 H5 H6]. pose proof (lookup_lt_Some _ _ _ Hp) as Hlt.
  pose proof (co_lock _ _ _ _ _ H5 i p Hp Hlk) as Hl. pose proof (co_refs _ _ _ _ _ H5) as Hlen.
  rewrite count_cons, decide_True in Hr by done. pose proof (count_nonneg h i) as Hcn. simpl in Hlen.
  unfold iput, acquire_inode, release_inode. apply wp_bind. eapply wp_get_inode; [done|]. rewrite Hl. simpl.
  apply wp_bind, wp_gets. eapply wp_mono; [by apply wp_upd_put|]. intros [] s1 ->. set (x := SleepLock true _).
  assert (Hlook : forall q, icache (put_inode i q s) !! i = Some q) by (intros q; simpl; by rewrite list_lookup_insert_eq).
  eapply wp_get_inode; [apply Hlook|].
  assert (i_valid (set_ilock x p) && (i_nlink (set_ilock x p) =? 0) && (i_ref (set_ilock x p) =? 1) = false) as ->.
  { simpl. destruct (i_valid p) eqn:Ev; [|done]. specialize (Hval eq_refl). destruct (on_disk_dnode _ _ _ Hval) as (_ & _ & _ & En & _).
    pose proof (to_linked _ _ Htree _ Hal) as Hnl. rewrite En in Hnl. by rewrite (proj2 (Z.eqb_neq _ _)) by lia. }
  apply wp_bind, wp_ret. apply wp_bind. eapply wp_mono; [apply wp_upd_put, Hlook|]. intros [] s1 ->.
  eapply wp_mono; [apply wp_upd_put; simpl; rewrite list_insert_insert_eq; by rewrite list_lookup_insert_eq|]. intros [] s1 ->.
  unfold put_inode, set_icache. simpl. rewrite !list_insert_insert_eq. set (q := set_iref _ _).
  change (Fss (fs_log s) (fs_sb s) (<[i := q]> (icache s)) (fs_cwd s)) with (put_inode i q s).
  split; [|by eapply keeps_put]. split; try done.
  2:{ intros k Ek. destruct (H6 k Ek) as [[-> |Hk]%elem_of_cons Hq]; [done|]. split; [done|]. simpl.
      rewrite list_lookup_insert_ne; [done|congruence]. }
  simpl. eapply (cache_put V sb lk lk); [exact H5|done|lia| | | |done|done].
  - simpl. rewrite s32_small by lia. lia.
  - intros k Hk. rewrite count_cons, decide_False by done. lia.
  - intros Hin. split; [apply entry_ref, entry_lock, entry_lock, (co_entry _ _ _ _ _ H5 i p); [done|by right]|].
    intros j r Hj Hrj Hjh E. apply Hj. apply (co_uniq _ _ _ _ _ H5 j i r p); try done. left.
Qed.
End system.
