(* ===== verification/FsPath.v ===== *)
(** * Path names

    [namex] walks a path from the root or the current directory, holding one inode at a time.
    [walk] is the same on the disk: every step finds the next element among the entries of a
    directory.  The theorem says that the code agrees with it, that no lock is kept and that
    exactly the reference of the result is added to those held. *)

From S2P Require Import Prelude Bytes File Bio Log Recovery CStr Fs FsBlocks FsFile FsRw FsInode FsWrite FsDir FsCache.

(** The inode number that [es] leads to from inode [n]; with [parent], the directory that
    holds the last element. *)
Fixpoint walk (V : Z -> option (list Z)) (sb : superblock) (parent : bool) (n : Z) (es : list (list Z)) : option Z :=
  match es with
  | [] => if parent then None else Some n
  | e :: es' =>
      if i_type (dnode V sb n) =? T_DIR then
        if parent && bool_decide (es' = []) then Some n
        else match dir_find (take DIRSIZ e) (contents (dnode V sb n) V) with
             | Some (_, de) => walk V sb parent (de_inum de) es'
             | None => None
             end
      else None
  end.

Section path.
Context (F : gset Z) (V : Z -> option (list Z)) (sb : superblock).
Context (dev_read : Z -> option (nat -> Z -> M fss (Z * list Z))).
Context (Htree : tree_ok V sb) (Hbits : bits_ok V sb).
Hypothesis Hbmap : forall b, 0 <= b < sb_size sb -> bblock sb b ∈ F.

Lemma fsys_perm lk h h' s : h ≡ₚ h' -> fsys_ok F V sb lk h s -> fsys_ok F V sb lk h' s.
Proof using Type.
  intros Hp [H1 H2 H3 H4 [C1 C2 C3 C4 C5 C6] H6]. split; try done.
  - split; try done.
    + by rewrite <-Hp.
    + intros i Hi. apply C2. by rewrite Hp.
    + intros i p Hi. rewrite (C3 i p Hi). unfold count. by rewrite Hp.
    + intros i p Hi Hin. apply (C4 i p Hi). by rewrite Hp.
    + intros i j p q Hi Hj Hih Hjh. apply (C5 i j p q); [done|done|by rewrite Hp|by rewrite Hp].
  - intros i Ei. destruct (H6 i Ei) as [Hi Hq]. split; [by rewrite <-Hp|done].
Qed.

(** An inode held in memory is the file on the disk. *)
Lemma file_fstate lk h s i p n : fsys_ok F V sb lk h s -> icache s !! i = Some p -> on_disk V sb p -> i ∈ h ->
  i_inum p = n -> file_ok sb V (dnode V sb n) -> sized (dnode V sb n) V ->
  fstate F s i p /\ sized p (view s) /\ contents p (view s) = contents (dnode V sb n) V /\ i_type p = i_type (dnode V sb n).
Proof using Hbits Hbmap.
  intros [H1 H2 H3 H4 H5 H6] Hp Hod Hi <- Hf Hsz. destruct (co_entry _ _ _ _ _ H5 i p Hp Hi) as (Hdev & Hal & _).
  destruct (on_disk_dnode _ _ _ Hod) as (Et & _ & _ & _ & Es & Ea).
  assert (Hag : agree sb V (view s)) by (intros m _; apply H4).
  assert (Hf' : file_ok sb V p) by (by apply (file_ok_fields sb (dnode V sb (i_inum p)))).
  assert (Hs' : sized p V) by (by apply (sized_fields (dnode V sb (i_inum p)))).
  split_and!; [|by apply (agree_sized Hag)| |done].
  - split; rewrite ?H2; try done; [|by apply (agree_file H3 Hag)].
    intros b Hb Hbit. rewrite (agree_bit H3 Hag) in Hbit by done. by apply Hbits.
  - rewrite (agree_contents Hag) by done. by apply contents_fields.
Qed.

Lemma dir_fstate lk h s i p n : fsys_ok F V sb lk h s -> icache s !! i = Some p -> on_disk V sb p -> i ∈ h ->
  i_inum p = n -> i_type (dnode V sb n) = T_DIR ->
  fstate F s i p /\ dir_ok p (view s) /\ contents p (view s) = contents (dnode V sb n) V.
Proof using Htree Hbits Hbmap.
  intros Hs Hp Hod Hi En Ht. destruct (co_entry _ _ _ _ _ (fy_cache _ _ _ _ _ _ Hs) i p Hp Hi) as (_ & Hal & _). rewrite En in Hal.
  destruct (to_dir _ _ Htree _ Hal Ht) as [Hf [_ Hsz Hw]].
  destruct (file_fstate _ _ _ _ _ _ Hs Hp Hod Hi En Hf Hsz) as (H1 & H2 & H3 & H4). split_and!; [done| |done].
  destruct (on_disk_dnode _ _ _ Hod) as (_ & _ & _ & _ & Es & _). rewrite En in Es. split; [congruence|done|congruence].
Qed.

Lemma dirlookup_cache h s i n name : fsys_ok F V sb (Some i) h s -> locked_at V sb i s -> inum_at s i = Some n ->
  i_type (dnode V sb n) = T_DIR -> readable DIRSIZ name -> (length h < length (icache s))%nat ->
  Z.of_nat (length h) + 1 < 2 ^ 31 ->
  wp (dirlookup dev_read i name) (fun r s' => keeps h s s' /\
    match dir_find (cname DIRSIZ name) (contents (dnode V sb n) V) with
    | None => r = None /\ fsys_ok F V sb (Some i) h s'
    | Some (k, de) => exists j, r = Some (j, 16 * Z.of_nat k) /\ fsys_ok F V sb (Some i) (j :: h) s' /\
        inum_at s' j = Some (de_inum de) /\ allocated V sb (de_inum de)
    end) s.
Proof using Htree Hbits Hbmap.
  intros Hs (p & Hp & Hod) Hn Ht Hname Hlen Hmax. destruct (fy_lock _ _ _ _ _ _ Hs i eq_refl) as (Hi & _).
  assert (i_inum p = n) as En by (unfold inum_at in Hn; rewrite Hp in Hn; by injection Hn).
  destruct (dir_fstate _ _ _ _ _ _ Hs Hp Hod Hi En Ht) as (Hfs & Hd & Hc).
  apply (dirlookup_spec F dev_read _ name i p s Hname Hfs Hd). intros l Hl. rewrite Hc.
  pose proof (fsys_did _ _ _ _ _ _ _ Hs Hl) as Hs'.
  destruct (dir_find (cname DIRSIZ name) (contents (dnode V sb n) V)) as [[k de]|] eqn:Ef; simpl; [|by split].
  rewrite (fs_dev _ _ _ _ Hfs). apply list_find_Some in Ef as (Hk & [Hde _] & _).
  assert (Hal : allocated V sb (de_inum de)).
  { apply (to_entry _ _ Htree n); [|done|by eapply list_elem_of_lookup_2|done].
    rewrite <-En. by apply (co_entry _ _ _ _ _ (fy_cache _ _ _ _ _ _ Hs) i p). }
  eapply wp_mono; [by apply (iget_spec F V sb (Some i) h)|]. intros j s' (H1 & H2 & H3). split; [by apply (kept_log _ _ _ l)|]. by exists j.
Qed.

Lemma iunlockput_spec h s i : fsys_ok F V sb (Some i) (i :: h) s ->
  wp (iunlockput i) (fun _ s' => fsys_ok F V sb None h s' /\ keeps h s s') s.
Proof using Htree.
  intros Hs. unfold iunlockput. apply wp_bind. eapply wp_mono; [by apply (iunlock_spec F V sb (i :: h))|].
  intros [] s1 [H1 K1]. eapply wp_mono; [by apply (iput_spec F V sb Htree None)|]. intros [] s2 [H2 K2]. split; [done|].
  eapply kept_trans; [|exact K2]. eapply keeps_sub; [|exact K1]. intros j. by right.
Qed.

(** The result of a walk: the references [h] and that to the inode found. *)
Definition walked (h : list nat) (s : fss) (parent : bool) (es : list (list Z)) (w : option Z)
    (r : option nat * list Z) (s' : fss) : Prop :=
  keeps h s s' /\
  match w with
  | None => fst r = None /\ fsys_ok F V sb None h s'
  | Some m => exists j, fst r = Some j /\ fsys_ok F V sb None (j :: h) s' /\ inum_at s' j = Some m /\
      (parent = true -> exists e, last es = Some e /\ cname DIRSIZ (snd r) = take DIRSIZ e)
  end.

Lemma namex_loop_spec h parent : forall fuel ip path name s n,
  fsys_ok F V sb None (ip :: h) s -> inum_at s ip = Some n -> 0 ∉ path -> length name = DIRSIZ ->
  (length path < fuel)%nat -> (length h + 2 <= length (icache s))%nat -> Z.of_nat (length h) + 2 < 2 ^ 31 ->
  wp (namex_loop dev_read fuel ip path parent name)
    (walked h s parent (elems path) (walk V sb parent n (elems path))) s.
Proof using Htree Hbits Hbmap.
  induction fuel as [|fuel IH]; intros ip path name s n Hs Hn H0 Hname Hfuel Hlen Hmax; [lia|].
  cbn [namex_loop]. pose proof (skipelem_spec path name H0 Hname) as Hskip.
  destruct (skipelem path name) as [[rest nm]|].
  - destruct Hskip as (e & Ee & Hnm & Hcn & H0r & Hlt & Hlast). rewrite Ee. cbn [walk].
    apply wp_bind. eapply wp_mono; [apply (ilock_spec F V sb Htree (ip :: h)); [done|left]|]. intros [] s1 (Hs1 & K1 & Hl1).
    pose proof Hl1 as (p & Hp & Hod). eapply wp_get_inode; [exact Hp|].
    assert (Hn1 : inum_at s1 ip = Some n) by (rewrite (kp_at _ _ _ K1) by left; done).
    assert (i_inum p = n) as En by (unfold inum_at in Hn1; rewrite Hp in Hn1; by injection Hn1).
    destruct (on_disk_dnode _ _ _ Hod) as (Et & _). rewrite En in Et. rewrite <-Et.
    assert (K1' : keeps h s s1) by (eapply keeps_sub; [|exact K1]; intros j; by right).
    destruct (Z.eqb_spec (i_type (dnode V sb n)) T_DIR) as [Ht|Ht]; cbn [negb].
    + assert ((match rest with [] => true | _ => false end) = bool_decide (elems rest = [])) as ->.
      { symmetry. destruct rest; [done|]. apply bool_decide_eq_false_2. intros H. by apply Hlast in H. }
      destruct (parent && bool_decide (elems rest = [])) eqn:Epar.
      * apply andb_prop in Epar as [-> ->%bool_decide_eq_true]. apply wp_bind.
        eapply wp_mono; [by apply (iunlock_spec F V sb)|]. intros [] s2 [Hs2 K2]. apply wp_ret.
        split; [eapply kept_trans; [exact K1'|]; eapply keeps_sub; [|exact K2]; intros j; by right|].
        exists ip. split_and!; [done|done|by rewrite (kp_at _ _ _ K2) by left|]. intros _. by exists e.
      * apply wp_bind. eapply wp_mono; [apply (dirlookup_cache (ip :: h) s1 ip n nm); try done|].
        { apply readable_length. by rewrite Hnm. }
        { simpl. rewrite (kp_len _ _ _ K1). lia. }
        { simpl length. lia. }
        intros r s2 [K2 Hr]. rewrite Hcn in Hr.
        destruct (dir_find (take DIRSIZ e) (contents (dnode V sb n) V)) as [[k de]|].
        -- destruct Hr as (j & -> & Hs2 & Hj & Hal). apply wp_bind.
           eapply wp_mono; [apply (iunlockput_spec (j :: h) s2 ip)|].
           { eapply fsys_perm; [|exact Hs2]. apply perm_swap. }
           intros [] s3 [Hs3 K3]. assert (K : keeps h s s3).
           { eapply kept_trans; [exact K1'|]. eapply kept_trans; (eapply keeps_sub; [|done]); intros x; by right. }
           eapply wp_mono; [apply (IH j rest nm s3 (de_inum de)); try done; [rewrite (kp_at _ _ _ K3) by left; done|lia|by rewrite (kp_len _ _ _ K)]|].
           intros r s4 [K4 Hw]. split; [by eapply kept_trans|].
           destruct (walk V sb parent (de_inum de) (elems rest)) as [m|] eqn:Ew; [|done].
           destruct Hw as (x & H1 & H2 & H3 & H4). exists x. split_and!; [done|done|done|]. intros Hpar.
           destruct (H4 Hpar) as (y & Hy & Hyc). exists y. split; [|done]. destruct (elems rest); done.
        -- destruct Hr as (-> & Hs2). apply wp_bind. eapply wp_mono; [by apply (iunlockput_spec h s2 ip)|].
           intros [] s3 [Hs3 K3]. apply wp_ret. split; [|done].
           eapply kept_trans; [exact K1'|]. eapply kept_trans; [|exact K3]. eapply keeps_sub; [|exact K2]. intros x; by right.
    + apply wp_bind. eapply wp_mono; [by apply (iunlockput_spec h s1 ip)|]. intros [] s2 [Hs2 K2]. apply wp_ret.
      split; [by eapply kept_trans|done].
  - rewrite Hskip. simpl. destruct parent.
    + apply wp_bind. eapply wp_mono; [by apply (iput_spec F V sb Htree None)|]. intros [] s1 [Hs1 K1]. apply wp_ret. by split.
    + apply wp_ret. split; [apply kept_refl|]. by exists ip.
Qed.

(** ** Theorems *)

(** Where a path starts. *)
Definition start (s : fss) (path : list Z) : option Z :=
  match path with
  | c :: _ => if c =? SLASH then Some ROOTINO else inum_at s (fs_cwd s)
  | [] => inum_at s (fs_cwd s)
  end.

(** C5: Path resolution is the walk of the directories on the disk: for any path, [namex]
    ([namei] with [parent] false, [nameiparent] with true) returns the inode in memory whose
    number the walk finds, or 0 when an element is missing or not below a directory, and the
    last element as the name.  It never panics or blocks while two entries of the inode cache
    are free; it leaves no lock, changes no block, keeps every inode held in its place and
    adds exactly one reference, to the result. *)
Theorem namex_correct h s path parent name n :
  fsys_ok F V sb None h s -> allocated V sb ROOTINO -> fs_cwd s ∈ h -> start s path = Some n ->
  0 ∉ path -> length name = DIRSIZ -> length (icache s) = NINODE -> (length h + 2 <= NINODE)%nat ->
  wp (namex dev_read path parent name) (fun r s' => keeps h s s' /\ (forall b, view s' b = view s b) /\
    match walk V sb parent n (elems path) with
    | None => fst r = None /\ fsys_ok F V sb None h s'
    | Some m => exists j, fst r = Some j /\ fsys_ok F V sb None (j :: h) s' /\ inum_at s' j = Some m /\
        (parent = true -> exists e, last (elems path) = Some e /\ cname DIRSIZ (snd r) = take DIRSIZ e)
    end) s.
Proof using Htree Hbits Hbmap.
  intros Hs Hroot Hcwd Hstart H0 Hname Hlen Hroom. assert (NINODE = 50%nat) as EN by done.
  eapply (wp_mono _ (walked h s parent (elems path) (walk V sb parent n (elems path)))).
  2:{ intros r s' [K Hw]. split; [done|]. split; [|exact Hw]. intros b. rewrite (fy_view _ _ _ _ _ _ Hs).
      destruct (walk V sb parent n (elems path)) as [m|].
      - destruct Hw as (j & _ & Hf & _). apply (fy_view _ _ _ _ _ _ Hf).
      - destruct Hw as (_ & Hf). apply (fy_view _ _ _ _ _ _ Hf). }
  assert (Hrest : forall ip s1, fsys_ok F V sb None (ip :: h) s1 -> keeps h s s1 -> inum_at s1 ip = Some n ->
    wp (namex_loop dev_read (S (length path)) ip path parent name)
      (walked h s parent (elems path) (walk V sb parent n (elems path))) s1).
  { intros ip s1 Hs1 K1 Hn1. eapply wp_mono; [apply (namex_loop_spec h parent (S (length path)) ip path name s1 n); try done; try lia|].
    { rewrite (kp_len _ _ _ K1). lia. }
    intros r s2 [K2 Hw]. split; [by eapply kept_trans|exact Hw]. }
  unfold namex. apply wp_bind.
  assert (Hcase : (exists c p', path = c :: p' /\ c = SLASH) /\ n = ROOTINO \/
    match path with c :: _ => c =? SLASH | [] => false end = false /\ inum_at s (fs_cwd s) = Some n).
  { unfold start in Hstart. destruct path as [|c p']; [by right|]. destruct (Z.eqb_spec c SLASH) as [->|]; [|by right].
    left. split; [by exists SLASH, p'|congruence]. }
  destruct Hcase as [[(c & p' & -> & ->) ->]|[-> Hc]].
  - simpl. eapply wp_mono; [apply (iget_spec F V sb None h s); [done|done|lia|lia]|]. intros ip s1 (H1 & H2 & H3). by apply Hrest.
  - apply wp_bind, wp_gets. eapply wp_mono; [apply (idup_spec F V sb None h s); [done|done|lia]|].
    intros ip s1 (-> & H1 & H2). apply Hrest; [done|done|]. by rewrite (kp_at _ _ _ H2).
Qed.
End path.

(** ** The small file system again *)

Definition ex_V : Z -> option (list Z) := dview ex_disk.

Lemma ex_nodes n : allocated ex_V ex_sb n -> n = 1 \/ n = 2.
Proof.
  intros [Hn Ht]. simpl in Hn.
  assert (n = 0 \/ n = 1 \/ n = 2 \/ n = 3 \/ n = 4 \/ n = 5 \/ n = 6 \/ n = 7) as Hc by lia.
  destruct Hc as [->|[->|[->|[->|[->|[->|[->| ->]]]]]]]; try lia; exfalso; apply Ht; by vm_compute.
Qed.

Lemma ex_allocated n : n = 1 \/ n = 2 -> allocated ex_V ex_sb n.
Proof. intros [->| ->]; (split; [done|by vm_compute]). Qed.

Lemma ex_dents : dents (contents (dnode ex_V ex_sb 1) ex_V) =
  [le_bytes 2 1 ++ [46] ++ replicate 13 0; le_bytes 2 1 ++ [46; 46] ++ replicate 12 0; le_bytes 2 2 ++ [97] ++ replicate 13 0].
Proof. by vm_compute. Qed.

Lemma ex_tree : tree_ok ex_V ex_sb.
Proof.
  split.
  - intros n Hn. simpl in Hn. unfold iblock. rewrite Z.div_small by (unfold IPB; lia). eexists. by vm_compute.
  - intros n [->| ->]%ex_nodes; by vm_compute.
  - intros n [->| ->]%ex_nodes Ht; [|by vm_compute in Ht].
    assert (blocks_of (dnode ex_V ex_sb 1) ex_V = [35]) as E by (by vm_compute). split.
    + split; [by vm_compute|rewrite E; apply NoDup_singleton|]. rewrite E. intros a ->%list_elem_of_singleton. split; [by vm_compute|vm_compute; reflexivity].
    + assert (i_size (dnode ex_V ex_sb 1) = 48) as Es by (by vm_compute).
      split; [done| |by rewrite Es]. split; rewrite Es; [done|]. intros k Hk. rewrite Z.div_small by lia. by vm_compute.
  - intros n de [->| ->]%ex_nodes Ht; [|by vm_compute in Ht]. rewrite ex_dents. intros Hde _. apply ex_allocated.
    repeat (apply elem_of_cons in Hde as [->|Hde]; [by vm_compute; tauto|]). by apply not_elem_of_nil in Hde.
Qed.

Lemma ex_slot i p : icache ex_state !! i = Some p ->
  (i = 0%nat /\ p = ex_root) \/ (i = 1%nat /\ p = ex_p) \/ ((1 < i)%nat /\ p = zero_inode).
Proof.
  destruct i as [|[|i]]; [intros [= <-]; by left|intros [= <-]; right; by left|].
  intros H. change (replicate 48 zero_inode !! i = Some p) in H. apply lookup_replicate in H as [-> _]. right; right. split; [lia|done].
Qed.

Lemma ex_cache : cache_ok ex_V ex_sb None (icache ex_state) [0; 1]%nat.
Proof.
  split.
  - done.
  - intros i Hi. change (length (icache ex_state)) with 50%nat.
    apply elem_of_cons in Hi as [->|Hi]; [lia|]. apply list_elem_of_singleton in Hi as ->. lia.
  - intros i p [[-> ->]|[[-> ->]|[Hi ->]]]%ex_slot; [done|done|]. symmetry. apply count_zero.
    rewrite not_elem_of_cons, list_elem_of_singleton. lia.
  - intros i p [[-> ->]|[[-> ->]|[Hi ->]]]%ex_slot Hin.
    + split_and!; [done|by apply ex_allocated; left|]. intros _. exists ex_inodes. split; vm_compute; reflexivity.
    + split_and!; [done|by apply ex_allocated; right|]. intros _. exists ex_inodes. split; vm_compute; reflexivity.
    + rewrite elem_of_cons, list_elem_of_singleton in Hin. lia.
  - intros i j p q [[-> ->]|[[-> ->]|[Hi ->]]]%ex_slot [[-> ->]|[[-> ->]|[Hj ->]]]%ex_slot Hin Hjn E; try done;
      rewrite elem_of_cons, list_elem_of_singleton in Hin, Hjn; lia.
  - by intros i p [[-> ->]|[[-> ->]|[Hi ->]]]%ex_slot _.
Qed.

Lemma ex_fsys : fsys_ok ex_F ex_V ex_sb None [0; 1]%nat (opened ex_state).
Proof.
  split; [apply (fs_tx _ _ _ _ ex_fstate)|done|exact (fs_geo _ _ _ _ ex_fstate)|exact ex_view|exact ex_cache|done|done].
Qed.

Lemma ex_bmap b : 0 <= b < sb_size ex_sb -> bblock ex_sb b ∈ ex_F.
Proof.
  intros Hb. unfold bblock. simpl in *. rewrite Z.div_small by (unfold BPB; lia). apply elem_of_list_to_set. right. left.
Qed.

(** "/./a" *)
Lemma namex_correct_witness :
  wp (namex no_read [47; 46; 47; 97] false (replicate DIRSIZ 0)) (fun r s' => exists j,
    fst r = Some j /\ inum_at s' j = Some 2) (opened ex_state).
Proof.
  eapply wp_mono; [apply (namex_correct ex_F ex_V ex_sb no_read ex_tree ex_bits ex_bmap [0; 1]%nat (opened ex_state)
    [47; 46; 47; 97] false (replicate DIRSIZ 0) 1)|].
  - exact ex_fsys.
  - apply ex_allocated. left. reflexivity.
  - left.
  - reflexivity.
  - apply (bool_decide_unpack _). vm_compute. exact I.
  - reflexivity.
  - reflexivity.
  - vm_compute. lia.
  - intros r s' (_ & _ & H). replace (walk ex_V ex_sb false 1 (elems [47; 46; 47; 97])) with (Some 2) in H by (vm_compute; reflexivity).
    destruct H as (j & H1 & _ & H2 & _). exists j. split; [exact H1|exact H2].
Defined.
