(* ===== verification/FsLink.v ===== *)
(** * Entering a name into a directory

    [dirlink] writes the entry into the first free place, or at the end.  As a map from
    names to inode numbers the directory gains the name and keeps the others.  When the name
    is there already, [dirlink] gives the inode it found back with [iput]; if that inode is
    the directory itself, which the caller has locked, it sleeps forever. *)

From S2P Require Import Prelude Bytes File Bio Log Recovery CStr Fs FsBlocks FsFile FsRw FsInode FsWrite FsDir FsCache FsPath.

(** The place for a new entry. *)
Definition free_slot (c : list Z) : nat :=
  match list_find (fun de => de_inum de = 0) (dents c) with
  | Some (k, _) => k
  | None => length (dents c)
  end.

Lemma length_dents c : length (dents c) = (length c / 16)%nat.
Proof. unfold dents. by rewrite length_map, length_seq. Qed.

Lemma free_slot_le c : (free_slot c <= length c / 16)%nat.
Proof.
  unfold free_slot. rewrite <-length_dents. destruct (list_find _ (dents c)) as [[k de]|] eqn:E; [|done].
  apply list_find_Some in E as (Hk & _). apply lookup_lt_Some in Hk. lia.
Qed.

(** An entry in the place of a free one, or after the last. *)
Lemma dents_write c k e : (length c mod 16 = 0)%nat -> length e = 16%nat -> (k <= length c / 16)%nat ->
  dents (write_at (16 * Z.of_nat k) e c) = if decide (k < length c / 16)%nat then <[k := e]> (dents c) else dents c ++ [e].
Proof.
  intros Hm He Hk. pose proof (Nat.div_mod_eq (length c) 16) as Hdm.
  assert (Hat : Z.to_nat (16 * Z.of_nat k) = (16 * k)%nat) by lia.
  assert (Hl : length (write_at (16 * Z.of_nat k) e c) = Nat.max (length c) (16 * k + 16)).
  { unfold write_at. rewrite Hat, !length_app, length_take, length_drop, He. lia. }
  assert (Hlook : forall j, (16 * j + 16 <= Nat.max (length c) (16 * k + 16))%nat ->
    dent (write_at (16 * Z.of_nat k) e c) j = if decide (j = k) then e else dent c j).
  { intros j Hj. unfold dent. apply list_eq_same_length with 16%nat.
    - case_decide; [done|]. rewrite length_slice; lia.
    - rewrite length_slice; lia.
    - intros x a b Hx. rewrite lookup_slice by lia. unfold write_at. rewrite Hat.
      assert (length (take (16 * k) c) = (16 * k)%nat) as Ht by (rewrite length_take; lia).
      case_decide as Hjk.
      + subst j. rewrite lookup_app_r by lia. rewrite Ht, lookup_app_l by lia.
        replace (16 * k + x - 16 * k)%nat with x by lia. congruence.
      + rewrite lookup_slice by lia. destruct (Nat.lt_ge_cases j k) as [Hlt|Hge].
        * rewrite lookup_app_l by lia. rewrite lookup_take_lt by lia. congruence.
        * rewrite lookup_app_r by lia. rewrite Ht, lookup_app_r, lookup_drop, He by lia.
          replace (16 * k + 16 + (16 * j + x - 16 * k - 16))%nat with (16 * j + x)%nat by lia. congruence. }
  assert (Hn : (length (write_at (16 * Z.of_nat k) e c) / 16 = Nat.max (length c / 16) (k + 1))%nat).
  { rewrite Hl. destruct (Nat.le_gt_cases (k + 1) (length c / 16)).
    - rewrite !Nat.max_l by lia. done.
    - assert (k = length c / 16)%nat as -> by lia. rewrite !Nat.max_r by lia.
      replace (16 * (length c / 16) + 16)%nat with ((length c / 16 + 1) * 16)%nat by lia. by rewrite Nat.div_mul by lia. }
  apply list_eq. intros j. destruct (Nat.lt_ge_cases j (Nat.max (length c / 16) (k + 1))) as [Hj|Hj].
  - rewrite lookup_dents, Hlook by lia. case_decide as Hjk.
    + subst j. case_decide; [by rewrite list_lookup_insert_eq by (rewrite length_dents; lia)|].
      rewrite lookup_app_r, length_dents by (rewrite length_dents; lia). replace (k - length c / 16)%nat with 0%nat by lia. done.
    + case_decide.
      * by rewrite list_lookup_insert_ne, lookup_dents by lia.
      * by rewrite lookup_app_l, lookup_dents by (rewrite ?length_dents; lia).
  - transitivity (@None (list Z)); [apply lookup_ge_None_2; rewrite length_dents; lia|].
    symmetry. apply lookup_ge_None_2. case_decide; rewrite ?length_insert, ?length_app, length_dents; cbn [length]; lia.
Qed.

(** The entries as a map from names. *)
Lemma dir_find_link nm c e : (length c mod 16 = 0)%nat -> length e = 16%nat -> de_inum e <> 0 ->
  dir_find (cname DIRSIZ (de_name e)) c = None ->
  dir_find nm (write_at (16 * Z.of_nat (free_slot c)) e c) =
    if decide (nm = cname DIRSIZ (de_name e)) then Some (free_slot c, e) else dir_find nm c.
Proof.
  intros Hm He Hi Hnone. pose proof (free_slot_le c) as Hle. unfold dir_find. rewrite dents_write by done.
  assert (Hnm : forall j de, dents c !! j = Some de -> nm = cname DIRSIZ (de_name e) -> ~ entry_is nm de).
  { intros j de Hj ->. unfold dir_find in Hnone. apply list_find_None in Hnone. rewrite Forall_forall in Hnone.
    apply Hnone. by eapply list_elem_of_lookup_2. }
  assert (Hfree : forall de, dents c !! free_slot c = Some de -> de_inum de = 0).
  { intros de Hde. unfold free_slot in Hde. destruct (list_find _ (dents c)) as [[k x]|] eqn:E.
    - apply list_find_Some in E as (Hk & Hx & _). congruence.
    - rewrite lookup_ge_None_2 in Hde by lia. done. }
  pose proof (length_dents c) as Hld. case_decide as Hlt.
  - case_decide as Hn.
    + apply list_find_Some. rewrite list_lookup_insert_eq by lia. split_and!; [done|by split|].
      intros j y Hj Hlj. rewrite list_lookup_insert_ne in Hj by lia. by eapply Hnm.
    + destruct (list_find (entry_is nm) (dents c)) as [[k x]|] eqn:E.
      * apply list_find_Some in E as (Hk & Hx & Hbefore). apply list_find_Some.
        assert (k <> free_slot c) by (intros ->; by apply Hx, Hfree).
        rewrite list_lookup_insert_ne by done. split_and!; [done|done|]. intros j y Hj Hjk.
        destruct (decide (j = free_slot c)) as [->|Hne].
        -- rewrite list_lookup_insert_eq in Hj by lia. injection Hj as <-. by intros [_ ?].
        -- rewrite list_lookup_insert_ne in Hj by done. by eapply Hbefore.
      * apply list_find_None in E. apply list_find_None, Forall_insert; [done|]. by intros [_ ?].
  - assert (free_slot c = length (dents c)) as Hfs by lia. rewrite Hfs. case_decide as Hn.
    + apply list_find_Some. rewrite lookup_app_r, Nat.sub_diag by lia. split_and!; [done|by split|].
      intros j y Hj Hlj. rewrite lookup_app_l in Hj by lia. by eapply Hnm.
    + destruct (list_find (entry_is nm) (dents c)) as [[k x]|] eqn:E; [by apply list_find_app_l|].
      apply list_find_app_None. split; [done|]. apply list_find_None. constructor; [by intros [_ ?]|constructor].
Qed.

Section link.
Context (F : gset Z).
Context (dev_read : Z -> option (nat -> Z -> M fss (Z * list Z)))
        (dev_write : Z -> option (nat -> list Z -> Z -> M fss Z)).

Definition free_from (c : list Z) (k : nat) : nat :=
  match list_find (fun de => de_inum de = 0) (drop k (dents c)) with
  | Some (j, _) => k + j
  | None => length (dents c)
  end.

Lemma free_from_step c k : (k < length c / 16)%nat ->
  free_from c k = if decide (de_inum (dent c k) = 0) then k else free_from c (S k).
Proof.
  intros Hk. unfold free_from. rewrite (drop_S _ (dent c k)) by (by apply lookup_dents). cbn [list_find].
  case_decide; [by rewrite Nat.add_0_r|]. destruct (list_find _ (drop (S k) (dents c))) as [[j x]|]; [|done]. simpl. lia.
Qed.

Lemma dirlink_scan_spec dp p s0 : forall fuel k s,
  fstate F s dp p -> dir_ok p (view s) -> contents p (view s) = contents p (view s0) ->
  (exists l, s = set_log l s0 /\ did F [] (fs_log s0) l []) ->
  (length (contents p (view s0)) / 16 < k + fuel)%nat -> (k <= length (contents p (view s0)) / 16)%nat ->
  wp (dirlink_scan dev_read fuel dp (16 * Z.of_nat k)) (fun r s' =>
    r = 16 * Z.of_nat (free_from (contents p (view s0)) k) /\
    fstate F s' dp p /\ exists l, s' = set_log l s0 /\ did F [] (fs_log s0) l []) s.
Proof.
  intros fuel. induction fuel as [|fuel IH]; intros k s Hs Hdir Hct (l0 & -> & Hd0) Hfuel Hk; [lia|].
  pose proof (dents_count _ _ Hdir) as Hcnt. rewrite Hct in Hcnt. cbn [dirlink_scan].
  eapply wp_get_inode; [apply Hs|]. destruct (Z.ltb_spec (16 * Z.of_nat k) (i_size p)) as [Hlt|Hge].
  - assert (Hk' : (k < length (contents p (view s0)) / 16)%nat) by lia.
    apply wp_bind. eapply wp_mono; [by apply (readi_entry F dev_read (set_log l0 s0) dp p k)|].
    intros r s1 (-> & l & -> & Hd). rewrite set_set_log, Hct. apply wp_bind, wp_panic_if; [done|].
    assert (Hd1 : did F [] (fs_log s0) l []) by (by eapply did_app; [exact Hd0|exact Hd|]).
    assert (Hs1 : fstate F (set_log l s0) dp p) by (by apply (fstate_did F (set_log l0 s0))).
    rewrite free_from_step by done. destruct (Z.eqb_spec (de_inum (dent (contents p (view s0)) k)) 0) as [E|E].
    + rewrite decide_True by done. apply wp_ret. split_and!; [done|done|by exists l].
    + rewrite decide_False by done. replace (16 * Z.of_nat k + DIRENT) with (16 * Z.of_nat (S k)) by (unfold DIRENT; lia).
      apply IH; [done| |by eapply did_contents|by exists l|lia|lia].
      destruct Hdir. split; [done| |done]. by apply (did_sized F (set_log l0 s0)).
  - apply wp_ret. assert (k = length (contents p (view s0)) / 16)%nat as -> by lia. unfold free_from.
    rewrite drop_ge by (by rewrite length_dents). rewrite length_dents. split_and!; [done|done|by exists l0].
Qed.

(** The entry that [dirlink] writes. *)
Lemma new_entry inum nm : 0 <= inum < 2 ^ 16 -> length nm = DIRSIZ ->
  length (le_bytes 2 inum ++ nm) = 16%nat /\ de_inum (le_bytes 2 inum ++ nm) = inum /\ de_name (le_bytes 2 inum ++ nm) = nm.
Proof.
  intros Hi Hl. split_and!.
  - by rewrite length_app, length_le_bytes, Hl.
  - unfold de_inum, get16, slice. rewrite drop_0, take_app_length' by (by rewrite length_le_bytes).
    rewrite le_value_bytes. apply Z.mod_small. exact Hi.
  - unfold de_name, slice. rewrite drop_app_length' by (by rewrite length_le_bytes). rewrite <-Hl. apply take_ge. done.
Qed.

(** A computation that only read leaves the premises of a write and what it does. *)
Lemma written_agree_old sb l0 V V1 q p' V' off bs : fs_geom sb l0 -> agree sb V V1 -> file_ok sb V q ->
  0 <= i_inum q < sb_ninodes sb ->
  file_written sb q V1 p' V' off bs -> file_written sb q V p' V' off bs.
Proof.
  intros Hg HV Hf Hn [H1 H2 H3 H4 H5 H6]. split; try done.
  - by rewrite <-(agree_contents HV).
  - intros Hd. by apply H4, (agree_disk Hg HV).
  - intros r Hr Hrs Hdis. rewrite <-(agree_contents HV) by done. apply H5; [by apply (agree_file Hg HV)|done|].
    rewrite !(agree_blocks HV) by done. exact Hdis.
  - intros r Hr Hne Hd. apply H6; [done|done|]. by apply (agree_disk Hg HV).
Qed.

Lemma can_write_did s l i p off n : fstate F s i p -> did F [] (fs_log s) l [] -> can_write F s p off n ->
  can_write F (set_log l s) p off n.
Proof.
  intros Hs Hl [H1 H2 H3 H4]. pose proof (did_view_nil _ _ _ _ Hl) as HV. pose proof (fs_file _ _ _ _ Hs) as Hf.
  assert (Hag : agree (fs_sb s) (view s) (view (set_log l s))) by (intros m _; apply HV).
  split; [done| | |done].
  - intros k Hk. rewrite (agree_addr Hag) by done. by apply H2.
  - simpl. eapply avail_ext; [|exact H3]. intros b Hb. apply (agree_bit (fs_geo _ _ _ _ Hs) Hag b Hb).
Qed.

Lemma dirlink_spec s dp p name inum : let c := contents p (view s) in
  fstate F s dp p -> dir_ok p (view s) -> inode_fits p -> readable DIRSIZ name ->
  0 <= i_inum p < sb_ninodes (fs_sb s) -> 0 < inum < 2 ^ 16 -> dir_find (cname DIRSIZ name) c = None ->
  16 * Z.of_nat (free_slot c) + 16 <= MAXFILE * 512 -> can_write F s p (16 * Z.of_nat (free_slot c)) 16 ->
  wp (dirlink dev_read dev_write dp name inum) (fun r s' => r = 0 /\ exists p' e,
    fstate F s' dp p' /\ dir_ok p' (view s') /\ cname DIRSIZ (de_name e) = cname DIRSIZ name /\ de_inum e = inum /\
    (forall nm, dir_find nm (contents p' (view s')) =
      if decide (nm = cname DIRSIZ name) then Some (free_slot c, e) else dir_find nm c) /\
    file_written (fs_sb s) p (view s) p' (view s') (16 * Z.of_nat (free_slot c)) e) s.
Proof.
  intros c Hs Hdir Hfit Hname Hin Hinum Hnone Hmax Hcan. pose proof (dents_count _ _ Hdir) as Hcnt. fold c in Hcnt.
  pose proof (free_slot_le c) as Hle. unfold dirlink. apply wp_bind.
  apply (dirlookup_spec F dev_read _ name dp p s Hname Hs Hdir). intros l Hl. fold c. rewrite Hnone. simpl.
  assert (Hs1 : fstate F (set_log l s) dp p) by (by apply fstate_did).
  eapply wp_get_inode; [apply Hs1|]. apply wp_bind. change 0 with (16 * Z.of_nat 0) at 1.
  eapply wp_mono; [apply (dirlink_scan_spec dp p s (S (S (Z.to_nat (i_size p / DIRENT)))) 0 (set_log l s)); try done|].
  { destruct Hdir. split; [done| |done]. by apply (did_sized F s). }
  { by eapply did_contents. }
  { by exists l. }
  { fold c. unfold DIRENT. rewrite <-Hcnt, Z.div_mul by lia. lia. }
  { lia. }
  intros off s2 (-> & Hs2 & l2 & -> & Hl2). fold c. change (free_from c 0) with (free_slot c).
  apply wp_bind. eapply wp_mono; [by apply (strncpy_spec DIRSIZ name)|]. intros nm s2 (-> & Hlen & Hcn).
  destruct (new_entry inum nm ltac:(lia) Hlen) as (He & Hei & Hen). set (e := le_bytes 2 inum ++ nm) in *.
  pose proof (did_view_nil _ _ _ _ Hl2) as HV.
  assert (Hw : wp (writei dev_write dp e (16 * Z.of_nat (free_slot c)) DIRENT) (fun r s' => r = 16 /\ exists p',
    fstate F s' dp p' /\ file_written (fs_sb s) p (view s) p' (view s') (16 * Z.of_nat (free_slot c)) e) (set_log l2 s)).
  { eapply wp_mono; [apply (writei_spec F dev_write (set_log l2 s) dp p e); try done|].
    - by rewrite (do_type _ _ Hdir).
    - apply (did_sized F s); [done|apply Hdir].
    - lia.
    - rewrite He. done.
    - by eapply can_write_did.
    - intros r s3 (-> & p' & ws & _ & Hs3 & Hfw & _). split; [done|]. exists p'. split; [done|].
      rewrite take_ge in Hfw by (rewrite He; done).
      apply (written_agree_old _ (fs_log s) _ (view (set_log l2 s))); [apply Hs|intros m _; apply HV|apply Hs|done|done]. }
  apply wp_bind. eapply wp_mono; [exact Hw|]. intros r s3 (-> & p' & Hs3 & Hfw). apply wp_bind, wp_panic_if; [done|].
  apply wp_ret. split; [done|]. exists p', e.
  assert (Hm : (length c mod 16 = 0)%nat).
  { unfold c. rewrite length_contents by apply Hdir. destruct Hdir as [_ [[? _] _] Hm]. 
    apply Nat2Z.inj. rewrite Nat2Z.inj_mod, Z2Nat.id by lia. exact Hm. }
  split_and!; [done| |by rewrite Hen|done| |done].
  - destruct Hdir as [Ht Hsz Hw']. pose proof (fw_inode _ _ _ _ _ _ _ Hfw) as E. split; [rewrite E; done|apply Hfw|].
    apply (f_equal i_size) in E. rewrite He in E. rewrite E. cbn [i_size set_size]. change (Z.of_nat 16) with 16.
    destruct (Z.max_spec (i_size p) (16 * Z.of_nat (free_slot c) + 16)) as [[_ ->]|[_ ->]]; [|done].
    rewrite Z.mod_divide by lia. exists (Z.of_nat (free_slot c) + 1). lia.
  - intros nm'. rewrite (fw_contents _ _ _ _ _ _ _ Hfw). fold c. rewrite dir_find_link; rewrite ?Hen, ?Hcn; try done. lia.
Qed.

(** ** Theorems *)

(** C14: [dirlink] of a name that is not in the directory enters it: it returns 0, and as a map
    from names to inode numbers the directory has gained that name and kept all others; the
    entry takes the place of the first one that is free, or the directory grows by one entry,
    getting a block when it has to.  Every other file and every other inode are untouched. *)
Theorem dirlink_correct s dp p name inum : let c := contents p (view s) in
  fstate F s dp p -> dir_ok p (view s) -> inode_fits p -> readable DIRSIZ name ->
  0 <= i_inum p < sb_ninodes (fs_sb s) -> 0 < inum < 2 ^ 16 -> dir_find (cname DIRSIZ name) c = None ->
  16 * Z.of_nat (free_slot c) + 16 <= MAXFILE * 512 -> can_write F s p (16 * Z.of_nat (free_slot c)) 16 ->
  wp (dirlink dev_read dev_write dp name inum) (fun r s' => r = 0 /\ exists p' e,
    fstate F s' dp p' /\ dir_ok p' (view s') /\ cname DIRSIZ (de_name e) = cname DIRSIZ name /\ de_inum e = inum /\
    (forall nm, dir_find nm (contents p' (view s')) =
      if decide (nm = cname DIRSIZ name) then Some (free_slot c, e) else dir_find nm c) /\
    file_written (fs_sb s) p (view s) p' (view s') (16 * Z.of_nat (free_slot c)) e) s.
Proof. intros c. apply dirlink_spec. Qed.

Lemma iput_locked s i p : icache s !! i = Some p -> sl_locked (i_lock p) = true -> iput i s = Sleep "sleeplock".
Proof.
  intros Hp Hl. unfold iput, acquire_inode, get_inode, bind, gets, deref, id. rewrite Hp. simpl. by rewrite Hl.
Qed.

(** [dirlink] of a name that is there fails with -1, changes nothing and keeps no reference,
    when the name is that of another inode.  When it is the directory itself (the entry "."),
    the call never returns: [iput] of the inode found waits for the lock that the caller of
    [dirlink] holds.  [link(f, "/.")] gets there, inside its transaction. *)
Theorem dirlink_existing V sb h s i n name inum k de : tree_ok V sb -> bits_ok V sb ->
  (forall b, 0 <= b < sb_size sb -> bblock sb b ∈ F) ->
  fsys_ok F V sb (Some i) h s -> locked_at V sb i s -> inum_at s i = Some n -> i_type (dnode V sb n) = T_DIR ->
  readable DIRSIZ name -> length (icache s) = NINODE -> (length h + 1 <= NINODE)%nat ->
  dir_find (cname DIRSIZ name) (contents (dnode V sb n) V) = Some (k, de) ->
  (de_inum de <> n -> wp (dirlink dev_read dev_write i name inum) (fun r s' =>
    r = -1 /\ fsys_ok F V sb (Some i) h s' /\ keeps h s s') s) /\
  (de_inum de = n -> dirlink dev_read dev_write i name inum s = Sleep "sleeplock").
Proof.
  intros Htree Hbits Hbm Hs Hl Hn Ht Hname Hlen Hroom Hf. assert (NINODE = 50%nat) as EN by done.
  destruct (fy_lock _ _ _ _ _ _ Hs i eq_refl) as (Hi & _).
  pose proof (dirlookup_cache F V sb dev_read Htree Hbits Hbm h s i n name Hs Hl Hn Ht Hname ltac:(lia) ltac:(lia)) as Hlook.
  rewrite Hf in Hlook. unfold dirlink. split; intros Hde.
  - apply wp_bind. eapply wp_mono; [exact Hlook|]. intros r s1 (K1 & j & -> & Hs1 & Hj & _).
    apply wp_bind. eapply wp_mono; [apply (iput_spec F V sb Htree (Some i) h s1 j Hs1)|].
    { intros [= <-]. rewrite (kp_at _ _ _ K1) in Hj by done. congruence. }
    intros [] s2 [Hs2 K2]. apply wp_ret. split_and!; [done|done|by eapply kept_trans].
  - apply wp_returns in Hlook as (r & s1 & Er & K1 & j & -> & Hs1 & Hj & _). unfold bind at 1. rewrite Er.
    destruct (fy_lock _ _ _ _ _ _ Hs1 i eq_refl) as (Hi1 & p & Hp & _ & Hpl).
    assert (i_inum p = n) as En by (pose proof (kp_at _ _ _ K1 i Hi) as E; unfold inum_at in E, Hn; rewrite Hp, Hn in E; by injection E).
    destruct (fsys_entry _ _ _ _ _ _ j Hs1 ltac:(left)) as (q & Hq & _). unfold inum_at in Hj. rewrite Hq in Hj. injection Hj as Hj.
    assert (j = i) as ->.
    { apply (co_uniq _ _ _ _ _ (fy_cache _ _ _ _ _ _ Hs1) j i q p); [done|done|left|done|congruence]. }
    unfold bind. rewrite (iput_locked s1 i p); [done|done|]. by rewrite Hpl.
Qed.
End link.

(** ** In the small file system *)

Lemma ex_root_dir : fstate ex_F (opened ex_state) 0 ex_root /\ dir_ok ex_root (view (opened ex_state)) /\
  contents ex_root (view (opened ex_state)) = contents (dnode ex_V ex_sb 1) ex_V.
Proof.
  apply (dir_fstate ex_F ex_V ex_sb ex_tree ex_bits ex_bmap None [0; 1]%nat); [exact ex_fsys|done| |left|done|by vm_compute].
  by apply (co_entry _ _ _ _ _ ex_cache 0 ex_root); [|left|].
Qed.

Lemma ex_can_link : can_write ex_F (opened ex_state) ex_root 48 16.
Proof.
  split.
  - done.
  - intros k Hk. rewrite Z.div_small by lia. intros _. replace (addr_of ex_root (view (opened ex_state)) 0) with 35 by (by vm_compute).
    by vm_compute.
  - split; simpl fs_sb; rewrite ex_free; [by apply Nat.leb_le; vm_compute|]. intros x Hx. apply elem_of_list_to_set.
    change (nblk 48 16 + ind_need ex_root)%nat with 2%nat in Hx. change (take 2 (seqZ 37 63)) with [37; 38] in Hx.
    do 4 right. apply elem_of_cons in Hx as [->|Hx]; [left|right]. apply list_elem_of_singleton in Hx as ->. left.
  - by vm_compute.
Qed.

(** The name "b" for inode 2. *)
Lemma dirlink_correct_witness :
  wp (dirlink no_read no_write 0 [98; 0] 2) (fun r s' => r = 0 /\ exists p' e,
    dir_find [98] (contents p' (view s')) = Some (3%nat, e) /\ de_inum e = 2) (opened ex_state).
Proof.
  destruct ex_root_dir as (H1 & H2 & H3).
  assert (Hslot : free_slot (contents ex_root (view (opened ex_state))) = 3%nat) by (rewrite H3; vm_compute; reflexivity).
  eapply wp_mono; [apply (dirlink_correct ex_F no_read no_write (opened ex_state) 0 ex_root [98; 0] 2)|].
  - exact H1.
  - exact H2.
  - split; [cbn; unfold T_DIR; lia..| |done]. repeat (constructor; [lia|]). constructor.
  - right. left. reflexivity.
  - vm_compute; intuition discriminate.
  - lia.
  - rewrite H3. vm_compute. reflexivity.
  - rewrite Hslot. vm_compute. discriminate.
  - rewrite Hslot. exact ex_can_link.
  - intros r s' (-> & p' & e & _ & _ & _ & Hi & Hf & _). split; [reflexivity|]. exists p', e.
    specialize (Hf [98]). rewrite decide_True in Hf by (vm_compute; reflexivity). rewrite Hslot in Hf. split; [exact Hf|exact Hi].
Defined.

(** The root directory is locked. *)
Definition ex_held : fss := lock_inode (SleepLock true 1) 0 ex_root (opened ex_state).

Lemma ex_held_ok : fsys_ok ex_F ex_V ex_sb (Some 0%nat) [0; 1]%nat ex_held /\ locked_at ex_V ex_sb 0 ex_held.
Proof.
  pose proof (ilock_spec ex_F ex_V ex_sb ex_tree [0; 1]%nat (opened ex_state) 0 ex_fsys ltac:(left)) as H.
  pose proof (ilock_cached (opened ex_state) 0 ex_root eq_refl ltac:(done) eq_refl eq_refl) as H2.
  apply wp_returns in H2 as (u & s & E & ->). pose proof (wp_use _ _ _ _ _ H E) as (H3 & _ & H4). by split.
Qed.

(** "." in the root directory. *)
Lemma dirlink_existing_witness :
  dirlink no_read no_write 0 [46; 0] 2 ex_held = Sleep "sleeplock" /\
  exists s', dirlink no_read no_write 0 [97; 0] 2 ex_held = Ret (-1) s'.
Proof.
  destruct ex_held_ok as [H1 H2].
  assert (Hd : forall nm, dir_find nm (contents (dnode ex_V ex_sb 1) ex_V) = list_find (entry_is nm)
    [le_bytes 2 1 ++ [46] ++ replicate 13 0; le_bytes 2 1 ++ [46; 46] ++ replicate 12 0; le_bytes 2 2 ++ [97] ++ replicate 13 0]).
  { intros nm. unfold dir_find. rewrite ex_dents. reflexivity. }
  assert (Hex : forall name k de, readable DIRSIZ name ->
    dir_find (cname DIRSIZ name) (contents (dnode ex_V ex_sb 1) ex_V) = Some (k, de) ->
    (de_inum de <> 1 -> wp (dirlink no_read no_write 0 name 2) (fun r s' => r = -1 /\
      fsys_ok ex_F ex_V ex_sb (Some 0%nat) [0; 1]%nat s' /\ keeps [0; 1]%nat ex_held s') ex_held) /\
    (de_inum de = 1 -> dirlink no_read no_write 0 name 2 ex_held = Sleep "sleeplock")).
  { intros name k de Hn Hf.
    apply (dirlink_existing ex_F no_read no_write ex_V ex_sb [0; 1]%nat ex_held 0 1 name 2 k de ex_tree ex_bits ex_bmap H1 H2);
      [reflexivity|vm_compute; reflexivity|exact Hn|reflexivity|vm_compute; lia|exact Hf]. }
  split.
  - apply (Hex [46; 0] 0%nat (le_bytes 2 1 ++ [46] ++ replicate 13 0)).
    + right. left. reflexivity.
    + rewrite Hd. vm_compute. reflexivity.
    + vm_compute. reflexivity.
  - assert (Hw : wp (dirlink no_read no_write 0 [97; 0] 2) (fun r _ => r = -1) ex_held).
    { eapply wp_mono; [apply (Hex [97; 0] 2%nat (le_bytes 2 2 ++ [97] ++ replicate 13 0))|].
      + right. left. reflexivity.
      + rewrite Hd. vm_compute. reflexivity.
      + vm_compute. discriminate.
      + intros r s' [-> _]. reflexivity. }
    apply wp_returns in Hw as (r & s' & E & ->). exists s'. exact E.
Defined.
