(* ===== verification/FsRest.v ===== *)
(** * The file system between calls

    [fs_rest] is the state of fs.c when no call is in progress: the log is idle and the cache
    holds the references [hi].  A call that only looks something up returns to such a state
    with the same disk. *)

From S2P Require Import Prelude Bytes File Bio Log Recovery CStr Fs FsBlocks FsFile FsRw FsInode FsWrite FsDir FsCache FsPath.

Section rest.
Context (F : gset Z) (V : Z -> option (list Z)) (sb : superblock).

Record fs_rest (hi : list nat) (t : fss) : Prop := FsRest {
  fr_quiet : quiescent (fs_log t);
  fr_fs : fsys_ok F V sb None hi (opened t)
}.

Lemma rest_begin hi t (Q : unit -> fss -> Prop) : fs_rest hi t -> Q tt (opened t) -> wp (on_log begin_op) Q t.
Proof. intros [Hq _] HQ. apply wp_zoom. eapply wp_run; [by apply begin_op_quiescent|]. exact HQ. Qed.

(** A call that has logged nothing ends without writing to the disk. *)
Lemma rest_end hi t : fsys_ok F V sb None hi t ->
  wp (on_log end_op) (fun _ t' => fs_rest hi t' /\ opened t' = t /\ st_bio (fs_log t') = st_bio (fs_log t)) t.
Proof.
  intros Ht. destruct (fy_alone _ _ _ _ _ _ Ht) as (Hn & Ho & Hc). pose proof (fy_tx _ _ _ _ _ _ Ht) as Htx.
  apply wp_zoom. unfold end_op, commit, upd_log, get_log. wp_pass ltac:(done). simpl. rewrite Ho. simpl. wp_steps. simpl. rewrite Hn. simpl. wp_steps.
  set (t' := set_log _ t).
  assert (E : opened t' = t).
  { destruct t as [[b []] ? ? ?]. unfold opened, t'. simpl in *. by rewrite <-Ho, <-Hc. }
  split; [|by split]. split; [|by rewrite E]. destruct Htx as [[[] ? ? ? ?] Hb Hid Hdi [[] ? ?] He _ _ _ _ _ _].
  split; [|done]. split; try done; (split; [by split|done..]).
Qed.

Lemma rest_view hi t n : fs_rest hi t -> dview (disk (st_bio (fs_log t))) n = V n.
Proof. intros [Hq Hf]. rewrite <-(quiescent_view _ n Hq). apply (fy_view _ _ _ _ _ _ Hf). Qed.

Lemma rest_disk hi hi' t t' : fs_rest hi t -> fs_rest hi' t' -> disk (st_bio (fs_log t')) = disk (st_bio (fs_log t)).
Proof.
  intros H H'. apply list_eq. intros k. pose proof (rest_view _ _ (Z.of_nat k) H) as E. pose proof (rest_view _ _ (Z.of_nat k) H') as E'.
  unfold dview in *. rewrite Nat2Z.id in E, E'. congruence.
Qed.

(** ** Calls that look a path up *)

Context (dev_read : Z -> option (nat -> Z -> M fss (Z * list Z))).
Context (Htree : tree_ok V sb) (Hbits : bits_ok V sb).
Context (Hbmap : forall b, 0 <= b < sb_size sb -> bblock sb b ∈ F).

(** The file system is at rest, and [path] starts at inode [n]. *)
Record can_resolve (hi : list nat) (t : fss) (path : list Z) (n : Z) : Prop := CanResolve {
  cr_rest : fs_rest hi t;
  cr_root : allocated V sb ROOTINO;
  cr_cwd : fs_cwd t ∈ hi;
  cr_start : start t path = Some n;
  cr_str : 0 ∉ path;
  cr_len : length (icache t) = NINODE;
  cr_room : (length hi + 2 <= NINODE)%nat
}.

Lemma namei_spec hi t path n : can_resolve hi t path n ->
  wp (namei dev_read path) (fun r t' => keeps hi (opened t) t' /\ match walk V sb false n (elems path) with
    | None => r = None /\ fsys_ok F V sb None hi t'
    | Some m => exists j, r = Some j /\ fsys_ok F V sb None (j :: hi) t' /\ inum_at t' j = Some m
    end) (opened t).
Proof using Htree Hbits Hbmap.
  intros [Hr Hroot Hcwd Hst H0 Hlen Hroom]. apply wp_bind.
  eapply wp_mono; [apply (namex_correct F V sb dev_read Htree Hbits Hbmap hi (opened t) path false (replicate DIRSIZ 0) n); try done; apply Hr|].
  intros r t' (K & _ & H). apply wp_ret. split; [done|]. destruct (walk V sb false n (elems path)) as [m|]; [|done].
  destruct H as (j & H1 & H2 & H3 & _). by exists j.
Qed.

Lemma locked_type hi i m t : fsys_ok F V sb (Some i) hi t -> locked_at V sb i t -> inum_at t i = Some m ->
  exists p, icache t !! i = Some p /\ i_type p = i_type (dnode V sb m).
Proof using Type.
  intros Ht (p & Hp & Hod) Hm. exists p. split; [done|]. destruct (on_disk_dnode _ _ _ Hod) as (E & _).
  unfold inum_at in Hm. rewrite Hp in Hm. injection Hm as <-. done.
Qed.

Lemma kept_opened h t t' : keeps h (opened t) t' -> keeps h t t'.
Proof using Type. by intros []. Qed.
Lemma kept_closed h t t' : keeps h t (opened t') -> keeps h t t'.
Proof using Type. by intros []. Qed.

Lemma set_cwd_rest hi t ip : fs_rest hi t -> fs_rest hi (Fss (fs_log t) (fs_sb t) (icache t) ip).
Proof using Type. intros [Hq []]. by split. Qed.

End rest.

(** ** The small file system *)

Lemma ex_rest : fs_rest ex_F ex_V ex_sb [0; 1]%nat ex_state.
Proof. split; [exact ex_quiescent|exact ex_fsys]. Qed.

Lemma ex_can_resolve path : start ex_state path = Some 1 -> 0 ∉ path -> can_resolve ex_F ex_V ex_sb [0; 1]%nat ex_state path 1.
Proof.
  intros Hs H0. split; [exact ex_rest|by apply ex_allocated; left|left|done|done|done|]. apply Nat.leb_le. by vm_compute.
Qed.

