(* ===== verification/Mkfs.v ===== *)
(** * Making a file system (mkfs.c)

    The image is a list of blocks, written sector by sector; what [fs.h] lays out on it are the
    definitions of [Log] and [Fs] that the kernel uses.  A [struct dinode] in memory is an
    [inode] whose cache fields do not matter.  The program runs on the host: the files are
    given with their names and contents, [None] for one that cannot be opened, and [exit(1)]
    and a failing [assert] are panics. *)

From S2P Require Import Prelude Bytes Bio Log Fs.

Definition FSSIZE : Z := 1000.
Definition NINODES : Z := 200.
Definition nbitmap : Z := FSSIZE / (Z.of_nat BSIZE * 8) + 1.
Definition ninodeblocks : Z := NINODES / IPB + 1.
Definition nlog : Z := LOGSIZE.
Definition nmeta : Z := 2 + nlog + ninodeblocks + nbitmap.
Definition nblocks : Z := FSSIZE - nmeta.
Definition zeroes : list Z := replicate BSIZE 0.

(** The file [fsfd] and the two counters. *)
Record mk := Mk { img : list (list Z); freeinode : Z; freeblock : Z }.
Definition set_img (x : list (list Z)) (s : mk) : mk := Mk x (freeinode s) (freeblock s).
Definition set_freeinode (x : Z) (s : mk) : mk := Mk (img s) x (freeblock s).
Definition set_freeblock (x : Z) (s : mk) : mk := Mk (img s) (freeinode s) x.

Definition sb : superblock := Superblock FSSIZE nblocks NINODES nlog 2 (2 + nlog) (2 + nlog + ninodeblocks).

(** A write behind the end of the file fills the gap with zeros. *)
Definition put_sect (sec : nat) (buf : list Z) (l : list (list Z)) : list (list Z) :=
  if (sec <? length l)%nat then <[sec := buf]> l else l ++ replicate (sec - length l) zeroes ++ [buf].
Definition wsect (sec : Z) (buf : list Z) : M mk unit := modify (fun s => set_img (put_sect (Z.to_nat sec) buf (img s)) s).
Definition rsect (sec : Z) : M mk (list Z) :=
  s <- gets id ;;
  match img s !! Z.to_nat sec with Some d => ret d | None => panic "read" end.

Definition winode (inum : Z) (ip : inode) : M mk unit :=
  let bn := IBLOCK inum sb in
  buf <- rsect bn ;;
  wsect bn (put_dinode (dinode_off inum) ip buf).

(** The inode before its fields are read. *)
Definition blank (inum : Z) : inode := Inode ROOTDEV inum 0 (SleepLock false 0) true 0 0 0 0 0 (replicate 13 0).
Definition rinode (inum : Z) : M mk inode :=
  buf <- rsect (IBLOCK inum sb) ;;
  ret (load_dinode (dinode_off inum) buf (blank inum)).

Definition ialloc (type : Z) : M mk Z :=
  s <- gets id ;;
  let inum := freeinode s in
  modify (set_freeinode (u32 (inum + 1))) ;;;
  winode inum (set_size 0 (set_nlink 1 (set_itype type (blank inum)))) ;;;
  ret inum.

Definition balloc (used : Z) : M mk unit :=
  panic_if (negb (used <? Z.of_nat BSIZE * 8)) "assert" ;;;
  wsect (sb_bmapstart sb) (fold_left (fun buf i => mark i buf) (seqZ 0 used) zeroes).

(** [freeblock++] *)
Definition next_block : M mk Z :=
  s <- gets id ;; modify (set_freeblock (u32 (freeblock s + 1))) ;;; ret (freeblock s).

(** The block of [iappend]: the inode, which may have got an address, and the block's number. *)
Definition append_block (din : inode) (fbn : Z) : M mk (inode * Z) :=
  if fbn <? NDIRECT then
    let a := nth (Z.to_nat fbn) (i_addrs din) 0 in
    if a =? 0 then
      b <- next_block ;;
      ret (set_addrs (<[Z.to_nat fbn := b]> (i_addrs din)) din, b)
    else ret (din, a)
  else
    let a := nth (Z.to_nat NDIRECT) (i_addrs din) 0 in
    din <- (if a =? 0 then
              b <- next_block ;;
              ret (set_addrs (<[Z.to_nat NDIRECT := b]> (i_addrs din)) din)
            else ret din) ;;
    let a := nth (Z.to_nat NDIRECT) (i_addrs din) 0 in
    indirect <- rsect a ;;
    if word (fbn - NDIRECT) indirect =? 0 then
      b <- next_block ;;
      wsect a (put32 (4 * (fbn - NDIRECT)) b indirect) ;;;
      ret (din, b)
    else ret (din, word (fbn - NDIRECT) indirect).

(** The loop of [iappend] over the blocks; the bytes [p] are what is left to write. *)
Fixpoint iappend_loop (fuel : nat) (din : inode) (off : Z) (p : list Z) : M mk (inode * Z) :=
  match fuel with
  | O => fun _ => Timeout
  | S f =>
      if (length p =? 0)%nat then ret (din, off)
      else
        let fbn := off / Z.of_nat BSIZE in
        panic_if (negb (fbn <? MAXFILE)) "assert" ;;;
        r <- append_block din fbn ;;
        let n1 := Z.min (Z.of_nat (length p)) ((fbn + 1) * Z.of_nat BSIZE - off) in
        buf <- rsect (snd r) ;;
        wsect (snd r) (splice (Z.to_nat (off - fbn * Z.of_nat BSIZE)) (take (Z.to_nat n1) p) buf) ;;;
        iappend_loop f (fst r) (off + n1) (drop (Z.to_nat n1) p)
  end.

Definition iappend (inum : Z) (p : list Z) : M mk unit :=
  din <- rinode inum ;;
  r <- iappend_loop (S (length p)) din (i_size din) p ;;
  winode inum (set_size (snd r) (fst r)).

(** [strncpy(de.name, name, DIRSIZ)] into an entry of zeros. *)
Definition entry (inum : Z) (name : list Z) : list Z :=
  splice 2 (take DIRSIZ (name ++ replicate DIRSIZ 0)) (put16 0 inum (replicate (Z.to_nat DIRENT) 0)).

(** [while((cc = read(fd, buf, sizeof(buf))) > 0)] *)
Fixpoint copy_file (fuel : nat) (inum : Z) (bs : list Z) : M mk unit :=
  match fuel with
  | O => fun _ => Timeout
  | S f =>
      if (length bs =? 0)%nat then ret tt
      else iappend inum (take BSIZE bs) ;;; copy_file f inum (drop BSIZE bs)
  end.

(** [if(argv[i][0] == '_') ++argv[i]] *)
Definition skip_underscore (name : list Z) : list Z := match name with c :: name' => if c =? 95 then name' else name | [] => [] end.

Definition add_file (rootino : Z) (arg : list Z * option (list Z)) : M mk unit :=
  let '(name, file) := arg in
  panic_if (existsb (Z.eqb SLASH) name) "assert" ;;;
  match file with
  | None => panic "open"
  | Some bs =>
      inum <- ialloc T_FILE ;;
      iappend rootino (entry inum (skip_underscore name)) ;;;
      copy_file (S (length bs)) inum bs
  end.
Fixpoint add_files (rootino : Z) (args : list (list Z * option (list Z))) : M mk unit :=
  match args with
  | [] => ret tt
  | a :: args' => add_file rootino a ;;; add_files rootino args'
  end.

(** The superblock in a block. *)
Definition put_sb (s : superblock) (buf : list Z) : list Z :=
  put_words 0 [sb_size s; sb_nblocks s; sb_ninodes s; sb_nlog s; sb_logstart s; sb_inodestart s; sb_bmapstart s] buf.

(** "fix size of root inode dir" *)
Definition fix_root (rootino : Z) : M mk unit :=
  din <- rinode rootino ;;
  winode rootino (set_size (u32 ((i_size din / Z.of_nat BSIZE + 1) * Z.of_nat BSIZE)) din).

Definition main (args : list (list Z * option (list Z))) : M mk unit :=
  modify (set_freeblock nmeta) ;;;
  for_loop (Z.to_nat FSSIZE) 0 (fun i => wsect i zeroes) ;;;
  wsect 1 (put_sb sb zeroes) ;;;
  rootino <- ialloc T_DIR ;;
  panic_if (negb (rootino =? ROOTINO)) "assert" ;;;
  iappend rootino (entry rootino [46]) ;;;
  iappend rootino (entry rootino [46; 46]) ;;;
  add_files rootino args ;;;
  fix_root rootino ;;;
  s <- gets id ;;
  balloc (freeblock s).

(** The truncated image and [freeinode = 1]. *)
Definition start : mk := Mk [] 1 0.
