(* ===== verification/MkfsFile.v ===== *)
(** * Growing a file in the image (iappend of mkfs.c)

    The data blocks of the image as a map [data], in which the blocks from [freeblock] on are
    still zero.  [iappend] takes them in order; what it does to the bytes and the blocks of its
    file is stated with the definitions that describe files for the kernel. *)

From S2P Require Import Prelude Bytes Bio Log Recovery CStr Fs FsBlocks FsFile FsRw FsInode Mkfs.

Abbreviation disk := (Z -> option (list Z)).

Ltac consts := change nmeta with 59 in *; change FSSIZE with 1000 in *; change (sb_size sb) with 1000 in *.

(** The data blocks of an image. *)
Definition data (l : list (list Z)) : disk := fun n => if n <? nmeta then None else l !! Z.to_nat n.

(** The file's blocks lie below [fb], the next free one. *)
Record own (fb : Z) (D : disk) (p : inode) : Prop := Own {
  own_file : file_ok sb D p;
  own_below : forall a, a ∈ blocks_of p D -> a < fb
}.
(** The blocks not yet used. *)
Definition fresh (fb : Z) (D : disk) : Prop := forall n, fb <= n < FSSIZE -> D n = Some zero_block.

Lemma data_meta l n : n < nmeta -> data l n = None.
Proof. intros H. unfold data. by rewrite (proj2 (Z.ltb_lt n nmeta)). Qed.
Lemma data_bit l c : 0 <= c < FSSIZE -> bit (data l) sb c = true.
Proof.
  intros Hc. unfold bit. rewrite data_meta; [done|]. unfold bblock. assert (c / BPB = 0) as -> by (apply Z.div_small; unfold BPB, FSSIZE in *; lia). done.
Qed.

(** ** One more block *)

(** The file has got blocks from [fb] to [fb' - 1], and its bytes are as before. *)
Record extended (p : inode) (D : disk) (fb : Z) (p' : inode) (D' : disk) (fb' : Z) : Prop := Extended {
  ex_inode : p' = set_addrs (i_addrs p') p;
  ex_own : own fb' D' p';
  ex_block : forall bn, 0 <= bn < MAXFILE -> block_at p' D' bn = block_at p D bn;
  ex_keep : forall n, n ∉ blocks_of p D -> n < fb \/ fb' <= n -> D' n = D n;
  ex_new : forall a, a ∈ blocks_of p' D' -> a ∈ blocks_of p D \/ fb <= a < fb';
  ex_fresh : fresh fb' D';
  ex_le : fb <= fb'
}.

Lemma extended_refl p D fb : own fb D p -> fresh fb D -> extended p D fb p D fb.
Proof. intros H1 H2. split; try done; [by rewrite set_addrs_id|by left]. Qed.

Lemma extended_trans p D fb p1 D1 fb1 p2 D2 fb2 : extended p D fb p1 D1 fb1 -> extended p1 D1 fb1 p2 D2 fb2 -> extended p D fb p2 D2 fb2.
Proof.
  intros [A1 A2 A3 A4 A5 A6 A7] [B1 B2 B3 B4 B5 B6 B7]. split; try done.
  - rewrite B1. cbn. rewrite A1. by destruct p.
  - intros bn Hbn. by rewrite B3, A3.
  - intros n Hn Hf. rewrite B4, A4; [done|done|lia| |lia]. intros [H|H]%A5; [done|lia].
  - intros a [H|H]%B5; [|right; lia]. apply A5 in H as [H|H]; [by left|right; lia].
  - lia.
Qed.

Section one_block.
Context (p : inode) (l l' : list (list Z)) (fb : Z).
Let D : disk := data l.
Let D' : disk := data l'.
Hypothesis Hown : own fb D p.
Hypothesis Hfresh : fresh fb D.
Hypothesis Hfb : nmeta <= fb < FSSIZE.

Lemma old_range a : a ∈ blocks_of p D -> nmeta <= a < fb.
Proof using Hown.
  intros Ha. split; [|by apply (own_below _ _ _ Hown)]. pose proof (fo_data _ _ _ (own_file _ _ _ Hown) a Ha) as [H _]. exact (proj1 H).
Qed.

Lemma not_ind n : n ∉ blocks_of p D \/ fb <= n -> n <> ind p \/ ind p = 0.
Proof using Hown.
  intros Hn. destruct (decide (ind p = 0)) as [|Hi]; [by right|left]. intros ->. pose proof (ind_block _ _ _ (own_file _ _ _ Hown) Hi) as Hb.
  destruct Hn as [Hn|Hn]; [done|]. pose proof (old_range _ Hb). lia.
Qed.

(** Slot [k] gets the next block. *)
Lemma ext_slot p' k : p' = set_addrs (i_addrs p') p -> length (i_addrs p') = 13%nat -> slots p' D' = <[k := fb]> (slots p D) -> slots p D !! k = Some 0 ->
  (forall n, n <> ind p \/ ind p = 0 -> D' n = D n) -> extended p D fb p' D' (fb + 1) /\ only_added p D p' D' fb.
Proof using Hown Hfresh Hfb.
  intros Hp Hlen Hs Hk HD. consts. destruct (slots_grew D p fb p' D' k Hs Hk) as [Hperm Honly]; [lia|]. split; [|done].
  pose proof (own_file _ _ _ Hown) as Hf.
  assert (Hr : forall a, a ∈ blocks_of p' D' -> a = fb \/ a ∈ blocks_of p D) by (intros a; rewrite Hperm; intros [->|H]%elem_of_cons; auto).
  split.
  - done.
  - split.
    + split; [done|rewrite Hperm; apply NoDup_cons; split; [|apply Hf]; intros H%old_range; lia|]. intros a Ha.
      assert (59 <= a < 1000) as Ha' by (apply Hr in Ha as [->|Ha%old_range]; consts; lia). split; [exact Ha'|apply data_bit; consts; lia].
    + intros a [->|Ha%old_range]%Hr; consts; lia.
  - intros bn Hbn. unfold block_at. destruct (Honly bn Hbn) as [->|[E0 ->]].
    + destruct (Z.eqb_spec (addr_of p D bn) 0) as [|Ha]; [done|]. rewrite HD; [done|]. left. by apply (addr_ne_ind sb); [|lia|].
    + rewrite E0. cbn. rewrite (proj2 (Z.eqb_neq fb 0)) by lia. rewrite HD by (apply not_ind; right; lia). by rewrite Hfresh by (consts; lia).
  - intros n Hn _. apply HD, not_ind. by left.
  - intros a [->|Ha]%Hr; [right; lia|by left].
  - intros n Hn. rewrite HD by (apply not_ind; right; lia). apply Hfresh. lia.
  - lia.
Qed.

(** A direct block. *)
Lemma ext_direct bn : D' = D -> (bn < 12)%nat -> i_addrs p !! bn = Some 0 ->
  extended p D fb (set_addrs (<[bn := fb]> (i_addrs p)) p) D' (fb + 1) /\ only_added p D (set_addrs (<[bn := fb]> (i_addrs p)) p) D' fb.
Proof using Hown Hfresh Hfb.
  intros HD Hbn Ha. pose proof (fo_len _ _ _ (own_file _ _ _ Hown)) as Hlen. apply (ext_slot _ bn).
  - done.
  - cbn. by rewrite length_insert.
  - unfold slots. rewrite insert_app_l by lia. cbn [i_addrs set_addrs]. f_equal. unfold ind_words. replace (ind (set_addrs (<[bn:=fb]> (i_addrs p)) p)) with (ind p); [by rewrite HD|].
    symmetry. apply nth_insert_ne. lia.
  - unfold slots. by rewrite lookup_app_l by lia.
  - intros n _. by rewrite HD.
Qed.

(** A block in the indirect block. *)
Lemma ext_word j di : (forall n, D' n = if n =? ind p then Some (put32 (4 * Z.of_nat j) fb di) else D n) -> ind p <> 0 -> D (ind p) = Some di -> length di = BSIZE ->
  (j < 128)%nat -> word (Z.of_nat j) di = 0 -> extended p D fb p D' (fb + 1) /\ only_added p D p D' fb.
Proof using Hown Hfresh Hfb.
  intros HD Hi Hdi Hl Hj Hw. pose proof (fo_len _ _ _ (own_file _ _ _ Hown)) as Hlen. consts. apply (ext_slot _ (13 + j)).
  - by rewrite set_addrs_id.
  - done.
  - unfold slots. rewrite <-Hlen, insert_app_r. f_equal. unfold ind_words. rewrite (proj2 (Z.eqb_neq _ _)) by done. rewrite HD, Z.eqb_refl, Hdi.
    apply get_words_put; [done|rewrite Hl; unfold BSIZE; lia|lia].
  - unfold slots. rewrite lookup_app_r by lia. rewrite Hlen. replace (13 + j - 13)%nat with j by lia. unfold ind_words. rewrite (proj2 (Z.eqb_neq _ _)) by done.
    rewrite Hdi, lookup_get_words by done. f_equal. unfold word in Hw. by rewrite Z.add_0_l.
  - intros n [Hn|?]; [|done]. by rewrite HD, (proj2 (Z.eqb_neq _ _)).
Qed.

(** An empty indirect block. *)
Lemma ext_ind : D' = D -> ind p = 0 -> let p' := set_addrs (<[12%nat := fb]> (i_addrs p)) p in
  extended p D fb p' D' (fb + 1) /\ ind p' = fb /\ forall bn, 0 <= bn < MAXFILE -> addr_of p' D' bn = addr_of p D bn.
Proof using Hown Hfresh Hfb.
  intros HD Hi p'. pose proof (own_file _ _ _ Hown) as Hf. pose proof (fo_len _ _ _ Hf) as Hlen. consts. assert (ind p' = fb) as Ei by (apply nth_insert_eq; lia).
  assert (slots p D = i_addrs p) as Es0 by (unfold slots, ind_words; rewrite Hi; apply app_nil_r).
  assert (slots p' D' = <[12%nat := fb]> (i_addrs p) ++ replicate 128 0) as Es.
  { unfold slots, ind_words. rewrite Ei, (proj2 (Z.eqb_neq _ _)) by lia. rewrite HD, Hfresh by (consts; lia). by rewrite get_words_zero. }
  assert (i_addrs p !! 12%nat = Some 0) as H12 by (pose proof (slots_12 _ _ _ Hf) as H12; by rewrite Es0, Hi in H12).
  assert (forall bn, 0 <= bn < MAXFILE -> addr_of p' D' bn = addr_of p D bn) as Hsame.
  { intros bn Hbn. unfold addr_of. rewrite Es, Es0. pose proof (slot_ne_12 bn ltac:(lia)). destruct (decide (slot bn < 13)%nat).
    - rewrite app_nth1 by (rewrite length_insert; lia). by apply nth_insert_ne.
    - rewrite app_nth2 by (rewrite length_insert; lia). by rewrite nth_replicate_0, (nth_overflow (i_addrs p)) by lia. }
  assert (Hperm : blocks_of p' D' ≡ₚ fb :: blocks_of p D).
  { unfold blocks_of. rewrite Es, Es0, filter_app, (filter_nothing _ (replicate 128 0)), app_nil_r.
    - apply filter_insert; [done|lia].
    - intros x [-> _]%elem_of_replicate. tauto. }
  assert (Hr : forall a, a ∈ blocks_of p' D' -> a = fb \/ a ∈ blocks_of p D) by (intros a; rewrite Hperm; intros [->|H]%elem_of_cons; auto).
  split; [|done]. split.
  - done.
  - split.
    + split; [cbn; by rewrite length_insert|rewrite Hperm; apply NoDup_cons; split; [|apply Hf]; intros H%old_range; lia|]. intros a Ha.
      assert (59 <= a < 1000) as Ha' by (apply Hr in Ha as [->|Ha%old_range]; consts; lia). split; [exact Ha'|apply data_bit; consts; lia].
    + intros a [->|Ha%old_range]%Hr; consts; lia.
  - intros bn Hbn. unfold block_at. rewrite Hsame by done. by rewrite HD.
  - intros n _ _. by rewrite HD.
  - intros a [->|Ha]%Hr; [right; lia|by left].
  - intros n Hn. rewrite HD. apply Hfresh. lia.
  - lia.
Qed.
End one_block.

(** ** The block that iappend writes to *)

(** The blocks for [off] bytes, and one for the addresses behind the twelfth. *)
Definition nb (off : Z) : Z := (off + 511) / 512.
Definition need (off : Z) : Z := nb off + (if 12 <? nb off then 1 else 0).

(** The blocks of the first [off] bytes are there and no others. *)
Definition filled (p : inode) (D : disk) (off : Z) : Prop :=
  (forall bn, 0 <= bn < MAXFILE -> addr_of p D bn <> 0 <-> bn * 512 < off) /\ (ind p <> 0 <-> 12 * 512 < off).

Definition img_ok (l : list (list Z)) : Prop := length l = Z.to_nat FSSIZE /\ Forall (fun d => length d = BSIZE) l.

Lemma img_block l n : img_ok l -> 0 <= n < FSSIZE -> exists d, l !! Z.to_nat n = Some d /\ length d = BSIZE.
Proof.
  intros [Hl Hb] Hn. destruct (lookup_lt_is_Some_2 l (Z.to_nat n)) as [d Hd]; [lia|]. exists d. split; [done|]. rewrite Forall_lookup in Hb. by eapply Hb.
Qed.
Lemma img_insert l n d : img_ok l -> 0 <= n < FSSIZE -> length d = BSIZE -> put_sect (Z.to_nat n) d l = <[Z.to_nat n := d]> l /\ img_ok (<[Z.to_nat n := d]> l).
Proof.
  intros [Hl Hb] Hn Hd. unfold put_sect. rewrite (proj2 (Nat.ltb_lt _ _)) by lia. split; [done|]. split; [by rewrite length_insert|]. by apply Forall_insert.
Qed.
Lemma data_lookup l n : nmeta <= n -> data l n = l !! Z.to_nat n.
Proof. intros H. unfold data. by rewrite (proj2 (Z.ltb_ge n nmeta)). Qed.
Lemma data_insert l a d n : nmeta <= a < FSSIZE -> img_ok l -> data (<[Z.to_nat a := d]> l) n = if n =? a then Some d else data l n.
Proof.
  intros Ha [Hl _]. consts. unfold data. consts. destruct (Z.eqb_spec n a) as [->|Hne].
  - rewrite (proj2 (Z.ltb_ge a 59)) by lia. apply list_lookup_insert_eq. lia.
  - destruct (Z.ltb_spec n 59); [done|]. apply list_lookup_insert_ne. lia.
Qed.

Lemma wp_rsect a d (Q : list Z -> mk -> Prop) s : img s !! Z.to_nat a = Some d -> Q d s -> wp (rsect a) Q s.
Proof. intros E H. unfold rsect. wp_steps. cbn [id]. by rewrite E. Qed.
Lemma wp_wsect a d (Q : unit -> mk -> Prop) s : img_ok (img s) -> 0 <= a < FSSIZE -> length d = BSIZE ->
  (img_ok (<[Z.to_nat a := d]> (img s)) -> Q tt (set_img (<[Z.to_nat a := d]> (img s)) s)) -> wp (wsect a d) Q s.
Proof. intros H Ha Hd HQ. destruct (img_insert _ _ _ H Ha Hd) as [E Hok]. unfold wsect. wp_steps. rewrite E. by apply HQ. Qed.
Lemma wp_next_block (Q : Z -> mk -> Prop) s : 0 <= freeblock s < FSSIZE -> Q (freeblock s) (set_freeblock (freeblock s + 1) s) -> wp next_block Q s.
Proof. intros H HQ. unfold next_block. wp_steps. cbn [id]. consts. by rewrite u32_small by lia. Qed.

(** The same blocks before the data. *)
Definition same_meta (l l' : list (list Z)) : Prop := forall n, (n < Z.to_nat nmeta)%nat -> l' !! n = l !! n.
Lemma same_meta_insert l a d : nmeta <= a -> same_meta l (<[Z.to_nat a := d]> l).
Proof. intros Ha n Hn. apply list_lookup_insert_ne. lia. Qed.

Definition cost (p : inode) (D : disk) (fbn : Z) : Z := (if addr_of p D fbn =? 0 then 1 else 0) + (if (12 <=? fbn) && (ind p =? 0) then 1 else 0).

Lemma cost_need p D off : filled p D off -> 0 <= off < MAXFILE * 512 -> cost p D (off / 512) = need ((off / 512 + 1) * 512) - need off.
Proof.
  intros [H1 H2] Ho. pose proof (div_512 off Ho) as Hb. specialize (H1 (off / 512) Hb). unfold cost, need, nb.
  pose proof (Z.div_mod off 512 ltac:(lia)). pose proof (Z.mod_pos_bound off 512 ltac:(lia)).
  replace (((off / 512 + 1) * 512 + 511) / 512) with (off / 512 + 1) by (apply (Z.div_unique _ _ _ 511); lia).
  destruct (Z.eqb_spec (addr_of p D (off / 512)) 0) as [E|E].
  - assert (~ off / 512 * 512 < off) by tauto. replace ((off + 511) / 512) with (off / 512) by (apply (Z.div_unique _ _ _ 511); lia).
    destruct (Z.eqb_spec (ind p) 0), (Z.leb_spec 12 (off / 512)), (Z.ltb_spec 12 (off / 512 + 1)), (Z.ltb_spec 12 (off / 512)); cbn; lia.
  - assert (off / 512 * 512 < off) by tauto. replace ((off + 511) / 512) with (off / 512 + 1) by (apply (Z.div_unique _ _ _ (off mod 512 - 1)); lia).
    destruct (Z.eqb_spec (ind p) 0), (Z.leb_spec 12 (off / 512)), (Z.ltb_spec 12 (off / 512 + 1)); cbn; lia.
Qed.

Lemma filled_next p D off p' D' : filled p D off -> 0 <= off -> let fbn := off / 512 in
  (forall bn, 0 <= bn < MAXFILE -> bn <> fbn -> addr_of p' D' bn = addr_of p D bn) -> addr_of p' D' fbn <> 0 ->
  (ind p' <> 0 <-> ind p <> 0 \/ 12 <= fbn) -> filled p' D' ((fbn + 1) * 512).
Proof.
  intros [H1 H2] Ho fbn Hother Hx Hi. pose proof (Z.div_mod off 512 ltac:(lia)). pose proof (Z.mod_pos_bound off 512 ltac:(lia)). fold fbn in H. split.
  - intros bn Hbn. destruct (decide (bn = fbn)) as [->|Hne]; [split; [lia|done]|]. rewrite Hother, H1 by done. lia.
  - rewrite Hi, H2. lia.
Qed.

(** What [append_block] returns for block [fbn]. *)
Record got (p : inode) (st : mk) (fbn : Z) (p' : inode) (x : Z) (st' : mk) : Prop := Got {
  gt_ext : extended p (data (img st)) (freeblock st) p' (data (img st')) (freeblock st');
  gt_addr : addr_of p' (data (img st')) fbn = x;
  gt_some : x <> 0;
  gt_other : forall bn, 0 <= bn < MAXFILE -> bn <> fbn -> addr_of p' (data (img st')) bn = addr_of p (data (img st)) bn;
  gt_ind : ind p' <> 0 <-> ind p <> 0 \/ 12 <= fbn;
  gt_img : img_ok (img st');
  gt_ino : freeinode st' = freeinode st;
  gt_meta : same_meta (img st) (img st');
  gt_cost : freeblock st' = freeblock st + cost p (data (img st)) fbn
}.

Lemma only_added_other p D p' D' b fb' fbn : own fb' D' p' -> only_added p D p' D' b -> b <> 0 -> 0 <= fbn -> addr_of p' D' fbn = b ->
  forall bn, 0 <= bn < MAXFILE -> bn <> fbn -> addr_of p' D' bn = addr_of p D bn.
Proof.
  intros Ho Ha Hb Hf E bn Hbn Hne. destruct (Ha bn Hbn) as [|[_ E']]; [done|]. exfalso. apply Hne. apply (addr_inj sb D' p'); [apply Ho|lia|done|by rewrite E'|congruence].
Qed.

Section append.
Context (p : inode) (st : mk) (fbn : Z).
Let D : disk := data (img st).
Hypothesis Himg : img_ok (img st).
Hypothesis Hown : own (freeblock st) D p.
Hypothesis Hfresh : fresh (freeblock st) D.
Hypothesis Hfb : nmeta <= freeblock st.
Hypothesis Hcost : freeblock st + cost p D fbn <= FSSIZE.

Lemma append_direct : 0 <= fbn < NDIRECT -> wp (append_block p fbn) (fun r st' => got p st fbn (fst r) (snd r) st') st.
Proof using Himg Hown Hfresh Hfb Hcost.
  intros Hn. unfold append_block. rewrite (proj2 (Z.ltb_lt _ _)) by lia. pose proof (fo_len _ _ _ (own_file _ _ _ Hown)) as Hlen.
  assert (Hc : (12 <=? fbn) && (ind p =? 0) = false) by (rewrite (proj2 (Z.leb_gt _ _)); [done|unfold NDIRECT in Hn; lia]).
  pose proof (direct_slot p D fbn Hlen Hn) as Hs. rewrite (nth_lookup_Some _ _ _ _ Hs). unfold cost in Hcost. rewrite Hc in Hcost.
  destruct (Z.eqb_spec (addr_of p D fbn) 0) as [E|E].
  - consts. apply wp_bind, wp_next_block; [consts; lia|]. apply wp_ret. cbn [fst snd]. rewrite E in Hs. unfold NDIRECT in Hn.
    destruct (ext_direct p (img st) (img st) (freeblock st) Hown Hfresh ltac:(consts; lia) (Z.to_nat fbn) eq_refl ltac:(lia) Hs) as [He Ho].
    assert (Ea : addr_of (set_addrs (<[Z.to_nat fbn:=freeblock st]> (i_addrs p)) p) D fbn = freeblock st).
    { apply (inj Some). rewrite <-(direct_slot _ D fbn) by (cbn; rewrite ?length_insert; unfold NDIRECT; (done || lia)). cbn. apply list_lookup_insert_eq. lia. }
    split; cbn [img freeblock freeinode set_freeblock]; try done.
    + lia.
    + eapply (only_added_other p D _ D (freeblock st)); [apply He|done|lia|lia|done].
    + assert (ind (set_addrs (<[Z.to_nat fbn:=freeblock st]> (i_addrs p)) p) = ind p) as -> by (apply nth_insert_ne; lia). lia.
    + unfold cost. fold D. rewrite E, Hc. done.
  - apply wp_ret. cbn [fst snd]. split; try done.
    + by apply extended_refl.
    + unfold NDIRECT in Hn. lia.
    + unfold cost. fold D. rewrite Hc, (proj2 (Z.eqb_neq _ _)) by done. lia.
Qed.

(** The part behind the allocation of the indirect block. *)
Definition append_word (p : inode) : M mk (inode * Z) :=
  let a := nth (Z.to_nat NDIRECT) (i_addrs p) 0 in
  indirect <- rsect a ;;
  if word (fbn - NDIRECT) indirect =? 0 then
    b <- next_block ;;
    wsect a (put32 (4 * (fbn - NDIRECT)) b indirect) ;;;
    ret (p, b)
  else ret (p, word (fbn - NDIRECT) indirect).

Lemma append_word_spec : NDIRECT <= fbn < MAXFILE -> ind p <> 0 -> wp (append_word p) (fun r st' => got p st fbn (fst r) (snd r) st') st.
Proof using Himg Hown Hfresh Hfb Hcost.
  intros Hn Hi. unfold append_word. pose proof (own_file _ _ _ Hown) as Hf. pose proof (fo_len _ _ _ Hf) as Hlen. consts.
  pose proof (old_range p (img st) (freeblock st) Hown _ (ind_block _ _ _ Hf Hi)) as Hr. consts.
  assert (Hc : (12 <=? fbn) && (ind p =? 0) = false) by (by rewrite (proj2 (Z.eqb_neq (ind p) 0)), andb_false_r).
  change (nth (Z.to_nat NDIRECT) (i_addrs p) 0) with (ind p). assert (0 <= cost p D fbn) by (unfold cost; repeat case_match; lia).
  destruct (img_block _ (ind p) Himg ltac:(consts; lia)) as (di & Hdi & Hl). apply wp_bind. apply (wp_rsect _ di); [done|].
  assert (HD : D (ind p) = Some di) by (unfold D; rewrite data_lookup; [done|consts; lia]).
  pose proof (ind_slot p D fbn Hlen Hn Hi di HD) as Ha. rewrite <-Ha. unfold cost in Hcost. rewrite Hc in Hcost. unfold MAXFILE, NDIRECT, NINDIRECT in Hn. destruct (Z.eqb_spec (addr_of p D fbn) 0) as [E|E].
  - consts. apply wp_bind, wp_next_block; [consts; lia|]. apply wp_bind. cbn [set_freeblock]. unfold NDIRECT. unfold BSIZE in Hl. replace (4 * (fbn - 12)) with (4 * Z.of_nat (Z.to_nat (fbn - 12))) by lia.
    apply wp_wsect; [done|consts; lia|rewrite length_put32 by (rewrite ?Hl; lia); done|]. intros Hok. apply wp_ret. cbn [fst snd].
    assert (HD' : forall n, data (<[Z.to_nat (ind p):=put32 (4 * Z.of_nat (Z.to_nat (fbn - 12))) (freeblock st) di]> (img st)) n =
      if n =? ind p then Some (put32 (4 * Z.of_nat (Z.to_nat (fbn - 12))) (freeblock st) di) else D n) by (intros n; apply data_insert; [consts; lia|done]).
    destruct (ext_word p (img st) (<[Z.to_nat (ind p):=put32 (4 * Z.of_nat (Z.to_nat (fbn - 12))) (freeblock st) di]> (img st)) (freeblock st) Hown Hfresh ltac:(consts; lia) (Z.to_nat (fbn - 12)) di HD' Hi HD Hl ltac:(lia)) as [He Ho].
    { rewrite Z2Nat.id by lia. unfold NDIRECT in Ha. congruence. }
    assert (Ea : addr_of p (data (<[Z.to_nat (ind p):=put32 (4 * Z.of_nat (Z.to_nat (fbn - 12))) (freeblock st) di]> (img st))) fbn = freeblock st).
    { rewrite (ind_slot p _ fbn) with (d := put32 (4 * Z.of_nat (Z.to_nat (fbn - 12))) (freeblock st) di); [|done|unfold MAXFILE, NDIRECT, NINDIRECT; lia|done|by rewrite HD', Z.eqb_refl].
      unfold word, NDIRECT. rewrite Z2Nat.id by lia. rewrite get32_put32_same by (rewrite ?Hl; lia). apply u32_small. lia. }
    split; cbn [img freeblock freeinode set_freeblock set_img]; try done.
    + lia.
    + eapply (only_added_other p D _ _ (freeblock st)); [apply He|done|lia|lia|done].
    + tauto.
    + apply same_meta_insert. consts. lia.
    + unfold cost. fold D. rewrite E, Hc. done.
  - apply wp_ret. cbn [fst snd]. split; try done.
    + by apply extended_refl.
    + tauto.
    + unfold cost. fold D. rewrite Hc, (proj2 (Z.eqb_neq _ _)) by done. lia.
Qed.
End append.

Lemma append_block_spec p st fbn : img_ok (img st) -> own (freeblock st) (data (img st)) p -> fresh (freeblock st) (data (img st)) -> nmeta <= freeblock st ->
  freeblock st + cost p (data (img st)) fbn <= FSSIZE -> 0 <= fbn < MAXFILE -> wp (append_block p fbn) (fun r st' => got p st fbn (fst r) (snd r) st') st.
Proof.
  intros Himg Hown Hfresh Hfb Hcost Hn. destruct (Z.lt_ge_cases fbn NDIRECT) as [Hlt|Hge]; [apply append_direct; (done || lia)|].
  pose proof (own_file _ _ _ Hown) as Hf. pose proof (fo_len _ _ _ Hf) as Hlen. unfold append_block. rewrite (proj2 (Z.ltb_ge _ _)) by lia.
  change (nth (Z.to_nat NDIRECT) (i_addrs p) 0) with (ind p). apply wp_bind. destruct (Z.eqb_spec (ind p) 0) as [Hi|Hi].
  2:{ apply wp_ret. apply append_word_spec; (done || lia). }
  assert (Hc : (12 <=? fbn) && (ind p =? 0) = true) by (rewrite Hi, (proj2 (Z.leb_le _ _)) by (unfold NDIRECT in Hge; lia); done).
  pose proof Hcost as Hcost'. unfold cost in Hcost'. rewrite Hc in Hcost'. consts.
  assert (0 <= (if addr_of p (data (img st)) fbn =? 0 then 1 else 0)) by (case_match; lia).
  apply wp_bind, wp_next_block; [consts; lia|]. apply wp_ret. set (st1 := set_freeblock _ st).
  destruct (ext_ind p (img st) (img st) (freeblock st) Hown Hfresh ltac:(consts; lia) eq_refl Hi) as (He & Ei & Hsame). set (p1 := set_addrs _ p) in *.
  assert (Hc1 : cost p1 (data (img st1)) fbn = if addr_of p (data (img st)) fbn =? 0 then 1 else 0).
  { unfold cost. rewrite Ei, (proj2 (Z.eqb_neq (freeblock st) 0)), andb_false_r by lia. change (img st1) with (img st). rewrite Hsame by done. lia. }
  eapply wp_mono; [apply (append_word_spec p1 st1 fbn); [done|apply He|apply He|cbn; consts; lia|rewrite Hc1; cbn; consts; lia|lia|rewrite Ei; lia]|].
  intros [p2 x] st2 [G1 G2 G3 G4 G5 G6 G7 G8 G9]. cbn [fst snd] in *. split; try done.
  - by eapply extended_trans.
  - intros bn Hbn Hne. rewrite G4 by done. by apply Hsame.
  - rewrite G5, Ei. unfold NDIRECT in Hge. lia.
  - rewrite G9, Hc1. unfold cost. rewrite Hc. cbn. lia.
Qed.

(** ** The loop *)

Lemma filled_same p D off off' : nb off = nb off' -> filled p D off -> filled p D off'.
Proof.
  intros E [H1 H2]. assert (forall bn, bn * 512 < off <-> bn * 512 < off') as Hc.
  { intros bn. unfold nb in E. pose proof (Z.div_mod (off + 511) 512 ltac:(lia)). pose proof (Z.mod_pos_bound (off + 511) 512 ltac:(lia)).
    pose proof (Z.div_mod (off' + 511) 512 ltac:(lia)). pose proof (Z.mod_pos_bound (off' + 511) 512 ltac:(lia)). lia. }
  split; [intros bn Hbn; by rewrite H1, Hc|by rewrite H2, Hc].
Qed.
Lemma nb_le a b : a <= b -> nb a <= nb b.
Proof. intros H. apply Z.div_le_mono; lia. Qed.
Lemma need_le a b : a <= b -> need a <= need b.
Proof. intros H. pose proof (nb_le a b H). unfold need. destruct (Z.ltb_spec 12 (nb a)), (Z.ltb_spec 12 (nb b)); lia. Qed.
Lemma nb_in off m : 0 <= off -> off / 512 * 512 < m <= (off / 512 + 1) * 512 -> nb m = off / 512 + 1.
Proof. intros Ho Hm. unfold nb. symmetry. apply (Z.div_unique _ _ _ (m + 511 - (off / 512 + 1) * 512)); lia. Qed.

(** The bytes [bs] have been put behind the first [off] ones. *)
Record appended (p : inode) (st : mk) (off : Z) (bs : list Z) (p' : inode) (st' : mk) : Prop := Appended {
  ap_inode : p' = set_addrs (i_addrs p') p;
  ap_own : own (freeblock st') (data (img st')) p';
  ap_bytes : forall k, 0 <= k < MAXFILE * 512 -> byte_at p' (data (img st')) k =
    if decide (off <= k < off + Z.of_nat (length bs)) then nth (Z.to_nat (k - off)) bs 0 else byte_at p (data (img st)) k;
  ap_keep : forall n, n ∉ blocks_of p (data (img st)) -> n < freeblock st \/ freeblock st' <= n -> data (img st') n = data (img st) n;
  ap_new : forall a, a ∈ blocks_of p' (data (img st')) -> a ∈ blocks_of p (data (img st)) \/ freeblock st <= a < freeblock st';
  ap_fresh : fresh (freeblock st') (data (img st'));
  ap_filled : filled p' (data (img st')) (off + Z.of_nat (length bs));
  ap_img : img_ok (img st');
  ap_ino : freeinode st' = freeinode st;
  ap_meta : same_meta (img st) (img st');
  ap_fb : freeblock st' = freeblock st + need (off + Z.of_nat (length bs)) - need off
}.

Lemma appended_trans p st off a p1 st1 b p2 st2 : 0 <= off -> appended p st off a p1 st1 -> appended p1 st1 (off + Z.of_nat (length a)) b p2 st2 -> appended p st off (a ++ b) p2 st2.
Proof.
  intros Ho [A1 A2 A3 A4 A5 A6 A7 A8 A9 A10 A11] [B1 B2 B3 B4 B5 B6 B7 B8 B9 B10 B11]. assert (El : Z.of_nat (length (a ++ b)) = Z.of_nat (length a) + Z.of_nat (length b)) by (rewrite length_app; lia).
  assert (need off <= need (off + Z.of_nat (length a)) /\ need (off + Z.of_nat (length a)) <= need (off + Z.of_nat (length a) + Z.of_nat (length b))) as [Hn1 Hn2] by (split; apply need_le; lia).
  split; rewrite ?El, ?Z.add_assoc; try done.
  - rewrite B1. cbn. rewrite A1. by destruct p.
  - intros k Hk. rewrite B3, A3 by done. repeat case_decide; try lia; try done; [rewrite app_nth2 by lia; f_equal; lia|by rewrite app_nth1 by lia].
  - intros n Hn Hor. rewrite B4, A4; [done|done|lia| |lia]. intros [H|H]%A5; [done|lia].
  - intros x [H|H]%B5; [|right; lia]. apply A5 in H as [H|H]; [by left|right; lia].
  - congruence.
  - intros n Hn. rewrite B10, A10; done.
  - lia.
Qed.

Section round.
Context (p : inode) (st : mk) (off : Z) (bs : list Z).
Let fbn : Z := off / 512.
Let n1 : Z := Z.min (Z.of_nat (length bs)) ((fbn + 1) * 512 - off).
Let cs : list Z := take (Z.to_nat n1) bs.
Hypothesis Hoff : 0 <= off.
Hypothesis Hbs : (length bs <> 0)%nat.
Hypothesis Hmax : off + Z.of_nat (length bs) <= MAXFILE * 512.
Hypothesis Hfill : filled p (data (img st)) off.
Hypothesis Hown : own (freeblock st) (data (img st)) p.

Lemma round_chunk : Z.of_nat (length cs) = n1 /\ 0 < n1 /\ off mod 512 + n1 <= 512 /\ off - fbn * 512 = off mod 512 /\ 0 <= fbn < MAXFILE /\ nb (off + n1) = fbn + 1.
Proof using Hoff Hbs Hmax.
  pose proof (Z.div_mod off 512 ltac:(lia)). pose proof (Z.mod_pos_bound off 512 ltac:(lia)). fold fbn in H. assert (0 < n1 /\ n1 <= Z.of_nat (length bs)) as [? ?] by (unfold n1; lia).
  split_and!; try lia.
  - unfold cs. rewrite length_take. lia.
  - apply nb_in; [done|]. fold fbn. lia.
Qed.

(** One round after [append_block]: the block is read, changed and written. *)
Lemma round_store p1 x st1 d : got p st fbn p1 x st1 -> data (img st1) x = Some d -> length d = BSIZE -> img_ok (<[Z.to_nat x := splice (Z.to_nat (off mod 512)) cs d]> (img st1)) ->
  appended p st off cs p1 (set_img (<[Z.to_nat x := splice (Z.to_nat (off mod 512)) cs d]> (img st1)) st1).
Proof using Hoff Hbs Hmax Hfill Hown.
  intros [G1 G2 G3 G4 G5 G6 G7 G8 G9] Hd Hl Hok. destruct round_chunk as (Ec & H1 & H2 & Em & Hb & Hnb). destruct G1 as [E1 E2 E3 E4 E5 E6 E7].
  pose proof (own_file _ _ _ E2) as Hf. assert (Hxb : x ∈ blocks_of p1 (data (img st1))) by (rewrite <-G2; apply addr_block; by rewrite G2).
  pose proof (old_range p1 (img st1) (freeblock st1) E2 x Hxb) as Hxr. set (v := splice _ cs d). set (D1 := data (img st1)) in *. set (D2 := data (<[Z.to_nat x := v]> (img st1))).
  assert (Hx1000 : x < FSSIZE) by (pose proof (fo_data _ _ _ Hf x Hxb) as [[_ Hr] _]; exact Hr).
  assert (HD : forall n, D2 n = if n =? addr_of p1 D1 fbn then Some v else D1 n) by (intros n; rewrite G2; apply data_insert; [lia|done]).
  assert (Ha : addr_of p1 D1 fbn <> 0) by (by rewrite G2). pose proof (store_slots (sb := sb) D1 D2 p1 fbn v Hf Hb Ha HD) as Hslots.
  assert (Hblocks : blocks_of p1 D2 = blocks_of p1 D1) by (unfold blocks_of; by rewrite Hslots). pose proof (store_block (sb := sb) D1 D2 p1 fbn v Hf Hb Ha HD) as Hblk.
  split; cbn [img set_img freeblock freeinode]; fold D2; try done.
  - split; [|by rewrite Hblocks; apply E2]. split; [apply Hf|rewrite Hblocks; apply Hf|]. rewrite Hblocks. intros a Ha'. pose proof (fo_data _ _ _ Hf a Ha') as [Hr _].
    split; [done|]. apply data_bit. change (data_start sb) with 59 in Hr. consts. lia.
  - intros k Hk. rewrite (byte_splice p1 D1 D2 off cs d); [|done|lia|done| | |lia].
    + rewrite Ec. case_decide; [done|]. unfold byte_at. rewrite E3 by (by apply div_512). done.
    + unfold block_at. fold fbn. rewrite (proj2 (Z.eqb_neq _ _)) by done. by rewrite G2, Hd.
    + intros bn' Hbn'. fold fbn. by apply Hblk.
  - intros n Hn Hor. rewrite HD, G2. assert (n <> x).
    { intros ->. apply E5 in Hxb as [?|?]; [done|lia]. }
    rewrite (proj2 (Z.eqb_neq n x)) by done. by apply E4.
  - intros a. rewrite Hblocks. apply E5.
  - intros n Hn. rewrite HD, G2, (proj2 (Z.eqb_neq n x)) by lia. by apply E6.
  - rewrite Ec. apply (filled_same _ _ ((fbn + 1) * 512)); [rewrite Hnb; apply nb_in; [done|fold fbn; lia]|].
    apply (filled_next p (data (img st)) off); try done; fold fbn.
    + intros bn Hbn Hne. rewrite (store_addr (sb := sb) D1 D2 p1 fbn v) by done. by apply G4.
    + by rewrite (store_addr (sb := sb) D1 D2 p1 fbn v).
  - intros n Hn. rewrite list_lookup_insert_ne by lia. by apply G8.
  - rewrite Ec. pose proof (cost_need p (data (img st)) off Hfill ltac:(lia)) as Hcn. fold fbn in Hcn. rewrite G9, Hcn. unfold need. rewrite Hnb. rewrite (nb_in off ((fbn + 1) * 512)) by (fold fbn; lia). fold fbn. lia.
Qed.
End round.

Lemma iappend_loop_spec fuel : forall p st off bs, (length bs < fuel)%nat -> img_ok (img st) -> own (freeblock st) (data (img st)) p -> fresh (freeblock st) (data (img st)) ->
  nmeta <= freeblock st -> filled p (data (img st)) off -> 0 <= off -> off + Z.of_nat (length bs) <= MAXFILE * 512 ->
  freeblock st + need (off + Z.of_nat (length bs)) - need off <= FSSIZE ->
  wp (iappend_loop fuel p off bs) (fun r st' => snd r = off + Z.of_nat (length bs) /\ appended p st off bs (fst r) st') st.
Proof.
  induction fuel as [|f IH]; intros p st off bs Hf Himg Hown Hfresh Hfb Hfill Hoff Hmax Hneed; [lia|]. cbn [iappend_loop].
  destruct (Nat.eqb_spec (length bs) 0) as [Hz|Hz].
  - apply wp_ret. destruct bs; [|done]. cbn [length fst snd] in *. rewrite Z.add_0_r. split; [done|]. split; try done.
    + by rewrite set_addrs_id.
    + intros k _. cbn [length]. rewrite decide_False by lia. done.
    + by left.
    + cbn [length]. by rewrite Z.add_0_r.
    + cbn [length]. rewrite Z.add_0_r. lia.
  - change (Z.of_nat BSIZE) with 512. destruct (round_chunk off bs Hoff Hz Hmax) as (Ec & H1 & H2 & Em & Hb & Hnb). apply wp_bind; apply wp_panic_if; [by rewrite (proj2 (Z.ltb_lt _ _)) by lia|].
    set (n1 := Z.min (Z.of_nat (length bs)) ((off / 512 + 1) * 512 - off)) in *. set (cs := take (Z.to_nat n1) bs) in *.
    assert (Hlen : n1 <= Z.of_nat (length bs)) by (unfold n1; lia).
    assert (Hcost : cost p (data (img st)) (off / 512) = need (off + n1) - need off).
    { rewrite cost_need by (done || lia). unfold need. rewrite Hnb. rewrite (nb_in off ((off / 512 + 1) * 512)) by lia. done. }
    pose proof (need_le (off + n1) (off + Z.of_nat (length bs)) ltac:(lia)). apply wp_bind. eapply wp_mono; [apply append_block_spec; (done || lia)|]. intros [p1 x] st1 G. cbn [fst snd] in *.
    pose proof (gt_ext _ _ _ _ _ _ G) as Hext. assert (Hxb : x ∈ blocks_of p1 (data (img st1))) by (rewrite <-(gt_addr _ _ _ _ _ _ G); apply addr_block; rewrite (gt_addr _ _ _ _ _ _ G); apply G).
    pose proof (old_range p1 (img st1) _ (ex_own _ _ _ _ _ _ Hext) x Hxb) as Hxr. assert (Hx : x < FSSIZE) by (pose proof (fo_data _ _ _ (own_file _ _ _ (ex_own _ _ _ _ _ _ Hext)) x Hxb) as [[_ Hr] _]; exact Hr).
    destruct (img_block (img st1) x (gt_img _ _ _ _ _ _ G)) as (d & Hd & Hl); [consts; lia|]. apply wp_bind. apply (wp_rsect x d); [done|]. apply wp_bind. rewrite Em. unfold BSIZE in Hl.
    pose proof (Z.mod_pos_bound off 512 ltac:(lia)). apply wp_wsect; [apply G|consts; lia|rewrite length_splice by lia; done|]. intros Hok.
    pose proof (round_store p st off bs Hoff Hz Hmax Hfill Hown p1 x st1 d G ltac:(rewrite data_lookup by lia; exact Hd) Hl Hok) as Happ. fold n1 cs in Happ.
    set (st2 := set_img _ st1) in *. assert (Ed : Z.of_nat (length (drop (Z.to_nat n1) bs)) = Z.of_nat (length bs) - n1) by (rewrite length_drop; lia).
    pose proof (need_le off (off + n1) ltac:(lia)). pose proof (ap_fb _ _ _ _ _ _ Happ) as Hfb2. pose proof (ap_filled _ _ _ _ _ _ Happ) as Hfi. rewrite Ec in Hfb2, Hfi.
    eapply wp_mono; [apply (IH p1 st2 (off + n1) (drop (Z.to_nat n1) bs)); [|apply (ap_img _ _ _ _ _ _ Happ)|apply (ap_own _ _ _ _ _ _ Happ)|apply (ap_fresh _ _ _ _ _ _ Happ)|lia|done|lia|lia|]|].
    + lia.
    + rewrite Ed. replace (off + n1 + (Z.of_nat (length bs) - n1)) with (off + Z.of_nat (length bs)) by lia. lia.
    + intros [p2 off2] st3 [E2 A2]. cbn [fst snd] in *. rewrite Ed in E2. split; [lia|]. rewrite <-(take_drop (Z.to_nat n1) bs). fold cs.
      rewrite <-Ec in A2 at 1. by eapply appended_trans.
Qed.
