(* ===== verification/MkfsProofs.v ===== *)
(** * The image that mkfs makes

    [mk_ok] relates an image under construction to the list of its files, inode 1 first.  Every
    operation of mkfs.c keeps it, and in the end the image is a file system as the kernel
    expects it: a tree of directories over a correct bitmap, in which every name leads to its
    file. *)

From S2P Require Import Prelude Bytes Bio Log Recovery CStr Fs FsBlocks FsFile FsRw FsInode FsWrite FsDir FsCache FsPath Mkfs MkfsFile.

(** ** Inodes of the image *)

Abbreviation view l := (dview l).
Abbreviation node l n := (dnode (dview l) sb n).

(** The fields that are not on the disk. *)
Record shape (n : Z) (p : inode) : Prop := Shape {
  sh_dev : i_dev p = ROOTDEV; sh_inum : i_inum p = n; sh_ref : i_ref p = 0; sh_lock : i_lock p = SleepLock false 0; sh_valid : i_valid p = true
}.
Lemma node_shape l n : shape n (node l n).
Proof. by split. Qed.

Lemma s16_range x : - 2 ^ 15 <= s16 x < 2 ^ 15.
Proof. unfold s16. pose proof (Z.mod_pos_bound (x + 2 ^ 15) (2 ^ 16) ltac:(lia)). lia. Qed.

Lemma own_fits fb D p n l : own fb D p -> fb <= FSSIZE -> 0 <= i_size p < 2 ^ 32 -> (exists q, q = node l n /\ i_type p = i_type q /\ i_major p = i_major q /\ i_minor p = i_minor q /\ i_nlink p = i_nlink q) ->
  inode_fits p.
Proof.
  intros Ho Hfb Hs (q & -> & E1 & E2 & E3 & E4). consts. split; rewrite ?E1, ?E2, ?E3, ?E4; try apply s16_range; [lia| |apply Ho].
  apply Forall_forall. intros a Ha. destruct (decide (a = 0)) as [->|Hne]; [lia|].
  assert (a ∈ blocks_of p D) as Hb by (apply elem_slots; split; [done|apply elem_of_app; by left]). pose proof (own_below _ _ _ Ho a Hb).
  pose proof (fo_data _ _ _ (own_file _ _ _ Ho) a Hb) as [[Hr _] _]. change (data_start sb) with 59 in Hr. lia.
Qed.

Lemma iblock_eq n : 0 <= n < NINODES -> IBLOCK n sb = iblock sb n /\ 32 <= iblock sb n < 58.
Proof.
  intros Hn. unfold NINODES in Hn. assert (0 <= n / IPB < 25) by (unfold IPB; split; [apply Z.div_pos; lia|apply Z.div_lt_upper_bound; lia]).
  unfold IBLOCK, iblock. change (sb_inodestart sb) with 32. rewrite u32_small by lia. lia.
Qed.

Lemma wp_rinode n (Q : inode -> mk -> Prop) st : img_ok (img st) -> 0 <= n < NINODES -> Q (node (img st) n) st -> wp (rinode n) Q st.
Proof.
  intros Himg Hn HQ. destruct (iblock_eq n Hn) as [E Hr]. unfold rinode. rewrite E. destruct (img_block (img st) (iblock sb n) Himg) as (d & Hd & _); [consts; lia|].
  apply wp_bind. apply (wp_rsect _ d); [done|]. apply wp_ret. unfold dnode, dview in HQ. by rewrite Hd in HQ.
Qed.

(** Inode [n] has become [p]; nothing else of the image has changed. *)
Record inode_put (n : Z) (p : inode) (l l' : list (list Z)) : Prop := InodePut {
  ip_img : img_ok l';
  ip_self : node l' n = p;
  ip_other : forall m, 0 <= m < NINODES -> m <> n -> node l' m = node l m;
  ip_block : forall i, (i < 32 \/ 58 <= i)%nat -> l' !! i = l !! i
}.

Lemma wp_winode n p (Q : unit -> mk -> Prop) st : img_ok (img st) -> 0 <= n < NINODES -> shape n p -> inode_fits p ->
  (forall l, inode_put n p (img st) l -> Q tt (set_img l st)) -> wp (winode n p) Q st.
Proof.
  intros Himg Hn Hsh Hfit HQ. destruct (iblock_eq n Hn) as [E Hr]. unfold winode. rewrite E. destruct (img_block (img st) (iblock sb n) Himg) as (d & Hd & Hl); [consts; lia|].
  destruct (dinode_off_range n ltac:(lia)) as [Ho1 Ho2]. unfold BSIZE in Hl.
  apply wp_bind. apply (wp_rsect _ d); [done|]. apply wp_wsect; [done|consts; lia|rewrite length_put_dinode by (rewrite ?Hl; (apply Hfit || lia)); done|]. intros Hok. apply HQ.
  pose proof (proj1 Himg) as Hlen. consts. assert (Hself : <[Z.to_nat (iblock sb n) := put_dinode (dinode_off n) p d]> (img st) !! Z.to_nat (iblock sb n) = Some (put_dinode (dinode_off n) p d)).
  { apply list_lookup_insert_eq. lia. }
  split.
  - done.
  - unfold dnode, dview. rewrite Hself. cbn [from_option id]. rewrite dinode_round by (done || lia). destruct Hsh, p. cbn in *. by subst.
  - intros m Hm Hne. destruct (iblock_eq m Hm) as [_ Hrm]. unfold dnode, dview. destruct (decide (iblock sb m = iblock sb n)) as [Eb|Eb].
    + rewrite Eb, Hself, Hd. cbn [from_option id]. destruct (dinode_off_range m ltac:(lia)). apply dinode_other; rewrite ?Hl; try lia; [apply Hfit|].
      apply (same_iblock sb m n) in Eb; lia.
    + rewrite list_lookup_insert_ne by lia. done.
  - intros i Hi. apply list_lookup_insert_ne. lia.
Qed.

Lemma put_data n p l l' : inode_put n p l l' -> forall a, data l' a = data l a.
Proof.
  intros Hp a. unfold data. consts. destruct (Z.ltb_spec a 59); [done|]. apply (ip_block _ _ _ _ Hp). right. lia.
Qed.
Lemma meta_node l l' n : same_meta l l' -> 0 <= n < NINODES -> node l' n = node l n.
Proof. intros H Hn. destruct (iblock_eq n Hn) as [_ Hr]. unfold dnode, dview. rewrite H; [done|]. change (Z.to_nat nmeta) with 59%nat. lia. Qed.

(** ** Files whose blocks have not changed *)

Section agree.
Context (p q : inode) (D D' : disk).
Hypothesis Hlen : length (i_addrs p) = 13%nat.
Hypothesis Hq : i_addrs q = i_addrs p.
Hypothesis HD : forall a, a ∈ blocks_of p D -> D' a = D a.

Lemma mk_agree_slots : slots q D' = slots p D.
Proof using Hlen Hq HD.
  unfold slots, ind_words, ind. rewrite Hq. destruct (Z.eqb_spec (nth 12 (i_addrs p) 0) 0) as [|Hi]; [done|]. rewrite HD; [done|].
  apply elem_slots. split; [done|]. unfold slots. apply elem_of_app. left. destruct (lookup_lt_is_Some_2 (i_addrs p) 12) as [x Hx]; [lia|].
  rewrite (nth_lookup_Some _ _ _ _ Hx). by eapply list_elem_of_lookup_2.
Qed.
Lemma mk_agree_blocks : blocks_of q D' = blocks_of p D.
Proof using Hlen Hq HD. unfold blocks_of. by rewrite mk_agree_slots. Qed.
Lemma mk_agree_addr bn : addr_of q D' bn = addr_of p D bn.
Proof using Hlen Hq HD. unfold addr_of. by rewrite mk_agree_slots. Qed.
Lemma mk_agree_byte k : byte_at q D' k = byte_at p D k.
Proof using Hlen Hq HD.
  unfold byte_at, block_at. rewrite mk_agree_addr. destruct (Z.eqb_spec (addr_of p D (k / 512)) 0) as [|Ha]; [done|]. rewrite HD; [done|]. by apply addr_block.
Qed.
Lemma mk_agree_filled off : filled p D off -> filled q D' off.
Proof using Hlen Hq HD. intros [H1 H2]. split; [intros bn Hbn; by rewrite mk_agree_addr, H1|]. unfold ind in *. by rewrite Hq. Qed.
End agree.

Lemma mk_agree_own fb fb' p q l l' : own fb (data l) p -> fb <= fb' -> fb' <= FSSIZE -> i_addrs q = i_addrs p -> (forall a, a ∈ blocks_of p (data l) -> data l' a = data l a) -> own fb' (data l') q.
Proof.
  intros Ho Hle Hmax Hq HD. pose proof (own_file _ _ _ Ho) as Hf. pose proof (mk_agree_blocks p q _ _ (fo_len _ _ _ Hf) Hq HD) as E. split.
  - split; rewrite ?E, ?Hq; [apply Hf|apply Hf|]. intros a Ha. pose proof (fo_data _ _ _ Hf a Ha) as [Hr _]. split; [done|]. apply data_bit. change (data_start sb) with 59 in Hr. consts. lia.
  - intros a. rewrite E. intros Ha%(own_below _ _ _ Ho). lia.
Qed.

(** ** The image and its files *)

(** A file: its type and its bytes. *)
Abbreviation file := (Z * list Z)%type.

Record file_at (st : mk) (n : Z) (f : file) : Prop := FileAt {
  fa_type : i_type (node (img st) n) = f.1;
  fa_nlink : i_nlink (node (img st) n) = 1;
  fa_size : i_size (node (img st) n) = Z.of_nat (length f.2);
  fa_max : Z.of_nat (length f.2) <= MAXFILE * 512;
  fa_own : own (freeblock st) (data (img st)) (node (img st) n);
  fa_filled : filled (node (img st) n) (data (img st)) (Z.of_nat (length f.2));
  fa_bytes : forall k, 0 <= k < MAXFILE * 512 -> byte_at (node (img st) n) (data (img st)) k = nth (Z.to_nat k) f.2 0
}.

Definition blocks (st : mk) (n : Z) : list Z := blocks_of (node (img st) n) (data (img st)).
(** The first free block once the files have theirs. *)
Definition total (files : list file) : Z := nmeta + foldr (fun f a => need (Z.of_nat (length f.2)) + a) 0 files.

Record mk_ok (files : list file) (st : mk) : Prop := MkOk {
  mo_img : img_ok (img st);
  mo_ino : freeinode st = 1 + Z.of_nat (length files);
  mo_max : 1 + Z.of_nat (length files) <= NINODES;
  mo_total : freeblock st = total files;
  mo_room : freeblock st <= FSSIZE;
  mo_fresh : fresh (freeblock st) (data (img st));
  mo_file : forall i f, files !! i = Some f -> file_at st (1 + Z.of_nat i) f;
  mo_free : forall n, 0 <= n < NINODES -> ~ 1 <= n <= Z.of_nat (length files) -> i_type (node (img st) n) = 0;
  mo_disj : forall i j, (i < length files)%nat -> (j < length files)%nat -> i <> j -> blocks st (1 + Z.of_nat i) ## blocks st (1 + Z.of_nat j);
  mo_sb : img st !! 1%nat = Some (put_sb sb zeroes);
  mo_log : img st !! 2%nat = Some zeroes
}.

Lemma need_nonneg x : 0 <= x -> 0 <= need x.
Proof. intros H. pose proof (need_le 0 x H). done. Qed.
Lemma mk_total_insert files i f g : files !! i = Some f -> total (<[i := g]> files) = total files - need (Z.of_nat (length f.2)) + need (Z.of_nat (length g.2)).
Proof.
  unfold total. revert i. induction files as [|h files IH]; intros [|i] Hi; try done.
  - injection Hi as ->. change (<[0%nat := g]> (f :: files)) with (g :: files). cbn [foldr]. lia.
  - change (<[S i := g]> (h :: files)) with (h :: <[i := g]> files). cbn [foldr]. specialize (IH i Hi). lia.
Qed.
Lemma total_snoc files f : total (files ++ [f]) = total files + need (Z.of_nat (length f.2)).
Proof. unfold total. induction files as [|h files IH]; cbn [foldr app] in *; lia. Qed.
Lemma total_nmeta files : nmeta <= total files.
Proof.
  unfold total. enough (0 <= foldr (fun f a => need (Z.of_nat (length f.2)) + a) 0 files) by lia.
  induction files as [|h files IH]; cbn [foldr]; [lia|]. pose proof (need_nonneg (Z.of_nat (length h.2)) ltac:(lia)). lia.
Qed.

(** Inode [n] changes; a file that is elsewhere stays where it is. *)
Lemma file_at_other st st' n f : file_at st n f -> node (img st') n = node (img st) n -> freeblock st <= freeblock st' -> freeblock st' <= FSSIZE ->
  (forall a, a ∈ blocks st n -> data (img st') a = data (img st) a) -> file_at st' n f /\ blocks st' n = blocks st n.
Proof.
  intros [F1 F2 F3 F4 F5 F6 F7] En Hle Hmax HD. pose proof (fo_len _ _ _ (own_file _ _ _ F5)) as Hlen. split.
  - split; rewrite ?En; try done.
    + by eapply mk_agree_own.
    + by apply (mk_agree_filled (node (img st) n) (node (img st) n) (data (img st))).
    + intros k Hk. rewrite (mk_agree_byte (node (img st) n) _ (data (img st))) by done. by apply F7.
  - unfold blocks. rewrite En. by apply mk_agree_blocks.
Qed.

(** ** ialloc, iappend *)

Lemma lookup_snoc_case {A} (l : list A) x i y : (l ++ [x]) !! i = Some y -> l !! i = Some y \/ i = length l /\ y = x.
Proof.
  intros H. destruct (decide (i < length l)%nat) as [Hi|Hi]; [left; by rewrite lookup_app_l in H|right].
  rewrite lookup_app_r in H by lia. destruct (i - length l)%nat as [|k] eqn:E; [|done]. injection H as ->. split; [lia|done].
Qed.

(** An inode without blocks. *)
Lemma empty_file D fb p : i_addrs p = replicate 13 0 -> own fb D p /\ blocks_of p D = [] /\ filled p D 0 /\ (forall k, byte_at p D k = 0).
Proof.
  intros Ha. assert (Hi : ind p = 0) by (unfold ind; by rewrite Ha). assert (Hs : slots p D = replicate 13 0) by (unfold slots, ind_words; by rewrite Hi, Ha).
  assert (Hb : blocks_of p D = []) by (unfold blocks_of; rewrite Hs; apply filter_nothing; intros x [-> _]%elem_of_replicate; tauto).
  assert (Haddr : forall bn, addr_of p D bn = 0) by (intros bn; unfold addr_of; rewrite Hs; apply nth_replicate_0). split_and!.
  - split; [|rewrite Hb; by intros a ?%not_elem_of_nil]. split; [by rewrite Ha|rewrite Hb; constructor|rewrite Hb; by intros a ?%not_elem_of_nil].
  - done.
  - split; [intros bn Hbn; rewrite Haddr; split; [done|lia]|rewrite Hi; split; [done|lia]].
  - intros k. unfold byte_at, block_at. rewrite Haddr. cbn. unfold zero_block. apply nth_replicate_0.
Qed.

Lemma ialloc_spec files st ty : mk_ok files st -> 2 + Z.of_nat (length files) <= NINODES -> - 2 ^ 15 <= ty < 2 ^ 15 ->
  wp (Mkfs.ialloc ty) (fun n st' => n = 1 + Z.of_nat (length files) /\ mk_ok (files ++ [(ty, [])]) st') st.
Proof.
  intros [M1 M2 M3 M4 M5 M6 M7 M8 M9 M10 M11] Hn Hty. unfold Mkfs.ialloc. wp_steps. cbn [id]. rewrite M2. unfold NINODES in Hn. rewrite u32_small by lia.
  set (n := 1 + Z.of_nat (length files)) in *. set (p := set_size 0 _). assert (Ha : i_addrs p = replicate 13 0) by done.
  assert (Hfit : inode_fits p) by (split; cbn; try lia; repeat (constructor; [lia|]); constructor).
  apply (wp_winode n p); [done|unfold NINODES; lia|by split|done|]. intros l Hp. apply wp_ret. split; [done|].
  pose proof (put_data _ _ _ _ Hp) as HD. change (img (set_freeinode (n + 1) st)) with (img st) in *.
  set (st' := set_img l _). assert (Hold : forall i f, files !! i = Some f -> file_at st' (1 + Z.of_nat i) f /\ blocks st' (1 + Z.of_nat i) = blocks st (1 + Z.of_nat i)).
  { intros i f Hi. pose proof (lookup_lt_Some _ _ _ Hi). apply (file_at_other st st'); [by apply M7| |done|done|by intros a _].
    apply (ip_other _ _ _ _ Hp); unfold NINODES; lia. }
  destruct (empty_file (data l) (freeblock st) p Ha) as (E1 & E2 & E3 & E4). pose proof (ip_self _ _ _ _ Hp) as Eself.
  assert (Hblocks : forall i, (i < length files)%nat -> blocks st' (1 + Z.of_nat i) = blocks st (1 + Z.of_nat i)).
  { intros i Hi. destruct (lookup_lt_is_Some_2 files i Hi) as [f Hf]. by eapply Hold. }
  assert (Hnew : blocks st' n = []) by (unfold blocks; cbn [img st' set_img]; by rewrite Eself).
  split; cbn [img freeinode freeblock st' set_img set_freeinode]; rewrite ?length_app; cbn [length]; try done.
  - apply Hp.
  - lia.
  - unfold NINODES. lia.
  - rewrite total_snoc, M4. change (need (Z.of_nat (length (ty, @nil Z).2))) with 0. lia.
  - intros a Ha'. rewrite HD. by apply M6.
  - intros i f [Hi|[-> ->]]%lookup_snoc_case; [by apply Hold|]. split; cbn [img freeblock st' set_img set_freeinode fst snd]; fold n; rewrite ?Eself; try done.
    intros k _. rewrite E4. by destruct (Z.to_nat k).
  - intros m Hm Hnot. rewrite (ip_other _ _ _ _ Hp) by lia. apply M8; lia.
  - intros i j Hi Hj Hne. destruct (decide (i = length files)) as [->|Hi'], (decide (j = length files)) as [->|Hj']; try lia; fold n; rewrite ?Hnew, ?Hblocks by lia.
    + set_solver.
    + set_solver.
    + apply M9; lia.
  - rewrite (ip_block _ _ _ _ Hp) by lia. done.
  - rewrite (ip_block _ _ _ _ Hp) by lia. done.
Qed.

Lemma iappend_spec files st i ty bs0 bs : mk_ok files st -> files !! i = Some (ty, bs0) -> Z.of_nat (length (bs0 ++ bs)) <= MAXFILE * 512 ->
  total (<[i := (ty, bs0 ++ bs)]> files) <= FSSIZE -> wp (iappend (1 + Z.of_nat i) bs) (fun _ st' => mk_ok (<[i := (ty, bs0 ++ bs)]> files) st') st.
Proof.
  intros Hmk Hi Hmax Htot. pose proof Hmk as [M1 M2 M3 M4 M5 M6 M7 M8 M9 M10 M11]. pose proof (lookup_lt_Some _ _ _ Hi) as Hlt. set (n := 1 + Z.of_nat i).
  assert (Hn : 0 <= n < NINODES) by lia. pose proof (M7 i _ Hi) as [F1 F2 F3 F4 F5 F6 F7]. fold n in F1, F2, F3, F5, F6, F7. cbn [fst snd] in *.
  rewrite (mk_total_insert _ _ _ _ Hi), <-M4 in Htot. cbn [snd] in Htot. rewrite length_app, Nat2Z.inj_add in Hmax, Htot.
  unfold iappend. apply wp_bind, wp_rinode; [done|done|]. rewrite F3. apply wp_bind.
  eapply wp_mono; [apply (iappend_loop_spec (S (length bs)) (node (img st) n) st); try done; [lia|rewrite M4; apply total_nmeta|lia|lia]|].
  intros [p1 off] st1 [Eoff A]. cbn [fst snd] in *. subst off. destruct A as [A1 A2 A3 A4 A5 A6 A7 A8 A9 A10 A11].
  set (sz := Z.of_nat (length bs0) + Z.of_nat (length bs)) in *. set (q := set_size sz p1).
  pose proof (need_le (Z.of_nat (length bs0)) sz ltac:(lia)) as Hneed. assert (Hroom : freeblock st1 <= FSSIZE) by lia.
  assert (Hq : i_type q = i_type (node (img st) n) /\ i_major q = i_major (node (img st) n) /\ i_minor q = i_minor (node (img st) n) /\ i_nlink q = i_nlink (node (img st) n) /\ shape n q).
  { unfold q. rewrite A1. by split_and!. }
  destruct Hq as (Q1 & Q2 & Q3 & Q4 & Qs).
  pose proof (fo_len _ _ _ (own_file _ _ _ A2)) as Hlen.
  assert (Hown : own (freeblock st1) (data (img st1)) q) by (by apply (mk_agree_own (freeblock st1) _ p1 q (img st1) (img st1))).
  assert (Hfit : inode_fits q).
  { eapply own_fits; [exact Hown|done|cbn; unfold MAXFILE, NDIRECT, NINDIRECT in Hmax; lia|]. exists (node (img st) n). split; [done|]. by rewrite Q1, Q2, Q3, Q4. }
  apply (wp_winode n q); [done|done|done|done|]. intros l Hp. pose proof (put_data _ _ _ _ Hp) as HD. set (st2 := set_img l st1).
  assert (Hqb : blocks st2 n = blocks_of p1 (data (img st1))).
  { unfold blocks. cbn [img st2 set_img]. rewrite (ip_self _ _ _ _ Hp). apply mk_agree_blocks; [done|done|]. intros a _. apply HD. }
  assert (Hold : forall j f, files !! j = Some f -> j <> i -> file_at st2 (1 + Z.of_nat j) f /\ blocks st2 (1 + Z.of_nat j) = blocks st (1 + Z.of_nat j)).
  { intros j f Hj Hne. pose proof (lookup_lt_Some _ _ _ Hj). pose proof (M7 j f Hj) as Fj. apply (file_at_other st st2); [done| |cbn; lia|done|].
    - cbn [img st2 set_img]. rewrite (ip_other _ _ _ _ Hp) by lia. apply meta_node; [done|lia].
    - intros a Ha. cbn [img st2 set_img]. rewrite HD. apply A4.
      + intros Hb. apply (M9 i j Hlt ltac:(done) ltac:(done) a); done.
      + left. by apply (own_below _ _ _ (fa_own _ _ _ Fj)). }
  split; cbn [img freeinode freeblock st2 set_img]; rewrite ?length_insert; try done.
  - apply Hp.
  - by rewrite A9.
  - rewrite A11, (mk_total_insert _ _ _ _ Hi), M4. cbn [snd]. rewrite length_app, Nat2Z.inj_add. fold sz. lia.
  - intros a Ha. rewrite HD. by apply A6.
  - intros j f Hj. destruct (decide (j = i)) as [->|Hne].
    + rewrite list_lookup_insert_eq in Hj by done. injection Hj as <-. fold n. split; cbn [img freeblock st2 set_img fst snd]; rewrite ?(ip_self _ _ _ _ Hp), ?length_app, ?Nat2Z.inj_add; fold sz; try done.
      * by rewrite Q1.
      * by rewrite Q4.
      * by apply (mk_agree_own (freeblock st1) _ p1 q (img st1) l).
      * apply (mk_agree_filled p1 q (data (img st1))); try done.
      * intros k Hk. rewrite (mk_agree_byte p1 q (data (img st1))) by done. rewrite A3 by done. case_decide as Hd.
        { rewrite app_nth2 by lia. f_equal. lia. }
        rewrite F7 by done. destruct (Z.lt_ge_cases k (Z.of_nat (length bs0))); [by rewrite app_nth1 by lia|]. rewrite !nth_overflow; [done|rewrite length_app; lia|lia].
    + rewrite list_lookup_insert_ne in Hj by done. by apply Hold.
  - intros m Hm Hnot. rewrite (ip_other _ _ _ _ Hp) by lia. rewrite (meta_node (img st)) by done. apply M8; done.
  - assert (Hsep : forall j, (j < length files)%nat -> j <> i -> blocks_of p1 (data (img st1)) ## blocks st (1 + Z.of_nat j)).
    { intros j Hj Hne a Ha Hb. destruct (lookup_lt_is_Some_2 files j Hj) as [f Hf]. apply A5 in Ha as [Ha|Ha].
      - by apply (M9 i j Hlt Hj ltac:(done) a).
      - pose proof (own_below _ _ _ (fa_own _ _ _ (M7 j f Hf)) a Hb). lia. }
    assert (Hblocks : forall j, (j < length files)%nat -> j <> i -> blocks st2 (1 + Z.of_nat j) = blocks st (1 + Z.of_nat j)).
    { intros j Hj Hne. destruct (lookup_lt_is_Some_2 files j Hj) as [f Hf]. by eapply Hold. }
    intros j k Hj Hk Hne. destruct (decide (j = i)) as [->|Hji], (decide (k = i)) as [->|Hki]; try done; fold n; rewrite ?Hqb, ?Hblocks by done.
    + by apply Hsep.
    + intros a Ha Hb. by apply (Hsep j Hj Hji a).
    + by apply M9.
  - rewrite (ip_block _ _ _ _ Hp) by lia. rewrite A10; [done|]. change (Z.to_nat nmeta) with 59%nat. lia.
  - rewrite (ip_block _ _ _ _ Hp) by lia. rewrite A10; [done|]. change (Z.to_nat nmeta) with 59%nat. lia.
Qed.

(** ** Files and the root directory *)

Lemma total_cons f files : total (f :: files) = need (Z.of_nat (length f.2)) + total files.
Proof. unfold total. cbn [foldr]. lia. Qed.
Lemma total_app files files' : total (files ++ files') = total files + total files' - nmeta.
Proof. unfold total. induction files as [|h files IH]; cbn [foldr app]; lia. Qed.

Lemma copy_file_spec fuel : forall files st i ty bs0 bs, mk_ok files st -> files !! i = Some (ty, bs0) -> Z.of_nat (length (bs0 ++ bs)) <= MAXFILE * 512 ->
  total (<[i := (ty, bs0 ++ bs)]> files) <= FSSIZE -> (length bs < fuel)%nat -> wp (copy_file fuel (1 + Z.of_nat i) bs) (fun _ st' => mk_ok (<[i := (ty, bs0 ++ bs)]> files) st') st.
Proof.
  induction fuel as [|f IH]; intros files st i ty bs0 bs Hmk Hi Hmax Htot Hf; [lia|]. cbn [copy_file]. destruct (Nat.eqb_spec (length bs) 0) as [Hz|Hz].
  - apply wp_ret. destruct bs; [|done]. rewrite app_nil_r. by rewrite list_insert_id.
  - rewrite (mk_total_insert _ _ _ _ Hi) in Htot. cbn [snd] in Htot. rewrite length_app in Hmax, Htot. pose proof (length_take bs BSIZE). pose proof (length_drop bs BSIZE).
    assert (0 < BSIZE)%nat by (unfold BSIZE; lia). pose proof (lookup_lt_Some _ _ _ Hi) as Hlt.
    assert (Htd : take BSIZE bs ++ drop BSIZE bs = bs) by apply take_drop.
    apply wp_bind. eapply wp_mono; [apply (iappend_spec files st i ty bs0 (take BSIZE bs)); [done|done|rewrite length_app; lia|]|].
    + rewrite (mk_total_insert _ _ _ _ Hi). cbn [snd]. rewrite length_app. etransitivity; [|exact Htot].
      pose proof (need_le (Z.of_nat (length bs0 + length (take BSIZE bs))) (Z.of_nat (length bs0 + length bs)) ltac:(lia)). lia.
    + intros [] st1 Hm1. eapply wp_mono; [apply (IH (<[i:=(ty, bs0 ++ take BSIZE bs)]> files) st1 i ty (bs0 ++ take BSIZE bs) (drop BSIZE bs)); [done|by apply list_lookup_insert_eq| | |lia]|].
      * rewrite <-app_assoc, Htd, length_app. lia.
      * rewrite <-app_assoc, Htd, list_insert_insert_eq, (mk_total_insert _ _ _ _ Hi). cbn [snd]. rewrite length_app. lia.
      * intros [] st2. by rewrite <-app_assoc, Htd, list_insert_insert_eq.
Qed.

Lemma length_entry n nm : length (entry n nm) = 16%nat.
Proof.
  assert (length (put16 0 n (replicate (Z.to_nat DIRENT) 0)) = 16%nat) as E by (rewrite length_put16; rewrite ?length_replicate; unfold DIRENT; lia).
  unfold entry. rewrite length_splice; [done|]. rewrite E, length_take, length_app, length_replicate. unfold DIRSIZ. lia.
Qed.

(** The entries of the files, whose inodes are numbered from [n] on. *)
Fixpoint entries (n : Z) (args : list (list Z * list Z)) : list (list Z) :=
  match args with
  | [] => []
  | (name, _) :: args' => entry n (skip_underscore name) :: entries (n + 1) args'
  end.
Definition files_of (args : list (list Z * list Z)) : list file := map (fun a => (T_FILE, a.2)) args.
Definition given (args : list (list Z * list Z)) : list (list Z * option (list Z)) := map (fun a => (a.1, Some a.2)) args.

Lemma length_entries n args : length (concat (entries n args)) = (16 * length args)%nat.
Proof. revert n. induction args as [|[name bs] args IH]; intros n; [done|]. cbn [entries concat length]. rewrite length_app, length_entry, IH. lia. Qed.

(** One file: its inode, its entry and its bytes. *)
Lemma add_file_spec dir rest st name bs : mk_ok ((T_DIR, dir) :: rest) st -> SLASH ∉ name -> 3 + Z.of_nat (length rest) <= NINODES ->
  Z.of_nat (length bs) <= MAXFILE * 512 -> Z.of_nat (length dir + 16) <= MAXFILE * 512 -> let n := 2 + Z.of_nat (length rest) in
  total ((T_DIR, dir ++ entry n (skip_underscore name)) :: rest ++ [(T_FILE, bs)]) <= FSSIZE ->
  wp (add_file ROOTINO (name, Some bs)) (fun _ st' => mk_ok ((T_DIR, dir ++ entry n (skip_underscore name)) :: rest ++ [(T_FILE, bs)]) st') st.
Proof.
  intros Hmk Hsl Hn Hbs Hdir n Htot. unfold add_file. apply wp_bind; apply wp_panic_if.
  { apply not_true_iff_false. intros (x & Hx & E%Z.eqb_eq)%existsb_exists. subst x. apply Hsl. by apply list_elem_of_In. }
  rewrite total_cons, total_app in Htot. cbn [snd] in Htot. rewrite length_app, length_entry in Htot. rewrite total_cons in Htot. cbn [snd] in Htot. change (total []) with nmeta in Htot.
  pose proof (need_le (Z.of_nat (length dir)) (Z.of_nat (length dir + 16)) ltac:(lia)). pose proof (need_nonneg (Z.of_nat (length bs)) ltac:(lia)).
  apply wp_bind. eapply wp_mono; [apply (ialloc_spec _ _ T_FILE Hmk); [cbn [length]; lia|unfold T_FILE; lia]|]. intros inum st1 [-> H1]. cbn [length] in *.
  replace (1 + Z.of_nat (S (length rest))) with n by lia. cbn [app] in H1.
  apply wp_bind. change ROOTINO with (1 + Z.of_nat 0). eapply wp_mono; [apply (iappend_spec _ st1 0 T_DIR dir (entry n (skip_underscore name)) H1); [done|rewrite length_app, length_entry; lia|]|].
  { cbn [insert list_insert]. rewrite total_cons, total_app, total_cons. cbn [snd]. rewrite length_app, length_entry. change (total []) with nmeta. change (need (Z.of_nat (length []))) with 0. lia. }
  intros [] st2 H2. cbn [insert list_insert] in H2.
  replace (copy_file (S (length bs)) n bs) with (copy_file (S (length bs)) (1 + Z.of_nat (S (length rest))) bs) by (f_equal; lia).
  assert (Hins : forall x, <[S (length rest) := x]> ((T_DIR, dir ++ entry n (skip_underscore name)) :: rest ++ [(T_FILE, [])]) = (T_DIR, dir ++ entry n (skip_underscore name)) :: rest ++ [x]).
  { intros x. cbn [insert list_insert]. f_equal. change (<[length rest := x]> (rest ++ [(T_FILE, [])]) = rest ++ [x]). by rewrite insert_app_r_alt, Nat.sub_diag by lia. }
  eapply wp_mono; [apply (copy_file_spec (S (length bs)) _ st2 (S (length rest)) T_FILE [] bs H2); [|cbn; lia| |lia]|].
  - cbn [lookup list_lookup]. change ((rest ++ [(T_FILE, [])]) !! length rest = Some (T_FILE, @nil Z)). by rewrite lookup_app_r, Nat.sub_diag by lia.
  - rewrite Hins, total_cons, total_app, total_cons. cbn [snd app]. rewrite length_app, length_entry. change (total []) with nmeta. lia.
  - intros [] st3. by rewrite Hins.
Qed.

Lemma add_files_spec args : forall dir rest st, mk_ok ((T_DIR, dir) :: rest) st -> Forall (fun a => SLASH ∉ a.1 /\ Z.of_nat (length a.2) <= MAXFILE * 512) args ->
  2 + Z.of_nat (length rest + length args) <= NINODES -> Z.of_nat (length dir + 16 * length args) <= MAXFILE * 512 -> let n := 2 + Z.of_nat (length rest) in
  total ((T_DIR, dir ++ concat (entries n args)) :: rest ++ files_of args) <= FSSIZE ->
  wp (add_files ROOTINO (given args)) (fun _ st' => mk_ok ((T_DIR, dir ++ concat (entries n args)) :: rest ++ files_of args) st') st.
Proof.
  induction args as [|[name bs] args IH]; intros dir rest st Hmk Hargs Hn Hdir n Htot; cbn [given map add_files].
  - apply wp_ret. cbn. by rewrite !app_nil_r.
  - apply Forall_cons in Hargs as [[Hsl Hbs] Hargs]. cbn [fst snd length] in *. cbn [entries concat files_of map fst snd] in *.
    assert (Ea : forall d, rest ++ (T_FILE, bs) :: d = (rest ++ [(T_FILE, bs)]) ++ d) by (intros; by rewrite <-app_assoc).
    rewrite Ea, (app_assoc dir) in Htot |- *. apply wp_bind. eapply wp_mono; [apply (add_file_spec dir rest st name bs Hmk Hsl); [lia|done|lia|]|].
    + rewrite total_cons, total_app in Htot |- *. cbn [snd] in *. rewrite !length_app in *.
      pose proof (need_le (Z.of_nat (length dir + length (entry n (skip_underscore name)))) (Z.of_nat (length dir + length (entry n (skip_underscore name)) + length (concat (entries (n + 1) args)))) ltac:(lia)).
      pose proof (total_nmeta (map (fun a : list Z * list Z => (T_FILE, a.2)) args)). rewrite total_app in Htot. fold n. lia.
    + intros [] st1 H1. fold n in H1. assert (En : n + 1 = 2 + Z.of_nat (length (rest ++ [(T_FILE, bs)]))) by (rewrite length_app; cbn [length]; lia). rewrite En in Htot |- *.
      apply (IH (dir ++ entry n (skip_underscore name)) (rest ++ [(T_FILE, bs)]) st1); try done; rewrite !length_app, ?length_entry; cbn [length]; lia.
Qed.
