(* ===== verification/MkfsImage.v ===== *)
(** * The finished image is a file system

    The rest of [main] of mkfs.c, and its contract with the kernel: the image satisfies what
    the theorems about fs.c assume of a disk, and every file is found under its name. *)

From S2P Require Import Prelude Bytes Bio Log Recovery CStr Fs FsBlocks FsFile FsRw FsInode FsWrite FsDir FsCache FsPath Mkfs MkfsFile MkfsProofs.

(** ** The empty image *)

Definition blank_img : list (list Z) := replicate (Z.to_nat FSSIZE) zeroes.

Lemma zeroing st : img st = [] -> wp (for_loop (Z.to_nat FSSIZE) 0 (fun i => wsect i zeroes)) (fun _ st' => st' = set_img blank_img st) st.
Proof.
  intros E. eapply wp_mono; [apply (wp_for_loop (fun i s => s = set_img (replicate (Z.to_nat i) zeroes) st))|].
  - cbn. by destruct st; cbn in *; subst.
  - intros j s Hj ->. unfold wsect. wp_steps. unfold set_img. cbn [img freeinode freeblock]. f_equal. unfold put_sect.
    rewrite length_replicate, Nat.ltb_irrefl, Nat.sub_diag. cbn [replicate app]. replace (Z.to_nat (j + 1)) with (Z.to_nat j + 1)%nat by lia. by rewrite replicate_add.
  - intros [] s ->. by rewrite Z.add_0_l.
Qed.

Definition first_img : list (list Z) := <[1%nat := put_sb sb zeroes]> blank_img.

Lemma length_put_sb : length (put_sb sb zeroes) = BSIZE.
Proof. unfold put_sb. rewrite length_put_words; [done|lia|done]. Qed.
Lemma first_ok : img_ok first_img.
Proof.
  split; [done|]. apply Forall_insert; [|apply length_put_sb]. by apply Forall_replicate.
Qed.
Lemma first_lookup n : (n < Z.to_nat FSSIZE)%nat -> n <> 1%nat -> first_img !! n = Some zeroes.
Proof. intros Hn Hne. unfold first_img. rewrite list_lookup_insert_ne by done. by apply lookup_replicate_2. Qed.

Lemma zero_word x n : (n <= 8)%nat -> 0 <= x <= 500 -> le_value (slice (Z.to_nat x) n zeroes) = 0.
Proof.
  intros Hn Hx. unfold slice, zeroes. rewrite drop_replicate, take_replicate. generalize (n `min` (BSIZE - Z.to_nat x))%nat. intros k. induction k as [|k IH]; [done|]. cbn [replicate le_value]. lia.
Qed.

Lemma first_mk_ok : mk_ok [] (Mk first_img 1 nmeta).
Proof.
  split; cbn [img freeinode freeblock length]; try done.
  - apply first_ok.
  - intros n Hn. rewrite data_lookup by lia. consts. by apply first_lookup; [consts|]; lia.
  - intros n Hn _. destruct (iblock_eq n Hn) as [_ Hr]. destruct (dinode_off_range n ltac:(lia)). unfold dnode, dview.
    rewrite first_lookup by (consts; lia). cbn [from_option id]. unfold load_dinode, di_type, get16. cbn [i_type]. by rewrite zero_word by lia.
  - intros i j Hi. lia.
Qed.

(** ** The size of the root directory *)

(** The bytes up to the end of the last block. *)
Definition pad (dir : list Z) : list Z := dir ++ replicate (512 - length dir mod 512) 0.

Lemma length_pad dir : Z.of_nat (length (pad dir)) = (Z.of_nat (length dir) / 512 + 1) * 512.
Proof.
  unfold pad. rewrite length_app, length_replicate. pose proof (Nat.mod_upper_bound (length dir) 512 ltac:(lia)).
  pose proof (Z.div_mod (Z.of_nat (length dir)) 512 ltac:(lia)). assert (Z.of_nat (length dir mod 512) = Z.of_nat (length dir) mod 512) by (by rewrite Nat2Z.inj_mod). lia.
Qed.

Lemma nb_pad dir : (length dir mod 512 <> 0)%nat -> nb (Z.of_nat (length (pad dir))) = nb (Z.of_nat (length dir)).
Proof.
  intros Hm. rewrite length_pad. assert (Z.of_nat (length dir mod 512) = Z.of_nat (length dir) mod 512) as E by (by rewrite Nat2Z.inj_mod).
  pose proof (Z.div_mod (Z.of_nat (length dir)) 512 ltac:(lia)). pose proof (Z.mod_pos_bound (Z.of_nat (length dir)) 512 ltac:(lia)).
  rewrite (nb_in (Z.of_nat (length dir)) (Z.of_nat (length dir))), (nb_in (Z.of_nat (length dir)) ((Z.of_nat (length dir) / 512 + 1) * 512)) by lia. done.
Qed.

Lemma nth_pad dir k : nth k (pad dir) 0 = nth k dir 0.
Proof.
  unfold pad. destruct (decide (k < length dir)%nat); [by rewrite app_nth1|]. rewrite app_nth2, nth_replicate_0 by lia. symmetry. apply nth_overflow. lia.
Qed.

(** Another size for the root, when no block is between the two. *)
Lemma fix_root_spec dir rest st : mk_ok ((T_DIR, dir) :: rest) st -> (length dir mod 512 <> 0)%nat ->
  wp (fix_root ROOTINO) (fun _ st' => mk_ok ((T_DIR, pad dir) :: rest) st') st.
Proof.
  intros Hmk Hm. pose proof Hmk as [M1 M2 M3 M4 M5 M6 M7 M8 M9 M10 M11]. pose proof (M7 0%nat _ eq_refl) as [F1 F2 F3 F4 F5 F6 F7]. change (1 + Z.of_nat 0) with ROOTINO in *. cbn [fst snd length] in *.
  assert (Hn : 0 <= ROOTINO < NINODES) by done. unfold fix_root. apply wp_bind, wp_rinode; [done|done|]. rewrite F3. change (Z.of_nat BSIZE) with 512. rewrite <-length_pad.
  assert (Hmax : Z.of_nat (length (pad dir)) <= MAXFILE * 512).
  { rewrite length_pad. assert (Z.of_nat (length dir mod 512) = Z.of_nat (length dir) mod 512) as E by (by rewrite Nat2Z.inj_mod). unfold MAXFILE, NDIRECT, NINDIRECT in *.
    pose proof (Z.div_mod (Z.of_nat (length dir)) 512 ltac:(lia)). pose proof (Z.mod_pos_bound (Z.of_nat (length dir)) 512 ltac:(lia)). lia. }
  unfold MAXFILE, NDIRECT, NINDIRECT in Hmax. rewrite u32_small by lia. set (p := node (img st) ROOTINO) in *. set (q := set_size _ p). pose proof (fo_len _ _ _ (own_file _ _ _ F5)) as Hlen.
  assert (Hown : own (freeblock st) (data (img st)) q) by (by apply (mk_agree_own (freeblock st) _ p q (img st) (img st))).
  assert (Hfit : inode_fits q) by (eapply own_fits; [exact Hown|done|cbn; lia|by exists p]).
  apply (wp_winode ROOTINO q); [done|done|by split|done|]. intros l Hp. pose proof (put_data _ _ _ _ Hp) as HD. set (st' := set_img l st).
  assert (Hqb : blocks st' ROOTINO = blocks st ROOTINO) by (unfold blocks; cbn [img st' set_img]; rewrite (ip_self _ _ _ _ Hp); by apply mk_agree_blocks; [| |intros a _; apply HD]).
  assert (Hold : forall i f, rest !! i = Some f -> file_at st' (1 + Z.of_nat (S i)) f /\ blocks st' (1 + Z.of_nat (S i)) = blocks st (1 + Z.of_nat (S i))).
  { intros i f Hi. pose proof (lookup_lt_Some _ _ _ Hi). apply (file_at_other st st'); [by apply M7| |done|done|by intros a _]. apply (ip_other _ _ _ _ Hp); unfold ROOTINO; lia. }
  assert (Hblocks : forall i, (i < S (length rest))%nat -> blocks st' (1 + Z.of_nat i) = blocks st (1 + Z.of_nat i)).
  { intros [|i] Hi; [exact Hqb|]. destruct (lookup_lt_is_Some_2 rest i ltac:(lia)) as [f Hf]. by eapply Hold. }
  assert (Hneed : need (Z.of_nat (length (pad dir))) = need (Z.of_nat (length dir))) by (unfold need; by rewrite nb_pad).
  split; cbn [img freeinode freeblock st' set_img length]; try done.
  - apply Hp.
  - rewrite M4, !total_cons. cbn [snd]. by rewrite Hneed.
  - intros a Ha. rewrite HD. by apply M6.
  - intros [|i] f Hi; [|by apply Hold]. injection Hi as <-. change (1 + Z.of_nat 0) with ROOTINO. split; cbn [img freeblock st' set_img fst snd]; rewrite ?(ip_self _ _ _ _ Hp); try done.
    + by apply (mk_agree_own (freeblock st) _ p q (img st) l).
    + apply (mk_agree_filled p q (data (img st))); try done. by apply (filled_same _ _ (Z.of_nat (length dir))); [rewrite nb_pad|].
    + intros k Hk. rewrite (mk_agree_byte p q (data (img st))) by done. by rewrite F7, nth_pad.
  - intros m Hm' Hnot. rewrite (ip_other _ _ _ _ Hp); [by apply M8|done|unfold ROOTINO; lia].
  - intros i j Hi Hj Hne. rewrite !Hblocks by done. by apply M9.
  - rewrite (ip_block _ _ _ _ Hp) by lia. done.
  - rewrite (ip_block _ _ _ _ Hp) by lia. done.
Qed.

(** When the entries fill their blocks, the root's size covers a block it does not have. *)
Lemma fix_root_hole dir rest st : mk_ok ((T_DIR, dir) :: rest) st -> (length dir mod 512 = 0)%nat -> Z.of_nat (length dir) < MAXFILE * 512 ->
  wp (fix_root ROOTINO) (fun _ st' => i_size (node (img st') ROOTINO) = Z.of_nat (length dir) + 512 /\ ~ sized (node (img st') ROOTINO) (data (img st'))) st.
Proof.
  intros Hmk Hm Hmax. pose proof Hmk as [M1 M2 M3 M4 M5 M6 M7 M8 M9 M10 M11]. pose proof (M7 0%nat _ eq_refl) as [F1 F2 F3 F4 F5 F6 F7]. change (1 + Z.of_nat 0) with ROOTINO in *. cbn [fst snd length] in *.
  assert (Hn : 0 <= ROOTINO < NINODES) by done. assert (Z.of_nat (length dir mod 512) = Z.of_nat (length dir) mod 512) as E by (by rewrite Nat2Z.inj_mod).
  pose proof (Z.div_mod (Z.of_nat (length dir)) 512 ltac:(lia)). unfold fix_root. apply wp_bind, wp_rinode; [done|done|]. rewrite F3. change (Z.of_nat BSIZE) with 512.
  unfold MAXFILE, NDIRECT, NINDIRECT in Hmax. replace ((Z.of_nat (length dir) / 512 + 1) * 512) with (Z.of_nat (length dir) + 512) by lia. rewrite u32_small by lia.
  set (p := node (img st) ROOTINO) in *. set (q := set_size _ p). pose proof (fo_len _ _ _ (own_file _ _ _ F5)) as Hlen.
  assert (Hown : own (freeblock st) (data (img st)) q) by (by apply (mk_agree_own (freeblock st) _ p q (img st) (img st))).
  assert (Hfit : inode_fits q) by (eapply own_fits; [exact Hown|done|cbn; lia|by exists p]).
  apply (wp_winode ROOTINO q); [done|done|by split|done|]. intros l Hp. pose proof (put_data _ _ _ _ Hp) as HD. cbn [img set_img]. rewrite (ip_self _ _ _ _ Hp). split; [done|].
  intros [_ Hs]. specialize (Hs (Z.of_nat (length dir)) ltac:(cbn; lia)). rewrite (mk_agree_addr p q (data (img st))) in Hs by done.
  apply F6 in Hs; [lia|]. split; [apply Z.div_pos; lia|apply Z.div_lt_upper_bound; unfold MAXFILE, NDIRECT, NINDIRECT; lia].
Qed.

(** ** The bitmap *)

Lemma marks_spec ns : forall d x, Forall (fun i => 0 <= i < BPB) ns -> 0 <= x -> length d = BSIZE ->
  length (fold_left (fun buf i => mark i buf) ns d) = BSIZE /\ bit_set (fold_left (fun buf i => mark i buf) ns d) x = bool_decide (x ∈ ns) || bit_set d x.
Proof.
  induction ns as [|i ns IH]; intros d x Hi Hx Hl; cbn [fold_left]; [done|]. apply Forall_cons in Hi as [Hi Hns].
  assert (length (mark i d) = BSIZE) as Hl' by (unfold mark; by rewrite length_insert). destruct (IH (mark i d) x Hns Hx Hl') as [H1 H2]. split; [done|].
  rewrite H2, bit_mark by done. destruct (Z.eqb_spec x i) as [->|Hne]; cbn [orb].
  - rewrite orb_true_r. rewrite (bool_decide_eq_true_2 (i ∈ i :: ns)) by left. done.
  - f_equal. apply bool_decide_ext. rewrite elem_of_cons. naive_solver.
Qed.

Lemma bitmap_spec used x : 0 <= used < BPB -> 0 <= x -> length (fold_left (fun buf i => mark i buf) (seqZ 0 used) zeroes) = BSIZE /\
  bit_set (fold_left (fun buf i => mark i buf) (seqZ 0 used) zeroes) x = (x <? used).
Proof.
  intros Hu Hx. destruct (marks_spec (seqZ 0 used) zeroes x) as [H1 H2]; [|done|done|].
  - apply Forall_forall. intros i Hi%elem_of_seqZ. lia.
  - split; [done|]. rewrite H2. assert (bit_set zeroes x = false) as ->.
    { rewrite bit_set_test. unfold zeroes. by rewrite nth_replicate_0, Z.bits_0. }
    rewrite orb_false_r. destruct (Z.ltb_spec x used); [apply bool_decide_eq_true_2|apply bool_decide_eq_false_2]; rewrite elem_of_seqZ; lia.
Qed.

(** ** The contents of the root *)

Lemma dents_concat (es : list (list Z)) : Forall (fun e => length e = 16%nat) es -> dents (concat es) = es.
Proof.
  intros H. assert (Hl : length (concat es) = (16 * length es)%nat).
  { induction H as [|e es He _ IH]; [done|]. cbn [concat length]. rewrite length_app, He, IH. lia. }
  apply list_eq_same_length with (length es); [done| |].
  - unfold dents. rewrite length_map, length_seq, Hl. rewrite Nat.mul_comm. by apply Nat.div_mul.
  - intros k x y Hk. rewrite lookup_dents by (rewrite Hl, Nat.mul_comm, Nat.div_mul; lia). intros [= <-] Hy. revert k es H Hl Hk Hy. clear.
    induction k as [|k IH]; intros [|e es] H Hl Hk Hy; try done; apply Forall_cons in H as [He H].
    + injection Hy as ->. unfold dent, slice. cbn [concat]. rewrite drop_0, <-He. apply take_app_length.
    + cbn [length] in *. rewrite <-(IH es H) by (done || lia || (cbn [concat] in Hl; rewrite length_app in Hl; lia)). unfold dent, slice. cbn [concat]. rewrite drop_app_ge by lia. do 2 f_equal. lia.
Qed.

Lemma entry_inum n nm : 0 <= n < 2 ^ 16 -> de_inum (entry n nm) = n.
Proof.
  intros Hn. unfold de_inum, entry. assert (length (put16 0 n (replicate (Z.to_nat DIRENT) 0)) = 16%nat) as E by (rewrite length_put16; rewrite ?length_replicate; unfold DIRENT; lia).
  unfold get16 at 1. rewrite slice_splice_out; rewrite ?E, ?length_take, ?length_app, ?length_replicate; unfold DIRSIZ; try lia.
  change (le_value (slice (Z.to_nat 0) 2 (put16 0 n (replicate (Z.to_nat DIRENT) 0)))) with (get16 0 (put16 0 n (replicate (Z.to_nat DIRENT) 0))).
  rewrite get16_put16_same by (rewrite ?length_replicate; unfold DIRENT; lia). unfold u16. by apply Z.mod_small.
Qed.
Lemma entry_name n nm : NUL ∉ nm -> cname DIRSIZ (de_name (entry n nm)) = take DIRSIZ nm.
Proof.
  intros Hn. unfold de_name, entry. assert (length (put16 0 n (replicate (Z.to_nat DIRENT) 0)) = 16%nat) as E by (rewrite length_put16; rewrite ?length_replicate; unfold DIRENT; lia).
  assert (El : length (take DIRSIZ (nm ++ replicate DIRSIZ 0)) = DIRSIZ) by (rewrite length_take, length_app, length_replicate; lia).
  rewrite <-El at 2. rewrite slice_splice_same by (rewrite E, El; unfold DIRSIZ; lia).
  destruct (le_lt_dec DIRSIZ (length nm)) as [Hge|Hlt].
  - rewrite take_app_le by lia. rewrite cname_take; [by rewrite take_take, Nat.min_id|]. intros H%elem_of_take. destruct H as (i & H & _). apply Hn. by eapply list_elem_of_lookup_2.
  - rewrite take_app_ge by lia. rewrite take_replicate. rewrite (take_ge nm) by lia. replace ((DIRSIZ - length nm) `min` DIRSIZ)%nat with (S (DIRSIZ - length nm - 1)) by lia.
    cbn [replicate]. by apply cname_nul.
Qed.

(** The root's names; entry [j] has inode 1 for the first two, [j] for the others. *)
Definition names (args : list (list Z * list Z)) : list (list Z) := [46] :: [46; 46] :: map (fun a => skip_underscore a.1) args.
Definition root (args : list (list Z * list Z)) : list (list Z) := entry 1 [46] :: entry 1 [46; 46] :: entries 2 args.

Lemma entries_lookup args : forall n j nm, map (fun a => skip_underscore a.1) args !! j = Some nm -> entries n args !! j = Some (entry (n + Z.of_nat j) nm).
Proof.
  induction args as [|[name bs] args IH]; intros n [|j] nm H; try done; cbn [entries map] in *.
  - injection H as <-. cbn [lookup list_lookup fst]. by rewrite Z.add_0_r.
  - change (entries (n + 1) args !! j = Some (entry (n + Z.of_nat (S j)) nm)). rewrite (IH (n + 1) j nm H). do 2 f_equal. lia.
Qed.
Lemma root_lookup args j nm : names args !! j = Some nm -> root args !! j = Some (entry (Z.max 1 (Z.of_nat j)) nm).
Proof.
  destruct j as [|[|j]]; [by intros [= <-]|by intros [= <-]|]. intros H. change (entries 2 args !! j = Some (entry (Z.max 1 (Z.of_nat (S (S j)))) nm)).
  rewrite (entries_lookup args 2 j nm H). do 2 f_equal. lia.
Qed.
Lemma length_entries_list n args : length (entries n args) = length args.
Proof. revert n. induction args as [|[name bs] args IH]; intros n; [done|]. cbn. by rewrite IH. Qed.
Lemma length_root args : length (root args) = (2 + length args)%nat.
Proof. cbn. by rewrite length_entries_list. Qed.
Lemma length_names args : length (names args) = (2 + length args)%nat.
Proof. cbn. by rewrite length_map. Qed.
Lemma length_root_bytes args : length (concat (root args)) = (16 * (2 + length args))%nat.
Proof. unfold root. cbn [concat]. rewrite !length_app, !length_entry, length_entries. lia. Qed.

(** The padding of the root are free entries. *)
Lemma pad_root args : exists z, dents (pad (concat (root args))) = root args ++ replicate z (replicate 16 0).
Proof.
  assert (Hm : (length (concat (root args)) mod 512 = 16 * ((2 + length args) mod 32))%nat).
  { rewrite length_root_bytes. change 512%nat with (16 * 32)%nat. by rewrite Nat.Div0.mul_mod_distr_l. }
  exists (32 - (2 + length args) mod 32)%nat. rewrite <-(dents_concat (root args ++ _)).
  - f_equal. unfold pad. rewrite concat_app, Hm. f_equal. replace (512 - 16 * ((2 + length args) mod 32))%nat with ((32 - (2 + length args) mod 32) * 16)%nat by lia.
    generalize (32 - (2 + length args) mod 32)%nat. intros z. induction z as [|z IH]; [done|]. change (replicate (S z * 16) 0) with (replicate 16 0 ++ replicate (z * 16) 0). by rewrite IH.
  - apply Forall_app. split; [|apply Forall_forall; intros e [-> _]%elem_of_replicate; done]. apply Forall_lookup. intros j e He.
    assert (j < length (names args))%nat as Hj by (rewrite length_names, <-length_root; by eapply lookup_lt_Some).
    apply lookup_lt_is_Some_2 in Hj as [nm Hnm]. apply root_lookup in Hnm. rewrite Hnm in He. injection He as <-. apply length_entry.
Qed.

(** What mkfs is started with, other than paths of the host: names that are not too similar,
    and enough room. *)
Record legal (args : list (list Z * list Z)) : Prop := Legal {
  lg_name : forall a, a ∈ args -> SLASH ∉ a.1 /\ NUL ∉ a.1 /\ skip_underscore a.1 <> [] /\ Z.of_nat (length a.2) <= MAXFILE * 512;
  lg_distinct : NoDup (map (take DIRSIZ) (names args));
  lg_count : 2 + Z.of_nat (length args) <= NINODES;
  lg_root : ((16 * (2 + length args)) mod 512 <> 0)%nat;
  lg_room : total ((T_DIR, concat (root args)) :: files_of args) <= FSSIZE
}.

Lemma skip_sub c nm : c ∈ skip_underscore nm -> c ∈ nm.
Proof. destruct nm as [|b nm]; [done|]. cbn. destruct (b =? 95); [by right|done]. Qed.

Lemma names_nul args j nm : legal args -> names args !! j = Some nm -> NUL ∉ nm.
Proof.
  intros Hl. destruct j as [|[|j]]; [intros [= <-]; set_solver|intros [= <-]; set_solver|]. change (names args !! S (S j)) with (map (fun a => skip_underscore a.1) args !! j). rewrite list_lookup_fmap. intros (a & Ha & ->)%fmap_Some.
  intros H%skip_sub. apply list_elem_of_lookup_2, (lg_name _ Hl) in Ha. tauto.
Qed.

(** A name of the root is found at its entry. *)
Lemma root_find args j nm tl : legal args -> names args !! j = Some nm ->
  list_find (entry_is (take DIRSIZ nm)) (root args ++ tl) = Some (j, entry (Z.max 1 (Z.of_nat j)) nm).
Proof.
  intros Hl Hj. pose proof (lookup_lt_Some _ _ _ Hj) as Hlt. rewrite length_names in Hlt. pose proof (lg_count _ Hl) as Hc. unfold NINODES in Hc.
  apply list_find_Some. split_and!.
  - apply lookup_app_l_Some. by apply root_lookup.
  - split; [rewrite entry_inum; lia|]. apply entry_name. by eapply names_nul.
  - intros k y Hy Hk [_ He]. destruct (lookup_lt_is_Some_2 (names args) k) as [nk Hnk]; [rewrite length_names; lia|].
    pose proof (root_lookup _ _ _ Hnk) as Hr. rewrite lookup_app_l in Hy by (rewrite length_root; lia). rewrite Hr in Hy. injection Hy as <-.
    rewrite entry_name in He by (by eapply names_nul).
    assert (k = j); [|lia]. apply (NoDup_lookup (map (take DIRSIZ) (names args)) k j (take DIRSIZ nm)); [apply Hl| |]; rewrite list_lookup_fmap.
    + rewrite Hnk. exact (f_equal Some He).
    + by rewrite Hj.
Qed.

(** ** The finished image *)

(** What the kernel relies on when it mounts the image, and that the files are all there. *)
Record fs_image (args : list (list Z * list Z)) (V : Z -> option (list Z)) : Prop := FsImage {
  fi_blocks : forall n, 0 <= n < FSSIZE -> exists d, V n = Some d /\ length d = BSIZE;
  fi_sb : parse_sb (default [] (V 1)) = sb;
  fi_log : hd_n (default [] (V (sb_logstart sb))) = 0;
  fi_tree : tree_ok V sb;
  fi_bits : bits_ok V sb;
  fi_disjoint : forall m n, allocated V sb m -> allocated V sb n -> m <> n -> blocks_of (dnode V sb m) V ## blocks_of (dnode V sb n) V;
  fi_file : forall i name bs, args !! i = Some (name, bs) -> let n := 2 + Z.of_nat i in
    walk V sb false ROOTINO (elems (SLASH :: skip_underscore name)) = Some n /\ i_type (dnode V sb n) = T_FILE /\
    file_ok sb V (dnode V sb n) /\ sized (dnode V sb n) V /\ contents (dnode V sb n) V = bs
}.

Section image.
Context (args : list (list Z * list Z)) (st : mk).
Notation files := ((T_DIR, pad (concat (root args))) :: files_of args).
Hypothesis Hlegal : legal args.
Hypothesis Hmk : mk_ok files st.
Let bm : list Z := fold_left (fun buf i => mark i buf) (seqZ 0 (freeblock st)) zeroes.
Let l : list (list Z) := <[58%nat := bm]> (img st).
Let V : Z -> option (list Z) := dview l.

Lemma used_range : 0 <= freeblock st < BPB.
Proof using Hmk. pose proof (mo_room _ _ Hmk). rewrite (mo_total _ _ Hmk) in *. pose proof (total_nmeta files). consts. unfold BPB. lia. Qed.

Lemma final_ok : img_ok l.
Proof using Hmk.
  destruct (img_insert (img st) 58 bm (mo_img _ _ Hmk)) as [_ H]; [done| |exact H]. by apply (bitmap_spec (freeblock st) 0 used_range).
Qed.

Lemma final_bit b : 0 <= b < FSSIZE -> bit V sb b = (b <? freeblock st).
Proof using Hmk.
  intros Hb. unfold bit, bblock. unfold FSSIZE, BPB in *. rewrite Z.div_small, Z.mod_small by lia. unfold V, dview, l. change (Z.to_nat (0 + sb_bmapstart sb)) with 58%nat.
  pose proof (mo_img _ _ Hmk) as [Hlen _]. rewrite list_lookup_insert_eq by (consts; lia). apply (bitmap_spec _ _ used_range). lia.
Qed.

Lemma final_node n : 0 <= n < NINODES -> dnode V sb n = node (img st) n.
Proof using Type.
  intros Hn. destruct (iblock_eq n Hn) as [_ Hr]. unfold dnode, V, dview, l. by rewrite list_lookup_insert_ne by lia.
Qed.

Lemma final_data a : nmeta <= a -> V a = data (img st) a.
Proof using Type. intros Ha. rewrite data_lookup by done. unfold V, dview, l. consts. by rewrite list_lookup_insert_ne by lia. Qed.

Lemma final_file i f : files !! i = Some f -> let p := dnode V sb (1 + Z.of_nat i) in
  i_type p = f.1 /\ i_nlink p = 1 /\ file_ok sb V p /\ sized p V /\ contents p V = f.2 /\ blocks_of p V = blocks st (1 + Z.of_nat i).
Proof using Hmk.
  intros Hi p. pose proof (lookup_lt_Some _ _ _ Hi) as Hlt. pose proof (mo_max _ _ Hmk). destruct (mo_file _ _ Hmk i f Hi) as [F1 F2 F3 F4 F5 F6 F7].
  unfold p. rewrite final_node by lia. clear p. set (p := node (img st) (1 + Z.of_nat i)) in *. pose proof (own_file _ _ _ F5) as Hf. pose proof (fo_len _ _ _ Hf) as Hlen.
  assert (HD : forall a, a ∈ blocks_of p (data (img st)) -> V a = data (img st) a) by (intros a Ha; apply final_data; by destruct (fo_data _ _ _ Hf a Ha) as [[? _] _]).
  pose proof (mk_agree_blocks p p _ _ Hlen eq_refl HD) as Eb. split_and!; try done.
  - split; rewrite ?Eb; [done|apply Hf|]. intros a Ha. destruct (fo_data _ _ _ Hf a Ha) as [Hr _]. split; [done|]. rewrite final_bit by (change (data_start sb) with 59 in Hr; consts; lia).
    apply Z.ltb_lt. by apply (own_below _ _ _ F5).
  - rewrite <-F3 in F4. split; [lia|]. intros k Hk. rewrite (mk_agree_addr p p _ _ Hlen eq_refl HD). apply F6; [unfold MAXFILE, NDIRECT, NINDIRECT in *; split; [apply Z.div_pos; lia|apply Z.div_lt_upper_bound; lia]|].
    rewrite <-F3. pose proof (Z.mul_div_le k 512). lia.
  - apply (nth_ext _ _ 0 0); rewrite length_contents by lia; [lia|]. intros k Hk.
    erewrite nth_lookup_Some by (apply lookup_contents; lia). rewrite (mk_agree_byte p p _ _ Hlen eq_refl HD), F7 by lia. by rewrite Nat2Z.id.
Qed.

Lemma final_allocated n : allocated V sb n <-> exists i f, files !! i = Some f /\ n = 1 + Z.of_nat i.
Proof using Hmk.
  unfold allocated. change (sb_ninodes sb) with NINODES. split.
  - intros [Hn Ht]. rewrite final_node in Ht by done. destruct (decide (1 <= n <= Z.of_nat (length files))) as [Hr|Hr].
    + destruct (lookup_lt_is_Some_2 files (Z.to_nat (n - 1))) as [f Hf]; [lia|]. exists (Z.to_nat (n - 1)), f. split; [done|lia].
    + by apply (mo_free _ _ Hmk) in Hr.
  - intros (i & f & Hi & ->). pose proof (lookup_lt_Some _ _ _ Hi). pose proof (mo_max _ _ Hmk). split; [lia|]. destruct (final_file i f Hi) as [-> _].
    destruct i as [|i]; [by injection Hi as <-|]. cbn [lookup list_lookup] in Hi. unfold files_of in Hi. apply list_elem_of_lookup_2, list_elem_of_fmap in Hi as (a & -> & _). done.
Qed.

Lemma final_root : dents (contents (dnode V sb ROOTINO) V) = dents (pad (concat (root args))).
Proof using Hmk. f_equal. by destruct (final_file 0 _ eq_refl) as (_ & _ & _ & _ & H & _). Qed.

Lemma final_dir n : allocated V sb n -> i_type (dnode V sb n) = T_DIR -> n = ROOTINO.
Proof using Hmk.
  intros ([|i] & f & Hi & ->)%final_allocated Ht; [done|]. destruct (final_file _ _ Hi) as [E _]. rewrite Ht in E.
  cbn [lookup list_lookup] in Hi. unfold files_of in Hi. apply list_elem_of_lookup_2, list_elem_of_fmap in Hi as (a & -> & _). done.
Qed.

Lemma final_tree : tree_ok V sb.
Proof using Hlegal Hmk.
  split.
  - intros n Hn. destruct (iblock_eq n Hn) as [_ Hr]. destruct (img_block l (iblock sb n) final_ok) as (d & Hd & _); [consts; lia|by exists d].
  - intros n (i & f & Hi & ->)%final_allocated. destruct (final_file i f Hi) as (_ & -> & _). done.
  - intros n Ha Ht. pose proof (final_dir n Ha Ht) as ->. destruct (final_file 0 _ eq_refl) as (_ & _ & H3 & H4 & H5 & _). split; [done|]. split; [done|done|].
    assert (i_size (dnode V sb ROOTINO) = Z.of_nat (length (contents (dnode V sb ROOTINO) V))) as -> by (rewrite length_contents by apply H4; destruct H4 as [? _]; change (1 + Z.of_nat 0) with ROOTINO in *; lia).
    change (1 + Z.of_nat 0) with ROOTINO in H5. rewrite H5. cbn [snd]. rewrite length_pad. replace ((Z.of_nat (length (concat (root args))) / 512 + 1) * 512) with ((Z.of_nat (length (concat (root args))) / 512 + 1) * 32 * 16) by lia. apply Z_mod_mult.
  - intros n de Ha Ht. pose proof (final_dir n Ha Ht) as ->. rewrite final_root. destruct (pad_root args) as [z ->]. intros [H|H]%elem_of_app Hne; [|apply elem_of_replicate in H as [-> _]; done].
    apply list_elem_of_lookup_1 in H as [j Hj]. destruct (lookup_lt_is_Some_2 (names args) j) as [nm Hnm]; [rewrite length_names, <-length_root; by eapply lookup_lt_Some|].
    rewrite (root_lookup _ _ _ Hnm) in Hj. injection Hj as <-. apply lookup_lt_Some in Hnm. rewrite length_names in Hnm. pose proof (lg_count _ Hlegal) as Hc. unfold NINODES in Hc.
    rewrite entry_inum by lia. apply final_allocated. destruct (lookup_lt_is_Some_2 files (j - 1)) as [f Hf]; [cbn [length]; unfold files_of; rewrite length_map; lia|].
    exists (j - 1)%nat, f. split; [done|lia].
Qed.

Lemma image_spec : fs_image args V.
Proof using Hlegal Hmk.
  pose proof (mo_img _ _ Hmk) as [Hlen _]. split.
  - intros n Hn. by apply (img_block l n final_ok).
  - unfold V, dview, l. change (Z.to_nat 1) with 1%nat. rewrite list_lookup_insert_ne by lia. rewrite (mo_sb _ _ Hmk). vm_compute. reflexivity.
  - unfold V, dview, l. change (Z.to_nat (sb_logstart sb)) with 2%nat. rewrite list_lookup_insert_ne by lia. by rewrite (mo_log _ _ Hmk).
  - apply final_tree.
  - intros b Hb. rewrite final_bit by done. change (data_start sb) with nmeta. pose proof (total_nmeta files). pose proof (mo_total _ _ Hmk). intros ?%Z.ltb_ge. lia.
  - intros m n (i & f & Hi & ->)%final_allocated (j & g & Hj & ->)%final_allocated Hne. destruct (final_file i f Hi) as (_ & _ & _ & _ & _ & ->). destruct (final_file j g Hj) as (_ & _ & _ & _ & _ & ->).
    apply (mo_disj _ _ Hmk); [by eapply lookup_lt_Some|by eapply lookup_lt_Some|lia].
  - intros i name bs Hi n. assert (Hf : files !! S i = Some (T_FILE, bs)) by (change (files_of args !! i = Some (T_FILE, bs)); unfold files_of; by rewrite list_lookup_fmap, Hi).
    destruct (final_file _ _ Hf) as (H1 & _ & H3 & H4 & H5 & _). replace (1 + Z.of_nat (S i)) with n in * by lia. split_and!; try done.
    apply list_elem_of_lookup_2 in Hi as Hin. destruct (lg_name _ Hlegal _ Hin) as (Hsl & _ & Hnil & _). cbn [fst snd] in *.
    unfold elems. rewrite words_delim, words_word; [|apply Forall_forall; intros c Hc; rewrite in_slash; apply Z.eqb_neq; intros <-; by apply Hsl, skip_sub|done|done].
    cbn [walk]. destruct (final_file 0 _ eq_refl) as [Ht _]. change (1 + Z.of_nat 0) with ROOTINO in Ht. rewrite Ht. cbn [fst andb]. rewrite Z.eqb_refl.
    unfold dir_find. rewrite final_root. destruct (pad_root args) as [z ->]. rewrite (root_find args (S (S i)) (skip_underscore name)).
    + rewrite entry_inum; [f_equal; lia|]. pose proof (lg_count _ Hlegal) as Hc. unfold NINODES in Hc. apply lookup_lt_Some in Hi. lia.
    + done.
    + change (map (fun a => skip_underscore a.1) args !! i = Some (skip_underscore name)). by rewrite list_lookup_fmap, Hi.
Qed.
End image.

Lemma mk_balloc_spec (Q : unit -> mk -> Prop) st : img_ok (img st) -> 0 <= freeblock st < BPB ->
  Q tt (set_img (<[58%nat := fold_left (fun buf i => mark i buf) (seqZ 0 (freeblock st)) zeroes]> (img st)) st) -> wp (balloc (freeblock st)) Q st.
Proof.
  intros Himg Hu HQ. unfold balloc. apply wp_bind, wp_panic_if; [apply negb_false_iff, Z.ltb_lt; unfold BPB in Hu; unfold BSIZE; lia|].
  apply wp_wsect; [done|done|by apply (bitmap_spec _ 0 Hu)|done].
Qed.

Lemma legal_root args : legal args -> Z.of_nat (length (concat (root args))) <= MAXFILE * 512.
Proof. intros Hl. pose proof (lg_count _ Hl). rewrite length_root_bytes. unfold NINODES, MAXFILE, NDIRECT, NINDIRECT in *. lia. Qed.

(** C15: mkfs makes a file system: from the files of a legal command line, it writes an image
    whose superblock is the one of fs.h, whose log is empty, whose inodes satisfy everything
    that the theorems about the kernel's fs.c assume (every directory is whole and leads to
    inodes in use, the blocks of a file are its own, marked in the bitmap and among the data
    blocks), and in which each path [/name] leads to a regular file with the bytes of the
    host's file.  Legal are names without slash or NUL, not empty after an underscore and
    distinct in the 14 bytes that an entry keeps; files of at most MAXFILE blocks; as many
    files as there are inodes and room on the image; and entries that do not fill the last
    block of the root, since mkfs gives the root a hole then, as [fix_root_hole] shows. *)
Theorem mkfs_correct args : legal args -> wp (main (given args)) (fun _ st => length (img st) = Z.to_nat FSSIZE /\ fs_image args (dview (img st))) start.
Proof.
  intros Hl. unfold main. wp_steps. eapply wp_mono; [by apply zeroing|]. intros [] s ->.
  apply wp_bind. assert (Hb : img_ok blank_img) by (split; [done|by apply Forall_replicate]).
  apply wp_wsect; [done|done|apply length_put_sb|]. intros _. apply wp_bind. eapply wp_mono; [apply (ialloc_spec [] _ T_DIR first_mk_ok); done|].
  intros r s1 [-> H1]. apply wp_bind, wp_panic_if; [done|]. change (1 + Z.of_nat (length [])) with (1 + Z.of_nat 0). cbn [app] in H1.
  apply wp_bind. eapply wp_mono; [apply (iappend_spec _ s1 0 T_DIR [] (entry 1 [46]) H1); done|]. intros [] s2 H2.
  apply wp_bind. eapply wp_mono; [apply (iappend_spec _ s2 0 T_DIR (entry 1 [46]) (entry 1 [46; 46]) H2); done|]. intros [] s3 H3.
  cbn [app insert list_insert] in H3. apply wp_bind. pose proof (lg_count _ Hl) as Hc. pose proof (legal_root _ Hl) as Hr.
  assert (Ec : (entry 1 [46] ++ entry 1 [46; 46]) ++ concat (entries 2 args) = concat (root args)) by (unfold root; cbn [concat]; by rewrite app_assoc).
  change (1 + Z.of_nat 0) with ROOTINO. eapply wp_mono; [apply (add_files_spec args _ [] s3 H3)|].
  - apply Forall_forall. intros a Ha. destruct (lg_name _ Hl a Ha) as (? & _ & _ & ?). done.
  - cbn [length]. lia.
  - rewrite length_root_bytes in Hr. rewrite length_app, !length_entry. lia.
  - cbn [app length Z.of_nat]. rewrite Z.add_0_r, Ec. apply Hl.
  - intros [] s4 H4. cbn [app length Z.of_nat] in H4. rewrite Z.add_0_r, Ec in H4.
    apply wp_bind. eapply wp_mono; [apply (fix_root_spec _ _ s4 H4); rewrite length_root_bytes; apply Hl|]. intros [] s5 H5.
    apply wp_bind. unfold gets. apply wp_ret. cbn [id]. apply mk_balloc_spec; [apply H5|by eapply used_range|]. cbn [img set_img].
    split; [rewrite length_insert; apply (mo_img _ _ H5)|]. by apply image_spec.
Qed.

Lemma mkfs_correct_witness : let args := [([95; 99; 97; 116], [127; 69; 76; 70]); ([82; 69; 65; 68], replicate 600 65)] in
  legal args /\ wp (main (given args)) (fun _ st => length (img st) = Z.to_nat FSSIZE /\ fs_image args (dview (img st))) start.
Proof.
  cbv zeta. assert (H : legal [([95; 99; 97; 116], [127; 69; 76; 70]); ([82; 69; 65; 68], replicate 600 65)]).
  { split.
    - intros a Ha. apply (Forall_forall (fun a : list Z * list Z => SLASH ∉ a.1 /\ NUL ∉ a.1 /\ skip_underscore a.1 <> [] /\ Z.of_nat (length a.2) <= MAXFILE * 512)) with (2 := Ha).
      apply (bool_decide_unpack _). vm_compute. exact I.
    - apply (bool_decide_unpack _). vm_compute. exact I.
    - vm_compute. congruence.
    - vm_compute. congruence.
    - vm_compute. congruence. }
  split; [exact H|]. exact (mkfs_correct _ H).
Defined.
