(* ===== verification/Sysfile.v ===== *)
(** * System calls on files (sysfile.c, syscall.c)

    Argument checking, descriptors and the calls into file.c and fs.c.  The state is the file
    table of [File] over the file system of [Fs], with the calling process: its memory from
    address 0 to [sz], its stack pointer and its descriptors.  [argint], [argptr] and [argstr]
    read the arguments from the stack of the process, and nothing outside its memory. *)

From S2P Require Import Prelude Bytes File Bio Log CStr Fs.

Definition NOFILE : nat := 16.
Definition MAXARG : nat := 32.
Definition O_RDONLY : Z := 0.
Definition O_WRONLY : Z := 1.
Definition O_RDWR : Z := 2.
Definition O_CREATE : Z := 512.

(** What file.c needs of pipe.c: the calls of one process on the pipes [P]. *)
Class PipeServices (P : Type) := {
  pipe_close : Z -> bool -> M P unit;
  pipe_read : Z -> Z -> M P (Z * list Z);
  pipe_write : Z -> list Z -> Z -> M P Z;
  pipe_new : M P Z
}.

Section sysfile.
Context {P : Type} {pipes : PipeServices P}.
(** The device drivers, and the bytes of an uninitialised [char name[DIRSIZ]]. *)
Context (dev_read : Z -> option (nat -> Z -> M fss (Z * list Z)))
        (dev_write : Z -> option (nat -> list Z -> Z -> M fss Z)) (junk : list Z).

Record kenv := Kenv { k_fs : fss; k_pipes : P }.
Definition set_k_fs (x : fss) (k : kenv) : kenv := Kenv x (k_pipes k).
Definition set_k_pipes (x : P) (k : kenv) : kenv := Kenv (k_fs k) x.
Definition in_fs {A} (m : M fss A) : M kenv A := zoom k_fs set_k_fs m.
Definition in_pipes {A} (m : M P A) : M kenv A := zoom k_pipes set_k_pipes m.

(** An inode pointer is its index in the cache. *)
#[export] Instance kenv_services : FileServices kenv := {
  fs_pipeclose p w := in_pipes (pipe_close p w);
  fs_piperead p n := in_pipes (pipe_read p n);
  fs_pipewrite p bs n := in_pipes (pipe_write p bs n);
  fs_begin_op := in_fs (on_log begin_op);
  fs_end_op := in_fs (on_log end_op);
  fs_iput ip := in_fs (iput (Z.to_nat ip));
  fs_ilock ip := in_fs (ilock (Z.to_nat ip));
  fs_iunlock ip := in_fs (iunlock (Z.to_nat ip));
  fs_stati ip := in_fs (r <- stati (Z.to_nat ip) ;; let '(dev, ino, type, nlink, size) := r in ret [dev; ino; type; nlink; size]);
  fs_readi ip off n := in_fs (readi dev_read (Z.to_nat ip) off n);
  fs_writei ip bs off n := in_fs (writei dev_write (Z.to_nat ip) bs off n);
  fs_newpipe := in_pipes pipe_new
}.

(** The calling process: its memory, [tf->esp] and [ofile]. *)
Record uproc := Uproc { u_mem : list Z; u_esp : Z; u_ofile : list (option nat) }.
Record sys := Sys { y_files : fst_ (E := kenv); y_proc : uproc }.
Definition set_files (x : fst_) (s : sys) : sys := Sys x (y_proc s).
Definition set_mem (x : list Z) (s : sys) : sys := Sys (y_files s) (Uproc x (u_esp (y_proc s)) (u_ofile (y_proc s))).
Definition set_ofile (x : list (option nat)) (s : sys) : sys :=
  Sys (y_files s) (Uproc (u_mem (y_proc s)) (u_esp (y_proc s)) x).
Definition sz (s : sys) : Z := Z.of_nat (length (u_mem (y_proc s))).

Definition on_files {A} (m : M fst_ A) : M sys A := zoom y_files set_files m.
Definition onfs {A} (m : M fss A) : M sys A := on_files (srv (in_fs m)).

(** ** Arguments *)

(** A failed fetch is [None]. *)
Definition fetchint (addr : Z) : M sys (option Z) :=
  s <- gets id ;;
  ret (if (sz s <=? addr) || (sz s <? u32 (addr + 4)) then None else Some (s32 (get32 addr (u_mem (y_proc s))))).

(** The loop from [s] to [ep]: the bytes before the NUL. *)
Fixpoint fetchstr_loop (bs : list Z) : option (list Z) :=
  match bs with
  | [] => None
  | b :: bs' => if b =? 0 then Some [] else cons b <$> fetchstr_loop bs'
  end.
Definition fetchstr (addr : Z) : M sys (option (list Z)) :=
  s <- gets id ;;
  ret (if sz s <=? addr then None else fetchstr_loop (drop (Z.to_nat addr) (u_mem (y_proc s)))).

Definition argint (n : Z) : M sys (option Z) :=
  s <- gets id ;; fetchint (u32 (u_esp (y_proc s) + 4 + 4 * n)).

Definition argptr (n size : Z) : M sys (option Z) :=
  r <- argint n ;;
  match r with
  | None => ret None
  | Some i =>
      s <- gets id ;;
      ret (if (size <? 0) || (sz s <=? u32 i) || (sz s <? u32 (u32 i + size)) then None else Some (u32 i))
  end.

Definition argstr (n : Z) : M sys (option (list Z)) :=
  r <- argint n ;;
  match r with
  | None => ret None
  | Some addr => fetchstr (u32 addr)
  end.

(** The descriptor and its file. *)
Definition argfd (n : Z) : M sys (option (Z * nat)) :=
  r <- argint n ;;
  match r with
  | None => ret None
  | Some fd =>
      s <- gets id ;;
      ret (if (fd <? 0) || (Z.of_nat NOFILE <=? fd) then None
           else match u_ofile (y_proc s) !! Z.to_nat fd with
                | Some (Some f) => Some (fd, f)
                | _ => None
                end)
  end.

(** The loop of [fdalloc] from descriptor [fd] on. *)
Fixpoint fdalloc_loop (n fd : nat) (f : nat) : M sys Z :=
  match n with
  | O => ret (-1)
  | S n' =>
      s <- gets id ;;
      o <- deref "ofile" (u_ofile (y_proc s) !! fd) ;;
      match o with
      | None => modify (fun s => set_ofile (<[fd := Some f]> (u_ofile (y_proc s))) s) ;;; ret (Z.of_nat fd)
      | Some _ => fdalloc_loop n' (S fd) f
      end
  end.
Definition fdalloc (f : nat) : M sys Z := fdalloc_loop NOFILE 0 f.

Definition clear_fd (fd : Z) : M sys unit :=
  modify (fun s => set_ofile (<[Z.to_nat fd := None]> (u_ofile (y_proc s))) s).
(** Bytes stored into the memory of the process. *)
Definition poke (p : Z) (bs : list Z) : M sys unit :=
  modify (fun s => set_mem (splice (Z.to_nat p) bs (u_mem (y_proc s))) s).

(** ** Calls on descriptors *)

Definition sys_dup : M sys Z :=
  r <- argfd 0 ;;
  match r with
  | None => ret (-1)
  | Some (_, f) =>
      fd <- fdalloc f ;;
      if fd <? 0 then ret (-1) else on_files (filedup f) ;;; ret fd
  end.

Definition sys_read : M sys Z :=
  r <- argfd 0 ;;
  rn <- argint 2 ;;
  match r, rn with
  | Some (_, f), Some n =>
      rp <- argptr 1 n ;;
      match rp with
      | None => ret (-1)
      | Some p => r <- on_files (fileread f n) ;; poke p (snd r) ;;; ret (fst r)
      end
  | _, _ => ret (-1)
  end.

Definition sys_write : M sys Z :=
  r <- argfd 0 ;;
  rn <- argint 2 ;;
  match r, rn with
  | Some (_, f), Some n =>
      rp <- argptr 1 n ;;
      match rp with
      | None => ret (-1)
      | Some p =>
          s <- gets id ;;
          on_files (filewrite f (slice (Z.to_nat p) (Z.to_nat n) (u_mem (y_proc s))) n)
      end
  | _, _ => ret (-1)
  end.

Definition sys_close : M sys Z :=
  r <- argfd 0 ;;
  match r with
  | None => ret (-1)
  | Some (fd, f) => clear_fd fd ;;; on_files (fileclose f) ;;; ret 0
  end.

(** [sizeof(struct stat)], and the fields of a [struct stat]: type, dev, ino, nlink, size. *)
Definition STAT : Z := 20.
Definition put_stat (p : Z) (st : list Z) (m : list Z) : list Z :=
  match st with
  | [dev; ino; type; nlink; size] =>
      put32 (p + 16) size (put16 (p + 12) nlink (put32 (p + 8) ino (put32 (p + 4) dev (put16 p type m))))
  | _ => m
  end.

Definition sys_fstat : M sys Z :=
  r <- argfd 0 ;;
  rp <- argptr 1 STAT ;;
  match r, rp with
  | Some (_, f), Some p =>
      o <- on_files (filestat f) ;;
      match o with
      | None => ret (-1)
      | Some st => modify (fun s => set_mem (put_stat p st (u_mem (y_proc s))) s) ;;; ret 0
      end
  | _, _ => ret (-1)
  end.

(** ** Links *)

Definition add_nlink (k : Z) (i : nat) : M fss unit := upd_inode i (fun p => set_nlink (s16 (i_nlink p + k)) p).

Definition link_bad (ip : nat) : M fss Z :=
  ilock ip ;;;
  add_nlink (-1) ip ;;;
  iupdate ip ;;;
  iunlockput ip ;;;
  on_log end_op ;;;
  ret (-1).

(** [sys_link] after the arguments are fetched. *)
Definition link (old new : list Z) : M fss Z :=
  on_log begin_op ;;;
  r <- namei dev_read old ;;
  match r with
  | None => on_log end_op ;;; ret (-1)
  | Some ip =>
      ilock ip ;;;
      p <- get_inode ip ;;
      if i_type p =? T_DIR then iunlockput ip ;;; on_log end_op ;;; ret (-1)
      else
        add_nlink 1 ip ;;;
        iupdate ip ;;;
        iunlock ip ;;;
        r <- nameiparent dev_read new junk ;;
        match r with
        | (None, _) => link_bad ip
        | (Some dp, name) =>
            ilock dp ;;;
            d <- get_inode dp ;;
            p <- get_inode ip ;;
            c <- (if negb (i_dev d =? i_dev p) then ret (-1) else dirlink dev_read dev_write dp name (i_inum p)) ;;
            if c <? 0 then iunlockput dp ;;; link_bad ip
            else iunlockput dp ;;; iput ip ;;; on_log end_op ;;; ret 0
        end
  end.

Definition sys_link : M sys Z :=
  r0 <- argstr 0 ;;
  r1 <- argstr 1 ;;
  match r0, r1 with
  | Some old, Some new => onfs (link old new)
  | _, _ => ret (-1)
  end.

(** The loop of [isdirempty] from entry [off] on. *)
Fixpoint isdirempty_loop (fuel : nat) (dp : nat) (off : Z) : M fss bool :=
  match fuel with
  | O => fun _ => Timeout
  | S f =>
      p <- get_inode dp ;;
      if off <? i_size p then
        r <- readi dev_read dp off DIRENT ;;
        panic_if (negb (fst r =? DIRENT)) "isdirempty: readi" ;;;
        if negb (de_inum (snd r) =? 0) then ret false else isdirempty_loop f dp (off + DIRENT)
      else ret true
  end.
Definition isdirempty (dp : nat) : M fss bool :=
  p <- get_inode dp ;; isdirempty_loop (S (S (Z.to_nat (i_size p / DIRENT)))) dp (2 * DIRENT).

Definition unlink_bad (dp : nat) : M fss Z := iunlockput dp ;;; on_log end_op ;;; ret (-1).

Definition unlink (path : list Z) : M fss Z :=
  on_log begin_op ;;;
  r <- nameiparent dev_read path junk ;;
  match r with
  | (None, _) => on_log end_op ;;; ret (-1)
  | (Some dp, name) =>
      ilock dp ;;;
      c1 <- namecmp name [46; 0] ;;
      c2 <- (if c1 =? 0 then ret 0 else namecmp name [46; 46; 0]) ;;
      if c2 =? 0 then unlink_bad dp
      else
        r <- dirlookup dev_read dp name ;;
        match r with
        | None => unlink_bad dp
        | Some (ip, off) =>
            ilock ip ;;;
            p <- get_inode ip ;;
            panic_if (i_nlink p <? 1) "unlink: nlink < 1" ;;;
            e <- (if i_type p =? T_DIR then isdirempty ip else ret true) ;;
            if negb e then iunlockput ip ;;; unlink_bad dp
            else
              n <- writei dev_write dp (replicate (Z.to_nat DIRENT) 0) off DIRENT ;;
              panic_if (negb (n =? DIRENT)) "unlink: writei" ;;;
              p <- get_inode ip ;;
              (if i_type p =? T_DIR then add_nlink (-1) dp ;;; iupdate dp else ret tt) ;;;
              iunlockput dp ;;;
              add_nlink (-1) ip ;;;
              iupdate ip ;;;
              iunlockput ip ;;;
              on_log end_op ;;;
              ret 0
        end
  end.

Definition sys_unlink : M sys Z :=
  r <- argstr 0 ;;
  match r with Some path => onfs (unlink path) | None => ret (-1) end.

(** ** Creating and opening *)

(** A new inode below [dp], which is locked. *)
Definition create_new (dp : nat) (name : list Z) (type major minor : Z) : M fss (option nat) :=
  d <- get_inode dp ;;
  ip <- ialloc (i_dev d) type ;;
  ilock ip ;;;
  upd_inode ip (fun p => Inode (i_dev p) (i_inum p) (i_ref p) (i_lock p) (i_valid p) (i_type p) (s16 major) (s16 minor) 1
                               (i_size p) (i_addrs p)) ;;;
  iupdate ip ;;;
  p <- get_inode ip ;;
  (if type =? T_DIR then
     add_nlink 1 dp ;;;
     iupdate dp ;;;
     r1 <- dirlink dev_read dev_write ip [46; 0] (i_inum p) ;;
     r2 <- (if r1 <? 0 then ret (-1) else dirlink dev_read dev_write ip [46; 46; 0] (i_inum d)) ;;
     panic_if (r2 <? 0) "create dots"
   else ret tt) ;;;
  r <- dirlink dev_read dev_write dp name (i_inum p) ;;
  panic_if (r <? 0) "create: dirlink" ;;;
  iunlockput dp ;;;
  ret (Some ip).

(** The inode, locked. *)
Definition create (path : list Z) (type major minor : Z) : M fss (option nat) :=
  r <- nameiparent dev_read path junk ;;
  match r with
  | (None, _) => ret None
  | (Some dp, name) =>
      ilock dp ;;;
      r <- dirlookup dev_read dp name ;;
      match r with
      | Some (ip, _) =>
          iunlockput dp ;;;
          ilock ip ;;;
          p <- get_inode ip ;;
          if (type =? T_FILE) && (i_type p =? T_FILE) then ret (Some ip)
          else iunlockput ip ;;; ret None
      | None => create_new dp name type major minor
      end
  end.

(** The inode to open, locked, inside a transaction; or none, with the transaction over. *)
Definition open_inode (path : list Z) (omode : Z) : M fss (option nat) :=
  on_log begin_op ;;;
  if negb (Z.land omode O_CREATE =? 0) then
    r <- create path T_FILE 0 0 ;;
    match r with
    | None => on_log end_op ;;; ret None
    | Some ip => ret (Some ip)
    end
  else
    r <- namei dev_read path ;;
    match r with
    | None => on_log end_op ;;; ret None
    | Some ip =>
        ilock ip ;;;
        p <- get_inode ip ;;
        if (i_type p =? T_DIR) && negb (omode =? O_RDONLY) then
          iunlockput ip ;;; on_log end_op ;;; ret None
        else ret (Some ip)
    end.

(** A descriptor for a new file, or none. *)
Definition open_file : M sys (option (nat * Z)) :=
  o <- on_files filealloc ;;
  match o with
  | None => ret None
  | Some f =>
      fd <- fdalloc f ;;
      if fd <? 0 then on_files (fileclose f) ;;; ret None else ret (Some (f, fd))
  end.

Definition sys_open : M sys Z :=
  r0 <- argstr 0 ;;
  r1 <- argint 1 ;;
  match r0, r1 with
  | Some path, Some omode =>
      r <- onfs (open_inode path omode) ;;
      match r with
      | None => ret (-1)
      | Some ip =>
          o <- open_file ;;
          match o with
          | None => onfs (iunlockput ip ;;; on_log end_op) ;;; ret (-1)
          | Some (f, fd) =>
              onfs (iunlock ip ;;; on_log end_op) ;;;
              on_files (
                g <- get_file f ;;
                put_file f (mk_file FD_INODE (f_ref g) (Z.land omode O_WRONLY =? 0)
                  (negb (Z.land omode O_WRONLY =? 0) || negb (Z.land omode O_RDWR =? 0)) (f_pipe g) (Z.of_nat ip) 0)) ;;;
              ret fd
          end
      end
  | _, _ => ret (-1)
  end.

(** [sys_mkdir] and [sys_mknod] fetch their arguments inside the transaction. *)
Definition make_node (args : option (list Z * Z * Z)) (type : Z) : M fss Z :=
  on_log begin_op ;;;
  r <- (match args with
        | None => ret None
        | Some (path, major, minor) => create path type major minor
        end) ;;
  match r with
  | None => on_log end_op ;;; ret (-1)
  | Some ip => iunlockput ip ;;; on_log end_op ;;; ret 0
  end.
Definition sys_mkdir : M sys Z :=
  r <- argstr 0 ;;
  onfs (make_node ((fun path => (path, 0, 0)) <$> r) T_DIR).
Definition sys_mknod : M sys Z :=
  r0 <- argstr 0 ;;
  r1 <- argint 1 ;;
  r2 <- argint 2 ;;
  onfs (make_node (match r0, r1, r2 with
                   | Some path, Some major, Some minor => Some (path, s16 major, s16 minor)
                   | _, _, _ => None
                   end) T_DEV).

Definition chdir (path : option (list Z)) : M fss Z :=
  on_log begin_op ;;;
  r <- (match path with None => ret None | Some path => namei dev_read path end) ;;
  match r with
  | None => on_log end_op ;;; ret (-1)
  | Some ip =>
      ilock ip ;;;
      p <- get_inode ip ;;
      if negb (i_type p =? T_DIR) then iunlockput ip ;;; on_log end_op ;;; ret (-1)
      else
        iunlock ip ;;;
        cwd <- gets fs_cwd ;;
        iput cwd ;;;
        on_log end_op ;;;
        modify (fun s => Fss (fs_log s) (fs_sb s) (icache s) ip) ;;;
        ret 0
  end.
Definition sys_chdir : M sys Z := r <- argstr 0 ;; onfs (chdir r).

(** ** Pipes, exec, mappings *)

Definition sys_pipe : M sys Z :=
  rp <- argptr 0 8 ;;
  match rp with
  | None => ret (-1)
  | Some p =>
      o <- on_files pipealloc ;;
      match o with
      | None => ret (-1)
      | Some (rf, wf) =>
          fd0 <- fdalloc rf ;;
          fd1 <- (if fd0 <? 0 then ret (-1) else fdalloc wf) ;;
          if fd1 <? 0 then
            (if 0 <=? fd0 then clear_fd fd0 else ret tt) ;;;
            on_files (fileclose rf) ;;;
            on_files (fileclose wf) ;;;
            ret (-1)
          else poke p (le_bytes 4 fd0) ;;; poke (p + 4) (le_bytes 4 fd1) ;;; ret 0
      end
  end.

(** The loop of [sys_exec]: the argument strings. *)
Fixpoint fetch_args (n : nat) (uargv i : Z) (argv : list (list Z)) : M sys (option (list (list Z))) :=
  match n with
  | O => ret None
  | S n' =>
      r <- fetchint (u32 (uargv + 4 * i)) ;;
      match r with
      | None => ret None
      | Some uarg =>
          if uarg =? 0 then ret (Some argv)
          else
            r <- fetchstr (u32 uarg) ;;
            match r with
            | None => ret None
            | Some a => fetch_args n' uargv (i + 1) (argv ++ [a])
            end
      end
  end.
(** [exec] of exec.c and [ummap] of sys_mmap.c change more of the process than this state has. *)
Definition sys_exec (exec : list Z -> list (list Z) -> M sys Z) : M sys Z :=
  r0 <- argstr 0 ;;
  r1 <- argint 1 ;;
  match r0, r1 with
  | Some path, Some uargv =>
      o <- fetch_args MAXARG (u32 uargv) 0 [] ;;
      match o with None => ret (-1) | Some argv => exec path argv end
  | _, _ => ret (-1)
  end.

Definition MAP_ANON : Z := 4.
Definition sys_mmap (ummap : Z -> Z -> Z -> Z -> Z -> option nat -> M sys Z) : M sys Z :=
  r0 <- argint 0 ;; r1 <- argint 1 ;; r2 <- argint 2 ;; r3 <- argint 3 ;; r5 <- argint 5 ;;
  match r0, r1, r2, r3, r5 with
  | Some addr, Some length, Some prot, Some flags, Some offset =>
      r <- argfd 4 ;;
      match r with
      | None => if Z.land flags MAP_ANON =? 0 then ret (-1) else ummap addr length prot flags offset None
      | Some (_, f) => on_files (filedup f) ;;; ummap addr length prot flags offset (Some f)
      end
  | _, _, _, _, _ => ret (-1)
  end.
End sysfile.

(** [syscall]: the result for [tf->eax]. *)
Definition syscall {S} (syscalls : list (option (M S Z))) (num : Z) : M S Z :=
  if (0 <? num) && (num <? Z.of_nat (length syscalls)) then
    match syscalls !! Z.to_nat num with
    | Some (Some f) => f
    | _ => ret (-1)
    end
  else ret (-1).
