(* ===== verification/FileWrite.v ===== *)
(** * filewrite over the file system

    The loop of [filewrite] in file.c, run on the file system of fs.c and the log: each piece
    is a transaction of its own.  What a whole call does to the file, to the rest of the file
    system and to the disk, the refusal of [writei] past the largest file included. *)

From S2P Require Import Prelude Bytes File Bio Log Recovery CStr Fs FsBlocks FsFile FsRw FsInode FsWrite Sysfile.

(** ** Writes one after the other *)

Lemma write_at_app off a b l :
  0 <= off <= Z.of_nat (length l) ->
  write_at (off + Z.of_nat (length a)) b (write_at off a l) = write_at off (a ++ b) l.
Proof.
  intros Ho. unfold write_at. set (o := Z.to_nat off).
  replace (Z.to_nat (off + Z.of_nat (length a))) with (o + length a)%nat by lia.
  assert (length (take o l) = o) as Ht by (rewrite length_take; lia).
  rewrite (app_assoc (take o l) a (drop _ l)).
  rewrite take_app_le by (rewrite length_app; lia).
  rewrite (take_ge (take o l ++ a)) by (rewrite length_app; lia).
  rewrite drop_app_ge by (rewrite length_app; lia).
  rewrite length_app, Ht, drop_drop, length_app. rewrite <-!app_assoc. do 4 f_equal. lia.
Qed.

Section written.
Context (sb : superblock).

Lemma file_written_nil p V off : sized p V -> 0 <= off <= i_size p -> file_written sb p V p V off [].
Proof.
  intros Hs Ho. split; try done.
  - simpl. rewrite Z.max_l by lia. by destruct p.
  - unfold write_at. simpl. by rewrite Nat.add_0_r, take_drop.
Qed.

Lemma file_written_trans p V p1 V1 p2 V2 off a b : 0 <= i_size p -> 0 <= off <= i_size p ->
  file_written sb p V p1 V1 off a -> file_written sb p1 V1 p2 V2 (off + Z.of_nat (length a)) b ->
  file_written sb p V p2 V2 off (a ++ b).
Proof.
  intros Hsz Ho [A1 A2 A3 A4 A5 A6] [B1 B2 B3 B4 B5 B6].
  assert (E : i_size p1 = Z.max (i_size p) (off + Z.of_nat (length a))) by (by rewrite A1).
  assert (En : i_inum p1 = i_inum p) by (by rewrite A1). split.
  - rewrite B1, E, length_app. rewrite A1 at 1.
    replace (off + Z.of_nat (length a + length b)) with (off + Z.of_nat (length a) + Z.of_nat (length b)) by lia.
    replace (Z.max (Z.max (i_size p) (off + Z.of_nat (length a))) (off + Z.of_nat (length a) + Z.of_nat (length b)))
      with (Z.max (i_size p) (off + Z.of_nat (length a) + Z.of_nat (length b))) by lia. done.
  - done.
  - rewrite B3, A3. apply write_at_app. rewrite length_contents by done. lia.
  - auto.
  - intros q Hq Hqs Hd. destruct (A5 q Hq Hqs Hd) as (Hq1 & Hc1 & Hd1).
    destruct (B5 q Hq1 Hqs Hd1) as (Hq2 & Hc2 & Hd2). split_and!; [done|by rewrite Hc2|done].
  - intros q Hq Hne Hdq. apply B6; [done|by rewrite En|]. by apply A6.
Qed.
End written.

(** Two stretches of disk writes, the second after the first. *)
Lemma crash_safe_app d ws1 ws2 C : crash_safe d ws1 C -> crash_safe (apply_writes ws1 d) ws2 C ->
  crash_safe d (ws1 ++ ws2) C.
Proof.
  intros H1 H2 k pid. destruct (Nat.le_gt_cases k (length ws1)) as [Hk|Hk].
  - rewrite take_app_le by lia. apply H1.
  - rewrite take_app_ge by lia. rewrite apply_writes_app. apply H2.
Qed.

Lemma quiescent_crash s i p : file_at s i p ->
  crash_safe (disk (st_bio (fs_log s))) [] (agree (fs_sb s) (view s)).
Proof.
  intros [Hq _ Hg _ _ _ _ _ _ _ _ _ _ _]. pose proof Hq as (Hi & Hn & _).
  assert (Hr : crash_atomic (st_log (fs_log s)) [] (disk (st_bio (fs_log s))) (dview (disk (st_bio (fs_log s))))
    (dview (disk (st_bio (fs_log s))))).
  { apply (crash_atomic_intro _ (st_log (fs_log s))); [done|]. intros k. left. rewrite take_nil. simpl.
    destruct (lv_empty _ Hi) as (hb & ? & ?). by eapply recoverable_empty; [apply Hi|..]. }
  intros k pid. eapply wp_mono; [apply (Hr k pid)|]. intros [] l [Hl HV]. split; [done|].
  apply (home_agree _ (fs_log s)); [done|]. intros m Hm. transitivity (dview (disk (st_bio (fs_log s))) m).
  - by destruct HV as [HV|HV]; apply HV.
  - exact (eq_sym (quiescent_view _ m Hq)).
Qed.

(** ** A write past the largest file *)

Section calls.
Context (dev_write : Z -> option (nat -> list Z -> Z -> M fss Z)).

Lemma write_call_refused s i p src off n : file_at s i p -> 0 <= off <= i_size p -> 0 <= n ->
  MAXFILE * 512 < off + n < 2 ^ 32 ->
  wp (write_call dev_write i src off n) (fun r s' => r = -1 /\ exists ws,
    file_at s' i p /\ fs_sb s' = fs_sb s /\ file_written (fs_sb s) p (view s) p (view s') off [] /\
    disk (st_bio (fs_log s')) = apply_writes ws (disk (st_bio (fs_log s))) /\
    writes (st_bio (fs_log s')) = writes (st_bio (fs_log s)) ++ ws /\
    agree (fs_sb s) (view s) (view s') /\
    crash_safe (disk (st_bio (fs_log s))) ws (fun V => agree (fs_sb s) (view s) V)) s.
Proof.
  intros Ha Ho Hn Hm. pose proof Ha as [Hq Hls Hg _ _ Hip _ (Href & Hv & Hl) Hty Hin _ _ Hsz _].
  set (F := {[sb_bmapstart (fs_sb s)]} : gset Z).
  assert (HF : (size F <= LIM)%nat) by (unfold F; rewrite size_singleton; unfold LIM; lia).
  assert (Hs : fstate F (opened s) i p) by (apply file_at_fstate; [done|done|set_solver]).
  unfold write_call. apply wp_bind, wp_zoom. eapply wp_run; [by apply begin_op_quiescent|]. fold (opened s).
  apply wp_bind. eapply wp_mono; [apply (ilock_cached (opened s) i p); [apply Hs|done|done|by rewrite Hl]|].
  intros [] s0 E0. set (x := SleepLock true (mypid (st_bio (fs_log (opened s))))) in *. set (q := set_ilock x p).
  assert (Hs0 : fstate F s0 i q) by (subst s0; by apply fstate_lock).
  assert (Ew : wp (writei dev_write i src off n) (fun r s' => r = -1 /\ s' = s0) s0).
  { unfold writei. eapply wp_get_inode; [apply Hs0|]. change (i_type q) with (i_type p). change (i_size q) with (i_size p).
    rewrite (proj2 (Z.eqb_neq _ _)) by done. rewrite u32_small by lia.
    rewrite (proj2 (Z.ltb_ge (i_size p) off)), (proj2 (Z.ltb_ge (off + n) off)) by lia. cbn [orb].
    rewrite (proj2 (Z.ltb_lt _ _)) by (change (Z.of_nat BSIZE) with 512; lia). by apply wp_ret. }
  apply wp_bind. eapply wp_mono; [exact Ew|]. intros r ? [-> ->]. apply wp_bind.
  eapply wp_mono; [apply (iunlock_held s0 i q); [apply Hs0|done|by rewrite E0]|]. intros [] s1 E1.
  assert (Eq : set_ilock (SleepLock false 0) q = p) by (rewrite <-Hl; by destruct p).
  assert (Hs1 : fstate F s1 i p) by (rewrite E1, <-Eq; by apply fstate_lock).
  assert (Hd1 : fs_log s1 = fs_log (opened s)) by (by rewrite E1, E0).
  apply wp_bind. eapply wp_mono; [apply (end_op_closes F s1); [apply Hs1|apply Hs1|by rewrite Hd1|by rewrite Hd1; apply Hq]|].
  intros [] s2 [ws Hcl]. apply wp_ret. split; [done|]. exists ws.
  assert (Esb : fs_sb s1 = fs_sb s) by (by rewrite E1, E0). assert (Ev : view s1 = view s) by (unfold view; by rewrite Hd1).
  destruct (written_file_at F s s1 s2 i p p off [] ws) as [Ha2 Hw2]; try done.
  { by rewrite Hd1. }
  { rewrite Ev. by apply file_written_nil. }
  split_and!; [done|by rewrite (cl_log _ _ _ Hcl)|done|by rewrite (cl_disk _ _ _ Hcl), Hd1|by rewrite (cl_writes _ _ _ Hcl), Hd1|by rewrite <-Esb, <-Ev; apply (cl_view _ _ _ Hcl)|].
  pose proof (cl_crash _ _ _ Hcl) as Hcr. rewrite Hd1, Esb, Ev in Hcr. eapply crash_safe_mono; [exact Hcr|].
  intros V [HV|HV]; [|done]. intros m Hm'. rewrite HV by done. exact (eq_sym (quiescent_view _ m Hq)).
Qed.

(** ** The loop *)

Context {P : Type} {pipes : PipeServices P} (dev_read : Z -> option (nat -> Z -> M fss (Z * list Z))).
#[local] Instance services : FileServices (kenv (P := P)) := kenv_services dev_read dev_write.
Abbreviation fst_ := (fst_ (E := kenv (P := P))).

(** The file system under the file table. *)
Definition fs_of (s : fst_) : fss := k_fs (fenv s).
Definition with_fs (t : fss) (s : fst_) : fst_ := set_fenv (set_k_fs t (fenv s)) s.

(** A round of the loop is a [write_call], with the offset advanced. *)
Definition advanced (fi : nat) (f : file) (r : Z) (s : fst_) : fst_ :=
  if 0 <? r then set_ftable (<[fi := set_off (u32 (f_off f + r)) f]> (ftable s)) s else s.

Lemma wp_fs {A} (m : M fss A) (Q : A -> fst_ -> Prop) s :
  wp m (fun a t => Q a (with_fs t s)) (fs_of s) -> wp (srv (in_fs m)) Q s.
Proof. intros H. by apply wp_zoom, wp_zoom. Qed.

Lemma write_round_call fi addr n k s f (Q : Z -> fss -> Prop) : k < n -> ftable s !! fi = Some f ->
  let n1 := if max_chunk <? n - k then max_chunk else n - k in
  wp (write_call dev_write (Z.to_nat (f_ip f)) (drop (Z.to_nat k) addr) (f_off f) n1) Q (fs_of s) ->
  (forall r t, Q r t -> r < 0 \/ 0 <= r /\ r = n1) ->
  wp (write_round fi addr n k) (fun x s' => exists r t, Q r t /\ s' = with_fs t (advanced fi f r s) /\
    x = if r <? 0 then inr k else inl (k + r)) s.
Proof.
  intros Hk Hf n1 Hw Hr. unfold write_round. rewrite (proj2 (Z.ltb_lt k n)) by done. fold n1.
  apply wp_bind. eapply wp_run; [by apply get_file_run|].
  apply wp_bind, wp_fs. apply wp_bind_inv in Hw. eapply wp_mono; [exact Hw|]. clear Hw. intros [] t1 Hw. cbv beta in *.
  apply wp_bind, wp_fs. apply wp_bind_inv in Hw. eapply wp_mono; [exact Hw|]. clear Hw. intros [] t2 Hw. cbv beta in *.
  apply wp_bind, wp_fs. apply wp_bind_inv in Hw. eapply wp_mono; [exact Hw|]. clear Hw. intros r t3 Hw. cbv beta in *.
  set (s3 := with_fs t3 _). apply wp_bind.
  assert (Hput : wp (if 0 <? r then put_file fi (set_off (u32 (f_off f + r)) f) else ret tt)
    (fun _ s4 => s4 = with_fs t3 (advanced fi f r s)) s3).
  { unfold advanced. destruct (0 <? r); [apply wp_modify|apply wp_ret]; done. }
  eapply wp_mono; [exact Hput|]. clear Hput. intros [] s4 ->.
  apply wp_bind, wp_fs. apply wp_bind_inv in Hw. eapply wp_mono; [exact Hw|]. clear Hw. intros [] t4 Hw. cbv beta in *.
  apply wp_bind, wp_fs. apply wp_bind_inv in Hw. eapply wp_mono; [exact Hw|]. clear Hw. intros [] t5 Hw. cbv beta in *.
  unfold wp in Hw. simpl in Hw. destruct (Hr _ _ Hw) as [H|[H0 H]].
  - rewrite (proj2 (Z.ltb_lt r 0)) by done. apply wp_ret. exists r, t5. split_and!; [done|done|by rewrite (proj2 (Z.ltb_lt r 0))].
  - rewrite (proj2 (Z.ltb_ge r 0)) by done. apply wp_bind, wp_panic_if; [by rewrite H, Z.eqb_refl|]. apply wp_ret.
    exists r, t5. split_and!; [done|done|by rewrite (proj2 (Z.ltb_ge r 0))].
Qed.

(** How much of a write of [n] bytes at [off] is done: all of it, or the whole pieces before
    the one that [writei] refuses. *)
Definition fitting (off n : Z) : Z :=
  if off + n <=? MAXFILE * 512 then n else (MAXFILE * 512 - off) / max_chunk * max_chunk.
Definition pieces (m : Z) : nat := Z.to_nat ((m + max_chunk - 1) / max_chunk).

Lemma fitting_range off n : 0 <= off <= MAXFILE * 512 -> 0 <= n -> 0 <= fitting off n <= n /\ off + fitting off n <= MAXFILE * 512.
Proof.
  intros Ho Hn. unfold fitting. change max_chunk with 1536. destruct (Z.leb_spec (off + n) (MAXFILE * 512)); [lia|].
  pose proof (Z.div_mod (MAXFILE * 512 - off) 1536). pose proof (Z.mod_pos_bound (MAXFILE * 512 - off) 1536).
  pose proof (Z.div_pos (MAXFILE * 512 - off) 1536). lia.
Qed.

(** The next piece fits, or the write stops here. *)
Lemma fitting_next off n k : 0 <= off <= MAXFILE * 512 -> 0 <= k < n -> k <= fitting off n -> k mod max_chunk = 0 \/ k = fitting off n ->
  let n1 := if max_chunk <? n - k then max_chunk else n - k in
  (k < fitting off n /\ k mod max_chunk = 0 /\ k + n1 <= fitting off n /\ ((k + n1) mod max_chunk = 0 \/ k + n1 = fitting off n)) \/
  (k = fitting off n /\ MAXFILE * 512 < off + k + n1).
Proof.
  intros Ho Hk Hm Hmul n1. unfold fitting in *. change max_chunk with 1536 in *. subst n1.
  pose proof (Z.div_mod (MAXFILE * 512 - off) 1536). pose proof (Z.mod_pos_bound (MAXFILE * 512 - off) 1536).
  set (c := (MAXFILE * 512 - off) / 1536) in *.
  pose proof (Z.div_mod k 1536). pose proof (Z.mod_pos_bound k 1536). set (d := k / 1536) in *.
  assert (Hup : forall x, k mod 1536 = 0 -> x = 1536 -> (k + x) mod 1536 = 0).
  { intros x Hz ->. replace (k + 1536) with (k + 1 * 1536) by lia. by rewrite Z_mod_plus_full. }
  destruct (Z.leb_spec (off + n) (MAXFILE * 512)), (Z.ltb_spec 1536 (n - k)).
  - left. destruct Hmul; [|lia]. split_and!; [lia|done|lia|left; by apply Hup].
  - left. destruct Hmul; [|lia]. split_and!; [lia|done|lia|right; lia].
  - destruct (decide (k = c * 1536)); [right; lia|left]. destruct Hmul; [|lia]. split_and!; [lia|done|lia|left; by apply Hup].
  - destruct (decide (k = c * 1536)); [right; lia|left]. destruct Hmul; [|lia]. split_and!; [lia|done|lia|right; lia].
Qed.

Lemma pieces_step k n1 : 0 <= k -> k mod max_chunk = 0 -> 0 < n1 <= max_chunk -> pieces (k + n1) = S (pieces k).
Proof.
  change max_chunk with 1536. intros Hk Hz Hn. unfold pieces. change max_chunk with 1536.
  pose proof (Z.div_mod k 1536). set (d := k / 1536) in *. pose proof (Z.div_pos k 1536 Hk ltac:(lia)).
  rewrite <-(Z.div_unique (k + n1 + 1536 - 1) 1536 (d + 1) (n1 - 1)) by lia.
  rewrite <-(Z.div_unique (k + 1536 - 1) 1536 d 1535) by lia. lia.
Qed.

Lemma pieces_le k m : k <= m -> (pieces k <= pieces m)%nat.
Proof. intros H. unfold pieces. change max_chunk with 1536.
  assert ((k + 1536 - 1) / 1536 <= (m + 1536 - 1) / 1536) by (apply Z.div_le_mono; lia). lia. Qed.

Lemma nblk_chunk off n : 0 <= off -> 0 <= n <= max_chunk -> (nblk off n <= 4)%nat.
Proof.
  change max_chunk with 1536. intros. unfold nblk. destruct (Z.leb_spec n 0); [lia|].
  pose proof (Z.div_mod off 512). pose proof (Z.mod_pos_bound off 512).
  pose proof (Z.div_mod (off + n - 1) 512). pose proof (Z.mod_pos_bound (off + n - 1) 512). lia.
Qed.

(** What is on the disk, and after a crash: whole pieces. *)
Definition some_pieces (sb : superblock) (p : inode) (V : Z -> option (list Z)) (off : Z) (addr : list Z) (m : Z)
    (V' : Z -> option (list Z)) : Prop :=
  exists j q, 0 <= j <= m /\ (j mod max_chunk = 0 \/ j = m) /\
    file_written sb p V q V' off (take (Z.to_nat j) addr).

(** The state after [k] bytes of at most [m]. *)
Record written_upto (s : fst_) (fi : nat) (f : file) (p : inode) (addr : list Z) (m k : Z) (s' : fst_)
    (p' : inode) (ws : list (Z * list Z)) : Prop := Upto {
  up_table : s' = with_fs (fs_of s') (set_ftable (<[fi := set_off (f_off f + k) f]> (ftable s)) s);
  up_file : file_at (fs_of s') (Z.to_nat (f_ip f)) p';
  up_sb : fs_sb (fs_of s') = fs_sb (fs_of s);
  up_written : file_written (fs_sb (fs_of s)) p (view (fs_of s)) p' (view (fs_of s')) (f_off f) (take (Z.to_nat k) addr);
  up_disk : disk (st_bio (fs_log (fs_of s'))) = apply_writes ws (disk (st_bio (fs_log (fs_of s))));
  up_writes : writes (st_bio (fs_log (fs_of s'))) = writes (st_bio (fs_log (fs_of s))) ++ ws;
  up_crash : crash_safe (disk (st_bio (fs_log (fs_of s)))) ws
    (some_pieces (fs_sb (fs_of s)) p (view (fs_of s)) (f_off f) addr m)
}.

Section loop.
Context (s : fst_) (fi : nat) (f : file) (p : inode) (addr : list Z).
#[local] Abbreviation off := (f_off f).
#[local] Abbreviation n := (Z.of_nat (length addr)).
#[local] Abbreviation m := (fitting off n).
#[local] Abbreviation sb := (fs_sb (fs_of s)).
#[local] Abbreviation V0 := (view (fs_of s)).
Hypothesis Hf : ftable s !! fi = Some f.
Hypothesis Hfile : file_at (fs_of s) (Z.to_nat (f_ip f)) p.
Hypothesis Hoff : 0 <= off <= i_size p.
Hypothesis Hn : n < 2 ^ 31.
Hypothesis Hfree : (4 * pieces m + ind_need p <= length (free_list V0 sb))%nat.

Let Hsized : 0 <= i_size p <= MAXFILE * 512.
Proof. apply (fa_sized _ _ _ Hfile). Qed.
Let Hm : 0 <= m <= n /\ off + m <= MAXFILE * 512.
Proof. apply fitting_range; lia. Qed.

Lemma upto_start : written_upto s fi f p addr m 0 s p [].
Proof.
  assert (E : set_off (f_off f + 0) f = f) by (rewrite Z.add_0_r; by destruct f).
  split; rewrite ?app_nil_r; try done.
  - rewrite E, list_insert_id by done. by destruct s as [? [? ?]].
  - apply file_written_nil; [apply Hfile|lia].
  - eapply crash_safe_mono; [by eapply quiescent_crash|]. intros V HV. exists 0, p. split; [lia|]. split; [by left|].
    eapply written_agree; [apply Hfile|exact HV|apply Hfile|apply Hfile|]. apply file_written_nil; [apply Hfile|lia].
Qed.

(** The state of the loop at [k]. *)
Definition loop_inv (k : Z) (s1 : fst_) : Prop :=
  0 <= k <= m /\ (k mod max_chunk = 0 \/ k = m) /\
  exists p1 ws, written_upto s fi f p addr m k s1 p1 ws /\
    (length (free_list V0 sb) + ind_need p1 <= 4 * pieces k + ind_need p + length (free_list (view (fs_of s1)) sb))%nat.

Lemma upto_table k s1 p1 ws : written_upto s fi f p addr m k s1 p1 ws -> ftable s1 !! fi = Some (set_off (off + k) f).
Proof. intros H. rewrite (up_table _ _ _ _ _ _ _ _ _ _ H). apply list_lookup_insert_eq. by eapply lookup_lt_Some. Qed.

Lemma upto_size k s1 p1 ws : 0 <= k <= m -> written_upto s fi f p addr m k s1 p1 ws ->
  off + k <= i_size p1 /\ length (take (Z.to_nat k) addr) = Z.to_nat k.
Proof.
  intros Hk H. assert (length (take (Z.to_nat k) addr) = Z.to_nat k) as El by (rewrite length_take; lia).
  split; [|done]. rewrite (fw_inode _ _ _ _ _ _ _ (up_written _ _ _ _ _ _ _ _ _ _ H)). simpl. lia.
Qed.

(** Another stretch of [a] bytes. *)
Lemma upto_more k a s1 s2 p1 p2 ws1 ws2 : 0 <= k -> 0 <= a -> k + a <= m -> (k mod max_chunk = 0 \/ k = m) ->
  ((k + a) mod max_chunk = 0 \/ k + a = m) ->
  written_upto s fi f p addr m k s1 p1 ws1 ->
  s2 = with_fs (fs_of s2) (advanced fi (set_off (off + k) f) a s1) ->
  file_at (fs_of s2) (Z.to_nat (f_ip f)) p2 -> fs_sb (fs_of s2) = fs_sb (fs_of s1) ->
  file_written sb p1 (view (fs_of s1)) p2 (view (fs_of s2)) (off + k) (take (Z.to_nat a) (drop (Z.to_nat k) addr)) ->
  disk (st_bio (fs_log (fs_of s2))) = apply_writes ws2 (disk (st_bio (fs_log (fs_of s1)))) ->
  writes (st_bio (fs_log (fs_of s2))) = writes (st_bio (fs_log (fs_of s1))) ++ ws2 ->
  crash_safe (disk (st_bio (fs_log (fs_of s1)))) ws2 (fun V => agree sb (view (fs_of s1)) V \/
    file_written sb p1 (view (fs_of s1)) p2 V (off + k) (take (Z.to_nat a) (drop (Z.to_nat k) addr))) ->
  written_upto s fi f p addr m (k + a) s2 p2 (ws1 ++ ws2).
Proof.
  intros Hk Ha Hka Hmul Hmul2 H1 Etab Hfile2 Esb Hw Hd Hws Hc. pose proof (upto_size k s1 p1 ws1 ltac:(lia) H1) as [_ El].
  assert (Eoff : off + k = off + Z.of_nat (length (take (Z.to_nat k) addr))) by (rewrite El; lia).
  assert (Etk : take (Z.to_nat k) addr ++ take (Z.to_nat a) (drop (Z.to_nat k) addr) = take (Z.to_nat (k + a)) addr)
    by (rewrite take_take_drop; f_equal; lia).
  assert (Htrans : forall q V, file_written sb p1 (view (fs_of s1)) q V (off + k) (take (Z.to_nat a) (drop (Z.to_nat k) addr)) ->
    file_written sb p V0 q V off (take (Z.to_nat (k + a)) addr)).
  { intros q V Hq. rewrite <-Etk. eapply file_written_trans; [lia|exact Hoff|apply H1|]. by rewrite <-Eoff. }
  pose proof H1 as [T1 F1 S1 W1 D1 R1 C1]. split.
  - rewrite Etab. unfold advanced. rewrite T1. destruct (Z.ltb_spec 0 a).
    + rewrite u32_small by (cbn [f_off set_off]; change (MAXFILE * 512) with 71680 in *; lia).
      simpl. unfold with_fs, set_fenv, set_ftable, set_k_fs. simpl.
      rewrite list_insert_insert_eq. unfold set_off. simpl. by rewrite Z.add_assoc.
    + replace (k + a) with k by lia. done.
  - done.
  - congruence.
  - by apply Htrans.
  - by rewrite Hd, D1, apply_writes_app.
  - by rewrite Hws, R1, app_assoc.
  - apply crash_safe_app; [done|]. rewrite <-D1. eapply crash_safe_mono; [exact Hc|]. intros V [HV|HV].
    + exists k, p1. split; [lia|]. split; [done|]. rewrite <-S1 in HV.
      eapply (written_agree sb (fs_log (fs_of s1))); [rewrite <-S1; apply F1|by rewrite <-S1|rewrite <-S1; apply F1| |exact W1].
      apply Hfile.
    + exists (k + a), p2. split; [lia|]. split; [done|]. by apply Htrans.
Qed.

Lemma round_keeps k s1 : loop_inv k s1 ->
  wp (write_round fi addr n k) (fun r s2 => match r with
    | inl k' => k < k' /\ loop_inv k' s2
    | inr k' => k' = m /\ loop_inv k' s2
    end) s1.
Proof.
  intros (Hk & Hmul & p1 & ws1 & H1 & Hcnt). destruct (Z.ltb_spec k n) as [Hlt|Hge].
  2:{ unfold write_round. rewrite (proj2 (Z.ltb_ge _ _)) by done. apply wp_ret. split; [lia|]. split; [done|]. split; [done|].
      by exists p1, ws1. }
  pose proof (upto_size k s1 p1 ws1 Hk H1) as [Hsz El]. pose proof (up_file _ _ _ _ _ _ _ _ _ _ H1) as F1.
  pose proof (up_sb _ _ _ _ _ _ _ _ _ _ H1) as S1. pose proof (upto_table k s1 p1 ws1 H1) as Hf1.
  set (n1 := if max_chunk <? n - k then max_chunk else n - k).
  assert (Hn1 : 0 < n1 <= max_chunk /\ n1 <= n - k).
  { unfold n1. change max_chunk with 1536. destruct (Z.ltb_spec 1536 (n - k)); lia. }
  assert (EM : MAXFILE * 512 = 71680) by done.
  pose proof (fitting_next off n k ltac:(lia) ltac:(lia) ltac:(lia) Hmul) as Hnext. cbv zeta in Hnext. fold n1 in Hnext.
  destruct Hnext as [(Hkm & Hz & Hfit & Hmul2)|[-> Hbig]].
  - pose proof (pieces_step k n1 ltac:(lia) Hz ltac:(lia)) as Hps. pose proof (pieces_le (k + n1) m Hfit) as Hple.
    pose proof (nblk_chunk (off + k) n1 ltac:(lia) ltac:(lia)) as Hnb.
    eapply wp_mono; [eapply (write_round_call fi addr n k s1 (set_off (off + k) f)); [done|exact Hf1| |]|].
    + eapply (write_call_spec dev_write (fs_of s1) (Z.to_nat (f_ip f)) p1); [exact F1|simpl; lia|rewrite length_drop; lia|lia|simpl; lia|].
      rewrite S1. fold n1. simpl f_off. lia.
    + intros r t (-> & _). right. lia.
    + cbv beta. fold n1. simpl f_off. intros r s2 (a & t & (-> & p2 & ws2 & F2 & S2 & W2 & R2 & C2 & D2 & Hcnt2) & -> & ->).
      rewrite (proj2 (Z.ltb_ge n1 0)) by lia. split; [lia|]. split; [lia|]. split; [done|]. exists p2, (ws1 ++ ws2).
      rewrite S1 in *. split; [|change (fs_of (with_fs t _)) with t; lia].
      eapply upto_more; [lia|lia|done|done|done|exact H1|done|exact F2|by rewrite S1|exact W2|exact D2|exact R2|exact C2].
  - eapply wp_mono; [eapply (write_round_call fi addr n m s1 (set_off (off + m) f)); [done|exact Hf1| |]|].
    + eapply (write_call_refused (fs_of s1) (Z.to_nat (f_ip f)) p1); [exact F1|simpl; lia|lia|simpl; lia].
    + intros r t (-> & _). by left.
    + cbv beta. simpl f_off. intros r s2 (a & t & (-> & ws2 & F2 & S2 & W2 & D2 & R2 & V2 & C2) & -> & ->).
      simpl. split; [done|]. split; [lia|]. split; [by right|]. exists p1, (ws1 ++ ws2). rewrite S1 in *. split.
      * set (s2 := with_fs t _).
        assert (H2 : written_upto s fi f p addr m (m + 0) s2 p1 (ws1 ++ ws2)); [|by rewrite Z.add_0_r in H2].
        apply (upto_more m 0 s1 s2 p1 p1 ws1 ws2); [lia|lia|lia|by right|right; lia|exact H1|done|exact F2|by rewrite S1|exact W2|exact D2|exact R2|].
        eapply crash_safe_mono; [exact C2|]. intros V HV. by left.
      * change (fs_of (with_fs t _)) with t. rewrite (free_list_ext (view (fs_of s1)) (view t)); [done|].
        intros b Hb. rewrite <-S1 in Hb, V2 |- *. by apply (agree_bit (fa_geo _ _ _ F1) V2).
Qed.

Lemma loop_writes fuel : (Z.to_nat n < fuel)%nat ->
  wp (loop fuel (write_round fi addr n) 0) (fun r s' => r = m /\ loop_inv m s') s.
Proof.
  intros Hfu. apply (wp_loop (fun k s' => 0 <= k <= n /\ loop_inv k s') (fun k => Z.to_nat (n - k))); [lia| |].
  - split; [lia|]. split; [lia|]. split; [by left|]. exists p, []. split; [apply upto_start|lia].
  - intros k s1 [Hk Hinv]. eapply wp_mono; [by apply round_keeps|]. intros [k'|k'] s2.
    + intros [Hlt Hinv']. pose proof Hinv' as (Hk' & _). split; [split; [lia|done]|lia].
    + intros [-> Hinv']. done.
Qed.
End loop.

(** C21: [filewrite] on an open file splits the buffer into pieces of at most 1536 bytes, each
    a transaction of its own on the file system of fs.c, and terminates.  When the file can
    hold them it writes all [n] bytes at the file's offset and returns [n]; otherwise it stops
    at the first piece that [writei] refuses, has written the whole pieces before it and
    returns -1.  Either way the offset is advanced by what was written, the file has those
    bytes and all its others in memory and on the disk, the other files and inodes are as
    they were, and no transaction is left open.  If the machine stops after any prefix of the
    call's disk writes, recovery finds whole pieces: the file with the first [j] bytes, [j] a
    multiple of 1536 or everything written.  Assumed: no other system call is in progress and
    four free blocks are left for every piece and one for the indirect block, so that [balloc]
    does not panic. *)
Theorem filewrite_correct s fi f p addr :
  let n := Z.of_nat (length addr) in let m := fitting (f_off f) n in let sb := fs_sb (fs_of s) in
  ftable s !! fi = Some f -> f_writable f = true -> f_type f = FD_INODE ->
  file_at (fs_of s) (Z.to_nat (f_ip f)) p -> 0 <= f_off f <= i_size p -> n < 2 ^ 31 ->
  (4 * pieces m + ind_need p <= length (free_list (view (fs_of s)) sb))%nat ->
  wp (filewrite fi addr n) (fun r s' => r = (if m =? n then n else -1) /\ exists p' ws,
    s' = with_fs (fs_of s') (set_ftable (<[fi := set_off (f_off f + m) f]> (ftable s)) s) /\
    file_at (fs_of s') (Z.to_nat (f_ip f)) p' /\
    file_written sb p (view (fs_of s)) p' (view (fs_of s')) (f_off f) (take (Z.to_nat m) addr) /\
    writes (st_bio (fs_log (fs_of s'))) = writes (st_bio (fs_log (fs_of s))) ++ ws /\
    crash_safe (disk (st_bio (fs_log (fs_of s)))) ws (some_pieces sb p (view (fs_of s)) (f_off f) addr m)) s.
Proof.
  intros n m sb Hf Hw Ht Hfile Hoff Hn Hfree. unfold filewrite.
  apply wp_bind. eapply wp_run; [by apply get_file_run|]. rewrite Hw, Ht. simpl negb. cbv iota. apply wp_bind.
  eapply wp_mono; [apply (loop_writes s fi f p addr); try done; lia|].
  intros r s' [-> (_ & _ & p' & ws & [T F S W _ R C] & _)]. apply wp_ret. fold n m. split.
  - destruct (Z.eqb_spec m n); [done|done].
  - by exists p', ws.
Qed.
End calls.

(** ** Writing 2000 bytes, in two pieces *)

#[local] Instance no_pipes : PipeServices unit :=
  {| pipe_close _ _ := ret tt; pipe_read _ _ := ret (-1, []); pipe_write _ _ _ := ret (-1); pipe_new := ret 0 |}.
Definition ex_file : file := mk_file FD_INODE 1 true true 0 1 5.
Definition ex_files : fst_ (E := kenv (P := unit)) :=
  mk_fst (<[3%nat := ex_file]> (replicate NFILE zero_file)) (Kenv ex_state tt).
Definition ex_bytes : list Z := replicate 2000 7.

Lemma filewrite_correct_witness :
  wp (filewrite (services := services no_write no_read) 3 ex_bytes 2000) (fun r s' => r = 2000 /\ exists p',
    contents p' (view (fs_of s')) = [1; 2; 3; 4; 5] ++ ex_bytes) ex_files.
Proof.
  eapply wp_mono; [apply (filewrite_correct no_write no_read ex_files 3 ex_file ex_p ex_bytes)|].
  - reflexivity.
  - reflexivity.
  - reflexivity.
  - exact ex_file_at.
  - vm_compute; intuition discriminate.
  - vm_compute; reflexivity.
  - apply Nat.leb_le. vm_compute. reflexivity.
  - intros r s' (-> & p' & ws & _ & _ & Hw & _). split; [reflexivity|]. exists p'.
    rewrite (fw_contents _ _ _ _ _ _ _ Hw). vm_compute. reflexivity.
Defined.

(** A file of 71680 bytes can be no longer. *)
Example full_file_refuses : fitting 71000 2000 = 0 /\ fitting 70000 2000 = 1536.
Proof. by vm_compute. Qed.
