(* ===== verification/SysfileProofs.v ===== *)
(** * System calls on files: arguments and descriptors

    What the kernel takes from the stack of a process lies in the memory of that process.
    The descriptors of the process and the handles of the others are the references that
    file.c counts: every call keeps the two in step, and a call that fails leaves no
    descriptor behind. *)

From S2P Require Import Prelude Bytes File Bio Log CStr Fs Sysfile.

(** ** What holds if a call returns *)

Definition pwp {S A} (m : M S A) (Q : A -> S -> Prop) (s : S) : Prop := forall a s', m s = Ret a s' -> Q a s'.

Section pwp.
Context {S : Type}.
Lemma pwp_ret {A} (a : A) (Q : A -> S -> Prop) s : Q a s -> pwp (ret a) Q s.
Proof. by intros H x s' [= <- <-]. Qed.
Lemma pwp_bind {A B} (m : M S A) (k : A -> M S B) (Q : B -> S -> Prop) s :
  pwp m (fun a s' => pwp (k a) Q s') s -> pwp (bind m k) Q s.
Proof. intros H b s'. unfold bind. destruct (m s) as [a s1| | | |] eqn:E; try done. by apply (H a s1). Qed.
Lemma pwp_mono {A} (m : M S A) (Q Q' : A -> S -> Prop) s : pwp m Q s -> (forall a s', Q a s' -> Q' a s') -> pwp m Q' s.
Proof. intros H HQ a s' E. by apply HQ, H. Qed.
Lemma pwp_gets {A} (f : S -> A) (Q : A -> S -> Prop) s : Q (f s) s -> pwp (gets f) Q s.
Proof. by intros H x s' [= <- <-]. Qed.
Lemma pwp_modify (f : S -> S) (Q : unit -> S -> Prop) s : Q tt (f s) -> pwp (modify f) Q s.
Proof. by intros H x s' [= <- <-]. Qed.
End pwp.

(** ** Arguments *)

Lemma fetchstr_loop_spec bs : match fetchstr_loop bs with
  | Some str => 0 ∉ str /\ exists rest, bs = str ++ (0 :: rest)
  | None => 0 ∉ bs
  end.
Proof.
  induction bs as [|b bs IH]; simpl; [apply not_elem_of_nil|]. destruct (Z.eqb_spec b 0) as [->|Hb].
  - split; [apply not_elem_of_nil|]. by exists bs.
  - destruct (fetchstr_loop bs) as [str|]; simpl.
    + destruct IH as [H0 [rest ->]]. split; [|by exists rest]. apply not_elem_of_cons. by split.
    + apply not_elem_of_cons. by split.
Qed.

Section args.
Context {P : Type} {pipes : PipeServices P}.
Context (dev_read : Z -> option (nat -> Z -> M fss (Z * list Z)))
        (dev_write : Z -> option (nat -> list Z -> Z -> M fss Z)) (junk : list Z).
Abbreviation sys := (sys (P := P)).

(** The memory of a process ends below the kernel. *)
Definition user_sized (s : sys) : Prop := sz s <= 2 ^ 31.

(** The word at [addr], when it is in the memory. *)
Definition word_at (s : sys) (addr : Z) : option Z :=
  if decide (0 <= addr /\ addr + 4 <= sz s) then Some (s32 (get32 addr (u_mem (y_proc s)))) else None.

Lemma fetchint_run addr s : user_sized s -> 0 <= addr < 2 ^ 32 -> fetchint addr s = Ret (word_at s addr) s.
Proof.
  intros Hs Ha. unfold fetchint, word_at, bind, gets, id, ret, user_sized in *. f_equal.
  destruct (Z.leb_spec (sz s) addr) as [H|H]; simpl; [rewrite decide_False by lia; done|].
  rewrite u32_small by lia. destruct (Z.ltb_spec (sz s) (addr + 4)).
  - by rewrite decide_False by lia.
  - by rewrite decide_True by lia.
Qed.

(** Argument [n], on the stack above the return address. *)
Definition arg (s : sys) (n : Z) : option Z := word_at s (u32 (u_esp (y_proc s) + 4 + 4 * n)).

Lemma argint_run n s : user_sized s -> argint n s = Ret (arg s n) s.
Proof. intros Hs. unfold argint, bind at 1, gets, id. apply fetchint_run; [done|]. unfold u32. apply Z.mod_pos_bound. lia. Qed.

Definition ptr_arg (s : sys) (n size : Z) : option Z :=
  i ← arg s n; if decide (0 <= size /\ u32 i < sz s /\ u32 i + size <= sz s) then Some (u32 i) else None.

Lemma argptr_run n size s : user_sized s -> size < 2 ^ 31 -> argptr n size s = Ret (ptr_arg s n size) s.
Proof.
  intros Hs Hsize. unfold argptr, ptr_arg, bind at 1. rewrite argint_run by done. destruct (arg s n) as [i|]; [|done].
  unfold bind, gets, id, ret. f_equal. simpl. assert (0 <= u32 i) by (unfold u32; apply Z.mod_pos_bound; lia).
  unfold user_sized in Hs. destruct (Z.ltb_spec size 0), (Z.leb_spec (sz s) (u32 i)); simpl; try (rewrite decide_False by lia; done).
  rewrite u32_small by lia. destruct (Z.ltb_spec (sz s) (u32 i + size)).
  - by rewrite decide_False by lia.
  - by rewrite decide_True by lia.
Qed.

(** The string whose address is argument [n]. *)
Definition str_arg (s : sys) (n : Z) : option (list Z) :=
  a ← arg s n; if decide (u32 a < sz s) then fetchstr_loop (drop (Z.to_nat (u32 a)) (u_mem (y_proc s))) else None.

Lemma argstr_run n s : user_sized s -> argstr n s = Ret (str_arg s n) s.
Proof.
  intros Hs. unfold argstr, str_arg, bind at 1. rewrite argint_run by done. destruct (arg s n) as [a|]; [|done].
  unfold fetchstr, bind, gets, id, ret. f_equal. simpl. destruct (Z.leb_spec (sz s) (u32 a)).
  - by rewrite decide_False by lia.
  - by rewrite decide_True by lia.
Qed.
End args.

(** ** Descriptors *)

Definition fds (o : list (option nat)) : list nat := omap id o.

Lemma fds_set o fd f : o !! fd = Some None -> fds (<[fd := Some f]> o) ≡ₚ f :: fds o.
Proof.
  intros Hfd. unfold fds. rewrite <-(take_drop_middle o fd None Hfd) at 2. rewrite insert_take_drop by (by eapply lookup_lt_Some).
  rewrite !omap_app. simpl. apply Permutation_sym, Permutation_middle.
Qed.

Lemma fds_clear o fd f : o !! fd = Some (Some f) -> fds o ≡ₚ f :: fds (<[fd := None]> o).
Proof.
  intros Hfd. assert (<[fd := Some f]> (<[fd := None]> o) = o) as E by (by rewrite list_insert_insert_eq, list_insert_id).
  rewrite <-E at 1. apply fds_set, list_lookup_insert_eq. by eapply lookup_lt_Some.
Qed.

Lemma fds_in o fd f : o !! fd = Some (Some f) -> f ∈ fds o.
Proof. intros Hfd. apply list_elem_of_omap. exists (Some f). split; [by eapply list_elem_of_lookup_2|done]. Qed.

Lemma fds_le o : (length (fds o) <= length o)%nat.
Proof. unfold fds. induction o as [|[x|] o IH]; csimpl; cbn [length]; lia. Qed.

Section descriptors.
Context {P : Type} {pipes : PipeServices P}.
Context (dev_read : Z -> option (nat -> Z -> M fss (Z * list Z)))
        (dev_write : Z -> option (nat -> list Z -> Z -> M fss Z)) (junk : list Z).
Abbreviation sys := (sys (P := P)).
Abbreviation fst_ := (fst_ (E := kenv (P := P))).
#[local] Existing Instance kenv_services.
#[local] Instance services : FileServices (kenv (P := P)) := kenv_services dev_read dev_write.

Lemma refs_perm (s : fst_) h h' : h ≡ₚ h' -> refs_ok s h -> refs_ok s h'.
Proof.
  intros Hp (H1 & H2 & H3 & H4). split_and!; [done|by rewrite <-Hp|by rewrite <-Hp|].
  intros i f Hf. destruct (H4 i f Hf) as [Hr Ht]. split; [|done]. rewrite Hr. unfold count. by rewrite Hp.
Qed.

(** The handles are the descriptors of the process and [h], those of others. *)
Definition sys_inv (h : list nat) (s : sys) : Prop :=
  refs_ok (y_files s) (h ++ fds (u_ofile (y_proc s))) /\ length (u_ofile (y_proc s)) = NOFILE /\ Z.of_nat (length h) < 2 ^ 30.

Lemma sys_inv_handles h s : sys_inv h s -> Z.of_nat (length (h ++ fds (u_ofile (y_proc s)))) < 2 ^ 31 - 1.
Proof.
  intros (_ & Hl & Hh). rewrite length_app. pose proof (fds_le (u_ofile (y_proc s))). unfold NOFILE in Hl. lia.
Qed.

(** A step of the file table, the descriptors staying as they are. *)
Lemma files_step h h' s f' : sys_inv h s -> Z.of_nat (length h') < 2 ^ 30 ->
  file_step (y_files s, h ++ fds (u_ofile (y_proc s))) (f', h' ++ fds (u_ofile (y_proc s))) ->
  sys_inv h' (set_files f' s).
Proof. intros (H1 & H2 & _) Hh Hst. split_and!; [|done|done]. by apply (file_step_ok (_, _) (_, _) H1 Hst). Qed.

Lemma on_files_pwp {A} (m : M fst_ A) (Q : A -> sys -> Prop) s :
  (forall a f', m (y_files s) = Ret a f' -> Q a (set_files f' s)) -> pwp (on_files m) Q s.
Proof.
  intros H a s'. unfold on_files, zoom. destruct (m (y_files s)) as [x f'| | | |] eqn:E; try done.
  intros [= <- <-]. by apply H.
Qed.

Definition same_ofile (s s' : sys) : Prop := u_ofile (y_proc s') = u_ofile (y_proc s).

(** What only calls other components. *)
Lemma srv_pwp {A} (m : M (kenv (P := P)) A) h s : sys_inv h s ->
  pwp (on_files (srv m)) (fun _ s' => sys_inv h s' /\ same_ofile s s') s.
Proof.
  intros Hs. apply on_files_pwp. intros a f' E. split; [|done].
  assert (f' = set_fenv (fenv f') (y_files s)) as ->.
  { unfold srv, zoom in E. destruct (m (fenv (y_files s))); try done. by injection E as _ <-. }
  eapply files_step; [exact Hs|apply Hs|]. apply step_env.
Qed.

Lemma onfs_pwp {A} (m : M fss A) h s : sys_inv h s ->
  pwp (onfs m) (fun _ s' => sys_inv h s' /\ same_ofile s s') s.
Proof. apply srv_pwp. Qed.

Lemma filealloc_pwp h s : sys_inv h s -> Z.of_nat (length h) + 1 < 2 ^ 30 ->
  pwp (on_files filealloc) (fun r s' => same_ofile s s' /\
    match r with Some f => sys_inv (f :: h) s' | None => sys_inv h s' end) s.
Proof.
  intros Hs Hh. apply on_files_pwp. intros [f|] f' E; (split; [done|]).
  - eapply files_step; [exact Hs|simpl length; lia|]. by apply step_alloc, sys_inv_handles.
  - destruct (filealloc_run _ _ (proj1 Hs)) as [[E' _]|(i & g & E' & _)]; rewrite E' in E; [|done].
    injection E as <-. by destruct s.
Qed.

Lemma fileclose_pwp f h s : sys_inv (f :: h) s ->
  pwp (on_files (fileclose f)) (fun _ s' => sys_inv h s' /\ same_ofile s s') s.
Proof.
  intros Hs. apply on_files_pwp. intros [] f' E. split; [|done].
  eapply files_step; [exact Hs|destruct Hs as (_ & _ & Hl); simpl in Hl; lia|]. by apply (step_close _ _ []).
Qed.

Lemma filedup_pwp f h s : sys_inv h s -> f ∈ h ++ fds (u_ofile (y_proc s)) -> Z.of_nat (length h) + 1 < 2 ^ 30 ->
  pwp (on_files (filedup f)) (fun _ s' => sys_inv (f :: h) s' /\ same_ofile s s') s.
Proof.
  intros Hs Hf Hh. apply on_files_pwp. intros a f' E. split; [|done].
  destruct (held_file _ _ _ (proj1 Hs) Hf) as (g & Hg & _).
  eapply files_step; [exact Hs|simpl length; lia|]. apply step_dup; [done| |by apply sys_inv_handles].
  rewrite (filedup_run _ _ _ _ (proj1 Hs) Hf Hg) in E |- *. by injection E as _ <-.
Qed.

(** [fdalloc] takes the least free descriptor. *)
Lemma fdalloc_loop_run (s : sys) f : length (u_ofile (y_proc s)) = NOFILE -> forall n fd, (fd + n = NOFILE)%nat ->
  (forall k, (k < fd)%nat -> exists g, u_ofile (y_proc s) !! k = Some (Some g)) ->
  (exists i, fdalloc_loop n fd f s = Ret (Z.of_nat i) (set_ofile (<[i := Some f]> (u_ofile (y_proc s))) s) /\
    u_ofile (y_proc s) !! i = Some None /\ forall k, (k < i)%nat -> exists g, u_ofile (y_proc s) !! k = Some (Some g)) \/
  (fdalloc_loop n fd f s = Ret (-1) s /\ forall k, (k < NOFILE)%nat -> exists g, u_ofile (y_proc s) !! k = Some (Some g)).
Proof.
  intros Hl. induction n as [|n IH]; intros fd Hfd Hk; simpl.
  - right. split; [done|]. intros k Hlt. apply Hk. lia.
  - unfold bind, gets, id, deref. destruct (lookup_lt_is_Some_2 (u_ofile (y_proc s)) fd) as [o Ho]; [lia|]. rewrite Ho. simpl.
    destruct o as [g|].
    + apply IH; [lia|]. intros k Hlt. destruct (decide (k = fd)) as [->|]; [by exists g|apply Hk; lia].
    + left. exists fd. by split.
Qed.

Lemma fdalloc_run (s : sys) f : length (u_ofile (y_proc s)) = NOFILE ->
  (exists i, fdalloc f s = Ret (Z.of_nat i) (set_ofile (<[i := Some f]> (u_ofile (y_proc s))) s) /\
    u_ofile (y_proc s) !! i = Some None /\ forall k, (k < i)%nat -> exists g, u_ofile (y_proc s) !! k = Some (Some g)) \/
  (fdalloc f s = Ret (-1) s /\ forall k, (k < NOFILE)%nat -> exists g, u_ofile (y_proc s) !! k = Some (Some g)).
Proof. intros Hl. apply fdalloc_loop_run; [done|done|]. intros k Hk. lia. Qed.

Lemma fdalloc_pwp f h (s : sys) : sys_inv (f :: h) s ->
  pwp (fdalloc f) (fun r s' => r < 0 /\ s' = s \/
    exists i, r = Z.of_nat i /\ s' = set_ofile (<[i := Some f]> (u_ofile (y_proc s))) s /\ sys_inv h s' /\
      u_ofile (y_proc s) !! i = Some None) s.
Proof.
  intros (H1 & H2 & H3) r s' E. destruct (fdalloc_run s f H2) as [(i & E' & Hi & _)|[E' _]]; rewrite E' in E; injection E as <- <-.
  - right. exists i. split_and!; [done|done| |done]. simpl in H3. split_and!; simpl; [|by rewrite length_insert|lia].
    eapply refs_perm; [|exact H1]. rewrite fds_set by done. simpl. apply Permutation_middle.
  - left. split; [lia|done].
Qed.

Lemma clear_fd_inv h (s : sys) i f : sys_inv h s -> u_ofile (y_proc s) !! i = Some (Some f) -> Z.of_nat (length h) + 1 < 2 ^ 30 ->
  sys_inv (f :: h) (set_ofile (<[i := None]> (u_ofile (y_proc s))) s).
Proof.
  intros (H1 & H2 & H3) Hi Hh. split_and!; simpl; [|by rewrite length_insert|simpl; lia].
  eapply refs_perm; [|exact H1]. rewrite (fds_clear _ _ _ Hi). symmetry. apply Permutation_middle.
Qed.

(** ** Reads and writes keep the references *)

Lemma srv_refs {A} (m : M (kenv (P := P)) A) i g h (t : fst_) : refs_ok t h -> ftable t !! i = Some g ->
  pwp (srv m) (fun _ t' => refs_ok t' h /\ ftable t' !! i = Some g) t.
Proof.
  intros Ht Hg a t' E. pose proof (srv_Ret _ _ _ _ E) as Ef. rewrite Ef. split; [|done].
  unfold refs_ok in *. by rewrite Ef.
Qed.

Lemma srv_refs_bind {A B} (m : M (kenv (P := P)) A) (k : A -> M fst_ B) i g h (t : fst_) Q :
  refs_ok t h -> ftable t !! i = Some g -> (forall a t', refs_ok t' h -> ftable t' !! i = Some g -> pwp (k a) Q t') ->
  pwp (a <- srv m ;; k a) Q t.
Proof. intros Ht Hg Hk. apply pwp_bind. eapply pwp_mono; [by apply srv_refs|]. intros a t' [H1 H2]. by apply Hk. Qed.

Lemma put_refs i g g' h (t : fst_) : refs_ok t h -> i ∈ h -> ftable t !! i = Some g -> f_ref g' = f_ref g ->
  pwp (put_file i g') (fun _ t' => refs_ok t' h /\ ftable t' !! i = Some g') t.
Proof.
  intros Ht Hi Hg Hr. apply pwp_modify. split.
  - apply (file_step_ok (t, h) (_, h) Ht). by eapply step_fill.
  - simpl. apply list_lookup_insert_eq. by eapply lookup_lt_Some.
Qed.

Lemma get_file_pwp {B} i g h (t : fst_) (k : file -> M fst_ B) Q : refs_ok t h -> ftable t !! i = Some g ->
  pwp (k g) Q t -> pwp (f <- get_file i ;; k f) Q t.
Proof. intros Ht Hg Hk. apply pwp_bind. intros a t' E. rewrite (get_file_run _ _ _ Hg) in E. by injection E as <- <-. Qed.

Lemma advance_refs i g x b h (t : fst_) : refs_ok t h -> i ∈ h -> ftable t !! i = Some g ->
  pwp (if (b : bool) then put_file i (set_off x g) else ret tt) (fun _ t' => exists g', refs_ok t' h /\ ftable t' !! i = Some g') t.
Proof.
  intros Ht Hi Hg. destruct b; [|apply pwp_ret; by exists g]. eapply pwp_mono; [by apply (put_refs i g)|]. intros [] t' H. by eexists.
Qed.

Lemma fileread_refs i n h (t : fst_) : refs_ok t h -> i ∈ h -> pwp (fileread i n) (fun _ t' => refs_ok t' h) t.
Proof.
  intros Ht Hi. destruct (held_file _ _ _ Ht Hi) as (g & Hg & _). unfold fileread. eapply get_file_pwp; [done..|].
  destruct (f_readable g); simpl; [|by apply pwp_ret]. destruct (f_type g).
  - by intros a t' E.
  - eapply pwp_mono; [by apply srv_refs|]. by intros a t' [? _].
  - eapply srv_refs_bind; [done..|]. intros [] t1 H1 G1. simpl.
    eapply srv_refs_bind; [done..|]. intros r t2 H2 G2. simpl.
    apply pwp_bind. eapply pwp_mono; [by apply advance_refs|]. intros [] t3 (g' & H3 & G3). eapply srv_refs_bind; [done..|]. intros [] t4 H4 _. by apply pwp_ret.
Qed.

Lemma write_round_refs i addr n k h (t : fst_) : refs_ok t h -> i ∈ h ->
  pwp (write_round i addr n k) (fun _ t' => refs_ok t' h) t.
Proof.
  intros Ht Hi. destruct (held_file _ _ _ Ht Hi) as (g & Hg & _). unfold write_round.
  destruct (k <? n); [|by apply pwp_ret]. eapply get_file_pwp; [done..|].
  eapply srv_refs_bind; [done..|]. intros [] t0 H0 G0. simpl.
  eapply srv_refs_bind; [done..|]. intros [] t1 H1 G1. simpl.
  eapply srv_refs_bind; [done..|]. intros r t2 H2 G2. simpl.
  apply pwp_bind. eapply pwp_mono; [by apply advance_refs|]. intros [] t3 (g' & H3 & G3).
  eapply srv_refs_bind; [done..|]. intros [] t4 H4 G4. simpl.
  eapply srv_refs_bind; [done..|]. intros [] t5 H5 G5. simpl.
  destruct (r <? 0); [by apply pwp_ret|]. apply pwp_bind. intros [] t' E. unfold panic_if in E.
  destruct (negb _); [done|]. injection E as <-. by apply pwp_ret.
Qed.

Lemma filewrite_refs i addr n h (t : fst_) : refs_ok t h -> i ∈ h -> pwp (filewrite i addr n) (fun _ t' => refs_ok t' h) t.
Proof.
  intros Ht Hi. destruct (held_file _ _ _ Ht Hi) as (g & Hg & _). unfold filewrite. eapply get_file_pwp; [done..|].
  destruct (f_writable g); simpl; [|by apply pwp_ret]. destruct (f_type g).
  - by intros a t' E.
  - eapply pwp_mono; [by apply srv_refs|]. by intros a t' [? _].
  - apply pwp_bind. assert (forall fuel k u, refs_ok u h -> pwp (loop fuel (write_round i addr n) k) (fun _ t' => refs_ok t' h) u) as Hloop.
    { induction fuel as [|fuel IH]; intros k u Hu; [by intros a t' E|]. simpl. apply pwp_bind.
      eapply pwp_mono; [by apply write_round_refs|]. intros [x|x] u' Hu'; [by apply IH|by apply pwp_ret]. }
    eapply pwp_mono; [apply (Hloop (S (Z.to_nat n)) 0 t Ht)|]. intros k t' H'. by apply pwp_ret.
Qed.

Lemma filestat_refs i h (t : fst_) : refs_ok t h -> i ∈ h -> pwp (filestat i) (fun _ t' => refs_ok t' h) t.
Proof.
  intros Ht Hi. destruct (held_file _ _ _ Ht Hi) as (g & Hg & _). unfold filestat. eapply get_file_pwp; [done..|].
  destruct (f_type g); [by apply pwp_ret..|].
  eapply srv_refs_bind; [done..|]. intros [] t0 H0 G0. simpl.
  eapply srv_refs_bind; [done..|]. intros st t1 H1 G1. simpl.
  eapply srv_refs_bind; [done..|]. intros [] t2 H2 G2. by apply pwp_ret.
Qed.

(** ** The calls *)

(** What a call keeps. *)
Definition call_ok (h : list nat) (s : sys) (r : Z) (s' : sys) : Prop := sys_inv h s' /\ (r < 0 -> same_ofile s s').

Definition fd_arg (s : sys) (n : Z) : option (Z * nat) :=
  fd ← arg s n; if decide (0 <= fd < Z.of_nat NOFILE) then
    match u_ofile (y_proc s) !! Z.to_nat fd with Some (Some f) => Some (fd, f) | _ => None end
  else None.

Lemma argfd_run n s : user_sized s -> argfd n s = Ret (fd_arg s n) s.
Proof.
  intros Hs. unfold argfd, fd_arg, bind at 1. rewrite argint_run by done. destruct (arg s n) as [fd|]; [|done].
  unfold bind, gets, id, ret. f_equal. cbn [mbind option_bind]. destruct (Z.ltb_spec fd 0); cbn [orb]; [by rewrite decide_False by lia|].
  destruct (Z.leb_spec (Z.of_nat NOFILE) fd); [by rewrite decide_False by lia|by rewrite decide_True by lia].
Qed.

Lemma fd_arg_Some s n fd f : fd_arg s n = Some (fd, f) -> 0 <= fd /\ u_ofile (y_proc s) !! Z.to_nat fd = Some (Some f).
Proof.
  unfold fd_arg. destruct (arg s n) as [x|]; [|done]. simpl. case_decide; [|done].
  destruct (u_ofile (y_proc s) !! Z.to_nat x) as [[g|]|] eqn:E; try done. intros [= <- <-]. split; [lia|done].
Qed.

(** A step that only reads the state. *)
Lemma pwp_pure {A B} (m : M sys A) (a : A) (k : A -> M sys B) Q s : m s = Ret a s -> pwp (k a) Q s -> pwp (x <- m ;; k x) Q s.
Proof. intros E Hk. apply pwp_bind. intros x s' E'. rewrite E in E'. by injection E' as <- <-. Qed.

Lemma argptr_same n size (s : sys) : user_sized s -> pwp (argptr n size) (fun _ s' => s' = s) s.
Proof.
  intros Hu rp s1 E. unfold argptr, bind at 1 in E. rewrite argint_run in E by done. destruct (arg s n); by injection E.
Qed.

Lemma fail_ok h s : sys_inv h s -> pwp (ret (-1)) (call_ok h s) s.
Proof. intros Hs. by apply pwp_ret. Qed.

Lemma held_fd h s n fd f : fd_arg s n = Some (fd, f) -> f ∈ h ++ fds (u_ofile (y_proc s)).
Proof. intros [_ Hf]%fd_arg_Some. apply elem_of_app. right. by eapply fds_in. Qed.

Lemma sys_inv_files h s f' : sys_inv h s -> refs_ok f' (h ++ fds (u_ofile (y_proc s))) -> sys_inv h (set_files f' s).
Proof. intros (_ & H2 & H3) H1. by split_and!. Qed.

Lemma set_mem_inv h s x : sys_inv h s -> sys_inv h (set_mem x s).
Proof. by intros (? & ? & ?). Qed.

(** A call of file.c on an open file. *)
Lemma file_call {A} (m : M fst_ A) h s : sys_inv h s ->
  (forall t H, refs_ok t H -> h ++ fds (u_ofile (y_proc s)) = H -> pwp m (fun _ t' => refs_ok t' H) t) ->
  pwp (on_files m) (fun _ s' => sys_inv h s' /\ same_ofile s s') s.
Proof.
  intros Hs Hm. apply on_files_pwp. intros a f' E. split; [|done]. apply sys_inv_files; [done|].
  eapply Hm; [apply Hs|done|exact E].
Qed.

Lemma sys_dup_ok h s : user_sized s -> sys_inv h s -> Z.of_nat (length h) + 3 < 2 ^ 30 -> pwp (sys_dup) (call_ok h s) s.
Proof.
  intros Hu Hs Hh. unfold sys_dup. eapply pwp_pure; [by apply argfd_run|].
  destruct (fd_arg s 0) as [[fd f]|] eqn:Ef; [|by apply fail_ok]. pose proof (held_fd h _ _ _ _ Ef) as Hf.
  apply pwp_bind. intros r s1 E. destruct (fdalloc_run s f (proj1 (proj2 Hs))) as [(i & E' & Hi & _)|[E' _]]; rewrite E' in E; injection E as <- <-.
  - rewrite (proj2 (Z.ltb_ge _ _)) by lia. apply pwp_bind. apply on_files_pwp. intros a f' E. apply pwp_ret. split; [|lia].
    pose proof (filedup_pwp f h s Hs Hf ltac:(lia) a (set_files f' s)) as H. destruct H as [(H1 & H2 & H3) _].
    { unfold on_files, zoom. change (y_files s) with (y_files (set_ofile (<[i:=Some f]> (u_ofile (y_proc s))) s)). by rewrite E. }
    split_and!; simpl; [|by rewrite length_insert|apply Hs]. eapply refs_perm; [|exact H1]. simpl. rewrite fds_set by done. apply Permutation_middle.
  - by apply fail_ok.
Qed.

Lemma sys_close_ok h s : user_sized s -> sys_inv h s -> Z.of_nat (length h) + 3 < 2 ^ 30 -> pwp (sys_close dev_read dev_write) (call_ok h s) s.
Proof.
  intros Hu Hs Hh. unfold sys_close. eapply pwp_pure; [by apply argfd_run|].
  destruct (fd_arg s 0) as [[fd f]|] eqn:Ef; [|by apply fail_ok]. apply fd_arg_Some in Ef as [_ Ef].
  apply pwp_bind, pwp_modify, pwp_bind. eapply pwp_mono; [apply (fileclose_pwp f h); apply clear_fd_inv; [done|done|lia]|].
  intros [] s' [H _]. apply pwp_ret. split; [done|lia].
Qed.

Lemma sys_read_ok h s : user_sized s -> sys_inv h s -> pwp (sys_read dev_read dev_write) (call_ok h s) s.
Proof.
  intros Hu Hs. unfold sys_read. eapply pwp_pure; [by apply argfd_run|]. eapply pwp_pure; [by apply argint_run|].
  destruct (fd_arg s 0) as [[fd f]|] eqn:Ef; [|by apply fail_ok]. pose proof (held_fd h _ _ _ _ Ef) as Hf.
  destruct (arg s 2) as [n|] eqn:En; [|by apply fail_ok].
  apply pwp_bind. eapply pwp_mono; [by apply argptr_same|]. intros rp s1 ->.
  destruct rp as [p|]; [|by apply fail_ok].
  apply pwp_bind. eapply pwp_mono; [apply (file_call _ h s Hs)|].
  { intros t H Ht EH. apply fileread_refs; [done|by rewrite <-EH]. }
  intros r s1 [H1 H2]. apply pwp_bind, pwp_modify, pwp_ret. split; [by apply set_mem_inv|]. intros _. exact H2.
Qed.

Lemma sys_write_ok h s : user_sized s -> sys_inv h s -> pwp (sys_write dev_read dev_write) (call_ok h s) s.
Proof.
  intros Hu Hs. unfold sys_write. eapply pwp_pure; [by apply argfd_run|]. eapply pwp_pure; [by apply argint_run|].
  destruct (fd_arg s 0) as [[fd f]|] eqn:Ef; [|by apply fail_ok]. pose proof (held_fd h _ _ _ _ Ef) as Hf.
  destruct (arg s 2) as [n|] eqn:En; [|by apply fail_ok].
  apply pwp_bind. eapply pwp_mono; [by apply argptr_same|]. intros rp s1 ->.
  destruct rp as [p|]; [|by apply fail_ok]. apply pwp_bind, pwp_gets. eapply pwp_mono; [apply (file_call _ h s Hs)|].
  { intros t H Ht EH. apply filewrite_refs; [done|by rewrite <-EH]. }
  intros r s1 [H1 H2]. by split.
Qed.

Lemma sys_fstat_ok h s : user_sized s -> sys_inv h s -> pwp (sys_fstat dev_read dev_write) (call_ok h s) s.
Proof.
  intros Hu Hs. unfold sys_fstat. eapply pwp_pure; [by apply argfd_run|].
  apply pwp_bind. eapply pwp_mono; [by apply argptr_same|]. intros rp s1 ->.
  destruct (fd_arg s 0) as [[fd f]|] eqn:Ef; [|by apply fail_ok]. pose proof (held_fd h _ _ _ _ Ef) as Hf.
  destruct rp as [p|]; [|by apply fail_ok]. apply pwp_bind. eapply pwp_mono; [apply (file_call _ h s Hs)|].
  { intros t H Ht EH. apply filestat_refs; [done|by rewrite <-EH]. }
  intros [st|] s1 [H1 H2]; [|apply pwp_ret; by split]. apply pwp_bind, pwp_modify, pwp_ret. split; [by apply set_mem_inv|lia].
Qed.

(** A call that is one computation of fs.c. *)
Lemma fs_only_ok (m : M fss Z) h s : sys_inv h s -> pwp (onfs m) (call_ok h s) s.
Proof. intros Hs. eapply pwp_mono; [by apply (onfs_pwp m h)|]. intros r s' [H1 H2]. by split. Qed.

Lemma open_file_ok h s : sys_inv h s -> Z.of_nat (length h) + 3 < 2 ^ 30 ->
  pwp (open_file dev_read dev_write) (fun o s' => match o with
    | None => sys_inv h s' /\ same_ofile s s'
    | Some (f, fd) => sys_inv h s' /\ 0 <= fd /\ f ∈ fds (u_ofile (y_proc s'))
    end) s.
Proof.
  intros Hs Hh. unfold open_file. apply pwp_bind. eapply pwp_mono; [apply (filealloc_pwp h s Hs); lia|].
  intros [f|] s1 [H1 H2]; [|apply pwp_ret; by split].
  apply pwp_bind. eapply pwp_mono; [by apply fdalloc_pwp|]. intros fd s2 [[Hneg ->]|(i & -> & -> & H3 & Hi)].
  - rewrite (proj2 (Z.ltb_lt _ _)) by done. apply pwp_bind. eapply pwp_mono; [by apply fileclose_pwp|].
    intros [] s2 [H3 H4]. apply pwp_ret. split; [done|]. unfold same_ofile in *. congruence.
  - rewrite (proj2 (Z.ltb_ge _ _)) by lia. apply pwp_ret. split_and!; [done|lia|]. simpl.
    apply (fds_in _ i). apply list_lookup_insert_eq. by eapply lookup_lt_Some.
Qed.

Lemma sys_open_ok h s : user_sized s -> sys_inv h s -> Z.of_nat (length h) + 3 < 2 ^ 30 ->
  pwp (sys_open dev_read dev_write junk) (call_ok h s) s.
Proof.
  intros Hu Hs Hh. unfold sys_open. eapply pwp_pure; [by apply argstr_run|]. eapply pwp_pure; [by apply argint_run|].
  destruct (str_arg s 0) as [path|]; [|by apply fail_ok]. destruct (arg s 1) as [omode|]; [|by apply fail_ok].
  apply pwp_bind. eapply pwp_mono; [by apply (onfs_pwp _ h)|]. intros [ip|] s1 [H1 E1]; [|apply pwp_ret; by split].
  apply pwp_bind. eapply pwp_mono; [by apply open_file_ok|]. intros [[f fd]|] s2.
  - intros (H2 & Hfd & Hf). apply pwp_bind. eapply pwp_mono; [by apply (onfs_pwp _ h)|]. intros [] s3 [H3 E3].
    apply pwp_bind. assert (Hf3 : f ∈ h ++ fds (u_ofile (y_proc s3))) by (rewrite E3; apply elem_of_app; by right).
    eapply pwp_mono; [apply (file_call _ h s3 H3)|].
    { intros t H Ht EH. destruct (held_file _ _ _ Ht ltac:(by rewrite <-EH)) as (g & Hg & _). eapply get_file_pwp; [done..|].
      eapply pwp_mono; [apply (put_refs f g); [done|by rewrite <-EH|done|done]|]. by intros [] t' [? _]. }
    intros [] s4 [H4 E4]. apply pwp_ret. split; [done|lia].
  - intros [H2 E2]. apply pwp_bind. eapply pwp_mono; [by apply (onfs_pwp _ h)|]. intros [] s3 [H3 E3]. apply pwp_ret.
    split; [done|]. intros _. unfold same_ofile in *. congruence.
Qed.

Lemma filealloc_refs h (t : fst_) : refs_ok t h -> Z.of_nat (length h) < 2 ^ 31 - 1 ->
  pwp filealloc (fun r t' => match r with Some f => refs_ok t' (f :: h) | None => refs_ok t' h end) t.
Proof.
  intros Ht Hl [f|] t' E.
  - apply (file_step_ok (t, h) (t', f :: h) Ht). by apply step_alloc.
  - destruct (filealloc_run _ _ Ht) as [[E' _]|(i & g & E' & _)]; rewrite E' in E; [|done]. by injection E as <-.
Qed.

Lemma fileclose_refs f h (t : fst_) : refs_ok t (f :: h) -> pwp (fileclose f) (fun _ t' => refs_ok t' h) t.
Proof. intros Ht [] t' E. apply (file_step_ok (t, f :: h) (t', h) Ht). by apply (step_close _ _ []). Qed.

Lemma fill_refs {B} f (upd : file -> file) (k : M fst_ B) Q h (t : fst_) : refs_ok t h -> f ∈ h -> (forall g, f_ref (upd g) = f_ref g) ->
  (forall t', refs_ok t' h -> pwp k Q t') -> pwp (g <- get_file f ;; put_file f (upd g) ;;; k) Q t.
Proof.
  intros Ht Hf Hu Hk. destruct (held_file _ _ _ Ht Hf) as (g & Hg & _). eapply get_file_pwp; [done..|]. apply pwp_bind.
  eapply pwp_mono; [by apply (put_refs f g)|]. intros [] t' [H' _]. by apply Hk.
Qed.

Lemma pipealloc_refs h (t : fst_) : refs_ok t h -> Z.of_nat (length h) + 1 < 2 ^ 31 - 1 ->
  pwp pipealloc (fun r t' => match r with Some (rf, wf) => refs_ok t' (rf :: wf :: h) | None => refs_ok t' h end) t.
Proof.
  intros Ht Hl. unfold pipealloc. apply pwp_bind. eapply pwp_mono; [apply (filealloc_refs h); [done|lia]|].
  intros [f0|] t0 H0; [|by apply pwp_ret].
  apply pwp_bind. eapply pwp_mono; [apply (filealloc_refs (f0 :: h)); [done|simpl length; lia]|].
  intros [f1|] t1 H1.
  - apply pwp_bind. destruct (held_file _ _ f0 H1 ltac:(right; left)) as (g & Hg & _).
    eapply pwp_mono; [by apply (srv_refs _ f0 g)|]. intros p t2 [H2 _].
    assert (H2' : refs_ok t2 (f0 :: f1 :: h)) by (eapply refs_perm; [apply perm_swap|done]).
    destruct (p =? 0).
    + apply pwp_bind. eapply pwp_mono; [by apply fileclose_refs|]. intros [] t3 H3.
      apply pwp_bind. eapply pwp_mono; [by apply fileclose_refs|]. intros [] t4 H4. by apply pwp_ret.
    + eapply (fill_refs f0 (fun a => mk_file FD_PIPE (f_ref a) true false p (f_ip a) (f_off a))); [done|left|done|]. intros t3 H3.
      eapply (fill_refs f1 (fun b => mk_file FD_PIPE (f_ref b) false true p (f_ip b) (f_off b))); [done|right; left|done|].
      intros t4 H4. by apply pwp_ret.
  - apply pwp_bind. eapply pwp_mono; [by apply fileclose_refs|]. intros [] t2 H2. by apply pwp_ret.
Qed.

Lemma pipealloc_sys h s : sys_inv h s -> Z.of_nat (length h) + 3 < 2 ^ 30 ->
  pwp (on_files pipealloc) (fun r s' => same_ofile s s' /\
    match r with Some (rf, wf) => sys_inv (rf :: wf :: h) s' | None => sys_inv h s' end) s.
Proof.
  intros Hs Hh. pose proof (sys_inv_handles _ _ Hs) as Hl. apply on_files_pwp. intros r f' E. split; [done|].
  assert (H : match r with Some (rf, wf) => refs_ok f' (rf :: wf :: h ++ fds (u_ofile (y_proc s))) | None => refs_ok f' (h ++ fds (u_ofile (y_proc s))) end).
  { eapply (pipealloc_refs (h ++ fds (u_ofile (y_proc s)))); [apply Hs| |exact E].
    destruct Hs as (_ & Hlen & _). rewrite length_app. rewrite length_app in Hl.
    pose proof (fds_le (u_ofile (y_proc s))). unfold NOFILE in Hlen. lia. }
  destruct r as [[rf wf]|]; (split_and!; [exact H|apply Hs|]); [simpl length; lia|apply Hs].
Qed.

Lemma sys_pipe_ok h s : user_sized s -> sys_inv h s -> Z.of_nat (length h) + 3 < 2 ^ 30 ->
  pwp (sys_pipe dev_read dev_write) (call_ok h s) s.
Proof.
  intros Hu Hs Hh. unfold sys_pipe. apply pwp_bind. eapply pwp_mono; [by apply argptr_same|]. intros [p|] s0 ->; [|by apply fail_ok].
  apply pwp_bind. eapply pwp_mono; [by apply pipealloc_sys|]. intros [[rf wf]|] s1 [E1 H1]; [|apply pwp_ret; by split].
  assert (Hclose : forall s2, sys_inv (rf :: wf :: h) s2 -> same_ofile s s2 ->
    pwp (on_files (fileclose rf) ;;; on_files (fileclose wf) ;;; ret (-1)) (call_ok h s) s2).
  { intros s2 H2 E2. apply pwp_bind. eapply pwp_mono; [by apply fileclose_pwp|]. intros [] s3 [H3 E3].
    apply pwp_bind. eapply pwp_mono; [by apply fileclose_pwp|]. intros [] s4 [H4 E4]. apply pwp_ret. split; [done|].
    intros _. unfold same_ofile in *. congruence. }
  apply pwp_bind. eapply pwp_mono; [by apply fdalloc_pwp|]. intros fd0 s2 [[Hn ->]|(i & -> & -> & H2 & Hi)].
  - rewrite (proj2 (Z.ltb_lt fd0 0)) by done. apply pwp_bind, pwp_ret. simpl.
    rewrite (proj2 (Z.leb_gt 0 fd0)) by done. apply pwp_bind, pwp_ret. by apply Hclose.
  - rewrite (proj2 (Z.ltb_ge (Z.of_nat i) 0)) by lia. apply pwp_bind.
    eapply pwp_mono; [by apply fdalloc_pwp|]. intros fd1 s3 [[Hn ->]|(j & -> & -> & H3 & Hj)].
    + rewrite (proj2 (Z.ltb_lt fd1 0)), (proj2 (Z.leb_le 0 (Z.of_nat i))) by lia. apply pwp_bind, pwp_modify. rewrite Nat2Z.id. simpl.
      rewrite list_insert_insert_eq. rewrite list_insert_id by done.
      assert (forall s : sys, set_ofile (u_ofile (y_proc s)) (set_ofile (<[i:=Some rf]> (u_ofile (y_proc s))) s) = s) as E by (by intros [? []]).
      apply Hclose.
      * destruct s1 as [? []]. exact H1.
      * exact E1.
    + rewrite (proj2 (Z.ltb_ge (Z.of_nat j) 0)) by lia. apply pwp_bind, pwp_modify, pwp_bind, pwp_modify, pwp_ret.
      split; [by do 2 apply set_mem_inv|lia].
Qed.

(** No descriptor of the process below [fd] is free. *)
Definition full_below (s : sys) (fd : nat) : Prop := forall k, (k < fd)%nat -> exists g, u_ofile (y_proc s) !! k = Some (Some g).

Lemma set_files_id (s : sys) : set_files (y_files s) s = s.
Proof. by destruct s. Qed.
Lemma set_table_id (s : sys) x : let s1 := set_files (set_ftable x (y_files s)) s in
  set_files (set_fenv (fenv (y_files s)) (set_ftable (ftable (y_files s)) (y_files s1))) s1 = s.
Proof. by destruct s as [[] ?]. Qed.

(** A new file in the least free descriptor; without either of them nothing has changed. *)
Lemma open_file_run h s : sys_inv h s ->
  (exists f g fd, open_file dev_read dev_write s = Ret (Some (f, Z.of_nat fd)) (set_ofile (<[fd := Some f]> (u_ofile (y_proc s)))
      (set_files (set_ftable (<[f := set_ref 1 g]> (ftable (y_files s))) (y_files s)) s)) /\
    ftable (y_files s) !! f = Some g /\ f_ref g = 0 /\ u_ofile (y_proc s) !! fd = Some None /\ full_below s fd) \/
  (open_file dev_read dev_write s = Ret None s /\
    ((forall i, (i < NFILE)%nat -> 1 <= count (h ++ fds (u_ofile (y_proc s))) i) \/ full_below s NOFILE)).
Proof.
  intros Hs. pose proof Hs as (Hr & Hl & Hh). set (H := h ++ fds (u_ofile (y_proc s))) in *.
  pose proof (sys_inv_handles _ _ Hs) as Hlen. fold H in Hlen.
  destruct (filealloc_run _ _ Hr) as [[E Hfull]|(f & g & E & Hg & Hc)].
  - right. split; [|by left]. unfold open_file, bind, on_files, zoom. rewrite E. unfold ret. f_equal. apply set_files_id.
  - set (s1 := set_files (set_ftable (<[f:=set_ref 1 g]> (ftable (y_files s))) (y_files s)) s). pose proof (lookup_lt_Some _ _ _ Hg) as Hf.
    destruct (fdalloc_run s1 f Hl) as [(fd & E1 & Hfd & Hb)|[E1 Hb]].
    + left. exists f, g, fd. destruct (proj2 (proj2 (proj2 Hr)) f g Hg) as [Hg0 _].
      split; [|split_and!; [done|lia|done|done]]. unfold open_file, bind, on_files, zoom. rewrite E. fold s1. rewrite E1.
      by rewrite (proj2 (Z.ltb_ge _ _)) by lia.
    + right. split; [|by right]. unfold open_file, bind, on_files, zoom. rewrite E. fold s1. rewrite E1.
      rewrite (proj2 (Z.ltb_lt _ _)) by lia.
      assert (Hr1 : refs_ok (y_files s1) (f :: H)) by (eapply (file_step_ok (_, _) (_, _)); [exact Hr|]; by apply step_alloc).
      rewrite (fileclose_run _ (f :: H) f (set_ref 1 g)); [|done|left|simpl; by rewrite list_lookup_insert_eq].
      rewrite (decide_True (P := count (f :: H) f = 1)) by (rewrite count_cons, decide_True by done; lia). destruct (proj2 (proj2 (proj2 Hr)) f g Hg) as [Hg0 Ht].
      unfold srv, zoom, release. simpl. rewrite Ht by lia. simpl. rewrite list_insert_insert_eq, list_insert_id.
      * unfold ret, s1. f_equal. apply set_table_id.
      * rewrite Hg. f_equal. rewrite Hc in Hg0. specialize (Ht Hg0). destruct g. simpl in *. by subst.
Qed.

(** The system calls of sysfile.c that the process may make, but for [exec] and [mmap]. *)
Inductive file_call_of : M sys Z -> Prop :=
| is_dup : file_call_of sys_dup
| is_read : file_call_of (sys_read dev_read dev_write)
| is_write : file_call_of (sys_write dev_read dev_write)
| is_close : file_call_of (sys_close dev_read dev_write)
| is_fstat : file_call_of (sys_fstat dev_read dev_write)
| is_link : file_call_of (sys_link dev_read dev_write junk)
| is_unlink : file_call_of (sys_unlink dev_read dev_write junk)
| is_open : file_call_of (sys_open dev_read dev_write junk)
| is_mkdir : file_call_of (sys_mkdir dev_read dev_write junk)
| is_mknod : file_call_of (sys_mknod dev_read dev_write junk)
| is_chdir : file_call_of (sys_chdir dev_read)
| is_pipe : file_call_of (sys_pipe dev_read dev_write).
End descriptors.
