(* ===== verification/FileCalls.v ===== *)
(** * System calls on files: theorems

    The arguments stay in the memory of the process, the descriptors in step with the file
    table; and the calls composed through all layers: argument, path, inode cache, log, file
    table and descriptor. *)

From S2P Require Import Prelude Bytes File Bio Log Recovery CStr Fs FsBlocks FsFile FsRw FsInode FsWrite FsDir FsCache FsPath FsRest Sysfile SysfileProofs.

(** ** Looking up a path and locking what it leads to *)

Section lookups.
Context (F : gset Z) (V : Z -> option (list Z)) (sb : superblock).
Context (dev_read : Z -> option (nat -> Z -> M fss (Z * list Z))).
Context (Htree : tree_ok V sb) (Hbits : bits_ok V sb).
Context (Hbmap : forall b, 0 <= b < sb_size sb -> bblock sb b ∈ F).

Definition dir_refused (m omode : Z) : bool := (i_type (dnode V sb m) =? T_DIR) && negb (omode =? O_RDONLY).

Lemma open_inode_spec hi t path n omode dev_write junk : can_resolve F V sb hi t path n -> Z.land omode O_CREATE = 0 ->
  wp (open_inode dev_read dev_write junk path omode) (fun r t' => keeps hi t t' /\ match walk V sb false n (elems path) with
    | None => r = None /\ fs_rest F V sb hi t'
    | Some m => if dir_refused m omode then r = None /\ fs_rest F V sb hi t'
        else exists j, r = Some j /\ fsys_ok F V sb (Some j) (j :: hi) t' /\ inum_at t' j = Some m
    end) t.
Proof using Htree Hbits Hbmap.
  intros Hc Ho. unfold open_inode. apply wp_bind. eapply (rest_begin F V sb hi); [apply Hc|]. rewrite Ho. simpl.
  apply wp_bind. eapply wp_mono; [by apply (namei_spec F V sb dev_read Htree Hbits Hbmap hi)|]. intros r t1 [K1%kept_opened Hw]. destruct (walk V sb false n (elems path)) as [m|].
  - destruct Hw as (j & -> & H1 & Hj). apply wp_bind. eapply wp_mono; [apply (ilock_spec F V sb Htree (j :: hi)); [done|left]|].
    intros [] t2 (H2 & K2 & Hl). assert (Hj2 : inum_at t2 j = Some m) by (rewrite (kp_at _ _ _ K2) by left; done).
    assert (K : keeps hi t t2) by (eapply kept_trans; [exact K1|]; eapply keeps_sub; [|exact K2]; intros x; by right).
    destruct (locked_type F V sb _ _ _ _ H2 Hl Hj2) as (p & Hp & Et). eapply wp_get_inode; [exact Hp|]. unfold dir_refused. rewrite Et.
    destruct (_ && _).
    + apply wp_bind. eapply wp_mono; [by apply (iunlockput_spec F V sb Htree hi)|]. intros [] t3 [H3 K3].
      apply wp_bind. eapply wp_mono; [by apply (rest_end F V sb hi)|]. intros [] t4 (H4 & E4 & _). apply wp_ret. split; [|done].
      eapply kept_trans; [exact K|]. apply kept_closed. by rewrite E4.
    + apply wp_ret. split; [done|]. by exists j.
  - destruct Hw as [-> H1]. apply wp_bind. eapply wp_mono; [by apply (rest_end F V sb hi)|]. intros [] t4 (H4 & E4 & _). apply wp_ret.
    split; [|done]. apply kept_closed. by rewrite E4.
Qed.

Lemma chdir_spec hi t path n : can_resolve F V sb (fs_cwd t :: hi) t path n ->
  wp (chdir dev_read (Some path)) (fun r t' => match walk V sb false n (elems path) with
    | Some m => if i_type (dnode V sb m) =? T_DIR
        then r = 0 /\ fs_rest F V sb (fs_cwd t' :: hi) t' /\ inum_at t' (fs_cwd t') = Some m
        else r = -1 /\ fs_rest F V sb (fs_cwd t :: hi) t' /\ keeps (fs_cwd t :: hi) t t'
    | None => r = -1 /\ fs_rest F V sb (fs_cwd t :: hi) t' /\ keeps (fs_cwd t :: hi) t t'
    end) t.
Proof using Htree Hbits Hbmap.
  intros Hc. set (c := fs_cwd t) in *. unfold chdir. apply wp_bind. eapply (rest_begin F V sb (c :: hi)); [apply Hc|].
  apply wp_bind. eapply wp_mono; [by apply (namei_spec F V sb dev_read Htree Hbits Hbmap (c :: hi))|]. intros r t1 [K1%kept_opened Hw].
  destruct (walk V sb false n (elems path)) as [m|].
  - destruct Hw as (j & -> & H1 & Hj). apply wp_bind. eapply wp_mono; [apply (ilock_spec F V sb Htree (j :: c :: hi)); [done|left]|].
    intros [] t2 (H2 & K2 & Hl). assert (Hj2 : inum_at t2 j = Some m) by (rewrite (kp_at _ _ _ K2) by left; done).
    assert (K : keeps (c :: hi) t t2) by (eapply kept_trans; [exact K1|]; eapply keeps_sub; [|exact K2]; intros x; by right).
    destruct (locked_type F V sb _ _ _ _ H2 Hl Hj2) as (p & Hp & Et). eapply wp_get_inode; [exact Hp|]. rewrite Et.
    destruct (_ =? _); simpl.
    + apply wp_bind. eapply wp_mono; [by apply (iunlock_spec F V sb)|]. intros [] t3 [H3 K3].
      apply wp_bind, wp_gets. assert (fs_cwd t3 = c) as ->.
      { rewrite (kp_cwd _ _ _ K3), (kp_cwd _ _ _ K). done. }
      apply wp_bind. eapply wp_mono; [apply (iput_spec F V sb Htree None (j :: hi)); [|done]|].
      { eapply fsys_perm; [|exact H3]. apply perm_swap. }
      intros [] t4 [H4 K4]. apply wp_bind. eapply wp_mono; [by apply (rest_end F V sb (j :: hi))|]. intros [] t5 (H5 & E5 & _).
      apply wp_bind, wp_modify, wp_ret. split; [done|]. split; [by apply set_cwd_rest|].
      change (inum_at (opened t5) j = Some m). rewrite E5, (kp_at _ _ _ K4) by left. by rewrite (kp_at _ _ _ K3) by left.
    + apply wp_bind. eapply wp_mono; [by apply (iunlockput_spec F V sb Htree (c :: hi))|]. intros [] t3 [H3 K3].
      apply wp_bind. eapply wp_mono; [by apply (rest_end F V sb (c :: hi))|]. intros [] t4 (H4 & E4 & _). apply wp_ret. split_and!; [done|done|].
      eapply kept_trans; [exact K|]. apply kept_closed. by rewrite E4.
  - destruct Hw as [-> H1]. apply wp_bind. eapply wp_mono; [by apply (rest_end F V sb (c :: hi))|]. intros [] t4 (H4 & E4 & _). apply wp_ret.
    split_and!; [done|done|]. apply kept_closed. by rewrite E4.
Qed.
End lookups.

Section calls.
Context {P : Type} {pipes : PipeServices P}.
Context (dev_read : Z -> option (nat -> Z -> M fss (Z * list Z)))
        (dev_write : Z -> option (nat -> list Z -> Z -> M fss Z)) (junk : list Z).
Abbreviation sys := (sys (P := P)).
Abbreviation fst_ := (fst_ (E := kenv (P := P))).
#[local] Existing Instance kenv_services.

Definition the_fs (s : sys) : fss := k_fs (fenv (y_files s)).
Definition put_fs (t : fss) (s : sys) : sys := set_files (set_fenv (set_k_fs t (fenv (y_files s))) (y_files s)) s.

Lemma wp_onfs {A} (m : M fss A) (Q : A -> sys -> Prop) s : wp m (fun a t => Q a (put_fs t s)) (the_fs s) -> wp (onfs m) Q s.
Proof. intros H. unfold onfs, on_files, srv, in_fs. by do 3 apply wp_zoom. Qed.

Lemma put_fs_inv h t (s : sys) : sys_inv h s -> sys_inv h (put_fs t s).
Proof. intros Hs. apply (sys_inv_files _ _ _ Hs), Hs. Qed.

Lemma wp_pure {A B} (m : M sys A) (a : A) (k : A -> M sys B) Q s : m s = Ret a s -> wp (k a) Q s -> wp (x <- m ;; k x) Q s.
Proof. intros E Hk. apply wp_bind. by eapply wp_run. Qed.

(** ** Arguments and descriptors *)

(** C10: What a call takes from the process lies in the memory of the process: an integer is
    the word on the stack above the return address, when those four bytes are below [sz]; a
    pointer of [argptr] has all [size] bytes below [sz], without overflow, and a negative
    [size] is refused; a string of [argstr] lies in the memory with its NUL.  Otherwise the
    fetch fails; it never changes the state. *)
Theorem argument_bounds n size (s : sys) : user_sized s -> size < 2 ^ 31 ->
  wp (argint n) (fun r s' => s' = s /\ forall i, r = Some i -> exists a,
    a = u32 (u_esp (y_proc s) + 4 + 4 * n) /\ 0 <= a /\ a + 4 <= sz s /\ i = s32 (get32 a (u_mem (y_proc s)))) s /\
  wp (argptr n size) (fun r s' => s' = s /\ forall p, r = Some p -> 0 <= size /\ 0 <= p < sz s /\ p + size <= sz s) s /\
  wp (argstr n) (fun r s' => s' = s /\ forall str, r = Some str -> 0 ∉ str /\ exists pre rest,
    u_mem (y_proc s) = pre ++ str ++ 0 :: rest) s.
Proof.
  intros Hu Hsize. assert (Hr : forall x, 0 <= u32 x < 2 ^ 32) by (intros x; apply Z.mod_pos_bound; lia). split_and!.
  - eapply wp_run; [by apply argint_run|]. split; [done|]. unfold arg, word_at. intros i. case_decide as H; [|done].
    intros [= <-]. eexists. split_and!; [done|apply H..|done].
  - eapply wp_run; [by apply argptr_run|]. split; [done|]. unfold ptr_arg. intros p. destruct (arg s n) as [i|]; [|done].
    simpl. case_decide as H; [|done]. intros [= <-]. specialize (Hr i). lia.
  - eapply wp_run; [by apply argstr_run|]. split; [done|]. unfold str_arg. intros str. destruct (arg s n) as [a|]; [|done].
    simpl. case_decide as H; [|done]. intros E. pose proof (fetchstr_loop_spec (drop (Z.to_nat (u32 a)) (u_mem (y_proc s)))) as Hs.
    rewrite E in Hs. destruct Hs as [H0 [rest Hd]]. split; [done|]. exists (take (Z.to_nat (u32 a)) (u_mem (y_proc s))), rest.
    by rewrite <-Hd, take_drop.
Qed.

(** exec.c and sys_mmap.c work on inodes and on memory; the open files stay as they are. *)
Definition keeps_files (m : M sys Z) : Prop := forall s r s', m s = Ret r s' ->
  ftable (y_files s') = ftable (y_files s) /\ same_ofile s s'.

(** Every call of sysfile.c, with the reference to a file that it gives to a mapping: [sys_mmap]
    duplicates the file of its descriptor, once its other arguments are fetched. *)
Definition mapped (s : sys) : list nat :=
  match arg s 0, arg s 1, arg s 2, arg s 3, arg s 5, fd_arg s 4 with
  | Some _, Some _, Some _, Some _, Some _, Some (_, f) => [f]
  | _, _, _, _, _, _ => []
  end.
Inductive sys_call : M sys Z -> (sys -> list nat) -> Prop :=
| call_file m : file_call_of dev_read dev_write junk m -> sys_call m (fun _ => [])
| call_exec exec : (forall path argv, keeps_files (exec path argv)) -> sys_call (sys_exec exec) (fun _ => [])
| call_mmap ummap : (forall a l p f o fd, keeps_files (ummap a l p f o fd)) -> sys_call (sys_mmap ummap) mapped.

Lemma file_call_ok h (s : sys) m : user_sized s -> sys_inv h s -> Z.of_nat (length h) + 3 < 2 ^ 30 ->
  file_call_of dev_read dev_write junk m -> pwp m (call_ok h s) s.
Proof.
  intros Hu Hs Hh Hm.
  destruct Hm; [by apply sys_dup_ok|by apply sys_read_ok|by apply sys_write_ok|by apply sys_close_ok|by apply sys_fstat_ok| | |by apply sys_open_ok| | | |by apply sys_pipe_ok].
  - eapply pwp_pure; [by apply argstr_run|]. eapply pwp_pure; [by apply argstr_run|].
    destruct (str_arg s 0) as [old|]; [|by apply fail_ok]. destruct (str_arg s 1) as [new|]; [by apply fs_only_ok|by apply fail_ok].
  - eapply pwp_pure; [by apply argstr_run|]. destruct (str_arg s 0) as [path|]; [by apply fs_only_ok|by apply fail_ok].
  - eapply pwp_pure; [by apply argstr_run|]. by apply fs_only_ok.
  - eapply pwp_pure; [by apply argstr_run|]. do 2 (eapply pwp_pure; [by apply argint_run|]). by apply fs_only_ok.
  - eapply pwp_pure; [by apply argstr_run|]. by apply fs_only_ok.
Qed.

Lemma keeps_files_ok h (s0 s : sys) m : sys_inv h s -> same_ofile s0 s -> keeps_files m -> pwp m (call_ok h s0) s.
Proof.
  intros ((H1 & H2 & H3 & H4) & H5 & H6) E Hm r s' Hr. destruct (Hm s r s' Hr) as [Ef Eo]. unfold same_ofile in E, Eo. split.
  - unfold sys_inv, refs_ok. rewrite Eo, Ef. by split_and!.
  - intros _. unfold same_ofile. congruence.
Qed.

Lemma fetch_args_same n (s : sys) : user_sized s -> forall u i l, exists o, fetch_args n u i l s = Ret o s.
Proof.
  intros Hu. induction n as [|n IH]; intros u i l; [by eexists|]. cbn [fetch_args]. unfold bind at 1.
  rewrite (fetchint_run _ s Hu) by (apply Z.mod_pos_bound; lia). destruct (word_at s _) as [a|]; [|by eexists]. destruct (a =? 0); [by eexists|].
  unfold bind, fetchstr at 1, gets, bind, ret, id. destruct (if sz s <=? u32 a then _ else _) as [str|]; [apply IH|by eexists].
Qed.

(** C9: The descriptors stay in step with the file table through every system call of
    sysfile.c: with the descriptors of the process and [h] the references of others (the
    descriptors of other processes and the mapped files), each file's reference count is the
    number of references to it before and after the call, on every path through it, where
    [sys_mmap] adds the reference of the mapping; and a call that fails leaves the descriptors
    of the process as they were.  That [exec] and [ummap], which sysfile.c calls, do not touch
    the open files is assumed. *)
Theorem descriptor_invariant h (s : sys) m x r s' : user_sized s -> sys_inv h s -> Z.of_nat (length h) + 3 < 2 ^ 30 ->
  sys_call m x -> m s = Ret r s' ->
  sys_inv (x s ++ h) s' /\ (r < 0 -> u_ofile (y_proc s') = u_ofile (y_proc s)).
Proof.
  intros Hu Hs Hh Hm. assert (H : pwp m (call_ok (x s ++ h) s) s); [|by apply H].
  destruct Hm as [m Hm|exec Hx|ummap Hx].
  - by apply file_call_ok.
  - unfold sys_exec. eapply pwp_pure; [by apply argstr_run|]. eapply pwp_pure; [by apply argint_run|].
    destruct (str_arg s 0) as [path|], (arg s 1) as [u|]; try by apply fail_ok. destruct (fetch_args_same MAXARG s Hu (u32 u) 0 []) as [o E].
    eapply pwp_pure; [exact E|]. destruct o as [argv|]; [by apply keeps_files_ok|by apply fail_ok].
  - unfold sys_mmap, mapped. do 5 (eapply pwp_pure; [by apply argint_run|]).
    destruct (arg s 0), (arg s 1), (arg s 2), (arg s 3), (arg s 5); try by apply fail_ok.
    eapply pwp_pure; [by apply argfd_run|]. destruct (fd_arg s 4) as [[fd f]|] eqn:Ef.
    + apply pwp_bind. eapply pwp_mono; [apply (filedup_pwp dev_read dev_write f h); [done|by eapply held_fd|lia]|]. intros a s1 [H1 H2]. by apply keeps_files_ok.
    + case_match; [by apply fail_ok|by apply keeps_files_ok].
Qed.

(** [dup] gives the least free descriptor the file of its argument and counts the
    reference; with no descriptor free, or on a bad argument, it returns -1 and nothing has
    changed.  It always returns. *)
Theorem sys_dup_correct h (s : sys) : user_sized s -> sys_inv h s ->
  wp sys_dup (fun r s' =>
    match fd_arg s 0 with
    | None => r = -1 /\ s' = s
    | Some (_, f) => (r = -1 /\ s' = s /\ full_below s NOFILE) \/
        exists fd g, r = Z.of_nat fd /\ full_below s fd /\ u_ofile (y_proc s) !! fd = Some None /\
          ftable (y_files s) !! f = Some g /\
          s' = set_files (set_ftable (<[f := set_ref (f_ref g + 1) g]> (ftable (y_files s))) (y_files s))
                 (set_ofile (<[fd := Some f]> (u_ofile (y_proc s))) s)
    end) s.
Proof.
  intros Hu Hs. eapply wp_pure; [by apply argfd_run|]. destruct (fd_arg s 0) as [[fd0 f]|] eqn:Ef; [|by apply wp_ret].
  apply wp_bind. destruct (fdalloc_run s f (proj1 (proj2 Hs))) as [(fd & E & Hfd & Hb)|[E Hb]]; (eapply wp_run; [exact E|]).
  - rewrite (proj2 (Z.ltb_ge _ _)) by lia. pose proof (held_fd h _ _ _ _ Ef) as Hf. destruct (held_file _ _ _ (proj1 Hs) Hf) as (g & Hg & _).
    apply wp_bind, wp_zoom. eapply wp_run; [by apply (filedup_run _ _ _ g (proj1 Hs))|]. apply wp_ret. right. exists fd, g.
    split_and!; [done|done|done|done|]. destruct (proj2 (proj2 (proj2 (proj1 Hs))) f g Hg) as [Hc _].
    pose proof (count_nonneg (h ++ fds (u_ofile (y_proc s))) f). pose proof (sys_inv_handles _ _ Hs).
    by rewrite s32_small by lia.
  - rewrite (proj2 (Z.ltb_lt _ _)) by lia. apply wp_ret. by left.
Qed.

Context (F : gset Z) (V : Z -> option (list Z)) (sb : superblock).
Context (Htree : tree_ok V sb) (Hbits : bits_ok V sb).
Context (Hbmap : forall b, 0 <= b < sb_size sb -> bblock sb b ∈ F).

(** The file that [open] makes of inode [ip]. *)
Definition opened_file (omode : Z) (ip : nat) (g : file) : file :=
  mk_file FD_INODE 1 (Z.land omode O_WRONLY =? 0) (negb (Z.land omode O_WRONLY =? 0) || negb (Z.land omode O_RDWR =? 0))
    (f_pipe g) (Z.of_nat ip) 0.

(** C8: [open] of an existing name, through all layers: the path is resolved as the walk of the
    directories on the disk; the call returns the least free descriptor, which is a new file
    at offset 0 on the inode found, readable and writable as the mode says, with one more
    reference to the inode in memory.  It returns -1 exactly when the walk fails, a directory
    is opened for writing, or descriptors or files run out, and then file table, descriptors
    and inode references are as before.  It always returns, no lock is left, the log is idle
    and the disk has not changed. *)
Theorem sys_open_existing h hi (s : sys) path omode n : user_sized s -> sys_inv h s ->
  str_arg s 0 = Some path -> arg s 1 = Some omode -> Z.land omode O_CREATE = 0 ->
  can_resolve F V sb hi (the_fs s) path n ->
  wp (sys_open dev_read dev_write junk) (fun r s' =>
    disk (st_bio (fs_log (the_fs s'))) = disk (st_bio (fs_log (the_fs s))) /\
    let failed := r = -1 /\ y_proc s' = y_proc s /\ ftable (y_files s') = ftable (y_files s) /\
      fs_rest F V sb hi (the_fs s') in
    match walk V sb false n (elems path) with
    | None => failed
    | Some m =>
        if dir_refused V sb m omode then failed
        else failed /\ ((forall i, (i < NFILE)%nat -> 1 <= count (h ++ fds (u_ofile (y_proc s))) i) \/ full_below s NOFILE) \/
          exists fd f g j, r = Z.of_nat fd /\ u_ofile (y_proc s) !! fd = Some None /\ full_below s fd /\
            u_ofile (y_proc s') = <[fd := Some f]> (u_ofile (y_proc s)) /\
            ftable (y_files s) !! f = Some g /\ f_ref g = 0 /\
            ftable (y_files s') = <[f := opened_file omode j g]> (ftable (y_files s)) /\
            fs_rest F V sb (j :: hi) (the_fs s') /\ inum_at (the_fs s') j = Some m
    end) s.
Proof using Htree Hbits Hbmap.
  intros Hu Hs Hpath Hmode Ho Hc. unfold sys_open. eapply wp_pure; [by apply argstr_run|]. rewrite Hpath.
  eapply wp_pure; [by apply argint_run|]. rewrite Hmode. pose proof (cr_rest _ _ _ _ _ _ _ Hc) as Hr.
  apply wp_bind, wp_onfs. eapply wp_mono; [by apply (open_inode_spec F V sb dev_read Htree Hbits Hbmap hi)|].
  intros r t1 [_ Hw].
  destruct (walk V sb false n (elems path)) as [m|]; [destruct (dir_refused V sb m omode)|];
    try (destruct Hw as [-> H1]; apply wp_ret; split; [by eapply rest_disk|done]).
  destruct Hw as (j & -> & H1 & Hj). apply wp_bind.
  destruct (open_file_run dev_read dev_write h (put_fs t1 s) (put_fs_inv _ _ _ Hs)) as [(f & g & fd & E & Hg & Hg0 & Hfd & Hb)|[E Hfull]];
    (eapply wp_run; [exact E|]); apply wp_bind, wp_onfs, wp_bind.
  - eapply wp_mono; [by apply (iunlock_spec F V sb)|]. intros [] t2 [H2 K2].
    eapply wp_mono; [by apply (rest_end F V sb (j :: hi))|]. intros [] t3 (H3 & E3 & _).
    pose proof (lookup_lt_Some _ _ _ Hg) as Hf. apply wp_bind, wp_zoom, wp_bind.
    eapply wp_run; [apply (get_file_run _ _ (set_ref 1 g)); simpl; by rewrite list_lookup_insert_eq|].
    apply wp_modify, wp_ret. split; [by eapply rest_disk|]. right. exists fd, f, g, j. split_and!; try done.
    + simpl. by rewrite list_insert_insert_eq.
    + change (inum_at (opened t3) j = Some m). rewrite E3, (kp_at _ _ _ K2); [done|left].
  - eapply wp_mono; [by apply (iunlockput_spec F V sb Htree hi)|]. intros [] t2 [H2 K2].
    eapply wp_mono; [by apply (rest_end F V sb hi)|]. intros [] t3 (H3 & E3 & _). apply wp_ret. split; [by eapply rest_disk|].
    left. by split.
Qed.

(** [chdir] of a directory makes it the current directory, gives back the reference to the
    old one and returns 0; on a name that leads nowhere, or not to a directory, it returns -1
    and the current directory and all references are as before.  It always returns, leaves no
    lock and writes nothing. *)
Theorem sys_chdir_correct hi (s : sys) path n : user_sized s -> str_arg s 0 = Some path ->
  can_resolve F V sb (fs_cwd (the_fs s) :: hi) (the_fs s) path n ->
  wp (sys_chdir dev_read) (fun r s' =>
    y_proc s' = y_proc s /\ ftable (y_files s') = ftable (y_files s) /\
    disk (st_bio (fs_log (the_fs s'))) = disk (st_bio (fs_log (the_fs s))) /\
    let failed := r = -1 /\ fs_rest F V sb (fs_cwd (the_fs s) :: hi) (the_fs s') /\
      fs_cwd (the_fs s') = fs_cwd (the_fs s) in
    match walk V sb false n (elems path) with
    | None => failed
    | Some m =>
        if i_type (dnode V sb m) =? T_DIR then
          r = 0 /\ fs_rest F V sb (fs_cwd (the_fs s') :: hi) (the_fs s') /\
          inum_at (the_fs s') (fs_cwd (the_fs s')) = Some m
        else failed
    end) s.
Proof using Htree Hbits Hbmap.
  intros Hu Hpath Hc. eapply wp_pure; [by apply argstr_run|]. rewrite Hpath. pose proof (cr_rest _ _ _ _ _ _ _ Hc) as Hr.
  apply wp_onfs. eapply wp_mono; [by apply (chdir_spec F V sb dev_read Htree Hbits Hbmap hi)|].
  intros r t Hw. split; [done|]. split; [done|]. cbn [the_fs put_fs].
  destruct (walk V sb false n (elems path)) as [m|]; [destruct (_ =? _)|]; destruct Hw as (-> & H1 & H2);
    (split; [by eapply rest_disk|]); split_and!; try done; apply (kp_cwd _ _ _ H2).
Qed.
End calls.

(** ** A process in the small file system *)

#[local] Instance no_pipes : PipeServices unit := {
  pipe_close _ _ := ret tt;
  pipe_read _ _ := ret (-1, []);
  pipe_write _ _ _ := ret (-1);
  pipe_new := ret 0
}.

(** The memory holds "/./a" at address 0; the arguments on the stack are all 0.  Descriptor 0
    is the file 0 if [open]. *)
Definition ex_proc (isopen : bool) : sys (P := unit) :=
  Sys (mk_fst (if isopen then set_ref 1 zero_file :: replicate 99 zero_file else replicate NFILE zero_file) (Kenv ex_state tt))
    (Uproc ([47; 46; 47; 97; 0] ++ replicate 195 0) 100
      (if isopen then Some 0%nat :: replicate 15 None else replicate NOFILE None)).

Lemma ex_proc_inv b : sys_inv [] (ex_proc b).
Proof.
  split_and!; [|by destruct b|done]. destruct b; (split_and!; [done|done| |]).
  - repeat constructor.
  - intros [|i] f; [by intros [= <-]|]. intros H. change (replicate 99 zero_file !! i = Some f) in H. by apply lookup_replicate in H as [-> _].
  - constructor.
  - intros i f H. change (replicate NFILE zero_file !! i = Some f) in H. by apply lookup_replicate in H as [-> _].
Qed.

Lemma argument_bounds_witness : wp (argptr 0 8) (fun r s => r = Some 0 /\ 0 + 8 <= sz s) (ex_proc false).
Proof.
  destruct (argument_bounds 0 8 (ex_proc false) ltac:(vm_compute; discriminate) ltac:(lia)) as (_ & H & _).
  revert H. change (argptr 0 8 (ex_proc false)) with (Ret (Some 0) (ex_proc false)).
  intros [_ H]. split; [reflexivity|]. destruct (H 0 eq_refl) as (_ & _ & H'). exact H'.
Defined.

(** [dup(0)] *)
Lemma descriptor_invariant_witness : exists s', sys_dup (ex_proc true) = Ret 1 s' /\ sys_inv [] s'.
Proof.
  eexists. split; [reflexivity|].
  apply (descriptor_invariant no_read no_write [] [] (ex_proc true) sys_dup (fun _ => []) 1).
  - vm_compute; discriminate.
  - exact (ex_proc_inv true).
  - reflexivity.
  - apply call_file, is_dup.
  - reflexivity.
Defined.

Lemma sys_dup_correct_witness : wp sys_dup (fun r s' => r = 1 /\ u_ofile (y_proc s') !! 1%nat = Some (Some 0%nat)) (ex_proc true).
Proof.
  eapply wp_mono; [apply (sys_dup_correct [] (ex_proc true))|].
  - vm_compute; discriminate.
  - exact (ex_proc_inv true).
  - intros r s'. change (fd_arg (ex_proc true) 0) with (Some (0, 0%nat)). intros [(_ & _ & H)|(fd & g & -> & Hb & Hfd & _ & ->)].
    + destruct (H 1%nat ltac:(unfold NOFILE; lia)) as [g Hg]. discriminate Hg.
    + assert (fd = 1%nat) as ->; [|split; reflexivity]. destruct fd as [|[|fd]]; [discriminate Hfd|reflexivity|].
      destruct (Hb 1%nat ltac:(lia)) as [g' Hg]. discriminate Hg.
Defined.

(** [open("/./a", O_RDONLY)] *)
Lemma sys_open_existing_witness : wp (sys_open no_read no_write []) (fun r s' => r = 0 /\ exists f j,
  u_ofile (y_proc s') !! 0%nat = Some (Some f) /\ f_readable <$> ftable (y_files s') !! f = Some true /\
  inum_at (the_fs s') j = Some 2) (ex_proc false).
Proof.
  eapply wp_mono; [apply (sys_open_existing no_read no_write [] ex_F ex_V ex_sb ex_tree ex_bits ex_bmap [] [0; 1]%nat
    (ex_proc false) [47; 46; 47; 97] 0 1)|].
  - vm_compute; discriminate.
  - exact (ex_proc_inv false).
  - reflexivity.
  - reflexivity.
  - reflexivity.
  - apply ex_can_resolve; [reflexivity|]. apply (bool_decide_unpack _). vm_compute. exact I.
  - intros r s' (_ & H). replace (walk ex_V ex_sb false 1 (elems [47; 46; 47; 97])) with (Some 2) in H by (vm_compute; reflexivity).
    replace (dir_refused ex_V ex_sb 2 0) with false in H by (vm_compute; reflexivity).
    destruct H as [[_ [H|H]]|(fd & f & g & j & -> & Hfd & Hb & Ho & Hg & _ & Ht & _ & Hj)].
    + specialize (H 0%nat ltac:(unfold NFILE; lia)). exfalso. apply H. reflexivity.
    + destruct (H 0%nat ltac:(unfold NOFILE; lia)) as [g Hg]. discriminate Hg.
    + assert (fd = 0%nat) as ->.
      { destruct fd as [|fd]; [reflexivity|]. destruct (Hb 0%nat ltac:(lia)) as [g' Hg']. discriminate Hg'. }
      split; [reflexivity|]. exists f, j. rewrite Ho, Ht. split; [reflexivity|]. split; [|exact Hj].
      rewrite list_lookup_insert_eq by (eapply lookup_lt_Some; exact Hg). reflexivity.
Defined.

(** [chdir("/./a")]: not a directory *)
Lemma sys_chdir_correct_witness : wp (sys_chdir no_read) (fun r s' => r = -1 /\ fs_cwd (the_fs s') = 0%nat) (ex_proc false).
Proof.
  eapply wp_mono; [apply (sys_chdir_correct no_read ex_F ex_V ex_sb ex_tree ex_bits ex_bmap [1]%nat
    (ex_proc false) [47; 46; 47; 97] 1)|].
  - vm_compute; discriminate.
  - reflexivity.
  - apply ex_can_resolve; [reflexivity|]. apply (bool_decide_unpack _). vm_compute. exact I.
  - intros r s' (_ & _ & _ & H). replace (walk ex_V ex_sb false 1 (elems [47; 46; 47; 97])) with (Some 2) in H by (vm_compute; reflexivity).
    replace (i_type (dnode ex_V ex_sb 2) =? T_DIR) with false in H by (vm_compute; reflexivity).
    destruct H as (-> & _ & H). split; [reflexivity|exact H].
Defined.
