(* ===== verification/Exec.v ===== *)
(** * Loading a program (exec.c)

    [exec] reads an ELF file through fs.c into a new address space of vm.c, pushes the
    argument strings and the array that points to them, and only then gives the process the
    new address space and frees the old one.  The state is the file system, the page
    allocator and the process.  In project 2, [exec] also records the last argument of [cat]
    for the system call [getlastcat]; this is the parameter [after_args]. *)

From S2P Require Import Prelude Bytes Kalloc Vm Bio Log CStr Fs Sysfile.

Definition ELF_MAGIC : Z := 0x464C457F.
Definition ELF_PROG_LOAD : Z := 1.
(** [sizeof(struct elfhdr)], [sizeof(struct proghdr)] *)
Definition ELFHDR : Z := 52.
Definition PROGHDR : Z := 32.

(** The fields of a [struct elfhdr] that [exec] uses. *)
Definition eh_magic (h : list Z) : Z := get32 0 h.
Definition eh_entry (h : list Z) : Z := get32 24 h.
Definition eh_phoff (h : list Z) : Z := get32 28 h.
Definition eh_phnum (h : list Z) : Z := get16 44 h.
(** And of a [struct proghdr]. *)
Definition ph_type (h : list Z) : Z := get32 0 h.
Definition ph_off (h : list Z) : Z := get32 4 h.
Definition ph_vaddr (h : list Z) : Z := get32 8 h.
Definition ph_filesz (h : list Z) : Z := get32 16 h.
Definition ph_memsz (h : list Z) : Z := get32 20 h.

(** [pgdir], [sz], [tf->eip], [tf->esp] and [name] of the process. *)
Record xproc := Xproc { p_pgdir : Z; p_sz : Z; p_eip : Z; p_esp : Z; p_name : list Z }.

Section exec.
(** [end] and [data] of the kernel image, and the device drivers. *)
Context (end_ data_ : Z).
Context (dev_read : Z -> option (nat -> Z -> M fss (Z * list Z))).
(** Other kernel variables. *)
Context {G : Type}.

Record xst := Xst { x_fs : fss; x_km : kmem; x_proc : xproc; x_glob : G }.
Definition set_xfs (f : fss) (s : xst) : xst := Xst f (x_km s) (x_proc s) (x_glob s).
Definition set_xkm (k : kmem) (s : xst) : xst := Xst (x_fs s) k (x_proc s) (x_glob s).
Definition set_xproc (p : xproc) (s : xst) : xst := Xst (x_fs s) (x_km s) p (x_glob s).
Definition on_fs {A} (m : M fss A) : M xst A := zoom x_fs set_xfs m.
Definition on_vm {A} (m : M kmem A) : M xst A := zoom x_km set_xkm m.

(** [readi(ip, pa, off, n)] into the page at [pa]. *)
Definition read_page (ip : nat) (pa off n : Z) : M xst Z :=
  r <- on_fs (readi dev_read ip off n) ;;
  on_vm (bs <- get_page pa ;; put_page pa (splice 0 (snd r) bs)) ;;;
  ret (fst r).

(** The loop over the program headers; [None] for [goto bad]. *)
Fixpoint load_program (n : nat) (ip : nat) (pgdir sz off : Z) : M xst (option Z) :=
  match n with
  | O => ret (Some sz)
  | S n' =>
      r <- on_fs (readi dev_read ip (u32 off) PROGHDR) ;;
      if negb (fst r =? PROGHDR) then ret None
      else
        let ph := snd r in
        if negb (ph_type ph =? ELF_PROG_LOAD) then load_program n' ip pgdir sz (s32 (off + PROGHDR))
        else if ph_memsz ph <? ph_filesz ph then ret None
        else if u32 (ph_vaddr ph + ph_memsz ph) <? ph_vaddr ph then ret None
        else
          sz <- on_vm (allocuvm end_ pgdir sz (u32 (ph_vaddr ph + ph_memsz ph))) ;;
          if sz =? 0 then ret None
          else if negb (ph_vaddr ph mod PGSIZE =? 0) then ret None
          else
            r <- loaduvm (@on_vm) (read_page ip) pgdir (ph_vaddr ph) (ph_off ph) (ph_filesz ph) ;;
            if r <? 0 then ret None else load_program n' ip pgdir sz (s32 (off + PROGHDR))
  end.

(** The loop over the argument strings: the stack pointer and the addresses of the strings. *)
Fixpoint push_args (argv : list (list Z)) (pgdir argc sp : Z) (ustack : list Z) : M xst (option (Z * list Z)) :=
  match argv with
  | [] => ret (Some (sp, ustack))
  | a :: argv' =>
      if Z.of_nat MAXARG <=? argc then ret None
      else
        let sp := Z.land (u32 (sp - (Z.of_nat (length a) + 1))) (Z.lnot 3) in
        r <- on_vm (copyout pgdir sp (a ++ [0])) ;;
        if r <? 0 then ret None else push_args argv' pgdir (argc + 1) sp (ustack ++ [sp])
  end.

(** [ustack]: fake return address, argc, argv, the pointers and a null pointer. *)
Definition ustack_words (sp : Z) (ptrs : list Z) : list Z :=
  let argc := Z.of_nat (length ptrs) in
  [0xffffffff; argc; u32 (sp - (argc + 1) * 4)] ++ ptrs ++ [0].

(** The label [bad]. *)
Definition exec_bad (pgdir : Z) (ip : option nat) : M xst Z :=
  (if negb (pgdir =? 0) then on_vm (freevm end_ pgdir) else ret tt) ;;;
  (match ip with
   | Some ip => on_fs (iunlockput ip ;;; on_log end_op)
   | None => ret tt
   end) ;;;
  ret (-1).

(** The part of the path after the last slash. *)
Fixpoint last_name (last s : list Z) : list Z :=
  match s with
  | [] => last
  | c :: s' => last_name (if c =? SLASH then s' else last) s'
  end.
(** [safestrcpy(curproc->name, last, sizeof(curproc->name))] *)
Definition set_name (last : list Z) (p : xproc) : list Z :=
  splice 0 (take (length (p_name p) - 1) last ++ [0]) (p_name p).

(** The user stack and the arguments, in the address space [pgdir] of size [sz]. *)
Definition build_stack (after_args : list (list Z) -> M xst unit) (pgdir sz : Z) (argv : list (list Z)) : M xst (option (Z * Z)) :=
  let sz := PGROUNDUP sz in
  sz <- on_vm (allocuvm end_ pgdir sz (u32 (sz + 2 * PGSIZE))) ;;
  if sz =? 0 then ret None
  else
    on_vm (clearpteu pgdir (u32 (sz - 2 * PGSIZE))) ;;;
    r <- push_args argv pgdir 0 sz [] ;;
    match r with
    | None => ret None
    | Some (sp, ptrs) =>
        after_args argv ;;;
        let words := ustack_words sp ptrs in
        let sp := u32 (sp - (3 + Z.of_nat (length ptrs) + 1) * 4) in
        r <- on_vm (copyout pgdir sp (concat (map (le_bytes 4) words))) ;;
        if r <? 0 then ret None else ret (Some (sz, sp))
    end.

(** [after_args] is what project 2 adds between the arguments and the stack. *)
Definition exec (after_args : list (list Z) -> M xst unit) (path : list Z) (argv : list (list Z)) : M xst Z :=
  on_fs (on_log begin_op) ;;;
  r <- on_fs (namei dev_read path) ;;
  match r with
  | None => on_fs (on_log end_op) ;;; ret (-1)
  | Some ip =>
      on_fs (ilock ip) ;;;
      r <- on_fs (readi dev_read ip 0 ELFHDR) ;;
      if negb (fst r =? ELFHDR) then exec_bad 0 (Some ip)
      else
        let elf := snd r in
        if negb (eh_magic elf =? ELF_MAGIC) then exec_bad 0 (Some ip)
        else
          pgdir <- on_vm (setupkvm end_ data_) ;;
          if pgdir =? 0 then exec_bad 0 (Some ip)
          else
            r <- load_program (Z.to_nat (eh_phnum elf)) ip pgdir 0 (s32 (eh_phoff elf)) ;;
            match r with
            | None => exec_bad pgdir (Some ip)
            | Some sz =>
                on_fs (iunlockput ip ;;; on_log end_op) ;;;
                r <- build_stack after_args pgdir sz argv ;;
                match r with
                | None => exec_bad pgdir None
                | Some (sz, sp) =>
                    s <- gets id ;;
                    let old := p_pgdir (x_proc s) in
                    modify (set_xproc (Xproc pgdir sz (eh_entry elf) sp (set_name (last_name path path) (x_proc s)))) ;;;
                    on_vm (freevm end_ old) ;;;
                    ret 0
                end
            end
  end.
End exec.
