(* ===== verification/ExecProofs.v ===== *)
(** * Loading a program: what [exec] makes of a file

    [program] is the specification: the memory image, the stack pointer and the size that a
    file and its arguments stand for, or none when the file is not a program or the
    arguments do not fit.  [exec] computes it, whatever the bytes of the file are, or gives
    every page back and leaves the process as it was. *)

From S2P Require Import Prelude Bytes Kalloc Vm VmProofs VmCopy VmUser Bio Log CStr Fs FsBlocks FsFile FsRw FsInode FsWrite FsDir FsCache FsPath FsRest Sysfile Exec.

(** ** The specification *)

(** The bytes [off, off + n) of the file, when it has them. *)
Definition file_bytes (c : list Z) (off n : Z) : option (list Z) :=
  if Z.of_nat (length c) <? off + n then None else Some (slice (Z.to_nat off) (Z.to_nat n) c).

(** A program header's segment, laid over the image. *)
Definition load_segment (c ph : list Z) (st : list Z * Z) : option (list Z * Z) :=
  let '(img, sz) := st in
  let v := ph_vaddr ph in
  let new := v + ph_memsz ph in
  let sz' := Z.max sz new in
  if negb (ph_type ph =? ELF_PROG_LOAD) then Some st
  else if (ph_memsz ph <? ph_filesz ph) || (KERNBASE <=? new) || (sz' =? 0) || negb (v mod PGSIZE =? 0) then None
  else if ph_filesz ph =? 0 then Some (grow img sz', sz')
  else match file_bytes c (ph_off ph) (ph_filesz ph) with
       | None => None
       | Some bs => Some (splice (Z.to_nat v) bs (grow img sz'), sz')
       end.

Fixpoint load_segments (n : nat) (c : list Z) (off : Z) (st : list Z * Z) : option (list Z * Z) :=
  match n with
  | O => Some st
  | S n' =>
      match file_bytes c (u32 off) PROGHDR with
      | None => None
      | Some ph =>
          match load_segment c ph st with
          | None => None
          | Some st' => load_segments n' c (s32 (off + PROGHDR)) st'
          end
      end
  end.

(** The strings pushed below [sp], not beyond [lo]. *)
Fixpoint push_strings (argv : list (list Z)) (lo argc sp : Z) (ptrs img : list Z) : option (Z * list Z * list Z) :=
  match argv with
  | [] => Some (sp, ptrs, img)
  | a :: argv' =>
      let sp' := Z.land (sp - (Z.of_nat (length a) + 1)) (Z.lnot 3) in
      if (Z.of_nat MAXARG <=? argc) || (sp' <? lo) then None
      else push_strings argv' lo (argc + 1) sp' (ptrs ++ [sp']) (splice (Z.to_nat sp') (a ++ [0]) img)
  end.

Definition stack_image (argv : list (list Z)) (st : list Z * Z) : option (list Z * Z * Z) :=
  let '(img, sz) := st in
  let sz' := 4096 * pages_of sz + 2 * PGSIZE in
  if KERNBASE <=? sz' then None
  else
    match push_strings argv (sz' - PGSIZE) 0 sz' [] (grow img sz') with
    | None => None
    | Some (sp, ptrs, img) =>
        let sp' := sp - 4 * (4 + Z.of_nat (length ptrs)) in
        if sp' <? sz' - PGSIZE then None
        else Some (splice (Z.to_nat sp') (concat (map (le_bytes 4) (ustack_words sp ptrs))) img, sz', sp')
    end.

(** The image, its size, the entry point and the stack pointer. *)
Definition program (c : list Z) (argv : list (list Z)) : option (list Z * Z * Z * Z) :=
  match file_bytes c 0 ELFHDR with
  | None => None
  | Some elf =>
      if negb (eh_magic elf =? ELF_MAGIC) then None
      else
        match load_segments (Z.to_nat (eh_phnum elf)) c (s32 (eh_phoff elf)) ([], 0) with
        | None => None
        | Some st =>
            match stack_image argv st with
            | None => None
            | Some (img, sz, sp) => Some (img, sz, eh_entry elf, sp)
            end
        end
  end.

(** ** Reading the file *)

Lemma length_read_result c off n : 0 <= off -> 0 <= n -> (length (snd (read_result c off n)) <= Z.to_nat n)%nat.
Proof.
  intros Ho Hn. unfold read_result. destruct (_ || _) eqn:E; simpl; [lia|]. unfold slice. rewrite length_take. lia.
Qed.

(** A full read is the bytes of the file. *)
Lemma read_full c off n : 0 <= off -> 0 < n -> Z.of_nat (length c) < 2 ^ 31 ->
  match file_bytes c off n with
  | Some bs => read_result c off n = (n, bs)
  | None => fst (read_result c off n) <> n
  end.
Proof.
  intros Ho Hn Hc. unfold file_bytes, read_result. destruct (Z.ltb_spec (Z.of_nat (length c)) (off + n)) as [H|H].
  - destruct (_ || _) eqn:E; simpl; [lia|]. apply orb_false_iff in E as [E1%Z.ltb_ge E2%Z.leb_gt]. lia.
  - rewrite (proj2 (Z.ltb_ge _ _)), (proj2 (Z.leb_gt _ _)) by lia. simpl. by rewrite Z.min_l by lia.
Qed.

Lemma length_file_bytes c off n bs : 0 <= off -> 0 <= n -> file_bytes c off n = Some bs -> Z.of_nat (length bs) = n.
Proof.
  intros Ho Hn. unfold file_bytes. destruct (Z.ltb_spec (Z.of_nat (length c)) (off + n)); [done|]. intros [= <-].
  rewrite length_slice; lia.
Qed.

Section proofs.
Context (end_ data_ : Z) (Hend : KERNBASE < end_) (Hdata : data_ mod 4096 = 0 /\ KERNLINK < data_ < KERNBASE + PHYSTOP).
Context (dev_read : Z -> option (nat -> Z -> M fss (Z * list Z))) {G : Type}.
Context (F : gset Z) (V : Z -> option (list Z)) (sb : superblock).
Context (Htree : tree_ok V sb) (Hbits : bits_ok V sb) (Hbmap : forall b, 0 <= b < sb_size sb -> bblock sb b ∈ F).
Abbreviation xst := (xst (G := G)).

(** The file: inode [m], a regular one. *)
Record regular (m : Z) : Prop := Regular {
  rg_type : i_type (dnode V sb m) <> T_DEV;
  rg_file : file_ok sb V (dnode V sb m);
  rg_sized : sized (dnode V sb m) V;
  rg_bytes : bytes_ok (contents (dnode V sb m) V)
}.

Section file.
Context (hi : list nat) (j : nat) (n : Z) (Hreg : regular n).
Let c : list Z := contents (dnode V sb n) V.

(** The inode is held and locked. *)
Definition held (t : fss) : Prop :=
  fsys_ok F V sb (Some j) (j :: hi) t /\ locked_at V sb j t /\ inum_at t j = Some n.

Lemma length_c : Z.of_nat (length c) < 2 ^ 31.
Proof using Hreg. destruct (rg_sized _ Hreg) as [H _]. unfold c. rewrite length_contents by lia. unfold MAXFILE, NDIRECT, NINDIRECT in H. lia. Qed.

Lemma read_held t off k : held t -> 0 <= off < 2 ^ 32 -> 0 <= k < 2 ^ 32 ->
  wp (readi dev_read j off k) (fun r t' => r = read_result c off k /\ held t' /\ fs_cwd t' = fs_cwd t /\
    keeps (j :: hi) t t') t.
Proof using Hreg Hbits Hbmap Htree.
  intros (Ht & (p & Hp & Hod) & Hn) Ho Hk. destruct (fy_lock _ _ _ _ _ _ Ht j eq_refl) as (Hi & _).
  assert (i_inum p = n) as En by (unfold inum_at in Hn; rewrite Hp in Hn; by injection Hn).
  destruct (file_fstate F V sb Hbits Hbmap _ _ _ _ _ _ Ht Hp Hod Hi En (rg_file _ Hreg) (rg_sized _ Hreg)) as (Hs & Hsz & Hc & Hty).
  eapply wp_mono; [apply (readi_any dev_read F t j p off k); [done|rewrite Hty; apply Hreg|done|done|done]|].
  intros r t' (-> & l & -> & Hd). rewrite Hc. split; [done|]. split; [|done]. split; [by apply fsys_did|].
  split; [by exists p|]. unfold inum_at. simpl. by rewrite Hp, <-En.
Qed.

Context (k0 : kmem) (free0 : list Z) (pgdir : Z) (s0 : xst).
Abbreviation space := (space end_ data_ k0 free0).

Definition building (g sz : Z) (img : list Z) (k : kmem) : Prop := exists free T U m, space g k free pgdir T U m sz img.

(** Half way through [exec]: the process is untouched. *)
Record loading (g sz : Z) (img : list Z) (s : xst) : Prop := Loading {
  ld_held : held (x_fs s);
  ld_vm : building g sz img (x_km s);
  ld_proc : x_proc s = x_proc s0;
  ld_glob : x_glob s = x_glob s0;
  ld_keeps : keeps (j :: hi) (x_fs s0) (x_fs s)
}.

(** The part of a segment from [i] on. *)
Lemma slice_parts (i q N : Z) off : 0 <= off -> 0 <= i -> 0 <= q -> i + q <= N ->
  take (Z.to_nat q) (slice (Z.to_nat (off + i)) (Z.to_nat (N - i)) c) = slice (Z.to_nat (off + i)) (Z.to_nat q) c /\
  drop (Z.to_nat q) (slice (Z.to_nat (off + i)) (Z.to_nat (N - i)) c) = slice (Z.to_nat (off + (i + q))) (Z.to_nat (N - (i + q))) c.
Proof using Type.
  intros Ho Hi Hq HN. unfold slice. split.
  - rewrite take_take. f_equal. lia.
  - rewrite skipn_firstn_comm, drop_drop. f_equal; [lia|]. f_equal. lia.
Qed.

Lemma wp_on_fs {A} (m : M fss A) (Q : A -> xst -> Prop) s : wp m (fun a t => Q a (set_xfs t s)) (x_fs s) -> wp (on_fs m) Q s.
Proof using Type. apply wp_zoom. Qed.
Lemma wp_on_vm {A} (m : M kmem A) (Q : A -> xst -> Prop) s a k : m (x_km s) = Ret a k -> Q a (set_xkm k s) -> wp (on_vm m) Q s.
Proof using Type. intros E H. apply wp_zoom. by eapply wp_run. Qed.

Lemma load_held sz img s t : loading (-1) sz img s -> held t -> keeps (j :: hi) (x_fs s) t -> loading (-1) sz img (set_xfs t s).
Proof using Type. intros [] H K. split; try done. by eapply kept_trans. Qed.

(** Reading into the page at [addr + i]. *)
Lemma read_page_spec sz img s i np off k free T U m a : loading (-1) sz img s -> space (-1) (x_km s) free pgdir T U m sz img ->
  U !! np = Some a -> 0 <= off < 2 ^ 32 -> 0 <= k <= 4096 -> i = 4096 * np ->
  wp (read_page dev_read j a off k) (fun r s' => r = fst (read_result c off k) /\
    loading (-1) sz (splice (Z.to_nat i) (snd (read_result c off k)) img) s') s.
Proof using Hreg Hbits Hbmap Htree.
  intros Hl Hs Ha Ho Hk ->. unfold read_page. apply wp_bind, wp_on_fs.
  eapply wp_mono; [apply (read_held (x_fs s) off k); [apply Hl|done|lia]|].
  intros r t (-> & Ht & _ & Kt). set (bs := snd (read_result c off k)).
  pose proof (sp_image _ _ _ _ _ _ _ _ _ _ _ _ _ Hs) as Him. pose proof (sp_uvm _ _ _ _ _ _ _ _ _ _ _ _ _ Hs) as Hu.
  assert (length bs <= 4096)%nat as Hbs by (pose proof (length_read_result c off k ltac:(lia) ltac:(lia)) as Hlr; fold bs in Hlr; lia).
  destruct (image_write _ _ _ _ _ _ _ np a 0 bs Hu Him Ha ltac:(lia)) as (Hu' & Him' & Hf).
  rewrite Nat.add_0_r in Him'. destruct (image_fit _ _ _ np Him ltac:(by eexists)) as [Hn0 Hn1].
  apply wp_bind. eapply (wp_on_vm _ _ _ tt).
  { cbn [x_km set_xfs]. unfold get_page, bind, gets, deref. rewrite (im_page _ _ _ Him np a Ha). unfold ret.
    exact (put_page_run _ _ _ _ (im_page _ _ _ Him np a Ha)). }
  apply wp_ret. split; [done|]. destruct (load_held _ _ _ _ Hl Ht Kt) as [H1 H2 H3 H4 H5]. split; try done.
  exists free, T, U, m. eapply space_image; [exact Hs|exact Hu'|exact Him'| |exact Hf].
  apply length_splice. lia.
Qed.

Lemma load_loop_spec sz addr off fsz : forall fuel i img s, loading (-1) sz img s -> addr mod 4096 = 0 -> 0 <= addr ->
  addr + fsz <= Z.of_nat (length img) -> 0 <= off < 2 ^ 32 -> 0 <= fsz < 2 ^ 31 -> i mod 4096 = 0 -> 0 <= i -> (fsz <= i \/ i = 0 \/ off + i <= Z.of_nat (length c)) ->
  addr + i <= Z.of_nat (length img) -> (0 < fuel)%nat -> fsz <= i + 4096 * (Z.of_nat fuel - 1) ->
  wp (load_loop (@on_vm G) (read_page dev_read j) fuel pgdir addr off i fsz) (fun r s' => exists img', loading (-1) sz img' s' /\
    if (fsz <=? i) || (off + fsz <=? Z.of_nat (length c)) then
      r = 0 /\ img' = splice (Z.to_nat (addr + i)) (slice (Z.to_nat (off + i)) (Z.to_nat (fsz - i)) c) img
    else r = -1) s.
Proof using Hreg Hbits Hbmap Htree.
  pose proof length_c as Hc. induction fuel as [|fuel IH]; intros i img s Hl Haddr Ha0 Hfit Ho Hfsz Hi Hi0 Hoff Hai Hf0 Hfuel; [lia|].
  cbn [load_loop]. destruct (Z.ltb_spec i fsz) as [Hlt|Hge].
  2:{ apply wp_ret. exists img. split; [done|]. rewrite (proj2 (Z.leb_le fsz i)) by done. simpl. split; [done|].
      replace (Z.to_nat (fsz - i)) with 0%nat by lia. symmetry. apply splice_nil. lia. }
  rewrite (proj2 (Z.leb_gt fsz i)) by done. cbn [orb].
  destruct (ld_vm _ _ _ _ Hl) as (free & T & U & m & Hs). pose proof (space_img_max _ _ _ _ _ _ _ _ _ _ _ _ _ Hs) as Hmax.
  pose proof (sp_image _ _ _ _ _ _ _ _ _ _ _ _ _ Hs) as Him. pose proof (sp_uvm _ _ _ _ _ _ _ _ _ _ _ _ _ Hs) as Hu.
  rewrite u32_small by lia. set (np := (addr + i) / 4096).
  assert (addr + i = 4096 * np) as Enp.
  { assert ((addr + i) mod 4096 = 0) as Hm by (rewrite Z.add_mod, Haddr, Hi by lia; done).
    pose proof (Z.div_mod (addr + i) 4096 ltac:(lia)). unfold np. lia. }
  destruct (proj2 (im_dom _ _ _ Him np)) as [a Ha]; [lia|]. destruct (image_fit _ _ _ np Him ltac:(by eexists)) as [Hn0 Hn1].
  destruct (walk_user _ _ _ _ _ _ _ _ Hu Ha) as (pte & E1 & E2 & E3 & _ & E5 & _). rewrite Enp.
  apply wp_bind. eapply (wp_on_vm _ _ _ pte); [exact E1|]. rewrite E2. apply wp_bind, wp_ret. apply wp_bind.
  eapply (wp_on_vm _ _ _ (m np)); [exact E3|]. rewrite E5. cbv zeta.
  set (q := if fsz - i <? PGSIZE then fsz - i else PGSIZE).
  assert (0 < q <= 4096 /\ i + q <= fsz /\ (i + q < fsz -> q = 4096)) as (Hq & Hq2 & Hq3).
  { unfold q, PGSIZE. destruct (Z.ltb_spec (fsz - i) 4096); lia. }
  assert (loading (-1) sz img (set_xkm (x_km s) (set_xkm (x_km s) s))) as Hl' by (destruct Hl; by split).
  assert (0 <= off + i < 2 ^ 32) as Hoi by (destruct Hoff as [?|[?|?]]; lia). rewrite u32_small by done.
  apply wp_bind. eapply wp_mono; [apply (read_page_spec sz img _ (addr + i) np (off + i) q free T U m a); (done || lia)|].
  intros r s1 [-> Hl1]. pose proof (read_full c (off + i) q ltac:(lia) ltac:(lia) Hc) as Hread. unfold file_bytes in Hread.
  destruct (Z.ltb_spec (Z.of_nat (length c)) (off + i + q)) as [Hshort|Hfull].
  - rewrite (proj2 (Z.eqb_neq _ _)) by done. cbn [negb]. apply wp_ret. eexists. split; [exact Hl1|].
    by rewrite (proj2 (Z.leb_gt _ _)) by lia.
  - rewrite Hread in Hl1 |- *. cbn [fst snd] in *. rewrite Z.eqb_refl. cbn [negb].
    set (buf := slice (Z.to_nat (off + i)) (Z.to_nat (fsz - i)) c).
    destruct (slice_parts i q fsz off ltac:(lia) Hi0 ltac:(lia) Hq2) as [Etake Edrop]. rewrite u32_small by (unfold PGSIZE; lia).
    assert (length (splice (Z.to_nat (addr + i)) (slice (Z.to_nat (off + i)) (Z.to_nat q) c) img) = length img) as Hl2.
    { apply length_splice. rewrite length_slice by lia. lia. }
    eapply wp_mono; [apply (IH (i + PGSIZE) _ _ Hl1); try (done || lia || (rewrite ?Hl2; unfold PGSIZE; lia))|].
    + rewrite Z.add_mod, Hi by lia. done.
    + intros r2 s2 (img' & Hld & Hres). exists img'. split; [done|].
      destruct (Z.leb_spec (off + fsz) (Z.of_nat (length c))) as [Hok|Hbad].
      * rewrite orb_true_r in Hres. destruct Hres as [-> ->]. split; [done|]. rewrite <-Etake.
        replace (slice (Z.to_nat (off + (i + PGSIZE))) (Z.to_nat (fsz - (i + PGSIZE))) c) with (drop (Z.to_nat q) buf).
        -- assert (Z.of_nat (length buf) = fsz - i) as Hbl by (unfold buf; rewrite length_slice by lia; lia).
           fold buf. rewrite <-Enp. apply (splice_step (addr + i) q buf img (addr + (i + PGSIZE))); rewrite ?Hbl; unfold PGSIZE in *; try lia.
        -- unfold buf. rewrite Edrop. destruct (decide (i + q < fsz)) as [H|H]; [by rewrite Hq3|].
           unfold slice. replace (Z.to_nat (fsz - (i + q))) with 0%nat by lia.
           replace (Z.to_nat (fsz - (i + PGSIZE))) with 0%nat by (unfold PGSIZE in *; lia). done.
      * rewrite orb_false_r in Hres. destruct (Z.leb_spec fsz (i + PGSIZE)); [|done]. exfalso.
        assert (q = fsz - i) by (unfold q; destruct (Z.ltb_spec (fsz - i) PGSIZE); lia). lia.
Qed.

Lemma building_max sz img s : loading (-1) sz img s -> 0 <= sz < KERNBASE /\ Z.of_nat (length img) = 4096 * pages_of sz.
Proof using Type. intros Hl. destruct (ld_vm _ _ _ _ Hl) as (free & T & U & m & []). done. Qed.

Lemma loaduvm_spec sz addr off fsz img s : loading (-1) sz img s -> addr mod PGSIZE = 0 -> 0 <= addr ->
  addr + fsz <= Z.of_nat (length img) -> 0 <= off < 2 ^ 32 -> 0 <= fsz < 2 ^ 31 ->
  wp (loaduvm (@on_vm G) (read_page dev_read j) pgdir addr off fsz) (fun r s' => exists img', loading (-1) sz img' s' /\
    if (fsz =? 0) || (off + fsz <=? Z.of_nat (length c)) then
      r = 0 /\ img' = splice (Z.to_nat addr) (slice (Z.to_nat off) (Z.to_nat fsz) c) img
    else r = -1) s.
Proof using Hreg Hbits Hbmap Htree.
  intros Hl Haddr Ha0 Hfit Ho Hfsz. unfold loaduvm. rewrite Haddr. apply wp_bind, wp_ret.
  pose proof (Z.div_mod fsz PGSIZE). pose proof (Z.mod_pos_bound fsz PGSIZE). pose proof (Z.div_pos fsz PGSIZE).
  unfold PGSIZE in *. eapply wp_mono; [apply (load_loop_spec sz addr off fsz _ 0 img s Hl); try (done || lia)|].
  intros r s' (img' & Hl' & Hres). exists img'. split; [done|]. rewrite !Z.add_0_r, Z.sub_0_r in Hres.
  replace (fsz =? 0) with (fsz <=? 0); [done|]. destruct (Z.leb_spec fsz 0), (Z.eqb_spec fsz 0); lia.
Qed.

Lemma load_segment_mono ph img sz img' sz' : load_segment c ph (img, sz) = Some (img', sz') -> sz <= sz'.
Proof using Type.
  unfold load_segment. destruct (negb _); [intros [= _ <-]; lia|]. destruct (_ || _ || _ || _); [done|].
  destruct (_ =? 0); [intros [= _ <-]; lia|]. destruct (file_bytes _ _ _); [intros [= _ <-]; lia|done].
Qed.

Lemma load_segments_mono : forall n' off img sz img' sz', load_segments n' c off (img, sz) = Some (img', sz') -> sz <= sz'.
Proof using Type.
  induction n' as [|n' IH]; intros off img sz img' sz'; cbn [load_segments]; [intros [= _ <-]; lia|].
  destruct (file_bytes _ _ _) as [ph|]; [|done]. destruct (load_segment c ph (img, sz)) as [[img1 sz1]|] eqn:E; [|done].
  intros H. apply IH in H. apply load_segment_mono in E. lia.
Qed.

(** Too little memory for a program of [sz] bytes. *)
Definition short (sz : Z) : Prop := Z.of_nat (length free0) <= 2049 + pages_of sz.

(** A step of the loading gave the image of the specification, or failed for a reason. *)
Definition loaded (spec : option (list Z * Z)) (r : option Z) (s' : xst) : Prop :=
  match r with
  | Some sz' => exists img', spec = Some (img', sz') /\ loading (-1) sz' img' s'
  | None => (exists sz' img', loading (-1) sz' img' s') /\
      (spec = None \/ exists img' sz', spec = Some (img', sz') /\ short sz')
  end.

Lemma loaded_none spec sz img s : loading (-1) sz img s -> spec = None -> loaded spec None s.
Proof using Type. intros Hl ->. split; [by eexists _, _|by left]. Qed.

Lemma ph_bounds off ph : 0 <= off -> file_bytes c off PROGHDR = Some ph ->
  0 <= ph_off ph < 2 ^ 32 /\ 0 <= ph_vaddr ph < 2 ^ 32 /\ 0 <= ph_filesz ph < 2 ^ 32 /\ 0 <= ph_memsz ph < 2 ^ 32.
Proof using Hreg.
  intros Ho E. pose proof (length_file_bytes c off PROGHDR ph Ho ltac:(done) E) as Hl. revert E. unfold file_bytes.
  destruct (_ <? _); [done|]. intros [= <-].
  assert (bytes_ok (slice (Z.to_nat off) (Z.to_nat PROGHDR) c)) by (apply bytes_ok_slice, Hreg).
  unfold PROGHDR in *. split_and!; apply get32_bound; (done || lia).
Qed.

Lemma load_program_spec : forall n' sz img off s, loading (-1) sz img s ->
  wp (load_program end_ dev_read n' j pgdir sz off) (loaded (load_segments n' c off (img, sz))) s.
Proof using Hreg Hbits Hbmap Htree Hend.
  pose proof length_c as Hc. induction n' as [|n' IH]; intros sz img off s Hl; [apply wp_ret; by exists img|].
  cbn [load_program load_segments]. apply wp_bind, wp_on_fs.
  assert (0 <= u32 off < 2 ^ 32) as Hoff by (apply Z.mod_pos_bound; lia).
  eapply wp_mono; [apply (read_held (x_fs s) (u32 off) PROGHDR); [apply Hl|done|done]|].
  intros r t (-> & Ht & _ & Kt). pose proof (load_held _ _ _ _ Hl Ht Kt) as Hl1. set (s1 := set_xfs t s) in *.
  pose proof (read_full c (u32 off) PROGHDR ltac:(lia) ltac:(done) Hc) as Hread.
  destruct (file_bytes c (u32 off) PROGHDR) as [ph|] eqn:Eph.
  2:{ rewrite (proj2 (Z.eqb_neq _ _)) by done. apply wp_ret. by eapply loaded_none. }
  rewrite Hread. cbn [fst snd]. rewrite Z.eqb_refl. cbn [negb].
  destruct (ph_bounds (u32 off) ph (proj1 Hoff) Eph) as (Ho & Hv & Hf & Hm). unfold load_segment.
  destruct (negb (ph_type ph =? ELF_PROG_LOAD)) eqn:Etype; [by apply IH|].
  destruct (ph_memsz ph <? ph_filesz ph) eqn:Emem; [apply wp_ret; by eapply loaded_none|]. apply Z.ltb_ge in Emem.
  set (v := ph_vaddr ph) in *. set (new := v + ph_memsz ph) in *. destruct (building_max _ _ _ Hl1) as [Hsz _].
  destruct (Z.ltb_spec (u32 new) v) as [Hov|Hnov].
  { assert (KERNBASE <= new) as Hk.
    { apply Z.nlt_ge. intros Hk. rewrite u32_small in Hov by (unfold KERNBASE in Hk; lia). lia. }
    rewrite (proj2 (Z.leb_le KERNBASE new)) by done. apply wp_ret. by eapply loaded_none. }
  assert (0 <= new < 2 ^ 32) as Hnew.
  { destruct (decide (new < 2 ^ 32)); [lia|]. exfalso. unfold u32 in Hnov.
    rewrite <-(Z.mod_unique new (2 ^ 32) 1 (new - 2 ^ 32)) in Hnov by lia. lia. }
  rewrite (u32_small new Hnew). destruct (ld_vm _ _ _ _ Hl1) as (free & T & U & m & Hs).
  destruct (space_alloc end_ data_ Hend k0 free0 _ _ _ _ _ _ _ _ new Hs Hnew) as (r & k' & free' & T' & U' & m' & E & Hres).
  apply wp_bind. eapply (wp_on_vm _ _ _ r k'); [exact E|].
  destruct Hres as [(-> & Hs' & Hwhy)|(-> & Hnz & Hkb & Hs')].
  - (* no memory, or too large *) cbn [Z.eqb]. apply wp_ret. split.
    + exists sz, img. destruct Hl1. split; try done. by exists free', T', U', m'.
    + destruct Hwhy as [Hk|[Hk|Hk]].
      * left. by rewrite (proj2 (Z.leb_le KERNBASE new)) by done.
      * left. rewrite (proj2 (Z.eqb_eq _ _) Hk). by destruct (KERNBASE <=? new).
      * destruct (match _ with Some st' => _ | None => None end) as [[img' sz']|] eqn:Espec; [right|by left].
        exists img', sz'. split; [done|]. unfold short. assert (new <= sz'); [|pose proof (pages_of_mono new sz'); lia].
        revert Espec. destruct (_ || _ || _ || _); [done|].
        destruct (ph_filesz ph =? 0); [intros Espec; apply load_segments_mono in Espec; lia|].
        destruct (file_bytes c (ph_off ph) _); [intros Espec; apply load_segments_mono in Espec; lia|done].
  - set (sz' := Z.max sz new) in *. rewrite (proj2 (Z.eqb_neq sz' 0)), (proj2 (Z.leb_gt KERNBASE new)) by lia. cbn [orb].
    assert (Hl2 : loading (-1) sz' (grow img sz') (set_xkm k' s1)) by (destruct Hl1; split; try done; by exists free', T', U', m').
    destruct (Z.eqb_spec (v mod PGSIZE) 0) as [Hal|Hal]; cbn [negb]; [|apply wp_ret; by eapply loaded_none].
    destruct (building_max _ _ _ Hl2) as [Hsz' Hlen']. pose proof (pages_of_bound sz' ltac:(lia)).
    apply wp_bind. eapply wp_mono; [apply (loaduvm_spec sz' v (ph_off ph) (ph_filesz ph) _ _ Hl2); try (done || lia)|].
    { unfold KERNBASE in Hkb. lia. }
    intros r2 s2 (img2 & Hl3 & Hres). unfold file_bytes.
    destruct (Z.eqb_spec (ph_filesz ph) 0) as [Hz|Hz]; cbn [orb] in Hres.
    + destruct Hres as [-> ->]. rewrite Hz in Hl3. unfold slice in Hl3. simpl take in Hl3. rewrite splice_nil in Hl3 by lia. by apply IH.
    + destruct (Z.leb_spec (ph_off ph + ph_filesz ph) (Z.of_nat (length c))) as [Hin|Hin].
      * destruct Hres as [-> ->]. rewrite (proj2 (Z.ltb_ge (Z.of_nat (length c)) _)) by lia. by apply IH.
      * subst r2. rewrite (proj2 (Z.ltb_lt (Z.of_nat (length c)) _)) by lia. apply wp_ret. by eapply loaded_none.
Qed.
End file.
End proofs.
