(* ===== verification/ExecStack.v ===== *)
(** * Loading a program: the stack and the whole call

    The argument strings and the array of pointers to them fit in the page above the guard
    page, or [exec] fails; with the loading of ExecProofs.v this is [exec] itself. *)

From S2P Require Import Prelude Bytes Kalloc Vm VmProofs VmCopy VmUser Bio Log Recovery CStr Fs FsBlocks FsFile FsRw FsInode FsWrite FsDir FsCache FsPath FsRest Sysfile Exec ExecProofs.

Lemma land_word x : Z.land x (Z.lnot 3) = x - x mod 4.
Proof. by apply (land_lnot_ones _ 2). Qed.

Lemma length_words ws : length (concat (map (le_bytes 4) ws)) = (4 * length ws)%nat.
Proof. induction ws as [|w ws IH]; [done|]. rewrite map_cons. cbn [concat]. rewrite length_app, length_le_bytes, IH. simpl. lia. Qed.

Lemma push_strings_bound : forall argv lo argc sp ptrs img sp' ptrs' img', lo <= sp -> 0 <= argc <= 32 -> Z.of_nat (length ptrs) = argc ->
  push_strings argv lo argc sp ptrs img = Some (sp', ptrs', img') -> lo <= sp' <= sp /\ Z.of_nat (length ptrs') <= 32.
Proof.
  induction argv as [|a argv IH]; intros lo argc sp ptrs img sp' ptrs' img' Hlo Ha Hl; cbn [push_strings]; [intros [= <- <- _]; lia|].
  destruct (_ || _) eqn:E; [done|]. apply orb_false_iff in E as [E1%Z.leb_gt E2%Z.ltb_ge]. rewrite land_word in *. intros H.
  apply IH in H; [|lia|unfold MAXARG in E1; lia|rewrite length_app; simpl; lia].
  pose proof (Z.mod_pos_bound (sp - (Z.of_nat (length a) + 1)) 4). lia.
Qed.

Section stack.
Context (end_ data_ : Z) (Hend : KERNBASE < end_) (Hdata : data_ mod 4096 = 0 /\ KERNLINK < data_ < KERNBASE + PHYSTOP).
Context {G : Type} (k0 : kmem) (free0 : list Z) (pgdir : Z).
Abbreviation xst := (xst (G := G)).
Abbreviation building := (building end_ data_ k0 free0 pgdir).

Lemma xkm_again k k' (s : xst) : set_xkm k' (set_xkm k s) = set_xkm k' s.
Proof using Type. done. Qed.

(** The pages of the devices, at the top of the address space. *)
Lemma kernel_devspace n : 2 ^ 20 - 2 ^ 13 <= n < 2 ^ 20 -> present (kernel_entries data_ n) = true /\ Z.land (kernel_entries data_ n) PTE_U = 0.
Proof using Type.
  intros Hn. assert (kernel_entries data_ n = 4096 * n + 3) as ->.
  { unfold kernel_entries, kernel_view, kmaps. cbn [fold_left]. unfold mapped at 1.
    change (kmap_from (mk_kmap DEVSPACE DEVSPACE 0 PTE_W)) with (2 ^ 20 - 2 ^ 13).
    change (kmap_count (mk_kmap DEVSPACE DEVSPACE 0 PTE_W)) with (2 ^ 13). rewrite decide_True by lia. cbn [phys_start perm].
    unfold pte_of. rewrite <-Z.lor_assoc. change (Z.lor PTE_W PTE_P) with 3. unfold DEVSPACE.
    replace (4261412864 + 4096 * (n - (2 ^ 20 - 2 ^ 13))) with (4096 * n) by lia.
    rewrite lor_flags; [apply u32_small; lia|rewrite Z.mul_comm; by apply Z.mod_mul|lia]. }
  split; [|rewrite land_flags_page; [done|rewrite Z.mul_comm; by apply Z.mod_mul|lia|unfold PTE_U; lia]].
  rewrite present_odd, Z.odd_add. replace (4096 * n) with (2 * (2048 * n)) by lia. by rewrite Z.odd_mul.
Qed.

(** [copyout] of at most 2^25 bytes below [sp]: not beyond the page above the guard page. *)
Lemma copyout_below (s : xst) g sz img sp sp' buf (Q : Z -> xst -> Prop) : building g sz img (x_km s) -> buf <> [] ->
  g = Z.of_nat (length img) / 4096 - 2 -> 8192 <= Z.of_nat (length img) -> Z.of_nat (length img) - 4096 <= sp <= Z.of_nat (length img) ->
  Z.of_nat (length buf) < 2 ^ 25 - 3 -> sp - 3 <= sp' + Z.of_nat (length buf) <= sp ->
  (forall r k' img', building g sz img' k' -> length img' = length img ->
     (if sp' <? Z.of_nat (length img) - PGSIZE then r = -1 else r = 0 /\ img' = splice (Z.to_nat sp') buf img) -> Q r (set_xkm k' s)) ->
  wp (on_vm (copyout pgdir (u32 sp') buf)) Q s.
Proof using Hend Hdata.
  intros (free & T & U & m & Hs) Hne Hg Hmin Hsp Hlen Hsp' HQ.
  pose proof (space_img_max _ _ _ _ _ _ _ _ _ _ _ _ _ Hs) as Hmax. destruct (im_len _ _ _ (sp_image _ _ _ _ _ _ _ _ _ _ _ _ _ Hs)) as (np & Hnp & El).
  assert (0 < Z.of_nat (length buf)) as Hpos by (destruct buf; [done|simpl; lia]).
  assert (g = np - 2) as -> by (rewrite Hg, El, (Z.mul_comm 4096), Z.div_mul; lia).
  destruct (Z.ltb_spec sp' 0) as [Hneg|Hnneg].
  - assert (u32 sp' = sp' + 2 ^ 32) as -> by (unfold u32; symmetry; apply (Z.mod_unique _ _ (-1)); lia).
    assert (2 ^ 20 - 2 ^ 13 <= (sp' + 2 ^ 32) / 4096 < 2 ^ 20) as Hpage.
    { split; [apply Z.div_le_lower_bound; lia|apply Z.div_lt_upper_bound; lia]. }
    destruct (kernel_devspace _ Hpage) as [Hp HU]. pose proof (sp_kernel _ _ _ _ _ _ _ _ _ _ _ _ _ Hs ((sp' + 2 ^ 32) / 4096) ltac:(lia)) as Hm.
    eapply wp_on_vm.
    { apply (copyout_kernel (end_ := end_) _ free pgdir T m); [by apply uvm_vm with (U := U), Hs|lia|done|by rewrite Hm|].
      unfold user_page. rewrite Hm, HU. by intros H. }
    eapply HQ; [by exists free, T, U, m|done|]. by rewrite (proj2 (Z.ltb_lt _ _)) by (unfold PGSIZE; lia).
  - rewrite u32_small by lia.
    destruct (space_copyout end_ data_ k0 free0 _ _ _ _ _ _ _ _ _ sp' buf Hs Hnneg ltac:(lia)) as (r & k' & img' & E & Hs' & Hl & Hres).
    eapply wp_on_vm; [exact E|]. eapply HQ; [by exists free, T, U, m|done|].
    unfold touched, PGSIZE in *. destruct (Z.ltb_spec sp' (Z.of_nat (length img) - 4096)); destruct Hres as [(-> & -> & Ht)|(-> & Ht)]; try done; lia.
Qed.

Definition short_strings (argv : list (list Z)) : Prop := Forall (fun a => Z.of_nat (length a) < 2 ^ 25 - 4) argv.

Lemma building_len g sz img k : building g sz img k -> Z.of_nat (length img) <= 2 ^ 31.
Proof using Type. intros (free & T & U & m & Hs). by eapply space_img_max. Qed.

Lemma push_args_spec g sz : forall argv argc sp ptrs img (s : xst), short_strings argv -> building g sz img (x_km s) ->
  g = Z.of_nat (length img) / 4096 - 2 -> 8192 <= Z.of_nat (length img) -> Z.of_nat (length img) - 4096 <= sp <= Z.of_nat (length img) ->
  wp (push_args argv pgdir argc sp ptrs) (fun r s' => exists k' img', s' = set_xkm k' s /\ building g sz img' k' /\
    match push_strings argv (Z.of_nat (length img) - PGSIZE) argc sp ptrs img with
    | Some (sp', ptrs', img1) => r = Some (sp', ptrs') /\ img' = img1 /\ length img' = length img
    | None => r = None
    end) s.
Proof using Hend Hdata.
  induction argv as [|a argv IH]; intros argc sp ptrs img s Hstr Hb Hg Hmin Hsp; cbn [push_args push_strings].
  { apply wp_ret. exists (x_km s), img. split_and!; try done. by destruct s. }
  apply Forall_cons in Hstr as [Ha Hstr]. destruct (Z.leb_spec (Z.of_nat MAXARG) argc) as [Hmax|Hmax]; cbn [orb].
  { apply wp_ret. exists (x_km s), img. split_and!; try done. by destruct s. }
  set (x := sp - (Z.of_nat (length a) + 1)). rewrite (land_word x). set (sp' := x - x mod 4).
  pose proof (Z.mod_pos_bound x 4 ltac:(lia)) as Hx.
  assert (Z.land (u32 x) (Z.lnot 3) = u32 sp') as Eu.
  { rewrite land_word. unfold u32, sp'. pose proof (Z.mod_pos_bound x (2 ^ 32) ltac:(lia)) as Hb32.
    pose proof (Z.div_mod x (2 ^ 32) ltac:(lia)) as Hd.
    assert ((x mod 2 ^ 32) mod 4 = x mod 4) as E4.
    { rewrite <-(Z.mod_add x (- (2 ^ 30 * (x / 2 ^ 32))) 4) by lia. f_equal. lia. }
    apply (Z.mod_unique _ _ (x / 2 ^ 32)); [|lia]. left. pose proof (Z.mod_le (x mod 2 ^ 32) 4). lia. }
  rewrite Eu. apply wp_bind. eapply (copyout_below s g sz img sp sp' (a ++ [0])); try done.
  { by destruct a. } { rewrite length_app. simpl. lia. } { rewrite length_app. simpl. lia. }
  intros r k' img' Hb' Hl Hres. destruct (Z.ltb_spec sp' (Z.of_nat (length img) - PGSIZE)) as [Hlow|Hlow].
  - subst r. apply wp_ret. by exists k', img'.
  - destruct Hres as [-> ->]. cbn [Z.ltb]. unfold PGSIZE in Hlow. rewrite u32_small by (pose proof (building_len g sz img _ Hb); lia).
    eapply wp_mono; [apply (IH (argc + 1) sp' (ptrs ++ [sp']) _ (set_xkm k' s) Hstr Hb')|].
    + by rewrite Hl.
    + by rewrite Hl.
    + rewrite Hl. lia.
    + rewrite Hl. intros r s' (k2 & img2 & -> & H1 & H2). by exists k2, img2.
Qed.

Lemma pages_of_pages p : pages_of (4096 * p) = p.
Proof using Type. unfold pages_of. rewrite Z.mul_comm, Z.div_add_l by lia. rewrite Z.div_small by lia. lia. Qed.

(** The size rounded up to whole pages. *)
Lemma building_round sz img k : building (-1) sz img k -> 4096 * pages_of sz < KERNBASE -> building (-1) (4096 * pages_of sz) img k.
Proof using Type.
  intros (free & T & U & m & [Hu Him [Hsz Hl] Hker Hall Hf Hp]) Hlt. exists free, T, U, m. split; try done.
  rewrite pages_of_pages. pose proof (pages_of_nonneg sz). split; [lia|done].
Qed.

Definition no_record (argv : list (list Z)) : M xst unit := ret tt.

Lemma build_stack_spec argv sz img (s : xst) : short_strings argv -> building (-1) sz img (x_km s) ->
  wp (build_stack end_ no_record pgdir sz argv) (fun r s' => exists g sz' img' k', s' = set_xkm k' s /\ building g sz' img' k' /\
    match stack_image argv (img, sz) with
    | Some (img1, sz1, sp) => (r = Some (sz1, sp) /\ img' = img1 /\ sz' = sz1 /\ g = sz1 / 4096 - 2) \/ (r = None /\ short free0 sz1)
    | None => r = None
    end) s.
Proof using Hend Hdata.
  intros Hstr Hb. pose proof Hb as (free & T & U & m & Hs). destruct (sp_sz _ _ _ _ _ _ _ _ _ _ _ _ _ Hs) as [Hsz Hlen].
  pose proof (pages_of_bound sz ltac:(lia)) as Hpb. unfold build_stack, stack_image.
  rewrite roundup_eq by (unfold KERNBASE in *; lia). fold (pages_of sz). set (sz1 := 4096 * pages_of sz) in *.
  rewrite u32_small by (unfold KERNBASE, PGSIZE in *; lia). set (sz' := sz1 + 2 * PGSIZE).
  destruct (Z.leb_spec KERNBASE sz') as [Hbig|Hok].
  { apply wp_bind. eapply (wp_on_vm _ _ _ 0); [unfold allocuvm; by rewrite (proj2 (Z.leb_le _ _))|].
    apply wp_ret. exists (-1), sz, img, (x_km s). done. }
  unfold PGSIZE in sz'. apply building_round in Hb; [|fold sz1; lia]. fold sz1 in Hb. clear Hs. destruct Hb as (free1 & T1 & U1 & m1 & Hs).
  destruct (space_alloc end_ data_ Hend k0 free0 _ _ _ _ _ _ _ _ sz' Hs ltac:(unfold KERNBASE in *; lia)) as (r & k' & free' & T' & U' & m' & E & Hres).
  apply wp_bind. eapply (wp_on_vm _ _ _ r k'); [exact E|]. unfold short.
  destruct Hres as [(-> & Hs' & Hwhy)|(-> & Hnz & _ & Hs')].
  { apply wp_ret. exists (-1), sz1, img, k'. split_and!; [done|by exists free', T', U', m'|].
    destruct (push_strings _ _ _ _ _ _) as [[[]]|]; [|done]. destruct (_ <? _); [done|]. right. split; [done|lia]. }
  rewrite Z.max_r in * by lia. rewrite (proj2 (Z.eqb_neq _ _)) by done. set (img1 := grow img sz') in *.
  destruct (sp_sz _ _ _ _ _ _ _ _ _ _ _ _ _ Hs') as [_ Hlen']. assert (sz' = 4096 * (pages_of sz + 2)) as Esz by lia.
  assert (Z.of_nat (length img1) = sz') as Hl1 by (by rewrite Hlen', Esz, pages_of_pages).
  pose proof (pages_of_nonneg sz ltac:(lia)) as Hp0.
  replace (sz' - 2 * PGSIZE) with (4096 * pages_of sz) by (unfold PGSIZE; lia). rewrite u32_small by (unfold KERNBASE in *; lia).
  destruct (space_clearpteu end_ data_ Hend Hdata k0 free0 _ _ _ _ _ _ _ _ (pages_of sz) Hs') as (k2 & m2 & E2 & Hs2).
  { apply (im_dom _ _ _ (sp_image _ _ _ _ _ _ _ _ _ _ _ _ _ Hs')). lia. }
  apply wp_bind. eapply (wp_on_vm _ _ _ tt k2); [exact E2|].
  assert (pages_of sz = sz' / 4096 - 2) as Hg by (rewrite Esz, (Z.mul_comm 4096), Z.div_mul; lia).
  apply wp_bind. eapply wp_mono; [apply (push_args_spec (pages_of sz) sz' argv 0 sz' [] img1 _ Hstr)|]; rewrite ?Hl1; try done; try lia.
  { by exists free', T', U', m2. }
  intros r s2 (k3 & img3 & -> & Hb3 & Hres). destruct (push_strings _ _ _ _ _ _) as [[[sp ptrs] img2]|] eqn:Epush.
  2:{ subst r. apply wp_ret. by exists (pages_of sz), sz', img3, k3. }
  destruct Hres as (-> & -> & Hl3). apply push_strings_bound in Epush as [Hsp Hptrs]; [|unfold PGSIZE; lia..|done].
  apply wp_bind, wp_ret. set (words := ustack_words sp ptrs).
  assert (length words = (4 + length ptrs)%nat) as Hw by (unfold words, ustack_words; rewrite !length_app; simpl; lia).
  replace (sp - (3 + Z.of_nat (length ptrs) + 1) * 4) with (sp - 4 * (4 + Z.of_nat (length ptrs))) by lia.
  set (sp' := sp - 4 * (4 + Z.of_nat (length ptrs))). rewrite (u32_small sp') by (unfold KERNBASE, PGSIZE in *; lia). 
  rewrite <-(u32_small sp') at 1 by (unfold KERNBASE, PGSIZE in *; lia).
  apply wp_bind. eapply (copyout_below _ (pages_of sz) sz' img2 sp sp'); [exact Hb3|..]; rewrite ?length_words, ?Hw, ?Hl3, ?Hl1; try lia; try (unfold PGSIZE in *; lia).
  { intros H. apply (f_equal length) in H. rewrite length_words, Hw in H. simpl in H. lia. }
  intros r k4 img4 Hb4 Hl4 Hres. destruct (sp' <? sz' - PGSIZE).
  - subst r. apply wp_ret. by exists (pages_of sz), sz', img4, k4.
  - destruct Hres as [-> ->]. apply wp_ret. eexists (pages_of sz), sz', _, k4. split_and!; [done|exact Hb4|]. left. by rewrite <-Hg.
Qed.
End stack.

Lemma stack_image_size argv img sz img' sz' sp : 0 <= sz -> stack_image argv (img, sz) = Some (img', sz', sp) -> sz <= sz'.
Proof.
  intros H. pose proof (pages_of_bound sz H). unfold stack_image. destruct (KERNBASE <=? _); [done|].
  destruct (push_strings _ _ _ _ _ _) as [[[? ?] ?]|]; [|done]. destruct (_ <? _); [done|]. intros [= _ <- _]. unfold PGSIZE. lia.
Qed.

Lemma short_mono free0 a b : short free0 a -> a <= b -> short free0 b.
Proof. unfold short. intros H Hab. pose proof (pages_of_mono a b Hab). lia. Qed.

(** ** exec *)

Section exec.
Context (end_ data_ : Z) (Hend : KERNBASE < end_) (Hdata : data_ mod 4096 = 0 /\ KERNLINK < data_ < KERNBASE + PHYSTOP).
Context (dev_read : Z -> option (nat -> Z -> M fss (Z * list Z))) {G : Type}.
Context (F : gset Z) (V : Z -> option (list Z)) (sb : superblock).
Context (Htree : tree_ok V sb) (Hbits : bits_ok V sb) (Hbmap : forall b, 0 <= b < sb_size sb -> bblock sb b ∈ F).
Context (hi : list nat) (s0 : xst (G := G)) (T0 U0 : gmap Z Z) (m0 : Z -> Z) (free0 : list Z).
Abbreviation xst := (xst (G := G)).
Abbreviation old := (p_pgdir (x_proc s0)).
Hypothesis Hold : uvm end_ (x_km s0) free0 old T0 U0 m0.

(** The process and the free pages are as before the call; only free pages were written. *)
Record restored (s : xst) : Prop := Restored {
  rs_proc : x_proc s = x_proc s0;
  rs_vm : exists free, uvm end_ (x_km s) free old T0 U0 m0 /\ free ≡ₚ free0 /\ frame free0 (x_km s0) (x_km s)
}.

(** The process has the address space [pgdir] with the memory [img], and the pages of the
    old one are free. *)
Definition replaced (path img : list Z) (sz entry sp : Z) (s : xst) : Prop := exists pgdir free T U m,
  x_proc s = Xproc pgdir sz entry sp (set_name (last_name path path) (x_proc s0)) /\
  space end_ data_ (x_km s0) (owned old T0 U0 ++ free0) (sz / 4096 - 2) (x_km s) free pgdir T U m sz img.

(** No page is lost on the way. *)
Definition rolled_back (k : kmem) : Prop := exists free, kmem_ok end_ k free /\ free ≡ₚ free0 /\ frame free0 (x_km s0) k.

Lemma restore (s : xst) : x_proc s = x_proc s0 -> rolled_back (x_km s) -> restored s.
Proof using Hold.
  intros Hp (free & Hk & Hperm & Hf). split; [done|]. exists free. split_and!; [|done|done].
  apply (parent_frame end_ (x_km s0) free0 old T0 U0 m0 (x_km s0) free0 free0); try done.
  - by eapply uvm_nodup.
  - by rewrite Hperm.
Qed.

Abbreviation building := (building end_ data_ (x_km s0) free0).

Lemma building_free pgdir g sz img (s : xst) (Q : unit -> xst -> Prop) : building pgdir g sz img (x_km s) ->
  (pgdir <> 0 -> forall k, rolled_back k -> Q tt (set_xkm k s)) -> wp (on_vm (freevm end_ pgdir)) Q s.
Proof using Hend.
  intros (free & T & U & m & Hs) HQ. destruct (space_free end_ data_ Hend _ _ _ _ _ _ _ _ _ _ _ Hs) as (k' & free' & E & Hk & Hp & Hf & Hnz).
  eapply wp_on_vm; [exact E|]. apply HQ; [done|]. by exists free'.
Qed.

Lemma building_nz pgdir g sz img k : building pgdir g sz img k -> pgdir <> 0.
Proof using Hend. intros (free & T & U & m & Hs). by destruct (space_free end_ data_ Hend _ _ _ _ _ _ _ _ _ _ _ Hs) as (? & ? & _ & _ & _ & _ & H). Qed.

(** The inode is unlocked and given back, and the operation ended. *)
Lemma leave_file j n t : held F V sb hi j n t -> wp (iunlockput j ;;; on_log end_op) (fun _ t' => fs_rest F V sb hi t' /\ keeps hi t t') t.
Proof using Htree.
  intros (Ht & _ & _). apply wp_bind. eapply wp_mono; [by apply (iunlockput_spec F V sb Htree hi)|]. intros [] t1 [H1 K1].
  eapply wp_mono; [by apply (rest_end F V sb hi)|]. intros [] t2 (H2 & E & _). split; [done|].
  eapply kept_trans; [exact K1|]. apply kept_closed. by rewrite E.
Qed.

Definition failed (s : xst) : Prop := fs_rest F V sb hi (x_fs s) /\ keeps hi (x_fs s0) (x_fs s) /\ x_glob s = x_glob s0 /\ restored s.

(** [goto bad] with the file open. *)
Lemma bad_file pgdir j n (s : xst) : held F V sb hi j n (x_fs s) -> keeps hi (x_fs s0) (x_fs s) -> x_proc s = x_proc s0 -> x_glob s = x_glob s0 ->
  (pgdir = 0 /\ rolled_back (x_km s) \/ exists g sz img, building pgdir g sz img (x_km s)) ->
  wp (exec_bad end_ pgdir (Some j)) (fun r s' => r = -1 /\ failed s') s.
Proof using Hold Hend Htree.
  intros Hh HK Hp Hg Hvm. unfold exec_bad.
  assert (Hrest : forall k, rolled_back k -> wp (on_fs (iunlockput j ;;; on_log end_op) ;;; ret (-1)) (fun r s' => r = -1 /\ failed s') (set_xkm k s)).
  { intros k Hk. apply wp_bind, wp_on_fs. eapply wp_mono; [by apply (leave_file j n)|]. intros [] t (Ht & Kt). apply wp_ret. split; [done|].
    split_and!; [done|by eapply kept_trans|done|by apply restore]. }
  destruct Hvm as [[-> Hk]|(g & sz & img & Hb)].
  - cbn [Z.eqb negb]. apply wp_bind, wp_ret. destruct s. by apply Hrest.
  - rewrite (proj2 (Z.eqb_neq _ _)) by (by eapply building_nz). cbn [negb]. apply wp_bind.
    eapply building_free; [exact Hb|]. intros _ k Hk. by apply Hrest.
Qed.

Lemma bad_space pgdir g sz img (s : xst) : fs_rest F V sb hi (x_fs s) -> keeps hi (x_fs s0) (x_fs s) -> x_proc s = x_proc s0 -> x_glob s = x_glob s0 ->
  building pgdir g sz img (x_km s) -> wp (exec_bad end_ pgdir None) (fun r s' => r = -1 /\ failed s') s.
Proof using Hold Hend.
  intros Ht HK Hp Hg Hb. unfold exec_bad. rewrite (proj2 (Z.eqb_neq _ _)) by (by eapply building_nz). cbn [negb]. apply wp_bind.
  eapply building_free; [exact Hb|]. intros _ k Hk. apply wp_bind, wp_ret, wp_ret. split; [done|]. split_and!; try done. by apply restore.
Qed.

(** The old address space goes, the new one stays. *)
Lemma commit_space path pgdir sz entry sp img (s : xst) : building pgdir (sz / 4096 - 2) sz img (x_km s) ->
  x_proc s = Xproc pgdir sz entry sp (set_name (last_name path path) (x_proc s0)) ->
  wp (on_vm (freevm end_ old)) (fun _ s' => replaced path img sz entry sp s' /\ exists k, s' = set_xkm k s) s.
Proof using Hold Hend.
  intros (free & T & U & m & Hs) Hproc. pose proof Hs as [Hu Him Hsz Hker Hall Hf Hpte].
  pose proof (uvm_nodup _ _ _ _ _ _ Hold) as Hnd.
  assert (free ⊆ free0) as Hsub by (rewrite <-Hall; clear; set_solver).
  destruct (parent_frame end_ (x_km s0) free0 old T0 U0 m0 (x_km s0) free0 free0 (x_km s) free) as [Hu0 _]; try done.
  { by eapply uvm_kmem. }
  destruct (freevm_run Hend _ _ _ _ _ _ Hu0) as (k' & free' & E & Hk' & Hperm & Hf').
  eapply wp_on_vm; [exact E|]. split; [|by exists k']. exists pgdir, free', T, U, m. split; [exact Hproc|].
  assert (Hown : owned pgdir T U ++ free' ≡ₚ owned old T0 U0 ++ free0).
  { rewrite Hperm, <-Hall, !app_assoc. f_equiv. apply Permutation_app_comm. }
  assert (Hsame : forall a, a ∈ owned pgdir T U -> pages k' !! a = pages (x_km s) !! a).
  { intros a Ha. apply Hf'. apply NoDup_app in Hnd as (_ & Hd & _). intros Ha0. apply (Hd a Ha0). rewrite <-Hall. clear -Ha. set_solver. }
  split; [|by eapply image_frame; [exact Him|]; intros a Ha; apply Hsame; unfold owned; clear -Ha; set_solver|done|done|exact Hown| |done].
  - eapply uvm_frame; [exact Hu|exact Hk'|by rewrite Hown|exact Hsame].
  - cbn [x_km set_xkm]. eapply (frame_trans (owned old T0 U0 ++ free0) (owned old T0 U0)); [eapply frame_mono; [exact Hf|]|exact Hf'|]; clear; set_solver.
Qed.

Definition program_at (n : Z) (path : list Z) (argv : list (list Z)) : option (list Z * Z * Z * Z) :=
  match walk V sb false n (elems path) with
  | Some m => program (contents (dnode V sb m) V) argv
  | None => None
  end.

Definition succeeded (path img : list Z) (sz entry sp : Z) (s : xst) : Prop :=
  fs_rest F V sb hi (x_fs s) /\ keeps hi (x_fs s0) (x_fs s) /\ x_glob s = x_glob s0 /\ replaced path img sz entry sp s.

(** What [exec] promises of a file that stands for [spec]. *)
Definition outcome (path : list Z) (spec : option (list Z * Z * Z * Z)) (r : Z) (s : xst) : Prop :=
  match spec with
  | None => r = -1 /\ failed s
  | Some (img, sz, entry, sp) => (r = -1 /\ failed s /\ short free0 sz) \/ (r = 0 /\ succeeded path img sz entry sp s)
  end.

Lemma outcome_failed path spec r s : r = -1 /\ failed s -> (forall img sz entry sp, spec = Some (img, sz, entry, sp) -> short free0 sz) ->
  outcome path spec r s.
Proof using Type. intros H Hs. destruct spec as [[[[img sz] entry] sp]|]; [|done]. left. split_and!; [apply H..|by eapply Hs]. Qed.

(** From the loaded image on. *)
Lemma finish_exec path argv pgdir img sz entry (s : xst) : short_strings argv -> 0 <= sz ->
  fs_rest F V sb hi (x_fs s) -> keeps hi (x_fs s0) (x_fs s) -> x_proc s = x_proc s0 -> x_glob s = x_glob s0 ->
  building pgdir (-1) sz img (x_km s) ->
  wp (r <- build_stack end_ no_record pgdir sz argv ;;
      match r with
      | None => exec_bad end_ pgdir None
      | Some (sz, sp) =>
          s <- gets id ;;
          let old := p_pgdir (x_proc s) in
          modify (set_xproc (Xproc pgdir sz entry sp (set_name (last_name path path) (x_proc s)))) ;;;
          on_vm (freevm end_ old) ;;;
          ret 0
      end)
    (outcome path (match stack_image argv (img, sz) with Some (img, sz, sp) => Some (img, sz, entry, sp) | None => None end)) s.
Proof using Hold Hend Hdata.
  intros Hstr Hsz Ht HK Hp Hg Hb. apply wp_bind.
  eapply wp_mono; [by apply (build_stack_spec end_ data_ Hend Hdata (x_km s0) free0 pgdir argv sz img s)|].
  intros r s1 (g & sz1 & img1 & k1 & -> & Hb1 & Hres).
  destruct (stack_image argv (img, sz)) as [[[img2 sz2] sp]|]; [destruct Hres as [(-> & -> & -> & ->)|(-> & Hshort)]|subst r].
  - apply wp_bind, wp_gets. cbn [id x_proc set_xkm]. rewrite Hp. apply wp_bind, wp_modify. apply wp_bind.
    eapply wp_mono; [by apply (commit_space path pgdir sz2 entry sp img2)|]. intros [] s2 (Hr & k & ->). apply wp_ret. right.
    split; [done|]. by split_and!.
  - eapply wp_mono; [by apply (bad_space pgdir g sz1 img1)|]. intros r s2 H2. apply outcome_failed; [done|]. by intros ? ? ? ? [= <- <- <- <-].
  - eapply wp_mono; [by apply (bad_space pgdir g sz1 img1)|]. intros r s2 H2. by apply outcome_failed.
Qed.

(** C4: [exec] computes the memory image, entry point and stack pointer that a regular file
    and the arguments stand for ([program]): it returns 0 with the process in a new address
    space that holds exactly this image, the old one freed, or returns -1 with the process,
    the old address space and the set of free pages as before.  It fails when the path does
    not resolve, the file is no program, the arguments do not fit, or memory is short; it
    never panics, whatever the bytes of the file are, and leaves the file system at rest. *)
Theorem exec_correct path argv n : can_resolve F V sb hi (x_fs s0) path n -> short_strings argv ->
  (forall m, walk V sb false n (elems path) = Some m -> regular V sb m) ->
  wp (exec end_ data_ dev_read no_record path argv) (outcome path (program_at n path argv)) s0.
Proof using Hold Hend Hdata Htree Hbits Hbmap.
  intros Hc Hstr Hreg. unfold exec, program_at. apply wp_bind, wp_on_fs. eapply (rest_begin F V sb hi); [apply Hc|].
  apply wp_bind, wp_on_fs. cbn [x_fs set_xfs].
  eapply wp_mono; [by apply (namei_spec F V sb dev_read Htree Hbits Hbmap hi)|]. intros r t1 [K1%kept_opened Hw].
  assert (Hk0 : rolled_back (x_km s0)) by (exists free0; split_and!; [by eapply uvm_kmem|done|done]).
  destruct (walk V sb false n (elems path)) as [m|].
  2:{ destruct Hw as [-> H1]. apply wp_bind, wp_on_fs. eapply wp_mono; [by apply (rest_end F V sb hi)|]. intros [] t2 (H2 & E & _).
      apply wp_ret. split; [done|]. split_and!; [done|apply (kept_closed hi _ t2); by rewrite E|done|by apply restore]. }
  specialize (Hreg m eq_refl). set (c := contents (dnode V sb m) V). destruct Hw as (j & -> & H1 & Hj). apply wp_bind, wp_on_fs.
  eapply wp_mono; [apply (ilock_spec F V sb Htree (j :: hi)); [done|left]|]. intros [] t2 (H2 & K2 & Hl). cbn [x_fs set_xfs] in K2.
  assert (Hh2 : held F V sb hi j m t2) by (split_and!; [done|done|rewrite (kp_at _ _ _ K2) by left; done]).
  apply wp_bind, wp_on_fs. cbn [x_fs set_xfs].
  eapply wp_mono; [apply (read_held dev_read F V sb Htree Hbits Hbmap hi j m Hreg t2 0 ELFHDR Hh2); done|]. intros r t3 (-> & Hh3 & _ & K3).
  assert (HK3 : keeps hi (x_fs s0) t3).
  { eapply kept_trans; [exact K1|]. eapply kept_trans; (eapply keeps_sub; [|eassumption]); intros x; by right. }
  pose proof (length_c V sb m Hreg) as Hlen. pose proof (read_full c 0 ELFHDR ltac:(done) ltac:(done) Hlen) as Hread. fold c.
  set (s3 := set_xfs t3 s0). change (set_xfs t3 _) with s3. unfold program.
  destruct (file_bytes c 0 ELFHDR) as [elf|].
  2:{ rewrite (proj2 (Z.eqb_neq _ _)) by done. cbn [negb]. eapply wp_mono; [apply (bad_file 0 j m s3); try done; by left|].
      intros r s4 H4. by apply outcome_failed. }
  rewrite Hread. cbn [fst snd]. rewrite Z.eqb_refl. cbn [negb]. destruct (negb (eh_magic elf =? ELF_MAGIC)).
  { eapply wp_mono; [apply (bad_file 0 j m s3); try done; by left|]. intros r s4 H4. by apply outcome_failed. }
  destruct (setupkvm_space end_ data_ Hend Hdata (x_km s0) free0 (uvm_kmem _ _ _ _ _ _ Hold)) as (pgdir & k & free & E & Hsetup).
  apply wp_bind. eapply (wp_on_vm _ _ _ pgdir k); [exact E|]. set (s4 := set_xkm k s3).
  assert (Hspec : forall img sz, load_segments (Z.to_nat (eh_phnum elf)) c (s32 (eh_phoff elf)) ([], 0) = Some (img, sz) -> 0 <= sz).
  { intros img sz Hload. by apply load_segments_mono in Hload. }
  destruct Hsetup as [(Hnz & T & mm & Hs)|(-> & Hk & Hperm & Hf & Hfew)].
  2:{ cbn [Z.eqb]. eapply wp_mono; [apply (bad_file 0 j m s4); try done; left; split; [done|by exists free]|].
      intros r s5 H5. apply outcome_failed; [done|]. intros img sz entry sp. destruct (load_segments _ _ _ _) as [[img1 sz1]|]; [|done].
      specialize (Hspec _ _ eq_refl). destruct (stack_image _ _) as [[[img2 sz2] sp2]|] eqn:Est; [|done]. intros [= <- <- _ _].
      apply stack_image_size in Est; [|done]. unfold short. pose proof (pages_of_nonneg sz2). lia. }
  rewrite (proj2 (Z.eqb_neq _ _)) by done.
  assert (Hload : loading end_ data_ F V sb hi j m (x_km s0) free0 pgdir s4 (-1) 0 [] s4).
  { split; try done. by exists free, T, ∅, mm. }
  apply wp_bind. eapply wp_mono; [by apply (load_program_spec end_ data_ Hend dev_read F V sb Htree Hbits Hbmap hi j m Hreg (x_km s0) free0 pgdir s4)|].
  intros r s5 Hr. fold c in Hr. destruct r as [sz|].
  - destruct Hr as (img & Espec & Hl5). rewrite Espec. specialize (Hspec _ _ Espec). destruct Hl5 as [Hh5 Hb5 Hp5 Hg5 K5].
    apply wp_bind, wp_on_fs. eapply wp_mono; [by apply (leave_file j m)|]. intros [] t6 (Ht6 & K6).
    apply (finish_exec path argv pgdir img sz (eh_entry elf) (set_xfs t6 s5)); try done.
    eapply kept_trans; [exact HK3|]. eapply kept_trans; [|exact K6]. eapply keeps_sub; [|exact K5]. intros x; by right.
  - destruct Hr as [(sz' & img' & [Hh5 Hb5 Hp5 Hg5 K5]) Hwhy].
    eapply wp_mono; [apply (bad_file pgdir j m s5); try done|].
    + eapply kept_trans; [exact HK3|]. eapply keeps_sub; [|exact K5]. intros x; by right.
    + right. by eexists _, _, _.
    + intros r s6 H6. apply outcome_failed; [done|]. intros img sz entry sp. destruct Hwhy as [->|(img1 & sz1 & Espec & Hshort)]; [done|].
      rewrite Espec. specialize (Hspec _ _ Espec). destruct (stack_image _ _) as [[[img2 sz2] sp2]|] eqn:Est; [|done]. intros [= <- <- _ _].
      apply stack_image_size in Est; [|done]. by eapply short_mono.
Qed.
End exec.

(** ** Examples *)

(** An ELF file: one segment of 4 bytes and 8 bytes of memory at address 0, entered at 2. *)
Definition ex_elf : list Z :=
  le_bytes 4 ELF_MAGIC ++ replicate 20 0 ++ le_bytes 4 2 ++ le_bytes 4 52 ++ replicate 12 0 ++ le_bytes 2 1 ++ replicate 6 0 ++
  le_bytes 4 ELF_PROG_LOAD ++ le_bytes 4 84 ++ le_bytes 4 0 ++ le_bytes 4 0 ++ le_bytes 4 4 ++ le_bytes 4 8 ++ replicate 8 0 ++
  [11; 22; 33; 44].

(** The program, a guard page and the stack; the argument "ab" at the top of the stack. *)
Example ex_program :
  (fun '(img, sz, entry, sp) => (take 8 img, drop (Z.to_nat sp) img, Z.of_nat (length img), sz, entry, sp)) <$> program ex_elf [[97; 98]] =
  Some ([11; 22; 33; 44; 0; 0; 0; 0], concat (map (le_bytes 4) [0xffffffff; 1; 12276; 12284; 0]) ++ [97; 98; 0; 0], 12288, 12288, 2, 12264).
Proof. by vm_compute. Qed.

Lemma ex_blocks_of : blocks_of (dnode ex_V ex_sb 2) ex_V = [36].
Proof. by vm_compute. Qed.
Lemma ex_size : i_size (dnode ex_V ex_sb 2) = 5.
Proof. by vm_compute. Qed.

Lemma ex_regular : regular ex_V ex_sb 2.
Proof.
  split.
  - vm_compute. discriminate.
  - split; [vm_compute; reflexivity|rewrite ex_blocks_of; apply NoDup_singleton|]. rewrite ex_blocks_of. intros a ->%list_elem_of_singleton.
    split; [split; [vm_compute; discriminate|vm_compute; reflexivity]|vm_compute; reflexivity].
  - split; rewrite ex_size; [split; [vm_compute; discriminate|vm_compute; discriminate]|]. intros k Hk. rewrite Z.div_small by lia. vm_compute. discriminate.
  - replace (contents (dnode ex_V ex_sb 2) ex_V) with [1; 2; 3; 4; 5] by (vm_compute; reflexivity). repeat (constructor; [unfold is_byte; lia|]). constructor.
Qed.

(** "/./a" is no program. *)
Lemma exec_correct_witness : exists k free T m,
  uvm 0x80100000 k free 0x80103000 T {[0 := 0x80102000]} m /\
  wp (exec 0x80100000 0x80101000 no_read no_record [47; 46; 47; 97] [[97]]) (fun r s => r = -1 /\ p_pgdir (x_proc s) = 0x80103000)
    (Xst ex_state k (Xproc 0x80103000 5 0 0 (replicate 16 0)) tt).
Proof.
  destruct demo_parent as (k & free & T & m & Hu). exists k, free, T, m. split; [exact Hu|].
  eapply wp_mono; [apply (exec_correct 0x80100000 0x80101000 ltac:(reflexivity) ltac:(vm_compute; split_and!; congruence)
    no_read ex_F ex_V ex_sb ex_tree ex_bits ex_bmap [0; 1]%nat (Xst ex_state k (Xproc 0x80103000 5 0 0 (replicate 16 0)) tt)
    T {[0 := 0x80102000]} m free Hu [47; 46; 47; 97] [[97]] 1)|].
  - apply ex_can_resolve; [reflexivity|]. apply (bool_decide_unpack _). vm_compute. exact I.
  - repeat constructor.
  - intros n. replace (walk ex_V ex_sb false 1 (elems [47; 46; 47; 97])) with (Some 2) by (vm_compute; reflexivity).
    intros [= <-]. exact ex_regular.
  - intros r s. unfold outcome, program_at.
    replace (walk ex_V ex_sb false 1 (elems [47; 46; 47; 97])) with (Some 2) by (vm_compute; reflexivity).
    replace (contents (dnode ex_V ex_sb 2) ex_V) with [1; 2; 3; 4; 5] by (vm_compute; reflexivity).
    replace (program [1; 2; 3; 4; 5] [[97]]) with (@None (list Z * Z * Z * Z)) by (vm_compute; reflexivity).
    intros [-> (_ & _ & _ & [Hp _])]. split; [reflexivity|]. rewrite Hp. reflexivity.
Defined.
