(* ===== verification/GetLastCat.v ===== *)
(** * The system call of project 2 (src/p2/xv6/initial-xv6/src: exec.c, sysproc.c)

    Between the arguments and the stack, [exec] records that [cat] is run, its last argument
    and whether all its files exist; [getlastcat] copies a text about it to the caller.  The
    record is the component [x_glob] of the state of [Exec].  The specification keeps what the
    recorded commands amount to. *)

From S2P Require Import Prelude Bytes Kalloc File Bio Log CStr Fs FsWrite Sysfile SysfileProofs Exec.
From Stdlib Require Ascii.

Definition CAT_S : nat := 1024.

(** [cat_s], [arg_num], [indicator] and [file_DNE] *)
Record lastcat := Lastcat { cat_s : list Z; arg_num : Z; indicator : Z; file_DNE : Z }.
Definition boot_cat : lastcat := Lastcat (replicate CAT_S 0) 0 0 0.
Definition set_cat_s (x : list Z) (c : lastcat) : lastcat := Lastcat x (arg_num c) (indicator c) (file_DNE c).
Definition set_arg_num (x : Z) (c : lastcat) : lastcat := Lastcat (cat_s c) x (indicator c) (file_DNE c).
Definition set_indicator (x : Z) (c : lastcat) : lastcat := Lastcat (cat_s c) (arg_num c) x (file_DNE c).
Definition set_file_DNE (x : Z) (c : lastcat) : lastcat := Lastcat (cat_s c) (arg_num c) (indicator c) x.

(** [strncmp(p, q, n) == 0] and [strncpy(s, t, n)] of the kernel on strings. *)
Definition strncmp_eq (n : nat) (p q : list Z) : bool := bool_decide (take n (p ++ [0]) = take n (q ++ [0])).
Definition strncpy (t : list Z) (n : nat) : list Z := take n (t ++ replicate n 0).
(** [safestrcpy(s, t, n)]: the bytes stored, for a [t] that ends with a NUL or has [n] bytes. *)
Definition safestrcpy (t : list Z) (n : nat) : list Z := take (n - 1) (default t (cstr t)) ++ [0].

Section getlastcat.
Context (dev_read : Z -> option (nat -> Z -> M fss (Z * list Z))).
Abbreviation xst := (xst (G := lastcat)).

Definition note (f : lastcat -> lastcat) : M xst unit := modify (fun s => Xst (x_fs s) (x_km s) (x_proc s) (f (x_glob s))).

(** The loop over the arguments. *)
Fixpoint check_files (args : list (list Z)) : M xst unit :=
  match args with
  | [] => ret tt
  | a :: args' =>
      r <- on_fs (namei dev_read a) ;;
      match r with
      | None => note (set_file_DNE 1)
      | Some _ => check_files args'
      end
  end.

(** What project 2 adds to [exec]; [sizeof(argv[0])] is the size of a pointer. *)
Definition record_cat (argv : list (list Z)) : M xst unit :=
  a0 <- deref "argv[0]" (head argv) ;;
  if strncmp_eq 4 a0 (str "cat") then
    note (set_indicator 1) ;;;
    match tail argv with
    | [] => note (set_arg_num 0)
    | args =>
        l <- deref "argv" (last argv) ;;
        note (set_cat_s (strncpy l CAT_S)) ;;;
        note (set_arg_num 1) ;;;
        check_files args
    end
  else ret tt.

Context {P : Type} {pipes : PipeServices P}.

(** The calling process and the record. *)
Record gsys := Gsys { g_sys : sys (P := P); g_cat : lastcat }.
Definition on_sys {A} (m : M sys A) : M gsys A := zoom g_sys (fun x s => Gsys x (g_cat s)) m.
(** The kernel writes to the memory of the process without a check. *)
Definition tell (p : Z) (t : list Z) : M gsys Z :=
  s <- gets id ;;
  (if p + Z.of_nat (length (safestrcpy t 1024)) <=? sz (g_sys s) then ret tt else undef "user memory") ;;;
  on_sys (poke p (safestrcpy t 1024)) ;;;
  ret 0.

(** [argstr] gives the address of the buffer when a NUL follows it in the memory. *)
Definition sys_getlastcat : M gsys Z :=
  r <- on_sys (argstr 0) ;;
  match r with
  | None => ret (-1)
  | Some _ =>
      b <- on_sys (argint 0) ;;
      let buf := match b with Some i => u32 i | None => 0 end in
      if buf =? 0 then ret (-1)
      else
        s <- gets id ;;
        let c := g_cat s in
        if file_DNE c =? 1 then
          r <- tell buf (str "Invalid filename" ++ [0]) ;;
          modify (fun s => Gsys (g_sys s) (set_file_DNE 0 (g_cat s))) ;;;
          ret r
        else if indicator c =? 0 then tell buf (str "Cat has not yet been called" ++ [0])
        else if arg_num c =? 0 then tell buf (str "No args were passed" ++ [0])
        else tell buf (cat_s c)
  end.

(** ** Specification *)

(** Whether a missing file is to be reported, and the last [cat], if there was one: its last
    argument, if it had one. *)
Record heard := Heard { missing : bool; latest : option (option (list Z)) }.

(** A command that looks up its arguments; [lost] when one is not found. *)
Definition hear (argv : list (list Z)) (lost : bool) (h : heard) : heard :=
  match argv with
  | a0 :: args =>
      if str_eqb a0 (str "cat") then
        match last args with
        | None => Heard (missing h) (Some None)
        | Some l => Heard (missing h || lost) (Some (Some l))
        end
      else h
  | [] => h
  end.
Definition text (h : heard) : list Z :=
  if missing h then str "Invalid filename"
  else match latest h with
       | None => str "Cat has not yet been called"
       | Some None => str "No args were passed"
       | Some (Some l) => l
       end.

(** The history, newest first: programs run with their arguments (the flag tells that a file
    was not found among those that [exec] looks up for [cat]) and calls of [getlastcat]. *)
Inductive event := Ran (argv : list (list Z)) (lost : bool) | Asked.
(** Some [cat] since the last call of [getlastcat] named a file that was not found. *)
Fixpoint failed_since (evs : list event) : bool :=
  match evs with
  | Ran argv lost :: evs => str_eqb (hd [] argv) (str "cat") && bool_decide (tail argv <> []) && lost || failed_since evs
  | Asked :: _ | [] => false
  end.
(** The last argument of the last [cat]. *)
Fixpoint last_cat (evs : list event) : option (option (list Z)) :=
  match evs with
  | Ran argv lost :: evs => if negb (bool_decide (argv = [])) && str_eqb (hd [] argv) (str "cat") then Some (last (tail argv)) else last_cat evs
  | Asked :: evs => last_cat evs
  | [] => None
  end.
Definition history (evs : list event) : heard := Heard (failed_since evs) (last_cat evs).

Lemma history_ran argv lost evs : argv <> [] -> hear argv lost (history evs) = history (Ran argv lost :: evs).
Proof using Type.
  destruct argv as [|a0 args]; [done|]. intros _. unfold history, hear. cbn [failed_since last_cat hd tail].
  rewrite (bool_decide_false (a0 :: args = [])) by done. cbn [negb andb].
  destruct (str_eqb a0 (str "cat")); [|done]. destruct (last args) as [l|] eqn:El.
  - rewrite bool_decide_true by (by intros ->). cbn. by rewrite orb_comm.
  - apply last_None in El as ->. by rewrite bool_decide_false by (intros H; by apply H).
Qed.

Record recorded (c : lastcat) (h : heard) : Prop := Recorded {
  re_missing : file_DNE c = if missing h then 1 else 0;
  re_latest : match latest h with
    | None => indicator c = 0
    | Some None => indicator c = 1 /\ arg_num c = 0
    | Some (Some l) => indicator c = 1 /\ arg_num c = 1 /\ cat_s c = strncpy l CAT_S /\ NUL ∉ l
    end
}.

(** The searches for the arguments up to the first that fails. *)
Inductive looked_up : list (list Z) -> fss -> bool -> fss -> Prop :=
| lu_end s : looked_up [] s false s
| lu_lost a args s s' : namei dev_read a s = Ret None s' -> looked_up (a :: args) s true s'
| lu_found a args s i s' lost s'' : namei dev_read a s = Ret (Some i) s' -> looked_up args s' lost s'' -> looked_up (a :: args) s lost s''.

Lemma boot_recorded : recorded boot_cat (Heard false None).
Proof using Type. done. Qed.

(** Four bytes are compared, the NUL of "cat" included. *)
Lemma strncmp_cat a : NUL ∉ a -> strncmp_eq 4 a (str "cat") = str_eqb a (str "cat").
Proof using Type.
  intros Ha. apply eq_true_iff_eq. unfold strncmp_eq. rewrite bool_decide_eq_true, str_eqb_eq. split; [|by intros ->].
  change (take 4 (str "cat" ++ [0])) with (str "cat" ++ [0]). intros E. destruct a as [|x [|y [|z [|w a]]]]; try (cbn in E; simplify_eq; fail).
  - cbn in E |- *. by simplify_eq.
  - exfalso. cbn in E. apply Ha. simplify_eq. right. right. right. left.
Qed.

Lemma check_files_spec args s lost t : looked_up args (x_fs s) lost t ->
  check_files args s = Ret tt (Xst t (x_km s) (x_proc s) (if lost then set_file_DNE 1 (x_glob s) else x_glob s)).
Proof using Type.
  intros H. remember (x_fs s) as f eqn:Ef. revert s Ef.
  induction H as [f|a args f f' E|a args f i f' lost f'' E _ IH]; intros s Ef; subst; cbn [check_files]; [by destruct s| |].
  - unfold bind, on_fs, zoom. by rewrite E.
  - unfold bind, on_fs, zoom. rewrite E. by rewrite (IH (set_xfs f' s) eq_refl).
Qed.

Lemma record_cat_spec argv s lost t h : argv <> [] -> Forall (fun a => NUL ∉ a) argv ->
  (if str_eqb (hd [] argv) (str "cat") then looked_up (tail argv) (x_fs s) lost t else t = x_fs s) -> recorded (x_glob s) h ->
  exists c, record_cat argv s = Ret tt (Xst t (x_km s) (x_proc s) c) /\ recorded c (hear argv lost h).
Proof using Type.
  destruct argv as [|a0 args]; [done|]. intros _ [Ha Hargs]%Forall_cons Hlook [Hm Hl]. unfold record_cat, bind at 1. cbn [head deref ret tail hd hear] in *.
  rewrite strncmp_cat by done. destruct (str_eqb a0 (str "cat")).
  2:{ exists (x_glob s). rewrite Hlook. by destruct s. }
  unfold bind at 1, note at 1, modify at 1. destruct args as [|a args].
  - inversion Hlook; subst. eexists. split; [reflexivity|]. by split.
  - unfold bind at 1. assert (last (a0 :: a :: args) = last (a :: args)) as -> by done.
    destruct (last (a :: args)) as [l|] eqn:El; [|by apply last_None in El]. cbn [deref ret].
    unfold bind, note, modify. rewrite (check_files_spec (a :: args) _ lost t) by done. eexists. split; [reflexivity|].
    assert (NUL ∉ l) as Hl0.
    { rewrite Forall_forall in Hargs. apply Hargs. apply last_Some in El as (pre & ->). apply elem_of_app. right. left. }
    cbn. split; cbn; [|by destruct lost]. destruct lost; cbn; [by destruct (missing h)|]. by rewrite orb_false_r, Hm.
Qed.

Lemma cstr_text t : NUL ∉ t -> forall r, cstr (t ++ 0 :: r) = Some t.
Proof using Type.
  induction t as [|c t IH]; intros H r; [done|]. apply not_elem_of_cons in H as [Hc H]. cbn. destruct (Z.eqb_spec c 0); [unfold NUL in Hc; lia|].
  by rewrite IH.
Qed.

(** The copy of a copy is the text up to the size of the buffer. *)
Lemma safestrcpy_strncpy l : NUL ∉ l -> safestrcpy (strncpy l CAT_S) 1024 = take 1023 l ++ [0].
Proof using Type.
  intros Hl. unfold safestrcpy, strncpy. f_equal. change (1024 - 1)%nat with 1023%nat. destruct (Nat.le_gt_cases CAT_S (length l)) as [Hle|Hgt].
  - assert (take CAT_S (l ++ replicate CAT_S 0) = take CAT_S l) as -> by (by rewrite take_app_le).
    assert (cstr (take CAT_S l) = None) as ->.
    { assert (NUL ∉ take CAT_S l) as Hn by (intros H; apply Hl; rewrite <-(take_drop CAT_S l); apply elem_of_app; by left).
      induction (take CAT_S l) as [|c t IH]; [done|]. apply not_elem_of_cons in Hn as [Hc Hn]. cbn. destruct (Z.eqb_spec c 0); [unfold NUL in Hc; lia|]. by rewrite IH. }
    cbn [default]. rewrite take_take. done.
  - rewrite take_app_ge by lia. assert (take (CAT_S - length l) (replicate CAT_S 0) = 0 :: replicate (CAT_S - length l - 1) 0) as ->.
    { rewrite take_replicate, Nat.min_l by lia. destruct (CAT_S - length l)%nat as [|k] eqn:Ek; [lia|]. cbn. by rewrite Nat.sub_0_r. }
    by rewrite cstr_text.
Qed.

Lemma safestrcpy_text t : NUL ∉ t -> safestrcpy (t ++ [0]) 1024 = take 1023 t ++ [0].
Proof using Type. intros Ht. unfold safestrcpy. by rewrite cstr_text. Qed.

(** C28: what [getlastcat] answers after any history of programs and earlier calls. The record
    that [exec] keeps stands for the history; the call returns 0 and stores, cut at 1023 bytes
    and with its NUL, "Invalid filename" when some [cat] since the call before named a file that
    was not found, even if later ones did not (nothing but the call clears that flag), and
    otherwise the last argument of the last [cat], or that it had none, or that there was no
    [cat].  Nothing else of the caller's memory changes.  It fails for a null pointer, and for a
    buffer without a NUL behind its address. *)
Theorem getlastcat_refines :
  recorded boot_cat (history []) /\
  (forall argv (s : xst) lost t evs, argv <> [] -> Forall (fun a => NUL ∉ a) argv ->
    (if str_eqb (hd [] argv) (str "cat") then looked_up (tail argv) (x_fs s) lost t else t = x_fs s) -> recorded (x_glob s) (history evs) ->
    exists c, record_cat argv s = Ret tt (Xst t (x_km s) (x_proc s) c) /\ recorded c (history (Ran argv lost :: evs))) /\
  (forall (s : gsys) evs, user_sized (g_sys s) -> recorded (g_cat s) (history evs) ->
    match str_arg (g_sys s) 0, arg (g_sys s) 0 with
    | Some _, Some i =>
        if u32 i =? 0 then sys_getlastcat s = Ret (-1) s
        else
          let stored := take 1023 (text (history evs)) ++ [0] in
          u32 i + Z.of_nat (length stored) <= sz (g_sys s) ->
          exists c, recorded c (history (Asked :: evs)) /\
            sys_getlastcat s = Ret 0 (Gsys (set_mem (splice (Z.to_nat (u32 i)) stored (u_mem (y_proc (g_sys s)))) (g_sys s)) c)
    | _, _ => sys_getlastcat s = Ret (-1) s
    end).
Proof using Type.
  split; [done|]. split.
  { intros argv s lost t evs Hne. rewrite <-history_ran by done. by apply record_cat_spec. }
  intros [y c] evs Hu Hr. change (history (Asked :: evs)) with (Heard false (latest (history evs))). set (h := history evs) in *. cbn [g_sys g_cat] in *. unfold sys_getlastcat, on_sys, bind, zoom. cbn [g_sys].
  rewrite argstr_run by done. destruct (str_arg y 0) as [w|] eqn:Ew; [|done].
  assert (exists i, arg y 0 = Some i) as [i Ei] by (unfold str_arg in Ew; destruct (arg y 0) as [i|]; [by exists i|done]).
  cbn [g_sys]. rewrite argint_run by done. rewrite Ei. destruct (u32 i =? 0); [done|]. cbv zeta. intros Hfit.
  assert (Htell : forall c0 t, safestrcpy t 1024 = take 1023 (text h) ++ [0] -> tell (u32 i) t (Gsys y c0) =
    Ret 0 (Gsys (set_mem (splice (Z.to_nat (u32 i)) (take 1023 (text h) ++ [0]) (u_mem (y_proc y))) y) c0)).
  { intros c0 t Et. unfold tell, bind, gets, on_sys, zoom, poke, modify. cbn [id g_sys]. rewrite Et.
    destruct (Z.leb_spec (u32 i + Z.of_nat (length (take 1023 (text h) ++ [0]))) (sz y)); [done|lia]. }
  cbn [gets id g_cat]. destruct Hr as [Hm Hl]. destruct c as [cs an ind dne]. cbn [file_DNE indicator arg_num cat_s] in *. unfold text in *. subst dne.
  destruct (missing h).
  - change (1 =? 1) with true. cbv iota beta. rewrite Htell by (by vm_compute). eexists. split; [|reflexivity]. by split.
  - change (0 =? 1) with false. cbv iota beta. exists (Lastcat cs an ind 0). split; [by split|]. destruct (latest h) as [[l|]|].
    + destruct Hl as (-> & -> & -> & Hl0). change (1 =? 0) with false. cbv iota. apply Htell. by apply safestrcpy_strncpy.
    + destruct Hl as [-> ->]. cbn. apply Htell. by vm_compute.
    + rewrite Hl. cbn. apply Htell. by vm_compute.
Qed.
End getlastcat.

(** ** Where the call departs from its description *)

(** The flag of a missing file survives a later [cat] whose files all exist. *)
Example stale_missing : text (history [Ran [str "cat"; str "README"] false; Ran [str "cat"; str "none"] true]) = str "Invalid filename".
Proof. reflexivity. Qed.
(** The second call after a [cat] with a missing file reports the name. *)
Example second_call : text (history [Asked; Ran [str "cat"; str "none"] true]) = str "none".
Proof. reflexivity. Qed.

(** ** The call after [cat /] *)

#[local] Instance pipeless : PipeServices unit := {
  pipe_close _ _ := ret tt;
  pipe_read _ _ := ret (-1, []);
  pipe_write _ _ _ := ret (-1);
  pipe_new := ret 0
}.
Definition no_dev : Z -> option (nat -> Z -> M fss (Z * list Z)) := fun _ => None.
(** The argument of [getlastcat] is the address 8; the memory is zeroed. *)
Definition cat_proc : sys (P := unit) :=
  Sys (mk_fst (replicate NFILE zero_file) (Kenv ex_state tt)) (Uproc (replicate 4 0 ++ le_bytes 4 8 ++ replicate 192 0) 0 (replicate NOFILE None)).
Definition cat_exec : xst (G := lastcat) :=
  Xst ex_state (mk_kmem false false 0 ∅) (Xproc 0 0 0 0 []) boot_cat.

Lemma getlastcat_refines_witness : exists s' c, record_cat no_dev [str "cat"; str "/"] cat_exec = Ret tt s' /\
  sys_getlastcat (Gsys cat_proc (x_glob s')) = Ret 0 (Gsys (set_mem (splice 8 [47; 0] (u_mem (y_proc cat_proc))) cat_proc) c).
Proof.
  destruct (getlastcat_refines no_dev (P := unit)) as (H0 & Hrec & Hget).
  assert (exists t, looked_up no_dev [str "/"] ex_state false t) as [t Ht].
  { eexists. eapply lu_found; [vm_compute; reflexivity|apply lu_end]. }
  destruct (Hrec [str "cat"; str "/"] cat_exec false t []) as (c & Ec & Hc); [done| |exact Ht|exact H0|].
  { repeat constructor; apply (bool_decide_unpack _); by vm_compute. }
  exists (Xst t (x_km cat_exec) (x_proc cat_exec) c). cbn [x_glob].
  specialize (Hget (Gsys cat_proc c) _ ltac:(vm_compute; discriminate) Hc). cbn [g_sys] in Hget.
  change (str_arg cat_proc 0) with (Some (@nil Z)) in Hget. change (arg cat_proc 0) with (Some 8) in Hget. change (u32 8) with 8 in Hget.
  destruct Hget as (c' & _ & E); [by vm_compute|]. exists c'. split; [exact Ec|]. exact E.
Defined.
