(* ===== verification/Ports.v ===== *)
(** * Input and output ports

    The instructions [in] and [out] on the devices [D], which are outside the program.  The
    drivers are defined over these classes; their theorems state what a device does as laws. *)

From S2P Require Import Prelude.

(** [inb] and [outb] of x86.h *)
Class Ports (D : Type) := {
  outb : Z -> Z -> M D unit;
  inb : Z -> M D Z
}.

(** [outsl] and [insl]: words between memory and a port. *)
Class BlockPorts (D : Type) := {
  outsl : Z -> list Z -> M D unit;
  insl : Z -> nat -> M D (list Z)
}.
