(* ===== verification/Console.v ===== *)
(** * The console (console.c, uart.c, kbd.c)

    Input: the keyboard or the serial port interrupts with characters, [consoleintr] edits
    the current line in a ring of 128 bytes and [consoleread] takes whole lines out of it.
    Output: [consputc] writes to the serial port and to the screen memory.  The ports of the
    devices are the class [Ports]; sections under [cons.lock] run as one step. *)

From S2P Require Import Prelude Ports.

Definition INPUT_BUF : Z := 128.
Definition BACKSPACE : Z := 0x100.
Definition CRTPORT : Z := 0x3d4.
Definition COM1 : Z := 0x3f8.
(** [C(x)], Control-x *)
Definition ctrl (x : Z) : Z := x - 64.
Definition LF : Z := 10.

(** [input]: the ring with its read, write and edit index. *)
Record ring := Ring { i_buf : list Z; i_r : Z; i_w : Z; i_e : Z }.

Section console.
Context {D : Type} {ports : Ports D}.

(** The devices, the screen memory, [panicked], [uart], the [shift] of the keyboard and
    [input]. *)
Record cst := Cst { c_dev : D; c_crt : list Z; c_panicked : bool; c_uart : bool; c_shift : Z; c_in : ring }.
Definition set_dev (x : D) (s : cst) : cst := Cst x (c_crt s) (c_panicked s) (c_uart s) (c_shift s) (c_in s).
Definition set_crt (x : list Z) (s : cst) : cst := Cst (c_dev s) x (c_panicked s) (c_uart s) (c_shift s) (c_in s).
Definition set_uart (x : bool) (s : cst) : cst := Cst (c_dev s) (c_crt s) (c_panicked s) x (c_shift s) (c_in s).
Definition set_shift (x : Z) (s : cst) : cst := Cst (c_dev s) (c_crt s) (c_panicked s) (c_uart s) x (c_in s).
Definition set_in (x : ring) (s : cst) : cst := Cst (c_dev s) (c_crt s) (c_panicked s) (c_uart s) (c_shift s) x.
Definition on_dev {A} (m : M D A) : M cst A := zoom c_dev set_dev m.
Definition out (p v : Z) : M cst unit := on_dev (outb p (u8 v)).
Definition inp (p : Z) : M cst Z := on_dev (inb p).

(** ** Serial port (uart.c) *)

(** [microdelay] does nothing. *)
Fixpoint uart_wait (n : nat) : M cst unit :=
  match n with
  | O => ret tt
  | S n' =>
      st <- inp (COM1 + 5) ;;
      if Z.land st 0x20 =? 0 then uart_wait n' else ret tt
  end.
Definition uartputc (c : Z) : M cst unit :=
  s <- gets id ;;
  if negb (c_uart s) then ret tt
  else uart_wait 128 ;;; out COM1 c.

Definition uartgetc : M cst Z :=
  s <- gets id ;;
  if negb (c_uart s) then ret (-1)
  else
    st <- inp (COM1 + 5) ;;
    if Z.land st 0x01 =? 0 then ret (-1) else inp COM1.

(** The names of the letters of "xv6...\n"; [ioapicenable] programs the interrupt
    controller. *)
Definition greeting : list Z := [120; 118; 54; 46; 46; 46; LF].
Definition uartinit (ioapicenable : M D unit) : M cst unit :=
  out (COM1 + 2) 0 ;;; out (COM1 + 3) 0x80 ;;; out COM1 12 ;;; out (COM1 + 1) 0 ;;;
  out (COM1 + 3) 0x03 ;;; out (COM1 + 4) 0 ;;; out (COM1 + 1) 0x01 ;;;
  st <- inp (COM1 + 5) ;;
  if st =? 0xFF then ret tt
  else
    modify (set_uart true) ;;;
    inp (COM1 + 2) ;;; inp COM1 ;;; on_dev ioapicenable ;;;
    fold_right (fun c m => uartputc c ;;; m) (ret tt) greeting.

(** ** Screen *)

Definition crt_set (i v : Z) : M cst unit :=
  s <- gets id ;;
  (if (0 <=? i) && (i <? Z.of_nat (length (c_crt s))) then ret tt else undef "crt: outside the screen memory") ;;;
  modify (set_crt (<[Z.to_nat i := v]> (c_crt s))).

(** [memmove(crt, crt+80, ...)] and [memset(crt+pos, 0, ...)], by cells. *)
Definition scroll (pos : Z) (crt : list Z) : list Z :=
  let crt := take (23 * 80) (drop 80 crt) ++ drop (23 * 80) crt in
  take (Z.to_nat pos) crt ++ replicate (Z.to_nat (24 * 80 - pos)) 0 ++ drop (24 * 80) crt.

Definition cgaputc (c : Z) : M cst unit :=
  out CRTPORT 14 ;;;
  h <- inp (CRTPORT + 1) ;;
  out CRTPORT 15 ;;;
  l <- inp (CRTPORT + 1) ;;
  let pos := Z.lor (Z.shiftl h 8) l in
  pos <- (if c =? LF then ret (pos + (80 - pos mod 80))
          else if c =? BACKSPACE then ret (if 0 <? pos then pos - 1 else pos)
          else crt_set pos (Z.lor (Z.land c 0xff) 0x0700) ;;; ret (pos + 1)) ;;
  panic_if ((pos <? 0) || (25 * 80 <? pos)) "pos under/overflow" ;;;
  pos <- (if 24 <=? pos / 80 then
            modify (fun s => set_crt (scroll (pos - 80) (c_crt s)) s) ;;; ret (pos - 80)
          else ret pos) ;;
  out CRTPORT 14 ;;;
  out (CRTPORT + 1) (Z.shiftr pos 8) ;;;
  out CRTPORT 15 ;;;
  out (CRTPORT + 1) pos ;;;
  crt_set pos (Z.lor 32 0x0700).

(** [for(;;);] *)
Definition freeze {A} : M cst A := fun _ => Timeout.

Definition consputc (c : Z) : M cst unit :=
  s <- gets id ;;
  if c_panicked s then freeze
  else
    (if c =? BACKSPACE then uartputc 8 ;;; uartputc 32 ;;; uartputc 8 else uartputc c) ;;;
    cgaputc c.

Fixpoint putall (cs : list Z) : M cst unit :=
  match cs with
  | [] => ret tt
  | c :: cs' => consputc c ;;; putall cs'
  end.

(** ** printint and cprintf *)

Definition digit (d : Z) : Z := if d <? 10 then 48 + d else 87 + d.

(** The digits from the least significant on, as the first loop puts them into [buf]. *)
Fixpoint digits (fuel : nat) (base x : Z) : list Z :=
  match fuel with
  | O => []
  | S f => digit (x mod base) :: (if x / base =? 0 then [] else digits f base (x / base))
  end.

(** [char buf[16]] *)
Definition printint (xx base : Z) (sign : bool) : M cst unit :=
  let neg := sign && (xx <? 0) in
  let x := if neg then u32 (- xx) else u32 xx in
  let buf := digits 32 base x ++ (if neg then [45] else []) in
  (if (length buf <=? 16)%nat then ret tt else undef "printint: buf") ;;;
  putall (rev buf).

(** The arguments are the words after [fmt]; [str] is the string at an address. *)
Definition next_arg (args : list Z) : M cst (Z * list Z) :=
  match args with a :: args' => ret (a, args') | [] => undef "cprintf: argument" end.

Definition null_text : list Z := [40; 110; 117; 108; 108; 41].

Fixpoint cprintf (str : Z -> option (list Z)) (fmt : list Z) (args : list Z) : M cst unit :=
  match fmt with
  | [] => ret tt
  | c :: fmt' =>
      if negb (c =? 37) then consputc c ;;; cprintf str fmt' args
      else
        match fmt' with
        | [] => ret tt
        | c :: fmt'' =>
            if c =? 100 then a <- next_arg args ;; printint (s32 (fst a)) 10 true ;;; cprintf str fmt'' (snd a)
            else if (c =? 120) || (c =? 112) then a <- next_arg args ;; printint (s32 (fst a)) 16 false ;;; cprintf str fmt'' (snd a)
            else if c =? 115 then
              a <- next_arg args ;;
              t <- (if fst a =? 0 then ret null_text else deref "cprintf: %s" (str (fst a))) ;;
              putall t ;;; cprintf str fmt'' (snd a)
            else if c =? 37 then consputc 37 ;;; cprintf str fmt'' args
            else consputc 37 ;;; consputc c ;;; cprintf str fmt'' args
        end
  end.

(** ** Input *)

Definition get_in : M cst ring := gets c_in.
(** [input.buf[i % INPUT_BUF]]; [char] is signed. *)
Definition at_ (i : Z) (b : ring) : Z := nth (Z.to_nat (i mod INPUT_BUF)) (i_buf b) 0.

(** [input.e--; consputc(BACKSPACE)] *)
Definition rub_out : M cst unit :=
  modify (fun s => let b := c_in s in set_in (Ring (i_buf b) (i_r b) (i_w b) (u32 (i_e b - 1))) s) ;;;
  consputc BACKSPACE.

(** The loop of [C('U')]; at most [INPUT_BUF] rounds. *)
Fixpoint kill_line (fuel : nat) : M cst unit :=
  match fuel with
  | O => fun _ => Timeout
  | S f =>
      b <- get_in ;;
      if negb (i_e b =? i_w b) && negb (at_ (u32 (i_e b - 1)) b =? LF)
      then rub_out ;;; kill_line f
      else ret tt
  end.

Definition store (c : Z) (b : ring) : ring :=
  Ring (<[Z.to_nat (i_e b mod INPUT_BUF) := c]> (i_buf b)) (i_r b) (i_w b) (u32 (i_e b + 1)).

(** One character; true for [C('P')].  A wakeup of the readers is the second result. *)
Definition intr_char (c : Z) : M cst (bool * bool) :=
  if c =? ctrl 80 then ret (true, false)
  else if c =? ctrl 85 then kill_line (S (Z.to_nat INPUT_BUF)) ;;; ret (false, false)
  else if (c =? ctrl 72) || (c =? 0x7f) then
    b <- get_in ;;
    (if negb (i_e b =? i_w b) then rub_out else ret tt) ;;;
    ret (false, false)
  else
    b <- get_in ;;
    if negb (c =? 0) && (u32 (i_e b - i_r b) <? INPUT_BUF) then
      let c := if c =? 13 then LF else c in
      modify (set_in (store (u8 c) b)) ;;;
      consputc c ;;;
      b <- get_in ;;
      if (c =? LF) || (c =? ctrl 68) || (i_e b =? u32 (i_r b + INPUT_BUF)) then
        modify (set_in (Ring (i_buf b) (i_r b) (i_e b) (i_e b))) ;;; ret (false, true)
      else ret (false, false)
    else ret (false, false).

(** The loop over [getc]: whether to list the processes, and whether the readers were woken. *)
Fixpoint consoleintr (fuel : nat) (getc : M cst Z) : M cst (bool * bool) :=
  match fuel with
  | O => fun _ => Timeout
  | S f =>
      c <- getc ;;
      if c <? 0 then ret (false, false)
      else
        p <- intr_char c ;;
        q <- consoleintr f getc ;;
        ret (fst p || fst q, snd p || snd q)
  end.
Definition uartintr (fuel : nat) : M cst (bool * bool) := consoleintr fuel uartgetc.

(** A run of [consoleread] from a test of [input.r == input.w] to its end or to a sleep:
    the bytes copied in this run. *)
Inductive cend :=
| CDone (bs : list Z)
| CFail
| CSleep (bs : list Z).

Definition cons_end (c : Z) (r : cend) : cend :=
  match r with CDone bs => CDone (c :: bs) | CSleep bs => CSleep (c :: bs) | CFail => CFail end.

(** [n] bytes are still wanted of [target]. *)
Fixpoint consoleread (killed : bool) (target : Z) (n : nat) (b : ring) : cend * ring :=
  match n with
  | O => (CDone [], b)
  | S n' =>
      if i_r b =? i_w b then (if killed then CFail else CSleep [], b)
      else
        let c := at_ (i_r b) b in
        let b' := Ring (i_buf b) (u32 (i_r b + 1)) (i_w b) (i_e b) in
        if c =? ctrl 68 then
          (CDone [], if Z.of_nat n <? target then Ring (i_buf b) (u32 (i_r b' - 1)) (i_w b) (i_e b) else b')
        else if c =? LF then (CDone [c], b')
        else
          let '(r, b'') := consoleread killed target n' b' in (cons_end c r, b'')
  end.

(** [n] bytes to the screen. *)
Definition consolewrite (buf : list Z) : M cst Z :=
  putall (map (fun c => Z.land c 0xff) buf) ;;; ret (Z.of_nat (length buf)).
End console.
Arguments cst : clear implicits.
