(* ===== verification/Kbd.v ===== *)
(** * The keyboard (kbd.c, kbd.h)

    Scan codes to characters: the tables of kbd.h, the modifier keys and the escape 0xE0. *)

From S2P Require Import Prelude Ports Console.

Definition KBSTATP : Z := 0x64.
Definition KBS_DIB : Z := 0x01.
Definition KBDATAP : Z := 0x60.
Definition NO : Z := 0.
Definition SHIFT : Z := 1.
Definition CTL : Z := 2.
Definition ALT : Z := 4.
Definition CAPSLOCK : Z := 8.
Definition NUMLOCK : Z := 16.
Definition SCROLLLOCK : Z := 32.
Definition E0ESC : Z := 64.

(** An initialiser of [uchar[256]]: the elements in order, then those with an index. *)
Definition table (base : list Z) (extra : list (Z * Z)) : list Z :=
  fold_left (fun t e => <[Z.to_nat (fst e) := snd e]> t) extra (base ++ replicate (256 - length base) 0).

Definition shiftcode : list Z := table [] [(0x1D, CTL); (0x2A, SHIFT); (0x36, SHIFT); (0x38, ALT); (0x9D, CTL); (0xB8, ALT)].
Definition togglecode : list Z := table [] [(0x3A, CAPSLOCK); (0x45, NUMLOCK); (0x46, SCROLLLOCK)].

(** KEY_HOME to KEY_DEL *)
Definition keypad (enter slash : Z) : list (Z * Z) :=
  [(0x9C, enter); (0xB5, slash); (0xC8, 0xE2); (0xD0, 0xE3); (0xC9, 0xE6); (0xD1, 0xE7); (0xCB, 0xE4); (0xCD, 0xE5);
   (0x97, 0xE0); (0xCF, 0xE1); (0xD2, 0xE8); (0xD3, 0xE9)].

Definition normalmap : list Z := table
  [NO; 0x1B; 49; 50; 51; 52; 53; 54;
   55; 56; 57; 48; 45; 61; 8; 9;
   113; 119; 101; 114; 116; 121; 117; 105;
   111; 112; 91; 93; 10; NO; 97; 115;
   100; 102; 103; 104; 106; 107; 108; 59;
   39; 96; NO; 92; 122; 120; 99; 118;
   98; 110; 109; 44; 46; 47; NO; 42;
   NO; 32; NO; NO; NO; NO; NO; NO;
   NO; NO; NO; NO; NO; NO; NO; 55;
   56; 57; 45; 52; 53; 54; 43; 49;
   50; 51; 48; 46; NO; NO; NO; NO] (keypad 10 47).

Definition shiftmap : list Z := table
  [NO; 27; 33; 64; 35; 36; 37; 94;
   38; 42; 40; 41; 95; 43; 8; 9;
   81; 87; 69; 82; 84; 89; 85; 73;
   79; 80; 123; 125; 10; NO; 65; 83;
   68; 70; 71; 72; 74; 75; 76; 58;
   34; 126; NO; 124; 90; 88; 67; 86;
   66; 78; 77; 60; 62; 63; NO; 42;
   NO; 32; NO; NO; NO; NO; NO; NO;
   NO; NO; NO; NO; NO; NO; NO; 55;
   56; 57; 45; 52; 53; 54; 43; 49;
   50; 51; 48; 46; NO; NO; NO; NO] (keypad 10 47).

(** [C('/')] is negative and stored as an unsigned byte. *)
Definition ctlmap : list Z := table
  [NO; NO; NO; NO; NO; NO; NO; NO;
   NO; NO; NO; NO; NO; NO; NO; NO;
   ctrl 81; ctrl 87; ctrl 69; ctrl 82; ctrl 84; ctrl 89; ctrl 85; ctrl 73;
   ctrl 79; ctrl 80; NO; NO; 13; NO; ctrl 65; ctrl 83;
   ctrl 68; ctrl 70; ctrl 71; ctrl 72; ctrl 74; ctrl 75; ctrl 76; NO;
   NO; NO; NO; ctrl 92; ctrl 90; ctrl 88; ctrl 67; ctrl 86;
   ctrl 66; ctrl 78; ctrl 77; NO; NO; u8 (ctrl 47); NO; NO] (keypad 13 (u8 (ctrl 47))).

Definition charcode : list (list Z) := [normalmap; shiftmap; ctlmap; ctlmap].

Section kbd.
Context {D : Type} {ports : Ports D}.
Abbreviation cst := (cst D).

Definition lookup_table (t : list Z) (i : Z) : M cst Z := deref "kbd.h: table" (t !! Z.to_nat i).
Definition get_shift : M cst Z := gets c_shift.
Definition put_shift (x : Z) : M cst unit := modify (set_shift x).

Definition kbdgetc : M cst Z :=
  st <- inp KBSTATP ;;
  if Z.land st KBS_DIB =? 0 then ret (-1)
  else
    data <- inp KBDATAP ;;
    shift <- get_shift ;;
    if data =? 0xE0 then put_shift (Z.lor shift E0ESC) ;;; ret 0
    else if negb (Z.land data 0x80 =? 0) then
      let data := if negb (Z.land shift E0ESC =? 0) then data else Z.land data 0x7F in
      sc <- lookup_table shiftcode data ;;
      put_shift (Z.land shift (Z.lnot (Z.lor sc E0ESC))) ;;; ret 0
    else
      let '(data, shift) :=
        if negb (Z.land shift E0ESC =? 0) then (Z.lor data 0x80, Z.land shift (Z.lnot E0ESC)) else (data, shift) in
      sc <- lookup_table shiftcode data ;;
      tc <- lookup_table togglecode data ;;
      let shift := Z.lxor (Z.lor shift sc) tc in
      put_shift shift ;;;
      map <- deref "charcode" (charcode !! Z.to_nat (Z.land shift (Z.lor CTL SHIFT))) ;;
      c <- lookup_table map data ;;
      if negb (Z.land shift CAPSLOCK =? 0) then
        if (97 <=? c) && (c <=? 122) then ret (u32 (c + (65 - 97)))
        else if (65 <=? c) && (c <=? 90) then ret (u32 (c + (97 - 65)))
        else ret c
      else ret c.

Definition kbdintr (fuel : nat) : M cst (bool * bool) := consoleintr fuel kbdgetc.
End kbd.
