(* ===== verification/ConsoleProofs.v ===== *)
(** * The console: theorems

    The input ring stands for the bytes that are ready to be read and the line being edited;
    an interrupt edits this pair, a reader takes from it, across the wrap-around of the
    indices.  The devices are described by what documented hardware does on their ports. *)

From S2P Require Import Prelude Bytes Ports Console Kbd.

(** ** The ring *)

Lemma u32_mod128 x : u32 x mod INPUT_BUF = x mod INPUT_BUF.
Proof. unfold u32, INPUT_BUF. pose proof (Z.div_mod x (2 ^ 32) ltac:(lia)) as H.
  rewrite <-(Z.mod_add (x mod 2 ^ 32) (2 ^ 25 * (x / 2 ^ 32)) 128) by lia. f_equal. lia.
Qed.

Lemma u32_diff x y : 0 <= x - y < 2 ^ 32 -> u32 (u32 x - u32 y) = x - y.
Proof. intros H. unfold u32. rewrite <-Zminus_mod. by apply Z.mod_small. Qed.

Lemma u32_eqb x y : - 2 ^ 31 < x - y < 2 ^ 31 -> (u32 x =? u32 y) = (x =? y).
Proof.
  intros H. apply eq_true_iff_eq. rewrite !Z.eqb_eq. split; [|by intros ->]. unfold u32. intros E.
  pose proof (Z.div_mod x (2 ^ 32) ltac:(lia)). pose proof (Z.div_mod y (2 ^ 32) ltac:(lia)). lia.
Qed.

Lemma u32_add x k : u32 (u32 x + k) = u32 (x + k).
Proof. unfold u32. by rewrite Zplus_mod_idemp_l. Qed.
Lemma u32_sub x k : u32 (u32 x - k) = u32 (x - k).
Proof. unfold u32. by rewrite Zminus_mod_idemp_l. Qed.

(** From position [R] on the ring holds the bytes [ready] and then [line]. *)
Record holds_at (R : Z) (b : ring) (ready line : list Z) : Prop := HoldsAt {
  ho_len : length (i_buf b) = 128%nat;
  ho_r : i_r b = u32 R;
  ho_w : i_w b = u32 (R + Z.of_nat (length ready));
  ho_e : i_e b = u32 (R + Z.of_nat (length ready) + Z.of_nat (length line));
  ho_max : Z.of_nat (length ready) + Z.of_nat (length line) <= INPUT_BUF;
  ho_data : forall j c, (ready ++ line) !! j = Some c -> i_buf b !! Z.to_nat ((R + Z.of_nat j) mod INPUT_BUF) = Some c
}.
Definition holds (b : ring) (ready line : list Z) : Prop := exists R, holds_at R b ready line.

Section ring.
Context (b : ring) (ready line : list Z) (Hb : holds b ready line).

Lemma holds_no_line : (i_e b =? i_w b) = bool_decide (line = []).
Proof using Hb.
  destruct Hb as (R & []). rewrite ho_e0, ho_w0, u32_eqb by (unfold INPUT_BUF in *; lia).
  case_bool_decide as H; [subst; simpl; apply Z.eqb_eq; lia|]. apply Z.eqb_neq. destruct line; [done|simpl; lia].
Qed.

Lemma holds_no_ready : (i_r b =? i_w b) = bool_decide (ready = []).
Proof using Hb.
  destruct Hb as (R & []). rewrite ho_r0, ho_w0, u32_eqb by (unfold INPUT_BUF in *; lia).
  case_bool_decide as H; [subst; simpl; apply Z.eqb_eq; lia|]. apply Z.eqb_neq. destruct ready; [done|simpl; lia].
Qed.

Lemma holds_size : u32 (i_e b - i_r b) = Z.of_nat (length ready) + Z.of_nat (length line).
Proof using Hb. destruct Hb as (R & []). rewrite ho_e0, ho_r0, u32_diff by (unfold INPUT_BUF in *; lia). lia. Qed.

Lemma holds_full : (i_e b =? u32 (i_r b + INPUT_BUF)) = (Z.of_nat (length ready) + Z.of_nat (length line) =? INPUT_BUF).
Proof using Hb.
  destruct Hb as (R & []). rewrite ho_e0, ho_r0, u32_add, u32_eqb by (unfold INPUT_BUF in *; lia).
  apply eq_true_iff_eq. rewrite !Z.eqb_eq. lia.
Qed.

Lemma holds_last c : last line = Some c -> at_ (u32 (i_e b - 1)) b = c.
Proof using Hb.
  intros Hl. destruct Hb as (R & []). unfold at_. rewrite u32_mod128, ho_e0. apply last_Some in Hl as [l ->].
  unfold INPUT_BUF. rewrite <-(u32_mod128 (_ - 1)), u32_sub, u32_mod128. apply nth_lookup_Some.
  assert (R + Z.of_nat (length ready) + Z.of_nat (length (l ++ [c])) - 1 = R + Z.of_nat (length (ready ++ l))) as ->.
  { rewrite !length_app. simpl. lia. }
  apply ho_data0. by rewrite app_assoc, lookup_app_r, Nat.sub_diag by lia.
Qed.

Lemma holds_rub c : last line = Some c -> holds (Ring (i_buf b) (i_r b) (i_w b) (u32 (i_e b - 1))) ready (removelast line).
Proof using Hb.
  intros Hl. destruct Hb as (R & []). apply last_Some in Hl as [l ->]. rewrite removelast_last. exists R.
  rewrite !length_app in *. simpl in *. split; simpl; try done; try lia.
  - rewrite ho_e0, u32_sub. f_equal. lia.
  - intros j x Hj. apply ho_data0. rewrite app_assoc. by apply lookup_app_l_Some.
Qed.

Lemma holds_store c : Z.of_nat (length ready) + Z.of_nat (length line) < INPUT_BUF -> holds (store c b) ready (line ++ [c]).
Proof using Hb.
  intros Hlt. destruct Hb as (R & []). exists R. assert (0 < INPUT_BUF) as Hp by done.
  set (n := (length ready + length line)%nat). assert (i_e b mod INPUT_BUF = (R + Z.of_nat n) mod INPUT_BUF) as He.
  { rewrite ho_e0, u32_mod128. f_equal. lia. }
  pose proof (Z.mod_pos_bound (R + Z.of_nat n) INPUT_BUF Hp) as Hm. unfold INPUT_BUF in Hm at 3.
  split; simpl; rewrite ?length_insert, ?length_app; simpl; try done; try lia.
  - rewrite ho_e0, u32_add. f_equal. lia.
  - intros j x Hj. rewrite He. rewrite app_assoc in Hj. apply lookup_app_Some in Hj as [Hj|[Hj Hx]].
    + pose proof (lookup_lt_Some _ _ _ Hj) as Hjl. rewrite length_app in Hjl. rewrite list_lookup_insert_ne; [by apply ho_data0|].
      intros Heq. pose proof (Z.mod_pos_bound (R + Z.of_nat j) INPUT_BUF Hp).
      assert ((R + Z.of_nat n) mod INPUT_BUF = (R + Z.of_nat j) mod INPUT_BUF) as E by lia.
      pose proof (Z.div_mod (R + Z.of_nat n) INPUT_BUF ltac:(done)). pose proof (Z.div_mod (R + Z.of_nat j) INPUT_BUF ltac:(done)).
      unfold INPUT_BUF in *. lia.
    + rewrite length_app in Hx, Hj. destruct (j - (length ready + length line))%nat eqn:Ej; [|done]. injection Hx as <-.
      replace j with n by lia. apply list_lookup_insert_eq. lia.
Qed.

Lemma holds_commit : holds (Ring (i_buf b) (i_r b) (i_e b) (i_e b)) (ready ++ line) [].
Proof using Hb.
  destruct Hb as (R & []). exists R. split; simpl; rewrite ?length_app, ?app_nil_r; simpl; try done; try lia.
  - rewrite ho_e0. f_equal. lia.
  - rewrite ho_e0. f_equal. lia.
Qed.
End ring.

Lemma holds_take c ready line b : holds b (c :: ready) line ->
  at_ (i_r b) b = c /\ holds (Ring (i_buf b) (u32 (i_r b + 1)) (i_w b) (i_e b)) ready line.
Proof.
  intros (R & []). split.
  - unfold at_. rewrite ho_r0, u32_mod128. apply nth_lookup_Some. specialize (ho_data0 0%nat c eq_refl). by rewrite Z.add_0_r in ho_data0.
  - exists (R + 1). simpl in *. split; simpl; try done; try lia.
    + rewrite ho_r0. apply u32_add.
    + rewrite ho_w0. f_equal. lia.
    + rewrite ho_e0. f_equal. lia.
    + intros j x Hj. specialize (ho_data0 (S j) x Hj). by replace (R + 1 + Z.of_nat j) with (R + Z.of_nat (S j)) by lia.
Qed.

(** [input.r--] after a byte was taken. *)
Lemma untake r : u32 (u32 (u32 r + 1) - 1) = u32 r.
Proof. rewrite u32_add, u32_sub. f_equal. lia. Qed.

(** ** Readers *)

(** What a reader that wants [n] bytes gets, [first] when it has none yet: the bytes, the
    bytes left, and whether it must wait for more. *)
Fixpoint take_line (n : nat) (first : bool) (ready : list Z) : list Z * list Z * bool :=
  match n, ready with
  | O, _ => ([], ready, false)
  | S _, [] => ([], [], true)
  | S n', c :: ready' =>
      if c =? ctrl 68 then ([], if first then ready' else ready, false)
      else if c =? LF then ([c], ready', false)
      else let '(bs, rest, wait) := take_line n' false ready' in (c :: bs, rest, wait)
  end.

Lemma consoleread_run killed target line : forall n b ready, holds b ready line -> Z.of_nat n <= target ->
  let '(bs, rest, wait) := take_line n (Z.of_nat n =? target) ready in
  exists b', holds b' rest line /\
    consoleread killed target n b = (if wait then (if killed then CFail else CSleep bs) else CDone bs, b').
Proof.
  induction n as [|n IH]; intros b ready Hb Hn; cbn [take_line consoleread]; [by exists b|].
  rewrite (holds_no_ready _ _ _ Hb). destruct ready as [|c ready]; [rewrite bool_decide_true by done; by exists b|].
  rewrite bool_decide_false by done. pose proof Hb as Hb0. apply holds_take in Hb as [-> Hb'].
  destruct (c =? ctrl 68).
  - destruct (Z.eqb_spec (Z.of_nat (S n)) target) as [E|E].
    + rewrite (proj2 (Z.ltb_ge _ _)) by lia. by eexists.
    + rewrite (proj2 (Z.ltb_lt _ _)) by lia. eexists. split; [|done]. cbn [i_r].
      destruct Hb0 as (R & []). rewrite ho_r0, untake, <-ho_r0. by exists R.
  - destruct (c =? LF); [by eexists|]. specialize (IH _ _ Hb' ltac:(lia)).
    rewrite (proj2 (Z.eqb_neq (Z.of_nat n) target)) in IH by lia.
    destruct (take_line n false ready) as [[bs rest] wait]. destruct IH as (b' & Hb2 & E). exists b'. split; [done|].
    rewrite E. by destruct wait, killed.
Qed.

(** ** Devices *)

(** The VGA controller keeps the cursor in registers 14 and 15; the serial port and the
    keyboard controller have a queue of received bytes, and say in a status bit whether it is
    empty. *)
Record devices {D : Type} {ports : Ports D} (sel cur : D -> Z) (rx kb : D -> list Z) : Prop := Devices {
  dv_cur : forall d, 0 <= cur d < 2 ^ 16;
  dv_out : forall p v d, 0 <= v < 256 -> exists d', outb p v d = Ret tt d' /\ rx d' = rx d /\ kb d' = kb d /\
    sel d' = (if p =? CRTPORT then v else sel d) /\
    cur d' = (if p =? CRTPORT + 1 then
                if sel d =? 14 then 256 * v + cur d mod 256 else if sel d =? 15 then 256 * (cur d / 256) + v else cur d
              else cur d);
  dv_in : forall p d, exists v d', inb p d = Ret v d' /\ 0 <= v < 256 /\ sel d' = sel d /\ cur d' = cur d /\
    rx d' = (if p =? COM1 then tail (rx d) else rx d) /\ kb d' = (if p =? KBDATAP then tail (kb d) else kb d) /\
    (p = CRTPORT + 1 -> v = if sel d =? 14 then cur d / 256 else cur d mod 256) /\
    (p = COM1 + 5 -> Z.land v 1 = 0 <-> rx d = []) /\ (forall c l, p = COM1 -> rx d = c :: l -> v = c) /\
    (p = KBSTATP -> Z.land v 1 = 0 <-> kb d = []) /\ (forall c l, p = KBDATAP -> kb d = c :: l -> v = c)
}.

Section devices.
Context {D : Type} {ports : Ports D} (sel cur : D -> Z) (rx kb : D -> list Z).
Hypothesis Hdev : devices sel cur rx kb.
Abbreviation cst := (cst D).

(** The screen works, and nobody has called [panic]. *)
Definition screen_ok (s : cst) : Prop := c_panicked s = false /\ 0 <= cur (c_dev s) < 24 * 80 /\ 24 * 80 <= Z.of_nat (length (c_crt s)).

(** What output leaves alone. *)
Record same_input (s s' : cst) : Prop := SameInput {
  si_in : c_in s' = c_in s;
  si_shift : c_shift s' = c_shift s;
  si_uart : c_uart s' = c_uart s;
  si_rx : rx (c_dev s') = rx (c_dev s);
  si_kb : kb (c_dev s') = kb (c_dev s);
  si_panicked : c_panicked s' = c_panicked s
}.
Lemma same_refl s : same_input s s.
Proof. done. Qed.
Lemma same_trans s s' s'' : same_input s s' -> same_input s' s'' -> same_input s s''.
Proof. intros [] []. split; congruence. Qed.

Lemma out_spec p v (Q : unit -> cst -> Prop) s :
  (forall d, rx d = rx (c_dev s) -> kb d = kb (c_dev s) -> sel d = (if p =? CRTPORT then u8 v else sel (c_dev s)) ->
     cur d = (if p =? CRTPORT + 1 then
                if sel (c_dev s) =? 14 then 256 * u8 v + cur (c_dev s) mod 256
                else if sel (c_dev s) =? 15 then 256 * (cur (c_dev s) / 256) + u8 v else cur (c_dev s)
              else cur (c_dev s)) -> Q tt (set_dev d s)) -> wp (out p v) Q s.
Proof using Hdev.
  intros HQ. assert (0 <= u8 v < 256) as Hv by (apply Z.mod_pos_bound; lia).
  destruct (dv_out _ _ _ _ Hdev p (u8 v) (c_dev s) Hv) as (d & E & H1 & H2 & H3 & H4).
  unfold out. apply wp_zoom. eapply wp_run; [exact E|]. by apply HQ.
Qed.

Lemma inp_spec p (Q : Z -> cst -> Prop) s :
  (forall v d, 0 <= v < 256 -> sel d = sel (c_dev s) -> cur d = cur (c_dev s) ->
     rx d = (if p =? COM1 then tail (rx (c_dev s)) else rx (c_dev s)) ->
     kb d = (if p =? KBDATAP then tail (kb (c_dev s)) else kb (c_dev s)) ->
     (p = CRTPORT + 1 -> v = if sel (c_dev s) =? 14 then cur (c_dev s) / 256 else cur (c_dev s) mod 256) ->
     (p = COM1 + 5 -> Z.land v 1 = 0 <-> rx (c_dev s) = []) -> (forall c l, p = COM1 -> rx (c_dev s) = c :: l -> v = c) ->
     (p = KBSTATP -> Z.land v 1 = 0 <-> kb (c_dev s) = []) -> (forall c l, p = KBDATAP -> kb (c_dev s) = c :: l -> v = c) ->
     Q v (set_dev d s)) -> wp (inp p) Q s.
Proof using Hdev.
  intros HQ. destruct (dv_in _ _ _ _ Hdev p (c_dev s)) as (v & d & E & H). unfold inp. apply wp_zoom.
  eapply wp_run; [exact E|]. destruct H as (H1 & H2 & H3 & H4 & H5 & H6 & H7 & H8 & H9 & H10). by apply HQ.
Qed.

(** The serial port neither moves the cursor nor takes a received byte. *)
Definition quiet (s s' : cst) : Prop := same_input s s' /\ cur (c_dev s') = cur (c_dev s) /\ c_crt s' = c_crt s.

Lemma quiet_trans s s' s'' : quiet s s' -> quiet s' s'' -> quiet s s''.
Proof using Type. intros (A & B & C) (A' & B' & C'). split; [by eapply same_trans|]. split; congruence. Qed.

Lemma uart_wait_spec n s : wp (uart_wait n) (fun _ s' => quiet s s') s.
Proof using Hdev.
  revert s. induction n as [|n IH]; intros s; [by apply wp_ret|]. cbn [uart_wait]. apply wp_bind, inp_spec.
  intros v d _ _ Hc Hr Hk _ _ _ _ _. assert (quiet s (set_dev d s)) as Hq by (split; [by split|by split]).
  destruct (_ =? 0); [|by apply wp_ret]. eapply wp_mono; [apply IH|]. intros [] s' Hs. by eapply quiet_trans.
Qed.

Lemma uartputc_spec c s : wp (uartputc c) (fun _ s' => quiet s s') s.
Proof using Hdev.
  unfold uartputc. apply wp_bind, wp_gets. destruct (negb _); [by apply wp_ret|]. apply wp_bind.
  eapply wp_mono; [apply uart_wait_spec|]. intros [] s' Hs. apply out_spec. intros d H1 H2 _ H4.
  eapply quiet_trans; [exact Hs|]. split; [by split|by split].
Qed.

(** ** The screen *)

Definition CELLS : Z := 24 * 80.
Definition attr (c : Z) : Z := Z.lor (Z.land c 0xff) 0x0700.

(** A terminal of 24 lines: the cells and the cursor. *)
Definition term_move (c pos : Z) : Z :=
  if c =? LF then pos + (80 - pos mod 80) else if c =? BACKSPACE then Z.max 0 (pos - 1) else pos + 1.
Definition term_put (c : Z) (t : list Z * Z) : list Z * Z :=
  let '(cells, pos) := t in
  let cells := if (c =? LF) || (c =? BACKSPACE) then cells else <[Z.to_nat pos := attr c]> cells in
  let pos := term_move c pos in
  let '(cells, pos) := if pos <? CELLS then (cells, pos) else (drop 80 cells ++ replicate 80 0, pos - 80) in
  (<[Z.to_nat pos := attr 32]> cells, pos).

Definition screen (s : cst) : list Z * Z := (take (Z.to_nat CELLS) (c_crt s), cur (c_dev s)).

Lemma cursor_parts x : 0 <= x < 2 ^ 16 -> Z.lor (Z.shiftl (x / 256) 8) (x mod 256) = x.
Proof using Type.
  intros Hx. pose proof (Z.mod_pos_bound x 256 ltac:(lia)) as Hm. rewrite Z.shiftl_mul_pow2 by lia. change (2 ^ 8) with 256.
  assert (Z.land (x / 256 * 256) (x mod 256) = 0) as H0; [|rewrite <-Z.lxor_lor, <-Z.add_nocarry_lxor by done; pose proof (Z.div_mod x 256); lia].
  apply Z.bits_inj'. intros i Hi. rewrite Z.land_spec, Z.bits_0.
  destruct (Z.lt_ge_cases i 8).
  - change 256 with (2 ^ 8) at 2. by rewrite Z.mul_pow2_bits_low.
  - change 256 with (2 ^ 8) at 3. rewrite Z.mod_pow2_bits_high by lia. apply andb_false_r.
Qed.

Lemma term_move_range c pos : 0 <= pos < CELLS -> 0 <= term_move c pos <= CELLS /\ (CELLS <= term_move c pos -> term_move c pos = CELLS).
Proof using Type.
  intros Hp. unfold term_move, CELLS in *. pose proof (Z.div_mod pos 80 ltac:(lia)). pose proof (Z.mod_pos_bound pos 80 ltac:(lia)).
  assert (pos / 80 <= 23) by (apply Z.lt_succ_r, Z.div_lt_upper_bound; lia).
  destruct (c =? LF); [lia|]. destruct (c =? BACKSPACE); lia.
Qed.

Lemma length_scroll crt : CELLS <= Z.of_nat (length crt) -> length (scroll (CELLS - 80) crt) = length crt.
Proof using Type.
  intros Hl. unfold scroll, CELLS in *. rewrite !length_app, length_take, length_replicate, !length_drop, length_app, length_take, !length_drop. lia.
Qed.

Lemma take_scroll crt : CELLS <= Z.of_nat (length crt) ->
  take (Z.to_nat CELLS) (scroll (CELLS - 80) crt) = drop 80 (take (Z.to_nat CELLS) crt) ++ replicate 80 0.
Proof using Type.
  intros Hl. unfold scroll, CELLS in *. change (23 * 80)%nat with (Z.to_nat 1840). change (24 * 80)%nat with (Z.to_nat 1920).
  change (24 * 80 - 80) with 1840. change (24 * 80) with 1920 in *. change (Z.to_nat (1920 - 1840)) with 80%nat.
  set (a := take (Z.to_nat 1840) (drop 80 crt)). assert (length a = Z.to_nat 1840) as Ha by (unfold a; rewrite length_take, length_drop; lia).
  rewrite (take_app_le a) by lia. rewrite (take_ge a) by lia. rewrite app_assoc, take_app_le by (rewrite length_app, length_replicate; lia).
  rewrite take_ge by (rewrite length_app, length_replicate; lia). f_equal. unfold a.
  rewrite skipn_firstn_comm. f_equal.
Qed.

Lemma crt_set_spec i v (Q : unit -> cst -> Prop) s : 0 <= i < Z.of_nat (length (c_crt s)) ->
  Q tt (set_crt (<[Z.to_nat i := v]> (c_crt s)) s) -> wp (crt_set i v) Q s.
Proof using Type.
  intros Hi HQ. unfold crt_set. apply wp_bind, wp_gets. cbn [id]. rewrite (proj2 (Z.leb_le 0 i)), (proj2 (Z.ltb_lt i _)) by lia.
  apply wp_bind, wp_ret. by apply wp_modify.
Qed.

(** Selecting and writing both cursor registers. *)
Lemma set_cursor_spec pos (Q : unit -> cst -> Prop) s k : 0 <= pos < 2 ^ 16 ->
  (forall d, rx d = rx (c_dev s) -> kb d = kb (c_dev s) -> cur d = pos -> wp k Q (set_dev d s)) ->
  wp (out CRTPORT 14 ;;; out (CRTPORT + 1) (Z.shiftr pos 8) ;;; out CRTPORT 15 ;;; out (CRTPORT + 1) pos ;;; k) Q s.
Proof using Hdev.
  intros Hp HQ. rewrite Z.shiftr_div_pow2 by lia. change (2 ^ 8) with 256.
  assert (u8 (pos / 256) = pos / 256) as E8.
  { apply Z.mod_small. split; [apply Z.div_pos; lia|apply Z.div_lt_upper_bound; lia]. }
  apply wp_bind, out_spec. intros d1 R1 K1 S1 C1. apply wp_bind, out_spec. intros d2 R2 K2 S2 C2.
  apply wp_bind, out_spec. intros d3 R3 K3 S3 C3. apply wp_bind, out_spec. intros d4 R4 K4 S4 C4. simpl in *.
  change (u8 14) with 14 in S1. change (u8 15) with 15 in S3. rewrite S1 in C2. rewrite S3 in C4. simpl in C2, C4. rewrite E8 in C2.
  apply HQ; [congruence|congruence|]. rewrite C4, C3, C2. unfold u8. change (2 ^ 8) with 256.
  pose proof (Z.mod_pos_bound (cur d1) 256 ltac:(lia)). rewrite (Z.mul_comm 256 (pos / 256)), Z.div_add_l by lia.
  rewrite (Z.div_small (cur d1 mod 256)) by lia. pose proof (Z.div_mod pos 256). lia.
Qed.

Lemma get_cursor_spec {A} (k : Z -> Z -> M cst A) (Q : A -> cst -> Prop) s :
  (forall d, rx d = rx (c_dev s) -> kb d = kb (c_dev s) -> cur d = cur (c_dev s) ->
     wp (k (cur (c_dev s) / 256) (cur (c_dev s) mod 256)) Q (set_dev d s)) ->
  wp (out CRTPORT 14 ;;; h <- inp (CRTPORT + 1) ;; out CRTPORT 15 ;;; l <- inp (CRTPORT + 1) ;; k h l) Q s.
Proof using Hdev.
  intros HQ. apply wp_bind, out_spec. intros d1 R1 K1 S1 C1. apply wp_bind, inp_spec. intros h d2 _ S2 C2 R2 K2 Hh _ _ _ _.
  apply wp_bind, out_spec. intros d3 R3 K3 S3 C3. apply wp_bind, inp_spec. intros l d4 _ S4 C4 R4 K4 Hl _ _ _ _.
  specialize (Hh eq_refl). specialize (Hl eq_refl). simpl in *. change (u8 14) with 14 in S1. change (u8 15) with 15 in S3.
  rewrite S1 in Hh. rewrite S3 in Hl. simpl in Hh, Hl. subst h l.
  replace (cur d1) with (cur (c_dev s)) by congruence. replace (cur d3) with (cur (c_dev s)) by congruence.
  by apply HQ; congruence.
Qed.

Lemma cgaputc_spec c s : screen_ok s -> wp (cgaputc c) (fun _ s' => screen_ok s' /\ same_input s s' /\ screen s' = term_put c (screen s)) s.
Proof using Hdev.
  intros (Hpan & Hcur & Hlen). unfold cgaputc. apply get_cursor_spec. intros d R1 K1 C1. set (pos := cur (c_dev s)) in *.
  rewrite cursor_parts by lia. destruct (term_move_range c pos Hcur) as [Hmove Hend]. change (24 * 80) with CELLS in *.
  (* the character *)
  set (cells := if (c =? LF) || (c =? BACKSPACE) then c_crt s else <[Z.to_nat pos := attr c]> (c_crt s)).
  assert (length cells = length (c_crt s)) as Hcl by (unfold cells; destruct (_ || _); [done|apply length_insert]).
  apply wp_bind. apply (wp_mono _ (fun p s' => p = term_move c pos /\ s' = set_crt cells (set_dev d s))).
  { unfold cells, term_move. destruct (c =? LF); [by apply wp_ret|]. destruct (c =? BACKSPACE); simpl.
    - apply wp_ret. split; [|done]. destruct (Z.ltb_spec 0 pos); lia.
    - apply wp_bind, crt_set_spec; [simpl; lia|]. by apply wp_ret. }
  intros p s1 [-> ->]. set (p := term_move c pos) in *. apply wp_bind, wp_panic_if.
  { apply orb_false_iff. split; apply Z.ltb_ge; unfold CELLS in *; lia. }
  (* scrolling *)
  set (up := if p <? CELLS then (cells, p) else (scroll (p - 80) cells, p - 80)).
  apply wp_bind. apply (wp_mono _ (fun q s' => q = snd up /\ s' = set_crt (fst up) (set_dev d s))).
  { unfold up. destruct (Z.ltb_spec p CELLS) as [Hlt|Hge].
    - rewrite (proj2 (Z.leb_gt _ _)) by (apply Z.div_lt_upper_bound; unfold CELLS in *; lia). by apply wp_ret.
    - rewrite (proj2 (Z.leb_le _ _)) by (apply Z.div_le_lower_bound; unfold CELLS in *; lia). apply wp_bind, wp_modify. by apply wp_ret. }
  intros q s2 [-> ->]. assert (0 <= snd up < CELLS) as Hup by (unfold up; destruct (Z.ltb_spec p CELLS); simpl; unfold CELLS in *; lia).
  assert (length (fst up) = length (c_crt s) /\ take (Z.to_nat CELLS) (fst up) =
    if p <? CELLS then take (Z.to_nat CELLS) cells else drop 80 (take (Z.to_nat CELLS) cells) ++ replicate 80 0) as [Hul Hut].
  { unfold up. destruct (Z.ltb_spec p CELLS) as [Hlt|Hge]; [done|]. rewrite (Hend Hge). cbn [fst]. split.
    - rewrite length_scroll; lia.
    - by rewrite take_scroll by lia. }
  apply set_cursor_spec; [unfold CELLS in *; lia|]. intros d4 R4 K4 C4. cbn [c_dev set_crt set_dev] in *.
  apply crt_set_spec; [cbn [c_crt set_dev set_crt]; unfold CELLS in *; lia|]. cbn [c_crt set_dev set_crt].
  split; [|split; [split; cbn; congruence|]].
  - split; [done|]. cbn [c_dev c_crt set_crt set_dev]. rewrite length_insert, C4. unfold CELLS in *. lia.
  - unfold screen. cbn [c_dev c_crt set_crt set_dev]. rewrite C4, take_insert_lt, Hut by (unfold CELLS in *; lia). unfold term_put. fold pos p.
    assert (take (Z.to_nat CELLS) cells = if (c =? LF) || (c =? BACKSPACE) then take (Z.to_nat CELLS) (c_crt s)
      else <[Z.to_nat pos := attr c]> (take (Z.to_nat CELLS) (c_crt s))) as ->.
    { unfold cells. destruct (_ || _); [done|]. apply take_insert_lt. unfold CELLS in *. lia. }
    unfold up. by destruct (p <? CELLS).
Qed.

Definition shown (cs : list Z) (t : list Z * Z) : list Z * Z := fold_left (fun t c => term_put c t) cs t.

Lemma consputc_spec c s : screen_ok s -> wp (consputc c) (fun _ s' => screen_ok s' /\ same_input s s' /\ screen s' = term_put c (screen s)) s.
Proof using Hdev.
  intros Hs. unfold consputc. apply wp_bind, wp_gets. cbn [id]. destruct Hs as (Hp & Hs). rewrite Hp. apply wp_bind.
  apply (wp_mono _ (fun _ s' => quiet s s')).
  { destruct (c =? BACKSPACE); [|apply uartputc_spec]. apply wp_bind. eapply wp_mono; [apply uartputc_spec|]. intros [] s1 H1.
    apply wp_bind. eapply wp_mono; [apply uartputc_spec|]. intros [] s2 H2. eapply wp_mono; [apply uartputc_spec|]. intros [] s3 H3.
    by do 2 (eapply quiet_trans; [eassumption|]). }
  intros [] s1 (Hsame & Hc & Hcrt). eapply wp_mono; [apply cgaputc_spec|].
  - split; [by rewrite (si_panicked _ _ Hsame)|]. by rewrite Hc, Hcrt.
  - intros [] s2 (H1 & H2 & H3). split; [done|]. split; [by eapply same_trans|]. rewrite H3. unfold screen. by rewrite Hc, Hcrt.
Qed.

Lemma putall_spec cs : forall s, screen_ok s ->
  wp (putall cs) (fun _ s' => screen_ok s' /\ same_input s s' /\ screen s' = shown cs (screen s)) s.
Proof using Hdev.
  induction cs as [|c cs IH]; intros s Hs; [by apply wp_ret|]. cbn [putall]. apply wp_bind.
  eapply wp_mono; [by apply consputc_spec|]. intros [] s1 (H1 & S1 & E1). eapply wp_mono; [by apply IH|].
  intros [] s2 (H2 & S2 & E2). split; [done|]. split; [by eapply same_trans|]. rewrite E2, E1. done.
Qed.

(** ** Editing *)

Record same_source (s s' : cst) : Prop := SameSource {
  ss_shift : c_shift s' = c_shift s;
  ss_uart : c_uart s' = c_uart s;
  ss_rx : rx (c_dev s') = rx (c_dev s);
  ss_kb : kb (c_dev s') = kb (c_dev s)
}.
Lemma same_source_of s s' : same_input s s' -> same_source s s'.
Proof using Type. by intros []. Qed.
Lemma same_source_trans s s' s'' : same_source s s' -> same_source s' s'' -> same_source s s''.
Proof using Type. intros [] []. split; congruence. Qed.

(** What a character does to the ready bytes and the line, and whether it wakes the readers. *)
Definition edit (c : Z) (st : list Z * list Z) : list Z * list Z * bool :=
  let '(ready, line) := st in
  if c =? ctrl 80 then (ready, line, false)
  else if c =? ctrl 85 then (ready, [], false)
  else if (c =? ctrl 72) || (c =? 0x7f) then (ready, removelast line, false)
  else if (c =? 0) || (INPUT_BUF <=? Z.of_nat (length ready) + Z.of_nat (length line)) then (ready, line, false)
  else
    let c := if c =? 13 then LF else c in
    let line := line ++ [c] in
    if (c =? LF) || (c =? ctrl 68) || (Z.of_nat (length ready) + Z.of_nat (length line) =? INPUT_BUF)
    then (ready ++ line, [], true) else (ready, line, false).

(** The ring, with a line that is not yet complete. *)
Definition input_ok (s : cst) (ready line : list Z) : Prop := holds (c_in s) ready line /\ LF ∉ line.

Lemma rub_out_spec s ready line c : screen_ok s -> holds (c_in s) ready line -> last line = Some c ->
  wp rub_out (fun _ s' => screen_ok s' /\ same_source s s' /\ holds (c_in s') ready (removelast line)) s.
Proof using Hdev.
  intros Hs Hh Hl. unfold rub_out. apply wp_bind, wp_modify. eapply wp_mono; [by apply consputc_spec|].
  intros [] s' (H1 & H2 & _). split; [done|]. split; [by destruct H2|]. rewrite (si_in _ _ H2). by eapply holds_rub.
Qed.

Lemma last_removelast (l : list Z) : l <> [] -> exists c, last l = Some c /\ l = removelast l ++ [c].
Proof using Type. intros H. destruct (last l) as [c|] eqn:E; [|by apply last_None in E]. exists c. split; [done|]. apply last_Some in E as [l' ->]. by rewrite removelast_last. Qed.

Lemma kill_line_spec : forall fuel s ready line, screen_ok s -> input_ok s ready line -> (length line < fuel)%nat ->
  wp (kill_line fuel) (fun _ s' => screen_ok s' /\ same_source s s' /\ holds (c_in s') ready []) s.
Proof using Hdev.
  induction fuel as [|fuel IH]; intros s ready line Hs [Hh Hnl] Hf; [lia|]. cbn [kill_line]. apply wp_bind, wp_gets.
  rewrite (holds_no_line _ _ _ Hh). case_bool_decide as He; [subst line; by apply wp_ret|]. cbn [negb andb].
  destruct (last_removelast line He) as (c & Hl & Eline). rewrite (holds_last _ _ _ Hh c Hl).
  assert (c <> LF) as Hc.
  { intros ->. apply Hnl. rewrite Eline. apply elem_of_app. right. by apply list_elem_of_singleton. }
  rewrite (proj2 (Z.eqb_neq _ _) Hc). cbn [negb]. apply wp_bind. eapply wp_mono; [by eapply rub_out_spec|].
  intros [] s1 (H1 & S1 & Hh1). eapply wp_mono; [apply (IH s1 ready (removelast line)); [done| |]|].
  - split; [done|]. intros H. apply Hnl. rewrite Eline. apply elem_of_app. by left.
  - rewrite Eline in Hf. rewrite length_app in Hf. simpl in Hf. lia.
  - intros [] s2 (H2 & S2 & Hh2). split; [done|]. split; [by eapply same_source_trans|done].
Qed.

Lemma intr_char_spec c s ready line : screen_ok s -> input_ok s ready line -> 0 <= c < 256 ->
  wp (intr_char c) (fun r s' => screen_ok s' /\ same_source s s' /\
    let '(ready', line', woken) := edit c (ready, line) in input_ok s' ready' line' /\ r = (c =? ctrl 80, woken)) s.
Proof using Hdev.
  intros Hs [Hh Hnl] Hc. unfold intr_char, edit. destruct (c =? ctrl 80); [by apply wp_ret|].
  destruct (c =? ctrl 85).
  { apply wp_bind. eapply wp_mono; [apply (kill_line_spec _ s ready line Hs); [done|]|].
    - destruct Hh as (R & []). unfold INPUT_BUF in *. lia.
    - intros [] s' (H1 & H2 & H3). apply wp_ret. split; [done|]. split; [done|]. split; [|done]. split; [done|]. apply not_elem_of_nil. }
  destruct (_ || _) eqn:Ebs.
  { apply wp_bind, wp_gets. apply wp_bind. rewrite (holds_no_line _ _ _ Hh). case_bool_decide as He.
    - subst line. apply wp_ret. by apply wp_ret.
    - destruct (last_removelast line He) as (x & Hl & Eline). eapply wp_mono; [by eapply rub_out_spec|].
      intros [] s' (H1 & H2 & H3). apply wp_ret. split; [done|]. split; [done|]. split; [|done]. split; [done|].
      intros H. apply Hnl. rewrite Eline. apply elem_of_app. by left. }
  clear Ebs. apply wp_bind, wp_gets. rewrite (holds_size _ _ _ Hh).
  destruct (Z.eqb_spec c 0) as [->|Hnz]; [by apply wp_ret|]. cbn [negb andb orb].
  rewrite Z.ltb_antisym. destruct (Z.leb_spec INPUT_BUF (Z.of_nat (length ready) + Z.of_nat (length line))) as [Hfull|Hroom]; [by apply wp_ret|].
  cbn [negb]. set (x := if c =? 13 then LF else c). assert (u8 x = x) as Ex.
  { apply Z.mod_small. unfold x. destruct (c =? 13); [done|lia]. }
  rewrite Ex. pose proof (holds_store _ _ _ Hh x Hroom) as Hst. apply wp_bind, wp_modify. apply wp_bind.
  eapply wp_mono; [by apply consputc_spec|]. intros [] s1 (H1 & S1 & _). apply wp_bind, wp_gets. rewrite (si_in _ _ S1). cbn [c_in set_in].
  rewrite (holds_full _ _ _ Hst). destruct (_ || _) eqn:Ec.
  - apply wp_bind, wp_modify, wp_ret. split; [done|]. split; [by destruct S1|]. split; [|done]. split; [by apply holds_commit|]. apply not_elem_of_nil.
  - apply wp_ret. split; [done|]. split; [by destruct S1|]. split; [|done]. split; [by rewrite (si_in _ _ S1)|].
    apply orb_false_iff in Ec as [[Elf%Z.eqb_neq _]%orb_false_iff _]. rewrite elem_of_app, list_elem_of_singleton. intros [?|?]; [done|by subst].
Qed.

(** All the characters of an interrupt. *)
Fixpoint edits (cs : list Z) (st : list Z * list Z) : list Z * list Z * bool :=
  match cs with
  | [] => (st, false)
  | c :: cs' =>
      let '(ready, line, w) := edit c st in
      let '(st', w') := edits cs' (ready, line) in (st', w || w')
  end.

(** [getc] hands out the characters [pend]. *)
Record source (getc : M cst Z) (pend : cst -> list Z) (inv : cst -> Prop) : Prop := Source {
  src_step : forall s, screen_ok s -> inv s -> wp getc (fun c s' => screen_ok s' /\ inv s' /\ c_in s' = c_in s /\
    match pend s with [] => c < 0 | x :: l => c = x /\ 0 <= c < 256 /\ pend s' = l end) s;
  src_same : forall s s', same_source s s' -> pend s' = pend s /\ (inv s -> inv s')
}.

Lemma consoleintr_spec getc pend inv : source getc pend inv -> forall fuel s ready line, screen_ok s -> inv s -> input_ok s ready line ->
  (length (pend s) < fuel)%nat ->
  wp (consoleintr fuel getc) (fun r s' => screen_ok s' /\ inv s' /\ exists ready' line',
    edits (pend s) (ready, line) = (ready', line', snd r) /\ input_ok s' ready' line' /\ fst r = existsb (Z.eqb (ctrl 80)) (pend s)) s.
Proof using Hdev.
  intros Hsrc. induction fuel as [|fuel IH]; intros s ready line Hs Hi Hin Hf; [lia|]. cbn [consoleintr]. apply wp_bind.
  eapply wp_mono; [by apply (src_step _ _ _ Hsrc)|]. intros c s1 (Hs1 & Hi1 & E1 & Hp). destruct (pend s) as [|x l] eqn:Epend.
  { rewrite (proj2 (Z.ltb_lt _ _)) by done. apply wp_ret. split; [done|]. split; [done|]. exists ready, line. split; [done|]. split; [|done].
    unfold input_ok. by rewrite E1. }
  destruct Hp as (-> & Hx & Hp1). rewrite (proj2 (Z.ltb_ge _ _)) by lia. apply wp_bind.
  assert (input_ok s1 ready line) as Hin1 by (unfold input_ok; by rewrite E1).
  eapply wp_mono; [by apply (intr_char_spec x s1 ready line)|]. intros r s2 (Hs2 & S2 & Hedit). cbn [edits].
  destruct (edit x (ready, line)) as [[ready2 line2] w]. destruct Hedit as [Hin2 ->]. apply wp_bind.
  destruct (src_same _ _ _ Hsrc _ _ S2) as [Ep2 Hi2]. rewrite <-Ep2 in Hp1. subst l. simpl in Hf.
  eapply wp_mono; [apply (IH s2 ready2 line2); [done|by apply Hi2|done|lia]|]. intros r3 s3 (Hs3 & Hi3 & ready3 & line3 & E3 & Hin3 & Ep).
  apply wp_ret. split; [done|]. split; [done|]. rewrite E3. exists ready3, line3. split; [done|]. split; [done|]. cbn [fst existsb]. by rewrite Ep, (Z.eqb_sym x).
Qed.

(** ** The serial port and the keyboard as sources *)

(** The modifiers of the keyboard. *)
Definition shift_ok (s : cst) : Prop := 0 <= c_shift s < 128.

Definition uart_pend (s : cst) : list Z := if c_uart s then rx (c_dev s) else [].

Lemma uart_source : source uartgetc uart_pend shift_ok.
Proof using Hdev.
  split.
  - intros s Hs Hsh. unfold uartgetc, uart_pend. apply wp_bind, wp_gets. cbn [id]. destruct (c_uart s) eqn:Eu; [|by apply wp_ret].
    cbn [negb]. apply wp_bind, inp_spec. intros v d _ _ C1 R1 K1 _ Hst _ _ _. specialize (Hst eq_refl). simpl in R1.
    assert (screen_ok (set_dev d s)) as Hs1 by (destruct Hs as (H1 & H2 & H3); split; [done|]; cbn; by rewrite C1).
    destruct (rx (c_dev s)) as [|x l] eqn:Er.
    + rewrite (proj2 (Z.eqb_eq _ _)) by (by apply Hst). by apply wp_ret.
    + rewrite (proj2 (Z.eqb_neq _ _)) by (intros H; by apply Hst in H). apply inp_spec.
      intros v2 d2 Hv2 _ C2 R2 K2 _ _ Hdata _ _. simpl in *. specialize (Hdata x l eq_refl R1). subst v2.
      destruct Hs1 as (H1 & H2 & H3). split; [split; [done|]; cbn; by rewrite C2|]. split; [done|]. split; [done|]. split; [done|]. split; [done|].
      by rewrite Eu, R2, R1.
  - intros s s' []. unfold uart_pend, shift_ok. by rewrite ss_uart0, ss_rx0, ss_shift0.
Qed.

(** The character and the modifiers that a scan code gives. *)
Definition kbd_key (shift data : Z) : option (Z * Z) :=
  if data =? 0xE0 then Some (0, Z.lor shift E0ESC)
  else if negb (Z.land data 0x80 =? 0) then
    let data := if negb (Z.land shift E0ESC =? 0) then data else Z.land data 0x7F in
    sc ← shiftcode !! Z.to_nat data; Some (0, Z.land shift (Z.lnot (Z.lor sc E0ESC)))
  else
    let '(data, shift) :=
      if negb (Z.land shift E0ESC =? 0) then (Z.lor data 0x80, Z.land shift (Z.lnot E0ESC)) else (data, shift) in
    sc ← shiftcode !! Z.to_nat data;
    tc ← togglecode !! Z.to_nat data;
    let shift := Z.lxor (Z.lor shift sc) tc in
    map ← charcode !! Z.to_nat (Z.land shift (Z.lor CTL SHIFT));
    c ← map !! Z.to_nat data;
    Some (if negb (Z.land shift CAPSLOCK =? 0) then
            if (97 <=? c) && (c <=? 122) then u32 (c + (65 - 97)) else if (65 <=? c) && (c <=? 90) then u32 (c + (97 - 65)) else c
          else c, shift).

Definition key_ok (o : option (Z * Z)) : bool :=
  match o with Some (c, sh) => (0 <=? c) && (c <? 256) && (0 <=? sh) && (sh <? 128) | None => false end.

(** All modifiers with all scan codes: every index is inside its table. *)
Lemma kbd_key_all : forallb (fun sh => forallb (fun d => key_ok (kbd_key sh d)) (seqZ 0 256)) (seqZ 0 128) = true.
Proof using Type. by vm_compute. Qed.

Lemma kbd_key_ok sh d : 0 <= sh < 128 -> 0 <= d < 256 -> exists c sh', kbd_key sh d = Some (c, sh') /\ 0 <= c < 256 /\ 0 <= sh' < 128.
Proof using Type.
  intros Hs Hd. pose proof kbd_key_all as H. rewrite forallb_forall in H. specialize (H sh ltac:(apply list_elem_of_In, elem_of_seqZ; lia)).
  rewrite forallb_forall in H. specialize (H d ltac:(apply list_elem_of_In, elem_of_seqZ; lia)). unfold key_ok in H.
  destruct (kbd_key sh d) as [[c sh']|]; [|done]. exists c, sh'.
  rewrite !andb_true_iff, !Z.leb_le, !Z.ltb_lt in H. split; [done|]. lia.
Qed.

Fixpoint kbd_chars (sh : Z) (scan : list Z) : list Z :=
  match scan with
  | [] => []
  | d :: l => match kbd_key sh d with Some (c, sh') => c :: kbd_chars sh' l | None => [] end
  end.
Definition kbd_pend (s : cst) : list Z := kbd_chars (c_shift s) (kb (c_dev s)).

Lemma kbdgetc_spec s : shift_ok s -> wp kbdgetc (fun c s' => exists d,
  cur d = cur (c_dev s) /\ match kb (c_dev s) with
  | [] => c = -1 /\ s' = set_dev d s
  | x :: l => exists sh', kbd_key (c_shift s) x = Some (c, sh') /\ 0 <= c < 256 /\ 0 <= sh' < 128 /\ kb d = l /\ s' = set_shift sh' (set_dev d s)
  end) s.
Proof using Hdev.
  intros Hsh. unfold kbdgetc. apply wp_bind, inp_spec. intros v d _ _ C1 R1 K1 _ _ _ Hst _. specialize (Hst eq_refl). simpl in K1.
  change KBS_DIB with 1. destruct (kb (c_dev s)) as [|x l] eqn:Ek.
  { rewrite (proj2 (Z.eqb_eq _ _)) by (by apply Hst). apply wp_ret. by exists d. }
  rewrite (proj2 (Z.eqb_neq _ _)) by (intros H; by apply Hst in H). apply wp_bind, inp_spec.
  intros v2 d2 Hv2 _ C2 R2 K2 _ _ _ _ Hdata. simpl in *. specialize (Hdata x l eq_refl K1). subst v2. rewrite K1 in K2. simpl in K2.
  assert (forall c sh', kbd_key (c_shift s) x = Some (c, sh') -> exists d,
    cur d = cur (c_dev s) /\ exists sh'', kbd_key (c_shift s) x = Some (c, sh'') /\ 0 <= c < 256 /\ 0 <= sh'' < 128 /\ kb d = l /\
      set_shift sh' (set_dev d2 (set_dev d s)) = set_shift sh'' (set_dev d s)) as Hres.
  { intros c sh' E. exists d2. split; [congruence|]. exists sh'. destruct (kbd_key_ok (c_shift s) x Hsh Hv2) as (c0 & sh0 & E0 & Hc & Hs).
    rewrite E in E0. by injection E0 as <- <-. }
  apply wp_bind, wp_gets. cbn [c_shift set_dev]. destruct (kbd_key_ok (c_shift s) x Hsh Hv2) as (c0 & sh0 & E0 & _ & _). clear Hst.
  revert E0 Hres. unfold kbd_key. destruct (x =? 0xE0).
  { intros _ Hres. apply wp_bind, wp_modify, wp_ret. by apply Hres. }
  destruct (negb _).
  { set (data := if negb _ then x else _). destruct (shiftcode !! Z.to_nat data) as [sc|] eqn:E1; [|done]. cbn [mbind option_bind].
    intros _ Hres. apply wp_bind. eapply wp_deref; [exact E1|]. apply wp_bind, wp_modify, wp_ret. by apply Hres. }
  set (pair := if negb (Z.land (c_shift s) E0ESC =? 0) then _ else _). destruct pair as [data shift].
  destruct (shiftcode !! Z.to_nat data) as [sc|] eqn:E1; [|done]. cbn [mbind option_bind].
  destruct (togglecode !! Z.to_nat data) as [tc|] eqn:E2; [|done]. cbn [mbind option_bind]. set (sh := Z.lxor (Z.lor shift sc) tc).
  destruct (charcode !! Z.to_nat (Z.land sh (Z.lor CTL SHIFT))) as [mp|] eqn:E3; [|done]. cbn [mbind option_bind].
  destruct (mp !! Z.to_nat data) as [c|] eqn:E4; [|done]. cbn [mbind option_bind]. intros _ Hres.
  apply wp_bind. eapply wp_deref; [exact E1|]. apply wp_bind. eapply wp_deref; [exact E2|]. fold sh. apply wp_bind, wp_modify, wp_bind.
  eapply wp_deref; [exact E3|]. apply wp_bind. eapply wp_deref; [exact E4|].
  destruct (negb _); [destruct (_ && _); [|destruct (_ && _)]|]; apply wp_ret; by apply Hres.
Qed.

Lemma kbd_source : source kbdgetc kbd_pend shift_ok.
Proof using Hdev.
  split.
  - intros s Hs Hsh. eapply wp_mono; [by apply kbdgetc_spec|]. intros c s' (d & Hc & H). unfold kbd_pend.
    destruct (kb (c_dev s)) as [|x l].
    + destruct H as [-> ->]. destruct Hs as (H1 & H2 & H3). split; [split; [done|]; cbn; by rewrite Hc|]. done.
    + destruct H as (sh' & E & Hr & Hs' & Hk & ->). destruct Hs as (H1 & H2 & H3). split; [split; [done|]; cbn; by rewrite Hc|].
      split; [done|]. split; [done|]. cbn [kbd_chars c_shift c_dev set_shift set_dev]. rewrite E. split; [done|]. split; [done|]. by rewrite Hk.
  - intros s s' []. unfold kbd_pend, shift_ok. by rewrite ss_shift0, ss_kb0.
Qed.
End devices.
