(* ===== verification/ConsoleSys.v ===== *)
(** * The console with its interrupts and readers

    The system: interrupts of the keyboard and the serial port, processes in [consoleread]
    and [consolewrite].  It refines a line editor whose state is the bytes that are ready, the
    line that is being edited and the readers.  Then numbers on the console. *)

From S2P Require Import Prelude Bytes Ports Console Kbd ConsoleProofs.

(** ** The line editor *)

(** A reader: the size of its buffer, the bytes it still wants, and whether it is asleep. *)
Abbreviation readers := (gmap nat (Z * nat * bool)).
Record editor := Editor { ready : list Z; line : list Z; waiting : readers }.

Definition wake (woken : bool) (rs : readers) : readers :=
  if woken then (fun r => (fst r, false)) <$> rs else rs.

Inductive estep : editor -> editor -> Prop :=
| e_call st i n : waiting st !! i = None ->
    estep st (Editor (ready st) (line st) (<[i := (Z.of_nat n, n, false)]> (waiting st)))
| e_type st cs ready' line' woken : edits cs (ready st, line st) = (ready', line', woken) ->
    estep st (Editor ready' line' (wake woken (waiting st)))
| e_read st i target n killed bs rest wait : waiting st !! i = Some (target, n, false) ->
    take_line n (Z.of_nat n =? target) (ready st) = (bs, rest, wait) ->
    estep st (Editor rest (line st)
      (if wait && negb killed then <[i := (target, (n - length bs)%nat, true)]> (waiting st) else delete i (waiting st)))
| e_kill st i r : waiting st !! i = Some (r, true) ->
    estep st (Editor (ready st) (line st) (<[i := (r, false)]> (waiting st))).

Definition reached : editor -> Prop := rtc estep (Editor [] [] ∅).

Section system.
Context {D : Type} {ports : Ports D} (cur : D -> Z).
Abbreviation cst := (cst D).

(** ** The console *)

Record csys := Csys { con : cst; asleep : readers }.

(** [getc] is [kbdgetc] or [uartgetc]; the devices receive at any time. *)
Inductive cstep : csys -> csys -> Prop :=
| c_call s i n : asleep s !! i = None -> cstep s (Csys (con s) (<[i := (Z.of_nat n, n, false)]> (asleep s)))
| c_receive s d : cur d = cur (c_dev (con s)) -> cstep s (Csys (set_dev d (con s)) (asleep s))
| c_intr s getc fuel p woken t : getc = kbdgetc \/ getc = uartgetc ->
    consoleintr fuel getc (con s) = Ret (p, woken) t -> cstep s (Csys t (wake woken (asleep s)))
| c_read s i target n killed r b : asleep s !! i = Some (target, n, false) ->
    consoleread killed target n (c_in (con s)) = (r, b) ->
    cstep s (Csys (set_in b (con s))
      (match r with
       | CSleep bs => <[i := (target, (n - length bs)%nat, true)]> (asleep s)
       | _ => delete i (asleep s)
       end))
| c_write s buf r t : consolewrite buf (con s) = Ret r t -> cstep s (Csys t (asleep s))
| c_kill s i r : asleep s !! i = Some (r, true) -> cstep s (Csys (con s) (<[i := (r, false)]> (asleep s))).

Context (sel : D -> Z) (rx kb : D -> list Z) (Hdev : devices sel cur rx kb).

(** After [consoleinit]: an empty ring. *)
Definition started (s : csys) : Prop :=
  screen_ok cur (con s) /\ c_shift (con s) = 0 /\ length (i_buf (c_in (con s))) = 128%nat /\
  i_r (c_in (con s)) = 0 /\ i_w (c_in (con s)) = 0 /\ i_e (c_in (con s)) = 0 /\ asleep s = ∅.

Record related (s : csys) (st : editor) : Prop := Related {
  rl_screen : screen_ok cur (con s);
  rl_shift : shift_ok (con s);
  rl_input : input_ok (con s) (ready st) (line st);
  rl_readers : asleep s = waiting st;
  rl_wanted : forall i target n a, waiting st !! i = Some (target, n, a) -> Z.of_nat n <= target;
  rl_asleep : forall i r, waiting st !! i = Some (r, true) -> ready st = []
}.

Lemma started_related s : started s -> related s (Editor [] [] ∅).
Proof using Type.
  intros (H1 & H2 & H3 & H4 & H5 & H6 & H7). split; try done; [by unfold shift_ok; rewrite H2|]. split; [|apply not_elem_of_nil].
  exists 0. split; simpl; done.
Qed.

Lemma take_line_wait n : forall first l bs rest, take_line n first l = (bs, rest, true) -> rest = [] /\ (length bs <= n)%nat.
Proof using Type.
  induction n as [|n IH]; intros first l bs rest; [done|]. destruct l as [|c l]; cbn [take_line]; [intros [= <- <-]; simpl; split; [done|lia]|].
  destruct (c =? ctrl 68); [done|]. destruct (c =? LF); [done|]. destruct (take_line n false l) as [[bs' rest'] w] eqn:E.
  intros [= <- <- ->]. destruct (IH _ _ _ _ E). simpl. split; [done|lia].
Qed.

Lemma edit_ready c rd l rd' l' : edit c (rd, l) = (rd', l', false) -> rd' = rd.
Proof using Type.
  unfold edit. destruct (c =? ctrl 80); [by intros [= -> _]|]. destruct (c =? ctrl 85); [by intros [= -> _]|].
  destruct (_ || _); [by intros [= -> _]|]. destruct (_ || _); [by intros [= -> _]|]. destruct (_ || _); [done|by intros [= -> _]].
Qed.

Lemma edits_ready cs : forall rd l rd' l', edits cs (rd, l) = (rd', l', false) -> rd' = rd.
Proof using Type.
  induction cs as [|c cs IH]; intros rd l rd' l'; cbn [edits]; [by intros [= <- _]|].
  destruct (edit c (rd, l)) as [[rd1 l1] w] eqn:E. destruct (edits cs (rd1, l1)) as [st w'] eqn:E'. intros [= -> Hw].
  apply orb_false_iff in Hw as [-> ->]. apply edit_ready in E as ->. by eapply IH.
Qed.

Lemma wake_some w rs i target n a : wake w rs !! i = Some (target, n, a) -> exists a', rs !! i = Some (target, n, a') /\ (a = true -> w = false /\ a' = true).
Proof using Type.
  unfold wake. destruct w; [|intros H; by exists a]. rewrite lookup_fmap, fmap_Some. intros ([r a'] & E & [= -> ->]). by exists a'.
Qed.

Lemma type_related s st t cs woken : related s st -> screen_ok cur t -> shift_ok t ->
  (exists ready' line', edits cs (ready st, line st) = (ready', line', woken) /\ input_ok t ready' line') ->
  exists st', estep st st' /\ related (Csys t (wake woken (asleep s))) st'.
Proof using Type.
  intros [] Hs Hsh (ready' & line' & E & Hin). eexists. split; [by eapply e_type|]. split; cbn; try done; [by rewrite rl_readers0| |].
  - intros i target n a H. apply wake_some in H as (a' & H & _). by eapply rl_wanted0.
  - intros i [target n] H. apply wake_some in H as (a' & H & Ha). destruct (Ha eq_refl) as [-> ->].
    apply edits_ready in E as ->. by eapply rl_asleep0.
Qed.

Lemma take_line_empty n first rest bs : take_line n first [] = (bs, rest, false) -> rest = [].
Proof using Type. destruct n; cbn [take_line]; [by intros [= _ <-]|done]. Qed.

Lemma kbd_chars_length scan : forall sh, (length (kbd_chars sh scan) <= length scan)%nat.
Proof using Type. induction scan as [|d l IH]; intros sh; [done|]. cbn [kbd_chars]. destruct (kbd_key sh d) as [[c sh']|]; simpl; [|lia]. specialize (IH sh'). lia. Qed.

(** More fuel does not change a result. *)
Lemma consoleintr_fuel : forall fuel fuel' getc (s : cst) p w t, consoleintr fuel getc s = Ret (p, w) t -> (fuel <= fuel')%nat ->
  consoleintr fuel' getc s = Ret (p, w) t.
Proof using Type.
  induction fuel as [|fuel IH]; intros fuel' getc s p w t E Hf; [done|]. destruct fuel' as [|fuel']; [lia|]. cbn [consoleintr] in *.
  apply bind_Ret in E as (c & s1 & E1 & E). unfold bind at 1. rewrite E1. destruct (c <? 0); [done|].
  apply bind_Ret in E as (r & s2 & E2 & E). unfold bind at 1. rewrite E2.
  apply bind_Ret in E as ([p3 w3] & s3 & E3 & E). unfold bind at 1. rewrite (IH fuel' getc s2 p3 w3 s3 E3) by lia. done.
Qed.

(** Every step of the system is one of the line editor, or changes only the devices. *)
Lemma cstep_simulates s s' st : related s st -> cstep s s' -> exists st', rtc estep st st' /\ related s' st'.
Proof using Hdev.
  intros Hr Hstep. pose proof Hr as []. destruct Hstep.
  - eexists. split; [apply rtc_once, e_call; by rewrite <-rl_readers0|]. split; cbn; try done; [by rewrite rl_readers0| |].
    + intros j target m a. rewrite lookup_insert_Some. intros [[-> [= <- <- <-]]|[_ Hj]]; [lia|by eapply rl_wanted0].
    + intros j r. rewrite lookup_insert_Some. intros [[-> [= _]]|[_ Hj]]; by eapply rl_asleep0.
  - exists st. split; [done|]. split; try done. destruct rl_screen0 as (H1 & H2 & H3). split; [done|]. cbn. by rewrite H.
  - assert (exists pend, source cur rx kb getc pend shift_ok) as (pend & Hsrc).
    { destruct H as [->| ->]; eexists; [by apply (kbd_source sel cur rx kb)|by apply (uart_source sel cur rx kb)]. }
    assert (exists f, (length (pend (con s)) < f)%nat) as [f Hf] by (eexists (S _); apply Nat.lt_succ_diag_r).
    pose proof (consoleintr_spec sel cur rx kb Hdev getc pend shift_ok Hsrc (fuel + f) (con s) (ready st) (line st)
      rl_screen0 rl_shift0 rl_input0 ltac:(lia)) as Hw.
    eapply wp_use in Hw; [|apply (consoleintr_fuel fuel (fuel + f) getc (con s) p woken t H0); lia]. destruct Hw as (H1 & H2 & ready' & line' & E & Hin & _).
    destruct (type_related s st t (pend (con s)) woken Hr H1 H2) as (st' & Hst & Hr'); [by eexists _, _|].
    exists st'. split; [by apply rtc_once|done].
  - pose proof (rl_wanted0 i target n false) as Hn. rewrite <-rl_readers0 in Hn. specialize (Hn H).
    pose proof (consoleread_run killed target (line st) n _ _ (proj1 rl_input0) Hn) as Hrun.
    destruct (take_line n (Z.of_nat n =? target) (ready st)) as [[bs rest] wait] eqn:Etake. destruct Hrun as (b' & Hb & E).
    rewrite E in H0. injection H0 as <- <-. exists (Editor rest (line st)
      (if wait && negb killed then <[i := (target, (n - length bs)%nat, true)]> (waiting st) else delete i (waiting st))).
    split; [apply rtc_once; eapply e_read; [by rewrite <-rl_readers0|done]|].
    assert (wait = true -> rest = []) as Hrest by (intros ->; by eapply take_line_wait).
    split; cbn; [done|done|split; [exact Hb|apply rl_input0]|by rewrite rl_readers0; destruct wait, killed| |].
    + intros j tg m a Hj. destruct (wait && negb killed).
      * apply lookup_insert_Some in Hj as [[<- [= <- <- <-]]|[_ Hj]]; [lia|by eapply rl_wanted0].
      * apply lookup_delete_Some in Hj as [_ Hj]. by eapply rl_wanted0.
    + intros j r Hj. destruct wait; [by apply Hrest|]. simpl in Hj. apply lookup_delete_Some in Hj as [_ Hj].
      pose proof (rl_asleep0 _ _ Hj) as Hnil. rewrite Hnil in Etake. by eapply take_line_empty.
  - exists st. split; [done|]. unfold consolewrite in H. pose proof (putall_spec sel cur rx kb Hdev (map (fun c => Z.land c 0xff) buf) (con s) rl_screen0) as Hw.
    apply bind_Ret in H as ([] & t' & E & E'). injection E' as _ <-. eapply wp_use in Hw; [|exact E]. destruct Hw as (H1 & [] & _).
    split; cbn; try done; [by unfold shift_ok; rewrite si_shift|unfold input_ok; by rewrite si_in].
  - exists (Editor (ready st) (line st) (<[i := (r, false)]> (waiting st))). rewrite rl_readers0 in H. split; [apply rtc_once; by eapply e_kill|].
    split; cbn; try done; [by rewrite rl_readers0| |].
    + intros j tg m a Hj. apply lookup_insert_Some in Hj as [[<- [= -> <-]]|[_ Hj]]; by eapply rl_wanted0.
    + intros j r' Hj. apply lookup_insert_Some in Hj as [[<- [= _]]|[_ Hj]]. by eapply rl_asleep0.
Qed.

(** C32: The console with its interrupts, readers and writers is a line editor: from the empty
    ring on, in every interleaving of keyboard and serial interrupts, reads, writes and kills,
    the ring of 128 bytes holds the ready bytes and the line of a reachable state of the
    editor, across the wrap-around of the 32-bit indices and never more than 128 bytes; a
    reader gets a line as the editor gives it, and is asleep only while nothing is ready. *)
Theorem console_refines s s' : started s -> rtc cstep s s' -> exists st, reached st /\
  holds (c_in (con s')) (ready st) (line st) /\ LF ∉ line st /\ (length (ready st) + length (line st) <= 128)%nat /\
  asleep s' = waiting st /\ (forall i r, asleep s' !! i = Some (r, true) -> ready st = []).
Proof using Hdev.
  intros H0 Hsteps. assert (exists st, reached st /\ related s' st) as (st & Hst & []).
  { assert (exists st, reached st /\ related s st) as Hs by (exists (Editor [] [] ∅); split; [apply rtc_refl|by apply started_related]).
    clear H0. induction Hsteps as [s|s s1 s' Hstep _ IH]; [done|]. apply IH. destruct Hs as (st & Hst & Hr).
    destruct (cstep_simulates _ _ _ Hr Hstep) as (st' & Hst' & Hr'). exists st'. split; [unfold reached in *; by etrans|done]. }
  destruct rl_input0 as [Hh Hnl]. exists st. split_and!; try done.
  - destruct Hh as (R & []). unfold INPUT_BUF in *. lia.
  - intros i r. rewrite rl_readers0. apply rl_asleep0.
Qed.

(** An interrupt of the keyboard or of the serial port takes every received character,
    returns, and has edited the ring with these characters as the editor does; it wakes the
    readers exactly when bytes became ready.  No index leaves the tables of the keyboard or
    the screen memory, whatever was received. *)
Theorem console_interrupt (s : cst) rd l fuel : screen_ok cur s -> shift_ok s -> input_ok s rd l ->
  (length (rx (c_dev s)) < fuel)%nat -> (length (kb (c_dev s)) < fuel)%nat ->
  wp (kbdintr fuel) (fun r s' => screen_ok cur s' /\ shift_ok s' /\ exists rd' l',
    edits (kbd_pend kb s) (rd, l) = (rd', l', snd r) /\ input_ok s' rd' l') s /\
  wp (uartintr fuel) (fun r s' => screen_ok cur s' /\ shift_ok s' /\ exists rd' l',
    edits (uart_pend rx s) (rd, l) = (rd', l', snd r) /\ input_ok s' rd' l') s.
Proof using Hdev.
  intros Hs Hsh Hin Hrx Hkb. split.
  - eapply wp_mono; [apply (consoleintr_spec sel cur rx kb Hdev _ _ _ (kbd_source sel cur rx kb Hdev) fuel s rd l Hs Hsh Hin)|].
    + eapply Nat.le_lt_trans; [apply kbd_chars_length|done].
    + intros r s' (H1 & H2 & rd' & l' & H3 & H4 & _). by eauto 6.
  - eapply wp_mono; [apply (consoleintr_spec sel cur rx kb Hdev _ _ _ (uart_source sel cur rx kb Hdev) fuel s rd l Hs Hsh Hin)|].
    + unfold uart_pend. destruct (c_uart s); simpl; lia.
    + intros r s' (H1 & H2 & rd' & l' & H3 & H4 & _). by eauto 6.
Qed.

(** [consolewrite] shows its bytes on a terminal of 24 lines: every byte moves the cursor
    and the cells as the terminal does, scrolling included, the cursor never leaves the
    screen, and the input is untouched. *)
Theorem consolewrite_terminal (s : cst) buf : screen_ok cur s ->
  wp (consolewrite buf) (fun r s' => r = Z.of_nat (length buf) /\ screen_ok cur s' /\ c_in s' = c_in s /\
    screen cur s' = shown (map (fun c => Z.land c 0xff) buf) (screen cur s)) s.
Proof using Hdev.
  intros Hs. unfold consolewrite. apply wp_bind. eapply wp_mono; [by apply (putall_spec sel cur rx kb Hdev)|].
  intros [] s' (H1 & [] & H3). by apply wp_ret.
Qed.
End system.

(** ** Numbers *)

Definition digit_value (c : Z) : Z := if c <? 58 then c - 48 else c - 87.
Definition parse (base : Z) (text : list Z) : Z := fold_left (fun a c => base * a + digit_value c) text 0.

Lemma digit_value_digit d : 0 <= d < 16 -> digit_value (digit d) = d.
Proof. intros Hd. unfold digit_value, digit. destruct (Z.ltb_spec d 10); [rewrite (proj2 (Z.ltb_lt _ _)) by lia; lia|]. rewrite (proj2 (Z.ltb_ge _ _)) by lia. lia. Qed.

Lemma parse_snoc base text c : parse base (text ++ [c]) = base * parse base text + digit_value c.
Proof. unfold parse. by rewrite fold_left_app. Qed.

Lemma digits_spec base : 2 <= base <= 16 -> forall fuel x, 0 <= x < base ^ Z.of_nat fuel -> (0 < fuel)%nat ->
  parse base (rev (digits fuel base x)) = x /\ base ^ (Z.of_nat (length (digits fuel base x)) - 1) <= Z.max 1 x /\
  (0 < length (digits fuel base x))%nat.
Proof.
  intros Hb. induction fuel as [|fuel IH]; intros x Hx Hf; [lia|]. cbn [digits rev length].
  pose proof (Z.div_mod x base ltac:(lia)) as Hd. pose proof (Z.mod_pos_bound x base ltac:(lia)) as Hm.
  rewrite parse_snoc, digit_value_digit by lia. destruct (Z.eqb_spec (x / base) 0) as [E|E].
  - simpl. split; [unfold parse; simpl; lia|]. split; [lia|lia].
  - assert (0 < x / base) as Hpos by (pose proof (Z.div_pos x base); lia).
    assert (x / base < base ^ Z.of_nat fuel) as Hlt.
    { apply Z.div_lt_upper_bound; [lia|]. rewrite Nat2Z.inj_succ, Z.pow_succ_r in Hx by lia. lia. }
    assert (0 < fuel)%nat by (destruct fuel; [simpl in Hlt; lia|lia]).
    destruct (IH (x / base) ltac:(lia) ltac:(done)) as (H1 & H2 & H3). rewrite H1. split; [lia|]. split; [|lia].
    replace (Z.of_nat (S (length (digits fuel base (x / base)))) - 1) with (Z.succ (Z.of_nat (length (digits fuel base (x / base))) - 1)) by lia.
    rewrite Z.pow_succ_r by lia. rewrite Z.max_r in * by lia. nia.
Qed.

(** The text of a number; [sign] as in [printint]. *)
Definition numeral (xx base : Z) (sign : bool) : list Z :=
  if sign && (xx <? 0) then 45 :: rev (digits 32 base (- xx)) else rev (digits 32 base (u32 xx)).

Lemma digits_length base x : 10 <= base <= 16 -> 0 <= x < 2 ^ 32 -> (length (digits 32 base x) <= 10)%nat.
Proof.
  intros Hb Hx. assert (base ^ Z.of_nat 32 >= 2 ^ 32) as Hp by (pose proof (Z.pow_le_mono_l 2 base 32); lia).
  destruct (digits_spec base ltac:(lia) 32 x ltac:(lia) ltac:(lia)) as (_ & H & _). apply Nat.le_ngt. intros Hgt.
  pose proof (Z.pow_le_mono_l 10 base 10). pose proof (Z.pow_le_mono_r base 10 (Z.of_nat (length (digits 32 base x)) - 1)). lia.
Qed.

Lemma printint_text {D} {ports : Ports D} xx base sign (s : cst D) : 10 <= base <= 16 -> - 2 ^ 31 <= xx < 2 ^ 31 ->
  printint xx base sign s = putall (numeral xx base sign) s.
Proof.
  intros Hb Hx. unfold printint, numeral. pose proof (u32_bound xx) as Hu. destruct (sign && (xx <? 0)) eqn:Es.
  - apply andb_true_iff in Es as [-> Hneg%Z.ltb_lt]. rewrite (u32_small (- xx)) by lia. pose proof (digits_length base (- xx) Hb ltac:(lia)) as Hl.
    rewrite (proj2 (Nat.leb_le _ _)) by (rewrite length_app; cbn [length]; lia). rewrite rev_app_distr. reflexivity.
  - rewrite app_nil_r. pose proof (digits_length base (u32 xx) Hb Hu) as Hl. rewrite (proj2 (Nat.leb_le _ _)) by lia. reflexivity.
Qed.

(** [printint] prints the number: the text is at most 11 characters, fits its buffer of
    16, and reading it back gives the number, the most negative included; without sign, the
    number as unsigned. *)
Theorem printint_roundtrip {D} {ports : Ports D} xx base sign (s : cst D) : 10 <= base <= 16 -> - 2 ^ 31 <= xx < 2 ^ 31 ->
  printint xx base sign s = putall (numeral xx base sign) s /\ (length (numeral xx base sign) <= 11)%nat /\
  (if sign && (xx <? 0) then numeral xx base sign = 45 :: tail (numeral xx base sign) /\ parse base (tail (numeral xx base sign)) = - xx
   else parse base (numeral xx base sign) = if sign then xx else u32 xx).
Proof.
  intros Hb Hx. split; [by apply printint_text|]. unfold numeral. pose proof (u32_bound xx) as Hu.
  assert (base ^ Z.of_nat 32 >= 2 ^ 32) as Hp by (pose proof (Z.pow_le_mono_l 2 base 32); lia). destruct (sign && (xx <? 0)) eqn:Es.
  - apply andb_true_iff in Es as [-> Hneg%Z.ltb_lt]. pose proof (digits_length base (- xx) Hb ltac:(lia)) as Hl.
    cbn [length tail]. rewrite length_rev. split; [lia|]. split; [reflexivity|]. apply digits_spec; lia.
  - pose proof (digits_length base (u32 xx) Hb Hu) as Hl. rewrite length_rev. split; [lia|].
    destruct (digits_spec base ltac:(lia) 32 (u32 xx) ltac:(lia) ltac:(lia)) as (-> & _).
    destruct sign; [|done]. apply u32_small. simpl in Es. apply Z.ltb_ge in Es. lia.
Qed.

(** What [cprintf] prints; none when an argument is missing or no string. *)
Fixpoint text_of (str : Z -> option (list Z)) (fmt : list Z) (args : list Z) : option (list Z) :=
  match fmt with
  | [] => Some []
  | c :: fmt' =>
      if negb (c =? 37) then cons c <$> text_of str fmt' args
      else
        match fmt' with
        | [] => Some []
        | c :: fmt'' =>
            let next (k : Z -> option (list Z)) :=
              match args with
              | a :: args' => t ← k a; r ← text_of str fmt'' args'; Some (t ++ r)
              | [] => None
              end in
            if c =? 100 then next (fun a => Some (numeral (s32 a) 10 true))
            else if (c =? 120) || (c =? 112) then next (fun a => Some (numeral (s32 a) 16 false))
            else if c =? 115 then next (fun a => if a =? 0 then Some null_text else str a)
            else if c =? 37 then cons 37 <$> text_of str fmt'' args
            else (fun r => 37 :: c :: r) <$> text_of str fmt'' args
        end
  end.

Lemma putall_app {D} {ports : Ports D} a b (s : cst D) : putall (a ++ b) s = (putall a ;;; putall b) s.
Proof.
  revert s. induction a as [|c a IH]; intros s; [done|]. cbn [app putall]. unfold bind at 1 3. destruct (consputc c s) eqn:E; unfold bind; rewrite ?E; try done.
Qed.

Lemma bind_ext {S A B} (m m' : M S A) (k k' : A -> M S B) s : m s = m' s -> (forall a s', k a s' = k' a s') -> bind m k s = bind m' k' s.
Proof. intros E H. unfold bind. rewrite E. by destruct (m' s). Qed.

Lemma s32_bounds x : - 2 ^ 31 <= s32 x < 2 ^ 31.
Proof. unfold s32. pose proof (Z.mod_pos_bound (x + 2 ^ 31) (2 ^ 32)). lia. Qed.

(** [cprintf] prints this text. *)
Lemma cprintf_text {D} {ports : Ports D} str : forall n fmt args t (s : cst D), (length fmt <= n)%nat ->
  text_of str fmt args = Some t -> cprintf str fmt args s = putall t s.
Proof.
  induction n as [|n IH]; intros fmt args t s Hn E.
  { destruct fmt; [|simpl in Hn; lia]. by injection E as <-. }
  destruct fmt as [|c fmt]; [by injection E as <-|]. cbn [length] in Hn. cbn [text_of cprintf] in *.
  assert (Hp : forall (m : M (cst D) unit) u fmt args t, (length fmt <= n)%nat -> (forall s, m s = putall u s) -> text_of str fmt args = Some t ->
    forall s, (m ;;; cprintf str fmt args) s = putall (u ++ t) s).
  { intros m u fmt' args' t' Hl Hm Et s'. rewrite putall_app. apply bind_ext; [apply Hm|]. intros [] s''. by apply IH. }
  assert (Hc : forall c (s : cst D), consputc c s = putall [c] s).
  { intros c' s'. cbn [putall]. unfold bind. by destruct (consputc c' s') as [[] ?| | | |]. }
  destruct (negb (c =? 37)).
  { apply fmap_Some in E as (t' & Et & ->). apply (Hp _ [c] fmt args t'); [lia|apply Hc|done]. }
  destruct fmt as [|d fmt]; [by injection E as <-|]. cbn [length] in Hn.
  assert (Hnext : forall k (m : Z -> M (cst D) unit), (forall a u, k a = Some u -> forall s, m a s = putall u s) ->
    match args with a :: args' => t ← k a; r ← text_of str fmt args'; Some (t ++ r) | [] => None end = Some t ->
    (a <- next_arg args ;; m (fst a) ;;; cprintf str fmt (snd a)) s = putall t s).
  { intros k m Hk Et. destruct args as [|a args]; [done|]. apply bind_Some in Et as (u & Eu & Et). apply bind_Some in Et as (r & Er & [= <-]).
    cbn [next_arg]. unfold bind at 1, ret. apply (Hp _ u fmt args r); [lia|by apply Hk|done]. }
  assert (Hnum : forall a base sign, 10 <= base <= 16 -> forall s : cst D, printint (s32 a) base sign s = putall (numeral (s32 a) base sign) s).
  { intros a base sign Hb s'. apply printint_text; [done|apply s32_bounds]. }
  destruct (d =? 100); [apply (Hnext (fun a => Some (numeral (s32 a) 10 true)) (fun a => printint (s32 a) 10 true)); [intros a u [= <-]; by apply Hnum|done]|].
  destruct (_ || _); [apply (Hnext (fun a => Some (numeral (s32 a) 16 false)) (fun a => printint (s32 a) 16 false)); [intros a u [= <-]; by apply Hnum|done]|].
  destruct (d =? 115).
  { specialize (Hnext (fun a => if a =? 0 then Some null_text else str a)
      (fun a => t <- (if a =? 0 then ret null_text else deref "cprintf: %s" (str a)) ;; putall t)).
    rewrite <-Hnext; [|intros a u Eu s'|exact E].
    - apply bind_ext; [done|]. intros [a args'] s'. cbn [fst snd]. unfold bind at 1 2 3 4. by destruct (if a =? 0 then _ else _).
    - destruct (a =? 0); [by injection Eu as <-|]. unfold bind, deref. rewrite Eu. done. }
  destruct (d =? 37); apply fmap_Some in E as (t' & Et & ->).
  - apply (Hp _ [37] fmt args t'); [lia|apply Hc|done].
  - transitivity ((putall [37; d] ;;; cprintf str fmt args) s).
    + cbn [putall]. unfold bind, ret. destruct (consputc 37 s) as [[] s1| | | |]; try done. by destruct (consputc d s1) as [[] ?| | | |].
    + apply (Hp _ [37; d] fmt args t'); [lia|done|done].
Qed.

(** ** A machine *)

(** The VGA registers, and the bytes waiting at the serial port and the keyboard. *)
Record machine := Machine { m_sel : Z; m_cur : Z; m_rx : list Z; m_kb : list Z }.
Definition m_cursor (d : machine) : Z := m_cur d mod 2 ^ 16.
Definition m_serial (d : machine) : list Z := map u8 (m_rx d).
Definition m_keys (d : machine) : list Z := map u8 (m_kb d).
Definition not_empty (l : list Z) : Z := match l with [] => 0 | _ => 1 end.

#[export] Instance machine_ports : Ports machine := {
  outb p v d := Ret tt
    (if p =? CRTPORT then Machine v (m_cur d) (m_rx d) (m_kb d)
     else if p =? CRTPORT + 1 then
       Machine (m_sel d) (if m_sel d =? 14 then 256 * v + m_cursor d mod 256
                          else if m_sel d =? 15 then 256 * (m_cursor d / 256) + v else m_cur d) (m_rx d) (m_kb d)
     else d);
  inb p d :=
    if p =? CRTPORT + 1 then Ret (if m_sel d =? 14 then m_cursor d / 256 else m_cursor d mod 256) d
    else if p =? COM1 + 5 then Ret (Z.lor 0x20 (not_empty (m_rx d))) d
    else if p =? COM1 then Ret (hd 0 (m_serial d)) (Machine (m_sel d) (m_cur d) (tail (m_rx d)) (m_kb d))
    else if p =? KBSTATP then Ret (not_empty (m_kb d)) d
    else if p =? KBDATAP then Ret (hd 0 (m_keys d)) (Machine (m_sel d) (m_cur d) (m_rx d) (tail (m_kb d)))
    else Ret 0 d
}.

Lemma hd_byte l : 0 <= hd 0 (map u8 l) < 256.
Proof. destruct l; simpl; [lia|]. apply Z.mod_pos_bound. lia. Qed.

Lemma machine_devices : devices m_sel m_cursor m_serial m_keys.
Proof.
  assert (forall d, 0 <= m_cursor d < 2 ^ 16) as Hc by (intros d; apply Z.mod_pos_bound; lia).
  assert (forall d, 0 <= m_cursor d / 256 < 256) as Hh.
  { intros d. specialize (Hc d). split; [apply Z.div_pos; lia|apply Z.div_lt_upper_bound; lia]. }
  assert (forall d, 0 <= m_cursor d mod 256 < 256) as Hl by (intros d; apply Z.mod_pos_bound; lia).
  split; [done| |].
  - intros p v d Hv. eexists. split; [reflexivity|]. specialize (Hh d). specialize (Hl d).
    destruct (Z.eqb_spec p CRTPORT) as [->|Hp]; [done|]. destruct (p =? CRTPORT + 1); [|done]. split_and!; try done.
    unfold m_cursor at 1. cbn [m_cur]. destruct (m_sel d =? 14); [apply Z.mod_small; lia|]. destruct (m_sel d =? 15); [apply Z.mod_small; lia|done].
  - intros p d. cbn [inb machine_ports]. pose proof (hd_byte (m_rx d)). pose proof (hd_byte (m_kb d)). specialize (Hh d). specialize (Hl d).
    unfold CRTPORT, COM1, KBSTATP, KBDATAP in *.
    change (0x3d4 + 1) with 981. change (0x3f8 + 5) with 1021. change 0x3f8 with 1016. change 0x64 with 100. change 0x60 with 96.
    destruct (Z.eqb_spec p 981) as [->|H1]; [eexists _, _; split; [reflexivity|]; destruct (m_sel d =? 14); split_and!; (done || apply hd_byte || lia || (intros; lia))|].
    destruct (Z.eqb_spec p 1021) as [->|H2]; [eexists _, _; split; [reflexivity|]; destruct d as [? ? [|] ?]; split_and!; (done || apply hd_byte || (intros; lia) || (intros _; split; done))|].
    destruct (Z.eqb_spec p 1016) as [->|H3]; [eexists _, _; split; [reflexivity|]; destruct d as [? ? [|? ?] ?]; split_and!; (done || apply hd_byte || (intros; lia) || (intros ? ? _ [= <- _]; done))|].
    destruct (Z.eqb_spec p 100) as [->|H4]; [eexists _, _; split; [reflexivity|]; destruct d as [? ? ? [|]]; split_and!; (done || apply hd_byte || (intros; lia) || (intros _; split; done))|].
    destruct (Z.eqb_spec p 96) as [->|H5]; [eexists _, _; split; [reflexivity|]; destruct d as [? ? ? [|? ?]]; split_and!; (done || apply hd_byte || (intros; lia) || (intros ? ? _ [= <- _]; done))|].
    eexists _, _; split; [reflexivity|]. split_and!; (done || apply hd_byte || (intros; lia)).
Qed.

(** "ab", backspace and the return key, waiting at the keyboard; no serial port. *)
Definition ex_console : cst machine :=
  Cst (Machine 0 0 [] [0x1E; 0x30; 0x0E; 0x1C]) (replicate 1920 0) false false 0 (Ring (replicate 128 0) 0 0 0).

Lemma ex_started : started m_cursor (Csys ex_console ∅).
Proof. split_and!; try reflexivity. split; [reflexivity|]. split; [vm_compute; split; [discriminate|reflexivity]|vm_compute; discriminate]. Qed.

Lemma console_refines_witness : exists st, reached st /\ (length (ready st) + length (line st) <= 128)%nat.
Proof.
  destruct (console_refines m_cursor m_sel m_serial m_keys machine_devices (Csys ex_console ∅)
    (Csys ex_console (<[0%nat := (Z.of_nat 10, 10%nat, false)]> ∅)) ex_started) as (st & H1 & _ & _ & H2 & _).
  - apply rtc_once. apply (c_call m_cursor (Csys ex_console ∅) 0%nat 10%nat). reflexivity.
  - exists st. split; [exact H1|exact H2].
Defined.

(** The line "a\n" is ready, and the readers are woken. *)
Lemma console_interrupt_witness : wp (kbdintr 5) (fun r s => snd r = true /\ input_ok s [97; 10] []) ex_console.
Proof.
  destruct (console_interrupt m_cursor m_sel m_serial m_keys machine_devices ex_console [] [] 5) as [H _].
  - apply ex_started.
  - vm_compute. split; [discriminate|reflexivity].
  - split; [|apply not_elem_of_nil]. exists 0. split; try reflexivity; vm_compute; discriminate.
  - apply Nat.ltb_lt. reflexivity.
  - apply Nat.ltb_lt. reflexivity.
  - eapply wp_mono; [exact H|]. intros r s (_ & _ & rd & l & E & Hin).
    assert (edits (kbd_pend m_keys ex_console) ([], []) = ([97; 10], [], true)) as E' by reflexivity.
    rewrite E' in E. injection E as <- <- <-. split; [reflexivity|exact Hin].
Defined.

Lemma consolewrite_terminal_witness : wp (consolewrite [104; 105; 10]) (fun r s => r = 3 /\ snd (screen m_cursor s) = 80) ex_console.
Proof.
  eapply wp_mono; [apply (consolewrite_terminal m_cursor m_sel m_serial m_keys machine_devices ex_console [104; 105; 10])|].
  - apply ex_started.
  - intros r s (-> & _ & _ & ->). split; reflexivity.
Defined.

Lemma printint_roundtrip_witness : parse 10 (tail (numeral (- 2 ^ 31) 10 true)) = 2 ^ 31.
Proof.
  destruct (printint_roundtrip (- 2 ^ 31) 10 true ex_console ltac:(lia) ltac:(lia)) as (_ & _ & _ & H). exact H.
Defined.
