(* ===== verification/Ide.v ===== *)
(** * The disk driver (ide.c)

    [iderw] puts the buffer at the end of a linked queue and starts the drive when the queue
    was empty; the interrupt handler finishes the request at the head and starts the next one.
    The buffers are those of [Bio]; the drive is a class of port operations.  [iderw] sleeps
    in its loop: [iderw_start] is the part before the loop, [iderw_done] the test of the loop. *)

From S2P Require Import Prelude Ports Bio.

Definition FSSIZE : Z := 1000.
Definition SECTOR_SIZE : Z := 512.
Definition IDE_BSY : Z := 0x80.
Definition IDE_DRDY : Z := 0x40.
Definition IDE_DF : Z := 0x20.
Definition IDE_ERR : Z := 0x01.
Definition IDE_CMD_READ : Z := 0x20.
Definition IDE_CMD_WRITE : Z := 0x30.
Definition IDE_CMD_RDMUL : Z := 0xc4.
Definition IDE_CMD_WRMUL : Z := 0xc5.

Section ide.
Context {D : Type} {ports : Ports D} {blocks : BlockPorts D}.
(** More polls than the drive is ever busy for. *)
Context (polls : nat).

(** The drive, the buffers, [idequeue] and [qnext], [havedisk1], the calling process. *)
Record ide := Ide { e_dev : D; e_bufs : list buf; e_head : option nat; e_next : list (option nat); e_disk1 : bool; e_pid : Z }.
Definition set_edev (x : D) (s : ide) : ide := Ide x (e_bufs s) (e_head s) (e_next s) (e_disk1 s) (e_pid s).
Definition set_ebufs (x : list buf) (s : ide) : ide := Ide (e_dev s) x (e_head s) (e_next s) (e_disk1 s) (e_pid s).
Definition set_head (x : option nat) (s : ide) : ide := Ide (e_dev s) (e_bufs s) x (e_next s) (e_disk1 s) (e_pid s).
Definition set_next (i : nat) (x : option nat) (s : ide) : ide :=
  Ide (e_dev s) (e_bufs s) (e_head s) (<[i := x]> (e_next s)) (e_disk1 s) (e_pid s).
Definition set_disk1 (x : bool) (s : ide) : ide := Ide (e_dev s) (e_bufs s) (e_head s) (e_next s) x (e_pid s).

Definition hw {A} (m : M D A) : M ide A := zoom e_dev set_edev m.
Definition buf_at (i : nat) : M ide buf := s <- gets id ;; deref "buf" (e_bufs s !! i).
Definition change_buf (i : nat) (f : buf -> buf) : M ide unit := modify (fun s => set_ebufs (alter f i (e_bufs s)) s).
Definition next_of (i : nat) : M ide (option nat) := s <- gets id ;; deref "qnext" (e_next s !! i).

Fixpoint idewait_loop (n : nat) : M ide Z :=
  match n with
  | O => fun _ => Timeout
  | S n' =>
      r <- hw (inb 0x1f7) ;;
      if Z.land r (Z.lor IDE_BSY IDE_DRDY) =? IDE_DRDY then ret r else idewait_loop n'
  end.
Definition idewait (checkerr : bool) : M ide Z :=
  r <- idewait_loop polls ;;
  ret (if checkerr && negb (Z.land r (Z.lor IDE_DF IDE_ERR) =? 0) then -1 else 0).

(** Is there a second disk? At most 1000 looks. *)
Fixpoint probe (n : nat) : M ide unit :=
  match n with
  | O => ret tt
  | S n' => r <- hw (inb 0x1f7) ;; if negb (r =? 0) then modify (set_disk1 true) else probe n'
  end.
Definition ideinit (ioapicenable : M D unit) : M ide unit :=
  hw ioapicenable ;;;
  idewait false ;;;
  hw (outb 0x1f6 (Z.lor 0xe0 16)) ;;;
  probe 1000 ;;;
  hw (outb 0x1f6 0xe0).

(** The commands that a request writes to the ports. *)
Definition idestart (o : option nat) : M ide unit :=
  match o with
  | None => panic "idestart"
  | Some i =>
      b <- buf_at i ;;
      panic_if (FSSIZE <=? b_blockno b) "incorrect blockno" ;;;
      let sector_per_block := Z.of_nat BSIZE / SECTOR_SIZE in
      let sector := b_blockno b * sector_per_block in
      let read_cmd := if sector_per_block =? 1 then IDE_CMD_READ else IDE_CMD_RDMUL in
      let write_cmd := if sector_per_block =? 1 then IDE_CMD_WRITE else IDE_CMD_WRMUL in
      panic_if (7 <? sector_per_block) "idestart" ;;;
      idewait false ;;;
      hw (outb 0x3f6 0) ;;;
      hw (outb 0x1f2 sector_per_block) ;;;
      hw (outb 0x1f3 (Z.land sector 0xff)) ;;;
      hw (outb 0x1f4 (Z.land (Z.shiftr sector 8) 0xff)) ;;;
      hw (outb 0x1f5 (Z.land (Z.shiftr sector 16) 0xff)) ;;;
      hw (outb 0x1f6 (Z.lor (Z.lor 0xe0 (Z.shiftl (Z.land (b_dev b) 1) 4)) (Z.land (Z.shiftr sector 24) 0x0f))) ;;;
      if has_flag B_DIRTY b then hw (outb 0x1f7 write_cmd) ;;; hw (outsl 0x1f0 (b_data b))
      else hw (outb 0x1f7 read_cmd)
  end.

(** The buffer whose caller is woken. *)
Definition ideintr : M ide (option nat) :=
  s <- gets id ;;
  match e_head s with
  | None => ret None
  | Some i =>
      nx <- next_of i ;;
      modify (set_head nx) ;;;
      b <- buf_at i ;;
      (if negb (has_flag B_DIRTY b) then
         r <- idewait true ;;
         if 0 <=? r then bs <- hw (insl 0x1f0 (BSIZE / 4)) ;; change_buf i (set_data bs) else ret tt
       else ret tt) ;;;
      change_buf i (fun b => set_flags (Z.lor (b_flags b) B_VALID) b) ;;;
      change_buf i (fun b => set_flags (Z.land (b_flags b) (Z.lnot B_DIRTY)) b) ;;;
      s <- gets id ;;
      (if bool_decide (is_Some (e_head s)) then idestart (e_head s) else ret tt) ;;;
      ret (Some i)
  end.

(** The end of the queue from [i] on. *)
Fixpoint queue_end (fuel : nat) (i : nat) : M ide nat :=
  match fuel with
  | O => fun _ => Timeout
  | S f => nx <- next_of i ;; match nx with None => ret i | Some j => queue_end f j end
  end.

Definition iderw_start (i : nat) : M ide unit :=
  b <- buf_at i ;;
  s <- gets id ;;
  panic_if (negb (sl_locked (b_lock b) && (sl_pid (b_lock b) =? e_pid s))) "iderw: buf not locked" ;;;
  panic_if (Z.land (b_flags b) (Z.lor B_VALID B_DIRTY) =? B_VALID) "iderw: nothing to do" ;;;
  panic_if (negb (b_dev b =? 0) && negb (e_disk1 s)) "iderw: ide disk 1 not present" ;;;
  modify (set_next i None) ;;;
  (match e_head s with
   | None => modify (set_head (Some i))
   | Some h => l <- queue_end (length (e_next s)) h ;; modify (set_next l (Some i))
   end) ;;;
  s <- gets id ;;
  if bool_decide (e_head s = Some i) then idestart (Some i) else ret tt.

Definition iderw_done (b : buf) : bool := Z.land (b_flags b) (Z.lor B_VALID B_DIRTY) =? B_VALID.
End ide.
Arguments ide : clear implicits.
