(* ===== verification/IdeProofs.v ===== *)
(** * The disk driver: theorems

    The drive is described by the command it works on and its sectors; a command may fail.  In
    every interleaving of requests, completions and interrupts the queue is served first-in
    first-out, the drive gets one command at a time, and a caller whose command did not fail
    returns with the buffer of its block: what the memory disk of [Bio.iderw] does at once. *)

From S2P Require Import Prelude Bytes Ports Bio Ide.

(** ** The drive *)

(** Idle, reading a sector of a drive, waiting for data to write, writing it, a sector ready
    to be transferred, or a command that failed. *)
Inductive phase :=
| Idle
| Getting (drive n : Z)
| Putting (drive n : Z)
| Storing (drive n : Z) (v : list Z)
| Fetched (v : list Z)
| Failed.

Definition working (p : phase) : Prop := match p with Getting _ _ | Putting _ _ | Storing _ _ _ => True | _ => False end.

(** The sector and the drive that the task registers select. *)
Definition lba (task : Z -> Z) : Z := task 0x1f3 + 256 * task 0x1f4 + 65536 * task 0x1f5 + 16777216 * (task 0x1f6 mod 16).
Definition drive_bit (task : Z -> Z) : Z := task 0x1f6 / 16 mod 2.
Definition is_task (p : Z) : bool := ((0x1f2 <=? p) && (p <=? 0x1f6)) || (p =? 0x3f6).

(** ATA drives: registers keep what is written, a command uses the sector they select, polling
    ends, and a command is completed in its own time. *)
Record drives {D : Type} {ports : Ports D} {blocks : BlockPorts D} (task : D -> Z -> Z) (ph : D -> phase)
    (sectors : D -> Z -> list (list Z)) (busy : D -> nat) (complete : D -> D -> Prop) : Prop := Drives {
  dr_reg : forall p v d, is_task p = true -> 0 <= v < 256 -> ~ working (ph d) -> exists d', outb p v d = Ret tt d' /\
    (forall q, task d' q = if q =? p then v else task d q) /\ ph d' = ph d /\ sectors d' = sectors d;
  dr_read : forall d, ~ working (ph d) -> exists d', outb 0x1f7 IDE_CMD_READ d = Ret tt d' /\
    ph d' = Getting (drive_bit (task d)) (lba (task d)) /\ sectors d' = sectors d;
  dr_write : forall d, ~ working (ph d) -> exists d', outb 0x1f7 IDE_CMD_WRITE d = Ret tt d' /\
    ph d' = Putting (drive_bit (task d)) (lba (task d)) /\ sectors d' = sectors d;
  dr_out : forall d dr n v, ph d = Putting dr n -> exists d', outsl 0x1f0 v d = Ret tt d' /\ ph d' = Storing dr n v /\ sectors d' = sectors d;
  dr_in : forall d v, ph d = Fetched v -> exists d', insl 0x1f0 (BSIZE / 4) d = Ret v d' /\ ph d' = Idle /\ sectors d' = sectors d;
  dr_status : forall d, exists r d', inb 0x1f7 d = Ret r d' /\ task d' = task d /\ ph d' = ph d /\ sectors d' = sectors d /\
    (~ working (ph d) -> Z.land r (Z.lor IDE_BSY IDE_DRDY) = IDE_DRDY \/ (busy d' < busy d)%nat) /\
    (Z.land r (Z.lor IDE_DF IDE_ERR) = 0 <-> ph d <> Failed);
  dr_complete : forall d d', complete d d' -> match ph d with
    | Getting dr n => sectors d' = sectors d /\ (ph d' = Failed \/ exists v, sectors d dr !! Z.to_nat n = Some v /\ ph d' = Fetched v)
    | Storing dr n v => (ph d' = Failed /\ sectors d' = sectors d) \/
        (ph d' = Idle /\ forall q, sectors d' q = if q =? dr then <[Z.to_nat n := v]> (sectors d q) else sectors d q)
    | _ => False
    end
}.

(** ** The queue *)

(** The linked list from [h] is [q]. *)
Fixpoint chain (h : option nat) (next : list (option nat)) (q : list nat) : Prop :=
  match q with
  | [] => h = None
  | i :: q' => h = Some i /\ exists nx, next !! i = Some nx /\ chain nx next q'
  end.

Lemma chain_other h next q i x : chain h next q -> i ∉ q -> chain h (<[i := x]> next) q.
Proof.
  revert h. induction q as [|j q IH]; intros h; [done|]. intros (-> & nx & Hn & Hc) Hi. apply not_elem_of_cons in Hi as [Hne Hi].
  split; [done|]. exists nx. split; [by rewrite list_lookup_insert_ne|by apply IH].
Qed.

Lemma chain_snoc h next q l i : chain h next (q ++ [l]) -> NoDup (q ++ [l; i]) -> next !! i = Some None ->
  chain h (<[l := Some i]> next) (q ++ [l; i]).
Proof.
  revert h. induction q as [|j q IH]; intros h.
  - simpl. intros (-> & nx & Hn & ->) Hd Hi. apply NoDup_cons in Hd as [Hl _]. apply not_elem_of_cons in Hl as [Hl _]. split; [done|].
    exists (Some i). split; [apply list_lookup_insert_eq; by eapply lookup_lt_Some|]. split; [done|]. exists None. by rewrite list_lookup_insert_ne.
  - simpl. intros (-> & nx & Hn & Hc) [Hj Hd]%NoDup_cons Hi. split; [done|]. exists nx. split; [|by apply IH].
    rewrite list_lookup_insert_ne; [done|]. intros <-. apply Hj. apply elem_of_app. right. left.
Qed.

(** [qnext] entries of [q] are inside the array. *)
Lemma chain_bound h next q : chain h next q -> Forall (fun i => i < length next)%nat q.
Proof. revert h. induction q as [|i q IH]; intros h; [constructor|]. intros (_ & nx & Hn & Hc). constructor; [by eapply lookup_lt_Some|by eapply IH]. Qed.

Lemma chain_length h next q : chain h next q -> NoDup q -> (length q <= length next)%nat.
Proof.
  intros Hc Hd. apply chain_bound in Hc. rewrite <-(length_seq (length next) 0). apply submseteq_length, NoDup_submseteq; [done|].
  intros i Hi. apply elem_of_seq. rewrite Forall_forall in Hc. specialize (Hc i Hi). lia.
Qed.

Section driver.
Context {D : Type} {ports : Ports D} {blocks : BlockPorts D} (task : D -> Z -> Z) (ph : D -> phase)
  (sectors : D -> Z -> list (list Z)) (busy : D -> nat) (complete : D -> D -> Prop) (polls : nat).
Hypothesis Hdr : drives task ph sectors busy complete.
Hypothesis Hpolls : forall d, (busy d < polls)%nat.
Abbreviation ide := (ide D).

Definition dv (s : ide) : phase := ph (e_dev s).

Lemma wp_hw {A} (m : M D A) (Q : A -> ide -> Prop) s a d : m (e_dev s) = Ret a d -> Q a (set_edev d s) -> wp (hw m) Q s.
Proof using Type. intros E HQ. apply wp_zoom. by eapply wp_run. Qed.

(** Only the busy time changes. *)
Definition same_drive (d d' : D) : Prop := task d' = task d /\ ph d' = ph d /\ sectors d' = sectors d.

Lemma idewait_loop_spec : forall n s, ~ working (dv s) -> (busy (e_dev s) < n)%nat ->
  wp (idewait_loop n) (fun r s' => exists d, same_drive (e_dev s) d /\ s' = set_edev d s /\ (Z.land r (Z.lor IDE_DF IDE_ERR) = 0 <-> dv s <> Failed)) s.
Proof using Hdr.
  induction n as [|n IH]; intros s Hw Hn; [lia|]. cbn [idewait_loop]. apply wp_bind.
  destruct (dr_status _ _ _ _ _ Hdr (e_dev s)) as (r & d & E & H1 & H2 & H3 & Hr & He). eapply wp_hw; [exact E|].
  destruct (Z.eqb_spec (Z.land r (Z.lor IDE_BSY IDE_DRDY)) IDE_DRDY) as [Hy|Hno]; [apply wp_ret; by exists d|].
  destruct (Hr Hw) as [Hy|Hlt]; [done|]. eapply wp_mono; [apply (IH (set_edev d s)); [by unfold dv; cbn; rewrite H2|cbn; lia]|].
  intros r' s' (d' & (T1 & T2 & T3) & -> & He'). exists d'. cbn in *. split; [by split_and!; congruence|]. split; [done|]. unfold dv in *. cbn in He'. by rewrite He', H2.
Qed.

Lemma idewait_spec check s : ~ working (dv s) ->
  wp (idewait polls check) (fun r s' => exists d, same_drive (e_dev s) d /\ s' = set_edev d s /\
    (check = true -> (0 <=? r) = true <-> dv s <> Failed)) s.
Proof using Hdr Hpolls.
  intros Hw. unfold idewait. apply wp_bind. eapply wp_mono; [by apply idewait_loop_spec|]. intros r s' (d & Hd & -> & He).
  apply wp_ret. exists d. split; [done|]. split; [done|]. intros ->. cbn [andb]. rewrite <-He.
  destruct (Z.eqb_spec (Z.land r (Z.lor IDE_DF IDE_ERR)) 0); by split.
Qed.

Lemma set_task p v k (Q : unit -> ide -> Prop) s : is_task p = true -> 0 <= v < 256 -> ~ working (dv s) ->
  (forall d, (forall q, task d q = if q =? p then v else task (e_dev s) q) -> ph d = dv s -> sectors d = sectors (e_dev s) -> wp k Q (set_edev d s)) ->
  wp (hw (outb p v) ;;; k) Q s.
Proof using Hdr.
  intros Hp Hv Hw HQ. apply wp_bind. destruct (dr_reg _ _ _ _ _ Hdr p v (e_dev s) Hp Hv Hw) as (d & E & H1 & H2 & H3).
  eapply wp_hw; [exact E|]. by apply HQ.
Qed.

(** The number on the ports is the number of the block. *)
Lemma ports_lba n dev : 0 <= n < FSSIZE -> forall task, task 0x1f3 = Z.land n 0xff -> task 0x1f4 = Z.land (Z.shiftr n 8) 0xff ->
  task 0x1f5 = Z.land (Z.shiftr n 16) 0xff -> task 0x1f6 = Z.lor (Z.lor 0xe0 (Z.shiftl (Z.land dev 1) 4)) (Z.land (Z.shiftr n 24) 0x0f) ->
  lba task = n /\ drive_bit task = dev mod 2.
Proof using Type.
  intros Hn t E3 E4 E5 E6. unfold lba, drive_bit. rewrite E3, E4, E5, E6. unfold FSSIZE in Hn.
  assert (forall x k, 0 < k -> Z.land x (2 ^ k - 1) = x mod 2 ^ k) as Hland.
  { intros x k Hk. rewrite <-Z.land_ones by lia. by rewrite Z.ones_equiv, <-Z.sub_1_r. }
  change 255 with (2 ^ 8 - 1). change 15 with (2 ^ 4 - 1).
  assert (Z.land dev 1 = dev mod 2) as -> by (change 1 with (2 ^ 1 - 1); by rewrite Hland by lia).
  rewrite !Hland, !Z.shiftr_div_pow2 by lia. rewrite (Z.div_small n (2 ^ 16)), (Z.div_small n (2 ^ 24)) by lia.
  change (0 mod 2 ^ 8) with 0. change (0 mod 2 ^ 4) with 0. rewrite Z.lor_0_r.
  pose proof (Z.mod_pos_bound dev 2 ltac:(lia)) as Hdev. change (2 ^ 1) with 2.
  rewrite (Z.mod_small (n / 2 ^ 8)) by (split; [apply Z.div_pos; lia|apply Z.div_lt_upper_bound; lia]).
  pose proof (Z.div_mod n (2 ^ 8) ltac:(lia)). assert (dev mod 2 = 0 \/ dev mod 2 = 1) as [-> | ->] by lia; (split; [|done]).
  - change (Z.lor 224 (Z.shiftl 0 4) mod 16) with 0. lia.
  - change (Z.lor 224 (Z.shiftl 1 4) mod 16) with 0. lia.
Qed.

(** What a started request makes of the drive. *)
Definition starting (b : buf) : phase :=
  if has_flag B_DIRTY b then Storing (b_dev b mod 2) (b_blockno b) (b_data b) else Getting (b_dev b mod 2) (b_blockno b).

Lemma idestart_spec i b s : e_bufs s !! i = Some b -> 0 <= b_blockno b < FSSIZE -> ~ working (dv s) ->
  wp (idestart polls (Some i)) (fun _ s' => exists d, s' = set_edev d s /\ ph d = starting b /\ sectors d = sectors (e_dev s)) s.
Proof using Hdr Hpolls.
  intros Hb Hn Hw. unfold idestart. apply wp_bind. unfold buf_at. apply wp_bind, wp_gets. eapply wp_deref; [exact Hb|].
  apply wp_bind, wp_panic_if; [apply Z.leb_gt; lia|]. change (Z.of_nat BSIZE / SECTOR_SIZE) with 1. cbv zeta. rewrite Z.mul_1_r.
  apply wp_bind, wp_panic_if; [done|]. apply wp_bind. eapply wp_mono; [by apply idewait_spec|]. intros _ s0 (d0 & (T0 & P0 & S0) & -> & _).
  assert (Hland : forall x k, 0 < k -> Z.land x (2 ^ k - 1) = x mod 2 ^ k).
  { intros x k Hk. rewrite <-Z.land_ones by lia. by rewrite Z.ones_equiv, <-Z.sub_1_r. }
  assert (Hbyte : forall x, 0 <= Z.land x 0xff < 256) by (intros x; change 0xff with (2 ^ 8 - 1); rewrite Hland by lia; apply Z.mod_pos_bound; lia).
  assert (~ working (ph d0)) as Hw0 by (by rewrite P0).
  apply set_task; [done|lia|done|]. intros d1 T1 P1 S1. apply set_task; [done|lia|unfold dv in *; cbn in *; congruence|]. intros d2 T2 P2 S2.
  apply set_task; [done|done|unfold dv in *; cbn in *; congruence|]. intros d3 T3 P3 S3. apply set_task; [done|done|unfold dv in *; cbn in *; congruence|]. intros d4 T4 P4 S4.
  apply set_task; [done|done|unfold dv in *; cbn in *; congruence|]. intros d5 T5 P5 S5.
  apply set_task; [done| |unfold dv in *; cbn in *; congruence|].
  { rewrite Z.shiftr_div_pow2, (Z.div_small _ (2 ^ 24)) by (unfold FSSIZE in Hn; lia). change (Z.land 0 15) with 0. rewrite Z.lor_0_r.
    change 1 with (2 ^ 1 - 1). rewrite Hland by lia. change (2 ^ 1) with 2. pose proof (Z.mod_pos_bound (b_dev b) 2 ltac:(lia)).
    assert (b_dev b mod 2 = 0 \/ b_dev b mod 2 = 1) as [-> | ->] by lia; vm_compute; (split; [discriminate|reflexivity]). }
  intros d6 T6 P6 S6. unfold dv in *. cbn in *.
  destruct (ports_lba (b_blockno b) (b_dev b) Hn (task d6)) as [El Ed].
  { rewrite T6, T5, T4, T3. done. } { rewrite T6, T5, T4. done. } { rewrite T6, T5. done. } { by rewrite T6. }
  assert (~ working (ph d6)) as Hw6 by congruence. assert (sectors d6 = sectors (e_dev s)) as S6' by congruence. unfold starting.
  change (if 1 =? 1 then IDE_CMD_WRITE else IDE_CMD_WRMUL) with IDE_CMD_WRITE. change (if 1 =? 1 then IDE_CMD_READ else IDE_CMD_RDMUL) with IDE_CMD_READ.
  destruct (has_flag B_DIRTY b).
  - destruct (dr_write _ _ _ _ _ Hdr d6 Hw6) as (d7 & E7 & P7 & S7). apply wp_bind. eapply wp_hw; [exact E7|].
    destruct (dr_out _ _ _ _ _ Hdr d7 _ _ (b_data b) P7) as (d8 & E8 & P8 & S8). eapply wp_hw; [exact E8|].
    exists d8. split; [done|]. rewrite P8, El, Ed. split; [done|congruence].
  - destruct (dr_read _ _ _ _ _ Hdr d6 Hw6) as (d7 & E7 & P7 & S7). eapply wp_hw; [exact E7|].
    exists d7. split; [done|]. rewrite P7, El, Ed. split; [done|congruence].
Qed.

(** ** The queue and the drive together *)

Definition request (s : ide) (b : buf) : Prop :=
  0 <= b_blockno b < FSSIZE /\ iderw_done b = false /\ (Z.to_nat (b_blockno b) < length (sectors (e_dev s) (b_dev b mod 2)))%nat.

(** The drive has done what buffer [b] asks for. *)
Definition finished (s : ide) (b : buf) : Prop :=
  if has_flag B_DIRTY b then (dv s = Idle /\ sectors (e_dev s) (b_dev b mod 2) !! Z.to_nat (b_blockno b) = Some (b_data b)) \/ dv s = Failed
  else (exists v, dv s = Fetched v /\ sectors (e_dev s) (b_dev b mod 2) !! Z.to_nat (b_blockno b) = Some v) \/ dv s = Failed.

Record ide_ok (q : list nat) (s : ide) : Prop := IdeOk {
  iq_chain : chain (e_head s) (e_next s) q;
  iq_nodup : NoDup q;
  iq_len : length (e_next s) = length (e_bufs s);
  iq_req : forall i, i ∈ q -> exists b, e_bufs s !! i = Some b /\ request s b;
  iq_head : match q with
    | [] => ~ working (dv s)
    | i :: _ => exists b, e_bufs s !! i = Some b /\ (dv s = starting b \/ finished s b)
    end
}.

Lemma finished_not_working s b : finished s b -> ~ working (dv s).
Proof using Type. unfold finished. destruct (has_flag _ _); [by intros [[-> _]| ->] []|]. by intros [(v & -> & _)| ->] []. Qed.

Lemma starting_working b : working (starting b).
Proof using Type. unfold starting. by destruct (has_flag _ _). Qed.

(** The drive completes a command. *)
Lemma complete_ok q s d : ide_ok q s -> complete (e_dev s) d -> ide_ok q (set_edev d s) /\ ~ working (ph d).
Proof using Hdr.
  intros [Hc Hn Hl Hreq Hh] Hd. pose proof (dr_complete _ _ _ _ _ Hdr _ _ Hd) as H. fold (dv s) in H.
  assert (Hwork : working (dv s)) by (destruct (dv s); done).
  destruct q as [|i q]; [done|]. destruct Hh as (b & Hb & [Hst|Hfin]); [|by apply finished_not_working in Hfin].
  destruct (Hreq i ltac:(left)) as (b' & Hb' & Hr & _ & Hsec). assert (b' = b) as -> by congruence.
  assert (Hlen : forall x, length (sectors d x) = length (sectors (e_dev s) x)).
  { intros x. rewrite Hst in H. unfold starting in H. destruct (has_flag _ _); [|by destruct H as [-> _]].
    destruct H as [[_ ->]|[_ H]]; [done|]. rewrite H. case_match; [apply length_insert|done]. }
  assert (Hfin : finished (set_edev d s) b).
  { unfold finished, dv. cbn [e_dev set_edev]. rewrite Hst in H. unfold starting in H. destruct (has_flag _ _).
    - destruct H as [[-> _]|[-> H]]; [by right|]. left. split; [done|]. rewrite H, Z.eqb_refl. by apply list_lookup_insert_eq.
    - destruct H as [-> [H|(v & Hv & H)]]; [by right|]. left. by exists v. }
  split; [|by eapply finished_not_working in Hfin]. split; try done.
  - intros j Hj. destruct (Hreq j Hj) as (c & Hc' & Hr' & Hd' & Hs'). exists c. split; [done|]. split; [done|]. split; [done|]. cbn. by rewrite Hlen.
  - exists b. split; [done|]. by right.
Qed.

Lemma alter_insert (f : buf -> buf) i b (l : list buf) : l !! i = Some b -> alter f i l = <[i := f b]> l.
Proof using Type. intros Hb. apply list_eq. intros j. destruct (decide (i = j)) as [<-|Hne].
  - rewrite list_lookup_alter_eq, Hb, list_lookup_insert_eq; [done|by eapply lookup_lt_Some].
  - by rewrite list_lookup_alter_ne, list_lookup_insert_ne.
Qed.

(** The buffer when its request is done. *)
Definition served (p : phase) (b : buf) : buf :=
  set_flags (Z.land (Z.lor (b_flags b) B_VALID) (Z.lnot B_DIRTY))
    (match p with Fetched v => if has_flag B_DIRTY b then b else set_data v b | _ => b end).

Lemma served_done p b : iderw_done (served p b) = true.
Proof using Type.
  unfold iderw_done, served. cbn [b_flags set_flags]. rewrite <-Z.land_assoc. change (Z.land (Z.lnot B_DIRTY) (Z.lor B_VALID B_DIRTY)) with B_VALID.
  rewrite Z.land_lor_distr_l, Z.land_diag. apply Z.eqb_eq. apply Z.bits_inj'. intros k Hk. rewrite Z.lor_spec, Z.land_spec.
  by destruct (Z.testbit (b_flags b) k), (Z.testbit B_VALID k).
Qed.

Lemma change_buf_spec i f b (Q : unit -> ide -> Prop) s : e_bufs s !! i = Some b -> Q tt (set_ebufs (<[i := f b]> (e_bufs s)) s) -> wp (change_buf i f) Q s.
Proof using Type. intros Hb HQ. apply wp_modify. by rewrite (alter_insert f i b). Qed.

Lemma ideintr_spec i q b s : ide_ok (i :: q) s -> ~ working (dv s) -> e_bufs s !! i = Some b ->
  wp (ideintr polls) (fun r s' => r = Some i /\ ide_ok q s' /\ e_bufs s' = <[i := served (dv s) b]> (e_bufs s) /\
    sectors (e_dev s') = sectors (e_dev s) /\ e_disk1 s' = e_disk1 s /\ (q <> [] -> working (dv s'))) s.
Proof using Hdr Hpolls.
  intros [[Hh (nx & Hnx & Hc)] [Hni Hn]%NoDup_cons Hl Hreq Hhead] Hw Hb. unfold ideintr. apply wp_bind, wp_gets. cbn [id]. rewrite Hh.
  apply wp_bind. unfold next_of. apply wp_bind, wp_gets. eapply wp_deref; [exact Hnx|]. apply wp_bind, wp_modify.
  apply wp_bind. unfold buf_at. apply wp_bind, wp_gets. eapply wp_deref; [exact Hb|]. cbn [set_head e_bufs].
  destruct Hhead as (b' & Hb' & Hfin). assert (b' = b) as -> by congruence.
  assert (finished s b) as Hf by (destruct Hfin as [Hs|]; [exfalso; apply Hw; rewrite Hs; apply starting_working|done]).
  (* the data *)
  set (b1 := match dv s with Fetched v => if has_flag B_DIRTY b then b else set_data v b | _ => b end).
  apply wp_bind. apply (wp_mono _ (fun _ s' => exists d, sectors d = sectors (e_dev s) /\ ~ working (ph d) /\
    s' = set_ebufs (<[i := b1]> (e_bufs s)) (set_head nx (set_edev d s)))).
  { unfold finished in Hf. destruct (has_flag B_DIRTY b) eqn:Ed; cbn [negb].
    - apply wp_ret. exists (e_dev s). split; [done|]. split; [done|]. unfold b1. destruct Hf as [[Hi _]|Hi]; rewrite Hi, list_insert_id by done; by destruct s.
    - apply wp_bind. eapply wp_mono; [by apply idewait_spec|]. intros r s1 (d & (_ & P1 & S1) & -> & Hr). cbn in P1, S1. specialize (Hr eq_refl).
      unfold dv in Hr. cbn in Hr. fold (dv s) in Hr. destruct Hf as [(v & Hv & _)|Hfail].
      + rewrite (proj2 Hr) by (by rewrite Hv). apply wp_bind. destruct (dr_in _ _ _ _ _ Hdr d v) as (d2 & E2 & P2 & S2); [by rewrite P1|].
        eapply wp_hw; [exact E2|]. eapply change_buf_spec; [exact Hb|]. exists d2. split; [congruence|]. split; [rewrite P2; by intros []|].
        unfold b1. by rewrite Hv.
      + destruct (0 <=? r) eqn:Er; [by apply (proj1 Hr eq_refl) in Hfail|]. apply wp_ret. exists d. split; [done|]. split; [by rewrite P1|].
        unfold b1. rewrite Hfail, list_insert_id by done. by destruct s. }
  intros [] s1 (d & Sd & Pd & ->). pose proof (lookup_lt_Some _ _ _ Hb) as Hlt.
  apply wp_bind. eapply change_buf_spec; [by apply list_lookup_insert_eq|]. cbn [set_ebufs e_bufs set_head set_edev].
  apply wp_bind. eapply change_buf_spec; [cbn; apply list_lookup_insert_eq; by rewrite length_insert|]. cbn [set_ebufs e_bufs set_head set_edev].
  rewrite !list_insert_insert_eq. set (b2 := set_flags _ _). assert (b2 = served (dv s) b) as E2.
  { unfold b2, served, set_flags. fold b1. cbn. f_equal; unfold b1; destruct (dv s); try done; by destruct (has_flag _ _). }
  clearbody b2. subst b2. set (bs := <[i := served (dv s) b]> (e_bufs s)). apply wp_bind, wp_gets. cbn [id e_head set_ebufs set_head].
  assert (Hreq' : forall s', sectors (e_dev s') = sectors (e_dev s) -> e_bufs s' = bs -> forall j, j ∈ q -> exists c, e_bufs s' !! j = Some c /\ request s' c).
  { intros s' Hs Hbs j Hj. destruct (Hreq j ltac:(by right)) as (c & Hcj & Hr). exists c. rewrite Hbs. unfold bs. rewrite list_lookup_insert_ne by (by intros ->).
    split; [done|]. unfold request. by rewrite Hs. }
  destruct q as [|j q].
  { simpl in Hc. subst nx. rewrite bool_decide_false by (by intros [? ?]). apply wp_bind, wp_ret, wp_ret. split; [done|]. split; [|done].
    split; try done; [cbn; by rewrite Hl; unfold bs; rewrite length_insert|by intros ? ?%not_elem_of_nil]. }
  destruct (Hreq j ltac:(right; left)) as (c & Hcj & Hrj). pose proof Hc as [-> _]. rewrite bool_decide_true by (by eexists).
  assert (bs !! j = Some c) as Hcj'.
  { unfold bs. rewrite list_lookup_insert_ne; [done|]. intros ->. apply Hni. left. }
  apply wp_bind. eapply wp_mono; [apply (idestart_spec j c); [exact Hcj'|apply Hrj|done]|]. intros [] s2 (d2 & -> & P2 & S2). cbn in S2.
  apply wp_ret. split; [done|]. split; [|split_and!; [done|cbn; congruence|done|intros _; unfold dv; cbn; rewrite P2; apply starting_working]].
  split; try done.
  - cbn. unfold bs. by rewrite length_insert.
  - apply Hreq'; [cbn; congruence|done].
  - exists c. split; [done|]. left. done.
Qed.

Lemma queue_end_spec : forall n h next q l (s : ide), chain (Some h) next (q ++ [l]) -> e_next s = next -> (length q < n)%nat ->
  wp (queue_end n h) (fun r s' => r = l /\ s' = s) s.
Proof using Type.
  induction n as [|n IH]; intros h next q l s Hc En Hn; [lia|]. cbn [queue_end]. unfold next_of. apply wp_bind, wp_bind, wp_gets. cbn [id].
  destruct q as [|i q]; simpl in Hc.
  - destruct Hc as ([= ->] & nx & Hx & ->). eapply wp_deref; [by rewrite En|]. by apply wp_ret.
  - destruct Hc as ([= ->] & nx & Hx & Hc). eapply wp_deref; [by rewrite En|]. destruct nx as [j|]; [|by destruct q as [|? ?]; destruct Hc].
    simpl in Hn. eapply IH; [exact Hc|done|lia].
Qed.

(** A request joins the queue; a drive without work starts on it. *)
Lemma iderw_start_spec i b q s : ide_ok q s -> e_bufs s !! i = Some b -> i ∉ q -> request s b -> b_lock b = SleepLock true (e_pid s) ->
  (b_dev b = 0 \/ e_disk1 s = true) ->
  wp (iderw_start polls i) (fun _ s' => ide_ok (q ++ [i]) s' /\ e_bufs s' = e_bufs s /\ sectors (e_dev s') = sectors (e_dev s) /\
    e_disk1 s' = e_disk1 s /\ (dv s' = starting b \/ q <> [] /\ dv s' = dv s)) s.
Proof using Hdr Hpolls.
  intros [Hc Hn Hl Hreq Hhead] Hb Hi Hr Hlock Hdisk. pose proof (lookup_lt_Some _ _ _ Hb) as Hlt. unfold iderw_start, buf_at.
  apply wp_bind, wp_bind, wp_gets. eapply wp_deref; [exact Hb|]. apply wp_bind, wp_gets. cbn [id]. rewrite Hlock. cbn [sl_locked sl_pid]. rewrite Z.eqb_refl.
  apply wp_bind, wp_panic_if; [done|]. apply wp_bind, wp_panic_if; [apply Hr|].
  apply wp_bind, wp_panic_if; [destruct Hdisk as [->| ->]; [done|apply andb_false_r]|]. apply wp_bind, wp_modify.
  set (next1 := <[i := None]> (e_next s)). assert (next1 !! i = Some None) as Hi1 by (apply list_lookup_insert_eq; lia).
  assert (chain (e_head s) next1 q) as Hc1 by (by apply chain_other).
  assert (NoDup (q ++ [i])) as Hn1.
  { apply NoDup_app. split; [done|]. split; [|apply NoDup_singleton]. intros j Hj ->%list_elem_of_singleton. done. }
  assert (Hreq1 : forall s', sectors (e_dev s') = sectors (e_dev s) -> e_bufs s' = e_bufs s ->
    forall j, j ∈ q ++ [i] -> exists c, e_bufs s' !! j = Some c /\ request s' c).
  { intros s' Hs Hbs j Hj. unfold request. rewrite Hbs, Hs. apply elem_of_app in Hj as [Hj| ->%list_elem_of_singleton]; [by apply Hreq|by exists b]. }
  destruct q as [|h q].
  - (* an empty queue *)
    simpl in Hc. rewrite Hc. apply wp_bind, wp_modify. apply wp_bind, wp_gets. cbn [id e_head set_head]. rewrite bool_decide_true by done.
    eapply wp_mono; [by apply (idestart_spec i b); [|apply Hr|]|]. intros [] s' (d & -> & Pd & Sd). cbn in Sd.
    split; [|split_and!; [done|done|done|by left]]. split; cbn; try done; [split; [done|]; by exists None|by unfold next1; rewrite length_insert|by apply (Hreq1 (set_edev d (set_head (Some i) (set_next i None s))))|].
    exists b. split; [done|]. by left.
  - (* behind the last one *)
    destruct (exists_last (l := h :: q)) as (q0 & l & Eq); [done|]. rewrite Eq in *.
    assert (e_head s = Some h) as Eh by (destruct q0; simpl in Eq; [injection Eq as -> ->|injection Eq as <- _]; apply Hc).
    rewrite Eh in *. pose proof (chain_length _ _ _ Hc1 Hn) as Hlen. rewrite length_app in Hlen. simpl in Hlen.
    apply wp_bind. apply wp_bind. eapply wp_mono; [eapply (queue_end_spec _ h next1 q0 l); [exact Hc1|done|cbn; fold next1; unfold next1 in Hlen |- *; rewrite length_insert in *; lia]|].
    intros r s1 [-> ->]. apply wp_modify. apply wp_bind, wp_gets. cbn [id e_head set_next]. rewrite Eh.
    assert (h <> i) as Hhi.
    { intros ->. apply Hi. rewrite <-Eq. left. }
    rewrite bool_decide_false by congruence. apply wp_ret. rewrite <-app_assoc in *. cbn [app] in *. split; [|split_and!; [done|done|done|right; split; [by destruct q0|done]]]. split; cbn; try done.
    + rewrite Eh. by apply chain_snoc.
    + by rewrite !length_insert.
    + by apply (Hreq1 (set_next l (Some i) (set_next i None s))).
    + destruct q0; injection Eq as Eh1 _; rewrite <-Eh1; exact Hhead.
Qed.

(** A read that failed: the buffer is marked valid with the data it had. *)
(** The driver does not look at the result of a write, and a failed read leaves the buffer as
    it was: both are marked valid and clean. *)
Lemma error_marks_valid i q b s : ide_ok (i :: q) s -> dv s = Failed -> e_bufs s !! i = Some b ->
  wp (ideintr polls) (fun _ s' => exists b', e_bufs s' !! i = Some b' /\ iderw_done b' = true /\ b_data b' = b_data b) s.
Proof using Hdr Hpolls.
  intros Hs Hf Hb. eapply wp_mono; [eapply ideintr_spec; [exact Hs|by rewrite Hf; intros []|exact Hb]|].
  intros r s' (_ & _ & -> & _). exists (served (dv s) b). rewrite Hf. split; [apply list_lookup_insert_eq; by eapply lookup_lt_Some|].
  split; [apply served_done|done].
Qed.

(** ** The system *)

(** The callers asleep in [iderw], by buffer. *)
(** [failed]: the callers whose command the drive has reported as failed. *)
Record isys := Isys { drv : ide; blocked : gset nat; failed : gset nat }.
Definition set_epid (x : Z) (s : ide) : ide := Ide (e_dev s) (e_bufs s) (e_head s) (e_next s) (e_disk1 s) x.
Definition block_of (b : buf) : Z * Z := (b_dev b mod 2, b_blockno b).

(** The cache has one buffer for a block; a buffer is changed only by the holder of its lock,
    who sleeps while the request is pending; the drive interrupts when it has completed. *)
Inductive istep : isys -> isys -> Prop :=
| i_request s i b pid e : i ∉ blocked s -> e_bufs (drv s) !! i = Some b -> b_lock b = SleepLock true pid ->
    request (drv s) b -> (b_dev b = 0 \/ e_disk1 (drv s) = true) ->
    (forall j c, j ∈ blocked s -> e_bufs (drv s) !! j = Some c -> block_of c <> block_of b) ->
    iderw_start polls i (set_epid pid (drv s)) = Ret tt e -> istep s (Isys e ({[i]} ∪ blocked s) (failed s ∖ {[i]}))
| i_complete s d : complete (e_dev (drv s)) d -> ph d <> Failed -> istep s (Isys (set_edev d (drv s)) (blocked s) (failed s))
| i_fail s d i : complete (e_dev (drv s)) d -> ph d = Failed -> e_head (drv s) = Some i ->
    istep s (Isys (set_edev d (drv s)) (blocked s) ({[i]} ∪ failed s))
| i_interrupt s r e : ~ working (dv (drv s)) -> ideintr polls (drv s) = Ret r e -> istep s (Isys e (blocked s) (failed s))
| i_return s i b : i ∈ blocked s -> e_bufs (drv s) !! i = Some b -> iderw_done b = true -> istep s (Isys (drv s) (blocked s ∖ {[i]}) (failed s))
| i_owner s i b : i ∉ blocked s -> istep s (Isys (set_ebufs (<[i := b]> (e_bufs (drv s))) (drv s)) (blocked s) (failed s)).

Definition synced (s : ide) (b : buf) : Prop := sectors (e_dev s) (b_dev b mod 2) !! Z.to_nat (b_blockno b) = Some (b_data b).

(** [q] is the queue: the callers that are asleep and not yet served. *)
Record sys_ok (q : list nat) (s : isys) : Prop := SysOk {
  so_ide : ide_ok q (drv s);
  so_queue : forall i, i ∈ q -> i ∈ blocked s;
  so_done : forall i, i ∈ blocked s -> i ∉ q -> exists b, e_bufs (drv s) !! i = Some b /\ iderw_done b = true /\ (i ∉ failed s -> synced (drv s) b) /\ 0 <= b_blockno b;
  so_blocks : forall i j b c, i ∈ blocked s -> j ∈ blocked s -> i <> j -> e_bufs (drv s) !! i = Some b -> e_bufs (drv s) !! j = Some c -> block_of b <> block_of c;
  so_good : forall i, head q = Some i -> dv (drv s) = Failed -> i ∈ failed s
}.

Lemma served_same p b : b_dev (served p b) = b_dev b /\ b_blockno (served p b) = b_blockno b.
Proof using Type. unfold served. destruct p; try done. by destruct (has_flag _ _). Qed.
Lemma served_block p b : block_of (served p b) = block_of b.
Proof using Type. unfold block_of. by destruct (served_same p b) as [-> ->]. Qed.

Lemma sectors_synced s d b i : ide_ok i s -> complete (e_dev s) d -> 0 <= b_blockno b ->
  (forall j c, i = j :: tail i -> e_bufs s !! j = Some c -> block_of c <> block_of b) -> synced s b -> synced (set_edev d s) b.
Proof using Hdr.
  intros [_ _ _ Hreq Hh] Hd Hnn Hb Hs. unfold synced in *. cbn. pose proof (dr_complete _ _ _ _ _ Hdr _ _ Hd) as H. fold (dv s) in H.
  assert (Hwork : working (dv s)) by (destruct (dv s); done). destruct i as [|j q]; [done|].
  destruct Hh as (c & Hc & [Hst|Hfin]); [|by apply finished_not_working in Hfin]. specialize (Hb j c eq_refl Hc).
  destruct (Hreq j ltac:(left)) as (c' & Hc' & Hr & _). assert (c' = c) as -> by congruence.
  rewrite Hst in H. unfold starting in H. destruct (has_flag _ _); [|by destruct H as [-> _]]. destruct H as [[_ ->]|[_ H]]; [done|]. rewrite H.
  destruct (Z.eqb_spec (b_dev b mod 2) (b_dev c mod 2)) as [E|E]; [|done]. rewrite list_lookup_insert_ne; [done|].
  intros Hn. apply Hb. unfold block_of. f_equal; [done|]. lia.
Qed.

(** The completion of a command does not touch the block of another caller. *)
Lemma blocked_synced q s d i b : sys_ok q s -> complete (e_dev (drv s)) d -> i ∈ blocked s -> i ∉ q ->
  e_bufs (drv s) !! i = Some b -> 0 <= b_blockno b -> synced (drv s) b -> synced (set_edev d (drv s)) b.
Proof using Hdr.
  intros [Hs Hq _ Hblocks _] Hd Hi Hiq Hb Hnn Hsy. eapply sectors_synced; [exact Hs|done|done| |done].
  intros j c Ej Hc. apply (Hblocks j i); [apply Hq; rewrite Ej; left|done| |done|done].
  intros ->. apply Hiq. rewrite Ej. left.
Qed.

Lemma istep_ok s s' q : sys_ok q s -> istep s s' -> exists q', sys_ok q' s' /\
  (q' = q \/ (exists i, q' = q ++ [i]) \/ exists i, q = i :: q').
Proof using Hdr Hpolls.
  intros [Hs Hq Hdone Hblocks Hfail] Hstep. destruct Hstep.
  - assert (i ∉ q) as Hiq by (intros Hin; by apply Hq in Hin).
    assert (ide_ok q (set_epid pid (drv s))) as Hs0 by (destruct Hs; by split).
    pose proof (iderw_start_spec i b q _ Hs0 H0 Hiq H2 H1 H3) as Hw. eapply wp_use in Hw; [|exact H5].
    destruct Hw as (Hs' & Eb & Es & _ & Hph). cbn in Eb, Es. exists (q ++ [i]). split; [|right; left; by exists i]. split; cbn.
    + done.
    + intros j [Hj| ->%list_elem_of_singleton]%elem_of_app; [apply Hq in Hj|]; set_solver.
    + intros j Hj Hjq. rewrite Eb. unfold synced. rewrite Es.
      assert (j <> i) by (intros ->; apply Hjq, elem_of_app; right; left).
      destruct (Hdone j) as (c & ? & ? & Hsy & ?); [set_solver..|]. exists c. split_and!; try done.
      intros Hj'. apply Hsy. set_solver.
    + rewrite Eb. intros j k c1 c2 Hj Hk Hne E1 E2. destruct (decide (j = i)) as [->|Hji].
      * assert (c1 = b) as -> by congruence. intros E. apply (H4 k c2); [set_solver|done|done].
      * destruct (decide (k = i)) as [->|Hki]; [assert (c2 = b) as -> by congruence; apply (H4 j); [set_solver|done]|].
        apply (Hblocks j k); [set_solver..|done|done|done].
    + intros j Hj Hf. destruct Hph as [Hst|[Hne Hst]].
      * pose proof (starting_working b) as Hwk. by rewrite <-Hst, Hf in Hwk.
      * destruct q as [|h q]; [done|]. injection Hj as ->.
        assert (j ∈ failed s) by (apply Hfail; [done|]; by rewrite <-Hf, Hst).
        assert (j <> i) by (intros ->; apply Hiq; left). set_solver.
  - destruct (complete_ok q (drv s) d Hs H) as [Hs' Hw]. exists q. split; [|by left]. split; cbn; try done.
    intros i Hi Hiq. destruct (Hdone i Hi Hiq) as (b & Hb & Hd & Hsy & Hnn). exists b. split_and!; try done.
    intros Hif. eapply blocked_synced; [split|..]; eauto.
  - destruct (complete_ok q (drv s) d Hs H) as [Hs' Hw]. exists q. split; [|by left]. split; cbn; try done.
    + intros j Hj Hjq. destruct (Hdone j Hj Hjq) as (b & Hb & Hd & Hsy & Hnn). exists b. split_and!; try done.
      intros Hjf. eapply blocked_synced; [split|..]; eauto. apply Hsy. set_solver.
    + intros j Hj _. pose proof (iq_chain _ _ Hs) as Hc. destruct q as [|h q]; [done|]. injection Hj as ->.
      destruct Hc as [Hc _]. assert (j = i) as -> by congruence. set_solver.
  - destruct q as [|i q].
    { exists []. split; [|by left]. pose proof (iq_chain _ _ Hs) as Hc. simpl in Hc. unfold ideintr, bind, gets in H0. cbn in H0. rewrite Hc in H0.
      injection H0 as _ <-. by destruct s. }
    destruct (iq_req _ _ Hs i ltac:(left)) as (b & Hb & Hr). pose proof (iq_nodup _ _ Hs) as [Hiq _]%NoDup_cons.
    pose proof (ideintr_spec i q b _ Hs H Hb) as Hw. eapply wp_use in Hw; [|exact H0]. destruct Hw as (_ & Hs' & Eb & Es & _ & Hwork).
    exists q. split; [|right; right; by exists i]. split; cbn.
    + done.
    + intros j Hj. apply Hq. by right.
    + intros j Hj Hjq. rewrite Eb. unfold synced. rewrite Es. destruct (decide (j = i)) as [->|Hne].
      * exists (served (dv (drv s)) b). split; [apply list_lookup_insert_eq; by eapply lookup_lt_Some|]. split; [apply served_done|].
        destruct (served_same (dv (drv s)) b) as [-> ->].
        split; [|apply Hr]. intros Hif. destruct (iq_head _ _ Hs) as (b' & Hb' & Hfin). assert (b' = b) as -> by congruence.
        destruct Hfin as [Hst|Hfin]; [exfalso; apply H; rewrite Hst; apply starting_working|]. unfold finished in Hfin. unfold served.
        destruct (has_flag B_DIRTY b) eqn:Ed; (destruct Hfin as [Hfin|Hf]; [|by destruct Hif; apply Hfail]).
        -- destruct Hfin as [-> Hfin]. done.
        -- destruct Hfin as (v & -> & Hv). done.
      * rewrite list_lookup_insert_ne by done. apply Hdone; [done|]. by intros [->|?]%elem_of_cons.
    + intros j k c1 c2 Hj Hk Hne E1 E2. rewrite Eb in E1, E2.
      assert (Hold : forall x c, x ∈ blocked s -> <[i := served (dv (drv s)) b]> (e_bufs (drv s)) !! x = Some c ->
        exists c', e_bufs (drv s) !! x = Some c' /\ block_of c' = block_of c).
      { intros x c _. destruct (decide (x = i)) as [->|Hx].
        - rewrite list_lookup_insert_eq by (by eapply lookup_lt_Some). intros [= <-]. exists b. by rewrite served_block.
        - rewrite list_lookup_insert_ne by done. intros Hc. by exists c. }
      destruct (Hold j c1 Hj E1) as (c1' & H1 & <-). destruct (Hold k c2 Hk E2) as (c2' & H2 & <-). by apply (Hblocks j k).
    + intros j Hj Hf. destruct q; [done|]. specialize (Hwork ltac:(done)). by rewrite Hf in Hwork.
  - exists q. split; [|by left]. split; cbn; try done.
    + intros j Hj. apply elem_of_difference. split; [by apply Hq|]. rewrite elem_of_singleton. intros ->.
      destruct (iq_req _ _ Hs i Hj) as (b' & Hb' & _ & Hd & _). congruence.
    + intros j Hj Hjq. apply Hdone; [set_solver|done].
    + intros j k c1 c2 Hj Hk. apply Hblocks; set_solver.
  - assert (i ∉ q) as Hiq by (intros Hin; by apply Hq in Hin).
    assert (Hsame : forall j, j ∈ blocked s -> <[i := b]> (e_bufs (drv s)) !! j = e_bufs (drv s) !! j).
    { intros j Hj. apply list_lookup_insert_ne. by intros ->. }
    exists q. split; [|by left]. split; cbn; try done.
    + destruct Hs as [Hc Hn Hl Hreq Hh]. split; cbn; try done; [by rewrite length_insert| |].
      * intros j Hj. rewrite Hsame by (by apply Hq). by apply Hreq.
      * destruct q as [|h q]; [done|]. rewrite Hsame; [done|]. apply Hq. left.
    + intros j Hj Hjq. rewrite Hsame by done. by apply Hdone.
    + intros j k c1 c2 Hj Hk Hne. rewrite !Hsame by done. by apply Hblocks.
Qed.

(** ** The memory disk *)

(** The flags in the order of memide.c. *)
Lemma flags_order f : Z.lor (Z.land f (Z.lnot B_DIRTY)) B_VALID = Z.land (Z.lor f B_VALID) (Z.lnot B_DIRTY).
Proof using Type. by rewrite Z.land_lor_distr_l. Qed.

Lemma flags_clean f : Z.land f B_DIRTY = 0 -> Z.lor f B_VALID = Z.land (Z.lor f B_VALID) (Z.lnot B_DIRTY).
Proof using Type.
  intros H. rewrite <-flags_order. f_equal. rewrite <-Z.ldiff_land. apply Z.bits_inj'. intros k Hk. rewrite Z.ldiff_spec.
  assert (Z.testbit (Z.land f B_DIRTY) k = false) as E by (rewrite H; apply Z.bits_0). rewrite Z.land_spec in E.
  by destruct (Z.testbit f k), (Z.testbit B_DIRTY k).
Qed.

(** The memory disk serves a request at once. *)
Lemma memide_inv i b st t : bufs st !! i = Some b -> iderw i st = Ret tt t ->
  b_lock b = SleepLock true (mypid st) /\ iderw_done b = false /\ b_dev b = 1 /\ b_blockno b < Z.of_nat (length (disk st)) /\
  (if has_flag B_DIRTY b then bufs t = <[i := served Idle b]> (bufs st) /\ disk t = <[Z.to_nat (b_blockno b) := b_data b]> (disk st)
   else exists v, disk st !! Z.to_nat (b_blockno b) = Some v /\ bufs t = <[i := served (Fetched v) b]> (bufs st) /\ disk t = disk st).
Proof using Type.
  intros Hb. unfold iderw, holdingsleep, get_buf, upd_buf, panic_if, bind, gets, deref, modify, ret. cbn [id]. rewrite Hb.
  destruct (sl_locked (b_lock b) && (sl_pid (b_lock b) =? mypid st)) eqn:El; [|discriminate]. cbn [negb]. rewrite Hb. fold (iderw_done b).
  destruct (iderw_done b); [discriminate|]. destruct (Z.eqb_spec (b_dev b) 1) as [Ed|]; [|discriminate]. cbn [negb].
  destruct (Z.leb_spec (Z.of_nat (length (disk st))) (b_blockno b)) as [|Hn]; [discriminate|]. intros E.
  apply andb_true_iff in El as [E1 E2%Z.eqb_eq]. destruct (b_lock b) as [lk pd] eqn:Elk. cbn in E1, E2. subst lk pd. split_and!; try done.
  pose proof (lookup_lt_Some _ _ _ Hb) as Hlt. destruct (has_flag B_DIRTY b) eqn:Edirty.
  - injection E as <-. cbn. rewrite (alter_insert _ i b (bufs st)) by done.
    rewrite (alter_insert _ i (set_flags (Z.land (b_flags b) (Z.lnot B_DIRTY)) b)) by (by apply list_lookup_insert_eq).
    rewrite list_insert_insert_eq. split; [|done]. f_equal. unfold served, set_flags. cbn. f_equal. apply flags_order.
  - destruct (disk st !! Z.to_nat (b_blockno b)) as [v|] eqn:Ev; [|discriminate]. injection E as <-. exists v. split; [done|]. cbn. split; [|done].
    rewrite (alter_insert _ i b (bufs st)) by done. rewrite (alter_insert _ i (set_data v b)) by (by apply list_lookup_insert_eq).
    rewrite list_insert_insert_eq. f_equal. unfold served, set_flags. rewrite Edirty. cbn. f_equal. apply flags_clean.
    unfold has_flag in Edirty. apply negb_false_iff, Z.eqb_eq in Edirty. done.
Qed.

(** The disk of memide.c that the second drive holds. *)
Definition memdisk (s : ide) (order : list nat) (ws : list (Z * list Z)) : bio := Bio (e_bufs s) order (sectors (e_dev s) 1) ws (e_pid s).

(** C34: The drive and the memory disk agree. With an idle queue, a request that [iderw] of
    memide.c accepts is accepted by ide.c; when the drive has completed it without an error,
    the interrupt handler wakes its caller, and the buffers and the second disk are those that
    memide.c leaves at once; the queue is empty again. *)
Theorem ide_equals_memide i order ws s t : ide_ok [] s -> e_disk1 s = true ->
  (forall b, e_bufs s !! i = Some b -> 0 <= b_blockno b < FSSIZE) -> iderw i (memdisk s order ws) = Ret tt t ->
  wp (iderw_start polls i) (fun _ s1 => forall d, complete (e_dev s1) d -> ph d <> Failed ->
    wp (ideintr polls) (fun r s2 => r = Some i /\ e_bufs s2 = bufs t /\ sectors (e_dev s2) 1 = disk t /\ ide_ok [] s2) (set_edev d s1)) s.
Proof using Hdr Hpolls.
  intros Hs H1 Hn E. destruct (e_bufs s !! i) as [b|] eqn:Hb.
  2:{ unfold iderw, holdingsleep, get_buf, bind, gets, deref in E. cbn in E. by rewrite Hb in E. }
  specialize (Hn b eq_refl). destruct (memide_inv i b (memdisk s order ws) t Hb E) as (Hlock & Hdone & Hdev & Hlen & Ht). cbn in Hlock, Hlen, Ht.
  assert (request s b) as Hr by (split; [done|]; split; [done|]; rewrite Hdev; change (1 mod 2) with 1; lia).
  eapply wp_mono; [apply (iderw_start_spec i b [] s Hs Hb); [apply not_elem_of_nil|done|done|by right]|].
  intros [] s1 (Hs1 & Eb & Es & _ & Hph) d Hd Hg. destruct Hph as [Hst|[[] _]]; [|done].
  destruct (complete_ok _ s1 d Hs1 Hd) as [Hs1' Hw]. pose proof (dr_complete _ _ _ _ _ Hdr _ _ Hd) as Hc. fold (dv s1) in Hc. rewrite Hst in Hc.
  eapply wp_mono; [apply (ideintr_spec i [] b _ Hs1' Hw); cbn; by rewrite Eb|].
  intros r s2 (-> & Hs2 & Eb2 & Es2 & _). split; [done|]. rewrite Eb2, Es2. cbn. rewrite Eb. unfold dv. cbn.
  unfold starting in Hc. destruct (has_flag B_DIRTY b) eqn:Edirty.
  - destruct Hc as [[Hf _]|[-> Hc]]; [done|]. destruct Ht as [-> ->]. rewrite Hc, Hdev, Es. change (1 mod 2) with 1. done.
  - destruct Hc as [Hc [Hf|(v & Hv & Hf)]]; [done|]. rewrite Hf, Hc, Es. destruct Ht as (v' & Hv' & -> & ->).
    rewrite Es, Hdev in Hv. change (1 mod 2) with 1 in Hv. assert (v' = v) as -> by congruence. done.
Qed.

End driver.

(** ** A drive *)

Record ata := Ata { a_task : Z -> Z; a_ph : phase; a_sectors : Z -> list (list Z) }.

#[export] Instance ata_ports : Ports ata := {
  outb p v := modify (fun d =>
    if is_task p then Ata (fun q => if q =? p then v else a_task d q) (a_ph d) (a_sectors d)
    else if p =? 0x1f7 then
      let at_ := (if v =? IDE_CMD_WRITE then Putting else Getting) (drive_bit (a_task d)) (lba (a_task d)) in
      Ata (a_task d) at_ (a_sectors d)
    else d);
  inb p := gets (fun d => match a_ph d with Failed => Z.lor IDE_DRDY IDE_ERR | Getting _ _ | Putting _ _ | Storing _ _ _ => IDE_BSY | _ => IDE_DRDY end)
}.
#[export] Instance ata_blocks : BlockPorts ata := {
  outsl p v := modify (fun d => match a_ph d with Putting dr n => Ata (a_task d) (Storing dr n v) (a_sectors d) | _ => d end);
  insl p n := d <- gets id ;; match a_ph d with Fetched v => modify (fun d => Ata (a_task d) Idle (a_sectors d)) ;;; ret v | _ => ret [] end
}.
Definition finish (d : ata) : option ata :=
  match a_ph d with
  | Getting dr n => v ← a_sectors d dr !! Z.to_nat n; Some (Ata (a_task d) (Fetched v) (a_sectors d))
  | Storing dr n v => Some (Ata (a_task d) Idle (fun q => if q =? dr then <[Z.to_nat n := v]> (a_sectors d q) else a_sectors d q))
  | _ => None
  end.

Definition abandon (d : ata) : option ata :=
  match a_ph d with
  | Getting _ _ | Storing _ _ _ => Some (Ata (a_task d) Failed (a_sectors d))
  | _ => None
  end.
Definition ata_complete (d d' : ata) : Prop := finish d = Some d' \/ abandon d = Some d'.

Lemma ata_drives : drives a_task a_ph a_sectors (fun _ => 0%nat) ata_complete.
Proof.
  split.
  - intros p v d Hp _ _. eexists. split; [reflexivity|]. by rewrite Hp.
  - intros d _. by eexists.
  - intros d _. by eexists.
  - intros d dr n v E. eexists. split; [reflexivity|]. by rewrite E.
  - intros d v E. eexists. unfold insl, ata_blocks, bind, gets. cbn. by rewrite E.
  - intros d. eexists _, d. split; [reflexivity|]. do 3 (split; [done|]). destruct (a_ph d); cbn;
      (split; [by intros H; first [by left|destruct H]|by split]).
  - intros d d' [E|E]; [unfold finish in E|unfold abandon in E]; destruct (a_ph d) as [|dr n|dr n|dr n v|v|]; try done.
    + destruct (_ !! _) as [w|] eqn:Ew; [|done]. injection E as <-. split; [done|]. right. by exists w.
    + injection E as <-. by right.
    + injection E as <-. split; [done|]. by left.
    + injection E as <-. by left.
Qed.

(** Two buffers, a second drive of three sectors. *)
Definition sample_buf (flags n : Z) : buf := Buf flags 1 n (SleepLock true 7) 1 [9].
Definition sample_ide : ide ata :=
  Ide (Ata (fun _ => 0) Idle (fun q => if q =? 1 then [[1]; [2]; [3]] else []))
    [sample_buf 0 2; sample_buf (Z.lor B_VALID B_DIRTY) 1] None [None; None] true 7.

Lemma sample_ok : ide_ok a_ph a_sectors [] sample_ide.
Proof. split; try done; [constructor|by intros i Hi%not_elem_of_nil|by intros []]. Qed.

Lemma ide_equals_memide_witness : exists t, iderw 0 (memdisk a_sectors sample_ide [0; 1]%nat []) = Ret tt t /\ bufs t !! 0%nat = Some (set_data [3] (sample_buf B_VALID 2)) /\
  wp (iderw_start 1 0) (fun _ s1 => forall d, ata_complete (e_dev s1) d -> a_ph d <> Failed ->
    wp (ideintr 1) (fun r s2 => r = Some 0%nat /\ e_bufs s2 = bufs t /\ a_sectors (e_dev s2) 1 = disk t /\ ide_ok a_ph a_sectors [] s2) (set_edev d s1)) sample_ide.
Proof.
  eexists. split; [reflexivity|]. split; [reflexivity|].
  eapply (ide_equals_memide _ _ _ _ _ 1 ata_drives (fun _ => Nat.lt_0_1) 0 [0; 1]%nat []); [apply sample_ok|reflexivity| |reflexivity].
  intros b [= <-]. by split.
Defined.

