(* ===== verification/Umalloc.v ===== *)
(** * The allocator of user programs (umalloc.c)

    The memory of the process is a list of bytes from address 0 on; the circular list of free
    blocks is threaded through the headers in this memory, from the static [base] on.  [sbrk]
    appends zeroed bytes when the kernel grants them. *)

From S2P Require Import Prelude Bytes.

(** [sizeof(Header)]: the pointer and, 4 bytes on, the size in units of headers. *)
Definition HEADER : Z := 8.

(** The memory and [freep]. *)
Record heap := Heap { h_mem : list Z; freep : Z }.
Definition set_hmem (x : list Z) (h : heap) : heap := Heap x (freep h).
Definition set_freep (x : Z) (h : heap) : heap := Heap (h_mem h) x.
Definition top (h : heap) : Z := Z.of_nat (length (h_mem h)).

Section umalloc.
(** The address of [base], and whether a process of a size can grow. *)
Context (base : Z) (grants : Z -> Z -> bool).

Definition ld (a : Z) : M heap Z :=
  h <- gets id ;; if (0 <=? a) && (a + 4 <=? top h) then ret (get32 a (h_mem h)) else undef "load".
Definition st (a v : Z) : M heap unit :=
  h <- gets id ;; if (0 <=? a) && (a + 4 <=? top h) then modify (set_hmem (put32 a v (h_mem h))) else undef "store".
Definition ptr (p : Z) : M heap Z := ld p.
Definition size (p : Z) : M heap Z := ld (p + 4).
Definition set_ptr (p v : Z) : M heap unit := st p v.
Definition set_size (p v : Z) : M heap unit := st (p + 4) v.
(** [p + n] on [Header] pointers. *)
Definition plus (p n : Z) : Z := u32 (p + n * HEADER).

(** The loop of [free]: the block after which [bp] belongs. *)
Fixpoint find_place (fuel : nat) (bp p : Z) : M heap Z :=
  match fuel with
  | O => fun _ => Timeout
  | S f =>
      nx <- ptr p ;;
      if (p <? bp) && (bp <? nx) then ret p
      else if (nx <=? p) && ((p <? bp) || (bp <? nx)) then ret p
      else find_place f bp nx
  end.

Definition free (ap : Z) : M heap unit :=
  let bp := u32 (ap - HEADER) in
  h <- gets id ;;
  p <- find_place (S (length (h_mem h))) bp (freep h) ;;
  nx <- ptr p ;;
  bs <- size bp ;;
  (if plus bp bs =? nx then
     ns <- size nx ;;
     set_size bp (bs + ns) ;;;
     q <- ptr nx ;;
     set_ptr bp q
   else set_ptr bp nx) ;;;
  ps <- size p ;;
  (if plus p ps =? bp then
     bs <- size bp ;;
     set_size p (ps + bs) ;;;
     q <- ptr bp ;;
     set_ptr p q
   else set_ptr p bp) ;;;
  modify (set_freep p).

(** The system call: the old size, or -1. *)
Definition sbrk (n : Z) : M heap Z :=
  h <- gets id ;;
  if grants (top h) n then
    modify (set_hmem (if 0 <=? n then h_mem h ++ replicate (Z.to_nat n) 0 else take (Z.to_nat (top h + n)) (h_mem h))) ;;;
    ret (top h)
  else ret (-1).

(** 0 or [freep] *)
Definition morecore (nu : Z) : M heap Z :=
  let nu := if nu <? 4096 then 4096 else nu in
  p <- sbrk (s32 (nu * HEADER)) ;;
  if p =? -1 then ret 0
  else
    set_size p nu ;;;
    free (plus p 1) ;;;
    gets freep.

Fixpoint malloc_loop (fuel : nat) (nunits prevp p : Z) : M heap Z :=
  match fuel with
  | O => fun _ => Timeout
  | S f =>
      s <- size p ;;
      if nunits <=? s then
        p <- (if s =? nunits then
                q <- ptr p ;;
                set_ptr prevp q ;;;
                ret p
              else
                set_size p (s - nunits) ;;;
                let p := plus p (s - nunits) in
                set_size p nunits ;;;
                ret p) ;;
        modify (set_freep prevp) ;;;
        ret (plus p 1)
      else
        h <- gets id ;;
        if p =? freep h then
          p <- morecore nunits ;;
          if p =? 0 then ret 0 else q <- ptr p ;; malloc_loop f nunits p q
        else q <- ptr p ;; malloc_loop f nunits p q
  end.

Definition malloc (nbytes : Z) : M heap Z :=
  let nunits := u32 (u32 (nbytes + HEADER - 1) / HEADER + 1) in
  h <- gets id ;;
  (if freep h =? 0 then set_ptr base base ;;; modify (set_freep base) ;;; set_size base 0 else ret tt) ;;;
  h <- gets id ;;
  p <- ptr (freep h) ;;
  malloc_loop (2 * (length (h_mem h) + 2)) nunits (freep h) p.

(** ** Specification *)

(** A block: its address and its units, header included. *)
Abbreviation block := (Z * Z)%type.
Definition apart (x y : block) : Prop := fst x + HEADER * snd x <= fst y \/ fst y + HEADER * snd y <= fst x.
Definition node (m : list Z) (a next s : Z) : Prop := get32 a m = next /\ get32 (a + 4) m = s.
Definition first_of (stop : Z) (L : list block) : Z := match L with [] => stop | (a, _) :: _ => a end.
Definition last_of (F : list block) : block := default (base, 0) (last F).

(** The headers of [L] are linked, the last one to [stop]. *)
Fixpoint linked (m : list Z) (L : list block) (stop : Z) : Prop :=
  match L with
  | [] => True
  | (a, s) :: L' => node m a (first_of stop L') s /\ linked m L' stop
  end.
(** Blocks in order of address, no two adjacent. *)
Fixpoint sorted (lo : Z) (F : list block) : Prop :=
  match F with
  | [] => True
  | (a, s) :: F' => lo <= a /\ 1 <= s /\ sorted (a + HEADER * s + 1) F'
  end.
Fixpoint upto (lo : Z) (F : list block) : Z :=
  match F with [] => lo | (a, s) :: F' => upto (a + HEADER * s + 1) F' end.

(** The free blocks [F] and the blocks of the program [A]. *)
Record heap_ok (F A : list block) (h : heap) : Prop := HeapOk {
  ho_base : 0 < base /\ base + HEADER <= top h;
  ho_top : top h < 2 ^ 31;
  ho_links : linked (h_mem h) ((base, 0) :: F) base;
  ho_sorted : sorted (base + HEADER) F;
  ho_free : Forall (fun x => fst x + HEADER * snd x <= top h) F;
  ho_freep : freep h ∈ base :: map fst F;
  ho_held : Forall (fun x => base + HEADER <= fst x /\ 1 <= snd x /\ fst x + HEADER * snd x <= top h /\ get32 (fst x + 4) (h_mem h) = snd x) A;
  ho_apart : Forall (fun x => Forall (apart x) F) A;
  ho_pairs : ForallOrdPairs apart A
}.
End umalloc.
