(* ===== verification/UmallocProofs.v ===== *)
(** * The allocator of user programs: theorems

    The circular list stays sorted, disjoint and without adjacent blocks; [free] finds the
    place of a block from anywhere in the circle; [malloc] returns a block of its own of the
    size asked for, or a null pointer when the kernel grants no memory; neither touches the
    bytes of a block that the program holds. *)

From S2P Require Import Prelude Bytes Umalloc.

(** ** Lists of blocks *)

Abbreviation block := (Z * Z)%type.

Lemma sorted_app lo F G : sorted lo (F ++ G) <-> sorted lo F /\ sorted (upto lo F) G.
Proof. revert lo. induction F as [|[a s] F IH]; intros lo; simpl; [tauto|]. rewrite IH. tauto. Qed.

Lemma upto_app lo F G : upto lo (F ++ G) = upto (upto lo F) G.
Proof. revert lo. induction F as [|[a s] F IH]; intros lo; simpl; [done|]. by rewrite IH. Qed.

Lemma upto_ge lo F : sorted lo F -> lo <= upto lo F.
Proof. revert lo. induction F as [|[a s] F IH]; intros lo; simpl; [lia|]. intros (H1 & H2 & H3). apply IH in H3. unfold HEADER in *. lia. Qed.

Lemma sorted_weaken lo lo' F : lo' <= lo -> sorted lo F -> sorted lo' F.
Proof. destruct F as [|[a s] F]; [done|]. simpl. intros ? (? & ? & ?). split_and!; [lia|done|done]. Qed.

(** Every block starts at the bound or later, and ends below the next bound. *)
Lemma sorted_in lo F x : sorted lo F -> x ∈ F -> lo <= fst x /\ 1 <= snd x /\ fst x + HEADER * snd x < upto lo F.
Proof.
  revert lo. induction F as [|[a s] F IH]; intros lo; [by intros _ ?%not_elem_of_nil|]. simpl. intros (H1 & H2 & H3) [->|Hx]%elem_of_cons.
  - simpl. apply upto_ge in H3. lia.
  - destruct (IH _ H3 Hx) as (H4 & H5 & H6). unfold HEADER in *. split_and!; lia.
Qed.

Lemma upto_last lo F : upto lo F = match last F with None => lo | Some (a, s) => a + HEADER * s + 1 end.
Proof.
  destruct F as [|x F] using rev_ind; [done|]. rewrite upto_app, last_snoc. by destruct x.
Qed.

Lemma linked_app m L L' stop : linked m (L ++ L') stop <-> linked m L (first_of stop L') /\ linked m L' stop.
Proof.
  induction L as [|[a s] L IH]; simpl; [tauto|]. rewrite IH. destruct L as [|[b t] L]; simpl; tauto.
Qed.

(** The link of the last block. *)
Lemma linked_snoc m L a s next : linked m (L ++ [(a, s)]) next <-> linked m L a /\ node m a next s.
Proof. rewrite linked_app. simpl. tauto. Qed.

(** A block that is apart from all others has its place. *)
Lemma place lo F b n : sorted lo F -> lo <= b -> 1 <= n -> Forall (apart (b, n)) F ->
  exists F1 F2, F = F1 ++ F2 /\ upto lo F1 <= b + 1 /\ match F2 with [] => True | (a, _) :: _ => b + HEADER * n <= a end.
Proof.
  revert lo. induction F as [|[a s] F IH]; intros lo Hs Hb Hn Hd; [by exists [], []; repeat split; simpl; lia|].
  apply Forall_cons in Hd as [Hd HF]. destruct Hs as (H1 & H2 & H3). unfold apart in Hd. cbn [fst snd] in Hd. destruct (Z.le_gt_cases (b + HEADER * n) a) as [Hle|Hgt].
  - exists [], ((a, s) :: F). split; [done|]. split; [simpl; lia|done].
  - destruct (decide (a + HEADER * s + 1 <= b)) as [Hlt|Hge].
    + destruct (IH (a + HEADER * s + 1)) as (F1 & F2 & -> & Hu & HF2); [done|lia|done|done|]. by exists ((a, s) :: F1), F2.
    + (* adjacent *)
      exists [(a, s)], F. split; [done|]. split; [simpl; lia|]. destruct F as [|[a' s'] F]; [done|].
      apply Forall_cons in HF as [HF _]. unfold apart in HF. cbn [fst snd] in HF. simpl in H3. unfold HEADER in *. lia.
Qed.

(** There are no more blocks than bytes. *)
Lemma sorted_count lo G t : sorted lo G -> Forall (fun x => fst x + HEADER * snd x <= t) G -> lo <= t -> lo + Z.of_nat (length G) <= t.
Proof.
  revert lo. induction G as [|[a s] G IH]; intros lo; [simpl; lia|]. intros (H1 & H2 & H3) [He HG]%Forall_cons _. cbn [fst snd] in He.
  destruct G as [|[a' s'] G]; [simpl; unfold HEADER in *; lia|]. pose proof (Forall_inv HG) as He'. cbn [fst snd] in He'. destruct H3 as (H4 & H5 & H6).
  specialize (IH (a + HEADER * s + 1) ltac:(by split_and!) HG ltac:(unfold HEADER in *; lia)). cbn [length] in *. unfold HEADER in *. lia.
Qed.

(** ** Memory *)

Section memory.
Variables (base : Z) (grants : Z -> Z -> bool).

Lemma wp_ld a (Q : Z -> heap -> Prop) h : 0 <= a -> a + 4 <= top h -> Q (get32 a (h_mem h)) h -> wp (ld a) Q h.
Proof using Type.
  intros H1 H2 HQ. unfold ld. apply wp_bind, wp_gets. cbn [id]. rewrite (proj2 (Z.leb_le _ _) H1), (proj2 (Z.leb_le _ _) H2). by apply wp_ret.
Qed.

Lemma wp_st a v (Q : unit -> heap -> Prop) h : 0 <= a -> a + 4 <= top h -> Q tt (set_hmem (put32 a v (h_mem h)) h) -> wp (st a v) Q h.
Proof using Type.
  intros H1 H2 HQ. unfold st. apply wp_bind, wp_gets. cbn [id]. rewrite (proj2 (Z.leb_le _ _) H1), (proj2 (Z.leb_le _ _) H2). by apply wp_modify.
Qed.

Lemma top_put a v h : 0 <= a -> a + 4 <= top h -> top (set_hmem (put32 a v (h_mem h)) h) = top h.
Proof using Type. intros. unfold top. cbn. by rewrite length_put32. Qed.

(** The bytes outside of [P] are the same. *)
Definition outside (P : Z -> Prop) (m m' : list Z) : Prop :=
  length m' = length m /\ forall i, ~ P (Z.of_nat i) -> m' !! i = m !! i.

Lemma outside_refl P m : outside P m m.
Proof using Type. done. Qed.
Lemma outside_trans P m1 m2 m3 : outside P m1 m2 -> outside P m2 m3 -> outside P m1 m3.
Proof using Type. intros [H1 H2] [H3 H4]. split; [congruence|]. intros i Hi. rewrite H4 by done. by apply H2. Qed.
Lemma outside_put (P : Z -> Prop) a v m : 0 <= a -> a + 4 <= Z.of_nat (length m) -> (forall i, a <= i < a + 4 -> P i) -> outside P m (put32 a v m).
Proof using Type.
  intros H1 H2 HP. split; [by rewrite length_put32|]. intros i Hi. unfold put32. apply lookup_splice_out; rewrite length_le_bytes; [lia|].
  destruct (decide (a <= Z.of_nat i < a + 4)); [by destruct Hi; apply HP|lia].
Qed.
Lemma outside_get32 (P : Z -> Prop) m m' a : outside P m m' -> 0 <= a -> a + 4 <= Z.of_nat (length m) -> (forall i, a <= i < a + 4 -> ~ P i) -> get32 a m' = get32 a m.
Proof using Type.
  intros [Hl H] H0 Ha HP. unfold get32. f_equal. apply list_eq_same_length with 4%nat; [apply length_slice; lia|apply length_slice; lia|].
  intros i x y Hi. rewrite !lookup_slice by done. rewrite H by (apply HP; lia). congruence.
Qed.
Lemma outside_weaken (P Q : Z -> Prop) m m' : (forall i, P i -> Q i) -> outside P m m' -> outside Q m m'.
Proof using Type. intros HPQ [Hl H]. split; [done|]. intros i Hi. apply H. intros ?. by apply Hi, HPQ. Qed.

(** The bytes of a header. *)
Definition head_of (a i : Z) : Prop := a <= i < a + HEADER.
Definition body_of (x : block) (i : Z) : Prop := fst x <= i < fst x + HEADER * snd x.

Lemma linked_outside (P : Z -> Prop) m m' L stop : outside P m m' -> linked m L stop ->
  Forall (fun x => 0 <= fst x /\ fst x + HEADER <= Z.of_nat (length m) /\ forall i, head_of (fst x) i -> ~ P i) L -> linked m' L stop.
Proof using Type.
  intros Hout. revert stop. induction L as [|[a s] L IH]; intros stop; [done|]. intros [[H1 H2] HL] [(H3 & H4 & H5) HF]%Forall_cons. cbn [fst] in *.
  split; [|by apply IH]. unfold head_of, HEADER in *. split; rewrite (outside_get32 P m m'); try done; try lia; intros i Hi; apply H5; lia.
Qed.

(** ** The place of a block *)

(** The tests of the loop fail at every block of [G], which [q] follows. *)
Fixpoint all_fail (bp : Z) (G : list block) (q : Z) : Prop :=
  match G with
  | [] => True
  | (a, _) :: G' => (a < first_of q G' <= bp \/ bp < a /\ (a < first_of q G' \/ first_of q G' <= bp)) /\ all_fail bp G' q
  end.

Lemma low_fail bp lo G q : sorted lo G -> upto lo G <= q + 1 -> q <= bp -> all_fail bp G q.
Proof using Type.
  revert lo. induction G as [|[a s] G IH]; intros lo; [done|]. intros (H1 & H2 & H3) Hu Hq. split; [|by eapply IH]. left.
  pose proof (upto_ge _ _ H3) as Hge. simpl in Hu. destruct G as [|[a' s'] G]; simpl in *; [unfold HEADER in *; lia|]. destruct H3 as (H4 & H5 & H6).
  apply upto_ge in H6. unfold HEADER in *. lia.
Qed.
Lemma high_fail bp lo G : sorted lo G -> bp < lo -> base <= bp -> all_fail bp G base.
Proof using Type.
  revert lo. induction G as [|[a s] G IH]; intros lo; [done|]. intros (H1 & H2 & H3) Hlo Hb. split; [|eapply (IH (a + HEADER * s + 1)); [done|unfold HEADER; lia|done]].
  right. split; [lia|]. destruct G as [|[a' s'] G]; simpl in *; [by right|]. left. unfold HEADER in *. lia.
Qed.

(** Headers inside the memory. *)
Definition inside (h : heap) (G : list block) : Prop := Forall (fun x => 0 <= fst x /\ fst x + HEADER <= top h) G.

Lemma skip bp G q h (Q : Z -> heap -> Prop) : forall fuel, linked (h_mem h) G q -> inside h G -> all_fail bp G q -> (length G <= fuel)%nat ->
  wp (find_place (fuel - length G) bp q) Q h -> wp (find_place fuel bp (first_of q G)) Q h.
Proof using Type.
  induction G as [|[a s] G IH]; intros fuel; [by rewrite Nat.sub_0_r|]. intros [[Hn _] Hl] [[H1 H2] Hin]%Forall_cons [Hf Hfs] Hfuel HQ.
  destruct fuel as [|fuel]; simpl in Hfuel; [lia|]. cbn [first_of find_place fst] in *. apply wp_bind. apply wp_ld; [lia|unfold HEADER in *; lia|]. rewrite Hn.
  set (nx := first_of q G) in *. assert (((a <? bp) && (bp <? nx)) = false) as ->.
  { apply andb_false_iff. rewrite !Z.ltb_ge. lia. }
  assert (((nx <=? a) && ((a <? bp) || (bp <? nx))) = false) as ->.
  { apply andb_false_iff. rewrite orb_false_iff, Z.leb_gt, !Z.ltb_ge. lia. }
  apply IH; [done..|lia|done].
Qed.

Lemma last_of_app F x : last_of base (F ++ [x]) = x.
Proof using Type. unfold last_of. by rewrite last_snoc. Qed.

(** [base] and the blocks up to the last one. *)
Lemma ring_last F : exists L, (base, 0) :: F = L ++ [last_of base F] /\ length L = length F.
Proof using Type.
  destruct F as [|x F] using rev_ind; [by exists []|]. exists ((base, 0) :: F). rewrite last_of_app. split; [done|]. rewrite length_app. simpl. lia.
Qed.

Lemma find_place_spec F1 F2 bp h (Q : Z -> heap -> Prop) p fuel : linked (h_mem h) ((base, 0) :: F1 ++ F2) base -> inside h ((base, 0) :: F1 ++ F2) ->
  sorted (base + HEADER) F1 -> upto (base + HEADER) F1 <= bp + 1 -> base + HEADER <= bp -> sorted (bp + 1) F2 ->
  p ∈ base :: map fst (F1 ++ F2) -> (length (F1 ++ F2) < fuel)%nat -> Q (fst (last_of base F1)) h -> wp (find_place fuel bp p) Q h.
Proof using Type.
  intros Hl Hin H1 Hu Hb H2 Hp Hfuel HQ. destruct (ring_last F1) as (L & EL & Hlen). destruct (last_of base F1) as [P ps] eqn:EP. cbn [fst] in HQ.
  assert (((base, 0) :: F1 ++ F2) = L ++ (P, ps) :: F2) as E by (rewrite app_comm_cons, EL, <-app_assoc; done).
  rewrite E in Hl, Hin. apply linked_app in Hl as [HlL HlP]. apply Forall_app in Hin as [HinL HinP]. assert (Hpos : P < bp /\ all_fail bp L P).
  { destruct F1 as [|y F1 _] using rev_ind.
    - cbn in EP. injection EP as <- <-. destruct L as [|? [|]]; simplify_eq/=. unfold HEADER in *. split; [lia|done].
    - rewrite last_of_app in EP. subst y. rewrite upto_app in Hu. simpl in Hu. apply sorted_app in H1 as [H1 H3]. simpl in H3.
      rewrite app_comm_cons in EL. apply app_inj_tail in EL as [<- _]. split; [unfold HEADER in *; lia|]. split.
      + left. pose proof (upto_ge _ _ H1). destruct F1 as [|[a s] F1]; simpl in *; unfold HEADER in *; [lia|]. destruct H1 as (? & ? & H1). apply upto_ge in H1. lia.
      + eapply low_fail; [exact H1|lia|unfold HEADER in *; lia]. }
  destruct Hpos as [HP HfailL]. pose proof (high_fail bp (bp + 1) F2 H2 ltac:(lia) ltac:(unfold HEADER in *; lia)) as HfailF.
  (* the test succeeds at the last block below *)
  assert (Hhit : forall f, (0 < f)%nat -> wp (find_place f bp P) Q h).
  { intros [|f] Hf; [lia|]. destruct HlP as [[Hn _] _]. apply Forall_cons in HinP as [[HP1 HP2] _]. cbn [find_place fst] in *.
    apply wp_bind. apply wp_ld; [lia|unfold HEADER in *; lia|]. rewrite Hn.
    destruct F2 as [|[a s] F2]; cbn [first_of].
    - rewrite (proj2 (Z.ltb_lt P bp)) by lia. rewrite (proj2 (Z.ltb_ge bp base)) by (unfold HEADER in *; lia). cbn [andb].
      assert (base <= P) as HbP.
      { destruct F1 as [|y F1 _] using rev_ind; [by injection EP as <- <-|]. rewrite last_of_app in EP. subst y. apply sorted_app in H1 as [H1 [H3 _]]. apply upto_ge in H1. unfold HEADER in *. lia. }
      rewrite (proj2 (Z.leb_le base P)) by done. by apply wp_ret.
    - destruct H2 as [H2 _]. rewrite (proj2 (Z.ltb_lt P bp)), (proj2 (Z.ltb_lt bp a)) by lia. by apply wp_ret. }
  rewrite length_app in Hfuel.
  assert (HL : forall Ga Gb, L = Ga ++ Gb -> forall f, (length L < f)%nat -> wp (find_place f bp (first_of P Gb)) Q h).
  { intros Ga Gb -> f Hf. rewrite length_app in Hf. apply linked_app in HlL as [_ HlG]. apply Forall_app in HinL as [_ HinG].
    apply (skip bp Gb P h Q); [done|done| |lia|apply Hhit; lia]. clear -HfailL. induction Ga as [|[a s] Ga IH]; [done|]. apply IH. by destruct HfailL. }
  assert (Hbase : forall f, (length L < f)%nat -> wp (find_place f bp base) Q h).
  { intros f Hf. specialize (HL [] L eq_refl f Hf). destruct L as [|[a s] L]; [|by injection EL as <- _ _]. injection EL as <- _ _. done. }
  assert (p ∈ map fst (L ++ (P, ps) :: F2)) as Hp' by (by rewrite <-E). rewrite map_app in Hp'. apply elem_of_app in Hp' as [Hp'|Hp'].
  - apply list_elem_of_In, in_map_iff in Hp' as ([p' s] & <- & Hp'). apply list_elem_of_In, list_elem_of_split in Hp' as (Ga & Gb & ->).
    apply (HL Ga ((p', s) :: Gb) eq_refl). lia.
  - apply elem_of_cons in Hp' as [->|Hp']; [apply Hhit; lia|].
    apply list_elem_of_In, in_map_iff in Hp' as ([p' s] & <- & Hp'). apply list_elem_of_In, list_elem_of_split in Hp' as (Ga & Gb & ->).
    destruct HlP as [_ HlF]. apply Forall_cons in HinP as [_ HinF]. apply linked_app in HlF as [_ HlF]. apply Forall_app in HinF as [_ HinF].
    rewrite length_app in Hfuel. simpl in Hfuel. apply (skip bp ((p', s) :: Gb) base h Q); [done|done| |simpl; lia|apply Hbase; simpl; lia].
    clear -HfailF. induction Ga as [|[a t] Ga IH]; [done|]. apply IH. by destruct HfailF.
Qed.

(** ** free *)

Lemma plus_small p n : 0 <= p -> 0 <= n -> p + HEADER * n < 2 ^ 32 -> plus p n = p + HEADER * n.
Proof using Type. intros. unfold plus, HEADER in *. rewrite u32_small by lia. lia. Qed.

Lemma sorted_tail a s lo F : sorted lo ((a, s) :: F) -> sorted (a + HEADER * s + 1) F.
Proof using Type. by intros (_ & _ & ?). Qed.

(** A header written at [a]. *)
Lemma node_put m a next s : 0 <= a -> a + HEADER <= Z.of_nat (length m) -> 0 <= next < 2 ^ 32 -> 0 <= s < 2 ^ 32 ->
  node (put32 a next (put32 (a + 4) s m)) a next s.
Proof using Type.
  intros H0 H1 Hn Hs. unfold HEADER in *. split.
  - rewrite get32_put32_same by (rewrite ?length_put32; lia). by apply u32_small.
  - rewrite get32_put32_other by (rewrite ?length_put32; lia). rewrite get32_put32_same by lia. by apply u32_small.
Qed.

Lemma outside_node (P : Z -> Prop) m m' a next s : outside P m m' -> 0 <= a -> a + HEADER <= Z.of_nat (length m) -> (forall i, head_of a i -> ~ P i) ->
  node m a next s -> node m' a next s.
Proof using Type.
  intros Hout H0 H1 HP [<- <-]. unfold HEADER, head_of in *. split; apply (outside_get32 P); try done; try lia; intros i Hi; apply HP; unfold HEADER; lia.
Qed.

Lemma outside_head_put m a v w : 0 <= a -> a + HEADER <= Z.of_nat (length m) -> outside (head_of a) m (put32 a v (put32 (a + 4) w m)).
Proof using Type.
  intros H0 H1. unfold HEADER in *. eapply outside_trans; [apply (outside_put _ (a + 4)); [lia|lia|]|apply outside_put; [lia|rewrite length_put32; lia|]];
    intros i Hi; unfold head_of, HEADER; lia.
Qed.
Lemma outside_ptr_put m a v : 0 <= a -> a + HEADER <= Z.of_nat (length m) -> outside (head_of a) m (put32 a v m).
Proof using Type. intros H0 H1. unfold HEADER in *. apply outside_put; [lia|lia|]. intros i Hi. unfold head_of, HEADER. lia. Qed.

(** The list behind a block that ends where the list begins, or earlier. *)
Definition joins (F G : list block) (b n n' : Z) : Prop := (F = G /\ n' = n) \/ exists s, F = (b + HEADER * n, s) :: G /\ n' = n + s.

(** Joining a block with the one behind it. *)
Lemma free_next F2 bp n h (Q : unit -> heap -> Prop) : linked (h_mem h) F2 base -> sorted (bp + 1) F2 ->
  match F2 with [] => True | (a, _) :: _ => bp + HEADER * n <= a end -> Forall (fun x => fst x + HEADER * snd x <= top h) F2 ->
  get32 (bp + 4) (h_mem h) = n -> 0 < base -> base + HEADER <= bp -> 1 <= n -> bp + HEADER * n <= top h -> top h < 2 ^ 31 ->
  (forall n' G m, joins F2 G bp n n' -> outside (head_of bp) (h_mem h) m -> node m bp (first_of base G) n' -> linked m G base ->
    n <= n' -> sorted (bp + HEADER * n' + 1) G -> Q tt (set_hmem m h)) ->
  wp (if plus bp n =? first_of base F2
      then ns <- size (first_of base F2) ;; set_size bp (n + ns) ;;; q <- ptr (first_of base F2) ;; set_ptr bp q
      else set_ptr bp (first_of base F2)) Q h.
Proof using Type.
  intros Hl Hs Hnext Hend Hsize Hbase Hb Hn Htop Hlim HQ. unfold HEADER in *. rewrite plus_small by (unfold HEADER; lia). fold HEADER in *.
  assert (Hfar : forall G, sorted (bp + 1) G -> match G with [] => True | (a, _) :: _ => bp + HEADER * n <= a end -> Forall (fun x => fst x + HEADER * snd x <= top h) G ->
    Forall (fun x => 0 <= fst x /\ fst x + HEADER <= Z.of_nat (length (h_mem h)) /\ forall i, head_of (fst x) i -> ~ head_of bp i) G).
  { intros G Hs' Hn' He. apply Forall_forall. intros [a s] Hx. rewrite Forall_forall in He. specialize (He _ Hx).
    assert (bp + HEADER * n <= a /\ 1 <= s) as [H1 H2].
    { destruct G as [|[a' s'] G]; [by apply not_elem_of_nil in Hx|]. cbn in Hn'. destruct Hs' as (? & ? & Hs'). apply elem_of_cons in Hx as [[= -> ->]|Hx]; [lia|].
      destruct (sorted_in _ _ _ Hs' Hx) as (H3 & H4 & _). cbn [fst snd] in *. unfold HEADER in *. lia. }
    cbn [fst snd] in *. unfold top, head_of, HEADER in *. split_and!; [lia|lia|]. intros i ? ?. lia. }
  destruct F2 as [|[nx ns] F2]; cbn [first_of].
  - rewrite (proj2 (Z.eqb_neq _ _)) by (unfold HEADER in *; lia). apply wp_st; [unfold HEADER in *; lia|unfold HEADER in *; lia|].
    apply (HQ n []); [by left|apply outside_ptr_put; unfold top, HEADER in *; lia| |done|lia|done].
    cbn [first_of]. split; [rewrite get32_put32_same by (unfold top, HEADER in *; lia); apply u32_small; unfold HEADER in *; lia|].
    rewrite get32_put32_other by (unfold top, HEADER in *; lia). done.
  - destruct Hs as (Hs1 & Hs2 & Hs3). destruct Hl as [[Hn1 Hn2] Hl]. apply Forall_cons in Hend as [He Hend]. cbn [fst snd] in He.
    destruct (Z.eqb_spec (bp + HEADER * n) nx) as [<-|Hne].
    + assert (bp + HEADER * n + HEADER * ns <= top h) as He' by lia. clear He.
      unfold size, ptr, set_size, set_ptr. apply wp_bind. apply wp_ld; [unfold HEADER in *; lia..|]. rewrite Hn2.
      apply wp_bind. apply wp_st; [unfold HEADER in *; lia..|]. apply wp_bind.
      pose proof (top_put (bp + 4) (n + ns) h ltac:(unfold HEADER in *; lia) ltac:(unfold HEADER in *; lia)) as Et.
      apply wp_ld; [unfold HEADER in *; lia..|]. cbn [h_mem set_hmem]. rewrite get32_put32_other by (unfold top, HEADER in *; lia). rewrite Hn1.
      apply wp_st; [unfold HEADER in *; lia..|]. unfold set_hmem at 1. cbn [h_mem set_hmem freep].
      assert (0 <= first_of base F2 < 2 ^ 32) as Hfirst.
      { destruct F2 as [|[a s] F2]; cbn; [unfold HEADER in *; lia|]. destruct Hs3 as (? & ? & _). apply Forall_cons in Hend as [? _]. cbn [fst snd] in *. unfold HEADER in *. lia. }
      assert (outside (head_of bp) (h_mem h) (put32 bp (first_of base F2) (put32 (bp + 4) (n + ns) (h_mem h)))) as Hout
        by (apply outside_head_put; unfold top, HEADER in *; lia).
      apply (HQ (n + ns) F2); [right; by exists ns|exact Hout|apply node_put; unfold top, HEADER in *; lia| |lia|].
      * eapply linked_outside; [exact Hout|exact Hl|]. apply Hfar; [eapply sorted_weaken; [|exact Hs3]; unfold HEADER in *; lia| |done].
        destruct F2 as [|[a s] F2]; [done|]. destruct Hs3 as (? & _ & _). unfold HEADER in *. lia.
      * replace (bp + HEADER * (n + ns) + 1) with (bp + HEADER * n + HEADER * ns + 1) by lia. done.
    + assert (nx < 2 ^ 31) by (unfold HEADER in *; lia). apply wp_st; [unfold HEADER in *; lia..|].
      assert (outside (head_of bp) (h_mem h) (put32 bp nx (h_mem h))) as Hout by (apply outside_ptr_put; unfold top, HEADER in *; lia).
      apply (HQ n ((nx, ns) :: F2)); [by left|exact Hout| | |lia|].
      * cbn [first_of]. split; [rewrite get32_put32_same by (unfold top, HEADER in *; lia); apply u32_small; unfold HEADER in *; lia|].
        rewrite get32_put32_other by (unfold top, HEADER in *; lia). done.
      * eapply linked_outside; [exact Hout|by split|]. apply Hfar; [by split_and!|done|]. by constructor.
      * split_and!; [lia|done|done].
Qed.

(** The headers of a list. *)
Definition heads (L : list block) (i : Z) : Prop := Exists (fun x => head_of (fst x) i) L.

Lemma sorted_behind lo lo' G : sorted lo G -> match G with [] => True | (a, _) :: _ => lo' <= a end -> sorted lo' G.
Proof using Type. destruct G as [|[a s] G]; [done|]. intros (_ & H2 & H3) H. by split_and!. Qed.

(** Two blocks in a row are apart from a block when both are. *)
Lemma apart_join x a s t : apart x (a, s) -> apart x (a + HEADER * s, t) -> 1 <= snd x -> apart x (a, s + t).
Proof using Type. unfold apart, HEADER. cbn. lia. Qed.

Lemma joins_apart F G b n n' x : joins F G b n n' -> apart x (b, n) -> Forall (apart x) F -> 1 <= snd x -> apart x (b, n') /\ Forall (apart x) G.
Proof using Type.
  intros [[-> ->]|(s & -> & ->)] Hb HF Hx; [done|]. apply Forall_cons in HF as [H1 HG]. split; [by apply apart_join|done].
Qed.

Lemma joins_end F G b n n' t : joins F G b n n' -> b + HEADER * n <= t -> Forall (fun x => fst x + HEADER * snd x <= t) F ->
  b + HEADER * n' <= t /\ Forall (fun x => fst x + HEADER * snd x <= t) G.
Proof using Type.
  intros [[-> ->]|(s & -> & ->)] Hb HF; [done|]. apply Forall_cons in HF as [H1 HG]. cbn [fst snd] in H1. split; [unfold HEADER in *; lia|done].
Qed.

(** Blocks of the program are not touched by what is written to the headers of other blocks. *)
Lemma held_outside (P : Z -> Prop) (A : list block) m m' t : outside P m m' -> t = Z.of_nat (length m) ->
  Forall (fun x => base + HEADER <= fst x /\ 1 <= snd x /\ fst x + HEADER * snd x <= t /\ get32 (fst x + 4) m = snd x) A ->
  0 < base -> Forall (fun x => forall i, body_of x i -> ~ P i) A ->
  Forall (fun x => base + HEADER <= fst x /\ 1 <= snd x /\ fst x + HEADER * snd x <= t /\ get32 (fst x + 4) m' = snd x) A.
Proof using Type.
  intros Hout -> HA Hb HP. rewrite Forall_forall in HA, HP. apply Forall_forall. intros x Hx. destruct (HA x Hx) as (H1 & H2 & H3 & H4).
  split_and!; try done. rewrite <-H4. apply (outside_get32 P); [done|unfold HEADER in *; lia|unfold HEADER in *; lia|].
  intros i Hi. apply (HP x Hx). unfold body_of, HEADER in *. lia.
Qed.

Lemma heads_apart F x i : Forall (apart x) F -> base + HEADER <= fst x -> sorted (base + HEADER) F -> 1 <= snd x ->
  body_of x i -> ~ heads ((base, 0) :: F) i.
Proof using Type.
  intros HF Hx Hs Hx1 Hi. unfold heads. rewrite Exists_cons, Exists_exists. unfold body_of, head_of, HEADER in *. cbn [fst].
  intros [?|([a s] & Ha & Hai)]; [lia|]. rewrite Forall_forall in HF. pose proof (HF _ Ha) as Hap. destruct (sorted_in _ _ _ Hs Ha) as (_ & H2 & _).
  unfold apart, HEADER in Hap. cbn [fst snd] in *. lia.
Qed.

Definition offers (F : list block) (n : Z) (h : heap) : Prop :=
  exists Fa x s Fb, F = Fa ++ (x, s) :: Fb /\ n <= s /\ (freep h = x \/ freep h = fst (last_of base Fa)).

Lemma free_spec F A bp n h : heap_ok base F ((bp, n) :: A) h ->
  wp (free (bp + HEADER)) (fun _ h' => exists F', heap_ok base F' A h' /\ top h' = top h /\
    outside (fun i => head_of bp i \/ heads ((base, 0) :: F) i) (h_mem h) (h_mem h') /\ offers F' n h' /\ (length F' <= S (length F))%nat) h.
Proof using Type.
  intros [[Hb1 Hb2] Hlim Hl Hs Hend Hfp [(Hbp & Hn & Htop & Hsz) HA]%Forall_cons [Hapb HAF]%Forall_cons Hpairs]. cbn [fst snd] in *.
  destruct (place _ _ bp n Hs ltac:(lia) Hn Hapb) as (F1 & F2 & -> & Hu & Hnext). pose proof Hs as [Hs1 Hs2]%sorted_app.
  assert (sorted (bp + 1) F2) as Hs2' by (eapply sorted_behind; [exact Hs2|]; destruct F2 as [|[a s] F2]; [done|unfold HEADER in *; lia]).
  assert (inside h ((base, 0) :: F1 ++ F2)) as Hin.
  { constructor; [cbn; lia|]. apply Forall_forall. intros x Hx. rewrite Forall_forall in Hend. specialize (Hend x Hx).
    destruct (sorted_in _ _ _ Hs Hx) as (H1 & H2 & _). unfold HEADER in *. lia. }
  unfold free. replace (u32 (bp + HEADER - HEADER)) with bp by (rewrite u32_small; unfold HEADER in *; lia). cbv zeta.
  apply wp_bind, wp_gets. cbn [id]. apply wp_bind.
  assert (length (F1 ++ F2) < S (length (h_mem h)))%nat as Hfuel.
  { pose proof (sorted_count (base + HEADER) (F1 ++ F2) (top h) Hs Hend) as Hcount. unfold top, HEADER in *. lia. }
  eapply (find_place_spec F1 F2 bp h _ (freep h)); [done..|]. clear Hfuel.
  destruct (ring_last F1) as (L & EL & _). destruct (last_of base F1) as [P ps] eqn:EP. cbn [fst].
  rewrite app_comm_cons, EL in Hl, Hin. apply linked_app in Hl as [Hl1 Hl2]. apply linked_snoc in Hl1 as [HlL [Hp1 Hp2]].
  apply Forall_app in Hin as [HinLP HinF]. apply Forall_app in HinLP as [HinL HinP]. apply Forall_inv in HinP. cbn [fst] in HinP.
  assert (P < bp /\ (F1 = [] /\ P = base /\ ps = 0 /\ L = [] \/ exists F1', F1 = F1' ++ [(P, ps)] /\ L = (base, 0) :: F1')) as [HP Hwhere].
  { destruct F1 as [|y F1 _] using rev_ind.
    - cbn in EP. injection EP as <- <-. destruct L as [|? [|]]; simplify_eq/=. split; [unfold HEADER in *; lia|]. by left.
    - rewrite last_of_app in EP. subst y. rewrite upto_app in Hu. rewrite app_comm_cons in EL. apply app_inj_tail in EL as [<- _].
      apply sorted_app in Hs1 as [_ (_ & ? & _)]. simpl in Hu. split; [unfold HEADER in *; lia|]. right. by exists F1. }
  apply wp_bind. unfold ptr. apply wp_ld; [unfold HEADER in *; lia..|]. rewrite Hp1. apply wp_bind. unfold size. apply wp_ld; [unfold HEADER in *; lia..|]. rewrite Hsz.
  apply wp_bind. apply Forall_app in Hend as [Hend1 Hend2].
  eapply (free_next F2 bp n h); [done..|]. intros n' G m1 Hj Hout1 Hnode Hl1 Hn' HsG.
  assert (length m1 = length (h_mem h)) as Hlen by apply Hout1.
  assert (bp + HEADER * n' <= top h /\ Forall (fun x => fst x + HEADER * snd x <= top h) G) as [Hend' HendG] by (by eapply joins_end).
  assert (P + HEADER * ps <= bp /\ 0 <= ps) as [HPe Hps].
  { destruct Hwhere as [(-> & -> & -> & ->)|(F1' & -> & ->)]; [unfold HEADER in *; lia|]. rewrite upto_app in Hu. simpl in Hu.
    apply sorted_app in Hs1 as [_ (_ & ? & _)]. lia. }
  assert (HPbp : P + HEADER <= bp).
  { destruct Hwhere as [(-> & -> & -> & ->)|(F1' & -> & ->)]; [done|]. apply sorted_app in Hs1 as [_ (_ & ? & _)]. unfold HEADER in *. lia. }
  assert (node m1 P (first_of base F2) ps) as [_ HPs].
  { eapply outside_node; [exact Hout1|lia|unfold top in *; lia| |by split]. intros i. unfold head_of, HEADER in *. lia. }
  (* the headers below are untouched by what is written to bp and P *)
  assert (Hlow : forall m2, outside (fun i => head_of bp i \/ head_of P i) (h_mem h) m2 -> linked m2 L P).
  { intros m2 Hm2. eapply linked_outside; [exact Hm2|exact HlL|]. apply Forall_forall. intros x Hx. unfold inside in HinL. rewrite Forall_forall in HinL. specialize (HinL x Hx).
    split_and!; [lia|unfold top in *; lia|]. assert (fst x + HEADER <= P) as Hxp.
    { destruct Hwhere as [(_ & _ & _ & ->)|(F1' & -> & ->)]; [by apply not_elem_of_nil in Hx|]. apply sorted_app in Hs1 as [Hs1 (Hs3 & _ & _)].
      apply elem_of_cons in Hx as [->|Hx]; [apply upto_ge in Hs1; cbn; lia|]. destruct (sorted_in _ _ _ Hs1 Hx) as (_ & ? & ?). unfold HEADER in *. lia. }
    intros i. unfold head_of, HEADER in *. lia. }
  assert (Hhigh : forall m2, outside (head_of P) m1 m2 -> linked m2 G base).
  { intros m2 Hm2. eapply linked_outside; [exact Hm2|exact Hl1|]. apply Forall_forall. intros x Hx. rewrite Forall_forall in HendG. specialize (HendG x Hx).
    destruct (sorted_in _ _ _ HsG Hx) as (H1 & H2 & _). unfold head_of, top, HEADER in *. rewrite Hlen. split_and!; [lia|lia|]. intros i. lia. }
  apply wp_bind. apply wp_ld; [unfold HEADER in *; lia|unfold top, HEADER in *; cbn; lia|]. cbn [h_mem set_hmem]. rewrite HPs.
  rewrite plus_small by (unfold HEADER in *; lia).
  assert (Hfirst : 0 <= first_of base G < 2 ^ 32).
  { destruct G as [|[a s] G]; cbn; [unfold HEADER in *; lia|]. destruct HsG as (? & ? & _). apply Forall_inv in HendG. cbn [fst snd] in HendG. unfold HEADER in *. lia. }
  assert (Forall (apart (bp, n)) A /\ ForallOrdPairs apart A) as [HbpA HAA] by (by inversion_clear Hpairs).
  assert (Hregion : forall m2, outside (head_of P) m1 m2 -> outside (fun i => head_of bp i \/ heads ((base, 0) :: F1 ++ F2) i) (h_mem h) m2).
  { intros m2 Hm2. eapply outside_trans; [eapply outside_weaken; [|exact Hout1]; by left|]. eapply outside_weaken; [|exact Hm2]. intros i Hi. right.
    unfold heads. rewrite app_comm_cons, EL, !Exists_app, Exists_cons. left. right. by left. }
  assert (Hheld : forall m2, outside (head_of P) m1 m2 ->
    Forall (fun x => base + HEADER <= fst x /\ 1 <= snd x /\ fst x + HEADER * snd x <= top h /\ get32 (fst x + 4) m2 = snd x) A).
  { intros m2 Hm2. eapply held_outside; [by apply Hregion|done|done|done|]. rewrite Forall_forall in HA, HAF, HbpA. apply Forall_forall. intros x Hx i Hi [Hi'|Hi'].
    - specialize (HbpA x Hx). unfold apart, body_of, head_of, HEADER in *. cbn [fst snd] in *. lia.
    - destruct (HA x Hx) as (H1 & H2 & _). exact (heads_apart (F1 ++ F2) x i (HAF x Hx) H1 Hs H2 Hi Hi'). }
  assert (Hnew : Forall (fun x => apart x (bp, n') /\ Forall (apart x) F1 /\ Forall (apart x) G) A).
  { rewrite Forall_forall in HA, HAF, HbpA. apply Forall_forall. intros x Hx. specialize (HAF x Hx). apply Forall_app in HAF as [HAF1 HAF2].
    destruct (joins_apart F2 G bp n n' x Hj) as [? ?]; [specialize (HbpA x Hx); unfold apart in *; cbn [fst snd] in *; lia|done|apply (HA x Hx)|done]. }
  assert (length G <= length F2)%nat as HlenG by (destruct Hj as [[-> _]|(z & -> & _)]; simpl; lia).
  set (h1 := set_hmem m1 h). assert (top h1 = top h) as Et1 by (unfold top; cbn; by rewrite Hlen).
  destruct Hnode as [Hnode1 Hnode2]. destruct (Z.eqb_spec (P + HEADER * ps) bp) as [Hm|Hm].
  - (* joined to the block before *)
    destruct Hwhere as [(-> & -> & -> & ->)|(F1' & -> & ->)]; [unfold HEADER in *; lia|].
    apply wp_bind, wp_bind. unfold size. apply wp_ld; [unfold HEADER in *; lia..|]. cbn [h1 h_mem set_hmem]. rewrite Hnode2.
    apply wp_bind. apply wp_st; [unfold HEADER in *; lia..|]. apply wp_bind. unfold ptr.
    pose proof (top_put (P + 4) (ps + n') h1 ltac:(unfold HEADER in *; lia) ltac:(unfold HEADER in *; lia)) as Et2.
    apply wp_ld; [unfold HEADER in *; lia..|]. cbn [h1 h_mem set_hmem] in *. rewrite get32_put32_other by (unfold top, HEADER in *; rewrite ?Hlen; lia). rewrite Hnode1.
    apply wp_st; [unfold HEADER in *; lia..|]. apply wp_modify. cbn [h_mem set_hmem set_freep].
    assert (outside (head_of P) m1 (put32 P (first_of base G) (put32 (P + 4) (ps + n') m1))) as Hm2 by (apply outside_head_put; unfold top, HEADER in *; rewrite ?Hlen; lia).
    set (m2 := put32 P _ _) in *. assert (length m2 = length (h_mem h)) as Hlen2 by (destruct Hm2; congruence).
    apply sorted_app in Hs1 as [Hs1 (Hs3 & Hs4 & _)]. exists (F1' ++ (P, ps + n') :: G). split; [|split; [by unfold top; cbn; rewrite Hlen2|split; [by apply Hregion|]]].
    + split; unfold top; cbn [h_mem set_hmem set_freep freep]; rewrite ?Hlen2; fold (top h); try done.
      * rewrite app_comm_cons. apply linked_app. split; [apply Hlow; eapply outside_trans; [eapply outside_weaken; [|exact Hout1]; by left|eapply outside_weaken; [|exact Hm2]; by right]|].
        split; [|by apply Hhigh]. apply node_put; unfold top, HEADER in *; rewrite ?Hlen; lia.
      * apply sorted_app. split; [done|]. split_and!; [done|lia|]. replace (P + HEADER * (ps + n') + 1) with (bp + HEADER * n' + 1) by (unfold HEADER in *; lia). done.
      * apply Forall_app in Hend1 as [Hend1 _]. apply Forall_app. split; [done|]. constructor; [cbn [fst snd]; unfold HEADER in *; lia|done].
      * rewrite map_app. right. apply elem_of_app. right. left.
      * by apply Hheld.
      * rewrite Forall_forall in Hnew, HA. apply Forall_forall. intros x Hx. destruct (Hnew x Hx) as (H1 & [H2 H3]%Forall_app & H4). apply Forall_app. split; [done|].
        constructor; [|done]. apply apart_join; [by apply Forall_inv in H3|by rewrite Hm|apply (HA x Hx)].
    + split; [exists F1', P, (ps + n'), G; split; [done|]; split; [lia|]; by left|]. rewrite !length_app. simpl. lia.
  - (* behind it *)
    apply wp_bind. apply wp_st; [unfold HEADER in *; lia..|]. apply wp_modify. cbn [h1 h_mem set_hmem set_freep].
    assert (outside (head_of P) m1 (put32 P bp m1)) as Hm2 by (apply outside_ptr_put; unfold top, HEADER in *; rewrite ?Hlen; lia).
    assert (node (put32 P bp m1) P bp ps) as HnP.
    { split; [rewrite get32_put32_same by (unfold top, HEADER in *; rewrite ?Hlen; lia); apply u32_small; unfold HEADER in *; lia|].
      rewrite get32_put32_other by (unfold top, HEADER in *; rewrite ?Hlen; lia). done. }
    set (m2 := put32 P bp m1) in *. assert (length m2 = length (h_mem h)) as Hlen2 by (destruct Hm2; congruence).
    exists (F1 ++ (bp, n') :: G). split; [|split; [by unfold top; cbn; rewrite Hlen2|split; [by apply Hregion|]]].
    + split; unfold top; cbn [h_mem set_hmem set_freep freep]; rewrite ?Hlen2; fold (top h); try done.
      * rewrite app_comm_cons, EL. apply linked_app. split; [apply linked_snoc; split; [|done]; apply Hlow; eapply outside_trans; [eapply outside_weaken; [|exact Hout1]; by left|eapply outside_weaken; [|exact Hm2]; by right]|].
        split; [|by apply Hhigh]. eapply outside_node; [exact Hm2|unfold HEADER in *; lia|unfold top, HEADER in *; rewrite ?Hlen; lia| |by split].
        intros i. unfold head_of, HEADER in *. lia.
      * apply sorted_app. split; [done|]. split_and!; [|lia|done].
        destruct Hwhere as [(-> & -> & -> & ->)|(F1' & -> & ->)]; [simpl; lia|]. rewrite upto_app in *. simpl in *. unfold HEADER in *. lia.
      * apply Forall_app. split; [done|]. by constructor.
      * destruct Hwhere as [(-> & -> & -> & ->)|(F1' & -> & ->)]; [left|]. right. rewrite !map_app. apply elem_of_app. left. apply elem_of_app. right. left.
      * by apply Hheld.
      * rewrite Forall_forall in Hnew. apply Forall_forall. intros x Hx. destruct (Hnew x Hx) as (H1 & H2 & H4). apply Forall_app. split; [done|]. by constructor.
    + split; [exists F1, bp, n', G; split; [done|]; split; [lia|]; right; by rewrite EP|]. rewrite !length_app. simpl. lia.
Qed.

(** ** malloc *)

(** The bytes of the blocks in [A] are as before. *)
Definition kept (A : list block) (h h' : heap) : Prop :=
  Forall (fun x => forall i, body_of x (Z.of_nat i) -> h_mem h' !! i = h_mem h !! i) A.

Lemma kept_outside (P : Z -> Prop) A h h' : outside P (h_mem h) (h_mem h') -> Forall (fun x => forall i, body_of x i -> ~ P i) A -> kept A h h'.
Proof using Type. intros [_ Ho] HA. eapply Forall_impl; [exact HA|]. intros x Hx i Hi. apply Ho. by apply Hx. Qed.
Lemma blocks_kept_trans A h1 h2 h3 : kept A h1 h2 -> kept A h2 h3 -> kept A h1 h3.
Proof using Type.
  unfold kept. rewrite !Forall_forall. intros H1 H2 x Hx i Hi. rewrite (H2 x Hx i Hi). exact (H1 x Hx i Hi).
Qed.

(** Blocks held by the program have no byte in a free block or in [base]. *)
Lemma held_clear F A h : heap_ok base F A h -> Forall (fun x => forall i, body_of x i -> ~ (heads ((base, 0) :: F) i \/ Exists (fun y => body_of y i) F)) A.
Proof using Type.
  intros [Hb _ _ Hs _ _ HA HAF _]. rewrite Forall_forall in HA, HAF. apply Forall_forall. intros x Hx i Hi [Hh|Hh].
  - destruct (HA x Hx) as (H1 & H2 & _). exact (heads_apart F x i (HAF x Hx) H1 Hs H2 Hi Hh).
  - apply Exists_exists in Hh as (y & Hy & Hyi). specialize (HAF x Hx). rewrite Forall_forall in HAF. specialize (HAF y Hy). unfold apart, body_of in *. lia.
Qed.

(** What a call of [malloc] leaves: the blocks of before and one of [n] units. *)
Definition given (A : list block) (n : Z) (h : heap) (r : Z) (h' : heap) : Prop :=
  exists F', heap_ok base F' ((r - HEADER, n) :: A) h' /\ kept A h h'.

Lemma in_ring x F : x ∈ (base, 0) :: F -> fst x ∈ base :: map fst F.
Proof using Type. intros Hx. change base with (fst (base, 0)) at 1. rewrite <-map_cons. by apply list_elem_of_In, in_map, list_elem_of_In. Qed.

(** The block [p], behind [prevp] in the list, is big enough. *)
Lemma take_block Fa p s Fb A n h : heap_ok base (Fa ++ (p, s) :: Fb) A h -> 1 <= n <= s ->
  wp (p <- (if s =? n then q <- ptr p ;; set_ptr (fst (last_of base Fa)) q ;;; ret p
            else set_size p (s - n) ;;; let p := plus p (s - n) in set_size p n ;;; ret p) ;;
      modify (set_freep (fst (last_of base Fa))) ;;; ret (plus p 1)) (given A n h) h.
Proof using Type.
  intros Hok Hn. pose proof (held_clear _ _ _ Hok) as Hclear. destruct Hok as [[Hb1 Hb2] Hlim Hl Hs Hend Hfp HA HAF HAA].
  pose proof Hs as [Hsa (Hs1 & Hs2 & Hsb)]%sorted_app. pose proof Hend as [Henda [Hep Hendb]%Forall_cons]%Forall_app. cbn [fst snd] in Hep.
  destruct (ring_last Fa) as (L & EL & _). destruct (last_of base Fa) as [P ps] eqn:EP. cbn [fst].
  rewrite app_comm_cons, EL in Hl. apply linked_app in Hl as [Hl1 [[Hp1 Hp2] Hlb]]. cbn [first_of] in Hl1. apply linked_snoc in Hl1 as [HlL [HP1 HP2]].
  assert (P + HEADER <= p /\ base <= P /\ (P, ps) ∈ (base, 0) :: Fa) as (HPp & HbP & HPin).
  { destruct Fa as [|y Fa _] using rev_ind.
    - cbn in EP. injection EP as <- <-. simpl in Hs1. split_and!; [done|lia|left].
    - rewrite last_of_app in EP. subst y. rewrite upto_app in Hs1. simpl in Hs1. apply sorted_app in Hsa as [Hsa (Hs3 & Hs4 & _)]. apply upto_ge in Hsa.
      split_and!; [unfold HEADER in *; lia|unfold HEADER in *; lia|]. right. apply elem_of_app. right. left. }
  assert (Forall (fun x => 0 <= fst x /\ fst x + HEADER <= P) L) as HL.
  { apply Forall_forall. intros x Hx. destruct Fa as [|y Fa _] using rev_ind; [by destruct L as [|? [|]]; simplify_eq/=; apply not_elem_of_nil in Hx|].
    rewrite last_of_app in EP. subst y. rewrite app_comm_cons in EL. apply app_inj_tail in EL as [<- _].
    apply sorted_app in Hsa as [Hsa (Hs3 & _ & _)]. apply elem_of_cons in Hx as [->|Hx]; [apply upto_ge in Hsa; cbn; lia|].
    destruct (sorted_in _ _ _ Hsa Hx) as (? & ? & ?). unfold HEADER in *. lia. }
  assert (Forall (fun x => p + HEADER * s < fst x /\ fst x + HEADER <= top h) Fb) as HFb.
  { apply Forall_forall. intros x Hx. destruct (sorted_in _ _ _ Hsb Hx) as (H1 & H2 & _). rewrite Forall_forall in Hendb. specialize (Hendb x Hx). unfold HEADER in *. lia. }
  assert (0 <= first_of base Fb < 2 ^ 32) as Hfirst.
  { destruct Fb as [|[a t] Fb]; cbn; [unfold HEADER in *; lia|]. apply Forall_inv in HFb. cbn [fst] in HFb. unfold HEADER in *. lia. }
  assert (Forall (fun x => apart x (p, s)) A) as HAp by (eapply Forall_impl; [exact HAF|]; intros x Hx; apply Forall_app in Hx as [_ Hx]; by apply Forall_cons in Hx as [? _]).
  apply wp_bind. destruct (Z.eqb_spec s n) as [<-|Hne].
  - (* the whole block *)
    apply wp_bind. unfold ptr. apply wp_ld; [unfold HEADER in *; lia..|]. rewrite Hp1. apply wp_bind. apply wp_st; [unfold HEADER in *; lia..|].
    apply wp_ret. apply wp_bind, wp_modify, wp_ret. rewrite plus_small by (unfold HEADER in *; lia). cbn [h_mem set_hmem set_freep].
    assert (outside (head_of P) (h_mem h) (put32 P (first_of base Fb) (h_mem h))) as Ho by (apply outside_ptr_put; unfold top, HEADER in *; lia).
    set (m := put32 P (first_of base Fb) (h_mem h)) in *. assert (length m = length (h_mem h)) as Hlen by apply Ho.
    exists (Fa ++ Fb). replace (p + HEADER * 1 - HEADER) with p by lia. split.
    + split; unfold top; cbn [h_mem set_hmem set_freep freep]; rewrite ?Hlen; fold (top h); try done.
      * rewrite app_comm_cons, EL. apply linked_app. split.
        -- apply linked_snoc. split.
           ++ eapply linked_outside; [exact Ho|exact HlL|]. eapply Forall_impl; [exact HL|]. intros x [H1 H2]. unfold head_of, top, HEADER in *. split_and!; [lia|lia|]. intros i. lia.
           ++ split; [unfold m; rewrite get32_put32_same by (unfold top, HEADER in *; lia); by apply u32_small|].
              unfold m. rewrite get32_put32_other by (unfold top, HEADER in *; lia). done.
        -- eapply linked_outside; [exact Ho|exact Hlb|]. eapply Forall_impl; [exact HFb|]. intros x [H1 H2]. unfold head_of, top, HEADER in *. split_and!; [lia|lia|]. intros i. lia.
      * apply sorted_app. split; [done|]. eapply sorted_weaken; [|exact Hsb]. unfold HEADER in *. lia.
      * by apply Forall_app.
      * apply (in_ring (P, ps)). rewrite app_comm_cons. apply elem_of_app. by left.
      * constructor.
        -- cbn [fst snd]. split_and!; [apply upto_ge in Hsa; lia|lia|lia|]. unfold m. rewrite get32_put32_other by (unfold top, HEADER in *; lia). done.
        -- eapply held_outside; [exact Ho|done|done|done|]. eapply Forall_impl; [exact Hclear|]. intros x Hx i Hi Hh. apply (Hx i Hi). left.
           apply Exists_exists. exists (P, ps). split; [|done]. rewrite app_comm_cons. apply elem_of_app. by left.
      * constructor.
        -- apply Forall_app. split; apply Forall_forall; intros x Hx.
           ++ destruct (sorted_in _ _ _ Hsa Hx) as (_ & _ & ?). unfold apart. cbn [fst snd]. lia.
           ++ destruct (sorted_in _ _ _ Hsb Hx) as (? & _ & _). unfold apart. cbn [fst snd]. lia.
        -- eapply Forall_impl; [exact HAF|]. intros x [H1 H2]%Forall_app. apply Forall_cons in H2 as [_ H2]. by apply Forall_app.
      * constructor; [|done]. eapply Forall_impl; [exact HAp|]. intros x. unfold apart. cbn [fst snd]. lia.
    + eapply kept_outside; [exact Ho|]. eapply Forall_impl; [exact Hclear|]. intros x Hx i Hi Hh. apply (Hx i Hi). left.
      apply Exists_exists. exists (P, ps). split; [|done]. rewrite app_comm_cons. apply elem_of_app. by left.
  - (* its end *)
    apply wp_bind. apply wp_st; [unfold HEADER in *; lia..|]. cbv zeta. rewrite plus_small by (unfold HEADER in *; lia).
    pose proof (top_put (p + 4) (s - n) h ltac:(unfold HEADER in *; lia) ltac:(unfold HEADER in *; lia)) as Et.
    apply wp_bind. apply wp_st; [unfold HEADER in *; lia..|]. apply wp_ret. apply wp_bind, wp_modify, wp_ret. cbn [h_mem set_hmem set_freep].
    rewrite plus_small by (unfold HEADER in *; lia). set (p' := p + HEADER * (s - n)).
    set (m := put32 (p' + 4) n (put32 (p + 4) (s - n) (h_mem h))).
    assert (outside (body_of (p, s)) (h_mem h) m) as Ho.
    { unfold m, p'. eapply outside_trans; apply outside_put; rewrite ?length_put32; unfold body_of, top, HEADER in *; cbn [fst snd]; try lia. }
    assert (length m = length (h_mem h)) as Hlen by apply Ho.
    assert (get32 p m = first_of base Fb /\ get32 (p + 4) m = s - n /\ get32 (p' + 4) m = n) as (Hm1 & Hm2 & Hm3).
    { unfold m, p', top, HEADER in *. split_and!.
      - rewrite !get32_put32_other by (rewrite ?length_put32; lia). done.
      - rewrite get32_put32_other by (rewrite ?length_put32; lia). rewrite get32_put32_same by lia. apply u32_small. lia.
      - rewrite get32_put32_same by (rewrite ?length_put32; lia). apply u32_small. lia. }
    assert (Hbody : Forall (fun x => forall i, body_of x i -> ~ body_of (p, s) i) A).
    { eapply Forall_impl; [exact Hclear|]. intros x Hx i Hi Hh. apply (Hx i Hi). right. apply Exists_exists. exists (p, s). split; [|done]. apply elem_of_app. right. left. }
    exists (Fa ++ (p, s - n) :: Fb). replace (p' + HEADER * 1 - HEADER) with p' by lia. split; [|by eapply kept_outside].
    split; unfold top; cbn [h_mem set_hmem set_freep freep]; rewrite ?Hlen; fold (top h); try done.
    + rewrite app_comm_cons, EL. apply linked_app. split.
      * apply linked_snoc. split.
        -- eapply linked_outside; [exact Ho|exact HlL|]. eapply Forall_impl; [exact HL|]. intros x [H1 H2]. unfold head_of, body_of, top, HEADER in *. cbn [fst snd]. split_and!; [lia|lia|]. intros i. lia.
        -- eapply outside_node; [exact Ho|unfold HEADER in *; lia|unfold top, HEADER in *; lia| |by split]. intros i. unfold head_of, body_of, HEADER in *. cbn [fst snd]. lia.
      * split; [by split|]. eapply linked_outside; [exact Ho|exact Hlb|]. eapply Forall_impl; [exact HFb|]. intros x [H1 H2]. unfold head_of, body_of, top, HEADER in *. cbn [fst snd].
        split_and!; [lia|lia|]. intros i. lia.
    + apply sorted_app. split; [done|]. split_and!; [done|lia|]. eapply sorted_weaken; [|exact Hsb]. unfold HEADER in *. lia.
    + apply Forall_app. split; [done|]. constructor; [cbn [fst snd]; unfold HEADER in *; lia|done].
    + apply (in_ring (P, ps)). rewrite app_comm_cons. apply elem_of_app. by left.
    + constructor.
      * cbn [fst snd]. apply upto_ge in Hsa. split_and!; [unfold p', HEADER in *; lia|lia|unfold p', HEADER in *; lia|exact Hm3].
      * by eapply held_outside.
    + constructor.
      * apply Forall_app. split; [|constructor]; [| |].
        -- apply Forall_forall; intros x Hx. destruct (sorted_in _ _ _ Hsa Hx) as (_ & _ & ?). unfold apart, p', HEADER in *. cbn [fst snd]. lia.
        -- unfold apart, p'. cbn [fst snd]. lia.
        -- apply Forall_forall; intros x Hx. destruct (sorted_in _ _ _ Hsb Hx) as (? & _ & _). unfold apart, p', HEADER in *. cbn [fst snd]. lia.
      * rewrite Forall_forall in HAF, HAp. apply Forall_forall. intros x Hx. specialize (HAF x Hx). specialize (HAp x Hx). apply Forall_app in HAF as [H1 H2].
        apply Forall_cons in H2 as [_ H2]. apply Forall_app. split; [done|]. constructor; [|done]. unfold apart, HEADER in *. cbn [fst snd] in *. lia.
    + constructor; [|done]. eapply Forall_impl; [exact HAp|]. intros x. unfold apart, p', HEADER. cbn [fst snd]. lia.
Qed.

(** *** More memory *)

Lemma get32_app m r a : 0 <= a -> a + 4 <= Z.of_nat (length m) -> get32 a (m ++ r) = get32 a m.
Proof using Type.
  intros H0 H1. unfold get32. f_equal. apply list_eq_same_length with 4%nat; [apply length_slice; lia|apply length_slice; rewrite length_app; lia|].
  intros i x y Hi. rewrite !lookup_slice by done. rewrite lookup_app_l by lia. congruence.
Qed.

Lemma linked_grown m r L stop : linked m L stop -> Forall (fun x => 0 <= fst x /\ fst x + HEADER <= Z.of_nat (length m)) L -> linked (m ++ r) L stop.
Proof using Type.
  revert stop. induction L as [|[a s] L IH]; intros stop; [done|]. intros [[H1 H2] HL] [[H3 H4] HF]%Forall_cons. cbn [fst] in *. unfold HEADER in *.
  split; [|by apply IH]. split; rewrite get32_app by lia; done.
Qed.

Lemma ring_inside F A h : heap_ok base F A h -> inside h ((base, 0) :: F).
Proof using Type.
  intros [[Hb1 Hb2] _ _ Hs Hend _ _ _ _]. constructor; [cbn; lia|]. apply Forall_forall. intros x Hx. rewrite Forall_forall in Hend. specialize (Hend x Hx).
  destruct (sorted_in _ _ _ Hs Hx) as (H1 & H2 & _). unfold HEADER in *. lia.
Qed.

(** A new block at the end of the memory. *)
Lemma grown_ok F A h n : heap_ok base F A h -> 1 <= n -> top h + HEADER * n < 2 ^ 31 ->
  heap_ok base F ((top h, n) :: A) (set_hmem (put32 (top h + 4) n (h_mem h ++ replicate (Z.to_nat (n * HEADER)) 0)) h).
Proof using Type.
  intros Hok Hn Hlim. pose proof (ring_inside _ _ _ Hok) as Hin. destruct Hok as [[Hb1 Hb2] _ Hl Hs Hend Hfp HA HAF HAA].
  set (g := h_mem h ++ replicate (Z.to_nat (n * HEADER)) 0). assert (Z.of_nat (length g) = top h + HEADER * n) as Hg.
  { unfold g, top, HEADER in *. rewrite length_app, length_replicate. lia. }
  assert (outside (head_of (top h)) g (put32 (top h + 4) n g)) as Ho.
  { apply outside_put; unfold top, head_of, HEADER in *; lia. }
  assert (top (set_hmem (put32 (top h + 4) n g) h) = top h + HEADER * n) as Et.
  { unfold top at 1. cbn [h_mem set_hmem]. rewrite length_put32 by (unfold top, HEADER in *; lia). done. }
  split; rewrite ?Et; cbn [h_mem set_hmem freep]; try done.
  - unfold HEADER in *. lia.
  - eapply linked_outside; [exact Ho|by apply linked_grown|]. eapply Forall_impl; [exact Hin|]. intros x [H1 H2]. unfold head_of, top, HEADER in *. split_and!; [lia|lia|]. intros i. lia.
  - eapply Forall_impl; [exact Hend|]. intros x Hx. cbv beta in Hx. unfold HEADER in *. lia.
  - constructor.
    + cbn [fst snd]. split_and!; [lia|lia|lia|]. rewrite get32_put32_same by (unfold top, HEADER in *; lia). apply u32_small. unfold HEADER in *. lia.
    + eapply held_outside; [exact Ho|by rewrite Hg| |done|].
      * eapply Forall_impl; [exact HA|]. intros x (H1 & H2 & H3 & H4). split_and!; [done|done|unfold HEADER in *; lia|]. unfold g. rewrite get32_app by (unfold top, HEADER in *; lia). done.
      * eapply Forall_impl; [exact HA|]. intros x (H1 & H2 & H3 & H4) i. unfold body_of, head_of, HEADER in *. lia.
  - constructor; [|done]. eapply Forall_impl; [exact Hend|]. intros x Hx. cbv beta in Hx. right. cbn [fst snd]. lia.
  - constructor; [|done]. eapply Forall_impl; [exact HA|]. intros x (H1 & H2 & H3 & H4). right. cbn [fst snd]. lia.
Qed.

(** The kernel ends a process below its own half of the addresses. *)
Hypothesis Hgrants : forall t n, 0 <= n -> grants t n = true -> t + n < 2 ^ 31.

Lemma morecore_spec F A n h : heap_ok base F A h -> 1 <= n < 2 ^ 28 ->
  wp (morecore grants n) (fun r h' =>
    (grants (top h) (Z.max 4096 n * HEADER) = false /\ r = 0 /\ h' = h) \/
    exists F', heap_ok base F' A h' /\ kept A h h' /\ offers F' n h' /\ r = freep h' /\ r <> 0 /\ (length F' <= S (length F))%nat) h.
Proof using Hgrants.
  intros Hok Hn. unfold morecore. replace (if n <? 4096 then 4096 else n) with (Z.max 4096 n) by (destruct (Z.ltb_spec n 4096); lia).
  set (nu := Z.max 4096 n). assert (4096 <= nu < 2 ^ 28 /\ n <= nu) as [Hnu Hle] by lia. cbv zeta.
  replace (s32 (nu * HEADER)) with (nu * HEADER) by (unfold s32, HEADER; rewrite Z.mod_small by lia; lia). unfold sbrk. apply wp_bind, wp_bind, wp_gets. cbn [id].
  destruct (grants (top h) (nu * HEADER)) eqn:Eg.
  2:{ apply wp_ret. change (-1 =? -1) with true. cbv iota. apply wp_ret. by left. }
  pose proof (Hgrants (top h) (nu * HEADER) ltac:(unfold HEADER; lia) Eg) as Hlim. assert (0 <= top h) as Htop by (unfold top; lia).
  rewrite (proj2 (Z.leb_le 0 (nu * HEADER))) by (unfold HEADER; lia). apply wp_bind, wp_modify, wp_ret.
  rewrite (proj2 (Z.eqb_neq (top h) (-1))) by lia. set (g := h_mem h ++ replicate (Z.to_nat (nu * HEADER)) 0).
  assert (top (set_hmem g h) = top h + HEADER * nu) as Eg' by (unfold top, g, HEADER in *; cbn; rewrite length_app, length_replicate; lia).
  apply wp_bind. apply wp_st; [unfold HEADER in *; lia|rewrite Eg'; unfold HEADER in *; lia|]. cbn [h_mem set_hmem].
  pose proof (grown_ok F A h nu Hok ltac:(lia) ltac:(unfold HEADER in *; lia)) as Hok'. fold g in Hok'. unfold set_hmem at 1. cbn [freep set_hmem]. fold (set_hmem (put32 (top h + 4) nu g) h).
  rewrite plus_small by (unfold HEADER in *; lia). apply wp_bind. rewrite Z.mul_1_r. eapply wp_mono; [by apply free_spec|].
  intros [] h' (F' & Hok1 & Et & Ho & (Fa & x & s & Fb & E & Hs & Hfp) & Hlen). apply wp_gets. right. exists F'. split; [done|].
  pose proof (ho_held _ _ _ _ Hok) as HA. split; [|split; [exists Fa, x, s, Fb; split; [done|]; split; [lia|done]|split; [done|split; [|done]]]].
  - pose proof (held_clear _ _ _ Hok) as Hclear. unfold kept. rewrite Forall_forall in *. intros y Hy i Hi. destruct (HA y Hy) as (H1 & H2 & H3 & _). destruct Ho as [_ Ho].
    rewrite Ho.
    + cbn [h_mem set_hmem]. assert (outside (head_of (top h)) g (put32 (top h + 4) nu g)) as [_ Ho2].
      { apply outside_put; [unfold HEADER in *; lia|unfold top in Eg'; cbn in Eg'; unfold top, HEADER in *; lia|]. intros j Hj. unfold head_of, HEADER. lia. }
      rewrite Ho2 by (unfold head_of, body_of in *; lia). unfold g. apply lookup_app_l. unfold body_of, top in *. lia.
    + intros [Hh|Hh]; [unfold head_of, body_of in *; lia|]. apply (Hclear y Hy _ Hi). by left.
  - pose proof (ho_freep _ _ _ _ Hok1) as Hf. pose proof (ho_base _ _ _ _ Hok1) as [Hb _]. pose proof (ho_sorted _ _ _ _ Hok1) as Hs1.
    apply elem_of_cons in Hf as [->|Hf]; [lia|]. apply list_elem_of_In, in_map_iff in Hf as (y & <- & Hy). apply list_elem_of_In in Hy.
    destruct (sorted_in _ _ _ Hs1 Hy) as (? & _). unfold HEADER in *. lia.
Qed.

(** *** The search *)

Abbreviation ring F := ((base, 0) :: F).

Lemma ring_next m F j p s : linked m (ring F) base -> ring F !! j = Some (p, s) ->
  exists q t, ring F !! (S j mod length (ring F))%nat = Some (q, t) /\ node m p q s.
Proof using Type.
  intros Hl Hj. pose proof (lookup_lt_Some _ _ _ Hj) as Hlt. pose proof (list_elem_of_split_length _ _ _ Hj) as (A & B & E & Elen).
  rewrite E in Hl. apply linked_app in Hl as [_ [Hn _]]. destruct B as [|[q t] B].
  - exists base, 0. assert (S j = length (ring F)) as -> by (rewrite E, length_app; simpl; lia). rewrite Nat.Div0.mod_same. done.
  - exists q, t. assert (S j < length (ring F))%nat by (rewrite E, length_app; simpl; lia). rewrite Nat.mod_small by done. split; [|done].
    rewrite E, lookup_app_r by lia. by replace (S j - length A)%nat with 1%nat by lia.
Qed.

Lemma ring_nodup lo F : sorted lo F -> base < lo -> NoDup (map fst (ring F)).
Proof using Type.
  intros Hs Hb. cbn [map]. constructor.
  - intros H. apply list_elem_of_In, in_map_iff in H as (x & E & Hx). apply list_elem_of_In in Hx. destruct (sorted_in _ _ _ Hs Hx). cbn in E. lia.
  - clear Hb. revert lo Hs. induction F as [|[a s] F IH]; intros lo; [constructor|]. intros (H1 & H2 & H3). cbn [map]. constructor; [|by eapply IH].
    intros H. apply list_elem_of_In, in_map_iff in H as (x & E & Hx). apply list_elem_of_In in Hx. destruct (sorted_in _ _ _ H3 Hx). cbn in E. unfold HEADER in *. lia.
Qed.

Lemma ring_unique F A h j k p s t : heap_ok base F A h -> ring F !! j = Some (p, s) -> ring F !! k = Some (p, t) -> j = k.
Proof using Type.
  intros Hok Hj Hk. eapply (NoDup_lookup (map fst (ring F)) j k p).
  - eapply ring_nodup; [apply Hok|unfold HEADER; lia].
  - change (map fst (ring F)) with (fst <$> ring F). rewrite list_lookup_fmap, Hj. done.
  - change (map fst (ring F)) with (fst <$> ring F). rewrite list_lookup_fmap, Hk. done.
Qed.

(** [p] is at index [j] and, unless it is [base], behind [prevp]. *)
Definition at_index (F : list block) (prevp p s : Z) (j : nat) : Prop :=
  ring F !! j = Some (p, s) /\ match j with O => True | S i => exists t, ring F !! i = Some (prevp, t) end.

Lemma at_split F prevp p s j : at_index F prevp p s j -> 1 <= s -> exists Fa Fb, F = Fa ++ (p, s) :: Fb /\ prevp = fst (last_of base Fa).
Proof using Type.
  intros [Hj Hp] Hs. destruct j as [|i]; [injection Hj as <- <-; lia|]. destruct Hp as [t Hp]. cbn in Hj.
  pose proof (list_elem_of_split_length _ _ _ Hj) as (Fa & Fb & -> & Elen). exists Fa, Fb. split; [done|].
  destruct Fa as [|y Fa _] using rev_ind; [simpl in Elen; subst i; by injection Hp as <- _|]. rewrite last_of_app. rewrite length_app in Elen. simpl in Elen.
  destruct i as [|i]; [lia|]. change (((Fa ++ [y]) ++ (p, s) :: Fb) !! i = Some (prevp, t)) in Hp. rewrite <-app_assoc, lookup_app_r in Hp by lia. replace (i - length Fa)%nat with 0%nat in Hp by lia. by injection Hp as ->.
Qed.

Lemma at_next F A h prevp p s j : heap_ok base F A h -> at_index F prevp p s j ->
  exists q t, at_index F p q t (S j mod length (ring F)) /\ node (h_mem h) p q s.
Proof using Type.
  intros Hok [Hj _]. destruct (ring_next _ _ _ _ _ (ho_links _ _ _ _ Hok) Hj) as (q & t & Hq & Hn). exists q, t. split; [|done]. split; [done|].
  pose proof (lookup_lt_Some _ _ _ Hj) as Hlt. destruct (decide (S j < length (ring F))%nat) as [Hlt'|Hge].
  - rewrite Nat.mod_small by done. by exists s.
  - assert (S j = length (ring F)) as -> by lia. by rewrite Nat.Div0.mod_same.
Qed.

(** [d] steps on, [freep] is at index [k]. *)
Definition steps_to (F : list block) (h : heap) (j d k : nat) (sk : Z) : Prop :=
  (d < length (ring F))%nat /\ ((j + d) mod length (ring F))%nat = k /\ ring F !! k = Some (freep h, sk).

Lemma steps_next F h j d k sk : steps_to F h j (S d) k sk -> steps_to F h (S j mod length (ring F)) d k sk.
Proof using Type.
  intros (H1 & H2 & H3). split; [lia|]. split; [|done]. rewrite Nat.Div0.add_mod_idemp_l. rewrite <-H2. f_equal. lia.
Qed.

Lemma fit F A h n prevp p s j fuel : heap_ok base F A h -> at_index F prevp p s j -> 1 <= n <= s -> (0 < fuel)%nat ->
  wp (malloc_loop grants fuel n prevp p) (given A n h) h.
Proof using Type.
  intros Hok Hat Hn Hf. destruct fuel as [|fuel]; [lia|]. destruct (at_next _ _ _ _ _ _ _ Hok Hat) as (q & t & _ & Hnode).
  pose proof (ring_inside _ _ _ Hok) as Hin. unfold inside in Hin. rewrite Forall_forall in Hin. pose proof (Hin (p, s) ltac:(eapply list_elem_of_lookup_2; apply Hat)) as [H1 H2]. cbn [fst] in *.
  destruct (at_split _ _ _ _ _ Hat ltac:(lia)) as (Fa & Fb & -> & ->). cbn [malloc_loop]. apply wp_bind. unfold size at 1. apply wp_ld; [lia|unfold HEADER in *; lia|].
  destruct Hnode as [_ ->]. rewrite (proj2 (Z.leb_le n s)) by lia. exact (take_block Fa p s Fb A n h Hok Hn).
Qed.

(** One step past a block that is too small. *)
Lemma pass F A h n prevp p s j fuel (Q : Z -> heap -> Prop) : heap_ok base F A h -> at_index F prevp p s j -> s < n -> p <> freep h ->
  (forall q t, at_index F p q t (S j mod length (ring F)) -> wp (malloc_loop grants fuel n p q) Q h) ->
  wp (malloc_loop grants (S fuel) n prevp p) Q h.
Proof using Type.
  intros Hok Hat Hn Hp HQ. destruct (at_next _ _ _ _ _ _ _ Hok Hat) as (q & t & Hq & [Hn1 Hn2]).
  pose proof (ring_inside _ _ _ Hok) as Hin. unfold inside in Hin. rewrite Forall_forall in Hin. pose proof (Hin (p, s) ltac:(eapply list_elem_of_lookup_2; apply Hat)) as [H1 H2]. cbn [fst] in *.
  cbn [malloc_loop]. apply wp_bind. unfold size at 1. apply wp_ld; [lia|unfold HEADER in *; lia|]. rewrite Hn2. rewrite (proj2 (Z.leb_gt n s)) by lia.
  apply wp_bind, wp_gets. cbn [id]. rewrite (proj2 (Z.eqb_neq p (freep h))) by done. apply wp_bind. unfold ptr. apply wp_ld; [lia|unfold HEADER in *; lia|]. rewrite Hn1. by apply (HQ q t).
Qed.

(** A block that fits is next, or is the one of [freep]. *)
Lemma loop_found F A h n sk k : heap_ok base F A h -> 1 <= n -> forall d j prevp p s fuel, at_index F prevp p s j -> steps_to F h j d k sk ->
  n <= s \/ n <= sk -> (d < fuel)%nat -> wp (malloc_loop grants fuel n prevp p) (given A n h) h.
Proof using Type.
  intros Hok Hn. induction d as [|d IH]; intros j prevp p s fuel Hat Hst Hfit Hf; (destruct (decide (n <= s)) as [Hs|Hs]; [eapply fit; [done|exact Hat|lia|lia]|]);
    destruct Hfit as [?|Hfit]; try lia.
  - destruct Hst as (Hlt & Hk & Hsk). rewrite Nat.add_0_r in Hk. rewrite Nat.mod_small in Hk by (eapply lookup_lt_Some; apply Hat). subst k.
    destruct Hat as [Hj _]. rewrite Hj in Hsk. injection Hsk as _ ->. lia.
  - destruct fuel as [|fuel]; [lia|]. eapply pass; [exact Hok|exact Hat|lia| |].
    + intros ->. destruct Hst as (Hlt & Hk & Hsk). pose proof (ring_unique _ _ _ _ _ _ _ _ Hok (proj1 Hat) Hsk) as E. destruct Hat as [Hj _]. rewrite <-E, Hj in Hsk. injection Hsk as ->. lia.
    + intros q t Hq. eapply IH; [exact Hq|by apply steps_next|by right|lia].
Qed.

(** Where [freep] is. *)
Lemma freep_index F A h : heap_ok base F A h -> exists k sk, ring F !! k = Some (freep h, sk).
Proof using Type.
  intros Hok. pose proof (ho_freep _ _ _ _ Hok) as Hf. change (base :: map fst F) with (map fst (ring F)) in Hf.
  apply list_elem_of_In, in_map_iff in Hf as ([f sk] & E & Hx). cbn in E. subst f. apply list_elem_of_In, list_elem_of_lookup in Hx as [k Hk]. by exists k, sk.
Qed.

Definition malloc_post (A : list block) (n : Z) (h : heap) (r : Z) (h' : heap) : Prop :=
  (r = 0 /\ grants (top h) (Z.max 4096 n * HEADER) = false /\ h' = h) \/ (r <> 0 /\ given A n h r h').

Lemma given_post A n h r h' : 0 < base -> given A n h r h' -> malloc_post A n h r h'.
Proof using Type.
  intros Hb Hg. right. split; [|done]. destruct Hg as (F' & Hok & _). pose proof (Forall_inv (ho_held _ _ _ _ Hok)) as (H & _). cbn [fst] in H. unfold HEADER in *. lia.
Qed.

Lemma loop_search F A h n sk k : heap_ok base F A h -> 1 <= n < 2 ^ 28 -> forall d j prevp p s fuel, at_index F prevp p s j -> steps_to F h j d k sk ->
  (d + length F + 3 < fuel)%nat -> wp (malloc_loop grants fuel n prevp p) (malloc_post A n h) h.
Proof using Hgrants.
  intros Hok Hn. pose proof (ho_base _ _ _ _ Hok) as [Hb _].
  induction d as [|d IH]; intros j prevp p s fuel Hat Hst Hf; (destruct (decide (n <= s)) as [Hs|Hs];
    [eapply wp_mono; [eapply fit; [done|exact Hat|lia|lia]|]; intros r h'; by apply given_post|]).
  - (* once around: more memory *)
    destruct fuel as [|fuel]; [lia|]. destruct Hst as (Hlt & Hk & Hsk). rewrite Nat.add_0_r in Hk. rewrite Nat.mod_small in Hk by (eapply lookup_lt_Some; apply Hat). subst k.
    assert (p = freep h) as -> by (destruct Hat as [Hj _]; congruence).
    destruct (at_next _ _ _ _ _ _ _ Hok Hat) as (q & t & Hq & [Hn1 Hn2]).
    pose proof (ring_inside _ _ _ Hok) as Hin. unfold inside in Hin. rewrite Forall_forall in Hin. pose proof (Hin _ ltac:(eapply list_elem_of_lookup_2; apply Hat)) as [H1 H2]. cbn [fst] in *.
    cbn [malloc_loop]. apply wp_bind. unfold size at 1. apply wp_ld; [lia|unfold HEADER in *; lia|]. rewrite Hn2. rewrite (proj2 (Z.leb_gt n s)) by lia.
    apply wp_bind, wp_gets. cbn [id]. rewrite Z.eqb_refl. apply wp_bind. eapply wp_mono; [by apply (morecore_spec F A n)|].
    intros r h1 [(Hg & -> & ->)|(F1 & Hok1 & Hk1 & (Fa & x & s1 & Fb & E & Hs1 & Hfp) & -> & Hr & Hlen)].
    { cbn. apply wp_ret. by left. }
    rewrite (proj2 (Z.eqb_neq _ _) Hr). clear Hin H1 H2 Hq Hn1 Hn2 Hat Hsk.
    destruct (freep_index _ _ _ Hok1) as (k1 & sk1 & Hk).
    assert (at_index F1 (match k1 with O => 0 | S i => fst (nth i (ring F1) (0, 0)) end) (freep h1) sk1 k1) as Hat1.
    { split; [done|]. destruct k1 as [|i]; [done|]. destruct (lookup_lt_is_Some_2 (ring F1) i) as [[y ty] Hy]; [pose proof (lookup_lt_Some _ _ _ Hk); lia|].
      exists ty. rewrite (nth_lookup_Some _ _ _ _ Hy). done. }
    destruct (at_next _ _ _ _ _ _ _ Hok1 Hat1) as (q1 & t1 & Hq1 & [Hn1 _]).
    pose proof (ring_inside _ _ _ Hok1) as Hin1. unfold inside in Hin1. rewrite Forall_forall in Hin1. pose proof (Hin1 _ ltac:(by eapply list_elem_of_lookup_2)) as [H1 H2]. cbn [fst] in *.
    apply wp_bind. unfold ptr. apply wp_ld; [lia|unfold HEADER in *; lia|]. rewrite Hn1.
    pose proof (lookup_lt_Some _ _ _ Hk) as Hklt.
    eapply wp_mono; [eapply (loop_found F1 A h1 n sk1 k1 Hok1 ltac:(lia) (length F1)); [exact Hq1| | |]|].
    + split; [cbn; lia|]. split; [|done]. rewrite Nat.Div0.add_mod_idemp_l. replace (S k1 + length F1)%nat with (k1 + 1 * length (ring F1))%nat by (cbn [length]; lia).
      rewrite Nat.Div0.mod_add. by apply Nat.mod_small.
    + destruct Hfp as [Hfp|Hfp].
      * right. assert (ring F1 !! S (length Fa) = Some (x, s1)) as Hx by (rewrite E; change ((Fa ++ (x, s1) :: Fb) !! length Fa = Some (x, s1)); rewrite lookup_app_r, Nat.sub_diag by lia; done).
        rewrite <-Hfp in Hx. pose proof (ring_unique _ _ _ _ _ _ _ _ Hok1 Hk Hx) as ->. rewrite Hk in Hx. injection Hx as ->. done.
      * left. assert (exists ty, ring F1 !! length Fa = Some (freep h1, ty)) as [ty Hy].
        { rewrite Hfp, E. destruct Fa as [|y Fa _] using rev_ind; [by exists 0|]. rewrite last_of_app. destruct y as [y ty]. exists ty. rewrite length_app, Nat.add_comm.
          change (((Fa ++ [(y, ty)]) ++ (x, s1) :: Fb) !! length Fa = Some (y, ty)). rewrite <-app_assoc, lookup_app_r, Nat.sub_diag by lia. done. }
        pose proof (ring_unique _ _ _ _ _ _ _ _ Hok1 Hk Hy) as ->. destruct Hq1 as [Hq1 _].
        assert (S (length Fa) < length (ring F1))%nat as Hlt1 by (rewrite E; cbn; rewrite length_app; simpl; lia). rewrite Nat.mod_small in Hq1 by done.
        rewrite E in Hq1. change ((Fa ++ (x, s1) :: Fb) !! length Fa = Some (q1, t1)) in Hq1. rewrite lookup_app_r, Nat.sub_diag in Hq1 by lia. by injection Hq1 as <- <-.
    + cbn in Hf. lia.
    + intros r h' (F' & Hok' & Hk'). apply given_post; [done|]. exists F'. split; [done|]. by eapply blocks_kept_trans.
  - destruct fuel as [|fuel]; [lia|]. eapply pass; [exact Hok|exact Hat|lia| |].
    + intros ->. destruct Hst as (Hlt & Hk & Hsk). pose proof (ring_unique _ _ _ _ _ _ _ _ Hok (proj1 Hat) Hsk) as E. subst k.
      pose proof (lookup_lt_Some _ _ _ (proj1 Hat)) as Hj. destruct (decide (j + S d < length (ring F))%nat); [rewrite Nat.mod_small in E; lia|].
      replace (j + S d)%nat with (j + S d - length (ring F) + 1 * length (ring F))%nat in E by lia. rewrite Nat.Div0.mod_add, Nat.mod_small in E; lia.
    + intros q t Hq. eapply IH; [exact Hq|by apply steps_next|lia].
Qed.

(** ** Programs *)

(** Before the first call, or with a list of free blocks. *)
Definition heap_inv (A : list block) (h : heap) : Prop :=
  (exists F, heap_ok base F A h) \/ (A = [] /\ freep h = 0 /\ 0 < base /\ base + HEADER <= top h < 2 ^ 31).

Definition units (nbytes : Z) : Z := (nbytes + HEADER - 1) / HEADER + 1.

Lemma units_enough nbytes : 0 <= nbytes < 2 ^ 31 - 16 -> 1 <= units nbytes < 2 ^ 28 /\ nbytes <= HEADER * (units nbytes - 1).
Proof using Type. intros H. unfold units, HEADER. pose proof (Z.div_mod (nbytes + 8 - 1) 8 ltac:(lia)). pose proof (Z.mod_pos_bound (nbytes + 8 - 1) 8 ltac:(lia)). lia. Qed.

Lemma search_from F A h n : heap_ok base F A h -> 1 <= n < 2 ^ 28 ->
  wp (p <- ptr (freep h) ;; malloc_loop grants (2 * (length (h_mem h) + 2)) n (freep h) p) (malloc_post A n h) h.
Proof using Hgrants.
  intros Hok Hn. destruct (freep_index _ _ _ Hok) as (k & sk & Hk). pose proof (lookup_lt_Some _ _ _ Hk) as Hlt.
  assert (at_index F (match k with O => 0 | S i => fst (nth i (ring F) (0, 0)) end) (freep h) sk k) as Hat.
  { split; [done|]. destruct k as [|i]; [done|]. destruct (lookup_lt_is_Some_2 (ring F) i) as [[y ty] Hy]; [lia|]. exists ty. by rewrite (nth_lookup_Some _ _ _ _ Hy). }
  destruct (at_next _ _ _ _ _ _ _ Hok Hat) as (q & t & Hq & [Hn1 _]).
  pose proof (ring_inside _ _ _ Hok) as Hin. unfold inside in Hin. rewrite Forall_forall in Hin. pose proof (Hin _ ltac:(by eapply list_elem_of_lookup_2)) as [H1 H2]. cbn [fst] in *.
  apply wp_bind. unfold ptr. apply wp_ld; [lia|unfold HEADER in *; lia|]. rewrite Hn1.
  eapply (loop_search F A h n sk k Hok Hn (length F)); [exact Hq| |].
  - split; [cbn; lia|]. split; [|done]. rewrite Nat.Div0.add_mod_idemp_l. replace (S k + length F)%nat with (k + 1 * length (ring F))%nat by (cbn [length]; lia).
    rewrite Nat.Div0.mod_add. by apply Nat.mod_small.
  - pose proof (sorted_count _ _ (top h) (ho_sorted _ _ _ _ Hok) (ho_free _ _ _ _ Hok)) as Hc. destruct (ho_base _ _ _ _ Hok). unfold top, HEADER in *. lia.
Qed.

(** [malloc] returns a block that nobody has. In every state that calls of the library
    leave, a call for less than 2 GB returns: either a null pointer, when the kernel refuses
    to grow the process, with everything as before, or a block at least as large as asked for,
    inside the memory, with no byte in common with a block of the program, a free block or
    [base]; the bytes of the other blocks are unchanged. *)
Lemma malloc_spec A h nbytes : heap_inv A h -> 0 <= nbytes < 2 ^ 31 - 16 ->
  wp (malloc base grants nbytes) (fun r h' => kept A h h' /\
    (r = 0 /\ grants (top h) (Z.max 4096 (units nbytes) * HEADER) = false /\ heap_inv A h' \/
     r <> 0 /\ nbytes <= HEADER * (units nbytes - 1) /\ heap_inv ((r - HEADER, units nbytes) :: A) h')) h.
Proof using Hgrants.
  intros Hinv Hb. pose proof (units_enough nbytes Hb) as [Hn Hle]. unfold malloc.
  replace (u32 (u32 (nbytes + HEADER - 1) / HEADER + 1)) with (units nbytes).
  2:{ unfold units in *. rewrite (u32_small (nbytes + HEADER - 1)) by (unfold HEADER; lia). rewrite u32_small; [done|]. unfold HEADER in *. lia. }
  cbv zeta. apply wp_bind, wp_gets. cbn [id].
  assert (Hend : forall F A0 h1, heap_ok base F A0 h1 -> top h1 = top h -> A0 = A -> kept A h h1 -> forall r h', malloc_post A (units nbytes) h1 r h' ->
    kept A h h' /\ (r = 0 /\ grants (top h) (Z.max 4096 (units nbytes) * HEADER) = false /\ heap_inv A h' \/
     r <> 0 /\ nbytes <= HEADER * (units nbytes - 1) /\ heap_inv ((r - HEADER, units nbytes) :: A) h')).
  { intros F A0 h1 Hok Et -> Hk r h' [(-> & Hg & ->)|(Hr & F' & Hok' & Hk')].
    - split; [done|]. left. split; [done|]. split; [by rewrite <-Et|]. left. by exists F.
    - split; [by eapply blocks_kept_trans|]. right. split; [done|]. split; [done|]. left. by exists F'. }
  destruct Hinv as [[F Hok]|(-> & Hfp & Hbase & Htop)].
  - assert (freep h <> 0) as Hf.
    { destruct (freep_index _ _ _ Hok) as (k & sk & Hk). pose proof (ho_base _ _ _ _ Hok) as [Hb0 _]. destruct k as [|k]; [by injection Hk as <- <-; lia|].
      cbn in Hk. apply list_elem_of_lookup_2 in Hk. destruct (sorted_in _ _ _ (ho_sorted _ _ _ _ Hok) Hk). cbn [fst] in *. unfold HEADER in *. lia. }
    rewrite (proj2 (Z.eqb_neq _ _) Hf). apply wp_bind, wp_ret. apply wp_bind, wp_gets. cbn [id]. eapply wp_mono; [by apply (search_from F A)|].
    eapply Hend; [exact Hok|done|done|]. apply Forall_forall. done.
  - rewrite Hfp, Z.eqb_refl. apply wp_bind, wp_bind. apply wp_st; [lia|unfold HEADER in *; lia|]. apply wp_bind, wp_modify. cbn [set_freep set_hmem h_mem].
    set (h1 := Heap (put32 base base (h_mem h)) base). assert (top h1 = top h) as Et1 by (unfold top, h1, HEADER in *; cbn; rewrite length_put32; lia).
    unfold set_size. apply wp_st; [unfold HEADER in *; lia|change (base + 4 + 4 <= top h1); rewrite Et1; unfold HEADER in *; lia|]. cbn [h_mem h1]. set (h2 := set_hmem (put32 (base + 4) 0 (put32 base base (h_mem h))) h1).
    assert (top h2 = top h) as Et2 by (unfold top, h2, h1, HEADER in *; cbn; rewrite !length_put32; rewrite ?length_put32; lia).
    assert (heap_ok base [] [] h2) as Hok.
    { split; rewrite ?Et2; try done; try lia; [|left|constructor]. split; [|done]. cbn [h2 h_mem set_hmem h1 first_of]. unfold top, HEADER in *. split.
      - rewrite get32_put32_other by (rewrite ?length_put32; lia). rewrite get32_put32_same by lia. apply u32_small. lia.
      - rewrite get32_put32_same by (rewrite ?length_put32; lia). done. }
    apply wp_bind, wp_gets. cbn [id]. eapply wp_mono; [by apply (search_from [] [])|]. eapply Hend; [exact Hok|done|done|constructor].
Qed.

(** ** Runs of a program *)

Lemma apart_sym x y : apart x y -> apart y x.
Proof using Type. unfold apart. lia. Qed.

Lemma heap_ok_perm F A A' h : A ≡ₚ A' -> heap_ok base F A h -> heap_ok base F A' h.
Proof using Type.
  intros HA [H1 H2 H3 H4 H5 H6 H7 H8 H9]. split; try done; [by rewrite <-HA|by rewrite <-HA|]. clear -HA H9. induction HA as [|x A A' HA IH|x y A|A A' A'' _ IH1 _ IH2].
  - done.
  - inversion_clear H9. constructor; [by rewrite <-HA|by apply IH].
  - inversion_clear H9 as [|? ? Hx H]. inversion_clear H as [|? ? Hy H']. apply Forall_cons in Hx as [Hxy Hx].
    constructor; [constructor; [by apply apart_sym|done]|by constructor].
  - auto.
Qed.

Lemma free_kept A bp n h : heap_inv ((bp, n) :: A) h -> wp (free (bp + HEADER)) (fun _ h' => heap_inv A h' /\ kept A h h') h.
Proof using Type.
  intros [[F Hok]|[? _]]; [|done]. eapply wp_mono; [by apply free_spec|]. intros [] h' (F' & Hok' & _ & Ho & _). split; [left; by exists F'|].
  eapply kept_outside; [exact Ho|]. pose proof (held_clear _ _ _ Hok) as Hc. apply Forall_cons in Hc as [_ Hc]. pose proof (ho_pairs _ _ _ _ Hok) as Hp. inversion_clear Hp as [|? ? Hbp _].
  pose proof (ho_held _ _ _ _ Hok) as HA. apply Forall_cons in HA as [(_ & Hn & _) HA]. rewrite Forall_forall in *. intros x Hx i Hi [Hh|Hh].
  - specialize (Hbp x Hx). destruct (HA x Hx) as (_ & ? & _). unfold apart, head_of, body_of, HEADER in *. cbn [fst snd] in *. lia.
  - apply (Hc x Hx i Hi). by left.
Qed.

(** A program calls [malloc], frees blocks it holds and writes behind their headers. *)
Inductive ustep : list block * heap -> list block * heap -> Prop :=
| u_null A h nbytes h' : 0 <= nbytes < 2 ^ 31 - 16 -> malloc base grants nbytes h = Ret 0 h' -> ustep (A, h) (A, h')
| u_malloc A h nbytes r h' : 0 <= nbytes < 2 ^ 31 - 16 -> malloc base grants nbytes h = Ret r h' -> r <> 0 -> ustep (A, h) ((r - HEADER, units nbytes) :: A, h')
| u_free A A' bp n h h' : A ≡ₚ (bp, n) :: A' -> free (bp + HEADER) h = Ret tt h' -> ustep (A, h) (A', h')
| u_write A h a s i v : (a, s) ∈ A -> a + HEADER <= Z.of_nat i < a + HEADER * s -> ustep (A, h) (A, set_hmem (<[i := v]> (h_mem h)) h).

Lemma write_inv A h a s i v : heap_inv A h -> (a, s) ∈ A -> a + HEADER <= Z.of_nat i < a + HEADER * s -> heap_inv A (set_hmem (<[i := v]> (h_mem h)) h).
Proof using Type.
  intros [[F Hok]|[-> _]] Ha Hi; [|by apply not_elem_of_nil in Ha]. left. exists F. pose proof (held_clear _ _ _ Hok) as Hc. pose proof (ring_inside _ _ _ Hok) as Hin.
  destruct Hok as [Hb Hlim Hl Hs Hend Hfp HA HAF HAA]. set (P := fun j => j = Z.of_nat i).
  assert (outside P (h_mem h) (<[i := v]> (h_mem h))) as Ho.
  { split; [by rewrite length_insert|]. intros j Hj. apply list_lookup_insert_ne. intros ->. by apply Hj. }
  assert (length (<[i := v]> (h_mem h)) = length (h_mem h)) as Hlen by apply length_insert.
  assert (Hper : forall x, (a, s) <> x -> x ∈ A -> apart (a, s) x).
  { clear -HAA Ha. intros x Hne Hx. induction HAA as [|y A HyA _ IH]; [by apply not_elem_of_nil in Hx|]. rewrite Forall_forall in HyA.
    apply elem_of_cons in Ha as [<-|Ha]; apply elem_of_cons in Hx as [->|Hx]; [done|by apply HyA|by apply apart_sym, HyA|by apply IH]. }
  split; unfold top; cbn [h_mem set_hmem freep]; rewrite ?Hlen; fold (top h); try done.
  - eapply linked_outside; [exact Ho|exact Hl|]. unfold inside in Hin. rewrite Forall_forall in Hin. apply Forall_forall. intros x Hx. destruct (Hin x Hx).
    split_and!; [done|unfold top in *; lia|]. intros j Hj Hji. unfold P in Hji. subst j. rewrite Forall_forall in Hc. apply (Hc _ Ha (Z.of_nat i)).
    + unfold body_of, HEADER in *. cbn [fst snd]. lia.
    + left. apply Exists_exists. by exists x.
  - rewrite Forall_forall in HA. apply Forall_forall. intros x Hx. destruct (HA x Hx) as (H1 & H2 & H3 & H4). split_and!; try done. rewrite <-H4.
    apply (outside_get32 P); [done|unfold HEADER in *; lia|unfold top, HEADER in *; lia|]. intros j Hj Hji. unfold P in Hji. subst j.
    destruct (decide ((a, s) = x)) as [<-|Hne]; [cbn [fst snd] in *; unfold HEADER in *; lia|].
    specialize (Hper x Hne Hx). unfold apart, HEADER in *. cbn [fst snd] in *. lia.
Qed.

Lemma ustep_inv p q : ustep p q -> heap_inv (fst p) (snd p) -> heap_inv (fst q) (snd q).
Proof using Hgrants.
  intros Hstep Hinv. destruct Hstep as [A h nb h' Hn E|A h nb r h' Hn E Hr|A A' bp n h h' HA E|A h a s i v Ha Hi]; cbn [fst snd] in *.
  - pose proof (malloc_spec A h nb Hinv Hn) as Hw. eapply wp_use in Hw; [|exact E]. by destruct Hw as [_ [(_ & _ & ?)|(? & _)]].
  - pose proof (malloc_spec A h nb Hinv Hn) as Hw. eapply wp_use in Hw; [|exact E]. by destruct Hw as [_ [(? & _)|(_ & _ & ?)]].
  - assert (heap_inv ((bp, n) :: A') h) as Hinv'.
    { destruct Hinv as [[F Hok]|[-> _]]; [left; exists F; by eapply heap_ok_perm|]. by apply Permutation_nil_cons in HA. }
    pose proof (free_kept A' bp n h Hinv') as Hw. eapply wp_use in Hw; [|exact E]. by destruct Hw.
  - by eapply write_inv.
Qed.

(** C38: the blocks of a program are its own. In every run of a program that calls [malloc],
    frees blocks it holds and writes to them behind their headers, the blocks it holds lie in
    the memory behind [base] and have no byte in common.  A call of [malloc] for less than 2 GB
    returns: a null pointer when the kernel refuses to grow the process, or a block at least as
    large as asked for, apart from all others; [free] of a block it holds returns; both leave
    the bytes of the other blocks alone. *)
Theorem umalloc_safe h0 A h : freep h0 = 0 -> 0 < base -> base + HEADER <= top h0 < 2 ^ 31 -> rtc ustep ([], h0) (A, h) ->
  Forall (fun x => base + HEADER <= fst x /\ fst x + HEADER * snd x <= top h) A /\ ForallOrdPairs apart A /\
  (forall nbytes, 0 <= nbytes < 2 ^ 31 - 16 -> wp (malloc base grants nbytes) (fun r h' => kept A h h' /\
    (r = 0 /\ grants (top h) (Z.max 4096 (units nbytes) * HEADER) = false \/
     r <> 0 /\ nbytes <= HEADER * (units nbytes - 1) /\ base + HEADER <= r - HEADER /\ r - HEADER + HEADER * units nbytes <= top h' /\
     Forall (apart (r - HEADER, units nbytes)) A)) h) /\
  (forall bp n A', A ≡ₚ (bp, n) :: A' -> wp (free (bp + HEADER)) (fun _ h' => kept A' h h') h).
Proof using Hgrants.
  intros H0 Hb Ht Hsteps. assert (heap_inv A h) as Hinv.
  { change (heap_inv (fst (A, h)) (snd (A, h))). assert (heap_inv (fst ([] : list block, h0)) (snd ([] : list block, h0))) as H by (by right).
    induction Hsteps as [p|p q r Hpq _ IH]; [done|]. apply IH. by apply (ustep_inv p). }
  split_and!.
  - destruct Hinv as [[F Hok]|[-> _]]; [|constructor]. eapply Forall_impl; [apply Hok|]. intros x (H1 & _ & H2 & _). done.
  - destruct Hinv as [[F Hok]|[-> _]]; [apply Hok|constructor].
  - intros nbytes Hn. eapply wp_mono; [by apply (malloc_spec A)|]. intros r h' [Hk [(-> & Hg & _)|(Hr & Hle & [[F Hok]|[? _]])]]; [split; [done|]; by left| |done].
    split; [done|]. right. pose proof (Forall_inv (ho_held _ _ _ _ Hok)) as (H1 & _ & H2 & _). pose proof (ho_pairs _ _ _ _ Hok) as Hp. inversion_clear Hp. done.
  - intros bp n A' HA. assert (heap_inv ((bp, n) :: A') h) as Hinv'.
    { destruct Hinv as [[F Hok]|[-> _]]; [left; exists F; by eapply heap_ok_perm|]. by apply Permutation_nil_cons in HA. }
    eapply wp_mono; [apply (free_kept A' bp n h Hinv')|]. by intros [] h' [_ ?].
Qed.
End memory.

(** ** Requests near the end of the integers *)

(** The size in units wraps: a request for 4 GB is one for nothing. *)
Lemma huge_request base grants h : malloc base grants (2 ^ 32 - 1) h = malloc base grants 0 h.
Proof. reflexivity. Qed.
(** A request for 2 GB asks the kernel to shrink the process. *)
Example negative_growth : s32 (units (2 ^ 31) * HEADER) = - 2147483640.
Proof. reflexivity. Qed.

(** ** A process with 32 bytes *)

Definition small_heap : heap := Heap (replicate 32 0) 0.
Definition up_to_1MB (t n : Z) : bool := t + n <? 2 ^ 20.
Lemma up_to_1MB_ok t n : 0 <= n -> up_to_1MB t n = true -> t + n < 2 ^ 31.
Proof. unfold up_to_1MB. rewrite Z.ltb_lt. lia. Qed.

Lemma umalloc_safe_witness : exists r h, rtc (ustep 8 up_to_1MB) ([], small_heap) ([(r - HEADER, 14)], h) /\ r <> 0 /\
  wp (malloc 8 up_to_1MB 50) (fun _ h' => kept [(r - HEADER, 14)] h h') h /\ wp (free (r - HEADER + HEADER)) (fun _ h' => kept [] h h') h.
Proof.
  assert (heap_inv 8 [] small_heap) as H0 by (right; split_and!; reflexivity || (vm_compute; discriminate)).
  pose proof (malloc_spec 8 up_to_1MB up_to_1MB_ok [] small_heap 100 H0 ltac:(lia)) as Hm.
  destruct (proj1 (wp_returns _ _ _) Hm) as (r & h & E & _ & Hm'). assert (r <> 0) as Hr by (destruct Hm' as [(_ & Hg & _)|(Hr & _)]; [vm_compute in Hg; discriminate Hg|exact Hr]).
  clear Hm Hm' H0.
  assert (rtc (ustep 8 up_to_1MB) ([], small_heap) ([(r - HEADER, 14)], h)) as Hs.
  { eapply rtc_l; [|apply rtc_refl]. change 14 with (units 100). refine (u_malloc 8 up_to_1MB [] small_heap 100 r h _ E Hr). lia. }
  exists r, h. split; [exact Hs|]. split; [exact Hr|].
  destruct (umalloc_safe 8 up_to_1MB up_to_1MB_ok small_heap [(r - HEADER, 14)] h) as (_ & _ & H1 & H2); [reflexivity|lia|split; [vm_compute; discriminate|reflexivity]|exact Hs|].
  split; [|exact (H2 (r - HEADER) 14 [] (Permutation_refl _))]. eapply wp_mono; [exact (H1 50 ltac:(lia))|]. intros r' h' H. exact (proj1 H).
Defined.
