(* ===== verification/Grep.v ===== *)
(** * The pattern search of xv6 (grep.c)

    The matcher of patterns with [^], [$], [.] and [*] against its meaning as a language, and
    the loop that reads a file into a buffer of 1024 bytes and prints the lines that match. *)

From S2P Require Import Prelude CStr.

Definition STAR : Z := 42.
Definition DOT : Z := 46.
Definition DOLLAR : Z := 36.
Definition CARET : Z := 94.

(** [matchstar] is the loop inside [matchhere], over the pattern behind the star. *)
Fixpoint matchhere (re text : list Z) {struct re} : bool :=
  match re with
  | [] => true
  | c :: re1 =>
      match re1 with
      | s :: re2 =>
          if s =? STAR then
            (fix matchstar (text : list Z) : bool :=
              if matchhere re2 text then true
              else match text with
                   | [] => false
                   | x :: text' => if (x =? c) || (c =? DOT) then matchstar text' else false
                   end) text
          else
            match text with
            | [] => false
            | x :: text' => if (c =? DOT) || (c =? x) then matchhere re1 text' else false
            end
      | [] =>
          if c =? DOLLAR then match text with [] => true | _ => false end
          else
            match text with
            | [] => false
            | x :: text' => if (c =? DOT) || (c =? x) then matchhere re1 text' else false
            end
      end
  end.

(** The loop of [match] over the starts of the text. *)
Fixpoint match_from (re text : list Z) : bool :=
  if matchhere re text then true
  else match text with [] => false | _ :: text' => match_from re text' end.
Definition match_ (re text : list Z) : bool :=
  match re with
  | c :: re' => if c =? CARET then matchhere re' text else match_from re text
  | [] => match_from re text
  end.

(** ** The lines of a file *)

Definition BUF : nat := 1024.

(** [strchr(p, '\n')]: the line and what follows it. *)
Fixpoint next_line (p : list Z) : option (list Z * list Z) :=
  match p with
  | [] => None
  | c :: p' =>
      if c =? 0 then None
      else if c =? LF then Some ([], p')
      else '(l, r) ← next_line p'; Some (c :: l, r)
  end.

(** The inner loop: what is written and the rest of the buffer. *)
Fixpoint print_lines (fuel : nat) (pattern p : list Z) : option (list Z * list Z) :=
  match fuel with
  | O => None
  | S f =>
      match next_line p with
      | None => Some ([], p)
      | Some (l, r) =>
          '(out, rest) ← print_lines f pattern r;
          Some ((if match_ pattern l then l ++ [LF] else []) ++ out, rest)
      end
  end.

(** The buffer and the rest of the file; [read] fills what it can. *)
Fixpoint grep (fuel : nat) (pattern buf file : list Z) : option (list Z) :=
  match fuel with
  | O => None
  | S f =>
      let n := (BUF - length buf - 1)%nat in
      let bs := take n file in
      if (length bs =? 0)%nat then Some []
      else
        let buf := buf ++ bs in
        '(out, p) ← print_lines (S (length buf)) pattern buf;
        (* m = 0 when no line has ended *)
        let buf := if (length p =? length buf)%nat then [] else p in
        more ← grep f pattern buf (drop n file);
        Some (out ++ more)
  end.

(** ** The language of a pattern *)

(** The pattern byte [c] stands for the byte [x]. *)
Definition stands_for (c x : Z) : Prop := c = DOT \/ c = x.

(** [lang re w rest]: the pattern describes [w] when [rest] follows it in the text. *)
Inductive lang : list Z -> list Z -> list Z -> Prop :=
| lang_nil rest : lang [] [] rest
| lang_star c re u w rest : Forall (stands_for c) u -> lang re w rest -> lang (c :: STAR :: re) (u ++ w) rest
| lang_end : lang [DOLLAR] [] []
| lang_char c x re w rest : stands_for c x -> head re <> Some STAR -> ~ (c = DOLLAR /\ re = []) -> lang re w rest ->
    lang (c :: re) (x :: w) rest.

(** A text has a match of the pattern, at its start when the pattern begins with [^]. *)
Definition matches (re text : list Z) : Prop :=
  match re with
  | c :: re' =>
      if c =? CARET then exists w rest, text = w ++ rest /\ lang re' w rest
      else exists pre w rest, text = pre ++ w ++ rest /\ lang re w rest
  | [] => True
  end.

(** ** Theorems *)

Lemma lang_star_inv c re w rest : lang (c :: STAR :: re) w rest -> exists u w', w = u ++ w' /\ Forall (stands_for c) u /\ lang re w' rest.
Proof. inversion 1; subst; [by eexists _, _|by match goal with H : head _ <> _ |- _ => destruct H end]. Qed.
Lemma lang_char_inv c re w rest : head re <> Some STAR -> ~ (c = DOLLAR /\ re = []) -> lang (c :: re) w rest ->
  exists x w', w = x :: w' /\ stands_for c x /\ lang re w' rest.
Proof. intros Hh Hd. inversion 1; subst; [by destruct Hh|by destruct Hd|by eexists _, _]. Qed.

Lemma matchstar_spec c re2 text : (forall t, matchhere re2 t = true <-> exists w rest, t = w ++ rest /\ lang re2 w rest) ->
  matchhere (c :: STAR :: re2) text = true <-> exists w rest, text = w ++ rest /\ lang (c :: STAR :: re2) w rest.
Proof.
  intros H2. cbn [matchhere]. change (STAR =? STAR) with true. cbv iota. induction text as [|x text IH].
  - split.
    + intros H. destruct (matchhere re2 []) eqn:E; [|done]. apply H2 in E as (w & rest & Et & Hl). exists w, rest. split; [done|]. by apply (lang_star c re2 []).
    + intros (w & rest & Et & Hl). destruct w, rest; try done. destruct (matchhere re2 []) eqn:E; [done|]. apply not_true_iff_false in E. exfalso. apply E, H2.
      exists [], []. split; [done|]. apply lang_star_inv in Hl as (u & w & Eu & _ & Hw). symmetry in Eu. by apply app_eq_nil in Eu as [-> ->].
  - split.
    + intros H. destruct (matchhere re2 (x :: text)) eqn:E; [apply H2 in E as (w & rest & -> & Hl); exists w, rest; split; [done|]; by apply (lang_star c re2 [])|].
      destruct ((x =? c) || (c =? DOT)) eqn:Ex; [|done]. apply IH in H as (w & rest & -> & Hl). exists (x :: w), rest. split; [done|].
      apply lang_star_inv in Hl as (u & w' & -> & Hu & Hw). apply (lang_star c re2 (x :: u)); [|done]. constructor; [|done].
      apply orb_true_iff in Ex as [Ex%Z.eqb_eq|Ex%Z.eqb_eq]; [right; congruence|by left].
    + intros (w & rest & Et & Hl). destruct (matchhere re2 (x :: text)) eqn:E; [done|]. apply lang_star_inv in Hl as (u & w' & -> & Hu & Hw).
      destruct u as [|y u]; [exfalso; apply not_true_iff_false in E; apply E, H2; exists w', rest; by split|]. injection Et as <- Et.
      apply Forall_cons in Hu as [Hx Hu]. assert ((x =? c) || (c =? DOT) = true) as -> by (destruct Hx as [->| ->]; [apply orb_true_r|by rewrite Z.eqb_refl]).
      apply IH. exists (u ++ w'), rest. split; [by rewrite Et, <-app_assoc|]. by constructor.
Qed.

Lemma matchhere_lang re : forall text, matchhere re text = true <-> exists w rest, text = w ++ rest /\ lang re w rest.
Proof.
  remember (length re) as n eqn:En. revert re En. induction (lt_wf n) as [n _ IH]. intros re -> text. destruct re as [|c re1].
  { split; [|done]. intros _. exists [], text. split; [done|constructor]. }
  assert (IH1 : forall t, matchhere re1 t = true <-> exists w rest, t = w ++ rest /\ lang re1 w rest) by (eapply IH; [|done]; simpl; lia).
  assert (Hchar : head re1 <> Some STAR -> ~ (c = DOLLAR /\ re1 = []) ->
    match text with [] => false | x :: text' => if (c =? DOT) || (c =? x) then matchhere re1 text' else false end = true <->
    exists w rest, text = w ++ rest /\ lang (c :: re1) w rest).
  { intros Hh Hd. split.
    - destruct text as [|x text]; [done|]. destruct ((c =? DOT) || (c =? x)) eqn:Ex; [|done]. intros (w & rest & -> & Hl)%IH1. exists (x :: w), rest. split; [done|].
      apply orb_true_iff in Ex. rewrite !Z.eqb_eq in Ex. by constructor.
    - intros (w & rest & -> & Hl). apply lang_char_inv in Hl as (x & w' & -> & Hx & Hw); [|done|done]. cbn [app].
      assert ((c =? DOT) || (c =? x) = true) as -> by (destruct Hx as [->| ->]; [done|rewrite Z.eqb_refl; apply orb_true_r]). apply IH1. by exists w', rest. }
  destruct re1 as [|s re2].
  - cbn [matchhere]. destruct (Z.eqb_spec c DOLLAR) as [->|Hc].
    + split; [destruct text; [|done]; intros _; exists [], []; split; [done|constructor]|]. intros (w & rest & -> & Hl).
      inversion Hl; subst; [done|by match goal with H : ~ (DOLLAR = DOLLAR /\ _) |- _ => destruct H end].
    + apply Hchar; [done|]. by intros [? _].
  - destruct (Z.eqb_spec s STAR) as [->|Hs].
    + apply matchstar_spec. eapply IH; [|done]. simpl. lia.
    + cbn [matchhere]. rewrite (proj2 (Z.eqb_neq _ _) Hs). apply Hchar; [by intros [= ?]|by intros [_ ?]].
Qed.

Lemma match_from_lang re text : match_from re text = true <-> exists pre w rest, text = pre ++ w ++ rest /\ lang re w rest.
Proof.
  induction text as [|x text IH]; cbn [match_from]; destruct (matchhere re _) eqn:E.
  - apply matchhere_lang in E as (w & rest & Et & Hl). split; [|done]. intros _. by exists [], w, rest.
  - split; [done|]. intros (pre & w & rest & Et & Hl). destruct pre; [|done]. apply not_true_iff_false in E. exfalso. apply E, matchhere_lang. by exists w, rest.
  - apply matchhere_lang in E as (w & rest & -> & Hl). split; [|done]. intros _. by exists [], w, rest.
  - rewrite IH. split.
    + intros (pre & w & rest & -> & Hl). by exists (x :: pre), w, rest.
    + intros (pre & w & rest & Et & Hl). destruct pre as [|y pre]; [|injection Et as -> ->; by exists pre, w, rest].
      apply not_true_iff_false in E. exfalso. apply E, matchhere_lang. by exists w, rest.
Qed.

Lemma match_matches re text : match_ re text = true <-> matches re text.
Proof.
  destruct re as [|c re]; cbn.
  - split; [done|]. intros _. apply match_from_lang. exists [], [], text. split; [done|constructor].
  - destruct (c =? CARET); [apply matchhere_lang|apply match_from_lang].
Qed.

Definition lines (ls : list (list Z)) : list Z := concat (map (fun l => l ++ [LF]) ls).

Lemma next_line_spec p : NUL ∉ p -> match next_line p with
  | None => LF ∉ p
  | Some (l, r) => p = l ++ LF :: r /\ LF ∉ l
  end.
Proof.
  induction p as [|c p IH]; [intros _; apply not_elem_of_nil|]. intros [Hc Hp]%not_elem_of_cons. cbn [next_line].
  destruct (Z.eqb_spec c 0); [unfold NUL in Hc; lia|]. destruct (Z.eqb_spec c LF) as [->|Hn]; [split; [done|apply not_elem_of_nil]|].
  specialize (IH Hp). destruct (next_line p) as [[l r]|]; cbn.
  - destruct IH as [-> Hl]. split; [done|]. apply not_elem_of_cons. by split.
  - apply not_elem_of_cons. by split.
Qed.

Section search.
Variable pattern : list Z.
Definition found (l : list Z) : Prop := match_ pattern l = true.

Lemma print_lines_spec fuel p : NUL ∉ p -> (length p < fuel)%nat -> exists ls rest, p = lines ls ++ rest /\ LF ∉ rest /\ Forall (fun l => LF ∉ l) ls /\
  print_lines fuel pattern p = Some (lines (filter found ls), rest).
Proof using Type.
  revert p. induction fuel as [|f IH]; intros p Hp Hf; [lia|]. cbn [print_lines]. pose proof (next_line_spec p Hp) as Hn.
  destruct (next_line p) as [[l r]|].
  - destruct Hn as [-> Hl]. assert (NUL ∉ r) as Hr by (intros H; apply Hp, elem_of_app; right; by right).
    rewrite length_app in Hf. simpl in Hf. destruct (IH r Hr) as (ls & rest & -> & H1 & H2 & E); [lia|]. exists (l :: ls), rest. split_and!; [|done|by constructor|].
    + unfold lines. cbn. by rewrite <-!app_assoc.
    + rewrite E, filter_cons. unfold mbind, option_bind. f_equal. f_equal. unfold found.
      destruct (match_ pattern l); [done|]. by rewrite decide_False.
  - exists [], p. by split_and!.
Qed.

Lemma line_prefix (a b x y : list Z) : LF ∉ a -> LF ∉ b -> a ++ LF :: x = b ++ LF :: y -> a = b /\ x = y.
Proof using Type.
  revert b. induction a as [|c a IH]; intros [|d b] Ha Hb E; cbn in E; pose proof (f_equal head E) as E1; pose proof (f_equal tail E) as E2; cbn in E1, E2; apply (inj Some) in E1.
  - by subst.
  - exfalso. apply Hb. rewrite <-E1. left.
  - exfalso. apply Ha. rewrite E1. left.
  - apply not_elem_of_cons in Ha as [_ Ha]. apply not_elem_of_cons in Hb as [_ Hb]. by destruct (IH b Ha Hb E2) as [-> ->]; subst.
Qed.

(** Lines found in a part of the text are its first lines. *)
Lemma lines_prefix ls1 ls x tl : Forall (fun l => LF ∉ l) ls1 -> Forall (fun l => LF ∉ l) ls -> LF ∉ tl -> lines ls1 ++ x = lines ls ++ tl ->
  exists ls2, ls = ls1 ++ ls2 /\ x = lines ls2 ++ tl.
Proof using Type.
  revert ls. induction ls1 as [|l1 ls1 IH]; intros ls H1 H2 Ht E; [by exists ls|]. apply Forall_cons in H1 as [Hl1 H1]. unfold lines in E. cbn in E. rewrite <-!app_assoc in E.
  destruct ls as [|l ls].
  - cbn in E. exfalso. apply Ht. rewrite <-E. apply elem_of_app. right. left.
  - apply Forall_cons in H2 as [Hl H2]. cbn in E. rewrite <-!app_assoc in E. apply line_prefix in E as [-> E]; [|done|done].
    destruct (IH ls H1 H2 Ht E) as (ls2 & -> & ->). by exists ls2.
Qed.

Lemma filter_app_found ls1 ls2 : lines (filter found (ls1 ++ ls2)) = lines (filter found ls1) ++ lines (filter found ls2).
Proof using Type. unfold lines. by rewrite filter_app, map_app, concat_app. Qed.

(** One round of the loop of reads. *)
Lemma grep_step f buf file out p (n := (BUF - length buf - 1)%nat) : length (take n file) <> 0%nat ->
  print_lines (S (length (buf ++ take n file))) pattern (buf ++ take n file) = Some (out, p) ->
  grep (S f) pattern buf file = more ← grep f pattern (if (length p =? length (buf ++ take n file))%nat then [] else p) (drop n file); Some (out ++ more).
Proof using Type. intros Hn E. cbn [grep]. fold n. rewrite (proj2 (Nat.eqb_neq _ _) Hn), E. done. Qed.
Lemma grep_end f buf file : length (take (BUF - length buf - 1) file) = 0%nat -> grep (S f) pattern buf file = Some [].
Proof using Type. intros Hn. cbn [grep]. by rewrite (proj2 (Nat.eqb_eq _ _) Hn). Qed.

Lemma grep_spec : forall fuel buf file ls tl, NUL ∉ buf ++ file -> buf ++ file = lines ls ++ tl -> LF ∉ buf -> LF ∉ tl ->
  Forall (fun l => LF ∉ l /\ (length l < BUF - 1)%nat) ls -> (length tl < BUF - 1)%nat -> (length buf < BUF - 1)%nat -> (length file < fuel)%nat ->
  grep fuel pattern buf file = Some (lines (filter found ls)).
Proof using Type.
  induction fuel as [|f IH]; intros buf file ls tl H0 E Hb Ht Hls Htl Hbuf Hf; [lia|].
  assert (Forall (fun l => LF ∉ l) ls) as Hls' by (eapply Forall_impl; [exact Hls|]; by intros l [? _]).
  set (n := (BUF - length buf - 1)%nat). destruct (Nat.eqb_spec (length (take n file)) 0) as [Hz|Hnz].
  - assert (file = []) as -> by (destruct file; [done|]; rewrite length_take in Hz; unfold n, BUF in *; simpl in Hz; lia).
    rewrite app_nil_r in E. rewrite grep_end by done. destruct ls as [|l ls]; [done|]. exfalso. apply Hb. rewrite E. unfold lines. cbn. rewrite <-!app_assoc. apply elem_of_app. right. left.
  - assert (NUL ∉ buf ++ take n file) as H0'.
    { intros H. apply H0. rewrite <-(take_drop n file). rewrite app_assoc. apply elem_of_app. by left. }
    destruct (print_lines_spec (S (length (buf ++ take n file))) _ H0') as (ls1 & rest & E1 & Hr & Hls1 & Ep); [lia|]. rewrite (grep_step _ _ _ _ _ Hnz Ep). fold n.
    assert (lines ls1 ++ (rest ++ drop n file) = lines ls ++ tl) as E2 by (rewrite app_assoc, <-E1, <-app_assoc, take_drop; done).
    destruct (lines_prefix _ _ _ _ Hls1 Hls' Ht E2) as (ls2 & -> & E3). apply Forall_app in Hls as [Hla Hlb]. rewrite filter_app_found.
    assert (length (take n file) = n \/ drop n file = []) as Hfull.
    { destruct (le_lt_dec n (length file)); [left; rewrite length_take; lia|right; apply drop_ge; lia]. }
    assert (length (buf ++ take n file) = length (lines ls1) + length rest)%nat as El by (by rewrite E1, length_app).
    destruct (Nat.eqb_spec (length rest) (length (buf ++ take n file))) as [Heq|Hneq].
    + (* no line has ended: the file has *)
      assert (ls1 = []) as ->.
      { destruct ls1 as [|l ls1]; [done|]. exfalso. rewrite Heq in *. unfold lines in El. cbn [map concat] in El. rewrite !length_app in El. simpl in El. lia. }
      cbn [lines map concat app] in E1, E2, E3. assert (drop n file = []) as Hd.
      { destruct Hfull as [Hfull|]; [|done]. exfalso. assert (length rest = BUF - 1)%nat as Hlen by (rewrite Heq, length_app, Hfull; unfold n; lia).
        destruct ls2 as [|l ls2].
        - change (lines [] ++ tl) with tl in E3. assert (length (rest ++ drop n file) = length tl) as Hx by (by rewrite E3). rewrite length_app in Hx. lia.
        - apply Forall_cons in Hlb as [[_ Hl] _]. unfold lines in E3. cbn [map concat app] in E3. rewrite <-!app_assoc in E3. cbn [app] in E3.
          apply Hr. apply (list_elem_of_lookup_2 _ (length l)). assert ((rest ++ drop n file) !! length l = Some LF) as Hx.
          { rewrite E3. rewrite lookup_app_r by lia. by rewrite Nat.sub_diag. }
          by rewrite lookup_app_l in Hx by lia. }
      rewrite Hd, app_nil_r in *. destruct ls2 as [|l ls2].
      2:{ exfalso. apply Hr. rewrite E3. unfold lines. cbn. rewrite <-!app_assoc. apply elem_of_app. right. left. }
      destruct f as [|f]; [rewrite length_take in Hnz; lia|].  done.
    + rewrite (IH rest (drop n file) ls2 tl).
      * done.
      * rewrite E3. intros H. apply H0. rewrite E. unfold lines. rewrite map_app, concat_app, <-app_assoc. apply elem_of_app. by right.
      * done.
      * done.
      * done.
      * done.
      * done.
      * assert (length (take n file) <= n)%nat by (rewrite length_take; lia). rewrite length_app in *. unfold n in *. lia.
      * rewrite length_drop. rewrite length_take in Hnz. lia.
Qed.
End search.

(** C39: [grep] prints the lines that match. For a file without NUL whose lines fit the buffer,
    the loop of reads ends and writes, in order, exactly the lines in which the pattern has a
    match as a language: a star any number of bytes, a dot any byte, a dollar the end, a caret
    at the front the start of the line; a last line without newline is not searched. *)
Theorem grep_correct pattern ls tl : NUL ∉ lines ls ++ tl -> LF ∉ tl -> Forall (fun l => LF ∉ l /\ (length l < BUF - 1)%nat) ls -> (length tl < BUF - 1)%nat ->
  exists sel, grep (S (length (lines ls ++ tl))) pattern [] (lines ls ++ tl) = Some (lines sel) /\ sublist sel ls /\
    (forall l, l ∈ sel <-> l ∈ ls /\ matches pattern l) /\ sel = filter (fun l => match_ pattern l = true) ls.
Proof.
  intros H0 Ht Hls Htl. exists (filter (fun l => match_ pattern l = true) ls). split; [|split; [|split; [|done]]].
  - apply (grep_spec pattern _ [] _ ls tl); try done; [apply not_elem_of_nil|unfold BUF; simpl; lia|lia].
  - apply sublist_filter.
  - intros l. rewrite list_elem_of_filter. unfold found. rewrite match_matches. tauto.
Qed.

Definition sample_lines : list (list Z) := [str "a cat"; str "dog"; str "caat"].
Lemma grep_correct_witness : exists sel, grep (S (length (lines sample_lines ++ str "x"))) (str "ca*t$") [] (lines sample_lines ++ str "x") = Some (lines sel) /\
  (forall l, l ∈ sel <-> l ∈ sample_lines /\ matches (str "ca*t$") l) /\ sel = [str "a cat"; str "caat"].
Proof.
  destruct (grep_correct (str "ca*t$") sample_lines (str "x")) as (sel & H1 & _ & H2 & H3).
  - apply (bool_decide_unpack _). by vm_compute.
  - apply (bool_decide_unpack _). by vm_compute.
  - repeat constructor; try (apply (bool_decide_unpack _); by vm_compute); apply Nat.ltb_lt; by vm_compute.
  - apply Nat.ltb_lt. by vm_compute.
  - exists sel. split; [exact H1|]. split; [exact H2|]. rewrite H3. reflexivity.
Defined.

(** Without a newline in the buffer everything read so far is thrown away: a line of 1023 bytes
    is searched only behind them. *)
Example long_line_lost : grep 5 (str "a") [] (replicate 1023 97 ++ [LF]) = Some [] /\ match_ (str "a") (replicate 1023 97) = true.
Proof. by vm_compute. Qed.

(** A last line without newline is never searched. *)
Example last_line_not_searched : grep 5 (str "cat") [] (str "a cat") = Some [] /\ match_ (str "cat") (str "a cat") = true.
Proof. by vm_compute. Qed.
