(* ===== verification/Sh.v ===== *)
(** * The shell of xv6 (sh.c)

    A pointer into the command line is the rest of the line from there on; the parser runs on
    this rest as its state.  The strings of a parsed command are kept as the pair of positions
    [q], [eq] that the code keeps, until [nulterminate] writes the NUL behind each.  The code
    that runs a command is the tree of its system calls; the processes that execute it run
    concurrently, each with its descriptors, its children and what its parent may wait for. *)

From S2P Require Import Prelude CStr.

Definition MAXARGS : nat := 10.

(** From fcntl.h. *)
Definition O_RDONLY : Z := 0.
Definition O_WRONLY : Z := 1.
Definition O_RDWR : Z := 2.
Definition O_CREATE : Z := 512.

(** [struct cmd] and its five layouts; strings are values of [A]. *)
Inductive cmd (A : Type) : Type :=
| EXEC (argv : list A)
| REDIR (c : cmd A) (file : A) (mode fd : Z)
| PIPE (left right : cmd A)
| LIST (left right : cmd A)
| BACK (c : cmd A).
Arguments EXEC {A} _.
Arguments REDIR {A} _ _ _ _.
Arguments PIPE {A} _ _.
Arguments LIST {A} _ _.
Arguments BACK {A} _.

(** The same command with other strings. *)
Fixpoint cmd_map {A B} (f : A -> B) (c : cmd A) : cmd B :=
  match c with
  | EXEC argv => EXEC (map f argv)
  | REDIR c file mode fd => REDIR (cmd_map f c) (f file) mode fd
  | PIPE l r => PIPE (cmd_map f l) (cmd_map f r)
  | LIST l r => LIST (cmd_map f l) (cmd_map f r)
  | BACK c => BACK (cmd_map f c)
  end.

Definition whitespace : list Z := [32; 9; 13; 10; 11].
Definition symbols : list Z := str "<|>&;()".
Definition word_char (c : Z) : bool := negb (in_set whitespace c) && negb (in_set symbols c).

(** The token for a word, and the one for [>>]. *)
Definition WORD : Z := 97.
Definition APPEND : Z := 43.

(** A redirection: the file, its mode and the descriptor. *)
Abbreviation redir A := (A * Z * Z)%type.
(** [redircmd] around a command. *)
Definition redircmd {A} (c : cmd A) (r : redir A) : cmd A := let '(file, mode, fd) := r in REDIR c file mode fd.

(** ** The parser *)

Section parser.
(** The command line; [es] is its length. *)
Variable line : list Z.
Definition here (s : list Z) : nat := length line - length s.

(** [while(s < es && strchr(whitespace, *s)) s++;] *)
Definition skip (s : list Z) : list Z := snd (span (in_set whitespace) s).

(** The token, the start and the end of its text. *)
Definition gettoken : M (list Z) (Z * (nat * nat)) :=
  s <- gets skip ;;
  let '(tok, s') :=
    match s with
    | [] => (0, [])
    | c :: s1 =>
        if in_set (str "|();&<") c then (c, s1)
        else if c =? 62 then
          match s1 with
          | d :: s2 => if d =? 62 then (APPEND, s2) else (62, s1)
          | [] => (62, s1)
          end
        else (WORD, snd (span word_char s))
    end in
  modify (fun _ => skip s') ;;;
  ret (tok, (here s, here s')).

Definition peek (toks : list Z) : M (list Z) bool :=
  modify skip ;;;
  gets (fun s => match s with [] => false | c :: _ => in_set toks c end).

(** The redirections are returned and put around their command by the caller, because the
    arguments of a simple command go on being entered in the innermost command. *)
Fixpoint parseredirs (fuel : nat) : M (list Z) (list (redir (nat * nat))) :=
  match fuel with
  | O => fun _ => Timeout
  | S f =>
      b <- peek (str "<>") ;;
      if b then
        t <- gettoken ;;
        w <- gettoken ;;
        panic_if (negb (fst w =? WORD)) "missing file for redirection" ;;;
        let r := if fst t =? 60 then (snd w, O_RDONLY, 0) else (snd w, Z.lor O_WRONLY O_CREATE, 1) in
        rs <- parseredirs f ;;
        ret (r :: rs)
      else ret []
  end.

(** The loop of [parseexec]: [argv] and the redirections so far. *)
Fixpoint exec_loop (fuel : nat) (argv : list (nat * nat)) (rs : list (redir (nat * nat))) : M (list Z) (list (nat * nat) * list (redir (nat * nat))) :=
  match fuel with
  | O => fun _ => Timeout
  | S f =>
      b <- peek (str "|)&;") ;;
      if b then ret (argv, rs)
      else
        t <- gettoken ;;
        if fst t =? 0 then ret (argv, rs)
        else
          panic_if (negb (fst t =? WORD)) "syntax" ;;;
          let argv := argv ++ [snd t] in
          panic_if (MAXARGS <=? length argv)%nat "too many args" ;;;
          rs' <- parseredirs f ;;
          exec_loop f argv (rs ++ rs')
  end.

(** The loop of [parseline] over the ampersands. *)
Fixpoint back_loop (fuel : nat) (c : cmd (nat * nat)) : M (list Z) (cmd (nat * nat)) :=
  match fuel with
  | O => fun _ => Timeout
  | S f => b <- peek (str "&") ;; if b then gettoken ;;; back_loop f (BACK c) else ret c
  end.

(** The functions of the grammar call each other; the others take [parseline] as an argument. *)
Definition parseblock (fuel : nat) (parseline : M (list Z) (cmd (nat * nat))) : M (list Z) (cmd (nat * nat)) :=
  b <- peek (str "(") ;;
  panic_if (negb b) "parseblock" ;;;
  gettoken ;;;
  c <- parseline ;;
  b <- peek (str ")") ;;
  panic_if (negb b) "syntax - missing )" ;;;
  gettoken ;;;
  rs <- parseredirs fuel ;;
  ret (fold_left redircmd rs c).

Definition parseexec (fuel : nat) (parseline : M (list Z) (cmd (nat * nat))) : M (list Z) (cmd (nat * nat)) :=
  b <- peek (str "(") ;;
  if b then parseblock fuel parseline
  else
    rs <- parseredirs fuel ;;
    r <- exec_loop fuel [] rs ;;
    ret (fold_left redircmd (snd r) (EXEC (fst r))).

Fixpoint parsepipe (fuel : nat) (parseline : M (list Z) (cmd (nat * nat))) : M (list Z) (cmd (nat * nat)) :=
  match fuel with
  | O => fun _ => Timeout
  | S f =>
      c <- parseexec f parseline ;;
      b <- peek (str "|") ;;
      if b then gettoken ;;; r <- parsepipe f parseline ;; ret (PIPE c r)
      else ret c
  end.

Fixpoint parseline (fuel : nat) : M (list Z) (cmd (nat * nat)) :=
  match fuel with
  | O => fun _ => Timeout
  | S f =>
      c <- parsepipe f (parseline f) ;;
      c <- back_loop f c ;;
      b <- peek (str ";") ;;
      if b then gettoken ;;; r <- parseline f ;; ret (LIST c r)
      else ret c
  end.
End parser.

(** The ends at which [nulterminate] writes, in order. *)
Definition put_nul (buf : list Z) (p : nat * nat) : list Z := <[snd p := NUL]> buf.
Fixpoint nulterminate (c : cmd (nat * nat)) (buf : list Z) : list Z :=
  match c with
  | EXEC argv => fold_left put_nul argv buf
  | REDIR c file _ _ => put_nul (nulterminate c buf) file
  | PIPE l r => nulterminate r (nulterminate l buf)
  | LIST l r => nulterminate r (nulterminate l buf)
  | BACK c => nulterminate c buf
  end.

(** The string a pointer of the parsed command points to. *)
Definition string_at (buf : list Z) (p : nat * nat) : list Z := default [] (cstr (drop (fst p) buf)).

(** The command, whose strings lie in the line with its NULs. *)
Definition parsecmd (line : list Z) : outcome (list Z) (cmd (list Z)) :=
  (c <- parseline line (length line + 4) ;;
   peek [] ;;;
   s <- gets id ;;
   panic_if (negb (length s =? 0)%nat) "syntax" ;;;
   let buf := nulterminate c (line ++ [NUL]) in
   ret (cmd_map (string_at buf) c)) line.

(** ** Processes *)

Definition NOFILE : nat := 16.

(** What a descriptor stands for; pipes are numbered as they are made. *)
Inductive obj := File (name : list Z) (mode : Z) | ReadEnd (n : nat) | WriteEnd (n : nat).
Abbreviation table := (list (option obj)).

(** The rest of the code of a process: its next system call, with what it does on each result. *)
Inductive code :=
| Exit
| Exec (argv : list (list Z)) (failed : code)
| Fork (child parent failed : code)
| Wait (k : code)
| Close (fd : Z) (k : code)
| Open (file : list Z) (mode : Z) (k : Z -> code)
| Dup (fd : Z) (k : Z -> code)
| Pipe (k : option (Z * Z) -> code)
| Chdir (path : list Z) (k : code)
| OutOfFuel.

(** What the world sees: programs that start with their descriptors and that end, and changes of
    the directory. *)
Inductive event := Launch (argv : list (list Z)) (fds : table) | Ended (argv : list (list Z)) | ChangeDir (path : list Z).

(** The least free descriptor. *)
Definition fdalloc (o : obj) (t : table) : option (Z * table) :=
  match list_find (fun x => x = None) t with
  | Some (fd, _) => Some (Z.of_nat fd, <[fd := Some o]> t)
  | None => None
  end.
Definition close (fd : Z) (t : table) : table := <[Z.to_nat fd := None]> t.
Definition dup (fd : Z) (t : table) : Z * table :=
  match t !! Z.to_nat fd with
  | Some (Some o) => default (-1, t) (fdalloc o t)
  | _ => (-1, t)
  end.
Definition pipe (n : nat) (t : table) : option (Z * Z * table) :=
  match fdalloc (ReadEnd n) t with
  | None => None
  | Some (p0, t1) =>
      match fdalloc (WriteEnd n) t1 with
      | None => None
      | Some (p1, t2) => Some (p0, p1, t2)
      end
  end.

(** A system call of one process on its own descriptors; [n] pipes have been made.  A file that
    cannot be opened and a pipe that cannot be had are failures at any time. *)
Inductive call : code -> table -> nat -> option event -> code -> table -> nat -> Prop :=
| call_close fd k t n : call (Close fd k) t n None k (close fd t) n
| call_open file mode k t n fd t' : fdalloc (File file mode) t = Some (fd, t') -> call (Open file mode k) t n None (k fd) t' n
| call_open_fails file mode k t n : call (Open file mode k) t n None (k (-1)) t n
| call_dup fd k t n : call (Dup fd k) t n None (k (fst (dup fd t))) (snd (dup fd t)) n
| call_pipe k t n p0 p1 t' : pipe n t = Some (p0, p1, t') -> call (Pipe k) t n None (k (Some (p0, p1))) t' (S n)
| call_pipe_fails k t n : call (Pipe k) t n None (k None) t n
| call_chdir path k t n : call (Chdir path k) t n (Some (ChangeDir path)) k t n
| call_exec_fails argv k t n : call (Exec argv k) t n None k t n.

(** A process with its children: it runs the shell's code or a program, or has ended and was not
    waited for. *)
Inductive status := Run (c : code) | User (argv : list (list Z)) | Zombie.
Inductive process := Proc (st : status) (t : table) (children : list process).

(** A step of a process or of one of its descendants; it may leave orphans.  [fork] gives the
    child a copy of the descriptors; [wait] blocks while there are children and none has ended,
    and takes any of those that have. *)
Inductive pstep : process -> nat -> option event -> process -> list process -> nat -> Prop :=
| ps_call c t cs n ev c' t' n' : call c t n ev c' t' n' -> pstep (Proc (Run c) t cs) n ev (Proc (Run c') t' cs) [] n'
| ps_exec argv k t cs n : pstep (Proc (Run (Exec argv k)) t cs) n (Some (Launch argv t)) (Proc (User argv) t cs) [] n
| ps_fork child parent failed t cs n :
    pstep (Proc (Run (Fork child parent failed)) t cs) n None (Proc (Run parent) t (cs ++ [Proc (Run child) t []])) [] n
| ps_fork_fails child parent failed t cs n : pstep (Proc (Run (Fork child parent failed)) t cs) n None (Proc (Run failed) t cs) [] n
| ps_wait k t c1 t' c2 n : pstep (Proc (Run (Wait k)) t (c1 ++ Proc Zombie t' [] :: c2)) n None (Proc (Run k) t (c1 ++ c2)) [] n
| ps_wait_none k t n : pstep (Proc (Run (Wait k)) t []) n None (Proc (Run k) t []) [] n
| ps_exit t cs n : pstep (Proc (Run Exit) t cs) n None (Proc Zombie t []) cs n
| ps_end argv t cs n : pstep (Proc (User argv) t cs) n (Some (Ended argv)) (Proc Zombie t []) cs n
| ps_child st t c1 p c2 n ev p' os n' : pstep p n ev p' os n' ->
    pstep (Proc st t (c1 ++ p :: c2)) n ev (Proc st t (c1 ++ p' :: c2)) os n'.

(** The shell's process, the orphans (children of the first process), and the pipes made. *)
Record system := System { s_shell : process; s_orphans : list process; s_pipes : nat }.
Inductive sstep : system -> option event -> system -> Prop :=
| st_shell p os n ev p' os' n' : pstep p n ev p' os' n' -> sstep (System p os n) ev (System p' (os ++ os') n')
| st_orphan p o1 q o2 n ev q' os' n' : pstep q n ev q' os' n' ->
    sstep (System p (o1 ++ q :: o2) n) ev (System p (o1 ++ q' :: o2 ++ os') n').

(** ** Running commands *)

(** [if(fork1() == 0) child; parent]: the child does not return; when fork fails, panic() ends
    the process. *)
Definition fork1 (child parent : code) : code := Fork child parent Exit.

Fixpoint runcmd (c : cmd (list Z)) : code :=
  match c with
  | EXEC [] => Exit
  | EXEC argv => Exec argv Exit
  | REDIR c file mode fd =>
      Close fd (Open file mode (fun r => if r <? 0 then Exit else runcmd c))
  | LIST l r => fork1 (runcmd l) (Wait (runcmd r))
  | PIPE l r =>
      Pipe (fun p =>
        match p with
        | None => Exit
        | Some (p0, p1) =>
            fork1 (Close 1 (Dup p1 (fun _ => Close p0 (Close p1 (runcmd l)))))
              (fork1 (Close 0 (Dup p0 (fun _ => Close p0 (Close p1 (runcmd r)))))
                (Close p0 (Close p1 (Wait (Wait Exit)))))
        end)
  | BACK c => fork1 (runcmd c) Exit
  end.

(** ** The main loop *)

(** [gets] of the user library: at most [max - 1] bytes, up to the end of the line. *)
Fixpoint gets_line (max : nat) (input : list Z) : list Z * list Z :=
  match max, input with
  | S (S _ as max), c :: input' =>
      if (c =? LF) || (c =? CR) then ([c], input')
      else let '(l, r) := gets_line max input' in (c :: l, r)
  | _, _ => ([], input)
  end.

Definition CMDLEN : nat := 100.

(** The line in the buffer and the input left, or -1 at the end of the input. *)
Definition getcmd (input : list Z) : option (list Z * list Z) :=
  let '(l, r) := gets_line CMDLEN input in
  match default [] (cstr (l ++ [NUL])) with
  | [] => None
  | buf => Some (buf, r)
  end.

(** [while((fd = open("console", O_RDWR)) >= 0)] *)
Fixpoint open_console (fuel : nat) (k : code) : code :=
  match fuel with
  | O => OutOfFuel
  | S f =>
      Open (str "console") O_RDWR (fun fd =>
        if fd <? 0 then k
        else if 3 <=? fd then Close fd k
        else open_console f k)
  end.

Fixpoint main_loop (fuel : nat) (input : list Z) : code :=
  match fuel with
  | O => OutOfFuel
  | S f =>
      match getcmd input with
      | None => Exit
      | Some (buf, input') =>
          if starts_with (str "cd ") buf then Chdir (drop 3 (take (length buf - 1) buf)) (main_loop f input')
          else
            fork1
              (match parsecmd buf with
               | Ret c _ => runcmd c
               | _ => Exit
               end)
              (Wait (main_loop f input'))
      end
  end.

Definition main (input : list Z) : code := open_console (S NOFILE) (main_loop (S (length input)) input).
