(* ===== verification/ShParse.v ===== *)
(** * The parser of the shell accepts exactly its grammar

    The command language as a grammar on tokens: lines of pipelines with ampersands and
    semicolons, pipelines of simple commands and blocks, redirections in between.  The parser
    returns the command of a derivation when there is one, and otherwise panics. *)

From S2P Require Import Prelude CStr Sh.

(** ** Specification *)

(** Words and the other symbols, [>>] as [APPEND]. *)
Inductive token := W (w : list Z) | T (c : Z).

(** A line spells a list of tokens. *)
Inductive spells : list Z -> list token -> Prop :=
| spells_nil : spells [] []
| spells_space c s ts : in_set whitespace c = true -> spells s ts -> spells (c :: s) ts
| spells_symbol c s ts : in_set (str "|();&<") c = true -> spells s ts -> spells (c :: s) (T c :: ts)
| spells_out s ts : head s <> Some 62 -> spells s ts -> spells (62 :: s) (T 62 :: ts)
| spells_append s ts : spells s ts -> spells (62 :: 62 :: s) (T APPEND :: ts)
| spells_word w s ts : w <> [] -> Forall (fun c => word_char c = true) w -> match s with c :: _ => word_char c = false | [] => True end ->
    spells s ts -> spells (w ++ s) (W w :: ts).

Definition command := cmd (list Z).

(** The mode and the descriptor of a redirection. *)
Definition redir_of (c : Z) : option (Z * Z) :=
  if c =? 60 then Some (O_RDONLY, 0)
  else if (c =? 62) || (c =? APPEND) then Some (Z.lor O_WRONLY O_CREATE, 1)
  else None.

Inductive g_redirs : list token -> list (redir (list Z)) -> Prop :=
| g_redirs_nil : g_redirs [] []
| g_redirs_cons c w m fd ts rs : redir_of c = Some (m, fd) -> g_redirs ts rs -> g_redirs (T c :: W w :: ts) ((w, m, fd) :: rs).
(** Arguments and redirections in any order. *)
Inductive g_args : list token -> list (list Z) -> list (redir (list Z)) -> Prop :=
| g_args_nil : g_args [] [] []
| g_args_word w ts ws rs : g_args ts ws rs -> g_args (W w :: ts) (w :: ws) rs
| g_args_redir c w m fd ts ws rs : redir_of c = Some (m, fd) -> g_args ts ws rs -> g_args (T c :: W w :: ts) ws ((w, m, fd) :: rs).

Definition amps (n : nat) : list token := replicate n (T 38).
Definition backs (n : nat) (c : command) : command := Nat.iter n BACK c.

Inductive g_line : list token -> command -> Prop :=
| g_line_one ts n c : g_pipe ts c -> g_line (ts ++ amps n) (backs n c)
| g_line_seq ts n c ts' c' : g_pipe ts c -> g_line ts' c' -> g_line (ts ++ amps n ++ T 59 :: ts') (LIST (backs n c) c')
with g_pipe : list token -> command -> Prop :=
| g_pipe_one ts c : g_exec ts c -> g_pipe ts c
| g_pipe_more ts c ts' c' : g_exec ts c -> g_pipe ts' c' -> g_pipe (ts ++ T 124 :: ts') (PIPE c c')
with g_exec : list token -> command -> Prop :=
| g_exec_simple ts ws rs : g_args ts ws rs -> (length ws < MAXARGS)%nat -> g_exec ts (fold_left redircmd rs (EXEC ws))
| g_exec_block ts c ts' rs : g_line ts c -> g_redirs ts' rs -> g_exec (T 40 :: ts ++ T 41 :: ts') (fold_left redircmd rs c).

Scheme g_line_mut := Minimality for g_line Sort Prop
with g_pipe_mut := Minimality for g_pipe Sort Prop
with g_exec_mut := Minimality for g_exec Sort Prop.
Combined Scheme grammar_ind from g_line_mut, g_pipe_mut, g_exec_mut.

(** ** Computations that return or panic *)

Definition obeys {S A} (m : M S A) (Q : A -> S -> Prop) (s : S) : Prop :=
  match m s with
  | Ret a s' => Q a s'
  | Panic _ => True
  | _ => False
  end.

Section obeys.
Context {S : Type}.
Lemma obeys_bind {A B} (m : M S A) (k : A -> M S B) Q s : obeys m (fun a s' => obeys (k a) Q s') s -> obeys (bind m k) Q s.
Proof. unfold obeys, bind. by destruct (m s). Qed.
Lemma obeys_mono {A} (m : M S A) (Q Q' : A -> S -> Prop) s : obeys m Q s -> (forall a s', Q a s' -> Q' a s') -> obeys m Q' s.
Proof. unfold obeys. destruct (m s); by eauto. Qed.
Lemma obeys_wp {A} (m : M S A) (Q : A -> S -> Prop) s : wp m Q s -> obeys m Q s.
Proof. unfold obeys, wp. by destruct (m s). Qed.
Lemma obeys_panic_if c msg (Q : unit -> S -> Prop) s : (c = false -> Q tt s) -> obeys (panic_if c msg) Q s.
Proof. unfold obeys, panic_if. destruct c; [done|]. intros H. by apply H. Qed.
End obeys.

(** ** The lexer *)

(** The byte a token begins with, when it is a symbol. *)
Definition symbol_in (toks : list Z) (ts : list token) : bool :=
  match ts with T c :: _ => in_set toks (if c =? APPEND then 62 else c) | _ => false end.

Lemma in_set_In d c : in_set d c = true <-> c ∈ d.
Proof.
  unfold in_set. rewrite existsb_exists. split.
  - intros (x & Hx & E%Z.eqb_eq). subst. by apply list_elem_of_In.
  - intros H. exists c. split; [by apply list_elem_of_In|by apply Z.eqb_refl].
Qed.

Lemma symbol_values c : in_set symbols c = true -> c ∈ [60; 124; 62; 38; 59; 40; 41].
Proof. by rewrite in_set_In. Qed.
Lemma symbol_cases c : in_set symbols c = true -> in_set (str "|();&<") c = true \/ c = 62.
Proof. intros H%symbol_values. repeat (apply elem_of_cons in H as [->|H]; [by (left + right)|]). by apply elem_of_nil in H. Qed.
Lemma symbol_not_space c : in_set symbols c = true -> in_set whitespace c = false.
Proof. intros H%symbol_values. repeat (apply elem_of_cons in H as [->|H]; [done|]). by apply elem_of_nil in H. Qed.
Lemma single_symbol c : in_set (str "|();&<") c = true -> in_set symbols c = true /\ c <> APPEND /\ c <> 62.
Proof.
  intros H%in_set_In. change (c ∈ [124; 40; 41; 59; 38; 60]) in H. repeat (apply elem_of_cons in H as [->|H]; [done|]). by apply elem_of_nil in H.
Qed.
Lemma word_char_false c : word_char c = false <-> in_set whitespace c = true \/ in_set symbols c = true.
Proof. unfold word_char. destruct (in_set whitespace c), (in_set symbols c); naive_solver. Qed.
Lemma word_char_true c : word_char c = true <-> in_set whitespace c = false /\ in_set symbols c = false.
Proof. unfold word_char. destruct (in_set whitespace c), (in_set symbols c); naive_solver. Qed.

Lemma spells_total s : exists ts, spells s ts.
Proof.
  remember (length s) as n eqn:En. revert s En. induction (lt_wf n) as [n _ IH]. intros s ->. destruct s as [|c s]; [by exists []; constructor|].
  destruct (word_char c) eqn:Ew.
  - destruct (span word_char (c :: s)) as [w r] eqn:Es. destruct (span_spec _ _ _ _ Es) as (E & Hw & Hr). simpl in Es. rewrite Ew in Es.
    destruct (span word_char s) as [w' r'] eqn:Es'. injection Es as <- <-. injection E as ->. destruct (IH (length r')) with (s := r') as [ts Hts]; [simpl; rewrite length_app; lia|done|].
    exists (W (c :: w') :: ts). by apply (spells_word (c :: w')).
  - destruct (IH (length s)) with (s := s) as [ts Hts]; [simpl; lia|done|]. apply word_char_false in Ew as [Ew|Ew]; [exists ts; by constructor|].
    apply symbol_cases in Ew as [Ew| ->]; [exists (T c :: ts); by constructor|]. destruct (decide (head s = Some 62)) as [Hh|Hh]; [|exists (T 62 :: ts); by constructor].
    destruct s as [|d s]; [done|]. injection Hh as ->. destruct (IH (length s)) with (s := s) as [ts' Hts']; [simpl; lia|done|]. exists (T APPEND :: ts'). by constructor.
Qed.

Lemma skip_nospace c s : in_set whitespace c = false -> skip (c :: s) = c :: s.
Proof. intros H. unfold skip. cbn [span]. by rewrite H. Qed.
Lemma skip_space c s : in_set whitespace c = true -> skip (c :: s) = skip s.
Proof. intros H. unfold skip. cbn [span]. rewrite H. by destruct (span _ s). Qed.

(** The text of the first token stands at the front once spaces are skipped. *)
Definition first_is (s : list Z) (ts : list token) : Prop :=
  match ts with
  | [] => s = []
  | T c :: ts' => exists s', s = (if c =? APPEND then [62; 62] else [c]) ++ s' /\ (c = 62 -> head s' <> Some 62) /\ in_set symbols (if c =? APPEND then 62 else c) = true /\
      (c = APPEND \/ c = 62 \/ in_set (str "|();&<") c = true) /\ spells s' ts'
  | W w :: ts' => exists s', s = w ++ s' /\ w <> [] /\ Forall (fun c => word_char c = true) w /\ match s' with c :: _ => word_char c = false | [] => True end /\ spells s' ts'
  end.

Lemma skip_spec s ts : spells s ts -> exists ws, s = ws ++ skip s /\ spells (skip s) ts /\ first_is (skip s) ts /\ Forall (fun c => in_set whitespace c = true) ws.
Proof.
  induction 1 as [|c s ts Hc H IH|c s ts Hc H IH|s ts Hh H IH|s ts H IH|w s ts Hw Hf Hs H IH].
  - exists []. split_and!; try done. constructor.
  - destruct IH as (ws & E & H1 & H2 & H3). rewrite skip_space by done. exists (c :: ws). split_and!; [simpl; congruence|done|done|by constructor].
  - destruct (single_symbol c Hc) as (Hsy & Ha & Hg).
    rewrite skip_nospace by by apply symbol_not_space. exists []. split_and!; [done|by constructor| |done].
    exists s. rewrite (proj2 (Z.eqb_neq _ _) Ha). split_and!; try done. by right; right.
  - rewrite skip_nospace by done. exists []. split_and!; [done|by constructor| |done]. exists s. split_and!; try done. by right; left.
  - rewrite skip_nospace by done. exists []. split_and!; [done|by constructor| |done]. exists s. split_and!; try done. by left.
  - destruct w as [|c w]; [done|]. assert (word_char c = true) as Hc by by inversion Hf. apply word_char_true in Hc as [Hc _]. cbn [app]. rewrite skip_nospace by done.
    exists []. split_and!; [done|by apply (spells_word (c :: w))| |done]. exists s. by split_and!.
Qed.

(** ** Tokens of the line *)

Section line.
Variable line : list Z.
Abbreviation gettoken := (gettoken line).
Abbreviation here := (here line).

(** The text between two positions. *)
Definition word_of (p : nat * nat) : list Z := take (snd p - fst p) (drop (fst p) line).
(** Positions around a whole word. *)
Definition good_word (p : nat * nat) : Prop := exists a w b, line = a ++ w ++ b /\ p = (length a, length a + length w)%nat /\ w <> [] /\
  Forall (fun c => word_char c = true) w /\ match b with c :: _ => word_char c = false | [] => True end.

(** The parser stands before the tokens [ts]. *)
Definition before (ts : list token) (s : list Z) : Prop := (exists a, line = a ++ s) /\ spells s ts.

Lemma here_app a s : line = a ++ s -> here s = length a.
Proof using Type. intros ->. unfold Sh.here. rewrite length_app. lia. Qed.
Lemma before_skip ts s : before ts s -> before ts (skip s) /\ first_is (skip s) ts /\ (length (skip s) <= length s)%nat.
Proof using Type.
  intros [[a Ha] H]. destruct (skip_spec s ts H) as (ws & E & H1 & H2 & _). split_and!; [split; [|done]|done|].
  - exists (a ++ ws). rewrite <-app_assoc, <-E. done.
  - apply (f_equal length) in E. rewrite length_app in E. lia.
Qed.

Lemma peek_spec toks ts s : before ts s -> (forall c, in_set toks c = true -> in_set symbols c = true) ->
  wp (peek toks) (fun b s' => b = symbol_in toks ts /\ before ts s' /\ (length s' <= length s)%nat) s.
Proof using Type.
  intros Hb Ht. destruct (before_skip _ _ Hb) as (H1 & H2 & H3). unfold peek. wp_steps. split; [|done]. unfold first_is in H2. destruct ts as [|[w|c] ts].
  - by rewrite H2.
  - destruct H2 as (s' & -> & Hw & Hf & _). destruct w as [|c w]; [done|]. simpl. apply not_true_iff_false. intros Hc%Ht. inversion Hf as [|? ? Hc' _]. apply word_char_true in Hc' as [_ Hc']. congruence.
  - destruct H2 as (s' & -> & _). simpl. by destruct (c =? APPEND).
Qed.

Definition is_symbol (c : Z) : Prop := c = APPEND \/ in_set symbols c = true.
Lemma is_symbol_not_word c : is_symbol c -> (c =? WORD) = false /\ (c =? 0) = false.
Proof using Type.
  intros [->|H%symbol_values]; [done|]. repeat (apply elem_of_cons in H as [->|H]; [done|]). by apply elem_of_nil in H.
Qed.

(** What [gettoken] returns before the tokens [ts]. *)
Definition token_read (ts : list token) (s : list Z) (t : Z * (nat * nat)) (s' : list Z) : Prop :=
  match ts with
  | [] => fst t = 0 /\ before [] s' /\ (length s' <= length s)%nat
  | T c :: ts' => fst t = c /\ is_symbol c /\ before ts' s' /\ (length s' < length s)%nat
  | W w :: ts' => fst t = WORD /\ good_word (snd t) /\ word_of (snd t) = w /\ before ts' s' /\ (length s' < length s)%nat
  end.

Lemma gettoken_word a w s ts : line = a ++ w ++ s -> w <> [] -> Forall (fun c => word_char c = true) w -> match s with c :: _ => word_char c = false | [] => True end ->
  spells s ts -> good_word (here (w ++ s), here s) /\ word_of (here (w ++ s), here s) = w.
Proof using Type.
  intros E Hw Hf Hs Hsp. rewrite (here_app a) by done. rewrite (here_app (a ++ w)) by (by rewrite <-app_assoc). rewrite length_app. split.
  - exists a, w, s. by split_and!.
  - unfold word_of. simpl. rewrite E. replace (length a + length w - length a)%nat with (length w) by lia. by rewrite drop_app_length, take_app_length.
Qed.

Lemma gettoken_spec ts s : before ts s -> wp gettoken (token_read ts s) s.
Proof using Type.
  intros Hb. destruct (before_skip _ _ Hb) as ([[a Ha] Hsp] & H2 & H3). unfold Sh.gettoken. wp_steps. unfold first_is in H2. destruct ts as [|[w|c] ts].
  - rewrite H2. wp_steps. split; [done|]. split; [|simpl; lia]. split; [|constructor]. exists line. by rewrite app_nil_r.
  - destruct H2 as (s' & E & Hw & Hf & Hs & Hsp'). rewrite E in *. destruct (gettoken_word a w s' ts Ha Hw Hf Hs Hsp') as [Hg Hwo].
    destruct w as [|c w]; [done|]. assert (word_char c = true) as Hc by by inversion Hf. apply word_char_true in Hc as [_ Hc]. cbn [app].
    assert (in_set (str "|();&<") c = false) as -> by (apply not_true_iff_false; intros [H _]%single_symbol; congruence).
    destruct (Z.eqb_spec c 62) as [->|_]; [done|]. rewrite (span_stop _ (c :: w) s') by done. cbn [snd]. wp_steps.
    assert (before ts s') as Hb' by (split; [exists (a ++ c :: w); by rewrite Ha, <-app_assoc|done]). apply before_skip in Hb' as (Hb' & _ & Hl). cbn [app] in Ha.
    split_and!; try done. cbn [app length] in H3. rewrite length_app in H3. lia.
  - destruct H2 as (s' & E & Hg & Hsy & Hc & Hsp'). assert (before ts s') as Hb'.
    { split; [|done]. rewrite E in Ha. eexists. rewrite Ha, app_assoc. done. }
    apply before_skip in Hb' as (Hb' & _ & Hl). apply (f_equal length) in E as El. rewrite length_app in El. rewrite E.
    destruct Hc as [->|[->|Hc]].
    + change (APPEND =? APPEND) with true in El. wp_steps. split_and!; [done|by left|done|]. simpl in *. lia.
    + change (62 =? APPEND) with false in *. simpl. simpl in El. destruct s' as [|d s']; [wp_steps; split_and!; [done|by right|done|simpl in *; lia]|].
      destruct (Z.eqb_spec d 62) as [->|_]; [by destruct (Hg eq_refl)|]. wp_steps. split_and!; [done|by right|done|simpl in *; lia].
    + destruct (single_symbol c Hc) as (Hs & Ha' & _). rewrite (proj2 (Z.eqb_neq _ _) Ha') in *. cbn [app]. rewrite Hc. wp_steps. split_and!; [done|by right|done|simpl in *; lia].
Qed.
(** The strings of a command as positions, and the command they spell. *)
Fixpoint pieces (c : cmd (nat * nat)) : list (nat * nat) :=
  match c with
  | EXEC argv => argv
  | REDIR c file _ _ => file :: pieces c
  | PIPE l r | LIST l r => pieces l ++ pieces r
  | BACK c => pieces c
  end.
Definition good (c : cmd (nat * nat)) : Prop := Forall good_word (pieces c).
Definition spelled : cmd (nat * nat) -> command := cmd_map word_of.
Definition file (r : redir (nat * nat)) : nat * nat := fst (fst r).
Definition redir_words (r : redir (nat * nat)) : redir (list Z) := let '(p, m, fd) := r in (word_of p, m, fd).

Lemma spelled_redirs rs c : spelled (fold_left redircmd rs c) = fold_left redircmd (map redir_words rs) (spelled c).
Proof using Type. revert c. induction rs as [|[[p m] fd] rs IH]; intros c; [done|]. cbn. by rewrite IH. Qed.
Lemma good_redirs rs c : Forall good_word (map file rs) -> good c -> good (fold_left redircmd rs c).
Proof using Type.
  revert c. induction rs as [|[[p m] fd] rs IH]; intros c Hr Hc; [done|]. cbn. inversion Hr; subst. apply IH; [done|]. by constructor.
Qed.
Lemma spelled_backs n c : spelled (Nat.iter n BACK c) = backs n (spelled c).
Proof using Type. induction n as [|n IH]; [done|]. change (BACK (spelled (Nat.iter n BACK c)) = BACK (backs n (spelled c))). by rewrite IH. Qed.
Lemma good_backs n c : good (Nat.iter n BACK c) <-> good c.
Proof using Type. induction n as [|n IH]; [done|]. done. Qed.

Lemma symbol_in_one x ts : x <> 62 -> symbol_in [x] ts = true -> exists ts', ts = T x :: ts'.
Proof using Type.
  intros Hx H. destruct ts as [|[w|c] ts]; try done. exists ts. simpl in H. rewrite orb_false_r in H. apply Z.eqb_eq in H. by destruct (c =? APPEND); subst.
Qed.
Lemma symbol_in_redir ts : symbol_in (str "<>") ts = true -> exists c m fd ts', ts = T c :: ts' /\ redir_of c = Some (m, fd) /\
  forall p, (if c =? 60 then (p, O_RDONLY, 0) else (p, Z.lor O_WRONLY O_CREATE, 1)) = (p : nat * nat, m, fd).
Proof using Type.
  intros H. destruct ts as [|[w|c] ts]; try done. cbn in H. rewrite orb_false_r in H. unfold redir_of. destruct (Z.eqb_spec c 60) as [->|Hc]; [by eexists _, _, _, _|].
  exists c, (Z.lor O_WRONLY O_CREATE), 1, ts. rewrite (proj2 (Z.eqb_neq c 60) Hc). split; [done|]. split; [|done].
  destruct (Z.eqb_spec c APPEND) as [->|Ha]; [done|]. apply orb_true_iff in H as [H%Z.eqb_eq|H%Z.eqb_eq]; [done|by subst].
Qed.

Lemma g_redirs_args rts rs ats ws rs' : g_redirs rts rs -> g_args ats ws rs' -> g_args (rts ++ ats) ws (rs ++ rs').
Proof using Type. induction 1; [done|]. intros H'. cbn. constructor; [done|]. by apply IHg_redirs. Qed.

(** ** Soundness *)

Ltac peeks H := apply obeys_bind; apply obeys_wp; eapply wp_mono; [by apply peek_spec, H|]; cbv beta.
Ltac gets_token H := apply obeys_bind; apply obeys_wp; eapply wp_mono; [by apply gettoken_spec, H|]; cbv beta.

Lemma subset_symbols toks : forallb (fun c => in_set symbols c) toks = true -> forall c, in_set toks c = true -> in_set symbols c = true.
Proof using Type. intros H c Hc%in_set_In. rewrite forallb_forall in H. apply H. by apply list_elem_of_In. Qed.

Lemma parseredirs_sound fuel : forall s ts, before ts s -> (length s < fuel)%nat -> obeys (parseredirs line fuel) (fun rs s' => exists rts ts',
  ts = rts ++ ts' /\ g_redirs rts (map redir_words rs) /\ Forall good_word (map file rs) /\ before ts' s' /\ (length s' <= length s)%nat) s.
Proof using Type.
  induction fuel as [|f IH]; intros s ts Hb Hf; [lia|]. cbn [parseredirs]. apply obeys_bind, obeys_wp.
  eapply wp_mono; [apply (peek_spec _ ts); [done|by apply subset_symbols]|]. cbv beta. intros b s1 (-> & Hb1 & Hl1). destruct (symbol_in _ ts) eqn:Es.
  - destruct (symbol_in_redir _ Es) as (c & m & fd & ts1 & -> & Hr & Hif). apply obeys_bind, obeys_wp. eapply wp_mono; [by apply gettoken_spec|]. intros t s2 (<- & _ & Hb2 & Hl2).
    apply obeys_bind, obeys_wp. eapply wp_mono; [by apply gettoken_spec|]. intros w s3 Hw. apply obeys_bind, obeys_panic_if. intros HW.
    apply negb_false_iff, Z.eqb_eq in HW. destruct ts1 as [|[v|c] ts1]; cbn in Hw.
    + destruct Hw as [Hw _]. by rewrite HW in Hw.
    + destruct Hw as (_ & Hg & Hv & Hb3 & Hl3). rewrite Hif. apply obeys_bind. eapply obeys_mono; [apply (IH s3 ts1); [done|lia]|].
      intros rs s4 (rts & ts' & -> & Hgr & Hfa & Hb4 & Hl4). cbn. exists (T (fst t) :: W v :: rts), ts'. split_and!; try done; [|by constructor|lia].
      cbn. rewrite Hv. by constructor.
    + destruct Hw as (Hc & Hs & _). rewrite HW in Hc. subst c. by apply is_symbol_not_word in Hs as [? _].
  - exists [], ts. split_and!; [done|constructor|constructor|done|lia].
Qed.

Lemma exec_loop_sound fuel : forall argv rs s ts, before ts s -> (length s < fuel)%nat -> (length argv < MAXARGS)%nat ->
  obeys (exec_loop line fuel argv rs) (fun r s' => exists ats ts' argv' rs', ts = ats ++ ts' /\ r = (argv ++ argv', rs ++ rs') /\
    g_args ats (map word_of argv') (map redir_words rs') /\ (length (argv ++ argv') < MAXARGS)%nat /\
    Forall good_word argv' /\ Forall good_word (map file rs') /\ before ts' s' /\ (length s' <= length s)%nat) s.
Proof using Type.
  induction fuel as [|f IH]; intros argv rs s ts Hb Hf Hn; [lia|]. cbn [exec_loop]. apply obeys_bind, obeys_wp.
  eapply wp_mono; [apply (peek_spec _ ts); [done|by apply subset_symbols]|]. cbv beta. intros b s1 (-> & Hb1 & Hl1).
  assert (Hend : forall s2, before ts s2 -> (length s2 <= length s)%nat -> exists ats ts' argv' rs', ts = ats ++ ts' /\ (argv, rs) = (argv ++ argv', rs ++ rs') /\
    g_args ats (map word_of argv') (map redir_words rs') /\ (length (argv ++ argv') < MAXARGS)%nat /\
    Forall good_word argv' /\ Forall good_word (map file rs') /\ before ts' s2 /\ (length s2 <= length s)%nat).
  { intros s2 H2 Hl2. exists [], ts, [], []. rewrite !app_nil_r. split_and!; try done; constructor. }
  destruct (symbol_in _ ts) eqn:Es; [by apply Hend|]. apply obeys_bind, obeys_wp. eapply wp_mono; [by apply gettoken_spec|]. intros t s2 Ht.
  destruct ts as [|[w|c] ts]; cbn in Ht.
  - destruct Ht as (-> & Hb2 & Hl2). apply Hend; [done|lia].
  - destruct Ht as (-> & Hg & Hw & Hb2 & Hl2). change (WORD =? 0) with false. cbv iota. apply obeys_bind, obeys_panic_if. intros _.
    apply obeys_bind, obeys_panic_if. intros Hm%Nat.leb_gt. apply obeys_bind. eapply obeys_mono; [apply (parseredirs_sound f s2 ts); [done|lia]|].
    intros rs1 s3 (rts & ts1 & -> & Hr1 & Hg1 & Hb3 & Hl3). cbv beta. eapply obeys_mono; [apply (IH _ _ s3 ts1); [done|lia|done]|].
    intros r s4 (ats & ts' & argv' & rs' & -> & -> & Ha & Hlen & Hg2 & Hg3 & Hb4 & Hl4). exists (W w :: rts ++ ats), ts', (snd t :: argv'), (rs1 ++ rs').
    rewrite <-(app_assoc argv) in Hlen. rewrite <-!app_assoc, !map_app. cbn [map]. rewrite Hw. split_and!; try done.
    + cbn. by rewrite <-app_assoc.
    + constructor. by apply g_redirs_args.
    + by constructor.
    + apply Forall_app. by split.
    + lia.
  - destruct Ht as (-> & Hs & _). apply is_symbol_not_word in Hs as [Hs1 Hs2]. rewrite Hs2. apply obeys_bind, obeys_panic_if. by rewrite Hs1.
Qed.

Lemma back_loop_spec fuel : forall c s ts, before ts s -> (length s < fuel)%nat -> wp (back_loop line fuel c) (fun c' s' => exists n ts',
  ts = amps n ++ ts' /\ c' = Nat.iter n BACK c /\ before ts' s' /\ symbol_in (str "&") ts' = false /\ (length s' <= length s)%nat) s.
Proof using Type.
  induction fuel as [|f IH]; intros c s ts Hb Hf; [lia|]. cbn [back_loop]. apply wp_bind.
  eapply wp_mono; [apply (peek_spec _ ts); [done|by apply subset_symbols]|]. cbv beta. intros b s1 (-> & Hb1 & Hl1). destruct (symbol_in _ ts) eqn:Es.
  - apply symbol_in_one in Es as [ts1 ->]; [|done]. apply wp_bind. eapply wp_mono; [by apply gettoken_spec|]. intros t s2 (_ & _ & Hb2 & Hl2).
    eapply wp_mono; [apply (IH (BACK c) s2 ts1); [done|lia]|]. intros c' s3 (n & ts' & -> & -> & Hb3 & Hs & Hl3). exists (S n), ts'. split_and!; [done|symmetry; apply Nat.iter_succ_r|done|done|lia].
  - exists 0%nat, ts. split_and!; done.
Qed.

(** What each function of the parser reads. *)
Definition sound (g : list token -> command -> Prop) (m : M (list Z) (cmd (nat * nat))) (s : list Z) : Prop := forall ts, before ts s ->
  obeys m (fun c s' => exists ts0 ts', ts = ts0 ++ ts' /\ g ts0 (spelled c) /\ good c /\ before ts' s' /\ (length s' <= length s)%nat) s.

Section line_sound.
Variables (n : nat) (pl : M (list Z) (cmd (nat * nat))).
Hypothesis line_sound : forall s, (length s < n)%nat -> sound g_line pl s.

Lemma parseblock_sound f s ts : (length s <= n)%nat -> (length s < f)%nat -> before (T 40 :: ts) s -> obeys (parseblock line f pl) (fun c s' => exists ts0 ts',
  T 40 :: ts = ts0 ++ ts' /\ g_exec ts0 (spelled c) /\ good c /\ before ts' s' /\ (length s' <= length s)%nat) s.
Proof using line_sound.
  intros Hn Hf Hb. unfold parseblock. apply obeys_bind, obeys_wp. eapply wp_mono; [apply (peek_spec _ (T 40 :: ts)); [done|by apply subset_symbols]|]. cbv beta. intros b s1 (-> & Hb1 & Hl1).
  apply obeys_bind, obeys_panic_if. intros _. apply obeys_bind, obeys_wp. eapply wp_mono; [by apply gettoken_spec|]. intros t s2 (_ & _ & Hb2 & Hl2).
  apply obeys_bind. eapply obeys_mono; [apply (line_sound s2); [lia|done]|]. intros c s3 (ts0 & ts1 & -> & Hg & Hc & Hb3 & Hl3).
  apply obeys_bind, obeys_wp. eapply wp_mono; [apply (peek_spec _ ts1); [done|by apply subset_symbols]|]. cbv beta. intros b s4 (-> & Hb4 & Hl4).
  apply obeys_bind, obeys_panic_if. intros Es%negb_false_iff. apply symbol_in_one in Es as [ts2 ->]; [|done].
  apply obeys_bind, obeys_wp. eapply wp_mono; [by apply gettoken_spec|]. intros t' s5 (_ & _ & Hb5 & Hl5).
  apply obeys_bind. eapply obeys_mono; [apply (parseredirs_sound f s5 ts2); [done|lia]|]. intros rs s6 (rts & ts' & -> & Hr & Hgr & Hb6 & Hl6).
  exists (T 40 :: ts0 ++ T 41 :: rts), ts'. split_and!; [cbn; by rewrite <-app_assoc| |by apply good_redirs|done|lia].
  rewrite spelled_redirs. by constructor.
Qed.
Lemma parseexec_sound f s : (length s <= n)%nat -> (length s < f)%nat -> sound g_exec (parseexec line f pl) s.
Proof using line_sound.
  intros Hn Hf ts Hb. unfold parseexec. apply obeys_bind, obeys_wp. eapply wp_mono; [apply (peek_spec _ ts); [done|by apply subset_symbols]|]. cbv beta. intros b s1 (-> & Hb1 & Hl1).
  destruct (symbol_in _ ts) eqn:Es.
  - apply symbol_in_one in Es as [ts3 ->]; [|done]. eapply obeys_mono; [apply (parseblock_sound f s1); [lia|lia|done]|]. intros c s2 (ts0 & ts' & E & Hg & Hc & Hb2 & Hl2).
    exists ts0, ts'. split_and!; try done. lia.
  - apply obeys_bind. eapply obeys_mono; [apply (parseredirs_sound f s1 ts); [done|lia]|]. intros rs s2 (rts & ts1 & -> & Hr & Hgr & Hb2 & Hl2).
    apply obeys_bind. eapply obeys_mono; [apply (exec_loop_sound f [] rs s2 ts1); [done|lia|unfold MAXARGS; simpl; lia]|].
    intros r s3 (ats & ts' & argv & rs' & -> & -> & Ha & Hlen & Hga & Hgr' & Hb3 & Hl3). exists (rts ++ ats), ts'. split_and!; [by rewrite <-app_assoc| | |done|lia].
    + cbn [fst snd]. rewrite spelled_redirs, map_app. change (spelled (EXEC ?a)) with (EXEC (map word_of a)). constructor; [by apply g_redirs_args|by rewrite length_map].
    + apply good_redirs; [cbn [snd]; rewrite map_app; by apply Forall_app|done].
Qed.

Lemma parsepipe_sound f : forall s, (length s <= n)%nat -> (length s + 1 < f)%nat -> sound g_pipe (parsepipe line f pl) s.
Proof using line_sound.
  induction f as [|f pipe_sound]; intros s Hn Hf ts Hb; [lia|]. cbn [parsepipe]. apply obeys_bind. eapply obeys_mono; [apply (parseexec_sound f s); [done|lia|done]|]. intros c s1 (ts0 & ts1 & -> & Hg & Hc & Hb1 & Hl1).
  apply obeys_bind, obeys_wp. eapply wp_mono; [apply (peek_spec _ ts1); [done|by apply subset_symbols]|]. cbv beta. intros b s3 (-> & Hb3 & Hl3). destruct (symbol_in _ ts1) eqn:Es.
  - apply symbol_in_one in Es as [ts3 ->]; [|done]. apply obeys_bind, obeys_wp. eapply wp_mono; [by apply gettoken_spec|]. intros t s4 (_ & _ & Hb4 & Hl4).
    apply obeys_bind. eapply obeys_mono; [apply (pipe_sound s4); [lia|lia|done]|]. intros r s5 (ts4 & ts' & -> & Hg' & Hc' & Hb5 & Hl5).
    exists (ts0 ++ T 124 :: ts4), ts'. split_and!; [by rewrite <-app_assoc|by constructor|by apply Forall_app|done|lia].
  - exists ts0, ts1. split_and!; [done|by constructor|done|done|lia].
Qed.

End line_sound.

Lemma parseline_sound f : forall s, (length s + 3 < f)%nat -> sound g_line (parseline line f) s.
Proof using Type.
  induction f as [|f line_sound]; intros s Hf ts Hb; [lia|]. cbn [parseline]. apply obeys_bind. eapply obeys_mono; [apply (parsepipe_sound (length s) (parseline line f)); [intros s' Hs'; apply line_sound; lia|lia|lia|exact Hb]|]. intros c s1 (ts0 & ts1 & -> & Hg & Hc & Hb1 & Hl1).
  apply obeys_bind, obeys_wp. eapply wp_mono; [apply (back_loop_spec f c s1 ts1); [done|lia]|]. intros c' s2 (n & ts2 & -> & -> & Hb2 & _ & Hl2).
  apply obeys_bind, obeys_wp. eapply wp_mono; [apply (peek_spec _ ts2); [done|by apply subset_symbols]|]. cbv beta. intros b s3 (-> & Hb3 & Hl3). destruct (symbol_in _ ts2) eqn:Es.
  - apply symbol_in_one in Es as [ts3 ->]; [|done]. apply obeys_bind, obeys_wp. eapply wp_mono; [by apply gettoken_spec|]. intros t s4 (_ & _ & Hb4 & Hl4).
    apply obeys_bind. eapply obeys_mono; [apply (line_sound s4); [lia|done]|]. intros r s5 (ts4 & ts' & -> & Hg' & Hc' & Hb5 & Hl5).
    exists (ts0 ++ amps n ++ T 59 :: ts4), ts'. split_and!; [by rewrite <-!app_assoc| |by apply Forall_app; split; [apply good_backs|]|done|lia].
    change (spelled (LIST ?a ?b)) with (LIST (spelled a) (spelled b)). rewrite spelled_backs. by constructor.
  - exists (ts0 ++ amps n), ts2. split_and!; [by rewrite <-app_assoc| |by apply good_backs|done|lia]. rewrite spelled_backs. by constructor.
Qed.

(** ** Completeness *)

(** What may follow a part of the line. *)
Definition follow (toks : list Z) (rest : list token) : Prop := rest = [] \/ symbol_in toks rest = true.

Lemma follow_not toks toks' rest : follow toks rest -> forallb (fun c => negb (in_set toks' c)) toks = true -> symbol_in toks' rest = false.
Proof using Type.
  intros [->|H] Hd; [done|]. destruct rest as [|[w|c] rest]; try done. cbn in *. rewrite forallb_forall in Hd. apply negb_true_iff, Hd. apply list_elem_of_In. by apply in_set_In.
Qed.
Lemma follow_weaken toks toks' rest : follow toks rest -> forallb (in_set toks') toks = true -> follow toks' rest.
Proof using Type.
  intros [->|H] Hd; [by left|]. right. destruct rest as [|[w|c] rest]; try done. cbn in *. rewrite forallb_forall in Hd. apply Hd. apply list_elem_of_In. by apply in_set_In.
Qed.

Lemma parseredirs_complete rts rs : g_redirs rts rs -> forall fuel rest s, before (rts ++ rest) s -> symbol_in (str "<>") rest = false -> (length s < fuel)%nat ->
  wp (parseredirs line fuel) (fun rs0 s' => map redir_words rs0 = rs /\ before rest s' /\ (length s' <= length s)%nat) s.
Proof using Type.
  induction 1 as [|c w m fd rts rs Hr _ IH]; intros [|f] rest s Hb Hs Hf; try lia; cbn [parseredirs]; apply wp_bind;
    (eapply wp_mono; [apply peek_spec; [exact Hb|by apply subset_symbols]|]); cbv beta; intros b s1 (-> & Hb1 & Hl1).
  - cbn [app]. rewrite Hs. done.
  - assert (symbol_in (str "<>") ((T c :: W w :: rts) ++ rest) = true /\ forall p, (if c =? 60 then (p, O_RDONLY, 0) else (p, Z.lor O_WRONLY O_CREATE, 1)) = (p : nat * nat, m, fd)) as [-> Hif].
    { unfold redir_of in Hr. cbn. destruct (Z.eqb_spec c 60) as [->|Hc]; [by injection Hr as <- <-|].
      destruct (Z.eqb_spec c 62) as [->|Hc']; [by injection Hr as <- <-|]. destruct (Z.eqb_spec c APPEND) as [->|Ha]; [by injection Hr as <- <-|done]. }
    apply wp_bind. eapply wp_mono; [by apply gettoken_spec|]. intros t s2 (<- & _ & Hb2 & Hl2). apply wp_bind. eapply wp_mono; [by apply gettoken_spec|].
    intros t' s3 (Ht' & _ & Hw & Hb3 & Hl3). apply wp_bind; apply wp_panic_if; [by rewrite Ht'|]. rewrite Hif. apply wp_bind. eapply wp_mono; [apply (IH f rest s3); [done|done|lia]|].
    intros rs0 s4 (<- & Hb4 & Hl4). apply wp_ret. cbn. rewrite Hw. split_and!; [done|done|lia].
Qed.

(** The redirections in front of the arguments. *)
Lemma g_args_split ats ws rs : g_args ats ws rs -> exists rts ats' rs1 rs2, ats = rts ++ ats' /\ rs = rs1 ++ rs2 /\ g_redirs rts rs1 /\ g_args ats' ws rs2 /\
  (ats' = [] /\ ws = [] /\ rs2 = [] \/ exists w ats2 ws2, ats' = W w :: ats2 /\ ws = w :: ws2 /\ g_args ats2 ws2 rs2).
Proof using Type.
  induction 1 as [|w ats ws rs H _|c w m fd ats ws rs Hr H IH].
  - exists [], [], [], []. split_and!; [done|done|constructor|constructor|by left].
  - exists [], (W w :: ats), [], rs. split_and!; [done|done|constructor|by constructor|right; by eexists _, _, _].
  - destruct IH as (rts & ats' & rs1 & rs2 & -> & -> & H1 & H2 & H3). exists (T c :: W w :: rts), ats', ((w, m, fd) :: rs1), rs2. split_and!; try done. by constructor.
Qed.

Lemma exec_loop_complete fuel : forall ats ws rs2 rest argv rs s, g_args ats ws rs2 -> (ats = [] /\ ws = [] /\ rs2 = [] \/ exists w ats2 ws2, ats = W w :: ats2 /\ ws = w :: ws2 /\ g_args ats2 ws2 rs2) ->
  before (ats ++ rest) s -> follow (str "|)&;") rest -> (length argv + length ws < MAXARGS)%nat -> (length s < fuel)%nat ->
  wp (exec_loop line fuel argv rs) (fun r s' => map word_of (fst r) = map word_of argv ++ ws /\ map redir_words (snd r) = map redir_words rs ++ rs2 /\ before rest s' /\ (length s' <= length s)%nat) s.
Proof using Type.
  induction fuel as [|f IH]; intros ats ws rs2 rest argv rs s Ha Hform Hb Hfo Hn Hf; [lia|]. cbn [exec_loop]. apply wp_bind.
  eapply wp_mono; [apply peek_spec; [exact Hb|by apply subset_symbols]|]. cbv beta. intros b s1 (-> & Hb1 & Hl1). destruct Hform as [(-> & -> & ->)|(w & ats2 & ws2 & -> & -> & Ha2)].
  - cbn [app] in *. rewrite !app_nil_r. destruct Hfo as [->|Hfo]; [|by rewrite Hfo]. cbn [symbol_in]. apply wp_bind. eapply wp_mono; [by apply gettoken_spec|].
    intros t s2 (-> & Hb2 & Hl2). cbn. split_and!; [done|done|done|lia].
  - cbn [app symbol_in]. apply wp_bind. eapply wp_mono; [by apply gettoken_spec|]. intros t s2 (-> & _ & Hw & Hb2 & Hl2). change (WORD =? 0) with false. cbv iota.
    simpl in Hn. apply wp_bind; apply wp_panic_if; [done|]. apply wp_bind; apply wp_panic_if; [apply Nat.leb_gt; rewrite length_app; simpl; lia|].
    destruct (g_args_split _ _ _ Ha2) as (rts & ats' & rs1 & rs3 & -> & -> & Hr & Ha3 & Hform). rewrite <-app_assoc in Hb2.
    apply wp_bind. eapply wp_mono; [apply (parseredirs_complete _ _ Hr f (ats' ++ rest) s2); [done| |lia]|].
    { destruct Hform as [(-> & _)|(w' & ats2 & ws3 & -> & _)]; [by eapply follow_not|done]. }
    intros rs0 s3 (<- & Hb3 & Hl3). eapply wp_mono; [apply (IH ats' ws2 rs3 rest); try done; [rewrite length_app; simpl; lia|lia]|].
    intros r s4 (-> & -> & Hb4 & Hl4). rewrite !map_app, <-!app_assoc. cbn [map app]. rewrite Hw. split_and!; [done|done|done|lia].
Qed.

Lemma amps_inj n n' ts ts' : amps n ++ ts = amps n' ++ ts' -> symbol_in (str "&") ts = false -> symbol_in (str "&") ts' = false -> n = n' /\ ts = ts'.
Proof using Type.
  revert n'. induction n as [|n IH]; intros [|n'] E H1 H2; cbn in E.
  - done.
  - by subst ts.
  - by subst ts'.
  - injection E as E. by destruct (IH n' E H1 H2) as [-> ->].
Qed.

(** What a function reads from a text of the grammar. *)
Definition complete (toks : list Z) (m : M (list Z) (cmd (nat * nat))) (ts : list token) (c : command) (s : list Z) : Prop :=
  forall rest, before (ts ++ rest) s -> follow toks rest -> wp m (fun c' s' => spelled c' = c /\ before rest s' /\ (length s' <= length s)%nat) s.
Definition complete_line (ts : list token) (c : command) : Prop := forall s f, (length s + 3 < f)%nat -> complete (str ")") (parseline line f) ts c s.
Definition complete_pipe (ts : list token) (c : command) : Prop := forall s f g, (length s + 1 < f)%nat -> (length s + 2 < g)%nat -> complete (str ")&;") (parsepipe line f (parseline line g)) ts c s.
Definition complete_exec (ts : list token) (c : command) : Prop := forall s f g, (length s < f)%nat -> (length s + 2 < g)%nat -> complete (str "|)&;") (parseexec line f (parseline line g)) ts c s.

Lemma back_loop_complete n rest c s f : before (amps n ++ rest) s -> symbol_in (str "&") rest = false -> (length s < f)%nat ->
  wp (back_loop line f c) (fun c' s' => c' = Nat.iter n BACK c /\ before rest s' /\ (length s' <= length s)%nat) s.
Proof using Type.
  intros Hb Hr Hf. eapply wp_mono; [by apply (back_loop_spec f c s (amps n ++ rest))|]. intros c' s' (n' & ts' & E & -> & Hb' & Hs & Hl).
  apply amps_inj in E as [<- <-]; done.
Qed.

Lemma line_one_complete ts n c : complete_pipe ts c -> complete_line (ts ++ amps n) (backs n c).
Proof using Type.
  intros IH s [|f] Hf rest Hb Hr; [lia|]. cbn [parseline]. rewrite <-app_assoc in Hb. apply wp_bind. eapply wp_mono; [apply (IH s f f); [lia|lia|exact Hb|]|].
  { destruct n; [by eapply follow_weaken|by right]. }
  intros c1 s1 (<- & Hb1 & Hl1). apply wp_bind. eapply wp_mono; [apply (back_loop_complete n rest); [done|by eapply follow_not|lia]|]. intros c2 s2 (-> & Hb2 & Hl2).
  apply wp_bind. eapply wp_mono; [apply peek_spec; [exact Hb2|by apply subset_symbols]|]. cbv beta. intros b s3 (-> & Hb3 & Hl3). rewrite (follow_not _ _ _ Hr) by done.
  apply wp_ret. split_and!; [apply spelled_backs|done|lia].
Qed.

Lemma line_seq_complete ts n c ts' c' : complete_pipe ts c -> complete_line ts' c' ->
  complete_line (ts ++ amps n ++ T 59 :: ts') (LIST (backs n c) c').
Proof using Type.
  intros IH IH' s [|f] Hf rest Hb Hr; [lia|]. cbn [parseline]. rewrite <-!app_assoc in Hb. cbn [app] in Hb.
  apply wp_bind. eapply wp_mono; [apply (IH s f f); [lia|lia|exact Hb|]|].
  { destruct n; by right. }
  intros c1 s1 (<- & Hb1 & Hl1). apply wp_bind. eapply wp_mono; [apply (back_loop_complete n (T 59 :: ts' ++ rest)); [done|done|lia]|]. intros c2 s2 (-> & Hb2 & Hl2).
  apply wp_bind. eapply wp_mono; [apply peek_spec; [exact Hb2|by apply subset_symbols]|]. cbv beta. intros b s3 (-> & Hb3 & Hl3). cbn.
  apply wp_bind. eapply wp_mono; [by apply gettoken_spec|]. intros t s4 (_ & _ & Hb4 & Hl4). apply wp_bind. eapply wp_mono; [apply (IH' s4 f); [lia|exact Hb4|done]|].
  intros c3 s5 (<- & Hb5 & Hl5). apply wp_ret. split_and!; [|done|lia]. by rewrite <-spelled_backs.
Qed.

Lemma pipe_one_complete ts c : complete_exec ts c -> complete_pipe ts c.
Proof using Type.
  intros IH s [|f] g Hf Hg rest Hb Hr; [lia|]. cbn [parsepipe]. apply wp_bind. eapply wp_mono; [apply (IH s f g); [lia|lia|exact Hb|by eapply follow_weaken]|]. intros c1 s1 (<- & Hb1 & Hl1).
  apply wp_bind. eapply wp_mono; [apply peek_spec; [exact Hb1|by apply subset_symbols]|]. cbv beta. intros b s3 (-> & Hb3 & Hl3). rewrite (follow_not _ _ _ Hr) by done.
  apply wp_ret. split_and!; [done|done|lia].
Qed.

Lemma pipe_more_complete ts c ts' c' : complete_exec ts c -> complete_pipe ts' c' ->
  complete_pipe (ts ++ T 124 :: ts') (PIPE c c').
Proof using Type.
  intros IH IH' s [|f] g Hf Hg rest Hb Hr; [lia|]. cbn [parsepipe]. rewrite <-app_assoc in Hb. apply wp_bind. eapply wp_mono; [apply (IH s f g); [lia|lia|exact Hb|by right]|].
  intros c1 s1 (<- & Hb1 & Hl1). apply wp_bind. eapply wp_mono; [apply peek_spec; [exact Hb1|by apply subset_symbols]|]. cbv beta. intros b s3 (-> & Hb3 & Hl3). cbn.
  apply wp_bind. eapply wp_mono; [by apply gettoken_spec|]. intros t s4 (_ & _ & Hb4 & Hl4). apply wp_bind. eapply wp_mono; [apply (IH' s4 f g); [lia|lia|exact Hb4|done]|].
  intros c3 s5 (<- & Hb5 & Hl5). apply wp_ret. split_and!; [done|done|lia].
Qed.

Lemma exec_simple_complete ts ws rs : g_args ts ws rs -> (length ws < MAXARGS)%nat -> complete_exec ts (fold_left redircmd rs (EXEC ws)).
Proof using Type.
  intros Ha Hn s f g Hf Hg rest Hb Hr. unfold parseexec. apply wp_bind. eapply wp_mono; [apply peek_spec; [exact Hb|by apply subset_symbols]|]. cbv beta. intros b s1 (-> & Hb1 & Hl1).
  destruct (g_args_split _ _ _ Ha) as (rts & ats' & rs1 & rs3 & -> & -> & Hgr & Ha3 & Hform).
  assert (symbol_in (str "(") ((rts ++ ats') ++ rest) = false) as ->.
  { destruct Hgr as [|c w m fd rts' rs' Hc _].
    - destruct Hform as [(-> & _)|(w & ats2 & ws2 & -> & _)]; [by eapply follow_not|done].
    - apply not_true_iff_false. intros H. apply (symbol_in_one 40) in H as [? [= ->]]; done. }
  rewrite <-app_assoc in Hb1. apply wp_bind. eapply wp_mono; [apply (parseredirs_complete _ _ Hgr f (ats' ++ rest) s1); [done| |lia]|].
  { destruct Hform as [(-> & _)|(w' & ats2 & ws3 & -> & _)]; [by eapply follow_not|done]. }
  intros rs0 s3 (<- & Hb3 & Hl3). apply wp_bind. eapply wp_mono; [apply (exec_loop_complete f ats' ws rs3 rest [] rs0 s3); try done; lia|].
  intros r s4 (Hw & Hrs & Hb4 & Hl4). apply wp_ret. split_and!; [|done|lia]. rewrite spelled_redirs, Hrs. change (spelled (EXEC (fst r))) with (EXEC (map word_of (fst r))). by rewrite Hw.
Qed.

Lemma exec_block_complete ts c ts' rs : complete_line ts c -> g_redirs ts' rs -> complete_exec (T 40 :: ts ++ T 41 :: ts') (fold_left redircmd rs c).
Proof using Type.
  intros IH Hgr s f g Hf Hg rest Hb Hr. unfold parseexec, parseblock. cbn [app] in Hb. rewrite <-app_assoc in Hb. cbn [app] in Hb.
  apply wp_bind. eapply wp_mono; [apply peek_spec; [exact Hb|by apply subset_symbols]|]. cbv beta. intros b s1 (-> & Hb1 & Hl1). cbn [symbol_in].
  change (in_set (str "(") (if 40 =? APPEND then 62 else 40)) with true. cbv iota.
  apply wp_bind. eapply wp_mono; [apply peek_spec; [exact Hb1|by apply subset_symbols]|]. cbv beta. intros b s2 (-> & Hb2 & Hl2).
  apply wp_bind; apply wp_panic_if; [done|]. apply wp_bind. eapply wp_mono; [by apply gettoken_spec|]. intros t s3 (_ & _ & Hb3 & Hl3).
  apply wp_bind. eapply wp_mono; [apply (IH s3 g); [lia|exact Hb3|by right]|]. intros c1 s4 (<- & Hb4 & Hl4).
  apply wp_bind. eapply wp_mono; [apply peek_spec; [exact Hb4|by apply subset_symbols]|]. cbv beta. intros b s5 (-> & Hb5 & Hl5).
  apply wp_bind; apply wp_panic_if; [done|]. apply wp_bind. eapply wp_mono; [by apply gettoken_spec|]. intros t' s6 (_ & _ & Hb6 & Hl6).
  apply wp_bind. eapply wp_mono; [apply (parseredirs_complete _ _ Hgr f rest s6); [done|by eapply follow_not|lia]|].
  intros rs0 s7 (<- & Hb7 & Hl7). apply wp_ret. split_and!; [apply spelled_redirs|done|lia].
Qed.

Lemma parser_complete : (forall ts c, g_line ts c -> complete_line ts c) /\ (forall ts c, g_pipe ts c -> complete_pipe ts c) /\ (forall ts c, g_exec ts c -> complete_exec ts c).
Proof using Type.
  apply grammar_ind; eauto using line_one_complete, line_seq_complete, pipe_one_complete, pipe_more_complete, exec_simple_complete, exec_block_complete.
Qed.
End line.

(** ** The strings behind their NULs *)

Section strings.
Variable line : list Z.
Hypothesis no_nul : NUL ∉ line.

Lemma put_nuls_lookup ps : forall (buf : list Z) i, length (fold_left put_nul ps buf) = length buf /\
  (i ∉ map snd ps -> fold_left put_nul ps buf !! i = buf !! i) /\ (i ∈ map snd ps -> (i < length buf)%nat -> fold_left put_nul ps buf !! i = Some NUL).
Proof using Type.
  induction ps as [|p ps IH]; intros buf i; cbn [fold_left map].
  - split_and!; [done|done|]. by intros H%elem_of_nil.
  - destruct (IH (put_nul buf p) i) as (H1 & H2 & H3). assert (length (put_nul buf p) = length buf) as Hl by apply length_insert. rewrite Hl in H1, H3. split_and!; [done| |].
    + intros [Hp Hps]%not_elem_of_cons. rewrite H2 by done. unfold put_nul. by rewrite list_lookup_insert_ne by done.
    + intros Hi Hlt. destruct (decide (i ∈ map snd ps)) as [Hps|Hps]; [by apply H3|]. apply elem_of_cons in Hi as [->|Hi]; [|done].
      rewrite H2 by done. unfold put_nul. by rewrite list_lookup_insert_eq by done.
Qed.

(** [nulterminate] writes a NUL at the end of every string, and nothing else. *)
Lemma nulterminate_lookup c : forall buf i, length (nulterminate c buf) = length buf /\
  (i ∉ map snd (pieces c) -> nulterminate c buf !! i = buf !! i) /\ (i ∈ map snd (pieces c) -> (i < length buf)%nat -> nulterminate c buf !! i = Some NUL).
Proof using Type.
  assert (Htwo : forall l r, (forall buf i, length (nulterminate l buf) = length buf /\ (i ∉ map snd (pieces l) -> nulterminate l buf !! i = buf !! i) /\
      (i ∈ map snd (pieces l) -> (i < length buf)%nat -> nulterminate l buf !! i = Some NUL)) ->
    (forall buf i, length (nulterminate r buf) = length buf /\ (i ∉ map snd (pieces r) -> nulterminate r buf !! i = buf !! i) /\
      (i ∈ map snd (pieces r) -> (i < length buf)%nat -> nulterminate r buf !! i = Some NUL)) ->
    forall buf i, length (nulterminate r (nulterminate l buf)) = length buf /\ (i ∉ map snd (pieces l ++ pieces r) -> nulterminate r (nulterminate l buf) !! i = buf !! i) /\
      (i ∈ map snd (pieces l ++ pieces r) -> (i < length buf)%nat -> nulterminate r (nulterminate l buf) !! i = Some NUL)).
  { intros l r Hl Hr buf i. destruct (Hl buf i) as (L1 & L2 & L3), (Hr (nulterminate l buf) i) as (R1 & R2 & R3). rewrite map_app. split_and!; [congruence| |].
    - intros [H1 H2]%not_elem_of_app. by rewrite R2, L2.
    - intros H Hi. destruct (decide (i ∈ map snd (pieces r))) as [Hd|Hd]; [apply R3; [done|by rewrite L1]|]. rewrite R2 by done. apply L3; [|done].
      by apply elem_of_app in H as [H|H]. }
  induction c as [argv|c IH f m fd|l IHl r IHr|l IHl r IHr|c IH]; intros buf i; cbn [nulterminate pieces].
  - apply put_nuls_lookup.
  - destruct (IH buf i) as (H1 & H2 & H3). unfold put_nul. cbn [map]. rewrite length_insert. split_and!; [done| |].
    + intros [Hp Hps]%not_elem_of_cons. rewrite list_lookup_insert_ne by done. by apply H2.
    + intros Hi Hl. destruct (decide (snd f = i)) as [<-|Hne]; [by rewrite list_lookup_insert_eq by lia|]. rewrite list_lookup_insert_ne by done.
      apply elem_of_cons in Hi as [->|Hi]; [done|]. by apply H3.
  - by apply Htwo.
  - by apply Htwo.
  - apply IH.
Qed.

Lemma cstr_word w r : NUL ∉ w -> cstr (w ++ NUL :: r) = Some w.
Proof using Type.
  induction w as [|c w IH]; [done|]. intros [Hc Hw]%not_elem_of_cons. cbn [app cstr]. destruct (Z.eqb_spec c 0) as [->|_]; [done|]. by rewrite IH.
Qed.

Lemma strings_terminated c p : good line c -> p ∈ pieces c -> string_at (nulterminate c (line ++ [NUL])) p = word_of line p.
Proof using no_nul.
  intros Hg Hp. unfold good in Hg. rewrite Forall_forall in Hg. destruct (Hg p Hp) as (a & w & b & E & -> & Hw & Hf & Hb). unfold string_at, word_of. cbn [fst snd].
  replace (length a + length w - length a)%nat with (length w) by lia. rewrite E at 2. rewrite drop_app_length, take_app_length.
  assert (NUL ∉ w) as Hnw by (intros H; apply no_nul; rewrite E, !elem_of_app; by right; left).
  set (buf := nulterminate c (line ++ [NUL])). assert (drop (length a) buf = w ++ NUL :: drop (S (length a + length w)) buf) as ->; [|by rewrite cstr_word].
  assert (Hlen : length line = (length a + length w + length b)%nat) by (rewrite E, !length_app; lia).
  assert (drop (length a) buf = take (length w) (drop (length a) buf) ++ drop (length a + length w) buf) as -> by (by rewrite <-drop_drop, take_drop).
  assert (buf !! (length a + length w)%nat = Some NUL) as Hnul.
  { apply nulterminate_lookup; [apply list_elem_of_fmap_2' with (x := (length a, length a + length w)%nat); done|rewrite length_app; simpl; lia]. }
  rewrite (drop_S _ _ _ Hnul). f_equal. apply list_eq. intros i. destruct (decide (i < length w)%nat) as [Hi|Hi].
  - rewrite lookup_take_lt by done. rewrite lookup_drop. unfold buf. rewrite (proj1 (proj2 (nulterminate_lookup c _ _))).
    + rewrite lookup_app_l by lia. rewrite E, lookup_app_r by lia. rewrite lookup_app_l by lia. by replace (length a + i - length a)%nat with i by lia.
    + intros ((a' & e) & He & Hin)%list_elem_of_fmap. cbn in He. subst e. destruct (Hg _ Hin) as (a2 & w2 & b2 & E2 & Ep & _ & _ & Hb2). injection Ep as -> Ep.
      assert (line !! (length a2 + length w2)%nat = w !! i) as Hl.
      { rewrite <-Ep, E, lookup_app_r by lia. rewrite lookup_app_l by lia. f_equal. lia. }
      rewrite E2, app_assoc, lookup_app_r in Hl by (rewrite length_app; lia). rewrite length_app, Nat.sub_diag in Hl. destruct (lookup_lt_is_Some_2 w i Hi) as [x Hx].
      rewrite Hx in Hl. destruct b2 as [|x2 b2]; [done|]. injection Hl as ->. rewrite Forall_lookup in Hf. specialize (Hf _ _ Hx). cbv beta in Hf. congruence.
  - rewrite lookup_take_ge by lia. symmetry. apply lookup_ge_None. lia.
Qed.

Lemma strings_spelled c : good line c -> cmd_map (string_at (nulterminate c (line ++ [NUL]))) c = spelled line c.
Proof using no_nul.
  intros Hg. assert (forall p, p ∈ pieces c -> string_at (nulterminate c (line ++ [NUL])) p = word_of line p) as H by (intros; by apply strings_terminated).
  revert H. generalize (string_at (nulterminate c (line ++ [NUL]))). intros g. clear Hg. unfold spelled.
  induction c as [argv|c IH f m fd|l IHl r IHr|l IHl r IHr|c IH]; cbn [pieces cmd_map]; intros H.
  - f_equal. apply map_ext_in. intros p Hp. apply H. by apply list_elem_of_In.
  - rewrite H by left. f_equal. apply IH. intros p Hp. apply H. by right.
  - f_equal; [apply IHl|apply IHr]; intros p Hp; apply H, elem_of_app; auto.
  - f_equal; [apply IHl|apply IHr]; intros p Hp; apply H, elem_of_app; auto.
  - f_equal. by apply IH.
Qed.
End strings.

(** Every line is parsed or refused, and what is parsed has a derivation. *)
Lemma parsecmd_sound line : NUL ∉ line -> obeys (fun _ => parsecmd line) (fun c _ => exists ts, spells line ts /\ g_line ts c) line.
Proof.
  intros Hn. unfold parsecmd. apply obeys_bind. destruct (spells_total line) as [ts Hts]. assert (before line ts line) as Hb by (split; [by exists []|done]).
  eapply obeys_mono; [apply (parseline_sound line _); [lia|exact Hb]|]. intros c s1 (ts0 & ts1 & -> & Hg & Hc & Hb1 & _).
  apply obeys_bind, obeys_wp. eapply wp_mono; [by apply peek_spec|]. intros _ s2 (_ & Hb2 & _). apply obeys_bind; cbn [gets obeys]; apply obeys_bind, obeys_panic_if; cbn [id].
  intros Hz%negb_false_iff%Nat.eqb_eq. destruct s2; [|done]. destruct Hb2 as [_ Hsp]. assert (ts1 = []) as -> by (inversion Hsp; try done; by destruct w). rewrite app_nil_r in Hts.
  cbn. exists ts0. split; [done|]. by rewrite strings_spelled.
Qed.

Lemma parsecmd_complete line ts c : NUL ∉ line -> spells line ts -> g_line ts c -> exists s, parsecmd line = Ret c s.
Proof.
  intros Hn Hts Hg. assert (before line (ts ++ []) line) as Hb by (split; [by exists []|by rewrite app_nil_r]).
  assert (wp (parseline line (length line + 4)) (fun c' s' => spelled line c' = c /\ before line [] s' /\ (length s' <= length line)%nat) line) as Hw.
  { apply (proj1 (parser_complete line) ts c Hg line); [lia|exact Hb|by left]. }
  assert (Hso := parseline_sound line (length line + 4) line ltac:(lia) _ Hb). unfold obeys in Hso. unfold parsecmd, bind. unfold wp in Hw.
  destruct (parseline line _ line) as [c' s'| | | |]; try done. destruct Hw as (<- & [_ Hs'] & _). destruct Hso as (_ & _ & _ & _ & Hc' & _ & _).
  unfold peek. cbn. destruct (skip_spec s' [] Hs') as (_ & _ & _ & H & _). cbn in H. rewrite H.
  cbn. eexists. f_equal. by apply strings_spelled.
Qed.

(** C36: the parser of the shell accepts its grammar. For every line without NUL [parsecmd]
    returns or panics; it returns exactly the command of a derivation of the tokens of the
    line, with all its strings ended by the NULs that [nulterminate] writes into the line. *)
Theorem parsecmd_correct line : NUL ∉ line ->
  ((exists c s, parsecmd line = Ret c s) \/ exists msg, parsecmd line = Panic msg) /\
  (forall c, (exists s, parsecmd line = Ret c s) <-> exists ts, spells line ts /\ g_line ts c).
Proof.
  intros Hn. pose proof (parsecmd_sound line Hn) as Hs. unfold obeys in Hs. split.
  - destruct (parsecmd line); try done; [left|right]; by eauto.
  - intros c. split; [|intros (ts & Hts & Hg); by eapply parsecmd_complete]. intros [s E]. by rewrite E in Hs.
Qed.

Definition sample_line : list Z := str "cat<a|(wc;ls)>>b &".
Definition sample_command : command :=
  BACK (PIPE (REDIR (EXEC [str "cat"]) (str "a") O_RDONLY 0) (REDIR (LIST (EXEC [str "wc"]) (EXEC [str "ls"])) (str "b") (Z.lor O_WRONLY O_CREATE) 1)).
Lemma parsecmd_correct_witness : NUL ∉ sample_line /\ exists ts, spells sample_line ts /\ g_line ts sample_command.
Proof.
  assert (NUL ∉ sample_line) as Hn by (apply (bool_decide_unpack _); by vm_compute). split; [exact Hn|].
  apply (proj1 (proj2 (parsecmd_correct sample_line Hn) sample_command)). eexists. vm_compute. reflexivity.
Defined.

(** [>>] opens its file as [>] does: what is written goes over the start of the file. *)
Example append_overwrites : exists f m s s', parsecmd (str "ls>f") = Ret (REDIR (EXEC [str "ls"]) f m 1) s /\ parsecmd (str "ls>>f") = Ret (REDIR (EXEC [str "ls"]) f m 1) s'.
Proof. do 4 eexists. split; vm_compute; reflexivity. Qed.
