(* ===== verification/ShRun.v ===== *)
(** * Running parsed commands: processes, descriptors and order

    What a session of the shell may do is specified by the steps of its jobs ([jstep], [astep]):
    which programs start, with which three descriptors, what has to end before the next may
    start, and what runs in the background.  The processes of sh.c, with their fork, wait, exec
    and exit in every interleaving, do nothing else and are never stuck. *)

From S2P Require Import Prelude CStr Sh ShParse.

(** ** Specification *)

(** A process with three open descriptors and no other. *)
Definition stdio (i o e : obj) : table := Some i :: Some o :: Some e :: replicate 13 None.

(** A command on its way: still to be run, a program that runs, both sides of a pipe, or one
    command behind another. *)
Inductive job :=
| Todo (c : command) (i o e : obj)
| Prog (argv : list (list Z)) (t : table)
| Par (l r : job)
| Seq (j : job) (c : command) (i o e : obj)
| Done.

(** A step of a job, [n] being the pipes made so far; the list holds the job it puts into the
    background.  What a system call may refuse ends the job there. *)
Inductive jstep : nat -> job -> option event -> job -> list job -> nat -> Prop :=
| j_exec n a argv i o e : jstep n (Todo (EXEC (a :: argv)) i o e) (Some (Launch (a :: argv) (stdio i o e))) (Prog (a :: argv) (stdio i o e)) [] n
| j_exec_none n argv i o e : jstep n (Todo (EXEC argv) i o e) None Done [] n
| j_end n argv t : jstep n (Prog argv t) (Some (Ended argv)) Done [] n
| j_redir_in n c f m i o e : jstep n (Todo (REDIR c f m 0) i o e) None (Todo c (File f m) o e) [] n
| j_redir_out n c f m i o e : jstep n (Todo (REDIR c f m 1) i o e) None (Todo c i (File f m) e) [] n
| j_redir_fails n c f m fd i o e : jstep n (Todo (REDIR c f m fd) i o e) None Done [] n
| j_pipe n l r i o e : jstep n (Todo (PIPE l r) i o e) None (Par (Todo l i (WriteEnd n) e) (Todo r (ReadEnd n) o e)) [] (S n)
| j_pipe_fails n l r i o e : jstep n (Todo (PIPE l r) i o e) None Done [] n
| j_no_left n l i o e r i' o' e' : jstep n (Par (Todo l i o e) (Todo r i' o' e')) None Done [] n
| j_no_right n j r i o e : jstep n (Par j (Todo r i o e)) None Done [j] n
| j_left n l ev l' sp r n' : jstep n l ev l' sp n' -> jstep n (Par l r) ev (Par l' r) sp n'
| j_right n l r ev r' sp n' : jstep n r ev r' sp n' -> jstep n (Par l r) ev (Par l r') sp n'
| j_both n : jstep n (Par Done Done) None Done [] n
| j_list n l r i o e : jstep n (Todo (LIST l r) i o e) None (Seq (Todo l i o e) r i o e) [] n
| j_list_fails n l r i o e : jstep n (Todo (LIST l r) i o e) None Done [] n
| j_first n j ev j' sp r i o e n' : jstep n j ev j' sp n' -> jstep n (Seq j r i o e) ev (Seq j' r i o e) sp n'
| j_second n r i o e : jstep n (Seq Done r i o e) None (Todo r i o e) [] n
| j_back n c i o e : jstep n (Todo (BACK c) i o e) None Done [Todo c i o e] n
| j_back_fails n c i o e : jstep n (Todo (BACK c) i o e) None Done [] n.

(** The shell: at its prompt with the lines to come, waiting for the job of a line, or ended. *)
Inductive shell :=
| Prompt (lines : list (list Z))
| Waiting (j : job) (lines : list (list Z))
| Off.
Record session := Session { a_shell : shell; a_background : list job; a_pipes : nat }.

Section session.
(** The descriptors of the shell. *)
Context (i o e : obj).

(** A line that is not parsed does nothing. *)
Definition job_of (line : list Z) : job :=
  match parsecmd (line ++ [LF]) with Ret c _ => Todo c i o e | _ => Done end.

(** A line is read only when the job of the line before is done; the background goes on all
    the time. *)
Inductive astep : session -> option event -> session -> Prop :=
| a_cd l ls bg n : starts_with (str "cd ") l = true ->
    astep (Session (Prompt (l :: ls)) bg n) (Some (ChangeDir (drop 3 l))) (Session (Prompt ls) bg n)
| a_line l ls bg n : starts_with (str "cd ") l = false ->
    astep (Session (Prompt (l :: ls)) bg n) None (Session (Waiting (job_of l) ls) bg n)
| a_fork_fails l ls bg n : starts_with (str "cd ") l = false -> astep (Session (Prompt (l :: ls)) bg n) None (Session Off bg n)
| a_job j ls bg n ev j' sp n' bg' : jstep n j ev j' sp n' -> bg' ≡ₚ sp ++ bg ->
    astep (Session (Waiting j ls) bg n) ev (Session (Waiting j' ls) bg' n')
| a_next ls bg n : astep (Session (Waiting Done ls) bg n) None (Session (Prompt ls) bg n)
| a_end bg n : astep (Session (Prompt []) bg n) None (Session Off bg n)
| a_background_step sh b rest bg n ev b' sp n' bg' : bg ≡ₚ b :: rest -> jstep n b ev b' sp n' -> bg' ≡ₚ b' :: sp ++ rest ->
    astep (Session sh bg n) ev (Session sh bg' n').
End session.

(** Runs with the events they show. *)
Inductive runs {S} (step : S -> option event -> S -> Prop) : S -> list event -> S -> Prop :=
| runs_nil s : runs step s [] s
| runs_step s ev s' evs s'' : step s ev s' -> runs step s' evs s'' -> runs step s (option_list ev ++ evs) s''.

Lemma runs_snoc {S} (step : S -> option event -> S -> Prop) s evs s' ev s'' : runs step s evs s' -> step s' ev s'' -> runs step s (evs ++ option_list ev) s''.
Proof.
  induction 1 as [s|s ev1 s1 evs s2 H1 _ IH]; intros H.
  - rewrite <-(app_nil_r (option_list ev)). eapply runs_step; [exact H|apply runs_nil].
  - rewrite <-app_assoc. eapply runs_step; [exact H1|by apply IH].
Qed.

(** Redirections of descriptors 0 and 1. *)
Fixpoint wf_cmd (c : command) : Prop :=
  match c with
  | EXEC _ => True
  | REDIR c _ _ fd => (fd = 0 \/ fd = 1) /\ wf_cmd c
  | PIPE l r | LIST l r => wf_cmd l /\ wf_cmd r
  | BACK c => wf_cmd c
  end.

Lemma wf_redirs c rs : wf_cmd c -> Forall (fun r : redir (list Z) => snd r = 0 \/ snd r = 1) rs -> wf_cmd (fold_left redircmd rs c).
Proof. intros Hc Hr. revert c Hc. induction Hr as [|[[f m] fd] rs Hfd _ IH]; intros c Hc; [done|]. apply IH. by split. Qed.
Lemma redir_of_fd c m fd : redir_of c = Some (m, fd) -> fd = 0 \/ fd = 1.
Proof. unfold redir_of. destruct (c =? 60); [intros [= <- <-]; by left|]. destruct ((c =? 62) || (c =? APPEND)); [|done]. intros [= <- <-]. by right. Qed.
Lemma g_redirs_fds ts rs : g_redirs ts rs -> Forall (fun r : redir (list Z) => snd r = 0 \/ snd r = 1) rs.
Proof. induction 1; constructor; [by eapply redir_of_fd|done]. Qed.
Lemma g_args_fds ts ws rs : g_args ts ws rs -> Forall (fun r : redir (list Z) => snd r = 0 \/ snd r = 1) rs.
Proof. induction 1; [done|done|]. constructor; [by eapply redir_of_fd|done]. Qed.

Lemma wf_backs n c : wf_cmd c -> wf_cmd (backs n c).
Proof. intros H. by induction n. Qed.
Lemma grammar_wf : (forall ts c, g_line ts c -> wf_cmd c) /\ (forall ts c, g_pipe ts c -> wf_cmd c) /\ (forall ts c, g_exec ts c -> wf_cmd c).
Proof.
  apply grammar_ind; intros; try (split; eauto using wf_backs); eauto using wf_backs; apply wf_redirs; eauto using g_args_fds, g_redirs_fds. done.
Qed.

(** A line that fits the buffer. *)
Definition fits (l : list Z) : Prop := NUL ∉ l /\ LF ∉ l /\ CR ∉ l /\ (length l + 1 < CMDLEN)%nat.

Lemma gets_line_cons m c input : gets_line (S (S m)) (c :: input) =
  if (c =? LF) || (c =? CR) then ([c], input) else let '(l, r) := gets_line (S m) input in (c :: l, r).
Proof. done. Qed.
Lemma gets_line_fits max l rest : LF ∉ l -> CR ∉ l -> (length l + 1 < max)%nat -> gets_line max (l ++ LF :: rest) = (l ++ [LF], rest).
Proof.
  revert max. induction l as [|c l IH]; intros max H1 H2 Hm; simpl in Hm.
  - destruct max as [|[|max]]; [lia|lia|]. done.
  - apply not_elem_of_cons in H1 as [Hc1 H1]. apply not_elem_of_cons in H2 as [Hc2 H2]. destruct max as [|[|max]]; [lia|lia|]. cbn [app]. rewrite gets_line_cons.
    rewrite (proj2 (Z.eqb_neq c LF)), (proj2 (Z.eqb_neq c CR)) by done. cbn [orb]. by rewrite IH by (done || lia).
Qed.

Lemma getcmd_fits l rest : fits l -> getcmd (l ++ LF :: rest) = Some (l ++ [LF], rest).
Proof.
  intros (H0 & H1 & H2 & Hn). unfold getcmd. rewrite gets_line_fits by done. rewrite cstr_word; [by destruct l|].
  intros [H|H]%elem_of_app; [done|]. by apply list_elem_of_singleton in H.
Qed.

Lemma starts_with_end p l : LF ∉ p -> starts_with p (l ++ [LF]) = starts_with p l.
Proof.
  revert l. induction p as [|x p IH]; intros l Hp; [by destruct l|]. apply not_elem_of_cons in Hp as [Hx Hp]. destruct l as [|c l]; cbn.
  - by rewrite (proj2 (Z.eqb_neq x LF)).
  - by rewrite IH.
Qed.


(** ** Jobs and processes *)

(** The descriptors between the system calls of the shell: closing and copying only. *)
Inductive setup : code -> table -> code -> table -> Prop :=
| su_here c t : setup c t c t
| su_close fd k t c' t' : setup k (close fd t) c' t' -> setup (Close fd k) t c' t'
| su_dup fd k t c' t' : setup (k (fst (dup fd t))) (snd (dup fd t)) c' t' -> setup (Dup fd k) t c' t'.

Definition piped (i o e : obj) (n : nat) : table := Some i :: Some o :: Some e :: Some (ReadEnd n) :: Some (WriteEnd n) :: replicate 11 None.
Definition left_side (l : command) : code := Close 1 (Dup 4 (fun _ => Close 3 (Close 4 (runcmd l)))).
Definition right_side (r : command) : code := Close 0 (Dup 3 (fun _ => Close 3 (Close 4 (runcmd r)))).
Definition pipe_end : code := Close 3 (Close 4 (Wait (Wait Exit))).

(** The job that a process and its descendants work on, and the jobs its orphans will have. *)
Inductive rel : process -> job -> list job -> Prop :=
| r_todo p t c i o e : wf_cmd c -> setup p t (runcmd c) (stdio i o e) -> rel (Proc (Run p) t []) (Todo c i o e) []
| r_open c f m fd i o e : fd = 0 \/ fd = 1 -> wf_cmd c ->
    rel (Proc (Run (Open f m (fun r => if r <? 0 then Exit else runcmd c))) (close fd (stdio i o e)) []) (Todo (REDIR c f m fd) i o e) []
| r_prog argv t : rel (Proc (User argv) t []) (Prog argv t) []
| r_zombie t : rel (Proc Zombie t []) Done []
| r_exit t : rel (Proc (Run Exit) t []) Done []
| r_exit_child t p j d : rel p j d -> rel (Proc (Run Exit) t [p]) Done (j :: d)
| r_seq p j d r i o e : wf_cmd r -> rel p j d -> rel (Proc (Run (Wait (runcmd r))) (stdio i o e) [p]) (Seq j r i o e) d
| r_fork_left l r i o e n : wf_cmd l -> wf_cmd r ->
    rel (Proc (Run (fork1 (left_side l) (fork1 (right_side r) pipe_end))) (piped i o e n) [])
      (Par (Todo l i (WriteEnd n) e) (Todo r (ReadEnd n) o e)) []
| r_fork_right p j d r i o e n : wf_cmd r -> rel p j d ->
    rel (Proc (Run (fork1 (right_side r) pipe_end)) (piped i o e n) [p]) (Par j (Todo r (ReadEnd n) o e)) d
| r_both c t t' pl jl dl pr jr dr : setup c t (Wait (Wait Exit)) t' -> rel pl jl dl -> rel pr jr dr ->
    rel (Proc (Run c) t [pl; pr]) (Par jl jr) (dl ++ dr)
| r_left p j d t : rel p j d -> rel (Proc (Run (Wait Exit)) t [p]) (Par j Done) d
| r_right p j d t : rel p j d -> rel (Proc (Run (Wait Exit)) t [p]) (Par Done j) d.

Inductive rels : list process -> list job -> Prop :=
| rs_nil : rels [] []
| rs_cons p j d ps ds : rel p j d -> rels ps ds -> rels (p :: ps) (j :: d ++ ds).

Lemma rels_one p j d : rel p j d -> rels [p] (j :: d).
Proof. intros H. rewrite <-(app_nil_r d). apply rs_cons; [done|apply rs_nil]. Qed.

Lemma rels_app ps ds qs es : rels ps ds -> rels qs es -> rels (ps ++ qs) (ds ++ es).
Proof. intros H Hq. induction H as [|p j d ps ds Hp _ IH]; [done|]. cbn [app]. rewrite <-app_assoc. by apply rs_cons. Qed.

Lemma rels_split p1 p p2 ds : rels (p1 ++ p :: p2) ds -> exists d1 j d d2, ds = d1 ++ (j :: d) ++ d2 /\ rels p1 d1 /\ rel p j d /\ rels p2 d2.
Proof.
  revert ds. induction p1 as [|q p1 IH]; intros ds H; inversion H as [|? j d ? ds' Hq Hr]; subst.
  - exists [], j, d, ds'. split_and!; [done|apply rs_nil|done|done].
  - destruct (IH _ Hr) as (d1 & j' & d' & d2 & -> & H1 & Hp & H2). exists (j :: d ++ d1), j', d', d2.
    split_and!; [cbn; by rewrite <-!app_assoc|by apply rs_cons|done|done].
Qed.

(** ** Simulation *)

(** What the step of a process is for its job and the jobs of its orphans. *)
Inductive soup : job -> list job -> nat -> option event -> job -> list job -> nat -> Prop :=
| so_idle j d d' n : d' ≡ₚ d -> soup j d n None j d' n
| so_job j d n ev j' sp n' d' : jstep n j ev j' sp n' -> d' ≡ₚ sp ++ d -> soup j d n ev j' d' n'
| so_background j d n b rest ev b' sp n' d' : d ≡ₚ b :: rest -> jstep n b ev b' sp n' -> d' ≡ₚ b' :: sp ++ rest -> soup j d n ev j d' n'.

(** In a larger job. *)
Lemma soup_in (C : job -> job) f j d n ev j' d' n' e e' : (forall n j ev j' sp n', jstep n j ev j' sp n' -> jstep n (C j) ev (C j') sp n') ->
  soup j d n ev j' d' n' -> e ≡ₚ d ++ f -> e' ≡ₚ d' ++ f -> soup (C j) e n ev (C j') e' n'.
Proof.
  intros HC [? ? ? ? H|? ? ? ? ? sp ? ? Hj H|? ? ? b rest ? b' sp ? ? Hd Hj H] He He'.
  - apply so_idle. by rewrite He, He', H.
  - eapply so_job; [by apply HC|]. by rewrite He', H, He, app_assoc.
  - eapply (so_background _ _ _ b (rest ++ f)); [by rewrite He, Hd|exact Hj|]. rewrite He', H. cbn. by rewrite app_assoc.
Qed.

(** A job among the background jobs. *)
Lemma soup_background J f j d n ev j' d' n' e e' : soup j d n ev j' d' n' -> e ≡ₚ (j :: d) ++ f -> e' ≡ₚ (j' :: d') ++ f -> soup J e n ev J e' n'.
Proof.
  cbn. intros [? ? ? ? H|? ? ? ? ? sp ? ? Hj H|? ? ? b rest ? b' sp ? ? Hd Hj H] He He'.
  - apply so_idle. by rewrite He, He', H.
  - eapply so_background; [exact He|exact Hj|]. by rewrite He', H, app_assoc.
  - eapply so_background; [rewrite He, Hd; apply Permutation_swap|exact Hj|].
    rewrite He', H. cbn. rewrite <-app_assoc. etrans; [apply Permutation_swap|]. f_equiv. apply Permutation_middle.
Qed.

(** The least free descriptors of the shell's processes. *)
Lemma fdalloc_stdin f o e : fdalloc f (close 0 (stdio f o e)) = Some (0, stdio f o e).
Proof. reflexivity. Qed.
Lemma fdalloc_open fd f m i o e : fd = 0 \/ fd = 1 ->
  fdalloc (File f m) (close fd (stdio i o e)) = Some (fd, if fd =? 0 then stdio (File f m) o e else stdio i (File f m) e).
Proof. by intros [-> | ->]. Qed.
Lemma pipe_stdio n i o e : pipe n (stdio i o e) = Some (3, 4, piped i o e n).
Proof. reflexivity. Qed.

Lemma setup_left l i o e n : setup (left_side l) (piped i o e n) (runcmd l) (stdio i (WriteEnd n) e).
Proof. repeat constructor. Qed.
Lemma setup_right r i o e n : setup (right_side r) (piped i o e n) (runcmd r) (stdio (ReadEnd n) o e).
Proof. repeat constructor. Qed.

(** What a step leads to. *)
Definition answers (j : job) (d : list job) n ev p' os n' : Prop :=
  exists j' d' D, rel p' j' d' /\ rels os D /\ soup j d n ev j' (d' ++ D) n'.

Lemma answers_none j d n ev p' n' j' d' : rel p' j' d' -> soup j d n ev j' d' n' -> answers j d n ev p' [] n'.
Proof. intros H1 H2. exists j', d', []. rewrite app_nil_r. split_and!; [done|apply rs_nil|done]. Qed.

Lemma answers_idle j d n p' : rel p' j d -> answers j d n None p' [] n.
Proof. intros H. eapply answers_none; [exact H|by apply so_idle]. Qed.

Ltac no_child := match goal with H : ?l ++ _ :: _ = [] |- _ => by destruct l | H : [] = ?l ++ _ :: _ |- _ => by destruct l end.
Ltac step_inv H := inversion H; subst; try no_child.
Ltac call_inv := match goal with H : call _ _ _ _ _ _ _ |- _ => inversion H; subst; clear H end.

(** A job that is done by a process with no children of its own. *)
Ltac does_job := eapply answers_none; [|eapply so_job; [econstructor|by rewrite ?app_nil_r]].

Lemma step_todo c t cm i o e n ev p' os n' : wf_cmd cm -> setup c t (runcmd cm) (stdio i o e) ->
  pstep (Proc (Run c) t []) n ev p' os n' -> answers (Todo cm i o e) [] n ev p' os n'.
Proof.
  intros Hwf Hs Hst. inversion Hs as [? ? E|fd k ? ? ? Hk|fd k ? ? ? Hk]; subst.
  2:{ step_inv Hst. call_inv. apply answers_idle. by apply r_todo. }
  2:{ step_inv Hst. call_inv. apply answers_idle. by apply r_todo. }
  destruct cm as [[|a argv]|cm f m fd|l r|l r|cm]; cbn [runcmd] in Hst; step_inv Hst; try call_inv.
  - exists Done, [], []. split_and!; [constructor|constructor|]. eapply so_job; [econstructor|done].
  - does_job. constructor.
  - does_job. constructor.
  - destruct Hwf. apply answers_idle. by apply r_open.
  - destruct Hwf. rewrite pipe_stdio in *. simplify_eq. does_job. by apply r_fork_left.
  - eapply answers_none; [|eapply so_job; [apply j_pipe_fails|done]]. constructor.
  - destruct Hwf. does_job. apply (r_seq _ _ []); [done|]. apply r_todo; [done|constructor].
  - eapply answers_none; [|eapply so_job; [apply j_list_fails|done]]. constructor.
  - eapply answers_none; [|eapply so_job; [apply j_back|done]]. apply (r_exit_child _ _ _ []). apply r_todo; [done|constructor].
  - eapply answers_none; [|eapply so_job; [apply j_back_fails|done]]. constructor.
Qed.

Lemma step_open cm f m fd i o e n ev p' os n' : fd = 0 \/ fd = 1 -> wf_cmd cm ->
  pstep (Proc (Run (Open f m (fun r => if r <? 0 then Exit else runcmd cm))) (close fd (stdio i o e)) []) n ev p' os n' ->
  answers (Todo (REDIR cm f m fd) i o e) [] n ev p' os n'.
Proof.
  intros Hfd Hwf Hst. step_inv Hst. call_inv.
  - rewrite fdalloc_open in * by done. simplify_eq. destruct Hfd as [-> | ->]; does_job; (apply r_todo; [done|constructor]).
  - eapply answers_none; [|eapply so_job; [apply j_redir_fails|done]]. constructor.
Qed.

(** A step of the only child. *)
Lemma one_child (c1 : list process) p c2 q : c1 ++ p :: c2 = [q] -> c1 = [] /\ p = q /\ c2 = [].
Proof. destruct c1 as [|x [|y c1]]; [by intros [= -> ->]|done|done]. Qed.
Lemma two_children (c1 : list process) p c2 q r : c1 ++ p :: c2 = [q; r] -> c1 = [] /\ p = q /\ c2 = [r] \/ c1 = [q] /\ p = r /\ c2 = [].
Proof. destruct c1 as [|x [|y [|z c1]]]; [intros [= -> ->]; by left|intros [= -> -> ->]; by right|done|done]. Qed.

Lemma zombie_rel t j d : rel (Proc Zombie t []) j d -> j = Done /\ d = [].
Proof. by inversion 1. Qed.

(** The job of the child in the job of its parent. *)
Lemma answers_in (C : job -> job) f j d n ev p os n' q :
  (forall n j ev j' sp n', jstep n j ev j' sp n' -> jstep n (C j) ev (C j') sp n') ->
  answers j d n ev p os n' -> (forall j' d', rel p j' d' -> rel q (C j') (d' ++ f)) -> answers (C j) (d ++ f) n ev q os n'.
Proof.
  intros HC (j' & d' & D & Hp & Hos & Hso) Hq. exists (C j'), (d' ++ f), D. split_and!; [by apply Hq|done|].
  eapply soup_in; [exact HC|exact Hso|done|]. by rewrite <-!app_assoc, (Permutation_app_comm D f).
Qed.

Ltac one := match goal with E : _ ++ _ :: _ = [_] |- _ => apply one_child in E as (? & ? & ?); subst end.
Ltac no_call := match goal with Hc : call _ _ _ _ _ _ _ |- _ => by inversion Hc end.
Ltac stepped H := inversion H; subst; clear H; try no_call.

(** Waiting for an only child, and steps of it. *)
Lemma step_waiting k t p n ev q os n' : pstep (Proc (Run (Wait k)) t [p]) n ev q os n' ->
  (exists t', p = Proc Zombie t' [] /\ q = Proc (Run k) t [] /\ os = [] /\ ev = None /\ n' = n) \/
  (exists p', q = Proc (Run (Wait k)) t [p'] /\ pstep p n ev p' os n').
Proof.
  intros H. stepped H; one.
  - left. by eexists.
  - right. by eexists.
Qed.

Ltac answers_child IH C := let H := fresh in
  match goal with Hx : pstep _ _ _ _ _ _ |- _ => pose proof (IH _ _ _ _ _ Hx) as H end;
  eapply (answers_in C []) in H; [rewrite app_nil_r in H; exact H|by econstructor|].

Lemma simulation p j d : rel p j d -> forall n ev p' os n', pstep p n ev p' os n' -> answers j d n ev p' os n'.
Proof.
  induction 1 as [p t c i o e Hwf Hs|c f m fd i o e Hfd Hwf|argv t|t|t|t p j d Hp IH|p j d r i o e Hwf Hp IH|l r i o e n0 Hl Hr|p j d r i o e n0 Hr Hp IH
    |c t t' pl jl dl pr jr dr Hs Hl IHl Hr IHr|p j d t Hp IH|p j d t Hp IH]; intros n ev q os n' Hst.
  - by eapply step_todo.
  - by apply step_open.
  - step_inv Hst. does_job. constructor.
  - step_inv Hst.
  - step_inv Hst; [by call_inv|]. apply answers_idle. constructor.
  - stepped Hst.
    + exists Done, [], (j :: d). split_and!; [constructor|by apply rels_one|by apply so_idle].
    + one. match goal with Hx : pstep _ _ _ _ _ _ |- _ => rename Hx into Hsub end. destruct (IH _ _ _ _ _ Hsub) as (j' & d' & D & Hp' & Hos & Hso).
      exists Done, (j' :: d'), D. split_and!; [by apply r_exit_child|done|].
      eapply (soup_background Done []); [exact Hso|by rewrite app_nil_r|by rewrite app_nil_r].
  - apply step_waiting in Hst as [(t' & -> & -> & -> & -> & ->)|(p' & -> & Hx)].
    + apply zombie_rel in Hp as [-> ->]. eapply answers_none; [|eapply so_job; [apply j_second|done]]. apply r_todo; [done|constructor].
    + answers_child IH (fun x => Seq x r i o e). intros j' d' Hp'. rewrite app_nil_r. by apply r_seq.
  - step_inv Hst; [by call_inv| |].
    + apply answers_idle. apply r_fork_right; [done|]. apply r_todo; [done|apply setup_left].
    + eapply answers_none; [|eapply so_job; [apply j_no_left|done]]. constructor.
  - stepped Hst.
    + cbn [app]. apply answers_idle. rewrite <-(app_nil_r d). eapply r_both; [do 2 constructor; constructor|done|].
      apply r_todo; [done|apply setup_right].
    + eapply answers_none; [|eapply so_job; [apply j_no_right|done]]. by apply r_exit_child.
    + one. answers_child IH (fun x => Par x (Todo r (ReadEnd n0) o e)).
      intros j' d' Hp'. rewrite app_nil_r. by apply r_fork_right.
  - inversion Hst; subst; clear Hst; try (inversion Hs; fail).
    + match goal with Hc : call _ _ _ _ _ _ _ |- _ => rename Hc into Hcall end. inversion Hs; subst; inversion Hcall; subst; apply answers_idle; by eapply r_both.
    + inversion Hs; subst. match goal with E : _ ++ _ :: _ = [pl; pr] |- _ => apply two_children in E as [(-> & <- & ->)|(-> & <- & ->)] end.
      * apply zombie_rel in Hl as [-> ->]. cbn [app]. apply answers_idle. by apply r_right.
      * apply zombie_rel in Hr as [-> ->]. rewrite app_nil_r. cbn [app]. apply answers_idle. by apply r_left.
    + match goal with E : _ ++ _ :: _ = [pl; pr] |- _ => apply two_children in E as [(-> & -> & ->)|(-> & -> & ->)] end;
        match goal with Hx : pstep _ _ _ _ _ _ |- _ => rename Hx into Hsub end; cbn [app].
      * eapply (answers_in (fun x => Par x jr) dr); [by econstructor|by apply IHl|]. intros j' d' Hp'. by eapply r_both.
      * destruct (IHr _ _ _ _ _ Hsub) as (j' & d' & D & Hp' & Hos & Hso). exists (Par jl j'), (dl ++ d'), D.
        split_and!; [by eapply r_both|done|]. eapply (soup_in (fun x => Par jl x) dl); [by econstructor|exact Hso|by rewrite Permutation_app_comm|].
        rewrite <-app_assoc. by rewrite Permutation_app_comm.
  - apply step_waiting in Hst as [(t' & -> & -> & -> & -> & ->)|(p' & -> & Hx)].
    + apply zombie_rel in Hp as [-> ->]. eapply answers_none; [|eapply so_job; [apply j_both|done]]. constructor.
    + answers_child IH (fun x => Par x Done). intros j' d' Hp'. rewrite app_nil_r. by apply r_left.
  - apply step_waiting in Hst as [(t' & -> & -> & -> & -> & ->)|(p' & -> & Hx)].
    + apply zombie_rel in Hp as [-> ->]. eapply answers_none; [|eapply so_job; [apply j_both|done]]. constructor.
    + answers_child IH (fun x => Par Done x). intros j' d' Hp'. rewrite app_nil_r. by apply r_right.
Qed.

(** ** No process is stuck *)

Lemma todo_moves c t cm i o e n : setup c t (runcmd cm) (stdio i o e) -> exists ev q os n', pstep (Proc (Run c) t []) n ev q os n'.
Proof.
  intros Hs. inversion Hs; subst; try (do 4 eexists; apply ps_call; constructor; fail).
  destruct cm as [[|a argv]|cm f m fd|l r|l r|cm]; cbn [runcmd]; do 4 eexists.
  - apply ps_exit.
  - apply ps_call. constructor.
  - apply ps_call. constructor.
  - apply ps_call. apply call_pipe_fails.
  - apply ps_fork.
  - apply ps_fork.
Qed.

Lemma child_moves st t c1 p c2 n : (exists ev q os n', pstep p n ev q os n') -> exists ev q os n', pstep (Proc st t (c1 ++ p :: c2)) n ev q os n'.
Proof. intros (ev & q & os & n' & H). do 4 eexists. apply ps_child. exact H. Qed.

Lemma rel_moves p j d n : rel p j d -> (exists t, p = Proc Zombie t []) \/ exists ev q os n', pstep p n ev q os n'.
Proof.
  induction 1 as [p t c i o e Hwf Hs|c f m fd i o e Hfd Hwf|argv t|t|t|t p j d Hp IH|p j d r i o e Hwf Hp IH|l r i o e n0 Hl Hr|p j d r i o e n0 Hr Hp IH
    |c t t' pl jl dl pr jr dr Hs Hl IHl Hr IHr|p j d t Hp IH|p j d t Hp IH]; [right; by eapply todo_moves| | |by left; eexists|..]; right.
  - do 4 eexists. apply ps_call, call_open_fails.
  - do 4 eexists. apply ps_end.
  - do 4 eexists. apply ps_exit.
  - do 4 eexists. apply ps_exit.
  - destruct IH as [[tz ->]|IH]; [|by apply (child_moves _ _ [] p [])]. do 4 eexists. by apply (ps_wait _ _ [] _ []).
  - do 4 eexists. apply ps_fork.
  - do 4 eexists. apply ps_fork.
  - inversion Hs; subst; try (do 4 eexists; apply ps_call; constructor; fail).
    destruct IHl as [[tz ->]|IH]; [|by apply (child_moves _ _ [] pl [pr])]. do 4 eexists. by apply (ps_wait _ _ [] _ [pr]).
  - destruct IH as [[tz ->]|IH]; [|by apply (child_moves _ _ [] p [])]. do 4 eexists. by apply (ps_wait _ _ [] _ []).
  - destruct IH as [[tz ->]|IH]; [|by apply (child_moves _ _ [] p [])]. do 4 eexists. by apply (ps_wait _ _ [] _ []).
Qed.

(** ** The main loop *)

Definition input_of (lines : list (list Z)) : list Z := concat (map (fun l => l ++ [LF]) lines).

Section shell.
Context (i o e : obj).

Lemma fdalloc_console x : fdalloc x (stdio i o e) = Some (3, Some i :: Some o :: Some e :: Some x :: replicate 12 None).
Proof using Type. reflexivity. Qed.

(** The shell's process at its prompt, waiting, and at its end. *)
Inductive mrel : process -> shell -> list job -> Prop :=
| m_start f fuel lines : Forall fits lines -> (length (input_of lines) < fuel)%nat ->
    mrel (Proc (Run (open_console (S f) (main_loop fuel (input_of lines)))) (stdio i o e) []) (Prompt lines) []
| m_prompt c t fuel lines : Forall fits lines -> (length (input_of lines) < fuel)%nat -> setup c t (main_loop fuel (input_of lines)) (stdio i o e) ->
    mrel (Proc (Run c) t []) (Prompt lines) []
| m_wait fuel lines p j d : Forall fits lines -> (length (input_of lines) < fuel)%nat -> rel p j d ->
    mrel (Proc (Run (Wait (main_loop fuel (input_of lines)))) (stdio i o e) [p]) (Waiting j lines) d
| m_exit t : mrel (Proc (Run Exit) t []) Off []
| m_zombie t : mrel (Proc Zombie t []) Off [].

(** The code at the prompt, by the next line. *)
Lemma main_loop_end fuel : (length (input_of []) < fuel)%nat -> main_loop fuel (input_of []) = Exit.
Proof using Type. destruct fuel; [simpl; lia|]. done. Qed.
Lemma main_loop_line fuel l lines : fits l -> (length (input_of (l :: lines)) < fuel)%nat ->
  exists f, (length (input_of lines) < f)%nat /\ main_loop fuel (input_of (l :: lines)) =
    if starts_with (str "cd ") l then Chdir (drop 3 l) (main_loop f (input_of lines))
    else fork1 (match parsecmd (l ++ [LF]) with Ret c _ => runcmd c | _ => Exit end) (Wait (main_loop f (input_of lines))).
Proof using Type.
  intros Hl Hf. destruct fuel as [|f]; [lia|]. exists f. unfold input_of in Hf |- *. cbn [map concat] in *. rewrite !length_app in Hf. simpl in Hf. split; [lia|].
  cbn [main_loop]. rewrite <-app_assoc. cbn [app]. rewrite getcmd_fits by done.
  rewrite starts_with_end by (apply (bool_decide_unpack _); by vm_compute). destruct (starts_with (str "cd ") l); [|done].
  rewrite length_app. simpl. replace (length l + 1 - 1)%nat with (length l) by lia. by rewrite take_app_length.
Qed.

(** The child for a line. *)
Lemma line_rel l : fits l -> rel (Proc (Run (match parsecmd (l ++ [LF]) with Ret c _ => runcmd c | _ => Exit end)) (stdio i o e) []) (job_of i o e l) [].
Proof using Type.
  intros (H0 & _). assert (NUL ∉ l ++ [LF]) as H0' by (intros [H|H]%elem_of_app; [done|by apply list_elem_of_singleton in H]).
  pose proof (parsecmd_sound _ H0') as Hs. unfold obeys in Hs. unfold job_of. destruct (parsecmd (l ++ [LF])) as [c s| | | |]; try constructor.
  - destruct Hs as (ts & _ & Hg). by apply grammar_wf in Hg.
  - constructor.
Qed.

(** What a step of the shell's process is for the session, next to the background jobs [F]. *)
Definition session_step sh (d : list job) n ev sh' (d' : list job) n' : Prop :=
  (ev = None /\ n' = n /\ sh' = sh /\ d' ≡ₚ d) \/
  forall bg F, bg ≡ₚ d ++ F -> exists bg', bg' ≡ₚ d' ++ F /\ astep i o e (Session sh bg n) ev (Session sh' bg' n').
Definition replies sh d n ev p' os n' : Prop :=
  exists sh' d' D, mrel p' sh' d' /\ rels os D /\ session_step sh d n ev sh' (d' ++ D) n'.

Lemma replies_none sh d n ev p' n' sh' d' : mrel p' sh' d' -> session_step sh d n ev sh' d' n' -> replies sh d n ev p' [] n'.
Proof using Type. intros H1 H2. exists sh', d', []. rewrite app_nil_r. split_and!; [done|apply rs_nil|done]. Qed.
Lemma session_idle sh d n : session_step sh d n None sh d n.
Proof using Type. left. by split_and!. Qed.
Lemma session_moves sh d n ev sh' n' : (forall bg, astep i o e (Session sh bg n) ev (Session sh' bg n')) -> session_step sh d n ev sh' d n'.
Proof using Type. intros H. right. intros bg F E. exists bg. by split. Qed.

Lemma session_job j d n ev j' d' n' ls : soup j d n ev j' d' n' -> session_step (Waiting j ls) d n ev (Waiting j' ls) d' n'.
Proof using Type.
  intros [? ? ? ? H|? ? ? ? ? sp ? ? Hj H|? ? ? b rest ? b' sp ? ? Hd Hj H].
  - left. by split_and!.
  - right. intros bg F E. eexists. split; [reflexivity|]. eapply a_job; [exact Hj|]. by rewrite H, E, app_assoc.
  - right. intros bg F E. eexists. split; [reflexivity|]. eapply a_background_step with (b := b) (rest := rest ++ F); [by rewrite E, Hd|exact Hj|]. rewrite H. cbn. by rewrite app_assoc.
Qed.

Lemma shell_simulation p sh d n ev p' os n' : mrel p sh d -> pstep p n ev p' os n' -> replies sh d n ev p' os n'.
Proof using Type.
  intros [f fuel lines Hl Hf|c t fuel lines Hl Hf Hs|fuel lines q j d0 Hl Hf Hq|t|t] Hst.
  - cbn [open_console] in Hst. step_inv Hst. call_inv; eapply replies_none; try apply session_idle.
    + rewrite fdalloc_console in *. simplify_eq. eapply m_prompt; [done|exact Hf|]. apply su_close, su_here.
    + eapply m_prompt; [done|exact Hf|]. apply su_here.
  - inversion Hs as [? ? E|fd k ? ? ? Hk|fd k ? ? ? Hk]; subst.
    + destruct Hl as [|l lines Hl1 Hl].
      * rewrite main_loop_end in Hst by done. step_inv Hst; [by call_inv|]. eapply replies_none; [constructor|]. apply session_moves. intros bg. apply a_end.
      * destruct (main_loop_line fuel l lines Hl1 Hf) as (f & Hf2 & E). rewrite E in Hst. clear E Hs. destruct (starts_with (str "cd ") l) eqn:Ecd.
        -- step_inv Hst. call_inv. eapply replies_none; [eapply m_prompt; [done|exact Hf2|apply su_here]|]. apply session_moves. intros bg. by apply a_cd.
        -- step_inv Hst; [by call_inv| |].
           ++ eapply replies_none; [eapply m_wait; [done|exact Hf2|by apply line_rel]|]. apply session_moves. intros bg. by apply a_line.
           ++ eapply replies_none; [constructor|]. apply session_moves. intros bg. by apply a_fork_fails.
    + step_inv Hst. call_inv. eapply replies_none; [by eapply m_prompt|apply session_idle].
    + step_inv Hst. call_inv. eapply replies_none; [by eapply m_prompt|apply session_idle].
  - apply step_waiting in Hst as [(t' & -> & -> & -> & -> & ->)|(q' & -> & Hx)].
    + apply zombie_rel in Hq as [-> ->]. eapply replies_none; [eapply m_prompt; [done|exact Hf|apply su_here]|]. apply session_moves. intros bg. apply a_next.
    + destruct (simulation _ _ _ Hq _ _ _ _ _ Hx) as (j' & d' & D & Hq' & Hos & Hso). exists (Waiting j' lines), d', D.
      split_and!; [by apply m_wait|done|by apply session_job].
  - step_inv Hst; [by call_inv|]. eapply replies_none; [constructor|apply session_idle].
  - step_inv Hst.
Qed.

(** The whole system. *)
Definition srel (s : system) (a : session) : Prop :=
  exists d D, mrel (s_shell s) (a_shell a) d /\ rels (s_orphans s) D /\ a_background a ≡ₚ d ++ D /\ s_pipes s = a_pipes a.

Lemma bring (x d d1 d2 : list job) : d ++ d1 ++ x ++ d2 ≡ₚ x ++ d ++ d1 ++ d2.
Proof using Type. rewrite !(app_assoc d d1). apply Permutation_app_swap_app. Qed.
Lemma done_stays n ev j sp n' : ~ jstep n Done ev j sp n'.
Proof using Type. by inversion 1. Qed.

Lemma system_simulation s ev s' a : srel s a -> sstep s ev s' -> exists a', srel s' a' /\ (a' = a /\ ev = None \/ astep i o e a ev a').
Proof using Type.
  destruct a as [sh bg na]. intros (d & D & Hm & Hr & Hbg & En) Hst. cbn [a_shell a_background a_pipes] in *. destruct Hst as [p os n ev p' os' n' Hp|p o1 q o2 n ev q' os' n' Hq]; cbn [s_shell s_orphans s_pipes] in *; subst na.
  - destruct (shell_simulation _ _ _ _ _ _ _ _ Hm Hp) as (sh' & d' & D' & Hm' & Hr' & [(-> & -> & -> & Hd)|Hstep]).
    + exists (Session sh bg n). split; [|by left]. exists d', (D ++ D'). cbn. split_and!; [done|by apply rels_app|rewrite Hbg, <-Hd, <-!app_assoc; f_equiv; by rewrite Permutation_app_comm|done].
    + destruct (Hstep bg D Hbg) as (bg' & Hbg' & Ha). exists (Session sh' bg' n'). split; [|by right]. exists d', (D ++ D'). cbn.
      split_and!; [done|by apply rels_app|rewrite Hbg', <-!app_assoc; f_equiv; by rewrite Permutation_app_comm|done].
  - apply rels_split in Hr as (d1 & j & dq & d2 & -> & H1 & Hq1 & H2). destruct (simulation _ _ _ Hq1 _ _ _ _ _ Hq) as (j' & d' & D' & Hq' & Hos & Hso).
    set (F := d ++ d1 ++ d2). assert (Hbg2 : bg ≡ₚ (j :: dq) ++ F).
    { rewrite Hbg. apply bring. }
    assert (Hnew : (j' :: d' ++ D') ++ F ≡ₚ d ++ d1 ++ (j' :: d') ++ d2 ++ D').
    { rewrite bring. unfold F. change (j' :: d' ++ D') with ((j' :: d') ++ D'). rewrite <-app_assoc. f_equiv.
      rewrite (Permutation_app_comm D'). by rewrite <-!app_assoc. }
    assert (Hrel : rels (o1 ++ q' :: o2 ++ os') (d1 ++ (j' :: d') ++ d2 ++ D')) by (apply rels_app; [done|]; apply rs_cons; [done|by apply rels_app]).
    pose proof (soup_background Done F _ _ _ _ _ _ _ _ _ Hso Hbg2 (reflexivity _)) as Hb.
    inversion Hb as [? ? ? ? Hd E1 E2|? ? ? ? ? sp ? ? Hj|? ? ? b rest ? b' sp ? ? Hd Hj Hd']; subst.
    + exists (Session sh bg n'). split; [|by left]. eexists d, _. split_and!; [done|exact Hrel| |done]. cbn [a_background]. by rewrite <-Hnew, <-Hd.
    + by apply done_stays in Hj.
    + eexists (Session sh _ n'). split; [|right; by eapply a_background_step]. eexists d, _. split_and!; [done|exact Hrel| |done].
      cbn [a_background]. by rewrite <-Hnew.
Qed.

Lemma run_simulation s evs s' : runs sstep s evs s' -> forall a, srel s a -> exists a', runs (astep i o e) a evs a' /\ srel s' a'.
Proof using Type.
  induction 1 as [s|s ev s1 evs s2 Hst _ IH]; intros a Ha; [exists a; by split; [apply runs_nil|]|].
  destruct (system_simulation _ _ _ _ Ha Hst) as (a1 & Ha1 & [[-> ->]|Hstep]).
  - exact (IH _ Ha1).
  - destruct (IH _ Ha1) as (a2 & Hr & Ha2). exists a2. split; [by eapply runs_step|done].
Qed.

(** A process that has ended. *)
Definition ended (p : process) : Prop := exists t, p = Proc Zombie t [].

Lemma shell_moves p sh d n : mrel p sh d -> ended p /\ sh = Off \/ exists ev q os n', pstep p n ev q os n'.
Proof using Type.
  intros [f fuel lines Hl Hf|c t fuel lines Hl Hf Hs|fuel lines q j d0 Hl Hf Hq|t|t]; [right..|left; by split; [eexists|]].
  - do 4 eexists. apply ps_call, call_open_fails.
  - inversion Hs; subst; try (do 4 eexists; apply ps_call; constructor; fail). destruct Hl as [|l lines Hl1 Hl].
    + rewrite main_loop_end by done. do 4 eexists. apply ps_exit.
    + destruct (main_loop_line fuel l lines Hl1 Hf) as (f & _ & ->). destruct (starts_with _ _); do 4 eexists; [apply ps_call, call_chdir|apply ps_fork].
  - destruct (rel_moves _ _ _ n Hq) as [[tz ->]|H]; [|by apply (child_moves _ _ [] q [])]. do 4 eexists. by apply (ps_wait _ _ [] _ []).
  - do 4 eexists. apply ps_exit.
Qed.

Lemma rels_move ps ds n : rels ps ds -> Forall ended ps \/ exists o1 q o2 ev q' os n', ps = o1 ++ q :: o2 /\ pstep q n ev q' os n'.
Proof using Type.
  induction 1 as [|p j d ps ds Hp _ IH]; [by left|]. destruct (rel_moves _ _ _ n Hp) as [H|(ev & q & os & n' & H)].
  - destruct IH as [IH|(o1 & q & o2 & ev & q' & os & n' & -> & Hq)]; [left; by constructor|right]. by exists (p :: o1), q, o2, ev, q', os, n'.
  - right. by exists [], p, ps, ev, q, os, n'.
Qed.
End shell.

(** C37: the processes of a session of the shell implement its job control. In every interleaving
    of the shell, its children and their descendants, whichever system calls fail, and for every
    input of lines that fit the buffer, the programs that start (with their descriptors), the
    programs that end and the changes of directory are those of a run of the session [astep]:
    a line starts when the job of the line before is done, the right of a list when its left is
    done, both sides of a pipe run at once with its two ends as descriptor 1 and 0 and nothing
    else of it open, a redirection replaces descriptor 0 or 1, a background command is not
    waited for, a line that is not parsed starts nothing, and [cd] runs in the shell itself.
    And no process waits forever: when nothing can move any more, the shell has ended, and so
    has every process. *)
Theorem shell_session i o e lines evs s : Forall fits lines ->
  runs sstep (System (Proc (Run (main (input_of lines))) (stdio i o e) []) [] 0) evs s ->
  exists a, runs (astep i o e) (Session (Prompt lines) [] 0) evs a /\
    ((forall ev s', ~ sstep s ev s') -> a_shell a = Off /\ ended (s_shell s) /\ Forall ended (s_orphans s)).
Proof.
  intros Hl Hr. destruct (run_simulation i o e _ _ _ Hr (Session (Prompt lines) [] 0)) as (a & Ha & d & D & Hm & Hrs & Hbg & En).
  { exists [], []. split_and!; [apply m_start; [done|lia]|apply rs_nil|done|done]. }
  exists a. split; [done|]. intros Hstuck. destruct s as [p os n]. cbn [s_shell s_orphans s_pipes] in *.
  destruct (shell_moves i o e _ _ _ n Hm) as [[He Hoff]|(ev & q & os' & n' & H)]; [|exfalso; eapply Hstuck, st_shell; exact H].
  split_and!; [done|done|]. destruct (rels_move _ _ n Hrs) as [H|(o1 & q & o2 & ev & q' & os' & n' & -> & H)]; [done|].
  exfalso. eapply Hstuck, st_orphan. exact H.
Qed.

(** ** One line *)

Definition console : obj := File (str "console") O_RDWR.
Definition ls_table : table := stdio console console console.

(** The shell runs [ls] and ends with its input. *)
Lemma ls_run : exists s, runs sstep (System (Proc (Run (main (input_of [str "ls"]))) ls_table []) [] 0)
  [Launch [str "ls"] ls_table; Ended [str "ls"]] s /\ ended (s_shell s).
Proof.
  assert (Hf : fits (str "ls")) by (split_and!; try (apply (bool_decide_unpack _); by vm_compute); apply Nat.ltb_lt; by vm_compute).
  destruct (main_loop_line (S (length (input_of [str "ls"]))) (str "ls") [] Hf) as (f & Hlf & E); [lia|].
  change (starts_with (str "cd ") (str "ls")) with false in E. cbv iota in E.
  assert (Ep : exists b, parsecmd (str "ls" ++ [LF]) = Ret (EXEC [str "ls"]) b) by (eexists; vm_compute; reflexivity).
  destruct Ep as [b Ep]. rewrite Ep in E. cbn [runcmd] in E.
  unfold main. cbn [open_console]. rewrite E.
  eexists. split.
  - eapply (runs_step _ _ None); [apply st_shell, ps_call, call_open_fails|]. cbn [Z.ltb Z.compare].
    eapply (runs_step _ _ None); [apply st_shell, ps_fork|]. cbn [app].
    eapply (runs_step _ _ (Some _)); [apply st_shell, (ps_child _ _ [] _ []), ps_exec|]. cbn [app].
    eapply (runs_step _ _ (Some _)); [apply st_shell, (ps_child _ _ [] _ []), ps_end|]. cbn [app].
    eapply (runs_step _ _ None); [apply st_shell, (ps_wait _ _ [] _ [])|]. rewrite main_loop_end by done. cbn [app].
    eapply (runs_step _ _ None); [apply st_shell, ps_exit|]. apply runs_nil.
  - by eexists.
Qed.

Lemma shell_session_witness : exists s a, runs sstep (System (Proc (Run (main (input_of [str "ls"]))) ls_table []) [] 0)
    [Launch [str "ls"] ls_table; Ended [str "ls"]] s /\
  runs (astep console console console) (Session (Prompt [str "ls"]) [] 0) [Launch [str "ls"] ls_table; Ended [str "ls"]] a.
Proof.
  assert (Forall fits [str "ls"]) as Hf.
  { repeat constructor; (apply (bool_decide_unpack _); by vm_compute) || (apply Nat.ltb_lt; by vm_compute). }
  destruct ls_run as (s & Hr & _). destruct (shell_session console console console [str "ls"] _ s Hf Hr) as (a & Ha & _).
  exists s, a. split; [exact Hr|exact Ha].
Defined.
