(* ===== verification/Man.v ===== *)
(** * The manual programs of project 1 (wgroff.c, wapropos.c, wman.c)

    [wgroff] formats a page, [wapropos] searches the formatted pages for a keyword and
    [wman] prints one.  Files are parameters: their bytes, or their absence.  A line is the
    string in its buffer, a list of bytes without the NUL. *)

From S2P Require Import Prelude CStr.
From stdpp Require Import pretty.
From Stdlib Require Ascii.
Open Scope Z_scope.

(** ** The C library *)

(** [fgets(buf, n + 1, f)]: at most [n] bytes, up to a newline. *)
Fixpoint take_bytes (n : nat) (file : list Z) : list Z * list Z :=
  match n, file with
  | S n', c :: file' =>
      if c =? LF then ([c], file') else let '(a, b) := take_bytes n' file' in (c :: a, b)
  | _, _ => ([], file)
  end.
(** The string in the buffer, and the rest of the file. *)
Definition fgets (n : nat) (file : list Z) : option (list Z * list Z) :=
  match file with
  | [] => None
  | _ => let '(a, b) := take_bytes n file in Some (default a (cstr a), b)
  end.

Definition SPACES (n : nat) : list Z := replicate n SP.
Definition ESC (code : Z) : list Z := [27; 91; code; 109].
Definition toupper (c : Z) : Z := if (97 <=? c) && (c <=? 122) then c - 32 else c.

(** ** wgroff *)

Definition MAX_LINE_LENGTH : nat := 1024.

(** The rest of the input, standard output, the output file with its name, [date_copy] and
    [line_number]. *)
Record wg := Wg { w_in : list Z; w_stdout : list Z; w_file : option (list Z * list Z); w_date : list Z; w_line : Z }.
Definition set_win (x : list Z) (s : wg) : wg := Wg x (w_stdout s) (w_file s) (w_date s) (w_line s).
Definition set_wfile (x : option (list Z * list Z)) (s : wg) : wg := Wg (w_in s) (w_stdout s) x (w_date s) (w_line s).
Definition set_wdate (x : list Z) (s : wg) : wg := Wg (w_in s) (w_stdout s) (w_file s) x (w_line s).
Definition set_wline (x : Z) (s : wg) : wg := Wg (w_in s) (w_stdout s) (w_file s) (w_date s) x.
Definition printf (t : list Z) : M wg unit := modify (fun s => Wg (w_in s) (w_stdout s ++ t) (w_file s) (w_date s) (w_line s)).
(** Output to [output_file], which is NULL before the header. *)
Definition fputs (t : list Z) : M wg unit :=
  s <- gets id ;;
  match w_file s with
  | None => undef "output_file"
  | Some (name, text) => modify (set_wfile (Some (name, text ++ t)))
  end.

(** One loop of [convert_line]: replace the first [ori] by [sub] until there is none. *)
Fixpoint convert_loop {T} (fuel : nat) (ori sub line : list Z) : M T (list Z) :=
  match fuel with
  | O => fun _ => Timeout
  | S f =>
      match strstr line ori with
      | None => ret line
      | Some pos =>
          let line' := take (length line - length pos) line ++ sub ++ drop (length ori) pos in
          if (length line' <? MAX_LINE_LENGTH)%nat then convert_loop f ori sub line' else undef "line"
      end
  end.
Definition convert_line {T} (line : list Z) : M T (list Z) :=
  line <- convert_loop (S (length line)) (str "/fB") (ESC 49) line ;;
  line <- convert_loop (S (length line)) (str "/fI") (ESC 51) line ;;
  line <- convert_loop (S (length line)) (str "/fU") (ESC 52) line ;;
  line <- convert_loop (S (length line)) (str "/fP") (ESC 48) line ;;
  convert_loop (S (length line)) (str "//") (str "/") line.

(** The regular expression of the date. *)
Definition date_ok (d : list Z) : bool :=
  match d with
  | [y1; y2; y3; y4; h1; m1; m2; h2; d1; d2] =>
      forallb is_digit [y1; y2; y3; y4; m1; m2; d1; d2] && (h1 =? 45) && (h2 =? 45)
  | _ => false
  end.

Definition improper (n : Z) : M wg (option Z) :=
  printf (str "Improper formatting on line " ++ str (pretty n) ++ [LF]) ;;; ret (Some 0).

(** The header; [fopen] says whether the output file can be created. *)
Definition first_line (fopen : list Z -> bool) (line : list Z) : M wg (option Z) :=
  if negb (starts_with (str ".TH ") line) then improper 1
  else
    match strtok [SP] (drop 4 line) with
    | None => improper 1
    | Some (command, r) =>
        match strtok [SP] r with
        | None => improper 1
        | Some (section, r) =>
            match strtok [SP; LF] r with
            | None => improper 1
            | Some (date, _) =>
                if (atoi section <? 1) || (9 <? atoi section) then improper 1
                else if negb (date_ok date) then improper 1
                else
                  modify (set_wdate date) ;;;
                  let name := command ++ str "." ++ section in
                  if negb (fopen name) then printf (str "error creating output file" ++ [LF]) ;;; ret (Some 1)
                  else
                    modify (set_wfile (Some (name, []))) ;;;
                    let title := command ++ str "(" ++ section ++ str ")" in
                    fputs title ;;;
                    (* size_t arithmetic; the counter is an int *)
                    let n := (80 - 2 * (Z.of_nat (length command) + Z.of_nat (length section) + 2)) mod 2 ^ 64 in
                    (if n <? 2 ^ 31 then ret tt else undef "int overflow") ;;;
                    fputs (SPACES (Z.to_nat n)) ;;;
                    fputs (title ++ [LF]) ;;;
                    ret None
            end
        end
    end.

Definition section_header (line : list Z) : M wg (option Z) :=
  fputs [LF] ;;;
  let section_name := drop 4 line in
  if str_eqb section_name [LF] then s <- gets id ;; improper (w_line s)
  else
    let section_name := take (length section_name - 1) section_name in
    fputs (ESC 49 ++ map toupper section_name ++ ESC 48 ++ [LF]) ;;;
    ret None.

(** The body of the loop: the code of [exit], or on to the next line. *)
Definition wgroff_line (fopen : list Z -> bool) (line : list Z) : M wg (option Z) :=
  s <- gets id ;;
  (if w_line s <? 2 ^ 31 - 1 then ret tt else undef "int overflow") ;;;
  modify (set_wline (w_line s + 1)) ;;;
  if starts_with (str "#") line then ret None
  else if w_line s + 1 =? 1 then first_line fopen line
  else if starts_with (str ".SH ") line then section_header line
  else
    line <- convert_line line ;;
    fputs (SPACES 7) ;;;
    fputs line ;;;
    ret None.

Fixpoint wgroff_loop (fopen : list Z -> bool) (fuel : nat) : M wg (option Z) :=
  match fuel with
  | O => fun _ => Timeout
  | S f =>
      s <- gets id ;;
      match fgets (MAX_LINE_LENGTH - 1) (w_in s) with
      | None => ret None
      | Some (line, rest) =>
          modify (set_win rest) ;;;
          r <- wgroff_line fopen line ;;
          match r with Some code => ret (Some code) | None => wgroff_loop fopen f end
      end
  end.

(** The arguments after the program's name; a file that is there can be readable or not. *)
Definition wgroff (argv : list (list Z)) (file : list Z -> option (option (list Z))) (fopen : list Z -> bool) : M wg Z :=
  match argv with
  | [arg] =>
      match file arg with
      | None => printf (str "File doesn't exist" ++ [LF]) ;;; ret 0
      | Some None => printf (str "can't open the file" ++ [LF]) ;;; ret 1
      | Some (Some bytes) =>
          modify (set_win bytes) ;;;
          r <- wgroff_loop fopen (S (length bytes)) ;;
          match r with
          | Some code => ret code
          | None =>
              fputs (SPACES 35) ;;;
              s <- gets id ;;
              fputs (w_date s) ;;;
              fputs (SPACES 35) ;;;
              fputs [LF] ;;;
              ret 0
          end
      end
  | _ => printf (str "Improper number of arguments" ++ [LF] ++ str "Usage: ./wgroff <file>" ++ [LF]) ;;; ret 0
  end.
Definition wg_start : wg := Wg [] [] None [] 0.

(** ** wman *)

(** [char ch; while((ch = fgetc(fp)) != EOF) putchar(ch);]: [char] is signed. *)
Fixpoint put_chars (file : list Z) : list Z :=
  match file with
  | [] => []
  | c :: file' => if s8 c =? -1 then [] else c :: put_chars file'
  end.

(** [char path[256]] *)
Definition page_path (sec : Z) (page : list Z) : list Z :=
  str "./man_pages/man" ++ str (pretty sec) ++ str "/" ++ page ++ str "." ++ str (pretty sec).
Definition path_fits (path : list Z) : M (list Z) unit :=
  if (length path <? 256)%nat then ret tt else undef "path".

(** The state is standard output. *)
Definition put (t : list Z) : M (list Z) unit := modify (fun s => s ++ t).
Definition show (content : option (list Z)) : M (list Z) Z :=
  match content with
  | Some bytes => put (put_chars bytes) ;;; ret 0
  | None => put (str "cannot open file" ++ [LF]) ;;; ret 1
  end.

(** Sections [i], ..., [i + n - 1]. *)
Fixpoint wman_search (file : list Z -> option (option (list Z))) (page : list Z) (n : nat) (i : Z) : M (list Z) Z :=
  match n with
  | O => put (str "No manual entry for " ++ page ++ [LF]) ;;; ret 0
  | S n' =>
      path_fits (page_path i page) ;;;
      match file (page_path i page) with
      | None => wman_search file page n' (i + 1)
      | Some content => show content
      end
  end.

Definition wman (argv : list (list Z)) (file : list Z -> option (option (list Z))) : M (list Z) Z :=
  match argv with
  | [] => put (str "What manual page do you want?" ++ [LF] ++ str "For example, try 'wman wman'" ++ [LF]) ;;; ret 0
  | [page] => wman_search file page 9 1
  | section :: page :: _ =>
      let sec := atoi section in
      if (sec <? 1) || (9 <? sec) then put (str "invalid section" ++ [LF]) ;;; ret 1
      else
        path_fits (page_path sec page) ;;;
        match file (page_path sec page) with
        | None => put (str "No manual entry for " ++ page ++ str " in section " ++ section ++ [LF]) ;;; ret 0
        | Some content => show content
        end
  end.

(** ** wapropos *)

(** [struct Manual] without the section, [inName], [inDescription], [liner]. *)
Record search := Search { m_name : list Z; m_liner : list Z; in_name : bool; in_desc : bool; liner : Z }.

Definition NAME_LINE : list Z := ESC 49 ++ str "NAME" ++ ESC 48 ++ [LF].
Definition DESC_LINE : list Z := ESC 49 ++ str "DESCRIPTION" ++ ESC 48 ++ [LF].

(** The tests of a line against the section headers. *)
Definition enter_section (line : list Z) (q : search) : search :=
  if str_eqb line NAME_LINE then Search (m_name q) (m_liner q) true (in_desc q) (liner q)
  else if str_eqb line DESC_LINE then Search (m_name q) (m_liner q) (in_name q) true (liner q)
  else if starts_with (ESC 49) line then Search (m_name q) (m_liner q) false false 0
  else q.

(** [strtok] puts NULs into [line]; what is left of it is its part before the first dash that
    follows another character. *)
Definition one_liner (line : list Z) (q : search) : search * list Z :=
  match strtok [45] line with
  | None => (q, line)
  | Some (token, r) =>
      let line' := take (length (fst (span (in_set [45]) line)) + length token) line in
      let q := Search token (m_liner q) (in_name q) (in_desc q) (liner q) in
      match strtok [45] r with
      | None => (q, line')
      | Some (token, _) => (Search (m_name q) token (in_name q) (in_desc q) (liner q), line')
      end
  end.

(** One line: the state, and whether the keyword was found. *)
Definition search_line (keyword line : list Z) (q : search) : search * bool :=
  let q := enter_section line q in
  let q := if in_name q then Search (m_name q) (m_liner q) (in_name q) (in_desc q) (liner q + 1) else q in
  let '(q, line) := if liner q =? 1 then one_liner line q else (q, line) in
  (q, (in_desc q || in_name q) && bool_decide (is_Some (strstr line keyword))).

(** The loop over the lines of a file: the manual when the keyword was found. *)
Fixpoint search_file (fuel : nat) (keyword file : list Z) (q : search) : M (list Z) (option search) :=
  match fuel with
  | O => fun _ => Timeout
  | S f =>
      match fgets 511 file with
      | None => ret None
      | Some (line, rest) =>
          let '(q, found) := search_line keyword line q in
          if found then ret (Some q) else search_file f keyword rest q
      end
  end.

(** An entry of a directory with the contents of the file, if it can be opened.  The exit
    code, or how many were found. *)
Fixpoint search_dir (keyword : list Z) (entries : list (list Z * option (list Z))) (found : Z) : M (list Z) (Z + Z) :=
  match entries with
  | [] => ret (inr found)
  | (d_name, content) :: entries' =>
      if str_eqb d_name (str ".") || str_eqb d_name (str "..") || str_eqb d_name (str ".gitignore")
      then search_dir keyword entries' found
      else
        match content with
        | None => put (str "can't open file" ++ [LF]) ;;; ret (inl 1)
        | Some bytes =>
            section <- deref "d_name" (last d_name) ;;
            r <- search_file (S (length bytes)) keyword bytes (Search [] [] false false (-1)) ;;
            match r with
            | None => search_dir keyword entries' found
            | Some q =>
                (* bytes of the name before its terminating NUL are all that is set *)
                (if (7 <=? length (m_name q))%nat then ret tt else undef "manual.name") ;;;
                put (drop 7 (m_name q) ++ str "(" ++ [section] ++ str ") -" ++ m_liner q) ;;;
                search_dir keyword entries' (found + 1)
            end
        end
  end.

(** Directories [man1] to [man9], where they can be opened. *)
Fixpoint search_dirs (keyword : list Z) (dirs : list (option (list (list Z * option (list Z))))) (found : Z) : M (list Z) Z :=
  match dirs with
  | [] => (if found =? 0 then put (str "nothing appropriate" ++ [LF]) else ret tt) ;;; ret 0
  | None :: _ => put (str "Can't open directory" ++ [LF]) ;;; ret 1
  | Some entries :: dirs' =>
      r <- search_dir keyword entries found ;;
      match r with inl code => ret code | inr found => search_dirs keyword dirs' found end
  end.

Definition wapropos (argv : list (list Z)) (dirs : list (option (list (list Z * option (list Z))))) : M (list Z) Z :=
  match argv with
  | [] => put (str "wapropos what?" ++ [LF]) ;;; ret 0
  | keyword :: _ => search_dirs keyword dirs 0
  end.
