(* ===== verification/ManProofs.v ===== *)
(** * The manual programs: theorems

    The replacement loops of [convert_line] are one substitution of the formatting marks
    followed by one that joins runs of slashes; on a page that keeps to the format [wgroff]
    writes its rendering; [wman] prints the first page of that name. *)

From S2P Require Import Prelude CStr Man.
From stdpp Require Import pretty.
Open Scope Z_scope.

(** ** Marks *)

(** What the marks stand for; every other text is kept. *)
Fixpoint font (code : Z -> option Z) (s : list Z) : list Z :=
  match s with
  | [] => []
  | a :: s1 =>
      match s1 with
      | b :: c :: r =>
          if (a =? 47) && (b =? 102) then
            match code c with Some k => ESC k ++ font code r | None => a :: font code s1 end
          else a :: font code s1
      | _ => a :: font code s1
      end
  end.

(** A run of slashes becomes one slash. *)
Fixpoint squeeze (s : list Z) : list Z :=
  match s with
  | [] => []
  | a :: s1 => match s1 with b :: _ => if (a =? 47) && (b =? 47) then squeeze s1 else a :: squeeze s1 | [] => [a] end
  end.

Definition mark (c : Z) : option Z :=
  if c =? 66 then Some 49 else if c =? 73 then Some 51 else if c =? 85 then Some 52 else if c =? 80 then Some 48 else None.
Definition only (c k x : Z) : option Z := if x =? c then Some k else None.

Section font.
Variable code : Z -> option Z.

(** A byte that starts no mark. *)
Lemma font_skip a s : (forall c r, s = 102 :: c :: r -> a = 47 -> code c = None) -> font code (a :: s) = a :: font code s.
Proof using Type.
  intros H. destruct s as [|b [|c r]]; [done..|]. cbn [font]. destruct (Z.eqb_spec a 47) as [->|]; [|done].
  destruct (Z.eqb_spec b 102) as [->|]; [|done]. cbn [andb]. by rewrite (H c r).
Qed.

Lemma font_mark c k r : code c = Some k -> font code (47 :: 102 :: c :: r) = ESC k ++ font code r.
Proof using Type. intros H. cbn [font]. cbn [Z.eqb andb]. simpl. by rewrite H. Qed.

Lemma font_plain a s : a <> 47 -> font code (a :: s) = a :: font code s.
Proof using Type. intros H. apply font_skip. by intros c r _ ->. Qed.

(** The cases of a text at its first byte. *)
Lemma font_cases (P : list Z -> Prop) : P [] -> (forall c k r, code c = Some k -> P r -> P (47 :: 102 :: c :: r)) ->
  (forall a s, font code (a :: s) = a :: font code s -> P s -> P (a :: s)) -> forall s, P s.
Proof using Type.
  intros H0 Hm Hp s. remember (length s) as n eqn:E. revert s E. induction (lt_wf n) as [n _ IH]. intros s ->. destruct s as [|a s]; [done|].
  assert (P s) as Hs by (eapply IH; [|done]; simpl; lia). destruct s as [|b [|c r]]; [by apply Hp..|].
  destruct (decide (a = 47 /\ b = 102)) as [[-> ->]|Hno].
  - destruct (code c) as [k|] eqn:Ek; [apply (Hm c k); [done|]; eapply IH; [|done]; simpl; lia|]. apply Hp; [|done]. apply font_skip. by intros ? ? [= -> ->].
  - apply Hp; [|done]. apply font_skip. intros c' r' [= -> ->] ->. by destruct Hno.
Qed.

(** The text never gets shorter, nor more than twice as long. *)
Lemma font_length s : (length s <= length (font code s) <= 2 * length s)%nat.
Proof using Type.
  apply (font_cases (fun s => (length s <= length (font code s) <= 2 * length s)%nat)); [done| |].
  - intros c k r Hk IH. rewrite (font_mark c k) by done. simpl. lia.
  - intros a r E IH. rewrite E. simpl. lia.
Qed.

(** The first byte is kept or is an escape. *)
Lemma font_head s : match font code s with [] => s = [] | x :: _ => x = 27 \/ head s = Some x end.
Proof using Type. apply (font_cases (fun s => match font code s with [] => s = [] | x :: _ => x = 27 \/ head s = Some x end)); [done| |].
  - intros c k r Hk _. rewrite (font_mark c k) by done. by left.
  - intros a r E _. rewrite E. by right.
Qed.
End font.

Lemma font_ext f g s : (forall c, f c = g c) -> font f s = font g s.
Proof.
  intros H. apply (font_cases f (fun s => font f s = font g s)); [done| |].
  - intros c k r Hk IH. rewrite (font_mark f c k), (font_mark g c k) by congruence. by rewrite IH.
  - intros a r E IH. rewrite E, IH. symmetry. apply font_skip. intros c r' -> ->. destruct (g c) as [k|] eqn:Ek; [|done].
    assert (f c = Some k) as Ef by congruence. by rewrite (font_mark f c k) in E.
Qed.

(** Replacing one more mark in the result of the others. *)
Lemma font_font f c k s : f c = None -> c <> 27 -> c <> 47 -> (forall x j, f x = Some j -> j <> 47) ->
  font (only c k) (font f s) = font (fun x => if x =? c then Some k else f x) s.
Proof.
  intros Hf H27 H47 Hj. set (g := fun x => if x =? c then Some k else f x).
  assert (forall x, x <> 47 -> forall t, font (only c k) (x :: t) = x :: font (only c k) t) as Hplain by (intros; by apply font_plain).
  apply (font_cases g (fun s => font (only c k) (font f s) = font g s)); [done| |].
  - intros x j r Hx Hr. rewrite (font_mark g x j) by done. unfold g in Hx. destruct (Z.eqb_spec x c) as [->|Hxc].
    + injection Hx as <-. rewrite (font_skip f 47) by (intros ? ? [= <- <-] _; exact Hf). rewrite (font_plain f 102), (font_plain f c) by lia.
      rewrite (font_mark _ c k) by (unfold only; by rewrite Z.eqb_refl). by rewrite Hr.
    + rewrite (font_mark f x j) by done. cbn [ESC app]. rewrite !Hplain by (first [lia|by eapply Hj]). by rewrite Hr.
  - clear s. intros a s Eg Hs. assert (forall x r j, a = 47 -> s = 102 :: x :: r -> g x <> Some j) as Hno.
    { intros x r j -> -> Hx. by rewrite (font_mark g x j) in Eg. }
    rewrite Eg.
    assert (font f (a :: s) = a :: font f s) as ->.
    { apply font_skip. intros x r -> ->. destruct (f x) as [j|] eqn:Ej; [|done]. destruct (Hno x r j); [done..|]. unfold g.
      destruct (Z.eqb_spec x c) as [->|]; [congruence|done]. }
    rewrite <-Hs. apply font_skip. intros x r Es ->. unfold only. destruct (Z.eqb_spec x c) as [->|]; [|done]. exfalso.
    (* the bytes after the slash are bytes of the text *)
    destruct s as [|b t]; [done|]. pose proof (font_head f (b :: t)) as Hh. rewrite Es in Hh. destruct Hh as [?|[= ->]]; [lia|].
    assert (font f (102 :: t) = 102 :: font f t) as Et by (by apply font_plain). rewrite Et in Es. injection Es as Es.
    pose proof (font_head f t) as Hh. rewrite Es in Hh. destruct Hh as [?|Hh]; [lia|]. destruct t as [|y t]; [done|]. injection Hh as ->.
    apply (Hno c t k); [done..|]. unfold g. by rewrite Z.eqb_refl.
Qed.

(** ** The loops of convert_line *)

(** No occurrence of [ori] starts in [pre]. *)
Fixpoint free (ori pre t : list Z) : Prop :=
  match pre with [] => True | _ :: pre' => starts_with ori (pre ++ t) = false /\ free ori pre' t end.

Lemma free_intro ori pre t : (forall p r, pre ++ t = p ++ r -> (length p < length pre)%nat -> starts_with ori r = false) -> free ori pre t.
Proof.
  induction pre as [|a pre IH]; [done|]. intros H. split; [apply (H [] _); [done|simpl; lia]|]. apply IH. intros p r E Hp.
  apply (H (a :: p)); [simpl; by rewrite E|simpl; lia].
Qed.

(** [strstr] splits the text at the first occurrence. *)
Lemma strstr_split line ori pos : strstr line ori = Some pos -> exists pre r, line = pre ++ ori ++ r /\ pos = ori ++ r /\ free ori pre pos.
Proof.
  intros (pre & -> & Hs & Hmin)%strstr_Some. pose proof Hs as [r ->]%starts_with_app. exists pre, r. split; [done|]. split; [done|]. by apply free_intro.
Qed.

Lemma strstr_free line ori : strstr line ori = None -> free ori line [].
Proof. rewrite strstr_None. intros H. apply free_intro. rewrite app_nil_r. intros p r E _. by apply (H p). Qed.

Lemma font_free c k pre t : free [47; 102; c] pre t -> font (only c k) (pre ++ t) = pre ++ font (only c k) t.
Proof.
  induction pre as [|a pre IH]; [done|]. intros [Ha Hf]. cbn [app]. rewrite <-IH by done. apply font_skip. intros x r E ->.
  cbn [app] in Ha. rewrite E in Ha. cbn [starts_with] in Ha. change (47 =? 47) with true in Ha. change (102 =? 102) with true in Ha. cbn [andb] in Ha.
  unfold only. rewrite Z.eqb_sym. rewrite andb_true_r in Ha. by rewrite Ha.
Qed.

(** The text that replaces an occurrence starts no other. *)
Lemma free_escape c pre t t' : c <> 27 -> free [47; 102; c] pre (47 :: t) -> free [47; 102; c] pre (27 :: t').
Proof.
  intros Hc. induction pre as [|a pre IH]; [done|]. intros [Ha Hf]. split; [|by apply IH]. destruct pre as [|b [|d pre]]; cbn in *.
  - by rewrite andb_false_r.
  - destruct (Z.eqb_spec c 27); [done|]. by rewrite !andb_false_r.
  - done.
Qed.

(** A new line in place of the old one. *)
Lemma replaced (pre ori r sub : list Z) : take (length (pre ++ ori ++ r) - length (ori ++ r)) (pre ++ ori ++ r) ++ sub ++ drop (length ori) (ori ++ r) = pre ++ sub ++ r.
Proof.
  replace (length (pre ++ ori ++ r) - length (ori ++ r))%nat with (length pre) by (rewrite length_app; lia).
  by rewrite take_app_length, drop_app_length.
Qed.

(** A loop over one mark is its substitution. *)
Lemma convert_font {T} c k fuel line (s : T) : c <> 27 -> k <> 47 -> (length (font (only c k) line) < MAX_LINE_LENGTH)%nat ->
  (length (font (only c k) line) - length line < fuel)%nat -> convert_loop fuel [47; 102; c] (ESC k) line s = Ret (font (only c k) line) s.
Proof.
  intros Hc Hk. revert line. induction fuel as [|f IH]; intros line Hlen Hf; [lia|]. cbn [convert_loop].
  destruct (strstr line [47; 102; c]) as [pos|] eqn:E.
  - apply strstr_split in E as (pre & r & -> & -> & Hfree). rewrite replaced.
    assert (font (only c k) (pre ++ [47; 102; c] ++ r) = pre ++ ESC k ++ font (only c k) r) as E1.
    { rewrite font_free by done. f_equal. cbn [app]. apply font_mark. unfold only. by rewrite Z.eqb_refl. }
    assert (font (only c k) (pre ++ ESC k ++ r) = pre ++ ESC k ++ font (only c k) r) as E2.
    { rewrite font_free by (by eapply free_escape). cbn [ESC app]. rewrite !font_plain by lia. done. }
    rewrite E1, <-E2 in *. pose proof (font_length (only c k) (pre ++ ESC k ++ r)) as [Hl _].
    destruct (Nat.ltb_spec (length (pre ++ ESC k ++ r)) MAX_LINE_LENGTH); [|lia]. apply IH; [done|].
    rewrite !length_app in *. simpl in *. lia.
  - apply strstr_free in E. apply (font_free c k) in E. rewrite app_nil_r in E. rewrite E. by rewrite app_nil_r.
Qed.

(** When the result does not fit, a replacement runs past the buffer. *)
Lemma convert_font_over {T} c k fuel line (s : T) : c <> 27 -> k <> 47 -> (length line < MAX_LINE_LENGTH)%nat ->
  (MAX_LINE_LENGTH <= length (font (only c k) line))%nat -> (length (font (only c k) line) - length line < fuel)%nat ->
  convert_loop fuel [47; 102; c] (ESC k) line s = Undef "line".
Proof.
  intros Hc Hk. revert line. induction fuel as [|f IH]; intros line Hlen Hover Hf; [lia|]. cbn [convert_loop].
  destruct (strstr line [47; 102; c]) as [pos|] eqn:E.
  - apply strstr_split in E as (pre & r & -> & -> & Hfree). rewrite replaced.
    assert (font (only c k) (pre ++ [47; 102; c] ++ r) = pre ++ ESC k ++ font (only c k) r) as E1.
    { rewrite font_free by done. f_equal. cbn [app]. apply font_mark. unfold only. by rewrite Z.eqb_refl. }
    assert (font (only c k) (pre ++ ESC k ++ r) = pre ++ ESC k ++ font (only c k) r) as E2.
    { rewrite font_free by (by eapply free_escape). cbn [ESC app]. rewrite !font_plain by lia. done. }
    rewrite E1, <-E2 in *. destruct (Nat.ltb_spec (length (pre ++ ESC k ++ r)) MAX_LINE_LENGTH); [|done]. apply IH; [done|done|].
    rewrite !length_app in *. simpl in *. lia.
  - apply strstr_free in E. apply (font_free c k) in E. rewrite app_nil_r in E. rewrite E in Hover. simpl in Hover.
    rewrite app_nil_r in Hover. lia.
Qed.

Lemma squeeze_double pre r : squeeze (pre ++ 47 :: 47 :: r) = squeeze (pre ++ 47 :: r).
Proof.
  induction pre as [|a pre IH]; [done|]. cbn [app]. destruct pre as [|b pre]; cbn [app] in *.
  - cbn [squeeze]. destruct (a =? 47); cbn [andb]; change (47 =? 47) with true; by rewrite ?IH.
  - cbn [squeeze] in *. by rewrite IH.
Qed.

Lemma squeeze_free pre : free [47; 47] pre [] -> squeeze pre = pre.
Proof.
  induction pre as [|a pre IH]; [done|]. intros [Ha Hf]. rewrite app_nil_r in Ha. destruct pre as [|b pre]; [done|].
  change (squeeze (a :: b :: pre)) with (if (a =? 47) && (b =? 47) then squeeze (b :: pre) else a :: squeeze (b :: pre)). rewrite IH by done. cbn in Ha. destruct (Z.eqb_spec a 47) as [->|]; [|done]. destruct (Z.eqb_spec b 47) as [->|]; [|done]. done.
Qed.

Lemma convert_slash {T} fuel line (s : T) : (length line < MAX_LINE_LENGTH)%nat -> (length line < fuel)%nat ->
  convert_loop fuel [47; 47] [47] line s = Ret (squeeze line) s.
Proof.
  revert line. induction fuel as [|f IH]; intros line Hlen Hf; [lia|]. cbn [convert_loop].
  destruct (strstr line [47; 47]) as [pos|] eqn:E.
  - apply strstr_split in E as (pre & r & -> & -> & Hfree). rewrite replaced. cbn [app]. rewrite squeeze_double.
    assert (S (length (pre ++ 47 :: r)) = length (pre ++ [47; 47] ++ r)) by (rewrite !length_app; simpl; lia).
    destruct (Nat.ltb_spec (length (pre ++ 47 :: r)) MAX_LINE_LENGTH); [|lia]. apply IH; lia.
  - apply strstr_free, squeeze_free in E. by rewrite E.
Qed.

Definition escape (line : list Z) : list Z := squeeze (font mark line).

(** More marks, a longer text. *)
Lemma font_more f g s : (forall c k, f c = Some k -> g c = Some k) -> g 47 = None -> (length (font f s) <= length (font g s))%nat.
Proof.
  intros H H47. apply (font_cases g (fun s => (length (font f s) <= length (font g s))%nat)); [done| |].
  - intros c k r Hk IH. rewrite (font_mark g c k) by done. destruct (f c) as [j|] eqn:Ej.
    + rewrite (font_mark f c j) by done. simpl. lia.
    + rewrite (font_skip f 47) by (by intros ? ? [= <- <-] _). rewrite (font_plain f 102) by lia. rewrite (font_plain f c) by congruence. simpl. lia.
  - intros a r E IH. rewrite E. rewrite font_skip; [simpl; lia|]. intros c t -> ->. destruct (f c) as [k|] eqn:Ek; [|done].
    apply H in Ek. rewrite (font_mark g c k) in E by done. done.
Qed.

Lemma squeeze_length s : (length (squeeze s) <= length s)%nat.
Proof.
  induction s as [|a s IH]; [done|]. destruct s as [|b s]; [done|].
  change (squeeze (a :: b :: s)) with (if (a =? 47) && (b =? 47) then squeeze (b :: s) else a :: squeeze (b :: s)).
  destruct ((a =? 47) && (b =? 47)); simpl in *; lia.
Qed.

(** The marks replaced so far. *)
Definition marks (l : list (Z * Z)) (x : Z) : option Z := fold_left (fun o p => if x =? fst p then Some (snd p) else o) l None.
Definition all_marks : list (Z * Z) := [(66, 49); (73, 51); (85, 52); (80, 48)].

Lemma marks_all x : marks all_marks x = mark x.
Proof. unfold mark. cbn. repeat case_match; try done; repeat match goal with H : (_ =? _) = true |- _ => apply Z.eqb_eq in H end; lia. Qed.

Lemma next_mark l l' c k : all_marks = l ++ (c, k) :: l' -> marks l c = None /\ c <> 27 /\ c <> 47 /\ k <> 47 /\
  (forall x j, marks l x = Some j -> j <> 47) /\ (forall x j, marks (l ++ [(c, k)]) x = Some j -> mark x = Some j).
Proof.
  unfold all_marks. intros E. destruct l as [|? [|? [|? [|? [|? l]]]]]; cbn in E; simplify_eq; split_and!; try done;
    intros x j; rewrite <-?marks_all; cbn;
    repeat match goal with |- context [?a =? ?b] => destruct (Z.eqb_spec a b) end; intros; simplify_eq; first [done|lia].
Qed.

Lemma convert_next {T} l l' c k line (s : T) : all_marks = l ++ (c, k) :: l' -> (length (font (marks l) line) < MAX_LINE_LENGTH)%nat ->
  convert_loop (S (length (font (marks l) line))) [47; 102; c] (ESC k) (font (marks l) line) s =
    (if (length (font (marks (l ++ [(c, k)])) line) <? MAX_LINE_LENGTH)%nat then Ret (font (marks (l ++ [(c, k)])) line) s else Undef "line") /\
  (length (font (marks (l ++ [(c, k)])) line) <= length (font mark line))%nat.
Proof.
  intros (H0 & H27 & H47 & Hk & Hj & Hm)%next_mark Hlen. assert (font (only c k) (font (marks l) line) = font (marks (l ++ [(c, k)])) line) as E.
  { rewrite font_font by done. apply font_ext. intros x. unfold marks. by rewrite fold_left_app. }
  split; [|by apply font_more]. pose proof (font_length (only c k) (font (marks l) line)) as Hl. rewrite <-E.
  destruct (Nat.ltb_spec (length (font (only c k) (font (marks l) line))) MAX_LINE_LENGTH).
  - apply convert_font; [done|done|lia|lia].
  - apply convert_font_over; [done|done|lia|lia|lia].
Qed.

Lemma font_none line : font (marks []) line = line.
Proof. induction line as [|a line IH]; [done|]. rewrite font_skip by done. by rewrite IH. Qed.

Lemma convert_line_run {T} line (s : T) : (length line < MAX_LINE_LENGTH)%nat ->
  convert_line line s = if (length (font mark line) <? MAX_LINE_LENGTH)%nat then Ret (escape line) s else Undef "line".
Proof.
  intros Hlen. unfold convert_line. change (str "/fB") with [47; 102; 66]. change (str "/fI") with [47; 102; 73].
  change (str "/fU") with [47; 102; 85]. change (str "/fP") with [47; 102; 80]. rewrite <-(font_none line) at 1 2. rewrite <-(font_none line) in Hlen. unfold bind.
  assert (Hstep : forall l, (length (font (marks l) line) <= length (font mark line))%nat ->
    (length (font (marks l) line) <? MAX_LINE_LENGTH)%nat = false -> (length (font mark line) <? MAX_LINE_LENGTH)%nat = false).
  { intros l H1 H2%Nat.ltb_ge. apply Nat.ltb_ge. lia. }
  destruct (convert_next [] [(73, 51); (85, 52); (80, 48)] 66 49 line s) as [E1 H1]; [done|done|]. rewrite E1. cbn [app] in *. clear E1.
  destruct (length (font (marks [(66, 49)]%Z) line) <? MAX_LINE_LENGTH)%nat eqn:F1; [apply Nat.ltb_lt in F1|by rewrite (Hstep _ H1 F1)].
  destruct (convert_next [(66, 49)] [(85, 52); (80, 48)] 73 51 line s) as [E2 H2]; [done|done|]. rewrite E2. cbn [app] in *. clear E2.
  destruct (length (font (marks [(66, 49); (73, 51)]%Z) line) <? MAX_LINE_LENGTH)%nat eqn:F2; [apply Nat.ltb_lt in F2|by rewrite (Hstep _ H2 F2)].
  destruct (convert_next [(66, 49); (73, 51)] [(80, 48)] 85 52 line s) as [E3 H3]; [done|done|]. rewrite E3. cbn [app] in *. clear E3.
  destruct (length (font (marks [(66, 49); (73, 51); (85, 52)]%Z) line) <? MAX_LINE_LENGTH)%nat eqn:F3; [apply Nat.ltb_lt in F3|by rewrite (Hstep _ H3 F3)].
  destruct (convert_next [(66, 49); (73, 51); (85, 52)] [] 80 48 line s) as [E4 H4]; [done|done|]. rewrite E4. cbn [app] in *. clear E4.
  destruct (length (font (marks [(66, 49); (73, 51); (85, 52); (80, 48)]%Z) line) <? MAX_LINE_LENGTH)%nat eqn:F4; [apply Nat.ltb_lt in F4|by rewrite (Hstep _ H4 F4)].
  rewrite (font_ext _ mark) in * by apply marks_all. rewrite (proj2 (Nat.ltb_lt _ _) F4). apply convert_slash; [done|lia].
Qed.

(** C26: [convert_line] is two substitutions, or runs past its buffer. On a line that lies in
    the buffer of 1024 bytes the five loops, each of which searches the line again from its
    start after every replacement, terminate exactly as follows: when the line with its marks
    replaced still fits, the result is the line with every mark replaced in one pass from the
    left, and then every run of slashes made one slash; when it does not (a mark of three bytes
    becomes four), a replacement writes past the end of the buffer. *)
Theorem convert_line_correct {T} line (s : T) : (length line < MAX_LINE_LENGTH)%nat ->
  convert_line line s = if (length (font mark line) <? MAX_LINE_LENGTH)%nat then Ret (escape line) s else Undef "line".
Proof. apply convert_line_run. Qed.

(** A line of 1023 bytes with one mark. *)
Example line_overflows : exists line, length line = 1023%nat /\ convert_line line tt = Undef "line".
Proof. exists (str "/fB" ++ replicate 1020 97). split; [by vm_compute|]. rewrite convert_line_run; [by vm_compute|by vm_compute; lia]. Qed.

(** ** Pages *)

Inductive item :=
| Comment (t : list Z)
| Section_ (name : list Z)
| Text (t : list Z).
Record page := Page { p_command : list Z; p_section : list Z; p_date : list Z; p_items : list item }.

Definition line_of (i : item) : list Z := match i with Comment t => str "#" ++ t | Section_ n => str ".SH " ++ n | Text t => t end.
Definition header_of (p : page) : list Z := str ".TH " ++ p_command p ++ SP :: p_section p ++ SP :: p_date p.
(** The input file of a page, line by line. *)
Definition source (p : page) : list Z := header_of p ++ [LF] ++ concat (map (fun i => line_of i ++ [LF]) (p_items p)).

Definition output_name (p : page) : list Z := p_command p ++ str "." ++ p_section p.
Definition title (p : page) : list Z := p_command p ++ str "(" ++ p_section p ++ str ")".
Definition top_line (p : page) : list Z := title p ++ SPACES (80 - 2 * length (title p)) ++ title p.
Definition bottom_line (p : page) : list Z := SPACES 35 ++ p_date p ++ SPACES 35.
Definition render_item (i : item) : list Z :=
  match i with
  | Comment _ => []
  | Section_ n => [LF] ++ ESC 49 ++ map toupper n ++ ESC 48 ++ [LF]
  | Text t => SPACES 7 ++ escape t ++ [LF]
  end.
Definition render (p : page) : list Z := top_line p ++ [LF] ++ concat (map render_item (p_items p)) ++ bottom_line p ++ [LF].

(** No newline and no NUL. *)
Definition plain (t : list Z) : Prop := LF ∉ t /\ NUL ∉ t.
Definition word (t : list Z) : Prop := t <> [] /\ plain t /\ SP ∉ t.
Definition item_ok (i : item) : Prop :=
  plain (line_of i) /\ (length (line_of i) < MAX_LINE_LENGTH - 1)%nat /\
  match i with
  | Comment _ => True
  | Section_ n => n <> []
  | Text t => starts_with (str "#") t = false /\ starts_with (str ".SH ") t = false /\ (length (font mark t) < MAX_LINE_LENGTH - 1)%nat
  end.
Record page_ok (p : page) : Prop := PageOk {
  po_command : word (p_command p);
  po_section : word (p_section p);
  po_number : 1 <= atoi (p_section p) <= 9;
  po_date : date_ok (p_date p) = true;
  po_title : (length (title p) <= 40)%nat;
  po_items : Forall item_ok (p_items p);
  po_lines : Z.of_nat (length (p_items p)) < 2 ^ 31 - 2
}.

Lemma take_bytes_line n l rest : LF ∉ l -> (length l < n)%nat -> take_bytes n (l ++ [LF] ++ rest) = (l ++ [LF], rest).
Proof.
  revert n. induction l as [|c l IH]; intros [|n] Hl Hn; simpl in *; try lia; [done|]. apply not_elem_of_cons in Hl as [Hc Hl].
  destruct (Z.eqb_spec c LF); [congruence|]. rewrite IH by (done || lia). done.
Qed.

Lemma cstr_plain t : NUL ∉ t -> cstr t = None.
Proof.
  induction t as [|c t IH]; [done|]. intros [Hc Ht]%not_elem_of_cons. cbn [cstr]. destruct (Z.eqb_spec c 0); [unfold NUL in Hc; lia|]. by rewrite IH.
Qed.

Lemma fgets_line n l rest : plain l -> (length l < n)%nat -> fgets n (l ++ [LF] ++ rest) = Some (l ++ [LF], rest).
Proof.
  intros [Hl H0] Hn. unfold fgets. rewrite take_bytes_line by done. rewrite cstr_plain.
  - by destruct l.
  - rewrite not_elem_of_app. split; [done|]. by intros ?%list_elem_of_singleton.
Qed.

Lemma font_line t : font mark (t ++ [LF]) = font mark t ++ [LF].
Proof.
  apply (font_cases mark (fun t => font mark (t ++ [LF]) = font mark t ++ [LF])); [done| |].
  - intros c k r Hk IH. cbn [app]. rewrite !(font_mark mark c k) by done. rewrite IH. by rewrite <-app_assoc.
  - intros a s E IH. cbn [app]. rewrite E, font_skip; [by rewrite IH|]. intros c r Es ->.
    destruct (mark c) as [k|] eqn:Ek; [|done]. destruct s as [|x [|y s]]; [done| |].
    + by injection Es as -> <- <-.
    + injection Es as -> -> <-. by rewrite (font_mark mark c k) in E.
Qed.

Lemma squeeze_line t : squeeze (t ++ [LF]) = squeeze t ++ [LF].
Proof.
  induction t as [|a t IH]; [done|]. destruct t as [|b t]; [by cbn; rewrite andb_false_r|].
  change (squeeze ((a :: b :: t) ++ [LF])) with (if (a =? 47) && (b =? 47) then squeeze ((b :: t) ++ [LF]) else a :: squeeze ((b :: t) ++ [LF])).
  change (squeeze (a :: b :: t)) with (if (a =? 47) && (b =? 47) then squeeze (b :: t) else a :: squeeze (b :: t)). rewrite IH. by destruct ((a =? 47) && (b =? 47)).
Qed.

Lemma starts_with_line p t : LF ∉ p -> starts_with p (t ++ [LF]) = starts_with p t.
Proof.
  revert t. induction p as [|x p IH]; intros [|y t] Hp; try done; apply not_elem_of_cons in Hp as [Hx Hp]; cbn.
  - destruct (Z.eqb_spec x LF); [congruence|done].
  - by rewrite IH.
Qed.

Lemma wp_fputs t (Q : unit -> wg -> Prop) s name text : w_file s = Some (name, text) -> Q tt (set_wfile (Some (name, text ++ t)) s) -> wp (fputs t) Q s.
Proof. intros E HQ. unfold wp, fputs, bind, gets, modify. cbn. by rewrite E. Qed.

(** One line after the header. *)
Lemma item_line fopen i s name text : item_ok i -> w_file s = Some (name, text) -> 1 <= w_line s < 2 ^ 31 - 1 ->
  wp (wgroff_line fopen (line_of i ++ [LF])) (fun r s' => r = None /\ s' = set_wfile (Some (name, text ++ render_item i)) (set_wline (w_line s + 1) s)) s.
Proof.
  intros (Hplain & Hlen & Hi) Ef Hn. unfold wgroff_line. apply wp_bind, wp_gets. cbn [id]. destruct (Z.ltb_spec (w_line s) (2 ^ 31 - 1)) as [_|]; [|lia].
  apply wp_bind, wp_ret, wp_bind, wp_modify. destruct (Z.eqb_spec (w_line s + 1) 1) as [|_]; [lia|].
  destruct i as [t|n|t]; cbn [line_of render_item] in *.
  - apply wp_ret. split; [done|]. rewrite app_nil_r. destruct s. cbn in *. by rewrite Ef.
  - change (starts_with (str "#") ((str ".SH " ++ n) ++ [LF])) with false. change (starts_with (str ".SH ") ((str ".SH " ++ n) ++ [LF])) with true. cbv iota.
    unfold section_header. change (drop 4 ((str ".SH " ++ n) ++ [LF])) with (n ++ [LF]). apply wp_bind. eapply wp_fputs; [exact Ef|].
    assert (str_eqb (n ++ [LF]) [LF] = false) as ->.
    { apply not_true_is_false. rewrite str_eqb_eq. destruct n as [|x [|y n]]; done. }
    cbv zeta. rewrite length_app. replace (length n + length [LF] - 1)%nat with (length n) by (simpl; lia). rewrite take_app_length.
    apply wp_bind. eapply wp_fputs; [reflexivity|]. apply wp_ret. split; [done|]. unfold set_wfile. cbn. by rewrite <-!app_assoc.
  - destruct Hi as (H1 & H2 & Hf). rewrite !starts_with_line by (apply (bool_decide_unpack _); by vm_compute). rewrite H1, H2.
    apply wp_bind. eapply wp_run.
    { rewrite convert_line_run by (rewrite length_app; simpl; lia). rewrite (proj2 (Nat.ltb_lt _ _)); [done|]. rewrite font_line, length_app. simpl. lia. }
    apply wp_bind. eapply wp_fputs; [exact Ef|]. apply wp_bind. eapply wp_fputs; [reflexivity|]. apply wp_ret. split; [done|].
    unfold escape. rewrite font_line, squeeze_line. unfold set_wfile. cbn. by rewrite <-!app_assoc.
Qed.

(** The lines after the header. *)
Lemma item_lines fopen items name : forall fuel s text, Forall item_ok items -> (length items < fuel)%nat ->
  w_in s = concat (map (fun i => line_of i ++ [LF]) items) -> w_file s = Some (name, text) ->
  1 <= w_line s -> w_line s + Z.of_nat (length items) < 2 ^ 31 ->
  wp (wgroff_loop fopen fuel) (fun r s' => r = None /\ w_file s' = Some (name, text ++ concat (map render_item items)) /\
    w_stdout s' = w_stdout s /\ w_date s' = w_date s) s.
Proof.
  induction items as [|i items IH]; intros [|fuel] s text Hok Hf Ein Ef Hn1 Hn2; [lia| |simpl in Hf; lia|]; cbn [wgroff_loop].
  - apply wp_bind, wp_gets. cbn [id]. rewrite Ein. cbn. apply wp_ret. by rewrite app_nil_r.
  - apply Forall_cons in Hok as [Hi Hok]. apply wp_bind, wp_gets. cbn [id]. rewrite Ein. cbn [map concat]. rewrite <-app_assoc.
    rewrite fgets_line by apply Hi. apply wp_bind, wp_modify. apply wp_bind.
    eapply wp_mono; [eapply (item_line fopen i); [done|exact Ef|cbn in *; lia]|]. intros r s' (-> & ->). cbn in Hf, Hn2.
    eapply wp_mono; [eapply (IH _ _ (text ++ render_item i)); [done|lia|done|done|cbn; lia|cbn; lia]|].
    intros r s' (-> & -> & -> & ->). cbn. by rewrite <-app_assoc.
Qed.

Lemma strtok_word d t c r : Forall (fun x => in_set d x = false) t -> t <> [] -> in_set d c = true -> strtok d (t ++ c :: r) = Some (t, r).
Proof.
  intros Ht Hn Hc. unfold strtok. destruct t as [|x t]; [done|]. apply Forall_cons in Ht as [Hx Ht]. cbn [app span]. rewrite Hx.
  change (x :: t ++ c :: r) with ((x :: t) ++ c :: r). rewrite span_stop; [done| |by rewrite Hc].
  constructor; [by rewrite Hx|]. eapply Forall_impl; [exact Ht|]. intros y ->. done.
Qed.

Lemma not_in_set d t : (forall x, x ∈ d -> x ∉ t) -> Forall (fun x => in_set d x = false) t.
Proof.
  intros H. apply Forall_forall. intros x Hx. apply not_true_is_false. unfold in_set. rewrite existsb_exists. intros (y & Hy & ->%Z.eqb_eq).
  by apply (H y); [apply list_elem_of_In|].
Qed.

(** The header. *)
Lemma header_line fopen p s : page_ok p -> fopen (output_name p) = true ->
  wp (first_line fopen (header_of p ++ [LF])) (fun r s' => r = None /\
    s' = set_wfile (Some (output_name p, top_line p ++ [LF])) (set_wdate (p_date p) s)) s.
Proof.
  intros [(Hc1 & [Hc2 _] & Hc3) (Hs1 & [Hs2 _] & Hs3) Hnum Hdate Htitle _ _] Hopen. unfold first_line, header_of.
  change (starts_with (str ".TH ") ((str ".TH " ++ p_command p ++ SP :: p_section p ++ SP :: p_date p) ++ [LF])) with true. cbn [negb].
  change (drop 4 ((str ".TH " ++ p_command p ++ SP :: p_section p ++ SP :: p_date p) ++ [LF])) with ((p_command p ++ SP :: p_section p ++ SP :: p_date p) ++ [LF]).
  rewrite <-app_assoc. cbn [app]. rewrite strtok_word; [|apply not_in_set; by intros x ->%list_elem_of_singleton|done|done].
  rewrite <-app_assoc. cbn [app]. rewrite strtok_word; [|apply not_in_set; by intros x ->%list_elem_of_singleton|done|done].
  assert (Forall (fun x => in_set [SP; LF] x = false) (p_date p)) as Hd.
  { destruct (p_date p) as [|y1 [|y2 [|y3 [|y4 [|h1 [|m1 [|m2 [|h2 [|d1 [|d2 [|]]]]]]]]]]]; try done. cbn [date_ok] in Hdate.
    rewrite !andb_true_iff, !Z.eqb_eq in Hdate. destruct Hdate as [[Hdig ->] ->]. cbn [forallb] in Hdig. unfold is_digit in Hdig.
    rewrite !andb_true_iff, !Z.leb_le in Hdig. unfold in_set, existsb. repeat constructor; rewrite !orb_false_iff, !Z.eqb_neq; unfold SP, LF; lia. }
  rewrite strtok_word; [|done|by intros E; rewrite E in Hdate|done].
  destruct (Z.ltb_spec (atoi (p_section p)) 1) as [|_]; [lia|]. destruct (Z.ltb_spec 9 (atoi (p_section p))) as [|_]; [lia|]. cbn [orb].
  rewrite Hdate. cbn [negb]. apply wp_bind, wp_modify. fold (output_name p). rewrite Hopen. cbn [negb]. apply wp_bind, wp_modify. fold (title p).
  apply wp_bind. eapply wp_fputs; [reflexivity|].
  assert (80 - 2 * (Z.of_nat (length (p_command p)) + Z.of_nat (length (p_section p)) + 2) = Z.of_nat (80 - 2 * length (title p))) as ->.
  { unfold title in *. rewrite !length_app in *. simpl in *. lia. }
  rewrite Z.mod_small by lia. destruct (Z.ltb_spec (Z.of_nat (80 - 2 * length (title p))) (2 ^ 31)) as [_|]; [|lia]. rewrite Nat2Z.id.
  apply wp_bind, wp_ret. apply wp_bind. eapply wp_fputs; [reflexivity|]. apply wp_bind. eapply wp_fputs; [reflexivity|]. apply wp_ret. split; [done|].
  unfold set_wfile, top_line. cbn. by rewrite <-!app_assoc.
Qed.

Lemma date_length d : date_ok d = true -> length d = 10%nat.
Proof. by destruct d as [|y1 [|y2 [|y3 [|y4 [|h1 [|m1 [|m2 [|h2 [|d1 [|d2 [|]]]]]]]]]]]. Qed.

Lemma width p : page_ok p -> length (top_line p) = 80%nat /\ length (bottom_line p) = 80%nat.
Proof.
  intros [_ _ _ Hd Ht _ _]. apply date_length in Hd. unfold top_line, bottom_line, SPACES. rewrite !length_app, !length_replicate, Hd. lia.
Qed.

(** C25: [wgroff] formats every page of the required form: it exits with 0, prints nothing and
    writes to the file [command.section] the rendering of the page: a first line and a last
    line of exactly 80 columns, the names of the sections in bold capitals after an empty
    line, the other lines indented with their marks replaced, and no comment. *)
Theorem wgroff_correct p arg file fopen : page_ok p -> file arg = Some (Some (source p)) -> fopen (output_name p) = true ->
  length (top_line p) = 80%nat /\ length (bottom_line p) = 80%nat /\
  wp (wgroff [arg] file fopen) (fun r s => r = 0 /\ w_stdout s = [] /\ w_file s = Some (output_name p, render p)) wg_start.
Proof.
  intros Hp Hfile Hopen. pose proof (width p Hp) as [H1 H2]. split; [done|]. split; [done|]. unfold wgroff. rewrite Hfile.
  apply wp_bind, wp_modify. apply wp_bind. set (s0 := set_win (source p) wg_start).
  apply (wp_mono _ (fun r s' => r = None /\ w_file s' = Some (output_name p, top_line p ++ [LF] ++ concat (map render_item (p_items p))) /\
    w_stdout s' = [] /\ w_date s' = p_date p)).
  - cbn [wgroff_loop]. apply wp_bind, wp_gets. cbn [id s0 set_win w_in]. unfold source.
    pose proof Hp as [(_ & [Hc1 Hc2] & _) (_ & [Hs1 Hs2] & _) _ Hd Ht _ _].
    assert (forall c, c ∈ p_date p -> c = 45 \/ 48 <= c <= 57) as Hdate.
    { intros c Hc. destruct (p_date p) as [|y1 [|y2 [|y3 [|y4 [|h1 [|m1 [|m2 [|h2 [|d1 [|d2 [|]]]]]]]]]]]; try done. cbn [date_ok] in Hd.
      rewrite !andb_true_iff, !Z.eqb_eq in Hd. destruct Hd as [[Hdig ->] ->]. cbn [forallb] in Hdig. unfold is_digit in Hdig.
      rewrite !andb_true_iff, !Z.leb_le in Hdig. rewrite !elem_of_cons in Hc. repeat destruct Hc as [->|Hc]; try lia. by apply not_elem_of_nil in Hc. }
    rewrite fgets_line.
    2:{ unfold header_of. split; rewrite not_elem_of_app, not_elem_of_app, not_elem_of_cons, not_elem_of_app, not_elem_of_cons;
      split_and!; try done; try (by intros Hx%Hdate; unfold LF, NUL in Hx; lia); apply (bool_decide_unpack _); by vm_compute. }
    2:{ apply date_length in Hd. unfold header_of, title, MAX_LINE_LENGTH in *. rewrite !length_app in *. simpl. rewrite !length_app. simpl in *. lia. }
    apply wp_bind, wp_modify. apply wp_bind. unfold wgroff_line. apply wp_bind, wp_gets. cbn [id w_line set_win wg_start].
    change (0 <? 2 ^ 31 - 1) with true. cbv iota. apply wp_bind, wp_ret, wp_bind, wp_modify.
    change (starts_with (str "#") (header_of p ++ [LF])) with false. change (0 + 1 =? 1) with true. cbv iota.
    eapply wp_mono; [by apply header_line|]. intros r s' (-> & ->).
    assert (length (p_items p) <= length (concat (map (fun i => line_of i ++ [LF]) (p_items p))))%nat as Hlen.
    { induction (p_items p) as [|i l IH]; [done|]. cbn. rewrite !length_app. simpl. lia. }
    eapply wp_mono; [eapply (item_lines fopen (p_items p)); [apply Hp| |done|done|cbn; lia|cbn; pose proof (po_lines _ Hp); lia]|].
    { rewrite !length_app. simpl. lia. }
    intros r s' (-> & -> & -> & ->). cbn. by rewrite <-!app_assoc.
  - intros r s (-> & Ef & Eo & Ed). apply wp_bind. eapply wp_fputs; [exact Ef|]. apply wp_bind, wp_gets. cbn [id set_wfile w_date]. rewrite Ed.
    apply wp_bind. eapply wp_fputs; [reflexivity|]. apply wp_bind. eapply wp_fputs; [reflexivity|]. apply wp_bind. eapply wp_fputs; [reflexivity|].
    apply wp_ret. split; [done|]. split; [done|]. unfold render, bottom_line. cbn. by rewrite <-!app_assoc.
Qed.

(** ** Where the program departs from the format *)

(** A comment on the first line: the next line is written to a file that is not open. *)
Lemma comment_first fopen :
  wgroff [str "f"] (fun _ => Some (Some (str "# a comment" ++ [LF] ++ str ".TH ls 1 2023-09-19" ++ [LF]))) fopen wg_start = Undef "output_file".
Proof. reflexivity. Qed.

(** A title of more than 40 columns: the number of spaces is negative, as a [size_t] huge. *)
Lemma long_title command r s fopen : word command -> (37 < length command < MAX_LINE_LENGTH)%nat ->
  fopen (command ++ str ".1") = true -> first_line fopen (str ".TH " ++ command ++ str " 1 2023-09-19" ++ LF :: r) s = Undef "int overflow".
Proof.
  intros (Hn & _ & Hsp) Hlen Hopen. unfold first_line.
  change (starts_with (str ".TH ") (str ".TH " ++ command ++ str " 1 2023-09-19" ++ LF :: r)) with true. cbn [negb].
  change (drop 4 (str ".TH " ++ command ++ str " 1 2023-09-19" ++ LF :: r)) with (command ++ SP :: (str "1" ++ SP :: (str "2023-09-19" ++ LF :: r))).
  rewrite strtok_word; [|apply not_in_set; by intros x ->%list_elem_of_singleton|done|done].
  rewrite strtok_word by (repeat constructor || done). rewrite strtok_word by (repeat constructor || done).
  change ((atoi (str "1") <? 1) || (9 <? atoi (str "1"))) with false. change (date_ok (str "2023-09-19")) with true. cbn [negb].
  unfold bind at 1, modify at 1. change (str "." ++ str "1") with (str ".1"). rewrite Hopen. cbn [negb].
  unfold bind at 1, modify at 1. unfold bind at 1, fputs at 1. unfold bind at 1, gets at 1. cbn [id w_file set_wfile set_wdate]. unfold modify at 1.
  change (Z.of_nat (length (str "1"))) with 1. unfold bind at 1.
  rewrite <-(Z.mod_add _ 1) by lia. rewrite Z.mod_small by (unfold MAX_LINE_LENGTH in *; lia).
  destruct (Z.ltb_spec (80 - 2 * (Z.of_nat (length command) + 1 + 2) + 1 * 2 ^ 64) (2 ^ 31)) as [|_]; [unfold MAX_LINE_LENGTH in *; lia|done].
Qed.

(** Runs of slashes, and a slash before a letter of a mark. *)
Example four_slashes : escape (str "a////b") = str "a/b".
Proof. reflexivity. Qed.
Example slash_mark : escape (str "//fB") = str "/" ++ ESC 49.
Proof. reflexivity. Qed.

Definition sample_page : page := Page (str "ls") (str "1") (str "2023-09-19")
  [Section_ (str "name"); Comment (str " old"); Text (str "ls /fBlists/fP // files"); Text []].
Lemma wgroff_correct_witness : page_ok sample_page /\
  length (top_line sample_page) = 80%nat /\ length (bottom_line sample_page) = 80%nat /\
  wp (wgroff [str "f"] (fun _ => Some (Some (source sample_page))) (fun _ => true))
    (fun r s => r = 0 /\ w_stdout s = [] /\ w_file s = Some (str "ls.1", render sample_page)) wg_start.
Proof.
  assert (page_ok sample_page) as Hp.
  { split; try (split_and!; try done; unfold plain; try split; apply (bool_decide_unpack _); by vm_compute); try done.
    - vm_compute. lia.
    - repeat constructor; try (apply (bool_decide_unpack _); by vm_compute); try done; cbn; unfold MAX_LINE_LENGTH; lia. }
  split; [done|]. by apply (wgroff_correct sample_page (str "f")).
Defined.
Lemma convert_line_correct_witness : convert_line (str "/fBa//b") tt = Ret (ESC 49 ++ str "a/b") tt /\
  convert_line (str "/fB" ++ replicate 1020 97) tt = Undef "line".
Proof.
  split.
  - rewrite (convert_line_correct (str "/fBa//b") tt); [vm_compute; reflexivity|apply Nat.ltb_lt; vm_compute; reflexivity].
  - rewrite (convert_line_correct (str "/fB" ++ replicate 1020 97) tt); [vm_compute; reflexivity|apply Nat.ltb_lt; vm_compute; reflexivity].
Defined.

(** ** wman *)

(** Bytes that are not 0xff pass through the [char] of the copying loop. *)
Lemma put_chars_all bytes : Forall (fun c => 0 <= c < 255) bytes -> put_chars bytes = bytes.
Proof.
  induction 1 as [|c l Hc _ IH]; [done|]. cbn [put_chars]. rewrite IH. destruct (Z.eqb_spec (s8 c) (-1)) as [E|]; [|done].
  unfold s8 in E. destruct (decide (c < 128)).
  - rewrite Z.mod_small in E; lia.
  - replace (c + 2 ^ 7) with (c - 128 + 1 * 2 ^ 8) in E by lia. rewrite Z.mod_add, Z.mod_small in E by lia. lia.
Qed.

(** The copy stops at the byte 0xff, which compares equal to [EOF]. *)
Lemma put_chars_stop a b : Forall (fun c => 0 <= c < 255) a -> put_chars (a ++ 255 :: b) = a.
Proof.
  intros Ha. rewrite <-(put_chars_all a) at 2 by done. induction a as [|c a IH]; [done|]. cbn [app put_chars].
  apply Forall_cons in Ha as [_ Ha]. destruct (s8 c =? -1); [done|]. f_equal. by apply IH.
Qed.

(** The section is a digit, so that the path grows with the name only. *)
Lemma page_path_length i page : 1 <= i <= 9 -> length (page_path i page) = (19 + length page)%nat.
Proof.
  intros Hi. assert (length (str (pretty i)) = 1%nat) as El.
  { assert (i = 1 \/ i = 2 \/ i = 3 \/ i = 4 \/ i = 5 \/ i = 6 \/ i = 7 \/ i = 8 \/ i = 9) as Hc by lia.
    repeat destruct Hc as [->|Hc]; try subst i; by vm_compute. }
  unfold page_path. rewrite !length_app, El. change (length (str "./man_pages/man")) with 15%nat. simpl. lia.
Qed.

(** What a search prints and returns: the first section that has the page. *)
Fixpoint first_page (file : list Z -> option (option (list Z))) (page : list Z) (n : nat) (i : Z) : option (option (list Z)) :=
  match n with
  | O => None
  | S n' => match file (page_path i page) with Some c => Some c | None => first_page file page n' (i + 1) end
  end.
Definition answer (page : list Z) (o : option (option (list Z))) : Z * list Z :=
  match o with
  | None => (0, str "No manual entry for " ++ page ++ [LF])
  | Some None => (1, str "cannot open file" ++ [LF])
  | Some (Some bytes) => (0, bytes)
  end.

Lemma wman_search_spec file page : (length page < 237)%nat -> (forall p b, file p = Some (Some b) -> Forall (fun c => 0 <= c < 255) b) ->
  forall n i out, 1 <= i -> i + Z.of_nat n <= 10 ->
  wman_search file page n i out = Ret (fst (answer page (first_page file page n i))) (out ++ snd (answer page (first_page file page n i))).
Proof.
  intros Hlen Hbytes. induction n as [|n IH]; intros i out H1 H2; [done|]. cbn [wman_search first_page]. unfold path_fits, bind.
  rewrite page_path_length by lia. destruct (Nat.ltb_spec (19 + length page) 256) as [_|]; [|lia]. unfold ret at 1.
  destruct (file (page_path i page)) as [[b|]|] eqn:E; [|done|apply IH; lia].
  unfold show, put, bind, modify, ret. cbn. by rewrite put_chars_all by (by eapply Hbytes).
Qed.

(** [wman page] prints the page of the first section that has it; [wman section page] that of
    the section. *)
Theorem wman_correct file page section : (length page < 237)%nat -> (forall p b, file p = Some (Some b) -> Forall (fun c => 0 <= c < 255) b) ->
  wman [page] file [] = Ret (fst (answer page (first_page file page 9 1))) (snd (answer page (first_page file page 9 1))) /\
  (1 <= atoi section <= 9 -> forall bytes, file (page_path (atoi section) page) = Some (Some bytes) -> wman [section; page] file [] = Ret 0 bytes) /\
  (1 <= atoi section <= 9 -> file (page_path (atoi section) page) = None ->
    wman [section; page] file [] = Ret 0 (str "No manual entry for " ++ page ++ str " in section " ++ section ++ [LF])) /\
  (~ 1 <= atoi section <= 9 -> wman [section; page] file [] = Ret 1 (str "invalid section" ++ [LF])).
Proof.
  intros Hlen Hbytes. split; [apply (wman_search_spec file page Hlen Hbytes 9 1 []); lia|].
  assert (forall b out, file (page_path (atoi section) page) = Some (Some b) -> show (Some b) out = Ret 0 (out ++ b)) as Hshow.
  { intros b out E. unfold show, put, bind, modify, ret. by rewrite put_chars_all by (by eapply Hbytes). }
  unfold wman. destruct (Z.ltb_spec (atoi section) 1); destruct (Z.ltb_spec 9 (atoi section)); cbn [orb]; split_and!; try lia; try done;
    intros Hs; unfold path_fits, bind; rewrite page_path_length by lia; (destruct (Nat.ltb_spec (19 + length page) 256) as [_|]; [|lia]).
  - intros b E. unfold ret. rewrite E. by apply Hshow.
  - intros E. unfold ret. by rewrite E.
Qed.

(** A number followed by other characters is taken for a section. *)
Example section_suffix : wman [str "1x"; str "ls"] (fun _ => Some (Some (str "page"))) [] = Ret 0 (str "page").
Proof. reflexivity. Qed.

(** ** wapropos *)

(** A keyword after the dash of the NAME line is not found: [strtok] has cut the line there. *)
Definition manual : list Z :=
  NAME_LINE ++ str "       wman - a simplified manual" ++ [LF] ++ ESC 49 ++ str "SYNOPSIS" ++ ESC 48 ++ [LF] ++ str "       wman page" ++ [LF].
Lemma liner_not_searched : wapropos [str "simplified"] [Some [(str "wman.1", Some manual)]] [] = Ret 0 (str "nothing appropriate" ++ [LF]) /\
  wapropos [str "wman"] [Some [(str "wman.1", Some manual)]] [] = Ret 0 (str "wman (1) - a simplified manual" ++ [LF]).
Proof. split; reflexivity. Qed.
