(* ===== verification/Locks.v ===== *)
(** * Spin locks and interrupt nesting (spinlock.c)

    [struct cpu] keeps the nesting depth [ncli] of [pushcli] and whether interrupts
    were enabled before it; the interrupt flag of the processor is part of the state.
    A spin lock records the CPU that holds it.  [acquire] of a lock that another CPU
    holds spins: the model stops there with [Sleep "spin"], and the transition system
    [smp_step] lets that CPU try again later.  [getcallerpcs] only fills the debugging
    field [pcs] and is not modelled. *)

From S2P Require Import Prelude.

Record cpu := Cpu { ncli : Z; intena : bool; eflags_if : bool }.
Record spinlock := SpinLock { locked : bool; lk_cpu : option nat }.

(** What one CPU sees: itself, its number and one lock. *)
Record lockst := LockSt { ls_cpu : cpu; ls_id : nat; ls_lock : spinlock }.

Definition initlock : spinlock := SpinLock false None.

Definition get_cpu : M lockst cpu := gets ls_cpu.
Definition set_cpu (c : cpu) : M lockst unit := modify (fun s => LockSt c (ls_id s) (ls_lock s)).
Definition set_lock (l : spinlock) : M lockst unit := modify (fun s => LockSt (ls_cpu s) (ls_id s) l).

Definition pushcli : M lockst unit :=
  c <- get_cpu ;;
  set_cpu (Cpu (ncli c + 1) (if ncli c =? 0 then eflags_if c else intena c) false).

Definition popcli : M lockst unit :=
  c <- get_cpu ;;
  panic_if (eflags_if c) "popcli - interruptible" ;;;
  panic_if (ncli c - 1 <? 0) "popcli" ;;;
  set_cpu (Cpu (ncli c - 1) (intena c) (if (ncli c - 1 =? 0) && intena c then true else eflags_if c)).

Definition holding : M lockst bool :=
  pushcli ;;;
  s <- gets id ;;
  popcli ;;;
  ret (locked (ls_lock s) && bool_decide (lk_cpu (ls_lock s) = Some (ls_id s))).

Definition acquire : M lockst unit :=
  pushcli ;;;
  h <- holding ;;
  panic_if h "acquire" ;;;
  s <- gets id ;;
  if locked (ls_lock s) then sleeps "spin"
  else set_lock (SpinLock true (Some (ls_id s))).

Definition release : M lockst unit :=
  h <- holding ;;
  panic_if (negb h) "release" ;;;
  set_lock (SpinLock false None) ;;;
  popcli.

(** ** Several CPUs and several locks *)

Record smp := Smp { smp_cpus : list cpu; smp_locks : list spinlock }.

Inductive smp_step : smp -> smp -> Prop :=
| smp_acquire cs ls i j c l s' :
    cs !! i = Some c -> ls !! j = Some l ->
    acquire (LockSt c i l) = Ret tt s' ->
    smp_step (Smp cs ls) (Smp (<[i := ls_cpu s']> cs) (<[j := ls_lock s']> ls))
| smp_release cs ls i j c l s' :
    cs !! i = Some c -> ls !! j = Some l -> lk_cpu l = Some i ->
    release (LockSt c i l) = Ret tt s' ->
    smp_step (Smp cs ls) (Smp (<[i := ls_cpu s']> cs) (<[j := ls_lock s']> ls)).

(** The locks that CPU [i] holds. *)
Definition held (i : nat) (ls : list spinlock) : list spinlock :=
  filter (fun l => lk_cpu l = Some i) ls.

Record smp_ok (x : smp) : Prop := SmpOk {
  so_locked : forall j l, smp_locks x !! j = Some l -> locked l = bool_decide (is_Some (lk_cpu l));
  so_owner : forall j l i, smp_locks x !! j = Some l -> lk_cpu l = Some i -> is_Some (smp_cpus x !! i);
  so_ncli : forall i c, smp_cpus x !! i = Some c -> ncli c = Z.of_nat (length (held i (smp_locks x)));
  so_if : forall i c, smp_cpus x !! i = Some c ->
    eflags_if c = if ncli c =? 0 then eflags_if c else false;
}.

(** ** Lemmas *)

Lemma pushcli_ret c i l :
  pushcli (LockSt c i l) =
  Ret tt (LockSt (Cpu (ncli c + 1) (if ncli c =? 0 then eflags_if c else intena c) false) i l).
Proof. done. Qed.

(** [pushcli]/[popcli] around code that leaves the CPU alone restore the flag. *)
Lemma holding_ret c i l :
  0 <= ncli c -> (0 < ncli c -> eflags_if c = false) ->
  exists c', holding (LockSt c i l) =
    Ret (locked l && bool_decide (lk_cpu l = Some i)) (LockSt c' i l) /\
    ncli c' = ncli c /\ eflags_if c' = eflags_if c /\ (0 < ncli c -> intena c' = intena c).
Proof.
  intros Hn Hif. unfold holding, popcli, bind, get_cpu, set_cpu, gets, modify, ret. simpl.
  replace (ncli c + 1 - 1) with (ncli c) by lia.
  destruct (ncli c <? 0) eqn:E; [lia|]. simpl. eexists. split; [done|]. simpl.
  split; [done|]. destruct (Z.eqb_spec (ncli c) 0); simpl.
  - split; [|lia]. by destruct (eflags_if c).
  - split; [symmetry; apply Hif; lia|done].
Qed.

Lemma acquire_ret c i l :
  0 <= ncli c -> (0 < ncli c -> eflags_if c = false) ->
  locked l = bool_decide (is_Some (lk_cpu l)) ->
  match lk_cpu l with
  | None => exists c', acquire (LockSt c i l) = Ret tt (LockSt c' i (SpinLock true (Some i))) /\
      ncli c' = ncli c + 1 /\ eflags_if c' = false /\
      intena c' = if ncli c =? 0 then eflags_if c else intena c
  | Some k => acquire (LockSt c i l) = if bool_decide (k = i) then Panic "acquire" else Sleep "spin"
  end.
Proof.
  intros Hn Hif Hl.
  set (c1 := Cpu (ncli c + 1) (if ncli c =? 0 then eflags_if c else intena c) false).
  destruct (holding_ret c1 i l) as (c2 & Hh & H1 & H2 & H3); simpl in *; [lia|done|].
  assert (acquire (LockSt c i l) =
    (panic_if (locked l && bool_decide (lk_cpu l = Some i)) "acquire" ;;;
     s <- gets id ;;
     if locked (ls_lock s) then sleeps "spin" else set_lock (SpinLock true (Some (ls_id s))))
      (LockSt c2 i l)) as ->.
  { unfold acquire. unfold bind at 1. rewrite pushcli_ret. fold c1. unfold bind at 1. by rewrite Hh. }
  destruct (lk_cpu l) as [k|].
  - change (locked l = true) in Hl. rewrite Hl. destruct (decide (k = i)) as [->|Hne].
    + by rewrite !bool_decide_true.
    + rewrite !bool_decide_false by congruence. unfold bind, gets. simpl. by rewrite Hl.
  - change (locked l = false) in Hl. rewrite Hl. simpl.
    unfold bind, gets, set_lock, modify. simpl. rewrite Hl.
    eexists. split; [done|]. split; [done|]. split; [done|]. apply H3. lia.
Qed.

Lemma release_ret c i l :
  0 < ncli c -> eflags_if c = false -> locked l = true -> lk_cpu l = Some i ->
  exists c', release (LockSt c i l) = Ret tt (LockSt c' i (SpinLock false None)) /\
    ncli c' = ncli c - 1 /\ eflags_if c' = ((ncli c =? 1) && intena c).
Proof.
  intros Hn Hif Hl Hc. destruct (holding_ret c i l) as (c2 & Hh & H1 & H2 & H3); [lia|done|].
  unfold release. unfold bind at 1. rewrite Hh, Hl, Hc, bool_decide_true by done. simpl.
  unfold set_lock, popcli, bind, get_cpu, set_cpu, gets, modify. simpl. rewrite H2, Hif. simpl.
  rewrite H1. destruct (_ <? 0) eqn:E; [lia|]. simpl. eexists. split; [done|]. simpl.
  split; [done|]. rewrite (H3 Hn). replace (ncli c - 1 =? 0) with (ncli c =? 1) by lia.
  rewrite ?H2, ?Hif. by destruct (ncli c =? 1), (intena c).
Qed.

(** A step changes how many locks its CPU holds by one, and nothing for the others. *)
Lemma held_insert i j ls l l' :
  ls !! j = Some l ->
  Z.of_nat (length (held i (<[j := l']> ls))) =
  Z.of_nat (length (held i ls)) - (if bool_decide (lk_cpu l = Some i) then 1 else 0)
    + (if bool_decide (lk_cpu l' = Some i) then 1 else 0).
Proof.
  revert j. induction ls as [|x ls IH]; intros [|j] Hj; simplify_eq/=.
  - unfold held. rewrite !filter_cons. repeat case_decide; repeat case_bool_decide; simpl; first [done|lia].
  - unfold held in *. rewrite !filter_cons. specialize (IH _ Hj). destruct (decide (lk_cpu x = Some i)); rewrite ?length_cons; lia.
Qed.

Lemma held_at i j ls l : ls !! j = Some l -> lk_cpu l = Some i -> (0 < length (held i ls))%nat.
Proof.
  intros Hj Hi. assert (l ∈ held i ls) as H.
  { apply list_elem_of_filter. split; [done|]. by eapply list_elem_of_lookup_2. }
  destruct (held i ls); [by apply not_elem_of_nil in H|simpl; lia].
Qed.

Lemma held_others i k j ls l l' :
  ls !! j = Some l -> i <> k -> (lk_cpu l = None \/ lk_cpu l = Some i) ->
  (lk_cpu l' = None \/ lk_cpu l' = Some i) ->
  length (held k (<[j := l']> ls)) = length (held k ls).
Proof.
  intros Hj Hne Hl Hl'. apply Nat2Z.inj. rewrite (held_insert _ _ _ _ _ Hj).
  rewrite !bool_decide_false; [lia|..]; destruct Hl, Hl'; congruence.
Qed.

Lemma smp_cpu_if x i c : smp_ok x -> smp_cpus x !! i = Some c ->
  0 <= ncli c /\ (0 < ncli c -> eflags_if c = false).
Proof.
  intros Hx Hc. rewrite (so_ncli _ Hx _ _ Hc). split; [lia|]. intros Hp.
  pose proof (so_if _ Hx _ _ Hc) as E. rewrite (so_ncli _ Hx _ _ Hc) in E.
  destruct (Z.eqb_spec (Z.of_nat (length (held i (smp_locks x)))) 0); [lia|done].
Qed.

Lemma smp_ok_update x i j c l c' l' :
  smp_ok x -> smp_cpus x !! i = Some c -> smp_locks x !! j = Some l ->
  (lk_cpu l = None \/ lk_cpu l = Some i) -> (lk_cpu l' = None \/ lk_cpu l' = Some i) ->
  locked l' = bool_decide (is_Some (lk_cpu l')) ->
  ncli c' = ncli c - (if bool_decide (lk_cpu l = Some i) then 1 else 0)
    + (if bool_decide (lk_cpu l' = Some i) then 1 else 0) ->
  (ncli c' <> 0 -> eflags_if c' = false) ->
  smp_ok (Smp (<[i := c']> (smp_cpus x)) (<[j := l']> (smp_locks x))).
Proof.
  intros Hx Hc Hl Ho Ho' Hk Hn Hif. pose proof Hx as [H1 H2 H3 H4].
  assert (forall k e, <[i := c']> (smp_cpus x) !! k = Some e ->
    (k = i /\ e = c') \/ (k <> i /\ smp_cpus x !! k = Some e)) as Hcase.
  { intros k e. rewrite list_lookup_insert_Some. intros [(-> & -> & _)|[? ?]]; [by left|by right]. }
  split; simpl.
  - intros k e. rewrite list_lookup_insert_Some. intros [(_ & <- & _)|[_ ?]]; [done|by eapply H1].
  - intros k e i' He Hi. apply lookup_lt_is_Some_2. rewrite length_insert. apply lookup_lt_is_Some_1.
    apply list_lookup_insert_Some in He as [(_ & <- & _)|[_ He]]; [|by eapply H2].
    destruct Ho' as [Ho'|Ho']; rewrite Ho' in Hi; [done|]. injection Hi as <-. by eexists.
  - intros k e [[-> ->]|[Hne He]]%Hcase.
    + rewrite (held_insert _ _ _ _ _ Hl), <-(H3 _ _ Hc). lia.
    + rewrite (held_others i) with (l := l); [by apply H3|done..].
  - intros k e [[-> ->]|[Hne He]]%Hcase; [|by eapply H4].
    destruct (Z.eqb_spec (ncli c') 0); [done|]. by apply Hif.
Qed.

Lemma smp_step_ok x y : smp_ok x -> smp_step x y -> smp_ok y.
Proof.
  intros Hx Hst. destruct Hst as [cs ls i j c l s' Hc Hl Ha|cs ls i j c l s' Hc Hl Ho Hr].
  - destruct (smp_cpu_if _ _ _ Hx Hc) as [Hn Hif].
    pose proof (acquire_ret c i l Hn Hif (so_locked _ Hx _ _ Hl)) as H.
    destruct (lk_cpu l) as [k|] eqn:Ek; [rewrite H in Ha; by case_bool_decide|].
    destruct H as (c' & Hret & Hn' & Hif' & _). rewrite Hret in Ha. injection Ha as <-.
    eapply (smp_ok_update (Smp cs ls) i j c l); simpl; try done; [by left|by right|].
    rewrite Ek, Hn'. simpl. rewrite ?bool_decide_true by done. simpl. lia.
  - destruct (smp_cpu_if _ _ _ Hx Hc) as [Hn Hif].
    pose proof (held_at _ _ _ _ Hl Ho) as Hp. pose proof (so_ncli _ Hx _ _ Hc) as Hnc. simpl in Hnc.
    pose proof (so_locked _ Hx _ _ Hl) as Hlk. rewrite Ho in Hlk. change (locked l = true) in Hlk.
    destruct (release_ret c i l) as (c' & Hret & Hn' & Hif'); [lia|apply Hif; lia|done|done|].
    rewrite Hret in Hr. injection Hr as <-.
    eapply (smp_ok_update (Smp cs ls) i j c l); simpl; try done; [by right|by left| |].
    + rewrite Ho, Hn', bool_decide_true by done. simpl. lia.
    + intros Hz. rewrite Hif'. destruct (Z.eqb_spec (ncli c) 1); [lia|done].
Qed.

Definition smp_start (ncpu nlock : nat) : smp :=
  Smp (replicate ncpu (Cpu 0 false true)) (replicate nlock initlock).

Lemma smp_start_ok n m : smp_ok (smp_start n m).
Proof.
  assert (forall i, held i (replicate m initlock) = []) as Hh.
  { intros i. induction m as [|m IH]; [done|]. simpl. unfold held. by rewrite filter_cons_False. }
  split; simpl.
  - intros j l [-> _]%lookup_replicate_1. done.
  - intros j l i [-> _]%lookup_replicate_1. done.
  - intros i c [-> _]%lookup_replicate_1. by rewrite Hh.
  - intros i c [-> _]%lookup_replicate_1. done.
Qed.

(** ** Theorems *)

(** In every state that CPUs reach by acquiring and releasing spin locks from a
    fresh start, [ncli] of a CPU counts the locks it holds, and a CPU that holds a
    lock has interrupts disabled (so a lock taken with interrupts on cannot be
    re-entered by a handler on the same CPU). *)
Theorem locks_disable_interrupts n m x i c :
  rtc smp_step (smp_start n m) x -> smp_cpus x !! i = Some c ->
  ncli c = Z.of_nat (length (held i (smp_locks x))) /\
  (held i (smp_locks x) <> [] -> eflags_if c = false).
Proof.
  intros Hr Hc. assert (smp_ok x) as Hx.
  { clear Hc. remember (smp_start n m) as y eqn:E. pose proof (smp_start_ok n m) as Hy. rewrite <-E in Hy.
    clear E. induction Hr; [done|]. by eauto using smp_step_ok. }
  pose proof (so_ncli _ Hx _ _ Hc) as Hn. split; [done|]. intros Hne.
  apply (smp_cpu_if _ _ _ Hx Hc). rewrite Hn. destruct (held i (smp_locks x)); [done|simpl; lia].
Qed.

(** [release] undoes [acquire]: a CPU with consistent nesting that takes a free
    lock and releases it gets back its nesting depth and interrupt flag, and the lock
    is free again; taking a lock that the CPU already holds panics, and one that
    another CPU holds spins. *)
Theorem acquire_release c i l :
  0 <= ncli c -> (0 < ncli c -> eflags_if c = false) ->
  locked l = bool_decide (is_Some (lk_cpu l)) ->
  match lk_cpu l with
  | None => wp (acquire ;;; release) (fun _ s' =>
      ncli (ls_cpu s') = ncli c /\ eflags_if (ls_cpu s') = eflags_if c /\ ls_lock s' = initlock)
      (LockSt c i l)
  | Some k => acquire (LockSt c i l) = if bool_decide (k = i) then Panic "acquire" else Sleep "spin"
  end.
Proof.
  intros Hn Hif Hl. pose proof (acquire_ret c i l Hn Hif Hl) as H.
  destruct (lk_cpu l) as [k|]; [done|]. destruct H as (c1 & Ha & H1 & H2 & H3).
  apply wp_bind. eapply wp_run; [done|].
  destruct (release_ret c1 i (SpinLock true (Some i))) as (c2 & Hr & H4 & H5); try done; [lia|].
  eapply wp_run; [done|]. simpl. split; [lia|]. split; [|done]. rewrite H5, H3.
  destruct (Z.eqb_spec (ncli c) 0) as [E|E].
  - by rewrite H1, E.
  - replace (ncli c1 =? 1) with false by (symmetry; apply Z.eqb_neq; lia).
    symmetry. apply Hif. lia.
Qed.

(** ** Witnesses *)

Lemma locks_disable_interrupts_witness :
  0 = Z.of_nat (length (held 0 (smp_locks (smp_start 2 3)))).
Proof.
  apply (locks_disable_interrupts 2 3 (smp_start 2 3) 0 (Cpu 0 false true)).
  - apply rtc_refl.
  - reflexivity.
Defined.

Lemma acquire_release_witness :
  wp (acquire ;;; release) (fun _ s' =>
    ncli (ls_cpu s') = 0 /\ eflags_if (ls_cpu s') = true /\ ls_lock s' = initlock)
    (LockSt (Cpu 0 false true) 0 initlock).
Proof.
  apply (acquire_release (Cpu 0 false true) 0 initlock).
  - reflexivity || (simpl; lia).
  - simpl. lia.
  - reflexivity.
Defined.
