(* ===== verification/Proc.v ===== *)
(** * The process table and the scheduler (p4: proc.c, proc.h, psched.h, sysproc.c)

    The state of the kernel that proc.c works on: the table [ptable.proc], [nextpid],
    [initproc], the CPU with its current process, the lock [ptable.lock] and the global
    [ticks].  The machine has one CPU.  What proc.c needs of the memory allocator, the
    page tables and the file system is the interface [KernelServices].

    A switch of context splits an operation in two: the part up to [sched], which hands
    the CPU and the held lock to the scheduler, and the part that runs when the
    scheduler has picked the process again ([resume]). *)

From S2P Require Import Prelude Locks.

Definition NPROC : nat := 64.
Definition NOFILE : nat := 16.
Definition PGSIZE : Z := 4096.

(** ** State *)

Inductive procstate := UNUSED | EMBRYO | SLEEPING | RUNNABLE | RUNNING | ZOMBIE.
#[export] Instance procstate_eq_dec : EqDecision procstate.
Proof. solve_decision. Defined.

(** Sleep channels are addresses: of a table slot ([wait]), of [ticks], or of some
    other kernel object. *)
Inductive chan := CNull | CProc (i : nat) | CTicks | COther (a : Z).
#[export] Instance chan_eq_dec : EqDecision chan.
Proof. solve_decision. Defined.

(** Where [swtch] to the saved context continues. *)
Inductive resume := AtForkret | AtYield | AtSleep | AtWait | AtExit.
#[export] Instance resume_eq_dec : EqDecision resume.
Proof. solve_decision. Defined.

(** The fields of [struct trapframe] that proc.c sets, and the rest. *)
Record trapframe := Trapframe {
  tf_eax : Z; tf_eip : Z; tf_esp : Z; tf_eflags : Z;
  tf_cs : Z; tf_ds : Z; tf_es : Z; tf_ss : Z;
  tf_other : list Z;
}.

Record proc := Proc {
  p_sz : Z;
  p_pgdir : Z;
  p_kstack : Z;
  p_state : procstate;
  p_pid : Z;
  p_parent : option nat;
  p_tf : trapframe;
  p_ctx : resume;
  p_intena : bool;           (* the local intena of sched *)
  p_chan : chan;
  p_killed : Z;
  p_ofile : list Z;
  p_cwd : Z;
  p_name : list Z;
  p_priority : Z;
  p_nice : Z;
  p_sleeptime : Z;
  p_ticks : Z;
}.

Definition set_sz (x : Z) (p : proc) : proc :=
  Proc x (p_pgdir p) (p_kstack p) (p_state p) (p_pid p) (p_parent p) (p_tf p) (p_ctx p) (p_intena p)
    (p_chan p) (p_killed p) (p_ofile p) (p_cwd p) (p_name p) (p_priority p) (p_nice p)
    (p_sleeptime p) (p_ticks p).
Definition set_pgdir (x : Z) (p : proc) : proc :=
  Proc (p_sz p) x (p_kstack p) (p_state p) (p_pid p) (p_parent p) (p_tf p) (p_ctx p) (p_intena p)
    (p_chan p) (p_killed p) (p_ofile p) (p_cwd p) (p_name p) (p_priority p) (p_nice p)
    (p_sleeptime p) (p_ticks p).
Definition set_kstack (x : Z) (p : proc) : proc :=
  Proc (p_sz p) (p_pgdir p) x (p_state p) (p_pid p) (p_parent p) (p_tf p) (p_ctx p) (p_intena p)
    (p_chan p) (p_killed p) (p_ofile p) (p_cwd p) (p_name p) (p_priority p) (p_nice p)
    (p_sleeptime p) (p_ticks p).
Definition set_state (x : procstate) (p : proc) : proc :=
  Proc (p_sz p) (p_pgdir p) (p_kstack p) x (p_pid p) (p_parent p) (p_tf p) (p_ctx p) (p_intena p)
    (p_chan p) (p_killed p) (p_ofile p) (p_cwd p) (p_name p) (p_priority p) (p_nice p)
    (p_sleeptime p) (p_ticks p).
Definition set_pid (x : Z) (p : proc) : proc :=
  Proc (p_sz p) (p_pgdir p) (p_kstack p) (p_state p) x (p_parent p) (p_tf p) (p_ctx p) (p_intena p)
    (p_chan p) (p_killed p) (p_ofile p) (p_cwd p) (p_name p) (p_priority p) (p_nice p)
    (p_sleeptime p) (p_ticks p).
Definition set_parent (x : option nat) (p : proc) : proc :=
  Proc (p_sz p) (p_pgdir p) (p_kstack p) (p_state p) (p_pid p) x (p_tf p) (p_ctx p) (p_intena p)
    (p_chan p) (p_killed p) (p_ofile p) (p_cwd p) (p_name p) (p_priority p) (p_nice p)
    (p_sleeptime p) (p_ticks p).
Definition set_tf (x : trapframe) (p : proc) : proc :=
  Proc (p_sz p) (p_pgdir p) (p_kstack p) (p_state p) (p_pid p) (p_parent p) x (p_ctx p) (p_intena p)
    (p_chan p) (p_killed p) (p_ofile p) (p_cwd p) (p_name p) (p_priority p) (p_nice p)
    (p_sleeptime p) (p_ticks p).
Definition set_ctx (x : resume) (p : proc) : proc :=
  Proc (p_sz p) (p_pgdir p) (p_kstack p) (p_state p) (p_pid p) (p_parent p) (p_tf p) x (p_intena p)
    (p_chan p) (p_killed p) (p_ofile p) (p_cwd p) (p_name p) (p_priority p) (p_nice p)
    (p_sleeptime p) (p_ticks p).
Definition set_intena (x : bool) (p : proc) : proc :=
  Proc (p_sz p) (p_pgdir p) (p_kstack p) (p_state p) (p_pid p) (p_parent p) (p_tf p) (p_ctx p) x
    (p_chan p) (p_killed p) (p_ofile p) (p_cwd p) (p_name p) (p_priority p) (p_nice p)
    (p_sleeptime p) (p_ticks p).
Definition set_chan (x : chan) (p : proc) : proc :=
  Proc (p_sz p) (p_pgdir p) (p_kstack p) (p_state p) (p_pid p) (p_parent p) (p_tf p)
    (p_ctx p) (p_intena p) x (p_killed p) (p_ofile p) (p_cwd p) (p_name p) (p_priority p) (p_nice p)
    (p_sleeptime p) (p_ticks p).
Definition set_killed (x : Z) (p : proc) : proc :=
  Proc (p_sz p) (p_pgdir p) (p_kstack p) (p_state p) (p_pid p) (p_parent p) (p_tf p)
    (p_ctx p) (p_intena p) (p_chan p) x (p_ofile p) (p_cwd p) (p_name p) (p_priority p) (p_nice p)
    (p_sleeptime p) (p_ticks p).
Definition set_ofile (x : list Z) (p : proc) : proc :=
  Proc (p_sz p) (p_pgdir p) (p_kstack p) (p_state p) (p_pid p) (p_parent p) (p_tf p)
    (p_ctx p) (p_intena p) (p_chan p) (p_killed p) x (p_cwd p) (p_name p) (p_priority p) (p_nice p)
    (p_sleeptime p) (p_ticks p).
Definition set_cwd (x : Z) (p : proc) : proc :=
  Proc (p_sz p) (p_pgdir p) (p_kstack p) (p_state p) (p_pid p) (p_parent p) (p_tf p)
    (p_ctx p) (p_intena p) (p_chan p) (p_killed p) (p_ofile p) x (p_name p) (p_priority p) (p_nice p)
    (p_sleeptime p) (p_ticks p).
Definition set_name (x : list Z) (p : proc) : proc :=
  Proc (p_sz p) (p_pgdir p) (p_kstack p) (p_state p) (p_pid p) (p_parent p) (p_tf p)
    (p_ctx p) (p_intena p) (p_chan p) (p_killed p) (p_ofile p) (p_cwd p) x (p_priority p) (p_nice p)
    (p_sleeptime p) (p_ticks p).
Definition set_priority (x : Z) (p : proc) : proc :=
  Proc (p_sz p) (p_pgdir p) (p_kstack p) (p_state p) (p_pid p) (p_parent p) (p_tf p)
    (p_ctx p) (p_intena p) (p_chan p) (p_killed p) (p_ofile p) (p_cwd p) (p_name p) x (p_nice p)
    (p_sleeptime p) (p_ticks p).
Definition set_nice (x : Z) (p : proc) : proc :=
  Proc (p_sz p) (p_pgdir p) (p_kstack p) (p_state p) (p_pid p) (p_parent p) (p_tf p)
    (p_ctx p) (p_intena p) (p_chan p) (p_killed p) (p_ofile p) (p_cwd p) (p_name p) (p_priority p) x
    (p_sleeptime p) (p_ticks p).
Definition set_sleeptime (x : Z) (p : proc) : proc :=
  Proc (p_sz p) (p_pgdir p) (p_kstack p) (p_state p) (p_pid p) (p_parent p) (p_tf p)
    (p_ctx p) (p_intena p) (p_chan p) (p_killed p) (p_ofile p) (p_cwd p) (p_name p) (p_priority p)
    (p_nice p) x (p_ticks p).
Definition set_ticks (x : Z) (p : proc) : proc :=
  Proc (p_sz p) (p_pgdir p) (p_kstack p) (p_state p) (p_pid p) (p_parent p) (p_tf p)
    (p_ctx p) (p_intena p) (p_chan p) (p_killed p) (p_ofile p) (p_cwd p) (p_name p) (p_priority p)
    (p_nice p) (p_sleeptime p) x.

Definition zero_tf : trapframe := Trapframe 0 0 0 0 0 0 0 0 [].
Definition zero_proc : proc :=
  Proc 0 0 0 UNUSED 0 None zero_tf AtForkret false CNull 0 (replicate NOFILE 0) 0 [] 0 0 0 0.

(** What proc.c calls in other parts of the kernel: kalloc.c, vm.c, file.c, fs.c.
    Each call changes the state [K] of those parts; a null result is 0. *)
Class KernelServices (K : Type) := {
  kalloc : M K Z;
  kfree : Z -> M K unit;
  setupkvm : M K Z;
  inituvm : Z -> M K unit;
  copyuvm : Z -> Z -> M K Z;
  freevm : Z -> M K unit;
  allocuvm : Z -> Z -> Z -> M K Z;
  deallocuvm : Z -> Z -> Z -> M K Z;
  filedup : Z -> M K Z;
  fileclose : Z -> M K unit;
  idup : Z -> M K Z;
  iput_op : Z -> M K unit;       (* begin_op(); iput(ip); end_op(); *)
  namei_root : M K Z;
}.

(** Every call returns, and [filedup] and [idup] return their argument. *)
Class ServicesReturn (K : Type) `{KernelServices K} : Prop := {
  kalloc_returns k : wp kalloc (fun _ _ => True) k;
  kfree_returns a k : wp (kfree a) (fun _ _ => True) k;
  copyuvm_returns a n k : wp (copyuvm a n) (fun _ _ => True) k;
  freevm_returns a k : wp (freevm a) (fun _ _ => True) k;
  filedup_returns f k : wp (filedup f) (fun r _ => r = f) k;
  fileclose_returns f k : wp (fileclose f) (fun _ _ => True) k;
  idup_returns i k : wp (idup i) (fun r _ => r = i) k;
  iput_returns i k : wp (iput_op i) (fun _ _ => True) k;
}.

Section kernel.
Context {K : Type} `{KernelServices K}.

Record kst := Kst {
  procs : list proc;
  nextpid : Z;
  initproc : option nat;
  cur : option nat;          (* mycpu()->proc *)
  kcpu : cpu;
  ptlock : spinlock;
  env : K;
}.

Definition set_procs (x : list proc) (s : kst) : kst :=
  Kst x (nextpid s) (initproc s) (cur s) (kcpu s) (ptlock s) (env s).
Definition set_nextpid (x : Z) (s : kst) : kst :=
  Kst (procs s) x (initproc s) (cur s) (kcpu s) (ptlock s) (env s).
Definition set_initproc (x : option nat) (s : kst) : kst :=
  Kst (procs s) (nextpid s) x (cur s) (kcpu s) (ptlock s) (env s).
Definition set_cur (x : option nat) (s : kst) : kst :=
  Kst (procs s) (nextpid s) (initproc s) x (kcpu s) (ptlock s) (env s).
Definition set_locks (c : cpu) (l : spinlock) (s : kst) : kst :=
  Kst (procs s) (nextpid s) (initproc s) (cur s) c l (env s).
Definition set_env (x : K) (s : kst) : kst :=
  Kst (procs s) (nextpid s) (initproc s) (cur s) (kcpu s) (ptlock s) x.

(** ** Operations *)

Definition on_lock {A} (m : M lockst A) : M kst A :=
  zoom (fun s => LockSt (kcpu s) 0 (ptlock s)) (fun l s => set_locks (ls_cpu l) (ls_lock l) s) m.
Definition acquire_pt : M kst unit := on_lock acquire.
Definition release_pt : M kst unit := on_lock release.
Definition svc {A} (m : M K A) : M kst A := zoom env set_env m.

Definition myproc : M kst (option nat) := gets cur.
Definition curproc : M kst nat := c <- myproc ;; deref "myproc()" c.
Definition get_proc (i : nat) : M kst proc := s <- gets id ;; deref "proc" (procs s !! i).
Definition upd_proc (i : nat) (f : proc -> proc) : M kst unit :=
  modify (fun s => set_procs (alter f i (procs s)) s).

(** The first slot of the table that satisfies [p], from slot [i] on. *)
Fixpoint find_slot (p : proc -> bool) (i : nat) (l : list proc) : option nat :=
  match l with
  | [] => None
  | x :: l' => if p x then Some i else find_slot p (S i) l'
  end.

Definition is_state (st : procstate) (p : proc) : bool := bool_decide (p_state p = st).

Definition allocproc : M kst (option nat) :=
  acquire_pt ;;;
  s <- gets id ;;
  match find_slot (is_state UNUSED) 0 (procs s) with
  | None => release_pt ;;; ret None
  | Some i =>
      upd_proc i (set_state EMBRYO) ;;;
      upd_proc i (set_pid (nextpid s)) ;;;
      modify (set_nextpid (s32 (nextpid s + 1))) ;;;
      release_pt ;;;
      k <- svc kalloc ;;
      upd_proc i (set_kstack k) ;;;
      if k =? 0 then
        upd_proc i (set_state UNUSED) ;;;
        ret None
      else
        upd_proc i (set_ctx AtForkret) ;;;
        upd_proc i (set_priority 0) ;;;
        upd_proc i (set_nice 0) ;;;
        upd_proc i (set_sleeptime 0) ;;;
        upd_proc i (set_ticks 0) ;;;
        ret (Some i)
  end.

Definition FL_IF : Z := 512.
Definition UCODE : Z := 27.     (* (SEG_UCODE << 3) | DPL_USER *)
Definition UDATA : Z := 35.     (* (SEG_UDATA << 3) | DPL_USER *)
Definition initcode_name : list Z := [105; 110; 105; 116; 99; 111; 100; 101].

Definition userinit : M kst unit :=
  o <- allocproc ;;
  i <- deref "p->pgdir" o ;;
  modify (set_initproc (Some i)) ;;;
  pg <- svc setupkvm ;;
  upd_proc i (set_pgdir pg) ;;;
  panic_if (pg =? 0) "userinit: out of memory?" ;;;
  svc (inituvm pg) ;;;
  upd_proc i (set_sz PGSIZE) ;;;
  upd_proc i (set_tf (Trapframe 0 0 PGSIZE FL_IF UCODE UDATA UDATA UDATA [])) ;;;
  upd_proc i (set_name initcode_name) ;;;
  c <- svc namei_root ;;
  upd_proc i (set_cwd c) ;;;
  acquire_pt ;;;
  upd_proc i (set_state RUNNABLE) ;;;
  release_pt.

Definition growproc (n : Z) : M kst Z :=
  i <- curproc ;;
  p <- get_proc i ;;
  if 0 <? n then
    sz <- svc (allocuvm (p_pgdir p) (p_sz p) (u32 (p_sz p + n))) ;;
    if sz =? 0 then ret (-1) else upd_proc i (set_sz sz) ;;; ret 0
  else if n <? 0 then
    sz <- svc (deallocuvm (p_pgdir p) (p_sz p) (u32 (p_sz p + n))) ;;
    if sz =? 0 then ret (-1) else upd_proc i (set_sz sz) ;;; ret 0
  else upd_proc i (set_sz (p_sz p)) ;;; ret 0.

(** [np->ofile[i] = filedup(curproc->ofile[i])] for the open files. *)
Definition dup_file (np : nat) (p : proc) (i : Z) : M kst unit :=
  f <- deref "ofile" (p_ofile p !! Z.to_nat i) ;;
  if f =? 0 then ret tt
  else
    g <- svc (filedup f) ;;
    upd_proc np (fun q => set_ofile (<[Z.to_nat i := g]> (p_ofile q)) q).

Definition fork : M kst Z :=
  c <- curproc ;;
  o <- allocproc ;;
  match o with
  | None => ret (-1)
  | Some np =>
      p <- get_proc c ;;
      pg <- svc (copyuvm (p_pgdir p) (p_sz p)) ;;
      upd_proc np (set_pgdir pg) ;;;
      if pg =? 0 then
        q <- get_proc np ;;
        svc (kfree (p_kstack q)) ;;;
        upd_proc np (set_kstack 0) ;;;
        upd_proc np (set_state UNUSED) ;;;
        ret (-1)
      else
        upd_proc np (set_sz (p_sz p)) ;;;
        upd_proc np (set_parent (Some c)) ;;;
        upd_proc np (set_tf (p_tf p)) ;;;
        upd_proc np (fun q => set_tf
          (Trapframe 0 (tf_eip (p_tf q)) (tf_esp (p_tf q)) (tf_eflags (p_tf q)) (tf_cs (p_tf q))
             (tf_ds (p_tf q)) (tf_es (p_tf q)) (tf_ss (p_tf q)) (tf_other (p_tf q))) q) ;;;
        for_loop NOFILE 0 (dup_file np p) ;;;
        cwd <- svc (idup (p_cwd p)) ;;
        upd_proc np (set_cwd cwd) ;;;
        upd_proc np (set_name (p_name p)) ;;;
        q <- get_proc np ;;
        acquire_pt ;;;
        upd_proc np (set_state RUNNABLE) ;;;
        release_pt ;;;
        ret (p_pid q)
  end.

(** [wakeup1] on one slot. *)
Definition wake (c : chan) (p : proc) : proc :=
  if bool_decide (p_state p = SLEEPING) && bool_decide (p_chan p = c) && (p_sleeptime p <=? 0)
  then set_state RUNNABLE p
  else if 0 <? p_sleeptime p then set_sleeptime (p_sleeptime p - 1) p
  else p.

Definition wakeup1 (c : chan) : M kst unit := modify (fun s => set_procs (wake c <$> procs s) s).

Definition wakeup (c : chan) : M kst unit :=
  acquire_pt ;;;
  wakeup1 c ;;;
  release_pt.

(** [sched]: the checks before the switch; the context to continue at is saved, with the
    local copy of [mycpu()->intena] on the kernel stack of the process. *)
Definition sched (r : resume) : M kst unit :=
  i <- curproc ;;
  p <- get_proc i ;;
  h <- on_lock holding ;;
  panic_if (negb h) "sched ptable.lock" ;;;
  c <- gets kcpu ;;
  panic_if (negb (ncli c =? 1)) "sched locks" ;;;
  panic_if (is_state RUNNING p) "sched running" ;;;
  panic_if (eflags_if c) "sched interruptible" ;;;
  upd_proc i (fun p => set_ctx r (set_intena (intena c) p)).

(** The end of [sched], behind the [swtch] that came back: [mycpu()->intena = intena]. *)
Definition sched_end (p : proc) : M kst unit :=
  modify (fun s => set_locks (Cpu (ncli (kcpu s)) (p_intena p) (eflags_if (kcpu s))) (ptlock s) s).

Definition chan_of (o : option nat) : chan := match o with Some i => CProc i | None => CNull end.

(** The loop of [exit] over the files. *)
Definition close_file (c : nat) (fd : Z) : M kst unit :=
  p <- get_proc c ;;
  f <- deref "ofile" (p_ofile p !! Z.to_nat fd) ;;
  if f =? 0 then ret tt
  else
    svc (fileclose f) ;;;
    upd_proc c (fun q => set_ofile (<[Z.to_nat fd := 0]> (p_ofile q)) q).

(** The loop of [exit] over the children. *)
Definition abandon (c : nat) (i : Z) : M kst unit :=
  p <- get_proc (Z.to_nat i) ;;
  if bool_decide (p_parent p = Some c) then
    s <- gets id ;;
    upd_proc (Z.to_nat i) (set_parent (initproc s)) ;;;
    if is_state ZOMBIE p then wakeup1 (chan_of (initproc s)) else ret tt
  else ret tt.

Definition exit : M kst unit :=
  c <- curproc ;;
  s <- gets id ;;
  panic_if (bool_decide (Some c = initproc s)) "init exiting" ;;;
  for_loop NOFILE 0 (close_file c) ;;;
  p <- get_proc c ;;
  svc (iput_op (p_cwd p)) ;;;
  upd_proc c (set_cwd 0) ;;;
  acquire_pt ;;;
  q <- get_proc c ;;
  wakeup1 (chan_of (p_parent q)) ;;;
  for_loop NPROC 0 (abandon c) ;;;
  upd_proc c (set_state ZOMBIE) ;;;
  sched AtExit.

(** One scan of [wait] with the lock held: reap a zombie child ([Some pid]), give up
    ([Some (-1)]), or go to sleep on the process itself ([None]). *)
Definition wait_scan (c : nat) : M kst (option Z) :=
  s <- gets id ;;
  match find_slot (fun p => bool_decide (p_parent p = Some c) && is_state ZOMBIE p) 0 (procs s) with
  | Some i =>
      p <- get_proc i ;;
      svc (kfree (p_kstack p)) ;;;
      upd_proc i (set_kstack 0) ;;;
      svc (freevm (p_pgdir p)) ;;;
      upd_proc i (set_pid 0) ;;;
      upd_proc i (set_parent None) ;;;
      upd_proc i (fun q => set_name (0 :: tail (p_name q)) q) ;;;
      upd_proc i (set_killed 0) ;;;
      upd_proc i (set_state UNUSED) ;;;
      release_pt ;;;
      ret (Some (p_pid p))
  | None =>
      p <- get_proc c ;;
      if negb (existsb (fun p => bool_decide (p_parent p = Some c)) (procs s)) ||
         negb (p_killed p =? 0)
      then release_pt ;;; ret (Some (-1))
      else
        upd_proc c (set_chan (CProc c)) ;;;
        upd_proc c (set_state SLEEPING) ;;;
        sched AtWait ;;;
        ret None
  end.

Definition wait : M kst (option Z) :=
  c <- curproc ;;
  acquire_pt ;;;
  wait_scan c.

Definition yield : M kst unit :=
  acquire_pt ;;;
  c <- curproc ;;
  upd_proc c (set_state RUNNABLE) ;;;
  sched AtYield.

(** [sleep(chan, lk)] for a lock other than [ptable.lock], up to the switch; [lk] is
    the caller's and is released here. *)
Definition sleep (ch : chan) : M kst unit :=
  o <- myproc ;;
  panic_if (bool_decide (o = None)) "sleep" ;;;
  c <- curproc ;;
  acquire_pt ;;;
  upd_proc c (set_chan ch) ;;;
  upd_proc c (set_state SLEEPING) ;;;
  sched AtSleep.

Definition kill (pid : Z) : M kst Z :=
  acquire_pt ;;;
  s <- gets id ;;
  match find_slot (fun p => p_pid p =? pid) 0 (procs s) with
  | Some i =>
      upd_proc i (set_killed 1) ;;;
      upd_proc i (fun p => if is_state SLEEPING p then set_state RUNNABLE p else p) ;;;
      release_pt ;;;
      ret 0
  | None => release_pt ;;; ret (-1)
  end.

Definition nice (newnice : Z) : M kst Z :=
  c <- curproc ;;
  p <- get_proc c ;;
  if (newnice <? 0) || (20 <? newnice) then ret (-1)
  else
    upd_proc c (set_nice newnice) ;;;
    ret (p_nice p).

(** [struct pschedinfo], a row per slot; the row of an unused slot keeps its old
    contents but for [inuse]. *)
Record pschedinfo := PSchedInfo {
  ps_inuse : Z; ps_priority : Z; ps_nice : Z; ps_pid : Z; ps_ticks : Z;
}.

Definition sched_row (p : proc) (old : pschedinfo) : pschedinfo :=
  if negb (is_state UNUSED p)
  then PSchedInfo 1 (p_priority p) (p_nice p) (p_pid p) (p_ticks p)
  else PSchedInfo 0 (ps_priority old) (ps_nice old) (ps_pid old) (ps_ticks old).

(** The argument is the buffer, [None] for a null pointer; the result is the return
    value with the new contents. *)
Definition getschedstate (buf : option (list pschedinfo)) : M kst (Z * list pschedinfo) :=
  match buf with
  | None => ret (-1, [])
  | Some old => s <- gets id ;; ret (0, zip_with sched_row (procs s) old)
  end.

(** ** The scheduler *)

(** One visit of the loop of [scheduler] to slot [i], up to [swtch]: whether the
    process there was chosen. *)
Definition visit (i : nat) : M kst bool :=
  p <- get_proc i ;;
  if negb (is_state RUNNABLE p) then ret false
  else
    modify (set_cur (Some i)) ;;;
    upd_proc i (set_state RUNNING) ;;;
    upd_proc i (fun p => set_ticks (s32 (p_ticks p + 1)) p) ;;;
    ret true.

(** The chosen process continues after its [swtch]: [None] when it was in [wait] and
    goes back to sleep, otherwise it runs on (with the result of [wait] if it was there). *)
Definition continue : M kst (option (option Z)) :=
  i <- curproc ;;
  p <- get_proc i ;;
  match p_ctx p with
  | AtForkret => release_pt ;;; ret (Some None)
  | AtYield => sched_end p ;;; release_pt ;;; ret (Some None)
  | AtSleep =>
      sched_end p ;;;
      upd_proc i (set_chan CNull) ;;;
      release_pt ;;;
      ret (Some None)
  | AtWait =>
      sched_end p ;;;
      upd_proc i (set_chan CNull) ;;;
      r <- wait_scan i ;;
      ret (match r with Some v => Some (Some v) | None => None end)
  | AtExit => panic "zombie exit"
  end.

(** The end of a pass of [scheduler]: [release(&ptable.lock)], then [sti()] and
    [acquire(&ptable.lock)] of the next one. *)
Definition next_pass : M kst unit :=
  release_pt ;;;
  modify (fun s => set_locks (Cpu (ncli (kcpu s)) (intena (kcpu s)) true) (ptlock s) s) ;;;
  acquire_pt.

(** [sys_sleep]: the time to sleep is recorded in the process; then, while fewer
    than [n] ticks have passed since [ticks0] (an unsigned comparison), the process
    gives up if it was killed or sleeps on [ticks].  One round of that loop: *)
Definition sys_sleep_start (n : Z) : M kst unit :=
  c <- curproc ;;
  upd_proc c (set_sleeptime n).
Definition sys_sleep_round (n ticks0 ticks : Z) : M kst (option Z) :=
  c <- curproc ;;
  if u32 (ticks - ticks0) <? u32 n then
    p <- get_proc c ;;
    if negb (p_killed p =? 0) then ret (Some (-1))
    else sleep CTicks ;;; ret None
  else ret (Some 0).

End kernel.
