(* ===== verification/Sched.v ===== *)
(** * Invariants of the process table and the scheduler (p4: proc.c)

    The table's shape (which slots are in use, their pids and parents) is kept apart
    from the scheduling state of the processes.  The file proves what each operation
    does to the table, an invariant of all interleavings of the operations of the
    running processes with the scheduler, bounded waiting of the scheduler, and the
    timing of [sleep]. *)

From S2P Require Import Prelude Locks Proc.

(** ** Symbolic execution *)

Section rules.
Context {K : Type} `{KS : KernelServices K}.
Implicit Types s : kst (K := K).

Definition lock_free s : Prop := ptlock s = initlock /\ ncli (kcpu s) = 0.
Definition lock_held s : Prop :=
  ptlock s = SpinLock true (Some 0%nat) /\ ncli (kcpu s) = 1 /\ eflags_if (kcpu s) = false.

(** The table and control state, with the lock held ([h = true]) or free. *)
Record at_ (ps : list proc) (np : Z) (ini cu : option nat) (h : bool) s : Prop := At {
  at_procs : procs s = ps;
  at_np : nextpid s = np;
  at_init : initproc s = ini;
  at_cur : cur s = cu;
  at_lock : if h then lock_held s else lock_free s;
}.

Lemma wp_acquire_pt ps np ini cu s Q :
  at_ ps np ini cu false s -> (forall s', at_ ps np ini cu true s' -> Q tt s') -> wp acquire_pt Q s.
Proof.
  intros [? ? ? ? [Hl Hn]] HQ. unfold acquire_pt, on_lock. apply wp_zoom.
  pose proof (acquire_ret (kcpu s) 0 (ptlock s) ltac:(lia) ltac:(lia) ltac:(by rewrite Hl)) as Ha.
  assert (lk_cpu (ptlock s) = None) as Ho by (by rewrite Hl). rewrite Ho in Ha. destruct Ha as (c & Hr & H1 & H2 & _).
  eapply wp_run; [exact Hr|]. apply HQ. split; try done. split; simpl; [done|]. split; [lia|done].
Qed.

Lemma wp_release_pt ps np ini cu s Q :
  at_ ps np ini cu true s -> (forall s', at_ ps np ini cu false s' -> Q tt s') -> wp release_pt Q s.
Proof.
  intros [? ? ? ? (Hl & Hn & Hif)] HQ. unfold release_pt, on_lock. apply wp_zoom.
  destruct (release_ret (kcpu s) 0 (ptlock s)) as (c & Hr & H1 & H2); [lia|done|by rewrite Hl..|].
  eapply wp_run; [exact Hr|]. apply HQ. split; try done. split; simpl; [done|]. lia.
Qed.

Lemma wp_svc {A} (m : M K A) (P : A -> Prop) ps np ini cu h s Q :
  at_ ps np ini cu h s -> (forall k, wp m (fun a _ => P a) k) ->
  (forall a s', P a -> at_ ps np ini cu h s' -> Q a s') -> wp (svc m) Q s.
Proof.
  intros [? ? ? ? ?] Hm HQ. unfold svc. apply wp_zoom. eapply wp_mono; [apply Hm|].
  intros a k Ha. apply HQ; [done|]. by destruct h; split.
Qed.

Lemma wp_get_proc ps np ini cu h s i p Q :
  at_ ps np ini cu h s -> ps !! i = Some p -> Q p s -> wp (get_proc i) Q s.
Proof.
  intros [Hp _ _ _ _] Hi HQ. unfold get_proc. wp_steps. simpl. rewrite Hp, Hi. done.
Qed.

Lemma wp_upd_proc ps np ini cu h s i p f Q :
  at_ ps np ini cu h s -> ps !! i = Some p ->
  (forall s', at_ (<[i := f p]> ps) np ini cu h s' -> Q tt s') -> wp (upd_proc i f) Q s.
Proof.
  intros [Hp ? ? ? ?] Hi HQ. unfold upd_proc. wp_steps. apply HQ.
  split; simpl; [|done..|by destruct h].
  rewrite Hp. apply list_eq. intros j. destruct (decide (j = i)) as [->|Hne].
  - rewrite list_lookup_alter_eq, Hi, list_lookup_insert_eq by (by eapply lookup_lt_Some). done.
  - by rewrite list_lookup_alter_ne, list_lookup_insert_ne.
Qed.

Lemma wp_curproc ps np ini c h s Q :
  at_ ps np ini (Some c) h s -> Q c s -> wp curproc Q s.
Proof. intros [_ _ _ Hc _] HQ. unfold curproc, myproc. wp_steps. rewrite Hc. done. Qed.

Lemma wp_wakeup1 ps np ini cu h s c Q :
  at_ ps np ini cu h s -> (forall s', at_ (wake c <$> ps) np ini cu h s' -> Q tt s') ->
  wp (wakeup1 c) Q s.
Proof.
  intros [Hp ? ? ? ?] HQ. unfold wakeup1. wp_steps. apply HQ.
  split; simpl; [by rewrite Hp|done..|by destruct h].
Qed.

Lemma wp_sched r ps np ini i s p Q :
  at_ ps np ini (Some i) true s -> ps !! i = Some p -> p_state p <> RUNNING ->
  (forall b s', at_ (<[i := set_ctx r (set_intena b p)]> ps) np ini (Some i) true s' -> Q tt s') ->
  wp (sched r) Q s.
Proof.
  intros Hs Hi Hst HQ. unfold sched. wp_step. eapply wp_curproc; [done|].
  wp_step. eapply wp_get_proc; [done..|]. wp_step. unfold on_lock. apply wp_zoom.
  pose proof Hs as [? ? ? ? (Hl & Hn & Hif)].
  destruct (holding_ret (kcpu s) 0 (ptlock s)) as (c & Hr & H1 & H2 & _); [lia|done|].
  eapply wp_run; [exact Hr|]. rewrite Hl. simpl.
  wp_steps. cbn [kcpu set_locks]. rewrite H1, Hn, H2, Hif. cbn [negb Z.eqb Pos.eqb]. wp_pass ltac:(done).
  wp_pass ltac:(by apply bool_decide_eq_false). wp_pass ltac:(done).
  eapply wp_upd_proc; [|exact Hi|apply HQ]. split; simpl; try done.
  split; simpl; [done|]. split; [by rewrite H1|by rewrite H2].
Qed.

Lemma wp_sched_end ps np ini cu p s Q : at_ ps np ini cu true s ->
  (forall s', at_ ps np ini cu true s' -> Q tt s') -> wp (sched_end p) Q s.
Proof. intros [? ? ? ? (? & ? & ?)] HQ. unfold sched_end. apply wp_modify, HQ. by split. Qed.

End rules.

(** ** Shapes *)

Inductive life := Unused | Embryo | Alive | Zombie.

Definition life_of (st : procstate) : life :=
  match st with
  | UNUSED => Unused
  | EMBRYO => Embryo
  | SLEEPING | RUNNABLE | RUNNING => Alive
  | ZOMBIE => Zombie
  end.

Record shape := Shape { sh_life : life; sh_pid : Z; sh_parent : option nat }.

Definition shape_of (p : proc) : shape := Shape (life_of (p_state p)) (p_pid p) (p_parent p).

(** What keeps the table sound: pids of used slots are positive, below [nextpid] and
    distinct; an unused slot has no parent; a parent is alive; every used slot but
    that of the first process has a parent; the first process is alive. *)
Record table_ok (l : list shape) (ini : option nat) (np : Z) : Prop := TableOk {
  to_len : length l = NPROC;
  to_np : 0 < np;
  to_pid : forall i x, l !! i = Some x -> sh_life x <> Unused -> 0 < sh_pid x < np;
  to_uniq : forall i j x y, l !! i = Some x -> l !! j = Some y ->
    sh_life x <> Unused -> sh_life y <> Unused -> sh_pid x = sh_pid y -> i = j;
  to_embryo : forall i x, l !! i = Some x -> sh_life x <> Embryo;
  to_unused : forall i x, l !! i = Some x -> sh_life x = Unused -> sh_parent x = None;
  to_parent : forall i x k, l !! i = Some x -> sh_parent x = Some k ->
    exists y, l !! k = Some y /\ sh_life y = Alive;
  to_child : forall i x, l !! i = Some x -> sh_life x <> Unused -> ini <> Some i -> sh_parent x <> None;
  to_init : exists i x, ini = Some i /\ l !! i = Some x /\ sh_life x = Alive;
}.

(** The processes that run: the one the CPU is at, if any. *)
Definition running_only (o : option nat) (ps : list proc) : Prop :=
  forall i p, ps !! i = Some p -> p_state p = RUNNING <-> o = Some i.

Definition files_ok (ps : list proc) : Prop := Forall (fun p => length (p_ofile p) = NOFILE) ps.

(** ** Preservation at the level of shapes *)

Lemma shape_insert_same (ps : list proc) (i : nat) p q :
  ps !! i = Some p -> shape_of q = shape_of p -> shape_of <$> <[i := q]> ps = shape_of <$> ps.
Proof.
  intros Hi E. rewrite list_fmap_insert, E. apply list_insert_id.
  by rewrite list_lookup_fmap, Hi.
Qed.

Lemma shape_wake c p : shape_of (wake c p) = shape_of p.
Proof.
  unfold wake. destruct (bool_decide (p_state p = SLEEPING)) eqn:E; simpl; [|by case_match].
  apply bool_decide_eq_true in E. case_match; [|by case_match]. unfold shape_of. simpl. by rewrite E.
Qed.

Lemma shape_wake_all c (ps : list proc) : shape_of <$> (wake c <$> ps) = shape_of <$> ps.
Proof. rewrite <-list_fmap_compose. apply list_fmap_ext. intros i p _. apply shape_wake. Qed.

Lemma wake_running c p : p_state (wake c p) = RUNNING <-> p_state p = RUNNING.
Proof.
  unfold wake. destruct (bool_decide (p_state p = SLEEPING)) eqn:E; simpl; [|by case_match].
  apply bool_decide_eq_true in E. repeat case_match; simpl; rewrite ?E; naive_solver.
Qed.

Lemma wake_ofile c p : p_ofile (wake c p) = p_ofile p.
Proof. unfold wake. by repeat case_match. Qed.

Lemma table_ok_np l ini np np' : table_ok l ini np -> np <= np' -> table_ok l ini np'.
Proof.
  intros [] ?. split; try done; [lia|]. intros i x Hi Hl. specialize (to_pid0 _ _ Hi Hl). lia.
Qed.

Ltac shape_cases H :=
  apply list_lookup_insert_Some in H as [(-> & <- & _)|[? H]].

(** A slot that stays unused. *)
Lemma table_ok_junk l ini np i x x' :
  table_ok l ini np -> l !! i = Some x -> sh_life x = Unused -> sh_life x' = Unused ->
  sh_parent x' = sh_parent x -> table_ok (<[i := x']> l) ini np.
Proof.
  intros [] Hi Hx Hx' Hp. split; try done.
  - by rewrite length_insert.
  - intros j y Hj Hl. shape_cases Hj; [done|by eapply to_pid0].
  - intros j k y z Hj Hk. shape_cases Hj; [done|]. shape_cases Hk; [done|]. by eapply to_uniq0.
  - intros j y Hj. shape_cases Hj; [congruence|by eapply to_embryo0].
  - intros j y Hj Hl. shape_cases Hj; [rewrite Hp; by eapply to_unused0|by eapply to_unused0].
  - intros j y k Hj Hk. assert (exists y', l !! k = Some y' /\ sh_life y' = Alive) as (y' & Hy & Ha).
    { shape_cases Hj; [rewrite Hp in Hk|]; by eapply to_parent0. }
    exists y'. split; [|done]. rewrite list_lookup_insert_ne; [done|]. congruence.
  - intros j y Hj Hl Hn. shape_cases Hj; [done|by eapply to_child0].
  - destruct to_init0 as (j & y & ? & Hy & ?). exists j, y. split; [done|].
    rewrite list_lookup_insert_ne; [done|]. congruence.
Qed.

(** A new child of a living process in an unused slot. *)
Lemma table_ok_child l ini np i x c y np' :
  table_ok l ini np -> l !! i = Some x -> sh_life x = Unused ->
  l !! c = Some y -> sh_life y = Alive -> np < np' ->
  table_ok (<[i := Shape Alive np (Some c)]> l) ini np'.
Proof.
  intros Ht Hi Hx Hc Hy Hnp. destruct Ht. split.
  - by rewrite length_insert.
  - lia.
  - intros j z Hj Hl. shape_cases Hj; [simpl; lia|]. specialize (to_pid0 _ _ Hj Hl). lia.
  - intros j k z w Hj Hk Hl1 Hl2 E. shape_cases Hj; shape_cases Hk; simpl in *; try done.
    + specialize (to_pid0 _ _ Hk Hl2). lia.
    + specialize (to_pid0 _ _ Hj Hl1). lia.
    + by eapply to_uniq0.
  - intros j z Hj. shape_cases Hj; [done|by eapply to_embryo0].
  - intros j z Hj Hl. shape_cases Hj; [done|by eapply to_unused0].
  - intros j z k Hj Hk. assert (exists y', l !! k = Some y' /\ sh_life y' = Alive) as (y' & Hy' & Ha).
    { shape_cases Hj; [injection Hk as <-; by eexists|by eapply to_parent0]. }
    exists y'. split; [|done]. rewrite list_lookup_insert_ne; [done|]. congruence.
  - intros j z Hj Hl Hn. shape_cases Hj; [done|by eapply to_child0].
  - destruct to_init0 as (j & z & ? & Hz & ?). exists j, z. split; [done|].
    rewrite list_lookup_insert_ne; [done|]. congruence.
Qed.

(** A zombie's slot is freed. *)
Lemma table_ok_reap l ini np i x pid :
  table_ok l ini np -> l !! i = Some x -> sh_life x = Zombie ->
  table_ok (<[i := Shape Unused pid None]> l) ini np.
Proof.
  intros [] Hi Hx. split; try done.
  - by rewrite length_insert.
  - intros j y Hj Hl. shape_cases Hj; [done|by eapply to_pid0].
  - intros j k y z Hj Hk. shape_cases Hj; [done|]. shape_cases Hk; [done|]. by eapply to_uniq0.
  - intros j y Hj. shape_cases Hj; [done|by eapply to_embryo0].
  - intros j y Hj Hl. shape_cases Hj; [done|by eapply to_unused0].
  - intros j y k Hj Hk. shape_cases Hj; [done|].
    destruct (to_parent0 _ _ _ Hj Hk) as (y' & Hy & Ha). exists y'. split; [|done].
    rewrite list_lookup_insert_ne; [done|]. congruence.
  - intros j y Hj Hl Hn. shape_cases Hj; [done|by eapply to_child0].
  - destruct to_init0 as (j & y & ? & Hy & ?). exists j, y. split; [done|].
    rewrite list_lookup_insert_ne; [done|]. congruence.
Qed.

(** [exit]: the children of [c] go to the first process and [c] becomes a zombie. *)
Definition adopt (c : nat) (ini : option nat) (x : shape) : shape :=
  if bool_decide (sh_parent x = Some c) then Shape (sh_life x) (sh_pid x) ini else x.

Lemma adopt_life c ini x : sh_life (adopt c ini x) = sh_life x /\ sh_pid (adopt c ini x) = sh_pid x.
Proof. unfold adopt. by case_bool_decide. Qed.

Lemma table_ok_exit l ini np c x :
  table_ok l ini np -> l !! c = Some x -> sh_life x = Alive -> ini <> Some c ->
  table_ok (<[c := Shape Zombie (sh_pid x) (sh_parent (adopt c ini x))]> (adopt c ini <$> l)) ini np.
Proof.
  intros [] Hc Hx Hne. destruct to_init0 as (i0 & x0 & Ei & Hi0 & Ha0).
  assert (forall j y, <[c := Shape Zombie (sh_pid x) (sh_parent (adopt c ini x))]> (adopt c ini <$> l) !! j = Some y ->
    exists z, l !! j = Some z /\ sh_pid y = sh_pid z /\ sh_parent y = sh_parent (adopt c ini z) /\
      (sh_life y = Zombie \/ sh_life y = sh_life z) /\ (j <> c -> sh_life y = sh_life z) /\
      (sh_life y <> Unused -> sh_life z <> Unused)) as Hcase.
  { intros j y Hj. shape_cases Hj.
    - exists x. simpl. repeat split; try done; [by left|congruence].
    - rewrite list_lookup_fmap in Hj. destruct (l !! j) as [z|]; [|done]. injection Hj as <-.
      destruct (adopt_life c ini z) as [E1 E2]. exists z. rewrite E1, E2. repeat split; try done. by right. }
  assert (forall k y, l !! k = Some y -> sh_life y = Alive -> k <> c ->
    exists y', <[c := Shape Zombie (sh_pid x) (sh_parent (adopt c ini x))]> (adopt c ini <$> l) !! k = Some y'
      /\ sh_life y' = Alive) as Halive.
  { intros k y Hk Hy Hkc. exists (adopt c ini y). rewrite list_lookup_insert_ne, list_lookup_fmap, Hk by done.
    split; [done|]. by rewrite (proj1 (adopt_life c ini y)). }
  split; try done.
  - by rewrite length_insert, length_fmap.
  - intros j y (z & Hz & -> & _ & _ & _ & Hl)%Hcase Hu. by apply (to_pid0 j z); [|apply Hl].
  - intros j k y y' (z & Hz & E & _ & _ & _ & Hl)%Hcase (z' & Hz' & E' & _ & _ & _ & Hl')%Hcase Hu Hu' Heq.
    eapply to_uniq0; [done..|by apply Hl|by apply Hl'|congruence].
  - intros j y (z & Hz & _ & _ & [Hl|Hl] & _)%Hcase; rewrite Hl; [done|by eapply to_embryo0].
  - intros j y (z & Hz & _ & Hp & Hl & _)%Hcase Hu. rewrite Hp.
    destruct Hl as [Hl|Hl]; [congruence|]. unfold adopt.
    rewrite bool_decide_false; [eapply to_unused0; [done|congruence]|].
    rewrite (to_unused0 _ _ Hz) by congruence. done.
  - intros j y k (z & Hz & _ & Hp & _)%Hcase Hk. rewrite Hk in Hp. unfold adopt in Hp.
    case_bool_decide as Hd; simpl in Hp.
    + eapply (Halive k x0); [congruence|done|congruence].
    + destruct (to_parent0 j z k) as (w & Hw & Hwa); [done|done|].
      eapply Halive; [done|done|]. intros ->. by rewrite <-Hp in Hd.
  - intros j y (z & Hz & _ & Hp & _ & _ & Hl)%Hcase Hu Hn. rewrite Hp. unfold adopt.
    case_bool_decide; simpl; [by rewrite Ei|]. eapply to_child0; [done|by apply Hl|done].
  - destruct (Halive i0 x0) as (y' & ? & ?); [done|done|congruence|]. by exists i0, y'.
Qed.

(** ** What the operations do to the table *)

Lemma find_slot_Some p n l i :
  find_slot p n l = Some i ->
  exists j x, i = (n + j)%nat /\ l !! j = Some x /\ p x = true /\
    forall k y, (k < j)%nat -> l !! k = Some y -> p y = false.
Proof.
  revert n. induction l as [|x l IH]; intros n; simpl; [done|].
  destruct (p x) eqn:E.
  - intros [= <-]. exists 0%nat, x. split; [lia|]. split; [done|]. split; [done|]. lia.
  - intros (j & y & -> & Hj & Hy & Hk)%IH. exists (S j), y. split; [lia|]. split; [done|].
    split; [done|]. intros [|k] z Hlt Hz; [by injection Hz as <-|]. eapply Hk; [|done]. lia.
Qed.

Lemma find_slot_None p n l : find_slot p n l = None -> Forall (fun x => p x = false) l.
Proof. revert n. induction l as [|x l IH]; intros n; simpl; [done|]. destruct (p x) eqn:E; [done|]. by eauto. Qed.

(** Some unused slot may have been touched, and stays unused. *)
Definition junk (ps ps' : list proc) : Prop :=
  ps' = ps \/
  exists i p q, ps !! i = Some p /\ p_state p = UNUSED /\ ps' = <[i := q]> ps /\
    p_state q = UNUSED /\ p_parent q = p_parent p /\ p_ofile q = p_ofile p.

(** A slot that [allocproc] has taken. *)
Record fresh (np : Z) (p q : proc) : Prop := Fresh {
  fr_was : p_state p = UNUSED;
  fr_state : p_state q = EMBRYO;
  fr_pid : p_pid q = np;
  fr_kstack : p_kstack q <> 0;
  fr_ctx : p_ctx q = AtForkret;
  fr_sched : p_priority q = 0 /\ p_nice q = 0 /\ p_sleeptime q = 0 /\ p_ticks q = 0;
  fr_parent : p_parent q = p_parent p;
  fr_ofile : p_ofile q = p_ofile p;
  fr_killed : p_killed q = p_killed p;
}.

(** What [fork] makes of the slot for the child of [p]. *)
Record child_of (c : nat) (p : proc) (np : Z) (q : proc) : Prop := ChildOf {
  ch_state : p_state q = RUNNABLE;
  ch_pid : p_pid q = np;
  ch_parent : p_parent q = Some c;
  ch_sz : p_sz q = p_sz p;
  ch_pgdir : p_pgdir q <> 0 /\ p_kstack q <> 0;
  ch_eax : tf_eax (p_tf q) = 0;
  ch_tf : tf_eip (p_tf q) = tf_eip (p_tf p) /\ tf_esp (p_tf q) = tf_esp (p_tf p) /\
    tf_eflags (p_tf q) = tf_eflags (p_tf p) /\ tf_other (p_tf q) = tf_other (p_tf p);
  ch_cwd : p_cwd q = p_cwd p;
  ch_name : p_name q = p_name p;
  ch_ctx : p_ctx q = AtForkret;
  ch_sched : p_priority q = 0 /\ p_nice q = 0 /\ p_sleeptime q = 0 /\ p_ticks q = 0;
  ch_files : length (p_ofile q) = NOFILE /\
    forall i f, p_ofile p !! i = Some f -> f <> 0 -> p_ofile q !! i = Some f;
}.

Section ops.
Context {K : Type} `{KS : KernelServices K} `{!ServicesReturn K}.
Implicit Types s : kst (K := K).

Ltac same_slot := apply list_lookup_insert_eq; rewrite ?length_insert; by eapply lookup_lt_Some.
(** One update of a slot that was looked up before. *)
Ltac upd Hi := wp_steps; eapply wp_upd_proc; [eassumption|first [exact Hi|same_slot]|];
  let s := fresh "s" in let H := fresh "Hs" in intros s H; rewrite ?list_insert_insert_eq in H.
Ltac svc_call lem := wp_steps; eapply wp_svc; [eassumption|intros ?; apply lem|];
  let a := fresh "a" in let s := fresh "s" in let Ha := fresh "Ha" in let H := fresh "Hs" in intros a s Ha H; cbv beta in Ha.
Ltac lock := wp_steps;
  lazymatch goal with
  | |- wp acquire_pt _ _ => eapply wp_acquire_pt
  | |- wp release_pt _ _ => eapply wp_release_pt
  end; [eassumption|];
  let s := fresh "s" in let H := fresh "Hs" in intros s H.
Ltac current := wp_steps; eapply wp_curproc; [eassumption|].
Ltac get Hi := wp_steps; eapply wp_get_proc; [eassumption|first [exact Hi|same_slot]|].

Lemma at_set_nextpid ps np np' ini cu h s :
  at_ ps np ini cu h s -> at_ ps np' ini cu h (set_nextpid np' s).
Proof. intros [? ? ? ? ?]. by destruct h; split. Qed.

Lemma allocproc_spec ps np ini cu s :
  at_ ps np ini cu false s ->
  wp allocproc (fun o s' =>
    match o with
    | None => exists ps' np', at_ ps' np' ini cu false s' /\ junk ps ps' /\
        ((np' = np /\ Forall (fun p => p_state p <> UNUSED) ps) \/ np' = s32 (np + 1))
    | Some i => exists p q, ps !! i = Some p /\ fresh np p q /\
        at_ (<[i := q]> ps) (s32 (np + 1)) ini cu false s'
    end) s.
Proof.
  intros Hs. unfold allocproc. lock. wp_steps. simpl.
  rewrite (at_procs _ _ _ _ _ _ Hs0), (at_np _ _ _ _ _ _ Hs0).
  destruct (find_slot _ _ _) as [i|] eqn:E.
  - apply find_slot_Some in E as (j & p & -> & Hi & Hp & _). simpl in *.
    apply bool_decide_eq_true in Hp.
    upd Hi. upd Hi. wp_steps. apply (at_set_nextpid _ _ (s32 (np + 1))) in Hs2.
    lock. svc_call kalloc_returns. upd Hi.
    destruct (a =? 0) eqn:Ek.
    + upd Hi. wp_steps. eexists _, _. split; [done|]. split; [|by right].
      right. eexists j, p, _. done.
    + do 5 upd Hi. wp_steps. eexists p, _. split; [done|]. split; [|done].
      apply Z.eqb_neq in Ek. by split.
  - lock. wp_steps. exists ps, np. split; [done|]. split; [by left|]. left. split; [done|].
    apply find_slot_None in E. eapply Forall_impl; [exact E|]. intros x Hx. by apply bool_decide_eq_false in Hx.
Qed.

(** The loop of [fork] over the open files. *)
Lemma dup_files_spec ps np ini cu s i q p :
  at_ (<[i := q]> ps) np ini cu false s -> (i < length ps)%nat ->
  length (p_ofile p) = NOFILE -> length (p_ofile q) = NOFILE ->
  wp (for_loop NOFILE 0 (dup_file i p)) (fun _ s' =>
    exists l, at_ (<[i := set_ofile l q]> ps) np ini cu false s' /\ length l = NOFILE /\
      forall k f, p_ofile p !! k = Some f -> f <> 0 -> l !! k = Some f) s.
Proof.
  intros Hs Hlt Hp Hq.
  eapply wp_mono; [apply (wp_for_loop (fun j s' =>
    exists l, at_ (<[i := set_ofile l q]> ps) np ini cu false s' /\ length l = NOFILE /\
      forall k f, (Z.of_nat k < j) -> p_ofile p !! k = Some f -> f <> 0 -> l !! k = Some f))|].
  - exists (p_ofile q). split; [by destruct q|]. split; [done|]. lia.
  - intros j s1 Hj (l & Hs1 & Hl & Hcop). unfold dup_file.
    destruct (lookup_lt_is_Some_2 (p_ofile p) (Z.to_nat j)) as [f Hf]; [unfold NOFILE in *; lia|].
    wp_steps. eapply wp_deref; [done|]. destruct (f =? 0) eqn:Ef.
    + wp_steps. exists l. split; [done|]. split; [done|]. intros k g Hk Hg Hne.
      destruct (decide (k = Z.to_nat j)) as [->|]; [apply Z.eqb_eq in Ef; congruence|].
      apply Hcop; [lia|done|done].
    + svc_call filedup_returns. subst a.
      wp_steps. eapply wp_upd_proc; [done|by apply list_lookup_insert_eq|]. intros s2 Hs2.
      rewrite list_insert_insert_eq in Hs2. simpl in Hs2. exists (<[Z.to_nat j := f]> l).
      split; [done|]. split; [by rewrite length_insert|]. intros k g Hk Hg Hne.
      destruct (decide (k = Z.to_nat j)) as [->|].
      * rewrite Hf in Hg. injection Hg as <-. apply list_lookup_insert_eq. unfold NOFILE in *. lia.
      * rewrite list_lookup_insert_ne by done. apply Hcop; [lia|done|done].
  - intros [] s' (l & Hs' & Hl & Hc). exists l. split; [done|]. split; [done|].
    intros k f Hk. apply Hc; [|done]. apply lookup_lt_Some in Hk. unfold NOFILE in *. lia.
Qed.

Lemma fork_spec ps np ini c p s :
  at_ ps np ini (Some c) false s -> ps !! c = Some p -> p_state p <> UNUSED -> files_ok ps ->
  wp fork (fun r s' =>
    (r = -1 /\ exists ps' np', at_ ps' np' ini (Some c) false s' /\ junk ps ps' /\
       (np' = np \/ np' = s32 (np + 1))) \/
    (r = np /\ exists i q0 q, ps !! i = Some q0 /\ p_state q0 = UNUSED /\ child_of c p np q /\
       at_ (<[i := q]> ps) (s32 (np + 1)) ini (Some c) false s')) s.
Proof.
  intros Hs Hc Hpu Hfiles. unfold fork. current. wp_steps.
  eapply wp_mono; [by apply allocproc_spec|]. intros [i|] s1.
  2:{ intros (ps' & np' & Hs1 & Hj & Hnp). wp_steps. left. split; [done|]. exists ps', np'.
      split; [done|]. split; [done|]. destruct Hnp as [[-> _]|]; [by left|by right]. }
  intros (p0 & q & Hi & Hfr & Hs1).
  assert (i <> c) as Hne by (intros ->; destruct Hfr; congruence).
  assert (<[i := q]> ps !! c = Some p) as Hc' by (by rewrite list_lookup_insert_ne).
  pose proof (lookup_lt_Some _ _ _ Hi) as Hlt.
  pose proof (Forall_lookup_1 _ _ _ _ Hfiles Hc) as Hpf. simpl in Hpf.
  assert (length (p_ofile q) = NOFILE) as Hqf.
  { rewrite (fr_ofile _ _ _ Hfr). by apply (Forall_lookup_1 _ _ _ _ Hfiles Hi). }
  get Hc'. svc_call copyuvm_returns. upd Hi. destruct (a =? 0) eqn:Ea.
  - get Hi. svc_call kfree_returns. upd Hi. upd Hi. wp_steps. left. split; [done|].
    eexists _, _. split; [done|]. split; [|by right]. right. eexists i, p0, _.
    destruct Hfr. done.
  - apply Z.eqb_neq in Ea. do 4 upd Hi. wp_steps.
    eapply wp_mono; [eapply (dup_files_spec ps); [eassumption|done|done|done]|].
    intros [] sd (l & Hsd & Hl & Hcop). svc_call idup_returns. subst a0.
    upd Hi. upd Hi. get Hi. lock. upd Hi. lock. wp_steps. right.
    destruct Hfr as [? ? ? ? ? ? ? ? ?]. split; [done|].
    eexists i, p0, _. split; [done|]. split; [done|]. split; [|done].
    split; simpl; done.
Qed.

(** ** [wait] *)

(** A slot freed by [wait]. *)
Record freed (q : proc) : Prop := Freed {
  fd_state : p_state q = UNUSED;
  fd_pid : p_pid q = 0;
  fd_parent : p_parent q = None;
  fd_kstack : p_kstack q = 0;
  fd_killed : p_killed q = 0;
}.

Definition zombie_child (c : nat) (p : proc) : Prop := p_parent p = Some c /\ p_state p = ZOMBIE.

(** The three outcomes of a scan: a zombie child (the first in the table) is freed and
    its pid returned; -1 when there is no child or the caller was killed; the caller
    sleeps on its own slot. *)
Definition wait_post (c : nat) (ps : list proc) (np : Z) (ini : option nat) (r : option Z) s' : Prop :=
  match r with
  | Some v =>
      (exists i p q, ps !! i = Some p /\ zombie_child c p /\ v = p_pid p /\ freed q /\
         p_ofile q = p_ofile p /\
         (forall j p', (j < i)%nat -> ps !! j = Some p' -> ~ zombie_child c p') /\
         at_ (<[i := q]> ps) np ini (Some c) false s') \/
      (v = -1 /\ Forall (fun p => ~ zombie_child c p) ps /\
       (Forall (fun p => p_parent p <> Some c) ps \/
        exists p, ps !! c = Some p /\ p_killed p <> 0) /\
       at_ ps np ini (Some c) false s')
  | None =>
      Forall (fun p => ~ zombie_child c p) ps /\
      Exists (fun p => p_parent p = Some c) ps /\
      exists p b, ps !! c = Some p /\ p_killed p = 0 /\
        at_ (<[c := set_ctx AtWait (set_intena b (set_state SLEEPING (set_chan (CProc c) p)))]> ps) np ini (Some c) true s'
  end.

Lemma zombie_child_bool c p :
  bool_decide (p_parent p = Some c) && is_state ZOMBIE p = true <-> zombie_child c p.
Proof. unfold is_state. rewrite andb_true_iff, !bool_decide_eq_true. done. Qed.

Lemma wait_scan_spec ps np ini c p s :
  at_ ps np ini (Some c) true s -> ps !! c = Some p ->
  wp (wait_scan c) (wait_post c ps np ini) s.
Proof.
  intros Hs Hc. unfold wait_scan. wp_steps. simpl. rewrite (at_procs _ _ _ _ _ _ Hs).
  destruct (find_slot _ _ _) as [i|] eqn:E.
  - apply find_slot_Some in E as (j & q & -> & Hi & Hq & Hmin). simpl in *.
    apply zombie_child_bool in Hq.
    get Hi. svc_call kfree_returns. upd Hi. svc_call freevm_returns. do 5 upd Hi. lock. wp_steps.
    left. eexists j, q, _. split; [done|]. split; [done|]. split; [done|].
    split; [|split; [|split; [|done]]]; [by split|done|].
    intros k p' Hk Hp' Hz%zombie_child_bool. by rewrite (Hmin k p' Hk Hp') in Hz.
  - apply find_slot_None in E.
    assert (Forall (fun p => ~ zombie_child c p) ps) as Hnz.
    { eapply Forall_impl; [exact E|]. intros x Hx Hz%zombie_child_bool. simpl in Hx. congruence. }
    get Hc. destruct (_ || _) eqn:Eg.
    + lock. wp_steps. right. split; [done|]. split; [done|]. split; [|done].
      apply orb_true_iff in Eg as [Eg|Eg].
      * left. apply negb_true_iff in Eg. apply Forall_forall. intros x Hx Hp.
        assert (existsb (fun p => bool_decide (p_parent p = Some c)) ps = true); [|congruence].
        apply existsb_exists. exists x. split; [by apply list_elem_of_In|by apply bool_decide_eq_true].
      * right. exists p. split; [done|]. apply negb_true_iff in Eg. by apply Z.eqb_neq.
    + apply orb_false_iff in Eg as [Eg1 Eg2]. apply negb_false_iff in Eg1, Eg2. apply Z.eqb_eq in Eg2.
      upd Hc. upd Hc. wp_steps. eapply wp_sched; [done|same_slot|done|]. intros b s3 Hs3.
      rewrite list_insert_insert_eq in Hs3. wp_steps. split; [done|]. split; [|by exists p, b].
      apply existsb_exists in Eg1 as (x & Hx & Hp). apply Exists_exists. exists x.
      split; [by apply list_elem_of_In|by apply bool_decide_eq_true in Hp].
Qed.

Lemma wait_spec ps np ini c p s :
  at_ ps np ini (Some c) false s -> ps !! c = Some p -> wp wait (wait_post c ps np ini) s.
Proof. intros Hs Hc. unfold wait. current. lock. by eapply wait_scan_spec. Qed.

(** ** [yield], [sleep], [kill], [wakeup], [nice] *)

Lemma yield_spec ps np ini c p s :
  at_ ps np ini (Some c) false s -> ps !! c = Some p ->
  wp yield (fun _ s' => exists b,
    at_ (<[c := set_ctx AtYield (set_intena b (set_state RUNNABLE p))]> ps) np ini (Some c) true s') s.
Proof.
  intros Hs Hc. unfold yield. lock. current. upd Hc. wp_steps.
  eapply wp_sched; [done|same_slot|done|]. intros b s2 Hs2. rewrite list_insert_insert_eq in Hs2. by exists b.
Qed.

Lemma sleep_spec ch ps np ini c p s :
  at_ ps np ini (Some c) false s -> ps !! c = Some p ->
  wp (sleep ch) (fun _ s' => exists b,
    at_ (<[c := set_ctx AtSleep (set_intena b (set_state SLEEPING (set_chan ch p)))]> ps) np ini (Some c) true s') s.
Proof.
  intros Hs Hc. unfold sleep, myproc. wp_steps. rewrite (at_cur _ _ _ _ _ _ Hs). wp_pass ltac:(done).
  current. lock. upd Hc. upd Hc. wp_steps.
  eapply wp_sched; [done|same_slot|done|]. intros b s3 Hs3. rewrite list_insert_insert_eq in Hs3. by exists b.
Qed.

Definition killed_proc (p : proc) : proc :=
  if is_state SLEEPING p then set_state RUNNABLE (set_killed 1 p) else set_killed 1 p.

Lemma kill_spec pid ps np ini cu s :
  at_ ps np ini cu false s ->
  wp (kill pid) (fun r s' =>
    (r = 0 /\ exists i p, ps !! i = Some p /\ p_pid p = pid /\
       (forall j q, (j < i)%nat -> ps !! j = Some q -> p_pid q <> pid) /\
       at_ (<[i := killed_proc p]> ps) np ini cu false s') \/
    (r = -1 /\ Forall (fun p => p_pid p <> pid) ps /\ at_ ps np ini cu false s')) s.
Proof.
  intros Hs. unfold kill. lock. wp_steps. simpl. rewrite (at_procs _ _ _ _ _ _ Hs0).
  destruct (find_slot _ _ _) as [i|] eqn:E.
  - apply find_slot_Some in E as (j & p & -> & Hi & Hp & Hmin). simpl in *.
    upd Hi. upd Hi. lock. wp_steps. left. split; [done|]. exists j, p. split; [done|].
    split; [by apply Z.eqb_eq|]. split; [|done].
    intros k q Hk Hq. by apply Z.eqb_neq, (Hmin k).
  - lock. wp_steps. right. split; [done|]. split; [|done]. apply find_slot_None in E.
    eapply Forall_impl; [exact E|]. intros x. apply Z.eqb_neq.
Qed.

Lemma wakeup_spec c ps np ini cu s :
  at_ ps np ini cu false s -> wp (wakeup c) (fun _ => at_ (wake c <$> ps) np ini cu false) s.
Proof.
  intros Hs. unfold wakeup. lock. wp_steps. eapply wp_wakeup1; [done|]. intros s1 Hs1. by lock.
Qed.

Lemma nice_spec n ps np ini c p s :
  at_ ps np ini (Some c) false s -> ps !! c = Some p ->
  wp (nice n) (fun r s' =>
    if decide (0 <= n <= 20)
    then r = p_nice p /\ at_ (<[c := set_nice n p]> ps) np ini (Some c) false s'
    else r = -1 /\ s' = s) s.
Proof.
  intros Hs Hc. unfold nice. destruct (decide (0 <= n <= 20)) as [Hn|Hn]; current; get Hc.
  - replace ((n <? 0) || (20 <? n)) with false by lia. upd Hc. by wp_steps.
  - replace ((n <? 0) || (20 <? n)) with true by lia. by wp_steps.
Qed.

(** ** [exit] *)

Lemma close_files_spec ps np ini c p s :
  at_ ps np ini (Some c) false s -> ps !! c = Some p -> length (p_ofile p) = NOFILE ->
  wp (for_loop NOFILE 0 (close_file c)) (fun _ s' =>
    at_ (<[c := set_ofile (replicate NOFILE 0) p]> ps) np ini (Some c) false s') s.
Proof.
  intros Hs Hc Hl. pose proof (lookup_lt_Some _ _ _ Hc) as Hlt.
  eapply wp_mono; [apply (wp_for_loop (fun j s' => exists l,
    at_ (<[c := set_ofile l p]> ps) np ini (Some c) false s' /\ length l = NOFILE /\
    forall k f, Z.of_nat k < j -> l !! k = Some f -> f = 0))|].
  - exists (p_ofile p). split; [|split; [done|lia]].
    replace (set_ofile (p_ofile p) p) with p by (by destruct p). by rewrite list_insert_id.
  - intros j s1 Hj (l & Hs1 & Hll & Hz). unfold close_file.
    destruct (lookup_lt_is_Some_2 l (Z.to_nat j)) as [f Hf]; [unfold NOFILE in *; lia|].
    get Hc. wp_steps. eapply wp_deref; [simpl; exact Hf|]. destruct (f =? 0) eqn:Ef.
    + wp_steps. exists l. split; [done|]. split; [done|]. intros k g Hk Hg.
      destruct (decide (k = Z.to_nat j)) as [->|]; [apply Z.eqb_eq in Ef; congruence|].
      apply (Hz k g); [lia|done].
    + svc_call fileclose_returns. upd Hc. exists (<[Z.to_nat j := 0]> l).
      split; [done|]. split; [by rewrite length_insert|]. intros k g Hk Hg.
      apply list_lookup_insert_Some in Hg as [(_ & <- & _)|[Hne Hg]]; [done|].
      apply (Hz k g); [lia|done].
  - intros [] s' (l & Hs' & Hll & Hz). replace (replicate NOFILE 0) with l; [done|].
    apply list_eq. intros k. destruct (decide (k < NOFILE)%nat) as [Hk|Hk].
    + destruct (lookup_lt_is_Some_2 l k) as [f Hf]; [lia|]. rewrite Hf, lookup_replicate_2 by done.
      f_equal. by apply (Hz k f); [lia|].
    + rewrite !lookup_ge_None_2; [done|rewrite length_replicate; lia|lia].
Qed.

Definition reparent (c : nat) (ini : option nat) (p : proc) : proc :=
  if bool_decide (p_parent p = Some c) then set_parent ini p else p.

(** Waking up only changes scheduling state. *)
Record woken (p q : proc) : Prop := Woken {
  wk_shape : shape_of q = shape_of p;
  wk_run : p_state q = RUNNING <-> p_state p = RUNNING;
  wk_ofile : p_ofile q = p_ofile p;
  wk_ctx : p_ctx q = p_ctx p;
  wk_runnable : p_state p = RUNNABLE -> p_state q = RUNNABLE;
  wk_same : q = set_state (p_state q) (set_sleeptime (p_sleeptime q) p);
}.

Lemma woken_refl p : woken p p.
Proof. split; try done. by destruct p. Qed.

Lemma woken_trans p q r : woken p q -> woken q r -> woken p r.
Proof.
  intros [H1 H2 H3 H4 H5 H6] [G1 G2 G3 G4 G5 G6]. split; try congruence; [by rewrite G2|auto|].
  rewrite G6. rewrite H6 at 1. by destruct p.
Qed.

Lemma woken_wake c p : woken p (wake c p).
Proof.
  split; [apply shape_wake|apply wake_running|apply wake_ofile| | |].
  - unfold wake. by repeat case_match.
  - unfold wake. intros Hr. rewrite Hr. simpl. by case_match.
  - unfold wake. repeat case_match; destruct p; done.
Qed.

Lemma woken_set_parent o p q : woken p q -> woken (set_parent o p) (set_parent o q).
Proof.
  intros [H1 H2 H3 H4 H5 H6]. split; simpl; try done.
  - unfold shape_of in *. simpl. by injection H1 as -> -> _.
  - rewrite H6 at 1. by destruct p.
Qed.

(** [ps'] is [f] applied to [ps], up to wake-ups. *)
Definition tracks (f : nat -> proc -> proc) (ps ps' : list proc) : Prop :=
  length ps' = length ps /\
  forall i p, ps !! i = Some p -> exists q, ps' !! i = Some q /\ woken (f i p) q.

Lemma tracks_wake f c ps ps' : tracks f ps ps' -> tracks f ps (wake c <$> ps').
Proof.
  intros [Hl Ht]. split; [by rewrite length_fmap|]. intros i p Hi.
  destruct (Ht i p Hi) as (q & Hq & Hw). exists (wake c q). rewrite list_lookup_fmap, Hq.
  split; [done|]. eapply woken_trans; [done|apply woken_wake].
Qed.

Lemma tracks_insert f ps ps' j p q x y :
  tracks f ps ps' -> ps !! j = Some p -> ps' !! j = Some q ->
  woken x y -> tracks (fun i => if decide (i = j) then fun _ => x else f i) ps (<[j := y]> ps').
Proof.
  intros [Hl Ht] Hp Hq Hw. split; [by rewrite length_insert|]. intros i p' Hi.
  destruct (decide (i = j)) as [->|Hne].
  - exists y. split; [|done]. apply list_lookup_insert_eq. by eapply lookup_lt_Some.
  - rewrite list_lookup_insert_ne by done. by apply Ht.
Qed.

Lemma tracks_ext f g ps ps' :
  tracks f ps ps' -> (forall i p, ps !! i = Some p -> f i p = g i p) -> tracks g ps ps'.
Proof. intros [Hl Ht] E. split; [done|]. intros i p Hi. rewrite <-E by done. by apply Ht. Qed.

Lemma abandon_spec ps np ini c s :
  at_ ps np ini (Some c) true s -> length ps = NPROC ->
  wp (for_loop NPROC 0 (abandon c)) (fun _ s' => exists ps',
    at_ ps' np ini (Some c) true s' /\ tracks (fun _ => reparent c ini) ps ps') s.
Proof.
  intros Hs Hlen.
  eapply wp_mono; [apply (wp_for_loop (fun j s' => exists ps',
    at_ ps' np ini (Some c) true s' /\
    tracks (fun i p => if decide (Z.of_nat i < j) then reparent c ini p else p) ps ps'))|].
  - exists ps. split; [done|]. split; [done|]. intros i p Hi. exists p. rewrite decide_False by lia.
    split; [done|apply woken_refl].
  - intros j s1 Hj (ps1 & Hs1 & Ht). unfold abandon.
    destruct (lookup_lt_is_Some_2 ps (Z.to_nat j)) as [p Hp]; [lia|].
    destruct (proj2 Ht _ _ Hp) as (q & Hq & Hw). rewrite decide_False in Hw by lia.
    assert (p_parent q = p_parent p) as Hpar by (pose proof (wk_shape _ _ Hw) as E; by injection E).
    assert (forall x y ps2, woken x y -> x = reparent c ini p -> ps2 = <[Z.to_nat j := y]> ps1 ->
      tracks (fun i p => if decide (Z.of_nat i < j + 1) then reparent c ini p else p) ps ps2) as Hnext.
    { intros x y ps2 Hxy -> ->. eapply tracks_ext; [by eapply tracks_insert|].
      intros i p' Hi. simpl. destruct (decide (i = Z.to_nat j)) as [->|Hne].
      - rewrite decide_True by lia. congruence.
      - destruct (decide (Z.of_nat i < j)); [rewrite decide_True by lia; done|].
        rewrite decide_False by lia. done. }
    get Hq. rewrite Hpar. case_bool_decide as Hd.
    + assert (set_parent ini p = reparent c ini p) as Er by (unfold reparent; by rewrite bool_decide_true).
      wp_steps. simpl. rewrite (at_init _ _ _ _ _ _ Hs1). upd Hq.
      pose proof (Hnext _ _ _ (woken_set_parent ini _ _ Hw) Er eq_refl) as Hn.
      destruct (is_state ZOMBIE q); wp_steps; [|by eexists].
      eapply wp_wakeup1; [done|]. intros s3 Hs3. eexists. split; [done|]. by apply tracks_wake.
    + wp_steps. exists ps1. split; [done|]. apply (Hnext p q).
      { done. } { unfold reparent. by rewrite bool_decide_false. }
      symmetry. by apply list_insert_id.
  - intros [] s' (ps' & Hs' & Ht). exists ps'. split; [done|]. eapply tracks_ext; [done|].
    intros i p Hi. simpl. apply lookup_lt_Some in Hi. rewrite decide_True by lia. done.
Qed.

Lemma exit_spec ps np ini c p s :
  at_ ps np ini (Some c) false s -> ps !! c = Some p -> length ps = NPROC -> files_ok ps ->
  ini <> Some c ->
  wp exit (fun _ s' => exists ps' q b,
    let closed := set_cwd 0 (set_ofile (replicate NOFILE 0) p) in
    let table := wake (chan_of (p_parent p)) <$> <[c := closed]> ps in
    tracks (fun _ => reparent c ini) table ps' /\ ps' !! c = Some q /\
    at_ (<[c := set_ctx AtExit (set_intena b (set_state ZOMBIE q))]> ps') np ini (Some c) true s') s.
Proof.
  intros Hs Hc Hlen Hf Hini. unfold exit. current. wp_steps. unfold id. rewrite (at_init _ _ _ _ _ _ Hs).
  wp_pass ltac:(apply bool_decide_eq_false; congruence).
  eapply wp_mono; [apply (close_files_spec ps); [done|done|]|].
  { by apply (Forall_lookup_1 _ _ _ _ Hf Hc). }
  intros [] s1 Hs1. get Hc. svc_call iput_returns. upd Hc. lock. get Hc. wp_steps.
  eapply wp_wakeup1; [done|]. intros s5 Hs5. wp_steps.
  eapply wp_mono; [eapply abandon_spec; [eassumption|by rewrite length_fmap, length_insert]|].
  intros [] s6 (ps' & Hs6 & Ht). simpl in Ht. pose proof (lookup_lt_Some _ _ _ Hc) as Hlt.
  destruct (proj2 Ht c (wake (chan_of (p_parent p)) (set_cwd 0 (set_ofile (replicate NOFILE 0) p))))
    as (q & Hq & Hw); [by rewrite list_lookup_fmap, list_lookup_insert_eq by done|].
  upd Hq. wp_steps. eapply wp_sched; [done|same_slot|done|]. intros b s8 Hs8.
  rewrite list_insert_insert_eq in Hs8. exists ps', q, b. done.
Qed.

(** ** The scheduler *)

Definition scheduled (p : proc) : proc := set_ticks (s32 (p_ticks p + 1)) (set_state RUNNING p).

Lemma at_set_cur ps np ini cu cu' h s : at_ ps np ini cu h s -> at_ ps np ini cu' h (set_cur cu' s).
Proof. intros [? ? ? ? ?]. by destruct h; split. Qed.

Lemma visit_spec j ps np ini p s :
  at_ ps np ini None true s -> ps !! j = Some p ->
  wp (visit j) (fun r s' =>
    if decide (p_state p = RUNNABLE)
    then r = true /\ at_ (<[j := scheduled p]> ps) np ini (Some j) true s'
    else r = false /\ s' = s) s.
Proof.
  intros Hs Hj. unfold visit, is_state.
  destruct (decide (p_state p = RUNNABLE)) as [Hr|Hr]; get Hj.
  - rewrite bool_decide_true by done. simpl. wp_steps.
    apply (at_set_cur _ _ _ _ (Some j)) in Hs. upd Hj. upd Hj. by wp_steps.
  - rewrite bool_decide_false by done. simpl. by wp_steps.
Qed.

Lemma continue_spec j ps np ini q s :
  at_ ps np ini (Some j) true s -> ps !! j = Some q -> p_ctx q <> AtExit ->
  wp continue (fun r s' =>
    match p_ctx q with
    | AtWait => wait_post j (<[j := set_chan CNull q]> ps) np ini
                  (match r with Some v => v | None => None end) s' /\ r <> Some None
    | AtSleep => r = Some None /\ at_ (<[j := set_chan CNull q]> ps) np ini (Some j) false s'
    | _ => r = Some None /\ at_ ps np ini (Some j) false s'
    end) s.
Proof.
  intros Hs Hj Hx. unfold continue. current. get Hj. destruct (p_ctx q) eqn:E; try done.
  - lock. by wp_steps.
  - wp_step. eapply wp_sched_end; [done|]. intros s1 Hs1. lock. by wp_steps.
  - wp_step. eapply wp_sched_end; [done|]. intros s1 Hs1. upd Hj. lock. by wp_steps.
  - wp_step. eapply wp_sched_end; [done|]. intros s1 Hs1. upd Hj. wp_steps. eapply wp_mono; [eapply wait_scan_spec; [done|same_slot]|].
    intros [v|] s' Hw; wp_steps; done.
Qed.

Lemma next_pass_spec ps np ini s :
  at_ ps np ini None true s -> wp next_pass (fun _ => at_ ps np ini None true) s.
Proof.
  intros Hs. unfold next_pass. lock. wp_steps. eapply (wp_acquire_pt ps np ini None); [|done].
  destruct Hs0 as [? ? ? ? [? ?]]. by split.
Qed.

(** The interrupt flag of a process survives its switch: [yield] keeps the flag the process
    had with its context, and [continue] gives it back, whatever the CPU did in between. *)
Lemma yield_saves ps np ini c p s :
  at_ ps np ini (Some c) false s -> ps !! c = Some p ->
  wp yield (fun _ s' => exists q, procs s' !! c = Some q /\ p_ctx q = AtYield /\ p_intena q = eflags_if (kcpu s)) s.
Proof.
  intros Hs Hc. pose proof Hs as [Hps Hnp Hini Hcu [Hl Hn]]. unfold yield. apply wp_bind. unfold acquire_pt, on_lock at 1. apply wp_zoom.
  pose proof (acquire_ret (kcpu s) 0 (ptlock s) ltac:(lia) ltac:(lia) ltac:(by rewrite Hl)) as Ha.
  assert (lk_cpu (ptlock s) = None) as Ho by (by rewrite Hl). rewrite Ho in Ha. destruct Ha as (k & Hr & H1 & H2 & H3).
  eapply wp_run; [exact Hr|]. rewrite Hn in H3. cbn [Z.eqb] in H3.
  set (s1 := set_locks _ _ s). assert (Hs1 : at_ ps np ini (Some c) true s1) by (split; try done; split; simpl; [done|]; split; [lia|done]).
  current. apply wp_bind. unfold upd_proc at 1. apply wp_modify.
  set (s2 := set_procs _ s1). unfold sched. apply wp_bind. unfold curproc, myproc. apply wp_bind, wp_gets. simpl cur. rewrite Hcu.
  apply wp_ret, wp_bind. unfold get_proc. apply wp_bind, wp_gets. simpl. rewrite Hps, list_lookup_alter_eq, Hc. apply wp_ret, wp_bind.
  unfold on_lock. apply wp_zoom. destruct (holding_ret k 0 (SpinLock true (Some 0%nat))) as (k2 & Hr2 & G1 & G2 & G3); [lia|done|].
  eapply wp_run; [exact Hr2|]. simpl. wp_steps. cbn [kcpu set_locks set_procs s1 s2 ls_cpu]. wp_steps. rewrite G1, H1, Hn. apply wp_panic_if; [done|]. wp_steps.
  rewrite G2, H2. apply wp_panic_if; [done|]. wp_steps.
  unfold upd_proc. apply wp_modify. simpl. rewrite Hps, list_lookup_alter_eq, list_lookup_alter_eq, Hc. eexists. split; [reflexivity|].
  simpl. split; [done|]. rewrite G3 by lia. exact H3.
Qed.

Lemma continue_restores j ps np ini q s :
  at_ ps np ini (Some j) true s -> ps !! j = Some q -> p_ctx q = AtYield \/ p_ctx q = AtSleep ->
  wp continue (fun _ s' => eflags_if (kcpu s') = p_intena q) s.
Proof.
  intros Hs Hj Hx. pose proof Hs as [Hps _ _ Hcu (Hl & Hn & Hif)].
  assert (Hrel : forall ps', wp (sched_end q ;;; (modify (set_procs ps') ;;; (release_pt ;;; ret (Some (@None Z)))))
    (fun _ s' => eflags_if (kcpu s') = p_intena q) s).
  { intros ps'. unfold sched_end. apply wp_bind, wp_modify, wp_bind, wp_modify, wp_bind. unfold release_pt, on_lock. apply wp_zoom.
    destruct (release_ret (Cpu (ncli (kcpu s)) (p_intena q) (eflags_if (kcpu s))) 0 (ptlock s)) as (k & Hr & G1 & G2);
      [simpl; lia|done|by rewrite Hl..|].
    eapply wp_run; [exact Hr|]. apply wp_ret. simpl in *. by rewrite G2, Hn. }
  unfold continue. current. get Hj. destruct Hx as [->| ->].
  - specialize (Hrel ps). rewrite <-Hps in Hrel. exact Hrel.
  - specialize (Hrel (alter (set_chan CNull) j ps)). rewrite <-Hps in Hrel. exact Hrel.
Qed.
End ops.
