(* ===== verification/Kernel.v ===== *)
(** * The processes and the scheduler together (p4: proc.c)

    A transition system on one CPU: the running process performs kernel operations
    (each runs to its end or to the switch in [sched]); the scheduler visits the slots
    in turn with [ptable.lock] held and continues the process it picks.  The file proves
    the table invariant for all runs, bounded waiting, and what [fork], [wait], [exit],
    [kill], [nice], [getschedstate] and [sleep] do. *)

From S2P Require Import Prelude Locks Proc Sched.

(** Where the CPU is: in process [i], or in the scheduler about to visit slot [j]. *)
Inductive mode := Run (i : nat) | Sched (j : nat).

Record tbl_ok (ps : list proc) (np : Z) (ini o : option nat) : Prop := TblOk {
  tb_table : table_ok (shape_of <$> ps) ini np;
  tb_files : files_ok ps;
  tb_ctx : Forall (fun p => p_ctx p = AtExit -> life_of (p_state p) <> Alive) ps;
  tb_running : running_only o ps;
}.

(** What a step is: an operation of the running process, a visit of the scheduler to a
    slot (that picks it or not), or the start of the next pass. *)
Inductive label := LProc | LVisit (j : nat) (picked : bool) | LWrap.
#[export] Instance label_eq_dec : EqDecision label.
Proof. solve_decision. Defined.

Section system.
Context {K : Type} `{KS : KernelServices K}.

Definition state : Type := kst (K := K) * mode.

Inductive kstep : state -> label -> state -> Prop :=
| ks_fork s i r s' : fork s = Ret r s' -> nextpid s < 2 ^ 31 - 1 -> kstep (s, Run i) LProc (s', Run i)
| ks_kill s i pid r s' : kill pid s = Ret r s' -> kstep (s, Run i) LProc (s', Run i)
| ks_wakeup s i c s' : wakeup c s = Ret tt s' -> kstep (s, Run i) LProc (s', Run i)
| ks_nice s i n r s' : nice n s = Ret r s' -> kstep (s, Run i) LProc (s', Run i)
| ks_sleeptime s i n s' : sys_sleep_start n s = Ret tt s' -> kstep (s, Run i) LProc (s', Run i)
| ks_wait s i v s' : wait s = Ret (Some v) s' -> kstep (s, Run i) LProc (s', Run i)
| ks_wait_sleep s i s' : wait s = Ret None s' ->
    kstep (s, Run i) LProc (set_cur None s', Sched (S i))
| ks_yield s i s' : yield s = Ret tt s' -> kstep (s, Run i) LProc (set_cur None s', Sched (S i))
| ks_sleep s i c s' : sleep c s = Ret tt s' -> kstep (s, Run i) LProc (set_cur None s', Sched (S i))
| ks_exit s i s' : exit s = Ret tt s' -> kstep (s, Run i) LProc (set_cur None s', Sched (S i))
| ks_skip s j s' : visit j s = Ret false s' -> (j < NPROC)%nat ->
    kstep (s, Sched j) (LVisit j false) (s', Sched (S j))
| ks_run s j s1 r s2 : visit j s = Ret true s1 -> (j < NPROC)%nat -> continue s1 = Ret (Some r) s2 ->
    kstep (s, Sched j) (LVisit j true) (s2, Run j)
| ks_again s j s1 s2 : visit j s = Ret true s1 -> (j < NPROC)%nat -> continue s1 = Ret None s2 ->
    kstep (s, Sched j) (LVisit j true) (set_cur None s2, Sched (S j))
| ks_wrap s s' : next_pass s = Ret tt s' -> kstep (s, Sched NPROC) LWrap (s', Sched 0).

Inductive ktrace : state -> list label -> state -> Prop :=
| kt_nil x : ktrace x [] x
| kt_cons x l y ls z : kstep x l y -> ktrace y ls z -> ktrace x (l :: ls) z.

Definition mode_cur (m : mode) : option nat := match m with Run i => Some i | Sched _ => None end.
Definition mode_lock (m : mode) : bool := match m with Run _ => false | Sched _ => true end.
Definition mode_pos (m : mode) : nat := match m with Run i => S i | Sched j => j end.

Definition sys_ok (x : state) : Prop :=
  exists ps np ini, at_ ps np ini (mode_cur (snd x)) (mode_lock (snd x)) (fst x) /\
    tbl_ok ps np ini (mode_cur (snd x)) /\ (mode_pos (snd x) <= NPROC)%nat.
End system.

(** ** Preservation *)

Lemma tbl_update ps np ini o o' i p q :
  tbl_ok ps np ini o -> ps !! i = Some p -> shape_of q = shape_of p ->
  length (p_ofile q) = NOFILE -> (p_ctx q = AtExit -> life_of (p_state q) <> Alive) ->
  (p_state q = RUNNING <-> o' = Some i) -> (forall j, j <> i -> o = Some j <-> o' = Some j) ->
  tbl_ok (<[i := q]> ps) np ini o'.
Proof.
  intros [Ht Hf Hc Hr] Hi Hs Ho Hx Hq Hoth. split.
  - by rewrite (shape_insert_same _ _ p).
  - by apply Forall_insert.
  - by apply Forall_insert.
  - intros j y Hj. apply list_lookup_insert_Some in Hj as [(<- & <- & _)|[Hne Hj]]; [done|].
    rewrite <-Hoth by done. by apply Hr.
Qed.

Lemma tbl_same ps np ini o i p q :
  tbl_ok ps np ini o -> ps !! i = Some p -> shape_of q = shape_of p ->
  p_ofile q = p_ofile p -> p_ctx q = p_ctx p -> (p_state q = RUNNING <-> p_state p = RUNNING) ->
  tbl_ok (<[i := q]> ps) np ini o.
Proof.
  intros Ht Hi Hs Ho Hx Hq. eapply tbl_update; try done.
  - rewrite Ho. by apply (Forall_lookup_1 _ _ _ _ (tb_files _ _ _ _ Ht) Hi).
  - rewrite Hx. intros E. injection Hs as -> _ _. by apply (Forall_lookup_1 _ _ _ _ (tb_ctx _ _ _ _ Ht) Hi).
  - rewrite Hq. by apply (tb_running _ _ _ _ Ht).
Qed.

Lemma tbl_woken ps ps' np ini o :
  tbl_ok ps np ini o -> tracks (fun _ p => p) ps ps' -> tbl_ok ps' np ini o.
Proof.
  intros [Ht Hf Hc Hr] [Hl Hw].
  assert (forall i q, ps' !! i = Some q -> exists p, ps !! i = Some p /\ woken p q) as Hback.
  { intros i q Hq. destruct (lookup_lt_is_Some_2 ps i) as [p Hp].
    { rewrite <-Hl. by eapply lookup_lt_Some. }
    exists p. split; [done|]. destruct (Hw i p Hp) as (q' & Hq' & ?). by simplify_eq. }
  split.
  - replace (shape_of <$> ps') with (shape_of <$> ps); [done|]. apply list_eq. intros i.
    rewrite !list_lookup_fmap. destruct (ps' !! i) as [q|] eqn:E; simpl.
    + destruct (Hback i q E) as (p & -> & Hwk). simpl. by rewrite (wk_shape _ _ Hwk).
    + apply lookup_ge_None in E. rewrite lookup_ge_None_2; [done|lia].
  - apply Forall_lookup. intros i q (p & Hp & Hwk)%Hback. rewrite (wk_ofile _ _ Hwk).
    by apply (Forall_lookup_1 _ _ _ _ Hf Hp).
  - apply Forall_lookup. intros i q (p & Hp & Hwk)%Hback. rewrite (wk_ctx _ _ Hwk).
    pose proof (wk_shape _ _ Hwk) as Hs. injection Hs as -> _ _.
    by apply (Forall_lookup_1 _ _ _ _ Hc Hp).
  - intros i q (p & Hp & Hwk)%Hback. rewrite (wk_run _ _ Hwk). by apply Hr.
Qed.

Lemma tracks_refl ps : tracks (fun _ p => p) ps ps.
Proof. split; [done|]. intros i p Hp. exists p. split; [done|apply woken_refl]. Qed.

Lemma tbl_wake c ps np ini o : tbl_ok ps np ini o -> tbl_ok (wake c <$> ps) np ini o.
Proof. intros Ht. eapply tbl_woken; [done|]. apply tracks_wake, tracks_refl. Qed.

Lemma unused_not_running ps np ini o i p :
  tbl_ok ps np ini o -> ps !! i = Some p -> p_state p <> RUNNING -> o <> Some i.
Proof. intros Ht Hi Hn E. by apply Hn, (tb_running _ _ _ _ Ht i p Hi). Qed.

Lemma lookup_shape (ps : list proc) (i : nat) p : ps !! i = Some p -> (shape_of <$> ps) !! i = Some (shape_of p).
Proof. intros Hi. by rewrite list_lookup_fmap, Hi. Qed.

Lemma tbl_junk ps ps' np np' ini o :
  tbl_ok ps np ini o -> junk ps ps' -> np <= np' -> tbl_ok ps' np' ini o.
Proof.
  intros Ht [->|(i & p & q & Hi & Hp & -> & Hq & Hpar & Hof)] Hnp.
  { destruct Ht. split; try done. by eapply table_ok_np. }
  destruct Ht as [Ht Hf Hc Hr]. split.
  - rewrite list_fmap_insert. eapply table_ok_np; [|done].
    eapply table_ok_junk; [done|by apply lookup_shape|simpl; by rewrite ?Hp, ?Hq|simpl; by rewrite Hq|done].
  - apply Forall_insert; [done|]. rewrite Hof. by apply (Forall_lookup_1 _ _ _ _ Hf Hi).
  - apply Forall_insert; [done|]. by rewrite Hq.
  - intros j y Hj. apply list_lookup_insert_Some in Hj as [(<- & <- & _)|[Hne Hj]]; [|by apply Hr].
    rewrite Hq. split; [done|]. intros E. apply (Hr i p Hi) in E. congruence.
Qed.

Lemma tbl_child ps np ini o c p i q0 q :
  tbl_ok ps np ini o -> ps !! c = Some p -> life_of (p_state p) = Alive ->
  ps !! i = Some q0 -> p_state q0 = UNUSED -> child_of c p np q ->
  np < 2 ^ 31 - 1 -> tbl_ok (<[i := q]> ps) (s32 (np + 1)) ini o.
Proof.
  intros Ht Hc Ha Hi Hu Hch Hnp. pose proof (to_np _ _ _ (tb_table _ _ _ _ Ht)).
  assert (s32 (np + 1) = np + 1) as -> by (unfold s32; rewrite Z.mod_small; lia).
  destruct Ht as [Ht Hf Hx Hr]. split.
  - rewrite list_fmap_insert. unfold shape_of at 1.
    rewrite (ch_state _ _ _ _ Hch), (ch_pid _ _ _ _ Hch), (ch_parent _ _ _ _ Hch).
    eapply table_ok_child; [done|by apply lookup_shape|simpl; by rewrite Hu|by apply lookup_shape|done|lia].
  - apply Forall_insert; [done|]. apply Hch.
  - apply Forall_insert; [done|]. by rewrite (ch_ctx _ _ _ _ Hch).
  - intros j y Hj. apply list_lookup_insert_Some in Hj as [(<- & <- & _)|[Hne Hj]]; [|by apply Hr].
    rewrite (ch_state _ _ _ _ Hch). split; [done|]. intros E. apply (Hr i q0 Hi) in E. congruence.
Qed.

Lemma tbl_reap ps np ini o i p q :
  tbl_ok ps np ini o -> ps !! i = Some p -> p_state p = ZOMBIE -> freed q -> p_ofile q = p_ofile p ->
  tbl_ok (<[i := q]> ps) np ini o.
Proof.
  intros [Ht Hf Hx Hr] Hi Hz [Hq1 Hq2 Hq3 _ _] Hof. split.
  - rewrite list_fmap_insert. unfold shape_of at 1. rewrite Hq1, Hq2, Hq3.
    eapply table_ok_reap; [done|by apply lookup_shape|simpl; by rewrite Hz].
  - apply Forall_insert; [done|]. rewrite Hof. by apply (Forall_lookup_1 _ _ _ _ Hf Hi).
  - apply Forall_insert; [done|]. by rewrite Hq1.
  - intros j y Hj. apply list_lookup_insert_Some in Hj as [(<- & <- & _)|[Hne Hj]]; [|by apply Hr].
    rewrite Hq1. split; [done|]. intros E. apply (Hr i p Hi) in E. congruence.
Qed.

Lemma reparent_shape c ini p : shape_of (reparent c ini p) = adopt c ini (shape_of p).
Proof. unfold reparent, adopt. simpl. by case_bool_decide. Qed.

Lemma reparent_same c ini p :
  p_state (reparent c ini p) = p_state p /\ p_ofile (reparent c ini p) = p_ofile p /\
  p_ctx (reparent c ini p) = p_ctx p /\ p_pid (reparent c ini p) = p_pid p.
Proof. unfold reparent. by case_bool_decide. Qed.

Lemma tracks_back f ps ps' i q :
  tracks f ps ps' -> ps' !! i = Some q -> exists p, ps !! i = Some p /\ woken (f i p) q.
Proof.
  intros [Hl Hw] Hq. destruct (lookup_lt_is_Some_2 ps i) as [p Hp].
  { rewrite <-Hl. by eapply lookup_lt_Some. }
  exists p. split; [done|]. destruct (Hw i p Hp) as (q' & Hq' & ?). by simplify_eq.
Qed.

Lemma tracks_reparent_shapes c ini ps ps' :
  tracks (fun _ => reparent c ini) ps ps' -> shape_of <$> ps' = adopt c ini <$> (shape_of <$> ps).
Proof.
  intros Ht. apply list_eq. intros i. rewrite !list_lookup_fmap.
  destruct (ps' !! i) as [q|] eqn:E; simpl.
  - destruct (tracks_back _ _ _ _ _ Ht E) as (p & -> & Hw). simpl.
    by rewrite (wk_shape _ _ Hw), reparent_shape.
  - apply lookup_ge_None in E. rewrite lookup_ge_None_2; [done|]. destruct Ht. lia.
Qed.

Lemma tbl_exit ps ps' np ini c q b :
  tbl_ok ps np ini (Some c) -> ini <> Some c ->
  tracks (fun _ => reparent c ini) ps ps' -> ps' !! c = Some q ->
  tbl_ok (<[c := set_ctx AtExit (set_intena b (set_state ZOMBIE q))]> ps') np ini None.
Proof.
  intros [Ht Hf Hx Hr] Hini Htr Hq.
  destruct (tracks_back _ _ _ _ _ Htr Hq) as (p & Hp & Hw).
  pose proof (wk_shape _ _ Hw) as Hsq. rewrite reparent_shape in Hsq.
  assert (p_state p = RUNNING) as Hrun by (by apply (Hr c p Hp)).
  split.
  - rewrite list_fmap_insert, (tracks_reparent_shapes _ _ _ _ Htr).
    replace (shape_of (set_ctx AtExit (set_intena b (set_state ZOMBIE q))))
      with (Shape Zombie (sh_pid (shape_of p)) (sh_parent (adopt c ini (shape_of p)))).
    + eapply table_ok_exit; [done|by apply lookup_shape|simpl; by rewrite Hrun|done].
    + rewrite <-Hsq. unfold shape_of. simpl. f_equal.
      apply (f_equal sh_pid) in Hsq. simpl in Hsq. rewrite Hsq. symmetry. apply (adopt_life c ini (shape_of p)).
  - apply Forall_insert; simpl.
    + apply Forall_lookup. intros i y Hy. destruct (tracks_back _ _ _ _ _ Htr Hy) as (z & Hz & Hwz).
      rewrite (wk_ofile _ _ Hwz). destruct (reparent_same c ini z) as (_ & -> & _).
      by apply (Forall_lookup_1 _ _ _ _ Hf Hz).
    + rewrite (wk_ofile _ _ Hw). destruct (reparent_same c ini p) as (_ & -> & _).
      by apply (Forall_lookup_1 _ _ _ _ Hf Hp).
  - apply Forall_insert; simpl; [|done].
    apply Forall_lookup. intros i y Hy. destruct (tracks_back _ _ _ _ _ Htr Hy) as (z & Hz & Hwz).
    rewrite (wk_ctx _ _ Hwz). pose proof (wk_shape _ _ Hwz) as Hs. apply (f_equal sh_life) in Hs.
    simpl in Hs. rewrite Hs. destruct (reparent_same c ini z) as (-> & _ & -> & _).
    by apply (Forall_lookup_1 _ _ _ _ Hx Hz).
  - intros j y Hj. apply list_lookup_insert_Some in Hj as [(<- & <- & _)|[Hne Hj]]; [done|].
    destruct (tracks_back _ _ _ _ _ Htr Hj) as (z & Hz & Hwz). rewrite (wk_run _ _ Hwz).
    destruct (reparent_same c ini z) as (-> & _). rewrite (Hr j z Hz). split; [|done]. congruence.
Qed.

(** ** The invariant *)

Section invariant.
Context {K : Type} `{KS : KernelServices K} `{!ServicesReturn K}.
Implicit Types s : kst (K := K).

Lemma running_alive ps np ini i :
  tbl_ok ps np ini (Some i) -> (i < NPROC)%nat ->
  exists p, ps !! i = Some p /\ p_state p = RUNNING.
Proof.
  intros Ht Hi. pose proof (to_len _ _ _ (tb_table _ _ _ _ Ht)) as Hl. rewrite length_fmap in Hl.
  destruct (lookup_lt_is_Some_2 ps i) as [p Hp]; [lia|]. exists p. split; [done|].
  by apply (tb_running _ _ _ _ Ht i p Hp).
Qed.

Lemma tbl_wait ps np ini c r s' :
  tbl_ok ps np ini (Some c) -> (c < NPROC)%nat -> wait_post c ps np ini r s' ->
  match r with
  | Some _ => exists ps', at_ ps' np ini (Some c) false s' /\ tbl_ok ps' np ini (Some c)
  | None => exists ps', at_ ps' np ini (Some c) true s' /\ tbl_ok ps' np ini None
  end.
Proof.
  intros Ht Hc Hw. destruct r as [v|]; simpl in Hw.
  - destruct Hw as [(i & p & q & Hi & [_ Hz] & _ & Hq & Hof & _ & Hs)|(_ & _ & _ & Hs)]; eexists;
      (split; [exact Hs|]); [by eapply tbl_reap|done].
  - destruct Hw as (_ & _ & p & b & Hp & _ & Hs). eexists. split; [exact Hs|].
    assert (p_state p = RUNNING) as Hr by (by apply (tb_running _ _ _ _ Ht c p Hp)).
    eapply (tbl_update _ _ _ _ _ c p); [done|done| | |done|done|].
    + unfold shape_of. simpl. by rewrite Hr.
    + by apply (Forall_lookup_1 _ _ _ _ (tb_files _ _ _ _ Ht) Hp).
    + intros j Hj. split; [congruence|done].
Qed.

Ltac use H spec := let Q := fresh in
  pose proof spec as Q; apply (wp_use _ _ _ _ _ Q) in H; clear Q.

(** A switch from process [c]: its slot keeps its shape. *)
Lemma tbl_switch ps np ini c p q :
  tbl_ok ps np ini (Some c) -> ps !! c = Some p -> p_state p = RUNNING ->
  shape_of q = shape_of p -> p_ofile q = p_ofile p -> p_ctx q <> AtExit -> p_state q <> RUNNING ->
  tbl_ok (<[c := q]> ps) np ini None.
Proof.
  intros Ht Hp Hr Hs Ho Hx Hq. eapply tbl_update; [done|done|done| |done|done|].
  - rewrite Ho. by apply (Forall_lookup_1 _ _ _ _ (tb_files _ _ _ _ Ht) Hp).
  - intros j Hj. split; [congruence|done].
Qed.

Lemma tbl_closed ps np ini c p :
  tbl_ok ps np ini (Some c) -> ps !! c = Some p ->
  tbl_ok (wake (chan_of (p_parent p)) <$> <[c := set_cwd 0 (set_ofile (replicate NOFILE 0) p)]> ps)
    np ini (Some c).
Proof.
  intros Ht Hp. apply tbl_wake. eapply tbl_update; try done.
  - by apply (Forall_lookup_1 _ _ _ _ (tb_ctx _ _ _ _ Ht) Hp).
  - exact (tb_running _ _ _ _ Ht c p Hp).
Qed.

Lemma exit_init ps np c h s :
  at_ ps np (Some c) (Some c) h s -> exit s = Panic "init exiting".
Proof.
  intros Hs. unfold exit, bind at 1.
  assert (curproc s = Ret c s) as ->
    by (unfold curproc, myproc, bind, gets; by rewrite (at_cur _ _ _ _ _ _ Hs)).
  unfold bind, gets, id. rewrite (at_init _ _ _ _ _ _ Hs). by rewrite bool_decide_true.
Qed.

Lemma kstep_run_ok s i x :
  sys_ok (s, Run i) -> kstep (s, Run i) LProc x -> sys_ok x.
Proof.
  intros (ps & np & ini & Hs & Ht & Hi) Hst. simpl in *.
  destruct (running_alive _ _ _ _ Ht Hi) as (p & Hp & Hr).
  assert (life_of (p_state p) = Alive) as Ha by (by rewrite Hr).
  pose proof (to_len _ _ _ (tb_table _ _ _ _ Ht)) as Hl. rewrite length_fmap in Hl.
  inversion Hst as [? ? r s' H Hnp|? ? pid r s' H|? ? c s' H|? ? n r s' H|? ? n s' H|? ? v s' H
    |? ? s' H|? ? s' H|? ? c s' H|? ? s' H| | | |]; subst.
  - rewrite (at_np _ _ _ _ _ _ Hs) in Hnp.
    use H (fork_spec _ _ _ _ _ _ Hs Hp ltac:(by rewrite Hr) (tb_files _ _ _ _ Ht)).
    pose proof (to_np _ _ _ (tb_table _ _ _ _ Ht)).
    assert (s32 (np + 1) = np + 1) as Es by (unfold s32; rewrite Z.mod_small; lia).
    destruct H as [(_ & ps' & np' & Hs' & Hj & Hn)|(_ & j & q0 & q & Hj & Hu & Hch & Hs')].
    + exists ps', np', ini. split; [done|]. split; [|done]. eapply tbl_junk; [done|done|].
      destruct Hn; lia.
    + eexists _, _, ini. split; [exact Hs'|]. split; [|done]. by eapply (tbl_child _ _ _ _ i p j q0).
  - use H (kill_spec pid _ _ _ _ _ Hs).
    destruct H as [(_ & j & q & Hj & _ & _ & Hs')|(_ & _ & Hs')]; eexists _, _, _;
      (split; [exact Hs'|]); (split; [|done]); [|done].
    unfold killed_proc, is_state. destruct (decide (p_state q = SLEEPING)) as [E|E].
    + rewrite bool_decide_true by done. eapply tbl_same; try done; simpl.
      * unfold shape_of. simpl. by rewrite E.
      * rewrite E. done.
    + rewrite bool_decide_false by done. by eapply tbl_same.
  - use H (wakeup_spec c _ _ _ _ _ Hs). eexists _, _, _. split; [exact H|]. split; [|done]. by apply tbl_wake.
  - use H (nice_spec n _ _ _ _ _ _ Hs Hp). case_decide.
    + destruct H as [_ Hs']. eexists _, _, _. split; [exact Hs'|]. split; [|done]. by eapply tbl_same.
    + destruct H as [_ ->]. by exists ps, np, ini.
  - assert (wp (sys_sleep_start n) (fun _ => at_ (<[i := set_sleeptime n p]> ps) np ini (Some i) false) s) as Hw.
    { unfold sys_sleep_start. wp_steps. eapply wp_curproc; [done|]. by eapply wp_upd_proc. }
    apply (wp_use _ _ _ _ _ Hw) in H. eexists _, _, _. split; [exact H|]. split; [|done]. by eapply tbl_same.
  - use H (wait_spec _ _ _ _ _ _ Hs Hp). apply (tbl_wait _ _ _ _ _ _ Ht Hi) in H as (ps' & ? & ?).
    by exists ps', np, ini.
  - use H (wait_spec _ _ _ _ _ _ Hs Hp). apply (tbl_wait _ _ _ _ _ _ Ht Hi) in H as (ps' & Hs' & ?).
    exists ps', np, ini. split; [by eapply at_set_cur|]. done.
  - use H (yield_spec _ _ _ _ _ _ Hs Hp). destruct H as [b H]. eexists _, np, ini. split; [by eapply at_set_cur|].
    split; [|done]. eapply tbl_switch; try done. unfold shape_of. simpl. by rewrite Hr.
  - use H (sleep_spec c _ _ _ _ _ _ Hs Hp). destruct H as [b H]. eexists _, np, ini. split; [by eapply at_set_cur|].
    split; [|done]. eapply tbl_switch; try done. unfold shape_of. simpl. by rewrite Hr.
  - destruct (decide (ini = Some i)) as [E|E].
    { subst ini. by rewrite (exit_init _ _ _ _ _ Hs) in H. }
    use H (exit_spec _ _ _ _ _ _ Hs Hp Hl (tb_files _ _ _ _ Ht) E).
    destruct H as (ps' & q & b & Htr & Hq & Hs'). simpl in Htr.
    eexists _, np, ini. split; [by eapply at_set_cur|]. split; [|done].
    eapply tbl_exit; [by eapply tbl_closed|done|done|done].
Qed.

Lemma sched_pick ps np ini j p :
  tbl_ok ps np ini None -> ps !! j = Some p -> p_state p = RUNNABLE ->
  tbl_ok (<[j := scheduled p]> ps) np ini (Some j) /\ p_ctx (scheduled p) <> AtExit.
Proof.
  intros Ht Hp Hr. pose proof (Forall_lookup_1 _ _ _ _ (tb_ctx _ _ _ _ Ht) Hp) as Hx. simpl in Hx.
  assert (p_ctx p <> AtExit) as Hne by (intros E; apply (Hx E); by rewrite Hr).
  split; [|done]. eapply tbl_update; [done|done| | |done|done|].
  - unfold shape_of. simpl. by rewrite Hr.
  - by apply (Forall_lookup_1 _ _ _ _ (tb_files _ _ _ _ Ht) Hp).
  - intros k Hk. split; [done|congruence].
Qed.

Lemma continue_ok ps np ini j q s r s' :
  at_ ps np ini (Some j) true s -> tbl_ok ps np ini (Some j) -> (j < NPROC)%nat ->
  ps !! j = Some q -> p_ctx q <> AtExit -> continue s = Ret r s' ->
  match r with
  | Some _ => exists ps', at_ ps' np ini (Some j) false s' /\ tbl_ok ps' np ini (Some j)
  | None => exists ps', at_ ps' np ini (Some j) true s' /\ tbl_ok ps' np ini None
  end.
Proof.
  intros Hs Ht Hj Hq Hx Hc. use Hc (continue_spec _ _ _ _ _ _ Hs Hq Hx).
  assert (tbl_ok (<[j := set_chan CNull q]> ps) np ini (Some j)) as Ht' by (by eapply tbl_same).
  destruct (p_ctx q); try done.
  - destruct Hc as [-> Hc]. by exists ps.
  - destruct Hc as [-> Hc]. by exists ps.
  - destruct Hc as [-> Hc]. by eexists.
  - destruct Hc as [Hw Hr]. apply (tbl_wait _ _ _ _ _ _ Ht' Hj) in Hw. by destruct r as [[v|]|].
Qed.

Lemma kstep_sched_ok s j l x :
  sys_ok (s, Sched j) -> kstep (s, Sched j) l x -> sys_ok x.
Proof.
  intros (ps & np & ini & Hs & Ht & Hj) Hst. simpl in *.
  pose proof (to_len _ _ _ (tb_table _ _ _ _ Ht)) as Hl. rewrite length_fmap in Hl.
  inversion Hst as [| | | | | | | | | |? ? s' Hv Hlt|? ? s1 r s2 Hv Hlt Hc|? ? s1 s2 Hv Hlt Hc|? s' H]; subst.
  - destruct (lookup_lt_is_Some_2 ps j) as [p Hp]; [lia|].
    use Hv (visit_spec j _ _ _ _ _ Hs Hp). case_decide; destruct Hv as [Hv1 Hv2]; [done|]. subst s'.
    exists ps, np, ini. split; [done|]. split; [done|]. simpl. lia.
  - destruct (lookup_lt_is_Some_2 ps j) as [p Hp]; [lia|].
    use Hv (visit_spec j _ _ _ _ _ Hs Hp). case_decide as Hr; destruct Hv as [Hv1 Hv2]; [|done].
    destruct (sched_pick _ _ _ _ _ Ht Hp Hr) as [Ht1 Hx].
    destruct (continue_ok _ _ _ _ (scheduled p) _ _ _ Hv2 Ht1 Hlt ltac:(apply list_lookup_insert_eq; lia) Hx Hc)
      as (ps' & ? & ?).
    exists ps', np, ini. split; [done|]. split; [done|]. simpl. lia.
  - destruct (lookup_lt_is_Some_2 ps j) as [p Hp]; [lia|].
    use Hv (visit_spec j _ _ _ _ _ Hs Hp). case_decide as Hr; destruct Hv as [Hv1 Hv2]; [|done].
    destruct (sched_pick _ _ _ _ _ Ht Hp Hr) as [Ht1 Hx].
    destruct (continue_ok _ _ _ _ (scheduled p) _ _ _ Hv2 Ht1 Hlt ltac:(apply list_lookup_insert_eq; lia) Hx Hc)
      as (ps' & ? & ?).
    exists ps', np, ini. split; [by eapply at_set_cur|]. split; [done|]. simpl. lia.
  - use H (next_pass_spec _ _ _ _ Hs). exists ps, np, ini. split; [done|]. split; [done|]. simpl. lia.
Qed.

Lemma kstep_ok x l y : sys_ok x -> kstep x l y -> sys_ok y.
Proof.
  intros Hx Hst. destruct x as [s [i|j]]; [|by eapply kstep_sched_ok].
  assert (l = LProc) as -> by (by inversion Hst). by eapply kstep_run_ok.
Qed.

Lemma ktrace_ok x ls y : sys_ok x -> ktrace x ls y -> sys_ok y.
Proof. intros Hx. induction 1; [done|]. by eauto using kstep_ok. Qed.

(** ** A runnable process stays runnable until it is picked *)

Definition keeps (ps ps' : list proc) : Prop :=
  forall k p, ps !! k = Some p -> p_state p = RUNNABLE ->
  exists q, ps' !! k = Some q /\ p_state q = RUNNABLE.

Lemma keeps_refl ps : keeps ps ps.
Proof. intros k p Hk Hp. by exists p. Qed.

Lemma keeps_trans a b c : keeps a b -> keeps b c -> keeps a c.
Proof. intros H1 H2 k p Hk Hp. destruct (H1 k p Hk Hp) as (q & ? & ?). by eapply H2. Qed.

Lemma keeps_insert ps i p q :
  ps !! i = Some p -> (p_state p = RUNNABLE -> p_state q = RUNNABLE) -> keeps ps (<[i := q]> ps).
Proof.
  intros Hi Hq k x Hk Hx. destruct (decide (k = i)) as [->|Hne].
  - exists q. rewrite list_lookup_insert_eq by (by eapply lookup_lt_Some).
    split; [done|]. apply Hq. congruence.
  - exists x. by rewrite list_lookup_insert_ne.
Qed.

Lemma keeps_tracks c ini ps ps' : tracks (fun _ => reparent c ini) ps ps' -> keeps ps ps'.
Proof.
  intros [_ Ht] k p Hk Hp. destruct (Ht k p Hk) as (q & Hq & Hw). exists q. split; [done|].
  apply (wk_runnable _ _ Hw). by destruct (reparent_same c ini p) as (-> & _).
Qed.

Lemma keeps_wake c ps : keeps ps (wake c <$> ps).
Proof.
  intros k p Hk Hp. exists (wake c p). rewrite list_lookup_fmap, Hk. split; [done|].
  by apply (wk_runnable _ _ (woken_wake c p)).
Qed.

Lemma keeps_wait ps np ini c r s' p :
  ps !! c = Some p -> p_state p = RUNNING -> wait_post c ps np ini r s' -> keeps ps (procs s').
Proof.
  intros Hc Hr Hw. destruct r as [v|]; simpl in Hw.
  - destruct Hw as [(i & x & q & Hi & [_ Hz] & _ & _ & _ & _ & Hs)|(_ & _ & _ & Hs)];
      rewrite (at_procs _ _ _ _ _ _ Hs); [|apply keeps_refl].
    eapply keeps_insert; [done|congruence].
  - destruct Hw as (_ & _ & x & b & Hx & _ & Hs). rewrite (at_procs _ _ _ _ _ _ Hs).
    eapply keeps_insert; [done|congruence].
Qed.

Lemma kstep_run_keeps s i x :
  sys_ok (s, Run i) -> kstep (s, Run i) LProc x -> keeps (procs s) (procs (fst x)).
Proof.
  intros (ps & np & ini & Hs & Ht & Hi) Hst. simpl in *.
  destruct (running_alive _ _ _ _ Ht Hi) as (p & Hp & Hr).
  pose proof (to_len _ _ _ (tb_table _ _ _ _ Ht)) as Hl. rewrite length_fmap in Hl.
  rewrite (at_procs _ _ _ _ _ _ Hs).
  assert (forall q, keeps ps (<[i := q]> ps)) as Hself
    by (intros q; eapply keeps_insert; [done|congruence]).
  inversion Hst as [? ? r s' H Hnp|? ? pid r s' H|? ? c s' H|? ? n r s' H|? ? n s' H|? ? v s' H
    |? ? s' H|? ? s' H|? ? c s' H|? ? s' H| | | |]; subst; simpl.
  - use H (fork_spec _ _ _ _ _ _ Hs Hp ltac:(by rewrite Hr) (tb_files _ _ _ _ Ht)).
    destruct H as [(_ & ps' & np' & Hs' & Hj & Hn)|(_ & j & q0 & q & Hj & Hu & Hch & Hs')];
      rewrite (at_procs _ _ _ _ _ _ Hs').
    + destruct Hj as [->|(j & a & b & Hj & Ha & -> & _)]; [apply keeps_refl|].
      eapply keeps_insert; [done|congruence].
    + eapply keeps_insert; [done|congruence].
  - use H (kill_spec pid _ _ _ _ _ Hs).
    destruct H as [(_ & j & q & Hj & _ & _ & Hs')|(_ & _ & Hs')]; rewrite (at_procs _ _ _ _ _ _ Hs');
      [|apply keeps_refl].
    eapply keeps_insert; [done|]. intros E. unfold killed_proc. by destruct (is_state _ _).
  - use H (wakeup_spec c _ _ _ _ _ Hs). rewrite (at_procs _ _ _ _ _ _ H). apply keeps_wake.
  - use H (nice_spec n _ _ _ _ _ _ Hs Hp). case_decide.
    + destruct H as [_ Hs']. rewrite (at_procs _ _ _ _ _ _ Hs'). apply Hself.
    + destruct H as [_ ->]. rewrite (at_procs _ _ _ _ _ _ Hs). apply keeps_refl.
  - assert (wp (sys_sleep_start n) (fun _ => at_ (<[i := set_sleeptime n p]> ps) np ini (Some i) false) s) as Hw.
    { unfold sys_sleep_start. wp_steps. eapply wp_curproc; [done|]. by eapply wp_upd_proc. }
    apply (wp_use _ _ _ _ _ Hw) in H. rewrite (at_procs _ _ _ _ _ _ H). apply Hself.
  - use H (wait_spec _ _ _ _ _ _ Hs Hp). by eapply keeps_wait.
  - use H (wait_spec _ _ _ _ _ _ Hs Hp). by eapply keeps_wait.
  - use H (yield_spec _ _ _ _ _ _ Hs Hp). destruct H as [b H]. rewrite (at_procs _ _ _ _ _ _ H). apply Hself.
  - use H (sleep_spec c _ _ _ _ _ _ Hs Hp). destruct H as [b H]. rewrite (at_procs _ _ _ _ _ _ H). apply Hself.
  - destruct (decide (ini = Some i)) as [E|E].
    { subst ini. by rewrite (exit_init _ _ _ _ _ Hs) in H. }
    use H (exit_spec _ _ _ _ _ _ Hs Hp Hl (tb_files _ _ _ _ Ht) E).
    destruct H as (ps' & q & b & Htr & Hq & Hs'). rewrite (at_procs _ _ _ _ _ _ Hs').
    eapply keeps_trans; [apply Hself|]. eapply keeps_trans; [apply keeps_wake|].
    eapply keeps_trans; [by eapply keeps_tracks|]. eapply keeps_insert; [done|]. intros Eq. exfalso.
    destruct (tracks_back _ _ _ _ _ Htr Hq) as (z & Hz & Hwz).
    rewrite list_lookup_fmap, list_lookup_insert_eq in Hz by lia. injection Hz as <-.
    assert (p_state q = RUNNING); [|congruence]. apply (wk_run _ _ Hwz).
    rewrite (proj1 (reparent_same _ _ _)). by apply wake_running.
Qed.

(** How many visits away the scheduler is from slot [k]. *)
Definition distance (k : nat) (m : mode) : nat :=
  if decide (mode_pos m <= k)%nat then (k - mode_pos m)%nat else (NPROC - mode_pos m + 1 + k)%nat.

Definition runnable (k : nat) s : Prop := exists p, procs s !! k = Some p /\ p_state p = RUNNABLE.

Definition is_sched (l : label) : bool := match l with LProc => false | _ => true end.

Lemma distance_wrap k : (k < NPROC)%nat -> (distance k (Sched 0) + 1 <= distance k (Sched NPROC))%nat.
Proof.
  intros Hk. unfold distance. cbn [mode_pos].
  destruct (decide (0 <= k)%nat), (decide (NPROC <= k)%nat); lia.
Qed.

Lemma keeps_continue ps np ini j q s r s' k p :
  at_ ps np ini (Some j) true s -> ps !! j = Some q -> p_state q = RUNNING -> p_ctx q <> AtExit ->
  continue s = Ret r s' -> ps !! k = Some p -> p_state p = RUNNABLE -> runnable k s'.
Proof.
  intros Hs Hq Hr Hx Hc Hp Hk. use Hc (continue_spec _ _ _ _ _ _ Hs Hq Hx).
  assert (keeps ps (<[j := set_chan CNull q]> ps)) as Hkc by (eapply keeps_insert; [done|congruence]).
  assert (keeps ps (procs s')) as Hks.
  { destruct (p_ctx q); try done.
    - destruct Hc as [_ Hc]. rewrite (at_procs _ _ _ _ _ _ Hc). apply keeps_refl.
    - destruct Hc as [_ Hc]. rewrite (at_procs _ _ _ _ _ _ Hc). apply keeps_refl.
    - destruct Hc as [_ Hc]. by rewrite (at_procs _ _ _ _ _ _ Hc).
    - destruct Hc as [Hw _]. eapply keeps_trans; [exact Hkc|]. eapply (keeps_wait _ _ _ j); [| |exact Hw].
      + apply list_lookup_insert_eq. by eapply lookup_lt_Some.
      + done. }
  exact (Hks k p Hp Hk).
Qed.

Lemma distance_next k m m' :
  mode_pos m' = S (mode_pos m) -> (mode_pos m < NPROC)%nat -> mode_pos m <> k ->
  (distance k m' + 1 <= distance k m)%nat.
Proof.
  intros E Hlt Hne. unfold distance. rewrite E.
  destruct (decide (mode_pos m <= k)%nat), (decide (S (mode_pos m) <= k)%nat); lia.
Qed.

Lemma kstep_waiting x l y k :
  sys_ok x -> kstep x l y -> (k < NPROC)%nat -> runnable k (fst x) -> l <> LVisit k true ->
  runnable k (fst y) /\
  (distance k (snd y) + (if is_sched l then 1 else 0) <= distance k (snd x))%nat.
Proof.
  intros Hx Hst Hk (p & Hp & Hr) Hl. destruct x as [s [i|j]].
  - assert (l = LProc) as -> by (by inversion Hst). split.
    + by destruct (kstep_run_keeps _ _ _ Hx Hst k p Hp Hr) as (q & ? & ?); exists q.
    + simpl. unfold distance. by inversion Hst; subst; simpl; lia.
  - destruct Hx as (ps & np & ini & Hs & Ht & Hj). simpl in *.
    pose proof (to_len _ _ _ (tb_table _ _ _ _ Ht)) as Hlen. rewrite length_fmap in Hlen.
    rewrite (at_procs _ _ _ _ _ _ Hs) in Hp.
    inversion Hst as [| | | | | | | | | |? ? s' Hv Hlt|? ? s1 r s2 Hv Hlt Hc|? ? s1 s2 Hv Hlt Hc|? s' H]; subst; simpl in *.
    + destruct (lookup_lt_is_Some_2 ps j) as [p' Hp']; [lia|].
      use Hv (visit_spec j _ _ _ _ _ Hs Hp'). case_decide as Hd; destruct Hv as [Hv1 Hv2]; [done|]. subst s'.
      split; [exists p; by rewrite (at_procs _ _ _ _ _ _ Hs)|].
      apply distance_next; [done|done|]. simpl. intros ->. congruence.
    + assert (j <> k) as Hne by congruence.
      destruct (lookup_lt_is_Some_2 ps j) as [p' Hp']; [lia|].
      use Hv (visit_spec j _ _ _ _ _ Hs Hp'). case_decide as Hd; destruct Hv as [Hv0 Hv]; [|done].
      split; [|by apply distance_next]. eapply (keeps_continue _ _ _ _ (scheduled p') _ _ _ k p); try done.
      * apply list_lookup_insert_eq. lia.
      * by apply (sched_pick ps np ini j).
      * by rewrite list_lookup_insert_ne.
    + assert (j <> k) as Hne by congruence.
      destruct (lookup_lt_is_Some_2 ps j) as [p' Hp']; [lia|].
      use Hv (visit_spec j _ _ _ _ _ Hs Hp'). case_decide as Hd; destruct Hv as [Hv0 Hv]; [|done].
      split; [|by apply distance_next]. change (runnable k s2). eapply (keeps_continue _ _ _ _ (scheduled p') _ _ _ k p); try done.
      * apply list_lookup_insert_eq. lia.
      * by apply (sched_pick ps np ini j).
      * by rewrite list_lookup_insert_ne.
    + use H (next_pass_spec _ _ _ _ Hs). split; [exists p; by rewrite (at_procs _ _ _ _ _ _ H)|].
      by apply distance_wrap.
Qed.
End invariant.

(** ** Theorems *)

Section theorems.
Context {K : Type} `{KS : KernelServices K} `{!ServicesReturn K}.
Implicit Types s : kst (K := K).

Definition used (p : proc) : Prop := p_state p <> UNUSED.

(** C7: In every state that processes and the scheduler reach by any interleaving of
    [fork], [wait], [exit], [kill], [sleep], [wakeup], [yield], [nice] and scheduling
    from a sound state: used slots have distinct positive pids; a process is RUNNING
    exactly when the CPU runs it; [ptable.lock] is free while a process runs and held
    by the scheduler otherwise; the first process is alive; and every zombie other than
    it has a living parent, which can therefore collect it.  An operation is one step: a
    timer interrupt inside [fork], which gives up the lock in between, is not modelled; and
    [fork] runs while [nextpid] is below 2^31 - 1, which the code does not check. *)
Theorem process_table_invariant x ls s m :
  sys_ok x -> ktrace (K := K) x ls (s, m) ->
  (forall i j p q, procs s !! i = Some p -> procs s !! j = Some q -> used p -> used q ->
     0 < p_pid p /\ (p_pid p = p_pid q -> i = j)) /\
  (forall i p, procs s !! i = Some p -> p_state p = RUNNING <-> m = Run i) /\
  (match m with Run i => lock_free s /\ cur s = Some i | Sched _ => lock_held s /\ cur s = None end) /\
  (exists i p, initproc s = Some i /\ procs s !! i = Some p /\ life_of (p_state p) = Alive) /\
  (forall i p, procs s !! i = Some p -> p_state p = ZOMBIE -> initproc s <> Some i ->
     exists k q, p_parent p = Some k /\ procs s !! k = Some q /\ life_of (p_state q) = Alive).
Proof.
  intros Hx Htr. destruct (ktrace_ok _ _ _ Hx Htr) as (ps & np & ini & Hs & [Ht _ _ Hr] & _).
  simpl in *. destruct Hs as [E1 E2 E3 E4 Hl]. rewrite E1, E3.
  assert (forall i p, ps !! i = Some p -> used p -> sh_life (shape_of p) <> Unused) as Hu.
  { intros i p _ Hp. unfold used in Hp. simpl. by destruct (p_state p). }
  split; [|split; [|split; [|split]]].
  - intros i j p q Hi Hj Hp Hq. split.
    + apply (to_pid _ _ _ Ht i (shape_of p)); [by apply lookup_shape|by eapply Hu].
    + intros E. eapply (to_uniq _ _ _ Ht i j (shape_of p) (shape_of q)); [by apply lookup_shape..|by eapply Hu|by eapply Hu|done].
  - intros i p Hi. rewrite (Hr i p Hi). destruct m; simpl; split; congruence.
  - destruct m; simpl in *; by rewrite E4.
  - destruct (to_init _ _ _ Ht) as (i & y & -> & Hy & Hya). rewrite list_lookup_fmap in Hy.
    destruct (ps !! i) as [p|] eqn:Hp; [|done]. injection Hy as <-. by exists i, p.
  - intros i p Hi Hz Hini.
    assert (sh_parent (shape_of p) <> None) as Hpar.
    { apply (to_child _ _ _ Ht i); [by apply lookup_shape|simpl; by rewrite Hz|done]. }
    destruct (p_parent p) as [k|] eqn:Hk; [|by rewrite <-Hk in Hpar].
    destruct (to_parent _ _ _ Ht i (shape_of p) k) as (y & Hy & Hya); [by apply lookup_shape|done|].
    rewrite list_lookup_fmap in Hy. destruct (ps !! k) as [q|] eqn:Hq; [|done]. injection Hy as <-.
    by exists k, q.
Qed.

(** C27: Bounded waiting: in any run from a sound state, a process that is RUNNABLE is
    picked before the scheduler has made more than [NPROC] further moves (visits to
    slots or starts of a pass), whatever the nice values and tick counts are: the
    scheduler is a plain round robin. *)
Theorem scheduler_bounded_waiting x ls y k :
  sys_ok x -> ktrace (K := K) x ls y -> (k < NPROC)%nat -> runnable k (fst x) ->
  (NPROC < length (filter (fun l => is_sched l = true) ls))%nat -> LVisit k true ∈ ls.
Proof.
  intros Hx Htr Hk Hr Hlen.
  assert (distance k (snd x) < length (filter (fun l => is_sched l = true) ls))%nat as Hd.
  { destruct Hx as (ps & np & ini & _ & _ & Hp). unfold distance.
    destruct (decide (mode_pos (snd x) <= k)%nat); lia. }
  clear Hlen. induction Htr as [x|x l y ls z Hst Htr IH]; [simpl in Hd; lia|].
  destruct (decide (l = LVisit k true)) as [->|Hne]; [by left|]. right.
  destruct (kstep_waiting _ _ _ _ Hx Hst Hk Hr Hne) as [Hr' Hle].
  apply IH; [by eapply kstep_ok|done|]. rewrite filter_cons in Hd.
  destruct (is_sched l); simpl in *; lia.
Qed.

(** [fork] by the running process either fails with -1, leaving every used slot as
    it was, or returns the new pid and fills one unused slot with a RUNNABLE child: its
    parent is the caller, it has the caller's size, directory, name, registers and open
    files, its saved %eax is 0 so that [fork] returns 0 there, and its scheduling data
    is fresh; no other slot changes. *)
Theorem fork_creates_child s i p :
  sys_ok (s, Run i) -> procs s !! i = Some p ->
  wp fork (fun r s' =>
    (r = -1 /\ forall j q, procs s !! j = Some q -> used q -> procs s' !! j = Some q) \/
    (r = nextpid s /\ exists j q0 q, procs s !! j = Some q0 /\ p_state q0 = UNUSED /\
       child_of i p (nextpid s) q /\ procs s' = <[j := q]> (procs s))) s.
Proof.
  intros (ps & np & ini & Hs & Ht & Hi) Hp. simpl in *. pose proof Hs as [E1 E2 _ _ _].
  rewrite E1 in *. rewrite E2.
  assert (p_state p = RUNNING) as Hr by (by apply (tb_running _ _ _ _ Ht i p Hp)).
  eapply wp_mono; [eapply fork_spec; [done|done|by rewrite Hr|apply Ht]|].
  intros r s' [(-> & ps' & np' & Hs' & Hj & _)|(-> & j & q0 & q & Hj & Hu & Hc & Hs')].
  - left. split; [done|]. intros j q Hq Hqu. rewrite (at_procs _ _ _ _ _ _ Hs').
    destruct Hj as [->|(k & a & b & Hk & Ha & -> & _)]; [done|].
    rewrite list_lookup_insert_ne; [done|]. intros ->. unfold used in Hqu. congruence.
  - right. split; [done|]. exists j, q0, q. by rewrite (at_procs _ _ _ _ _ _ Hs').
Qed.

(** [wait] by the running process collects the first zombie child in the table
    (returns its pid and frees the slot), or returns -1 when it has no child left to
    wait for or was killed and no child is a zombie, or goes to sleep on its own slot
    with the lock handed to the scheduler; it changes no slot but the freed one or its
    own. *)
Theorem wait_collects s i :
  sys_ok (s, Run i) ->
  wp wait (fun r s' =>
    match r with
    | Some v =>
        (exists j p q, procs s !! j = Some p /\ zombie_child i p /\ v = p_pid p /\ freed q /\
           (forall k p', (k < j)%nat -> procs s !! k = Some p' -> ~ zombie_child i p') /\
           procs s' = <[j := q]> (procs s)) \/
        (v = -1 /\ Forall (fun p => ~ zombie_child i p) (procs s) /\ procs s' = procs s /\
         (Forall (fun p => p_parent p <> Some i) (procs s) \/
          exists p, procs s !! i = Some p /\ p_killed p <> 0))
    | None =>
        Forall (fun p => ~ zombie_child i p) (procs s) /\
        Exists (fun p => p_parent p = Some i) (procs s) /\ lock_held s' /\
        exists p b, procs s !! i = Some p /\ p_killed p = 0 /\
          procs s' = <[i := set_ctx AtWait (set_intena b (set_state SLEEPING (set_chan (CProc i) p)))]> (procs s)
    end) s.
Proof.
  intros (ps & np & ini & Hs & Ht & Hi). simpl in *. pose proof Hs as [E1 _ _ _ _]. rewrite E1.
  destruct (running_alive _ _ _ _ Ht Hi) as (p & Hp & Hr).
  eapply wp_mono; [by eapply wait_spec|]. intros [v|] s' Hw; simpl in Hw.
  - destruct Hw as [(j & a & b & Hj & Hz & Hv & Hf & _ & Hmin & Hs')|(-> & Hnz & Hk & Hs')].
    + left. exists j, a, b. by rewrite (at_procs _ _ _ _ _ _ Hs').
    + right. by rewrite (at_procs _ _ _ _ _ _ Hs').
  - destruct Hw as (Hnz & Hex & a & b & Ha & Hk & Hs'). split; [done|]. split; [done|].
    split; [by destruct Hs'|]. exists a, b. by rewrite (at_procs _ _ _ _ _ _ Hs').
Qed.

(** [exit] by a running process other than the first: it ends as a ZOMBIE with its
    files closed, its children belong to the first process, its parent is RUNNABLE if
    it was sleeping in [wait] (with no sleep time left), and no other process changes
    but by such wake-ups; the first process panics instead. *)
Theorem exit_hands_over s i p :
  sys_ok (s, Run i) -> procs s !! i = Some p ->
  if decide (initproc s = Some i) then exit s = Panic "init exiting"
  else wp exit (fun _ s' => lock_held s' /\
    (exists q, procs s' !! i = Some q /\ p_state q = ZOMBIE /\ p_pid q = p_pid p /\
       p_ofile q = replicate NOFILE 0 /\ p_cwd q = 0) /\
    (forall j q, j <> i -> procs s !! j = Some q -> exists q', procs s' !! j = Some q' /\
       life_of (p_state q') = life_of (p_state q) /\ p_pid q' = p_pid q /\
       p_parent q' = (if decide (p_parent q = Some i) then initproc s else p_parent q) /\
       (p_state q = RUNNABLE -> p_state q' = RUNNABLE) /\
       (p_parent p = Some j -> p_state q = SLEEPING -> p_chan q = CProc j -> p_sleeptime q <= 0 ->
        p_state q' = RUNNABLE))) s.
Proof.
  intros (ps & np & ini & Hs & Ht & Hi) Hp. simpl in *. pose proof Hs as [E1 _ E3 _ _].
  rewrite E1 in *. rewrite E3.
  pose proof (to_len _ _ _ (tb_table _ _ _ _ Ht)) as Hl. rewrite length_fmap in Hl.
  destruct (decide (ini = Some i)) as [->|Hini]; [by eapply exit_init|].
  eapply wp_mono; [eapply exit_spec; [done|done|done|apply Ht|done]|].
  intros [] s' (ps' & q & b & Htr & Hq & Hs'). rewrite (at_procs _ _ _ _ _ _ Hs').
  split; [by destruct Hs'|]. split.
  - eexists. split; [apply list_lookup_insert_eq; by eapply lookup_lt_Some|]. simpl.
    destruct (tracks_back _ _ _ _ _ Htr Hq) as (z & Hz & Hw).
    rewrite list_lookup_fmap, list_lookup_insert_eq in Hz by lia. apply Some_inj in Hz as <-.
    set (closed := set_cwd 0 (set_ofile (replicate NOFILE 0) p)) in *.
    assert (forall w, p_cwd (wake (chan_of (p_parent p)) w) = p_cwd w /\ p_pid (wake (chan_of (p_parent p)) w) = p_pid w) as Hwk
      by (intros w; unfold wake; by repeat case_match).
    assert (forall w, p_cwd (reparent i ini w) = p_cwd w) as Hrc by (intros w; unfold reparent; by case_bool_decide).
    pose proof (wk_same _ _ Hw) as E. split; [done|]. split; [|split].
    + apply (f_equal p_pid) in E. simpl in E. rewrite E.
      destruct (reparent_same i ini (wake (chan_of (p_parent p)) closed)) as (_ & _ & _ & ->). exact (proj2 (Hwk closed)).
    + rewrite (wk_ofile _ _ Hw). destruct (reparent_same i ini (wake (chan_of (p_parent p)) closed)) as (_ & -> & _).
      exact (wake_ofile _ closed).
    + apply (f_equal p_cwd) in E. simpl in E. rewrite E, Hrc. exact (proj1 (Hwk closed)).
  - intros j x Hj Hx. rewrite list_lookup_insert_ne by done.
    destruct (proj2 Htr j (wake (chan_of (p_parent p)) x)) as (y & Hy & Hw).
    { by rewrite list_lookup_fmap, list_lookup_insert_ne, Hx by done. }
    exists y. split; [done|]. pose proof (wk_shape _ _ Hw) as Esh.
    pose proof (woken_wake (chan_of (p_parent p)) x) as Hw1. pose proof (wk_shape _ _ Hw1) as Esh1.
    rewrite reparent_shape, Esh1 in Esh.
    pose proof (adopt_life i ini (shape_of x)) as [A1 A2].
    apply (f_equal (fun z => (sh_life z, sh_pid z, sh_parent z))) in Esh. simpl in Esh.
    rewrite A1, A2 in Esh. injection Esh as L1 L2 L3. split; [done|]. split; [done|].
    split; [|split].
    + rewrite L3. unfold adopt. simpl. by case_bool_decide; case_decide.
    + intros Hr. apply (wk_runnable _ _ Hw). rewrite (proj1 (reparent_same _ _ _)).
      by apply (wk_runnable _ _ Hw1).
    + intros Hpar Hsl Hch Htime. apply (wk_runnable _ _ Hw). rewrite (proj1 (reparent_same _ _ _)).
      rewrite Hpar. unfold wake. simpl. rewrite Hsl, Hch, !bool_decide_true by done.
      rewrite (proj2 (Z.leb_le _ _) Htime). done.
Qed.
End theorems.

(** A process that sleeps in [sleep(n)] counts every wake-up of any channel as a
    tick: after [n] wake-ups, whatever their channels, it is still asleep, and the next
    wake-up of the tick channel makes it RUNNABLE. With timer ticks alone it therefore
    runs after [n + 1] ticks, and other wake-ups shorten its sleep. *)
Theorem sleep_counts_wakeups (cs : list chan) (p : proc) :
  p_state p = SLEEPING -> p_chan p = CTicks -> p_sleeptime p = Z.of_nat (length cs) ->
  let q := fold_left (fun p c => wake c p) cs p in
  p_state q = SLEEPING /\ p_sleeptime q = 0 /\ p_state (wake CTicks q) = RUNNABLE.
Proof.
  intros Hst Hch Hn q. assert (p_state q = SLEEPING /\ p_sleeptime q = 0 /\ p_chan q = CTicks) as (H1 & H2 & H3).
  { unfold q. clear q. revert p Hst Hch Hn. induction cs as [|c cs IH]; intros p Hst Hch Hn; [done|].
    rewrite length_cons, Nat2Z.inj_succ in Hn. cbn [fold_left].
    assert (wake c p = set_sleeptime (p_sleeptime p - 1) p) as ->.
    { unfold wake. rewrite (proj2 (Z.leb_gt _ _)), andb_false_r by lia. by rewrite (proj2 (Z.ltb_lt _ _)) by lia. }
    apply IH; simpl; [done|done|lia]. }
  split; [done|]. split; [done|]. unfold wake. rewrite H1, H2, H3. done.
Qed.

(** ** A concrete kernel *)

(** Services that always succeed, for examples. *)
#[export] Instance example_services : KernelServices unit := {
  kalloc := ret 4096; kfree _ := ret tt; setupkvm := ret 8192; inituvm _ := ret tt;
  copyuvm _ _ := ret 8192; freevm _ := ret tt; allocuvm _ _ n := ret n; deallocuvm _ _ n := ret n;
  filedup f := ret f; fileclose _ := ret tt; idup i := ret i; iput_op _ := ret tt;
  namei_root := ret 1;
}.
#[export] Instance example_services_return : ServicesReturn unit.
Proof. by split. Qed.

Definition boot_proc : proc :=
  Proc 4096 8192 4096 RUNNING 1 None zero_tf AtForkret false CNull 0 (replicate NOFILE 0) 1 initcode_name 0 0 0 1.
Definition boot_kernel : kst (K := unit) :=
  Kst (boot_proc :: replicate 63 zero_proc) 2 (Some 0%nat) (Some 0%nat) (Cpu 0 true true) initlock tt.

Lemma boot_slots j p : procs boot_kernel !! j = Some p ->
  (j = 0%nat /\ p = boot_proc) \/ (p = zero_proc /\ j <> 0%nat).
Proof.
  simpl. destruct j as [|j]; simpl; [intros [= <-]; by left|].
  intros Hj. right. change (replicate 63 zero_proc !! j = Some p) in Hj.
  by apply lookup_replicate_1 in Hj as [-> _].
Qed.

Lemma boot_ok : sys_ok (boot_kernel, Run 0).
Proof.
  eexists _, _, _. split; [by split|]. split; [|unfold NPROC; simpl; lia].
  assert (forall i x, (shape_of <$> procs boot_kernel) !! i = Some x ->
    (i = 0%nat /\ x = shape_of boot_proc) \/ (x = shape_of zero_proc /\ i <> 0%nat)) as Hsh.
  { intros i x. rewrite list_lookup_fmap. destruct (procs boot_kernel !! i) as [p|] eqn:E; [|done].
    intros [= <-]. destruct (boot_slots i p E) as [[-> ->]|[-> ?]]; [by left|by right]. }
  split.
  - split.
    + done.
    + done.
    + intros i x [[-> ->]|[-> ?]]%Hsh Hl; simpl in *; [lia|done].
    + intros i j x y [[-> ->]|[-> ?]]%Hsh [[-> ->]|[-> ?]]%Hsh; simpl; try done.
    + intros i x [[-> ->]|[-> ?]]%Hsh; done.
    + intros i x [[-> ->]|[-> ?]]%Hsh; done.
    + intros i x k [[-> ->]|[-> ?]]%Hsh; done.
    + intros i x [[-> ->]|[-> ?]]%Hsh; done.
    + by exists 0%nat, (shape_of boot_proc).
  - apply Forall_lookup. intros i p [[-> ->]|[-> ?]]%boot_slots; done.
  - apply Forall_lookup. intros i p [[-> ->]|[-> ?]]%boot_slots; done.
  - intros i p [[-> ->]|[-> ?]]%boot_slots; simpl; split; congruence.
Qed.

(** [kill(0)] finds an unused slot (its pid is 0), reports success and marks the
    slot; [allocproc] does not clear the mark, so the next [fork] that takes the slot
    returns a child that is already killed. *)
Theorem kill_zero_kills_next_child :
  wp (kill 0 ;;; fork) (fun pid s' =>
    pid = 2 /\ exists q, procs s' !! 1%nat = Some q /\ p_pid q = 2 /\ p_state q = RUNNABLE /\ p_killed q = 1)
    boot_kernel.
Proof. vm_compute. split; [done|]. eexists. done. Qed.

(** ** Witnesses *)

Lemma process_table_invariant_witness :
  exists i p, initproc boot_kernel = Some i /\ procs boot_kernel !! i = Some p /\ life_of (p_state p) = Alive.
Proof.
  apply (process_table_invariant (boot_kernel, Run 0) [] boot_kernel (Run 0)).
  - exact boot_ok.
  - apply kt_nil.
Defined.

Lemma fork_creates_child_witness :
  wp fork (fun r s' => r = -1 \/ r = 2) boot_kernel.
Proof.
  eapply wp_mono; [apply (fork_creates_child boot_kernel 0 boot_proc)|].
  - exact boot_ok.
  - reflexivity.
  - intros r s' [[H _]|[H _]]; [left|right]; exact H.
Defined.

Lemma wait_collects_witness : wp wait (fun r s' => r <> None) boot_kernel.
Proof.
  eapply wp_mono; [apply (wait_collects boot_kernel 0)|].
  - exact boot_ok.
  - intros [v|] s' H; [discriminate|]. destruct H as (_ & H & _). exfalso.
    apply Exists_exists in H as (p & Hp & Hk). apply list_elem_of_lookup in Hp as [j Hj].
    destruct (boot_slots j p Hj) as [[_ ->]|[-> _]]; discriminate.
Defined.

Lemma exit_hands_over_witness : exit boot_kernel = Panic "init exiting".
Proof.
  apply (exit_hands_over boot_kernel 0 boot_proc).
  - exact boot_ok.
  - reflexivity.
Defined.

Lemma sleep_counts_wakeups_witness :
  p_state (wake CTicks (wake CTicks (set_sleeptime 1 (set_chan CTicks (set_state SLEEPING boot_proc))))) = RUNNABLE.
Proof.
  apply (sleep_counts_wakeups [CTicks] (set_sleeptime 1 (set_chan CTicks (set_state SLEEPING boot_proc)))).
  - reflexivity.
  - reflexivity.
  - reflexivity.
Defined.

(** The first process has yielded; a whole pass follows before it is picked again. *)
Definition after_yield : kst (K := unit) :=
  match yield boot_kernel with Ret _ s' => set_cur None s' | _ => boot_kernel end.
Definition after_pass : kst (K := unit) :=
  match next_pass after_yield with Ret _ s' => s' | _ => boot_kernel end.
Definition after_pick : kst (K := unit) :=
  match (visit 0 ;;; continue) after_pass with Ret _ s' => s' | _ => boot_kernel end.

Lemma ktrace_app x ls y ls' z : ktrace (K := unit) x ls y -> ktrace y ls' z -> ktrace x (ls ++ ls') z.
Proof. induction 1; [done|]. intros. simpl. by eapply kt_cons; [done|auto]. Qed.

Lemma skips n j (s : kst (K := unit)) :
  Forall (fun i => visit i s = Ret false s) (seq j n) -> (j + n <= NPROC)%nat ->
  ktrace (s, Sched j) ((fun i => LVisit i false) <$> seq j n) (s, Sched (j + n)).
Proof.
  revert j. induction n as [|n IH]; intros j Hv Hle; simpl.
  - rewrite Nat.add_0_r. apply kt_nil.
  - apply Forall_cons in Hv as [Hv Hvs]. eapply kt_cons; [eapply ks_skip; [done|lia]|].
    replace (j + S n)%nat with (S j + n)%nat by lia. apply IH; [done|lia].
Qed.

Lemma after_yield_ok : sys_ok (after_yield, Sched 1).
Proof. eapply kstep_ok; [exact boot_ok|]. eapply ks_yield. reflexivity. Qed.

Definition pass_labels : list label :=
  ((fun i => LVisit i false) <$> seq 1 63) ++ [LWrap; LVisit 0 true].

Lemma pass_trace : ktrace (after_yield, Sched 1) pass_labels (after_pick, Run 0).
Proof.
  apply (ktrace_app _ _ (after_yield, Sched 64)).
  - apply (skips 63 1); [|unfold NPROC; lia].
    repeat (apply Forall_cons_2; [vm_compute; reflexivity|]). apply Forall_nil_2.
  - eapply kt_cons; [apply (ks_wrap after_yield after_pass); vm_compute; reflexivity|].
    eapply kt_cons; [|apply kt_nil].
    eapply (ks_run _ 0 _ None); [vm_compute; reflexivity|unfold NPROC; lia|vm_compute; reflexivity].
Qed.

Lemma scheduler_bounded_waiting_witness : LVisit 0 true ∈ pass_labels.
Proof.
  apply (scheduler_bounded_waiting (after_yield, Sched 1) pass_labels (after_pick, Run 0) 0).
  - exact after_yield_ok.
  - exact pass_trace.
  - unfold NPROC. lia.
  - eexists. split; [vm_compute; reflexivity|reflexivity].
  - vm_compute. lia.
Defined.
