(* ===== verification/Trap.v ===== *)
(** * Traps and the return to user mode (p4: trap.c)

    [trap] is entered for a system call, an interrupt or an exception.  As in [Proc], it is
    split where the CPU switches: [trap] itself runs to its end or to the switch of [exit] or
    [yield]; a process that comes back from [yield] goes on with [trap_rest], and one whose
    system call is done with [syscall_return].  The handlers of the devices belong to other
    components: here they are a class, whose law is that they only wake processes up.  The
    machine has one CPU, so that [cpuid()] is 0 and the section under [tickslock] is atomic;
    messages on the console are left out.

    The theorems are about the whole machine: user code, traps, kernel code and the
    scheduler.  A process that was killed is never in user mode again once it has been in the
    kernel, and a tick in user mode preempts the process. *)

From S2P Require Import Prelude Locks Proc Sched Kernel.

Definition T_SYSCALL : Z := 64.
Definition T_IRQ0 : Z := 32.
Definition IRQ_TIMER : Z := 0.
Definition IRQ_KBD : Z := 1.
Definition IRQ_COM1 : Z := 4.
Definition IRQ_IDE : Z := 14.
Definition IRQ_SPURIOUS : Z := 31.
Definition DPL_USER : Z := 3.

(** What a trap came to: it goes on in [syscall], the process is gone, it has given up the CPU,
    or the interrupted code continues. *)
Inductive stop := Calls | Exits | Yields | Returns.

Class Handlers (K : Type) `{KernelServices K} := {
  ideintr : M (kst (K := K)) unit;
  kbdintr : M (kst (K := K)) unit;
  uartintr : M (kst (K := K)) unit;
}.

Section trap.
Context {K : Type} `{Handlers K}.

(** The kernel with [ticks] and the interrupts acknowledged so far. *)
Record tst := Tst { t_k : kst (K := K); t_ticks : Z; t_eoi : nat }.
Definition on_k {A} (m : M kst A) : M tst A := zoom t_k (fun k s => Tst k (t_ticks s) (t_eoi s)) m.
Definition lapiceoi : M tst unit := modify (fun s => Tst (t_k s) (t_ticks s) (S (t_eoi s))).

(** [(tf->cs&3) == DPL_USER] *)
Definition from_user (tf : trapframe) : bool := Z.land (tf_cs tf) 3 =? DPL_USER.

(** [if(myproc() && myproc()->killed && (tf->cs&3) == DPL_USER) exit();], and what follows *)
Definition check_killed (tf : trapframe) (rest : M tst stop) : M tst stop :=
  o <- on_k myproc ;;
  match o with
  | Some c =>
      p <- on_k (get_proc c) ;;
      if negb (p_killed p =? 0) && from_user tf then on_k exit ;;; ret Exits else rest
  | None => rest
  end.

(** [acquire(&tickslock); ticks++; wakeup(&ticks); release(&tickslock);] *)
Definition tick : M tst unit :=
  modify (fun s => Tst (t_k s) (u32 (t_ticks s + 1)) (t_eoi s)) ;;;
  on_k (wakeup CTicks).

(** The [switch] on the trap number. *)
Definition dispatch (trapno : Z) (tf : trapframe) : M tst unit :=
  if trapno =? T_IRQ0 + IRQ_TIMER then tick ;;; lapiceoi
  else if trapno =? T_IRQ0 + IRQ_IDE then on_k ideintr ;;; lapiceoi
  else if trapno =? T_IRQ0 + IRQ_IDE + 1 then ret tt
  else if trapno =? T_IRQ0 + IRQ_KBD then on_k kbdintr ;;; lapiceoi
  else if trapno =? T_IRQ0 + IRQ_COM1 then on_k uartintr ;;; lapiceoi
  else if (trapno =? T_IRQ0 + 7) || (trapno =? T_IRQ0 + IRQ_SPURIOUS) then lapiceoi
  else
    o <- on_k myproc ;;
    match o with
    | Some c =>
        panic_if (Z.land (tf_cs tf) 3 =? 0) "trap" ;;;
        on_k (upd_proc c (set_killed 1))
    | None => panic "trap"
    end.

(** "Check if the process has been killed since we yielded" *)
Definition trap_rest (tf : trapframe) : M tst stop := check_killed tf (ret Returns).

(** [if(myproc()->killed) exit();], and what follows *)
Definition exit_killed (rest : M tst stop) : M tst stop :=
  c <- on_k curproc ;;
  p <- on_k (get_proc c) ;;
  if negb (p_killed p =? 0) then on_k exit ;;; ret Exits else rest.
Definition syscall_return : M tst stop := exit_killed (ret Returns).

Definition trap (trapno : Z) (tf : trapframe) : M tst stop :=
  if trapno =? T_SYSCALL then
    exit_killed (
      c <- on_k curproc ;;
      on_k (upd_proc c (set_tf tf)) ;;;
      ret Calls)
  else
    dispatch trapno tf ;;;
    check_killed tf (
      o <- on_k myproc ;;
      match o with
      | Some c =>
          p <- on_k (get_proc c) ;;
          if is_state RUNNING p && (trapno =? T_IRQ0 + IRQ_TIMER) then on_k yield ;;; ret Yields
          else trap_rest tf
      | None => trap_rest tf
      end).

(** The window of [scheduler] between two passes, in which an interrupt may come: [release],
    [sti()], the interrupt, [acquire]. *)
Definition idle (trapno : Z) (tf : trapframe) : M tst stop :=
  on_k (release_pt ;;; modify (fun s => set_locks (Cpu (ncli (kcpu s)) (intena (kcpu s)) true) (ptlock s) s)) ;;;
  o <- trap trapno tf ;;
  on_k acquire_pt ;;;
  ret o.
End trap.

(** ** The machine *)

(** Where a process is: in user mode and never trapped since it was created; in user mode; in
    a system call; in a trap that has yielded. *)
Inductive loc := New | User | InCall | InYield.
#[export] Instance loc_eq_dec : EqDecision loc.
Proof. solve_decision. Defined.
Definition in_user (l : loc) : bool := bool_decide (l = New) || bool_decide (l = User).

Inductive event := EUser (i : nat) | ETrap (i : nat) (trapno : Z) (o : stop) | EKernel | ESched (l : label) | EIdle.

Section machine.
Context {K : Type} `{Handlers K}.

Record machine := Machine { m_st : tst (K := K); m_mode : mode; m_loc : nat -> loc }.
Definition m_sys (x : machine) : state := (t_k (m_st x), m_mode x).

(** The location of one process changes. *)
Definition move (i : nat) (l : loc) (f : nat -> loc) : nat -> loc := fun j => if decide (j = i) then l else f j.

(** The machine after a trap of process [i] whose user code is at [l] when it returns. *)
Definition after_trap (i : nat) (o : stop) (s : tst) (back : loc) (f : nat -> loc) : machine :=
  match o with
  | Calls => Machine s (Run i) (move i InCall f)
  | Returns => Machine s (Run i) (move i back f)
  | Yields => Machine (Tst (set_cur None (t_k s)) (t_ticks s) (t_eoi s)) (Sched (S i)) (move i (if in_user back then InYield else back) f)
  | Exits => Machine (Tst (set_cur None (t_k s)) (t_ticks s) (t_eoi s)) (Sched (S i)) (move i InCall f)
  end.

(** A slot that [fork] has filled is a new process. *)
Definition births (k k' : kst (K := K)) (f : nat -> loc) : nat -> loc := fun j =>
  match procs k !! j, procs k' !! j with
  | Some p, Some q => if is_state UNUSED p && is_state RUNNABLE q then New else f j
  | _, _ => f j
  end.

Inductive mstep : machine -> event -> machine -> Prop :=
| ms_user s i f : in_user (f i) = true -> mstep (Machine s (Run i) f) (EUser i) (Machine s (Run i) f)
| ms_trap s i f n tf o s' : in_user (f i) = true -> from_user tf = true -> trap n tf s = Ret o s' ->
    mstep (Machine s (Run i) f) (ETrap i n o) (after_trap i o s' User f)
| ms_nested s i f n tf o s' : in_user (f i) = false -> from_user tf = false -> n <> T_SYSCALL -> trap n tf s = Ret o s' ->
    mstep (Machine s (Run i) f) (ETrap i n o) (after_trap i o s' (f i) f)
| ms_kernel s i f k' m' : f i = InCall -> kstep (t_k s, Run i) LProc (k', m') ->
    mstep (Machine s (Run i) f) EKernel (Machine (Tst k' (t_ticks s) (t_eoi s)) m' (births (t_k s) k' f))
| ms_call_done s i f o s' : f i = InCall -> syscall_return s = Ret o s' ->
    mstep (Machine s (Run i) f) (ETrap i T_SYSCALL o) (after_trap i o s' User f)
| ms_resume s i f n tf o s' : f i = InYield -> from_user tf = true -> trap_rest tf s = Ret o s' ->
    mstep (Machine s (Run i) f) (ETrap i n o) (after_trap i o s' User f)
| ms_sched s j f l k' m' : kstep (t_k s, Sched j) l (k', m') ->
    mstep (Machine s (Sched j) f) (ESched l) (Machine (Tst k' (t_ticks s) (t_eoi s)) m' f)
| ms_idle s f n tf s' : from_user tf = false -> n <> T_SYSCALL -> idle n tf s = Ret Returns s' ->
    mstep (Machine s (Sched NPROC) f) EIdle (Machine s' (Sched 0) f).

Inductive mtrace : machine -> list event -> machine -> Prop :=
| mt_nil x : mtrace x [] x
| mt_cons x e y es z : mstep x e y -> mtrace y es z -> mtrace x (e :: es) z.
End machine.

(** ** Partial correctness *)

Section wlp.
Context {S : Type}.
(** If [m] returns, then in [Q]. *)
Definition wlp {A} (m : M S A) (Q : A -> S -> Prop) (s : S) : Prop := forall a s', m s = Ret a s' -> Q a s'.

Lemma wlp_bind {A B} (m : M S A) (k : A -> M S B) Q s : wlp m (fun a s' => wlp (k a) Q s') s -> wlp (bind m k) Q s.
Proof. intros H b s' (a & s1 & E1 & E2)%bind_Ret. exact (H a s1 E1 b s' E2). Qed.
Lemma wlp_ret {A} (a : A) (Q : A -> S -> Prop) s : Q a s -> wlp (ret a) Q s.
Proof. by intros HQ ? ? [= <- <-]. Qed.
Lemma wlp_wp {A} (m : M S A) (Q : A -> S -> Prop) s : wp m Q s -> wlp m Q s.
Proof. intros H a s'. by apply wp_use. Qed.
Lemma wlp_mono {A} (m : M S A) (Q Q' : A -> S -> Prop) s : wlp m Q s -> (forall a s', Q a s' -> Q' a s') -> wlp m Q' s.
Proof. intros H HQ a s' E. by apply HQ, H. Qed.
End wlp.

Lemma wlp_zoom {S T A} (get : S -> T) (put : T -> S -> S) (m : M T A) Q s : wlp m (fun a t => Q a (put t s)) (get s) -> wlp (zoom get put m) Q s.
Proof. intros H a s'. unfold zoom. destruct (m (get s)) as [x t| | | |] eqn:E; try done. intros [= <- <-]. by apply H. Qed.

(** ** Every trap keeps the process table *)

Section wakes.
Context {K : Type} `{KS : KernelServices K}.
(** Nothing but wake-ups, and the state of other components. *)
Inductive wakes : kst (K := K) -> kst (K := K) -> Prop :=
| wakes_env s e : wakes s (set_env e s)
| wakes_step s c s1 s2 : wakeup c s = Ret tt s1 -> wakes s1 s2 -> wakes s s2.
End wakes.

(** The law of the handlers. *)
Class HandlersWake (K : Type) `{Handlers K} : Prop := {
  ideintr_wakes s s' : ideintr s = Ret tt s' -> wakes s s';
  kbdintr_wakes s s' : kbdintr s = Ret tt s' -> wakes s s';
  uartintr_wakes s s' : uartintr s = Ret tt s' -> wakes s s';
}.

Section keep.
Context {K : Type} `{KS : KernelServices K} `{!ServicesReturn K} `{HD : !Handlers K} `{!HandlersWake K}.
Implicit Types s : kst (K := K).

(** The table is sound and the lock free. *)
Definition free_ok (cu : option nat) s : Prop :=
  exists ps np ini, at_ ps np ini cu false s /\ tbl_ok ps np ini cu /\ forall c, cu = Some c -> (c < NPROC)%nat.

Lemma free_run i s : sys_ok (s, Run i) <-> free_ok (Some i) s.
Proof.
  split.
  - intros (ps & np & ini & H1 & H2 & H3). cbn [snd mode_pos fst] in *. exists ps, np, ini. split_and!; [done|done|]. intros c [= <-]. lia.
  - intros (ps & np & ini & H1 & H2 & H3). exists ps, np, ini. cbn. specialize (H3 i eq_refl). split_and!; [done|done|lia].
Qed.

(** Who was killed stays so. *)
Definition grim s0 s : Prop := forall i p, procs s0 !! i = Some p -> p_killed p <> 0 -> exists q, procs s !! i = Some q /\ p_killed q <> 0.
Definition kept (cu : option nat) s0 s : Prop := free_ok cu s /\ grim s0 s.

Lemma kept_self cu s : free_ok cu s -> kept cu s s.
Proof. intros H. split; [done|]. intros i p Hp Hk. by exists p. Qed.
Lemma grim_trans s1 s2 s3 : grim s1 s2 -> grim s2 s3 -> grim s1 s3.
Proof. intros H1 H2 i p Hp Hk. destruct (H1 i p Hp Hk) as (q & Hq & Hk'). by eapply H2. Qed.

Lemma wakeup_kept c cu s0 s : kept cu s0 s -> wp (wakeup c) (fun _ s' => kept cu s0 s') s.
Proof.
  intros [(ps & np & ini & H1 & H2 & H3) Hg]. eapply wp_mono; [by apply wakeup_spec|]. intros [] s' H. split.
  - exists (wake c <$> ps), np, ini. split_and!; [done|by apply tbl_wake|done].
  - eapply grim_trans; [exact Hg|]. intros i p Hp Hk. rewrite (at_procs _ _ _ _ _ _ H). rewrite (at_procs _ _ _ _ _ _ H1) in Hp. exists (wake c p). rewrite list_lookup_fmap, Hp. split; [done|].
    rewrite (wk_same _ _ (woken_wake c p)). done.
Qed.
Lemma wakes_kept cu s0 s s' : wakes s s' -> kept cu s0 s -> kept cu s0 s'.
Proof.
  induction 1 as [s e|s c s1 s2 H _ IH]; intros Hs.
  - destruct Hs as [(ps & np & ini & [? ? ? ? ?] & H2) Hg]. split; [by exists ps, np, ini|done].
  - apply IH. exact (wp_use _ _ _ _ _ (wakeup_kept c _ _ _ Hs) H).
Qed.

(** The running process, and a field that the table does not care about. *)
Lemma free_cur c s : free_ok (Some c) s -> cur s = Some c /\ exists p, procs s !! c = Some p /\ p_state p = RUNNING.
Proof.
  intros (ps & np & ini & H1 & H2 & H3). split; [by apply (at_cur _ _ _ _ _ _ H1)|]. rewrite (at_procs _ _ _ _ _ _ H1). by apply (running_alive _ _ _ _ H2), H3.
Qed.
Lemma upd_free c f s : free_ok (Some c) s ->
  (forall p, shape_of (f p) = shape_of p /\ p_ofile (f p) = p_ofile p /\ p_ctx (f p) = p_ctx p /\ p_state (f p) = p_state p) ->
  wp (upd_proc c f) (fun _ s' => free_ok (Some c) s' /\ exists p, procs s !! c = Some p /\ procs s' = <[c := f p]> (procs s)) s.
Proof.
  intros (ps & np & ini & H1 & H2 & H3) Hf. destruct (running_alive ps np ini c H2 (H3 c eq_refl)) as (p & Hp & Hr).
  eapply wp_upd_proc; [done|done|]. intros s' Hs'. rewrite (at_procs _ _ _ _ _ _ Hs'), (at_procs _ _ _ _ _ _ H1). split.
  - exists (<[c := f p]> ps), np, ini. split_and!; [done| |done]. destruct (Hf p) as (? & ? & ? & E). apply (tbl_same _ _ _ _ _ p); try done. by rewrite E.
  - by exists p.
Qed.

Lemma wp_myproc s (Q : option nat -> kst -> Prop) : Q (cur s) s -> wp myproc Q s.
Proof. done. Qed.
Lemma wp_cur c s (Q : nat -> kst -> Prop) : free_ok (Some c) s -> Q c s -> wp curproc Q s.
Proof. intros [E _]%free_cur HQ. unfold curproc, myproc. wp_steps. by rewrite E. Qed.
Lemma wp_cur_proc c s (Q : proc -> kst -> Prop) : free_ok (Some c) s -> (forall p, procs s !! c = Some p -> p_state p = RUNNING -> Q p s) -> wp (get_proc c) Q s.
Proof. intros (_ & p & Hp & Hr)%free_cur HQ. unfold get_proc. wp_steps. cbn [id]. rewrite Hp. by apply HQ. Qed.

Implicit Types t : tst (K := K).

Lemma wlp_on_k {A} (m : M kst A) (Q : A -> tst -> Prop) t : wlp m (fun a k => Q a (Tst k (t_ticks t) (t_eoi t))) (t_k t) -> wlp (on_k m) Q t.
Proof. intros H. unfold on_k. by apply wlp_zoom. Qed.
Lemma wlp_on_wp {A} (m : M kst A) (Q : A -> tst -> Prop) t : wp m (fun a k => Q a (Tst k (t_ticks t) (t_eoi t))) (t_k t) -> wlp (on_k m) Q t.
Proof. intros H. by apply wlp_on_k, wlp_wp. Qed.

Lemma eoi_kept cu s0 t : kept cu s0 (t_k t) -> wlp lapiceoi (fun _ t' => kept cu s0 (t_k t')) t.
Proof. by intros Ht ? ? [= <- <-]. Qed.

Lemma handler_kept cu s0 (m : M kst unit) t : (forall s s', m s = Ret tt s' -> wakes s s') -> kept cu s0 (t_k t) ->
  wlp (on_k m ;;; lapiceoi) (fun _ t' => kept cu s0 (t_k t')) t.
Proof. intros Hm Ht. apply wlp_bind, wlp_on_k. intros [] s' E. apply eoi_kept. cbn. eapply wakes_kept; [by apply Hm|done]. Qed.

Lemma tick_kept cu s0 t : kept cu s0 (t_k t) -> wlp tick (fun _ t' => kept cu s0 (t_k t')) t.
Proof.
  intros Ht. unfold tick. apply wlp_bind. intros [] s' [= <-]. apply wlp_on_wp. eapply wp_mono; [by apply (wakeup_kept CTicks cu s0)|]. by intros [] k.
Qed.

Lemma dispatch_kept cu s0 n tf t : kept cu s0 (t_k t) -> wlp (dispatch n tf) (fun _ t' => kept cu s0 (t_k t')) t.
Proof using HandlersWake0 ServicesReturn0.
  intros Ht. unfold dispatch. repeat case_match.
  - apply wlp_bind. eapply wlp_mono; [by apply (tick_kept cu s0)|]. intros [] t' H'. by apply eoi_kept.
  - apply handler_kept; [apply ideintr_wakes|done].
  - by apply wlp_ret.
  - apply handler_kept; [apply kbdintr_wakes|done].
  - apply handler_kept; [apply uartintr_wakes|done].
  - by apply eoi_kept.
  - apply wlp_bind, wlp_on_wp, wp_myproc. destruct (cur (t_k t)) as [c|] eqn:Ec; [|by intros ? ?]. destruct Ht as [Ht Hg].
    assert (cu = Some c) as -> by (destruct Ht as (ps & np & ini & Hat & _); rewrite <-(at_cur _ _ _ _ _ _ Hat); done).
    apply wlp_bind. unfold panic_if. case_match; [by intros ? ?|]. apply wlp_ret, wlp_on_wp. eapply wp_mono; [by apply (upd_free c (set_killed 1))|].
    intros [] k (Hk & p & Hp & Ek). split; [done|]. eapply grim_trans; [exact Hg|]. intros i q Hq Hkq. cbn [t_k]. rewrite Ek. destruct (decide (i = c)) as [->|Hne].
    + exists (set_killed 1 p). rewrite list_lookup_insert_eq by (by eapply lookup_lt_Some). by split.
    + exists q. by rewrite list_lookup_insert_ne.
Qed.

(** What a trap leaves behind. *)
Definition stopped (i : nat) (o : stop) (k : kst (K := K)) : Prop :=
  match o with Calls | Returns => free_ok (Some i) k | Yields | Exits => sys_ok (set_cur None k, Sched (S i)) end.
Definition alive_in_user (i : nat) (tf : trapframe) (o : stop) (k : kst (K := K)) : Prop :=
  o = Returns -> from_user tf = true -> exists p, procs k !! i = Some p /\ p_killed p = 0.
Definition trap_post (i : nat) (tf : trapframe) (o : stop) t : Prop := stopped i o (t_k t) /\ alive_in_user i tf o (t_k t).

Lemma exit_stops i tf t : free_ok (Some i) (t_k t) -> wlp (on_k exit ;;; ret Exits) (trap_post i tf) t.
Proof.
  intros Ht. apply wlp_bind, wlp_on_k. intros [] k E. apply wlp_ret. split; [|done]. cbn. apply free_run in Ht.
  exact (kstep_ok _ _ _ Ht (ks_exit _ _ _ E)).
Qed.
Lemma yield_stops i tf t : free_ok (Some i) (t_k t) -> wlp (on_k yield ;;; ret Yields) (trap_post i tf) t.
Proof.
  intros Ht. apply wlp_bind, wlp_on_k. intros [] k E. apply wlp_ret. split; [|done]. cbn. apply free_run in Ht.
  exact (kstep_ok _ _ _ Ht (ks_yield _ _ _ E)).
Qed.

Lemma check_killed_spec i tf rest t : free_ok (Some i) (t_k t) ->
  ((forall p, procs (t_k t) !! i = Some p -> from_user tf = true -> p_killed p = 0) -> wlp rest (trap_post i tf) t) -> wlp (check_killed tf rest) (trap_post i tf) t.
Proof.
  intros Ht Hrest. pose proof (free_cur _ _ Ht) as [Ec (p & Hp & _)]. unfold check_killed. apply wlp_bind, wlp_on_wp, wp_myproc. rewrite Ec.
  apply wlp_bind, wlp_on_wp, (wp_cur_proc i); [done|]. intros q Hq _. destruct t as [k tk e]. cbn [t_k t_ticks t_eoi] in *.
  destruct (Z.eqb_spec (p_killed q) 0) as [Ek|Ek]; cbn [negb andb].
  - apply Hrest. intros x Hx _. by simplify_eq.
  - destruct (from_user tf) eqn:Eu; [by apply exit_stops|]. by apply Hrest.
Qed.

Lemma rest_spec i tf t : free_ok (Some i) (t_k t) -> wlp (trap_rest tf) (trap_post i tf) t.
Proof.
  intros Ht. apply check_killed_spec; [done|]. intros Hk. apply wlp_ret. split; [done|]. intros _ Hu. destruct (free_cur _ _ Ht) as [_ (p & Hp & _)]. exists p. split; [done|by apply Hk].
Qed.

Lemma exit_killed_spec i tf rest t : free_ok (Some i) (t_k t) ->
  ((exists p, procs (t_k t) !! i = Some p /\ p_killed p = 0) -> wlp rest (trap_post i tf) t) -> wlp (exit_killed rest) (trap_post i tf) t.
Proof.
  intros Ht Hrest. unfold exit_killed. apply wlp_bind, wlp_on_wp, (wp_cur i); [done|].
  apply wlp_bind, wlp_on_wp, (wp_cur_proc i); [done|]. intros q Hq _. destruct t as [k tk e]. cbn [t_k t_ticks t_eoi] in *.
  destruct (Z.eqb_spec (p_killed q) 0) as [Ek|Ek]; cbn [negb]; [|by apply exit_stops]. apply Hrest. by exists q.
Qed.

Lemma return_spec i tf t : free_ok (Some i) (t_k t) -> wlp syscall_return (trap_post i tf) t.
Proof. intros Ht. apply exit_killed_spec; [done|]. intros Hp. apply wlp_ret. split; [done|]. by intros _ _. Qed.

Lemma trap_spec i n tf t : free_ok (Some i) (t_k t) -> wlp (trap n tf) (trap_post i tf) t.
Proof using HandlersWake0 ServicesReturn0.
  intros Ht. unfold trap. destruct (n =? T_SYSCALL).
  - apply exit_killed_spec; [done|]. intros _. apply wlp_bind, wlp_on_wp, (wp_cur i); [done|]. apply wlp_bind, wlp_on_wp.
    eapply wp_mono; [by apply (upd_free i (set_tf tf))|]. intros [] k [Hk _]. apply wlp_ret. split; [exact Hk|]. by intros ?.
  - apply wlp_bind. eapply wlp_mono; [by apply (dispatch_kept (Some i) (t_k t)), kept_self|]. intros [] t' [H' _]. apply check_killed_spec; [done|]. intros _.
    pose proof (free_cur _ _ H') as [Ec _]. apply wlp_bind, wlp_on_wp, wp_myproc. rewrite Ec. apply wlp_bind, wlp_on_wp, (wp_cur_proc i); [done|]. intros q _ _.
    destruct t' as [k tk e]. cbn [t_k t_ticks t_eoi] in *. case_match; [by apply yield_stops|by apply rest_spec].
Qed.

(** A trap of a process that has been killed. *)
Lemma trap_killed i n tf t p : free_ok (Some i) (t_k t) -> procs (t_k t) !! i = Some p -> p_killed p <> 0 -> from_user tf = true -> wlp (trap n tf) (fun o _ => o = Exits) t.
Proof using HandlersWake0 ServicesReturn0.
  intros Ht Hp Hk Hu. assert (Hexit : forall t, wlp (on_k exit ;;; ret Exits) (fun o _ => o = Exits) t) by (intros u; apply wlp_bind, wlp_on_k; intros [] k _; by apply wlp_ret).
  unfold trap. destruct (n =? T_SYSCALL).
  - unfold exit_killed. apply wlp_bind, wlp_on_wp, (wp_cur i); [done|]. apply wlp_bind, wlp_on_wp, (wp_cur_proc i); [done|]. intros q Hq _. cbn [t_k] in *. simplify_eq.
    rewrite (proj2 (Z.eqb_neq _ _)) by done. apply Hexit.
  - apply wlp_bind. eapply wlp_mono; [by apply (dispatch_kept (Some i) (t_k t)), kept_self|]. intros [] t' [H' Hg].
    destruct (Hg i p Hp Hk) as (q & Hq & Hkq). unfold check_killed. apply wlp_bind, wlp_on_wp, wp_myproc. rewrite (proj1 (free_cur _ _ H')).
    apply wlp_bind, wlp_on_wp, (wp_cur_proc i); [done|]. intros q' Hq' _. cbn [t_k] in *. simplify_eq. rewrite Hu, (proj2 (Z.eqb_neq _ _)) by done. apply Hexit.
Qed.

(** An interrupt while nothing runs. *)
Lemma trap_idle n tf t : free_ok None (t_k t) -> n <> T_SYSCALL -> wlp (trap n tf) (fun _ t' => free_ok None (t_k t')) t.
Proof using HandlersWake0 ServicesReturn0.
  intros Ht Hn. unfold trap. rewrite (proj2 (Z.eqb_neq _ _)) by done. apply wlp_bind. eapply wlp_mono; [by apply (dispatch_kept None (t_k t)), kept_self|]. intros [] t' [H' _].
  assert (Ec : cur (t_k t') = None) by (destruct H' as (ps & np & ini & Hat & _); by apply (at_cur _ _ _ _ _ _ Hat)).
  unfold check_killed. apply wlp_bind, wlp_on_wp, wp_myproc. rewrite Ec. apply wlp_bind, wlp_on_wp, wp_myproc. cbn [t_k]. rewrite Ec.
  unfold trap_rest, check_killed. apply wlp_bind, wlp_on_wp, wp_myproc. cbn [t_k]. rewrite Ec. apply wlp_ret. done.
Qed.

Lemma idle_spec n tf t : sys_ok (t_k t, Sched NPROC) -> n <> T_SYSCALL -> wlp (idle n tf) (fun _ t' => sys_ok (t_k t', Sched 0)) t.
Proof using HandlersWake0 ServicesReturn0.
  intros (ps & np & ini & H1 & H2 & _) Hn. unfold idle. apply wlp_bind, wlp_on_wp, wp_bind. eapply (wp_release_pt ps np ini None); [done|]. intros k Hk. wp_steps.
  apply wlp_bind. eapply wlp_mono; [apply trap_idle; [|done]|].
  - exists ps, np, ini. split_and!; [|done|done]. destruct Hk as [? ? ? ? [? ?]]. by split.
  - intros o t' (ps' & np' & ini' & H1' & H2' & _). apply wlp_bind, wlp_on_wp. eapply (wp_acquire_pt ps' np' ini' None); [done|]. intros k' Hk'. apply wlp_ret.
    exists ps', np', ini'. cbn. split_and!; [done|done|lia].
Qed.

(** ** The machine *)

(** The table is sound, and who is in user mode after a trap runs and was not killed. *)
Definition machine_ok (x : machine (K := K)) : Prop :=
  sys_ok (m_sys x) /\ forall i, m_loc x i = User -> m_mode x = Run i /\ exists p, procs (t_k (m_st x)) !! i = Some p /\ p_killed p = 0.

Lemma move_eq i l f : move i l f i = l.
Proof. unfold move. by rewrite decide_True. Qed.
Lemma move_ne i j l f : j <> i -> move i l f j = f j.
Proof. intros. unfold move. by rewrite decide_False. Qed.

Lemma after_trap_ok i tf o t back f : trap_post i tf o t -> (forall j, f j = User -> j = i) -> (back = User -> from_user tf = true) -> machine_ok (after_trap i o t back f).
Proof.
  intros [Hs Ha] Hf Hb. assert (Hm : forall j l, move i l f j = User -> j = i /\ l = User).
  { intros j l. destruct (decide (j = i)) as [->|Hne]; [by rewrite move_eq|]. rewrite move_ne by done. by intros ?%Hf. }
  destruct o; cbn [after_trap stopped] in *; (split; [unfold m_sys; cbn; by (exact Hs || by apply free_run)|]); cbn [m_loc m_mode m_st t_k]; intros j [-> E]%Hm; try done.
  - by destruct back.
  - split; [done|]. apply Ha; [done|by apply Hb].
Qed.

Lemma not_user_run x i : machine_ok x -> m_mode x = Run i -> forall j, m_loc x j = User -> j = i.
Proof. intros [_ H] Em j Hj. destruct (H j Hj) as [E _]. congruence. Qed.
Lemma not_user_sched x n : machine_ok x -> m_mode x = Sched n -> forall j, m_loc x j <> User.
Proof. intros [_ H] Em j Hj. destruct (H j Hj) as [E _]. congruence. Qed.

Lemma mstep_ok x e y : machine_ok x -> mstep x e y -> machine_ok y.
Proof using HandlersWake0 ServicesReturn0.
  intros Hx Hst. pose proof (proj1 Hx) as Hsys. unfold m_sys in Hsys.
  destruct Hst as [s i f Hu|s i f n tf o s' Hu Htf E|s i f n tf o s' Hu Htf Hn E|s i f k' m' Hl E|s i f o s' Hl E|s i f n tf o s' Hl Htf E|s j f l k' m' E|s f n tf s' Htf Hn E]; cbn [m_st m_mode m_loc t_k] in *;
    try apply free_run in Hsys.
  - done.
  - apply (after_trap_ok i tf); [by apply (trap_spec i n tf s Hsys)|by apply (not_user_run _ _ Hx)|done].
  - apply (after_trap_ok i tf); [by apply (trap_spec i n tf s Hsys)|by apply (not_user_run _ _ Hx)|]. intros Ef. by rewrite Ef in Hu.
  - split; [unfold m_sys; cbn; apply free_run in Hsys; by eapply kstep_ok|]. cbn. intros j Hj. exfalso.
    assert (f j <> User) as Hf by (intros Hf; pose proof (not_user_run _ _ Hx eq_refl j Hf) as ->; cbn in Hf; congruence).
    unfold births in Hj. by repeat case_match.
  - set (tf := Trapframe 0 0 0 0 UCODE 0 0 0 []). apply (after_trap_ok i tf); [by apply (return_spec i tf s Hsys)|by apply (not_user_run _ _ Hx)|done].
  - apply (after_trap_ok i tf); [by apply (rest_spec i tf s Hsys)|by apply (not_user_run _ _ Hx)|done].
  - split; [unfold m_sys; cbn; by eapply kstep_ok|]. cbn. intros i Hi. by apply (not_user_sched _ _ Hx eq_refl) in Hi.
  - split; [unfold m_sys; cbn; by apply (idle_spec n tf s Hsys Hn _ _ E)|]. cbn. intros i Hi. by apply (not_user_sched _ _ Hx eq_refl) in Hi.
Qed.

Lemma mtrace_ok x es y : machine_ok x -> mtrace x es y -> machine_ok y.
Proof using HandlersWake0 ServicesReturn0. intros Hx. induction 1; [done|]. eauto using mstep_ok. Qed.
End keep.

(** ** Theorems *)

Section theorems.
Context {K : Type} `{KS : KernelServices K} `{!ServicesReturn K} `{HD : !Handlers K} `{!HandlersWake K}.

(** C35: A killed process does not come back to user mode: in every run of the machine (user
    code, system calls, exceptions, interrupts of the devices and of the timer in user and in
    kernel mode, and the scheduler) from a sound state, the process table stays sound; a
    process that executes in user mode and has been in the kernel since it was created has not
    been killed; and a process that was killed before it first ran is gone at its first trap,
    whatever the trap is. *)
Theorem killed_process_leaves (x y : machine (K := K)) es : machine_ok x -> mtrace x es y ->
  sys_ok (m_sys y) /\
  (forall i e z, mstep y e z -> e = EUser i -> m_loc y i <> New -> exists p, procs (t_k (m_st y)) !! i = Some p /\ p_killed p = 0) /\
  (forall i n tf o s p, m_mode y = Run i -> procs (t_k (m_st y)) !! i = Some p -> p_killed p <> 0 -> from_user tf = true -> trap n tf (m_st y) = Ret o s -> o = Exits).
Proof.
  intros Hx Htr. pose proof (mtrace_ok _ _ _ Hx Htr) as Hy. split_and!.
  - apply Hy.
  - intros i e z Hst -> Hl. inversion Hst as [s j f Hu| | | | | | |]; subst. cbn [m_loc m_st] in *. destruct Hy as [_ Hy]. apply (Hy i). cbn.
    unfold in_user in Hu. apply orb_true_iff in Hu as [?%bool_decide_eq_true|?%bool_decide_eq_true]; done.
  - intros i n tf o s p Em Hp Hk Hu E. destruct Hy as [Hy _]. unfold m_sys in Hy. rewrite Em in Hy. apply free_run in Hy. by eapply (trap_killed i).
Qed.

(** A tick preempts the running process, in user and in kernel mode. *)
Theorem timer_preempts i tf (t : tst (K := K)) p : free_ok (Some i) (t_k t) -> procs (t_k t) !! i = Some p -> p_killed p = 0 ->
  wp (trap (T_IRQ0 + IRQ_TIMER) tf) (fun o t' => o = Yields /\ t_ticks t' = u32 (t_ticks t + 1) /\ t_eoi t' = S (t_eoi t) /\
    exists q, procs (t_k t') !! i = Some q /\ p_state q = RUNNABLE /\ p_ctx q = AtYield) t.
Proof.
  intros Ht Hp Hk. destruct (free_cur _ _ Ht) as [Ec (p' & Hp' & Hr)]. simplify_eq. destruct Ht as (ps & np & ini & H1 & H2 & H3). rewrite (at_procs _ _ _ _ _ _ H1) in Hp.
  unfold trap. change (T_IRQ0 + IRQ_TIMER =? T_SYSCALL) with false. unfold dispatch. rewrite Z.eqb_refl. unfold tick, on_k. apply wp_bind, wp_bind, wp_bind, wp_modify.
  apply wp_zoom. eapply wp_mono; [by apply (wakeup_spec CTicks)|]. intros [] k1 Hk1. apply wp_modify. cbn [t_k t_ticks t_eoi].
  assert (Hp1 : procs k1 !! i = Some (wake CTicks p)) by (rewrite (at_procs _ _ _ _ _ _ Hk1), list_lookup_fmap, Hp; done).
  assert (Hp2 : (wake CTicks <$> ps) !! i = Some (wake CTicks p)) by (by rewrite list_lookup_fmap, Hp).
  assert (Hw : p_state (wake CTicks p) = RUNNING /\ p_killed (wake CTicks p) = 0) by (split; [by apply wake_running|by rewrite (wk_same _ _ (woken_wake CTicks p))]). destruct Hw as [Hw1 Hw2].
  assert (Ek : cur k1 = Some i) by (by apply (at_cur _ _ _ _ _ _ Hk1)).
  unfold check_killed, on_k. apply wp_bind, wp_zoom, wp_myproc. cbn [t_k t_ticks t_eoi]. rewrite Ek. apply wp_bind, wp_zoom. eapply wp_get_proc; [exact Hk1|exact Hp2|]. rewrite Hw2. cbn [negb andb Z.eqb t_k t_ticks t_eoi].
  apply wp_bind, wp_zoom, wp_myproc. cbn [t_k t_ticks t_eoi]. rewrite Ek. apply wp_bind, wp_zoom. eapply wp_get_proc; [exact Hk1|exact Hp2|].
  rewrite andb_true_r. unfold is_state. rewrite bool_decide_eq_true_2 by done. apply wp_bind, wp_zoom. cbn [t_k t_ticks t_eoi].
  eapply wp_mono; [by apply (yield_spec _ np ini i (wake CTicks p) k1 Hk1)|]. intros [] k2 [b Hk2]. apply wp_ret. cbn [t_k t_ticks t_eoi]. split_and!; [done|done|done|].
  rewrite (at_procs _ _ _ _ _ _ Hk2), list_lookup_insert_eq by (by eapply lookup_lt_Some). by eexists.
Qed.
End theorems.

(** ** Witnesses, and two consequences *)

#[export] Instance example_handlers : Handlers unit := {
  ideintr := wakeup (COther 1); kbdintr := wakeup (COther 2); uartintr := wakeup (COther 3);
}.
#[export] Instance example_handlers_wake : HandlersWake unit.
Proof. assert (H : forall s : kst (K := unit), wakes s s) by (intros [ps np ini cu c l []]; exact (wakes_env (Kst ps np ini cu c l tt) tt)). split; intros s s' E; (eapply wakes_step; [exact E|apply H]). Qed.

Definition user_tf : trapframe := Trapframe 0 0 0 0 UCODE UDATA UDATA UDATA [].
Definition boot_machine : machine (K := unit) := Machine (Tst boot_kernel 0 0) (Run 0) (fun _ => New).
Lemma boot_machine_ok : machine_ok boot_machine.
Proof. split; [exact boot_ok|]. done. Qed.


Definition state_of {S A} (d : S) (r : outcome S A) : S := match r with Ret _ s => s | _ => d end.
Definition after_call : tst (K := unit) := state_of (m_st boot_machine) (trap T_SYSCALL user_tf (m_st boot_machine)).

Lemma killed_process_leaves_witness : let y := Machine after_call (Run 0) (move 0 InCall (fun _ => New)) in
  mtrace boot_machine [EUser 0; ETrap 0 T_SYSCALL Calls] y /\ sys_ok (m_sys y).
Proof.
  cbv zeta. assert (Htr : mtrace boot_machine [EUser 0; ETrap 0 T_SYSCALL Calls] (Machine after_call (Run 0) (move 0 InCall (fun _ => New)))).
  { eapply mt_cons; [apply ms_user; reflexivity|]. eapply mt_cons; [|apply mt_nil].
    apply (ms_trap _ 0 _ T_SYSCALL user_tf Calls after_call); [reflexivity|reflexivity|vm_compute; reflexivity]. }
  split; [exact Htr|]. apply (killed_process_leaves _ _ _ boot_machine_ok Htr).
Defined.

(** A process may kill the first one; at the next trap of that the kernel panics. *)
Theorem kill_init_panics : wp (kill 1) (fun r k => r = 0 /\ trap (T_IRQ0 + IRQ_TIMER) user_tf (Tst k 0 0) = Panic "init exiting") boot_kernel.
Proof. vm_compute. done. Qed.

(** [kill] promises that the process exits when it returns to user space; a child that has not
    run yet goes to user mode first ([forkret] and [trapret] do not check). *)
Theorem killed_child_runs : wp (r <- fork ;; kill r ;;; yield) (fun _ k =>
    wp (visit 1 ;;; continue) (fun r k' => r = Some None /\ exists p, procs k' !! 1%nat = Some p /\ p_state p = RUNNING /\ p_killed p = 1) (set_cur None k)) boot_kernel.
Proof. vm_compute. split; [done|]. eexists. done. Qed.
