(* ===== verification/Mmap.v ===== *)
(** * Memory maps of a process (p5: sys_mmap.c, trap.c, mmap.h)

    A process records its mapped areas in the array [vmas] of 32 entries, of which the
    first [total_vmas] are in use.  Physical pages, page tables and files are behind the
    interface [VmServices].  [int] values are kept in their signed 32-bit range; a
    comparison with an unsigned operand ([KERNBASE], a [uint]) is made on the unsigned
    values.

    [check_mmap_possible] reads [vmas[-1]] when there is no mapping.  The 36 bytes in
    front of the array are fields of [struct proc] ([ofile[12]] to [name]); the state
    keeps them as the entry [before]. *)

From S2P Require Import Prelude.

Definition MAP_PRIVATE : Z := 1.
Definition MAP_SHARED : Z := 2.
Definition MAP_ANONYMOUS : Z := 4.
Definition MAP_FIXED : Z := 8.
Definition MAP_GROWSUP : Z := 16.
Definition PROT_READ : Z := 1.
Definition PROT_WRITE : Z := 2.
Definition PTE_W : Z := 2.
Definition PTE_U : Z := 4.
Definition PGSIZE : Z := 4096.
Definition MMAPBASE : Z := 1610612736.   (* 0x60000000 *)
Definition KERNBASE : Z := 2147483648.   (* 0x80000000 *)
Definition NVMA : nat := 32.

Definition PGROUNDUP (x : Z) : Z := Z.land (s32 (x + PGSIZE - 1)) (Z.lnot (PGSIZE - 1)).
Definition PGROUNDDOWN (x : Z) : Z := Z.land x (Z.lnot (PGSIZE - 1)).
Definition has (flags f : Z) : bool := negb (Z.land flags f =? 0).

(** [struct vm_area_struct] *)
Record vma := Vma {
  v_in_use : Z;
  v_addr : Z;
  v_len : Z;
  v_prot : Z;
  v_flags : Z;
  v_file : Z;
  v_offset : Z;
  v_stored_size : Z;
  v_ref_count : Z;
}.
Definition zero_vma : vma := Vma 0 0 0 0 0 0 0 0 0.

(** The fields of [struct proc] that memory maps use. *)
Record mproc := MProc {
  m_pgdir : Z;
  m_killed : Z;
  before : vma;
  vmas : list vma;
  total_vmas : Z;
}.

(** kalloc.c, vm.c and file.c as sys_mmap.c and trap.c use them, on a state [K].  A null
    pointer is 0; [walk] is [walkpgdir] without allocation: the entry for an address. *)
Class VmServices (K : Type) := {
  kalloc : M K Z;
  kfree : Z -> M K unit;
  walk : Z -> Z -> M K (option Z);
  clear_pte : Z -> Z -> M K unit;
  mappages : Z -> Z -> Z -> Z -> Z -> M K Z;
  zero_page : Z -> M K unit;
  copy_page : Z -> Z -> M K unit;
  fileread : Z -> Z -> Z -> M K Z;
  filewrite : Z -> Z -> Z -> M K Z;
  set_off : Z -> Z -> M K unit;
}.

Definition set_killed (x : Z) (p : mproc) : mproc :=
  MProc (m_pgdir p) x (before p) (vmas p) (total_vmas p).
Definition set_vmas (x : list vma) (p : mproc) : mproc :=
  MProc (m_pgdir p) (m_killed p) (before p) x (total_vmas p).
Definition set_total (x : Z) (p : mproc) : mproc :=
  MProc (m_pgdir p) (m_killed p) (before p) (vmas p) x.

(** [zero_mmap_region_struct]: [in_use] and [ref_count] are kept. *)
Definition zero_mmap_region_struct (v : vma) : vma :=
  Vma (v_in_use v) 0 0 0 0 0 0 0 (v_ref_count v).

(** [copy_mmap_struct(mr1, mr2)] *)
Definition copy_mmap_struct (v1 v2 : vma) : vma :=
  Vma (v_in_use v1) (v_addr v2) (v_len v2) (v_prot v2) (v_flags v2) (v_file v2) (v_offset v2)
    (v_stored_size v1) (v_ref_count v1).

Definition set_area (addr len : Z) (v : vma) : vma :=
  Vma (v_in_use v) addr len (v_prot v) (v_flags v) (v_file v) (v_offset v) (v_stored_size v) (v_ref_count v).
Definition set_map (file flags prot offset : Z) (v : vma) : vma :=
  Vma (v_in_use v) (v_addr v) (v_len v) prot flags file offset (v_stored_size v) (v_ref_count v).
Definition set_ref (x : Z) (v : vma) : vma :=
  Vma (v_in_use v) (v_addr v) (v_len v) (v_prot v) (v_flags v) (v_file v) (v_offset v) (v_stored_size v) x.

(** ** The array of areas *)

(** [p->vmas[i]]; beyond [-1 .. 31] the access has no meaning here. *)
Definition vma_at (i : Z) (p : mproc) : option vma :=
  if i =? -1 then Some (before p)
  else if i <? 0 then None
  else vmas p !! Z.to_nat i.

Definition get_vma (i : Z) : M mproc vma := p <- gets id ;; deref "vmas" (vma_at i p).
Definition upd_vma (i : Z) (f : vma -> vma) : M mproc unit :=
  p <- gets id ;;
  (if (0 <=? i) && (i <? Z.of_nat (length (vmas p))) then ret tt else undef "vmas") ;;;
  modify (fun p => set_vmas (alter f (Z.to_nat i) (vmas p)) p).

(** The loop of [setup_mmap_arr] that makes room at [i + 1]; it starts at
    [j = total_vmas]. *)
Fixpoint shift_right (n : nat) (j i : Z) : M mproc unit :=
  match n with
  | O => ret tt
  | S n' =>
      if i + 1 <? j then
        v <- get_vma (j - 1) ;;
        upd_vma j (fun w => copy_mmap_struct w v) ;;;
        shift_right n' (j - 1) i
      else ret tt
  end.

Definition setup_mmap_arr (size i mmapaddr : Z) : M mproc Z :=
  p <- gets id ;;
  shift_right (Z.to_nat (total_vmas p - i)) (total_vmas p) i ;;;
  if KERNBASE <=? u32 (PGROUNDUP (s32 (mmapaddr + size))) then ret (-1)
  else
    upd_vma (i + 1) (set_area mmapaddr size) ;;;
    ret (i + 1).

(** The search of [check_mmap_possible] from entry [i] on, [n] entries. *)
Fixpoint find_gap (n : nat) (i mmap_addr size : Z) : M mproc Z :=
  match n with
  | O => ret (-1)
  | S n' =>
      v <- get_vma i ;;
      if mmap_addr <=? v_addr v then ret (-1)
      else
        w <- get_vma (i + 1) ;;
        let start_addr := PGROUNDUP (s32 (v_addr v + v_len v)) in
        let end_addr := PGROUNDUP (v_addr w) in
        if (start_addr <? mmap_addr) && (s32 (mmap_addr + size) <? end_addr)
        then setup_mmap_arr size i mmap_addr
        else find_gap n' (i + 1) mmap_addr size
  end.

Definition check_mmap_possible (addr size : Z) : M mproc Z :=
  p <- gets id ;;
  let mmap_addr := PGROUNDUP addr in
  v <- get_vma (total_vmas p - 1) ;;
  if PGROUNDUP (s32 (v_addr v + v_len v)) <? mmap_addr
  then setup_mmap_arr size (total_vmas p - 1) mmap_addr
  else find_gap (Z.to_nat (total_vmas p - 1)) 0 mmap_addr size.

(** The loop of [find_mmap_addr]: the entry after which there is room. *)
Fixpoint find_after (n : nat) (i size : Z) : M mproc Z :=
  match n with
  | O => ret i
  | S n' =>
      w <- get_vma (i + 1) ;;
      if v_addr w =? 0 then ret i
      else
        v <- get_vma i ;;
        let start_addr := u32 (PGROUNDUP (s32 (v_addr v + v_len v))) in
        let end_addr := u32 (PGROUNDUP (v_addr w)) in
        if u32 size <? u32 (end_addr - start_addr) then ret i
        else find_after n' (i + 1) size
  end.

Definition find_mmap_addr (size : Z) : M mproc Z :=
  p <- gets id ;;
  if total_vmas p =? 0 then
    if KERNBASE <=? u32 (PGROUNDUP (s32 (MMAPBASE + size))) then ret (-1)
    else
      upd_vma 0 (set_area (PGROUNDUP MMAPBASE) size) ;;;
      ret 0
  else
    v <- get_vma 0 ;;
    if size <? s32 (v_addr v - MMAPBASE) then setup_mmap_arr size (-1) MMAPBASE
    else
      i <- find_after (Z.to_nat (total_vmas p)) 0 size ;;
      v <- get_vma i ;;
      let mmapaddr := u32 (PGROUNDUP (s32 (v_addr v + v_len v))) in
      if KERNBASE <? u32 (mmapaddr + size) then ret (-1)
      else setup_mmap_arr size i (s32 mmapaddr).

(** Record the mapping in entry [i] and return its address. *)
Definition enter_map (i prot flags offset file : Z) : M mproc Z :=
  upd_vma i (set_map file flags (Z.lor PTE_U prot) offset) ;;;
  modify (fun p => set_total (total_vmas p + 1) p) ;;;
  v <- get_vma i ;;
  ret (v_addr v).

Definition ummap (addr length prot flags offset file : Z) : M mproc Z :=
  p <- gets id ;;
  if 32 <=? total_vmas p then ret (-1)
  else if negb (has flags MAP_PRIVATE) && negb (has flags MAP_SHARED) then ret (-1)
  else
    let rnd_addr := PGROUNDUP (s32 (PGROUNDUP addr + length)) in
    if has flags MAP_FIXED then
      if (addr =? 0) || (addr <? MMAPBASE) || (KERNBASE <? u32 rnd_addr) then ret (-1)
      else if (KERNBASE <? u32 rnd_addr) || negb (Z.rem rnd_addr PGSIZE =? 0) then ret (-1)
      else
        i <- check_mmap_possible addr length ;;
        if i =? -1 then ret (-1) else enter_map i prot flags offset file
    else if KERNBASE <? u32 rnd_addr then ret (-1)
    else
      i <- check_mmap_possible addr length ;;
      i <- (if i =? -1 then find_mmap_addr length else ret i) ;;
      if i =? -1 then ret (-1) else enter_map i prot flags offset file.

(** ** Operations on pages and files *)

Section pages.
Context {K : Type} `{VmServices K}.

Record mst := MSt { mp : mproc; mk : K }.
Definition on_proc {A} (m : M mproc A) : M mst A := zoom mp (fun p s => MSt p (mk s)) m.
Definition svc {A} (m : M K A) : M mst A := zoom mk (fun k s => MSt (mp s) k) m.
Definition kill_proc : M mst unit := modify (fun s => MSt (set_killed 1 (mp s)) (mk s)).

Definition PTE_ADDR (pte : Z) : Z := Z.land pte (Z.lnot 4095).

(** [get_physical_page]: 0 when there is no page table for the address. *)
Definition get_physical_page (pgdir addr : Z) : M K Z :=
  pte <- walk pgdir addr ;;
  ret (match pte with Some e => PTE_ADDR e | None => 0 end).

(** The part that [do_map] and [do_map_helper] share: a zeroed page is mapped; on
    failure the process is killed. *)
Definition map_page (size fault_addr : Z) (v : vma) : M mst bool :=
  p <- gets mp ;;
  mem <- svc kalloc ;;
  if mem =? 0 then kill_proc ;;; ret false
  else
    svc (zero_page mem) ;;;
    r <- svc (mappages (m_pgdir p) (PGROUNDDOWN fault_addr) size (u32 (mem - KERNBASE))
           (if has (v_prot v) PROT_WRITE then Z.lor PTE_W PTE_U else PTE_U)) ;;
    if r <? 0 then kill_proc ;;; ret false else ret true.

(** The number of bytes read into a file-backed page: [stored_size] was incremented on
    the copy of the area before. *)
Definition read_size (v : vma) (size : Z) : Z :=
  let left := s32 (v_len v - s32 (v_stored_size v + size)) in
  if left <? PGSIZE then left else PGSIZE.

(** The area is passed by value: the increment of [stored_size] is lost. *)
Definition do_map (fault_addr : Z) (v : vma) : M mst unit :=
  ok <- map_page PGSIZE fault_addr v ;;
  if (ok : bool) then
    if negb (has (v_flags v) MAP_ANONYMOUS)
    then svc (fileread (v_file v) (PGROUNDDOWN fault_addr) (read_size v PGSIZE)) ;;; ret tt
    else ret tt
  else ret tt.

Definition do_map_helper (size fault_addr : Z) (v : vma) : M mst Z :=
  ok <- map_page size fault_addr v ;;
  if (ok : bool) then
    if negb (has (v_flags v) MAP_ANONYMOUS)
    then svc (fileread (v_file v) (PGROUNDDOWN fault_addr) (read_size v size)) ;;; ret 1
    else ret (-1)
  else ret (-1).

(** The first loop of [pgft_handler]: the area that contains the address. *)
Fixpoint find_area (n : nat) (i fault_addr : Z) : M mproc (option Z) :=
  match n with
  | O => ret None
  | S n' =>
      v <- get_vma i ;;
      if (u32 (v_addr v) <=? fault_addr) && (fault_addr <=? u32 (v_addr v + v_len v))
      then ret (Some i)
      else find_area n' (i + 1) fault_addr
  end.

(** The second loop leaves after its first round. *)
Definition pgft_handler (fault_addr : Z) : M mst unit :=
  if (KERNBASE <=? fault_addr) || (fault_addr <? MMAPBASE) then kill_proc
  else
    p <- gets mp ;;
    o <- on_proc (find_area (Z.to_nat (total_vmas p)) 0 fault_addr) ;;
    match o with
    | Some i =>
        v <- on_proc (get_vma i) ;;
        pte <- svc (walk (m_pgdir p) fault_addr) ;;
        if bool_decide (pte <> None) && negb (has (v_flags v) MAP_GROWSUP) &&
           negb (has (v_flags v) MAP_SHARED)
        then kill_proc
        else do_map fault_addr v
    | None =>
        if 0 <? total_vmas p then
          v <- on_proc (get_vma 0) ;;
          if has (v_flags v) MAP_GROWSUP then
            if total_vmas p - 1 =? 0 then
              on_proc (upd_vma 0 (fun v => set_area (v_addr v) (s32 (v_len v + PGSIZE)) v)) ;;;
              v <- on_proc (get_vma 0) ;;
              do_map fault_addr v
            else
              w <- on_proc (get_vma 1) ;;
              if u32 (u32 (PGROUNDUP fault_addr) + PGSIZE) <? u32 (v_addr w) then
                on_proc (upd_vma 0 (fun v => set_area (v_addr v) (s32 (v_len v + PGSIZE)) v)) ;;;
                v <- on_proc (get_vma 0) ;;
                do_map fault_addr v
              else kill_proc
          else kill_proc
        else kill_proc
    end.

(** The first entry whose address is [a]. *)
Fixpoint find_addr (a : Z) (i : Z) (l : list vma) : option Z :=
  match l with
  | [] => None
  | v :: l' => if u32 (v_addr v) =? a then Some i else find_addr a (i + 1) l'
  end.

(** The loop of [umunmap] over the pages. *)
Fixpoint free_pages (fuel : nat) (pgdir addr currsize limit : Z) : M K unit :=
  match fuel with
  | O => fun _ => Timeout
  | S f =>
      if currsize <? limit then
        let tempaddr := u32 (addr + currsize) in
        pa <- get_physical_page pgdir tempaddr ;;
        (if pa =? 0 then ret tt
         else
           kfree (u32 (pa + KERNBASE)) ;;;
           clear_pte pgdir tempaddr) ;;;
        free_pages f pgdir addr (currsize + PGSIZE) limit
      else ret tt
  end.

(** The left shift at the end of [umunmap]. *)
Fixpoint shift_left (n : nat) (i : Z) : M mproc unit :=
  match n with
  | O => ret tt
  | S n' =>
      if i <? 32 then
        w <- get_vma (i + 1) ;;
        if v_addr w =? 0 then ret tt
        else
          upd_vma i (fun v => copy_mmap_struct v w) ;;;
          shift_left n' (i + 1)
      else ret tt
  end.

Definition umunmap (addr length : Z) : M mst Z :=
  p <- gets mp ;;
  let mainaddr := u32 (PGROUNDUP addr) in
  let unmapping_size := PGROUNDUP length in
  match find_addr mainaddr 0 (vmas p) with
  | None => ret (-1)
  | Some i =>
      v <- on_proc (get_vma i) ;;
      let total_size := v_len v in
      if total_size =? 0 then ret (-1)
      else
        w <- (if has (v_flags v) MAP_SHARED && negb (has (v_flags v) MAP_ANONYMOUS) &&
                 has (v_prot v) PROT_WRITE
              then
                svc (set_off (v_file v) (v_offset v)) ;;;
                svc (filewrite (v_file v) (v_addr v) (v_len v))
              else ret 0) ;;
        if w <? 0 then ret (-1)
        else
          let main_map_size := if total_size <? unmapping_size then total_size else unmapping_size in
          svc (free_pages (S (Z.to_nat (main_map_size / PGSIZE + 1))) (m_pgdir p) addr 0 main_map_size) ;;;
          (if v_len v <=? unmapping_size then
             on_proc (
               upd_vma i zero_mmap_region_struct ;;;
               shift_left NVMA i ;;;
               modify (fun p => set_total (total_vmas p - 1) p))
           else
             on_proc (upd_vma i (fun v =>
               set_area (s32 (v_addr v + unmapping_size)) (s32 (v_len v - unmapping_size)) v))) ;;;
          ret 0
  end.

(** [clear_maps]: the loop runs [total_vmas] times on what is then the last entry. *)
Fixpoint clear_loop (n : nat) : M mst unit :=
  match n with
  | O => ret tt
  | S n' =>
      p <- gets mp ;;
      v <- on_proc (get_vma (total_vmas p - 1)) ;;
      (if v_ref_count v =? 0 then umunmap (v_addr v) (v_len v) ;;; ret tt else ret tt) ;;;
      clear_loop n'
  end.

Definition clear_maps : M mst unit :=
  p <- gets mp ;;
  clear_loop (Z.to_nat (total_vmas p)) ;;;
  on_proc (modify (set_total 0)).

(** [copy_maps(parent, child)]: the state holds the parent; the child's entries are
    built next to it. *)
Record fst_ := FSt { f_parent : mst; f_child : mproc }.
Definition on_parent {A} (m : M mst A) : M fst_ A := zoom f_parent (fun p s => FSt p (f_child s)) m.
Definition on_child {A} (m : M mproc A) : M fst_ A := zoom f_child (fun c s => FSt (f_parent s) c) m.

(** The loop over the pages of area [i]: the pages from [start] to [stop]. *)
Fixpoint copy_pages (fuel : nat) (i start stop : Z) (shared : bool) (protection : Z) : M fst_ bool :=
  match fuel with
  | O => fun _ => Timeout
  | S f =>
      if start <? stop then
        pa <- on_parent (p <- gets mp ;; svc (get_physical_page (m_pgdir p) start)) ;;
        ok <- (if shared then
                 if pa =? 0 then
                   v <- on_parent (on_proc (get_vma i)) ;;
                   let total_mmap_size := s32 (v_len v - v_stored_size v) in
                   let size := if total_mmap_size <? PGSIZE then total_mmap_size else PGSIZE in
                   r <- on_parent (do_map_helper (u32 size) start v) ;;
                   ret (negb (r <? 0))
                 else ret true
               else if pa =? 0 then ret true
               else
                 mem <- on_parent (svc kalloc) ;;
                 if mem =? 0 then ret false
                 else
                   on_parent (svc (copy_page mem (u32 (pa + KERNBASE)))) ;;;
                   c <- gets f_child ;;
                   r <- on_parent (svc (mappages (m_pgdir c) start PGSIZE (u32 (mem - KERNBASE)) protection)) ;;
                   ret (negb (r <? 0))) ;;
        if (ok : bool) then copy_pages f i (u32 (start + PGSIZE)) stop shared protection else ret false
      else ret true
  end.

Fixpoint copy_areas (n : nat) (i : Z) : M fst_ bool :=
  match n with
  | O => ret true
  | S n' =>
      v <- on_parent (on_proc (get_vma i)) ;;
      let shared := has (v_flags v) MAP_SHARED in
      let virt_addr := u32 (v_addr v) in
      ok <- copy_pages (S (Z.to_nat (u32 (v_len v) / PGSIZE + 1))) i virt_addr
              (u32 (virt_addr + v_len v)) shared (v_prot v) ;;
      if (ok : bool) then
        on_child (upd_vma i (fun c => copy_mmap_struct c v)) ;;;
        (if shared then on_child (upd_vma i (set_ref 1)) else ret tt) ;;;
        copy_areas n' (i + 1)
      else ret false
  end.

Definition copy_maps : M fst_ Z :=
  p <- gets (fun s => mp (f_parent s)) ;;
  ok <- copy_areas (Z.to_nat (total_vmas p)) 0 ;;
  if (ok : bool) then on_child (modify (set_total (total_vmas p))) ;;; ret 0 else ret (-1).
End pages.
