(* ===== verification/MmapProofs.v ===== *)
(** * What memory maps promise (p5: sys_mmap.c, trap.c)

    [ummap] keeps the areas of a process sorted, disjoint, page-aligned and inside
    [[MMAPBASE, KERNBASE)], for the processes whose unused entries are clear; the file
    also proves what breaks those promises. *)

From S2P Require Import Prelude Mmap.

(** ** Rounding *)

Definition up (x : Z) : Z := (x + 4095) / 4096 * 4096.

Lemma land_page x : Z.land x (Z.lnot (PGSIZE - 1)) = x / 4096 * 4096.
Proof.
  change (PGSIZE - 1) with (Z.ones 12). rewrite <-Z.ldiff_land, Z.ldiff_ones_r by lia.
  rewrite Z.shiftl_mul_pow2, Z.shiftr_div_pow2 by lia. done.
Qed.

Lemma up_bounds x : x <= up x < x + 4096 /\ up x mod 4096 = 0.
Proof. unfold up. split; [|apply Z.mod_mul; lia]. pose proof (Z.div_mod (x + 4095) 4096). pose proof (Z.mod_pos_bound (x + 4095) 4096). lia. Qed.

Lemma up_le x y : x <= y -> y mod 4096 = 0 -> up x <= y.
Proof.
  intros Hxy Hy. unfold up. rewrite (Z.div_mod y 4096), Hy by lia. rewrite Z.add_0_r, (Z.mul_comm 4096).
  apply Z.mul_le_mono_nonneg_r; [lia|].
  assert ((x + 4095) / 4096 < y / 4096 + 1); [|lia]. apply Z.div_lt_upper_bound; [lia|].
  rewrite (Z.div_mod y 4096), Hy in Hxy by lia. lia.
Qed.

Lemma up_id x : x mod 4096 = 0 -> up x = x.
Proof. intros Hx. apply Z.le_antisymm; [by apply up_le|apply up_bounds]. Qed.

Lemma s32_range x : - 2 ^ 31 <= x < 2 ^ 31 -> s32 x = x.
Proof. intros. unfold s32. rewrite Z.mod_small; lia. Qed.

Lemma PGROUNDUP_small x : 0 <= x -> up x < KERNBASE -> PGROUNDUP x = up x.
Proof.
  intros Hx Hu. pose proof (up_bounds x). unfold PGROUNDUP, PGSIZE at 1 2. unfold KERNBASE in *.
  assert (x + 4095 < 2 ^ 31).
  { unfold up in *. pose proof (Z.div_mod (x + 4095) 4096). pose proof (Z.mod_pos_bound (x + 4095) 4096).
    destruct (Z_lt_le_dec (x + 4095) (2 ^ 31)); [done|].
    assert (2 ^ 31 / 4096 <= (x + 4095) / 4096) as Hd by (apply Z.div_le_mono; lia).
    change (2 ^ 31 / 4096) with 524288 in Hd. lia. }
  replace (x + 4096 - 1) with (x + 4095) by lia. rewrite s32_range by lia.
  apply land_page.
Qed.

Lemma PGROUNDUP_u32 x : 0 <= x < 2 ^ 31 -> u32 (PGROUNDUP x) = up x.
Proof.
  intros Hx. destruct (Z_lt_le_dec (up x) KERNBASE) as [Hu|Hu].
  - rewrite PGROUNDUP_small by lia. pose proof (up_bounds x). unfold u32, KERNBASE in *. apply Z.mod_small. lia.
  - pose proof (up_bounds x) as [[? ?] Hm]. unfold KERNBASE in Hu.
    assert (up x = 2 ^ 31) as ->.
    { apply Z.le_antisymm; [|lia]. apply up_le; [lia|done]. }
    unfold PGROUNDUP, PGSIZE at 1 2. replace (x + 4096 - 1) with (x + 4095) by lia.
    rewrite land_page. unfold s32. rewrite <-(Z.mod_unique _ _ 1 (x + 4095 - 2 ^ 31)); [|lia..].
    assert ((x + 4095 - 2 ^ 31 - 2 ^ 31) / 4096 = - 2 ^ 19) as ->; [|done].
    symmetry. apply (Z.div_unique _ _ _ (x + 4095 - 2 ^ 31)); lia.
Qed.

Lemma PGROUNDUP_sum x : 0 <= x <= 2 ^ 31 -> u32 (PGROUNDUP (s32 x)) = up x.
Proof.
  intros Hx. destruct (decide (x = 2 ^ 31)) as [->|]; [done|].
  rewrite s32_range by lia. apply PGROUNDUP_u32. lia.
Qed.

(** ** Areas *)

Definition area (v : vma) : Z * Z := (v_addr v, v_len v).
Definition arr (p : mproc) : list (Z * Z) := area <$> vmas p.
Definition areas (p : mproc) : list (Z * Z) := take (Z.to_nat (total_vmas p)) (arr p).
Definition a_end (a : Z * Z) : Z := up (fst a + snd a).

Definition area_ok (a : Z * Z) : Prop :=
  MMAPBASE <= fst a /\ fst a mod 4096 = 0 /\ 0 < snd a /\ a_end a < KERNBASE.

Record areas_ok (p : mproc) : Prop := AreasOk {
  ao_len : length (vmas p) = NVMA;
  ao_total : 0 <= total_vmas p <= 32;
  ao_area : Forall area_ok (areas p);
  ao_sorted : forall i j a b, (i < j)%nat -> areas p !! i = Some a -> areas p !! j = Some b -> a_end a <= fst b;
  ao_clean : forall i v, total_vmas p <= Z.of_nat i -> vmas p !! i = Some v -> v_addr v = 0;
  ao_before : v_addr (before p) = 0 /\ v_len (before p) = 0;
}.

(** Insert at position [k]. *)
Definition ins {A} (k : nat) (x : A) (l : list A) : list A := take k l ++ x :: drop k l.

Lemma lookup_ins {A} k (x : A) l i :
  (k <= length l)%nat ->
  ins k x l !! i = if decide (i < k)%nat then l !! i else if decide (i = k) then Some x else l !! (i - 1)%nat.
Proof.
  intros Hk. unfold ins. destruct (decide (i < k)%nat).
  - rewrite lookup_app_l by (rewrite length_take; lia). by rewrite lookup_take_lt.
  - rewrite lookup_app_r by (rewrite length_take; lia). rewrite length_take_le by lia.
    destruct (decide (i = k)) as [->|]; [by rewrite Nat.sub_diag|].
    destruct (i - k)%nat as [|m] eqn:E; [lia|]. simpl. rewrite lookup_drop. f_equal. lia.
Qed.

Lemma alter_area f g i (l : list vma) :
  (forall v, area (f v) = g (area v)) -> area <$> alter f i l = alter g i (area <$> l).
Proof.
  intros E. revert i. induction l as [|v l IH]; intros [|i]; try done; simpl; [by rewrite E|].
  f_equal. apply IH.
Qed.

Lemma get_vma_ret p (i : Z) v :
  0 <= i -> vmas p !! Z.to_nat i = Some v -> get_vma i p = Ret v p.
Proof.
  intros Hi Hv. unfold get_vma, bind, gets, deref, vma_at, id.
  destruct (Z.eqb_spec i (-1)); [lia|]. destruct (Z.ltb_spec i 0); [lia|]. by rewrite Hv.
Qed.

Lemma upd_vma_ret p (i : Z) f :
  0 <= i < Z.of_nat (length (vmas p)) ->
  upd_vma i f p = Ret tt (set_vmas (alter f (Z.to_nat i) (vmas p)) p).
Proof.
  intros Hi. unfold upd_vma, bind, gets, id.
  rewrite (proj2 (Z.leb_le _ _)), (proj2 (Z.ltb_lt _ _)) by lia. done.
Qed.

(** [p] with another array. *)
Definition same_but_arr (p p' : mproc) : Prop := p' = set_vmas (vmas p') p.

Lemma same_arr_trans p q r : same_but_arr p q -> same_but_arr q r -> same_but_arr p r.
Proof. unfold same_but_arr. intros -> ->. done. Qed.

Lemma shift_right_spec n j i p :
  (j - i <= Z.of_nat n) -> -1 <= i -> 0 <= j < Z.of_nat (length (vmas p)) ->
  wp (shift_right n j i) (fun _ p' =>
    same_but_arr p p' /\ length (vmas p') = length (vmas p) /\
    forall m, arr p' !! m = if decide (i + 1 < Z.of_nat m <= j) then arr p !! (m - 1)%nat else arr p !! m) p.
Proof.
  revert j p. induction n as [|n IH]; intros j p Hn Hi Hj; simpl.
  - apply wp_ret. split; [by destruct p|]. split; [done|]. intros m. rewrite decide_False by lia. done.
  - destruct (Z.ltb_spec (i + 1) j) as [Hlt|Hge].
    + destruct (lookup_lt_is_Some_2 (vmas p) (Z.to_nat (j - 1))) as [v Hv]; [lia|].
      apply wp_bind. eapply wp_run; [apply get_vma_ret; [lia|done]|].
      apply wp_bind. eapply wp_run; [apply upd_vma_ret; lia|].
      set (p1 := set_vmas _ p).
      assert (length (vmas p1) = length (vmas p)) as Hl1 by (simpl; by rewrite length_alter).
      assert (arr p1 = <[Z.to_nat j := area v]> (arr p)) as Ha1.
      { unfold arr, p1. simpl. rewrite (alter_area _ (fun _ => area v)) by done.
        apply list_eq. intros m. destruct (decide (m = Z.to_nat j)) as [->|].
        - destruct (lookup_lt_is_Some_2 (area <$> vmas p) (Z.to_nat j)) as [w Hw]; [rewrite length_fmap; lia|].
          rewrite list_lookup_alter_eq, Hw, list_lookup_insert_eq by (rewrite length_fmap; lia). done.
        - by rewrite list_lookup_alter_ne, list_lookup_insert_ne. }
      eapply wp_mono; [apply IH; [lia|lia|lia]|]. intros [] p' (Hs & Hl & Hm).
      split; [by eapply same_arr_trans; [|exact Hs]|]. split; [lia|].
      assert (arr p !! Z.to_nat (j - 1) = Some (area v)) as Hva by (unfold arr; by rewrite list_lookup_fmap, Hv).
      intros m. rewrite Hm, Ha1. destruct (decide (i + 1 < Z.of_nat m <= j - 1)).
      * rewrite decide_True by lia. rewrite list_lookup_insert_ne by lia. done.
      * destruct (decide (m = Z.to_nat j)) as [->|Hne].
        -- rewrite decide_True by lia. rewrite list_lookup_insert_eq by (unfold arr; rewrite length_fmap; lia).
           replace (Z.to_nat j - 1)%nat with (Z.to_nat (j - 1)) by lia. done.
        -- rewrite decide_False by lia. by rewrite list_lookup_insert_ne.
    + apply wp_ret. split; [by destruct p|]. split; [done|]. intros m. rewrite decide_False by lia. done.
Qed.

Lemma shift_right_end n j p : shift_right n j (j - 1) p = Ret tt p.
Proof. destruct n; [done|]. simpl. by rewrite Z.sub_add, Z.ltb_irrefl. Qed.

Lemma alter_const (f : vma -> vma) x i (l : list vma) :
  (forall v, area (f v) = x) -> (i < length l)%nat -> area <$> alter f i l = <[i := x]> (area <$> l).
Proof.
  intros Hf Hi. rewrite (alter_area _ (fun _ => x)) by done.
  apply list_eq. intros m. destruct (decide (m = i)) as [->|].
  - destruct (lookup_lt_is_Some_2 (area <$> l) i) as [w Hw]; [by rewrite length_fmap|].
    rewrite list_lookup_alter_eq, Hw, list_lookup_insert_eq by (by rewrite length_fmap). done.
  - by rewrite list_lookup_alter_ne, list_lookup_insert_ne.
Qed.

(** Room is made behind entry [i] and the new area written there. *)
Lemma setup_spec size i addr p :
  length (vmas p) = NVMA -> -1 <= i <= total_vmas p - 1 ->
  0 <= total_vmas p < 32 -> 0 <= addr + size <= 2 ^ 31 ->
  (KERNBASE <= up (addr + size) -> i = total_vmas p - 1) ->
  wp (setup_mmap_arr size i addr) (fun r p' =>
    if decide (up (addr + size) < KERNBASE) then
      r = i + 1 /\ same_but_arr p p' /\ length (vmas p') = length (vmas p) /\
      take (S (Z.to_nat (total_vmas p))) (arr p') = ins (Z.to_nat (i + 1)) (addr, size) (areas p) /\
      (forall m, total_vmas p < Z.of_nat m -> arr p' !! m = arr p !! m)
    else r = -1 /\ p' = p) p.
Proof.
  intros Hlen Hi Ht Has Hend. unfold setup_mmap_arr, NVMA in *. wp_step. wp_step. unfold id. apply wp_bind.
  assert (0 <= total_vmas p < Z.of_nat (length (vmas p))) as Htl by lia.
  destruct (decide (up (addr + size) < KERNBASE)) as [Hk|Hk].
  - eapply wp_mono; [apply shift_right_spec; [lia|lia|done]|]. intros [] p1 (Hs1 & Hl1 & Hm1).
    rewrite PGROUNDUP_sum by lia. rewrite (proj2 (Z.leb_gt _ _)) by lia.
    apply wp_bind. eapply wp_run; [apply upd_vma_ret; lia|]. apply wp_ret.
    assert (arr (set_vmas (alter (set_area addr size) (Z.to_nat (i + 1)) (vmas p1)) p1) =
      <[Z.to_nat (i + 1) := (addr, size)]> (arr p1)) as Ea by (apply alter_const; [done|lia]).
    assert (length (arr p1) = 32%nat) as Hla by (unfold arr; rewrite length_fmap; lia).
    assert (length (areas p) = Z.to_nat (total_vmas p)) as Hlr
      by (unfold areas, arr; rewrite length_take, length_fmap; lia).
    split; [done|]. split; [by eapply same_arr_trans; [exact Hs1|]|].
    split; [simpl; rewrite length_alter; lia|]. rewrite Ea. split.
    + apply list_eq. intros m. rewrite lookup_ins by lia.
      destruct (decide (m < S (Z.to_nat (total_vmas p)))%nat) as [Hm|Hm].
      * rewrite lookup_take_lt by done. destruct (decide (m = Z.to_nat (i + 1))) as [->|Hne].
        -- rewrite list_lookup_insert_eq by lia. repeat case_decide; first [done|lia].
        -- rewrite list_lookup_insert_ne, Hm1 by done. destruct (decide (m < Z.to_nat (i + 1))%nat).
           ++ rewrite decide_False by lia. unfold areas. by rewrite lookup_take_lt by lia.
           ++ rewrite decide_True by lia. unfold areas. by rewrite lookup_take_lt by lia.
      * rewrite lookup_take_ge by lia. rewrite decide_False, decide_False by lia.
        symmetry. apply lookup_ge_None_2. lia.
    + intros m Hm. rewrite list_lookup_insert_ne, Hm1 by lia. by rewrite decide_False by lia.
  - rewrite (Hend ltac:(lia)). eapply wp_run; [apply shift_right_end|].
    rewrite PGROUNDUP_sum by lia. rewrite (proj2 (Z.leb_le _ _)) by lia. by apply wp_ret.
Qed.

(** ** Finding room *)

(** The area [a] was inserted at position [k] and fits there. *)
Record placed (p p' : mproc) (k : nat) (a : Z * Z) : Prop := Placed {
  pl_same : same_but_arr p p';
  pl_len : length (vmas p') = length (vmas p);
  pl_ins : take (S (Z.to_nat (total_vmas p))) (arr p') = ins k a (areas p);
  pl_rest : forall m, total_vmas p < Z.of_nat m -> arr p' !! m = arr p !! m;
  pl_k : (k <= length (areas p))%nat;
  pl_ok : area_ok a;
  pl_left : forall i b, (i < k)%nat -> areas p !! i = Some b -> a_end b <= fst a;
  pl_right : forall i b, (k <= i)%nat -> areas p !! i = Some b -> a_end a <= fst b;
}.

Section search.
Context (p : mproc) (Hp : areas_ok p).

Lemma length_areas : length (areas p) = Z.to_nat (total_vmas p).
Proof using Hp.
  destruct Hp as [Hl Ht _ _ _ _]. unfold areas, arr, NVMA in *. rewrite length_take, length_fmap. lia.
Qed.

Lemma entry (m : nat) :
  Z.of_nat m < total_vmas p ->
  exists v, vmas p !! m = Some v /\ areas p !! m = Some (area v) /\ area_ok (area v).
Proof using Hp.
  intros Hm. pose proof Hp as [Hl Ht Ha _ _ _]. unfold NVMA in Hl.
  destruct (lookup_lt_is_Some_2 (vmas p) m) as [v Hv]; [lia|].
  assert (areas p !! m = Some (area v)) as E.
  { unfold areas, arr. rewrite lookup_take_lt by lia. by rewrite list_lookup_fmap, Hv. }
  exists v. split; [done|]. split; [done|]. by apply (Forall_lookup_1 _ _ _ _ Ha E).
Qed.

Lemma entry_end v : area_ok (area v) ->
  PGROUNDUP (s32 (v_addr v + v_len v)) = a_end (area v) /\ PGROUNDUP (v_addr v) = v_addr v /\
  u32 (a_end (area v)) = a_end (area v) /\ u32 (v_addr v) = v_addr v /\ v_addr v < a_end (area v).
Proof.
  intros (Hb & Ha & Hl & He). unfold a_end, area, MMAPBASE, KERNBASE in *. simpl in *.
  pose proof (up_bounds (v_addr v + v_len v)) as [[? ?] ?].
  rewrite s32_range by lia. rewrite PGROUNDUP_small by (unfold KERNBASE; lia).
  rewrite (PGROUNDUP_small (v_addr v)) by (rewrite ?(up_id (v_addr v)) by done; unfold KERNBASE; lia).
  rewrite (up_id (v_addr v)) by done. unfold u32. rewrite !Z.mod_small by lia. split_and!; try done; lia.
Qed.

(** Placing a fitting area behind entry [i]. *)
Lemma setup_placed size i addr :
  -1 <= i <= total_vmas p - 1 -> total_vmas p < 32 ->
  area_ok (addr, size) ->
  (forall j b, (Z.of_nat j <= i) -> areas p !! j = Some b -> a_end b <= addr) ->
  (forall j b, i < Z.of_nat j -> areas p !! j = Some b -> a_end (addr, size) <= fst b) ->
  wp (setup_mmap_arr size i addr) (fun r p' => r = i + 1 /\ placed p p' (Z.to_nat (i + 1)) (addr, size)) p.
Proof using Hp.
  intros Hi Ht Hok Hl Hr. pose proof Hp as [Hlen Htot _ _ _ _]. pose proof length_areas as Hla.
  pose proof Hok as (Hb & _ & Hs & He). unfold a_end in He. simpl in *.
  pose proof (up_bounds (addr + size)). unfold MMAPBASE, KERNBASE in *.
  eapply wp_mono; [apply setup_spec; [done|done|lia|lia|unfold KERNBASE; lia]|]. intros r p' H'.
  cbv beta in H'. destruct (decide _) as [_|Hd]; [|unfold KERNBASE in Hd; lia]. destruct H' as (-> & H1 & H2 & H3 & H4).
  split; [done|]. split; try done; [lia|..].
  - intros j b Hj. apply Hl. lia.
  - intros j b Hj. apply Hr. lia.
Qed.

Lemma find_gap_spec n i addr size :
  Z.of_nat n = total_vmas p - 1 - i -> 0 <= i -> total_vmas p < 32 ->
  MMAPBASE <= addr -> addr mod 4096 = 0 -> 0 < size -> addr + size < KERNBASE ->
  wp (find_gap n i addr size) (fun r p' =>
    (r = -1 /\ p' = p) \/ (0 <= r /\ placed p p' (Z.to_nat r) (addr, size))) p.
Proof using Hp.
  intros Hn Hi Ht Hb Ha Hs Hk. revert i Hn Hi. induction n as [|n IH]; intros i Hn Hi; simpl.
  { apply wp_ret. by left. }
  destruct (entry (Z.to_nat i)) as (v & Hv & Hva & Hvo); [lia|].
  destruct (entry (Z.to_nat (i + 1))) as (w & Hw & Hwa & Hwo); [lia|].
  destruct (entry_end v Hvo) as (Ev & _ & _ & _ & _). destruct (entry_end w Hwo) as (_ & Ew & _ & _ & _).
  apply wp_bind. eapply wp_run; [by apply get_vma_ret|].
  destruct (Z.leb_spec addr (v_addr v)); [apply wp_ret; by left|].
  apply wp_bind. eapply wp_run; [apply get_vma_ret; [lia|done]|]. rewrite Ev, Ew.
  unfold MMAPBASE, KERNBASE in *. rewrite s32_range by lia.
  destruct (_ && _) eqn:E; [|apply IH; lia].
  apply andb_true_iff in E as [E1%Z.ltb_lt E2%Z.ltb_lt].
  destruct Hwo as (_ & Hw2 & _ & Hw4). simpl in Hw2. pose proof (up_bounds (v_addr w + v_len w)).
  unfold a_end, area, KERNBASE in Hw4. simpl in Hw4.
  assert (a_end (addr, size) <= v_addr w) as Hfit by (unfold a_end; simpl; apply up_le; lia).
  eapply wp_mono; [apply (setup_placed size i addr); [lia|done| | |]|].
  - split; [simpl; unfold MMAPBASE; lia|]. split; [done|]. split; [simpl; lia|].
    unfold a_end, KERNBASE in *. simpl in *. destruct (up_bounds (v_addr w + v_len w)).
    pose proof (ao_area _ Hp) as Hall. pose proof (Forall_lookup_1 _ _ _ _ Hall Hwa) as (_ & _ & ? & _). simpl in *. lia.
  - intros j b Hj Hjb. destruct (decide (j = Z.to_nat i)) as [->|].
    + rewrite Hva in Hjb. injection Hjb as <-. lia.
    + pose proof (ao_sorted _ Hp j (Z.to_nat i) b (area v) ltac:(lia) Hjb Hva). simpl in *. lia.
  - intros j b Hj Hjb. destruct (decide (j = Z.to_nat (i + 1))) as [->|].
    + rewrite Hwa in Hjb. injection Hjb as <-. done.
    + pose proof (ao_sorted _ Hp (Z.to_nat (i + 1)) j (area w) b ltac:(lia) Hwa Hjb) as Hso.
      unfold a_end, area in Hso. simpl in Hso.
      pose proof (Forall_lookup_1 _ _ _ _ (ao_area _ Hp) Hwa) as (_ & _ & ? & _). simpl in *. lia.
  - intros r p' [-> Hpl]. right. split; [lia|done].
Qed.

(** Placing an area behind the last entry, or failing. *)
Lemma setup_append size addr :
  total_vmas p < 32 -> MMAPBASE <= addr -> addr mod 4096 = 0 -> 0 < size -> addr + size <= KERNBASE ->
  (forall j b, areas p !! j = Some b -> a_end b <= addr) ->
  wp (setup_mmap_arr size (total_vmas p - 1) addr) (fun r p' =>
    (r = -1 /\ p' = p) \/ (0 <= r /\ placed p p' (Z.to_nat r) (addr, size))) p.
Proof using Hp.
  intros Ht Hb Ha Hs Hk Hl. pose proof Hp as [Hlen Htot _ _ _ _].
  destruct (decide (up (addr + size) < KERNBASE)) as [Hd|Hd].
  - eapply wp_mono; [apply setup_placed; [lia|done|by split|intros j b _; by apply Hl|]|].
    + intros j b Hj Hjb. apply lookup_lt_Some in Hjb. rewrite length_areas in Hjb. lia.
    + intros r p' [-> Hpl]. right. split; [lia|done].
  - unfold MMAPBASE, KERNBASE in *.
    eapply wp_mono; [apply setup_spec; [done|lia|lia|lia|lia]|]. intros r p' H'. cbv beta in H'.
    destruct (decide _) as [Hx|_]; [unfold KERNBASE in Hx; lia|]. by left.
Qed.

Lemma find_after_spec n i size :
  Z.of_nat n = total_vmas p - i -> 0 <= i < total_vmas p -> total_vmas p < 32 -> 0 < size < 2 ^ 31 ->
  wp (find_after n i size) (fun r p' => p' = p /\ i <= r < total_vmas p /\
    (r + 1 < total_vmas p -> forall a b, areas p !! Z.to_nat r = Some a ->
       areas p !! Z.to_nat (r + 1) = Some b -> a_end a + size < fst b)) p.
Proof using Hp.
  intros Hn Hi Ht Hs. revert i Hn Hi. induction n as [|n IH]; intros i Hn Hi; [lia|]. simpl.
  destruct (entry (Z.to_nat i)) as (v & Hv & Hva & Hvo); [lia|].
  pose proof (ao_len _ Hp) as Hlen. unfold NVMA in Hlen.
  destruct (lookup_lt_is_Some_2 (vmas p) (Z.to_nat (i + 1))) as [w Hw]; [lia|].
  apply wp_bind. eapply wp_run; [apply get_vma_ret; [lia|done]|].
  destruct (decide (i + 1 < total_vmas p)) as [Hlt|Hge].
  - destruct (entry (Z.to_nat (i + 1))) as (w' & Hw' & Hwa & Hwo); [lia|]. rewrite Hw in Hw'. injection Hw' as <-.
    destruct (entry_end v Hvo) as (Ev & _ & Ev3 & _ & _). destruct (entry_end w Hwo) as (_ & Ew & _ & Ew4 & _).
    pose proof Hwo as (Hw1 & _). pose proof Hvo as (Hv1 & _ & Hv3 & _). simpl in Hw1, Hv1, Hv3.
    pose proof (ao_sorted _ Hp (Z.to_nat i) (Z.to_nat (i + 1)) _ _ ltac:(lia) Hva Hwa) as Hso. simpl in Hso.
    pose proof (up_bounds (v_addr v + v_len v)) as [[? ?] _].
    assert (0 <= a_end (area v)) by (unfold a_end, area, MMAPBASE in *; simpl; lia).
    assert (v_addr w < KERNBASE) as Hwk.
    { destruct Hwo as (_ & _ & ? & He). unfold a_end, area in He. simpl in *.
      pose proof (up_bounds (v_addr w + v_len w)). lia. }
    unfold MMAPBASE, KERNBASE in *.
    destruct (Z.eqb_spec (v_addr w) 0); [lia|].
    apply wp_bind. eapply wp_run; [apply get_vma_ret; [lia|done]|]. rewrite Ev, Ew, Ev3, Ew4.
    unfold u32. rewrite (Z.mod_small size) by lia. rewrite Z.mod_small by lia.
    destruct (Z.ltb_spec size (v_addr w - a_end (area v))) as [Hgap|Hgap].
    + apply wp_ret. split; [done|]. split; [lia|]. intros _ a b Haa Hbb.
      rewrite Hva in Haa. rewrite Hwa in Hbb. injection Haa as <-. injection Hbb as <-. simpl. lia.
    + eapply wp_mono; [apply IH; lia|]. intros r p' (-> & Hr & Hg). split; [done|]. split; [lia|done].
  - assert (v_addr w = 0) as ->; [|simpl; apply wp_ret; split; [done|]; split; [lia|lia]].
    apply (ao_clean _ Hp (Z.to_nat (i + 1))); [lia|done].
Qed.

Lemma find_mmap_addr_spec size :
  total_vmas p < 32 -> 0 < size < KERNBASE - MMAPBASE ->
  wp (find_mmap_addr size) (fun r p' =>
    (r = -1 /\ p' = p) \/ (0 <= r /\ exists addr, placed p p' (Z.to_nat r) (addr, size))) p.
Proof using Hp.
  intros Ht Hs. pose proof Hp as [Hlen Htot _ _ _ _]. unfold NVMA in Hlen.
  unfold find_mmap_addr. wp_step. wp_step. unfold id.
  destruct (Z.eqb_spec (total_vmas p) 0) as [E0|E0].
  - unfold MMAPBASE, KERNBASE in *. rewrite PGROUNDUP_sum by lia.
    destruct (Z.leb_spec 2147483648 (up (1610612736 + size))) as [Hk|Hk]; [apply wp_ret; by left|].
    apply wp_bind. eapply wp_run; [apply upd_vma_ret; lia|]. apply wp_ret. right. split; [lia|].
    exists 1610612736. change (PGROUNDUP 1610612736) with 1610612736.
    assert (arr (set_vmas (alter (set_area 1610612736 size) (Z.to_nat 0) (vmas p)) p) =
      <[0%nat := (1610612736, size)]> (arr p)) as Ea by (apply (alter_const _ _ 0); [done|lia]).
    assert (areas p = []) as Er by (unfold areas; by rewrite E0).
    split; try done.
    + simpl. by rewrite length_alter.
    + rewrite Ea, Er, E0. unfold arr. destruct (vmas p); [simpl in Hlen; lia|done].
    + intros m Hm. rewrite Ea. apply list_lookup_insert_ne. lia.
    + simpl. lia.
    + split; simpl; [unfold MMAPBASE; lia|]. split; [done|]. split; [lia|].
      unfold a_end, KERNBASE. simpl. lia.
    + intros i b Hi. simpl in Hi. lia.
    + intros i b _. by rewrite Er.
  - destruct (entry 0) as (v & Hv & Hva & Hvo); [lia|].
    pose proof Hvo as (Hv1 & Hv2 & Hv3 & Hv4). simpl in Hv1, Hv2, Hv3. unfold a_end, area in Hv4. simpl in Hv4.
    pose proof (up_bounds (v_addr v + v_len v)).
    apply wp_bind. eapply wp_run; [by apply get_vma_ret|].
    rewrite s32_range by (unfold MMAPBASE, KERNBASE in *; lia).
    destruct (Z.ltb_spec size (v_addr v - MMAPBASE)) as [Hlt|Hge].
    + assert (a_end (MMAPBASE, size) <= v_addr v) as Hfit.
      { unfold a_end. simpl. apply up_le; [lia|done]. }
      eapply wp_mono; [apply (setup_placed size (-1) MMAPBASE); [lia|done| | |]|].
      * split; [simpl; lia|]. split; [done|]. split; [simpl; lia|]. lia.
      * lia.
      * intros j b _ Hj. destruct j as [|j].
        -- rewrite Hva in Hj. injection Hj as <-. done.
        -- pose proof (ao_sorted _ Hp 0 (S j) _ _ ltac:(lia) Hva Hj) as Hso. unfold a_end, area in Hso. simpl in Hso. lia.
      * intros r p' [-> Hpl]. right. split; [lia|]. by exists MMAPBASE.
    + wp_step. eapply wp_mono; [apply find_after_spec; [lia|lia|done|unfold MMAPBASE, KERNBASE in *; lia]|].
      intros i p' (-> & Hi & Hgap).
      destruct (entry (Z.to_nat i)) as (u & Hu & Hua & Huo); [lia|].
      destruct (entry_end u Huo) as (Eu & _ & Eu3 & _ & _).
      pose proof Huo as (Hu1 & _ & Hu3 & Hu4). simpl in Hu1, Hu3.
      pose proof (up_bounds (v_addr u + v_len u)) as [[Hub _] Hum].
      apply wp_bind. eapply wp_run; [apply get_vma_ret; [lia|done]|]. rewrite Eu, Eu3.
      set (e := a_end (area u)) in *.
      assert (e mod 4096 = 0 /\ v_addr u + v_len u <= e) as [Hem Hel] by (unfold e, a_end, area; simpl; lia).
      unfold MMAPBASE, KERNBASE in *.
      rewrite (s32_range e) by lia. unfold u32. rewrite (Z.mod_small (e + size)) by lia.
      destruct (Z.ltb_spec 2147483648 (e + size)) as [Hk|Hk]; [apply wp_ret; by left|].
      assert (forall j b, Z.of_nat j <= i -> areas p !! j = Some b -> a_end b <= e) as Hleft.
      { intros j b Hj Hjb. destruct (decide (j = Z.to_nat i)) as [->|].
        - rewrite Hua in Hjb. injection Hjb as <-. done.
        - pose proof (ao_sorted _ Hp j (Z.to_nat i) _ _ ltac:(lia) Hjb Hua) as Hso. simpl in Hso. lia. }
      destruct (decide (i + 1 < total_vmas p)) as [Hin|Hend].
      * destruct (entry (Z.to_nat (i + 1))) as (w & Hw & Hwa & (Hw1 & Hw2 & Hw3 & Hw4)); [lia|].
        pose proof (Hgap Hin _ _ Hua Hwa) as Hg. simpl in Hg, Hw1, Hw2, Hw3. fold e in Hg.
        unfold a_end, area in Hw4. simpl in Hw4. pose proof (up_bounds (v_addr w + v_len w)).
        assert (a_end (e, size) <= v_addr w) as Hfit by (unfold a_end; simpl; apply up_le; [lia|done]).
        eapply wp_mono; [apply (setup_placed size i e); [lia|done| |done|]|].
        -- split; [simpl; unfold MMAPBASE; lia|]. split; [done|]. split; [simpl; lia|]. unfold KERNBASE in *. lia.
        -- intros j b Hj Hjb. destruct (decide (j = Z.to_nat (i + 1))) as [->|].
           ++ rewrite Hwa in Hjb. injection Hjb as <-. done.
           ++ pose proof (ao_sorted _ Hp (Z.to_nat (i + 1)) j _ _ ltac:(lia) Hwa Hjb) as Hso.
              unfold a_end, area in Hso. simpl in Hso. lia.
        -- intros r p' [-> Hpl]. right. split; [lia|]. by exists e.
      * replace i with (total_vmas p - 1) by lia.
        eapply wp_mono; [apply setup_append; [done|unfold MMAPBASE; lia|done|lia|unfold KERNBASE; lia|]|].
        -- intros j b Hjb. apply (Hleft j); [|done]. apply lookup_lt_Some in Hjb. rewrite length_areas in Hjb. lia.
        -- intros r p' [H'|[? ?]]; [by left|]. right. split; [done|]. by exists e.
Qed.

Lemma find_gap_zero n size : find_gap n 0 0 size p = Ret (-1) p \/ total_vmas p <= Z.of_nat n.
Proof using Hp.
  destruct n as [|n]; [by left|]. destruct (decide (total_vmas p <= Z.of_nat (S n))); [by right|]. left.
  destruct (entry 0) as (v & Hv & _ & (Hv1 & _)); [lia|]. simpl in *. unfold bind.
  rewrite (get_vma_ret p 0 v) by done. unfold MMAPBASE in Hv1.
  rewrite (proj2 (Z.leb_le 0 (v_addr v))) by lia. done.
Qed.

Lemma check_spec addr size :
  total_vmas p < 32 -> 0 < size -> addr = 0 \/ MMAPBASE <= addr -> up addr + size < KERNBASE ->
  wp (check_mmap_possible addr size) (fun r p' =>
    (r = -1 /\ p' = p) \/ (0 <= r /\ placed p p' (Z.to_nat r) (up addr, size))) p.
Proof using Hp.
  intros Ht Hs Ha Hk. pose proof Hp as [Hlen Htot _ _ _ [Hb1 Hb2]].
  pose proof (up_bounds addr) as [[Hu _] Hum].
  assert (PGROUNDUP addr = up addr) as Er
    by (apply PGROUNDUP_small; unfold MMAPBASE in *; lia).
  unfold check_mmap_possible. wp_step. wp_step. unfold id. rewrite Er.
  destruct (decide (total_vmas p = 0)) as [E0|E0].
  - rewrite E0. wp_step. eapply (wp_run _ _ _ (before p) p); [done|]. rewrite Hb1, Hb2.
    change (PGROUNDUP (s32 (0 + 0))) with 0.
    destruct (Z.ltb_spec 0 (up addr)) as [Hpos|Hz].
    + replace (0 - 1) with (total_vmas p - 1) by lia. apply setup_append; try done; [|lia|].
      * destruct Ha as [->|Ha]; [done|lia].
      * intros j b Hj. apply lookup_lt_Some in Hj. rewrite length_areas in Hj. lia.
    + simpl. apply wp_ret. by left.
  - destruct (entry (Z.to_nat (total_vmas p - 1))) as (v & Hv & Hva & Hvo); [lia|].
    destruct (entry_end v Hvo) as (Ev & _ & _ & _ & _).
    apply wp_bind. eapply wp_run; [apply get_vma_ret; [lia|done]|]. rewrite Ev.
    pose proof Hvo as (Hv1 & _ & Hv3 & _). simpl in Hv1, Hv3. pose proof (up_bounds (v_addr v + v_len v)).
    assert (0 < a_end (area v)) as Hep by (unfold a_end, area, MMAPBASE in *; simpl; lia).
    destruct (Z.ltb_spec (a_end (area v)) (up addr)) as [Hlt|Hge].
    + apply setup_append; try done; [|lia|].
      * destruct Ha as [->|Ha]; [change (up 0) with 0 in Hlt; lia|lia].
      * intros j b Hjb. pose proof (lookup_lt_Some _ _ _ Hjb) as Hj. rewrite length_areas in Hj.
        destruct (decide (j = Z.to_nat (total_vmas p - 1))) as [->|].
        -- rewrite Hva in Hjb. injection Hjb as <-. lia.
        -- pose proof (ao_sorted _ Hp j (Z.to_nat (total_vmas p - 1)) _ _ ltac:(lia) Hjb Hva) as Hso.
           unfold a_end, area in *. simpl in *. lia.
    + destruct Ha as [->|Ha].
      * change (up 0) with 0. destruct (find_gap_zero (Z.to_nat (total_vmas p - 1)) size) as [E|E]; [|lia].
        eapply wp_run; [exact E|]. by left.
      * apply find_gap_spec; try done; lia.
Qed.
End search.

(** ** The invariant *)

Lemma enter_map_spec p p' k a prot flags off file :
  areas_ok p -> total_vmas p < 32 -> placed p p' k a -> (k <= Z.to_nat (total_vmas p))%nat ->
  wp (enter_map (Z.of_nat k) prot flags off file) (fun r p'' =>
    r = fst a /\ areas_ok p'' /\ areas p'' = ins k a (areas p) /\
    exists v, vmas p'' !! k = Some v /\ area v = a /\ v_flags v = flags /\
      v_prot v = Z.lor PTE_U prot /\ v_file v = file /\ v_offset v = off) p'.
Proof.
  intros Hp Ht Hpl Hk. pose proof Hp as [Hlen Htot Har Hso Hcl Hbe]. pose proof (length_areas p Hp) as Hla.
  pose proof Hpl as [Hsm Hl2 Hins Hrest Hkl Hok Hle Hri]. unfold NVMA in Hlen.
  assert (total_vmas p' = total_vmas p) as Etot by (by rewrite Hsm).
  assert (before p' = before p) as Ebef by (by rewrite Hsm).
  destruct (lookup_lt_is_Some_2 (vmas p') k) as [v Hv]; [lia|].
  unfold enter_map. apply wp_bind. eapply wp_run; [apply upd_vma_ret; lia|]. rewrite Nat2Z.id.
  set (f := set_map file flags (Z.lor PTE_U prot) off). wp_steps.
  set (p2 := set_total _ _).
  assert (vmas p2 !! k = Some (f v)) as Hv2 by (simpl; by rewrite list_lookup_alter_eq, Hv).
  assert (arr p2 = arr p') as Earr.
  { unfold arr. simpl. rewrite (alter_area _ id) by done. apply list_eq. intros m.
    destruct (decide (m = k)) as [->|]; [by rewrite list_lookup_alter_eq, option_fmap_id|].
    by rewrite list_lookup_alter_ne. }
  assert (areas p2 = ins k a (areas p)) as Ear.
  { unfold areas at 1. rewrite Earr. simpl. rewrite Etot.
    replace (Z.to_nat (total_vmas p + 1)) with (S (Z.to_nat (total_vmas p))) by lia. done. }
  assert (area (f v) = a) as Efa.
  { assert (arr p2 !! k = Some (area (f v))) as H1 by (unfold arr; by rewrite list_lookup_fmap, Hv2).
    assert (areas p2 !! k = Some a) as H2.
    { rewrite Ear, lookup_ins by lia. rewrite decide_False by lia. by rewrite decide_True. }
    unfold areas in H2. rewrite lookup_take_lt in H2 by (simpl; rewrite Etot; lia). congruence. }
  eapply wp_run; [apply get_vma_ret; [lia|by rewrite Nat2Z.id]|]. apply wp_ret.
  split; [by rewrite <-Efa|]. split; [|split; [done|]; by exists (f v)].
  assert (forall i b, areas p2 !! i = Some b ->
    (i = k /\ b = a) \/ (exists j, areas p !! j = Some b /\ ((i < k /\ j = i) \/ (k < i /\ S j = i))%nat)) as Hcase.
  { intros i b. rewrite Ear, lookup_ins by lia. destruct (decide (i < k)%nat).
    - intros Hb. right. exists i. split; [done|]. by left.
    - destruct (decide (i = k)) as [->|]; [intros [= <-]; by left|].
      intros Hb. right. exists (i - 1)%nat. split; [done|]. right. lia. }
  split.
  - simpl. rewrite length_alter. unfold NVMA. lia.
  - simpl. lia.
  - apply Forall_lookup. intros i b [[_ ->]|(j & Hj & _)]%Hcase; [done|]. by apply (Forall_lookup_1 _ _ _ _ Har Hj).
  - intros i j b c Hij [[-> ->]|(i' & Hi' & Hi2)]%Hcase [[Ej ->]|(j' & Hj' & Hj2)]%Hcase; [lia|..].
    + apply (Hri j'); [lia|done].
    + apply (Hle i'); [lia|done].
    + apply (Hso i' j'); [lia|done|done].
  - intros i w Hi Hw. simpl in Hi.
    assert (arr p2 !! i = arr p !! i) as E by (rewrite Earr; apply Hrest; lia).
    unfold arr in E. rewrite !list_lookup_fmap, Hw in E.
    destruct (vmas p !! i) as [u|] eqn:Hu; [|done]. injection E as -> _. apply (Hcl i); [lia|done].
  - simpl. rewrite Ebef. done.
Qed.

(** ** Theorems *)

(** C17: For a process whose areas are sorted, disjoint, page-aligned and inside
    [[MMAPBASE, KERNBASE)] (and whose unused entries are clear), a request for [len]
    bytes, without an address or at one in that range that leaves the area below
    [KERNBASE], either fails and changes nothing, or returns a page-aligned address and
    inserts exactly the area [(address, len)] into the sorted array with the requested
    protection, flags, file and offset; the invariant holds again, so the new area
    overlaps no other. A MAP_FIXED request succeeds only at the page of its address. *)
Theorem ummap_keeps_areas_disjoint p addr len prot flags off file :
  areas_ok p -> 0 < len < KERNBASE - MMAPBASE -> addr = 0 \/ MMAPBASE <= addr < 2 ^ 31 ->
  up addr + len < KERNBASE ->
  wp (ummap addr len prot flags off file) (fun r p' =>
    (r = -1 /\ p' = p) \/
    (areas_ok p' /\ r mod 4096 = 0 /\ (has flags MAP_FIXED = true -> r = up addr) /\
     exists k v, areas p' = ins k (r, len) (areas p) /\ vmas p' !! k = Some v /\
       area v = (r, len) /\ v_flags v = flags /\ v_prot v = Z.lor PTE_U prot /\
       v_file v = file /\ v_offset v = off)) p.
Proof.
  intros Hp Hlen Ha Hk. pose proof Hp as [Hl Ht _ _ _ _].
  pose proof (up_bounds addr) as [[Hu _] Hum].
  assert (PGROUNDUP addr = up addr) as Er by (apply PGROUNDUP_small; unfold MMAPBASE in *; lia).
  assert (forall r p' a, 0 <= r -> placed p p' (Z.to_nat r) (a, len) ->
    (has flags MAP_FIXED = true -> a = up addr) -> total_vmas p < 32 ->
    wp (enter_map r prot flags off file) (fun r p' =>
    (r = -1 /\ p' = p) \/
    (areas_ok p' /\ r mod 4096 = 0 /\ (has flags MAP_FIXED = true -> r = up addr) /\
     exists k v, areas p' = ins k (r, len) (areas p) /\ vmas p' !! k = Some v /\
       area v = (r, len) /\ v_flags v = flags /\ v_prot v = Z.lor PTE_U prot /\
       v_file v = file /\ v_offset v = off)) p') as Henter.
  { intros r p' a Hr Hpl Hfix Ht32. pose proof (pl_k _ _ _ _ Hpl) as Hkk.
    rewrite (length_areas p Hp) in Hkk. pose proof (pl_ok _ _ _ _ Hpl) as (_ & Hal & _).
    rewrite <-(Z2Nat.id r) by done. eapply wp_mono; [by apply (enter_map_spec p p')|].
    intros r' p'' (-> & Hok & Hins & v & Hv & Hav & H1 & H2 & H3 & H4). right.
    split; [done|]. split; [done|]. split; [done|]. by exists (Z.to_nat r), v. }
  unfold ummap. wp_step. wp_step. unfold id.
  destruct (Z.leb_spec 32 (total_vmas p)); [apply wp_ret; by left|].
  destruct (_ && _); [apply wp_ret; by left|]. cbv zeta.
  destruct (has flags MAP_FIXED) eqn:Ef.
  - destruct (_ || _); [apply wp_ret; by left|]. destruct (_ || _); [apply wp_ret; by left|].
    wp_step. eapply wp_mono; [apply (check_spec p Hp); [done|lia|destruct Ha; [by left|right; lia]|done]|].
    intros r p' [[-> ->]|[Hr Hpl]]; [simpl; apply wp_ret; by left|].
    rewrite (proj2 (Z.eqb_neq r (-1))) by lia. by eapply Henter.
  - destruct (_ <? _); [apply wp_ret; by left|].
    wp_step. eapply wp_mono; [apply (check_spec p Hp); [done|lia|destruct Ha; [by left|right; lia]|done]|].
    intros r p' [[-> ->]|[Hr Hpl]].
    + simpl. wp_step. eapply wp_mono; [by apply (find_mmap_addr_spec p Hp)|].
      intros r p' [[-> ->]|(Hr & a & Hpl)]; [simpl; apply wp_ret; by left|].
      rewrite (proj2 (Z.eqb_neq r (-1))) by lia. by eapply Henter.
    + rewrite (proj2 (Z.eqb_neq r (-1))) by lia. wp_steps.
      rewrite (proj2 (Z.eqb_neq r (-1))) by lia. by eapply Henter.
Qed.

(** The copy of the area that [do_map] works on has [stored_size] raised by a page
    before the size of the read is computed (and the raise is lost with the copy), so a
    fault in a file-backed area of [len] bytes reads [len - PGSIZE] bytes at most,
    whichever page faulted; for an area of one page or less it reads nothing. *)
Theorem file_page_short_read v :
  v_stored_size v = 0 -> 0 < v_len v < 2 ^ 31 ->
  read_size v PGSIZE = Z.min PGSIZE (v_len v - PGSIZE) /\ (v_len v <= PGSIZE -> read_size v PGSIZE <= 0).
Proof.
  intros Hs Hl. unfold read_size, PGSIZE. rewrite Hs. change (s32 (0 + 4096)) with 4096.
  rewrite s32_range by lia. destruct (Z.ltb_spec (v_len v - 4096) 4096); lia.
Qed.

(** ** A concrete memory *)

(** Page tables as vm.c has them: an entry can be looked up once any page of its 4 MB
    region has been mapped, and is 0 if its own page has not. *)
Record vmk := Vmk {
  tables : gset Z;
  ptes : gmap Z Z;
  next_page : Z;
  reads : list (Z * Z * Z);
}.

Definition map_one (va pa perm : Z) (k : vmk) : vmk :=
  Vmk ({[ va / 4194304 ]} ∪ tables k) (<[va / 4096 := Z.lor pa (Z.lor perm 1)]> (ptes k)) (next_page k) (reads k).

#[export] Instance example_vm : VmServices vmk := {
  kalloc := k <- gets id ;;
    modify (fun k => Vmk (tables k) (ptes k) (next_page k + 4096) (reads k)) ;;; ret (next_page k);
  kfree _ := ret tt;
  walk _ va := k <- gets id ;;
    ret (if decide (va / 4194304 ∈ tables k) then Some (default 0 (ptes k !! (va / 4096))) else None);
  clear_pte _ va := modify (fun k => Vmk (tables k) (<[va / 4096 := 0]> (ptes k)) (next_page k) (reads k));
  mappages _ va size pa perm := modify (map_one va pa perm) ;;; ret 0;
  zero_page _ := ret tt;
  copy_page _ _ := ret tt;
  fileread f a n := modify (fun k => Vmk (tables k) (ptes k) (next_page k) (reads k ++ [(f, a, n)])) ;;; ret n;
  filewrite _ _ n := ret n;
  set_off _ _ := ret tt;
}.

Definition example_proc : mproc := MProc 1 0 zero_vma (replicate NVMA zero_vma) 0.
Definition example_mst : mst (K := vmk) := MSt example_proc (Vmk ∅ ∅ 2164260864 []).

(** The fault handler takes an existing page table for a present page: in a private
    mapping of two pages the fault in the first page is served, and the fault in the
    second, never touched page kills the process. *)
Theorem private_second_page_kills :
  wp (on_proc (ummap 0 8192 PROT_WRITE (Z.lor MAP_PRIVATE MAP_ANONYMOUS) 0 0)) (fun a s1 =>
    a = MMAPBASE /\
    wp (pgft_handler a) (fun _ s2 => m_killed (mp s2) = 0 /\
      wp (pgft_handler (a + PGSIZE)) (fun _ s3 => m_killed (mp s3) = 1) s2) s1) example_mst.
Proof. by vm_compute. Qed.

(** Without MAP_FIXED the address is still used as a place, and it is not checked
    against [MMAPBASE]: a process without mappings that passes the hint 0x1000 gets its
    mapping there, in the middle of its program. *)
Theorem mmap_hint_below_base :
  wp (ummap 4096 4096 PROT_WRITE (Z.lor MAP_PRIVATE MAP_ANONYMOUS) 0 0)
    (fun a p' => a = 4096 /\ a < MMAPBASE /\ areas p' = [(4096, 4096)]) example_proc.
Proof. by vm_compute. Qed.

(** [umunmap] shifts the array left without clearing the entry behind the last one,
    and it searches all 32 entries: after two mappings are made and removed, removing
    the second once more succeeds again and leaves a negative number of mappings. *)
Theorem munmap_twice_succeeds :
  wp (on_proc (ummap 0 4096 0 (Z.lor MAP_PRIVATE MAP_ANONYMOUS) 0 0)) (fun a s1 =>
    wp (on_proc (ummap 0 4096 0 (Z.lor MAP_PRIVATE MAP_ANONYMOUS) 0 0)) (fun b s2 =>
      wp (umunmap a 4096 ;;; umunmap b 4096 ;;; umunmap b 4096)
        (fun r s3 => r = 0 /\ total_vmas (mp s3) = -1) s2) s1) example_mst.
Proof. by vm_compute. Qed.

(** ** Witnesses *)

Lemma example_areas_ok : areas_ok example_proc.
Proof.
  split; try done.
  intros i v _ Hv. by apply lookup_replicate_1 in Hv as [-> _].
Qed.

Lemma ummap_keeps_areas_disjoint_witness :
  wp (ummap 0 8192 PROT_WRITE (Z.lor MAP_PRIVATE MAP_ANONYMOUS) 0 0) (fun r p' => r = -1 \/ areas_ok p') example_proc.
Proof.
  eapply wp_mono; [apply (ummap_keeps_areas_disjoint example_proc 0 8192 PROT_WRITE (Z.lor MAP_PRIVATE MAP_ANONYMOUS) 0 0)|].
  - exact example_areas_ok.
  - vm_compute. split; reflexivity.
  - left. reflexivity.
  - reflexivity.
  - intros r p' [[H _]|[H _]]; [left|right]; exact H.
Defined.

Lemma file_page_short_read_witness : read_size (Vma 0 MMAPBASE 4096 0 1 5 0 0 0) PGSIZE <= 0.
Proof.
  apply (file_page_short_read (Vma 0 MMAPBASE 4096 0 1 5 0 0 0)).
  - reflexivity.
  - simpl. lia.
  - simpl. unfold PGSIZE. lia.
Defined.
