(* ===== verification/SafeQueue.v ===== *)
(** * The priority queue of the proxy server (p6: safequeue.c)

    The queue is a linked list behind a head node, kept in descending order of
    priority, with its length in the global [queue_size] of proxyserver.c (which
    [add_work] reads and its caller increments).  A queue state is the list of the
    jobs after the head node with that counter.  Memory for jobs is taken from an
    allocator that does not fail and that gives room for a whole [struct job], although the
    code asks for the size of a pointer only: what its writes behind those bytes destroy is not
    modelled. *)

From S2P Require Import Prelude CStr.
From Stdlib Require Import Sorting.Sorted.

(** [struct job], with [buffer] as the C string it holds. *)
Record job := Job {
  j_buffer : list Z;
  j_priority : Z;
  j_client_fd : Z;
  j_bytes_read : Z;
}.

Record queue := Queue { q_jobs : list job; queue_size : Z }.

Definition set_jobs (x : list job) (q : queue) : queue := Queue x (queue_size q).
Definition add_size (d : Z) (q : queue) : queue := Queue (q_jobs q) (s32 (queue_size q + d)).

Definition create_queue : queue := Queue [] 0.

(** The walk of [add_work] from the head node: stop before the first job of a lower
    priority, or at the end. *)
Fixpoint insert_job (new : job) (l : list job) : list job :=
  match l with
  | [] => [new]
  | j :: l' => if j_priority j <? j_priority new then new :: l else j :: insert_job new l'
  end.

Definition add_work (buffer : list Z) (max_size client_fd bytes_read : Z) : M queue Z :=
  q <- gets id ;;
  if queue_size q =? max_size then ret 0
  else
    c <- deref "buffer[5]" (buffer !! 5%nat) ;;
    s <- deref "strcpy" (cstr buffer) ;;
    modify (fun q => set_jobs
      (insert_job (Job s (s8 c - 48) client_fd bytes_read) (q_jobs q)) q) ;;;
    ret 1.

Definition get_work : M queue (option job) := gets (fun q => head (q_jobs q)).

Definition get_work_nonblocking : M queue job :=
  q <- gets id ;;
  j <- deref "ret->next" (head (q_jobs q)) ;;
  modify (set_jobs (tail (q_jobs q))) ;;;
  modify (add_size (-1)) ;;;
  ret j.

(** ** Specification *)

(** Served from the front: no job waits behind one of a lower priority. *)
Definition served_before (a b : job) : Prop := j_priority b <= j_priority a.
#[export] Instance served_before_trans : Transitive served_before.
Proof. unfold served_before. intros a b c. lia. Qed.

Record queue_ok (max : Z) (q : queue) : Prop := QueueOk {
  qo_sorted : StronglySorted served_before (q_jobs q);
  qo_size : queue_size q = Z.of_nat (length (q_jobs q));
  qo_max : queue_size q <= max < 2 ^ 31;
}.

(** The jobs of one priority, in the order of the queue. *)
Definition with_priority (p : Z) (l : list job) : list job :=
  filter (fun j => j_priority j = p) l.

(** ** Lemmas *)

Lemma insert_job_perm new l : insert_job new l ≡ₚ new :: l.
Proof.
  induction l as [|j l IH]; simpl; [done|]. destruct (_ <? _); [done|].
  rewrite IH. apply Permutation_swap.
Qed.

Lemma insert_job_sorted new l :
  StronglySorted served_before l -> StronglySorted served_before (insert_job new l).
Proof.
  induction 1 as [|j l Hl IH Hj]; simpl; [by repeat constructor|].
  destruct (_ <? _) eqn:E.
  - constructor; [by constructor|]. apply Z.ltb_lt in E. unfold served_before in *.
    constructor; [lia|]. eapply Forall_impl; [exact Hj|]. simpl. lia.
  - apply Z.ltb_ge in E. constructor; [done|]. rewrite insert_job_perm. by constructor.
Qed.

(** Where the new job lands: behind every job of its priority or higher. *)
Lemma insert_job_split new l :
  StronglySorted served_before l ->
  exists front back, l = front ++ back /\ insert_job new l = front ++ new :: back /\
    Forall (fun j => j_priority new <= j_priority j) front /\
    Forall (fun j => j_priority j < j_priority new) back.
Proof.
  induction 1 as [|j l Hl IH Hj]; simpl; [by exists [], []|].
  destruct (_ <? _) eqn:E.
  - apply Z.ltb_lt in E. exists [], (j :: l). split; [done|]. split; [done|]. split; [done|].
    constructor; [done|]. eapply Forall_impl; [exact Hj|]. unfold served_before. simpl. lia.
  - apply Z.ltb_ge in E. destruct IH as (f & b & -> & -> & ? & ?).
    exists (j :: f), b. split; [done|]. split; [done|]. split; [by constructor|done].
Qed.

(** Jobs of one priority are served in the order of their arrival. *)
Lemma insert_job_stable new l :
  StronglySorted served_before l ->
  with_priority (j_priority new) (insert_job new l) = with_priority (j_priority new) l ++ [new].
Proof.
  intros Hl. destruct (insert_job_split new l Hl) as (f & b & -> & -> & _ & Hb).
  unfold with_priority. rewrite !filter_app, filter_cons_True by done.
  assert (filter (fun j => j_priority j = j_priority new) b = []) as ->.
  { clear -Hb. induction Hb as [|j b Hj _ IH]; [done|]. by rewrite filter_cons_False by lia. }
  by rewrite app_nil_r.
Qed.

Lemma add_work_ret q buffer max fd n c s :
  queue_size q <> max -> buffer !! 5%nat = Some c -> cstr buffer = Some s ->
  add_work buffer max fd n q =
  Ret 1 (set_jobs (insert_job (Job s (s8 c - 48) fd n) (q_jobs q)) q).
Proof.
  intros Hq Hc Hs. unfold add_work, bind, gets, deref, modify, ret. simpl.
  apply Z.eqb_neq in Hq as ->. by rewrite Hc, Hs.
Qed.

Lemma s32_add_small x d : - 2 ^ 31 <= x + d < 2 ^ 31 -> s32 (x + d) = x + d.
Proof. intros. unfold s32. rewrite Z.mod_small; lia. Qed.

Lemma add_work_ok q max new :
  queue_ok max q -> queue_size q <> max ->
  queue_ok max (add_size 1 (set_jobs (insert_job new (q_jobs q)) q)).
Proof.
  intros [Hs Hn Hm] Hne. split; simpl.
  - by apply insert_job_sorted.
  - rewrite s32_add_small by lia. rewrite insert_job_perm. simpl. lia.
  - rewrite s32_add_small; lia.
Qed.

Lemma pop_ok q max j l :
  queue_ok max q -> q_jobs q = j :: l -> queue_ok max (add_size (-1) (set_jobs l q)).
Proof.
  intros [Hs Hn Hm] E. rewrite E in *. apply StronglySorted_inv in Hs as [Hs _]. simpl in Hn.
  split; simpl; [done| |]; rewrite s32_add_small; lia.
Qed.

(** ** Theorems *)

(** C18: [add_work], followed by its caller's increment of [queue_size], keeps the queue
    in descending order of priority and the counter equal to the number of jobs. The
    new job is served after every waiting job of the same or a higher priority and
    before every job of a lower one, and no other job is lost, duplicated or reordered;
    when the queue already holds [max_size] jobs the call returns 0 and changes nothing. *)
Theorem add_work_priority q buffer max fd n c s :
  queue_ok max q -> buffer !! 5%nat = Some c -> cstr buffer = Some s ->
  let new := Job s (s8 c - 48) fd n in
  if queue_size q =? max then add_work buffer max fd n q = Ret 0 q
  else exists front back,
    q_jobs q = front ++ back /\
    add_work buffer max fd n q = Ret 1 (Queue (front ++ new :: back) (queue_size q)) /\
    Forall (fun j => j_priority new <= j_priority j) front /\
    Forall (fun j => j_priority j < j_priority new) back /\
    with_priority (j_priority new) (front ++ new :: back) =
      with_priority (j_priority new) (q_jobs q) ++ [new] /\
    queue_ok max (add_size 1 (Queue (front ++ new :: back) (queue_size q))).
Proof.
  intros Hq Hc Hs new. destruct (_ =? _) eqn:E.
  - unfold add_work, bind, gets. simpl. by rewrite E.
  - apply Z.eqb_neq in E. pose proof (qo_sorted _ _ Hq) as Hso.
    destruct (insert_job_split new _ Hso) as (f & b & Hl & Hi & Hf & Hb).
    exists f, b. rewrite (add_work_ret q buffer max fd n c s) by done. fold new.
    unfold set_jobs. split_and!; try done; [by rewrite Hi| |].
    + rewrite <-Hi. by apply insert_job_stable.
    + pose proof (add_work_ok q max new Hq E) as H. unfold set_jobs in H. by rewrite Hi in H.
Qed.

(** [get_work_nonblocking] on a queue with a job removes and returns the job of the
    highest priority (the oldest of those), keeps the queue's invariant, and
    dereferences the null pointer on an empty queue. *)
Theorem get_work_nonblocking_pops q max :
  queue_ok max q ->
  match q_jobs q with
  | [] => get_work_nonblocking q = Undef "ret->next"
  | j :: l =>
      wp get_work_nonblocking (fun r q' =>
        r = j /\ q_jobs q' = l /\ queue_ok max q' /\
        Forall (fun k => j_priority k <= j_priority j) l) q
  end.
Proof.
  intros Hq. destruct (q_jobs q) as [|j l] eqn:E.
  - unfold get_work_nonblocking, bind, gets, deref. simpl. by rewrite E.
  - unfold get_work_nonblocking. wp_steps. simpl. rewrite E. eapply wp_deref; [done|].
    wp_steps. simpl. split_and!; [done|done|by eapply pop_ok|].
    pose proof (qo_sorted _ _ Hq) as Hs. rewrite E in Hs. by apply StronglySorted_inv in Hs as [_ ?].
Qed.

(** ** Witnesses *)

(** A request for a file of directory [p]. *)
Definition example_request (p : string) : list Z := str ("GET /" ++ p ++ "/a.html HTTP/1.0")%string ++ [0].

Definition example_queue : queue :=
  Queue [Job (str "GET /7/") 7 4 30; Job (str "GET /3/") 3 5 30; Job (str "GET /3/b") 3 6 30] 3.

Lemma example_queue_ok : queue_ok 100 example_queue.
Proof. split; [|done|done]. repeat constructor; unfold served_before; simpl; lia. Qed.

Lemma add_work_priority_witness :
  exists front back, q_jobs example_queue = front ++ back /\ length front = 1%nat.
Proof.
  destruct (add_work_priority example_queue (example_request "5") 100 9 40 53
    (str "GET /5/a.html HTTP/1.0")) as (f & b & Hl & _ & Hf & Hb & _).
  - exact example_queue_ok.
  - reflexivity.
  - reflexivity.
  - exists f, b. split; [exact Hl|].
    destruct f as [|j1 [|j2 f]]; [| reflexivity |]; simpl in Hl.
    + subst b. inversion Hb as [|? ? H]. simpl in H. vm_compute in H. discriminate.
    + injection Hl as <- <- _. inversion Hf as [|? ? _ H]. inversion H as [|? ? H' _].
      vm_compute in H'. destruct (H' eq_refl).
Defined.

Lemma get_work_nonblocking_pops_witness :
  wp get_work_nonblocking (fun r q' => j_priority r = 7 /\ queue_ok 100 q') example_queue.
Proof.
  eapply wp_mono; [apply (get_work_nonblocking_pops example_queue 100)|].
  - exact example_queue_ok.
  - intros r q' (-> & _ & H & _). split; [reflexivity|exact H].
Defined.
