(* ===== verification/Proxy.v ===== *)
(** * The proxy server (p6: proxyserver.c, proxyserver.h)

    Request parsing and responses as functions on byte strings, the option parser of
    [main], and the listener and worker threads as a transition system over the shared
    priority queue.  A step of a thread is one section that the code runs with the
    mutex [lock] held, one unlocked test of [queue_size], or the call of
    [pthread_cond_signal], which a listener makes after it has unlocked.
    [pthread_cond_wait] puts a worker into a waiting state from which a signal takes one
    worker, and from which it may come back by itself, as POSIX allows.  The jobs accepted
    and the jobs taken so far are recorded on the side.
    Sockets are out of the model: a listener receives an arbitrary buffer, and what it
    sends is recorded as (descriptor, bytes). *)

From S2P Require Import Prelude CStr SafeQueue.
From stdpp Require Import pretty.
Local Open Scope Z_scope.

(** ** Responses *)

Definition OK : Z := 200.
Definition BAD_REQUEST : Z := 400.
Definition BAD_GATEWAY : Z := 502.
Definition SERVER_ERROR : Z := 500.
Definition QUEUE_FULL : Z := 599.
Definition QUEUE_EMPTY : Z := 598.
Definition CRLF : list Z := [CR; LF].

Definition http_get_response_message (code : Z) : list Z :=
  str (if code =? 100 then "Continue"
       else if code =? 200 then "OK"
       else if code =? 301 then "Moved Permanently"
       else if code =? 302 then "Found"
       else if code =? 304 then "Not Modified"
       else if code =? 400 then "Bad Request"
       else if code =? 401 then "Unauthorized"
       else if code =? 403 then "Forbidden"
       else if code =? 404 then "Not Found"
       else if code =? 405 then "Method Not Allowed"
       else "Internal Server Error").

Definition http_start_response (code : Z) : list Z :=
  str "HTTP/1.0 " ++ str (pretty code) ++ [SP] ++ http_get_response_message code ++ CRLF.
Definition http_send_header (key value : list Z) : list Z := key ++ str ": " ++ value ++ CRLF.
Definition http_end_headers : list Z := CRLF.

(** What [send_error_response] writes to the client. *)
Definition send_error_response (code : Z) (msg : list Z) : list Z :=
  http_start_response code ++ http_send_header (str "Content-Type") (str "text/html") ++
  http_end_headers ++ (msg ++ [LF]).

(** [http_send_data] against the results of its successive calls of [write]: the
    return value and the chunks accepted; [None] when it still waits for a result. *)
Fixpoint http_send_data (results : list Z) (data : list Z) : option (Z * list (list Z)) :=
  match data with
  | [] => Some (0, [])
  | _ :: _ =>
      match results with
      | [] => None
      | n :: results' =>
          if n <? 0 then Some (-1, [])
          else
            match http_send_data results' (drop (Z.to_nat n) data) with
            | Some (r, chunks) => Some (r, take (Z.to_nat n) data :: chunks)
            | None => None
            end
      end
  end.

(** ** Requests *)

Record http_request := HttpRequest { hr_method : list Z; hr_path : list Z }.

Definition is_upper (c : Z) : bool := (65 <=? c) && (c <=? 90).

Definition LIBHTTP_REQUEST_MAX_SIZE : nat := Z.to_nat 8192.

(** The loops of [http_request_parse] over the buffer, which ends in a NUL. *)
Definition parse_buffer (buffer : list Z) : option http_request :=
  let '(method, r1) := span is_upper buffer in
  match method, r1 with
  | _ :: _, c :: r2 =>
      if c =? SP then
        let '(path, r3) := span (fun c => negb (c =? NUL) && negb (c =? SP) && negb (c =? LF)) r2 in
        match path with
        | [] => None
        | _ :: _ =>
            match snd (span (fun c => negb (c =? NUL) && negb (c =? LF)) r3) with
            | c :: _ => if c =? LF then Some (HttpRequest method path) else None
            | [] => None
            end
        end
      else None
  | _, _ => None
  end.

(** The bytes that wait at the descriptor, [None] when [read] fails; the NUL is then stored at
    [read_buffer[-1]]. *)
Definition http_request_parse {S} (fd : option (list Z)) : M S (option http_request) :=
  match fd with
  | None => undef "read_buffer[-1]"
  | Some input => ret (parse_buffer (take LIBHTTP_REQUEST_MAX_SIZE input ++ [NUL]))
  end.

Definition delayHeader : list Z := str "Delay: ".

Definition extractDelayTime (request : list Z) : Z :=
  match strstr request delayHeader with
  | None => -1
  | Some delayPosition =>
      match strstr delayPosition CRLF with
      | None => -1
      | Some lineEnd =>
          let value := drop (length delayHeader) delayPosition in
          let delayLength := (length value - length lineEnd)%nat in
          atoi (take delayLength value)
      end
  end.

(** [handle_get_job]: the response with the path of the first line of the job. *)
Definition handle_get_job {S} (buffer : list Z) : M S (list Z) :=
  match strtok_all CRLF buffer with
  | [] => undef "strlen(path)"
  | token :: _ =>
      s1 <- deref "s1" (strstr token [SP]) ;;
      s2 <- deref "s2" (strstr (tail s1) [SP]) ;;
      ret (send_error_response OK (take (length (tail s1) - length s2) (tail s1)))
  end.

(** ** Options of [main] *)

Record settings := Settings {
  num_listener : Z;
  listener_ports : list Z;
  num_workers : Z;
  fileserver_ipaddr : option (list Z);
  fileserver_port : Z;
  max_queue_size : Z;
}.

Definition default_settings : settings :=
  Settings 1 [8000] 1 (Some (str "127.0.0.1")) 3333 100.

(** [n] ports from the arguments; [atoi(argv[argc])] reads a null pointer. *)
Fixpoint read_ports {S} (n : nat) (args : list (list Z)) : M S (list Z * list (list Z)) :=
  match n, args with
  | O, _ => ret ([], args)
  | S _, [] => undef "atoi(NULL)"
  | S n', a :: args' =>
      r <- read_ports n' args' ;;
      ret (atoi a :: fst r, snd r)
  end.

(** The loop over [argv]; an unknown option prints the usage and exits. *)
Fixpoint parse_args (fuel : nat) (args : list (list Z)) : M settings unit :=
  match fuel, args with
  | _, [] => ret tt
  | O, _ :: _ => fun _ => Timeout
  | S f, o :: args1 =>
      if str_eqb (str "-l") o then
        match args1 with
        | [] => undef "atoi(NULL)"
        | n :: args2 =>
            r <- read_ports (Z.to_nat (atoi n)) args2 ;;
            modify (fun s => Settings (atoi n) (fst r) (num_workers s)
              (fileserver_ipaddr s) (fileserver_port s) (max_queue_size s)) ;;;
            parse_args f (snd r)
        end
      else if str_eqb (str "-w") o then
        match args1 with
        | [] => undef "atoi(NULL)"
        | n :: args2 =>
            modify (fun s => Settings (num_listener s) (listener_ports s) (atoi n)
              (fileserver_ipaddr s) (fileserver_port s) (max_queue_size s)) ;;;
            parse_args f args2
        end
      else if str_eqb (str "-q") o then
        match args1 with
        | [] => undef "atoi(NULL)"
        | n :: args2 =>
            modify (fun s => Settings (num_listener s) (listener_ports s) (num_workers s)
              (fileserver_ipaddr s) (fileserver_port s) (atoi n)) ;;;
            parse_args f args2
        end
      else if str_eqb (str "-i") o then
        modify (fun s => Settings (num_listener s) (listener_ports s) (num_workers s)
          (head args1) (fileserver_port s) (max_queue_size s)) ;;;
        parse_args f (tail args1)
      else if str_eqb (str "-p") o then
        match args1 with
        | [] => undef "atoi(NULL)"
        | n :: args2 =>
            modify (fun s => Settings (num_listener s) (listener_ports s) (num_workers s)
              (fileserver_ipaddr s) (atoi n) (max_queue_size s)) ;;;
            parse_args f args2
        end
      else panic "Usage"
  end.

(** ** Threads *)

Inductive listener :=
| LIdle                                            (* in accept() or read() *)
| LReq (buffer : list Z) (client_fd bytes_read : Z)  (* a request was read *)
| LPop (client_fd : Z)                             (* GetJob, saw queue_size != 0 *)
| LSignal.                                         (* unlocked, before pthread_cond_signal() *)

Inductive wstate :=
| WIdle                                            (* at the top of the loop *)
| WWait                                            (* in pthread_cond_wait() *)
| WWoken                                           (* back from pthread_cond_wait() *)
| WServe (j : job).                                (* in serve_request() *)

Definition GETJOBCMD : list Z := str "/GetJob".
Definition is_getjob (s : list Z) : bool := match strstr s GETJOBCMD with Some _ => true | None => false end.

(** What a step of a listener leaves: its new state and a response. *)
Record reply := Reply { rp_next : listener; rp_sent : list (Z * list Z) }.

(** The body of [serve_forever]'s loop after [read]. *)
Definition listener_step (max : Z) (l : listener) : M queue reply :=
  match l with
  | LIdle => ret (Reply LIdle [])
  | LReq buffer fd n =>
      s <- deref "strstr" (cstr buffer) ;;
      if is_getjob s then
        q <- gets id ;;
        if queue_size q =? 0 then
          ret (Reply LIdle [(fd, send_error_response QUEUE_EMPTY (str "Queue EMPTY"))])
        else ret (Reply (LPop fd) [])
      else
        r <- add_work buffer max fd n ;;
        if r =? 0 then
          ret (Reply LIdle [(fd, send_error_response QUEUE_FULL (str "Queue FULL"))])
        else
          modify (add_size 1) ;;;
          ret (Reply LSignal [])
  | LPop fd =>
      j <- get_work_nonblocking ;;
      resp <- handle_get_job (j_buffer j) ;;
      ret (Reply LIdle [(fd, resp)])
  | LSignal => ret (Reply LIdle [])
  end.

(** The locked section of [worker] after the wait. *)
Definition worker_take : M queue job :=
  j <- get_work ;;
  j <- deref "worker_job->next" j ;;
  modify (fun q => set_jobs (tail (q_jobs q)) q) ;;;
  modify (add_size (-1)) ;;;
  ret j.

Definition worker_step (w : wstate) : M queue wstate :=
  match w with
  | WIdle =>
      q <- gets id ;;
      if queue_size q =? 0 then ret WWait
      else j <- worker_take ;; ret (WServe j)
  | WWait => ret WWait
  | WWoken => j <- worker_take ;; ret (WServe j)
  | WServe _ => ret WIdle
  end.

Record proxy := Proxy {
  px_queue : queue;
  px_listeners : list listener;
  px_workers : list wstate;
  px_sent : list (Z * list Z);
  px_accepted : list job;
  px_taken : list job;
}.

(** The job that a listener has put into the queue, and the one that a worker has taken. *)
Definition added (l l' : listener) : list job :=
  match l, l' with
  | LReq buffer fd n, LSignal =>
      match buffer !! 5%nat, cstr buffer with Some c, Some s => [Job s (s8 c - 48) fd n] | _, _ => [] end
  | _, _ => []
  end.
Definition taken (w : wstate) : list job := match w with WServe j => [j] | _ => [] end.

Section threads.
Context (max : Z).
(** The requests that clients may send. *)
Context (request : list Z -> Prop).

Inductive pstep : proxy -> proxy -> Prop :=
| step_recv q ls ws out ac tk i buffer fd n :
    ls !! i = Some LIdle -> request buffer ->
    pstep (Proxy q ls ws out ac tk) (Proxy q (<[i := LReq buffer fd n]> ls) ws out ac tk)
| step_listener q ls ws out ac tk i l r q' :
    ls !! i = Some l -> l <> LSignal -> listener_step max l q = Ret r q' ->
    pstep (Proxy q ls ws out ac tk)
      (Proxy q' (<[i := rp_next r]> ls) ws (out ++ rp_sent r) (ac ++ added l (rp_next r)) tk)
| step_signal q ls ws out ac tk i j :
    ls !! i = Some LSignal -> ws !! j = Some WWait ->
    pstep (Proxy q ls ws out ac tk) (Proxy q (<[i := LIdle]> ls) (<[j := WWoken]> ws) out ac tk)
| step_signal_none q ls ws out ac tk i :
    ls !! i = Some LSignal -> WWait ∉ ws ->
    pstep (Proxy q ls ws out ac tk) (Proxy q (<[i := LIdle]> ls) ws out ac tk)
| step_spurious q ls ws out ac tk j :
    ws !! j = Some WWait ->
    pstep (Proxy q ls ws out ac tk) (Proxy q ls (<[j := WWoken]> ws) out ac tk)
| step_worker q ls ws out ac tk j w w' q' :
    ws !! j = Some w -> worker_step w q = Ret w' q' ->
    pstep (Proxy q ls ws out ac tk) (Proxy q' ls (<[j := w']> ws) out ac (tk ++ taken w')).

End threads.

(** A thread whose next step dereferences a null pointer. *)
Definition crashes (max : Z) (x : proxy) : Prop :=
  (exists i l why, px_listeners x !! i = Some l /\ listener_step max l (px_queue x) = Undef why) \/
  (exists j w why, px_workers x !! j = Some w /\ worker_step w (px_queue x) = Undef why).

Definition start (listeners workers : nat) : proxy :=
  Proxy create_queue (replicate listeners LIdle) (replicate workers WIdle) [] [] [].

(** ** Lemmas *)

Lemma http_send_data_prefix results data r chunks :
  http_send_data results data = Some (r, chunks) ->
  mjoin chunks `prefix_of` data /\ (r = 0 -> mjoin chunks = data).
Proof.
  revert data r chunks. induction results as [|n results IH]; intros [|c data] r chunks;
    cbn [http_send_data]; try done; try (intros [= <- <-]; done).
  destruct (_ <? _); [intros [= <- <-]; split; [apply prefix_nil|done]|].
  destruct (http_send_data _ _) as [[r' ch]|] eqn:E; [|done]. intros [= <- <-].
  destruct (IH _ _ _ E) as [[k Hp] Hz]. simpl mjoin.
  pose proof (take_drop (Z.to_nat n) (c :: data)) as Htd. split.
  - exists k. rewrite <-app_assoc, <-Hp. done.
  - intros ->. by rewrite Hz.
Qed.

Lemma http_send_data_progress results data :
  Forall (fun n => 1 <= n) results -> (length data <= length results)%nat ->
  exists chunks, http_send_data results data = Some (0, chunks).
Proof.
  intros Hr. revert data. induction Hr as [|n results Hn _ IH]; intros [|c data] Hl;
    cbn [http_send_data]; try (by eexists); [simpl in Hl; lia|].
  rewrite (proj2 (Z.ltb_ge n 0)) by lia.
  destruct (IH (drop (Z.to_nat n) (c :: data))) as [ch ->].
  { rewrite length_drop. simpl in *. lia. }
  by eexists.
Qed.

(** Bytes of a request line part. *)
Definition no_byte (d : list Z) (s : list Z) : Prop := Forall (fun c => in_set d c = false) s.

Lemma strstr_sp s r : no_byte [SP] s -> strstr (s ++ SP :: r) [SP] = Some (SP :: r).
Proof.
  induction 1 as [|c s Hc _ IH]; [done|]. cbn [app strstr starts_with].
  unfold in_set in Hc. cbn [existsb] in Hc. rewrite orb_false_r in Hc.
  by rewrite (Z.eqb_sym SP c), Hc.
Qed.

Lemma no_byte_app d a b : no_byte d (a ++ b) <-> no_byte d a /\ no_byte d b.
Proof. apply Forall_app. Qed.

Lemma no_byte_mono d d' s : (forall c, in_set d c = true -> in_set d' c = true) ->
  no_byte d' s -> no_byte d s.
Proof.
  intros Hd Hs. eapply Forall_impl; [exact Hs|]. simpl. intros c Hc.
  destruct (in_set d c) eqn:E; [|done]. by rewrite (Hd c E) in Hc.
Qed.

(** The first token: the bytes up to the first delimiter. *)
Lemma strtok_all_first d t c r :
  t <> [] -> no_byte d t -> in_set d c = true ->
  head (strtok_all d (t ++ c :: r)) = Some t.
Proof.
  intros Hne Ht Hc. unfold strtok_all. cbn [tokens]. unfold strtok.
  destruct t as [|x t]; [done|]. pose proof Ht as Hx%Forall_inv. cbn [app span]. simpl in Hx.
  rewrite Hx. change (x :: t ++ c :: r) with ((x :: t) ++ c :: r).
  rewrite span_stop; [done| |by rewrite Hc].
  eapply Forall_impl; [exact Ht|]. simpl. by intros ? ->.
Qed.

(** ** The request parser *)

(** A request line and what follows it. *)
Definition request_line (method path rest body : list Z) : list Z :=
  method ++ SP :: path ++ rest ++ LF :: body.

Lemma path_byte c : negb (c =? NUL) && negb (c =? SP) && negb (c =? LF) = negb (in_set [NUL; SP; LF] c).
Proof. unfold in_set. cbn [existsb]. by rewrite orb_false_r, !negb_orb, andb_assoc. Qed.
Lemma rest_byte c : negb (c =? NUL) && negb (c =? LF) = negb (in_set [NUL; LF] c).
Proof. unfold in_set. cbn [existsb]. by rewrite orb_false_r, negb_orb. Qed.

Lemma snoc_split {A} (c : A) w r l : w ++ r = l ++ [c] -> last w <> Some c -> exists body, l = w ++ body.
Proof.
  destruct r as [|x r _] using rev_ind.
  - rewrite app_nil_r. intros ->. by rewrite last_snoc.
  - rewrite app_assoc. intros [<- _]%app_inj_tail _. by exists r.
Qed.

(** The NUL behind the input ends every loop. *)
Lemma parse_buffer_iff input method path :
  parse_buffer (input ++ [NUL]) = Some (HttpRequest method path) <->
  exists rest body, input = request_line method path rest body /\
    method <> [] /\ Forall (fun c => is_upper c = true) method /\
    path <> [] /\ no_byte [NUL; SP; LF] path /\
    no_byte [NUL; LF] rest /\ match rest with [] => True | c :: _ => c = SP end.
Proof.
  unfold parse_buffer. split.
  - destruct (span is_upper (input ++ [NUL])) as [m r1] eqn:E1. apply span_spec in E1 as (Ei & Hm & _).
    destruct m as [|x m], r1 as [|c r2]; try done. destruct (Z.eqb_spec c SP) as [->|]; [|done].
    destruct (span _ r2) as [p r3] eqn:E2. apply span_spec in E2 as (-> & Hp & Hr3).
    destruct p as [|y p]; [done|].
    destruct (span _ r3) as [v r4] eqn:E3. apply span_spec in E3 as (-> & Hv & Hr4). cbn [snd].
    destruct r4 as [|d r5]; [done|]. destruct (Z.eqb_spec d LF) as [->|]; [|done]. intros [= <- <-].
    destruct (snoc_split NUL (((x :: m) ++ SP :: (y :: p) ++ v) ++ [LF]) r5 input) as (body & ->).
    { rewrite Ei. simpl. repeat (rewrite <-app_assoc; simpl). done. } { by rewrite last_snoc. }
    exists v, body. split_and!; try done.
    + unfold request_line. simpl. repeat (rewrite <-app_assoc; simpl). done.
    + eapply Forall_impl; [exact Hp|]. cbv beta. intros z. rewrite path_byte. by intros ?%negb_true_iff.
    + eapply Forall_impl; [exact Hv|]. cbv beta. intros z. rewrite rest_byte. by intros ?%negb_true_iff.
    + destruct v as [|z v]; [done|]. simpl in Hr3. apply Forall_inv in Hv. simpl in Hv. apply andb_true_iff in Hv as [Hv1 Hv2].
      rewrite Hv1, Hv2, andb_true_r in Hr3. by apply negb_false_iff, Z.eqb_eq in Hr3.
  - intros (rest & body & -> & Hm & Hup & Hp & Hnp & Hnr & Hr). unfold request_line.
    rewrite <-app_assoc, <-app_comm_cons, <-!app_assoc. rewrite span_stop by done. destruct method as [|x m]; [done|]. rewrite Z.eqb_refl.
    rewrite span_stop.
    + destruct path as [|y p]; [done|]. cbn [app]. rewrite span_stop; [done| |done].
      eapply Forall_impl; [exact Hnr|]. cbv beta. intros z Hz. by rewrite rest_byte, Hz.
    + eapply Forall_impl; [exact Hnp|]. cbv beta. intros z Hz. by rewrite path_byte, Hz.
    + destruct rest as [|z rest]; [done|]. simpl. by subst z.
Qed.

(** ** The thread invariant without GetJob requests *)

(** A GetJob request to an empty queue unlocks a mutex that the listener does not hold, after
    which nothing protects the queue; the invariant is about the other requests. *)
Definition file_request (buffer : list Z) : Prop :=
  exists s c, cstr buffer = Some s /\ buffer !! 5%nat = Some c /\ is_getjob s = false.

Definition listener_ok (l : listener) : Prop :=
  match l with
  | LReq buffer _ _ => file_request buffer
  | LPop _ => False
  | _ => True
  end.

Record proxy_ok (max : Z) (x : proxy) : Prop := ProxyOk {
  po_queue : queue_ok max (px_queue x);
  po_listeners : Forall listener_ok (px_listeners x);
  po_jobs : px_accepted x ≡ₚ px_taken x ++ q_jobs (px_queue x);
  po_some : px_workers x <> [];
  po_awake : q_jobs (px_queue x) <> [] -> LSignal ∈ px_listeners x \/ exists w, w ∈ px_workers x /\ w <> WWait
}.

Lemma queue_empty max q : queue_ok max q -> queue_size q = 0 <-> q_jobs q = [].
Proof.
  intros [_ Hn _]. rewrite Hn. split.
  - destruct (q_jobs q); simpl; [done|lia].
  - by intros ->.
Qed.

Lemma listener_step_ok max l q :
  listener_ok l -> queue_ok max q ->
  wp (listener_step max l) (fun r q' =>
    queue_ok max q' /\ listener_ok (rp_next r) /\ q_jobs q' ≡ₚ added l (rp_next r) ++ q_jobs q /\
    (q_jobs q' <> [] -> rp_next r = LSignal \/ q_jobs q <> [])) q.
Proof.
  intros Hl Hq. destruct l as [|buffer fd n|fd|]; simpl in *; [wp_steps; split_and!; auto; done| |done|wp_steps; split_and!; auto; done].
  destruct Hl as (s & c & Hs & Hc & Hg). wp_steps. eapply wp_deref; [done|]. rewrite Hg. wp_steps.
  destruct (decide (queue_size q = max)) as [E|E].
  - eapply (wp_run _ _ _ 0 q); [|wp_steps; split_and!; auto; done].
    unfold add_work, bind, gets. simpl. by rewrite E, Z.eqb_refl.
  - eapply wp_run; [by apply (add_work_ret q buffer max fd n c s)|]. cbn [Z.eqb]. wp_steps.
    split; [by apply add_work_ok|]. split; [done|]. simpl. rewrite Hc, Hs. split; [|auto].
    by rewrite insert_job_perm.
Qed.

Lemma worker_take_ok max q :
  queue_ok max q -> q_jobs q <> [] ->
  wp worker_take (fun j q' => q_jobs q = j :: q_jobs q' /\ queue_ok max q') q.
Proof.
  intros Hq Hne. destruct (q_jobs q) as [|j l] eqn:E; [done|].
  unfold worker_take, get_work. wp_steps. rewrite E. eapply wp_deref; [done|]. wp_steps. simpl.
  rewrite E. split; [done|]. by eapply pop_ok.
Qed.

(** A worker fails only when it comes back from the wait and the queue is empty. *)
Lemma worker_step_ok max w q :
  queue_ok max q -> (w = WWoken -> q_jobs q <> []) ->
  wp (worker_step w) (fun w' q' => queue_ok max q' /\ q_jobs q = taken w' ++ q_jobs q' /\
    (w' = WWait -> w = WWait \/ q_jobs q' = [])) q.
Proof.
  intros Hq Hw. destruct w; simpl; wp_steps; simpl.
  - destruct (_ =? 0) eqn:E; wp_steps.
    + split_and!; [done|done|]. right. by apply (queue_empty max), Z.eqb_eq.
    + eapply wp_mono; [apply (worker_take_ok max)|].
      { done. } { rewrite <-(queue_empty max) by done. by apply Z.eqb_neq. }
      intros j q' [? ?]. by wp_steps.
  - auto.
  - eapply wp_mono; [by apply (worker_take_ok max); auto|]. intros j q' [? ?]. by wp_steps.
  - done.
Qed.

Lemma woken_empty q why : worker_step WWoken q = Undef why <-> q_jobs q = [] /\ why = "worker_job->next".
Proof.
  unfold worker_step, worker_take, get_work, bind, gets, deref, modify, ret, undef. destruct (q_jobs q) as [|j l]; simpl; split.
  - by intros [= <-].
  - by intros [_ ->].
  - done.
  - by intros [? _].
Qed.

Lemma wp_not_undef {S A} (m : M S A) Q s why : wp m Q s -> m s <> Undef why.
Proof. unfold wp. intros H E. by rewrite E in H. Qed.

Lemma proxy_crash max x : proxy_ok max x -> crashes max x ->
  q_jobs (px_queue x) = [] /\ WWoken ∈ px_workers x.
Proof.
  intros [Hq Hl _ _ _] [(i & l & why & Hi & Hc)|(j & w & why & Hj & Hc)].
  - exfalso. revert Hc. eapply wp_not_undef, listener_step_ok; [|done]. by apply (Forall_lookup_1 _ _ _ _ Hl Hi).
  - destruct (decide (q_jobs (px_queue x) = [])) as [E|E].
    + split; [done|]. assert (w = WWoken) as <-; [|by eapply list_elem_of_lookup_2].
      destruct w; [|done|done|done]. exfalso. revert Hc. eapply wp_not_undef, worker_step_ok; done.
    + exfalso. revert Hc. by eapply wp_not_undef, worker_step_ok.
Qed.

Lemma in_insert {A} (x : A) i y z (l : list A) : l !! i = Some y -> y <> x -> x ∈ l -> x ∈ <[i := z]> l.
Proof.
  intros Hi Hy [k Hk]%list_elem_of_lookup. apply list_elem_of_lookup. exists k. rewrite list_lookup_insert_ne; [done|congruence].
Qed.

#[export] Instance job_eq_dec : EqDecision job.
Proof. solve_decision. Defined.
#[export] Instance wstate_eq_dec : EqDecision wstate.
Proof. solve_decision. Defined.

Lemma pstep_ok max x y : proxy_ok max x -> pstep max file_request x y -> proxy_ok max y.
Proof.
  intros [Hq Hl Hj Hsome Ha] Hst.
  destruct Hst as [q ls ws out ac tk i buffer fd n Hi Hr|q ls ws out ac tk i l r q' Hi Hne Hs
    |q ls ws out ac tk i j Hi Hw|q ls ws out ac tk i Hi Hn|q ls ws out ac tk j Hw|q ls ws out ac tk j w w' q' Hw Hs]; simpl in *.
  - split; simpl; [done|by apply Forall_insert|done|done|]. intros Hjobs. destruct (Ha Hjobs) as [Hsig|?]; [left|by right].
    by apply (in_insert _ i LIdle).
  - pose proof (listener_step_ok _ _ _ (Forall_lookup_1 _ _ _ _ Hl Hi) Hq) as H.
    apply (wp_use _ _ _ _ _ H) in Hs as (H1 & H2 & H3 & H4).
    split; simpl; [done|by apply Forall_insert| |done|].
    + rewrite Hj, H3. rewrite <-app_assoc. apply Permutation_app_head, Permutation_app_comm.
    + intros Hjobs. destruct (H4 Hjobs) as [->|Hold].
      * left. eapply list_elem_of_lookup_2, list_lookup_insert_eq. by eapply lookup_lt_Some.
      * destruct (Ha Hold) as [Hsig|?]; [left|by right]. by apply (in_insert _ i l).
  - split; simpl; [done|by apply Forall_insert|done|by destruct j, ws|]. intros _. right. exists WWoken. split; [|done].
    eapply list_elem_of_lookup_2, list_lookup_insert_eq. by eapply lookup_lt_Some.
  - split; simpl; [done|by apply Forall_insert|done|done|]. intros _. right. destruct ws as [|w ws]; [done|]. exists w. split; [by left|].
    intros ->. apply Hn. by left.
  - split; simpl; [done|done|done|by destruct j, ws|]. intros _. right. exists WWoken. split; [|done].
    eapply list_elem_of_lookup_2, list_lookup_insert_eq. by eapply lookup_lt_Some.
  - assert (Hok : w = WWoken -> q_jobs q <> []) by (intros -> E; assert (worker_step WWoken q = Undef "worker_job->next") by (by apply woken_empty); congruence).
    pose proof (worker_step_ok _ _ _ Hq Hok) as H. apply (wp_use _ _ _ _ _ H) in Hs as (H1 & H2 & H3).
    split; simpl; [done|done|by rewrite Hj, H2, app_assoc|by destruct j, ws|]. intros Hjobs.
    destruct (decide (w' = WWait)) as [->|Hw'].
    + destruct (H3 eq_refl) as [->|?]; [|done]. rewrite list_insert_id by done. apply Ha. rewrite H2. by intros [_ ?]%app_eq_nil.
    + right. exists w'. split; [|done]. eapply list_elem_of_lookup_2, list_lookup_insert_eq. by eapply lookup_lt_Some.
Qed.

Lemma start_ok max n m : 0 <= max < 2 ^ 31 -> (0 < m)%nat -> proxy_ok max (start n m).
Proof.
  intros Hm Hw. split; simpl; [|by apply Forall_replicate|done|by destruct m; [lia|]|done].
  split; simpl; [constructor|done|lia].
Qed.

Lemma proxy_reachable max x y :
  proxy_ok max x -> rtc (pstep max file_request) x y -> proxy_ok max y.
Proof. intros Hx. induction 1; [done|]. by eauto using pstep_ok. Qed.

(** ** Theorems *)


(** A worker that was woken does not test [queue_size] again ([pthread_cond_wait] is under
    [if], not [while]).  One worker and one request are enough: it takes the job and serves
    it, waits, and gets the signal for the job it has served.  And a listener whose GetJob test
    of [queue_size] ran before the worker emptied the queue takes a job from an empty queue. *)
Theorem unrechecked_tests_crash :
  (exists x, rtc (pstep 100 file_request) (start 1 1) x /\ crashes 100 x) /\
  (exists x, rtc (pstep 100 (fun _ => True)) (start 1 1) x /\ crashes 100 x).
Proof.
  assert (file_request (example_request "5")) as Hf by (by eexists _, _).
  split.
  - eexists. split.
    + eapply rtc_l; [eapply (step_recv _ _ _ _ _ _ _ _ 0 (example_request "5") 4 22); [reflexivity|done]|].
      eapply rtc_l; [eapply (step_listener _ _ _ _ _ _ _ _ 0); [reflexivity|discriminate|reflexivity]|].
      do 3 (eapply rtc_l; [eapply (step_worker _ _ _ _ _ _ _ _ 0); reflexivity|]).
      eapply rtc_l; [eapply (step_signal _ _ _ _ _ _ _ _ 0 0); reflexivity|].
      apply rtc_refl.
    + right. exists 0%nat. eexists _, _. split; reflexivity.
  - eexists. split.
    + eapply rtc_l; [eapply (step_recv _ _ _ _ _ _ _ _ 0 (example_request "5") 4 22); [reflexivity|done]|].
      eapply rtc_l; [eapply (step_listener _ _ _ _ _ _ _ _ 0); [reflexivity|discriminate|reflexivity]|].
      eapply rtc_l; [eapply (step_signal_none _ _ _ _ _ _ _ _ 0); [reflexivity|]|].
      { intros H%list_elem_of_singleton. discriminate. }
      eapply rtc_l; [eapply (step_recv _ _ _ _ _ _ _ _ 0 (str "GET /GetJob HTTP/1.0" ++ [0]) 5 20); [reflexivity|done]|].
      eapply rtc_l; [eapply (step_listener _ _ _ _ _ _ _ _ 0); [reflexivity|discriminate|reflexivity]|].
      eapply rtc_l; [eapply (step_worker _ _ _ _ _ _ _ _ 0); reflexivity|].
      apply rtc_refl.
    + left. exists 0%nat. eexists _, _. split; reflexivity.
Qed.

(** [http_send_data] sends the data once and in order whatever sizes [write]
    accepts: the chunks of a run form a prefix of the data, all of it when the call
    returns 0, and the call does return 0 when every [write] accepts at least a byte. *)
Theorem http_send_data_correct results data :
  (forall r chunks, http_send_data results data = Some (r, chunks) ->
     mjoin chunks `prefix_of` data /\ (r = 0 -> mjoin chunks = data)) /\
  (Forall (fun n => 1 <= n) results -> (length data <= length results)%nat ->
   exists chunks, http_send_data results data = Some (0, chunks)).
Proof. split; [intros r chunks; apply http_send_data_prefix|apply http_send_data_progress]. Qed.

(** C40: [http_request_parse] reads at most [LIBHTTP_REQUEST_MAX_SIZE] bytes and accepts
    exactly the inputs that begin with a line "METHOD path...": an upper-case method, a space, a
    non-empty path, then a space and anything up to the line feed (or the line feed at once),
    all without a NUL; it returns that method and path, and null for every other input.  When
    [read] fails it stores its NUL in front of the buffer. *)
Theorem http_request_parse_iff {S} (s : S) input method path :
  (http_request_parse (Some input) s = Ret (Some (HttpRequest method path)) s <->
   exists rest body, take LIBHTTP_REQUEST_MAX_SIZE input = request_line method path rest body /\
    method <> [] /\ Forall (fun c => is_upper c = true) method /\
    path <> [] /\ no_byte [NUL; SP; LF] path /\
    no_byte [NUL; LF] rest /\ match rest with [] => True | c :: _ => c = SP end) /\
  (exists r, http_request_parse (Some input) s = Ret r s) /\
  http_request_parse None s = Undef "read_buffer[-1]".
Proof.
  split; [|split; [by eexists|done]]. rewrite <-parse_buffer_iff. unfold http_request_parse, ret. split; [congruence|by intros ->].
Qed.

(** For a queued request whose first line is "METHOD path version", the answer to
    a GetJob request is a 200 response whose body is exactly that path. *)
Theorem handle_get_job_path {S} (s : S) method path version rest :
  method <> [] -> no_byte [SP; CR; LF] method -> no_byte [SP; CR; LF] path ->
  no_byte [CR; LF] version ->
  handle_get_job (method ++ SP :: path ++ SP :: version ++ CRLF ++ rest) s =
  Ret (send_error_response OK path) s.
Proof.
  intros Hne Hm Hp Hv.
  set (line := method ++ SP :: path ++ SP :: version).
  assert (no_byte CRLF line) as Hl.
  { unfold line. rewrite no_byte_app. split.
    - eapply no_byte_mono; [|exact Hm]. intros c. unfold in_set, CRLF. cbn [existsb]. intros ->. apply orb_true_r.
    - constructor; [done|]. apply no_byte_app. split; [|by constructor].
      eapply no_byte_mono; [|exact Hp]. intros c. unfold in_set, CRLF. cbn [existsb]. intros ->. apply orb_true_r. }
  assert (head (strtok_all CRLF (line ++ CR :: LF :: rest)) = Some line) as Ht
    by (apply strtok_all_first; [by destruct method|done|done]).
  assert (forall t, no_byte [SP; CR; LF] t -> no_byte [SP] t) as Hsp.
  { intros t. apply no_byte_mono. intros c. unfold in_set. cbn [existsb]. intros H. rewrite orb_false_r in H. by rewrite H. }
  replace (method ++ SP :: path ++ SP :: version ++ CRLF ++ rest) with (line ++ CR :: LF :: rest)
    by (unfold line; rewrite <-app_assoc; simpl; by rewrite <-app_assoc).
  unfold handle_get_job. destruct (strtok_all _ _) as [|t ts]; [done|].
  injection Ht as ->. unfold line. rewrite strstr_sp by auto. cbn [deref bind ret tail].
  unfold bind, ret. simpl tail. rewrite strstr_sp by auto. simpl deref. unfold ret.
  f_equal. f_equal. rewrite length_app. simpl length.
  replace (_ - _)%nat with (length path) by lia. apply take_app_length.
Qed.

(** ** Witnesses *)


Lemma handle_get_job_path_witness :
  handle_get_job (str "GET" ++ SP :: str "/3/dummy3.html" ++ SP :: str "HTTP/1.0" ++ CRLF ++ []) tt =
  Ret (send_error_response OK (str "/3/dummy3.html")) tt.
Proof.
  apply handle_get_job_path.
  - discriminate.
  - repeat constructor.
  - repeat constructor.
  - repeat constructor.
Defined.
