(* ===== verification/Wfs.v ===== *)
(** * The log-structured file system (src/p7)

    [mkfs.wfs.c] writes a superblock and a root inode, [mount.wfs.c] maps the disk
    image and serves FUSE requests.  The mapped image is a list of bytes; a pointer
    into it is an offset, and an access outside the image, through a NULL pointer or
    past the end of a buffer is [Undef].  Every operation works on the bytes as the
    C code does; [rep] relates them to the abstract log, a list of entries. *)

From S2P Require Import Prelude Bytes CStr.

(** ** The image and the mounted file system *)

Record wfs := mk_wfs {
  w_disk : list Z;        (** [wp->disk], [wp->len] bytes *)
  w_head : Z;             (** [wp->head] *)
  cur_inode_num : Z       (** the static counter *)
}.
Definition set_disk (d : list Z) (w : wfs) : wfs := mk_wfs d (w_head w) (cur_inode_num w).
Definition set_head (h : Z) (w : wfs) : wfs := mk_wfs (w_disk w) h (cur_inode_num w).
Definition set_num (n : Z) (w : wfs) : wfs := mk_wfs (w_disk w) (w_head w) n.

Definition WFS_MAGIC : Z := 0xdeadbeef.
Definition S_IFDIR : Z := 0x4000.
Definition S_IFREG : Z := 0x8000.
Definition ENOENT : Z := 2.

Definition u64 (x : Z) : Z := x mod 2 ^ 64.

Record wfs_inode := mk_inode {
  i_number : Z; i_deleted : Z; i_mode : Z; i_uid : Z; i_gid : Z; i_flags : Z;
  i_size : Z; i_atime : Z; i_mtime : Z; i_ctime : Z; i_links : Z
}.

(** The 11 words of [struct wfs_inode], in order. *)
Definition inode_words (i : wfs_inode) : list Z :=
  [i_number i; i_deleted i; i_mode i; i_uid i; i_gid i; i_flags i;
   i_size i; i_atime i; i_mtime i; i_ctime i; i_links i].
Definition words_bytes (ws : list Z) : list Z := flat_map (le_bytes 4) ws.
Definition inode_bytes (i : wfs_inode) : list Z := words_bytes (inode_words i).

Definition SB_SIZE : Z := 8.
Definition INODE_SIZE : Z := 44.
Definition DENTRY_SIZE : Z := 40.
Definition MAX_FILE_NAME_LEN : Z := 32.

(** [struct wfs_dentry]; what lies behind the NUL in [name] is whatever was there. *)
Definition dentry_bytes (name pad : list Z) (inode_number : Z) : list Z :=
  name ++ 0 :: pad ++ le_bytes 8 inode_number.

(** What the process gets from its environment: [getuid()], [getgid()] and the
    successive results of [time(NULL)]. *)
Record env := { e_uid : Z; e_gid : Z; e_atime : Z; e_mtime : Z; e_ctime : Z }.

(** ** Access to the image *)

Definition in_disk (off n : Z) (w : wfs) : bool :=
  (0 <=? off) && (0 <=? n) && (off + n <=? Z.of_nat (length (w_disk w))).

Definition rd_bytes (off n : Z) : M wfs (list Z) := fun w =>
  if in_disk off n w then Ret (slice (Z.to_nat off) (Z.to_nat n) (w_disk w)) w
  else Undef "read outside the disk".

Definition rd32 (off : Z) : M wfs Z := fun w =>
  if in_disk off 4 w then Ret (get32 off (w_disk w)) w
  else Undef "read outside the disk".

Definition wr_bytes (off : Z) (bs : list Z) : M wfs unit := fun w =>
  if in_disk off (Z.of_nat (length bs)) w
  then Ret tt (set_disk (splice (Z.to_nat off) bs (w_disk w)) w)
  else Undef "write outside the disk".

(** The C string at [off]. *)
Definition rd_str (off : Z) : M wfs (list Z) := fun w =>
  match cstr (drop (Z.to_nat off) (w_disk w)) with
  | Some s => Ret s w
  | None => Undef "unterminated string"
  end.

(** ** Looking up inodes *)

Definition number_to_inode_body (inode_num : Z) (st : Z * option Z) :
    M wfs ((Z * option Z) + option Z) :=
  let '(start_log, cur_log) := st in
  end_log <- gets w_head ;;
  if start_log <? end_log then
    n <- rd32 start_log ;;
    size <- rd32 (start_log + 24) ;;
    ret (inl (start_log + INODE_SIZE + size,
              if n =? u32 inode_num then Some start_log else cur_log))
  else ret (inr cur_log).

Definition number_to_inode (inode_num : Z) : M wfs (option Z) :=
  fuel <- gets (fun w => S (Z.to_nat (w_head w))) ;;
  cur_log <- loop fuel (number_to_inode_body inode_num) (SB_SIZE, None) ;;
  match cur_log with
  | None => ret None
  | Some c =>
      d <- rd32 (c + 4) ;;
      ret (if d =? 0 then Some c else None)
  end.

(** The loop over [dentry[i]], [i < dentries]. *)
Fixpoint find_dentry (dentries : nat) (dentry : Z) (tok : list Z) : M wfs Z :=
  match dentries with
  | O => ret (-1)
  | S n =>
      name <- rd_str dentry ;;
      if str_eqb name tok then
        v <- rd_bytes (dentry + 32) 8 ;;
        ret (s32 (le_value v))
      else find_dentry n (dentry + DENTRY_SIZE) tok
  end.

Fixpoint walk (toks : list (list Z)) (root_log : option Z) : M wfs (option Z) :=
  match toks with
  | [] => ret root_log
  | tok :: toks' =>
      r <- deref "NULL inode" root_log ;;
      size <- rd32 (r + 24) ;;
      j <- find_dentry (Z.to_nat (size / DENTRY_SIZE)) (r + INODE_SIZE) tok ;;
      if j =? -1 then ret None
      else
        next <- number_to_inode j ;;
        walk toks' next
  end.

Definition SLASH : list Z := str "/".

Definition path_to_inode (path : list Z) : M wfs (option Z) :=
  if str_eqb path SLASH then number_to_inode 0
  else
    root_log <- number_to_inode 0 ;;
    walk (strtok_all SLASH (take 127 path)) root_log.

(** [dirname] and [basename] of the C library. *)
Definition is_slash (c : Z) : bool := c =? 47.
Definition rstrip (s : list Z) : list Z := reverse (snd (span is_slash (reverse s))).
Definition last_component (s : list Z) : list Z * list Z :=
  let '(a, b) := span (fun c => negb (is_slash c)) (reverse s) in (reverse b, reverse a).

Definition dirname (path : list Z) : list Z :=
  match path with
  | [] => str "."
  | _ =>
      match rstrip path with
      | [] => SLASH
      | p =>
          match last_component p with
          | ([], _) => str "."
          | (d, _) => match rstrip d with [] => SLASH | d' => d' end
          end
      end
  end.

Definition basename (path : list Z) : list Z :=
  match path with
  | [] => str "."
  | _ =>
      match rstrip path with
      | [] => SLASH
      | p => snd (last_component p)
      end
  end.

(** ** The FUSE operations *)

(** [struct stat], the fields that [wfs_getattr] fills in. *)
Record stat := mk_stat {
  st_mode : Z; st_uid : Z; st_gid : Z; st_atime : Z; st_mtime : Z; st_size : Z; st_nlink : Z
}.

Definition wfs_getattr (path : list Z) : M wfs (Z + stat) :=
  cur_inode <- path_to_inode path ;;
  match cur_inode with
  | None => ret (inl (- ENOENT))
  | Some c =>
      mode <- rd32 (c + 8) ;;
      uid <- rd32 (c + 12) ;;
      gid <- rd32 (c + 16) ;;
      atime <- rd32 (c + 28) ;;
      mtime <- rd32 (c + 32) ;;
      size <- rd32 (c + 24) ;;
      links <- rd32 (c + 40) ;;
      ret (inr (mk_stat mode uid gid atime mtime size links))
  end.

(** [wfs_mknod] and [wfs_mkdir] are the same code but for the type bits they put into
    the mode.  [junk] is the name field of the [malloc]ed dentry before [strcpy]. *)
Definition wfs_create (fmt : Z) (e : env) (junk : list Z) (path : list Z) (mode : Z) : M wfs Z :=
  let dir_path := dirname path in
  let base_name := basename path in
  parent <- path_to_inode dir_path ;;
  p <- deref "NULL parent inode" parent ;;
  pnum <- rd32 p ;;
  pmode <- rd32 (p + 8) ;;
  puid <- rd32 (p + 12) ;;
  pgid <- rd32 (p + 16) ;;
  psize <- rd32 (p + 24) ;;
  patime <- rd32 (p + 28) ;;
  pctime <- rd32 (p + 36) ;;
  plinks <- rd32 (p + 40) ;;
  pdata <- rd_bytes (p + INODE_SIZE) psize ;;
  wr_bytes (p + 4) (le_bytes 4 1) ;;;
  modify (fun w => set_num (s32 (cur_inode_num w + 1)) w) ;;;
  num <- gets cur_inode_num ;;
  if MAX_FILE_NAME_LEN <=? Z.of_nat (length base_name) then undef "strcpy past the name field"
  else
    head <- gets w_head ;;
    wr_bytes head
      (inode_bytes (mk_inode pnum 0 pmode puid pgid 0 (u32 (psize + DENTRY_SIZE))
                             patime 0 pctime plinks)
       ++ pdata
       ++ dentry_bytes base_name (drop (S (length base_name)) junk) (u64 num)) ;;;
    psize' <- rd32 (p + 24) ;;
    modify (fun w => set_head (u32 (w_head w + (INODE_SIZE + psize' + DENTRY_SIZE))) w) ;;;
    head <- gets w_head ;;
    wr_bytes head
      (inode_bytes (mk_inode (u32 num) 0 (Z.lor fmt mode) (e_uid e) (e_gid e) 0 0
                             (e_atime e) (e_mtime e) (e_ctime e) 1)) ;;;
    modify (fun w => set_head (u32 (w_head w + INODE_SIZE)) w) ;;;
    ret 0.

Definition wfs_mknod := wfs_create S_IFREG.
Definition wfs_mkdir := wfs_create S_IFDIR.

(** The bytes copied into [buffer] and the result. *)
Definition wfs_read (path : list Z) (size offset : Z) : M wfs (list Z * Z) :=
  cur_inode <- path_to_inode path ;;
  match cur_inode with
  | None => ret ([], - ENOENT)
  | Some c =>
      isize <- rd32 (c + 24) ;;
      let size_read := u64 (isize - offset) in
      let size := if size_read <? size then size_read else size in
      bs <- rd_bytes (c + INODE_SIZE + offset) size ;;
      ret (bs, s32 size)
  end.

(** [sizeof(buffer)] is the size of a pointer. *)
Definition SIZEOF_POINTER : Z := 8.

Definition wfs_write (e : env) (path buffer : list Z) (size offset : Z) : M wfs Z :=
  cur_inode <- path_to_inode path ;;
  c <- deref "NULL inode" cur_inode ;;
  wr_bytes (c + 4) (le_bytes 4 1) ;;;
  let size_written := u64 (SIZEOF_POINTER - offset) in
  let size := if size_written <? size then size_written else size in
  num <- rd32 c ;;
  mode <- rd32 (c + 8) ;;
  uid <- rd32 (c + 12) ;;
  gid <- rd32 (c + 16) ;;
  flags <- rd32 (c + 20) ;;
  links <- rd32 (c + 40) ;;
  new_log <- gets w_head ;;
  wr_bytes new_log (inode_bytes (mk_inode num 0 mode uid gid flags (u32 size)
                                          (e_atime e) (e_mtime e) (e_ctime e) links)) ;;;
  (if (0 <=? offset) && (offset + size <=? Z.of_nat (length buffer))
   then wr_bytes (new_log + INODE_SIZE) (slice (Z.to_nat offset) (Z.to_nat size) buffer)
   else undef "memcpy past the buffer") ;;;
  modify (fun w => set_head (u32 (w_head w + (INODE_SIZE + u32 size))) w) ;;;
  ret (s32 size).

Fixpoint list_names (n : nat) (dentry : Z) : M wfs (list (list Z)) :=
  match n with
  | O => ret []
  | S n' =>
      name <- rd_str dentry ;;
      names <- list_names n' (dentry + DENTRY_SIZE) ;;
      ret (name :: names)
  end.

(** The names handed to [filler]. *)
Definition wfs_readdir (path : list Z) : M wfs (list (list Z)) :=
  cur_inode <- path_to_inode path ;;
  c <- deref "NULL inode" cur_inode ;;
  size <- rd32 (c + 24) ;;
  names <- list_names (Z.to_nat (size / DENTRY_SIZE)) (c + INODE_SIZE) ;;
  ret (str "." :: str ".." :: names).

(** Everything in the body is commented out. *)
Definition wfs_unlink (path : list Z) : M wfs Z := ret 0.

(** ** [mkfs.wfs] and mounting *)

(** What [mkfs.wfs] leaves on an image [disk] owned by [uid] and [gid]. *)
Definition mkfs (e : env) (disk : list Z) : list Z :=
  let head := SB_SIZE + INODE_SIZE in
  let root_inode := mk_inode 0 0 (Z.lor S_IFDIR 493) (e_uid e) (e_gid e) 0 0
                             (e_atime e) (e_mtime e) (e_ctime e) 2 in
  splice 8 (inode_bytes root_inode) (splice 0 (le_bytes 4 WFS_MAGIC ++ le_bytes 4 head) disk).

(** [mount.wfs] on an image: the state that [fuse_main] runs with, unless the magic
    number is wrong.  Unmounting writes nothing: the image is what is in [w_disk]. *)
Definition mount (disk : list Z) : option wfs :=
  if get32 0 disk =? WFS_MAGIC then Some (mk_wfs disk (get32 4 disk) 100) else None.

Example small_run :
  let e := {| e_uid := 1; e_gid := 2; e_atime := 3; e_mtime := 4; e_ctime := 5 |} in
  match mount (mkfs e (replicate 1000 0)) with
  | None => False
  | Some w =>
      match (wfs_mkdir e (replicate 32 7) (str "/d") 493 ;;;
             wfs_mknod e (replicate 32 9) (str "/d/f") 420 ;;;
             n <- wfs_write e (str "/d/f") (str "hello, world") 12 0 ;;
             r <- wfs_read (str "/d/f") 100 0 ;;
             l <- wfs_readdir (str "/d") ;;
             g <- wfs_getattr (str "/d/f") ;;
             ret (n, r, l, g)) w with
      | Ret (n, r, l, g) w' =>
          n = 8 /\ r = (str "hello, w", 8) /\ l = [str "."; str ".."; str "f"] /\
          g = inr (mk_stat 33188 1 2 3 4 8 1) /\ w_head w' < 1000
      | _ => False
      end
  end.
Proof. vm_compute. repeat split. Qed.
