(* ===== verification/WfsProofs.v ===== *)
(** * Correctness of the log-structured file system

    The abstract file system is a list of log entries.  [live es n] is the latest entry
    of inode [n], unless it is marked deleted; paths are resolved through the directory
    entries of live directories.  [rep] says which images represent which logs, and the
    theorems show that the operations of [Wfs] implement the abstract ones. *)

From S2P Require Import Prelude Bytes CStr Wfs.

(** ** The abstract log *)

Record dentry := { d_name : list Z; d_pad : list Z; d_inode : Z }.

Inductive payload :=
| File (bs : list Z)
| Dir (ds : list dentry).

Record entry := mk_entry { en_inode : wfs_inode; en_data : payload }.

Definition enc_dentry (d : dentry) : list Z := dentry_bytes (d_name d) (d_pad d) (d_inode d).
Definition data_bytes (p : payload) : list Z :=
  match p with File bs => bs | Dir ds => flat_map enc_dentry ds end.
Definition enc (e : entry) : list Z := inode_bytes (en_inode e) ++ data_bytes (en_data e).
Definition enc_log (es : list entry) : list Z := flat_map enc es.
Definition esize (e : entry) : Z := INODE_SIZE + i_size (en_inode e).

Definition word_ok (z : Z) : Prop := 0 <= z < 2 ^ 32.

Definition dentry_ok (d : dentry) : Prop :=
  Forall (fun c => c <> 0) (d_name d) /\ Z.of_nat (length (d_name d) + length (d_pad d)) = 31 /\
  0 <= d_inode d < 2 ^ 31.

Definition payload_ok (p : payload) : Prop :=
  match p with File _ => True | Dir ds => Forall dentry_ok ds end.

Definition entry_ok (e : entry) : Prop :=
  Forall word_ok (inode_words (en_inode e)) /\ payload_ok (en_data e) /\
  i_size (en_inode e) = Z.of_nat (length (data_bytes (en_data e))).

(** Where each entry of a log lies. *)
Fixpoint places (base : Z) (es : list entry) : list (Z * entry) :=
  match es with
  | [] => []
  | e :: es' => (base, e) :: places (base + esize e) es'
  end.

Definition numbered (n : Z) (p : Z * entry) : Prop := i_number (en_inode p.2) = n.
#[global] Instance numbered_dec n p : Decision (numbered n p).
Proof. unfold numbered. apply _. Defined.

(** The latest entry of inode [n] ... *)
Definition latest (ps : list (Z * entry)) (n : Z) : option (Z * entry) :=
  last (filter (numbered n) ps).
(** ... unless that is marked deleted. *)
Definition live (es : list entry) (n : Z) : option (Z * entry) :=
  p ← latest (places SB_SIZE es) n;
  if decide (i_deleted (en_inode p.2) = 0) then Some p else None.

(** The image of [w] holds the log [es] from the superblock up to [w_head]. *)
Definition rep (w : wfs) (es : list entry) : Prop :=
  Forall entry_ok es /\
  (exists sb rest, w_disk w = sb ++ enc_log es ++ rest /\ Z.of_nat (length sb) = SB_SIZE) /\
  w_head w = SB_SIZE + Z.of_nat (length (enc_log es)) /\
  Z.of_nat (length (w_disk w)) < 2 ^ 32.

(** First directory entry with a name. *)
Fixpoint dir_find (ds : list dentry) (tok : list Z) : option Z :=
  match ds with
  | [] => None
  | d :: ds' => if decide (d_name d = tok) then Some (d_inode d) else dir_find ds' tok
  end.

(** Path resolution: [Some None] when a name is not there, [None] when the path goes
    through something that is not a live directory. *)
Fixpoint resolve (es : list entry) (toks : list (list Z)) (cur : option (Z * entry)) :
    option (option (Z * entry)) :=
  match toks with
  | [] => Some cur
  | tok :: toks' =>
      match cur with
      | Some (_, mk_entry _ (Dir ds)) =>
          match dir_find ds tok with
          | None => Some None
          | Some n => resolve es toks' (live es n)
          end
      | _ => None
      end
  end.

(** The components of a path. *)
Definition components (path : list Z) : list (list Z) := strtok_all SLASH path.

Definition lookup_path (es : list entry) (path : list Z) : option (option (Z * entry)) :=
  resolve es (components path) (live es 0).

(** ** Bytes of inodes *)

Lemma length_words_bytes ws : length (words_bytes ws) = (4 * length ws)%nat.
Proof.
  induction ws as [|x ws IH]; [done|].
  change (words_bytes (x :: ws)) with (le_bytes 4 x ++ words_bytes ws).
  rewrite length_app, length_le_bytes, IH. simpl. lia.
Qed.

Lemma length_inode_bytes i : length (inode_bytes i) = 44%nat.
Proof. done. Qed.

Lemma length_enc e : entry_ok e -> Z.of_nat (length (enc e)) = esize e.
Proof.
  intros (_ & _ & Hs). unfold enc, esize. rewrite length_app, length_inode_bytes, Hs.
  unfold INODE_SIZE. lia.
Qed.

Lemma slice_app_r off n (a b : list Z) :
  (length a <= off)%nat -> slice off n (a ++ b) = slice (off - length a) n b.
Proof. intros. unfold slice. by rewrite drop_app_ge. Qed.

Lemma slice_app_l off n (a b : list Z) :
  (off + n <= length a)%nat -> slice off n (a ++ b) = slice off n a.
Proof.
  intros. unfold slice. rewrite drop_app_le by lia. rewrite take_app_le; [done|].
  rewrite length_drop. lia.
Qed.

(** The [k]-th word of an inode that lies at [length a]. *)
Lemma get32_words (a b : list Z) ws k v :
  ws !! k = Some v -> word_ok v ->
  get32 (Z.of_nat (length a) + 4 * Z.of_nat k) (a ++ words_bytes ws ++ b) = v.
Proof.
  intros Hk Hv. unfold get32.
  replace (Z.to_nat _) with (length a + 4 * k)%nat by lia.
  rewrite slice_app_r by lia. replace (length a + 4 * k - length a)%nat with (4 * k)%nat by lia.
  rewrite <-(take_drop_middle ws k v Hk). unfold words_bytes. rewrite flat_map_app.
  change (flat_map (le_bytes 4) (v :: drop (S k) ws))
    with (le_bytes 4 v ++ flat_map (le_bytes 4) (drop (S k) ws)).
  fold (words_bytes (take k ws)). rewrite <-!app_assoc.
  apply lookup_lt_Some in Hk as Hlt.
  rewrite slice_app_r by (rewrite length_words_bytes, length_take; lia).
  rewrite length_words_bytes, length_take_le by lia. rewrite Nat.sub_diag.
  rewrite slice_app_l by (rewrite length_le_bytes; lia).
  pose proof (slice_all (le_bytes 4 v)) as Hs. rewrite length_le_bytes in Hs. rewrite Hs.
  rewrite le_value_bytes. apply Z.mod_small. apply Hv.
Qed.

(** ** An entry in the image *)

Definition holds (d : list Z) (off : Z) (e : entry) : Prop :=
  exists a b, d = a ++ enc e ++ b /\ Z.of_nat (length a) = off.

Lemma holds_bounds d off e :
  holds d off e -> entry_ok e -> 0 <= off /\ off + esize e <= Z.of_nat (length d) /\
  0 <= i_size (en_inode e).
Proof.
  intros (a & b & -> & Ha) Hok. rewrite !length_app.
  pose proof (length_enc e Hok). destruct Hok as (_ & _ & Hs). lia.
Qed.

Lemma rd32_field w off e k v :
  holds (w_disk w) off e -> entry_ok e -> inode_words (en_inode e) !! k = Some v ->
  rd32 (off + 4 * Z.of_nat k) w = Ret v w.
Proof.
  intros Hh Hok Hk. destruct (holds_bounds _ _ _ Hh Hok) as (H0 & Hl & Hs).
  assert (k < 11)%nat by (by apply lookup_lt_Some in Hk).
  unfold rd32, in_disk. unfold esize, INODE_SIZE in Hl.
  rewrite !(proj2 (Z.leb_le _ _)) by lia. simpl. f_equal.
  destruct Hh as (a & b & -> & <-). unfold enc. rewrite <-app_assoc.
  apply get32_words; [done|]. by eapply Forall_lookup_1; [apply Hok|].
Qed.

Lemma rd_bytes_data w off e o n :
  holds (w_disk w) off e -> entry_ok e -> 0 <= o -> 0 <= n -> o + n <= i_size (en_inode e) ->
  rd_bytes (off + INODE_SIZE + o) n w =
    Ret (slice (Z.to_nat o) (Z.to_nat n) (data_bytes (en_data e))) w.
Proof.
  intros Hh Hok Ho Hn Hle. destruct (holds_bounds _ _ _ Hh Hok) as (H0 & Hl & Hs).
  unfold rd_bytes, in_disk. unfold esize, INODE_SIZE in *.
  rewrite !(proj2 (Z.leb_le _ _)) by lia. simpl. f_equal.
  destruct Hh as (a & b & -> & <-). unfold enc. rewrite <-app_assoc.
  destruct Hok as (_ & _ & Hsz).
  rewrite slice_app_r by lia. rewrite slice_app_r by (rewrite length_inode_bytes; lia).
  rewrite slice_app_l by (rewrite length_inode_bytes; lia).
  f_equal. rewrite length_inode_bytes. lia.
Qed.

Lemma rep_holds w es off e :
  rep w es -> (off, e) ∈ places SB_SIZE es -> holds (w_disk w) off e /\ entry_ok e.
Proof.
  intros (Hok & (sb & rest & Hd & Hsb) & _) Hin. rewrite Hd. clear Hd. revert sb Hsb Hin.
  generalize SB_SIZE as base. induction Hok as [|x es Hx Hes IH]; intros base sb Hsb Hin.
  - by apply elem_of_nil in Hin.
  - simpl in Hin. apply elem_of_cons in Hin as [[= -> ->]|Hin].
    + split; [|done]. exists sb, (enc_log es ++ rest). split; [|done].
      unfold enc_log. simpl. by rewrite <-!app_assoc.
    + destruct (IH (base + esize x) (sb ++ enc x)) as [H ?]; [|done|].
      { rewrite length_app. pose proof (length_enc x Hx). lia. }
      split; [|done]. revert H. unfold enc_log. simpl. by rewrite <-!app_assoc.
Qed.

Lemma places_bound base es off e :
  Forall entry_ok es -> (off, e) ∈ places base es ->
  base <= off /\ off + esize e <= base + Z.of_nat (length (enc_log es)).
Proof.
  intros Hok. revert base. induction Hok as [|x es Hx Hes IH]; intros base Hin.
  - by apply elem_of_nil in Hin.
  - pose proof (length_enc x Hx) as Hl.
    change (enc_log (x :: es)) with (enc x ++ enc_log es). rewrite length_app.
    simpl in Hin. apply elem_of_cons in Hin as [[= -> ->]|Hin]; [lia|].
    destruct Hx as (_ & _ & Hs). apply IH in Hin. unfold esize, INODE_SIZE in *. lia.
Qed.

Lemma places_app base es1 es2 :
  Forall entry_ok es1 ->
  places base (es1 ++ es2) = places base es1 ++ places (base + Z.of_nat (length (enc_log es1))) es2.
Proof.
  intros Hok. revert base. induction Hok as [|x es Hx Hes IH]; intros base.
  - simpl. by rewrite Z.add_0_r.
  - cbn [places app]. rewrite IH. pose proof (length_enc x Hx) as Hl.
    change (enc_log (x :: es)) with (enc x ++ enc_log es). rewrite length_app, Nat2Z.inj_add.
    by rewrite Hl, Z.add_assoc.
Qed.

(** ** Looking up *)

Lemma latest_in ps n off e : latest ps n = Some (off, e) -> (off, e) ∈ ps /\ i_number (en_inode e) = n.
Proof.
  unfold latest. intros H. apply last_Some_elem_of, list_elem_of_filter in H.
  destruct H as [H1 H2]. done.
Qed.

Lemma latest_app ps1 ps2 n :
  latest (ps1 ++ ps2) n = match latest ps2 n with Some p => Some p | None => latest ps1 n end.
Proof. unfold latest. rewrite filter_app, last_app. done. Qed.

Lemma live_in es n off e :
  live es n = Some (off, e) ->
  (off, e) ∈ places SB_SIZE es /\ i_number (en_inode e) = n /\ i_deleted (en_inode e) = 0.
Proof.
  unfold live. destruct (latest _ n) as [[o x]|] eqn:El; simpl; [|done].
  case_decide; [|done]. intros [= -> ->]. apply latest_in in El as [? ?]. done.
Qed.

Lemma latest_cons base e es n :
  latest (places base (e :: es)) n =
  match latest (places (base + esize e) es) n with
  | Some p => Some p
  | None => if decide (i_number (en_inode e) = n) then Some (base, e) else None
  end.
Proof.
  change (places base (e :: es)) with ([(base, e)] ++ places (base + esize e) es).
  rewrite latest_app. destruct (latest (places (base + esize e) es) n); [done|].
  unfold latest. rewrite filter_cons, filter_nil.
  by destruct (decide (numbered n (base, e))), (decide (i_number (en_inode e) = n)).
Qed.

Lemma rd32_run w off e k v off' :
  holds (w_disk w) off e -> entry_ok e -> inode_words (en_inode e) !! k = Some v ->
  off' = off + 4 * Z.of_nat k -> rd32 off' w = Ret v w.
Proof. intros ??? ->. by eapply rd32_field. Qed.

(** The scan from [base] over the entries that remain. *)
Lemma number_to_inode_scan w n es : forall fuel base cur,
  (length es < fuel)%nat -> Forall entry_ok es ->
  (forall off e, (off, e) ∈ places base es -> holds (w_disk w) off e) ->
  w_head w = base + Z.of_nat (length (enc_log es)) ->
  loop fuel (number_to_inode_body n) (base, cur) w =
  Ret (match latest (places base es) (u32 n) with Some p => Some p.1 | None => cur end) w.
Proof.
  induction es as [|e es IH]; intros fuel base cur Hf Hok Hh Hhd; destruct fuel as [|fuel]; try (simpl in Hf; lia).
  - simpl. unfold number_to_inode_body, bind, gets. simpl in Hhd. rewrite Hhd, Z.add_0_r, Z.ltb_irrefl.
    done.
  - apply Forall_cons_1 in Hok as [He Hes].
    assert (holds (w_disk w) base e) as Hhe by (apply Hh; simpl; left).
    change (enc_log (e :: es)) with (enc e ++ enc_log es) in Hhd.
    rewrite length_app in Hhd. pose proof (length_enc e He) as Hl.
    destruct (holds_bounds _ _ _ Hhe He) as (? & ? & ?).
    cbn [loop]. unfold number_to_inode_body at 1, bind at 1 2, gets.
    rewrite (proj2 (Z.ltb_lt _ _)) by (unfold esize, INODE_SIZE in *; lia).
    unfold bind. rewrite (rd32_run w base e 0 _ base Hhe He eq_refl) by lia.
    rewrite (rd32_run w base e 6 _ (base + 24) Hhe He eq_refl) by lia.
    cbv beta iota delta [ret]. rewrite <-Z.add_assoc. fold (esize e).
    rewrite IH; [|simpl in Hf; lia|done| |lia].
    + rewrite latest_cons. destruct (latest (places (base + esize e) es) (u32 n)); [done|].
      case_decide as Hc; simpl.
      * by rewrite (proj2 (Z.eqb_eq _ _)).
      * by rewrite (proj2 (Z.eqb_neq _ _)).
    + intros off x Hin. apply Hh. simpl. by right.
Qed.

Lemma length_enc_log_ge es : Forall entry_ok es -> 44 * Z.of_nat (length es) <= Z.of_nat (length (enc_log es)).
Proof.
  induction 1 as [|e es He Hes IH]; [done|].
  change (enc_log (e :: es)) with (enc e ++ enc_log es). rewrite length_app.
  pose proof (length_enc e He) as Hl. destruct He as (_ & _ & Hs).
  unfold esize, INODE_SIZE in Hl. simpl length. lia.
Qed.

Lemma number_to_inode_run w es n :
  rep w es -> number_to_inode n w = Ret (fst <$> live es (u32 n)) w.
Proof.
  intros Hrep. pose proof Hrep as (Hok & Hd & Hhd & Hlen).
  unfold number_to_inode, bind, gets.
  rewrite (number_to_inode_scan w n es); [|..|done]; try done.
  - unfold live. destruct (latest (places SB_SIZE es) (u32 n)) as [[off e]|] eqn:El; [|done]. simpl.
    apply latest_in in El as [Hin _]. destruct (rep_holds _ _ _ _ Hrep Hin) as [Hh He].
    rewrite (rd32_run w off e 1 _ (off + 4) Hh He eq_refl) by lia. unfold ret. simpl.
    case_decide as Hc.
    + by rewrite (proj2 (Z.eqb_eq _ _)).
    + by rewrite (proj2 (Z.eqb_neq _ _)).
  - rewrite Hhd. pose proof (length_enc_log_ge es Hok). unfold SB_SIZE. lia.
  - intros off e Hin. by apply (rep_holds w es).
Qed.

(** ** Directories and paths *)

Lemma cstr_app s r : Forall (fun c => c <> 0) s -> cstr (s ++ 0 :: r) = Some s.
Proof.
  induction 1 as [|c s Hc _ IH]; simpl; [done|]. rewrite (proj2 (Z.eqb_neq _ _)) by done.
  by rewrite IH.
Qed.

Lemma length_enc_dentry d : dentry_ok d -> length (enc_dentry d) = 40%nat.
Proof.
  intros (_ & Hl & _). unfold enc_dentry, dentry_bytes.
  rewrite length_app, length_cons, length_app, length_le_bytes. lia.
Qed.

Lemma length_flat_dentries ds :
  Forall dentry_ok ds -> length (flat_map enc_dentry ds) = (40 * length ds)%nat.
Proof.
  induction 1 as [|d ds Hd _ IH]; [done|].
  change (flat_map enc_dentry (d :: ds)) with (enc_dentry d ++ flat_map enc_dentry ds).
  rewrite length_app, IH, length_enc_dentry by done. simpl length. lia.
Qed.

(** A run of directory entries at [off]. *)
Definition holds_dir (d : list Z) (off : Z) (ds : list dentry) : Prop :=
  exists a b, d = a ++ flat_map enc_dentry ds ++ b /\ Z.of_nat (length a) = off.

Lemma holds_dir_cons d off x ds :
  dentry_ok x -> holds_dir d off (x :: ds) -> holds_dir d (off + DENTRY_SIZE) ds.
Proof.
  intros Hx (a & b & -> & Ha). exists (a ++ enc_dentry x), b. split.
  - simpl. by rewrite <-!app_assoc.
  - rewrite length_app, length_enc_dentry by done. unfold DENTRY_SIZE. lia.
Qed.

Lemma rd_str_dentry w off x ds :
  dentry_ok x -> holds_dir (w_disk w) off (x :: ds) -> rd_str off w = Ret (d_name x) w.
Proof.
  intros (Hn & _ & _) (a & b & Hd & Ha). unfold rd_str. rewrite Hd.
  replace (Z.to_nat off) with (length a) by lia. rewrite drop_app_length.
  change (flat_map enc_dentry (x :: ds)) with (enc_dentry x ++ flat_map enc_dentry ds).
  unfold enc_dentry at 1, dentry_bytes. rewrite <-!app_assoc, <-!app_comm_cons.
  by rewrite cstr_app.
Qed.

Lemma rd_inode_dentry w off x ds :
  dentry_ok x -> holds_dir (w_disk w) off (x :: ds) ->
  rd_bytes (off + 32) 8 w = Ret (le_bytes 8 (d_inode x)) w.
Proof.
  intros Hx (a & b & Hd & Ha). unfold rd_bytes, in_disk. rewrite Hd.
  change (flat_map enc_dentry (x :: ds)) with (enc_dentry x ++ flat_map enc_dentry ds).
  rewrite !length_app, length_enc_dentry by done.
  rewrite !(proj2 (Z.leb_le _ _)) by lia. simpl andb. cbv iota. f_equal.
  rewrite slice_app_r by lia. rewrite <-app_assoc.
  rewrite slice_app_l by (rewrite length_enc_dentry by done; lia).
  unfold enc_dentry, dentry_bytes. destruct Hx as (_ & Hl & _).
  rewrite slice_app_r by lia. rewrite app_comm_cons, slice_app_r by (simpl; lia).
  simpl length. replace (Z.to_nat (off + 32) - _ - _ - _)%nat with 0%nat by lia.
  change (Z.to_nat 8) with 8%nat. pose proof (slice_all (le_bytes 8 (d_inode x))) as Hs.
  by rewrite length_le_bytes in Hs.
Qed.

Lemma find_dentry_run w tok ds : forall off,
  Forall dentry_ok ds -> holds_dir (w_disk w) off ds ->
  find_dentry (length ds) off tok w =
  Ret (match dir_find ds tok with Some n => n | None => -1 end) w.
Proof.
  induction ds as [|x ds IH]; intros off Hok Hh; [done|].
  apply Forall_cons_1 in Hok as [Hx Hds]. simpl. unfold bind.
  rewrite (rd_str_dentry _ _ _ _ Hx Hh). case_decide as Hc.
  - subst tok. rewrite (proj2 (str_eqb_eq _ _) eq_refl).
    rewrite (rd_inode_dentry _ _ _ _ Hx Hh). unfold ret. rewrite le_value_bytes.
    destruct Hx as (_ & _ & Hi). f_equal.
    rewrite Z.mod_small by (change (256 ^ Z.of_nat 8) with (2 ^ 64); lia). apply s32_small. lia.
  - destruct (str_eqb (d_name x) tok) eqn:E; [by apply str_eqb_eq in E|].
    apply IH; [done|]. by eapply holds_dir_cons.
Qed.

Lemma holds_dir_of d off i ds : holds d off (mk_entry i (Dir ds)) -> holds_dir d (off + INODE_SIZE) ds.
Proof.
  intros (a & b & -> & Ha). exists (a ++ inode_bytes i), b. split.
  - unfold enc. simpl. by rewrite <-!app_assoc.
  - rewrite length_app, length_inode_bytes. unfold INODE_SIZE. lia.
Qed.

Lemma dir_count i ds :
  entry_ok (mk_entry i (Dir ds)) -> Z.to_nat (i_size i / DENTRY_SIZE) = length ds /\ Forall dentry_ok ds.
Proof.
  intros (_ & Hds & Hs). simpl in Hds, Hs. split; [|done]. rewrite Hs, length_flat_dentries by done.
  unfold DENTRY_SIZE. rewrite Nat2Z.inj_mul, Z.mul_comm, Z.div_mul by lia. lia.
Qed.

Lemma dir_find_bound ds tok n : Forall dentry_ok ds -> dir_find ds tok = Some n -> 0 <= n < 2 ^ 31.
Proof.
  induction 1 as [|d ds Hd _ IH]; simpl; [done|]. case_decide; [|done]. intros [= <-]. apply Hd.
Qed.

Lemma walk_run w es toks : rep w es -> forall cur r,
  (forall off e, cur = Some (off, e) -> (off, e) ∈ places SB_SIZE es) ->
  resolve es toks cur = Some r -> walk toks (fst <$> cur) w = Ret (fst <$> r) w.
Proof.
  intros Hrep. induction toks as [|tok toks IH]; intros cur r Hin; simpl; [by intros [= <-]|].
  destruct cur as [[off [i [bs|ds]]]|]; try done. intros Hr. simpl. unfold bind, deref, ret.
  destruct (rep_holds _ _ _ _ Hrep (Hin _ _ eq_refl)) as [Hh He].
  rewrite (rd32_run w off _ 6 _ (off + 24) Hh He eq_refl) by lia. simpl en_inode.
  destruct (dir_count _ _ He) as [Hc Hds]. rewrite Hc.
  rewrite (find_dentry_run _ _ _ _ Hds (holds_dir_of _ _ _ _ Hh)).
  destruct (dir_find ds tok) as [n|] eqn:Ef; [|by injection Hr as <-].
  pose proof (dir_find_bound _ _ _ Hds Ef) as Hn.
  rewrite (proj2 (Z.eqb_neq _ _)) by lia. rewrite (number_to_inode_run _ _ _ Hrep).
  rewrite u32_small by lia. apply IH; [|done]. intros o x Hl. by apply live_in in Hl as [? _].
Qed.

Lemma path_to_inode_run w es path r :
  rep w es -> (length path <= 127)%nat -> lookup_path es path = Some r ->
  path_to_inode path w = Ret (fst <$> r) w.
Proof.
  intros Hrep Hl Hp. unfold path_to_inode.
  destruct (str_eqb path SLASH) eqn:E.
  - apply str_eqb_eq in E. subst path. injection Hp as <-. by apply number_to_inode_run.
  - unfold bind. rewrite (number_to_inode_run _ _ _ Hrep).
    rewrite take_ge by lia. apply (walk_run _ es); [done| |done].
    intros off e H. by apply live_in in H as [? _].
Qed.

(** ** Changing the log *)

Definition del (e : entry) : entry :=
  let i := en_inode e in
  mk_entry (mk_inode (i_number i) 1 (i_mode i) (i_uid i) (i_gid i) (i_flags i) (i_size i)
                     (i_atime i) (i_mtime i) (i_ctime i) (i_links i)) (en_data e).

(** Mark the entry at [off] deleted. *)
Definition mark1 (off : Z) (p : Z * entry) : Z * entry :=
  (p.1, if decide (p.1 = off) then del p.2 else p.2).
Definition mark (off : Z) (es : list entry) : list entry :=
  snd <$> (mark1 off <$> places SB_SIZE es).

Lemma places_mark base off es :
  places base (snd <$> (mark1 off <$> places base es)) = mark1 off <$> places base es.
Proof.
  revert base. induction es as [|e es IH]; intros base; [done|]. simpl.
  unfold mark1 at 1 3. simpl. f_equal.
  replace (esize (if decide (base = off) then del e else e)) with (esize e) by (by case_decide).
  apply IH.
Qed.

Lemma places_mark_out base off es :
  Forall entry_ok es -> off < base \/ base + Z.of_nat (length (enc_log es)) <= off ->
  snd <$> (mark1 off <$> places base es) = es.
Proof.
  intros Hok Hoff. assert (mark1 off <$> places base es = places base es) as ->.
  { rewrite <-(list_fmap_id (places base es)) at 2. apply list_fmap_ext.
    intros i [o e] Hin. apply list_elem_of_lookup_2 in Hin.
    pose proof (places_bound _ _ _ _ Hok Hin) as Hb.
    assert (entry_ok e) as (_ & _ & Hs).
    { revert Hin. clear Hb Hoff. revert base. induction Hok as [|y l Hy _ IH]; intros b; simpl.
      - by intros ?%elem_of_nil.
      - intros [[= -> ->]|Hin]%elem_of_cons; [done|by eapply IH]. }
    unfold esize, INODE_SIZE in Hb. unfold mark1. simpl. rewrite decide_False by lia. done. }
  clear. revert base. induction es as [|e es IH]; intros base; [done|]. simpl. by rewrite IH.
Qed.

Lemma places_split base es off e :
  Forall entry_ok es -> (off, e) ∈ places base es ->
  exists es1 es2, es = es1 ++ e :: es2 /\ off = base + Z.of_nat (length (enc_log es1)).
Proof.
  intros Hok. revert base. induction Hok as [|x es Hx Hes IH]; intros base Hin.
  - by apply elem_of_nil in Hin.
  - simpl in Hin. apply elem_of_cons in Hin as [[= -> ->]|Hin].
    + exists [], es. split; [done|]. simpl. lia.
    + destruct (IH _ Hin) as (es1 & es2 & -> & ->). exists (x :: es1), es2. split; [done|].
      change (enc_log (x :: es1)) with (enc x ++ enc_log es1). rewrite length_app.
      pose proof (length_enc x Hx). lia.
Qed.

Lemma mark_split es1 e es2 :
  Forall entry_ok (es1 ++ e :: es2) ->
  mark (SB_SIZE + Z.of_nat (length (enc_log es1))) (es1 ++ e :: es2) = es1 ++ del e :: es2.
Proof.
  intros Hok. apply Forall_app in Hok as [H1 [He H2]%Forall_cons_1]. unfold mark.
  rewrite places_app by done. rewrite !fmap_app. rewrite places_mark_out by (done || lia).
  f_equal. cbn [places]. rewrite !fmap_cons. f_equal.
  - unfold mark1. simpl. by rewrite decide_True.
  - apply places_mark_out; [done|]. left. destruct He as (_ & _ & Hs).
    unfold esize, INODE_SIZE. lia.
Qed.

Lemma entry_ok_del e : entry_ok e -> entry_ok (del e).
Proof.
  intros (Hw & Hp & Hs). split; [|split; [done|done]].
  unfold inode_words in *. simpl. rewrite !Forall_cons in Hw. rewrite !Forall_cons.
  destruct Hw as (? & _ & Hw). split; [done|]. split; [unfold word_ok; lia|done].
Qed.

Lemma splice_app a src b c :
  length src = length b -> splice (length a) src (a ++ b ++ c) = a ++ src ++ c.
Proof.
  intros Hl. unfold splice. rewrite take_app_length. f_equal. f_equal.
  rewrite <-drop_drop, drop_app_length, Hl. by rewrite drop_app_length.
Qed.

Lemma splice_del a e b :
  splice (length a + 4) (le_bytes 4 1) (a ++ enc e ++ b) = a ++ enc (del e) ++ b.
Proof.
  unfold enc, inode_bytes, words_bytes, inode_words, del. cbn [en_inode en_data flat_map i_number
    i_deleted i_mode i_uid i_gid i_flags i_size i_atime i_mtime i_ctime i_links].
  rewrite <-!app_assoc.
  rewrite (app_assoc a (le_bytes 4 (i_number (en_inode e)))).
  replace (length a + 4)%nat with (length (a ++ le_bytes 4 (i_number (en_inode e))))
    by (rewrite length_app, length_le_bytes; lia).
  rewrite splice_app by (by rewrite !length_le_bytes). by rewrite <-!app_assoc.
Qed.

Lemma length_enc_del e : length (enc (del e)) = length (enc e).
Proof. done. Qed.

Lemma length_enc_log_split es1 e es2 :
  length (enc_log (es1 ++ e :: es2)) = (length (enc_log es1) + length (enc e) + length (enc_log es2))%nat.
Proof.
  unfold enc_log. rewrite flat_map_app, length_app.
  change (flat_map enc (e :: es2)) with (enc e ++ flat_map enc es2). rewrite length_app. lia.
Qed.

Lemma length_enc_log_mark es off e :
  Forall entry_ok es -> (off, e) ∈ places SB_SIZE es -> length (enc_log (mark off es)) = length (enc_log es).
Proof.
  intros Hok Hin. destruct (places_split _ _ _ _ Hok Hin) as (es1 & es2 & -> & ->).
  rewrite mark_split by done. by rewrite !length_enc_log_split, length_enc_del.
Qed.

(** [inode->deleted = 1] through a pointer to the entry at [off]. *)
Lemma wr_deleted w es off e :
  rep w es -> (off, e) ∈ places SB_SIZE es ->
  exists d, wr_bytes (off + 4) (le_bytes 4 1) w = Ret tt (set_disk d w) /\
    rep (set_disk d w) (mark off es) /\ length d = length (w_disk w).
Proof.
  intros Hrep Hin. pose proof Hrep as (Hok & (sb & rest & Hd & Hsb) & Hhd & Hlen).
  destruct (rep_holds _ _ _ _ Hrep Hin) as [Hh He].
  destruct (holds_bounds _ _ _ Hh He) as (H0 & Hb & Hs).
  pose proof (length_enc_log_mark _ _ _ Hok Hin) as Hml.
  destruct (places_split _ _ _ _ Hok Hin) as (es1 & es2 & -> & ->).
  exists (splice (Z.to_nat (SB_SIZE + Z.of_nat (length (enc_log es1)) + 4)) (le_bytes 4 1) (w_disk w)).
  unfold esize, INODE_SIZE in Hb.
  assert (length (splice (Z.to_nat (SB_SIZE + Z.of_nat (length (enc_log es1)) + 4)) (le_bytes 4 1)
      (w_disk w)) = length (w_disk w)) as Hls.
  { apply length_splice. rewrite length_le_bytes. lia. }
  split_and!; [| |done].
  - unfold wr_bytes, in_disk. rewrite length_le_bytes.
    by rewrite !(proj2 (Z.leb_le _ _)) by lia.
  - split_and!.
    + rewrite mark_split by done. apply Forall_app in Hok as [? [? ?]%Forall_cons_1].
      apply Forall_app. split; [done|]. constructor; [by apply entry_ok_del|done].
    + exists sb, rest. split; [|done]. simpl. rewrite Hd, mark_split by done.
      unfold enc_log. rewrite !flat_map_app. cbn [flat_map]. rewrite <-!app_assoc.
      rewrite !(app_assoc sb). rewrite <-splice_del. f_equal.
      rewrite length_app. unfold enc_log in *. lia.
    + simpl. rewrite Hhd. by rewrite Hml.
    + unfold set_disk. cbn [w_disk]. by rewrite Hls.
Qed.

Lemma enc_log_snoc es e : enc_log (es ++ [e]) = enc_log es ++ enc e.
Proof. unfold enc_log. rewrite flat_map_app. cbn [flat_map]. by rewrite app_nil_r. Qed.

(** Appending an entry at the head of the log. *)
Lemma wr_append w es e :
  rep w es -> entry_ok e -> w_head w + esize e <= Z.of_nat (length (w_disk w)) ->
  exists d, wr_bytes (w_head w) (enc e) w = Ret tt (set_disk d w) /\
    rep (set_head (u32 (w_head w + esize e)) (set_disk d w)) (es ++ [e]) /\
    (forall off x, (off, x) ∈ places SB_SIZE es -> holds d off x) /\
    length d = length (w_disk w).
Proof.
  intros Hrep He Hsp. pose proof Hrep as (Hok & (sb & rest & Hd & Hsb) & Hhd & Hlen).
  pose proof (length_enc e He) as Hle. rewrite Hd, !length_app in Hsp.
  exists (sb ++ enc_log es ++ enc e ++ drop (length (enc e)) rest).
  assert (length (enc e) <= length rest)%nat as Hr by lia.
  assert (splice (Z.to_nat (w_head w)) (enc e) (w_disk w) =
          sb ++ enc_log es ++ enc e ++ drop (length (enc e)) rest) as Hsplice.
  { rewrite Hd. rewrite <-(take_drop (length (enc e)) rest) at 1. rewrite !app_assoc.
    rewrite <-(app_assoc _ (take _ _)).
    replace (Z.to_nat (w_head w)) with (length (sb ++ enc_log es)) by (rewrite length_app; lia).
    rewrite splice_app; [by rewrite <-!app_assoc|]. rewrite length_take. lia. }
  assert (rep (set_head (u32 (w_head w + esize e))
    (set_disk (sb ++ enc_log es ++ enc e ++ drop (length (enc e)) rest) w)) (es ++ [e])) as Hrep'.
  { unfold set_head, set_disk. split_and!; cbn [w_disk w_head].
    - apply Forall_app. split; [done|]. by constructor.
    - exists sb, (drop (length (enc e)) rest). split; [|done].
      by rewrite enc_log_snoc, <-!app_assoc.
    - rewrite enc_log_snoc, length_app. rewrite u32_small; [lia|].
      rewrite Hd, !length_app in Hlen. unfold SB_SIZE in *.
      destruct He as (_ & _ & Hs). unfold esize, INODE_SIZE in *. lia.
    - rewrite Hd in Hlen. rewrite !length_app, length_drop in *. lia. }
  split_and!; [|done| |].
  - unfold wr_bytes, in_disk. rewrite Hsplice. rewrite Hd, !length_app.
    rewrite !(proj2 (Z.leb_le _ _)) by (unfold SB_SIZE in *; lia). done.
  - intros off x Hin. apply (rep_holds _ _ off x Hrep'). rewrite places_app by done.
    apply elem_of_app. by left.
  - rewrite Hd, !length_app, length_drop. lia.
Qed.

(** ** Paths *)

(** [path] names [name] in the directory [dir]; the root directory is the empty
    prefix. *)
Definition child_path (dir name : list Z) : list Z := dir ++ 47 :: name.
Definition dir_path (dir : list Z) : list Z := match dir with [] => SLASH | _ => dir end.

Definition name_ok (name : list Z) : Prop :=
  name <> [] /\ Forall (fun c => c <> 47) name /\ Forall (fun c => c <> 0) name /\
  (length name < 32)%nat.
Definition dir_ok (dir : list Z) : Prop := last dir <> Some 47 /\ (length dir <= 127)%nat.

Lemma in_set_slash c : in_set SLASH c = (c =? 47).
Proof. unfold in_set. simpl. by rewrite orb_false_r. Qed.

Lemma is_slash_false (l : list Z) :
  Forall (fun c => c <> 47) l -> Forall (fun c => negb (is_slash c) = true) l.
Proof.
  intros H. eapply Forall_impl; [exact H|]. intros c Hc. unfold is_slash.
  by rewrite (proj2 (Z.eqb_neq _ _)).
Qed.

Lemma last_component_child dir name :
  Forall (fun c => c <> 47) name ->
  last_component (child_path dir name) = (dir ++ [47], name).
Proof.
  intros Hn. unfold last_component, child_path.
  rewrite reverse_app, reverse_cons, <-app_assoc. simpl ([47] ++ _).
  rewrite span_stop; [|apply Forall_reverse; by apply is_slash_false|done].
  by rewrite reverse_cons, !reverse_involutive.
Qed.

Lemma rstrip_end l c : c <> 47 -> rstrip (l ++ [c]) = l ++ [c].
Proof.
  intros Hc. unfold rstrip. rewrite reverse_snoc. simpl. unfold is_slash.
  rewrite (proj2 (Z.eqb_neq _ _)) by done. simpl. by rewrite <-reverse_snoc, reverse_involutive.
Qed.

Lemma rstrip_dir dir : last dir <> Some 47 -> rstrip (dir ++ [47]) = dir.
Proof.
  intros Hd. unfold rstrip. rewrite reverse_snoc. simpl.
  destruct (reverse dir) as [|c l] eqn:E; simpl.
  - by rewrite <-(reverse_involutive dir), E.
  - assert (c <> 47) as Hc.
    { intros ->. apply Hd. rewrite <-(reverse_involutive dir), E, reverse_cons. by rewrite last_snoc. }
    unfold is_slash. rewrite (proj2 (Z.eqb_neq _ _)) by done. simpl.
    by rewrite <-E, reverse_involutive.
Qed.

Lemma rstrip_child dir name :
  name <> [] -> Forall (fun c => c <> 47) name -> rstrip (child_path dir name) = child_path dir name.
Proof.
  intros Hn Hs. destruct name as [|x name'] using rev_ind; [done|].
  unfold child_path. rewrite app_comm_cons, app_assoc. apply rstrip_end.
  apply Forall_app in Hs as [_ Hs]. by apply Forall_cons_1 in Hs as [? _].
Qed.

Lemma basename_child dir name : name_ok name -> basename (child_path dir name) = name.
Proof.
  intros (Hn & Hs & _). unfold basename.
  destruct (child_path dir name) as [|c l] eqn:E; [by destruct dir|].
  rewrite <-E, rstrip_child by done. rewrite E. by rewrite <-E, last_component_child.
Qed.

Lemma dirname_child dir name :
  name_ok name -> dir_ok dir -> dirname (child_path dir name) = dir_path dir.
Proof.
  intros (Hn & Hs & _) [Hd _]. unfold dirname.
  destruct (child_path dir name) as [|c l] eqn:E; [by destruct dir|].
  rewrite <-E, rstrip_child by done. rewrite E. rewrite <-E, last_component_child by done.
  destruct (dir ++ [47]) as [|x l'] eqn:E'; [by destruct dir|].
  rewrite <-E', rstrip_dir by done. by destruct dir.
Qed.

Lemma components_child dir name :
  name_ok name -> components (child_path dir name) = components (dir_path dir) ++ [name].
Proof.
  intros (Hn & Hs & _). unfold components, child_path. rewrite !strtok_all_words.
  rewrite words_app by done. rewrite (words_word _ name); [|by eapply Forall_impl; [exact Hs|]; intros c Hc; rewrite in_set_slash; by apply Z.eqb_neq|done].
  f_equal. by destruct dir.
Qed.

(** ** What the lookup sees after a change *)

Lemma latest_mark off es n :
  latest (places SB_SIZE (mark off es)) n = mark1 off <$> latest (places SB_SIZE es) n.
Proof.
  unfold mark. rewrite places_mark. generalize (places SB_SIZE es) as ps. intros ps.
  assert (filter (numbered n) (mark1 off <$> ps) = mark1 off <$> filter (numbered n) ps) as E.
  { induction ps as [|p ps IH]; [done|]. rewrite fmap_cons, !filter_cons.
    assert (numbered n (mark1 off p) <-> numbered n p) as Hn.
    { unfold numbered, mark1. simpl. by case_decide. }
    destruct (decide (numbered n p)).
    - rewrite decide_True by (by apply Hn). by rewrite IH.
    - rewrite decide_False by (by rewrite Hn). by rewrite IH. }
  unfold latest. by rewrite E, fmap_last.
Qed.

Lemma places_inj base es off e e' :
  Forall entry_ok es -> (off, e) ∈ places base es -> (off, e') ∈ places base es -> e = e'.
Proof.
  intros Hok. revert base. induction Hok as [|x es Hx Hes IH]; intros base H1 H2.
  - by apply elem_of_nil in H1.
  - assert (forall o y, (o, y) ∈ places (base + esize x) es -> base < o) as Hlt.
    { intros o y Hin. apply places_bound in Hin as [? _]; [|done].
      destruct Hx as (_ & _ & Hs). unfold esize, INODE_SIZE in *. lia. }
    simpl in H1, H2. rewrite elem_of_cons in H1, H2.
    destruct H1 as [[= Eo Ee]|H1], H2 as [[= Eo' Ee']|H2].
    + congruence.
    + apply Hlt in H2. lia.
    + apply Hlt in H1. lia.
    + by eapply IH.
Qed.

(** The entry marked is the one that was live, so its inode is gone and the others stay. *)
Lemma live_mark es off e n :
  Forall entry_ok es -> live es (i_number (en_inode e)) = Some (off, e) ->
  live (mark off es) n = if decide (n = i_number (en_inode e)) then None else live es n.
Proof.
  intros Hok Hl. unfold live in *. rewrite latest_mark. case_decide as Hn.
  - subst n. destruct (latest _ _) as [[o x]|] eqn:El; [|done]. simpl in *.
    case_decide; [|done]. injection Hl as -> ->. unfold mark1. simpl.
    by rewrite (decide_True (P := off = off)).
  - destruct (latest (places SB_SIZE es) n) as [[o x]|] eqn:Eo; [|done].
    unfold mark1. simpl. destruct (decide (o = off)) as [->|]; [|done].
    destruct (latest _ (i_number _)) as [[o' x']|] eqn:El; [|done]. simpl in Hl.
    case_decide; [|done]. injection Hl as -> ->.
    apply latest_in in El as [H1 _], Eo as [H2 Hx].
    by rewrite (places_inj _ _ _ _ _ Hok H1 H2) in Hn.
Qed.

Lemma live_snoc es e n :
  Forall entry_ok es -> i_deleted (en_inode e) = 0 ->
  live (es ++ [e]) n =
  if decide (n = i_number (en_inode e)) then Some (SB_SIZE + Z.of_nat (length (enc_log es)), e)
  else live es n.
Proof.
  intros Hok Hd. unfold live. rewrite places_app, latest_app by done.
  cbn [places]. unfold latest at 1. rewrite filter_cons, filter_nil.
  destruct (decide (numbered n _)) as [Hn|Hn]; unfold numbered in Hn; simpl in Hn.
  - subst n. simpl. by rewrite !decide_True.
  - by rewrite (decide_False (P := n = _)).
Qed.

(** ** Creating a file or a directory *)

Definition new_parent (pi : wfs_inode) (ds : list dentry) (d : dentry) : entry :=
  mk_entry (mk_inode (i_number pi) 0 (i_mode pi) (i_uid pi) (i_gid pi) 0 (i_size pi + DENTRY_SIZE)
                     (i_atime pi) 0 (i_ctime pi) (i_links pi)) (Dir (ds ++ [d])).

Definition new_child (fmt : Z) (e : env) (mode num : Z) (p : payload) : entry :=
  mk_entry (mk_inode num 0 (Z.lor fmt mode) (e_uid e) (e_gid e) 0 0
                     (e_atime e) (e_mtime e) (e_ctime e) 1) p.

Definition env_ok (e : env) : Prop :=
  word_ok (e_uid e) /\ word_ok (e_gid e) /\ word_ok (e_atime e) /\ word_ok (e_mtime e) /\
  word_ok (e_ctime e).

Definition new_dentry (junk name : list Z) (num : Z) : dentry :=
  {| d_name := name; d_pad := drop (S (length name)) junk; d_inode := num |}.

(** The log after [wfs_create]. *)
Definition create_log (fmt : Z) (e : env) (junk name : list Z) (mode num : Z) (empty : payload)
    (off : Z) (pi : wfs_inode) (ds : list dentry) (es : list entry) : list entry :=
  mark off es ++ [new_parent pi ds (new_dentry junk name num)] ++ [new_child fmt e mode num empty].

Lemma data_bytes_snoc ds d :
  data_bytes (Dir (ds ++ [d])) = data_bytes (Dir ds) ++ enc_dentry d.
Proof. unfold data_bytes. rewrite flat_map_app. cbn [flat_map]. by rewrite app_nil_r. Qed.

Lemma new_dentry_ok junk name num :
  length junk = 32%nat -> name_ok name -> 0 <= num < 2 ^ 31 -> dentry_ok (new_dentry junk name num).
Proof.
  intros Hj (_ & _ & H0 & Hl) Hn. split; [done|]. split; [|done]. simpl. rewrite length_drop. lia.
Qed.

Lemma new_parent_ok pi ds d :
  entry_ok (mk_entry pi (Dir ds)) -> dentry_ok d -> i_size pi + DENTRY_SIZE < 2 ^ 32 ->
  entry_ok (new_parent pi ds d).
Proof.
  intros (Hw & Hp & Hs) Hd Hlt. simpl in Hw, Hp, Hs. split_and!.
  - unfold inode_words in *. simpl. rewrite !Forall_cons in Hw. rewrite !Forall_cons.
    destruct Hw as (? & ? & ? & ? & ? & ? & ? & ? & ? & ? & ? & _).
    unfold word_ok, DENTRY_SIZE in *. repeat (split; [lia|]). constructor.
  - simpl. apply Forall_app. split; [done|]. by constructor.
  - unfold new_parent. cbn [en_inode en_data i_size]. rewrite data_bytes_snoc, length_app.
    rewrite (length_enc_dentry d Hd), Hs. unfold DENTRY_SIZE, data_bytes. lia.
Qed.

Lemma new_child_ok fmt e mode num p :
  env_ok e -> word_ok (Z.lor fmt mode) -> 0 <= num < 2 ^ 31 -> data_bytes p = [] -> payload_ok p ->
  entry_ok (new_child fmt e mode num p).
Proof.
  intros (? & ? & ? & ? & ?) Hm Hn Hp Hpo. split_and!; [|done|].
  - unfold inode_words. simpl. unfold word_ok in *. repeat (constructor; [done || lia|]). constructor.
  - simpl. by rewrite Hp.
Qed.

Lemma bind_run {S A B} (m : M S A) (k : A -> M S B) s a s' : m s = Ret a s' -> bind m k s = k a s'.
Proof. unfold bind. by intros ->. Qed.

(** Run the first call of a sequence with a lemma about it. *)
Ltac run tac := erewrite bind_run by tac; cbv beta.
Ltac run_rd k Hh He := erewrite bind_run by (eapply (rd32_run _ _ _ k _ _ Hh He eq_refl); lia); cbv beta.

Lemma mark_in off e es :
  (off, e) ∈ places SB_SIZE es -> (off, del e) ∈ places SB_SIZE (mark off es).
Proof.
  intros Hin. unfold mark. rewrite places_mark. apply list_elem_of_fmap.
  exists (off, e). split; [|done]. unfold mark1. simpl. by rewrite decide_True.
Qed.

Lemma enc_new_parent pi ds junk name num :
  entry_ok (mk_entry pi (Dir ds)) -> i_size pi + DENTRY_SIZE < 2 ^ 32 -> 0 <= num < 2 ^ 31 ->
  inode_bytes (mk_inode (i_number pi) 0 (i_mode pi) (i_uid pi) (i_gid pi) 0
                        (u32 (i_size pi + DENTRY_SIZE)) (i_atime pi) 0 (i_ctime pi) (i_links pi))
  ++ slice (Z.to_nat 0) (Z.to_nat (i_size pi)) (data_bytes (Dir ds))
  ++ dentry_bytes name (drop (S (length name)) junk) (u64 num)
  = enc (new_parent pi ds (new_dentry junk name num)).
Proof.
  intros (_ & _ & Hs) Hlt Hn. unfold enc, new_parent. cbn [en_inode en_data] in *.
  rewrite data_bytes_snoc. rewrite u32_small by (unfold DENTRY_SIZE in *; lia).
  f_equal. f_equal.
  - rewrite Hs, Nat2Z.id. apply slice_all.
  - unfold enc_dentry, new_dentry. cbn [d_name d_pad d_inode]. unfold u64.
    by rewrite Z.mod_small by lia.
Qed.

Lemma enc_new_child fmt e mode num p :
  data_bytes p = [] -> 0 <= num < 2 ^ 31 ->
  inode_bytes (mk_inode (u32 num) 0 (Z.lor fmt mode) (e_uid e) (e_gid e) 0 0
                        (e_atime e) (e_mtime e) (e_ctime e) 1) = enc (new_child fmt e mode num p).
Proof.
  intros Hp Hn. unfold enc, new_child. cbn [en_inode en_data].
  by rewrite Hp, app_nil_r, u32_small by lia.
Qed.

Lemma wfs_create_run w es fmt e junk dir name mode empty off pi ds :
  rep w es -> lookup_path es (dir_path dir) = Some (Some (off, mk_entry pi (Dir ds))) ->
  name_ok name -> dir_ok dir -> length junk = 32%nat -> env_ok e -> word_ok (Z.lor fmt mode) ->
  data_bytes empty = [] -> payload_ok empty ->
  0 <= cur_inode_num w < 2 ^ 31 - 1 ->
  w_head w + i_size pi + 128 <= Z.of_nat (length (w_disk w)) ->
  (off, mk_entry pi (Dir ds)) ∈ places SB_SIZE es ->
  exists w', wfs_create fmt e junk (child_path dir name) mode w = Ret 0 w' /\
    rep w' (create_log fmt e junk name mode (cur_inode_num w + 1) empty off pi ds es) /\
    cur_inode_num w' = cur_inode_num w + 1 /\ length (w_disk w') = length (w_disk w).
Proof.
  intros Hrep Hlk Hname Hdir Hj Henv Hmode Hemp Hpo Hnum Hsp Hin.
  destruct (rep_holds _ _ _ _ Hrep Hin) as [Hh He].
  destruct (holds_bounds _ _ _ Hh He) as (H0 & Hb & Hsz). cbn [en_inode] in Hsz.
  pose proof Hrep as (_ & _ & Hhd & Hlen).
  unfold wfs_create. rewrite dirname_child, basename_child by done.
  run ltac:(eapply (path_to_inode_run _ es _ _ Hrep); [destruct dir; [simpl; lia|apply Hdir]|exact Hlk]).
  unfold fmap, option_fmap, option_map. cbn [fst]. run ltac:(reflexivity).
  run_rd 0%nat Hh He. run_rd 2%nat Hh He. run_rd 3%nat Hh He. run_rd 4%nat Hh He.
  run_rd 6%nat Hh He. run_rd 7%nat Hh He. run_rd 9%nat Hh He. run_rd 10%nat Hh He.
  cbn [en_inode].
  pose proof (rd_bytes_data _ _ _ 0 (i_size pi) Hh He ltac:(lia) Hsz ltac:(simpl; lia)) as Hrd.
  rewrite Z.add_0_r in Hrd. run ltac:(exact Hrd). clear Hrd. cbn [en_data].
  destruct (wr_deleted w es off _ Hrep Hin) as (d & Hwr & Hrep1 & Hd1).
  run ltac:(exact Hwr). run ltac:(reflexivity). run ltac:(reflexivity).
  change (cur_inode_num (set_disk d w)) with (cur_inode_num w).
  rewrite !(s32_small (cur_inode_num w + 1)) by lia.
  set (num := cur_inode_num w + 1) in *.
  assert (0 <= num < 2 ^ 31) as Hnm by lia.
  change (cur_inode_num (set_num num (set_disk d w))) with num.
  destruct Hname as (Hn1 & Hn2 & Hn3 & Hn4).
  rewrite (proj2 (Z.leb_gt _ _)) by (unfold MAX_FILE_NAME_LEN; lia).
  run ltac:(reflexivity).
  pose proof (new_dentry_ok junk name num Hj (conj Hn1 (conj Hn2 (conj Hn3 Hn4))) Hnm) as Hdo.
  unfold SB_SIZE in *.
  pose proof (new_parent_ok pi ds _ He Hdo ltac:(unfold DENTRY_SIZE; lia)) as Hpok.
  rewrite enc_new_parent; [|done|unfold DENTRY_SIZE; lia|done].
  set (np := new_parent pi ds (new_dentry junk name num)) in *.
  assert (esize np = INODE_SIZE + i_size pi + DENTRY_SIZE) as Hnpsz.
  { unfold esize, np, new_parent. simpl. lia. }
  set (w1 := set_num num (set_disk d w)) in *.
  assert (rep w1 (mark off es)) as Hrep1' by exact Hrep1.
  destruct (wr_append w1 (mark off es) np Hrep1' Hpok) as (d2 & Hwr2 & Hrep2 & Hh2 & Hd2).
  { rewrite Hnpsz. unfold INODE_SIZE, DENTRY_SIZE. simpl. rewrite Hd1. lia. }
  run ltac:(exact Hwr2).
  run ltac:(eapply (rd32_run _ off (del (mk_entry pi (Dir ds))) 6);
    [apply Hh2, mark_in, Hin|by apply entry_ok_del|reflexivity|lia]).
  simpl (i_size _). rewrite <-Hnpsz. run ltac:(reflexivity).
  set (w2 := set_head (u32 (w_head w1 + esize np)) (set_disk d2 w1)) in *.
  change (set_head _ (set_disk d2 w1)) with w2. run ltac:(reflexivity).
  pose proof (new_child_ok fmt e mode num empty Henv Hmode Hnm Hemp Hpo) as Hcok.
  rewrite (enc_new_child fmt e mode num empty Hemp Hnm).
  set (nc := new_child fmt e mode num empty) in *.
  assert (w_head w2 = w_head w + esize np) as Hw2h.
  { unfold w2. simpl. apply u32_small. rewrite Hnpsz. unfold INODE_SIZE, DENTRY_SIZE. lia. }
  destruct (wr_append w2 _ nc Hrep2 Hcok) as (d3 & Hwr3 & Hrep3 & _ & Hd3).
  { rewrite Hw2h, Hnpsz. unfold esize, INODE_SIZE, DENTRY_SIZE. simpl. rewrite Hd2. simpl. rewrite Hd1. lia. }
  run ltac:(exact Hwr3). run ltac:(reflexivity).
  eexists. split; [reflexivity|]. split; [|split; [done|]].
  - unfold create_log. by rewrite app_assoc.
  - simpl. rewrite Hd3. simpl. rewrite Hd2. simpl. by rewrite Hd1.
Qed.

(** ** Paths in a log that has grown *)

(** Every live inode stays live, and every name in a live directory stays there. *)
Definition extends (es es' : list entry) : Prop :=
  forall n o x, live es n = Some (o, x) ->
    exists o' x', live es' n = Some (o', x') /\
      forall ds tok m, en_data x = Dir ds -> dir_find ds tok = Some m ->
        exists ds', en_data x' = Dir ds' /\ dir_find ds' tok = Some m.

Lemma resolve_live es toks : forall n o x,
  resolve es toks (live es n) = Some (Some (o, x)) -> live es (i_number (en_inode x)) = Some (o, x).
Proof.
  induction toks as [|tok toks IH]; intros n o x; simpl.
  - intros [= Hl]. pose proof (live_in _ _ _ _ Hl) as (_ & -> & _). done.
  - destruct (live es n) as [[o1 [i [bs|ds]]]|]; try done. destruct (dir_find ds tok); [|done]. apply IH.
Qed.

Lemma resolve_extends es es' toks : extends es es' -> forall n o x,
  resolve es toks (live es n) = Some (Some (o, x)) ->
  resolve es' toks (live es' n) = Some (live es' (i_number (en_inode x))).
Proof.
  intros Hext. induction toks as [|tok toks IH]; intros n o x; simpl.
  - intros [= Hl]. by apply live_in in Hl as (_ & -> & _).
  - destruct (live es n) as [[o1 [i [bs|ds]]]|] eqn:El; try done.
    destruct (dir_find ds tok) as [m|] eqn:Ef; [|done]. intros Hr.
    destruct (Hext _ _ _ El) as (o2 & [i2 p2] & -> & Hdir).
    destruct (Hdir ds tok m eq_refl Ef) as (ds' & Hp & Hf). simpl in Hp. subst p2.
    rewrite Hf. by eapply IH.
Qed.

Lemma resolve_snoc es toks tok : forall cur o i ds,
  resolve es toks cur = Some (Some (o, mk_entry i (Dir ds))) ->
  resolve es (toks ++ [tok]) cur =
  Some (match dir_find ds tok with Some n => live es n | None => None end).
Proof.
  induction toks as [|t toks IH]; intros cur o i ds; simpl.
  - intros [= ->]. by destruct (dir_find ds tok).
  - destruct cur as [[o1 [i1 [bs|ds1]]]|]; try done. destruct (dir_find ds1 t); [|done]. apply IH.
Qed.

Lemma dir_find_app ds1 ds2 tok :
  dir_find (ds1 ++ ds2) tok = match dir_find ds1 tok with Some n => Some n | None => dir_find ds2 tok end.
Proof. induction ds1 as [|d ds1 IH]; simpl; [done|]. by case_decide. Qed.

Lemma live_create fmt e junk name mode num empty off pi ds es n :
  let es' := create_log fmt e junk name mode num empty off pi ds es in
  Forall entry_ok es -> Forall entry_ok es' ->
  live es (i_number pi) = Some (off, mk_entry pi (Dir ds)) -> num <> i_number pi ->
  exists o1 o2, live es' n =
    if decide (n = num) then Some (o2, new_child fmt e mode num empty)
    else if decide (n = i_number pi) then Some (o1, new_parent pi ds (new_dentry junk name num))
    else live es n.
Proof.
  intros es' Hok Hok' Hl Hne. unfold es', create_log in *. rewrite app_assoc in *.
  apply Forall_app in Hok' as [Hok1 _]. pose proof Hok1 as [Hok2 _]%Forall_app.
  eexists _, _. rewrite live_snoc by done. simpl i_number. case_decide; [done|].
  rewrite live_snoc by done. simpl i_number. case_decide; [done|].
  rewrite (live_mark es off (mk_entry pi (Dir ds))) by done. simpl i_number. by rewrite decide_False.
Qed.

Lemma extends_create fmt e junk name mode num empty off pi ds es :
  let es' := create_log fmt e junk name mode num empty off pi ds es in
  Forall entry_ok es -> Forall entry_ok es' ->
  live es (i_number pi) = Some (off, mk_entry pi (Dir ds)) -> num <> i_number pi ->
  live es num = None -> extends es es'.
Proof.
  intros es' Hok Hok' Hl Hne Hfr n o x Hx.
  destruct (live_create fmt e junk name mode num empty off pi ds es n Hok Hok' Hl Hne) as (o1 & o2 & E).
  fold es' in E. rewrite E. case_decide; [congruence|]. case_decide as Hn.
  - subst n. rewrite Hl in Hx. injection Hx as <- <-. eexists _, _. split; [done|].
    intros ds1 tok m [= <-] Hf. exists (ds ++ [new_dentry junk name num]). split; [done|].
    by rewrite dir_find_app, Hf.
  - exists o, x. split; [done|]. naive_solver.
Qed.

(** The entry of a live inode is in the log. *)
Lemma fresh_not_live es num : Forall (fun x => i_number (en_inode x) < num) es -> live es num = None.
Proof.
  intros Hf. unfold live. destruct (latest (places SB_SIZE es) num) as [[o x]|] eqn:El; [|done].
  apply latest_in in El as [Hin Hn]. exfalso. revert Hin. generalize SB_SIZE.
  induction Hf as [|y es Hy _ IH]; intros b; simpl; [by intros ?%elem_of_nil|].
  intros [[= -> ->]|?]%elem_of_cons; [lia|naive_solver].
Qed.

(** C16: [wfs_mknod] and [wfs_mkdir] implement creation: called for a name that the
    (live) parent directory does not have yet, with room on the disk, they return 0, the
    image represents a log in which the new path resolves to a new, empty inode with the
    given mode, owner and times, every path that resolved before resolves to the same
    inode number, and every inode other than the parent's is unchanged. *)
Theorem wfs_create_correct w es fmt e junk dir name mode empty off pi ds :
  rep w es -> lookup_path es (dir_path dir) = Some (Some (off, mk_entry pi (Dir ds))) ->
  dir_find ds name = None ->
  name_ok name -> dir_ok dir -> length junk = 32%nat -> env_ok e -> word_ok (Z.lor fmt mode) ->
  empty = File [] \/ empty = Dir [] ->
  Forall (fun x => i_number (en_inode x) <= cur_inode_num w) es -> 0 <= cur_inode_num w < 2 ^ 31 - 1 ->
  w_head w + i_size pi + 128 <= Z.of_nat (length (w_disk w)) ->
  exists w' es' o, wfs_create fmt e junk (child_path dir name) mode w = Ret 0 w' /\
    rep w' es' /\ cur_inode_num w' = cur_inode_num w + 1 /\
    Forall (fun x => i_number (en_inode x) <= cur_inode_num w') es' /\
    lookup_path es' (child_path dir name) =
      Some (Some (o, new_child fmt e mode (cur_inode_num w + 1) empty)) /\
    (forall p o' x, lookup_path es p = Some (Some (o', x)) ->
       lookup_path es' p = Some (live es' (i_number (en_inode x))) /\
       live es' (i_number (en_inode x)) <> None) /\
    (forall n, n <> i_number pi -> n <> cur_inode_num w + 1 -> live es' n = live es n).
Proof.
  intros Hrep Hlk Hnew Hname Hdir Hj Henv Hmode Hemp Hfr Hnum Hsp.
  pose proof (resolve_live _ _ _ _ _ Hlk) as Hl. simpl in Hl.
  pose proof (live_in _ _ _ _ Hl) as (Hin & _ & _).
  assert (data_bytes empty = [] /\ payload_ok empty) as [Hd Hp].
  { destruct Hemp as [-> | ->]; repeat constructor. }
  destruct (wfs_create_run w es fmt e junk dir name mode empty off pi ds) as (w' & Hrun & Hrep' & Hcn & _);
    try done.
  set (es' := create_log _ _ _ _ _ _ _ _ _ _ _) in Hrep'.
  set (num := cur_inode_num w + 1) in *.
  assert (Forall entry_ok es /\ Forall entry_ok es') as [Hok Hok'] by (split; [apply Hrep|apply Hrep']).
  assert (live es num = None) as Hno.
  { apply fresh_not_live. eapply Forall_impl; [exact Hfr|]. simpl. lia. }
  assert (num <> i_number pi) as Hne by (intros Heq; congruence).
  pose proof (fun n => live_create fmt e junk name mode num empty off pi ds es n Hok Hok' Hl Hne) as Hlive.
  pose proof (extends_create fmt e junk name mode num empty off pi ds es Hok Hok' Hl Hne Hno) as Hext.
  fold es' in Hlive, Hext.
  destruct (Hlive num) as (o1 & o2 & Eo). rewrite decide_True in Eo by done.
  exists w', es', o2. split_and!; try done.
  - unfold es', create_log. rewrite Hcn. apply Forall_app. split.
    + destruct (places_split _ _ _ _ Hok Hin) as (es1 & es2 & -> & ->). rewrite mark_split by done.
      apply Forall_app in Hfr as [? [? ?]%Forall_cons_1]. apply Forall_app.
      split; [|constructor]; try (eapply Forall_impl; [done|]); simpl in *; lia.
    + pose proof Hin as Hin'. destruct (places_split _ _ _ _ Hok Hin) as (es1 & es2 & -> & _).
      apply Forall_app in Hfr as [? [Hpn ?]%Forall_cons_1]. simpl in Hpn.
      repeat constructor; simpl; lia.
  - unfold lookup_path. rewrite components_child by done.
    pose proof (resolve_extends _ _ _ Hext _ _ _ Hlk) as Hr. simpl i_number in Hr.
    destruct (Hlive (i_number pi)) as (o1' & o2' & Ep).
    rewrite decide_False, decide_True in Ep by done. rewrite Ep in Hr.
    unfold new_parent in Hr. rewrite (resolve_snoc _ _ _ _ _ _ _ Hr).
    rewrite dir_find_app, Hnew. simpl. rewrite decide_True by done. by rewrite Eo.
  - intros p o' x Hp'. split; [by eapply resolve_extends|].
    apply resolve_live in Hp'. destruct (Hext _ _ _ Hp') as (? & ? & -> & _). done.
  - intros n Hn1 Hn2. destruct (Hlive n) as (? & ? & ->). by rewrite !decide_False.
Qed.

Definition demo_env : env := {| e_uid := 1; e_gid := 2; e_atime := 3; e_mtime := 4; e_ctime := 5 |}.
Definition demo_root : entry :=
  mk_entry (mk_inode 0 0 (Z.lor S_IFDIR 493) 1 2 0 0 3 4 5 2) (Dir []).
Definition demo : wfs := mk_wfs (mkfs demo_env (replicate 400 0)) 52 100.

Lemma demo_rep : rep demo [demo_root].
Proof.
  split_and!.
  - repeat constructor; vm_compute; congruence.
  - exists (take 8 (w_disk demo)), (drop 52 (w_disk demo)). by vm_compute.
  - done.
  - by vm_compute.
Qed.

Lemma wfs_create_correct_witness : exists w' es' o,
  wfs_mknod demo_env (replicate 32 0) (child_path [] (str "f")) 420 demo = Ret 0 w' /\
  rep w' es' /\ lookup_path es' (child_path [] (str "f")) =
    Some (Some (o, new_child S_IFREG demo_env 420 101 (File []))).
Proof.
  destruct (wfs_create_correct demo [demo_root] S_IFREG demo_env (replicate 32 0) [] (str "f") 420
              (File []) 8 (en_inode demo_root) []) as (w' & es' & o & H1 & H2 & H3 & H4 & H5 & _);
    try reflexivity.
  - exact demo_rep.
  - repeat split; try discriminate; repeat constructor; try discriminate; simpl; lia.
  - split; [discriminate|simpl; lia].
  - repeat split; simpl; lia.
  - split; vm_compute; congruence.
  - by left.
  - repeat constructor. simpl. lia.
  - simpl. lia.
  - vm_compute. congruence.
  - exists w', es', o. split; [exact H1|]. split; [exact H2|exact H5].
Defined.

(** ** Writing and reading a file *)

Definition new_contents (e : env) (i : wfs_inode) (bs : list Z) : entry :=
  mk_entry (mk_inode (i_number i) 0 (i_mode i) (i_uid i) (i_gid i) (i_flags i)
                     (Z.of_nat (length bs)) (e_atime e) (e_mtime e) (e_ctime e) (i_links i)) (File bs).

Lemma new_contents_ok e i p bs :
  entry_ok (mk_entry i p) -> env_ok e -> Z.of_nat (length bs) < 2 ^ 32 -> entry_ok (new_contents e i bs).
Proof.
  intros (Hw & _ & _) (? & ? & ? & ? & ?) Hl. split_and!; [|done|done].
  unfold inode_words in *. simpl in *. rewrite !Forall_cons in Hw. rewrite !Forall_cons.
  destruct Hw as (? & ? & ? & ? & ? & ? & ? & ? & ? & ? & ? & _).
  unfold word_ok in *. repeat (split; [lia|]). constructor.
Qed.

Lemma splice_adjacent off a b l :
  (off + length a + length b <= length l)%nat ->
  splice (off + length a) b (splice off a l) = splice off (a ++ b) l.
Proof.
  intros Hl. unfold splice at 2.
  replace (off + length a)%nat with (length (take off l ++ a)) at 1
    by (rewrite length_app, length_take; lia).
  rewrite app_assoc. rewrite <-(take_drop (length b) (drop (off + length a) l)).
  rewrite splice_app by (rewrite length_take, length_drop; lia).
  unfold splice. rewrite drop_drop, length_app, Nat.add_assoc. by rewrite <-!app_assoc.
Qed.

Lemma wr_two w off a b :
  0 <= off -> off + Z.of_nat (length a + length b) <= Z.of_nat (length (w_disk w)) ->
  bind (wr_bytes off a) (fun _ => wr_bytes (off + Z.of_nat (length a)) b) w = wr_bytes off (a ++ b) w.
Proof.
  intros H0 Hl. unfold bind, wr_bytes, in_disk. rewrite length_app.
  rewrite !(proj2 (Z.leb_le _ _)) by lia. simpl andb. cbv iota.
  cbn [set_disk w_disk]. rewrite length_splice by lia.
  rewrite !(proj2 (Z.leb_le _ _)) by lia. simpl andb. cbv iota.
  f_equal. unfold set_disk. simpl. f_equal.
  replace (Z.to_nat (off + Z.of_nat (length a))) with (Z.to_nat off + length a)%nat by lia.
  apply splice_adjacent. lia.
Qed.

Lemma bind_bind {S A B C} (m : M S A) (k : A -> M S B) (k' : B -> M S C) s :
  bind m (fun a => bind (k a) k') s = bind (bind m k) k' s.
Proof. unfold bind. by destruct (m s). Qed.

Definition write_log (e : env) (off : Z) (i : wfs_inode) (bs : list Z) (es : list entry) : list entry :=
  mark off es ++ [new_contents e i bs].

Lemma wfs_write_run w es e path buffer off i bs :
  rep w es -> (length path <= 127)%nat ->
  lookup_path es path = Some (Some (off, mk_entry i (File bs))) ->
  (off, mk_entry i (File bs)) ∈ places SB_SIZE es -> env_ok e ->
  w_head w + 52 <= Z.of_nat (length (w_disk w)) ->
  exists w', wfs_write e path buffer (Z.of_nat (length buffer)) 0 w =
      Ret (Z.min (Z.of_nat (length buffer)) 8) w' /\
    rep w' (write_log e off i (take 8 buffer) es) /\ cur_inode_num w' = cur_inode_num w.
Proof.
  intros Hrep Hpl Hlk Hin Henv Hsp.
  destruct (rep_holds _ _ _ _ Hrep Hin) as [Hh He]. pose proof Hrep as (_ & _ & Hhd & Hlen).
  unfold wfs_write. run ltac:(eapply (path_to_inode_run _ es _ _ Hrep Hpl Hlk)).
  unfold fmap, option_fmap, option_map. cbn [fst]. run ltac:(reflexivity).
  destruct (wr_deleted w es off _ Hrep Hin) as (d & Hwr & Hrep1 & Hd1).
  run ltac:(exact Hwr). clear Hh He.
  destruct (rep_holds _ _ _ _ Hrep1 (mark_in _ _ _ Hin)) as [Hh He].
  change (u64 (SIZEOF_POINTER - 0)) with 8.
  set (size := if 8 <? Z.of_nat (length buffer) then 8 else Z.of_nat (length buffer)).
  assert (size = Z.of_nat (length (take 8 buffer)) /\ 0 <= size <= 8) as [Hsz Hb].
  { unfold size. rewrite length_take. destruct (Z.ltb_spec 8 (Z.of_nat (length buffer))); lia. }
  run_rd 0%nat Hh He. run_rd 2%nat Hh He. run_rd 3%nat Hh He. run_rd 4%nat Hh He.
  run_rd 5%nat Hh He. run_rd 10%nat Hh He. run ltac:(reflexivity). cbn [en_inode].
  rewrite (u32_small size) by lia. simpl (0 <=? 0). rewrite andb_true_l, Z.add_0_l.
  rewrite (proj2 (Z.leb_le size _)) by (unfold size; destruct (Z.ltb_spec 8 (Z.of_nat (length buffer))); lia).
  assert (slice (Z.to_nat 0) (Z.to_nat size) buffer = take 8 buffer) as ->.
  { unfold slice, size. change (Z.to_nat 0) with 0%nat. rewrite drop_0.
    destruct (Z.ltb_spec 8 (Z.of_nat (length buffer))); [done|].
    rewrite Nat2Z.id, firstn_all. symmetry. apply take_ge. lia. }
  rewrite bind_bind. simpl (i_number _). simpl (i_mode _). simpl (i_uid _). simpl (i_gid _).
  simpl (i_flags _). simpl (i_links _).
  assert (entry_ok (new_contents e i (take 8 buffer))) as Hnc.
  { eapply new_contents_ok; [|done|rewrite <-Hsz; lia]. by apply (rep_holds _ _ _ _ Hrep Hin). }
  set (w1 := set_disk d w) in *.
  assert (esize (new_contents e i (take 8 buffer)) = INODE_SIZE + size) as Hes.
  { unfold esize. simpl. by rewrite Hsz. }
  destruct (wr_append w1 _ _ Hrep1 Hnc) as (d2 & Hwr2 & Hrep2 & _ & _).
  { rewrite Hes. unfold INODE_SIZE. simpl. rewrite Hd1. lia. }
  run ltac:(rewrite <-Hwr2; unfold INODE_SIZE;
    rewrite Hsz; apply (wr_two w1 (w_head w1) (inode_bytes (en_inode (new_contents e i (take 8 buffer))))
                          (take 8 buffer));
    simpl; unfold SB_SIZE in *; rewrite ?length_take, ?Hd1; lia).
  run ltac:(reflexivity). eexists. split; [|split].
  - unfold ret. f_equal. rewrite s32_small by lia. rewrite Hsz, length_take. lia.
  - unfold write_log. rewrite Hes in Hrep2. exact Hrep2.
  - done.
Qed.

Lemma wfs_read_run w es path size offset off i bs :
  rep w es -> (length path <= 127)%nat ->
  lookup_path es path = Some (Some (off, mk_entry i (File bs))) ->
  (off, mk_entry i (File bs)) ∈ places SB_SIZE es ->
  0 <= offset <= Z.of_nat (length bs) -> 0 <= size -> Z.of_nat (length bs) < 2 ^ 31 ->
  wfs_read path size offset w =
  Ret (slice (Z.to_nat offset) (Z.to_nat size) bs, Z.min size (Z.of_nat (length bs) - offset)) w.
Proof.
  intros Hrep Hpl Hlk Hin Ho Hs Hb. destruct (rep_holds _ _ _ _ Hrep Hin) as [Hh He].
  unfold wfs_read. run ltac:(eapply (path_to_inode_run _ es _ _ Hrep Hpl Hlk)).
  unfold fmap, option_fmap, option_map. cbn [fst]. run_rd 6%nat Hh He. cbn [en_inode].
  pose proof He as (_ & _ & Hsz). simpl in Hsz. rewrite Hsz.
  unfold u64. rewrite Z.mod_small by lia.
  set (n := if _ <? size then _ else size).
  assert (n = Z.min size (Z.of_nat (length bs) - offset)) as Hn.
  { unfold n. destruct (Z.ltb_spec (Z.of_nat (length bs) - offset) size); lia. }
  run ltac:(apply (rd_bytes_data _ _ _ offset n Hh He); simpl; lia).
  unfold ret. cbn [en_data data_bytes]. rewrite s32_small by lia. rewrite Hn. do 2 f_equal.
  unfold slice. destruct (Z.le_ge_cases size (Z.of_nat (length bs) - offset)).
  - by rewrite Z.min_l.
  - rewrite Z.min_r by lia. rewrite !take_ge; [done|rewrite length_drop; lia..].
Qed.

Lemma live_write e off i bs bs' es n :
  let es' := write_log e off i bs' es in
  Forall entry_ok es -> Forall entry_ok es' ->
  live es (i_number i) = Some (off, mk_entry i (File bs)) ->
  exists o, live es' n =
    if decide (n = i_number i) then Some (o, new_contents e i bs') else live es n.
Proof.
  intros es' Hok Hok' Hl. unfold es', write_log in *. apply Forall_app in Hok' as [Hok1 _].
  eexists. rewrite live_snoc by done. simpl i_number. case_decide; [done|].
  rewrite (live_mark es off (mk_entry i (File bs))) by done. simpl i_number. by rewrite decide_False.
Qed.

Lemma extends_write e off i bs bs' es :
  let es' := write_log e off i bs' es in
  Forall entry_ok es -> Forall entry_ok es' ->
  live es (i_number i) = Some (off, mk_entry i (File bs)) -> extends es es'.
Proof.
  intros es' Hok Hok' Hl n o x Hx. destruct (live_write e off i bs bs' es n Hok Hok' Hl) as (o' & E).
  fold es' in E. rewrite E. case_decide as Hn.
  - subst n. rewrite Hl in Hx. injection Hx as <- <-. eexists _, _. split; [done|]. done.
  - exists o, x. split; [done|]. naive_solver.
Qed.

(** [wfs_write] at offset 0 to a live file replaces its contents by the first 8 bytes
    of the buffer ([sizeof] of a pointer), all of it when the buffer is that short, and
    returns how many; a later [wfs_read] returns exactly those bytes from any offset in
    the file, all old paths still resolve, and no other inode changes. *)
Theorem wfs_write_read w es e path buffer off i bs size offset :
  rep w es -> (length path <= 127)%nat ->
  lookup_path es path = Some (Some (off, mk_entry i (File bs))) -> env_ok e ->
  w_head w + 52 <= Z.of_nat (length (w_disk w)) ->
  0 <= offset <= Z.min 8 (Z.of_nat (length buffer)) -> 0 <= size ->
  exists w' es', wfs_write e path buffer (Z.of_nat (length buffer)) 0 w =
      Ret (Z.min (Z.of_nat (length buffer)) 8) w' /\
    rep w' es' /\
    wfs_read path size offset w' =
      Ret (slice (Z.to_nat offset) (Z.to_nat size) (take 8 buffer),
           Z.min size (Z.min 8 (Z.of_nat (length buffer)) - offset)) w' /\
    (forall p o x, lookup_path es p = Some (Some (o, x)) ->
       lookup_path es' p = Some (live es' (i_number (en_inode x)))) /\
    (forall n, n <> i_number i -> live es' n = live es n).
Proof.
  intros Hrep Hpl Hlk Henv Hsp Ho Hs. pose proof (resolve_live _ _ _ _ _ Hlk) as Hl. simpl in Hl.
  pose proof (live_in _ _ _ _ Hl) as (Hin & _ & _).
  destruct (wfs_write_run w es e path buffer off i bs Hrep Hpl Hlk Hin Henv Hsp) as (w' & Hrun & Hrep' & _).
  set (es' := write_log _ _ _ _ _) in Hrep'.
  pose proof (proj1 Hrep) as Hok. pose proof (proj1 Hrep') as Hok'.
  pose proof (extends_write e off i bs (take 8 buffer) es Hok Hok' Hl) as Hext.
  pose proof (fun n => live_write e off i bs (take 8 buffer) es n Hok Hok' Hl) as Hlive.
  fold es' in Hext, Hlive. exists w', es'. split; [done|]. split; [done|]. split; [|split].
  - destruct (Hlive (i_number i)) as (o & Eo). rewrite decide_True in Eo by done.
    assert (length (take 8 buffer) = Z.to_nat (Z.min 8 (Z.of_nat (length buffer)))) as Hlt
      by (rewrite length_take; lia).
    rewrite (wfs_read_run w' es' path size offset o (en_inode (new_contents e i (take 8 buffer)))
               (take 8 buffer)); try done; try lia.
    + do 3 f_equal. lia.
    + change (lookup_path es' path = Some (Some (o, new_contents e i (take 8 buffer)))).
      rewrite <-Eo. by apply (resolve_extends _ _ _ Hext _ _ _ Hlk).
    + by apply live_in in Eo as [? _].
  - intros p o x Hp. by eapply resolve_extends.
  - intros n Hn. destruct (Hlive n) as (? & ->). by rewrite decide_False.
Qed.

Definition demo_file : entry := new_child S_IFREG demo_env 420 101 (File []).
Definition demo_log : list entry :=
  create_log S_IFREG demo_env (replicate 32 0) (str "f") 420 101 (File []) 8
    (en_inode demo_root) [] [demo_root].
Definition demo2 : wfs :=
  match wfs_mknod demo_env (replicate 32 0) (str "/f") 420 demo with Ret _ w => w | _ => demo end.

Lemma demo2_rep : rep demo2 demo_log.
Proof.
  destruct (wfs_create_run demo [demo_root] S_IFREG demo_env (replicate 32 0) [] (str "f") 420
              (File []) 8 (en_inode demo_root) []) as (w' & Hr & Hrep & _); try reflexivity.
  - exact demo_rep.
  - repeat split; try discriminate; repeat constructor; try discriminate; simpl; lia.
  - split; [discriminate|simpl; lia].
  - repeat split; simpl; lia.
  - split; vm_compute; congruence.
  - simpl. lia.
  - vm_compute. congruence.
  - left.
  - assert (demo2 = w') as -> by (unfold demo2, wfs_mknod; change (str "/f") with (child_path [] (str "f")); by rewrite Hr).
    exact Hrep.
Qed.

Lemma wfs_write_read_witness : exists w' es',
  wfs_write demo_env (str "/f") (str "hello, world") 12 0 demo2 = Ret 8 w' /\ rep w' es' /\
  wfs_read (str "/f") 100 3 w' = Ret (str "lo, w", 5) w'.
Proof.
  destruct (wfs_write_read demo2 demo_log demo_env (str "/f") (str "hello, world") 136
              (en_inode demo_file) [] 100 3) as (w' & es' & H1 & H2 & H3 & _).
  - exact demo2_rep.
  - simpl. lia.
  - vm_compute. reflexivity.
  - repeat split; simpl; lia.
  - vm_compute. congruence.
  - simpl. lia.
  - lia.
  - exists w', es'. split; [exact H1|]. split; [exact H2|exact H3].
Defined.

(** Nothing is written back to the superblock: on a fresh file system, after one
    [mkdir] the root can be listed, but after unmounting and mounting the same image
    again the root directory is gone, because the old root entry is marked deleted in
    place and the log is scanned only up to the old head. *)
Theorem remount_loses_the_root :
  match mount (mkfs demo_env (replicate 400 0)) with
  | None => False
  | Some w =>
      match wfs_mkdir demo_env (replicate 32 0) (str "/d") 493 w with
      | Ret r w1 =>
          r = 0 /\ wfs_readdir (str "/") w1 = Ret [str "."; str ".."; str "d"] w1 /\
          match mount (w_disk w1) with
          | None => False
          | Some w2 => wfs_getattr (str "/") w2 = Ret (inl (- ENOENT)) w2
          end
      | _ => False
      end
  end.
Proof. vm_compute. repeat split. Qed.
