(* ===== verification/Wsh.v ===== *)
(** * The shell (src/p3/wsh.c)

    The job table ([ids], [job_arr]), the parser of a command line, the built-in
    commands, jobs, pipelines and the signal handlers.  The operating system is a
    parameter: [Unix] gives the answers of the system calls; what a forked child does
    before [execvp] is data handed to [fork].  [exit(n)] is [Panic]; an index outside
    an array, a NULL pointer that is read and a string copied past its buffer are
    [Undef].

    A signal may arrive before every system call and every access to [ids], [job_arr]
    or [curr_fg_id], in the main code and in the handlers.  Which ones arrive is data:
    [at_main] and [at_handler] list, for the next such points in order, the signals that
    arrive there.  A handler runs with its own signal blocked, as [signal] sets it up,
    and may itself be interrupted by the other two.  A job is never freed ([job_arr[i]]
    is set to NULL before [free]), so the load of a pointer and of a field behind it
    count as one access. *)

From S2P Require Import Prelude CStr.

Definition NJOB : nat := 256.
Arguments NJOB : simpl never.
Definition BUFSIZE : Z := 256.

Record Job := mk_job {
  id : Z;
  command : list Z;
  job_status : Z;         (** 0 for fg, 1 for bg, 2 for stopped *)
  pid : Z;
  pgid : Z
}.
Definition set_status (st : Z) (j : Job) : Job :=
  mk_job (id j) (command j) st (pid j) (pgid j).

(** What the child does after [fork]. *)
Inductive child_call :=
| SetpgidSelf                     (** [setpgid] of itself to its own pid *)
| DefaultSignals                  (** [SIGTSTP], [SIGINT] and [SIGCHLD] to [SIG_DFL] *)
| Dup2 (pipe : nat) (end_ : Z) (fd : Z)
| ClosePipe (pipe : nat)
| Execvp (path : list Z) (argv : list (list Z))   (** followed by [exit(-1)] *)
| ChildUndef.                     (** the child itself reads NULL or overflows a buffer *)

(** Output on the terminal. *)
Inductive message :=
| JobLine (id : Z) (command : list Z)
| Text (s : string).

Definition WNOHANG : Z := 1.
Definition WUNTRACED : Z := 2.
Definition SIGINT : Z := 2.
Definition SIGCONT : Z := 18.
Definition SIGSTOP : Z := 19.
Definition SIGTSTP : Z := 20.
Definition SIGCHLD : Z := 17.

Definition WIFEXITED (status : Z) : bool := Z.land status 127 =? 0.
Definition WIFSTOPPED (status : Z) : bool := Z.land status 255 =? 127.

(** The system calls; [waitpid] gives the result and the value then in [status], which
    is whatever was there when the call stores nothing. *)
Class Unix (OS : Type) := {
  os_waitpid : Z -> Z -> OS -> (Z * Z) * OS;
  os_kill : Z -> Z -> OS -> OS;
  os_tcsetpgrp : Z -> OS -> OS;
  os_fork : list child_call -> OS -> Z * OS;
  os_pipe : OS -> Z * OS;
  os_close_pipe : nat -> OS -> OS;
  os_wait : OS -> Z * OS;
  os_chdir : list Z -> OS -> Z * OS
}.

Section wsh.
Context {OS : Type} {unix : Unix OS}.

Record sh := mk_sh {
  ids : list Z;
  job_arr : list (option Job);
  num_arg : Z;
  shell_pgid : Z;
  curr_fg_id : Z;
  out : list message;
  os : OS;
  at_main : list (list Z);      (** the signals at the next points of the main code *)
  at_handler : list (list Z)    (** and of the handlers *)
}.

Definition set_ids (x : list Z) (s : sh) : sh :=
  mk_sh x (job_arr s) (num_arg s) (shell_pgid s) (curr_fg_id s) (out s) (os s) (at_main s) (at_handler s).
Definition set_job_arr (x : list (option Job)) (s : sh) : sh :=
  mk_sh (ids s) x (num_arg s) (shell_pgid s) (curr_fg_id s) (out s) (os s) (at_main s) (at_handler s).
Definition set_num_arg (x : Z) (s : sh) : sh :=
  mk_sh (ids s) (job_arr s) x (shell_pgid s) (curr_fg_id s) (out s) (os s) (at_main s) (at_handler s).
Definition set_fg (x : Z) (s : sh) : sh :=
  mk_sh (ids s) (job_arr s) (num_arg s) (shell_pgid s) x (out s) (os s) (at_main s) (at_handler s).
Definition set_out (x : list message) (s : sh) : sh :=
  mk_sh (ids s) (job_arr s) (num_arg s) (shell_pgid s) (curr_fg_id s) x (os s) (at_main s) (at_handler s).
Definition set_os (x : OS) (s : sh) : sh :=
  mk_sh (ids s) (job_arr s) (num_arg s) (shell_pgid s) (curr_fg_id s) (out s) x (at_main s) (at_handler s).
Definition set_at_main (x : list (list Z)) (s : sh) : sh :=
  mk_sh (ids s) (job_arr s) (num_arg s) (shell_pgid s) (curr_fg_id s) (out s) (os s) x (at_handler s).
Definition set_at_handler (x : list (list Z)) (s : sh) : sh :=
  mk_sh (ids s) (job_arr s) (num_arg s) (shell_pgid s) (curr_fg_id s) (out s) (os s) (at_main s) x.

Definition init (pgid : Z) (o : OS) (am ah : list (list Z)) : sh :=
  mk_sh (replicate NJOB 0) (replicate NJOB None) 0 pgid (-1) [] o am ah.

(** ** Arrays, system calls and output *)

Definition index {A} (l : list A) (i : Z) : option A :=
  if 0 <=? i then l !! Z.to_nat i else None.

(** One access each, with no signal in between. *)
Definition load_id (i : Z) : M sh Z := fun s =>
  match index (ids s) i with Some x => Ret x s | None => Undef "ids[i] out of range" end.
Definition store_id (i x : Z) : M sh unit := fun s =>
  match index (ids s) i with
  | Some _ => Ret tt (set_ids (<[Z.to_nat i := x]> (ids s)) s)
  | None => Undef "ids[i] out of range"
  end.
Definition load_job (i : Z) : M sh (option Job) := fun s =>
  match index (job_arr s) i with Some x => Ret x s | None => Undef "job_arr[i] out of range" end.
Definition store_job (i : Z) (x : option Job) : M sh unit := fun s =>
  match index (job_arr s) i with
  | Some _ => Ret tt (set_job_arr (<[Z.to_nat i := x]> (job_arr s)) s)
  | None => Undef "job_arr[i] out of range"
  end.
(** [job_arr[i]->...] *)
Definition load_field (i : Z) : M sh Job := jo <- load_job i ;; deref "NULL job" jo.
Definition store_status (i st : Z) : M sh unit :=
  j <- load_field i ;; store_job i (Some (set_status st j)).

Definition sys {A} (f : OS -> A * OS) : M sh A := fun s =>
  let '(a, o) := f (os s) in Ret a (set_os o s).
Definition sys_ (f : OS -> OS) : M sh unit := modify (fun s => set_os (f (os s)) s).
Definition print (m : message) : M sh unit := modify (fun s => set_out (out s ++ [m]) s).
Definition exit {A} (code : Z) : M sh A :=
  panic (if code =? 0 then "exit 0" else "exit -1").

(** ** Signal handlers

    [hook] runs the signals that arrive before each access of the handler. *)
Section handlers.
Variable hook : M sh unit.

(** [job_arr[curr_fg_id - 1]]: both variables are read again at every mention. *)
Definition fg_slot {A} (f : Z -> M sh A) : M sh A :=
  hook ;;; fg <- gets curr_fg_id ;; hook ;;; f (fg - 1).

Definition fg_present : M sh bool :=
  hook ;;; fg <- gets curr_fg_id ;;
  if fg =? -1 then ret false
  else jo <- fg_slot load_job ;; ret (match jo with Some _ => true | None => false end).

Definition signal_fg (sig st : Z) : M sh unit :=
  present <- fg_present ;;
  if present then
    j <- fg_slot load_field ;;
    hook ;;; sys_ (os_kill (pgid j) sig) ;;;
    fg_slot (fun i => store_status i st)
  else ret tt.
Definition sigint_handler : M sh unit := signal_fg SIGINT 0.
Definition sigtstp_handler : M sh unit := signal_fg SIGSTOP 2.

(** The handler of [SIGCHLD]; [fg] calls it too. *)
Definition fg_remove : M sh unit :=
  present <- fg_present ;;
  (if present then
     j <- fg_slot load_field ;;
     if job_status j =? 0 then
       j <- fg_slot load_field ;;
       hook ;;; r <- sys (os_waitpid (pgid j) WUNTRACED) ;;
       if WIFEXITED (snd r) then
         fg_slot (fun i => store_job i None) ;;; fg_slot (fun i => store_id i 0)
       else ret tt
     else ret tt
   else ret tt) ;;;
  hook ;;; modify (set_fg (-1)).

Definition handler (sig : Z) : M sh unit :=
  if sig =? SIGINT then sigint_handler
  else if sig =? SIGTSTP then sigtstp_handler
  else if sig =? SIGCHLD then fg_remove
  else ret tt.
End handlers.

Fixpoint each (f : Z -> M sh unit) (sigs : list Z) : M sh unit :=
  match sigs with
  | [] => ret tt
  | sig :: sigs' => f sig ;;; each f sigs'
  end.

(** The signals that arrive at a point of a handler.  Every nested handler blocks one
    more of the three signals, so they nest at most three deep. *)
Fixpoint nested (n : nat) (blocked : list Z) : M sh unit :=
  match n with
  | O => ret tt
  | S n' =>
      sigs <- gets (fun s => default [] (head (at_handler s))) ;;
      modify (fun s => set_at_handler (tail (at_handler s)) s) ;;;
      each (fun sig =>
        if decide (sig ∈ blocked) then ret tt
        else handler (nested n' (sig :: blocked)) sig) sigs
  end.

(** A signal is delivered to the main code. *)
Definition deliver (sig : Z) : M sh unit := handler (nested 2 [sig]) sig.

(** The signals that arrive at a point of the main code. *)
Definition point : M sh unit :=
  sigs <- gets (fun s => default [] (head (at_main s))) ;;
  modify (fun s => set_at_main (tail (at_main s)) s) ;;;
  each deliver sigs.

(** ** The accesses of the main code *)

Definition get_id (i : Z) : M sh Z := point ;;; load_id i.
Definition put_id (i x : Z) : M sh unit := point ;;; store_id i x.
Definition get_job (i : Z) : M sh (option Job) := point ;;; load_job i.
Definition put_job (i : Z) (x : option Job) : M sh unit := point ;;; store_job i x.
Definition get_field (i : Z) : M sh Job := point ;;; load_field i.
Definition put_status (i st : Z) : M sh unit := point ;;; store_status i st.
Definition put_fg (x : Z) : M sh unit := point ;;; modify (set_fg x).
Definition call {A} (f : OS -> A * OS) : M sh A := point ;;; sys f.
Definition call_ (f : OS -> OS) : M sh unit := point ;;; sys_ f.

(** [strcpy] into a [char[256]]. *)
Definition fits (s : list Z) : M sh unit :=
  if Z.of_nat (length s) <? BUFSIZE then ret tt else undef "string copied past its buffer".

(** ** The job table *)

Definition edit_job (i : Z) (f : Job -> Job) : M sh unit :=
  point ;;; j <- load_field i ;; store_job i (Some (f j)).

(** The fresh [Job] holds what [malloc] left there; every field is written. *)
Definition add_job (id : Z) (argument : list Z) (job_status pid : Z) : M sh unit :=
  let i := id - 1 in
  put_job i (Some (mk_job 0 [] 0 0 0)) ;;;
  edit_job i (fun j => mk_job id (command j) (Wsh.job_status j) (Wsh.pid j) (pgid j)) ;;;
  fits argument ;;;
  edit_job i (fun j => mk_job (Wsh.id j) argument (Wsh.job_status j) (Wsh.pid j) (pgid j)) ;;;
  edit_job i (set_status job_status) ;;;
  edit_job i (fun j => mk_job (Wsh.id j) (command j) (Wsh.job_status j) pid (pgid j)) ;;;
  edit_job i (fun j => mk_job (Wsh.id j) (command j) (Wsh.job_status j) (Wsh.pid j) pid).

Definition remove_jobs : M sh unit :=
  for_loop NJOB 0 (fun i =>
    x <- get_id i ;;
    if x =? 1 then
      j <- get_field i ;;
      r <- call (os_waitpid (pid j) (Z.lor WNOHANG WUNTRACED)) ;;
      if 0 <? fst r then put_job i None ;;; put_id i 0 else ret tt
    else ret tt).

(** The loop of [setjobid] from slot [i] on. *)
Fixpoint first_free (n : nat) (i : Z) : M sh Z :=
  match n with
  | O => ret 0
  | S n' =>
      x <- get_id i ;;
      if x =? 0 then put_id i 1 ;;; ret (i + 1) else first_free n' (i + 1)
  end.
Definition setjobid : M sh Z := first_free NJOB 0.

Definition put_background (id : Z) : M sh unit :=
  jo <- get_job (id - 1) ;;
  match jo with
  | Some _ =>
      j <- get_field (id - 1) ;;
      if job_status j =? 2 then
        put_status (id - 1) 1 ;;;
        j <- get_field (id - 1) ;;
        call_ (os_kill (pgid j) SIGCONT)
      else ret tt
  | None => print (Text "bg error")
  end.

Definition put_foreground (id : Z) : M sh unit :=
  jo <- get_job (id - 1) ;;
  match jo with
  | Some _ =>
      put_status (id - 1) 0 ;;;
      j <- get_field (id - 1) ;;
      call_ (os_tcsetpgrp (pgid j)) ;;;
      j <- get_field (id - 1) ;;
      call_ (os_kill (- pgid j) SIGCONT) ;;;
      j <- get_field (id - 1) ;;
      r <- call (os_waitpid (pgid j) WUNTRACED) ;;
      if WIFSTOPPED (snd r) then put_status (id - 1) 2 else ret tt
  | None => ret tt
  end ;;;
  shell <- gets shell_pgid ;;
  call_ (os_tcsetpgrp shell).

(** ** Pipelines *)

Definition arg := option (list Z).
Definition BAR : list Z := str "|".

(** The first loop of [pipe_dealer]: the arguments between the bars. *)
Fixpoint group (args : list arg) (cmd : list (list Z)) : M sh (list (list (list Z))) :=
  match args with
  | [] => ret [cmd]
  | None :: _ => undef "strcmp of NULL"
  | Some a :: args' =>
      if str_eqb a BAR then
        rest <- group args' [] ;;
        ret (cmd :: rest)
      else group args' (cmd ++ [a])
  end.

Definition bin_path (name : list Z) : list Z := str "/bin/" ++ name.

(** What the [i]-th of [num_cmd] children does.  The parent's copy of [pgid] is still
    -1 at every [fork], so every child leads a process group of its own. *)
Definition pipe_child (num_cmd i : nat) (cmd : list (list Z)) : list child_call :=
  [SetpgidSelf]
  ++ (if decide (0 < i)%nat then [Dup2 (i - 1) 0 0] else [])
  ++ (if decide (i < num_cmd - 1)%nat then [Dup2 i 1 1] else [])
  ++ map ClosePipe (seq 0 (num_cmd - 1))
  ++ match cmd with
     | [] => [ChildUndef]
     | name :: _ =>
         if Z.of_nat (length (bin_path name)) <? BUFSIZE then [Execvp (bin_path name) cmd]
         else [ChildUndef]
     end.

Fixpoint make_pipes (n : nat) : M sh unit :=
  match n with
  | O => ret tt
  | S n' =>
      r <- call os_pipe ;;
      if r =? -1 then exit (-1) else make_pipes n'
  end.

Fixpoint fork_children (num_cmd i : nat) (cmds : list (list (list Z))) : M sh unit :=
  match cmds with
  | [] => ret tt
  | cmd :: cmds' =>
      p <- call (os_fork (pipe_child num_cmd i cmd)) ;;
      if p =? -1 then print (Text "fork fails") ;;; exit (-1)
      else fork_children num_cmd (S i) cmds'
  end.

Fixpoint close_pipes (n i : nat) : M sh unit :=
  match n with
  | O => ret tt
  | S n' => call_ (os_close_pipe i) ;;; close_pipes n' (S i)
  end.

(** [fuel] bounds the rounds of [while(wait(NULL) > 1);]. *)
Definition pipe_dealer (fuel : nat) (args : list arg) (num_cmd : nat) : M sh unit :=
  cmds <- group args [] ;;
  make_pipes (num_cmd - 1) ;;;
  fork_children num_cmd 0 (take num_cmd cmds) ;;;
  close_pipes (num_cmd - 1) 0 ;;;
  loop fuel (fun _ : unit =>
    r <- call os_wait ;;
    ret (if 1 <? r then inl tt else inr tt)) tt.

(** ** Commands *)

(** [for(i = 255; i >= 0; i--)]: the last slot that is in use and satisfies [f]. *)
Fixpoint last_job (f : Z -> M sh bool) (n : nat) : M sh (option Z) :=
  match n with
  | O => ret None
  | S n' =>
      x <- get_id (Z.of_nat n') ;;
      if x =? 1 then
        jo <- get_job (Z.of_nat n') ;;
        match jo with
        | Some _ =>
            b <- f (Z.of_nat n') ;;
            if b then j <- get_field (Z.of_nat n') ;; ret (Some (id j)) else last_job f n'
        | None => last_job f n'
        end
      else last_job f n'
  end.

Definition stopped (i : Z) : M sh bool := j <- get_field i ;; ret (job_status j =? 2).
Definition bg_or_stopped (i : Z) : M sh bool :=
  j <- get_field i ;; if job_status j =? 1 then ret true else stopped i.

Definition list_jobs : M sh unit :=
  for_loop NJOB 0 (fun i =>
    x <- get_id i ;;
    if x =? 1 then
      b <- bg_or_stopped i ;;
      if b then
        j <- get_field i ;;
        k <- get_field i ;;
        print (JobLine (id j) (command k))
      else ret tt
    else ret tt).

Definition string_arg (args : list arg) (i : nat) : M sh (list Z) :=
  deref "NULL argument" (mjoin (args !! i)).

(** The strings before the first NULL, which is what [execvp] passes on. *)
Fixpoint argv (args : list arg) : list (list Z) :=
  match args with
  | Some a :: args' => a :: argv args'
  | _ => []
  end.

Definition run_program (args : list arg) (bg : Z) (input : list Z) : M sh unit :=
  name <- string_arg args 0 ;;
  fits (bin_path name) ;;;
  f <- call (os_fork [SetpgidSelf; DefaultSignals; Execvp (bin_path name) (argv args)]) ;;
  if f =? -1 then print (Text "fork fails") ;;; exit (-1)
  else
    id <- setjobid ;;
    add_job id input bg f ;;;
    if bg =? 0 then
      put_fg id ;;;
      r <- call (os_waitpid f WUNTRACED) ;;
      if fst r =? -1 then exit (-1)
      else
        shell <- gets shell_pgid ;;
        call_ (os_tcsetpgrp shell)
    else
      r <- call (os_waitpid f WNOHANG) ;;
      ret tt.

Definition exec_cmds (fuel : nat) (args : list arg) (pipe_indicator bg : Z) (num_cmd : nat)
    (input : list Z) : M sh unit :=
  cmd <- string_arg args 0 ;;
  n <- gets num_arg ;;
  if str_eqb cmd (str "exit") then
    if n =? 1 then exit 0 else exit (-1)
  else if str_eqb cmd (str "cd") then
    if n =? 2 then
      dir <- string_arg args 1 ;;
      r <- call (os_chdir dir) ;;
      if r =? 0 then ret tt else print (Text "path DNE") ;;; exit (-1)
    else print (Text "flag3") ;;; exit (-1)
  else if str_eqb cmd (str "jobs") then
    if n =? 1 then list_jobs else print (Text "flag4") ;;; exit (-1)
  else if str_eqb cmd (str "fg") then
    target <- (if n =? 1 then
                 t <- last_job bg_or_stopped NJOB ;;
                 match t with
                 | Some i => put_foreground i ;;; ret i
                 | None => ret (-1)
                 end
               else if n =? 2 then
                 a <- string_arg args 1 ;;
                 put_foreground (atoi a) ;;;
                 ret (atoi a)
               else print (Text "flag5") ;;; exit (-1)) ;;
    put_fg target ;;;
    fg_remove (nested 3 [])
  else if str_eqb cmd (str "bg") then
    if n =? 1 then
      t <- last_job stopped NJOB ;;
      match t with
      | Some i => put_background i
      | None => ret tt
      end
    else if n =? 2 then
      a <- string_arg args 1 ;;
      put_background (atoi a)
    else print (Text "flag6") ;;; exit (-1)
  else if pipe_indicator =? 1 then pipe_dealer fuel (take (Z.to_nat n) args) num_cmd
  else run_program args bg input.

(** ** The main loop *)

Record parsed := mk_parsed {
  p_args : list arg;         (** [args[0..num_arg]] *)
  p_num_arg : Z;
  p_pipe : Z;
  p_bg : Z;
  p_num_cmd : nat
}.

Definition BLANKS : list Z := [32; 9; 10].

(** The [strsep] loop and the test for ['&']; [None] is the access to [args[-1]]. *)
Definition parse_line (line : list Z) : option parsed :=
  let toks := words BLANKS line in
  let bars := length (filter (fun t => t = BAR) toks) in
  match last toks with
  | None => None
  | Some t =>
      let args := map Some toks in
      let bg := str_eqb t (str "&") in
      Some (mk_parsed ((if bg then removelast args ++ [None] else args) ++ [None])
                      (Z.of_nat (length toks))
                      (if decide (0 < bars)%nat then 1 else 0)
                      (if bg then 1 else 0)
                      (S bars))
  end.

(** One round of the loop in [main] for a line that [getline] has read, with its
    newline.  The copy of the line ends before its last byte. *)
Definition run_line (fuel : nat) (line : list Z) : M sh unit :=
  fits line ;;;
  (if decide (line = []) then undef "input_bkup[-1]" else ret tt) ;;;
  p <- deref "args[-1]" (parse_line line) ;;
  modify (set_num_arg (p_num_arg p)) ;;;
  remove_jobs ;;;
  exec_cmds fuel (p_args p) (p_pipe p) (p_bg p) (p_num_cmd p) (removelast line).

(** Interactive mode on the lines of the terminal; [stale] is what the fresh buffer
    holds when [getline] finds the end of the file and leaves it alone. *)
Fixpoint interactive (fuel : nat) (lines : list (list Z)) (stale : list Z) : M sh unit :=
  match lines with
  | [] =>
      print (Text "wsh> ") ;;;
      (if decide (stale = []) then undef "input_bkup[-1]" else ret tt) ;;;
      exit 0
  | l :: lines' =>
      print (Text "wsh> ") ;;;
      run_line fuel l ;;;
      interactive fuel lines' stale
  end.

(** Batch mode: the same rounds without a prompt; after the last line [main] copies the
    stale buffer too, and returns. *)
Fixpoint batch (fuel : nat) (lines : list (list Z)) (stale : list Z) : M sh unit :=
  match lines with
  | [] => exit 0
  | l :: lines' =>
      run_line fuel l ;;;
      match lines' with
      | [] => if decide (stale = []) then undef "input_bkup[-1]" else ret tt
      | _ => batch fuel lines' stale
      end
  end.
End wsh.
Arguments sh OS : clear implicits.
