(* ===== verification/WshProofs.v ===== *)
(** * The job table of the shell

    [table_ok] ties [ids] to [job_arr].  [safe] is the rule for code that may exit the
    shell or wait for ever but must not do anything undefined.  Signals arrive at every
    point; [hook_ok] and [idle_ok] are what the code they interrupt may rely on. *)

From S2P Require Import Prelude CStr Wsh.

Section safe.
Context {S : Type}.

Definition safe {A} (m : M S A) (Q : A -> S -> Prop) (s : S) : Prop :=
  match m s with
  | Ret a s' => Q a s'
  | Undef _ => False
  | _ => True
  end.

Lemma safe_ret {A} (a : A) (Q : A -> S -> Prop) s : Q a s -> safe (ret a) Q s.
Proof. done. Qed.

Lemma safe_bind {A B} (m : M S A) (k : A -> M S B) Q s :
  safe m (fun a s' => safe (k a) Q s') s -> safe (bind m k) Q s.
Proof. unfold safe, bind. by destruct (m s). Qed.

Lemma safe_mono {A} (m : M S A) (Q Q' : A -> S -> Prop) s :
  safe m Q s -> (forall a s', Q a s' -> Q' a s') -> safe m Q' s.
Proof. unfold safe. destruct (m s); by eauto. Qed.

Lemma safe_for_loop (Inv : S -> Prop) n i body s :
  Inv s -> (forall j s', i <= j < i + Z.of_nat n -> Inv s' -> safe (body j) (fun _ => Inv) s') ->
  safe (for_loop n i body) (fun _ => Inv) s.
Proof.
  revert i s. induction n as [|n IH]; intros i s Hi Hb; simpl; [done|].
  apply safe_bind. eapply safe_mono; [apply Hb; [lia|done]|].
  intros [] s' Hs'. apply IH; [done|]. intros j s'' Hj. apply Hb. lia.
Qed.

Lemma safe_loop {A B} (Inv : S -> Prop) fuel (body : A -> M S (A + B)) a s :
  Inv s -> (forall a s', Inv s' -> safe (body a) (fun _ => Inv) s') ->
  safe (loop fuel body a) (fun _ => Inv) s.
Proof.
  intros Hi Hb. revert a s Hi. induction fuel as [|fuel IH]; intros a s Hi; simpl; [done|].
  apply safe_bind. eapply safe_mono; [by apply Hb|]. intros [a'|b] s' Hs'; [by apply IH|done].
Qed.
End safe.

Section wsh_proofs.
Context {OS : Type} {unix : Unix OS}.

Create HintDb wsh.

(** ** The invariant *)

Definition slot_ok (i : nat) (x : Z) (o : option Job) : Prop :=
  match o with
  | None => x = 0
  | Some j => x = 1 /\ id j = Z.of_nat i + 1
  end.

Definition table_ok (s : sh OS) : Prop :=
  length (ids s) = NJOB /\ length (job_arr s) = NJOB /\
  (forall i x o, ids s !! i = Some x -> job_arr s !! i = Some o -> slot_ok i x o) /\
  (curr_fg_id s = -1 \/ 1 <= curr_fg_id s <= 256).

Lemma table_ok_init pg o am ah : table_ok (init pg o am ah).
Proof.
  unfold init. split_and!; cbn [ids job_arr curr_fg_id]; [by rewrite length_replicate..| |by left].
  intros i x o' Hx Ho.
  apply lookup_replicate in Hx as [-> _]. by apply lookup_replicate in Ho as [-> _].
Qed.

(** No [SIGCHLD] interrupts a handler. *)
Definition calm (s : sh OS) : Prop := Forall (fun l => SIGCHLD ∉ l) (at_handler s).

(** What signals do when no job is in the foreground: nothing but use up the list. *)
Definition same_table (s s' : sh OS) : Prop :=
  ids s' = ids s /\ job_arr s' = job_arr s /\ curr_fg_id s' = curr_fg_id s /\
  num_arg s' = num_arg s /\ (calm s -> calm s').

#[export] Instance same_table_preorder : PreOrder same_table.
Proof.
  split; [by intros s|]. intros s1 s2 s3 (? & ? & ? & ? & ?) (? & ? & ? & ? & ?).
  unfold same_table. split_and!; [congruence..|auto].
Qed.

Lemma table_ok_same s s' : same_table s s' -> table_ok s -> table_ok s'.
Proof. intros (Hi & Hj & Hf & _) H. unfold table_ok. by rewrite Hi, Hj, Hf. Qed.

(** What [SIGINT] and [SIGTSTP] do: they change the status of jobs. *)
Definition skel : option Job -> option Job := fmap (set_status 0).

Definition same_jobs (s s' : sh OS) : Prop :=
  ids s' = ids s /\ map skel (job_arr s') = map skel (job_arr s) /\
  curr_fg_id s' = curr_fg_id s /\ num_arg s' = num_arg s /\ (calm s -> calm s').

#[export] Instance same_jobs_preorder : PreOrder same_jobs.
Proof.
  split; [by intros s|]. intros s1 s2 s3 (? & ? & ? & ? & ?) (? & ? & ? & ? & ?).
  unfold same_jobs. split_and!; [congruence..|auto].
Qed.

(** The array sizes and the range of [curr_fg_id]. *)
Definition shape (s : sh OS) : Prop :=
  length (ids s) = NJOB /\ length (job_arr s) = NJOB /\
  (curr_fg_id s = -1 \/ 1 <= curr_fg_id s <= 256).

Lemma table_ok_shape s : table_ok s -> shape s.
Proof. by intros (? & ? & _ & ?). Qed.

Lemma same_jobs_shape s s' : same_jobs s s' -> shape s -> shape s'.
Proof.
  intros (Hi & Hj & Hf & _) (H1 & H2 & H3). unfold shape. rewrite Hi, Hf. split_and!; [done| |done].
  by rewrite <-(length_map skel), Hj, length_map.
Qed.

Lemma same_jobs_lookup s s' i o :
  same_jobs s s' -> job_arr s !! i = Some o -> exists o', job_arr s' !! i = Some o' /\ skel o' = skel o.
Proof.
  intros (_ & Hj & _) Ho. assert (map skel (job_arr s') !! i = Some (skel o)) as H.
  { rewrite Hj. by rewrite list_lookup_fmap, Ho. }
  rewrite list_lookup_fmap in H. destruct (job_arr s' !! i) as [o'|]; [|done].
  injection H as H. by exists o'.
Qed.

Lemma slot_ok_skel i x o o' : skel o' = skel o -> slot_ok i x o -> slot_ok i x o'.
Proof. destruct o as [[]|], o' as [[]|]; simpl; intros H; try done. by injection H as -> -> -> ->. Qed.

Lemma table_ok_jobs s s' : same_jobs s s' -> table_ok s -> table_ok s'.
Proof.
  intros Hs Ht. destruct (same_jobs_shape _ _ Hs (table_ok_shape _ Ht)) as (? & ? & ?).
  split_and!; [done|done| |done]. intros i x o Hx Ho. pose proof Ht as (_ & _ & H3 & _).
  assert (same_jobs s' s') as _ by done. pose proof Hs as (Hi & Hj & _). rewrite Hi in Hx.
  assert (map skel (job_arr s) !! i = Some (skel o)) as H'.
  { rewrite <-Hj. by rewrite list_lookup_fmap, Ho. }
  rewrite list_lookup_fmap in H'. destruct (job_arr s !! i) as [o0|] eqn:E; [|done].
  injection H' as H'. eapply slot_ok_skel; [symmetry; exact H'|]. by apply H3.
Qed.

Lemma index_in {A} (l : list A) i : length l = NJOB -> 0 <= i < 256 -> exists x, index l i = Some x /\ l !! Z.to_nat i = Some x.
Proof.
  intros Hl Hi. unfold index, NJOB in *. rewrite (proj2 (Z.leb_le _ _)) by lia.
  destruct (lookup_lt_is_Some_2 l (Z.to_nat i)) as [x Hx]; [lia|]. by exists x.
Qed.

Lemma table_slot s i :
  table_ok s -> 0 <= i < 256 ->
  exists x o, index (ids s) i = Some x /\ index (job_arr s) i = Some o /\
    ids s !! Z.to_nat i = Some x /\ job_arr s !! Z.to_nat i = Some o /\
    slot_ok (Z.to_nat i) x o.
Proof.
  intros (H1 & H2 & H3 & _) Hi. destruct (index_in _ i H1 Hi) as (x & Hx & Hx').
  destruct (index_in _ i H2 Hi) as (o & Ho & Ho'). exists x, o. eauto 10.
Qed.

(** Writing both halves of a slot. *)
Lemma table_ok_slot s i x o f :
  table_ok s -> 0 <= i < 256 -> slot_ok (Z.to_nat i) x o -> (f = -1 \/ 1 <= f <= 256) ->
  forall s', ids s' = <[Z.to_nat i := x]> (ids s) -> job_arr s' = <[Z.to_nat i := o]> (job_arr s) ->
  curr_fg_id s' = f -> table_ok s'.
Proof.
  intros (H1 & H2 & H3 & _) Hi Ho Hf s' E1 E2 E3. unfold table_ok. rewrite E1, E2, E3.
  rewrite !length_insert. split_and!; [done|done| |done].
  intros k y o' Hy Ho'. destruct (decide (k = Z.to_nat i)) as [->|Hne].
  - unfold NJOB in *. rewrite list_lookup_insert_eq in Hy by lia.
    rewrite list_lookup_insert_eq in Ho' by lia. by simplify_eq.
  - rewrite list_lookup_insert_ne in Hy by done. rewrite list_lookup_insert_ne in Ho' by done.
    by eapply H3.
Qed.

(** ** One access *)

Lemma safe_load_id s i (Q : Z -> sh OS -> Prop) :
  length (ids s) = NJOB -> 0 <= i < 256 -> (forall x, ids s !! Z.to_nat i = Some x -> Q x s) ->
  safe (load_id i) Q s.
Proof.
  intros Hl Hi HQ. destruct (index_in _ i Hl Hi) as (x & Hx & Hx'). unfold safe, load_id.
  rewrite Hx. by apply HQ.
Qed.

Lemma safe_load_job s i (Q : option Job -> sh OS -> Prop) :
  length (job_arr s) = NJOB -> 0 <= i < 256 ->
  (forall o, job_arr s !! Z.to_nat i = Some o -> Q o s) -> safe (load_job i) Q s.
Proof.
  intros Hl Hi HQ. destruct (index_in _ i Hl Hi) as (x & Hx & Hx'). unfold safe, load_job.
  rewrite Hx. by apply HQ.
Qed.

Lemma safe_store_id s i x (Q : unit -> sh OS -> Prop) :
  length (ids s) = NJOB -> 0 <= i < 256 -> Q tt (set_ids (<[Z.to_nat i := x]> (ids s)) s) ->
  safe (store_id i x) Q s.
Proof. intros Hl Hi HQ. destruct (index_in _ i Hl Hi) as (y & Hy & _). unfold safe, store_id. by rewrite Hy. Qed.

Lemma safe_store_job s i x (Q : unit -> sh OS -> Prop) :
  length (job_arr s) = NJOB -> 0 <= i < 256 ->
  Q tt (set_job_arr (<[Z.to_nat i := x]> (job_arr s)) s) -> safe (store_job i x) Q s.
Proof. intros Hl Hi HQ. destruct (index_in _ i Hl Hi) as (y & Hy & _). unfold safe, store_job. by rewrite Hy. Qed.

Lemma safe_load_field s i j (Q : Job -> sh OS -> Prop) :
  length (job_arr s) = NJOB -> 0 <= i < 256 -> job_arr s !! Z.to_nat i = Some (Some j) -> Q j s ->
  safe (load_field i) Q s.
Proof.
  intros Hl Hi Hj HQ. unfold load_field. apply safe_bind, safe_load_job; [done|done|].
  intros o Ho. by simplify_eq.
Qed.

Lemma safe_store_status s i st j (Q : unit -> sh OS -> Prop) :
  length (job_arr s) = NJOB -> 0 <= i < 256 -> job_arr s !! Z.to_nat i = Some (Some j) ->
  Q tt (set_job_arr (<[Z.to_nat i := Some (set_status st j)]> (job_arr s)) s) ->
  safe (store_status i st) Q s.
Proof.
  intros Hl Hi Hj HQ. unfold store_status. apply safe_bind. eapply safe_load_field; [done..|].
  by apply safe_store_job.
Qed.

Lemma safe_sys {A} (f : OS -> A * OS) (Q : A -> sh OS -> Prop) s :
  (forall a o, Q a (set_os o s)) -> safe (sys f) Q s.
Proof. unfold safe, sys. intros H. destruct (f (os s)). apply H. Qed.

Lemma same_jobs_status s i st j :
  job_arr s !! i = Some (Some j) ->
  same_jobs s (set_job_arr (<[i := Some (set_status st j)]> (job_arr s)) s).
Proof.
  intros Hj. split_and!; try done. simpl. rewrite list_fmap_insert. apply list_insert_id.
  by rewrite list_lookup_fmap, Hj.
Qed.

(** ** Handlers

    [hook_ok] is what a handler needs of the signals that interrupt it. *)
Definition hook_ok (hook : M (sh OS) unit) : Prop :=
  forall s, shape s -> calm s -> safe hook (fun _ => same_jobs s) s.

Section handlers.
Variable hook : M (sh OS) unit.
Hypothesis Hhook : hook_ok hook.

Lemma safe_hook s (Q : unit -> sh OS -> Prop) :
  shape s -> calm s -> (forall s', same_jobs s s' -> shape s' -> calm s' -> Q tt s') ->
  safe hook Q s.
Proof.
  intros Hs Hc HQ. eapply safe_mono; [by apply Hhook|]. intros [] s' Hm.
  apply HQ; [done|by eapply same_jobs_shape|]. by apply Hm.
Qed.

Lemma safe_fg_slot {A} (f : Z -> M (sh OS) A) s (Q : A -> sh OS -> Prop) :
  shape s -> calm s ->
  (forall s', same_jobs s s' -> shape s' -> calm s' -> safe (f (curr_fg_id s - 1)) Q s') ->
  safe (fg_slot hook f) Q s.
Proof.
  intros Hs Hc HQ. unfold fg_slot. apply safe_bind, safe_hook; [done..|]. intros s1 H1 Hs1 Hc1.
  apply safe_bind. unfold safe at 1, gets. apply safe_bind, safe_hook; [done..|].
  intros s2 H2 Hs2 Hc2. replace (curr_fg_id s1) with (curr_fg_id s) by (symmetry; apply H1).
  apply HQ; [by etrans|done..].
Qed.

(** The two tests at the head of every handler. *)
Lemma safe_fg_present s (Q : bool -> sh OS -> Prop) :
  shape s -> calm s ->
  (forall s', same_jobs s s' -> shape s' -> calm s' -> Q false s') ->
  (forall s' j, same_jobs s s' -> shape s' -> calm s' -> 1 <= curr_fg_id s <= 256 ->
     job_arr s !! Z.to_nat (curr_fg_id s - 1) = Some (Some j) -> Q true s') ->
  safe (fg_present hook) Q s.
Proof.
  intros Hs Hc Hno Hyes. unfold fg_present. apply safe_bind, safe_hook; [done..|].
  intros s1 H1 Hs1 Hc1. apply safe_bind. unfold safe at 1, gets.
  assert (curr_fg_id s1 = curr_fg_id s) as E by apply H1. rewrite E.
  destruct (curr_fg_id s =? -1) eqn:Ef; [by apply Hno|]. apply Z.eqb_neq in Ef.
  pose proof Hs as (_ & Hl & [?|Hr]); [done|].
  apply safe_bind, safe_fg_slot; [done..|]. intros s2 H2 Hs2 Hc2. rewrite E.
  apply safe_load_job; [apply Hs2|lia|]. intros o Ho.
  assert (same_jobs s s2) as H02 by (by etrans).
  destruct (lookup_lt_is_Some_2 (job_arr s) (Z.to_nat (curr_fg_id s - 1))) as [o0 Ho0].
  { unfold NJOB in Hl. lia. }
  destruct (same_jobs_lookup _ _ _ _ H02 Ho0) as (o' & Ho' & Hsk). simplify_eq.
  destruct o as [j|]; [|by apply safe_ret, Hno].
  destruct o0 as [j0|]; [|done]. apply safe_ret. by eapply Hyes.
Qed.

(** A job that is there stays there; only its status may change. *)
Lemma fg_job_stays s s' i j :
  same_jobs s s' -> job_arr s !! i = Some (Some j) ->
  exists st, job_arr s' !! i = Some (Some (set_status st j)).
Proof.
  intros Hs Hj. destruct (same_jobs_lookup _ _ _ _ Hs Hj) as ([j'|] & Hj' & Hsk); [|done].
  exists (job_status j'). rewrite Hj'. do 2 f_equal. destruct j, j'. simpl in *. by simplify_eq.
Qed.

Lemma safe_fg_field s j (Q : Job -> sh OS -> Prop) :
  shape s -> calm s -> 1 <= curr_fg_id s <= 256 ->
  job_arr s !! Z.to_nat (curr_fg_id s - 1) = Some (Some j) ->
  (forall s' st, same_jobs s s' -> shape s' -> calm s' -> Q (set_status st j) s') ->
  safe (fg_slot hook load_field) Q s.
Proof.
  intros Hs Hc Hr Hj HQ. apply safe_fg_slot; [done..|]. intros s' H1 Hs1 Hc1.
  destruct (fg_job_stays _ _ _ _ H1 Hj) as [st Hst].
  eapply safe_load_field; [apply Hs1|lia|done|]. by apply HQ.
Qed.

Lemma same_jobs_os s o : same_jobs s (set_os o s).
Proof. done. Qed.

(** [SIGINT] and [SIGTSTP] change nothing but the status of the foreground job. *)
Lemma signal_fg_ok sig st s :
  shape s -> calm s -> safe (signal_fg hook sig st) (fun _ => same_jobs s) s.
Proof.
  intros Hs Hc. unfold signal_fg. apply safe_bind, safe_fg_present; [done..| |].
  { intros s' H _ _. by apply safe_ret. }
  intros s1 j H1 Hs1 Hc1 Hr Hj. assert (curr_fg_id s1 = curr_fg_id s) as E1 by apply H1.
  destruct (fg_job_stays _ _ _ _ H1 Hj) as [st1 Hj1]. rewrite <-E1 in Hr, Hj1.
  apply safe_bind. eapply safe_fg_field; [done..|]. intros s2 st2 H2 Hs2 Hc2.
  assert (curr_fg_id s2 = curr_fg_id s1) as E2 by apply H2.
  destruct (fg_job_stays _ _ _ _ H2 Hj1) as [st3 Hj2]. rewrite <-E2 in Hr, Hj2.
  apply safe_bind, safe_hook; [done..|]. intros s3 H3 Hs3 Hc3.
  assert (curr_fg_id s3 = curr_fg_id s2) as E3 by apply H3.
  destruct (fg_job_stays _ _ _ _ H3 Hj2) as [st4 Hj3]. rewrite <-E3 in Hr, Hj3.
  apply safe_bind. unfold safe at 1, sys_, modify.
  set (s3' := set_os _ s3).
  apply (safe_fg_slot _ s3'); [done..|]. intros s4 H4 Hs4 Hc4. change (curr_fg_id s3') with (curr_fg_id s3).
  destruct (fg_job_stays s3' _ _ _ H4 Hj3) as [st5 Hj4].
  eapply safe_store_status; [apply Hs4|lia|done|].
  etrans; [exact H1|]. etrans; [exact H2|]. etrans; [exact H3|]. etrans; [exact H4|].
  by apply same_jobs_status.
Qed.

(** What [SIGCHLD] leaves. *)
Definition fg_gone (s s' : sh OS) : Prop :=
  table_ok s' /\ curr_fg_id s' = -1 /\ num_arg s' = num_arg s /\ calm s' /\
  (forall k, ids s !! k = Some 0 -> ids s' !! k = Some 0).

(** The state before [curr_fg_id] is reset. *)
Definition fg_cleared (s s' : sh OS) : Prop :=
  table_ok s' /\ num_arg s' = num_arg s /\ calm s' /\
  (forall k, ids s !! k = Some 0 -> ids s' !! k = Some 0).

Lemma fg_cleared_same s s' : same_jobs s s' -> table_ok s -> calm s -> fg_cleared s s'.
Proof.
  intros H Ht Hc. split; [by eapply table_ok_jobs|]. destruct H as (Hi & _ & _ & Hn & Hc').
  split_and!; [done|by apply Hc'|]. by rewrite Hi.
Qed.

Lemma fg_cleared_trans s1 s2 s3 : fg_cleared s1 s2 -> fg_cleared s2 s3 -> fg_cleared s1 s3.
Proof.
  intros (? & ? & ? & ?) (? & ? & ? & ?). split_and!; [done|congruence|done|auto].
Qed.

Lemma safe_fg_clear s :
  table_ok s -> calm s -> 1 <= curr_fg_id s <= 256 ->
  safe (fg_slot hook (fun i => store_job i None) ;;; fg_slot hook (fun i => store_id i 0))
    (fun _ => fg_cleared s) s.
Proof.
  intros Ht Hc Hr. pose proof (table_ok_shape _ Ht) as Hs.
  apply safe_bind, safe_fg_slot; [done..|]. intros s1 H1 Hs1 Hc1.
  apply safe_store_job; [apply Hs1|lia|]. set (i := Z.to_nat (curr_fg_id s - 1)).
  set (s1' := set_job_arr _ s1).
  assert (curr_fg_id s1' = curr_fg_id s) as E1 by apply H1.
  assert (shape s1') as Hs1'.
  { destruct Hs1 as (? & ? & ?). split_and!; [done| |done]. simpl. by rewrite length_insert. }
  apply safe_fg_slot; [done..|]. intros s2 H2 Hs2 Hc2. rewrite E1.
  apply safe_store_id; [apply Hs2|lia|]. fold i.
  pose proof (table_ok_jobs _ _ H1 Ht) as Ht1. pose proof H2 as (Hi2 & _ & Hf2 & Hn2 & _).
  split_and!.
  - destruct Hs2 as (L1 & L2 & L3).
    split_and!; [simpl; by rewrite length_insert|done| |done].
    intros k x o Hx Ho. simpl in Hx, Ho. rewrite Hi2 in Hx. simpl in Hx.
    destruct Hs1 as (L4 & L5 & L6). unfold NJOB in *.
    assert (i < 256)%nat as Hi by (unfold i; lia).
    assert (exists o1, job_arr s1' !! k = Some o1) as [o1 Ho1].
    { apply lookup_lt_is_Some_2. simpl. rewrite length_insert.
      apply lookup_lt_Some in Ho. lia. }
    destruct (same_jobs_lookup _ _ _ _ H2 Ho1) as (o2 & Ho2 & Hsk).
    replace o2 with o in Hsk by congruence.
    destruct (decide (k = i)) as [->|Hne].
    + rewrite list_lookup_insert_eq in Hx by lia. simpl in Ho1.
      rewrite list_lookup_insert_eq in Ho1 by lia. simplify_eq. by destruct o.
    + rewrite list_lookup_insert_ne in Hx by done. simpl in Ho1.
      rewrite list_lookup_insert_ne in Ho1 by done.
      eapply slot_ok_skel; [exact Hsk|]. by apply Ht1.
  - simpl. rewrite Hn2. apply H1.
  - exact Hc2.
  - intros k Hk. simpl. rewrite Hi2. simpl. destruct H1 as (Hi1 & _). rewrite Hi1.
    destruct (decide (k = i)) as [->|]; [apply list_lookup_insert_eq; by apply lookup_lt_Some in Hk|].
    by rewrite list_lookup_insert_ne.
Qed.

Lemma fg_remove_ok s : table_ok s -> calm s -> safe (fg_remove hook) (fun _ => fg_gone s) s.
Proof.
  intros Ht Hc. pose proof (table_ok_shape _ Ht) as Hs. unfold fg_remove.
  apply safe_bind, safe_fg_present; [done..| |].
  all: assert (forall s', fg_cleared s s' ->
    safe (hook ;;; modify (set_fg (-1))) (fun _ => fg_gone s) s') as Hend.
  1,3: intros s' (Ht' & Hn & Hc' & Hk); apply safe_bind, safe_hook;
    [by apply table_ok_shape|done|]; intros s2 H2 _ Hc2;
    pose proof (table_ok_jobs _ _ H2 Ht') as (? & ? & ? & _); pose proof H2 as (E & _ & _ & En & _);
    split_and!; [by split_and!; [..|left]|done|by rewrite <-Hn|done|intros k Hk0; simpl; rewrite E; auto].
  { intros s' H _ _. apply safe_bind, safe_ret, Hend. by apply fg_cleared_same. }
  intros s1 j H1 Hs1 Hc1 Hr Hj. apply safe_bind.
  apply (safe_mono _ (fun _ => fg_cleared s)); [|intros []; exact Hend].
  pose proof (table_ok_jobs _ _ H1 Ht) as Ht1. assert (curr_fg_id s1 = curr_fg_id s) as E1 by apply H1.
  destruct (fg_job_stays _ _ _ _ H1 Hj) as [st1 Hj1]. rewrite <-E1 in Hr, Hj1.
  apply safe_bind. eapply safe_fg_field; [done..|]. intros s2 st2 H2 Hs2 Hc2.
  assert (same_jobs s s2) as H02 by (by etrans).
  case (_ =? 0); [|apply safe_ret; by apply fg_cleared_same].
  assert (curr_fg_id s2 = curr_fg_id s1) as E2 by apply H2.
  destruct (fg_job_stays _ _ _ _ H2 Hj1) as [st3 Hj2]. rewrite <-E2 in Hr, Hj2.
  apply safe_bind. eapply safe_fg_field; [done..|]. intros s3 st4 H3 Hs3 Hc3.
  assert (same_jobs s s3) as H03 by (by etrans).
  apply safe_bind, safe_hook; [done..|]. intros s4 H4 Hs4 Hc4.
  assert (same_jobs s s4) as H04 by (by etrans).
  apply safe_bind, safe_sys. intros r o. destruct (WIFEXITED _);
    [|apply safe_ret; by apply fg_cleared_same].
  eapply safe_mono; [apply safe_fg_clear|].
  - by apply (table_ok_jobs s).
  - done.
  - simpl. replace (curr_fg_id s4) with (curr_fg_id s2); [done|].
    destruct H4 as (_ & _ & -> & _), H3 as (_ & _ & -> & _). done.
  - intros [] s' Hg. eapply fg_cleared_trans; [by apply (fg_cleared_same s (set_os o s4))|done].
Qed.
End handlers.

(** ** Interruptions *)

Lemma each_ok f sigs s :
  shape s -> calm s ->
  (forall sig s', sig ∈ sigs -> shape s' -> calm s' -> safe (f sig) (fun _ => same_jobs s') s') ->
  safe (each f sigs) (fun _ => same_jobs s) s.
Proof.
  revert s. induction sigs as [|sig sigs IH]; intros s Hs Hc Hf; simpl; [done|].
  apply safe_bind. eapply safe_mono; [apply Hf; [by left|done|done]|]. intros [] s1 H1. cbv beta.
  eapply safe_mono; [apply IH|].
  - by eapply same_jobs_shape.
  - by apply H1.
  - intros sig' s' Hin. apply Hf. by right.
  - intros [] s2 H2. by etrans.
Qed.

(** While no [SIGCHLD] interrupts them, handlers only change the status of jobs. *)
Lemma nested_ok n blocked : hook_ok (nested n blocked).
Proof.
  revert blocked. induction n as [|n IH]; intros blocked s Hs Hc; [done|]. cbn [nested].
  apply safe_bind. unfold safe at 1, gets. apply safe_bind. unfold safe at 1, modify.
  set (s1 := set_at_handler _ s). set (sigs := default [] _).
  assert ((SIGCHLD ∉ sigs) /\ calm s1) as [Hno Hc1].
  { unfold calm in *. subst sigs s1. simpl. destruct (at_handler s); [|by inversion Hc].
    split; [set_solver|done]. }
  assert (same_jobs s s1) as H1 by done.
  eapply safe_mono; [apply (each_ok _ sigs s1)|]; [done..| |by intros [] s2 H2; etrans].
  intros sig s2 Hin Hs2 Hc2. destruct (decide (sig ∈ blocked)); [done|].
  unfold handler. destruct (sig =? SIGINT); [by apply signal_fg_ok|].
  destruct (sig =? SIGTSTP); [by apply signal_fg_ok|].
  destruct (sig =? SIGCHLD) eqn:E; [|done]. apply Z.eqb_eq in E. by subst sig.
Qed.

(** With no job in the foreground nothing happens, whichever signals arrive. *)
Definition idle_ok (hook : M (sh OS) unit) : Prop :=
  forall s, curr_fg_id s = -1 -> safe hook (fun _ => same_table s) s.

Lemma same_table_fg s s' : same_table s s' -> curr_fg_id s = -1 -> curr_fg_id s' = -1.
Proof. by intros (_ & _ & -> & _). Qed.

Lemma handler_idle hook sig : idle_ok hook -> idle_ok (handler hook sig).
Proof.
  intros Hh s Hs.
  assert (forall (k : bool -> M (sh OS) unit) Q,
    (forall s', same_table s s' -> safe (k false) Q s') ->
    safe (b <- fg_present hook ;; k b) Q s) as Hp.
  { intros k Q Hk. unfold fg_present. do 2 apply safe_bind. eapply safe_mono; [by apply Hh|].
    intros [] s1 H1. cbv beta. apply safe_bind. unfold safe at 1, gets.
    rewrite (same_table_fg _ _ H1 Hs). by apply Hk. }
  unfold handler, sigint_handler, sigtstp_handler, signal_fg.
  destruct (sig =? SIGINT); [by apply Hp|]. destruct (sig =? SIGTSTP); [by apply Hp|].
  destruct (sig =? SIGCHLD); [|done]. apply Hp. intros s1 H1. apply safe_bind, safe_ret, safe_bind.
  eapply safe_mono; [apply Hh; by eapply same_table_fg|]. intros [] s2 H2. cbv beta.
  assert (same_table s s2) as H02 by (by etrans). unfold safe, modify. etrans; [exact H02|].
  split_and!; try done. simpl. symmetry. by eapply same_table_fg.
Qed.

Lemma each_idle f sigs : (forall sig, idle_ok (f sig)) -> idle_ok (each f sigs).
Proof.
  intros Hf. induction sigs as [|sig sigs IH]; intros s Hs; simpl; [done|].
  apply safe_bind. eapply safe_mono; [by apply Hf|]. intros [] s1 H1. cbv beta.
  eapply safe_mono; [apply IH; by eapply same_table_fg|]. intros [] s2 H2. by etrans.
Qed.

Lemma calm_tail s : calm s -> calm (set_at_handler (tail (at_handler s)) s).
Proof. unfold calm. simpl. destruct (at_handler s); [done|]. by intros [_ ?]%Forall_cons. Qed.

Lemma nested_idle n blocked : idle_ok (nested n blocked).
Proof.
  revert blocked. induction n as [|n IH]; intros blocked s Hs; [done|]. cbn [nested].
  apply safe_bind. unfold safe at 1, gets. apply safe_bind. unfold safe at 1, modify.
  set (s1 := set_at_handler _ s). assert (same_table s s1) as H1.
  { split_and!; try done. apply calm_tail. }
  eapply safe_mono; [apply each_idle|]; [|done|intros [] s2 H2; by etrans].
  intros sig. destruct (decide (sig ∈ blocked)); [done|]. apply handler_idle, IH.
Qed.

Lemma point_idle : idle_ok point.
Proof.
  intros s Hs. unfold point. apply safe_bind. unfold safe at 1, gets. apply safe_bind.
  unfold safe at 1, modify. set (s1 := set_at_main _ s). assert (same_table s s1) as H1 by done.
  eapply safe_mono; [apply each_idle|]; [|done|intros [] s2 H2; by etrans].
  intros sig. apply handler_idle, nested_idle.
Qed.

(** A signal to the main code, whatever is in the foreground. *)
Lemma deliver_ok sig s :
  table_ok s -> calm s -> safe (deliver sig) (fun _ s' => table_ok s' /\ calm s') s.
Proof.
  intros Ht Hc. pose proof (table_ok_shape _ Ht) as Hs. unfold deliver, handler.
  assert (forall (m : M (sh OS) unit), safe m (fun _ => same_jobs s) s -> safe m (fun _ s' => table_ok s' /\ calm s') s) as Hm.
  { intros m H. eapply safe_mono; [exact H|]. intros [] s' H'. split; [by eapply table_ok_jobs|by apply H']. }
  destruct (sig =? SIGINT); [apply Hm, signal_fg_ok; [apply nested_ok|done..]|].
  destruct (sig =? SIGTSTP); [apply Hm, signal_fg_ok; [apply nested_ok|done..]|].
  destruct (sig =? SIGCHLD); [|by apply safe_ret].
  eapply safe_mono; [apply fg_remove_ok; [apply nested_ok|done..]|]. by intros [] s' (? & _ & _ & ? & _).
Qed.

Lemma point_ok s : table_ok s -> calm s -> safe point (fun _ s' => table_ok s' /\ calm s') s.
Proof.
  intros Ht Hc. unfold point. apply safe_bind. unfold safe at 1, gets. apply safe_bind.
  unfold safe at 1, modify. set (s1 := set_at_main _ s).
  assert (table_ok s1 /\ calm s1) as H1 by done. revert H1. generalize s1.
  induction (default [] _) as [|sig sigs IH]; intros s2 H2; simpl; [done|].
  apply safe_bind. eapply safe_mono; [by apply deliver_ok; apply H2|]. intros [] s3 H3. by apply IH.
Qed.

(** ** Rules for the main code while no job is in the foreground *)

Definition ready (s : sh OS) : Prop := table_ok s /\ curr_fg_id s = -1 /\ calm s.

Lemma ready_same s s' : same_table s s' -> ready s -> ready s'.
Proof.
  intros H (Ht & Hf & Hc). split_and!; [by eapply table_ok_same|by eapply same_table_fg|by apply H].
Qed.

Lemma safe_point {A} (m : M (sh OS) A) s (Q : A -> sh OS -> Prop) :
  curr_fg_id s = -1 -> (forall s', same_table s s' -> safe m Q s') -> safe (point ;;; m) Q s.
Proof.
  intros Hf HQ. apply safe_bind. eapply safe_mono; [by apply point_idle|]. by intros [] s' H; apply HQ.
Qed.

Lemma safe_call {A} (f : OS -> A * OS) (Q : A -> sh OS -> Prop) s :
  curr_fg_id s = -1 -> (forall a s', same_table s s' -> Q a s') -> safe (call f) Q s.
Proof.
  intros Hf HQ. apply safe_point; [done|]. intros s' H. apply safe_sys. intros a o. by apply HQ.
Qed.

Lemma safe_call_ (f : OS -> OS) (Q : unit -> sh OS -> Prop) s :
  curr_fg_id s = -1 -> (forall s', same_table s s' -> Q tt s') -> safe (call_ f) Q s.
Proof. intros Hf HQ. apply safe_point; [done|]. intros s' H. by apply (HQ (set_os (f (os s')) s')). Qed.

Lemma safe_get_id s i (Q : Z -> sh OS -> Prop) :
  ready s -> 0 <= i < 256 ->
  (forall s' x o, same_table s s' -> ready s' -> ids s' !! Z.to_nat i = Some x ->
     job_arr s' !! Z.to_nat i = Some o -> slot_ok (Z.to_nat i) x o -> Q x s') ->
  safe (get_id i) Q s.
Proof.
  intros Hs Hi HQ. apply safe_point; [apply Hs|]. intros s' H. pose proof (ready_same _ _ H Hs) as Hs'.
  destruct (table_slot s' i (proj1 Hs') Hi) as (x & o & _ & _ & Hx & Ho & Hok).
  apply safe_load_id; [apply Hs'|done|]. intros x' Hx'. simplify_eq. by eapply HQ.
Qed.

Lemma safe_get_job s i (Q : option Job -> sh OS -> Prop) :
  ready s -> 0 <= i < 256 ->
  (forall s' o, same_table s s' -> ready s' -> job_arr s' !! Z.to_nat i = Some o -> Q o s') ->
  safe (get_job i) Q s.
Proof.
  intros Hs Hi HQ. apply safe_point; [apply Hs|]. intros s' H. pose proof (ready_same _ _ H Hs) as Hs'.
  apply safe_load_job; [apply Hs'|done|]. intros o Ho. by apply HQ.
Qed.

Lemma safe_get_field s i j (Q : Job -> sh OS -> Prop) :
  ready s -> 0 <= i < 256 -> job_arr s !! Z.to_nat i = Some (Some j) ->
  (forall s', same_table s s' -> ready s' -> job_arr s' !! Z.to_nat i = Some (Some j) -> Q j s') ->
  safe (get_field i) Q s.
Proof.
  intros Hs Hi Hj HQ. apply safe_point; [apply Hs|]. intros s' H. pose proof (ready_same _ _ H Hs) as Hs'.
  assert (job_arr s' !! Z.to_nat i = Some (Some j)) as Hj' by (by destruct H as (_ & -> & _)).
  eapply safe_load_field; [apply Hs'|done|done|]. by apply HQ.
Qed.

Lemma ready_jobs s s' : same_jobs s s' -> ready s -> ready s'.
Proof.
  intros H (Ht & Hf & Hc). split_and!; [by eapply table_ok_jobs| |by apply H].
  by destruct H as (_ & _ & -> & _).
Qed.

(** Changing the status of a job leaves the table in order. *)
Lemma safe_put_status s i j st (Q : unit -> sh OS -> Prop) :
  ready s -> 0 <= i < 256 -> job_arr s !! Z.to_nat i = Some (Some j) ->
  (forall s', ready s' -> job_arr s' !! Z.to_nat i = Some (Some (set_status st j)) -> Q tt s') ->
  safe (put_status i st) Q s.
Proof.
  intros Hs Hi Hj HQ. apply safe_point; [apply Hs|]. intros s' H. pose proof (ready_same _ _ H Hs) as Hs'.
  assert (job_arr s' !! Z.to_nat i = Some (Some j)) as Hj' by (by destruct H as (_ & -> & _)).
  eapply safe_store_status; [apply Hs'|done|done|]. apply HQ.
  - eapply ready_jobs; [by apply same_jobs_status|done].
  - simpl. apply list_lookup_insert_eq. by apply lookup_lt_Some in Hj'.
Qed.

(** Freeing a slot: both halves are cleared. *)
Lemma safe_free s i (Q : unit -> sh OS -> Prop) :
  ready s -> 0 <= i < 256 -> (forall s', ready s' -> num_arg s' = num_arg s ->
    (forall k, ids s !! k = Some 0 -> ids s' !! k = Some 0) -> Q tt s') ->
  safe (put_job i None ;;; put_id i 0) Q s.
Proof.
  intros Hs Hi HQ. apply safe_bind, safe_point; [apply Hs|]. intros s1 H1.
  pose proof (ready_same _ _ H1 Hs) as Hs1. apply safe_store_job; [apply Hs1|done|].
  apply safe_point; [apply Hs1|]. intros s2 H2.
  apply safe_store_id; [destruct H2 as (-> & _); apply Hs1|done|].
  destruct H1 as (Hi1 & _ & Hf1 & Hn1 & Hc1), H2 as (Hi2 & Hj2 & Hf2 & Hn2 & Hc2).
  destruct Hs1 as (Ht1 & Hf1' & Hc1'). simpl in *.
  apply HQ.
  - split_and!; [|simpl; congruence|by apply Hc2].
    eapply (table_ok_slot s1 i 0 None (-1)); try done; [by left|simpl; congruence..].
  - simpl. congruence.
  - intros k Hk. simpl. rewrite Hi2, Hi1. destruct (decide (k = Z.to_nat i)) as [->|].
    + apply list_lookup_insert_eq. by apply lookup_lt_Some in Hk.
    + by rewrite list_lookup_insert_ne.
Qed.

(** ** The operations *)

Definition free_slot (s : sh OS) : Prop := exists k, ids s !! k = Some 0.

Lemma remove_jobs_safe s :
  ready s -> safe remove_jobs (fun _ s' => ready s' /\ num_arg s' = num_arg s /\
    forall k, ids s !! k = Some 0 -> ids s' !! k = Some 0) s.
Proof.
  intros Hs. unfold remove_jobs.
  apply (safe_for_loop (fun s' => ready s' /\ num_arg s' = num_arg s /\
    forall k, ids s !! k = Some 0 -> ids s' !! k = Some 0)); [done|].
  intros j s' Hj (Hs' & Hn & Hk). unfold NJOB in Hj.
  assert (forall s'', same_table s' s'' -> ready s'' /\ num_arg s'' = num_arg s /\
    forall k, ids s !! k = Some 0 -> ids s'' !! k = Some 0) as Hst.
  { intros s'' H. split; [by eapply ready_same|]. destruct H as (-> & _ & _ & -> & _). done. }
  apply safe_bind, safe_get_id; [done|lia|]. intros s1 x o H1 Hs1 Hx Ho Hok.
  destruct (x =? 1) eqn:Ex; [|by apply safe_ret, Hst]. apply Z.eqb_eq in Ex. subst x.
  destruct o as [jb|]; [|done].
  apply safe_bind. eapply safe_get_field; [done|lia|done|]. intros s2 H2 Hs2 Hj2.
  apply safe_bind, safe_call; [apply Hs2|]. intros a s3 H3.
  assert (same_table s' s3) as H03 by (by etrans; [|etrans]).
  destruct (0 <? a.1); [|by apply safe_ret, Hst]. destruct (Hst _ H03) as (Hs3 & Hn3 & Hk3).
  apply safe_free; [done|lia|]. intros s'' Hs'' Hn'' Hk''.
  split_and!; [done|by rewrite Hn''|auto].
Qed.

Lemma put_background_safe i s :
  ready s -> 1 <= i <= 256 -> safe (put_background i) (fun _ => ready) s.
Proof.
  intros Hs Hi. unfold put_background. apply safe_bind, safe_get_job; [done|lia|].
  intros s1 o H1 Hs1 Ho. destruct o as [j|]; [|exact Hs1].
  apply safe_bind. eapply safe_get_field; [done|lia|done|]. intros s2 H2 Hs2 Hj2.
  destruct (job_status j =? 2); [|done].
  apply safe_bind. eapply safe_put_status; [done|lia|done|]. intros s3 Hs3 Hj3.
  apply safe_bind. eapply safe_get_field; [done|lia|done|]. intros s4 H4 Hs4 Hj4.
  apply safe_call_; [apply Hs4|]. intros s5 H5. by eapply ready_same.
Qed.

Lemma put_foreground_safe i s :
  ready s -> 1 <= i <= 256 -> safe (put_foreground i) (fun _ => ready) s.
Proof.
  intros Hs Hi. unfold put_foreground. apply safe_bind, safe_get_job; [done|lia|].
  intros s1 o H1 Hs1 Ho. apply safe_bind. apply (safe_mono _ (fun _ => ready)).
  2:{ intros [] s' Hs'. apply safe_bind. unfold safe at 1, gets.
      apply safe_call_; [apply Hs'|]. intros s'' H. by eapply ready_same. }
  destruct o as [j|]; [|done].
  apply safe_bind. eapply safe_put_status; [done|lia|done|]. intros s2 Hs2 Hj2.
  apply safe_bind. eapply safe_get_field; [done|lia|done|]. intros s3 H3 Hs3 Hj3.
  apply safe_bind, safe_call_; [apply Hs3|]. intros s4 H4.
  apply safe_bind. eapply safe_get_field; [by eapply ready_same|lia|by destruct H4 as (_ & -> & _)|].
  intros s5 H5 Hs5 Hj5. apply safe_bind, safe_call_; [apply Hs5|]. intros s6 H6.
  apply safe_bind. eapply safe_get_field; [by eapply ready_same|lia|by destruct H6 as (_ & -> & _)|].
  intros s7 H7 Hs7 Hj7. apply safe_bind, safe_call; [apply Hs7|]. intros r s8 H8.
  pose proof (ready_same _ _ H8 Hs7) as Hs8. destruct (WIFSTOPPED _); [|done].
  eapply safe_put_status; [done|lia|by destruct H8 as (_ & -> & _)|]. done.
Qed.

(** A test of the job in a slot that leaves the table alone. *)
Definition job_test (f : Z -> M (sh OS) bool) : Prop :=
  forall i s j, ready s -> 0 <= i < 256 -> job_arr s !! Z.to_nat i = Some (Some j) ->
    safe (f i) (fun _ s' => same_table s s' /\ ready s' /\ job_arr s' !! Z.to_nat i = Some (Some j)) s.

Lemma stopped_test : job_test stopped.
Proof.
  intros i s j Hs Hi Hj. unfold stopped. apply safe_bind. eapply safe_get_field; [done..|].
  intros s' H Hs' Hj'. by apply safe_ret.
Qed.

Lemma bg_or_stopped_test : job_test bg_or_stopped.
Proof.
  intros i s j Hs Hi Hj. unfold bg_or_stopped. apply safe_bind. eapply safe_get_field; [done..|].
  intros s' H Hs' Hj'. destruct (job_status j =? 1); [by apply safe_ret|].
  eapply safe_mono; [by eapply stopped_test|]. intros b s2 (H2 & ? & ?). split_and!; [by etrans|done..].
Qed.

Lemma last_job_safe f n s :
  job_test f -> (n <= NJOB)%nat -> ready s ->
  safe (last_job f n) (fun r s' => ready s' /\ (r = None \/ exists i, r = Some i /\ 1 <= i <= 256)) s.
Proof.
  intros Hf Hn. revert s. induction n as [|n IH]; intros s Hs; [by split; [|left]|]. simpl.
  unfold NJOB in Hn. assert (n <= NJOB)%nat as Hn' by (unfold NJOB; lia). specialize (IH Hn').
  apply safe_bind, safe_get_id; [done|lia|]. intros s1 x o H1 Hs1 Hx Ho Hok.
  destruct (x =? 1); [|by apply IH]. apply safe_bind, safe_get_job; [done|lia|].
  intros s2 o' H2 Hs2 Ho'. destruct o' as [j|]; [|by apply IH].
  apply safe_bind. eapply safe_mono; [eapply Hf; [done|lia|done]|]. intros b s3 (H3 & Hs3 & Hj3). cbv beta.
  destruct b; [|by apply IH]. apply safe_bind. eapply safe_get_field; [done|lia|done|].
  intros s4 H4 Hs4 Hj4. apply safe_ret. split; [done|]. right. exists (id j).
  destruct Hs4 as ((_ & _ & H & _) & _). split; [done|].
  destruct (lookup_lt_is_Some_2 (ids s4) (Z.to_nat (Z.of_nat n))) as [y Hy].
  { destruct H4 as (-> & _), H3 as (-> & _), H2 as (-> & _). by eapply lookup_lt_Some. }
  destruct (H _ _ _ Hy Hj4) as [_ ->]. lia.
Qed.

Lemma list_jobs_safe s : ready s -> safe list_jobs (fun _ => ready) s.
Proof.
  intros Hs. apply (safe_for_loop ready); [done|]. intros i s' Hi Hs'. unfold NJOB in Hi.
  apply safe_bind, safe_get_id; [done|lia|]. intros s1 x o H1 Hs1 Hx Ho Hok.
  destruct (x =? 1) eqn:E; [|done]. apply Z.eqb_eq in E. subst x. destruct o as [j|]; [|done].
  apply safe_bind. eapply safe_mono; [eapply bg_or_stopped_test; [done|lia|done]|].
  intros b s2 (H2 & Hs2 & Hj2). cbv beta. destruct b; [|done].
  apply safe_bind. eapply safe_get_field; [done|lia|done|]. intros s3 H3 Hs3 Hj3.
  apply safe_bind. eapply safe_get_field; [done|lia|done|]. intros s4 H4 Hs4 Hj4. done.
Qed.

Lemma least_free (l : list Z) :
  (exists k, l !! k = Some 0) -> exists k, l !! k = Some 0 /\ forall k', (k' < k)%nat -> l !! k' <> Some 0.
Proof.
  induction l as [|x l IH]; [by intros [k ?]|]. intros [k Hk].
  destruct (decide (x = 0)) as [->|Hx]; [exists 0%nat; split; [done|lia]|].
  destruct k as [|k]; [simpl in Hk; congruence|]. destruct IH as (k0 & H1 & H2); [by exists k|].
  exists (S k0). split; [done|]. intros [|k'] Hk'; [simpl; congruence|]. apply H2. lia.
Qed.

(** [setjobid] takes the smallest free slot. *)
Lemma setjobid_safe s k (Q : Z -> sh OS -> Prop) :
  ready s -> ids s !! k = Some 0 -> (forall k', (k' < k)%nat -> ids s !! k' <> Some 0) ->
  (forall s', same_table (set_ids (<[k := 1]> (ids s)) s) s' -> Q (Z.of_nat k + 1) s') ->
  safe setjobid Q s.
Proof.
  intros Hs Hk Hmin HQ. unfold setjobid.
  assert (forall n i s1, same_table s s1 -> (i <= k)%nat -> (n + i = NJOB)%nat ->
    safe (first_free n (Z.of_nat i)) Q s1) as H.
  2:{ apply (H NJOB 0%nat); [done|lia..]. }
  pose proof (lookup_lt_Some _ _ _ Hk) as Hlt. assert (length (ids s) = NJOB) as Hl by apply Hs.
  induction n as [|n IH]; intros i s1 H1 Hi Hn; [lia|]. simpl. unfold NJOB in *.
  pose proof (ready_same _ _ H1 Hs) as Hs1.
  apply safe_bind, safe_get_id; [done|lia|]. intros s2 x o H2 Hs2 Hx _ _. rewrite Nat2Z.id in Hx.
  assert (same_table s s2) as H02 by (by etrans). assert (ids s2 = ids s) as E by apply H02.
  rewrite E in Hx. destruct (decide (i = k)) as [->|Hne].
  - simplify_eq. simpl. apply safe_bind, safe_point; [apply Hs2|]. intros s3 H3.
    assert (same_table s s3) as H03 by (by etrans).
    apply safe_store_id; [destruct H03 as (-> & _); done|lia|]. apply safe_ret.
    apply HQ. rewrite Nat2Z.id. destruct H03 as (Hi3 & Hj3 & Hf3 & Hn3 & Hc3). rewrite Hi3.
    by split_and!.
  - destruct (x =? 0) eqn:E0; [apply Z.eqb_eq in E0; subst x; by destruct (Hmin i ltac:(lia))|].
    replace (Z.of_nat i + 1) with (Z.of_nat (S i)) by lia. apply IH; [done|lia..].
Qed.

Definition new_job (k : nat) (input : list Z) (st f : Z) : Job :=
  mk_job (Z.of_nat k + 1) input st f f.

(** [job_arr] with [j] in slot [k]. *)
Definition with_job (k : nat) (j : Job) (s : sh OS) : sh OS :=
  set_job_arr (<[k := Some j]> (job_arr s)) s.

Lemma with_job_same s s' k j : same_table s s' -> same_table (with_job k j s) (with_job k j s').
Proof. intros (? & Hj & ? & ? & ?). unfold with_job. rewrite Hj. by split_and!. Qed.

(** One of the stores of [add_job] into the fresh job. *)
Lemma safe_edit_job s0 s k j g (Q : unit -> sh OS -> Prop) :
  length (job_arr s0) = NJOB -> curr_fg_id s0 = -1 -> (k < NJOB)%nat ->
  same_table (with_job k j s0) s ->
  (forall s', same_table (with_job k (g j) s0) s' -> Q tt s') ->
  safe (edit_job (Z.of_nat k + 1 - 1) g) Q s.
Proof.
  intros Hl Hf Hk H HQ. unfold edit_job. apply safe_point; [by eapply same_table_fg|].
  intros s1 H1. assert (same_table (with_job k j s0) s1) as H01 by (by etrans).
  destruct H01 as (? & Hj1 & ? & ? & ?). simpl in *.
  assert (length (job_arr s1) = NJOB) as Hl1 by (by rewrite Hj1, length_insert).
  replace (Z.of_nat k + 1 - 1) with (Z.of_nat k) by lia. unfold NJOB in *.
  apply safe_bind. eapply safe_load_field; [done|lia| |].
  { rewrite Nat2Z.id, Hj1. apply list_lookup_insert_eq. lia. }
  apply safe_store_job; [done|lia|]. apply HQ. rewrite Nat2Z.id, Hj1, list_insert_insert_eq.
  by split_and!.
Qed.

Lemma add_job_safe s k input st f (Q : unit -> sh OS -> Prop) :
  length (job_arr s) = NJOB -> curr_fg_id s = -1 -> (k < NJOB)%nat ->
  Z.of_nat (length input) < BUFSIZE ->
  (forall s', same_table (with_job k (new_job k input st f) s) s' -> Q tt s') ->
  safe (add_job (Z.of_nat k + 1) input st f) Q s.
Proof.
  intros Hl Hf Hk Hlen HQ. unfold add_job. apply safe_bind, safe_point; [done|]. intros s1 H1.
  apply safe_store_job; [by destruct H1 as (_ & -> & _)|unfold NJOB in *; lia|].
  apply safe_bind. eapply (safe_edit_job s); [done..| |].
  { replace (Z.to_nat (Z.of_nat k + 1 - 1)) with k by lia. apply with_job_same, H1. }
  intros s2 H2. unfold fits. rewrite (proj2 (Z.ltb_lt _ _)) by done. apply safe_bind, safe_ret.
  apply safe_bind. eapply (safe_edit_job s); [done..|]. intros s3 H3.
  apply safe_bind. eapply (safe_edit_job s); [done..|]. intros s4 H4.
  apply safe_bind. eapply (safe_edit_job s); [done..|]. intros s5 H5.
  by eapply (safe_edit_job s).
Qed.

(** The table with a job entered in slot [k]. *)
Definition enter_job (k : nat) (j : Job) (s : sh OS) : sh OS :=
  with_job k j (set_ids (<[k := 1]> (ids s)) s).

Lemma enter_safe {A} (kont : Z -> M (sh OS) A) s k input st f Q :
  ready s -> ids s !! k = Some 0 -> (forall k', (k' < k)%nat -> ids s !! k' <> Some 0) ->
  Z.of_nat (length input) < BUFSIZE ->
  (forall s', same_table (enter_job k (new_job k input st f) s) s' -> safe (kont (Z.of_nat k + 1)) Q s') ->
  safe (i <- setjobid ;; add_job i input st f ;;; kont i) Q s.
Proof.
  intros Hs Hk Hmin Hlen HQ. apply safe_bind, (setjobid_safe s k); [done..|]. intros s1 H1.
  pose proof Hs as ((Hl1 & Hl2 & _) & Hf & _). apply lookup_lt_Some in Hk as Hlt.
  apply safe_bind, add_job_safe; [by destruct H1 as (_ & -> & _)|by eapply same_table_fg|lia|done|].
  intros s2 H2. apply HQ. etrans; [|exact H2]. by apply with_job_same.
Qed.

Lemma enter_ok s k input st f :
  ready s -> ids s !! k = Some 0 -> ready (enter_job k (new_job k input st f) s).
Proof.
  intros (Ht & Hf & Hc) Hk. apply lookup_lt_Some in Hk. pose proof Ht as (H1 & _). unfold NJOB in *.
  split_and!; [|done|done].
  eapply (table_ok_slot s (Z.of_nat k) 1 (Some (new_job k input st f)) (-1));
    [done|lia|by rewrite Nat2Z.id|by left|by rewrite Nat2Z.id|by rewrite Nat2Z.id|done].
Qed.

(** ** Pipelines *)

(** [pieces] joined by bars. *)
Fixpoint join_bars (pieces : list (list (list Z))) : list (list Z) :=
  match pieces with
  | [] => []
  | [p] => p
  | p :: pieces' => p ++ BAR :: join_bars pieces'
  end.

(** [group] splits at the bars. *)
Lemma group_run toks cmd (s : sh OS) :
  Forall (fun t => t <> BAR) cmd ->
  exists cmds, group (map Some toks) cmd s = Ret cmds s /\
    join_bars cmds = cmd ++ toks /\ Forall (Forall (fun t => t <> BAR)) cmds /\
    length cmds = S (length (filter (fun t => t = BAR) toks)).
Proof.
  revert cmd. induction toks as [|t toks IH]; intros cmd Hc; simpl.
  - exists [cmd]. rewrite app_nil_r. split_and!; [done|done|by constructor|done].
  - destruct (str_eqb t BAR) eqn:Et.
    + apply str_eqb_eq in Et. subst t. unfold bind.
      destruct (IH [] (Forall_nil_2 _)) as (cmds & -> & Hj & Hf & Hl).
      exists (cmd :: cmds). split_and!; [done| |by constructor|].
      * simpl in *. destruct cmds as [|c cmds]; [done|]. by rewrite Hj.
      * rewrite filter_cons_True by done. simpl. by rewrite Hl.
    + assert (t <> BAR) as Hne by (intros ->; by rewrite (proj2 (str_eqb_eq _ _)) in Et).
      destruct (IH (cmd ++ [t])) as (cmds & -> & Hj & Hf & Hl).
      { apply Forall_app. split; [done|by constructor]. }
      exists cmds. split_and!; [done|by rewrite Hj, <-app_assoc|done|].
      by rewrite filter_cons_False.
Qed.

Lemma make_pipes_safe n s : ready s -> safe (make_pipes n) (fun _ => ready) s.
Proof.
  revert s. induction n as [|n IH]; intros s Hs; [done|]. simpl.
  apply safe_bind, safe_call; [apply Hs|]. intros r s' H. destruct (r =? -1); [done|].
  by eapply IH, ready_same.
Qed.

Lemma fork_children_safe n cmds i s : ready s -> safe (fork_children n i cmds) (fun _ => ready) s.
Proof.
  revert i s. induction cmds as [|c cmds IH]; intros i s Hs; [done|]. simpl.
  apply safe_bind, safe_call; [apply Hs|]. intros r s' H. destruct (r =? -1); [done|].
  by eapply IH, ready_same.
Qed.

Lemma close_pipes_safe n i s : ready s -> safe (close_pipes n i) (fun _ => ready) s.
Proof.
  revert i s. induction n as [|n IH]; intros i s Hs; [done|]. simpl.
  apply safe_bind, safe_call_; [apply Hs|]. intros s' H. by eapply IH, ready_same.
Qed.

Lemma pipe_dealer_safe fuel toks n s :
  ready s -> safe (pipe_dealer fuel (map Some toks) n) (fun _ => ready) s.
Proof.
  intros Hs. unfold pipe_dealer.
  destruct (group_run toks [] s (Forall_nil_2 _)) as (cmds & Hg & _).
  apply safe_bind. unfold safe at 1. rewrite Hg.
  apply safe_bind. eapply safe_mono; [by apply make_pipes_safe|]. intros [] s1 H1. cbv beta.
  apply safe_bind. eapply safe_mono; [by apply fork_children_safe|]. intros [] s2 H2. cbv beta.
  apply safe_bind. eapply safe_mono; [by apply close_pipes_safe|]. intros [] s3 H3. cbv beta.
  apply (safe_loop ready); [done|]. intros [] s' Hs'.
  apply safe_bind, safe_call; [apply Hs'|]. intros r s'' H.
  destruct (1 <? r); by eapply ready_same.
Qed.

(** ** Command lines *)

Definition in_range (a : list Z) : Prop := 1 <= atoi a <= 256.

(** What a line must not do: name a job outside the table, put a pipeline or a lone
    ['&'] in the background, or start a job when all 256 slots are taken. *)
Definition command_ok (p : parsed) (s : sh OS) : Prop :=
  exists cmd rest, argv (p_args p) = cmd :: rest /\
    (p_num_arg p = 2 -> cmd = str "cd" \/ cmd = str "fg" \/ cmd = str "bg" ->
       exists a, rest = [a] /\ (cmd = str "cd" \/ in_range a)) /\
    (p_pipe p = 1 -> p_bg p = 0) /\
    (p_pipe p <> 1 -> Z.of_nat (length cmd) < 251) /\
    free_slot s.

(** The last condition says that the [SIGCHLD] of the last program in the foreground has
    been handled; it was sent before the shell's wait for that program returned. *)
Definition line_ok (line : list Z) (s : sh OS) : Prop :=
  line <> [] /\ Z.of_nat (length line) < BUFSIZE /\
  (exists p, parse_line line = Some p /\ command_ok p s) /\
  curr_fg_id s = -1.

Lemma string_arg_0 args cmd rest (s : sh OS) :
  argv args = cmd :: rest -> string_arg args 0 s = Ret cmd s.
Proof. destruct args as [|[a|] args]; simpl; try done. by intros [= -> _]. Qed.

Lemma string_arg_1 args cmd a rest (s : sh OS) :
  argv args = cmd :: a :: rest -> string_arg args 1 s = Ret a s.
Proof. destruct args as [|[x|] [|[y|] args]]; simpl; try done. by intros [= _ -> _]. Qed.

(** The table is in order and the rest of the list of signals is calm. *)
Definition in_order (s : sh OS) : Prop := table_ok s /\ calm s.

Lemma ready_in_order s : ready s -> in_order s.
Proof. by intros (? & _ & ?). Qed.

(** While a job is in the foreground the main code only makes system calls. *)
Lemma call_in_order {A} (f : OS -> A * OS) (Q : A -> sh OS -> Prop) s :
  in_order s -> (forall a s', in_order s' -> Q a s') -> safe (call f) Q s.
Proof.
  intros [Ht Hc] HQ. apply safe_bind. eapply safe_mono; [by apply point_ok|].
  intros [] s1 H1. apply safe_sys. intros a o. by apply HQ.
Qed.

Lemma run_program_safe args cmd rest bg input s :
  ready s -> argv args = cmd :: rest -> Z.of_nat (length cmd) < 251 -> free_slot s ->
  Z.of_nat (length input) < BUFSIZE -> safe (run_program args bg input) (fun _ => in_order) s.
Proof.
  intros Hs Ha Hc Hfree Hin. destruct (least_free _ Hfree) as (k & Hk & Hmin).
  unfold run_program. apply safe_bind. unfold safe at 1. rewrite (string_arg_0 _ _ _ _ Ha).
  apply safe_bind. unfold fits. rewrite (proj2 (Z.ltb_lt _ _)); [|unfold BUFSIZE; simpl length; lia].
  apply safe_ret, safe_bind, safe_call; [apply Hs|]. intros f s1 H1. destruct (f =? -1); [done|].
  pose proof (ready_same _ _ H1 Hs) as Hs1. assert (ids s1 = ids s) as Ei by apply H1.
  rewrite <-Ei in Hk, Hmin. apply (enter_safe _ s1 k); [done..|]. intros s2 H2.
  pose proof (ready_same _ _ H2 (enter_ok s1 k input bg f Hs1 Hk)) as Hs2.
  apply lookup_lt_Some in Hk as Hlt. assert (length (ids s1) = NJOB) as Hl by apply Hs1.
  unfold NJOB in Hl. destruct (bg =? 0).
  - apply safe_bind, safe_point; [apply Hs2|]. intros s3 H3. pose proof (ready_same _ _ H3 Hs2) as Hs3.
    unfold safe at 1, modify. apply safe_bind, call_in_order.
    { destruct Hs3 as (Ht3 & _ & Hc3). split; [|done]. destruct Ht3 as (? & ? & ? & _).
      split_and!; [done..|right; simpl; lia]. }
    intros r s4 Hs4. destruct (r.1 =? -1); [done|]. apply safe_bind. unfold safe at 1, gets.
    apply safe_bind. eapply safe_mono; [apply point_ok; apply Hs4|]. by intros [] s5 Hs5.
  - apply safe_bind, safe_call; [apply Hs2|]. intros r s3 H3.
    apply safe_ret, ready_in_order. by eapply ready_same.
Qed.

Lemma exec_fg_safe args cmd rest n s :
  ready s -> argv args = cmd :: rest -> (n = 2 -> exists a, rest = [a] /\ in_range a) ->
  safe (target <- (if n =? 1 then
                 t <- last_job bg_or_stopped NJOB ;;
                 match t with Some i => put_foreground i ;;; ret i | None => ret (-1) end
               else if n =? 2 then
                 a <- string_arg args 1 ;; put_foreground (atoi a) ;;; ret (atoi a)
               else print (Text "flag5") ;;; exit (-1)) ;;
    put_fg target ;;; fg_remove (nested 3 [])) (fun _ => in_order) s.
Proof.
  intros Hs Ha Hr. apply safe_bind.
  apply (safe_mono _ (fun t s' => ready s' /\ (t = -1 \/ 1 <= t <= 256))).
  2:{ intros t s' [Hs' Hf]. apply safe_bind, safe_point; [apply Hs'|]. intros s1 H1.
      destruct (ready_same _ _ H1 Hs') as ((? & ? & ? & _) & _ & Hc1).
      unfold safe at 1, modify. eapply safe_mono; [apply fg_remove_ok; [apply nested_ok| |done]|].
      - by split_and!.
      - by intros [] s'' (? & _ & _ & ? & _). }
  destruct (n =? 1); [|destruct (n =? 2) eqn:E2; [|done]].
  - apply safe_bind. eapply safe_mono; [apply last_job_safe; [apply bg_or_stopped_test|done|done]|].
    intros t s' (Hs' & [->|(i & -> & Hi)]); [by split; [|left]|].
    apply safe_bind. eapply safe_mono; [by apply put_foreground_safe|]. intros [] s'' Hs''.
    by split; [|right].
  - apply Z.eqb_eq in E2. destruct (Hr E2) as (a & -> & Hin).
    apply safe_bind. unfold safe at 1. rewrite (string_arg_1 _ _ _ _ _ Ha).
    apply safe_bind. eapply safe_mono; [by apply put_foreground_safe|]. intros [] s'' Hs''.
    by split; [|right].
Qed.

Lemma exec_bg_safe args cmd rest n s :
  ready s -> argv args = cmd :: rest -> (n = 2 -> exists a, rest = [a] /\ in_range a) ->
  safe (if n =? 1 then
      t <- last_job stopped NJOB ;;
      match t with Some i => put_background i | None => ret tt end
    else if n =? 2 then a <- string_arg args 1 ;; put_background (atoi a)
    else print (Text "flag6") ;;; exit (-1)) (fun _ => ready) s.
Proof.
  intros Hs Ha Hr. destruct (n =? 1); [|destruct (n =? 2) eqn:E2; [|done]].
  - apply safe_bind. eapply safe_mono; [apply last_job_safe; [apply stopped_test|done|done]|].
    intros t s' (Hs' & [->|(i & -> & Hi)]); [done|]. by apply put_background_safe.
  - apply Z.eqb_eq in E2. destruct (Hr E2) as (a & -> & Hin).
    apply safe_bind. unfold safe at 1. rewrite (string_arg_1 _ _ _ _ _ Ha).
    by apply put_background_safe.
Qed.

(** ** The whole shell *)

Lemma parse_line_args line p :
  parse_line line = Some p ->
  p_num_arg p = Z.of_nat (length (words BLANKS line)) /\
  (p_bg p = 0 -> p_args p = map Some (words BLANKS line) ++ [None]).
Proof.
  unfold parse_line. destruct (last _) as [t|]; [|done].
  generalize (str_eqb t (str "&")) as b. intros b [= <-]. split; [done|]. by destruct b.
Qed.

Lemma exec_cmds_safe fuel line p s :
  parse_line line = Some p -> Z.of_nat (length line) < BUFSIZE -> ready s ->
  num_arg s = p_num_arg p -> command_ok p s ->
  safe (exec_cmds fuel (p_args p) (p_pipe p) (p_bg p) (p_num_cmd p) (removelast line))
    (fun _ => in_order) s.
Proof.
  intros Hp Hlen Ht Hn (cmd & rest & Ha & Harg & Hpipe & Hshort & Hfree).
  destruct (parse_line_args _ _ Hp) as [Hna Hargs].
  unfold exec_cmds. apply safe_bind. unfold safe at 1. rewrite (string_arg_0 _ _ _ _ Ha).
  apply safe_bind. unfold safe at 1, gets. rewrite Hn.
  destruct (str_eqb cmd (str "exit")); [by destruct (p_num_arg p =? 1)|].
  destruct (str_eqb cmd (str "cd")) eqn:Ecd; [|destruct (str_eqb cmd (str "jobs"));
    [|destruct (str_eqb cmd (str "fg")) eqn:Efg; [|destruct (str_eqb cmd (str "bg")) eqn:Ebg]]].
  - apply str_eqb_eq in Ecd. destruct (p_num_arg p =? 2) eqn:E2; [|done]. apply Z.eqb_eq in E2.
    destruct (Harg E2) as (a & -> & _); [by left|].
    apply safe_bind. unfold safe at 1. rewrite (string_arg_1 _ _ _ _ _ Ha).
    apply safe_bind, safe_call; [apply Ht|]. intros r s1 H1. destruct (r =? 0); [|done].
    by eapply ready_in_order, ready_same.
  - destruct (p_num_arg p =? 1); [|done].
    eapply safe_mono; [by apply list_jobs_safe|]. intros [] s1. apply ready_in_order.
  - apply str_eqb_eq in Efg. eapply exec_fg_safe; [done|done|]. intros E2.
    destruct (Harg E2) as (a & -> & [->|?]); [by auto|done|by eauto].
  - apply str_eqb_eq in Ebg.
    eapply safe_mono; [eapply exec_bg_safe; [done|done|]|intros [] s1; apply ready_in_order].
    intros E2. destruct (Harg E2) as (a & -> & [->|?]); [by auto|done|by eauto].
  - destruct (p_pipe p =? 1) eqn:Ep.
    + apply Z.eqb_eq in Ep. rewrite Hargs by auto. rewrite Hna, Nat2Z.id.
      rewrite take_app_le by (by rewrite length_map). rewrite take_ge by (by rewrite length_map).
      eapply safe_mono; [by apply pipe_dealer_safe|]. intros [] s1. apply ready_in_order.
    + apply Z.eqb_neq in Ep. eapply run_program_safe; [done|done|auto|done|].
      destruct line as [|c line] using rev_ind; [done|]. rewrite removelast_last.
      rewrite length_app in Hlen. lia.
Qed.

Lemma run_line_safe fuel line s :
  table_ok s -> calm s -> line_ok line s -> safe (run_line fuel line) (fun _ => in_order) s.
Proof.
  intros Ht Hcalm (Hne & Hlen & (p & Hp & Hc) & Hf). unfold run_line, fits.
  rewrite (proj2 (Z.ltb_lt _ _)) by done. rewrite decide_False by done.
  do 2 apply safe_bind, safe_ret. rewrite Hp. apply safe_bind, safe_ret.
  apply safe_bind. unfold safe at 1, modify. set (s1 := set_num_arg (p_num_arg p) s).
  apply safe_bind. eapply safe_mono; [by apply (remove_jobs_safe s1)|].
  intros [] s2 (Hs2 & Hn & Hk). cbv beta. apply (exec_cmds_safe fuel line p); try done.
  destruct Hc as (cmd & rest & Ha & Harg & Hpipe & Hshort & (k & Hfree)).
  exists cmd, rest. split_and!; try done. exists k. by apply Hk.
Qed.

(** One round of the shell: a command line within the limits, or a signal while it waits
    for one. *)
Inductive shstep : sh OS -> sh OS -> Prop :=
| step_line fuel line s s' :
    line_ok line s -> run_line fuel line s = Ret tt s' -> shstep s s'
| step_signal sig s s' : deliver sig s = Ret tt s' -> shstep s s'.

Lemma safe_use {A} (m : M (sh OS) A) Q s a s' : safe m Q s -> m s = Ret a s' -> Q a s'.
Proof. unfold safe. intros H E. by rewrite E in H. Qed.

Lemma shstep_ok s s' : shstep s s' -> in_order s -> in_order s'.
Proof.
  intros Hst [Ht Hc]. destruct Hst as [fuel line s s' Hl E|sig s s' E].
  - by apply (safe_use _ _ _ _ _ (run_line_safe fuel line s Ht Hc Hl) E).
  - by apply (safe_use _ _ _ _ _ (deliver_ok sig s Ht Hc) E).
Qed.


(** A program started in the background gets the smallest job number not in use and is
    entered in that slot with its command line, its status and its pid as process group;
    no other slot changes, whichever signals arrive meanwhile. *)
Theorem run_program_enters args cmd rest bg input s k :
  ready s -> argv args = cmd :: rest -> Z.of_nat (length cmd) < 251 ->
  Z.of_nat (length input) < BUFSIZE -> bg <> 0 ->
  ids s !! k = Some 0 -> (forall k', (k' < k)%nat -> ids s !! k' <> Some 0) ->
  safe (run_program args bg input) (fun _ s' => exists f, f <> -1 /\
    ids s' = <[k := 1]> (ids s) /\ job_arr s' = <[k := Some (new_job k input bg f)]> (job_arr s)) s.
Proof.
  intros Hs Ha Hc Hin Hbg Hk Hmin. unfold run_program.
  apply safe_bind. unfold safe at 1. rewrite (string_arg_0 _ _ _ _ Ha).
  apply safe_bind. unfold fits. rewrite (proj2 (Z.ltb_lt _ _)); [|unfold BUFSIZE; simpl length; lia].
  apply safe_ret, safe_bind, safe_call; [apply Hs|]. intros f s1 H1.
  destruct (f =? -1) eqn:Ef; [done|]. apply Z.eqb_neq in Ef.
  pose proof (ready_same _ _ H1 Hs) as Hs1. assert (ids s1 = ids s) as Ei by apply H1.
  rewrite <-Ei in Hk, Hmin. apply (enter_safe _ s1 k); [done..|]. intros s2 H2.
  rewrite (proj2 (Z.eqb_neq _ _)) by done. apply safe_bind, safe_call.
  { eapply same_table_fg; [done|]. apply Hs1. }
  intros r s3 H3. apply safe_ret. exists f. split; [done|].
  destruct H3 as (-> & -> & _), H2 as (-> & -> & _), H1 as (Hi & Hj & _).
  simpl. by rewrite Hi, Hj.
Qed.

(** Lines the shell does not survive: an empty line reads [args[-1]], a lone ['&']
    and a pipeline in the background compare NULL, and [fg 0] reads [job_arr[-1]]. *)
Theorem wsh_crashing_lines fuel pg o :
  run_line fuel [10] (init pg o [] []) = Undef "args[-1]" /\
  run_line fuel (str "&" ++ [10]) (init pg o [] []) = Undef "NULL argument" /\
  run_line fuel (str "ls | wc &" ++ [10]) (init pg o [] []) = Undef "strcmp of NULL" /\
  run_line fuel (str "fg 0" ++ [10]) (init pg o [] []) = Undef "job_arr[i] out of range".
Proof. by vm_compute. Qed.
End wsh_proofs.

(** An operating system in which every child exits when it is waited for. *)
#[global] Instance DemoUnix : Unix Z := {|
  os_waitpid p fl n := ((if fl =? WUNTRACED then p else 0, 0), n);
  os_kill _ _ n := n;
  os_tcsetpgrp _ n := n;
  os_fork _ n := (n, n + 1);
  os_pipe n := (0, n);
  os_close_pipe _ n := n;
  os_wait n := (-1, n);
  os_chdir _ n := (0, n)
|}.

(** [sleep 9] in the foreground from the start: the 256 slots of [remove_jobs], [fork], the
    job number, the entry and [curr_fg_id = id] are 266 points; the next one is the wait. *)
Definition demo_line : list Z := str "sleep 9" ++ [10].
Definition start (am ah : list (list Z)) : sh Z := init 1 100 am ah.
Definition after (fuel : nat) (line : list Z) (s : sh Z) : sh Z :=
  match run_line fuel line s with Ret _ s' => s' | _ => s end.

(** Ctrl-C and Ctrl-Z at the first point; at the wait Ctrl-C, whose handler is interrupted
    by Ctrl-Z, and the end of the program. *)
Definition demo_am : list (list Z) :=
  [SIGINT; SIGTSTP] :: replicate 265 [] ++ [[SIGINT; SIGCHLD]].
Definition demo_ah : list (list Z) := replicate 8 [] ++ [[SIGTSTP]].

Lemma demo_line_ok : line_ok demo_line (start demo_am demo_ah).
Proof.
  split; [done|]. split; [by vm_compute|]. split; [|done].
  eexists. split; [by vm_compute|]. exists (str "sleep"), [str "9"]. split_and!.
  - by vm_compute.
  - intros _ [H|[H|H]]; vm_compute in H; discriminate.
  - intros H. vm_compute in H. discriminate.
  - intros _. by vm_compute.
  - by exists 0%nat.
Qed.

Definition demo_shell : sh Z := after 10 demo_line (start demo_am demo_ah).

Lemma demo_shell_step : shstep (start demo_am demo_ah) demo_shell.
Proof. apply (step_line 10 _ _ _ demo_line_ok). vm_compute. reflexivity. Qed.


(** [SIGCHLD] interrupts a handler.  After the [kill] of the Ctrl-C or the Ctrl-Z handler
    it resets [curr_fg_id], and the handler goes on with [job_arr[-2]]; between the tests of
    the [fg_remove] that [fg] calls it does the same. *)
Theorem handler_interrupted :
  run_line 10 demo_line (start (replicate 266 [] ++ [[SIGINT]]) (replicate 6 [] ++ [[SIGCHLD]]))
    = Undef "job_arr[i] out of range" /\
  run_line 10 demo_line (start (replicate 266 [] ++ [[SIGTSTP]]) (replicate 6 [] ++ [[SIGCHLD]]))
    = Undef "job_arr[i] out of range" /\
  run_line 10 (str "fg" ++ [10])
    (set_at_handler [[]; [SIGCHLD]] (after 10 (str "sleep 9 &" ++ [10]) (start [] [])))
    = Undef "job_arr[i] out of range".
Proof. by vm_compute. Qed.

(** [SIGCHLD] arrives late: the shell has read its next line with a job still in the
    foreground, and [remove_jobs] finds [ids[0] == 1] and then [job_arr[0] == NULL]. *)
Theorem late_sigchld :
  run_line 10 demo_line (set_at_main [[]; [SIGCHLD]] (after 10 demo_line (start [] [])))
    = Undef "NULL job".
Proof. by vm_compute. Qed.
